(* ===== verification/_CoqProject ===== *)
-Q . S2P
Prelude.v
Types.v
Events.v
State.v
StateFacts.v
StateProps.v
Round.v
Sample.v
RoundThms.v
EncodingThms.v
Badb.v
Consenter.v
ConsenterThms.v
Blocks.v
Ledger.v
StateCodec.v
StateCodecFacts.v
SampleBlocks.v
StateCodecThms.v
Consensus.v
ConsensusFacts.v
SampleNode.v
ConsensusThms.v
DecisionThms.v
Startup.v
StartupThms.v
Lifecycle.v
BatchMapper.v
BatchHeap.v
PrefetchIndex.v
PrefetchThms.v
FabricBatch.v
Assembler.v
AssemblerThms.v
Frontier.v
AssemblerSample.v
PrefetchMap.v
Acker.v
Batcher.v
ConfigStore.v
BatcherNode.v
BatcherThms.v
Equivocation.v
BatcherConsensus.v
BatcherSample.v
BatchStore.v
PendingStore.v
PendingThms.v
Pool.v
PoolThms.v
RateLimit.v
RequestFilter.v
Router.v
RouterThms.v
BatcherService.v
RequestFilterThms.v
RouterStream.v
RouterStreamThms.v
RouterFront.v
BlockVerify.v
BlockVerifyThms.v
SyncThms.v
BlockVerifySample.v
ConfigAck.v
NodeLifecycle.v
Endpoints.v
SyncTarget.v
Synchronizer.v
Censorship.v
CensorshipThms.v
Deliverer.v
DelivererThms.v
SyncSample.v
Wire.v
BlockFiles.v
BlockFilesFacts.v
BlockFilesOpen.v
BlockFilesThms.v
ConfigRules.v
ConfigRulesThms.v
