(* ===== verification/Prelude.v ===== *)
(** * A verification library for the Arma ordering service

    Arma is a Byzantine fault tolerant ordering service in Go. Each party runs a router, a batcher per shard, a consenter and an assembler. A client's request goes from a
    router ([src/node/router]) to the batcher of the shard it maps to ([src/node/batcher], with the mempool in [src/request]). In each shard one batcher is the primary of the current term: it makes batches,
    the others pull and verify them, and every batcher sends a signed fragment for each batch to all consenters ([src/node/consensus]). The consenters agree, through the SmartBFT library, on
    sequences of control events (fragments, complaints, config requests, reports of assemblers) and run a deterministic state machine on them: a batch with [f + 1] fragments is ordered, which gives a block header in
    the decision, and complaints or an equivocation rotate the primary of a shard. The assemblers ([src/node/assembler]) follow the decisions, fetch the batches and append the blocks. A config block reconfigures all nodes.

    ** Conventions

    Go code that can fail is an [outcome]: [Ok], [Err] for a returned error (named without its formatted arguments), [Panic]. Integers of a width are [N] or [Z] with the wrap-around written out ([u16], [u32], [u64], [i64]);
    byte slices are lists of bytes, [slice] where nil differs from empty; maps are [gmap], and code that iterates over a Go map is a function of the order of iteration (class [MapRange] and the like). Components that interact do so through classes:
    [BatchAttestationDB], [MemPool], [BatchedRequestsVerifier], [PooledRequests], [BlockVerifier], [ChainVerifier], [HeaderChain]. Goroutines are step relations: a step is what runs between two accesses to shared state,
    or a critical section. What is not under [src/], or is Fabric's or SmartBFT's, is a class with its documented laws: protobuf and ASN.1 codecs ([FabricCodecs], [BlockCodecs], [StateCodecs], [BFTCodecs], [RequestCodecs]:
    what is encoded decodes to itself), [Sha256] (32 bytes; collisions are allowed and named in the theorems), signatures and configurations ([Environment], [ConfigPath], [ChannelConfigs], [DeliveryConfig], [ConfigLibrary], [ConfigTx]). The [Sample] files instantiate all of them with executable functions, at which the theorems are applied.

    ** Files

    - [Prelude]: outcomes, slices, integers, shared lemmas, hints. [Types], [Events]: [src/common/types], thresholds, control events and their encodings. [EncodingThms]: framing, digests, signed payloads, quorums.
    - [State], [StateFacts], [StateProps], [Round], [RoundThms], [Equivocation]: [src/node/consensus/state/state.go], the state machine; a round never panics, keeps the invariant, does not depend on map orders; what
      is ordered has an honest fragment, every fragment is accounted for, terms advance exactly when they should, the durable watermark. [Equivocation]: evidence that is never consumed.
    - [Badb], [Consenter], [ConsenterThms]: the database of ordered digests and the consenter on top of the state machine; what was ordered in a decision is not ordered in a later one.
    - [Blocks], [Ledger], [StateCodec], [StateCodecFacts], [StateCodecThms]: blocks, headers, decisions and the ledger with their encodings.
    - [Consensus], [ConsensusFacts], [ConsensusThms], [DecisionThms], [Startup], [StartupThms], [Lifecycle]: [src/node/consensus/consensus.go] and [consensus_builder.go], the application of SmartBFT: an honest proposal is accepted, an accepted one is
      sound, delivered decisions are the ledger, synchronization and restart give the same state, stopping and reconfiguring.
    - [BatchMapper], [BatchHeap], [PrefetchIndex], [PrefetchThms], [PrefetchMap]: the assembler's prefetch index in every interleaving. [FabricBatch]: batch ledgers. [Assembler], [AssemblerThms], [Frontier], [AssemblerSample]: the collator, its
      ledger and the fetcher of batches; through crashes the ledger is exactly the ordered blocks.
    - [Acker], [Batcher], [BatcherNode], [BatcherThms], [BatcherConsensus], [BatcherSample], [ConfigStore]: the role of a batcher, the node around it and its interplay with the consenters; a batcher attests once, an honest primary is never blamed for equivocation.
    - [BatchStore], [PendingStore], [PendingThms], [Pool], [PoolThms]: the mempool; accounting, and detection of ignored requests.
    - [RateLimit], [RequestFilter], [RequestFilterThms], [BatcherService]: the limiter, the checks of a request by router and batcher, the services that fill the mempool; an accepted batch is verified although pooled requests are not checked again.
    - [Router], [RouterThms], [RouterFront], [RouterStream], [RouterStreamThms] and the samples: dispatch, replies, config updates, the decisions a router follows, and the streams to a batcher as a step relation; admission, routing, no missed config block, replies.
    - [BlockVerify], [BlockVerifyThms], [SyncThms], [BlockVerifySample]: the verifiers of blocks that are pulled from other nodes; accepted blocks extend the ledger, are signed, and which decisions pass.
    - [ConfigAck], [NodeLifecycle]: the handshake before a new configuration is applied, and the life cycles of router, batcher and assembler.
    - [Endpoints], [SyncTarget], [Synchronizer]: how a node that fell behind catches up: the sources it may pull from ([src/common/deliverclient/orderers]), the probes of the others ([src/node/comm/deliver.go]), the
      target height and the genesis block, the buffer and the synchronizers of consenters and assemblers; the target can be reached, the genesis block is the honest nodes', and catching up gives the state of those that took part.
    - [Censorship], [CensorshipThms], [Deliverer], [DelivererThms]: the deliverer of blocks and the monitor of censorship of [src/common/deliverclient/blocksprovider] as step relations; what is handed on extends the ledger in every interleaving, the attempts
      are bounded and take turns, when censorship is reported, and what the receivers of headers miss. [SyncSample]: all of these at small clusters and chains.
    - [Wire], [BlockFiles], [BlockFilesFacts], [BlockFilesOpen], [BlockFilesThms]: the store of block files under every ledger ([src/common/ledger/blkstorage]): varints and serialization, files, index, cache, pruning and recovery over a disk on which calls fail
      and a crash may come between any two writes; the store refines the ledger, opens again after every crash, and pruning removes exactly what it says.
    - [ConfigRules], [ConfigRulesThms]: the rules of new configurations and of transitions ([src/config/verify]), how a config request is proposed and validated ([src/common/policy], [src/node/consensus/configrequest]), and the block validation policy; which transitions
      are accepted, identifiers of parties are never used again, the policy asks for a quorum of the consenters, and quorums of consecutive configurations share an honest party. In [rules_environment] they are the rules of the consensus.
    - [Sample], [SampleBlocks], [SampleNode] and the other samples: concrete codecs, states, nodes and runs.

    ** Bounds and fuel

    Loops of the code that need not end take fuel and have a theorem that some amount is enough, or that none is: [Pool_Submit] and [Pool_Restart] need two rounds ([PoolThms.pool_accounting]; with an oversized request none suffice, [oversize_submit_hangs]); the scan
    for the batch frontier needs the height of the ledger; the loop that pulls from a sync buffer the number of the choices it is given ([pull_loop_complete]); the eviction in a prefetch index the number of its batches; the scans and streams over block files and the loops that decode a block need as many steps as there are bytes ([extractItems_fuel] and the lemmas on streams), which is what they are given. Numbers that are hypotheses are those of the code's types (sequences below [2^64], shards and parties below [2^16]); a block file holds less than [2^56] bytes, a policy less than [2^30] consenters, and a config that is applied between one party and 65535 ([Consenter.config_in_range]). The limits of a mempool let a legal request fit a batch ([PoolThms.options_ok]), which nothing enforces. A crash keeps a prefix of the writes of the operation in progress, and may lose those that were not synced.

    ** Not modelled

    SmartBFT itself, which is assumed to deliver the decisions; gRPC and TLS; LevelDB and the file repository, which are atomic maps; parsing of configurations ([src/config], Fabric's bundles), which are parameters; the deliver service and the iterators of the block store; pulling of blocks
    by a [BlockPuller], which the synchronizers only probe with; the window of the monitor's stop history, computed with logarithms of doubles, which is a parameter; metrics, operations endpoints, tools and tests. Within the modelled
    components: the backoff and timeouts of connections, logging, and the construction of nodes from their configuration. Each stream slot of a shard router is modelled on its own, as the code keeps them apart; the calls of the mempool are atomic, as its lock makes them, up to
    the wait for a permit, which is a refusal, and that of NextRequests for a batch, during which others run ([PoolThms.call_step]). The channel of search requests of a prefetch index has no bound: a send to the full channel is placed
    when there is room. *)
From stdpp Require Export base decidable countable list gmap sorting strings numbers list_numbers.
From Stdlib Require Export Strings.Byte.
From Stdlib Require Import NArith Lia.

#[global] Set Default Goal Selector "!".

Declare Scope go_scope.
Delimit Scope go_scope with go.
Open Scope go_scope.

Create HintDb go.
Create Rewrite HintDb go.

(** ** Outcomes of Go code

    A Go function that can fail returns a value and an error; one that indexes out of range or calls
    [panic] stops the goroutine.  [gerror] names the error, without its formatted arguments. *)
Definition gerror : Type := string.

Inductive outcome (A : Type) : Type :=
  | Ok (a : A)
  | Err (e : gerror)
  | Panic (e : gerror).
Arguments Ok {A} a.
Arguments Err {A} e.
Arguments Panic {A} e.

#[export] Instance outcome_ret : MRet outcome := fun _ a => Ok a.
#[export] Instance outcome_bind : MBind outcome := fun _ _ f o =>
  match o with
  | Ok a => f a
  | Err e => Err e
  | Panic e => Panic e
  end.

Definition is_ok {A} (o : outcome A) : bool :=
  match o with Ok _ => true | _ => false end.

(** [guard_err b e k]: [if b { return e }; k]. *)
Definition guard_err {A} (b : bool) (e : gerror) (k : outcome A) : outcome A :=
  if b then Err e else k.
Definition guard_panic {A} (b : bool) (e : gerror) (k : outcome A) : outcome A :=
  if b then Panic e else k.

Notation "'fail_if' b 'with' e ';;' k" := (guard_err b e k)
  (at level 10, b at level 100, e at level 0, k at level 200,
   format "'fail_if'  b  'with'  e  ';;' '//' k") : go_scope.
Notation "'panic_if' b 'with' e ';;' k" := (guard_panic b e k)
  (at level 10, b at level 100, e at level 0, k at level 200,
   format "'panic_if'  b  'with'  e  ';;' '//' k") : go_scope.

Definition of_option {A} (e : gerror) (o : option A) : outcome A :=
  match o with Some a => Ok a | None => Err e end.

(** Wrapping an error keeps it an error and keeps a panic a panic. *)
Definition wrap_err {A} (w : gerror) (o : outcome A) : outcome A :=
  match o with Err _ => Err w | _ => o end.

(** The caller panics on an error. *)
Definition or_panic {A} (o : outcome A) : outcome A := match o with Err e => Panic e | o => o end.

Lemma or_panic_Ok {A} (o : outcome A) a : or_panic o = Ok a -> o = Ok a.
Proof. by destruct o. Qed.

(** A checked index expression [l[i]]. *)
Definition index {A} (l : list A) (i : nat) : outcome A :=
  match l !! i with Some a => Ok a | None => Panic "index out of range" end.

Fixpoint omapM {A B} (f : A -> outcome B) (l : list A) : outcome (list B) :=
  match l with
  | [] => Ok []
  | x :: l' => y ← f x; ys ← omapM f l'; Ok (y :: ys)
  end.

Lemma Ok_inj {A} (a b : A) : Ok a = Ok b -> a = b.
Proof. congruence. Qed.

Lemma bind_Ok_inv {A B} (f : A -> outcome B) (o : outcome A) b :
  (o ≫= f) = Ok b -> exists a, o = Ok a /\ f a = Ok b.
Proof. destruct o; cbn; try discriminate; eauto. Qed.

Lemma guard_err_Ok {A} (b : bool) e (k : outcome A) a :
  guard_err b e k = Ok a <-> b = false /\ k = Ok a.
Proof. destruct b; cbn; split; [discriminate|intros [? _]; discriminate|auto|intros [_ ?]; auto]. Qed.

Lemma guard_panic_Ok {A} (b : bool) e (k : outcome A) a :
  guard_panic b e k = Ok a <-> b = false /\ k = Ok a.
Proof. destruct b; cbn; split; [discriminate|intros [? _]; discriminate|auto|intros [_ ?]; auto]. Qed.

Lemma wrap_err_Ok {A} w (o : outcome A) a : wrap_err w o = Ok a <-> o = Ok a.
Proof. destruct o; cbn; split; intros; try discriminate; auto. Qed.

Lemma of_option_Ok {A} e (o : option A) a : of_option e o = Ok a <-> o = Some a.
Proof. destruct o; cbn; split; intros; simplify_eq; auto. Qed.

Lemma index_Ok {A} (l : list A) i a : index l i = Ok a <-> l !! i = Some a.
Proof. unfold index. destruct (l !! i); split; intros; simplify_eq; auto. Qed.

Lemma omapM_Ok {A B} (f : A -> outcome B) l k :
  omapM f l = Ok k <-> Forall2 (fun a b => f a = Ok b) l k.
Proof.
  revert k; induction l as [|x l IH]; intros k; cbn.
  - split; [intros; simplify_eq; constructor | inversion 1; auto].
  - split.
    + intros (y & Hy & (ys & Hys & E)%bind_Ok_inv)%bind_Ok_inv. simplify_eq.
      constructor; [done | by apply IH].
    + inversion 1 as [|? b ? ys Hb Hys]; subst. rewrite Hb; cbn.
      apply IH in Hys. by rewrite Hys.
Qed.

Lemma omapM_map_id {A B} (f : A -> outcome B) (g : B -> A) l :
  (forall b, b ∈ l -> f (g b) = Ok b) -> omapM f (g <$> l) = Ok l.
Proof.
  induction l as [|x l IH]; intros H; cbn; [done|].
  rewrite (H x) by set_solver; cbn. rewrite IH by set_solver. done.
Qed.

(** Inversion of a successful run: splits binds, guards and wraps in the hypotheses. *)
Ltac outcome_inv :=
  repeat match goal with
  | H : mbind _ _ = Ok _ |- _ =>
      let a := fresh "v" in let H1 := fresh "Hrun" in let H2 := fresh "Hrun" in
      apply bind_Ok_inv in H as (a & H1 & H2)
  | H : guard_err _ _ _ = Ok _ |- _ =>
      let G := fresh "Hguard" in apply guard_err_Ok in H as [G H]
  | H : guard_panic _ _ _ = Ok _ |- _ =>
      let G := fresh "Hguard" in apply guard_panic_Ok in H as [G H]
  | H : wrap_err _ _ = Ok _ |- _ => apply wrap_err_Ok in H
  | H : of_option _ _ = Ok _ |- _ => apply of_option_Ok in H
  | H : index _ _ = Ok _ |- _ => apply index_Ok in H
  | H : mret _ = Ok _ |- _ => unfold mret, outcome_ret in H
  | H : Ok _ = Ok _ |- _ => injection H as H; try subst
  | H : Err _ = Ok _ |- _ => discriminate H
  | H : Panic _ = Ok _ |- _ => discriminate H
  end.

(** ** Machine integers

    Unsigned integers are [N] reduced modulo their width where the code can wrap. *)
Definition u16_max : N := 65535.
Definition u32_max : N := 4294967295.
Definition u64_max : N := 18446744073709551615.
Definition u16 (n : N) : N := (n mod 65536)%N.
Definition u32 (n : N) : N := (n mod 4294967296)%N.
Definition u64 (n : N) : N := (n mod 18446744073709551616)%N.

(** [x++] on a uint64. *)
Definition u64_incr (n : N) : N := u64 (n + 1).

Lemma u16_small n : (n <= u16_max)%N -> u16 n = n.
Proof. unfold u16, u16_max; intros. apply N.mod_small; lia. Qed.
Lemma u32_small n : (n <= u32_max)%N -> u32 n = n.
Proof. unfold u32, u32_max; intros. apply N.mod_small; lia. Qed.
Lemma u64_small n : (n <= u64_max)%N -> u64 n = n.
Proof. unfold u64, u64_max; intros. apply N.mod_small; lia. Qed.
Lemma u64_incr_small n : (n < u64_max)%N -> u64_incr n = (n + 1)%N.
Proof. intros. apply u64_small. unfold u64_max in *. lia. Qed.
Lemma u64_incr_ne n : u64_incr n <> n.
Proof.
  unfold u64_incr, u64. intros H.
  pose proof (N.mod_lt (n + 1) 18446744073709551616 ltac:(lia)) as Hlt.
  rewrite H in Hlt.
  destruct (decide (n + 1 < 18446744073709551616)%N) as [Hs|Hs].
  - rewrite N.mod_small in H by lia. lia.
  - assert (n + 1 = 18446744073709551616)%N as E by lia. rewrite E in H.
    rewrite N.Div0.mod_same in H. lia.
Qed.

(** [int] and [int64] are [Z] between these bounds; [int(x)] of a uint64 and [uint64(x)] of an int keep the bits. *)
Definition max_int64 : Z := 9223372036854775807.
Definition i64 (z : Z) : Z := ((z + 9223372036854775808) mod 18446744073709551616 - 9223372036854775808)%Z.
Definition int_of_u64 (n : N) : Z := i64 (Z.of_N n).
Definition u64_of_int (z : Z) : N := Z.to_N (z mod 18446744073709551616)%Z.

Lemma i64_small z : (- 9223372036854775808 <= z <= max_int64)%Z -> i64 z = z.
Proof. unfold i64, max_int64. intros Hz. rewrite Z.mod_small by lia. lia. Qed.
Lemma u64_of_int_small z : (0 <= z <= max_int64)%Z -> u64_of_int z = Z.to_N z.
Proof. unfold u64_of_int, max_int64. intros Hz. by rewrite Z.mod_small by lia. Qed.
Lemma int_of_u64_of_int z : (- 9223372036854775808 <= z <= max_int64)%Z -> int_of_u64 (u64_of_int z) = z.
Proof.
  unfold int_of_u64, u64_of_int, max_int64. intros Hz. rewrite Z2N.id by (apply Z.mod_pos_bound; lia).
  unfold i64. rewrite Z.add_mod_idemp_l by lia. rewrite Z.mod_small by lia. lia.
Qed.
Lemma u64_of_int_bound z : (u64_of_int z <= u64_max)%N.
Proof. unfold u64_of_int, u64_max. pose proof (Z.mod_pos_bound z 18446744073709551616). lia. Qed.

(** Names the quotient and remainder of a division by a constant, for [lia]. *)
Ltac div_mod_spec a b :=
  let q := fresh "q" in let r := fresh "r" in
  pose proof (N.div_mod a b ltac:(lia)); pose proof (N.mod_lt a b ltac:(lia));
  set (q := (a / b)%N) in *; set (r := (a mod b)%N) in *; clearbody q r.

(** ** Bytes, big-endian integers and hexadecimal *)
#[export] Instance byte_eq_dec : EqDecision byte := Byte.byte_eq_dec.
#[export] Instance byte_countable : Countable byte.
Proof.
  refine (inj_countable Byte.to_N Byte.of_N _). intros b. apply Byte.of_to_N.
Defined.

Abbreviation bytes := (list byte).

(** A Go slice where the code tests it for nil: [None] is the nil slice. *)
Abbreviation slice := (option (list byte)).
Definition slice_bytes (s : slice) : bytes := default [] s.

Definition byte_of_N (n : N) : byte :=
  match Byte.of_N (n mod 256)%N with Some b => b | None => x00 end.

Lemma to_N_byte_of_N n : Byte.to_N (byte_of_N n) = (n mod 256)%N.
Proof.
  unfold byte_of_N. destruct (Byte.of_N _) eqn:E.
  - by apply Byte.to_of_N in E.
  - apply Byte.of_N_None_iff in E. pose proof (N.mod_lt n 256). lia.
Qed.

Lemma byte_of_N_to_N b : byte_of_N (Byte.to_N b) = b.
Proof.
  unfold byte_of_N. pose proof (Byte.to_N_bounded b).
  rewrite N.mod_small by lia. by rewrite Byte.of_to_N.
Qed.

Lemma to_N_inj b c : Byte.to_N b = Byte.to_N c -> b = c.
Proof. intros H. rewrite <-(byte_of_N_to_N b), <-(byte_of_N_to_N c). by rewrite H. Qed.

(** [binary.BigEndian.PutUint(8k)] and [binary.BigEndian.Uint(8k)]. *)
Fixpoint be_put (k : nat) (n : N) : bytes :=
  match k with
  | O => []
  | S k' => be_put k' (n / 256)%N ++ [byte_of_N n]
  end.

Definition be_get (bs : bytes) : N :=
  foldl (fun acc b => acc * 256 + Byte.to_N b)%N 0%N bs.

Lemma length_be_put k n : length (be_put k n) = k.
Proof.
  revert n; induction k as [|k IH]; intros n; cbn; [done|].
  rewrite length_app, IH. cbn. lia.
Qed.

Lemma be_get_snoc bs b : be_get (bs ++ [b]) = (be_get bs * 256 + Byte.to_N b)%N.
Proof. unfold be_get. by rewrite foldl_app. Qed.

Lemma be_get_put k n : be_get (be_put k n) = (n mod 256 ^ N.of_nat k)%N.
Proof.
  revert n; induction k as [|k IH]; intros n; cbn [be_put].
  - by rewrite N.mod_1_r.
  - rewrite be_get_snoc, IH, to_N_byte_of_N, Nat2N.inj_succ, N.pow_succ_r'.
    rewrite (N.Div0.mod_mul_r n 256). lia.
Qed.

Lemma be_get_put_small k n : (n < 256 ^ N.of_nat k)%N -> be_get (be_put k n) = n.
Proof. intros. rewrite be_get_put. by apply N.mod_small. Qed.

Lemma be_put_get bs : be_put (length bs) (be_get bs) = bs.
Proof.
  induction bs as [|b bs IH] using rev_ind; [done|].
  rewrite length_app, Nat.add_comm; cbn. rewrite be_get_snoc.
  pose proof (Byte.to_N_bounded b).
  rewrite N.add_comm, N.div_add, N.div_small, N.add_0_l, IH by lia.
  f_equal. f_equal. apply to_N_inj. rewrite to_N_byte_of_N.
  rewrite N.Div0.mod_add. apply N.mod_small. lia.
Qed.

Lemma be_put_get_len k bs : length bs = k -> be_put k (be_get bs) = bs.
Proof. intros <-. apply be_put_get. Qed.

Lemma be_get_bound bs : (be_get bs < 256 ^ N.of_nat (length bs))%N.
Proof.
  rewrite <-(be_put_get bs) at 1. rewrite be_get_put. apply N.mod_lt.
  apply N.pow_nonzero. lia.
Qed.

Lemma be_get_inj bs cs : length bs = length cs -> be_get bs = be_get cs -> bs = cs.
Proof. intros Hl Hg. rewrite <-(be_put_get bs), <-(be_put_get cs). by rewrite Hl, Hg. Qed.

Lemma be_put_inj k n m :
  (n < 256 ^ N.of_nat k)%N -> (m < 256 ^ N.of_nat k)%N -> be_put k n = be_put k m -> n = m.
Proof.
  intros Hn Hm H. rewrite <-(be_get_put_small k n), <-(be_get_put_small k m) by done. by rewrite H.
Qed.

Lemma be_get_put2 n : (n <= u16_max)%N -> be_get (be_put 2 n) = n.
Proof.
  unfold u16_max. intros. apply be_get_put_small. change (256 ^ N.of_nat 2)%N with 65536%N. lia.
Qed.
Lemma be_get_put4 n : (n <= u32_max)%N -> be_get (be_put 4 n) = n.
Proof.
  unfold u32_max. intros. apply be_get_put_small. change (256 ^ N.of_nat 4)%N with 4294967296%N. lia.
Qed.
Lemma be_get_put8 n : (n <= u64_max)%N -> be_get (be_put 8 n) = n.
Proof.
  unfold u64_max. intros. apply be_get_put_small.
  change (256 ^ N.of_nat 8)%N with 18446744073709551616%N. lia.
Qed.

Lemma be_get_bound2 bs : length bs = 2 -> (be_get bs <= u16_max)%N.
Proof.
  intros H. pose proof (be_get_bound bs) as B. rewrite H in B.
  change (256 ^ N.of_nat 2)%N with 65536%N in B. unfold u16_max. lia.
Qed.
Lemma be_get_bound8 bs : length bs = 8 -> (be_get bs <= u64_max)%N.
Proof.
  intros H. pose proof (be_get_bound bs) as B. rewrite H in B.
  change (256 ^ N.of_nat 8)%N with 18446744073709551616%N in B. unfold u64_max. lia.
Qed.

Lemma be_put2_inj n m : (n <= u16_max)%N -> (m <= u16_max)%N -> be_put 2 n = be_put 2 m -> n = m.
Proof. intros Hn Hm E. rewrite <-(be_get_put2 n), <-(be_get_put2 m) by done. by rewrite E. Qed.
Lemma be_put8_inj n m : (n <= u64_max)%N -> (m <= u64_max)%N -> be_put 8 n = be_put 8 m -> n = m.
Proof. intros Hn Hm E. rewrite <-(be_get_put8 n), <-(be_get_put8 m) by done. by rewrite E. Qed.

(** [bs[a:b]] for in-range bounds. *)
Definition sub (a b : nat) (bs : bytes) : bytes := take (b - a) (drop a bs).

Lemma sub_mid (p x s bs : bytes) a b :
  bs = p ++ x ++ s -> a = length p -> b = a + length x -> sub a b bs = x.
Proof.
  intros -> -> ->. unfold sub. rewrite drop_app_length, Nat.add_comm, Nat.add_sub.
  apply take_app_length.
Qed.

Lemma length_sub a b (bs : bytes) : b <= length bs -> length (sub a b bs) = b - a.
Proof. intros. unfold sub. rewrite length_take, length_drop. lia. Qed.

Lemma sub_split a b c (bs : bytes) : a <= b <= c -> sub a c bs = sub a b bs ++ sub b c bs.
Proof.
  intros H. unfold sub. replace (c - a) with ((b - a) + (c - b)) by lia.
  rewrite <-take_take_drop, drop_drop. do 3 f_equal. lia.
Qed.

Lemma sub_full (bs : bytes) : sub 0 (length bs) bs = bs.
Proof. unfold sub. rewrite drop_0, Nat.sub_0_r. apply firstn_all. Qed.

Lemma sub_0 b (bs : bytes) : sub 0 b bs = take b bs.
Proof. unfold sub. by rewrite drop_0, Nat.sub_0_r. Qed.

(** Field [i] of an encoding laid out as consecutive fields. *)
Lemma sub_field (fs : list bytes) (i : nat) (x bs : bytes) a b :
  bs = concat fs -> fs !! i = Some x -> a = length (concat (take i fs)) -> b = a + length x ->
  sub a b bs = x.
Proof.
  intros -> Hi -> ->. apply (sub_mid (concat (take i fs)) x (concat (drop (S i) fs))); [|done..].
  rewrite <-(take_drop_middle fs i x Hi) at 1. by rewrite concat_app.
Qed.

(** Rewrites the read of field [i] of the layout [fs]; lengths of the fields are in the context. *)
Ltac read_field fs i x a b :=
  rewrite (sub_field fs i x _ a b) by
    (first [ reflexivity | cbn [concat app]; rewrite ?app_nil_r, <-?app_assoc; reflexivity
           | cbn [concat app take]; rewrite ?length_app; cbn [length]; lia ]).

(** [hex.EncodeToString]; Go strings are byte sequences. *)
Definition hex_digit (n : N) : byte :=
  byte_of_N (if (n <? 10)%N then 48 + n else 87 + n)%N.

Definition hex_encode (bs : bytes) : bytes :=
  bs ≫= fun b => [hex_digit (Byte.to_N b / 16); hex_digit (Byte.to_N b mod 16)]%N.

Lemma hex_digit_inj n m : (n < 16)%N -> (m < 16)%N -> hex_digit n = hex_digit m -> n = m.
Proof.
  intros Hn Hm H%(f_equal Byte.to_N). unfold hex_digit in H.
  rewrite !to_N_byte_of_N in H.
  destruct (N.ltb_spec n 10), (N.ltb_spec m 10);
    rewrite !N.mod_small in H by lia; lia.
Qed.

#[export] Instance hex_encode_inj : Inj (=) (=) hex_encode.
Proof.
  intros bs; induction bs as [|b bs IH]; intros [|c cs]; cbn; try discriminate; [done|].
  intros H. injection H as H1 H2 H3.
  pose proof (Byte.to_N_bounded b). pose proof (Byte.to_N_bounded c).
  apply hex_digit_inj in H1; [| apply N.Div0.div_lt_upper_bound; lia..].
  apply hex_digit_inj in H2; [| apply N.mod_lt; lia..].
  f_equal; [|by apply IH]. apply to_N_inj.
  rewrite (N.div_mod (Byte.to_N b) 16), (N.div_mod (Byte.to_N c) 16) by lia. by rewrite H1, H2.
Qed.

(** [copy(buff[..k], src)] into a zeroed buffer of size [k]. *)
Definition copy_into (k : nat) (src : bytes) : bytes :=
  take k src ++ replicate (k - length src) x00.

Lemma length_copy_into k src : length (copy_into k src) = k.
Proof. unfold copy_into. rewrite length_app, length_take, length_replicate. lia. Qed.

Lemma copy_into_exact k src : length src = k -> copy_into k src = src.
Proof.
  intros <-. unfold copy_into. rewrite firstn_all, Nat.sub_diag. apply app_nil_r.
Qed.

(** ** Iteration over a Go map

    The order of [range] over a map is unspecified, so code that iterates a map takes the order from
    this class; [site] distinguishes the places that iterate. *)
Class MapRange := {
  range_map : forall {K} `{Countable K} {A}, nat -> gmap K A -> list (K * A);
  range_perm : forall {K} `{Countable K} {A} (site : nat) (m : gmap K A),
    range_map site m ≡ₚ map_to_list m
}.

Definition range_canonical : MapRange :=
  {| range_map _ _ _ _ _ m := map_to_list m; range_perm _ _ _ _ _ m := reflexivity _ |}.

Definition range_reversed : MapRange.
Proof.
  refine {| range_map K _ _ A _ m := reverse (map_to_list m) |}.
  intros. apply reverse_Permutation.
Defined.

Lemma elem_of_range {R : MapRange} `{Countable K} {A} site (m : gmap K A) k a :
  (k, a) ∈ range_map site m <-> m !! k = Some a.
Proof. rewrite range_perm. apply elem_of_map_to_list. Qed.

(** ** Sorting *)
Lemma sorted_perm_unique {A} (R : relation A) `{!forall x y, Decision (R x y)}
    `{!Transitive R} `{!Total R} `{!AntiSymm (=) R} (l k : list A) :
  l ≡ₚ k -> merge_sort R l = merge_sort R k.
Proof.
  intros Hp. eapply (StronglySorted_unique R).
  - by apply StronglySorted_merge_sort.
  - by apply StronglySorted_merge_sort.
  - by rewrite !merge_sort_Permutation.
Qed.

(** ** Lists *)
Lemma fmap_filter_NoDup {A B} (f : A -> B) (P : A -> Prop) `{!forall x, Decision (P x)} l :
  NoDup (f <$> l) -> NoDup (f <$> filter P l).
Proof.
  induction l as [|x l IH]; [done|]. rewrite fmap_cons, NoDup_cons. intros [Hx Hl].
  rewrite filter_cons. case_decide; [|auto]. rewrite fmap_cons, NoDup_cons. split; [|auto].
  rewrite list_elem_of_fmap in *. intros (y & E & Hy). apply list_elem_of_filter in Hy as [_ Hy]. apply Hx. by exists y.
Qed.

Lemma fmap_ext_elem {A B} (f g : A -> B) (l : list A) :
  (forall x, x ∈ l -> f x = g x) -> f <$> l = g <$> l.
Proof.
  intros Hfg. apply list_fmap_ext. intros i x Hx. apply Hfg. by eapply list_elem_of_lookup_2.
Qed.

Lemma fmap_id_elem {A} (f : A -> A) (l : list A) : (forall x, x ∈ l -> f x = x) -> f <$> l = l.
Proof. intros Hf. rewrite <-(list_fmap_id l) at 2. by apply fmap_ext_elem. Qed.

Lemma filter_ext_elem {A} (P Q : A -> Prop) `{!forall x, Decision (P x), !forall x, Decision (Q x)} (l : list A) :
  (forall x, x ∈ l -> P x <-> Q x) -> filter P l = filter Q l.
Proof.
  induction l as [|x l IH]; intros HPQ; [done|]. rewrite !filter_cons.
  rewrite (IH ltac:(intros; apply HPQ; by right)).
  specialize (HPQ x ltac:(by left)). destruct (decide (P x)), (decide (Q x)); tauto.
Qed.

Lemma lookup_fmap_eq_unique {A B} (f : A -> B) (l : list A) x y :
  NoDup (f <$> l) -> x ∈ l -> y ∈ l -> f x = f y -> x = y.
Proof.
  intros Hnd [i Hi]%list_elem_of_lookup [j Hj]%list_elem_of_lookup E.
  assert (i = j) as ->; [|congruence].
  eapply NoDup_lookup; [exact Hnd| |]; rewrite list_lookup_fmap.
  - rewrite Hi. reflexivity.
  - rewrite Hj; cbn. by rewrite E.
Qed.

Lemma NoDup_fmap_elem {A B} (f : A -> B) (l : list A) :
  NoDup l -> (forall x y, x ∈ l -> y ∈ l -> f x = f y -> x = y) -> NoDup (f <$> l).
Proof.
  induction l as [|x l IH]; intros Hnd Hinj; [constructor|].
  apply NoDup_cons in Hnd as [Hx Hnd]. rewrite fmap_cons. constructor.
  - rewrite list_elem_of_fmap. intros (y & E & Hy). apply Hx.
    rewrite (Hinj x y); set_solver.
  - apply IH; set_solver.
Qed.

Lemma filter_none {A} (P : A -> Prop) `{!forall x, Decision (P x)} (l : list A) : Forall (fun x => ~ P x) l -> filter P l = [].
Proof. induction 1; [done|]. by rewrite filter_cons, decide_False. Qed.
Lemma filter_all {A} (P : A -> Prop) `{!forall x, Decision (P x)} (l : list A) : Forall P l -> filter P l = l.
Proof. induction 1; [done|]. rewrite filter_cons, decide_True by done. by f_equal. Qed.

Lemma elem_of_concat {A} (x : A) ls : x ∈ concat ls <-> exists l, x ∈ l /\ l ∈ ls.
Proof.
  induction ls as [|l ls IH]; cbn; [split; [by intros ?%not_elem_of_nil|by intros (? & _ & ?%not_elem_of_nil)]|].
  rewrite elem_of_app, IH. split; [intros [?|(l' & ? & ?)]; [exists l|exists l']; set_solver|].
  intros (l' & ? & [->|?]%elem_of_cons); [by left|right; eauto].
Qed.

Lemma sublist_length_filter {A} (P Q : A -> Prop) `{!forall x, Decision (P x), !forall x, Decision (Q x)} l :
  (forall x, x ∈ l -> P x -> Q x) -> length (filter P l) <= length (filter Q l).
Proof.
  induction l as [|x l IH]; intros HPQ; [done|].
  rewrite !filter_cons. repeat case_decide; cbn; try (specialize (IH ltac:(set_solver)); lia).
  exfalso. eauto with set_solver.
Qed.

#[export] Hint Rewrite @length_be_put @length_copy_into @length_app @length_take @length_drop
  @length_replicate @length_fmap : go.
#[export] Hint Resolve u16_small u32_small u64_small : go.

(** More distinct elements than a set has: one is outside the set. *)
Lemma pigeonhole_outside `{Countable A} (l : list A) (F : gset A) :
  NoDup l -> size F < length l -> exists x, x ∈ l /\ x ∉ F.
Proof.
  intros Hnd Hlt. destruct (decide (Exists (fun x => x ∉ F) l)) as [Hex|Hall].
  - by apply Exists_exists in Hex.
  - exfalso. assert ((list_to_set l : gset A) ⊆ F) as Hsub.
    { intros x Hx%elem_of_list_to_set. apply dec_stable. intros Hn. apply Hall, Exists_exists. eauto. }
    apply subseteq_size in Hsub. rewrite size_list_to_set in Hsub by done. lia.
Qed.

Lemma N_of_nat_le a b : a <= b -> (N.of_nat a <= N.of_nat b)%N.
Proof. lia. Qed.

Lemma Forall_filter {A} (P Q : A -> Prop) `{!forall x, Decision (Q x)} (l : list A) : Forall P l -> Forall P (filter Q l).
Proof. rewrite !Forall_forall. intros Hall x [_ Hx]%list_elem_of_filter. auto. Qed.
