(* ===== verification/Types.v ===== *)
(** * Common types and their byte encodings

    [src/common/types] (identifiers, batches, batch attestation fragments, batched requests, signature
    domains), [src/common/utils/state.go] (thresholds), and the fixed-layout codecs of
    [src/node/consensus/state] (available batches, complaints, assembler decision reports). *)
From S2P Require Import Prelude.
From Stdlib Require Import NArith Lia.

Abbreviation ShardID := N (only parsing).
Abbreviation PartyID := N (only parsing).
Abbreviation BatchSequence := N (only parsing).
Abbreviation DecisionNum := N (only parsing).
Abbreviation ConfigSequence := N (only parsing).

(** ShardIDConsensus encodes a config TX emitted by consensus. *)
Definition ShardIDConsensus : ShardID := u16_max.

(** ** Codecs of libraries

    Protocol buffers and ASN.1 are library encodings: an encoder that may refuse a value (a proto string that is
    not UTF-8, say), a partial decoder, and the documented law that decoding an encoding gives the value back. *)
Class Codec (A : Type) := {
  enc : A -> option bytes;
  dec : bytes -> option A;
  dec_enc : forall a bs, enc a = Some bs -> dec bs = Some a
}.

Lemma enc_inj `{Codec A} (a b : A) bs : enc a = Some bs -> enc b = Some bs -> a = b.
Proof. intros Ea Eb. apply dec_enc in Ea, Eb. congruence. Qed.

(** The code panics when marshalling fails. *)
Definition marshal_or_panic `{Codec A} (a : A) : outcome bytes :=
  match enc a with Some bs => Ok bs | None => Panic "failed to marshal" end.
Definition unmarshal `{Codec A} (bs : bytes) : outcome A := of_option "failed to unmarshal" (dec bs).

Lemma marshal_or_panic_Ok `{Codec A} (a : A) bs : marshal_or_panic a = Ok bs <-> enc a = Some bs.
Proof. unfold marshal_or_panic. destruct (enc a); split; intros; simplify_eq; auto. Qed.

Lemma unmarshal_marshal `{Codec A} (a : A) bs : marshal_or_panic a = Ok bs -> unmarshal bs = Ok a.
Proof. intros E%marshal_or_panic_Ok%dec_enc. unfold unmarshal. by rewrite E. Qed.

(** ** SHA-256: a function to 32 bytes. *)
Class Sha256 := {
  sha256 : bytes -> bytes;
  sha256_length : forall m, length (sha256 m) = 32
}.

(** The two strings at hand are a collision. *)
Definition sha256_collision `{Sha256} (x y : bytes) : Prop := x <> y /\ sha256 x = sha256 y.

Lemma sha256_eq `{Sha256} x y : sha256 x = sha256 y -> x = y \/ sha256_collision x y.
Proof. intros E. destruct (decide (x = y)); [by left | by right]. Qed.

(** ** Fault threshold and quorum *)
Module Quorum.

Definition ComputeFTQ (n : N) : N * N * N :=
  let f := (u16 (n + 65536 - 1) / 3)%N in
  let threshold := u16 (f + 1) in
  (* math.Ceil((float64(n)+float64(f)+1)/2.0): the operands are below 2^18, so the division is exact *)
  let quorum := u16 ((n + f + 1 + 1) / 2) in
  (f, threshold, quorum).

Lemma ComputeFTQ_eq n f t q :
  (0 < n <= u16_max)%N -> ComputeFTQ n = (f, t, q) ->
  f = ((n - 1) / 3)%N /\ t = (f + 1)%N /\ q = ((n + f + 2) / 2)%N.
Proof.
  unfold ComputeFTQ, u16_max. intros Hn E.
  assert (u16 (n + 65536 - 1) = n - 1)%N as Hw.
  { unfold u16. replace (n + 65536 - 1)%N with ((n - 1) + 1 * 65536)%N by lia.
    rewrite N.Div0.mod_add. apply N.mod_small. lia. }
  rewrite Hw in E.
  assert ((n - 1) / 3 <= 21845)%N as Hf by (apply N.Div0.div_le_upper_bound; lia).
  rewrite !u16_small in E; unfold u16_max; [| |lia].
  - injection E as <- <- <-. split; [done|split; [done|]]. f_equal. lia.
  - apply N.Div0.div_le_upper_bound. lia.
Qed.

(** Up to [f] of [n] parties are faulty with [n >= 3f+1]; [threshold] parties include an honest one; any two
    quorums of [n] share [f+1] parties, and the honest parties alone form a quorum. *)
Lemma ComputeFTQ_bounds n f t q :
  (0 < n <= u16_max)%N -> ComputeFTQ n = (f, t, q) ->
  (3 * f + 1 <= n < 3 * f + 4)%N /\ t = (f + 1)%N /\
  (q <= n - f)%N /\ (n + f + 1 <= 2 * q)%N /\ (2 * f + 1 <= q)%N.
Proof.
  intros Hn E. destruct (ComputeFTQ_eq _ _ _ _ Hn E) as (Hf & Ht & Hq).
  div_mod_spec (n - 1)%N 3%N. div_mod_spec (n + f + 2)%N 2%N. lia.
Qed.

End Quorum.
Import Quorum.

(** ** Batched requests *)
Module BatchedRequests.

Abbreviation t := (list bytes) (only parsing).

(** Each request is prefixed with its size as a big-endian uint32. *)
Definition Serialize (br : t) : bytes :=
  br ≫= fun req => be_put 4 (u32 (N.of_nat (length req))) ++ req.

(** The loop of Deserialize; [fuel] bounds the iterations, each of which consumes at least four bytes. *)
Fixpoint deserialize_loop (fuel : nat) (br : t) (bs : bytes) : outcome t :=
  match bs with
  | [] => Ok br
  | _ =>
    match fuel with
    | O => Panic "out of fuel"
    | S fuel' =>
      fail_if bool_decide (length bs < 4) with "size of req is not encoded correctly" ;;
      let size := N.to_nat (be_get (sub 0 4 bs)) in
      let bs := drop 4 bs in
      fail_if bool_decide (length bs < size) with "there is no req with the encoded size" ;;
      deserialize_loop fuel' (br ++ [sub 0 size bs]) (drop size bs)
    end
  end.

Definition Deserialize (bs : bytes) : outcome t :=
  fail_if bool_decide (length bs = 0) with "nil bytes" ;;
  deserialize_loop (length bs) [] bs.

Definition SizeBytes (br : t) : nat := foldl (fun s r => s + length r) 0 br.

(** Digest feeds the size prefix and the bytes of every request to a running hash. *)
Definition Digest `{Sha256} (br : t) : bytes :=
  let h := foldl (fun h (r : bytes) => (h ++ be_put 4 (u32 (N.of_nat (length r)))) ++ r) [] br in
  sha256 h.

Definition BatchRequestsDataHashWithSerialize `{Sha256} (br : t) : bytes := sha256 (Serialize br).

(** Requests whose size fits the prefix. *)
Definition sizes_ok (br : t) : Prop := Forall (fun r => (N.of_nat (length r) <= u32_max)%N) br.

Lemma Serialize_cons (r : bytes) br :
  Serialize (r :: br) = be_put 4 (u32 (N.of_nat (length r))) ++ r ++ Serialize br.
Proof. unfold Serialize. cbn [mbind list_bind]. by rewrite <-app_assoc. Qed.

Lemma be_get_size (r : bytes) : (N.of_nat (length r) <= u32_max)%N ->
  N.to_nat (be_get (be_put 4 (u32 (N.of_nat (length r))))) = length r.
Proof.
  intros Hr. rewrite u32_small by done. rewrite be_get_put4 by done. lia.
Qed.

Lemma deserialize_loop_Serialize fuel acc br :
  sizes_ok br -> length (Serialize br) <= fuel ->
  deserialize_loop fuel acc (Serialize br) = Ok (acc ++ br).
Proof.
  intros Hok. revert fuel acc; induction Hok as [|r br Hr Hok IH]; intros fuel acc Hf.
  - destruct fuel; cbn; by rewrite app_nil_r.
  - rewrite Serialize_cons in *. rewrite !length_app, length_be_put in Hf.
    assert (take 4 (be_put 4 (u32 (N.of_nat (length r))) ++ r ++ Serialize br)
      = be_put 4 (u32 (N.of_nat (length r)))) as Ht
      by (apply take_app_length'; by rewrite length_be_put).
    assert (drop 4 (be_put 4 (u32 (N.of_nat (length r))) ++ r ++ Serialize br)
      = r ++ Serialize br) as Hd
      by (apply drop_app_length'; by rewrite length_be_put).
    destruct fuel as [|fuel]; [lia|].
    destruct (be_put 4 _ ++ r ++ Serialize br) as [|b0 tl] eqn:E.
    { apply (f_equal length) in E. rewrite !length_app, length_be_put in E. cbn in E. lia. }
    cbn [deserialize_loop]. rewrite <-E in *.
    rewrite bool_decide_eq_false_2 by (rewrite !length_app, length_be_put; lia). cbn [guard_err].
    unfold sub. rewrite !Nat.sub_0_r, !drop_0, Ht, Hd, be_get_size by done.
    rewrite bool_decide_eq_false_2 by (rewrite length_app; lia). cbn [guard_err].
    rewrite take_app_length, drop_app_length, IH by lia. by rewrite <-app_assoc.
Qed.

Lemma Deserialize_Serialize br : br <> [] -> sizes_ok br -> Deserialize (Serialize br) = Ok br.
Proof.
  intros Hne Hok. unfold Deserialize. rewrite bool_decide_eq_false_2, deserialize_loop_Serialize; [done..|].
  destruct br as [|r br]; [done|]. rewrite Serialize_cons, !length_app, length_be_put. lia.
Qed.

(** The loop never runs out of fuel, and what it accepts re-encodes to its input. *)
Lemma deserialize_loop_sound fuel acc bs br :
  deserialize_loop fuel acc bs = Ok br ->
  exists br', br = acc ++ br' /\ sizes_ok br' /\ Serialize br' = bs.
Proof.
  revert acc bs; induction fuel as [|fuel IH]; intros acc bs H.
  - destruct bs; [|discriminate H]. cbn in H. outcome_inv.
    exists []. rewrite app_nil_r. repeat split. constructor.
  - destruct bs as [|b0 tl]; cbn [deserialize_loop] in H.
    { outcome_inv. exists []. rewrite app_nil_r. repeat split. constructor. }
    remember (b0 :: tl) as bs eqn:Ebs.
    outcome_inv. apply bool_decide_eq_false in Hguard, Hguard0.
    unfold sub in *. rewrite !Nat.sub_0_r, !drop_0 in *.
    set (size := N.to_nat (be_get (take 4 bs))) in *.
    apply IH in H as (br' & -> & Hok & Hs).
    assert (length (take size (drop 4 bs)) = size) as Hl by (rewrite length_take; lia).
    assert (N.of_nat size = be_get (take 4 bs)) as Hsz by (unfold size; lia).
    pose proof (be_get_bound (take 4 bs)) as Hb.
    rewrite length_take, Nat.min_l in Hb by lia. change (256 ^ N.of_nat 4)%N with 4294967296%N in Hb.
    exists (take size (drop 4 bs) :: br'). split; [by rewrite <-app_assoc|]. split.
    + constructor; [rewrite Hl; unfold u32_max; lia | done].
    + rewrite Serialize_cons, Hl, Hs, Hsz, u32_small by (unfold u32_max; lia).
      rewrite <-(take_drop 4 bs) at 4. f_equal.
      * replace 4 with (length (take 4 bs)) at 1 by (rewrite length_take; lia). apply be_put_get.
      * apply take_drop.
Qed.

Lemma deserialize_loop_no_panic fuel acc bs e :
  length bs <= fuel -> deserialize_loop fuel acc bs <> Panic e.
Proof.
  revert acc bs; induction fuel as [|fuel IH]; intros acc bs Hf; (destruct bs as [|b0 tl]; [done|]).
  - cbn in Hf. lia.
  - cbn [deserialize_loop]. remember (b0 :: tl) as bs eqn:Ebs.
    case_bool_decide; [done|]. cbn [guard_err].
    case_bool_decide; [done|]. cbn [guard_err].
    apply IH. rewrite !length_drop. subst bs. cbn in *. lia.
Qed.

Lemma hash_state_Serialize acc br :
  foldl (fun h (r : bytes) => (h ++ be_put 4 (u32 (N.of_nat (length r)))) ++ r) acc br = acc ++ Serialize br.
Proof.
  revert acc; induction br as [|r br IH]; intros acc; cbn [foldl].
  - by rewrite app_nil_r.
  - rewrite IH, Serialize_cons, <-!app_assoc. done.
Qed.

(** The digest identifies the requests, up to a collision. *)
Lemma Digest_inj `{Sha256} br1 br2 : sizes_ok br1 -> sizes_ok br2 -> Digest br1 = Digest br2 -> br1 = br2 \/ sha256_collision (Serialize br1) (Serialize br2).
Proof.
  intros H1 H2. unfold Digest. rewrite !hash_state_Serialize. intros [E|?]%sha256_eq; [left|by right].
  pose proof (deserialize_loop_Serialize _ [] br1 H1 (reflexivity _)) as D1. pose proof (deserialize_loop_Serialize _ [] br2 H2 (reflexivity _)) as D2.
  cbn [app] in E. rewrite E, D2 in D1. cbn in D1. congruence.
Qed.

Lemma Serialize_length br : length (Serialize br) = SizeBytes br + 4 * length br.
Proof.
  unfold SizeBytes. enough (forall a, foldl (fun s (r : bytes) => s + length r) a br + 4 * length br
    = a + length (Serialize br)) as H by (rewrite H; done).
  induction br as [|r br IH]; intros a; cbn [foldl length]; [cbn; lia|].
  rewrite Serialize_cons, !length_app, length_be_put. specialize (IH (a + length r)). lia.
Qed.

End BatchedRequests.

(** ** Signature domains *)
Definition PrefixWithDomain (domain msg : bytes) : outcome bytes :=
  panic_if bool_decide (65535 < N.of_nat (length domain))%N with "signature domain tag exceeds 65535 bytes" ;;
  Ok (byte_of_N (N.of_nat (length domain) / 256) :: byte_of_N (N.of_nat (length domain)) :: domain ++ msg).

Definition ascii_bytes (s : string) : bytes := String.list_byte_of_string s.
Definition DomainBAF : bytes := ascii_bytes "arma.baf".
Definition DomainComplaint : bytes := ascii_bytes "arma.complaint".
Definition DomainAssemblerDecisionReport : bytes := ascii_bytes "arma.assembler_decision_report".

Lemma PrefixWithDomain_Ok domain msg :
  (N.of_nat (length domain) <= u16_max)%N ->
  PrefixWithDomain domain msg = Ok (be_put 2 (N.of_nat (length domain)) ++ domain ++ msg).
Proof.
  unfold PrefixWithDomain, u16_max. intros H. rewrite bool_decide_eq_false_2 by lia. done.
Qed.

Lemma PrefixWithDomain_length domain msg out :
  PrefixWithDomain domain msg = Ok out -> (N.of_nat (length domain) <= u16_max)%N.
Proof.
  unfold PrefixWithDomain, u16_max. intros H. outcome_inv. apply bool_decide_eq_false in Hguard. lia.
Qed.

Lemma PrefixWithDomain_inj d1 m1 d2 m2 out :
  PrefixWithDomain d1 m1 = Ok out -> PrefixWithDomain d2 m2 = Ok out -> d1 = d2 /\ m1 = m2.
Proof.
  intros H1 H2.
  assert (N.of_nat (length d1) <= u16_max)%N as L1
    by (by eapply PrefixWithDomain_length).
  assert (N.of_nat (length d2) <= u16_max)%N as L2
    by (by eapply PrefixWithDomain_length).
  rewrite PrefixWithDomain_Ok in H1, H2 by done.
  assert (be_put 2 (N.of_nat (length d1)) ++ d1 ++ m1 = be_put 2 (N.of_nat (length d2)) ++ d2 ++ m2) as E
    by congruence.
  apply app_inj_1 in E as [Hl Hm]; [|by rewrite !length_be_put].
  apply be_put2_inj in Hl; [|done..]. apply app_inj_1 in Hm; [done|lia].
Qed.

(** ** Identities *)
Inductive NodeRole := RoleBatcher | RoleConsenter | RoleAssembler | RoleRouter.
Record NodeIdentity := mkIdentity { id_Role : NodeRole; id_Party : PartyID; id_Shard : ShardID }.
#[export] Instance NodeRole_eq_dec : EqDecision NodeRole.
Proof. solve_decision. Defined.
#[export] Instance NodeIdentity_eq_dec : EqDecision NodeIdentity.
Proof. solve_decision. Defined.
Definition NewBatcherIdentity (party : PartyID) (shard : ShardID) : NodeIdentity := mkIdentity RoleBatcher party shard.
Definition NewRouterIdentity (party : PartyID) : NodeIdentity := mkIdentity RoleRouter party 0.
Definition NewConsenterIdentity (party : PartyID) : NodeIdentity := mkIdentity RoleConsenter party 0.
Definition NewAssemblerIdentity (party : PartyID) : NodeIdentity := mkIdentity RoleAssembler party 0.
