(* ===== verification/Events.v ===== *)
(** * Control events

    [src/common/types/simple_baf.go] and, of [src/node/consensus/state]: available_batch.go, complaint.go,
    assembler_decision_report.go, config_request.go, control_event.go. *)
From S2P Require Import Prelude Types.
From stdpp Require Import pretty.
From Stdlib Require Import NArith Lia.

(** ** Batch attestation fragments *)
Record BAF := mkBAF {
  baf_shard : ShardID;
  baf_primary : PartyID;
  baf_seq : BatchSequence;
  baf_digest : bytes;
  baf_signer : PartyID;
  baf_signature : slice;
  baf_primarySignature : slice;
  baf_configSequence : ConfigSequence;
  baf_txCount : N
}.
#[export] Instance BAF_eq_dec : EqDecision BAF.
Proof. solve_decision. Defined.

Definition NewSimpleBatchAttestationFragment (shard : ShardID) (primary : PartyID) (seq : BatchSequence)
    (digest : bytes) (signer : PartyID) (configSqn : ConfigSequence) (txCount : N) (primarySignature : slice) : BAF :=
  mkBAF shard primary seq digest signer None primarySignature configSqn txCount.

Definition SetSignature (b : BAF) (sig : slice) : BAF :=
  mkBAF (baf_shard b) (baf_primary b) (baf_seq b) (baf_digest b) (baf_signer b) sig
    (baf_primarySignature b) (baf_configSequence b) (baf_txCount b).

(** The protobuf message: an absent bytes field reads back as empty. *)
Record BAFProto := mkBAFProto {
  pbaf_shard : N; pbaf_primary : N; pbaf_seq : N; pbaf_digest : bytes; pbaf_configSequence : N;
  pbaf_txCount : N; pbaf_signer : N; pbaf_signature : bytes; pbaf_primarySignature : bytes
}.

Definition BAF_ToProto (b : BAF) : BAFProto :=
  mkBAFProto (baf_shard b) (baf_primary b) (baf_seq b) (baf_digest b) (baf_configSequence b) (baf_txCount b)
    (baf_signer b) (slice_bytes (baf_signature b)) (slice_bytes (baf_primarySignature b)).

Definition BAF_FromProto (pb : BAFProto) : outcome BAF :=
  fail_if (u16_max <? pbaf_shard pb)%N with "BAF Shard exceeds uint16 maximum" ;;
  fail_if (u16_max <? pbaf_primary pb)%N with "BAF Primary exceeds uint16 maximum" ;;
  fail_if (u16_max <? pbaf_signer pb)%N with "BAF Signer exceeds uint16 maximum" ;;
  Ok (mkBAF (pbaf_shard pb) (pbaf_primary pb) (pbaf_seq pb) (pbaf_digest pb) (pbaf_signer pb)
        (Some (pbaf_signature pb))
        (if decide (pbaf_primarySignature pb = []) then None else Some (pbaf_primarySignature pb))
        (pbaf_configSequence pb) (pbaf_txCount pb)).

(** What FromProto normalizes: a nil signature becomes empty, an empty primary signature becomes nil. *)
Definition BAF_norm (b : BAF) : BAF :=
  mkBAF (baf_shard b) (baf_primary b) (baf_seq b) (baf_digest b) (baf_signer b)
    (Some (slice_bytes (baf_signature b)))
    (if decide (slice_bytes (baf_primarySignature b) = []) then None else baf_primarySignature b)
    (baf_configSequence b) (baf_txCount b).

Definition BAF_in_range (b : BAF) : Prop :=
  (baf_shard b <= u16_max)%N /\ (baf_primary b <= u16_max)%N /\ (baf_signer b <= u16_max)%N /\
  (baf_seq b <= u64_max)%N /\ (baf_configSequence b <= u64_max)%N /\ (baf_txCount b <= u64_max)%N.

(** The identifiers fit the fields they are read back into. *)
Definition BAF_ids_ok (b : BAF) : Prop :=
  (baf_shard b <= u16_max)%N /\ (baf_primary b <= u16_max)%N /\ (baf_signer b <= u16_max)%N.

Lemma BAF_in_range_ids b : BAF_in_range b -> BAF_ids_ok b.
Proof. by intros (? & ? & ? & _). Qed.

Lemma BAF_FromProto_ToProto b : BAF_ids_ok b -> BAF_FromProto (BAF_ToProto b) = Ok (BAF_norm b).
Proof.
  intros (Hs & Hp & Hg). unfold BAF_FromProto, BAF_ToProto, BAF_norm; cbn.
  destruct (N.ltb_spec u16_max (baf_shard b)), (N.ltb_spec u16_max (baf_primary b)),
    (N.ltb_spec u16_max (baf_signer b)); try lia; cbn.
  do 2 f_equal. destruct (baf_primarySignature b); cbn; by case_decide.
Qed.

Lemma BAF_FromProto_range pb b : BAF_FromProto pb = Ok b ->
  (baf_shard b <= u16_max)%N /\ (baf_primary b <= u16_max)%N /\ (baf_signer b <= u16_max)%N /\ BAF_norm b = b.
Proof.
  unfold BAF_FromProto. intros H. outcome_inv. rewrite N.ltb_ge in *. cbn.
  repeat split; try done. unfold BAF_norm; cbn. repeat case_decide; cbn in *; done.
Qed.

(** The ASN.1 view that is signed: every field except the two signatures. *)
Record asn1BAF := mkAsn1BAF {
  a_Shard : N; a_Primary : N; a_Seq : N; a_Digest : bytes; a_ConfigSequence : N; a_TXCount : N; a_Signer : N;
  a_Sig : bytes; a_PrimarySig : bytes
}.

Definition BAF_toASN1 (b : BAF) : asn1BAF :=
  mkAsn1BAF (baf_shard b) (baf_primary b) (baf_seq b) (baf_digest b) (baf_configSequence b) (baf_txCount b)
    (baf_signer b) [] [].

Definition BAF_ToBeSigned `{Codec asn1BAF} (b : BAF) : outcome bytes :=
  result ← marshal_or_panic (BAF_toASN1 b); PrefixWithDomain DomainBAF result.

Definition BAF_Serialize `{Codec BAFProto} (b : BAF) : outcome bytes := marshal_or_panic (BAF_ToProto b).
Definition BAF_Deserialize `{Codec BAFProto} (bs : bytes) : outcome BAF :=
  pb ← unmarshal bs; BAF_FromProto pb.

(** ** Available batches *)
Module AvailableBatch.

Record t := mk { primary : PartyID; shard : ShardID; seq : BatchSequence; digest : bytes }.

Definition availableBatchDigestSize : nat := 32.
Definition availableBatchSerializedSize : nat := 2 + 2 + 8 + availableBatchDigestSize.

Definition Serialize (ab : t) : bytes :=
  be_put 2 (u16 (primary ab)) ++ be_put 2 (u16 (shard ab)) ++ be_put 8 (u64 (seq ab))
  ++ copy_into availableBatchDigestSize (digest ab).

Definition Deserialize (bs : bytes) : outcome t :=
  fail_if bool_decide (length bs <> availableBatchSerializedSize) with "len of bytes does not equal the available batch size" ;;
  Ok (mk (be_get (sub 0 2 bs)) (be_get (sub 2 4 bs)) (be_get (sub 4 12 bs))
         (copy_into availableBatchDigestSize (drop 12 bs))).

Definition wf (ab : t) : Prop :=
  (primary ab <= u16_max)%N /\ (shard ab <= u16_max)%N /\ (seq ab <= u64_max)%N /\ length (digest ab) = 32.

Lemma Serialize_size ab : length (Serialize ab) = availableBatchSerializedSize.
Proof. unfold Serialize. by autorewrite with go. Qed.

Lemma available_batch_Deserialize ab : wf ab -> Deserialize (Serialize ab) = Ok ab.
Proof.
  intros (Hp & Hs & Hq & Hd). unfold Deserialize. rewrite bool_decide_eq_false_2
    by (rewrite Serialize_size; auto). cbn [guard_err].
  unfold Serialize. rewrite u16_small, u16_small, u64_small, copy_into_exact by done.
  set (p := be_put 2 (primary ab)). set (s := be_put 2 (shard ab)). set (q := be_put 8 (seq ab)).
  assert (length p = 2 /\ length s = 2 /\ length q = 8) as (Lp & Ls & Lq)
    by (unfold p, s, q; by rewrite !length_be_put).
  assert (drop 12 (p ++ s ++ q ++ digest ab) = digest ab) as Hdrop.
  { rewrite !app_assoc. apply drop_app_length'. rewrite !length_app. lia. }
  rewrite (sub_mid [] p (s ++ q ++ digest ab)), (sub_mid p s (q ++ digest ab)),
    (sub_mid (p ++ s) q (digest ab)), Hdrop, copy_into_exact
    by (rewrite <-?app_assoc, ?length_app; cbn; lia || done).
  unfold p, s, q. rewrite be_get_put2, be_get_put2, be_get_put8 by done. by destruct ab.
Qed.

Lemma Serialize_Deserialize bs ab : Deserialize bs = Ok ab -> wf ab /\ Serialize ab = bs.
Proof.
  unfold Deserialize. intros H. outcome_inv. apply bool_decide_eq_false, dec_stable in Hguard.
  change availableBatchSerializedSize with 44 in Hguard.
  assert (length (sub 0 2 bs) = 2) as L0 by (rewrite length_sub; lia).
  assert (length (sub 2 4 bs) = 2) as L1 by (rewrite length_sub; lia).
  assert (length (sub 4 12 bs) = 8) as L2 by (rewrite length_sub; lia).
  assert (length (drop 12 bs) = 32) as L3 by (rewrite length_drop; lia).
  pose proof (be_get_bound2 _ L0). pose proof (be_get_bound2 _ L1). pose proof (be_get_bound8 _ L2).
  split.
  - unfold wf; cbn [primary shard seq digest]. by rewrite length_copy_into.
  - unfold Serialize; cbn [primary shard seq digest].
    rewrite u16_small, u16_small, u64_small, !(copy_into_exact _ (drop 12 bs)) by done.
    rewrite !be_put_get_len by done.
    transitivity (sub 0 12 bs ++ drop 12 bs); [|rewrite sub_0; apply take_drop].
    rewrite (sub_split 0 2 12), (sub_split 2 4 12) by lia. by rewrite <-!app_assoc.
Qed.

End AvailableBatch.

(** ** Complaints *)
Record ShardTerm := mkShardTerm { st_Shard : ShardID; st_Term : N }.
#[export] Instance ShardTerm_eq_dec : EqDecision ShardTerm.
Proof. solve_decision. Defined.
#[export] Instance ShardTerm_countable : Countable ShardTerm.
Proof.
  refine (inj_countable' (fun s => (st_Shard s, st_Term s)) (fun p => mkShardTerm p.1 p.2) _).
  by intros [].
Defined.

Record Complaint := mkComplaint {
  c_ShardTerm : ShardTerm;
  c_Signer : PartyID;
  c_Signature : bytes;
  c_Reason : bytes;
  c_ConfigSeq : ConfigSequence
}.
#[export] Instance Complaint_eq_dec : EqDecision Complaint.
Proof. solve_decision. Defined.

Abbreviation c_Shard c := (st_Shard (c_ShardTerm c)).
Abbreviation c_Term c := (st_Term (c_ShardTerm c)).

Definition Complaint_Bytes (c : Complaint) : bytes :=
  let reasonLen := N.min (N.of_nat (length (c_Reason c))) u16_max in
  be_put 8 (c_ConfigSeq c) ++ be_put 2 (c_Shard c) ++ be_put 8 (c_Term c) ++ be_put 2 (c_Signer c)
  ++ be_put 2 (u16 (N.of_nat (length (c_Signature c)))) ++ c_Signature c
  ++ be_put 2 reasonLen ++ take (N.to_nat reasonLen) (c_Reason c).

Definition Complaint_FromBytes (bs : bytes) : outcome Complaint :=
  fail_if bool_decide (length bs < 24) with "input too small" ;;
  let configSeq := be_get (sub 0 8 bs) in
  let shard := be_get (sub 8 10 bs) in
  let term := be_get (sub 10 18 bs) in
  let signer := be_get (sub 18 20 bs) in
  let sigSize := N.to_nat (be_get (sub 20 22 bs)) in
  let sigEnd := 22 + sigSize in
  fail_if bool_decide (length bs < sigEnd + 2) with "input too small for signature" ;;
  let signature := sub 22 sigEnd bs in
  let rSize := N.to_nat (be_get (sub sigEnd (sigEnd + 2) bs)) in
  let reasonEnd := sigEnd + 2 + rSize in
  fail_if bool_decide (length bs < reasonEnd) with "input too small for reason" ;;
  Ok (mkComplaint (mkShardTerm shard term) signer signature (sub (sigEnd + 2) reasonEnd bs) configSeq).

Record ComplaintProto := mkComplaintProto {
  pc_ConfigSeq : N; pc_Shard : N; pc_Term : N; pc_Signer : N; pc_Signature : bytes; pc_Reason : bytes }.

Definition Complaint_toProto (c : Complaint) : ComplaintProto :=
  mkComplaintProto (c_ConfigSeq c) (c_Shard c) (c_Term c) (c_Signer c) (c_Signature c) (c_Reason c).

Definition Complaint_fromProto (pc : ComplaintProto) : outcome Complaint :=
  fail_if (u16_max <? pc_Shard pc)%N with "Complaint Shard exceeds uint16 maximum" ;;
  fail_if (u16_max <? pc_Signer pc)%N with "Complaint Signer exceeds uint16 maximum" ;;
  Ok (mkComplaint (mkShardTerm (pc_Shard pc) (pc_Term pc)) (pc_Signer pc) (pc_Signature pc) (pc_Reason pc)
        (pc_ConfigSeq pc)).

Definition Complaint_unsigned (c : Complaint) : Complaint :=
  mkComplaint (c_ShardTerm c) (c_Signer c) [] (c_Reason c) (c_ConfigSeq c).

Definition Complaint_ToBeSigned (c : Complaint) : outcome bytes :=
  PrefixWithDomain DomainComplaint (Complaint_Bytes (Complaint_unsigned c)).

Definition Complaint_in_range (c : Complaint) : Prop :=
  (c_Shard c <= u16_max)%N /\ (c_Signer c <= u16_max)%N /\ (c_Term c <= u64_max)%N /\
  (c_ConfigSeq c <= u64_max)%N /\ (N.of_nat (length (c_Signature c)) <= u16_max)%N /\
  (N.of_nat (length (c_Reason c)) <= u16_max)%N.

Lemma Complaint_fromProto_toProto c :
  (c_Shard c <= u16_max)%N -> (c_Signer c <= u16_max)%N -> Complaint_fromProto (Complaint_toProto c) = Ok c.
Proof.
  intros Hs Hg. unfold Complaint_fromProto, Complaint_toProto; cbn.
  destruct (N.ltb_spec u16_max (c_Shard c)), (N.ltb_spec u16_max (c_Signer c)); try lia; cbn.
  by destruct c as [[] ? ? ? ?].
Qed.

Lemma Complaint_FromBytes_layout (b1 b2 b3 b4 b5 sg b6 rs rest : bytes) :
  length b1 = 8 -> length b2 = 2 -> length b3 = 8 -> length b4 = 2 -> length b5 = 2 -> length b6 = 2 ->
  N.to_nat (be_get b5) = length sg -> N.to_nat (be_get b6) = length rs ->
  Complaint_FromBytes (b1 ++ b2 ++ b3 ++ b4 ++ b5 ++ sg ++ b6 ++ rs ++ rest) =
  Ok (mkComplaint (mkShardTerm (be_get b2) (be_get b3)) (be_get b4) sg rs (be_get b1)).
Proof.
  intros L1 L2 L3 L4 L5 L6 S5 S6. unfold Complaint_FromBytes.
  rewrite bool_decide_eq_false_2 by (rewrite !length_app; lia). cbn [guard_err].
  read_field [b1; b2; b3; b4; b5; sg; b6; rs; rest] 4 b5 20 22. rewrite S5.
  rewrite bool_decide_eq_false_2 by (rewrite !length_app; lia). cbn [guard_err].
  read_field [b1; b2; b3; b4; b5; sg; b6; rs; rest] 6 b6 (22 + length sg) (22 + length sg + 2). rewrite S6.
  rewrite bool_decide_eq_false_2 by (rewrite !length_app; lia). cbn [guard_err].
  read_field [b1; b2; b3; b4; b5; sg; b6; rs; rest] 0 b1 0 8.
  read_field [b1; b2; b3; b4; b5; sg; b6; rs; rest] 1 b2 8 10.
  read_field [b1; b2; b3; b4; b5; sg; b6; rs; rest] 2 b3 10 18.
  read_field [b1; b2; b3; b4; b5; sg; b6; rs; rest] 3 b4 18 20.
  read_field [b1; b2; b3; b4; b5; sg; b6; rs; rest] 5 sg 22 (22 + length sg).
  by read_field [b1; b2; b3; b4; b5; sg; b6; rs; rest] 7 rs (22 + length sg + 2) (22 + length sg + 2 + length rs).
Qed.

Lemma Complaint_FromBytes_Bytes c rest :
  Complaint_in_range c -> Complaint_FromBytes (Complaint_Bytes c ++ rest) = Ok c.
Proof.
  intros (Hs & Hg & Ht & Hc & Hsig & Hr). unfold Complaint_Bytes.
  rewrite N.min_l, Nat2N.id, firstn_all, u16_small by done. rewrite <-!app_assoc.
  rewrite Complaint_FromBytes_layout by (rewrite ?length_be_put, ?be_get_put2 by done; lia).
  rewrite !be_get_put8, !be_get_put2 by done. by destruct c as [[] ? ? ? ?].
Qed.

(** ** Assembler decision reports *)
Record AssemblerDecisionReport := mkReport {
  r_Party : PartyID;
  r_DecisionNum : DecisionNum;
  r_ConfigSeq : ConfigSequence;
  r_Signature : bytes
}.
#[export] Instance Report_eq_dec : EqDecision AssemblerDecisionReport.
Proof. solve_decision. Defined.

Definition reportHeaderLen : nat := 2 + 8 + 8 + 4.

Definition Report_Bytes (r : AssemblerDecisionReport) : bytes :=
  be_put 2 (r_Party r) ++ be_put 8 (r_DecisionNum r) ++ be_put 8 (r_ConfigSeq r)
  ++ be_put 4 (u32 (N.of_nat (length (r_Signature r)))) ++ r_Signature r.

Definition Report_FromBytes (bs : bytes) : outcome AssemblerDecisionReport :=
  fail_if bool_decide (length bs < reportHeaderLen) with "input too small" ;;
  let sigSize := N.to_nat (be_get (sub 18 22 bs)) in
  let sigEnd := reportHeaderLen + sigSize in
  fail_if bool_decide (length bs < sigEnd) with "input too small for signature" ;;
  let signature := if decide (sigSize = 0) then [] else sub reportHeaderLen sigEnd bs in
  Ok (mkReport (be_get (sub 0 2 bs)) (be_get (sub 2 10 bs)) (be_get (sub 10 18 bs)) signature).

Definition Report_unsignedBytes (r : AssemblerDecisionReport) : bytes :=
  Report_Bytes (mkReport (r_Party r) (r_DecisionNum r) (r_ConfigSeq r) []).

Definition Report_ToBeSigned (r : AssemblerDecisionReport) : outcome bytes :=
  PrefixWithDomain DomainAssemblerDecisionReport (Report_unsignedBytes r).

Record ReportProto := mkReportProto {
  pr_Party : N; pr_DecisionNum : N; pr_ConfigSeq : N; pr_Signature : bytes }.

Definition Report_toProto (r : AssemblerDecisionReport) : ReportProto :=
  mkReportProto (r_Party r) (r_DecisionNum r) (r_ConfigSeq r) (r_Signature r).

Definition Report_fromProto (pr : ReportProto) : outcome AssemblerDecisionReport :=
  fail_if (pr_Party pr =? 0)%N with "AssemblerDecisionReport Party must be greater than zero" ;;
  fail_if (u16_max <? pr_Party pr)%N with "AssemblerDecisionReport Party exceeds uint16 maximum" ;;
  Ok (mkReport (pr_Party pr) (pr_DecisionNum pr) (pr_ConfigSeq pr) (pr_Signature pr)).

Definition Report_in_range (r : AssemblerDecisionReport) : Prop :=
  (r_Party r <= u16_max)%N /\ (r_DecisionNum r <= u64_max)%N /\ (r_ConfigSeq r <= u64_max)%N /\
  (N.of_nat (length (r_Signature r)) <= u32_max)%N.

Lemma Report_FromBytes_Bytes r rest :
  Report_in_range r -> Report_FromBytes (Report_Bytes r ++ rest) = Ok r.
Proof.
  intros (Hp & Hd & Hc & Hs). unfold Report_Bytes. rewrite u32_small, <-!app_assoc by done.
  pose proof (length_be_put 2 (r_Party r)) as L1. pose proof (length_be_put 8 (r_DecisionNum r)) as L2.
  pose proof (length_be_put 8 (r_ConfigSeq r)) as L3.
  pose proof (length_be_put 4 (N.of_nat (length (r_Signature r)))) as L4.
  pose proof (be_get_put2 _ Hp) as G1. pose proof (be_get_put8 _ Hd) as G2. pose proof (be_get_put8 _ Hc) as G3.
  pose proof (be_get_put4 _ Hs) as G4.
  set (b1 := be_put 2 (r_Party r)) in *. set (b2 := be_put 8 (r_DecisionNum r)) in *.
  set (b3 := be_put 8 (r_ConfigSeq r)) in *. set (b4 := be_put 4 (N.of_nat (length (r_Signature r)))) in *. clearbody b1 b2 b3 b4. unfold Report_FromBytes. change reportHeaderLen with 22.
  rewrite bool_decide_eq_false_2 by (rewrite !length_app; lia). cbn [guard_err].
  read_field [b1; b2; b3; b4; r_Signature r; rest] 3 b4 18 22. rewrite G4, Nat2N.id.
  rewrite bool_decide_eq_false_2 by (rewrite !length_app; lia). cbn [guard_err].
  read_field [b1; b2; b3; b4; r_Signature r; rest] 0 b1 0 2.
  read_field [b1; b2; b3; b4; r_Signature r; rest] 1 b2 2 10.
  read_field [b1; b2; b3; b4; r_Signature r; rest] 2 b3 10 18.
  rewrite G1, G2, G3. case_decide as Hz.
  - apply nil_length_inv in Hz. destruct r; cbn in *. by subst.
  - read_field [b1; b2; b3; b4; r_Signature r; rest] 4 (r_Signature r) 22 (22 + length (r_Signature r)).
    by destruct r.
Qed.

Lemma Report_fromProto_toProto r :
  (0 < r_Party r <= u16_max)%N -> Report_fromProto (Report_toProto r) = Ok r.
Proof.
  intros Hp. unfold Report_fromProto, Report_toProto; cbn.
  destruct (N.eqb_spec (r_Party r) 0), (N.ltb_spec u16_max (r_Party r)); try lia; cbn. by destruct r.
Qed.

(** ** Config requests

    A config request is a Fabric envelope; its payload and config envelope are decoded by Fabric's libraries, whose
    messages are modelled by the fields the code reads. *)
Record Envelope := mkEnvelope { env_Payload : bytes; env_Signature : bytes }.
#[export] Instance Envelope_eq_dec : EqDecision Envelope.
Proof. solve_decision. Defined.

Record ChannelHeader := mkChannelHeader { ch_Type : Z; ch_TxId : bytes }.
(** [pl_Header] is the header's ChannelHeader bytes, [None] for a nil header. *)
Record Payload := mkPayload { pl_Header : option bytes; pl_Data : bytes }.
(** [ce_Config] is the sequence of the config, [None] for a nil config. *)
Record ConfigEnvelope := mkConfigEnvelope { cenv_Config : option N; cenv_LastUpdate : option Envelope }.

Record ConfigRequest := mkConfigRequest { cr_Envelope : Envelope }.
#[export] Instance ConfigRequest_eq_dec : EqDecision ConfigRequest.
Proof. solve_decision. Defined.

Record ConfigRequestProto := mkConfigRequestProto { pcr_Envelope : bytes }.

(** The Fabric message codecs a config request goes through. *)
Class FabricCodecs := {
  fc_envelope :: Codec Envelope;
  fc_payload :: Codec Payload;
  fc_configEnvelope :: Codec ConfigEnvelope;
  fc_channelHeader :: Codec ChannelHeader;
  fc_configRequest :: Codec ConfigRequestProto
}.

Definition HeaderType_CONFIG_UPDATE : Z := 2.

Section ConfigRequests.
Context `{FabricCodecs}.

Definition ConfigRequest_ConfigSequence (c : ConfigRequest) : outcome ConfigSequence :=
  payload ← wrap_err "failed to unmarshal payload" (unmarshal (env_Payload (cr_Envelope c)) : outcome Payload);
  configEnvelope ← wrap_err "failed to unmarshal config envelope" (unmarshal (pl_Data payload) : outcome ConfigEnvelope);
  of_option "config envelope has nil config" (cenv_Config configEnvelope).

Definition ConfigRequest_ID (c : ConfigRequest) : outcome bytes :=
  payload ← wrap_err "failed to unmarshal payload" (unmarshal (env_Payload (cr_Envelope c)) : outcome Payload);
  configEnvelope ← wrap_err "failed to unmarshal config envelope" (unmarshal (pl_Data payload) : outcome ConfigEnvelope);
  lastUpdate ← of_option "config envelope has nil last update" (cenv_LastUpdate configEnvelope);
  lastUpdatePayload ← wrap_err "failed to unmarshal last update payload" (unmarshal (env_Payload lastUpdate) : outcome Payload);
  header ← of_option "last update payload has nil header" (pl_Header lastUpdatePayload);
  channelHeader ← wrap_err "failed to unmarshal channel header" (unmarshal header : outcome ChannelHeader);
  fail_if bool_decide (ch_Type channelHeader <> HeaderType_CONFIG_UPDATE) with "unexpected channel header type" ;;
  fail_if bool_decide (ch_TxId channelHeader = []) with "channel header has empty tx id" ;;
  Ok (ch_TxId channelHeader).

Definition ConfigRequest_toProto (c : ConfigRequest) : outcome ConfigRequestProto :=
  envelopeBytes ← marshal_or_panic (cr_Envelope c); Ok (mkConfigRequestProto envelopeBytes).

Definition ConfigRequest_fromProto (pc : ConfigRequestProto) : outcome ConfigRequest :=
  envelope ← wrap_err "failed to unmarshal envelope" (unmarshal (pcr_Envelope pc)); Ok (mkConfigRequest envelope).

Definition ConfigRequest_Bytes (c : ConfigRequest) : outcome bytes :=
  pc ← ConfigRequest_toProto c; marshal_or_panic pc.

Definition ConfigRequest_FromBytes (bs : bytes) : outcome ConfigRequest :=
  pc ← wrap_err "failed to unmarshal config request" (unmarshal bs); ConfigRequest_fromProto pc.

Lemma ConfigRequest_fromProto_toProto c pc :
  ConfigRequest_toProto c = Ok pc -> ConfigRequest_fromProto pc = Ok c.
Proof.
  unfold ConfigRequest_toProto, ConfigRequest_fromProto. intros E. outcome_inv.
  apply unmarshal_marshal in Hrun. cbn. rewrite Hrun. by destruct c.
Qed.

Lemma ConfigRequest_FromBytes_Bytes c bs :
  ConfigRequest_Bytes c = Ok bs -> ConfigRequest_FromBytes bs = Ok c.
Proof.
  unfold ConfigRequest_Bytes, ConfigRequest_FromBytes. intros E. outcome_inv.
  apply unmarshal_marshal in Hrun0. rewrite Hrun0. cbn. by apply ConfigRequest_fromProto_toProto.
Qed.

End ConfigRequests.

(** ** Control events *)
Record ControlEvent := mkCE {
  ce_BAF : option BAF;
  ce_Complaint : option Complaint;
  ce_ConfigRequest : option ConfigRequest;
  ce_AssemblerReport : option AssemblerDecisionReport
}.
#[export] Instance ControlEvent_eq_dec : EqDecision ControlEvent.
Proof. solve_decision. Defined.

Definition BAFEvent (b : BAF) : ControlEvent := mkCE (Some b) None None None.
Definition ComplaintEvent (c : Complaint) : ControlEvent := mkCE None (Some c) None None.
Definition ConfigRequestEvent (c : ConfigRequest) : ControlEvent := mkCE None None (Some c) None.
Definition ReportEvent (r : AssemblerDecisionReport) : ControlEvent := mkCE None None None (Some r).

(** The oneof of the protobuf message; a payload pointer can be nil in memory. *)
Inductive ControlEventProto :=
  | PB_Baf (o : option BAFProto)
  | PB_Complaint (o : option ComplaintProto)
  | PB_ConfigRequest (o : option ConfigRequestProto)
  | PB_AssemblerDecisionReport (o : option ReportProto)
  | PB_None.

Definition BAF_idPayload (b : BAF) : bytes :=
  be_put 8 (baf_seq b) ++ be_put 8 (baf_configSequence b) ++ be_put 2 (baf_signer b) ++ be_put 2 (baf_primary b)
  ++ be_put 2 (baf_shard b) ++ copy_into 32 (baf_digest b).

Section ControlEvents.
Context `{FabricCodecs} `{Codec ControlEventProto} `{Sha256}.

(** The switch of ID: the bytes that are hashed, [None] for an empty event. *)
Definition ControlEvent_idPayload (ce : ControlEvent) : outcome (option bytes) :=
  match ce_BAF ce, ce_Complaint ce, ce_ConfigRequest ce, ce_AssemblerReport ce with
  | Some baf, _, _, _ => Ok (Some (BAF_idPayload baf))
  | None, Some c, _, _ => Ok (Some (Complaint_Bytes (Complaint_unsigned c)))
  | None, None, Some cr, _ => bs ← ConfigRequest_Bytes cr; Ok (Some bs)
  | None, None, None, Some r => Ok (Some (Report_unsignedBytes r))
  | None, None, None, None => Ok None
  end.

Definition ControlEvent_ID (ce : ControlEvent) : outcome bytes :=
  payloadToHash ← ControlEvent_idPayload ce;
  match payloadToHash with
  | None => Ok []
  | Some p => Ok (hex_encode (sha256 p))
  end.

Definition ControlEvent_SignerID (ce : ControlEvent) : string :=
  match ce_BAF ce, ce_Complaint ce, ce_ConfigRequest ce, ce_AssemblerReport ce with
  | Some baf, _, _, _ => pretty (baf_signer baf)
  | None, Some c, _, _ => pretty (c_Signer c)
  | None, None, Some _, _ => ""
  | None, None, None, Some r => pretty (r_Party r)
  | None, None, None, None => ""
  end.

Definition ControlEvent_toProto (ce : ControlEvent) : outcome ControlEventProto :=
  match ce_BAF ce, ce_Complaint ce, ce_ConfigRequest ce, ce_AssemblerReport ce with
  | Some baf, _, _, _ => Ok (PB_Baf (Some (BAF_ToProto baf)))
  | None, Some c, _, _ => Ok (PB_Complaint (Some (Complaint_toProto c)))
  | None, None, Some cr, _ => pc ← ConfigRequest_toProto cr; Ok (PB_ConfigRequest (Some pc))
  | None, None, None, Some r => Ok (PB_AssemblerDecisionReport (Some (Report_toProto r)))
  | None, None, None, None => Panic "empty control event"
  end.

Definition ControlEvent_fromProto (pe : ControlEventProto) : outcome ControlEvent :=
  match pe with
  | PB_Baf o => pb ← of_option "BAF event payload is nil" o; baf ← BAF_FromProto pb; Ok (BAFEvent baf)
  | PB_Complaint o =>
      pc ← of_option "Complaint event payload is nil" o; c ← Complaint_fromProto pc; Ok (ComplaintEvent c)
  | PB_ConfigRequest o =>
      pc ← of_option "ConfigRequest event payload is nil" o; c ← ConfigRequest_fromProto pc; Ok (ConfigRequestEvent c)
  | PB_AssemblerDecisionReport o =>
      pr ← of_option "AssemblerDecisionReport event payload is nil" o; r ← Report_fromProto pr; Ok (ReportEvent r)
  | PB_None => Err "unknown control event type"
  end.

Definition ControlEvent_Bytes (ce : ControlEvent) : outcome bytes :=
  protoEvent ← ControlEvent_toProto ce; marshal_or_panic protoEvent.

Definition ControlEvent_FromBytes (bs : bytes) : outcome ControlEvent :=
  protoEvent ← wrap_err "failed to unmarshal control event" (unmarshal bs); ControlEvent_fromProto protoEvent.

(** An event as its producers build it: exactly one payload, with its fields in range. *)
Inductive event_wf : ControlEvent -> Prop :=
  | wf_baf b : BAF_in_range b -> BAF_norm b = b -> event_wf (BAFEvent b)
  | wf_complaint c : Complaint_in_range c -> event_wf (ComplaintEvent c)
  | wf_config c : event_wf (ConfigRequestEvent c)
  | wf_report r : Report_in_range r -> (0 < r_Party r)%N -> event_wf (ReportEvent r).

Lemma ControlEvent_FromBytes_Bytes ce bs :
  event_wf ce -> ControlEvent_Bytes ce = Ok bs -> ControlEvent_FromBytes bs = Ok ce.
Proof.
  intros Hwf. unfold ControlEvent_Bytes, ControlEvent_FromBytes. intros E. outcome_inv.
  apply unmarshal_marshal in Hrun0. rewrite Hrun0. cbn.
  destruct Hwf as [b Hb Hn|c Hc|c|r Hr Hp]; cbn in Hrun; outcome_inv; cbn.
  - rewrite BAF_FromProto_ToProto by (by apply BAF_in_range_ids). cbn. by rewrite Hn.
  - destruct Hc as (Hs & Hg & _). by rewrite Complaint_fromProto_toProto.
  - by rewrite (ConfigRequest_fromProto_toProto c v0).
  - destruct Hr as (Hr & _). by rewrite Report_fromProto_toProto.
Qed.

(** What an ID stands for: the fields an event is deduplicated by. *)
Inductive event_identity :=
  | IdBAF (seq cfg signer primary shard : N) (digest : bytes)
  | IdComplaint (st : ShardTerm) (signer : N) (reason : bytes) (cfg : N)
  | IdReport (party dn cfg : N).

(** Events whose ID payload has a fixed layout; a BAF names a shard above 0 and carries a SHA-256 digest. *)
Inductive identifies : ControlEvent -> event_identity -> Prop :=
  | id_baf b : BAF_in_range b -> (0 < baf_shard b)%N -> length (baf_digest b) = 32 ->
      identifies (BAFEvent b)
        (IdBAF (baf_seq b) (baf_configSequence b) (baf_signer b) (baf_primary b) (baf_shard b) (baf_digest b))
  | id_complaint c : Complaint_in_range c ->
      identifies (ComplaintEvent c) (IdComplaint (c_ShardTerm c) (c_Signer c) (c_Reason c) (c_ConfigSeq c))
  | id_report r : Report_in_range r ->
      identifies (ReportEvent r) (IdReport (r_Party r) (r_DecisionNum r) (r_ConfigSeq r)).

Lemma BAF_idPayload_inj b1 b2 :
  BAF_in_range b1 -> BAF_in_range b2 -> length (baf_digest b1) = 32 -> length (baf_digest b2) = 32 ->
  BAF_idPayload b1 = BAF_idPayload b2 ->
  baf_seq b1 = baf_seq b2 /\ baf_configSequence b1 = baf_configSequence b2 /\ baf_signer b1 = baf_signer b2 /\
  baf_primary b1 = baf_primary b2 /\ baf_shard b1 = baf_shard b2 /\ baf_digest b1 = baf_digest b2.
Proof.
  intros (?&?&?&?&?&_) (?&?&?&?&?&_) D1 D2. unfold BAF_idPayload. rewrite !copy_into_exact by done. intros E.
  apply app_inj_1 in E as [E1 E]; [|by rewrite !length_be_put]. apply be_put8_inj in E1; [|done..].
  apply app_inj_1 in E as [E2 E]; [|by rewrite !length_be_put]. apply be_put8_inj in E2; [|done..].
  apply app_inj_1 in E as [E3 E]; [|by rewrite !length_be_put]. apply be_put2_inj in E3; [|done..].
  apply app_inj_1 in E as [E4 E]; [|by rewrite !length_be_put]. apply be_put2_inj in E4; [|done..].
  apply app_inj_1 in E as [E5 E]; [|by rewrite !length_be_put]. apply be_put2_inj in E5; [|done..].
  done.
Qed.

Lemma Complaint_unsigned_range c : Complaint_in_range c -> Complaint_in_range (Complaint_unsigned c).
Proof. intros (?&?&?&?&?&?). repeat split; try done. Qed.

Lemma Complaint_payload_inj c1 c2 :
  Complaint_in_range c1 -> Complaint_in_range c2 ->
  Complaint_Bytes (Complaint_unsigned c1) = Complaint_Bytes (Complaint_unsigned c2) ->
  Complaint_unsigned c1 = Complaint_unsigned c2.
Proof.
  intros R1%Complaint_unsigned_range R2%Complaint_unsigned_range E.
  pose proof (Complaint_FromBytes_Bytes _ [] R1) as F1.
  pose proof (Complaint_FromBytes_Bytes _ [] R2) as F2. rewrite E in F1. congruence.
Qed.

Lemma Report_payload_inj r1 r2 :
  Report_in_range r1 -> Report_in_range r2 -> Report_unsignedBytes r1 = Report_unsignedBytes r2 ->
  r_Party r1 = r_Party r2 /\ r_DecisionNum r1 = r_DecisionNum r2 /\ r_ConfigSeq r1 = r_ConfigSeq r2.
Proof.
  intros (P1&D1&C1&_) (P2&D2&C2&_) E. unfold Report_unsignedBytes in E.
  pose proof (Report_FromBytes_Bytes (mkReport (r_Party r1) (r_DecisionNum r1) (r_ConfigSeq r1) []) []) as F1.
  pose proof (Report_FromBytes_Bytes (mkReport (r_Party r2) (r_DecisionNum r2) (r_ConfigSeq r2) []) []) as F2.
  rewrite E, F2 in F1 by (repeat split; done || by cbn).
  specialize (F1 ltac:(repeat split; done || by cbn)). by simplify_eq.
Qed.

Lemma BAF_Complaint_payload_ne b c :
  (0 < baf_shard b <= u16_max)%N -> BAF_idPayload b <> Complaint_Bytes (Complaint_unsigned c).
Proof.
  intros Hb E. apply (f_equal (sub 20 22)) in E. unfold BAF_idPayload, Complaint_Bytes in E. cbn [c_Signature Complaint_unsigned c_Signer c_ShardTerm c_ConfigSeq c_Reason] in E.
  rewrite (sub_field [be_put 8 (baf_seq b); be_put 8 (baf_configSequence b); be_put 2 (baf_signer b);
    be_put 2 (baf_primary b); be_put 2 (baf_shard b); copy_into 32 (baf_digest b)] 4 (be_put 2 (baf_shard b))) in E;
    [|cbn [concat]; by rewrite app_nil_r|done|cbn [concat take]; rewrite !length_app, !length_be_put; done
     |by rewrite length_be_put].
  set (rl := N.min _ _) in E.
  rewrite (sub_field [be_put 8 (c_ConfigSeq c); be_put 2 (c_Shard c); be_put 8 (c_Term c); be_put 2 (c_Signer c);
    be_put 2 (u16 0); []; be_put 2 rl; take (N.to_nat rl) (c_Reason c)] 4 (be_put 2 (u16 0))) in E;
    [|cbn [concat]; by rewrite app_nil_r|done|cbn [concat take]; rewrite !length_app, !length_be_put; done
     |by rewrite length_be_put].
  apply be_put2_inj in E; unfold u16_max in *; change (u16 0) with 0%N in *; lia.
Qed.

Lemma length_Complaint_Bytes_ge c : 24 <= length (Complaint_Bytes c).
Proof. unfold Complaint_Bytes. rewrite !length_app, !length_be_put. lia. Qed.

Lemma Ok_Some_inj {A} (a b : A) : Ok (Some a) = Ok (Some b) -> a = b.
Proof. congruence. Qed.

Lemma identity_payload_inj e1 e2 i1 i2 p :
  identifies e1 i1 -> identifies e2 i2 ->
  ControlEvent_idPayload e1 = Ok (Some p) -> ControlEvent_idPayload e2 = Ok (Some p) -> i1 = i2.
Proof.
  assert (forall b, length (BAF_idPayload b) = 54) as LB.
  { intros b. unfold BAF_idPayload. by rewrite !length_app, !length_be_put, length_copy_into. }
  assert (forall r, length (Report_unsignedBytes r) = 22) as LR.
  { intros r. unfold Report_unsignedBytes, Report_Bytes. by rewrite !length_app, !length_be_put. }
  pose proof length_Complaint_Bytes_ge as LC.
  destruct 1 as [b1 R1 S1 D1|c1 R1|r1 R1]; destruct 1 as [b2 R2 S2 D2|c2 R2|r2 R2]; 
    cbn [ControlEvent_idPayload ce_BAF ce_Complaint ce_ConfigRequest ce_AssemblerReport BAFEvent ComplaintEvent
         ReportEvent]; intros E1 E2; rewrite <-E2 in E1; apply Ok_Some_inj in E1.
  - apply BAF_idPayload_inj in E1; [|done..]. destruct E1 as (?&?&?&?&?&?). congruence.
  - exfalso. eapply BAF_Complaint_payload_ne; [|exact E1]. split; [done|apply R1].
  - exfalso. apply (f_equal length) in E1. rewrite LB, LR in E1. done.
  - exfalso. symmetry in E1. eapply BAF_Complaint_payload_ne; [|exact E1]. split; [done|apply R2].
  - apply Complaint_payload_inj in E1; [|done..]. injection E1 as ????. congruence.
  - exfalso. apply (f_equal length) in E1. specialize (LC (Complaint_unsigned c1)). rewrite LR in E1. lia.
  - exfalso. apply (f_equal length) in E1. rewrite LB, LR in E1. done.
  - exfalso. apply (f_equal length) in E1. specialize (LC (Complaint_unsigned c2)). rewrite LR in E1. lia.
  - apply Report_payload_inj in E1; [|done..]. by destruct E1 as (-> & -> & ->).
Qed.

End ControlEvents.
