(* ===== verification/State.v ===== *)
(** * The replicated consensus state

    [src/node/consensus/state/state.go] and pruning.go: the state every consenter derives from the ordered control
    events, and the transition [Process] that folds one round of events into it. *)
From S2P Require Import Prelude Types Events.
From Stdlib Require Import NArith Lia.
Import Quorum.

Record AssemblerHeight := mkHeight { ah_Party : PartyID; ah_DecisionNum : DecisionNum }.
Record PrunePoint := mkPrunePoint { pp_Shard : ShardID; pp_Primary : PartyID; pp_Seq : BatchSequence }.
#[export] Instance AssemblerHeight_eq_dec : EqDecision AssemblerHeight.
Proof. solve_decision. Defined.
#[export] Instance PrunePoint_eq_dec : EqDecision PrunePoint.
Proof. solve_decision. Defined.

Record State := mkState {
  s_N : N;
  s_Quorum : N;
  s_Threshold : N;
  s_Shards : list ShardTerm;
  s_Pending : list BAF;
  s_Complaints : list Complaint;
  s_AppContext : slice;
  s_StaleConfigBAFs : list BAF;
  s_AssemblerHeights : list AssemblerHeight;
  s_PrunePoints : list PrunePoint;
  s_DurableWatermark : DecisionNum
}.
#[export] Instance State_eq_dec : EqDecision State.
Proof. solve_decision. Defined.

(** Assignments to one field of the state. *)
Definition with_Shards (v : list ShardTerm) (s : State) : State :=
  mkState (s_N s) (s_Quorum s) (s_Threshold s) v (s_Pending s) (s_Complaints s) (s_AppContext s)
    (s_StaleConfigBAFs s) (s_AssemblerHeights s) (s_PrunePoints s) (s_DurableWatermark s).
Definition with_Pending (v : list BAF) (s : State) : State :=
  mkState (s_N s) (s_Quorum s) (s_Threshold s) (s_Shards s) v (s_Complaints s) (s_AppContext s)
    (s_StaleConfigBAFs s) (s_AssemblerHeights s) (s_PrunePoints s) (s_DurableWatermark s).
Definition with_Complaints (v : list Complaint) (s : State) : State :=
  mkState (s_N s) (s_Quorum s) (s_Threshold s) (s_Shards s) (s_Pending s) v (s_AppContext s)
    (s_StaleConfigBAFs s) (s_AssemblerHeights s) (s_PrunePoints s) (s_DurableWatermark s).
Definition with_AppContext (v : slice) (s : State) : State :=
  mkState (s_N s) (s_Quorum s) (s_Threshold s) (s_Shards s) (s_Pending s) (s_Complaints s) v
    (s_StaleConfigBAFs s) (s_AssemblerHeights s) (s_PrunePoints s) (s_DurableWatermark s).
Definition with_StaleConfigBAFs (v : list BAF) (s : State) : State :=
  mkState (s_N s) (s_Quorum s) (s_Threshold s) (s_Shards s) (s_Pending s) (s_Complaints s) (s_AppContext s)
    v (s_AssemblerHeights s) (s_PrunePoints s) (s_DurableWatermark s).
Definition with_AssemblerHeights (v : list AssemblerHeight) (s : State) : State :=
  mkState (s_N s) (s_Quorum s) (s_Threshold s) (s_Shards s) (s_Pending s) (s_Complaints s) (s_AppContext s)
    (s_StaleConfigBAFs s) v (s_PrunePoints s) (s_DurableWatermark s).
Definition with_DurableWatermark (v : DecisionNum) (s : State) : State :=
  mkState (s_N s) (s_Quorum s) (s_Threshold s) (s_Shards s) (s_Pending s) (s_Complaints s) (s_AppContext s)
    (s_StaleConfigBAFs s) (s_AssemblerHeights s) (s_PrunePoints s) v.
Definition with_NTQ (n t q : N) (s : State) : State :=
  mkState n q t (s_Shards s) (s_Pending s) (s_Complaints s) (s_AppContext s)
    (s_StaleConfigBAFs s) (s_AssemblerHeights s) (s_PrunePoints s) (s_DurableWatermark s).

(** ** Keys *)
Record batchKey := mkBatchKey { bk_shard : ShardID; bk_primary : PartyID; bk_seq : BatchSequence }.
#[export] Instance batchKey_eq_dec : EqDecision batchKey.
Proof. solve_decision. Defined.
#[export] Instance batchKey_countable : Countable batchKey.
Proof.
  refine (inj_countable' (fun k => (bk_shard k, bk_primary k, bk_seq k)) (fun p => mkBatchKey p.1.1 p.1.2 p.2) _).
  by intros [].
Defined.

Definition batchKey_compare (b other : batchKey) : comparison :=
  match N.compare (bk_shard b) (bk_shard other) with
  | Eq => match N.compare (bk_primary b) (bk_primary other) with
          | Eq => N.compare (bk_seq b) (bk_seq other)
          | c => c
          end
  | c => c
  end.

Definition batchKey_le (a b : batchKey) : Prop := batchKey_compare a b <> Gt.
#[export] Instance batchKey_le_dec a b : Decision (batchKey_le a b).
Proof. unfold batchKey_le. apply _. Defined.

(** attestationKey and thresholdDigestKey, with hex-encoded digests. *)
Abbreviation attestationKey := (batchKey * PartyID * bytes)%type (only parsing).
Abbreviation thresholdDigestKey := (batchKey * bytes)%type (only parsing).

Definition batchKeyOf (baf : BAF) : batchKey := mkBatchKey (baf_shard baf) (baf_primary baf) (baf_seq baf).
Definition attestationKeyOf (baf : BAF) : attestationKey :=
  (batchKeyOf baf, baf_signer baf, hex_encode (baf_digest baf)).

(** The index of the first entry of a shard; [None] stands for (-1, false). *)
Definition shardExists (shard : ShardID) (shardTerms : list ShardTerm) : option nat :=
  fst <$> list_find (fun st => st_Shard st = shard) shardTerms.

(** [Shards[i].Term++] *)
Definition incr_term (st : ShardTerm) : ShardTerm := mkShardTerm (st_Shard st) (u64_incr (st_Term st)).

(** [s.Shards[shardIndex]] for the result of shardExists: index -1 panics. *)
Definition shard_at (idx : option nat) (shards : list ShardTerm) : outcome ShardTerm :=
  match idx with Some i => index shards i | None => Panic "index out of range [-1]" end.

(** ** The rules of a round *)
Section Rules.
Context `{FabricCodecs} {R : MapRange}.

Definition filter_one (configSeq : ConfigSequence) (acc : list ControlEvent * list BAF) (ce : ControlEvent)
    : list ControlEvent * list BAF :=
  let '(filteredEvents, stale) := acc in
  let '(filteredEvents, stale) :=
    match ce_BAF ce with
    | None => (filteredEvents, stale)
    | Some baf =>
        if (baf_configSequence baf =? configSeq)%N then (filteredEvents ++ [ce], stale)
        else if (baf_configSequence baf <? configSeq)%N then (filteredEvents, stale ++ [baf])
        else (filteredEvents, stale)
    end in
  let filteredEvents :=
    match ce_Complaint ce with
    | Some c => if (c_ConfigSeq c =? configSeq)%N then filteredEvents ++ [ce] else filteredEvents
    | None => filteredEvents
    end in
  let filteredEvents :=
    match ce_AssemblerReport ce with
    | Some r => if (r_ConfigSeq r =? configSeq)%N then filteredEvents ++ [ce] else filteredEvents
    | None => filteredEvents
    end in
  match ce_ConfigRequest ce with
  | None => (filteredEvents, stale)
  | Some cr =>
      match ConfigRequest_ConfigSequence cr with
      | Ok reqConfigSeq =>
          if (reqConfigSeq =? u64_incr configSeq)%N then (filteredEvents ++ [ce], stale) else (filteredEvents, stale)
      | _ => (filteredEvents, stale)
      end
  end.

Definition filterCEsWithDiffConfigSeq (configSeq : ConfigSequence) (ces : list ControlEvent)
    : list ControlEvent * list BAF :=
  foldl (filter_one configSeq) ([], []) ces.

Definition FilterPendingEventsWithDiffConfigSeq (configSeq : ConfigSequence) (s : State) : State :=
  with_Complaints (filter (fun c => c_ConfigSeq c = configSeq) (s_Complaints s))
    (with_Pending (filter (fun baf => baf_configSequence baf = configSeq) (s_Pending s)) s).

(** The complainers of each shard term. *)
Definition complaints_add (m : gmap ShardTerm (gset PartyID)) (c : Complaint) : gmap ShardTerm (gset PartyID) :=
  <[c_ShardTerm c := {[c_Signer c]} ∪ default ∅ (m !! c_ShardTerm c)]> m.

(** The loop state: pending BAFs, complaints, and the complainers seen. *)
Record collect_acc := mkCollect {
  ca_Pending : list BAF;
  ca_Complaints : list Complaint;
  ca_seen : gmap ShardTerm (gset PartyID)
}.

Definition collect_complaint (shards : list ShardTerm) (a : collect_acc) (c : Complaint) : collect_acc :=
  let st := c_ShardTerm c in
  if decide (st ∈ shards) then
    if decide (c_Signer c ∈ default ∅ (ca_seen a !! st)) then a
    else mkCollect (ca_Pending a) (ca_Complaints a ++ [c]) (complaints_add (ca_seen a) c)
  else a.

Definition collect_one (shards : list ShardTerm) (seen : gset attestationKey) (a : collect_acc) (ce : ControlEvent)
    : collect_acc :=
  let complaint_part a :=
    match ce_Complaint ce with Some c => collect_complaint shards a c | None => a end in
  match ce_BAF ce with
  | Some baf =>
      match shardExists (baf_shard baf) shards with
      | None => a
      | Some _ =>
          if decide (attestationKeyOf baf ∈ seen) then a
          else complaint_part (mkCollect (ca_Pending a ++ [baf]) (ca_Complaints a) (ca_seen a))
      end
  | None => complaint_part a
  end.

Definition CollectAndDeduplicateEvents (ces : list ControlEvent) (s : State) : State :=
  let shardsAndSequences : gset attestationKey := list_to_set (attestationKeyOf <$> s_Pending s) in
  let complaints := foldl complaints_add ∅ (s_Complaints s) in
  let a := foldl (collect_one (s_Shards s) shardsAndSequences)
             (mkCollect (s_Pending s) (s_Complaints s) complaints) ces in
  with_Complaints (ca_Complaints a) (with_Pending (ca_Pending a) s).

Definition height_le (a b : AssemblerHeight) : Prop := (ah_Party a <= ah_Party b)%N.
#[export] Instance height_le_dec a b : Decision (height_le a b).
Proof. unfold height_le. apply _. Defined.

Definition collect_report (acc : list AssemblerHeight * bool) (ce : ControlEvent) : list AssemblerHeight * bool :=
  let '(heights, added) := acc in
  match ce_AssemblerReport ce with
  | None => acc
  | Some report =>
      match list_find (fun h => ah_Party h = r_Party report) heights with
      | None => (heights ++ [mkHeight (r_Party report) (r_DecisionNum report)], true)
      | Some (index, h) =>
          if (ah_DecisionNum h <? r_DecisionNum report)%N
          then (<[index := mkHeight (ah_Party h) (r_DecisionNum report)]> heights, added)
          else (heights, added)
      end
  end.

Definition CollectAssemblerReports (ces : list ControlEvent) (s : State) : State :=
  let '(heights, added) := foldl collect_report (s_AssemblerHeights s, false) ces in
  with_AssemblerHeights (if added : bool then merge_sort height_le heights else heights) s.

(** batchKey --> (hex digest --> signers) *)
Definition votes_add (m : gmap batchKey (gmap bytes (list PartyID))) (baf : BAF)
    : gmap batchKey (gmap bytes (list PartyID)) :=
  let bk := batchKeyOf baf in
  let hexDigest := hex_encode (baf_digest baf) in
  let d := default ∅ (m !! bk) in
  <[bk := <[hexDigest := default [] (d !! hexDigest) ++ [baf_signer baf]]> d]> m.

Definition batchAttestationVotesByDigests (s : State) (excludeSelfSigned : bool)
    : gmap batchKey (gmap bytes (list PartyID)) :=
  foldl (fun m baf => if excludeSelfSigned && (baf_signer baf =? baf_primary baf)%N then m else votes_add m baf)
    ∅ (s_Pending s).

(** Increments the term of the first entry of a shard; [None] if there is none. *)
Fixpoint rotate_first (shard : ShardID) (shards : list ShardTerm) : option (list ShardTerm) :=
  match shards with
  | [] => None
  | st :: shards' =>
      if decide (st_Shard st = shard) then Some (incr_term st :: shards')
      else cons st <$> rotate_first shard shards'
  end.

Definition equivocation_step (m : gmap batchKey (gmap bytes (list PartyID)))
    (acc : list ShardTerm * gset ShardID) (bk : batchKey) : list ShardTerm * gset ShardID :=
  let '(shards, rotatedShards) := acc in
  let digest2signers := default ∅ (m !! bk) in
  if decide (1 < size digest2signers) then
    if decide (bk_shard bk ∈ rotatedShards) then acc
    else match rotate_first (bk_shard bk) shards with
         | Some shards' => (shards', {[bk_shard bk]} ∪ rotatedShards)
         | None => acc
         end
  else acc.

Definition DetectEquivocation (s : State) : State :=
  let m := batchAttestationVotesByDigests s true in
  let batchKeys := merge_sort batchKey_le (fst <$> range_map 0 m) in
  with_Shards (foldl (equivocation_step m) (s_Shards s, ∅) batchKeys).1 s.

Definition count_complaint (shards : list ShardTerm) (m : gmap ShardTerm nat) (c : Complaint) : gmap ShardTerm nat :=
  match shardExists (c_Shard c) shards with
  | None => m
  | Some i =>
      match shards !! i with
      | Some st => if (st_Term st =? c_Term c)%N
                   then <[c_ShardTerm c := S (default 0 (m !! c_ShardTerm c))]> m else m
      | None => m
      end
  end.

Definition rotate_step (complaintsToNum : gmap ShardTerm nat) (threshold : N)
    (acc : list ShardTerm * list Complaint) (c : Complaint) : outcome (list ShardTerm * list Complaint) :=
  let '(shards, newComplaints) := acc in
  if (threshold <=? N.of_nat (default 0%nat (complaintsToNum !! c_ShardTerm c)))%N then
    let shardIndex := shardExists (c_Shard c) shards in
    st ← shard_at shardIndex shards;
    if (st_Term st =? c_Term c)%N then
      match shardIndex with
      | Some i => Ok (<[i := incr_term st]> shards, newComplaints)
      | None => Panic "index out of range [-1]"
      end
    else Ok (shards, newComplaints)
  else Ok (shards, newComplaints ++ [c]).

Fixpoint ofoldl {A B} (f : A -> B -> outcome A) (a : A) (l : list B) : outcome A :=
  match l with
  | [] => Ok a
  | x :: l' => a' ← f a x; ofoldl f a' l'
  end.

Definition PrimaryRotateDueToComplaints (s : State) : outcome State :=
  let complaintsToNum := foldl (count_complaint (s_Shards s)) ∅ (s_Complaints s) in
  acc ← ofoldl (rotate_step complaintsToNum (s_Threshold s)) (s_Shards s, []) (s_Complaints s);
  Ok (with_Complaints acc.2 (with_Shards acc.1 s)).

Definition cleanup_step (shards : list ShardTerm) (newComplaints : list Complaint) (c : Complaint)
    : outcome (list Complaint) :=
  st ← shard_at (shardExists (c_Shard c) shards) shards;
  if (c_Term c <? st_Term st)%N then Ok newComplaints else Ok (newComplaints ++ [c]).

Definition CleanupOldComplaints (s : State) : outcome State :=
  newComplaints ← ofoldl (cleanup_step (s_Shards s)) [] (s_Complaints s);
  Ok (with_Complaints newComplaints s).

(** The digests of one batch that reached the threshold, added to the two sets. *)
Definition decide_digest (threshold : N) (bk : batchKey) (acc : gset batchKey * gset thresholdDigestKey)
    (dv : bytes * list PartyID) : gset batchKey * gset thresholdDigestKey :=
  let '(decidedBatches, thresholdDigests) := acc in
  if (threshold <=? N.of_nat (length dv.2))%N
  then ({[bk]} ∪ decidedBatches, {[(bk, dv.1)]} ∪ thresholdDigests)
  else acc.

Definition decide_batches (threshold : N) (m : gmap batchKey (gmap bytes (list PartyID)))
    : gset batchKey * gset thresholdDigestKey :=
  foldl (fun acc bd => foldl (decide_digest threshold bd.1) acc (range_map 2 bd.2)) (∅, ∅) (range_map 1 m).

Definition ExtractBatchAttestationsFromPending (s : State) : State * list BAF :=
  let m := batchAttestationVotesByDigests s false in
  let '(decidedBatches, thresholdDigests) := decide_batches (s_Threshold s) m in
  let newPending := filter (fun baf => batchKeyOf baf ∉ decidedBatches) (s_Pending s) in
  let extracted := filter (fun baf => batchKeyOf baf ∈ decidedBatches /\
      (batchKeyOf baf, hex_encode (baf_digest baf)) ∈ thresholdDigests) (s_Pending s) in
  (with_Pending newPending s, extracted).

Definition UpdateDurableWatermark (s : State) : outcome State :=
  if (s_N s =? 0)%N then Ok s else
  let '(f, _, _) := ComputeFTQ (s_N s) in
  let k := N.to_nat (u16 (2 * f + 1)) in
  if decide (length (s_AssemblerHeights s) < k) then Ok s else
  let decisionNums := merge_sort N.le (ah_DecisionNum <$> s_AssemblerHeights s) in
  watermark ← index decisionNums (length decisionNums - k);
  if (s_DurableWatermark s <? watermark)%N then Ok (with_DurableWatermark watermark s) else Ok s.

(** The pruning algorithm is a TODO of the source: prune points are carried over. *)
Definition UpdatePrunePoints (s : State) : State := s.

Definition PrunePoint_of (s : State) (shard : ShardID) (primary : PartyID) : BatchSequence :=
  match list_find (fun p => pp_Shard p = shard /\ pp_Primary p = primary) (s_PrunePoints s) with
  | Some (_, p) => pp_Seq p
  | None => 0%N
  end.

Definition RetainAssemblerHeights (parties : list PartyID) (s : State) : State :=
  with_AssemblerHeights (filter (fun h => ah_Party h ∈ parties) (s_AssemblerHeights s)) s.

Definition ExtractConfigRequests (ces : list ControlEvent) : list ConfigRequest := omap ce_ConfigRequest ces.

(** Clone copies every slice, so the result shares no storage with the receiver: as a value it is the state. *)
Definition Clone (s : State) : State := s.

Definition Process (configSeq : ConfigSequence) (ces : list ControlEvent) (s : State)
    : outcome (State * list BAF * list ConfigRequest) :=
  let nextState := Clone s in
  let '(filteredCEs, staleConfigBAFs) := filterCEsWithDiffConfigSeq configSeq ces in
  let nextState := with_StaleConfigBAFs staleConfigBAFs nextState in
  let nextState := FilterPendingEventsWithDiffConfigSeq configSeq nextState in
  let nextState := CollectAndDeduplicateEvents filteredCEs nextState in
  let nextState := CollectAssemblerReports filteredCEs nextState in
  let nextState := DetectEquivocation nextState in
  nextState ← PrimaryRotateDueToComplaints nextState;
  nextState ← CleanupOldComplaints nextState;
  let '(nextState, extracted) := ExtractBatchAttestationsFromPending nextState in
  nextState ← UpdateDurableWatermark nextState;
  let nextState := UpdatePrunePoints nextState in
  let configRequests := ExtractConfigRequests filteredCEs in
  Ok (nextState, extracted, configRequests).

End Rules.
