(* ===== verification/StateFacts.v ===== *)
(** * Facts about the rules of a round

    Closed descriptions of what each rule of [State.Process] computes, free of loops and maps. *)
From S2P Require Import Prelude Types Events State.
From Stdlib Require Import NArith Lia.
Import Quorum.

Definition shard_ids (shards : list ShardTerm) : list ShardID := st_Shard <$> shards.

(** ** Order on batch keys *)
Lemma batchKey_le_spec a b : batchKey_le a b <->
  (bk_shard a < bk_shard b)%N \/ (bk_shard a = bk_shard b /\
    ((bk_primary a < bk_primary b)%N \/ (bk_primary a = bk_primary b /\ (bk_seq a <= bk_seq b)%N))).
Proof.
  unfold batchKey_le, batchKey_compare.
  destruct (N.compare_spec (bk_shard a) (bk_shard b)); [|split; [lia|done]|split; [done|lia]].
  destruct (N.compare_spec (bk_primary a) (bk_primary b)); [|split; [lia|done]|split; [done|lia]].
  destruct (N.compare_spec (bk_seq a) (bk_seq b)); split; try lia; done.
Qed.
#[export] Instance batchKey_le_trans : Transitive batchKey_le.
Proof. intros a b c. rewrite !batchKey_le_spec. lia. Qed.
#[export] Instance batchKey_le_total : Total batchKey_le.
Proof. intros a b. rewrite !batchKey_le_spec. lia. Qed.
#[export] Instance batchKey_le_antisymm : AntiSymm (=) batchKey_le.
Proof.
  intros a b. rewrite !batchKey_le_spec. intros. destruct a, b; cbn in *. f_equal; lia.
Qed.
#[export] Instance height_le_trans : Transitive height_le.
Proof. intros a b c. unfold height_le. lia. Qed.
#[export] Instance height_le_total : Total height_le.
Proof. intros a b. unfold height_le. lia. Qed.

(** ** Votes *)

(** [b] counts as a vote (for equivocation, self-signed BAFs do not). *)
Definition counted (excludeSelfSigned : bool) (b : BAF) : Prop :=
  excludeSelfSigned = true -> baf_signer b <> baf_primary b.
#[export] Instance counted_dec e b : Decision (counted e b).
Proof. unfold counted. apply _. Defined.

Definition votes_for (e : bool) (bk : batchKey) (hd : bytes) (l : list BAF) : list PartyID :=
  baf_signer <$> filter (fun b => counted e b /\ batchKeyOf b = bk /\ hex_encode (baf_digest b) = hd) l.

Definition signers_of (m : gmap batchKey (gmap bytes (list PartyID))) (bk : batchKey) (hd : bytes) : list PartyID :=
  default [] (default ∅ (m !! bk) !! hd).

Lemma votes_add_signers m b bk hd :
  signers_of (votes_add m b) bk hd =
  signers_of m bk hd ++
    (if decide (batchKeyOf b = bk /\ hex_encode (baf_digest b) = hd) then [baf_signer b] else []).
Proof.
  unfold signers_of, votes_add. destruct (decide (batchKeyOf b = bk)) as [<-|Hk].
  - rewrite lookup_insert_eq; cbn. destruct (decide (hex_encode (baf_digest b) = hd)) as [<-|Hd].
    + rewrite lookup_insert_eq; cbn. rewrite decide_True by done. done.
    + rewrite lookup_insert_ne by done. rewrite decide_False by tauto. by rewrite app_nil_r.
  - rewrite lookup_insert_ne by done. rewrite decide_False by tauto. by rewrite app_nil_r.
Qed.

Lemma votes_foldl_signers e l m bk hd :
  signers_of (foldl (fun m baf => if e && (baf_signer baf =? baf_primary baf)%N then m else votes_add m baf) m l) bk hd
  = signers_of m bk hd ++ votes_for e bk hd l.
Proof.
  revert m; induction l as [|b l IH]; intros m; cbn [foldl].
  { unfold votes_for; cbn. by rewrite app_nil_r. }
  rewrite IH. unfold votes_for. rewrite filter_cons. unfold counted.
  destruct (e && (baf_signer b =? baf_primary b)%N) eqn:E.
  - apply andb_true_iff in E as [-> E%N.eqb_eq]. rewrite decide_False by tauto. done.
  - rewrite votes_add_signers, <-app_assoc. f_equal.
    assert (e = true -> baf_signer b <> baf_primary b).
    { intros ->. by apply N.eqb_neq. }
    repeat case_decide; try tauto; done.
Qed.

Lemma votes_signers s e bk hd :
  signers_of (batchAttestationVotesByDigests s e) bk hd = votes_for e bk hd (s_Pending s).
Proof.
  unfold batchAttestationVotesByDigests. rewrite votes_foldl_signers. unfold signers_of. by rewrite lookup_empty.
Qed.

(** Every entry of the map has a signer. *)
Definition votes_inhabited (m : gmap batchKey (gmap bytes (list PartyID))) : Prop :=
  forall bk d hd l, m !! bk = Some d -> d !! hd = Some l -> l <> [].

Lemma votes_inhabited_ok s e : votes_inhabited (batchAttestationVotesByDigests s e).
Proof.
  unfold batchAttestationVotesByDigests.
  assert (votes_inhabited ∅) as H0 by (intros ????; by rewrite lookup_empty).
  revert H0. generalize (∅ : gmap batchKey (gmap bytes (list PartyID))).
  induction (s_Pending s) as [|b l IH]; intros m Hm; cbn [foldl]; [done|].
  apply IH. destruct (e && _); [done|]. intros bk d hd sg. unfold votes_add.
  rewrite lookup_insert. case_decide as Hk.
  - intros E; simplify_eq. rewrite lookup_insert. case_decide.
    + intros; simplify_eq. by destruct (default _ _).
    + destruct (m !! batchKeyOf b) eqn:Em; cbn; [by apply (Hm _ _ _ _ Em)|by rewrite lookup_empty].
  - by apply Hm.
Qed.

Lemma votes_lookup_Some s e bk hd l :
  (exists d, batchAttestationVotesByDigests s e !! bk = Some d /\ d !! hd = Some l) <->
  votes_for e bk hd (s_Pending s) = l /\ l <> [].
Proof.
  split.
  - intros (d & Hd & Hl). split.
    + rewrite <-votes_signers. unfold signers_of. by rewrite Hd; cbn; rewrite Hl.
    + by eapply votes_inhabited_ok.
  - intros [Hv Hne]. rewrite <-votes_signers in Hv. unfold signers_of in Hv.
    destruct (_ !! bk) as [d|] eqn:Ed; cbn in Hv.
    + exists d. split; [done|]. destruct (d !! hd) eqn:El; cbn in Hv; [by subst|]. congruence.
    + rewrite lookup_empty in Hv. cbn in Hv. congruence.
Qed.

Lemma votes_for_nonempty e bk hd l :
  votes_for e bk hd l <> [] <->
  exists b, b ∈ l /\ counted e b /\ batchKeyOf b = bk /\ hex_encode (baf_digest b) = hd.
Proof.
  unfold votes_for. split.
  - intros Hne. destruct (filter _ l) as [|b l'] eqn:E; [done|].
    assert (b ∈ b :: l') as Hb by set_solver. rewrite <-E in Hb. apply list_elem_of_filter in Hb.
    exists b. tauto.
  - intros (b & Hb & Hp) E. apply fmap_nil_inv in E.
    assert (b ∈ filter (fun b => counted e b /\ batchKeyOf b = bk /\ hex_encode (baf_digest b) = hd) l) as Hf
      by (apply list_elem_of_filter; tauto).
    rewrite E in Hf. set_solver.
Qed.

Lemma votes_entry s e bk hd :
  is_Some (default ∅ (batchAttestationVotesByDigests s e !! bk) !! hd) <->
  exists b, b ∈ s_Pending s /\ counted e b /\ batchKeyOf b = bk /\ hex_encode (baf_digest b) = hd.
Proof.
  rewrite <-votes_for_nonempty. split.
  - intros [l Hl]. destruct (_ !! bk) as [d|] eqn:Ed; cbn in Hl; [|by rewrite lookup_empty in Hl].
    destruct (proj1 (votes_lookup_Some s e bk hd l)) as [-> Hne]; eauto.
  - intros Hne. destruct (proj2 (votes_lookup_Some s e bk hd _) (conj eq_refl Hne)) as (d & -> & Hd). cbn. by eexists.
Qed.

(** ** Equivocation *)
Lemma size_gt_1 `{Countable K} {A} (d : gmap K A) :
  1 < size d <-> exists k1 k2, k1 <> k2 /\ is_Some (d !! k1) /\ is_Some (d !! k2).
Proof.
  split.
  - intros Hs. rewrite <-length_map_to_list in Hs.
    destruct (map_to_list d) as [|[k1 a1] [|[k2 a2] l]] eqn:E; cbn in Hs; [lia..|].
    pose proof (NoDup_fst_map_to_list d) as Hnd. rewrite E in Hnd. cbn in Hnd.
    apply NoDup_cons in Hnd as [Hk _]. exists k1, k2. split; [set_solver|].
    split; [exists a1|exists a2]; apply elem_of_map_to_list; rewrite E; set_solver.
  - intros (k1 & k2 & Hne & H1 & H2). rewrite <-size_dom.
    assert (({[k1; k2]} : gset K) ⊆ dom d) as Hsub.
    { intros k Hk. apply elem_of_dom. set_unfold in Hk. by destruct Hk as [-> | ->]. }
    apply subseteq_size in Hsub. rewrite size_union, !size_singleton in Hsub by set_solver. lia.
Qed.

(** Two votes of the shard, by secondaries, for different digests of one batch: what the code takes as proof that the
    primary which the batch names equivocated. That primary need not be the one of the current term: votes that stay
    pending count again in later rounds. *)
Definition equivocated (pending : list BAF) (sh : ShardID) : Prop :=
  exists b1 b2, b1 ∈ pending /\ b2 ∈ pending /\ counted true b1 /\ counted true b2 /\
    batchKeyOf b1 = batchKeyOf b2 /\ baf_digest b1 <> baf_digest b2 /\ baf_shard b1 = sh.

Lemma votes_equivocated s sh :
  equivocated (s_Pending s) sh <->
  exists bk, bk_shard bk = sh /\ 1 < size (default ∅ (batchAttestationVotesByDigests s true !! bk)).
Proof.
  split.
  - intros (b1 & b2 & H1 & H2 & C1 & C2 & Ek & Hd & <-). exists (batchKeyOf b1). split; [done|].
    apply size_gt_1. exists (hex_encode (baf_digest b1)), (hex_encode (baf_digest b2)).
    split; [by intros ?%(inj hex_encode)|]. rewrite !votes_entry. split; [by exists b1|exists b2; by rewrite Ek].
  - intros (bk & <- & (h1 & h2 & Hne & (b1 & ? & ? & E1 & <-)%votes_entry & (b2 & ? & ? & E2 & <-)%votes_entry)%size_gt_1).
    exists b1, b2. repeat split; try done; [congruence|intros E; apply Hne; by rewrite E|].
    by rewrite <-E1.
Qed.

Definition rotate_in (rot : gset ShardID) (st : ShardTerm) : ShardTerm :=
  if decide (st_Shard st ∈ rot) then incr_term st else st.

Lemma shard_ids_rotate rot shards : shard_ids (rotate_in rot <$> shards) = shard_ids shards.
Proof.
  unfold shard_ids. rewrite <-list_fmap_compose. apply list_fmap_ext. intros _ st _.
  unfold rotate_in, compose. by case_decide.
Qed.

Lemma shard_ids_cons st shards : shard_ids (st :: shards) = st_Shard st :: shard_ids shards.
Proof. done. Qed.

Lemma rotate_first_spec sh shards : NoDup (shard_ids shards) ->
  rotate_first sh shards =
  if decide (sh ∈ shard_ids shards) then Some (rotate_in {[sh]} <$> shards) else None.
Proof.
  induction shards as [|st shards IH]; intros Hnd; cbn [rotate_first]; [done|].
  rewrite shard_ids_cons in *. apply NoDup_cons in Hnd as [Hst Hnd].
  destruct (decide (st_Shard st = sh)) as [E|E].
  - rewrite decide_True by (rewrite elem_of_cons; naive_solver). cbn. do 2 f_equal.
    + unfold rotate_in. by rewrite decide_True by (by apply elem_of_singleton).
    + symmetry. apply fmap_id_elem. intros st' Hst'. unfold rotate_in. rewrite decide_False; [done|].
      rewrite elem_of_singleton. intros Hs. apply Hst. rewrite E, <-Hs. apply list_elem_of_fmap. by exists st'.
  - rewrite IH by done. destruct (decide (sh ∈ shard_ids shards)) as [Hin|Hin].
    + rewrite decide_True by (rewrite elem_of_cons; naive_solver). cbn. do 2 f_equal. unfold rotate_in.
      by rewrite decide_False by (by rewrite elem_of_singleton).
    + rewrite decide_False by (rewrite elem_of_cons; naive_solver). done.
Qed.

(** One batch of the sorted keys: the shard of an equivocating batch is rotated unless it already was. *)
Lemma equivocation_step_spec m shards0 rot bk :
  NoDup (shard_ids shards0) ->
  equivocation_step m (rotate_in rot <$> shards0, rot) bk =
  let rot' := if decide (1 < size (default ∅ (m !! bk)) /\ bk_shard bk ∈ shard_ids shards0)
              then {[bk_shard bk]} ∪ rot else rot in
  (rotate_in rot' <$> shards0, rot').
Proof.
  intros Hnd. unfold equivocation_step.
  destruct (decide (1 < size _)) as [Hs|Hs]; [|rewrite decide_False by tauto; done].
  rewrite rotate_first_spec, shard_ids_rotate by (by rewrite shard_ids_rotate).
  destruct (decide (bk_shard bk ∈ rot)) as [Hr|Hr].
  - assert ({[bk_shard bk]} ∪ rot = rot) as -> by set_solver. by case_decide.
  - case_decide as Hin; [|rewrite decide_False by tauto; done].
    rewrite decide_True by done. cbn. f_equal. rewrite <-list_fmap_compose.
    apply fmap_ext_elem. intros st _. unfold rotate_in, compose.
    assert (bk_shard bk ∉ rot -> st_Shard st ∈ rot -> st_Shard st <> bk_shard bk) by (intros ? ? E; congruence).
    destruct (decide (st_Shard st ∈ rot)), (decide (st_Shard st ∈ {[bk_shard bk]} ∪ rot)) as [Hu|Hu];
      rewrite elem_of_union, elem_of_singleton in Hu; cbn; case_decide as Hs'; rewrite elem_of_singleton in Hs';
      cbn in Hs'; done || tauto.
Qed.

Lemma equivocation_fold_spec m shards0 ks rot :
  NoDup (shard_ids shards0) ->
  exists rot', foldl (equivocation_step m) (rotate_in rot <$> shards0, rot) ks = (rotate_in rot' <$> shards0, rot') /\
    forall sh, sh ∈ rot' <-> sh ∈ rot \/
      exists bk, bk ∈ ks /\ bk_shard bk = sh /\ 1 < size (default ∅ (m !! bk)) /\ sh ∈ shard_ids shards0.
Proof.
  intros Hnd. revert rot; induction ks as [|bk ks IH]; intros rot; cbn [foldl].
  - exists rot. split; [done|]. intros sh. set_solver.
  - rewrite equivocation_step_spec by done. cbn zeta.
    destruct (IH (if decide (1 < size (default ∅ (m !! bk)) /\ bk_shard bk ∈ shard_ids shards0)
              then {[bk_shard bk]} ∪ rot else rot)) as (rot' & -> & Hrot). exists rot'. split; [done|].
    intros sh. rewrite Hrot. setoid_rewrite elem_of_cons. case_decide as Hc.
    + rewrite elem_of_union, elem_of_singleton. naive_solver.
    + naive_solver.
Qed.

Lemma DetectEquivocation_shards {R : MapRange} s :
  NoDup (shard_ids (s_Shards s)) ->
  exists rot : gset ShardID,
    s_Shards (DetectEquivocation s) = rotate_in rot <$> s_Shards s /\
    forall sh, sh ∈ rot <-> equivocated (s_Pending s) sh /\ sh ∈ shard_ids (s_Shards s).
Proof.
  intros Hnd. unfold DetectEquivocation. cbn [s_Shards with_Shards].
  destruct (equivocation_fold_spec (batchAttestationVotesByDigests s true) (s_Shards s)
    (merge_sort batchKey_le (fst <$> range_map 0 (batchAttestationVotesByDigests s true))) ∅ Hnd)
    as (rot & E & Hrot).
  rewrite fmap_id_elem in E by done. exists rot. rewrite E. split; [done|].
  intros sh. rewrite Hrot, votes_equivocated. split.
  - intros [?|(bk & Hbk & <- & Hsz & Hin)]; [set_solver|]. eauto.
  - intros ((bk & <- & Hsz) & Hin). right. exists bk. repeat split; try done.
    rewrite merge_sort_Permutation, list_elem_of_fmap.
    destruct (_ !! bk) as [d|] eqn:Ed; cbn in Hsz; [|rewrite map_size_empty in Hsz; lia].
    exists (bk, d). split; [done|]. by apply elem_of_range.
Qed.

Lemma DetectEquivocation_frame {R : MapRange} s : DetectEquivocation s = with_Shards (s_Shards (DetectEquivocation s)) s.
Proof. done. Qed.

(** ** Shards and complaints *)
Lemma shardExists_None sh shards : shardExists sh shards = None <-> sh ∉ shard_ids shards.
Proof.
  unfold shardExists. rewrite fmap_None. etrans; [apply list_find_None|].
  rewrite Forall_forall. unfold shard_ids. rewrite list_elem_of_fmap. naive_solver.
Qed.

Lemma shardExists_Some sh shards i :
  shardExists sh shards = Some i -> exists st, shards !! i = Some st /\ st_Shard st = sh.
Proof.
  unfold shardExists. intros ([j st] & (Hj & Hst & _)%list_find_Some & ->)%fmap_Some. eauto.
Qed.

Lemma shardExists_elem shards st : NoDup (shard_ids shards) -> st ∈ shards ->
  exists i, shardExists (st_Shard st) shards = Some i /\ shards !! i = Some st.
Proof.
  intros Hnd Hst. destruct (shardExists (st_Shard st) shards) as [i|] eqn:E.
  - destruct (shardExists_Some _ _ _ E) as (st' & Hi & Es). exists i. split; [done|].
    assert (st' = st) as ->; [|done].
    eapply (lookup_fmap_eq_unique st_Shard shards); try done. by eapply list_elem_of_lookup_2.
  - apply shardExists_None in E. exfalso. apply E, list_elem_of_fmap. eauto.
Qed.

Definition complaint_count (cs : list Complaint) (st : ShardTerm) : nat :=
  length (filter (fun c => c_ShardTerm c = st) cs).

Lemma count_complaint_spec shards m c : NoDup (shard_ids shards) ->
  count_complaint shards m c =
  if decide (c_ShardTerm c ∈ shards) then <[c_ShardTerm c := S (default 0 (m !! c_ShardTerm c))]> m else m.
Proof.
  intros Hnd. unfold count_complaint. destruct (decide (c_ShardTerm c ∈ shards)) as [Hin|Hin].
  - destruct (shardExists_elem _ _ Hnd Hin) as (i & -> & Hi). rewrite Hi. by rewrite N.eqb_refl.
  - destruct (shardExists _ _) as [i|] eqn:E; [|done].
    destruct (shardExists_Some _ _ _ E) as (st & Hi & Es). rewrite Hi.
    destruct (N.eqb_spec (st_Term st) (c_Term c)) as [Et|]; [|done].
    exfalso. apply Hin. replace (c_ShardTerm c) with st; [by eapply list_elem_of_lookup_2|].
    destruct st, (c_ShardTerm c); cbn in *; congruence.
Qed.

Lemma count_fold_spec shards cs m st : NoDup (shard_ids shards) ->
  default 0 (foldl (count_complaint shards) m cs !! st) =
  default 0 (m !! st) + if decide (st ∈ shards) then complaint_count cs st else 0.
Proof.
  intros Hnd. revert m; induction cs as [|c cs IH]; intros m; cbn [foldl].
  { unfold complaint_count; cbn. case_decide; lia. }
  rewrite IH, count_complaint_spec by done. unfold complaint_count. rewrite filter_cons.
  destruct (decide (c_ShardTerm c = st)) as [->|Hne].
  - destruct (decide (st ∈ shards)); [|done]. rewrite lookup_insert_eq. cbn. lia.
  - destruct (decide (c_ShardTerm c ∈ shards)); [|done]. by rewrite lookup_insert_ne.
Qed.

(** The complaints against the current term of a shard reached the threshold. *)
Definition overthrown (thr : N) (shards : list ShardTerm) (cs : list Complaint) (st : ShardTerm) : Prop :=
  st ∈ shards /\ (thr <= N.of_nat (complaint_count cs st))%N.
#[export] Instance overthrown_dec thr shards cs st : Decision (overthrown thr shards cs st).
Proof. unfold overthrown. apply _. Defined.

Definition rotate_terms (P : gset ShardTerm) (st : ShardTerm) : ShardTerm :=
  if decide (st ∈ P) then incr_term st else st.

Lemma shard_ids_rotate_terms P shards : shard_ids (rotate_terms P <$> shards) = shard_ids shards.
Proof.
  unfold shard_ids. rewrite <-list_fmap_compose. apply fmap_ext_elem. intros st _.
  unfold rotate_terms, compose. by case_decide.
Qed.

Lemma shardExists_rotate_terms sh P shards : shardExists sh (rotate_terms P <$> shards) = shardExists sh shards.
Proof.
  unfold shardExists. rewrite list_find_fmap. rewrite <-option_fmap_compose.
  assert (list_find ((fun st => st_Shard st = sh) ∘ rotate_terms P) shards
    = list_find (fun st => st_Shard st = sh) shards) as ->.
  { apply list_find_ext. intros st. unfold rotate_terms, compose. by case_decide. }
  destruct (list_find _ _) as [[]|]; done.
Qed.

Lemma rotate_step_spec cnt thr shards P acc c :
  NoDup (shard_ids shards) ->
  ((thr <= N.of_nat (default 0%nat (cnt !! c_ShardTerm c)))%N -> c_ShardTerm c ∈ shards) ->
  rotate_step cnt thr (rotate_terms P <$> shards, acc) c =
  if decide (thr <= N.of_nat (default 0%nat (cnt !! c_ShardTerm c)))%N
  then Ok (rotate_terms ({[c_ShardTerm c]} ∪ P) <$> shards, acc)
  else Ok (rotate_terms P <$> shards, acc ++ [c]).
Proof.
  intros Hnd Hin. unfold rotate_step.
  destruct (N.leb_spec thr (N.of_nat (default 0%nat (cnt !! c_ShardTerm c)))) as [Hle|Hlt];
    [|by rewrite decide_False by lia].
  rewrite decide_True by done. specialize (Hin Hle).
  destruct (shardExists_elem _ _ Hnd Hin) as (i & Ei & Hi).
  rewrite shardExists_rotate_terms, Ei. cbn [shard_at]. unfold index.
  rewrite list_lookup_fmap, Hi. cbn [fmap option_fmap option_map mbind outcome_bind].
  unfold rotate_terms at 1. destruct (decide (c_ShardTerm c ∈ P)) as [HP|HP].
  - destruct (N.eqb_spec (st_Term (incr_term (c_ShardTerm c))) (c_Term c)) as [E|_].
    { exfalso. exact (u64_incr_ne _ E). }
    assert ({[c_ShardTerm c]} ∪ P = P) as -> by set_solver. done.
  - rewrite N.eqb_refl. do 2 f_equal. apply list_eq. intros j.
    destruct (decide (i = j)) as [<-|Hj].
    + rewrite list_lookup_insert_eq by (rewrite length_fmap; by eapply lookup_lt_Some).
      rewrite list_lookup_fmap, Hi. cbn. unfold rotate_terms.
      rewrite (decide_False (P := c_ShardTerm c ∈ P)), decide_True by set_solver. done.
    + rewrite list_lookup_insert_ne, !list_lookup_fmap by done.
      destruct (shards !! j) as [st|] eqn:Ej; [|done]. cbn. f_equal. unfold rotate_terms.
      assert (st <> c_ShardTerm c) as Hne.
      { intros ->. apply Hj. eapply (NoDup_lookup (shard_ids shards)); [done| |];
          unfold shard_ids; rewrite list_lookup_fmap; [by rewrite Hi|by rewrite Ej]. }
      destruct (decide (st ∈ P)), (decide (st ∈ {[c_ShardTerm c]} ∪ P)) as [Hu|Hu];
        rewrite elem_of_union, elem_of_singleton in Hu; done || tauto.
Qed.

Lemma rotate_fold_spec cnt thr shards P acc cs :
  NoDup (shard_ids shards) ->
  (forall c, c ∈ cs -> (thr <= N.of_nat (default 0%nat (cnt !! c_ShardTerm c)))%N -> c_ShardTerm c ∈ shards) ->
  exists P', ofoldl (rotate_step cnt thr) (rotate_terms P <$> shards, acc) cs =
      Ok (rotate_terms P' <$> shards,
          acc ++ filter (fun c => ~ (thr <= N.of_nat (default 0%nat (cnt !! c_ShardTerm c)))%N) cs) /\
    forall st, st ∈ P' <-> st ∈ P \/
      exists c, c ∈ cs /\ c_ShardTerm c = st /\ (thr <= N.of_nat (default 0%nat (cnt !! st)))%N.
Proof.
  intros Hnd. revert P acc; induction cs as [|c cs IH]; intros P acc Hin; cbn [ofoldl].
  { exists P. rewrite app_nil_r. split; [done|set_solver]. }
  rewrite rotate_step_spec by (done || (apply Hin; by left)).
  rewrite filter_cons. case_decide as Hle; cbn [mbind outcome_bind].
  - destruct (IH ({[c_ShardTerm c]} ∪ P) acc) as (P' & -> & HP'); [intros; apply Hin; [by right|done]|].
    exists P'. rewrite decide_False by tauto. split; [done|]. intros st. rewrite HP'.
    rewrite elem_of_union, elem_of_singleton. setoid_rewrite elem_of_cons. naive_solver.
  - destruct (IH P (acc ++ [c])) as (P' & -> & HP'); [intros; apply Hin; [by right|done]|].
    exists P'. rewrite decide_True, <-app_assoc by done. split; [done|]. intros st. rewrite HP'.
    setoid_rewrite elem_of_cons. naive_solver.
Qed.

Lemma complaint_count_pos cs st : 0 < complaint_count cs st -> exists c, c ∈ cs /\ c_ShardTerm c = st.
Proof.
  unfold complaint_count. destruct (filter _ cs) as [|c l] eqn:E; cbn; [lia|]. intros _.
  exists c. assert (c ∈ c :: l) as Hc by (by left). rewrite <-E in Hc. by apply list_elem_of_filter in Hc as [? ?].
Qed.

Lemma complaint_count_elem cs c : c ∈ cs -> 0 < complaint_count cs (c_ShardTerm c).
Proof.
  intros Hc. unfold complaint_count. destruct (filter _ cs) as [|? l] eqn:E; cbn; [|lia].
  assert (c ∈ filter (fun c0 => c_ShardTerm c0 = c_ShardTerm c) cs) as Hf by (by apply list_elem_of_filter).
  rewrite E in Hf. set_solver.
Qed.

(** PrimaryRotateDueToComplaints: a shard whose term collected a threshold of complaints advances by one term, and
    exactly the complaints against such terms are consumed. *)
Lemma PrimaryRotate_spec s :
  NoDup (shard_ids (s_Shards s)) -> (0 < s_Threshold s)%N ->
  exists P : gset ShardTerm,
    PrimaryRotateDueToComplaints s =
      Ok (with_Complaints
            (filter (fun c => ~ overthrown (s_Threshold s) (s_Shards s) (s_Complaints s) (c_ShardTerm c)) (s_Complaints s))
            (with_Shards (rotate_terms P <$> s_Shards s) s)) /\
    forall st, st ∈ P <-> overthrown (s_Threshold s) (s_Shards s) (s_Complaints s) st.
Proof.
  intros Hnd Hthr. unfold PrimaryRotateDueToComplaints.
  set (cnt := foldl (count_complaint (s_Shards s)) ∅ (s_Complaints s)).
  assert (forall st, (s_Threshold s <= N.of_nat (default 0%nat (cnt !! st)))%N <->
      overthrown (s_Threshold s) (s_Shards s) (s_Complaints s) st) as Hcnt.
  { intros st. unfold cnt, overthrown. rewrite count_fold_spec by done. rewrite lookup_empty; cbn [default].
    case_decide; [rewrite Nat.add_0_l; tauto|]. split; [lia|tauto]. }
  destruct (rotate_fold_spec cnt (s_Threshold s) (s_Shards s) ∅ [] (s_Complaints s) Hnd) as (P & E & HP).
  { intros c _. rewrite Hcnt. by intros [? ?]. }
  rewrite fmap_id_elem in E by (intros st _; unfold rotate_terms; by rewrite decide_False by set_solver).
  rewrite E. cbn [mbind outcome_bind]. exists P. split.
  - do 2 f_equal; cbn. apply filter_ext_elem. intros c _. by rewrite Hcnt.
  - intros st. rewrite HP. split.
    + intros [?|(c & Hc & <- & Hle)]; [set_solver|]. by apply Hcnt.
    + intros Ho. right. pose proof Ho as [_ Hge].
      destruct (complaint_count_pos (s_Complaints s) st) as (c & Hc & E'); [lia|].
      exists c. repeat split; try done. by apply Hcnt.
Qed.

(** The term of a shard that exists. *)
Definition term_of (shards : list ShardTerm) (sh : ShardID) : option N :=
  st_Term <$> (shardExists sh shards ≫= fun i => shards !! i).

Lemma term_of_Some shards sh t : NoDup (shard_ids shards) -> term_of shards sh = Some t <-> mkShardTerm sh t ∈ shards.
Proof.
  intros Hnd. unfold term_of. split.
  - intros (st & (i & Ei & Hi)%bind_Some & ->)%fmap_Some.
    destruct (shardExists_Some _ _ _ Ei) as (st' & Hi' & <-). simplify_eq.
    destruct st. by eapply list_elem_of_lookup_2.
  - intros Hin. destruct (shardExists_elem _ _ Hnd Hin) as (i & Ei & Hi). cbn in Ei. rewrite Ei. cbn. by rewrite Hi.
Qed.

Lemma term_of_is_Some shards sh : is_Some (term_of shards sh) <-> sh ∈ shard_ids shards.
Proof.
  unfold term_of. destruct (shardExists sh shards) as [i|] eqn:E; cbn.
  - destruct (shardExists_Some _ _ _ E) as (st & Hst & <-). rewrite Hst. cbn. split; [intros _|by eexists].
    apply list_elem_of_fmap. exists st. split; [done|]. by eapply list_elem_of_lookup_2.
  - apply shardExists_None in E. split; [by intros [? ?]|done].
Qed.

(** ** Cleanup *)
Definition stale_complaint (shards : list ShardTerm) (c : Complaint) : bool :=
  match term_of shards (c_Shard c) with Some t => (c_Term c <? t)%N | None => false end.

Lemma cleanup_step_spec shards acc c : c_Shard c ∈ shard_ids shards ->
  cleanup_step shards acc c = if stale_complaint shards c then Ok acc else Ok (acc ++ [c]).
Proof.
  intros Hin. unfold cleanup_step, stale_complaint.
  destruct (proj2 (term_of_is_Some shards (c_Shard c)) Hin) as [t Ht]. rewrite Ht.
  unfold term_of in Ht. apply fmap_Some in Ht as (st & (i & Ei & Hi)%bind_Some & ->).
  rewrite Ei. cbn. unfold index. by rewrite Hi.
Qed.

Lemma CleanupOldComplaints_spec s :
  Forall (fun c => c_Shard c ∈ shard_ids (s_Shards s)) (s_Complaints s) ->
  CleanupOldComplaints s =
  Ok (with_Complaints (filter (fun c => stale_complaint (s_Shards s) c = false) (s_Complaints s)) s).
Proof.
  intros Hall. unfold CleanupOldComplaints.
  assert (forall acc, ofoldl (cleanup_step (s_Shards s)) acc (s_Complaints s) =
    Ok (acc ++ filter (fun c => stale_complaint (s_Shards s) c = false) (s_Complaints s))) as E.
  { induction Hall as [|c cs Hc Hall IH]; intros acc; cbn [ofoldl]; [by rewrite app_nil_r|].
    rewrite cleanup_step_spec, filter_cons by done. destruct (stale_complaint _ c); cbn [mbind outcome_bind].
    - by rewrite IH.
    - by rewrite IH, <-app_assoc. }
  by rewrite E.
Qed.

(** A complaint about a shard that is not in the state makes the cleanup index out of range. *)
Lemma CleanupOldComplaints_panics s c :
  c ∈ s_Complaints s -> c_Shard c ∉ shard_ids (s_Shards s) -> exists e, CleanupOldComplaints s = Panic e.
Proof.
  intros Hc Hn. unfold CleanupOldComplaints. generalize (@nil Complaint).
  induction (s_Complaints s) as [|c' cs IH]; intros acc; [set_solver|]. cbn [ofoldl].
  destruct (decide (c_Shard c' ∈ shard_ids (s_Shards s))) as [Hin|Hni].
  - rewrite cleanup_step_spec by done. apply elem_of_cons in Hc as [->|Hc]; [done|].
    destruct (stale_complaint _ _); cbn [mbind outcome_bind]; by apply IH.
  - unfold cleanup_step. rewrite (proj2 (shardExists_None _ _) Hni). cbn. eauto.
Qed.

(** ** Extraction *)
Definition vote_count (pending : list BAF) (bk : batchKey) (dg : bytes) : nat :=
  length (filter (fun b => batchKeyOf b = bk /\ baf_digest b = dg) pending).

Lemma length_votes_for pending bk dg :
  length (votes_for false bk (hex_encode dg) pending) = vote_count pending bk dg.
Proof.
  unfold votes_for, vote_count. rewrite length_fmap. f_equal. apply filter_ext_elem. intros b _.
  unfold counted. split; [intros (_ & ? & ?%(inj hex_encode)); done|intros [? ->]; repeat split; done].
Qed.

(** A batch with this digest reached the threshold. *)
Definition attested (thr : N) (pending : list BAF) (bk : batchKey) (dg : bytes) : Prop :=
  (thr <= N.of_nat (vote_count pending bk dg))%N.
#[export] Instance attested_dec thr pending bk dg : Decision (attested thr pending bk dg).
Proof. unfold attested. apply _. Defined.

(** Some pending fragment of the batch has a digest that reached the threshold. *)
Definition decided (thr : N) (pending : list BAF) (bk : batchKey) : Prop :=
  Exists (fun b => batchKeyOf b = bk /\ attested thr pending bk (baf_digest b)) pending.
#[export] Instance decided_dec thr pending bk : Decision (decided thr pending bk).
Proof. unfold decided. apply _. Defined.

Lemma decide_digest_fold thr bk dvs D T :
  exists D' T', foldl (decide_digest thr bk) (D, T) dvs = (D', T') /\
    (forall k, k ∈ D' <-> k ∈ D \/ (k = bk /\ exists dv, dv ∈ dvs /\ (thr <= N.of_nat (length dv.2))%N)) /\
    (forall k h, (k, h) ∈ T' <-> (k, h) ∈ T \/ (k = bk /\ exists l, (h, l) ∈ dvs /\ (thr <= N.of_nat (length l))%N)).
Proof.
  revert D T; induction dvs as [|[h0 l0] dvs IH]; intros D T; cbn [foldl].
  { exists D, T. split; [done|]. split; intros; set_solver. }
  unfold decide_digest at 2; cbn [fst snd].
  destruct (N.leb_spec thr (N.of_nat (length l0))) as [Hle|Hlt].
  - destruct (IH ({[bk]} ∪ D) ({[(bk, h0)]} ∪ T)) as (D' & T' & -> & HD & HT). exists D', T'. split; [done|]. split.
    + intros k. rewrite HD, elem_of_union, elem_of_singleton. split.
      * intros [[->|?]|(-> & dv & ? & ?)]; [|tauto|]; right; (split; [done|]);
          [exists (h0, l0); by split; [left|]|exists dv; by split; [right|]].
      * intros [?|(-> & dv & [->|?]%elem_of_cons & ?)]; [tauto..|]. right. eauto.
    + intros k h. rewrite HT, elem_of_union, elem_of_singleton. split.
      * intros [[?|?]|(-> & l & ? & ?)]; simplify_eq; [|tauto|]; right; (split; [done|]);
          [exists l0; by split; [left|]|exists l; by split; [right|]].
      * intros [?|(-> & l & [?|?]%elem_of_cons & ?)]; simplify_eq; [tauto..|]. right. eauto.
  - destruct (IH D T) as (D' & T' & -> & HD & HT). exists D', T'. split; [done|]. split.
    + intros k. rewrite HD. setoid_rewrite elem_of_cons. split.
      * intros [?|(-> & dv & ? & ?)]; [tauto|right; split; [done|]; exists dv; tauto].
      * intros [?|(-> & dv & [->|?] & Hl)]; [tauto|cbn in Hl; lia|right; split; [done|]; exists dv; tauto].
    + intros k h. rewrite HT. setoid_rewrite elem_of_cons. split.
      * intros [?|(-> & l & ? & ?)]; [tauto|right; split; [done|]; exists l; tauto].
      * intros [?|(-> & l & [?|?] & Hl)]; simplify_eq; [tauto|lia|right; split; [done|]; exists l; tauto].
Qed.

Lemma decide_batches_spec {R : MapRange} thr m :
  exists D T, decide_batches thr m = (D, T) /\
    (forall k, k ∈ D <-> exists d h l, m !! k = Some d /\ d !! h = Some l /\ (thr <= N.of_nat (length l))%N) /\
    (forall k h, (k, h) ∈ T <-> exists d l, m !! k = Some d /\ d !! h = Some l /\ (thr <= N.of_nat (length l))%N).
Proof.
  unfold decide_batches.
  assert (forall bds D T, exists D' T',
    foldl (fun acc bd => foldl (decide_digest thr bd.1) acc (range_map 2 bd.2)) (D, T) bds = (D', T') /\
    (forall k, k ∈ D' <-> k ∈ D \/ exists d h l, (k, d) ∈ bds /\ d !! h = Some l /\ (thr <= N.of_nat (length l))%N) /\
    (forall k h, (k, h) ∈ T' <-> (k, h) ∈ T \/
      exists d l, (k, d) ∈ bds /\ d !! h = Some l /\ (thr <= N.of_nat (length l))%N)) as Hfold.
  { induction bds as [|[bk d] bds IH]; intros D T; cbn [foldl].
    { exists D, T. split; [done|]. split; intros; set_solver. }
    cbn [fst snd]. destruct (decide_digest_fold thr bk (range_map 2 d) D T) as (D1 & T1 & -> & HD1 & HT1).
    destruct (IH D1 T1) as (D' & T' & -> & HD & HT). exists D', T'. split; [done|]. split.
    - intros k. rewrite HD, HD1. setoid_rewrite elem_of_cons. split.
      + intros [[?|(-> & [h l] & Hr%elem_of_range & ?)]|(d' & h & l & ? & ? & ?)]; [tauto|..]; right.
        * exists d, h, l. tauto.
        * exists d', h, l. tauto.
      + intros [?|(d' & h & l & [?|?] & ? & ?)]; [tauto|..]; simplify_eq.
        * left; right. split; [done|]. exists (h, l). by rewrite elem_of_range.
        * right. exists d', h, l. tauto.
    - intros k h. rewrite HT, HT1. setoid_rewrite elem_of_cons. split.
      + intros [[?|(-> & l & Hr%elem_of_range & ?)]|(d' & l & ? & ? & ?)]; [tauto|..]; right.
        * exists d, l. tauto.
        * exists d', l. tauto.
      + intros [?|(d' & l & [?|?] & ? & ?)]; [tauto|..]; simplify_eq.
        * left; right. split; [done|]. exists l. by rewrite elem_of_range.
        * right. exists d', l. tauto. }
  destruct (Hfold (range_map 1 m) ∅ ∅) as (D & T & -> & HD & HT). exists D, T. split; [done|]. split.
  - intros k. rewrite HD. setoid_rewrite elem_of_range. set_solver.
  - intros k h. rewrite HT. setoid_rewrite elem_of_range. set_solver.
Qed.

Lemma votes_attested s b :
  b ∈ s_Pending s ->
  (exists d l, batchAttestationVotesByDigests s false !! batchKeyOf b = Some d /\ d !! hex_encode (baf_digest b) = Some l
     /\ (s_Threshold s <= N.of_nat (length l))%N)
  <-> attested (s_Threshold s) (s_Pending s) (batchKeyOf b) (baf_digest b).
Proof.
  intros Hb. unfold attested. rewrite <-length_votes_for. split.
  - intros (d & l & Hd & Hl & Hle).
    destruct (proj1 (votes_lookup_Some s false (batchKeyOf b) (hex_encode (baf_digest b)) l)) as [-> _]; eauto.
  - intros Hle. assert (votes_for false (batchKeyOf b) (hex_encode (baf_digest b)) (s_Pending s) <> []) as Hne.
    { apply votes_for_nonempty. exists b. by repeat split. }
    destruct (proj2 (votes_lookup_Some s false _ _ _) (conj eq_refl Hne)) as (d & Hd & Hl). eauto.
Qed.

Lemma ExtractBatchAttestations_spec {R : MapRange} s :
  let thr := s_Threshold s in let p := s_Pending s in
  ExtractBatchAttestationsFromPending s =
  (with_Pending (filter (fun b => ~ decided thr p (batchKeyOf b)) p) s,
   filter (fun b => attested thr p (batchKeyOf b) (baf_digest b)) p).
Proof.
  cbn zeta. unfold ExtractBatchAttestationsFromPending.
  destruct (decide_batches_spec (s_Threshold s) (batchAttestationVotesByDigests s false)) as (D & T & -> & HD & HT).
  assert (forall b, b ∈ s_Pending s -> batchKeyOf b ∈ D <-> decided (s_Threshold s) (s_Pending s) (batchKeyOf b)) as HDd.
  { intros b Hb. rewrite HD. unfold decided. rewrite Exists_exists. split.
    - intros (d & h & l & Hd & Hl & Hle).
      destruct (proj1 (votes_lookup_Some s false (batchKeyOf b) h l)) as [Hv Hne]; [eauto|].
      rewrite <-Hv in Hne. apply votes_for_nonempty in Hne as (b' & Hb' & _ & Ek & <-).
      exists b'. repeat split; try done. rewrite <-Ek. apply votes_attested; [done|]. rewrite Ek. eauto.
    - intros (b' & Hb' & Ek & Ha). rewrite <-Ek in Ha. apply votes_attested in Ha as (d & l & ? & ? & ?); [|done].
      rewrite Ek in *. eauto 10. }
  f_equal.
  - f_equal. apply filter_ext_elem. intros b Hb. by rewrite HDd.
  - apply filter_ext_elem. intros b Hb. rewrite HT, votes_attested by done. split; [tauto|].
    intros Ha. split; [|done]. apply HDd; [done|]. unfold decided. rewrite Exists_exists. eauto.
Qed.

(** ** Collection *)
Definition acceptable (shards : list ShardTerm) (seen : gset attestationKey) (b : BAF) : Prop :=
  baf_shard b ∈ shard_ids shards /\ attestationKeyOf b ∉ seen.
#[export] Instance acceptable_dec shards seen b : Decision (acceptable shards seen b).
Proof. unfold acceptable. apply _. Defined.

(** The BAFs a round adds to the pending ones, in order. *)
Definition accepted_bafs (shards : list ShardTerm) (seen : gset attestationKey) (ces : list ControlEvent) : list BAF :=
  filter (acceptable shards seen) (omap ce_BAF ces).

(** The complainers in [seen] are those of the complaints. *)
Definition seen_of (seen : gmap ShardTerm (gset PartyID)) (cs : list Complaint) : Prop :=
  forall st p, p ∈ default ∅ (seen !! st) <-> (st, p) ∈ ((fun c => (c_ShardTerm c, c_Signer c)) <$> cs).

Lemma complaints_add_seen seen cs c : seen_of seen cs -> seen_of (complaints_add seen c) (cs ++ [c]).
Proof.
  intros Hs st p. unfold complaints_add. rewrite fmap_app, elem_of_app. specialize (Hs st p). rewrite <-Hs. cbn.
  rewrite list_elem_of_singleton, lookup_insert. case_decide as E; cbn.
  - subst st. rewrite elem_of_union, elem_of_singleton. naive_solver.
  - naive_solver.
Qed.

Lemma seen_of_foldl cs : seen_of (foldl complaints_add ∅ cs) cs.
Proof.
  induction cs as [|c cs IH] using rev_ind.
  - intros st p. cbn. rewrite lookup_empty. set_solver.
  - rewrite foldl_app. by apply complaints_add_seen.
Qed.

Definition complaint_id (c : Complaint) : ShardTerm * PartyID := (c_ShardTerm c, c_Signer c).

Record collected (shards : list ShardTerm) (a a' : collect_acc) (new : list Complaint) : Prop := {
  col_complaints : ca_Complaints a' = ca_Complaints a ++ new;
  col_seen : seen_of (ca_seen a') (ca_Complaints a');
  col_current : Forall (fun c => c_ShardTerm c ∈ shards) new;
  col_nodup : NoDup (complaint_id <$> ca_Complaints a) -> NoDup (complaint_id <$> ca_Complaints a')
}.

Lemma collect_complaint_spec shards a c :
  seen_of (ca_seen a) (ca_Complaints a) ->
  ca_Pending (collect_complaint shards a c) = ca_Pending a /\
  exists new, collected shards a (collect_complaint shards a c) new /\ new ⊆ [c].
Proof.
  intros Hs. unfold collect_complaint.
  destruct (decide (c_ShardTerm c ∈ shards)) as [Hin|];
    [destruct (decide (c_Signer c ∈ default ∅ (ca_seen a !! c_ShardTerm c))) as [|Hni]|].
  2: { split; [done|]. exists [c]. split; [|done]. split; cbn; [done|by apply complaints_add_seen|by constructor|].
       intros Hnd. rewrite fmap_app. apply NoDup_app. split; [done|]. split; [|apply NoDup_singleton].
       intros x Hx ->%list_elem_of_singleton. apply Hni, Hs. done. }
  all: split; [done|]; exists []; split; [|set_solver]; split; try done; by rewrite app_nil_r.
Qed.

Lemma collected_refl shards a : seen_of (ca_seen a) (ca_Complaints a) -> collected shards a a [].
Proof. split; try done. by rewrite app_nil_r. Qed.

Lemma collect_one_spec shards keys a ce :
  seen_of (ca_seen a) (ca_Complaints a) ->
  ca_Pending (collect_one shards keys a ce) = ca_Pending a ++ accepted_bafs shards keys [ce] /\
  exists new, collected shards a (collect_one shards keys a ce) new /\ new ⊆ omap ce_Complaint [ce].
Proof.
  intros Hs. unfold collect_one, accepted_bafs. cbn [omap list_omap].
  assert (forall a', seen_of (ca_seen a') (ca_Complaints a') ->
    let a2 := match ce_Complaint ce with Some c => collect_complaint shards a' c | None => a' end in
    ca_Pending a2 = ca_Pending a' /\ exists new, collected shards a' a2 new /\
      new ⊆ match ce_Complaint ce with Some y => [y] | None => [] end) as Hc.
  { intros a' Hs'. destruct (ce_Complaint ce) as [c|]; [by apply collect_complaint_spec|].
    split; [done|]. exists []. split; [by apply collected_refl|set_solver]. }
  destruct (ce_BAF ce) as [b|]; [|rewrite filter_nil, app_nil_r; by apply Hc].
  rewrite filter_cons, filter_nil. unfold acceptable.
  destruct (shardExists (baf_shard b) shards) as [i|] eqn:E.
  - assert (baf_shard b ∈ shard_ids shards) as Hin.
    { apply dec_stable. rewrite <-shardExists_None. by rewrite E. }
    destruct (decide (attestationKeyOf b ∈ keys)) as [Hk|Hk].
    + rewrite decide_False, app_nil_r by tauto. split; [done|]. exists []. split; [by apply collected_refl|set_solver].
    + rewrite decide_True by done.
      destruct (Hc (mkCollect (ca_Pending a ++ [b]) (ca_Complaints a) (ca_seen a)) Hs) as (Hp & new & Hcol & Hsub).
      split; [done|]. exists new. split; [|done]. destruct Hcol. by split.
  - apply shardExists_None in E. rewrite decide_False, app_nil_r by tauto. split; [done|].
    exists []. split; [by apply collected_refl|set_solver].
Qed.

Lemma collect_fold_spec shards keys ces a :
  seen_of (ca_seen a) (ca_Complaints a) ->
  let a' := foldl (collect_one shards keys) a ces in
  ca_Pending a' = ca_Pending a ++ accepted_bafs shards keys ces /\
  exists new, collected shards a a' new /\ new ⊆ omap ce_Complaint ces.
Proof.
  revert a; induction ces as [|ce ces IH]; intros a Hs; cbn zeta; cbn [foldl].
  { split; [cbn; by rewrite app_nil_r|]. exists []. split; [by apply collected_refl|set_solver]. }
  destruct (collect_one_spec shards keys a ce Hs) as (Hp1 & new1 & [E1 S1 C1 N1] & Sub1).
  destruct (IH _ S1) as (Hp2 & new2 & [E2 S2 C2 N2] & Sub2). cbn zeta in *. split.
  - rewrite Hp2, Hp1, <-app_assoc. f_equal. unfold accepted_bafs.
    change (ce :: ces) with ([ce] ++ ces). by rewrite omap_app, filter_app.
  - exists (new1 ++ new2). split; [split|].
    + by rewrite E2, E1, app_assoc.
    + done.
    + by apply Forall_app.
    + auto.
    + change (ce :: ces) with ([ce] ++ ces). rewrite omap_app. set_solver.
Qed.

(** CollectAndDeduplicateEvents appends the acceptable BAFs and complaints of the round. *)
Lemma Collect_spec ces s :
  let keys : gset attestationKey := list_to_set (attestationKeyOf <$> s_Pending s) in
  exists new, CollectAndDeduplicateEvents ces s =
    with_Complaints (s_Complaints s ++ new) (with_Pending (s_Pending s ++ accepted_bafs (s_Shards s) keys ces) s) /\
    Forall (fun c => c_ShardTerm c ∈ s_Shards s) new /\ new ⊆ omap ce_Complaint ces /\
    (NoDup (complaint_id <$> s_Complaints s) -> NoDup (complaint_id <$> (s_Complaints s ++ new))).
Proof.
  cbn zeta. unfold CollectAndDeduplicateEvents.
  set (keys := list_to_set (attestationKeyOf <$> s_Pending s) : gset attestationKey).
  destruct (collect_fold_spec (s_Shards s) keys ces
    (mkCollect (s_Pending s) (s_Complaints s) (foldl complaints_add ∅ (s_Complaints s)))) as (Hp & new & [E S C N'] & Sub).
  { apply seen_of_foldl. }
  cbn zeta in *. cbn [ca_Pending ca_Complaints] in *. exists new. rewrite Hp, E. rewrite E in N'. done.
Qed.

(** ** Assembler heights *)

(** Strictly increasing parties. *)
Definition heights_sorted (hs : list AssemblerHeight) : Prop := StronglySorted N.lt (ah_Party <$> hs).

Lemma heights_sorted_nodup hs : heights_sorted hs -> NoDup (ah_Party <$> hs).
Proof.
  unfold heights_sorted. induction 1 as [|p l Hs IH Hall]; constructor; [|done].
  rewrite Forall_forall in Hall. intros Hin%Hall. lia.
Qed.

Lemma merge_sort_heights hs : NoDup (ah_Party <$> hs) -> heights_sorted (merge_sort height_le hs).
Proof.
  intros Hnd. pose proof (StronglySorted_merge_sort height_le hs) as Hs.
  assert (NoDup (ah_Party <$> merge_sort height_le hs)) as Hnd' by (by rewrite merge_sort_Permutation).
  unfold heights_sorted. clear Hnd. induction Hs as [|h l Hs IH Hall]; cbn; [constructor|].
  cbn in Hnd'. apply NoDup_cons in Hnd' as [Hh Hnd']. constructor; [by apply IH|].
  rewrite Forall_fmap. rewrite Forall_forall in Hall |- *. intros h' Hh'. unfold compose.
  specialize (Hall h' Hh'). unfold height_le in Hall.
  assert (ah_Party h <> ah_Party h'); [|lia]. intros E. apply Hh, list_elem_of_fmap. eauto.
Qed.

(** [hs'] results from [hs] by recording reports [rs]: no height is lost or lowered, every report is covered, and
    nothing else appears. *)
Record recorded (hs hs' : list AssemblerHeight) (rs : list AssemblerDecisionReport) : Prop := {
  rec_keeps : forall h, h ∈ hs -> exists h', h' ∈ hs' /\ ah_Party h' = ah_Party h /\ (ah_DecisionNum h <= ah_DecisionNum h')%N;
  rec_covers : forall r, r ∈ rs -> exists h', h' ∈ hs' /\ ah_Party h' = r_Party r /\ (r_DecisionNum r <= ah_DecisionNum h')%N;
  rec_sound : forall h', h' ∈ hs' -> h' ∈ hs \/ exists r, r ∈ rs /\ h' = mkHeight (r_Party r) (r_DecisionNum r)
}.

Lemma recorded_refl hs : recorded hs hs [].
Proof. split; [intros h Hh; exists h; repeat split; try done; lia|set_solver|auto]. Qed.

Lemma recorded_trans hs1 hs2 hs3 rs1 rs2 :
  recorded hs1 hs2 rs1 -> recorded hs2 hs3 rs2 -> recorded hs1 hs3 (rs1 ++ rs2).
Proof.
  intros [K1 C1 S1] [K2 C2 S2]. split.
  - intros h (h1 & H1 & E1 & L1)%K1. destruct (K2 h1 H1) as (h2 & H2 & E2 & L2).
    exists h2. repeat split; [done|congruence|lia].
  - intros r [(h1 & H1 & E1 & L1)%C1|Hr]%elem_of_app; [|by apply C2].
    destruct (K2 h1 H1) as (h2 & H2 & E2 & L2). exists h2. repeat split; [done|congruence|lia].
  - intros h' [[?|(r & ? & ?)]%S1|(r & ? & ?)]%S2; [by left|right; exists r; set_solver..].
Qed.

Lemma collect_report_spec hs added ce :
  NoDup (ah_Party <$> hs) -> (added = false -> heights_sorted hs) ->
  let '(hs', added') := collect_report (hs, added) ce in
  NoDup (ah_Party <$> hs') /\ (added' = false -> heights_sorted hs') /\ recorded hs hs' (omap ce_AssemblerReport [ce]).
Proof.
  intros Hnd Hso. unfold collect_report. cbn [omap list_omap].
  destruct (ce_AssemblerReport ce) as [r|]; [|split; [done|split; [done|apply recorded_refl]]].
  destruct (list_find _ hs) as [[i h]|] eqn:E.
  - apply list_find_Some in E as (Hi & Ep & _). destruct (N.ltb_spec (ah_DecisionNum h) (r_DecisionNum r)) as [Hlt|Hge].
    + assert (ah_Party <$> <[i:=mkHeight (ah_Party h) (r_DecisionNum r)]> hs = ah_Party <$> hs) as Eid.
      { rewrite list_fmap_insert. apply list_insert_id. rewrite list_lookup_fmap, Hi. done. }
      unfold heights_sorted. rewrite Eid. split; [done|split; [done|]]. pose proof (lookup_lt_Some _ _ _ Hi) as Hlen.
      assert (mkHeight (ah_Party h) (r_DecisionNum r) ∈ <[i:=mkHeight (ah_Party h) (r_DecisionNum r)]> hs) as Hnew.
      { apply list_elem_of_lookup. exists i. by apply list_lookup_insert_eq. }
      split.
      * intros h0 [j Hj]%list_elem_of_lookup. destruct (decide (j = i)) as [->|Hne].
        -- simplify_eq. eexists. split; [exact Hnew|]. cbn. split; [done|lia].
        -- exists h0. repeat split; [|lia]. apply list_elem_of_lookup. exists j. by rewrite list_lookup_insert_ne.
      * intros r0 ->%list_elem_of_singleton. eexists. split; [exact Hnew|]. cbn. split; [done|lia].
      * intros h' [j Hj]%list_elem_of_lookup. destruct (decide (j = i)) as [->|Hne].
        -- rewrite list_lookup_insert_eq in Hj by done. simplify_eq. right. exists r. rewrite Ep. split; [by left|done].
        -- rewrite list_lookup_insert_ne in Hj by done. left. by eapply list_elem_of_lookup_2.
    + split; [done|split; [done|]]. split; [intros h0 Hh0; exists h0; repeat split; [done|lia]| |auto].
      intros r0 ->%list_elem_of_singleton. exists h. repeat split; [by eapply list_elem_of_lookup_2|done|lia].
  - apply list_find_None in E. rewrite Forall_forall in E. split; [|split; [done|split]].
    + rewrite fmap_app. apply NoDup_app. split; [done|]. split; [|apply NoDup_singleton].
      intros p (h & -> & Hh)%list_elem_of_fmap Hp%list_elem_of_singleton. by apply (E h).
    + intros h Hh. exists h. repeat split; [set_solver|lia].
    + intros r0 ->%list_elem_of_singleton. eexists. split; [apply elem_of_app; right; by left|]. cbn. split; [done|lia].
    + intros h' [?| ->%list_elem_of_singleton]%elem_of_app; [by left|right; exists r; split; [by left|done]].
Qed.

Lemma CollectAssemblerReports_spec ces s :
  heights_sorted (s_AssemblerHeights s) ->
  exists hs, CollectAssemblerReports ces s = with_AssemblerHeights hs s /\ heights_sorted hs /\
    recorded (s_AssemblerHeights s) hs (omap ce_AssemblerReport ces).
Proof.
  intros Hso. unfold CollectAssemblerReports.
  assert (forall hs added, NoDup (ah_Party <$> hs) -> (added = false -> heights_sorted hs) ->
    let '(hs', added') := foldl collect_report (hs, added) ces in
    NoDup (ah_Party <$> hs') /\ (added' = false -> heights_sorted hs') /\
    recorded hs hs' (omap ce_AssemblerReport ces)) as Hfold.
  { induction ces as [|ce ces IH]; intros hs added Hnd Hs; cbn [foldl].
    { split; [done|split; [done|apply recorded_refl]]. }
    pose proof (collect_report_spec hs added ce Hnd Hs) as H1. destruct (collect_report _ ce) as [hs1 added1].
    destruct H1 as (Hnd1 & Hs1 & Hr1). specialize (IH hs1 added1 Hnd1 Hs1).
    destruct (foldl _ _ ces) as [hs2 added2]. destruct IH as (? & ? & Hr2). split; [done|split; [done|]].
    change (ce :: ces) with ([ce] ++ ces). rewrite omap_app. by eapply recorded_trans. }
  specialize (Hfold (s_AssemblerHeights s) false (heights_sorted_nodup _ Hso) (fun _ => Hso)).
  destruct (foldl _ _ ces) as [hs added]. destruct Hfold as (Hnd & Hs & [K C S']).
  exists (if added then merge_sort height_le hs else hs). split; [done|]. destruct added.
  - split; [by apply merge_sort_heights|]. split; setoid_rewrite (merge_sort_Permutation height_le hs); done.
  - split; [auto|by split].
Qed.
