(* ===== verification/StateProps.v ===== *)
(** * Properties of the round transition

    The invariant of the consensus state, the whole effect of [Process], and the properties that make a round correct. *)
From S2P Require Import Prelude Types Events State StateFacts.
From Stdlib Require Import NArith Lia.
Import Quorum.

(** ** Control events carry exactly one payload *)
Inductive single : ControlEvent -> Prop :=
  | single_baf b : single (BAFEvent b)
  | single_complaint c : single (ComplaintEvent c)
  | single_config c : single (ConfigRequestEvent c)
  | single_report r : single (ReportEvent r).

Lemma ControlEvent_FromBytes_single `{FabricCodecs} `{Codec ControlEventProto} bs ce :
  ControlEvent_FromBytes bs = Ok ce -> single ce.
Proof.
  unfold ControlEvent_FromBytes. intros E. outcome_inv. destruct v; cbn in *; outcome_inv; constructor.
Qed.

Section Props.
Context `{FabricCodecs}.

(** The events of a round at config sequence [cs] that take part in it. *)
Definition keeps (cs : ConfigSequence) (ce : ControlEvent) : Prop :=
  match ce_BAF ce, ce_Complaint ce, ce_ConfigRequest ce, ce_AssemblerReport ce with
  | Some b, _, _, _ => baf_configSequence b = cs
  | _, Some c, _, _ => c_ConfigSeq c = cs
  | _, _, Some cr, _ => ConfigRequest_ConfigSequence cr = Ok (u64_incr cs)
  | _, _, _, Some r => r_ConfigSeq r = cs
  | None, None, None, None => False
  end.
#[export] Instance outcome_eq_dec `{EqDecision A} : EqDecision (outcome A).
Proof. solve_decision. Defined.
#[export] Instance keeps_dec cs ce : Decision (keeps cs ce).
Proof. unfold keeps. destruct (ce_BAF ce), (ce_Complaint ce), (ce_ConfigRequest ce), (ce_AssemblerReport ce); apply _. Defined.

(** The BAFs that fell behind a config change. *)
Definition stale_bafs (cs : ConfigSequence) (ces : list ControlEvent) : list BAF :=
  filter (fun b => (baf_configSequence b < cs)%N) (omap ce_BAF ces).

Lemma filterCEs_spec cs ces :
  Forall single ces -> filterCEsWithDiffConfigSeq cs ces = (filter (keeps cs) ces, stale_bafs cs ces).
Proof.
  intros Hall. unfold filterCEsWithDiffConfigSeq, stale_bafs.
  assert (forall a b, foldl (filter_one cs) (a, b) ces =
    (a ++ filter (keeps cs) ces, b ++ filter (fun b => (baf_configSequence b < cs)%N) (omap ce_BAF ces))) as E;
    [|by rewrite E].
  induction Hall as [|ce ces Hce Hall IH]; intros a b; cbn [foldl]; [by rewrite !app_nil_r|].
  rewrite filter_cons. unfold keeps at 1. destruct Hce as [bf|c|c|r]; cbn.
  - destruct (N.eqb_spec (baf_configSequence bf) cs), (N.ltb_spec (baf_configSequence bf) cs);
      rewrite IH; repeat case_decide; try lia; try done; by rewrite <-?app_assoc.
  - destruct (N.eqb_spec (c_ConfigSeq c) cs); rewrite IH; case_decide; try done; by rewrite <-?app_assoc.
  - destruct (ConfigRequest_ConfigSequence c) as [q|e|e] eqn:Eq; [|rewrite IH; case_decide; done..].
    destruct (N.eqb_spec q (u64_incr cs)); rewrite IH; case_decide; simplify_eq; try done; by rewrite <-?app_assoc.
  - destruct (N.eqb_spec (r_ConfigSeq r) cs); rewrite IH; case_decide; try done; by rewrite <-?app_assoc.
Qed.

(** ** The durable watermark *)
Definition count_ge (w : N) (l : list N) : nat := length (filter (fun x => (w <= x)%N) l).

Lemma count_ge_perm w l k : l ≡ₚ k -> count_ge w l = count_ge w k.
Proof. intros Hp. unfold count_ge. by rewrite Hp. Qed.

Lemma filter_length_le {A} (P : A -> Prop) `{!forall x, Decision (P x)} (l : list A) : length (filter P l) <= length l.
Proof. induction l; [done|]. rewrite filter_cons. case_decide; cbn; lia. Qed.


Lemma sorted_kth (l : list N) k w :
  StronglySorted N.le l -> 1 <= k <= length l -> l !! (length l - k) = Some w ->
  k <= count_ge w l /\ forall w', k <= count_ge w' l -> (w' <= w)%N.
Proof.
  intros Hs Hk Hw. set (i := length l - k) in *.
  pose proof (take_drop_middle l i w Hw) as El.
  assert (StronglySorted N.le (take i l ++ w :: drop (S i) l)) as Hs' by (by rewrite El).
  assert (length (drop (S i) l) = k - 1) as Ld by (rewrite length_drop; lia).
  unfold count_ge. rewrite <-El. rewrite !filter_app, !filter_cons, !length_app.
  apply StronglySorted_app in Hs' as (Hlt & _ & Hd).
  apply StronglySorted_inv in Hd as [_ Hd]. split.
  - rewrite decide_True by lia. rewrite (filter_all _ (drop (S i) l)) by done. cbn. lia.
  - intros w' Hc. destruct (decide (w' <= w)%N) as [|Hgt]; [done|]. exfalso.
    rewrite filter_app, filter_cons, length_app, decide_False in Hc by lia.
    rewrite (filter_none _ (take i l)) in Hc.
    + pose proof (filter_length_le (fun x => (w' <= x)%N) (drop (S i) l)). cbn in Hc. lia.
    + apply Forall_forall. intros x Hx Hle. specialize (Hlt x w Hx ltac:(by left)). lia.
Qed.

(** [w] is the highest decision that [k] of the heights reach. *)
Definition kth_highest (k : nat) (w : N) (l : list N) : Prop :=
  k <= count_ge w l /\ forall w', k <= count_ge w' l -> (w' <= w)%N.

Lemma UpdateDurableWatermark_spec s f t q :
  (0 < s_N s <= u16_max)%N -> ComputeFTQ (s_N s) = (f, t, q) ->
  let dns := ah_DecisionNum <$> s_AssemblerHeights s in
  let k := N.to_nat (2 * f + 1) in
  exists w, UpdateDurableWatermark s = Ok (with_DurableWatermark w s) /\ (s_DurableWatermark s <= w)%N /\
    (w = s_DurableWatermark s \/ kth_highest k w dns) /\
    (forall w', k <= count_ge w' dns -> (w' <= w)%N).
Proof.
  intros Hn E. cbn zeta. unfold UpdateDurableWatermark.
  destruct (N.eqb_spec (s_N s) 0) as [|_]; [lia|]. rewrite E.
  destruct (ComputeFTQ_bounds _ _ _ _ Hn E) as (Hf & _).
  rewrite u16_small by (unfold u16_max in *; lia).
  assert (with_DurableWatermark (s_DurableWatermark s) s = s) as Hid by (by destruct s).
  set (k := N.to_nat (2 * f + 1)). set (dns := ah_DecisionNum <$> s_AssemblerHeights s).
  destruct (decide (length (s_AssemblerHeights s) < k)) as [Hlt|Hge].
  - exists (s_DurableWatermark s). rewrite Hid. split; [done|split; [lia|split; [by left|]]].
    intros w' Hc. pose proof (filter_length_le (fun x => (w' <= x)%N) dns) as Hl. unfold count_ge in Hc.
    unfold dns in Hl at 2. rewrite length_fmap in Hl. lia.
  - assert (length (merge_sort N.le dns) = length (s_AssemblerHeights s)) as Hlen.
    { rewrite merge_sort_Permutation. unfold dns. apply length_fmap. }
    destruct (lookup_lt_is_Some_2 (merge_sort N.le dns) (length (merge_sort N.le dns) - k)) as [w Hw]; [lia|].
    unfold index. rewrite Hw. cbn [mbind outcome_bind].
    destruct (sorted_kth (merge_sort N.le dns) k w) as [Hk Hmax]; [by apply StronglySorted_merge_sort; apply _|lia|done|].
    rewrite (count_ge_perm w _ dns) in Hk by apply merge_sort_Permutation.
    assert (forall w', k <= count_ge w' dns -> (w' <= w)%N) as Hmax'.
    { intros w'. rewrite <-(count_ge_perm w' (merge_sort N.le dns)) by apply merge_sort_Permutation. apply Hmax. }
    destruct (N.ltb_spec (s_DurableWatermark s) w) as [Hlt|Hle].
    + exists w. split; [done|split; [lia|split; [by right|done]]].
    + exists (s_DurableWatermark s). rewrite Hid. split; [done|split; [lia|split; [by left|]]].
      intros w' Hc%Hmax'. lia.
Qed.

(** ** Map iteration order does not matter *)
Lemma DetectEquivocation_deterministic (R1 R2 : MapRange) s : @DetectEquivocation R1 s = @DetectEquivocation R2 s.
Proof.
  unfold DetectEquivocation. do 3 f_equal. apply sorted_perm_unique; try apply _. by rewrite !range_perm.
Qed.

Lemma Extract_deterministic (R1 R2 : MapRange) s :
  @ExtractBatchAttestationsFromPending R1 s = @ExtractBatchAttestationsFromPending R2 s.
Proof. by rewrite !ExtractBatchAttestations_spec. Qed.

Lemma Process_order_irrelevant (R1 R2 : MapRange) cs ces s : @Process _ R1 cs ces s = @Process _ R2 cs ces s.
Proof.
  unfold Process. destruct (filterCEsWithDiffConfigSeq cs ces) as [fces stale].
  rewrite (DetectEquivocation_deterministic R1 R2). destruct (PrimaryRotateDueToComplaints _); cbn; [|done..].
  destruct (CleanupOldComplaints _); cbn; [|done..]. by rewrite (Extract_deterministic R1 R2).
Qed.

(** ** The whole round *)

(** The BAFs considered in a round: the pending ones at the config sequence, then the acceptable new ones. *)
Definition round_pending (cs : ConfigSequence) (ces : list ControlEvent) (s : State) : list BAF :=
  let p0 := filter (fun b => baf_configSequence b = cs) (s_Pending s) in
  p0 ++ accepted_bafs (s_Shards s) (list_to_set (attestationKeyOf <$> p0)) (filter (keeps cs) ces).

(** The complaints considered in a round. *)
Definition round_complaints (cs : ConfigSequence) (ces : list ControlEvent) (s : State) : list Complaint :=
  s_Complaints (CollectAndDeduplicateEvents (filter (keeps cs) ces)
    (FilterPendingEventsWithDiffConfigSeq cs (with_StaleConfigBAFs (stale_bafs cs ces) s))).

Definition shard_known (shards : list ShardTerm) (c : Complaint) : Prop := c_Shard c ∈ shard_ids shards.

(** What a round computes: [new] the complaints it adds, [rot] the shards rotated for equivocation, [P] the shard terms
    overthrown by complaints, [hs] and [w] the new heights and watermark. *)
Record round_effect (cs : ConfigSequence) (ces : list ControlEvent) (s : State)
    (new : list Complaint) (rot : gset ShardID) (P : gset ShardTerm) (hs : list AssemblerHeight) (w : N)
    (s' : State) (extracted : list BAF) (reqs : list ConfigRequest) : Prop := {
  re_N : s_N s' = s_N s;
  re_Threshold : s_Threshold s' = s_Threshold s;
  re_Quorum : s_Quorum s' = s_Quorum s;
  re_AppContext : s_AppContext s' = s_AppContext s;
  re_PrunePoints : s_PrunePoints s' = s_PrunePoints s;
  re_Stale : s_StaleConfigBAFs s' = stale_bafs cs ces;
  re_Shards : s_Shards s' = rotate_terms P <$> (rotate_in rot <$> s_Shards s);
  re_rot : forall sh, sh ∈ rot <-> equivocated (round_pending cs ces s) sh /\ sh ∈ shard_ids (s_Shards s);
  re_P : forall st, st ∈ P <-> overthrown (s_Threshold s) (rotate_in rot <$> s_Shards s)
      (filter (fun c => c_ConfigSeq c = cs) (s_Complaints s) ++ new) st;
  re_complaints : round_complaints cs ces s = filter (fun c => c_ConfigSeq c = cs) (s_Complaints s) ++ new;
  re_new_sub : new ⊆ omap ce_Complaint (filter (keeps cs) ces);
  re_new_current : Forall (fun c => c_ShardTerm c ∈ s_Shards s) new;
  re_new_nodup : NoDup (complaint_id <$> s_Complaints s) ->
      NoDup (complaint_id <$> (filter (fun c => c_ConfigSeq c = cs) (s_Complaints s) ++ new));
  re_Complaints : s_Complaints s' =
      filter (fun c => stale_complaint (s_Shards s') c = false)
        (filter (fun c => ~ overthrown (s_Threshold s) (rotate_in rot <$> s_Shards s)
             (filter (fun c => c_ConfigSeq c = cs) (s_Complaints s) ++ new) (c_ShardTerm c))
          (filter (fun c => c_ConfigSeq c = cs) (s_Complaints s) ++ new));
  re_Pending : s_Pending s' =
      filter (fun b => ~ decided (s_Threshold s) (round_pending cs ces s) (batchKeyOf b)) (round_pending cs ces s);
  re_extracted : extracted =
      filter (fun b => attested (s_Threshold s) (round_pending cs ces s) (batchKeyOf b) (baf_digest b))
        (round_pending cs ces s);
  re_reqs : reqs = omap ce_ConfigRequest (filter (keeps cs) ces);
  re_heights : s_AssemblerHeights s' = hs /\ heights_sorted hs /\
      recorded (s_AssemblerHeights s) hs (omap ce_AssemblerReport (filter (keeps cs) ces));
  re_watermark : s_DurableWatermark s' = w /\ (s_DurableWatermark s <= w)%N /\
      forall f t q, ComputeFTQ (s_N s) = (f, t, q) ->
        (w = s_DurableWatermark s \/ kth_highest (N.to_nat (2 * f + 1)) w (ah_DecisionNum <$> hs)) /\
        (forall w', N.to_nat (2 * f + 1) <= count_ge w' (ah_DecisionNum <$> hs) -> (w' <= w)%N)
}.

(** What a round needs to run: parties, distinct shards, known shards of complaints, sorted heights. *)
Record round_ready (s : State) : Prop := {
  rr_N : (0 < s_N s <= u16_max)%N;
  rr_FTQ : exists f, ComputeFTQ (s_N s) = (f, s_Threshold s, s_Quorum s);
  rr_shards : NoDup (shard_ids (s_Shards s));
  rr_complaints : Forall (shard_known (s_Shards s)) (s_Complaints s);
  rr_heights : heights_sorted (s_AssemblerHeights s)
}.

Lemma round_ready_threshold s : round_ready s -> (0 < s_Threshold s)%N.
Proof.
  intros [Hn [f E] _ _ _]. destruct (ComputeFTQ_bounds _ _ _ _ Hn E) as (_ & -> & _). lia.
Qed.

Lemma shard_known_ids shards shards' c : shard_ids shards = shard_ids shards' -> shard_known shards c -> shard_known shards' c.
Proof. unfold shard_known. by intros ->. Qed.

Lemma Process_spec {R : MapRange} cs ces s :
  round_ready s -> Forall single ces ->
  exists new rot P hs w s' extracted reqs,
    Process cs ces s = Ok (s', extracted, reqs) /\ round_effect cs ces s new rot P hs w s' extracted reqs.
Proof.
  intros Hready Hsingle. pose proof (round_ready_threshold s Hready) as Hthr.
  destruct Hready as [Hn [f Hftq] Hnd Hcs Hhs].
  unfold Process, Clone. rewrite filterCEs_spec by done.
  set (fces := filter (keeps cs) ces).
  set (s1 := FilterPendingEventsWithDiffConfigSeq cs (with_StaleConfigBAFs (stale_bafs cs ces) s)).
  destruct (Collect_spec fces s1) as (new & E2 & Hnew & Hsub & Hndc). rewrite E2.
  set (s2 := with_Complaints _ _).
  destruct (CollectAssemblerReports_spec fces s2) as (hs & E3 & Hhs' & Hrec); [done|]. rewrite E3.
  set (s3 := with_AssemblerHeights hs s2).
  destruct (DetectEquivocation_shards s3) as (rot & E4 & Hrot); [done|].
  rewrite DetectEquivocation_frame, E4. set (s4 := with_Shards _ s3).
  assert (shard_ids (s_Shards s4) = shard_ids (s_Shards s)) as Hids4 by apply shard_ids_rotate.
  destruct (PrimaryRotate_spec s4) as (P & E5 & HP); [by rewrite Hids4|done|]. rewrite E5.
  cbn [mbind outcome_bind]. set (s5 := with_Complaints _ _).
  assert (shard_ids (s_Shards s5) = shard_ids (s_Shards s)) as Hids5.
  { cbn. rewrite shard_ids_rotate_terms. apply shard_ids_rotate. }
  rewrite (CleanupOldComplaints_spec s5); cbn [mbind outcome_bind].
  2: { apply Forall_forall. intros c [_ Hc]%list_elem_of_filter. rewrite Hids5. cbn in Hc.
       apply elem_of_app in Hc as [[_ Hc]%list_elem_of_filter|Hc].
       - rewrite Forall_forall in Hcs. by apply Hcs.
       - rewrite Forall_forall in Hnew. apply Hnew in Hc. apply list_elem_of_fmap. by exists (c_ShardTerm c). }
  set (s6 := with_Complaints _ _). rewrite ExtractBatchAttestations_spec. cbn zeta.
  set (s7 := with_Pending _ _).
  destruct (UpdateDurableWatermark_spec s7 f (s_Threshold s) (s_Quorum s)) as (w & E8 & Hw1 & Hw2 & Hw3); [done|done|].
  rewrite E8. cbn [mbind outcome_bind]. unfold UpdatePrunePoints.
  eexists new, rot, P, hs, w, _, _, _. split; [reflexivity|]. split; try done.
  - unfold round_complaints. fold fces. fold s1. by rewrite E2.
  - intros Hndc0. apply Hndc. cbn. by apply fmap_filter_NoDup.
  - split; [done|split; [done|]]. intros f' t' q' E'. rewrite Hftq in E'. injection E' as <- <- <-. done.
Qed.

End Props.
