(* ===== verification/Round.v ===== *)
(** * Rounds and reconfigurations

    The invariant of the replicated state under [State.Process] and under [ApplyConfigToState]
    ([src/node/consensus/consensus_config_applier.go]), and the properties of a round. *)
From S2P Require Import Prelude Types Events State StateFacts StateProps.
From Stdlib Require Import NArith Lia.
Import Quorum.

(** ** Reconfiguration *)

(** The party list of the shared configuration in a config request, read by Fabric's config libraries. *)
Class SharedConfigReader := { shared_parties : ConfigRequest -> outcome (list N) }.

Definition ApplyConfigToState `{SharedConfigReader} (st : State) (configRequest : ConfigRequest) : outcome State :=
  partiesConfig ← shared_parties configRequest;
  let n := u16 (N.of_nat (length partiesConfig)) in
  let '(_, T, Q) := ComputeFTQ n in
  let newState := with_NTQ n T Q (Clone st) in
  let newState :=
    if decide (s_N newState <> s_N st) then with_Shards (incr_term <$> s_Shards newState) newState else newState in
  let parties := u16 <$> partiesConfig in
  Ok (RetainAssemblerHeights parties newState).

Lemma ApplyConfigToState_reads `{SharedConfigReader} st cr s' : ApplyConfigToState st cr = Ok s' -> exists ps, shared_parties cr = Ok ps.
Proof. unfold ApplyConfigToState. intros (ps & E & _)%bind_Ok_inv. by exists ps. Qed.

(** ** The invariant *)
Definition complaint_not_ahead (shards : list ShardTerm) (c : Complaint) : Prop :=
  exists t, mkShardTerm (c_Shard c) t ∈ shards /\ (c_Term c <= t)%N.

Record state_inv (s : State) : Prop := {
  si_ready : round_ready s;
  si_terms : Forall (complaint_not_ahead (s_Shards s)) (s_Complaints s);
  si_complaint_ids : NoDup (complaint_id <$> s_Complaints s);
  si_pending_keys : NoDup (attestationKeyOf <$> s_Pending s);
  si_pending_shards : Forall (fun b => baf_shard b ∈ shard_ids (s_Shards s)) (s_Pending s)
}.

(** No term is about to wrap around. *)
Definition terms_below (s : State) : Prop := Forall (fun st => (st_Term st < u64_max)%N) (s_Shards s).

(** The BAFs of a round are distinct attestations, which the request pool ensures by the event IDs. *)
Definition distinct_attestations (ces : list ControlEvent) : Prop := NoDup (attestationKeyOf <$> omap ce_BAF ces).

Section Round.
Context `{FabricCodecs}.

Lemma omap_filter_nodup {A B C} (f : A -> option B) (g : B -> C) (P : A -> Prop) `{!forall x, Decision (P x)} l :
  NoDup (g <$> omap f l) -> NoDup (g <$> omap f (filter P l)).
Proof.
  induction l as [|x l IH]; [done|]. rewrite filter_cons. cbn. intros Hnd.
  assert (NoDup (g <$> omap f l)) as Hnd' by (destruct (f x); cbn in Hnd; [by apply NoDup_cons in Hnd as [_ ?]|done]).
  case_decide; [|auto]. cbn. destruct (f x) as [b|]; [|auto]. cbn in *. apply NoDup_cons in Hnd as [Hni _].
  constructor; [|auto]. intros Hin. apply Hni. rewrite list_elem_of_fmap in Hin |- *.
  destruct Hin as (y & -> & (x' & Hx' & Hy)%list_elem_of_omap). exists y. split; [done|].
  apply list_elem_of_omap. exists x'. split; [|done]. by apply list_elem_of_filter in Hx' as [_ ?].
Qed.

(** Round pending keys stay distinct. *)
Lemma round_pending_keys cs ces s :
  NoDup (attestationKeyOf <$> s_Pending s) -> distinct_attestations ces ->
  NoDup (attestationKeyOf <$> round_pending cs ces s).
Proof.
  intros Hp Hd. unfold round_pending. rewrite fmap_app. apply NoDup_app. split; [by apply fmap_filter_NoDup|]. split.
  - intros k Hk (b & -> & Hb)%list_elem_of_fmap. unfold accepted_bafs in Hb.
    apply list_elem_of_filter in Hb as [[_ Hnk] _]. apply Hnk. by apply elem_of_list_to_set.
  - unfold accepted_bafs. apply fmap_filter_NoDup. by apply omap_filter_nodup.
Qed.

Lemma round_pending_elem cs ces s b :
  b ∈ round_pending cs ces s ->
  (b ∈ s_Pending s /\ baf_configSequence b = cs) \/
  (b ∈ omap ce_BAF (filter (keeps cs) ces) /\ baf_shard b ∈ shard_ids (s_Shards s)).
Proof.
  unfold round_pending. intros [[? ?]%list_elem_of_filter|Hb]%elem_of_app; [by left|right].
  unfold accepted_bafs in Hb. apply list_elem_of_filter in Hb as [[? ?] ?]. done.
Qed.

Lemma keeps_baf cs ces b : Forall single ces -> b ∈ omap ce_BAF (filter (keeps cs) ces) ->
  BAFEvent b ∈ ces /\ baf_configSequence b = cs.
Proof.
  intros Hs (ce & (Hk & Hce)%list_elem_of_filter & Hb)%list_elem_of_omap.
  rewrite Forall_forall in Hs. specialize (Hs ce Hce). destruct Hs; cbn in Hb; simplify_eq. done.
Qed.

(** The origin of a fragment that takes part in a round. *)
Lemma round_pending_origin cs ces s b : Forall single ces -> b ∈ round_pending cs ces s ->
  baf_configSequence b = cs /\ (b ∈ s_Pending s \/ BAFEvent b ∈ ces).
Proof.
  intros Hs [[? ?]|[Hb _]]%round_pending_elem; [by split; [|left]|].
  destruct (keeps_baf cs ces b Hs Hb). by split; [|right].
Qed.

Lemma round_pending_known cs ces s :
  Forall (fun b => baf_shard b ∈ shard_ids (s_Shards s)) (s_Pending s) ->
  Forall (fun b => baf_shard b ∈ shard_ids (s_Shards s)) (round_pending cs ces s).
Proof.
  rewrite !Forall_forall. intros Hp b [[? ?]|[_ ?]]%round_pending_elem; auto.
Qed.

(** A complaint that takes part in a round is not ahead of its shard. *)
Lemma round_complaint_not_ahead cs ces s new rot P hs w s' ex rq c :
  round_effect cs ces s new rot P hs w s' ex rq ->
  Forall (complaint_not_ahead (s_Shards s)) (s_Complaints s) ->
  c ∈ round_complaints cs ces s -> complaint_not_ahead (s_Shards s) c.
Proof.
  intros He Hc. rewrite (re_complaints _ _ _ _ _ _ _ _ _ _ _ He). rewrite Forall_forall in Hc.
  intros [[_ Hin]%list_elem_of_filter|Hin]%elem_of_app; [by apply Hc|].
  pose proof (re_new_current _ _ _ _ _ _ _ _ _ _ _ He) as Hn. rewrite Forall_forall in Hn.
  exists (c_Term c). split; [|lia]. specialize (Hn c Hin). by destruct (c_ShardTerm c).
Qed.

(** The term of a shard after a round, from the term before. *)
Definition next_term (thr : N) (pending : list BAF) (shards : list ShardTerm) (cs : list Complaint) (st st' : ShardTerm) : Prop :=
  let rotates := equivocated pending (st_Shard st) \/ overthrown thr shards cs st in
  st_Shard st' = st_Shard st /\
  ((rotates /\ st_Term st' = (st_Term st + 1)%N) \/ (~ rotates /\ st_Term st' = st_Term st)).

Lemma round_terms cs ces s new rot P hs w s' ex rq :
  round_effect cs ces s new rot P hs w s' ex rq -> round_ready s ->
  Forall (complaint_not_ahead (s_Shards s)) (s_Complaints s) -> terms_below s ->
  Forall2 (next_term (s_Threshold s) (round_pending cs ces s) (s_Shards s) (round_complaints cs ces s))
    (s_Shards s) (s_Shards s').
Proof.
  intros He Hready Hna Hbelow. pose proof He as He'. destruct He'. rewrite re_Shards.
  pose proof (round_ready_threshold _ Hready) as Hthr. pose proof (rr_shards _ Hready) as Hnd.
  rewrite <-list_fmap_compose. apply Forall2_fmap_r. apply Forall_Forall2_diag. apply Forall_forall. intros st Hst.
  unfold compose, next_term. rewrite <-re_complaints in re_P.
  unfold terms_below in Hbelow. rewrite Forall_forall in Hbelow. specialize (Hbelow st Hst).
  assert (st_Shard st ∈ shard_ids (s_Shards s)) as Hid by (apply list_elem_of_fmap; eauto).
  assert (st ∈ (rotate_in rot <$> s_Shards s) <-> st_Shard st ∉ rot) as Hst1.
  { rewrite list_elem_of_fmap. split.
    - intros (st0 & E & Hst0) Hin. unfold rotate_in in E. case_decide as Hd.
      + assert (st0 = st) as ->.
        { eapply (lookup_fmap_eq_unique st_Shard); try done. rewrite E. done. }
        apply (u64_incr_ne (st_Term st)). by rewrite E at 2.
      + congruence.
    - intros Hni. exists st. unfold rotate_in. rewrite decide_False by done. done. }
  assert (st ∈ P <-> st_Shard st ∉ rot /\ overthrown (s_Threshold s) (s_Shards s) (round_complaints cs ces s) st) as HPst.
  { rewrite re_P. unfold overthrown. rewrite Hst1. tauto. }
  unfold rotate_in. destruct (decide (st_Shard st ∈ rot)) as [Hr|Hr].
  - apply re_rot in Hr as [Heq _].
    assert (incr_term st ∉ P) as HnP.
    { rewrite re_P. intros [_ Hge]. destruct (complaint_count_pos (round_complaints cs ces s) (incr_term st)) as (c & Hc & Ec); [lia|].
      destruct (round_complaint_not_ahead _ _ _ _ _ _ _ _ _ _ _ c He Hna Hc) as (t & Ht & Hle).
      rewrite Ec in *. cbn in *. rewrite u64_incr_small in Hle by done.
      assert (mkShardTerm (st_Shard st) t = st) as Est by (by eapply (lookup_fmap_eq_unique st_Shard)).
      rewrite <-Est in Hle. cbn in Hle. lia. }
    unfold rotate_terms. rewrite decide_False by done. cbn. rewrite u64_incr_small by done. split; [done|]. left. tauto.
  - unfold rotate_terms. assert (~ equivocated (round_pending cs ces s) (st_Shard st)) as Hne by (intros Heq; apply Hr, re_rot; done).
    destruct (decide (st ∈ P)) as [HP|HP]; cbn.
    + rewrite u64_incr_small by done. split; [done|]. left. split; [right; tauto|done].
    + split; [done|]. right. tauto.
Qed.

Lemma next_terms_ids thr pending cs shards0 shards shards' :
  Forall2 (next_term thr pending shards0 cs) shards shards' -> shard_ids shards' = shard_ids shards.
Proof. induction 1 as [|st st' l l' [E _] _ IH]; [done|]. rewrite !shard_ids_cons. by rewrite E, IH. Qed.

Lemma next_terms_elem thr pending cs shards0 shards shards' sh t :
  Forall2 (next_term thr pending shards0 cs) shards shards' -> mkShardTerm sh t ∈ shards ->
  exists t', mkShardTerm sh t' ∈ shards' /\ (t <= t')%N.
Proof.
  intros Hall Hin. apply list_elem_of_lookup in Hin as [i Hi].
  destruct (Forall2_lookup_l _ _ _ _ _ Hall Hi) as (st' & Hi' & [E Ht]). cbn in *. exists (st_Term st').
  split; [|destruct Ht as [[_ ->]|[_ ->]]; lia]. apply list_elem_of_lookup. exists i. rewrite Hi'. f_equal.
  destruct st'; cbn in *. by subst.
Qed.

(** The invariant is preserved by a round, and the round does not panic. *)
Lemma Process_inv {R : MapRange} cs ces s :
  state_inv s -> terms_below s -> Forall single ces -> distinct_attestations ces ->
  exists new rot P hs w s' ex rq, Process cs ces s = Ok (s', ex, rq) /\
    round_effect cs ces s new rot P hs w s' ex rq /\ state_inv s'.
Proof.
  intros [Hready Hna Hcid Hpk Hps] Hbelow Hs Hd.
  destruct (Process_spec cs ces s Hready Hs) as (new & rot & P & hs & w & s' & ex & rq & E & He).
  exists new, rot, P, hs, w, s', ex, rq. split; [done|split; [done|]].
  pose proof (round_terms _ _ _ _ _ _ _ _ _ _ _ He Hready Hna Hbelow) as Hterms.
  pose proof (next_terms_ids _ _ _ _ _ _ Hterms) as Hids.
  assert (Forall (complaint_not_ahead (s_Shards s')) (s_Complaints s')) as Hna'.
  { rewrite Forall_forall. intros c Hc. rewrite (re_Complaints _ _ _ _ _ _ _ _ _ _ _ He) in Hc.
    apply list_elem_of_filter in Hc as [_ [_ Hc]%list_elem_of_filter].
    rewrite <-(re_complaints _ _ _ _ _ _ _ _ _ _ _ He) in Hc.
    destruct (round_complaint_not_ahead _ _ _ _ _ _ _ _ _ _ _ c He Hna Hc) as (t & Ht & Hle).
    destruct (next_terms_elem _ _ _ _ _ _ _ _ Hterms Ht) as (t' & Ht' & Hle'). exists t'. split; [done|lia]. }
  destruct Hready as [Hn Hftq Hnd Hcs Hhs]. destruct He. split; [split| | | |].
  - by rewrite re_N.
  - by rewrite re_N, re_Threshold, re_Quorum.
  - by rewrite Hids.
  - rewrite Forall_forall in Hna' |- *. intros c (t & Ht & _)%Hna'. apply list_elem_of_fmap. by eexists (mkShardTerm _ t).
  - by destruct re_heights as (-> & ? & _).
  - done.
  - rewrite re_Complaints. do 2 apply fmap_filter_NoDup. auto.
  - rewrite re_Pending. apply fmap_filter_NoDup. by apply round_pending_keys.
  - rewrite re_Pending, Hids. rewrite Forall_forall. intros b [_ Hb]%list_elem_of_filter.
    pose proof (round_pending_known cs ces s Hps) as Hk. rewrite Forall_forall in Hk. auto.
Qed.

(** The fragments of one batch and digest come from different signers. *)
Lemma voters_distinct pending bk dg :
  NoDup (attestationKeyOf <$> pending) ->
  NoDup (baf_signer <$> filter (fun b => batchKeyOf b = bk /\ baf_digest b = dg) pending).
Proof.
  intros Hnd. apply NoDup_fmap_elem.
  - apply NoDup_filter. by eapply NoDup_fmap_1.
  - intros x y [[Kx Dx] Hx]%list_elem_of_filter [[Ky Dy] Hy]%list_elem_of_filter E.
    eapply (lookup_fmap_eq_unique attestationKeyOf); try done. unfold attestationKeyOf. congruence.
Qed.

(** ** Reconfiguration preserves the invariant *)
Lemma heights_sorted_filter (P : AssemblerHeight -> Prop) `{!forall h, Decision (P h)} hs :
  heights_sorted hs -> heights_sorted (filter P hs).
Proof.
  unfold heights_sorted. induction hs as [|h hs IH]; [done|]. cbn. intros [Hs Hall]%StronglySorted_inv.
  case_decide; [|auto]. cbn. constructor; [auto|]. rewrite Forall_forall in Hall |- *.
  intros p (h' & -> & [_ Hh']%list_elem_of_filter)%list_elem_of_fmap. apply Hall, list_elem_of_fmap. eauto.
Qed.

Lemma incr_terms_not_ahead shards c :
  Forall (fun st => (st_Term st < u64_max)%N) shards -> complaint_not_ahead shards c ->
  complaint_not_ahead (incr_term <$> shards) c.
Proof.
  intros Hb (t & Ht & Hle). rewrite Forall_forall in Hb. specialize (Hb _ Ht). cbn in Hb.
  exists (t + 1)%N. split; [|lia]. apply list_elem_of_fmap. exists (mkShardTerm (c_Shard c) t).
  split; [|done]. unfold incr_term; cbn. by rewrite u64_incr_small.
Qed.

Lemma shard_ids_incr shards : shard_ids (incr_term <$> shards) = shard_ids shards.
Proof. unfold shard_ids. by rewrite <-list_fmap_compose. Qed.

Lemma ApplyConfigToState_inv `{SharedConfigReader} s cr s' parties :
  shared_parties cr = Ok parties -> (0 < N.of_nat (length parties) <= u16_max)%N ->
  state_inv s -> terms_below s -> ApplyConfigToState s cr = Ok s' -> state_inv s'.
Proof.
  intros Hp Hlen [[Hn Hftq Hnd Hcs Hhs] Hna Hcid Hpk Hps] Hb. unfold ApplyConfigToState, Clone. rewrite Hp. cbn [mbind outcome_bind].
  destruct (ComputeFTQ (u16 (N.of_nat (length parties)))) as [[f T] Q] eqn:E.
  rewrite u16_small in * by lia. intros Es. injection Es as <-.
  assert (shard_ids (incr_term <$> s_Shards s) = shard_ids (s_Shards s)) as Hids by apply shard_ids_incr.
  destruct (decide _) as [Hne|Heq]; cbn -[shard_ids]; (split; [split|..]); cbn -[shard_ids]; rewrite ?Hids; try done;
    try (by eexists); try (by apply heights_sorted_filter).
  - eapply Forall_impl; [exact Hcs|]. intros c. by apply shard_known_ids.
  - eapply Forall_impl; [exact Hna|]. intros c. by apply incr_terms_not_ahead.
Qed.

End Round.
