(* ===== verification/Sample.v ===== *)
(** * Concrete instances

    Instances of the library parameters (codecs, SHA-256, map iteration order) and small concrete values. They show
    that the hypotheses of the theorems can hold; no theorem is restricted to them. *)
From S2P Require Import Prelude Types Events State.
From Stdlib Require Import NArith.
From Stdlib Require Import Init.Byte.

(** ** Self-delimiting serializers, and the codecs they give *)
Class Ser (A : Type) := {
  put : A -> bytes;
  get : bytes -> option (A * bytes);
  get_put : forall a rest, get (put a ++ rest) = Some (a, rest)
}.

(** Bits with a terminator. *)
Fixpoint put_pos (p : positive) : bytes :=
  match p with
  | xH => [x02]
  | xO p' => x00 :: put_pos p'
  | xI p' => x01 :: put_pos p'
  end.
Fixpoint get_pos (bs : bytes) : option (positive * bytes) :=
  match bs with
  | [] => None
  | b :: bs' =>
      if Byte.eqb b x02 then Some (xH, bs') else
      '(p, rest) ← get_pos bs'; Some (if Byte.eqb b x00 then xO p else xI p, rest)
  end.
#[export] Instance ser_pos : Ser positive.
Proof. refine {| put := put_pos; get := get_pos |}. intros p rest. induction p as [p IH|p IH|]; cbn; [by rewrite IH..|done]. Defined.

Definition ser_iso {A B} `{Ser B} (f : A -> B) (g : B -> A) (Hgf : forall a, g (f a) = a) : Ser A.
Proof.
  refine {| put a := put (f a); get bs := '(b, rest) ← get bs; Some (g b, rest) |}.
  intros a rest. rewrite get_put. cbn. by rewrite Hgf.
Defined.

#[export] Instance ser_N : Ser N.
Proof. refine (ser_iso N.succ_pos Pos.pred_N _). intros n. apply N.pos_pred_succ. Defined.
#[export] Instance ser_Z : Ser Z.
Proof.
  refine (ser_iso (fun z => match z with Z0 => xH | Zpos p => xO p | Zneg p => xI p end)
    (fun p => match p with xH => Z0 | xO p => Zpos p | xI p => Zneg p end) _). by intros [].
Defined.
#[export] Instance ser_byte : Ser byte.
Proof. refine {| put b := [b]; get bs := match bs with b :: rest => Some (b, rest) | [] => None end |}. done. Defined.
#[export] Instance ser_prod {A B} `{Ser A, Ser B} : Ser (A * B).
Proof.
  refine {| put p := put p.1 ++ put p.2; get bs := '(a, bs) ← get bs; '(b, bs) ← get bs; Some ((a, b), bs) |}.
  intros [a b] rest. cbn. rewrite <-app_assoc, get_put. cbn. by rewrite get_put.
Defined.
#[export] Instance ser_sum {A B} `{Ser A, Ser B} : Ser (A + B).
Proof.
  refine {| put s := match s with inl a => x00 :: put a | inr b => x01 :: put b end;
            get bs := match bs with
                      | [] => None
                      | t :: bs => if Byte.eqb t x00 then '(a, bs) ← get bs; Some (inl a, bs) else '(b, bs) ← get bs; Some (inr b, bs)
                      end |}.
  intros [a|b] rest; cbn; by rewrite get_put.
Defined.
#[export] Instance ser_unit : Ser unit.
Proof. refine {| put _ := []; get bs := Some (tt, bs) |}. by intros []. Defined.
#[export] Instance ser_option {A} `{Ser A} : Ser (option A).
Proof.
  refine (ser_iso (B := unit + A) (fun o => match o with None => inl tt | Some a => inr a end)
    (fun s => match s with inl _ => None | inr a => Some a end) _). by intros [].
Defined.
Fixpoint get_n {A} `{Ser A} (n : nat) (bs : bytes) : option (list A * bytes) :=
  match n with
  | 0 => Some ([], bs)
  | S n' => '(a, bs) ← get bs; '(l, bs) ← get_n n' bs; Some (a :: l, bs)
  end.
#[export] Instance ser_list {A} `{Ser A} : Ser (list A).
Proof.
  refine {| put l := put (N.of_nat (length l)) ++ concat (put <$> l);
            get bs := '(n, bs) ← get bs; get_n (N.to_nat n) bs |}.
  intros l rest. rewrite <-app_assoc, get_put. cbn. rewrite Nat2N.id.
  induction l as [|a l IH]; [done|]. cbn. rewrite <-app_assoc, get_put. cbn. by rewrite IH.
Defined.

(** The codec of a serializable type, through an injection. *)
Definition codec_through {A B} `{Ser B} (f : A -> B) (g : B -> A) (Hgf : forall a, g (f a) = a) : Codec A.
Proof.
  refine {| enc a := Some (put (f a)); dec bs := '(b, _) ← get bs; Some (g b) |}.
  intros a bs E. assert (bs = put (f a)) as -> by congruence. rewrite <-(app_nil_r (put (f a))), get_put. cbn. by rewrite Hgf.
Defined.

Ltac through_tuple f g := refine (codec_through f g _); by intros [].

Definition envelope_tuple (e : Envelope) := (env_Payload e, env_Signature e).
Definition envelope_codec : Codec Envelope.
Proof. through_tuple envelope_tuple (fun p => mkEnvelope p.1 p.2). Defined.
Definition payload_codec : Codec Payload.
Proof. through_tuple (fun p => (pl_Header p, pl_Data p)) (fun p => mkPayload p.1 p.2). Defined.
Definition channelHeader_codec : Codec ChannelHeader.
Proof. through_tuple (fun p => (ch_Type p, ch_TxId p)) (fun p => mkChannelHeader p.1 p.2). Defined.
Definition configEnvelope_codec : Codec ConfigEnvelope.
Proof.
  refine (codec_through (fun p => (cenv_Config p, envelope_tuple <$> cenv_LastUpdate p))
    (fun p => mkConfigEnvelope p.1 ((fun e => mkEnvelope e.1 e.2) <$> p.2)) _).
  by intros [? [[]|]].
Defined.
Definition configRequest_codec : Codec ConfigRequestProto.
Proof. through_tuple pcr_Envelope mkConfigRequestProto. Defined.

Definition sample_fabric : FabricCodecs :=
  {| fc_envelope := envelope_codec; fc_payload := payload_codec; fc_configEnvelope := configEnvelope_codec;
     fc_channelHeader := channelHeader_codec; fc_configRequest := configRequest_codec |}.

Definition baf_tuple (b : BAFProto) :=
  (pbaf_shard b, pbaf_primary b, pbaf_seq b, pbaf_digest b, pbaf_configSequence b, pbaf_txCount b, pbaf_signer b,
   pbaf_signature b, pbaf_primarySignature b).
Definition tuple_baf p :=
  let '(a, b, c, d, e, f, g, h, i) := p in mkBAFProto a b c d e f g h i.
Definition bafProto_codec : Codec BAFProto.
Proof. through_tuple baf_tuple tuple_baf. Defined.

Definition complaint_tuple (c : ComplaintProto) :=
  (pc_ConfigSeq c, pc_Shard c, pc_Term c, pc_Signer c, pc_Signature c, pc_Reason c).
Definition tuple_complaint p := let '(a, b, c, d, e, f) := p in mkComplaintProto a b c d e f.
Definition report_tuple (r : ReportProto) := (pr_Party r, pr_DecisionNum r, pr_ConfigSeq r, pr_Signature r).
Definition tuple_report p := let '(a, b, c, d) := p in mkReportProto a b c d.

Definition event_sum (e : ControlEventProto) :=
  match e with
  | PB_Baf o => inl (inl (baf_tuple <$> o))
  | PB_Complaint o => inl (inr (complaint_tuple <$> o))
  | PB_ConfigRequest o => inr (inl (inl (pcr_Envelope <$> o)))
  | PB_AssemblerDecisionReport o => inr (inl (inr (report_tuple <$> o)))
  | PB_None => inr (inr tt)
  end.
Definition sum_event s :=
  match s with
  | inl (inl o) => PB_Baf (tuple_baf <$> o)
  | inl (inr o) => PB_Complaint (tuple_complaint <$> o)
  | inr (inl (inl o)) => PB_ConfigRequest (mkConfigRequestProto <$> o)
  | inr (inl (inr o)) => PB_AssemblerDecisionReport (tuple_report <$> o)
  | inr (inr tt) => PB_None
  end.
Definition event_codec : Codec ControlEventProto.
Proof. refine (codec_through event_sum sum_event _). by intros [[[]|]|[[]|]|[[]|]|[[]|]|]. Defined.

Definition asn1_tuple (b : asn1BAF) :=
  (a_Shard b, a_Primary b, a_Seq b, a_Digest b, a_ConfigSequence b, a_TXCount b, a_Signer b, a_Sig b, a_PrimarySig b).
Definition tuple_asn1 p :=
  let '(a, b, c, d, e, f, g, h, i) := p in mkAsn1BAF a b c d e f g h i.
Definition asn1_codec : Codec asn1BAF.
Proof. through_tuple asn1_tuple tuple_asn1. Defined.

(** Any function to 32 bytes will do. *)
Definition sample_sha : Sha256.
Proof. refine {| sha256 := copy_into 32 |}. apply length_copy_into. Defined.

(** ** Values *)
Definition dgA : bytes := [x0a].
Definition dgB : bytes := [x0b].

(** A fragment of batch 7 of shard 1 by primary 1, at config sequence 3. *)
Definition fragment (signer : N) (dg : bytes) : BAF := mkBAF 1 1 7 dg signer (Some [x01]) None 3 5.
Definition complaint_by (signer : N) : Complaint := mkComplaint (mkShardTerm 2 4) signer [x01] [x02] 3.
Definition report_by (party dn : N) : AssemblerDecisionReport := mkReport party dn 3 [x01].

(** Four parties, so f = 1, threshold 2 and quorum 3; two shards. *)
Definition sample_state : State :=
  mkState 4 3 2 [mkShardTerm 1 0; mkShardTerm 2 4] [fragment 1 dgA] [complaint_by 1] (Some []) []
    [mkHeight 1 5; mkHeight 2 6] [] 0.

Definition sample_events : list ControlEvent :=
  [BAFEvent (fragment 2 dgA); ComplaintEvent (complaint_by 2); ReportEvent (report_by 3 6)].
