(* ===== verification/RoundThms.v ===== *)
(** * Properties of a round

    What one application of [State.Process] and of [ApplyConfigToState] guarantees, over the closed description of
    a round in [StateProps] and the invariant in [Round]. *)
From S2P Require Import Prelude Types Events State StateFacts StateProps Round Sample.
From Stdlib Require Import NArith Lia.
Import Quorum.

(** The sample state satisfies the invariant, and the sample events are those of a round. *)
Lemma state_inv_sample : state_inv sample_state.
Proof.
  split; [split| | | |].
  - done.
  - by exists 1%N.
  - vm_compute. repeat constructor; set_solver.
  - repeat constructor.
  - repeat constructor; vm_compute; done.
  - repeat constructor. exists 4%N. split; [vm_compute; repeat constructor|vm_compute; done].
  - repeat constructor; set_solver.
  - repeat constructor; set_solver.
  - repeat constructor.
Qed.

Lemma sample_terms_below : terms_below sample_state.
Proof. repeat constructor. Qed.

Lemma sample_single : Forall single sample_events.
Proof. repeat constructor. Qed.

Lemma sample_distinct : distinct_attestations sample_events.
Proof. repeat constructor; set_solver. Qed.

Section Rounds.
Context `{FabricCodecs} {R : MapRange}.

Implicit Types (cs : ConfigSequence) (ces : list ControlEvent) (s : State).

(** The description of a round that returned. *)
Lemma Process_effect cs ces s s' ex rq :
  state_inv s -> Forall single ces -> Process cs ces s = Ok (s', ex, rq) ->
  exists new rot P hs w, round_effect cs ces s new rot P hs w s' ex rq.
Proof.
  intros Hinv Hs E. destruct (Process_spec cs ces s (si_ready s Hinv) Hs) as (new & rot & P & hs & w & s2 & ex2 & rq2 & E2 & He).
  rewrite E2 in E. exists new, rot, P, hs, w.
  assert (s2 = s' /\ ex2 = ex /\ rq2 = rq) as (-> & -> & ->) by (repeat split; congruence). done.
Qed.

(** C1: a round over well-formed events never panics (no index out of range, no nil dereference): it returns a
    next state, and that state satisfies the invariant again. *)
Theorem Process_total cs ces s :
  state_inv s -> terms_below s -> Forall single ces -> distinct_attestations ces ->
  exists s' ex rq, Process cs ces s = Ok (s', ex, rq) /\ state_inv s'.
Proof.
  intros Hinv Hb Hs Hd. destruct (Process_inv cs ces s Hinv Hb Hs Hd) as (? & ? & ? & ? & ? & s' & ex & rq & E & _ & Hi).
  by exists s', ex, rq.
Qed.


(** A batch and digest attested in a round has [f+1] distinct signers, each with a fragment that was pending or
    arrived in the round at the round's config sequence. *)
Lemma attested_signers cs ces s bk dg f t q :
  state_inv s -> Forall single ces -> distinct_attestations ces -> ComputeFTQ (s_N s) = (f, t, q) ->
  attested (s_Threshold s) (round_pending cs ces s) bk dg ->
  exists voters : list BAF,
    NoDup (baf_signer <$> voters) /\ (f + 1 <= N.of_nat (length voters))%N /\
    Forall (fun v => batchKeyOf v = bk /\ baf_digest v = dg /\ baf_configSequence v = cs /\
                     (v ∈ s_Pending s \/ BAFEvent v ∈ ces)) voters.
Proof.
  intros Hinv Hs Hd Hftq Ha. destruct (rr_FTQ _ (si_ready _ Hinv)) as [f' Hf'].
  destruct (ComputeFTQ_bounds _ _ _ _ (rr_N _ (si_ready _ Hinv)) Hf') as (_ & Ht & _).
  assert (f = f') as -> by congruence.
  eexists. split; [|split].
  - apply (voters_distinct (round_pending cs ces s) bk dg), round_pending_keys; [apply Hinv|done].
  - rewrite <-Ht. exact Ha.
  - apply Forall_forall. intros v [[Hk Hdg] Hv]%list_elem_of_filter.
    destruct (round_pending_origin _ _ _ _ Hs Hv). done.
Qed.

(** C2: an ordered batch is vouched for by an honest party. Whatever a round extracts belongs to the round's config
    sequence and carries the votes of [f+1] distinct signers for the same shard, primary, sequence and digest; hence
    however the at most [f] faulty parties are chosen, one signer is not among them. *)
Theorem extracted_has_honest_signer cs ces s s' ex rq b f t q (faulty : gset PartyID) :
  state_inv s -> Forall single ces -> distinct_attestations ces -> Process cs ces s = Ok (s', ex, rq) ->
  ComputeFTQ (s_N s) = (f, t, q) -> (N.of_nat (size faulty) <= f)%N -> b ∈ ex ->
  baf_configSequence b = cs /\
  exists v, batchKeyOf v = batchKeyOf b /\ baf_digest v = baf_digest b /\ baf_configSequence v = cs /\
    (v ∈ s_Pending s \/ BAFEvent v ∈ ces) /\ baf_signer v ∉ faulty.
Proof.
  intros Hinv Hs Hd E Hftq Hf Hb. destruct (Process_effect _ _ _ _ _ _ Hinv Hs E) as (new & rot & P & hs & w & He).
  rewrite (re_extracted _ _ _ _ _ _ _ _ _ _ _ He) in Hb. apply list_elem_of_filter in Hb as [Ha Hb].
  split; [by eapply round_pending_origin in Hb as [? _]|].
  destruct (attested_signers _ _ _ _ _ _ _ _ Hinv Hs Hd Hftq Ha) as (voters & Hnd & Hlen & Hall).
  destruct (pigeonhole_outside _ faulty Hnd) as (p & Hp & Hnp); [rewrite length_fmap; lia|].
  apply list_elem_of_fmap in Hp as (v & -> & Hv). rewrite Forall_forall in Hall.
  destruct (Hall v Hv) as (? & ? & ? & ?). by exists v.
Qed.

(** A fragment at the round's config sequence and of a known shard takes part in the round, itself or as the copy that
    was already pending. *)
Lemma takes_part cs ces s b :
  Forall single ces -> baf_configSequence b = cs -> baf_shard b ∈ shard_ids (s_Shards s) ->
  b ∈ s_Pending s \/ BAFEvent b ∈ ces ->
  exists b', b' ∈ round_pending cs ces s /\ attestationKeyOf b' = attestationKeyOf b.
Proof.
  intros Hs Hc Hk [Hb|Hb]; unfold round_pending.
  - exists b. split; [|done]. apply elem_of_app. left. by apply list_elem_of_filter.
  - set (p0 := filter _ (s_Pending s)).
    destruct (decide (attestationKeyOf b ∈ attestationKeyOf <$> p0)) as [Hin|Hni].
    + apply list_elem_of_fmap in Hin as (b' & E & Hb'). exists b'. split; [|done]. apply elem_of_app. by left.
    + exists b. split; [|done]. apply elem_of_app. right. apply list_elem_of_filter. split.
      * split; [done|]. by rewrite elem_of_list_to_set.
      * apply list_elem_of_omap. exists (BAFEvent b). split; [|done]. by apply list_elem_of_filter.
Qed.

(** C3: no attestation is lost. After a round, every fragment of a known shard at the round's config sequence that was
    pending or arrived is (by its attestation key) extracted, or pending still, or its batch was decided with another
    digest; and a batch is extracted exactly when enough fragments agree on a digest, after which nothing of that batch
    stays pending. *)
Theorem attestation_accounting cs ces s s' ex rq b :
  state_inv s -> Forall single ces -> Process cs ces s = Ok (s', ex, rq) ->
  baf_configSequence b = cs -> baf_shard b ∈ shard_ids (s_Shards s) -> b ∈ s_Pending s \/ BAFEvent b ∈ ces ->
  exists b', attestationKeyOf b' = attestationKeyOf b /\
    ((b' ∈ s_Pending s' /\ ~ exists e, e ∈ ex /\ batchKeyOf e = batchKeyOf b) \/
     (b' ∉ s_Pending s' /\ b' ∈ ex /\ attested (s_Threshold s) (round_pending cs ces s) (batchKeyOf b) (baf_digest b)) \/
     (b' ∉ s_Pending s' /\ b' ∉ ex /\ exists e, e ∈ ex /\ batchKeyOf e = batchKeyOf b /\ baf_digest e <> baf_digest b)).
Proof.
  intros Hinv Hs E Hc Hk Hb. destruct (Process_effect _ _ _ _ _ _ Hinv Hs E) as (new & rot & P & hs & w & He).
  destruct (takes_part cs ces s b Hs Hc Hk Hb) as (b' & Hb' & Ek). exists b'. split; [done|].
  assert (batchKeyOf b' = batchKeyOf b /\ baf_digest b' = baf_digest b) as [Ebk Edg].
  { unfold attestationKeyOf in Ek. split; [congruence|]. apply (inj hex_encode). congruence. }
  rewrite (re_Pending _ _ _ _ _ _ _ _ _ _ _ He), (re_extracted _ _ _ _ _ _ _ _ _ _ _ He), !list_elem_of_filter.
  set (pend := round_pending cs ces s) in *.
  assert (forall bk, decided (s_Threshold s) pend bk <->
    exists e, e ∈ filter (fun b => attested (s_Threshold s) pend (batchKeyOf b) (baf_digest b)) pend /\ batchKeyOf e = bk) as Hdec.
  { intros bk. unfold decided. rewrite Exists_exists. setoid_rewrite list_elem_of_filter.
    split; [intros (e & He1 & <- & He2); exists e; done|intros (e & [He1 He2] & <-); exists e; done]. }
  rewrite <-Hdec, Ebk, Edg. destruct (decide (decided (s_Threshold s) pend (batchKeyOf b))) as [Hd|Hd].
  - right. destruct (decide (attested (s_Threshold s) pend (batchKeyOf b) (baf_digest b))) as [Ha|Ha]; [left; tauto|right].
    split; [tauto|split; [tauto|]]. apply Hdec in Hd as (e & Hein & Hek). exists e. split; [done|split; [done|]].
    intros Ed. apply Ha. apply list_elem_of_filter in Hein as [Hae _]. by rewrite Hek, Ed in Hae.
  - left. tauto.
Qed.

(** C5: the round is a function of its inputs. Whatever order Go's map iterations take, two nodes compute the same
    state, the same extracted fragments in the same order, and the same config requests. *)
Theorem Process_deterministic (R1 R2 : MapRange) cs ces s : @Process _ R1 cs ces s = @Process _ R2 cs ces s.
Proof. apply Process_order_irrelevant. Qed.

(** The parties whose recorded height reaches [w]. *)
Definition reached_by (w : N) (hs : list AssemblerHeight) : list PartyID :=
  ah_Party <$> filter (fun h => (w <= ah_DecisionNum h)%N) hs.

Lemma length_reached_by w hs : length (reached_by w hs) = count_ge w (ah_DecisionNum <$> hs).
Proof.
  unfold reached_by, count_ge. rewrite length_fmap. induction hs as [|h hs IH]; [done|].
  rewrite fmap_cons, !filter_cons. case_decide; cbn; rewrite ?IH; done.
Qed.

Lemma reached_by_nodup w hs : heights_sorted hs -> NoDup (reached_by w hs).
Proof. intros Hs. apply fmap_filter_NoDup. by apply heights_sorted_nodup. Qed.

(** C6: the durable watermark is safe and exact. It never decreases; when a round moves it, [2f+1] distinct assemblers
    are recorded at or above it, so it is held by a party outside any set of [2f] parties; and every decision that
    [2f+1] recorded assemblers reached is at or below it. *)
Theorem durable_watermark cs ces s s' ex rq f t q (faulty : gset PartyID) :
  state_inv s -> Forall single ces -> Process cs ces s = Ok (s', ex, rq) -> ComputeFTQ (s_N s) = (f, t, q) ->
  (N.of_nat (size faulty) <= 2 * f)%N ->
  let w := s_DurableWatermark s' in
  (s_DurableWatermark s <= w)%N /\
  (w = s_DurableWatermark s \/ exists p h, h ∈ s_AssemblerHeights s' /\ ah_Party h = p /\ p ∉ faulty /\ (w <= ah_DecisionNum h)%N) /\
  (forall w' ps, NoDup ps -> N.of_nat (length ps) = (2 * f + 1)%N ->
     Forall (fun p => exists h, h ∈ s_AssemblerHeights s' /\ ah_Party h = p /\ (w' <= ah_DecisionNum h)%N) ps -> (w' <= w)%N).
Proof.
  intros Hinv Hs E Hftq Hf. destruct (Process_effect _ _ _ _ _ _ Hinv Hs E) as (new & rot & P & hs & w & He). cbn zeta.
  destruct (re_watermark _ _ _ _ _ _ _ _ _ _ _ He) as (-> & Hle & Hw). destruct (Hw _ _ _ Hftq) as [Hk Hmax].
  destruct (re_heights _ _ _ _ _ _ _ _ _ _ _ He) as (-> & Hsorted & _). split; [done|split].
  - destruct Hk as [?|[Hk _]]; [by left|right]. rewrite <-length_reached_by in Hk.
    destruct (pigeonhole_outside _ faulty (reached_by_nodup w hs Hsorted)) as (p & Hp & Hnp); [lia|].
    apply list_elem_of_fmap in Hp as (h & -> & [? ?]%list_elem_of_filter). by exists (ah_Party h), h.
  - intros w' ps Hnd Hlen Hall. apply Hmax. rewrite <-length_reached_by.
    transitivity (length ps); [lia|]. apply submseteq_length, NoDup_submseteq; [done|].
    intros p Hp. rewrite Forall_forall in Hall. destruct (Hall p Hp) as (h & ? & <- & ?).
    apply list_elem_of_fmap. exists h. split; [done|]. by apply list_elem_of_filter.
Qed.

(** assembler heights are the highest reports. Recording keeps one height per party, sorted by party; no height is
    lowered or lost, every accepted report is covered, and every height was there before or is exactly an accepted
    report. *)
Theorem assembler_heights_recorded cs ces s s' ex rq :
  state_inv s -> Forall single ces -> Process cs ces s = Ok (s', ex, rq) ->
  heights_sorted (s_AssemblerHeights s') /\
  recorded (s_AssemblerHeights s) (s_AssemblerHeights s') (omap ce_AssemblerReport (filter (keeps cs) ces)).
Proof.
  intros Hinv Hs E. destruct (Process_effect _ _ _ _ _ _ Hinv Hs E) as (new & rot & P & hs & w & He).
  by destruct (re_heights _ _ _ _ _ _ _ _ _ _ _ He) as (-> & ? & ?).
Qed.

Lemma stale_false_current s' c :
  NoDup (shard_ids (s_Shards s')) -> complaint_not_ahead (s_Shards s') c ->
  stale_complaint (s_Shards s') c = false -> c_ShardTerm c ∈ s_Shards s'.
Proof.
  intros Hnd (t & Ht & Hle) Hst. unfold stale_complaint in Hst.
  rewrite (proj2 (term_of_Some _ _ _ Hnd) Ht) in Hst. apply N.ltb_ge in Hst.
  assert (t = c_Term c) as -> by lia. by destruct (c_ShardTerm c).
Qed.

Lemma complaint_count_filter (Q : Complaint -> Prop) `{!forall c, Decision (Q c)} cl st :
  complaint_count (filter Q cl) st <= complaint_count cl st.
Proof.
  unfold complaint_count. induction cl as [|c cl IH]; [done|]. rewrite !filter_cons.
  repeat case_decide; rewrite ?filter_cons; repeat case_decide; cbn; try done; lia.
Qed.

(** A complaint about a term that was overthrown in the round does not survive the round. *)
Lemma rotated_complaint_gone cs ces s s' ex rq new rot P hs w c :
  state_inv s -> terms_below s -> round_effect cs ces s new rot P hs w s' ex rq -> state_inv s' ->
  c ∈ s_Complaints s' ->
  (s_Threshold s <= N.of_nat (complaint_count (round_complaints cs ces s) (c_ShardTerm c)))%N -> False.
Proof.
  intros Hinv Hb He Hi Hc Hcnt. pose proof (si_terms _ Hi) as Hna. rewrite Forall_forall in Hna. specialize (Hna c Hc).
  pose proof (round_terms _ _ _ _ _ _ _ _ _ _ _ He (si_ready _ Hinv) (si_terms _ Hinv) Hb) as Hterms.
  rewrite (re_Complaints _ _ _ _ _ _ _ _ _ _ _ He) in Hc. apply list_elem_of_filter in Hc as [Hst [_ Hc]%list_elem_of_filter].
  rewrite <-(re_complaints _ _ _ _ _ _ _ _ _ _ _ He) in Hc.
  destruct (round_complaint_not_ahead _ _ _ _ _ _ _ _ _ _ _ c He (si_terms _ Hinv) Hc) as (t & Ht & Hle).
  pose proof (stale_false_current s' c (rr_shards _ (si_ready _ Hi)) Hna Hst) as Hcur.
  apply list_elem_of_lookup in Ht as [i Hi0]. destruct (Forall2_lookup_l _ _ _ _ _ Hterms Hi0) as (st' & Hi1 & [Esh Hnext]).
  cbn in Esh, Hnext.
  assert (c_ShardTerm c = st') as Ecs.
  { eapply (lookup_fmap_eq_unique st_Shard); [apply (rr_shards _ (si_ready _ Hi))|done|by eapply list_elem_of_lookup_2|done]. }
  rewrite <-Ecs in Hnext. assert (t = c_Term c) as -> by lia.
  destruct Hnext as [[_ Hbad]|[Hno _]]; [lia|]. apply Hno. right.
  assert (mkShardTerm (c_Shard c) (c_Term c) = c_ShardTerm c) as Eeta by (by destruct (c_ShardTerm c)).
  rewrite Eeta in *. split; [by eapply list_elem_of_lookup_2|done].
Qed.

(** the complaints a round leaves are live. Each is at the round's config sequence and about the current term of a
    shard of the state; each signer complains at most once about a shard term; and no shard term has [f+1] complaints
    left (it would have been rotated, and its complaints removed). *)
Theorem complaints_live cs ces s s' ex rq :
  state_inv s -> terms_below s -> Forall single ces -> distinct_attestations ces ->
  Process cs ces s = Ok (s', ex, rq) ->
  Forall (fun c => c_ConfigSeq c = cs /\ c_ShardTerm c ∈ s_Shards s') (s_Complaints s') /\
  NoDup (complaint_id <$> s_Complaints s') /\
  forall st, (N.of_nat (complaint_count (s_Complaints s') st) < s_Threshold s)%N.
Proof.
  intros Hinv Hb Hs Hd E. destruct (Process_inv cs ces s Hinv Hb Hs Hd) as (new & rot & P & hs & w & s2 & ex2 & rq2 & E2 & He & Hi).
  assert (s2 = s') as -> by congruence.
  pose proof (re_Complaints _ _ _ _ _ _ _ _ _ _ _ He) as HC. set (cl := _ ++ new) in HC.
  split; [|split; [apply Hi|]].
  - apply Forall_forall. intros c Hc. pose proof (si_terms _ Hi) as Hna. rewrite Forall_forall in Hna. pose proof (Hna c Hc) as Hnc.
    rewrite HC in Hc. apply list_elem_of_filter in Hc as [Hst [Hno Hc]%list_elem_of_filter]. split.
    + apply elem_of_app in Hc as [[? _]%list_elem_of_filter|Hc]; [done|].
      apply (re_new_sub _ _ _ _ _ _ _ _ _ _ _ He) in Hc. apply list_elem_of_omap in Hc as (ce & [Hk Hce]%list_elem_of_filter & Hcc).
      rewrite Forall_forall in Hs. destruct (Hs ce Hce); cbn in Hcc, Hk; simplify_eq. done.
    + apply stale_false_current; [apply Hi|done|done].
  - intros st. destruct (decide (s_Threshold s <= N.of_nat (complaint_count (s_Complaints s') st))%N) as [Hge|]; [|lia].
    exfalso. pose proof (round_ready_threshold _ (si_ready _ Hinv)) as Ht.
    destruct (complaint_count_pos (s_Complaints s') st) as (c & Hc & Ec); [lia|].
    eapply rotated_complaint_gone; [exact Hinv|exact Hb|exact He|exact Hi|exact Hc|]. rewrite Ec, (re_complaints _ _ _ _ _ _ _ _ _ _ _ He).
    etransitivity; [exact Hge|]. rewrite HC.
    enough (forall Q1 Q2 `{!forall c, Decision (Q1 c)} `{!forall c, Decision (Q2 c)},
      complaint_count (filter Q1 (filter Q2 cl)) st <= complaint_count cl st) as Hle by (apply N_of_nat_le, Hle).
    intros Q1 Q2 D1 D2. etransitivity; [apply complaint_count_filter|]. apply complaint_count_filter.
Qed.

(** the config gate. Config requests are handed on exactly when they build on the round's configuration (their
    sequence is the next one), in order of arrival; fragments of older configurations do not vote, and are exactly the
    ones surfaced for their batchers to revive; nothing of a newer configuration is kept. *)
Theorem config_gate cs ces s s' ex rq :
  state_inv s -> Forall single ces -> Process cs ces s = Ok (s', ex, rq) ->
  (forall cr, cr ∈ rq <-> ConfigRequestEvent cr ∈ ces /\ ConfigRequest_ConfigSequence cr = Ok (u64_incr cs)) /\
  (forall b, b ∈ s_StaleConfigBAFs s' <-> BAFEvent b ∈ ces /\ (baf_configSequence b < cs)%N) /\
  Forall (fun b => baf_configSequence b = cs) (s_Pending s' ++ ex).
Proof.
  intros Hinv Hs E. destruct (Process_effect _ _ _ _ _ _ Hinv Hs E) as (new & rot & P & hs & w & He).
  rewrite Forall_forall in Hs. split; [|split].
  - intros cr. rewrite (re_reqs _ _ _ _ _ _ _ _ _ _ _ He), list_elem_of_omap. split.
    + intros (ce & [Hk Hce]%list_elem_of_filter & Hcr). destruct (Hs ce Hce); cbn in *; simplify_eq. done.
    + intros [Hin Hk]. exists (ConfigRequestEvent cr). split; [|done]. by apply list_elem_of_filter.
  - intros b. rewrite (re_Stale _ _ _ _ _ _ _ _ _ _ _ He). unfold stale_bafs. rewrite list_elem_of_filter, list_elem_of_omap. split.
    + intros [Hlt (ce & Hce & Hb)]. destruct (Hs ce Hce); cbn in *; simplify_eq. done.
    + intros [Hin Hlt]. split; [done|]. by exists (BAFEvent b).
  - rewrite <-Forall_forall in Hs. apply Forall_forall. intros b Hb.
    rewrite (re_Pending _ _ _ _ _ _ _ _ _ _ _ He), (re_extracted _ _ _ _ _ _ _ _ _ _ _ He) in Hb.
    apply elem_of_app in Hb as [[_ Hb]%list_elem_of_filter|[_ Hb]%list_elem_of_filter];
      by apply round_pending_origin in Hb as [? _].
Qed.

(** reconfiguration. Applying a config with between 1 and 65535 parties succeeds and keeps the invariant, with
    threshold and quorum those of the new party count; the terms of all shards advance by one exactly when the number
    of parties changed; and only heights of parties of the new configuration remain, unchanged. *)
Theorem ApplyConfigToState_correct `{SharedConfigReader} s cr parties :
  shared_parties cr = Ok parties -> (0 < N.of_nat (length parties) <= u16_max)%N -> Forall (fun p => (p <= u16_max)%N) parties ->
  state_inv s -> terms_below s ->
  exists s', ApplyConfigToState s cr = Ok s' /\ state_inv s' /\ s_N s' = N.of_nat (length parties) /\
    s_Shards s' = (if decide (N.of_nat (length parties) = s_N s) then s_Shards s
                   else (fun st => mkShardTerm (st_Shard st) (st_Term st + 1)) <$> s_Shards s) /\
    s_AssemblerHeights s' = filter (fun h => ah_Party h ∈ parties) (s_AssemblerHeights s) /\
    s_Pending s' = s_Pending s /\ s_Complaints s' = s_Complaints s /\ s_DurableWatermark s' = s_DurableWatermark s.
Proof.
  intros Hp Hlen Hsmall Hinv Hb. destruct (ApplyConfigToState s cr) as [s'| |] eqn:E.
  2,3: unfold ApplyConfigToState in E; rewrite Hp in E; cbn [mbind outcome_bind] in E; by destruct (ComputeFTQ _) as [[? ?] ?].
  exists s'. split; [done|]. split; [by eapply ApplyConfigToState_inv|].
  assert (u16 <$> parties = parties) as Ep.
  { apply fmap_id_elem. intros p Hin. apply u16_small. rewrite Forall_forall in Hsmall. auto. }
  assert (incr_term <$> s_Shards s = (fun st => mkShardTerm (st_Shard st) (st_Term st + 1)) <$> s_Shards s) as Ei.
  { apply fmap_ext_elem. intros st Hst. unfold terms_below in Hb. rewrite Forall_forall in Hb.
    unfold incr_term. by rewrite u64_incr_small by auto. }
  unfold ApplyConfigToState, Clone in E. rewrite Hp in E. cbn [mbind outcome_bind] in E.
  destruct (ComputeFTQ _) as [[f T] Q]. rewrite Ep, u16_small in E by lia. apply Ok_inj in E. subst s'.
  destruct (decide (N.of_nat (length parties) = s_N s)) as [En|En]; cbn; (destruct (decide _) as [Hd|Hd]; cbn in *; [try done|try done]).
Qed.

End Rounds.

(** ** The theorems at the sample round *)
Section Witnesses.
#[local] Existing Instance sample_fabric.
#[local] Existing Instance range_canonical.

(** The sample round orders the batch of shard 1, rotates shard 2 and moves the watermark to 5. *)
Definition sample_next : State :=
  mkState 4 3 2 [mkShardTerm 1 0; mkShardTerm 2 5] [] [] (Some []) []
    [mkHeight 1 5; mkHeight 2 6; mkHeight 3 6] [] 5.
Definition sample_extracted : list BAF := [fragment 1 dgA; fragment 2 dgA].

Lemma sample_round : Process 3 sample_events sample_state = Ok (sample_next, sample_extracted, []).
Proof. vm_compute. reflexivity. Qed.

Lemma Process_total_witness : exists s' ex rq, Process 3 sample_events sample_state = Ok (s', ex, rq) /\ state_inv s'.
Proof. apply (Process_total 3 sample_events sample_state); [apply state_inv_sample|apply sample_terms_below|apply sample_single|apply sample_distinct]. Defined.


Lemma extracted_has_honest_signer_witness :
  baf_configSequence (fragment 1 dgA) = 3%N /\
  exists v, batchKeyOf v = batchKeyOf (fragment 1 dgA) /\ baf_digest v = baf_digest (fragment 1 dgA) /\
    baf_configSequence v = 3%N /\ (v ∈ s_Pending sample_state \/ BAFEvent v ∈ sample_events) /\ baf_signer v ∉ ({[1%N]} : gset N).
Proof.
  apply (extracted_has_honest_signer 3 sample_events sample_state sample_next sample_extracted [] (fragment 1 dgA) 1 2 3 {[1%N]});
    [apply state_inv_sample|apply sample_single|apply sample_distinct|apply sample_round|reflexivity
    |vm_compute; discriminate|repeat constructor].
Defined.

Lemma attestation_accounting_witness :
  exists b', attestationKeyOf b' = attestationKeyOf (fragment 2 dgA) /\
    ((b' ∈ s_Pending sample_next /\ ~ exists e, e ∈ sample_extracted /\ batchKeyOf e = batchKeyOf (fragment 2 dgA)) \/
     (b' ∉ s_Pending sample_next /\ b' ∈ sample_extracted /\
      attested 2 (round_pending 3 sample_events sample_state) (batchKeyOf (fragment 2 dgA)) dgA) \/
     (b' ∉ s_Pending sample_next /\ b' ∉ sample_extracted /\
      exists e, e ∈ sample_extracted /\ batchKeyOf e = batchKeyOf (fragment 2 dgA) /\ baf_digest e <> dgA)).
Proof.
  apply (attestation_accounting 3 sample_events sample_state sample_next sample_extracted [] (fragment 2 dgA));
    [apply state_inv_sample|apply sample_single|apply sample_round|reflexivity|repeat constructor|right; repeat constructor].
Defined.

Lemma durable_watermark_witness :
  let w := s_DurableWatermark sample_next in
  (s_DurableWatermark sample_state <= w)%N /\
  (w = s_DurableWatermark sample_state \/ exists p h, h ∈ s_AssemblerHeights sample_next /\ ah_Party h = p /\
      p ∉ ({[1%N; 2%N]} : gset N) /\ (w <= ah_DecisionNum h)%N) /\
  (forall w' ps, NoDup ps -> N.of_nat (length ps) = (2 * 1 + 1)%N ->
     Forall (fun p => exists h, h ∈ s_AssemblerHeights sample_next /\ ah_Party h = p /\ (w' <= ah_DecisionNum h)%N) ps ->
     (w' <= w)%N).
Proof.
  apply (durable_watermark 3 sample_events sample_state sample_next sample_extracted [] 1 2 3 {[1%N; 2%N]});
    [apply state_inv_sample|apply sample_single|apply sample_round|reflexivity|vm_compute; discriminate].
Defined.

Lemma assembler_heights_recorded_witness :
  heights_sorted (s_AssemblerHeights sample_next) /\
  recorded (s_AssemblerHeights sample_state) (s_AssemblerHeights sample_next) (omap ce_AssemblerReport (filter (keeps 3) sample_events)).
Proof.
  apply (assembler_heights_recorded 3 sample_events sample_state sample_next sample_extracted []);
    [apply state_inv_sample|apply sample_single|apply sample_round].
Defined.

Lemma complaints_live_witness :
  Forall (fun c => c_ConfigSeq c = 3%N /\ c_ShardTerm c ∈ s_Shards sample_next) (s_Complaints sample_next) /\
  NoDup (complaint_id <$> s_Complaints sample_next) /\
  forall st, (N.of_nat (complaint_count (s_Complaints sample_next) st) < s_Threshold sample_state)%N.
Proof.
  apply (complaints_live 3 sample_events sample_state sample_next sample_extracted []);
    [apply state_inv_sample|apply sample_terms_below|apply sample_single|apply sample_distinct|apply sample_round].
Defined.

Lemma config_gate_witness :
  (forall cr, cr ∈ [] <-> ConfigRequestEvent cr ∈ sample_events /\ ConfigRequest_ConfigSequence cr = Ok (u64_incr 3)) /\
  (forall b, b ∈ s_StaleConfigBAFs sample_next <-> BAFEvent b ∈ sample_events /\ (baf_configSequence b < 3)%N) /\
  Forall (fun b => baf_configSequence b = 3%N) (s_Pending sample_next ++ sample_extracted).
Proof.
  apply (config_gate 3 sample_events sample_state sample_next sample_extracted []);
    [apply state_inv_sample|apply sample_single|apply sample_round].
Defined.

(** A reader for the samples: the bytes of the signature stand for the parties, and an envelope without any is refused. *)
Definition signing_parties : SharedConfigReader :=
  {| shared_parties cr := match env_Signature (cr_Envelope cr) with [] => Err "failed to read the shared config" | bs => Ok (Byte.to_N <$> bs) end |}.

(** A config with seven parties. *)
Definition seven_parties : SharedConfigReader := {| shared_parties _ := Ok [1; 2; 3; 4; 5; 6; 7]%N |}.

Lemma ApplyConfigToState_correct_witness :
  exists s', @ApplyConfigToState seven_parties sample_state (mkConfigRequest (mkEnvelope [] [])) = Ok s' /\ state_inv s' /\ s_N s' = 7%N /\
    s_Shards s' = [mkShardTerm 1 1; mkShardTerm 2 5] /\
    s_AssemblerHeights s' = [mkHeight 1 5; mkHeight 2 6] /\
    s_Pending s' = [fragment 1 dgA] /\ s_Complaints s' = [complaint_by 1] /\ s_DurableWatermark s' = 0%N.
Proof.
  apply (@ApplyConfigToState_correct seven_parties sample_state (mkConfigRequest (mkEnvelope [] [])) [1; 2; 3; 4; 5; 6; 7]%N);
    [reflexivity|vm_compute; split; [reflexivity|discriminate]|repeat constructor; vm_compute; discriminate|apply state_inv_sample|apply sample_terms_below].
Defined.

End Witnesses.
