(* ===== verification/EncodingThms.v ===== *)
(** * Properties of the encodings

    Batched requests, thresholds, signed payloads, control events and the fixed-layout codecs. *)
From S2P Require Import Prelude Types Events State Sample.
From Stdlib Require Import NArith Lia.
From Stdlib Require Import Init.Byte.
Import Quorum.

(** the request framing is a bijection. Deserialize never panics; it accepts exactly the serializations of
    non-empty batches whose requests fit the size prefix, and returns that batch. *)
Theorem batched_requests_framing bs :
  (exists br, BatchedRequests.Deserialize bs = Ok br /\ br <> [] /\ BatchedRequests.sizes_ok br /\
     BatchedRequests.Serialize br = bs) \/
  (exists e, BatchedRequests.Deserialize bs = Err e /\
     forall br, br <> [] -> BatchedRequests.sizes_ok br -> BatchedRequests.Serialize br <> bs).
Proof.
  assert (forall br, br <> [] -> BatchedRequests.sizes_ok br -> BatchedRequests.Serialize br = bs ->
    BatchedRequests.Deserialize bs = Ok br) as Hback.
  { intros br Hne Hok <-. unfold BatchedRequests.Deserialize.
    rewrite bool_decide_eq_false_2, BatchedRequests.deserialize_loop_Serialize; [done..|].
    destruct br as [|r br]; [done|]. rewrite BatchedRequests.Serialize_length. cbn. lia. }
  destruct (BatchedRequests.Deserialize bs) as [br|e|e] eqn:E.
  - left. exists br. unfold BatchedRequests.Deserialize in E. outcome_inv. apply bool_decide_eq_false in Hguard.
    apply BatchedRequests.deserialize_loop_sound in E as (br' & -> & Hok & Hs). split; [done|].
    cbn [app]. split; [|done]. intros ->. by subst bs.
  - right. exists e. split; [done|]. intros br Hne Hok Hs. specialize (Hback br Hne Hok Hs). congruence.
  - exfalso. unfold BatchedRequests.Deserialize in E. case_bool_decide; [done|]. cbn [guard_err] in E.
    by eapply BatchedRequests.deserialize_loop_no_panic.
Qed.

(** the batch digest binds the requests. The streamed digest equals the hash of the serialization, and two
    batches with the same digest are the same batch, or SHA-256 collides on their serializations. *)
Theorem batch_digest_binds `{Sha256} br1 br2 :
  BatchedRequests.sizes_ok br1 -> BatchedRequests.sizes_ok br2 ->
  BatchedRequests.Digest br1 = BatchedRequests.BatchRequestsDataHashWithSerialize br1 /\
  (BatchedRequests.Digest br1 = BatchedRequests.Digest br2 -> br1 = br2 \/
     sha256_collision (BatchedRequests.Serialize br1) (BatchedRequests.Serialize br2)).
Proof.
  intros H1 H2. split; [|by apply BatchedRequests.Digest_inj].
  unfold BatchedRequests.Digest, BatchedRequests.BatchRequestsDataHashWithSerialize. by rewrite BatchedRequests.hash_state_Serialize.
Qed.

Lemma batch_digest_binds_witness : (@BatchedRequests.Digest sample_sha [[x01]; [x02]]
    = @BatchedRequests.BatchRequestsDataHashWithSerialize sample_sha [[x01]; [x02]]) /\
  (@BatchedRequests.Digest sample_sha [[x01]; [x02]] = @BatchedRequests.Digest sample_sha [[x01; x02]] ->
   [[x01]; [x02]] = [[x01; x02]] \/
   @sha256_collision sample_sha (BatchedRequests.Serialize [[x01]; [x02]]) (BatchedRequests.Serialize [[x01; x02]])).
Proof. apply (@batch_digest_binds sample_sha); repeat constructor; vm_compute; discriminate. Defined.

(** thresholds. For [n] parties, two sets of quorum size share a party outside any faulty set of size at most
    [f], the parties outside the faulty set contain a quorum, and a set of threshold size has an honest member. *)
Theorem quorum_properties n f t q (parties A B faulty : gset PartyID) :
  (0 < n <= u16_max)%N -> ComputeFTQ n = (f, t, q) -> N.of_nat (size parties) = n ->
  A ⊆ parties -> B ⊆ parties -> faulty ⊆ parties -> (N.of_nat (size faulty) <= f)%N ->
  ((q <= N.of_nat (size A))%N -> (q <= N.of_nat (size B))%N -> exists p, p ∈ A /\ p ∈ B /\ p ∉ faulty) /\
  (q <= N.of_nat (size (parties ∖ faulty)))%N /\
  ((t <= N.of_nat (size A))%N -> exists p, p ∈ A /\ p ∉ faulty).
Proof.
  intros Hn E Hp HA HB HF Hf. destruct (ComputeFTQ_bounds _ _ _ _ Hn E) as (H1 & H2 & H3 & H4 & H5).
  assert (forall X : gset PartyID, size faulty < size X -> exists p, p ∈ X /\ p ∉ faulty) as Hout.
  { intros X Hlt. destruct (pigeonhole_outside (elements X) faulty) as (p & Hin & Hni);
      [apply NoDup_elements|done|]. exists p. by rewrite elem_of_elements in Hin. }
  split; [|split].
  - intros HqA HqB. destruct (Hout (A ∩ B)) as (p & [? ?]%elem_of_intersection & ?); [|by exists p].
    assert (size (A ∪ B) <= size parties) by (apply subseteq_size; set_solver).
    pose proof (size_union_alt A B) as Hu. pose proof (size_difference_alt B A) as Hd.
    assert (B ∩ A = A ∩ B) as Hcomm by set_solver. rewrite Hcomm in Hd. assert (size (A ∩ B) <= size B) by (apply subseteq_size; set_solver). lia.
  - rewrite size_difference by done. lia.
  - intros Ht. apply Hout. lia.
Qed.

Lemma quorum_properties_witness :
  let ps : gset N := {[1; 2; 3; 4]}%N in let A : gset N := {[1; 2; 3]}%N in let B : gset N := {[2; 3; 4]}%N in
  let F : gset N := {[2]}%N in
  ((3 <= N.of_nat (size A))%N -> (3 <= N.of_nat (size B))%N -> exists p, p ∈ A /\ p ∈ B /\ p ∉ F) /\
  (3 <= N.of_nat (size (ps ∖ F)))%N /\ ((2 <= N.of_nat (size A))%N -> exists p, p ∈ A /\ p ∉ F).
Proof.
  apply (quorum_properties 4 1 2 3); [done|reflexivity|reflexivity|set_solver|set_solver|set_solver|].
  vm_compute. discriminate.
Defined.

(** signed payloads are domain separated and binding. The bytes that a batcher signs for a BAF or a complaint
    and those an assembler signs for a report are pairwise different; and equal signed bytes of one kind mean equal
    signed fields. *)
Theorem signed_payloads_separated `{Codec asn1BAF} b b' c c' r r' mb mb' mc mc' mr mr' :
  BAF_ToBeSigned b = Ok mb -> BAF_ToBeSigned b' = Ok mb' -> Complaint_ToBeSigned c = Ok mc ->
  Complaint_ToBeSigned c' = Ok mc' -> Report_ToBeSigned r = Ok mr -> Report_ToBeSigned r' = Ok mr' ->
  Complaint_in_range c -> Complaint_in_range c' -> Report_in_range r -> Report_in_range r' ->
  mb <> mc /\ mb <> mr /\ mc <> mr /\
  (mb = mb' -> BAF_toASN1 b = BAF_toASN1 b') /\
  (mc = mc' -> Complaint_unsigned c = Complaint_unsigned c') /\
  (mr = mr' -> r_Party r = r_Party r' /\ r_DecisionNum r = r_DecisionNum r' /\ r_ConfigSeq r = r_ConfigSeq r').
Proof.
  unfold BAF_ToBeSigned, Complaint_ToBeSigned, Report_ToBeSigned.
  intros Eb Eb' Ec Ec' Er Er' Rc Rc' Rr Rr'. apply bind_Ok_inv in Eb as (ab & Mb & Eb), Eb' as (ab' & Mb' & Eb').
  split; [|split; [|split; [|split; [|split]]]]; intros ->.
  - by destruct (PrefixWithDomain_inj _ _ _ _ _ Eb Ec).
  - by destruct (PrefixWithDomain_inj _ _ _ _ _ Eb Er).
  - by destruct (PrefixWithDomain_inj _ _ _ _ _ Ec Er).
  - destruct (PrefixWithDomain_inj _ _ _ _ _ Eb Eb') as [_ ->]. apply marshal_or_panic_Ok in Mb, Mb'. by eapply enc_inj.
  - destruct (PrefixWithDomain_inj _ _ _ _ _ Ec Ec') as [_ Ep]. by apply Complaint_payload_inj.
  - destruct (PrefixWithDomain_inj _ _ _ _ _ Er Er') as [_ Ep]. by apply Report_payload_inj.
Qed.

Lemma signed_payloads_separated_witness :
  exists mb mc mr, @BAF_ToBeSigned asn1_codec (fragment 1 dgA) = Ok mb /\ Complaint_ToBeSigned (complaint_by 1) = Ok mc /\
    Report_ToBeSigned (report_by 1 5) = Ok mr /\ mb <> mc /\ mb <> mr /\ mc <> mr /\
    (mb = mb -> BAF_toASN1 (fragment 1 dgA) = BAF_toASN1 (fragment 1 dgA)) /\
    (mc = mc -> Complaint_unsigned (complaint_by 1) = Complaint_unsigned (complaint_by 1)) /\
    (mr = mr -> r_Party (report_by 1 5) = 1%N /\ r_DecisionNum (report_by 1 5) = 5%N /\ r_ConfigSeq (report_by 1 5) = 3%N).
Proof.
  do 3 eexists. split; [reflexivity|split; [reflexivity|split; [reflexivity|]]].
  eapply (@signed_payloads_separated asn1_codec _ (fragment 1 dgA) _ (complaint_by 1) _ (report_by 1 5));
    try reflexivity; repeat split; vm_compute; discriminate.
Defined.

(** control events survive the wire. An event with one payload and fields in range is read back as it was
    written. *)
Theorem control_event_round_trip `{FabricCodecs} `{Codec ControlEventProto} ce bs :
  event_wf ce -> ControlEvent_Bytes ce = Ok bs -> ControlEvent_FromBytes bs = Ok ce.
Proof. apply ControlEvent_FromBytes_Bytes. Qed.

Lemma control_event_round_trip_witness :
  exists bs, @ControlEvent_Bytes sample_fabric event_codec (BAFEvent (fragment 1 dgA)) = Ok bs /\
    @ControlEvent_FromBytes sample_fabric event_codec bs = Ok (BAFEvent (fragment 1 dgA)).
Proof.
  eexists. split; [vm_compute; reflexivity|]. apply (@control_event_round_trip sample_fabric event_codec).
  - constructor; [repeat split; vm_compute; discriminate|reflexivity].
  - vm_compute. reflexivity.
Defined.

(** the request ID identifies the event. Two events (BAFs with a 32-byte digest and a shard above 0, complaints,
    reports) with the same ID agree on all the fields that identify them, signatures apart, or SHA-256 collides on the
    two byte strings that are hashed. *)
Theorem control_event_ID_identifies `{FabricCodecs} `{Sha256} e1 e2 i1 i2 id :
  identifies e1 i1 -> identifies e2 i2 -> ControlEvent_ID e1 = Ok id -> ControlEvent_ID e2 = Ok id ->
  i1 = i2 \/ exists p1 p2, ControlEvent_idPayload e1 = Ok (Some p1) /\ ControlEvent_idPayload e2 = Ok (Some p2) /\ sha256_collision p1 p2.
Proof.
  intros I1 I2 E1 E2. unfold ControlEvent_ID in *. apply bind_Ok_inv in E1 as (o1 & P1 & E1), E2 as (o2 & P2 & E2).
  assert (exists p1, o1 = Some p1) as [p1 ->] by (destruct I1; cbn in P1; apply Ok_inj in P1; eauto).
  assert (exists p2, o2 = Some p2) as [p2 ->] by (destruct I2; cbn in P2; apply Ok_inj in P2; eauto).
  assert (sha256 p1 = sha256 p2) as Es by (apply (inj hex_encode); congruence).
  apply sha256_eq in Es as [->|?]; [left; by eapply identity_payload_inj|right]. by exists p1, p2.
Qed.

Lemma control_event_ID_identifies_witness :
  exists id, @ControlEvent_ID sample_fabric sample_sha (ReportEvent (report_by 1 5)) = Ok id /\
  (IdReport 1 5 3 = IdReport 1 5 3 \/ exists p1 p2, @ControlEvent_idPayload sample_fabric (ReportEvent (report_by 1 5)) = Ok (Some p1) /\
     @ControlEvent_idPayload sample_fabric (ReportEvent (report_by 1 5)) = Ok (Some p2) /\ @sha256_collision sample_sha p1 p2).
Proof.
  eexists. split; [vm_compute; reflexivity|].
  eapply (@control_event_ID_identifies sample_fabric sample_sha (ReportEvent (report_by 1 5)) (ReportEvent (report_by 1 5)));
    [constructor; repeat split; vm_compute; discriminate|constructor; repeat split; vm_compute; discriminate
    |reflexivity|reflexivity].
Defined.

(** the fixed-layout codecs. An available batch is accepted exactly when it is the 44-byte serialization of one
    with fields in range; a complaint and a report are read back from the front of any buffer they were written to. *)
Theorem fixed_layout_codecs bs ab c r rest :
  Complaint_in_range c -> Report_in_range r ->
  (AvailableBatch.Deserialize bs = Ok ab <-> AvailableBatch.wf ab /\ AvailableBatch.Serialize ab = bs) /\
  Complaint_FromBytes (Complaint_Bytes c ++ rest) = Ok c /\ Report_FromBytes (Report_Bytes r ++ rest) = Ok r.
Proof.
  intros Hc Hr. split; [|split; [by apply Complaint_FromBytes_Bytes|by apply Report_FromBytes_Bytes]].
  split; [apply AvailableBatch.Serialize_Deserialize|]. intros [Hwf <-]. by apply AvailableBatch.available_batch_Deserialize.
Qed.

Lemma fixed_layout_codecs_witness :
  (AvailableBatch.Deserialize (be_put 44 0) = Ok (AvailableBatch.mk 0 0 0 (be_put 32 0)) <->
   AvailableBatch.wf (AvailableBatch.mk 0 0 0 (be_put 32 0)) /\
   AvailableBatch.Serialize (AvailableBatch.mk 0 0 0 (be_put 32 0)) = be_put 44 0) /\
  Complaint_FromBytes (Complaint_Bytes (complaint_by 1) ++ [x01]) = Ok (complaint_by 1) /\
  Report_FromBytes (Report_Bytes (report_by 1 5) ++ [x01]) = Ok (report_by 1 5).
Proof.
  apply (fixed_layout_codecs (be_put 44 0) (AvailableBatch.mk 0 0 0 (be_put 32 0)) (complaint_by 1) (report_by 1 5) [x01]);
    repeat split; vm_compute; discriminate.
Defined.
