(* ===== verification/Badb.v ===== *)
(** * The batch attestation database

    [src/node/consensus/badb/badb.go]: the digests of ordered batches, kept in a LevelDB store under two kinds of
    keys, [0 ++ digest] to the epoch and [1 ++ epoch ++ digest]. LevelDB is a map of byte strings iterated in the
    bytewise order of the keys; a store can be closed, and an operation can meet an I/O fault. *)
From S2P Require Import Prelude Types.
From Stdlib Require Import NArith Lia.
From Stdlib Require Import Init.Byte.

Module Badb.

Record t := mk { open : bool; kv : gmap bytes bytes }.

Fixpoint bytes_leb (a b : bytes) : bool :=
  match a, b with
  | [], _ => true
  | _ :: _, [] => false
  | x :: a', y :: b' =>
      if (Byte.to_N x =? Byte.to_N y)%N then bytes_leb a' b' else (Byte.to_N x <? Byte.to_N y)%N
  end.
Definition key_le (p q : bytes * bytes) : Prop := bytes_leb p.1 q.1 = true.
#[export] Instance key_le_dec p q : Decision (key_le p q).
Proof. unfold key_le. apply _. Defined.

(** The entries an iterator visits. *)
Definition entries (db : t) : list (bytes * bytes) := merge_sort key_le (map_to_list (kv db)).

Definition makeDigestKey (digest : bytes) : bytes := x00 :: digest.
Definition makeEpochKey (digest epoch : bytes) : bytes := x01 :: epoch ++ digest.

Definition list_entry (p : bytes * bytes) : outcome (option (bytes * N)) :=
  match p.1 with
  | [] => Panic "index out of range [0] with length 0"
  | b :: digest =>
      if decide (b = x00) then
        panic_if bool_decide (length p.2 < 8) with "index out of range [7]" ;;
        Ok (Some (digest, be_get (take 8 p.2)))
      else Ok None
  end.

(** Digests and epochs, in step; a closed store iterates over nothing. *)
Definition List (db : t) : outcome (list (bytes * N)) :=
  if open db then l ← omapM list_entry (entries db); Ok (omap (M := list) (id : option (bytes * N) -> _) l) else Ok [].

Definition Exists (fault : bool) (digest : bytes) (db : t) : outcome bool :=
  if open db then
    if fault then Panic "Failed reading from database" else Ok (bool_decide (is_Some (kv db !! makeDigestKey digest)))
  else Ok false.

Definition put_one (m : gmap bytes bytes) (de : bytes * N) : gmap bytes bytes :=
  let epochBuff := be_put 8 de.2 in
  <[makeEpochKey de.1 epochBuff := [x00]]> (<[makeDigestKey de.1 := epochBuff]> m).

(** [epoch[i]] panics if there are fewer epochs than digests. *)
Definition Put (fault : bool) (digest : list bytes) (epoch : list N) (db : t) : outcome t :=
  panic_if bool_decide (length epoch < length digest) with "index out of range" ;;
  let kv' := foldl put_one (kv db) (zip digest epoch) in
  panic_if (negb (open db) || fault) with "Failed updating database" ;;
  Ok (mk (open db) kv').

Definition clean_entry (epochToDelete : N) (p : bytes * bytes) : outcome (list bytes) :=
  match p.1 with
  | b :: epochBuff =>
      if decide (b = x01) then
        panic_if bool_decide (length epochBuff < 8) with "slice bounds out of range" ;;
        if (be_get (take 8 epochBuff) <? epochToDelete)%N then Ok [makeDigestKey (drop 8 epochBuff); p.1] else Ok []
      else Ok []
  | [] => Ok []
  end.

Definition Clean (fault : bool) (epochToDelete : N) (db : t) : outcome t :=
  batch ← omapM (clean_entry epochToDelete) (entries db);
  panic_if (negb (open db) || fault) with "Failed iterating over database" ;;
  Ok (mk (open db) (foldl (fun m k => delete k m) (kv db) (concat batch))).

Definition Close (db : t) : t := mk false (kv db).

(** ** The abstract store: each digest with its epoch *)
Definition epochs_ok (a : gmap bytes N) : Prop := forall d e, a !! d = Some e -> (e <= u64_max)%N.

Record represents (a : gmap bytes N) (m : gmap bytes bytes) : Prop := {
  rep_digest : forall d, m !! makeDigestKey d = be_put 8 <$> a !! d;
  rep_epoch : forall d eb, length eb = 8 -> is_Some (m !! makeEpochKey d eb) <-> exists e, a !! d = Some e /\ eb = be_put 8 e;
  rep_keys : forall k v, m !! k = Some v -> (exists d, k = makeDigestKey d) \/ (exists d eb, length eb = 8 /\ k = makeEpochKey d eb);
  rep_ok : epochs_ok a
}.

Lemma epochKey_inj d1 eb1 d2 eb2 : length eb1 = length eb2 -> makeEpochKey d1 eb1 = makeEpochKey d2 eb2 -> d1 = d2 /\ eb1 = eb2.
Proof. unfold makeEpochKey. intros L E. assert (eb1 ++ d1 = eb2 ++ d2) as E' by congruence. by apply app_inj_1 in E' as [-> ->]. Qed.

Lemma epochKey_digestKey d eb d' : makeEpochKey d eb <> makeDigestKey d'.
Proof. done. Qed.

#[export] Instance digestKey_inj : Inj (=) (=) makeDigestKey.
Proof. intros d1 d2 E. unfold makeDigestKey in E. congruence. Qed.

(** A digest that is stored again keeps its epoch. *)
Definition consistent (a : gmap bytes N) (de : bytes * N) : Prop :=
  (de.2 <= u64_max)%N /\ forall e, a !! de.1 = Some e -> e = de.2.

Lemma represents_put a m de : represents a m -> consistent a de -> represents (<[de.1 := de.2]> a) (put_one m de).
Proof.
  destruct de as [d e]. intros [Hd He Hk Hok] [Hmax Hcon]. cbn [fst snd] in *. unfold put_one; cbn [fst snd]. split.
  - intros d'. rewrite lookup_insert_ne by (intros E; by apply epochKey_digestKey in E).
    destruct (decide (d' = d)) as [->|Hne].
    + by rewrite !lookup_insert_eq.
    + rewrite !lookup_insert_ne by (intros E; try apply (inj makeDigestKey) in E; congruence). apply Hd.
  - intros d' eb Hl. destruct (decide (makeEpochKey d' eb = makeEpochKey d (be_put 8 e))) as [E|Hne].
    + rewrite E, lookup_insert_eq. apply epochKey_inj in E as [-> ->]; [|by rewrite Hl, length_be_put].
      rewrite lookup_insert_eq. split; [intros _; eauto|by intros _].
    + rewrite lookup_insert_ne by congruence. rewrite lookup_insert_ne by (intros E; symmetry in E; by apply epochKey_digestKey in E).
      rewrite He by done. destruct (decide (d' = d)) as [->|Hd']; [|by rewrite lookup_insert_ne by congruence].
      rewrite lookup_insert_eq. split.
      * intros (e' & E' & ->). exfalso. apply Hne. by rewrite (Hcon _ E').
      * intros (e' & [= <-] & ->). done.
  - intros k v. rewrite lookup_insert_Some, lookup_insert_Some. intros [[<- _]|[_ [[<- _]|[_ Hkv]]]]; [right|left|eauto].
    + exists d, (be_put 8 e). by rewrite length_be_put.
    + eauto.
  - intros d' e'. rewrite lookup_insert_Some. intros [[_ <-]|[_ ?]]; eauto.
Qed.

Lemma represents_puts l a m :
  represents a m -> Forall (consistent a) l -> (forall d e e', (d, e) ∈ l -> (d, e') ∈ l -> e = e') ->
  represents (foldl (fun a de => <[de.1 := de.2]> a) a l) (foldl put_one m l).
Proof.
  revert a m; induction l as [|de l IH]; intros a m Hr Hc Hfun; [done|]. cbn [foldl].
  apply Forall_cons in Hc as [Hc1 Hc]. apply IH; [by apply represents_put| |].
  - rewrite Forall_forall in Hc |- *. intros [d' e'] Hin. destruct (Hc _ Hin) as [Hmax Hcon]. split; [done|].
    intros e. cbn in *. rewrite lookup_insert_Some. intros [[E <-]|[_ ?]]; [|auto].
    destruct de as [d0 e0]; cbn in *. subst. apply (Hfun d' e0 e'); set_solver.
  - intros d e e' H1 H2. apply (Hfun d); set_solver.
Qed.

(** Writing the same batch twice is writing it once. *)
Definition writes (de : bytes * N) : list (bytes * bytes) :=
  [(makeDigestKey de.1, be_put 8 de.2); (makeEpochKey de.1 (be_put 8 de.2), [x00])].

Lemma fold_put_writes l m :
  foldl put_one m l = foldl (fun m p => <[p.1 := p.2]> m) m (concat (writes <$> l)).
Proof. revert m; induction l as [|de l IH]; intros m; [done|]. cbn [foldl fmap list_fmap concat app writes]. apply IH. Qed.

Lemma fold_insert_union (l : list (bytes * bytes)) (m : gmap bytes bytes) :
  foldl (fun m p => <[p.1 := p.2]> m) m l = list_to_map (reverse l) ∪ m.
Proof.
  revert m; induction l as [|[k v] l IH]; intros m; cbn [foldl]; [cbn; by rewrite map_empty_union|].
  rewrite IH, reverse_cons, list_to_map_app. rewrite <-map_union_assoc. f_equal. cbn.
  by rewrite insert_union_singleton_l, insert_empty.
Qed.

Lemma fold_put_idem l m : foldl put_one (foldl put_one m l) l = foldl put_one m l.
Proof. rewrite !fold_put_writes, !fold_insert_union, map_union_assoc. by rewrite map_union_idemp. Qed.

Lemma lookup_fold_delete (ks : list bytes) (m : gmap bytes bytes) k :
  foldl (fun m k => delete k m) m ks !! k = if decide (k ∈ ks) then None else m !! k.
Proof.
  revert m; induction ks as [|k0 ks IH]; intros m; cbn [foldl]; [by rewrite decide_False by set_solver|].
  rewrite IH. destruct (decide (k ∈ ks)) as [Hin|Hni]; [by rewrite decide_True by set_solver|].
  destruct (decide (k = k0)) as [->|Hne].
  - by rewrite lookup_delete_eq, decide_True by set_solver.
  - rewrite lookup_delete_ne by congruence. by rewrite decide_False by set_solver.
Qed.

Lemma elem_of_entries db k v : (k, v) ∈ entries db <-> kv db !! k = Some v.
Proof. unfold entries. rewrite merge_sort_Permutation. apply elem_of_map_to_list. Qed.

(** The keys a Clean deletes: those of the pairs below the bound. *)
Definition doomed (a : gmap bytes N) (bound : N) (k : bytes) : Prop :=
  exists d e, a !! d = Some e /\ (e < bound)%N /\ (k = makeDigestKey d \/ k = makeEpochKey d (be_put 8 e)).

Lemma clean_entry_spec a db bound k v :
  represents a (kv db) -> (k, v) ∈ entries db ->
  exists ks, clean_entry bound (k, v) = Ok ks /\
    forall k', k' ∈ ks <-> exists d e, a !! d = Some e /\ (e < bound)%N /\ k = makeEpochKey d (be_put 8 e) /\
                            (k' = makeDigestKey d \/ k' = k).
Proof.
  intros Hr Hin%elem_of_entries. destruct (rep_keys _ _ Hr _ _ Hin) as [[d ->]|(d & eb & Hl & ->)].
  - exists []. split; [done|]. intros k'. split; [by intros ?%not_elem_of_nil|].
    intros (d' & e & _ & _ & E & _). symmetry in E. by apply epochKey_digestKey in E.
  - unfold clean_entry, makeEpochKey; cbn [fst]. rewrite decide_True by done.
    rewrite bool_decide_eq_false_2 by (rewrite length_app; lia). cbn [guard_panic].
    rewrite take_app_length', drop_app_length' by done.
    destruct (proj1 (rep_epoch _ _ Hr d eb Hl) ltac:(by eexists)) as (e & He & ->).
    pose proof (rep_ok _ _ Hr _ _ He) as Hmax. rewrite be_get_put8 by done.
    destruct (N.ltb_spec e bound) as [Hlt|Hge]; eexists; (split; [reflexivity|]); intros k'.
    + rewrite !elem_of_cons, elem_of_nil. split.
      * intros [->|[->|[]]]; exists d, e; repeat split; try done; [by left|by right].
      * intros (d' & e' & _ & _ & E & Hk'). change (makeEpochKey d (be_put 8 e) = makeEpochKey d' (be_put 8 e')) in E.
        apply epochKey_inj in E as [-> _]; [|by rewrite !length_be_put]. destruct Hk' as [->| ->]; auto.
    + split; [by intros ?%not_elem_of_nil|]. intros (d' & e' & Ha & Hlt & E & _).
      change (makeEpochKey d (be_put 8 e) = makeEpochKey d' (be_put 8 e')) in E.
      apply epochKey_inj in E as [-> _]; [|by rewrite !length_be_put]. assert (e' = e) by congruence. lia.
Qed.

Lemma omapM_total {A B} (f : A -> outcome B) l : (forall x, x ∈ l -> exists y, f x = Ok y) -> exists ys, omapM f l = Ok ys.
Proof.
  induction l as [|x l IH]; intros Hf; [by exists []|]. destruct (Hf x) as [y Hy]; [by left|].
  destruct IH as [ys Hys]; [intros; apply Hf; by right|]. cbn. rewrite Hy. cbn. rewrite Hys. cbn. eauto.
Qed.


Lemma clean_batch_spec a db bound :
  represents a (kv db) ->
  exists batch, omapM (clean_entry bound) (entries db) = Ok batch /\ forall k, k ∈ concat batch <-> doomed a bound k.
Proof.
  intros Hr. destruct (omapM_total (clean_entry bound) (entries db)) as [batch Eb].
  { intros [k v] Hin. destruct (clean_entry_spec a db bound k v Hr Hin) as (ks & Hks & _). eauto. }
  exists batch. split; [done|]. apply omapM_Ok in Eb. intros k. rewrite elem_of_concat. split.
  - intros (ks & Hk & Hks). apply list_elem_of_lookup in Hks as [i Hi].
    destruct (Forall2_lookup_r _ _ _ _ _ Eb Hi) as ([k0 v0] & Hi0 & Hf).
    destruct (clean_entry_spec a db bound k0 v0 Hr) as (ks' & Hks' & Hspec); [by eapply list_elem_of_lookup_2|].
    rewrite Hf in Hks'. apply Ok_inj in Hks' as ->. apply Hspec in Hk as (d & e & ? & ? & -> & ?). exists d, e. auto.
  - intros (d & e & Ha & Hlt & Hk).
    destruct (proj2 (rep_epoch _ _ Hr d (be_put 8 e) (length_be_put 8 e))) as [v Hv]; [eauto|].
    destruct (clean_entry_spec a db bound (makeEpochKey d (be_put 8 e)) v Hr) as (ks & Hks & Hspec); [by apply elem_of_entries|].
    pose proof (proj2 (elem_of_entries db (makeEpochKey d (be_put 8 e)) v) Hv) as Hin.
    apply list_elem_of_lookup in Hin as [i Hi]. destruct (Forall2_lookup_l _ _ _ _ _ Eb Hi) as (ks' & Hi' & Hf).
    rewrite Hf in Hks. apply Ok_inj in Hks as ->. exists ks. split; [|by eapply list_elem_of_lookup_2].
    apply Hspec. exists d, e. auto.
Qed.

Lemma represents_clean a db bound batch :
  represents a (kv db) -> (forall k, k ∈ concat batch <-> doomed a bound k) ->
  represents (filter (fun p => (bound <= p.2)%N) a) (foldl (fun m k => delete k m) (kv db) (concat batch)).
Proof.
  intros [Hd He Hk Hok] Hb.
  assert (forall d e, a !! d = Some e -> filter (fun p => (bound <= p.2)%N) a !! d = if decide (e < bound)%N then None else Some e) as Hf.
  { intros d e E. rewrite map_lookup_filter, E. cbn. repeat case_guard; repeat case_decide; cbn; try done; try lia. }
  assert (forall d, a !! d = None -> filter (fun p => (bound <= p.2)%N) a !! d = None) as Hf0.
  { intros d E. by rewrite map_lookup_filter, E. }
  split.
  - intros d. rewrite lookup_fold_delete, Hd. destruct (a !! d) as [e|] eqn:Ea.
    + rewrite (Hf _ _ Ea). destruct (decide (e < bound)%N) as [Hlt|Hge].
      * rewrite decide_True; [done|]. apply Hb. exists d, e. auto.
      * rewrite decide_False; [done|]. rewrite Hb. intros (d' & e' & Ha' & Hlt & [E|E]).
        -- apply (inj makeDigestKey) in E as ->. assert (e' = e) by congruence. lia.
        -- symmetry in E. by apply epochKey_digestKey in E.
    + rewrite (Hf0 _ Ea). by case_decide.
  - intros d eb Hl. rewrite lookup_fold_delete.
    destruct (decide (makeEpochKey d eb ∈ concat batch)) as [Hin|Hni].
    + split; [by intros []|]. intros (e & Hfe & ->). apply Hb in Hin as (d' & e' & Ha' & Hlt & [E|E]).
      * by apply epochKey_digestKey in E.
      * apply epochKey_inj in E as [-> Ee]; [|by rewrite !length_be_put]. rewrite (Hf _ _ Ha'), decide_True in Hfe by done. done.
    + rewrite He by done. split; intros (e & Ha & ->); exists e; (split; [|done]).
      * rewrite (Hf _ _ Ha). rewrite decide_False; [done|]. intros Hlt. apply Hni, Hb. exists d, e. auto.
      * destruct (a !! d) as [e'|] eqn:Ea; [|by rewrite (Hf0 _ Ea) in Ha]. rewrite (Hf _ _ Ea) in Ha. by case_decide.
  - intros k v. rewrite lookup_fold_delete. case_decide; [done|]. apply Hk.
  - intros d e. rewrite map_lookup_filter_Some. intros [? _]. eauto.
Qed.

Lemma list_entry_spec a db k v :
  represents a (kv db) -> (k, v) ∈ entries db ->
  exists o, list_entry (k, v) = Ok o /\
    forall d e, o = Some (d, e) <-> k = makeDigestKey d /\ a !! d = Some e.
Proof.
  intros Hr Hin%elem_of_entries. destruct (rep_keys _ _ Hr _ _ Hin) as [[d ->]|(d & eb & Hl & ->)].
  - rewrite (rep_digest _ _ Hr) in Hin. destruct (a !! d) as [e|] eqn:Ea; [|done]. cbn [fmap option_fmap option_map] in Hin.
    assert (v = be_put 8 e) as -> by congruence. unfold list_entry, makeDigestKey. cbn [fst snd]. rewrite decide_True by done.
    rewrite length_be_put. rewrite bool_decide_eq_false_2 by lia. cbn [guard_panic].
    rewrite firstn_all2 by (rewrite length_be_put; lia). rewrite be_get_put8 by (by eapply rep_ok).
    eexists. split; [reflexivity|]. intros d' e'. split; [intros [= <- <-]; done|]. intros [[= <-] E]. congruence.
  - exists None. split; [done|]. intros d' e'. split; [done|]. by intros [E%epochKey_digestKey _].
Qed.

Lemma omap_id_fmap {A B} (f : A -> outcome (option B)) l os :
  Forall2 (fun x o => f x = Ok o) l os -> forall b, b ∈ omap id os <-> exists x, x ∈ l /\ f x = Ok (Some b).
Proof.
  induction 1 as [|x o l os Hx _ IH]; intros b; [split; [by intros ?%not_elem_of_nil|intros (? & ?%not_elem_of_nil & _); done]|].
  cbn. destruct o as [b0|]; cbn; [rewrite elem_of_cons|]; rewrite IH.
  - split; [intros [->|(y & ? & ?)]; [exists x|exists y]; set_solver|]. intros (y & [->|?]%elem_of_cons & E); [left; congruence|right; eauto].
  - split; [intros (y & ? & ?); exists y; set_solver|]. intros (y & [->|?]%elem_of_cons & E); [congruence|eauto].
Qed.

Lemma omap_id_nodup {A B C} (f : A -> outcome (option B)) (g : A -> C) l os :
  Forall2 (fun x o => f x = Ok o) l os -> NoDup (g <$> l) ->
  (forall x y b, x ∈ l -> y ∈ l -> f x = Ok (Some b) -> f y = Ok (Some b) -> g x = g y) -> NoDup (omap id os).
Proof.
  induction 1 as [|x o l os Hx Hall IH]; intros Hnd Hinj; [constructor|]. cbn in Hnd. apply NoDup_cons in Hnd as [Hni Hnd].
  cbn. destruct o as [b|]; cbn; [|apply IH; [done|intros; eapply Hinj; by first [right|done|eauto]]].
  constructor; [|apply IH; [done|intros; eapply Hinj; by first [right|done|eauto]]].
  rewrite (omap_id_fmap f l os Hall). intros (y & Hy & Ey). apply Hni. rewrite (Hinj x y b); [|set_solver|set_solver|done|done].
  by apply list_elem_of_fmap_2.
Qed.

Lemma List_spec a db : represents a (kv db) -> open db = true -> exists l, List db = Ok l /\ l ≡ₚ map_to_list a.
Proof.
  intros Hr Ho. unfold List. rewrite Ho. destruct (omapM_total list_entry (entries db)) as [os Eos].
  { intros [k v] Hin. destruct (list_entry_spec a db k v Hr Hin) as (o & Ho' & _). eauto. }
  rewrite Eos. cbn [mbind outcome_bind]. apply omapM_Ok in Eos. eexists. split; [reflexivity|].
  assert (forall k v d e, (k, v) ∈ entries db -> list_entry (k, v) = Ok (Some (d, e)) <-> k = makeDigestKey d /\ a !! d = Some e) as Hle.
  { intros k v d e Hin. destruct (list_entry_spec a db k v Hr Hin) as (o & -> & Hspec). rewrite <-Hspec. split; [by intros ?%Ok_inj|by intros ->]. }
  apply NoDup_Permutation.
  - eapply (omap_id_nodup list_entry fst); [exact Eos| |].
    + unfold entries. rewrite merge_sort_Permutation. apply NoDup_fst_map_to_list.
    + intros [k1 v1] [k2 v2] [d e] H1 H2 E1%Hle E2%Hle; [|done..]. cbn. destruct E1 as [-> _], E2 as [-> _]. done.
  - apply NoDup_map_to_list.
  - intros [d e]. rewrite (omap_id_fmap _ _ _ Eos), elem_of_map_to_list. split.
    + intros ([k v] & Hin & E). by apply (Hle k v d e Hin) in E as [_ ?].
    + intros Ha. exists (makeDigestKey d, be_put 8 e). assert ((makeDigestKey d, be_put 8 e) ∈ entries db) as Hin.
      { apply elem_of_entries. by rewrite (rep_digest _ _ Hr), Ha. }
      split; [done|]. by apply Hle.
Qed.

Definition sample_pairs : gmap bytes N := {[ [x0a] := 1%N; [x0b] := 2%N ]}.
Definition sample_db : t := mk true (foldl put_one ∅ [([x0a], 1%N); ([x0b], 2%N)]).

Lemma represents_empty : represents ∅ ∅.
Proof.
  split.
  - intros d. by rewrite !lookup_empty.
  - intros d eb _. rewrite lookup_empty. split; [by intros []|]. intros (e & E & _). by rewrite lookup_empty in E.
  - intros k v E. by rewrite lookup_empty in E.
  - intros d e E. by rewrite lookup_empty in E.
Qed.

Lemma sample_represents : represents sample_pairs (kv sample_db).
Proof.
  assert (sample_pairs = foldl (fun a de => <[de.1 := de.2]> a) ∅ [([x0a], 1%N); ([x0b], 2%N)]) as -> by (vm_compute; reflexivity).
  apply represents_puts; [apply represents_empty|repeat constructor; vm_compute; done|].
  intros d e e' H1 H2. set_solver.
Qed.

(** the store refines a map from digests to epochs. Exists is membership, List is the content, Put adds the pairs,
    and Clean keeps exactly the digests whose epoch is not below the bound, as long as a digest is always stored
    with the same epoch. *)
Theorem badb_refines a db ds es d bound :
  represents a (kv db) -> open db = true -> length ds = length es -> Forall (consistent a) (zip ds es) ->
  (forall d e e', (d, e) ∈ zip ds es -> (d, e') ∈ zip ds es -> e = e') ->
  Exists false d db = Ok (bool_decide (is_Some (a !! d))) /\
  (exists l, List db = Ok l /\ l ≡ₚ map_to_list a) /\
  (exists db', Put false ds es db = Ok db' /\ open db' = true /\
     represents (foldl (fun a de => <[de.1 := de.2]> a) a (zip ds es)) (kv db')) /\
  (exists db', Clean false bound db = Ok db' /\ open db' = true /\ represents (filter (fun p => (bound <= p.2)%N) a) (kv db')).
Proof.
  intros Hr Ho Hl Hc Hf. split; [|split; [by apply List_spec|split]].
  - unfold Exists. rewrite Ho. do 2 f_equal. apply bool_decide_ext. rewrite (rep_digest _ _ Hr). by rewrite fmap_is_Some.
  - unfold Put. rewrite bool_decide_eq_false_2 by lia. rewrite Ho. cbn [guard_panic negb orb]. eexists. split; [reflexivity|].
    split; [done|]. by apply represents_puts.
  - unfold Clean. destruct (clean_batch_spec a db bound Hr) as (batch & -> & Hb). rewrite Ho. cbn [mbind outcome_bind guard_panic negb orb].
    eexists. split; [reflexivity|]. split; [done|]. by apply (represents_clean a db bound).
Qed.

Lemma badb_refines_witness :
  Exists false [x0a] sample_db = Ok true /\
  (exists l, List sample_db = Ok l /\ l ≡ₚ map_to_list sample_pairs) /\
  (exists db', Put false [[x0c]] [2%N] sample_db = Ok db' /\ open db' = true /\
     represents (foldl (fun a de => <[de.1 := de.2]> a) sample_pairs (zip [[x0c]] [2%N])) (kv db')) /\
  (exists db', Clean false 2 sample_db = Ok db' /\ open db' = true /\
     represents (filter (fun p => (2 <= p.2)%N) sample_pairs) (kv db')).
Proof.
  apply (badb_refines sample_pairs sample_db [[x0c]] [2%N] [x0a] 2);
    [apply sample_represents|reflexivity|reflexivity|repeat constructor; vm_compute; done|].
  intros d e e' H1 H2. set_solver.
Defined.

(** indexing is idempotent. Storing a batch of digests again, as happens when a decision is delivered again after
    a crash, leaves the store as it was after the first time, whatever was stored before. *)
Theorem Put_idempotent ds es db db1 :
  Put false ds es db = Ok db1 -> Put false ds es db1 = Ok db1.
Proof.
  unfold Put. intros E. outcome_inv. cbn [open kv]. rewrite Hguard. cbn [guard_panic]. rewrite Hguard0. cbn [guard_panic].
  by rewrite fold_put_idem.
Qed.

Lemma Put_idempotent_witness :
  exists db1, Put false [[x0c]] [0%N] sample_db = Ok db1 /\ Put false [[x0c]] [0%N] db1 = Ok db1.
Proof. eexists. split; [reflexivity|]. apply (Put_idempotent [[x0c]] [0%N] sample_db). reflexivity. Defined.

End Badb.
