(* ===== verification/Consenter.v ===== *)
(** * The consenter

    [src/node/consensus/consenter.go]: the transition a proposal's requests cause, with the fragments of batches that
    were ordered before pruned by the attestation database, and the grouping of extracted fragments into batches. *)
From S2P Require Import Prelude Types Events State StateFacts StateProps Round Badb.
From Stdlib Require Import NArith Lia.
Import Quorum.

(** ** The database interface, and what it promises *)
Class BatchAttestationDB (D : Type) := {
  db_Exists : bytes -> D -> outcome bool;
  db_Put : list bytes -> list N -> D -> outcome D;
  (** the digests stored, of a database that is in working order *)
  db_holds : D -> gset bytes -> Prop;
  db_Exists_spec : forall db ds d, db_holds db ds -> db_Exists d db = Ok (bool_decide (d ∈ ds));
  db_Put_spec : forall db ds digests epochs, db_holds db ds -> length digests = length epochs ->
    Forall (fun e => e = 0%N) epochs ->
    exists db', db_Put digests epochs db = Ok db' /\ db_holds db' (list_to_set digests ∪ ds)
}.

(** The database of the node implements it, for the epochs the consenter uses. *)
Definition badb_holds (db : Badb.t) (ds : gset bytes) : Prop :=
  Badb.open db = true /\ Badb.represents (gset_to_gmap 0%N ds) (Badb.kv db).

#[export] Program Instance badb_is_db : BatchAttestationDB Badb.t :=
  {| db_Exists := Badb.Exists false; db_Put := Badb.Put false; db_holds := badb_holds |}.
Next Obligation.
  intros db ds d [Ho Hr]. unfold Badb.Exists. rewrite Ho. f_equal. apply bool_decide_ext.
  rewrite (Badb.rep_digest _ _ Hr), fmap_is_Some, lookup_gset_to_gmap. case_guard; split; try done. by intros [].
Qed.
Next Obligation.
  intros db ds digests epochs [Ho Hr] Hl He. unfold Badb.Put. rewrite bool_decide_eq_false_2 by lia. rewrite Ho.
  cbn [guard_panic negb orb]. eexists. split; [reflexivity|]. split; [done|]. cbn [Badb.kv].
  assert (epochs = replicate (length digests) 0%N) as ->.
  { rewrite Hl. clear Hl. induction He as [|e es -> _ IH]; [done|]. cbn. by f_equal. }
  assert (forall ds, foldl (fun a (de : bytes * N) => <[de.1 := de.2]> a) (gset_to_gmap 0%N ds) (zip digests (replicate (length digests) 0%N))
    = gset_to_gmap 0%N (list_to_set digests ∪ ds)) as Efold.
  { clear. induction digests as [|d digests IH]; intros ds; cbn [foldl zip zip_with length replicate list_to_set foldr].
    - by rewrite (left_id_L ∅ (∪)).
    - cbn [fst snd]. rewrite <-gset_to_gmap_union_singleton, IH. f_equal. set_solver. }
  rewrite <-Efold. apply Badb.represents_puts; [done| |].
  - apply Forall_forall. intros [d e] Hin%elem_of_zip_r%elem_of_replicate. destruct Hin as [-> _]. split; [done|].
    intros e. cbn. rewrite lookup_gset_to_gmap_Some. by intros [_ ?].
  - intros d e e' [-> _]%elem_of_zip_r%elem_of_replicate [-> _]%elem_of_zip_r%elem_of_replicate. done.
Qed.

(** ** Grouping fragments by batch *)
Abbreviation batchIDKey := (ShardID * PartyID * BatchSequence * bytes)%type (only parsing).
Definition batchIDKeyOf (baf : BAF) : batchIDKey := (baf_shard baf, baf_primary baf, baf_seq baf, baf_digest baf).

Definition aggregate_one (acc : gmap batchIDKey (list BAF) * list batchIDKey) (baf : BAF)
    : gmap batchIDKey (list BAF) * list batchIDKey :=
  let '(groups, order) := acc in
  let key := batchIDKeyOf baf in
  let order := match groups !! key with Some _ => order | None => order ++ [key] end in
  (<[key := default [] (groups !! key) ++ [baf]]> groups, order).

Definition aggregateFragments (bafs : list BAF) : list (list BAF) :=
  let '(groups, order) := foldl aggregate_one (∅, []) bafs in
  (fun key => default [] (groups !! key)) <$> order.

(** The distinct keys in order of first appearance, and the groups they stand for. *)
Fixpoint first_seen (ks : list batchIDKey) : list batchIDKey :=
  match ks with
  | [] => []
  | k :: ks' => k :: filter (fun k' => k' <> k) (first_seen ks')
  end.

Definition group_of (k : batchIDKey) (bafs : list BAF) : list BAF := filter (fun b => batchIDKeyOf b = k) bafs.

Record agg_inv (bafs : list BAF) (acc : gmap batchIDKey (list BAF) * list batchIDKey) : Prop := {
  agg_groups : forall k, default [] (acc.1 !! k) = group_of k bafs;
  agg_none : forall k, acc.1 !! k = None <-> k ∉ (batchIDKeyOf <$> bafs);
  agg_order : acc.2 = first_seen (batchIDKeyOf <$> bafs)
}.

Lemma elem_of_first_seen k ks : k ∈ first_seen ks <-> k ∈ ks.
Proof.
  induction ks as [|k0 ks IH]; [done|]. cbn. rewrite !elem_of_cons, list_elem_of_filter, IH.
  destruct (decide (k = k0)); tauto.
Qed.

Lemma first_seen_snoc ks k :
  first_seen (ks ++ [k]) = if decide (k ∈ ks) then first_seen ks else first_seen ks ++ [k].
Proof.
  induction ks as [|k0 ks IH]; [by rewrite decide_False by apply not_elem_of_nil|]. cbn [first_seen app]. rewrite IH.
  destruct (decide (k ∈ ks)) as [Hin|Hni].
  - rewrite decide_True by (by right). done.
  - rewrite filter_app, filter_cons, filter_nil. destruct (decide (k = k0)) as [->|Hne].
    + rewrite decide_False by (by intros []). rewrite app_nil_r, decide_True by (by left). done.
    + rewrite decide_True by done. by rewrite decide_False by (rewrite elem_of_cons; tauto).
Qed.

Lemma first_seen_NoDup ks : NoDup (first_seen ks).
Proof.
  induction ks as [|k ks IH]; cbn; constructor; [rewrite list_elem_of_filter; tauto|]. by apply NoDup_filter.
Qed.

Lemma aggregate_one_inv bafs acc b : agg_inv bafs acc -> agg_inv (bafs ++ [b]) (aggregate_one acc b).
Proof.
  destruct acc as [groups order]. intros [Hg Hn Ho]. cbn [fst snd] in *. unfold aggregate_one. split; cbn [fst snd].
  - intros k. unfold group_of. rewrite filter_app, filter_cons, filter_nil. destruct (decide (batchIDKeyOf b = k)) as [<-|Hne].
    + rewrite lookup_insert_eq. cbn [default]. by rewrite Hg.
    + rewrite lookup_insert_ne by done. by rewrite app_nil_r.
  - intros k. rewrite fmap_app, not_elem_of_app, <-Hn. cbn. rewrite lookup_insert_None, list_elem_of_singleton. naive_solver.
  - rewrite fmap_app. cbn. rewrite first_seen_snoc. destruct (groups !! batchIDKeyOf b) eqn:E.
    + rewrite decide_True; [done|]. apply dec_stable. intros Hni%Hn. congruence.
    + rewrite decide_False by (by apply Hn). by rewrite Ho.
Qed.

Lemma aggregate_fold_inv l bafs acc : agg_inv bafs acc -> agg_inv (bafs ++ l) (foldl aggregate_one acc l).
Proof.
  revert bafs acc; induction l as [|b l IH]; intros bafs acc Hi; [by rewrite app_nil_r|]. cbn [foldl].
  rewrite cons_middle, app_assoc. by apply IH, aggregate_one_inv.
Qed.

Lemma aggregateFragments_spec bafs :
  aggregateFragments bafs = (fun k => group_of k bafs) <$> first_seen (batchIDKeyOf <$> bafs).
Proof.
  unfold aggregateFragments. assert (agg_inv [] (∅, [])) as H0.
  { split; [done|intros k; split; [set_solver|done]|done]. }
  apply (aggregate_fold_inv bafs) in H0 as [Hg _ Ho]. destruct (foldl aggregate_one (∅, []) bafs) as [groups order].
  cbn [fst snd app] in *. rewrite Ho. apply fmap_ext_elem. intros k _. apply Hg.
Qed.

(** ** The transition *)
Section Consenter.
Context `{FabricCodecs} `{Codec ControlEventProto} {R : MapRange} `{DBI : BatchAttestationDB D}.

Definition requestsToControlEvents (requests : list bytes) : outcome (list ControlEvent) :=
  omapM ControlEvent_FromBytes requests.

(** The loop that prunes the fragments whose digest is in the database. *)
Fixpoint pruneKnown (db : D) (controlEvents : list ControlEvent) : outcome (list ControlEvent) :=
  match controlEvents with
  | [] => Ok []
  | ce :: rest =>
      skip ← (match ce_BAF ce with Some baf => db_Exists (baf_digest baf) db | None => Ok false end);
      rest' ← pruneKnown db rest;
      Ok (if skip : bool then rest' else ce :: rest')
  end.

Definition SimulateStateTransition (db : D) (prevState : State) (configSeq : ConfigSequence) (requests : list bytes)
    : outcome (State * list (list BAF) * list ConfigRequest) :=
  match requestsToControlEvents requests with
  | Ok controlEvents =>
      filteredControlEvents ← pruneKnown db controlEvents;
      r ← Process configSeq filteredControlEvents prevState;
      let '(newState, fragments, configRequests) := r in
      Ok (newState, aggregateFragments fragments, configRequests)
  | Err e => Panic e
  | Panic e => Panic e
  end.

Definition Index (db : D) (digests : list bytes) : outcome D :=
  if decide (0 < length digests) then db_Put digests (replicate (length digests) 0%N) db else Ok db.

(** ** Facts *)
Definition new_event (ds : gset bytes) (ce : ControlEvent) : Prop :=
  match ce_BAF ce with Some b => baf_digest b ∉ ds | None => True end.
#[export] Instance new_event_dec ds ce : Decision (new_event ds ce).
Proof. unfold new_event. destruct (ce_BAF ce); apply _. Defined.

Lemma pruneKnown_spec db ds ces : db_holds db ds -> pruneKnown db ces = Ok (filter (new_event ds) ces).
Proof.
  intros Hdb. induction ces as [|ce ces IH]; [done|]. cbn [pruneKnown]. rewrite filter_cons.
  destruct (ce_BAF ce) as [b|] eqn:E; [rewrite (db_Exists_spec _ _ _ Hdb)|]; cbn [mbind outcome_bind]; rewrite IH; cbn [mbind outcome_bind].
  - destruct (decide (new_event ds ce)) as [Hn|Hn]; unfold new_event in Hn; rewrite E in Hn; by case_bool_decide.
  - by rewrite decide_True by (unfold new_event; by rewrite E).
Qed.

Lemma Index_spec db ds digests : db_holds db ds -> exists db', Index db digests = Ok db' /\ db_holds db' (list_to_set digests ∪ ds).
Proof.
  intros Hdb. unfold Index. destruct (decide (0 < length digests)) as [Hl|Hl].
  - apply db_Put_spec; [done|by rewrite length_replicate|]. apply Forall_forall. by intros e [-> _]%elem_of_replicate.
  - destruct digests; [|cbn in Hl; lia]. exists db. split; [done|]. cbn. by rewrite (left_id_L ∅ (∪)).
Qed.

Lemma decoded_single requests ces : requestsToControlEvents requests = Ok ces -> Forall single ces.
Proof.
  intros E%omapM_Ok. apply Forall_forall. intros ce Hin. apply list_elem_of_lookup in Hin as [i Hi].
  destruct (Forall2_lookup_r _ _ _ _ _ E Hi) as (req & _ & Hf). by eapply ControlEvent_FromBytes_single.
Qed.

(** No batch is pending with enough votes at the current config sequence. *)
Definition pending_below (cs : ConfigSequence) (s : State) : Prop :=
  forall bk dg, (N.of_nat (vote_count (filter (fun b => baf_configSequence b = cs) (s_Pending s)) bk dg) < s_Threshold s)%N.

(** The digests a decision indexes: those of its batches. *)
Definition digests_of (attestations : list (list BAF)) : list bytes := omap (fun ba => baf_digest <$> head ba) attestations.

Lemma vote_count_app p1 p2 bk dg : vote_count (p1 ++ p2) bk dg = vote_count p1 bk dg + vote_count p2 bk dg.
Proof. unfold vote_count. rewrite filter_app. apply length_app. Qed.

Lemma vote_count_zero p bk dg : (forall b, b ∈ p -> baf_digest b <> dg) -> vote_count p bk dg = 0.
Proof.
  unfold vote_count. intros Hd. rewrite filter_none; [done|]. apply Forall_forall. intros b Hb [_ Hdg]. by apply (Hd b).
Qed.

(** A round extracts only digests that are new. *)
Lemma extracted_new cs ces s s' ex rq ds b :
  state_inv s -> Forall single ces -> pending_below cs s -> Forall (new_event ds) ces ->
  Process cs ces s = Ok (s', ex, rq) -> b ∈ ex -> baf_digest b ∉ ds.
Proof.
  intros Hinv Hs Hp Hn E Hb Hds.
  destruct (Process_spec cs ces s (si_ready s Hinv) Hs) as (new & rot & P & hs & w & s2 & ex2 & rq2 & E2 & He).
  assert (ex2 = ex) as -> by congruence. rewrite (re_extracted _ _ _ _ _ _ _ _ _ _ _ He) in Hb.
  apply list_elem_of_filter in Hb as [Ha _]. unfold attested, round_pending in Ha. rewrite vote_count_app in Ha.
  rewrite (vote_count_zero (accepted_bafs _ _ _)) in Ha.
  - specialize (Hp (batchKeyOf b) (baf_digest b)). lia.
  - intros b' Hb' Edg. unfold accepted_bafs in Hb'. apply list_elem_of_filter in Hb' as [_ (ce & [_ Hce]%list_elem_of_filter & Hbaf)%list_elem_of_omap].
    rewrite Forall_forall in Hn. specialize (Hn ce Hce). unfold new_event in Hn. rewrite Hbaf in Hn. congruence.
Qed.

Lemma vote_count_filter_le (Q : BAF -> Prop) `{!forall b, Decision (Q b)} p bk dg : vote_count (filter Q p) bk dg <= vote_count p bk dg.
Proof.
  unfold vote_count. induction p as [|b p IH]; [done|]. rewrite !filter_cons.
  repeat case_decide; rewrite ?filter_cons; repeat case_decide; cbn; try done; lia.
Qed.

(** After a round no pending batch has enough votes. *)
Lemma Process_pending_below cs ces s s' ex rq cs' :
  state_inv s -> Forall single ces -> Process cs ces s = Ok (s', ex, rq) -> pending_below cs' s'.
Proof.
  intros Hinv Hs E bk dg.
  destruct (Process_spec cs ces s (si_ready s Hinv) Hs) as (new & rot & P & hs & w & s2 & ex2 & rq2 & E2 & He).
  assert (s2 = s') as -> by congruence.
  rewrite (re_Threshold _ _ _ _ _ _ _ _ _ _ _ He), (re_Pending _ _ _ _ _ _ _ _ _ _ _ He).
  set (pend := round_pending cs ces s). set (kept := filter _ pend).
  apply (N.le_lt_trans _ (N.of_nat (vote_count kept bk dg))); [apply N_of_nat_le, vote_count_filter_le|].
  destruct (decide (s_Threshold s <= N.of_nat (vote_count kept bk dg))%N) as [Hge|]; [exfalso|lia].
  pose proof (round_ready_threshold _ (si_ready _ Hinv)) as Ht.
  assert (exists b, b ∈ kept /\ batchKeyOf b = bk /\ baf_digest b = dg) as (b & Hb & <- & <-).
  { unfold vote_count in Hge. destruct (filter _ kept) as [|b l] eqn:Ef; [cbn in Hge; lia|].
    exists b. assert (b ∈ b :: l) as Hin by (by left). rewrite <-Ef in Hin. apply list_elem_of_filter in Hin as [[? ?] ?]. done. }
  unfold kept in Hb. apply list_elem_of_filter in Hb as [Hnd Hb]. apply Hnd. unfold decided. rewrite Exists_exists.
  exists b. split; [done|]. split; [done|]. unfold attested. etransitivity; [exact Hge|]. apply N_of_nat_le, vote_count_filter_le.
Qed.

(** ** Decisions one after the other *)
Record node := mkNode { n_cs : ConfigSequence; n_state : State; n_db : D }.

(** One decision: the transition of its requests, the config applied if there is one, the digests indexed; [ctx] is the
    header of the last block, which the proposer records in the state. *)
Inductive decision `{SharedConfigReader} (n : node) : list bytes -> list (list BAF) -> node -> Prop :=
  | decision_data requests s1 atts ctx db' :
      SimulateStateTransition (n_db n) (n_state n) (n_cs n) requests = Ok (s1, atts, []) ->
      Index (n_db n) (digests_of atts) = Ok db' ->
      decision n requests atts (mkNode (n_cs n) (with_AppContext ctx s1) db')
  | decision_config requests s1 atts cr crs s2 ctx db' :
      SimulateStateTransition (n_db n) (n_state n) (n_cs n) requests = Ok (s1, atts, cr :: crs) ->
      ApplyConfigToState s1 cr = Ok s2 ->
      Index (n_db n) (digests_of atts) = Ok db' ->
      decision n requests atts (mkNode (u64_incr (n_cs n)) (with_AppContext ctx s2) db').

Record node_inv (n : node) (ds : gset bytes) : Prop := {
  ni_state : state_inv (n_state n);
  ni_db : db_holds (n_db n) ds;
  ni_pending : pending_below (n_cs n) (n_state n)
}.

(** The config that a transition applies, if it can be read, has between one party and as many as there are identifiers.
    Nothing is asked of the configs that are not applied or that the reader refuses. *)
Definition config_in_range `{SharedConfigReader} (db : D) (s : State) (cs : ConfigSequence) (requests : list bytes) : Prop :=
  forall s1 atts cr crs ps, SimulateStateTransition db s cs requests = Ok (s1, atts, cr :: crs) -> shared_parties cr = Ok ps ->
    (0 < N.of_nat (length ps) <= u16_max)%N.

(** What the environment must provide for a decision: no term at its maximum, no duplicate request (the pool rejects
    them by ID), and a party list of a legal size in the config that it applies. *)
Definition admissible `{SharedConfigReader} (n : node) (requests : list bytes) : Prop :=
  terms_below (n_state n) /\
  (forall ces, requestsToControlEvents requests = Ok ces -> distinct_attestations ces) /\
  (forall s1 atts rqs, SimulateStateTransition (n_db n) (n_state n) (n_cs n) requests = Ok (s1, atts, rqs) -> terms_below s1) /\
  config_in_range (n_db n) (n_state n) (n_cs n) requests.

Lemma Simulate_inv n ds requests s1 atts rqs :
  node_inv n ds -> SimulateStateTransition (n_db n) (n_state n) (n_cs n) requests = Ok (s1, atts, rqs) ->
  exists ces ex, requestsToControlEvents requests = Ok ces /\ Forall single (filter (new_event ds) ces) /\
    Process (n_cs n) (filter (new_event ds) ces) (n_state n) = Ok (s1, ex, rqs) /\ atts = aggregateFragments ex.
Proof.
  intros [Hi Hdb Hp] E. unfold SimulateStateTransition in E.
  destruct (requestsToControlEvents requests) as [ces| |] eqn:Ec; [|done..].
  rewrite (pruneKnown_spec _ ds) in E by done. cbn [mbind outcome_bind] in E.
  apply bind_Ok_inv in E as ([[s2 ex] rq] & Ep & E). exists ces, ex.
  assert (s2 = s1 /\ aggregateFragments ex = atts /\ rq = rqs) as (-> & <- & ->) by (repeat split; congruence).
  split; [done|split; [|done]]. apply decoded_single in Ec. rewrite Forall_forall in Ec |- *.
  intros ce [_ Hce]%list_elem_of_filter. auto.
Qed.

Lemma digests_of_aggregate ex d : d ∈ digests_of (aggregateFragments ex) <-> exists b, b ∈ ex /\ baf_digest b = d.
Proof.
  rewrite aggregateFragments_spec. unfold digests_of. rewrite list_elem_of_omap. split.
  - intros (ba & (k & -> & _)%list_elem_of_fmap & E). unfold group_of in E. destruct (filter _ ex) as [|b l] eqn:Ef; [done|].
    cbn in E. exists b. split; [|congruence]. assert (b ∈ b :: l) as Hb by (by left). rewrite <-Ef in Hb. by apply list_elem_of_filter in Hb as [_ ?].
  - intros (b & Hb & <-). exists (group_of (batchIDKeyOf b) ex). split.
    + apply list_elem_of_fmap. exists (batchIDKeyOf b). split; [done|]. rewrite elem_of_first_seen. by apply list_elem_of_fmap_2.
    + unfold group_of. destruct (filter _ ex) as [|b' l] eqn:Ef.
      * exfalso. assert (b ∈ @nil BAF) as Hn; [|by apply not_elem_of_nil in Hn]. rewrite <-Ef. by apply list_elem_of_filter.
      * cbn. assert (b' ∈ b' :: l) as Hb' by (by left). rewrite <-Ef in Hb'. apply list_elem_of_filter in Hb' as [E _].
        unfold batchIDKeyOf in E. congruence.
Qed.

Lemma state_inv_AppContext ctx s : state_inv s -> state_inv (with_AppContext ctx s).
Proof. intros [[? ? ? ? ?] ? ? ? ?]. by split; [split|..]. Qed.

Lemma distinct_filter ds ces : distinct_attestations ces -> distinct_attestations (filter (new_event ds) ces).
Proof. unfold distinct_attestations. apply omap_filter_nodup. Qed.

(** The invariant of a node is kept by a decision, whose digests were not stored before and are stored after. *)
Lemma decision_inv `{SharedConfigReader} n ds requests atts n' :
  node_inv n ds -> admissible n requests -> decision n requests atts n' ->
  node_inv n' (list_to_set (digests_of atts) ∪ ds) /\ (list_to_set (digests_of atts) : gset bytes) ## ds.
Proof.
  intros Hni (Hb & Hd & Hb1 & Hcfg) Hdec. pose proof Hni as [Hi Hdb Hp].
  assert (forall s1 rqs, SimulateStateTransition (n_db n) (n_state n) (n_cs n) requests = Ok (s1, atts, rqs) ->
    state_inv s1 /\ (forall cs, pending_below cs s1) /\ Forall (fun b => baf_configSequence b = n_cs n) (s_Pending s1) /\
    (list_to_set (digests_of atts) : gset bytes) ## ds) as Hstep.
  { intros s1 rqs E. destruct (Simulate_inv _ _ _ _ _ _ Hni E) as (ces & ex & Ec & Hs & Ep & ->).
    pose proof (distinct_filter ds ces (Hd _ Ec)) as Hd'.
    destruct (Process_inv (n_cs n) _ _ Hi Hb Hs Hd') as (new & rot & P & hs & w & s2 & ex2 & rq2 & E2 & He & Hi2).
    assert (s2 = s1) as -> by congruence. split; [done|split; [|split]].
    - intros cs. eapply Process_pending_below; [exact Hi|exact Hs|exact Ep].
    - apply Forall_forall. intros b Hbp. rewrite (re_Pending _ _ _ _ _ _ _ _ _ _ _ He) in Hbp.
      apply list_elem_of_filter in Hbp as [_ Hbp]. by apply round_pending_origin in Hbp as [? _].
    - apply elem_of_disjoint. intros d (b & Hb' & <-)%elem_of_list_to_set%digests_of_aggregate Hds.
      eapply extracted_new; [exact Hi|exact Hs|exact Hp| |exact Ep|exact Hb'|exact Hds].
      apply Forall_forall. by intros ce [? _]%list_elem_of_filter. }
  assert (forall db', Index (n_db n) (digests_of atts) = Ok db' -> db_holds db' (list_to_set (digests_of atts) ∪ ds)) as Hidx.
  { intros db' E. destruct (Index_spec (n_db n) ds (digests_of atts) Hdb) as (db2 & E2 & Hh). by assert (db2 = db') as -> by congruence. }
  destruct Hdec as [requests s1 atts ctx db' E Eidx|requests s1 atts cr crs s2 ctx db' E Ea Eidx];
    destruct (Hstep _ _ E) as (Hi1 & Hpb & Hcs & Hdis).
  - split; [|done]. split; [by apply state_inv_AppContext|auto|apply Hpb].
  - split; [|done]. destruct (ApplyConfigToState_reads _ _ _ Ea) as [ps Hps]. pose proof (Hcfg _ _ _ _ _ E Hps) as Hlen. split; cbn [n_state n_db n_cs].
    + apply state_inv_AppContext. eapply (ApplyConfigToState_inv s1 cr s2 ps); [exact Hps|exact Hlen|exact Hi1|exact (Hb1 _ _ _ E)|exact Ea].
    + auto.
    + assert (s_Pending s2 = s_Pending s1) as Epend.
      { unfold ApplyConfigToState in Ea. rewrite Hps in Ea. cbn [mbind outcome_bind] in Ea. destruct (ComputeFTQ _) as [[f T] Q].
        apply Ok_inj in Ea. subst s2. by case_decide. }
      pose proof (ApplyConfigToState_inv s1 cr s2 ps Hps Hlen Hi1 (Hb1 _ _ _ E) Ea) as Hi2.
      intros bk dg. cbn [s_Pending s_Threshold with_AppContext]. rewrite Epend, filter_none.
      * cbn. apply round_ready_threshold, Hi2.
      * rewrite Forall_forall in Hcs |- *. intros b Hbp. rewrite (Hcs b Hbp). intros E'. symmetry in E'. by apply u64_incr_ne in E'.
Qed.

(** A run of decisions, with the attestations each one returned, whose digests it indexed. *)
Inductive run `{SharedConfigReader} : node -> list (list (list BAF)) -> node -> Prop :=
  | run_nil n : run n [] n
  | run_snoc n hist n1 requests atts n2 :
      run n hist n1 -> admissible n1 requests -> decision n1 requests atts n2 ->
      run n (hist ++ [atts]) n2.

Lemma run_inv `{SharedConfigReader} n ds hist n' :
  node_inv n ds -> run n hist n' -> node_inv n' (list_to_set (concat (digests_of <$> hist)) ∪ ds).
Proof.
  intros Hni. induction 1 as [n|n hist n1 requests atts n2 Hrun IH Hadm Hdec].
  - cbn. by rewrite (left_id_L ∅ (∪)).
  - destruct (decision_inv _ _ _ _ _ (IH Hni) Hadm Hdec) as [Hni2 _]. rewrite fmap_app, concat_app, list_to_set_app_L. cbn.
    rewrite app_nil_r. by rewrite (comm_L (∪) (list_to_set (concat (digests_of <$> hist)))), <-(assoc_L (∪)).
Qed.

End Consenter.
