(* ===== verification/ConsenterThms.v ===== *)
(** * Properties of the consenter

    The grouping of attestations into batches, and the sequences of decisions of a node. *)
From S2P Require Import Prelude Types Events State StateFacts StateProps Round Badb Consenter Sample RoundThms.
From Stdlib Require Import NArith Lia.
Import Quorum.

Lemma Permutation_eq {A} (l k : list A) : l = k -> l ≡ₚ k.
Proof. by intros ->. Qed.

Lemma concat_groups (ks : list (ShardID * PartyID * BatchSequence * bytes)) (l : list BAF) :
  NoDup ks -> Forall (fun b => batchIDKeyOf b ∈ ks) l -> concat ((fun k => group_of k l) <$> ks) ≡ₚ l.
Proof.
  intros Hnd. revert l; induction Hnd as [|k ks Hni Hnd IH]; intros l Hall.
  - destruct l as [|b l]; [done|]. apply Forall_cons in Hall as [Hb _]. by apply not_elem_of_nil in Hb.
  - cbn. transitivity (filter (fun b => batchIDKeyOf b = k) l ++ filter (fun b => ~ batchIDKeyOf b = k) l); [|apply filter_app_complement].
    apply Permutation_app_head.
    rewrite <-(IH (filter (fun b => ~ batchIDKeyOf b = k) l)).
    + apply Permutation_eq. f_equal. apply fmap_ext_elem. intros k' Hk'. unfold group_of. rewrite list_filter_filter.
      apply filter_ext_elem. intros b _. split; [intros ->; split; [done|]; intros ->; done|by intros [? _]].
    + rewrite Forall_forall in Hall |- *. intros b [Hb Hin]%list_elem_of_filter.
      apply Hall in Hin. by apply elem_of_cons in Hin as [?|?].
Qed.

(** grouping is a partition by batch. Every fragment is in exactly one group, each group is non-empty and holds
    all fragments of one batch (shard, primary, sequence, digest) in their order, different groups are different
    batches, and the groups come in the order in which their batches first appear. *)
Theorem aggregateFragments_partition bafs :
  exists keys, aggregateFragments bafs = (fun k => group_of k bafs) <$> keys /\ NoDup keys /\
    keys = first_seen (batchIDKeyOf <$> bafs) /\
    concat (aggregateFragments bafs) ≡ₚ bafs /\ Forall (fun g => g <> []) (aggregateFragments bafs).
Proof.
  exists (first_seen (batchIDKeyOf <$> bafs)). rewrite aggregateFragments_spec.
  split; [done|split; [apply first_seen_NoDup|split; [done|split]]].
  - apply concat_groups; [apply first_seen_NoDup|]. apply Forall_forall. intros b Hb. rewrite elem_of_first_seen. by apply list_elem_of_fmap_2.
  - apply Forall_forall. intros g (k & -> & Hk)%list_elem_of_fmap. rewrite elem_of_first_seen in Hk.
    apply list_elem_of_fmap in Hk as (b & -> & Hb). unfold group_of. intros Hnil.
    assert (b ∈ @nil BAF) as Hn; [rewrite <-Hnil; by apply list_elem_of_filter|]. by apply not_elem_of_nil in Hn.
Qed.

Lemma group_batchKey k b bafs : b ∈ group_of k bafs -> batchIDKeyOf b = k /\ b ∈ bafs.
Proof. unfold group_of. by intros [? ?]%list_elem_of_filter. Qed.

(** The batches of a list of attestation groups. *)
Definition batchIDs (atts : list (list BAF)) : list (ShardID * PartyID * BatchSequence * bytes) :=
  omap (fun ba => batchIDKeyOf <$> head ba) atts.

Lemma batchIDs_groups ex ks : (forall k, k ∈ ks -> k ∈ batchIDKeyOf <$> ex) -> batchIDs ((fun k => group_of k ex) <$> ks) = ks.
Proof.
  induction ks as [|k ks IH]; intros Hsub; [done|]. cbn. specialize (IH (fun k' Hk' => Hsub k' (list_elem_of_further _ _ _ Hk'))).
  destruct (group_of k ex) as [|b g] eqn:Eg.
  - exfalso. assert (k ∈ batchIDKeyOf <$> ex) as (b & -> & Hbx)%list_elem_of_fmap by (apply Hsub; by left).
    assert (b ∈ @nil BAF) as Hn; [rewrite <-Eg; by apply list_elem_of_filter|]. by apply not_elem_of_nil in Hn.
  - cbn. unfold batchIDs in IH. rewrite IH. f_equal. apply (group_batchKey k b ex). rewrite Eg. by left.
Qed.

Lemma batchIDs_aggregate ex : batchIDs (aggregateFragments ex) = first_seen (batchIDKeyOf <$> ex).
Proof. rewrite aggregateFragments_spec. apply batchIDs_groups. intros k. by rewrite elem_of_first_seen. Qed.

Section Decisions.
Context `{FabricCodecs} `{Codec ControlEventProto} {R : MapRange} `{DBI : BatchAttestationDB D} `{SharedConfigReader}.

(** what a decision orders. Each group of attestations that a transition returns is the votes of at least [f+1]
    distinct signers for one batch at the current config sequence, its digest was not ordered before, and all
    groups are of different batches. *)
Theorem attestations_sound (n : node) ds requests s1 atts rqs f t q :
  node_inv n ds -> admissible n requests -> ComputeFTQ (s_N (n_state n)) = (f, t, q) ->
  SimulateStateTransition (n_db n) (n_state n) (n_cs n) requests = Ok (s1, atts, rqs) ->
  NoDup (batchIDs atts) /\
  Forall (fun ba => exists b, head ba = Some b /\ baf_digest b ∉ ds /\
    Forall (fun v => batchIDKeyOf v = batchIDKeyOf b /\ baf_configSequence v = n_cs n) ba /\
    NoDup (baf_signer <$> ba) /\ (f + 1 <= N.of_nat (length ba))%N) atts.
Proof.
  intros Hni (Hb & Hd & _) Hftq E. destruct (Simulate_inv _ _ _ _ _ _ Hni E) as (ces & ex & Ec & Hs & Ep & ->).
  pose proof Hni as [Hi Hdb Hp]. pose proof (distinct_filter ds ces (Hd _ Ec)) as Hd'.
  set (fces := filter (new_event ds) ces) in *.
  destruct (Process_effect _ _ _ _ _ _ Hi Hs Ep) as (new & rot & P & hs & w & He).
  pose proof (re_extracted _ _ _ _ _ _ _ _ _ _ _ He) as Hex. set (pend := round_pending (n_cs n) fces (n_state n)) in *.
  pose proof (round_pending_keys (n_cs n) fces (n_state n) (si_pending_keys _ Hi) Hd') as Hnd. fold pend in Hnd.
  destruct (rr_FTQ _ (si_ready _ Hi)) as [f' Hf']. assert (f' = f) as -> by congruence.
  destruct (ComputeFTQ_bounds _ _ _ _ (rr_N _ (si_ready _ Hi)) Hf') as (_ & Ht & _).
  assert (forall b, b ∈ ex -> group_of (batchIDKeyOf b) ex = filter (fun v => batchKeyOf v = batchKeyOf b /\ baf_digest v = baf_digest b) pend) as Hgrp.
  { intros b Hbx. unfold group_of. rewrite Hex in Hbx |- *. apply list_elem_of_filter in Hbx as [Ha _].
    rewrite list_filter_filter. apply filter_ext_elem. intros v _. unfold batchIDKeyOf, batchKeyOf in *. split.
    - intros [E1 _]. split; congruence.
    - intros [E1 E2]. assert (baf_shard v = baf_shard b /\ baf_primary v = baf_primary b /\ baf_seq v = baf_seq b) as (-> & -> & ->) by (repeat split; congruence).
      by rewrite E2. }
  rewrite aggregateFragments_spec. split.
  - rewrite <-aggregateFragments_spec, batchIDs_aggregate. apply first_seen_NoDup.
  - apply Forall_forall. intros g (k & -> & Hk)%list_elem_of_fmap. rewrite elem_of_first_seen in Hk.
    apply list_elem_of_fmap in Hk as (b & -> & Hbx). specialize (Hgrp b Hbx). rewrite Hgrp.
    assert (attested (s_Threshold (n_state n)) pend (batchKeyOf b) (baf_digest b)) as Ha.
    { rewrite Hex in Hbx. by apply list_elem_of_filter in Hbx as [? _]. }
    destruct (filter (fun v => batchKeyOf v = batchKeyOf b /\ baf_digest v = baf_digest b) pend) as [|b0 g] eqn:Eg.
    { exfalso. unfold attested, vote_count in Ha. rewrite Eg in Ha. cbn in Ha. lia. }
    exists b0. assert (b0 ∈ group_of (batchIDKeyOf b) ex) as Hb0 by (rewrite Hgrp; left). rewrite <-Eg. rewrite <-Eg in Hgrp.
    apply group_batchKey in Hb0 as [Ek0 Hb0]. split; [by rewrite Eg|]. split; [|split; [|split]].
    + eapply extracted_new; [exact Hi|exact Hs|exact Hp| |exact Ep|exact Hb0]. apply Forall_forall. by intros ce [? _]%list_elem_of_filter.
    + apply Forall_forall. intros v Hv. rewrite <-Hgrp in Hv. apply group_batchKey in Hv as [Ekv Hv]. split; [congruence|].
      rewrite Hex in Hv. apply list_elem_of_filter in Hv as [_ Hv]. by apply round_pending_origin in Hv as [? _].
    + by apply voters_distinct.
    + rewrite <-Ht. exact Ha.
Qed.

Lemma run_disjoint (n : node) ds hist n' :
  node_inv n ds -> run n hist n' ->
  (forall i j hi hj d, i < j -> hist !! i = Some hi -> hist !! j = Some hj -> d ∈ digests_of hi -> d ∉ digests_of hj) /\
  (forall i hi d, hist !! i = Some hi -> d ∈ digests_of hi -> d ∉ ds).
Proof.
  intros Hni. induction 1 as [n|n hist n1 requests atts n2 Hrun IH Hadm Hdec]; [split; intros *; by rewrite lookup_nil|].
  destruct (IH Hni) as [IH1 IH2]. clear IH. pose proof (run_inv _ _ _ _ Hni Hrun) as Hn1.
  destruct (decision_inv _ _ _ _ _ Hn1 Hadm Hdec) as [_ Hdis0].
  assert (forall d, d ∈ digests_of atts -> d ∈ (list_to_set (concat (digests_of <$> hist)) ∪ ds : gset bytes) -> False) as Hdis by set_solver.
  assert (forall i hi, (hist ++ [atts]) !! i = Some hi -> hist !! i = Some hi \/ (i = length hist /\ hi = atts)) as Hlk.
  { intros i hi [Hl|[Hge Hl]]%lookup_app_Some; [by left|right]. apply list_lookup_singleton_Some in Hl as [? <-]. split; [lia|done]. }
  split.
  - intros i j hi hj d Hij Hhi Hhj Hdi Hdj. apply Hlk in Hhi as [Hhi|[Hi ->]], Hhj as [Hhj|[Hj ->]].
    + by eapply (IH1 i j).
    + eapply Hdis; [exact Hdj|]. apply elem_of_union. left. apply elem_of_list_to_set, elem_of_concat. exists (digests_of hi). split; [done|].
      apply list_elem_of_fmap_2. by eapply list_elem_of_lookup_2.
    + apply lookup_lt_Some in Hhj. lia.
    + lia.
  - intros i hi d Hhi Hdi Hds. apply Hlk in Hhi as [Hhi|[_ ->]]; [by eapply IH2|]. eapply Hdis; [exact Hdi|]. set_solver.
Qed.

(** Within a decision the batches are different. *)
Lemma transition_batches_distinct (db : D) s cs requests s1 atts rqs :
  SimulateStateTransition db s cs requests = Ok (s1, atts, rqs) -> NoDup (batchIDs atts).
Proof.
  unfold SimulateStateTransition. destruct (requestsToControlEvents requests) as [ces| |]; [|done..].
  intros E. apply bind_Ok_inv in E as (ces' & _ & E). apply bind_Ok_inv in E as ([[s2 ex] rq] & _ & E).
  assert (aggregateFragments ex = atts) as <- by congruence. rewrite batchIDs_aggregate. apply first_seen_NoDup.
Qed.
Lemma run_batches_distinct (n : node) hist n' : run n hist n' -> Forall (fun atts => NoDup (batchIDs atts)) hist.
Proof.
  induction 1 as [n|n hist n1 requests atts n2 _ IH _ Hdec]; [constructor|]. apply Forall_app_2; [done|]. constructor; [|constructor].
  destruct Hdec; by eapply transition_batches_distinct.
Qed.

(** C7: no batch is ordered again. Along any sequence of decisions from a node that satisfies the invariant, also
    across reconfigurations, the invariant holds at the end, no batch (shard, primary, sequence, digest) is twice in one
    decision, the digests of one decision are disjoint from those of every other and from those ordered before, and
    the database holds all of them. Two different batches of one decision may have the same digest
    ([same_digest_in_one_decision]). *)
Theorem ordered_once (n : node) ds hist n' :
  node_inv n ds -> run n hist n' ->
  node_inv n' (list_to_set (concat (digests_of <$> hist)) ∪ ds) /\
  Forall (fun atts => NoDup (batchIDs atts)) hist /\
  (forall i j hi hj d, i < j -> hist !! i = Some hi -> hist !! j = Some hj -> d ∈ digests_of hi -> d ∉ digests_of hj) /\
  (forall i hi d, hist !! i = Some hi -> d ∈ digests_of hi -> d ∉ ds).
Proof. intros Hni Hrun. split; [by eapply run_inv|]. split; [by eapply run_batches_distinct|by eapply run_disjoint]. Qed.

End Decisions.

(** ** The theorems at a sample node *)
Section Witnesses.
#[local] Existing Instance sample_fabric.
#[local] Existing Instance event_codec.
#[local] Existing Instance range_canonical.
#[local] Existing Instance signing_parties.

Definition encode_event (ce : ControlEvent) : bytes := match ControlEvent_Bytes ce with Ok bs => bs | _ => [] end.
Definition sample_requests : list bytes := encode_event <$> sample_events.

(** A node whose database is empty, and the one after the sample decision. *)
Definition node0 : node (D := Badb.t) := mkNode 3 sample_state (Badb.mk true ∅).
Definition node1 : node (D := Badb.t) :=
  mkNode 3 (with_AppContext (Some []) sample_next) (Badb.mk true (Badb.put_one ∅ (dgA, 0%N))).

Lemma sample_decoded : requestsToControlEvents sample_requests = Ok sample_events.
Proof. vm_compute. reflexivity. Qed.

Lemma sample_transition :
  SimulateStateTransition (n_db node0) sample_state 3 sample_requests = Ok (sample_next, [sample_extracted], []).
Proof. vm_compute. reflexivity. Qed.

Lemma node0_inv : node_inv node0 ∅.
Proof.
  split; [apply state_inv_sample| |].
  - split; [done|]. rewrite gset_to_gmap_empty. apply Badb.represents_empty.
  - intros bk dg. unfold vote_count. cbn [s_Pending sample_state n_state node0 n_cs].
    apply (N.le_lt_trans _ 1); [|done]. etransitivity; [apply N_of_nat_le, filter_length_le|]. done.
Qed.

Lemma node0_admissible : admissible node0 sample_requests.
Proof.
  split; [apply sample_terms_below|split; [|split]].
  - intros ces E. rewrite sample_decoded in E. apply Ok_inj in E as <-. apply sample_distinct.
  - intros s1 atts rqs E. change (n_state node0) with sample_state in E. change (n_cs node0) with 3%N in E.
    rewrite sample_transition in E. assert (s1 = sample_next) as -> by congruence. repeat constructor.
  - intros s1 atts cr crs ps E. change (n_state node0) with sample_state in E. change (n_cs node0) with 3%N in E. by rewrite sample_transition in E.
Qed.

(** The second decision applies a config with five parties, next to one of another sequence that the reader would refuse. *)
Definition config_envelope (seq : N) (parties : bytes) : ConfigRequest :=
  mkConfigRequest (mkEnvelope (match enc (mkConfigEnvelope (Some seq) None) with
    | Some data => match enc (mkPayload (enc (mkChannelHeader 1 [])) data) with Some bs => bs | None => [] end
    | None => [] end) parties).
Definition config_events : list ControlEvent :=
  [ConfigRequestEvent (config_envelope 9 []); ConfigRequestEvent (config_envelope 4 [x01; x02; x03; x04; x05]); BAFEvent (fragment 3 dgA); BAFEvent (fragment 3 dgB)].
Definition config_requests : list bytes := encode_event <$> config_events.
Definition config_state : State :=
  match SimulateStateTransition (n_db node1) (n_state node1) 3 config_requests with Ok (s, _, _) => s | _ => sample_state end.
Definition config_applied : State := match ApplyConfigToState config_state (config_envelope 4 [x01; x02; x03; x04; x05]) with Ok s => s | _ => sample_state end.
Definition node2 : node (D := Badb.t) := mkNode 4 (with_AppContext (Some []) config_applied) (n_db node1).
Lemma config_decoded : requestsToControlEvents config_requests = Ok config_events.
Proof. vm_compute. reflexivity. Qed.
Lemma config_transition :
  SimulateStateTransition (n_db node1) (n_state node1) (n_cs node1) config_requests = Ok (config_state, [], [config_envelope 4 [x01; x02; x03; x04; x05]]).
Proof. vm_compute. reflexivity. Qed.
Lemma node1_admissible : admissible node1 config_requests.
Proof.
  split; [repeat constructor|split; [|split]].
  - intros ces E. rewrite config_decoded in E. apply Ok_inj in E as <-. apply (bool_decide_unpack _). vm_compute. reflexivity.
  - intros s1 atts rqs E. rewrite config_transition in E. apply Ok_inj, pair_equal_spec in E as [[E _]%pair_equal_spec _]. rewrite <-E. apply (bool_decide_unpack _). vm_compute. reflexivity.
  - intros s1 atts cr crs ps E Hps. rewrite config_transition in E. apply Ok_inj, pair_equal_spec in E as [_ E]. apply (f_equal head) in E. apply (inj Some) in E. rewrite <-E in Hps.
    apply Ok_inj in Hps as <-. vm_compute. split; [done|discriminate].
Qed.
Lemma node0_run : run node0 [[sample_extracted]; []] node2.
Proof.
  apply (run_snoc node0 [[sample_extracted]] node1 config_requests [] node2); [|apply node1_admissible|].
  - apply (run_snoc node0 [] node0 sample_requests [sample_extracted] node1); [constructor|apply node0_admissible|].
    apply decision_data; [apply sample_transition|]. vm_compute. reflexivity.
  - apply (decision_config node1 config_requests config_state [] (config_envelope 4 [x01; x02; x03; x04; x05]) [] config_applied (Some [])); [apply config_transition|vm_compute; reflexivity..].
Qed.

Lemma attestations_sound_witness :
  NoDup (batchIDs [sample_extracted]) /\
  Forall (fun ba => exists b, head ba = Some b /\ baf_digest b ∉ (∅ : gset bytes) /\
    Forall (fun v => batchIDKeyOf v = batchIDKeyOf b /\ baf_configSequence v = 3%N) ba /\
    NoDup (baf_signer <$> ba) /\ (1 + 1 <= N.of_nat (length ba))%N) [sample_extracted].
Proof.
  apply (attestations_sound node0 ∅ sample_requests sample_next [sample_extracted] [] 1 2 3);
    [apply node0_inv|apply node0_admissible|reflexivity|apply sample_transition].
Defined.

Lemma ordered_once_witness :
  node_inv node2 (list_to_set (concat (digests_of <$> [[sample_extracted]; []])) ∪ ∅) /\
  Forall (fun atts => NoDup (batchIDs atts)) [[sample_extracted]; []] /\
  (forall i j hi hj d, i < j -> [[sample_extracted]; []] !! i = Some hi -> [[sample_extracted]; []] !! j = Some hj -> d ∈ digests_of hi -> d ∉ digests_of hj) /\
  (forall i hi d, [[sample_extracted]; []] !! i = Some hi -> d ∈ digests_of hi -> d ∉ (∅ : gset bytes)).
Proof. apply (ordered_once node0 ∅ [[sample_extracted]; []] node2); [apply node0_inv|apply node0_run]. Defined.

(** Two batches of a primary with the same content, attested in one round, are both ordered. *)
Definition fragment_at (seq signer : N) : BAF := mkBAF 1 1 seq dgB signer (Some [x01]) None 3 5.
Example same_digest_in_one_decision :
  let requests := encode_event <$> [BAFEvent (fragment_at 8 1); BAFEvent (fragment_at 8 2); BAFEvent (fragment_at 9 1); BAFEvent (fragment_at 9 2)] in
  (fun r => digests_of r.1.2) <$> (match SimulateStateTransition (n_db node0) sample_state 3 requests with Ok r => Some r | _ => None end) = Some [dgB; dgB].
Proof. vm_compute. reflexivity. Qed.

End Witnesses.
