(* ===== verification/Blocks.v ===== *)
(** * Common blocks

    Fabric blocks and the helpers of protoutil the orderer uses on them, the assembler's block metadata
    ([src/node/ledger/assembler_ledger_util.go]), and the creation and verification of the data and config blocks of a
    decision ([src/node/consensus/utils.go]). Pointers that the code dereferences are options; a nil dereference
    and an index out of range are panics. *)
From S2P Require Import Prelude Types Events State.
From Stdlib Require Import NArith Lia.

Record BlockHeader := mkBlockHeader { bh_Number : N; bh_PreviousHash : bytes; bh_DataHash : bytes }.
#[export] Instance BlockHeader_eq_dec : EqDecision BlockHeader.
Proof. solve_decision. Defined.

(** [b_Data] and [b_Metadata] are the inner slices, [None] for a nil message; an empty inner slice is nil. *)
Record Block := mkBlock {
  b_Header : option BlockHeader;
  b_Data : option (list bytes);
  b_Metadata : option (list bytes)
}.
#[export] Instance Block_eq_dec : EqDecision Block.
Proof. solve_decision. Defined.

Record MetadataSignature := mkMetadataSignature {
  ms_SignatureHeader : bytes; ms_Signature : bytes; ms_IdentifierHeader : bytes }.
Record Metadata := mkMetadata { md_Value : bytes; md_Signatures : list MetadataSignature }.
Record LastConfig := mkLastConfig { lc_Index : N }.
Record IdentifierHeader := mkIdentifierHeader { ih_Identifier : N; ih_Nonce : bytes }.

(** The ASN.1 form of a header, which is hashed. *)
Record asn1Header := mkAsn1Header { a_Number : N; a_PreviousHash : bytes; a_DataHash : bytes }.

Record AssemblerBlockMetadata := mkABM {
  abm_Primary : N; abm_Shard : N; abm_Sequence : N; abm_DecisionNum : N; abm_BatchIndex : N; abm_BatchCount : N;
  abm_TransactionCount : N
}.

Class BlockCodecs := {
  bc_asn1Header :: Codec asn1Header;
  bc_header :: Codec BlockHeader;
  bc_block :: Codec Block;
  bc_metadata :: Codec Metadata;
  bc_lastConfig :: Codec LastConfig;
  bc_identifier :: Codec IdentifierHeader;
  bc_abm :: Codec AssemblerBlockMetadata
}.

Definition BlockMetadataIndex_SIGNATURES : nat := 0.
Definition BlockMetadataIndex_LAST_CONFIG : nat := 1.
Definition BlockMetadataIndex_ORDERER : nat := 3.
(** [len(common.BlockMetadataIndex_name)] *)
Definition metadata_names : nat := 5.
Definition HeaderType_CONFIG : Z := 1.

(** A field access through a pointer. *)
Definition deref {A} (o : option A) : outcome A :=
  match o with Some a => Ok a | None => Panic "invalid memory address or nil pointer dereference" end.

(** The identity of a batch: types.BatchID. *)
Record BatchID := mkBatchID { bid_Shard : ShardID; bid_Primary : PartyID; bid_Seq : BatchSequence; bid_Digest : bytes }.
#[export] Instance BatchID_eq_dec : EqDecision BatchID.
Proof. solve_decision. Defined.
Definition BatchID_of (b : BAF) : BatchID := mkBatchID (baf_shard b) (baf_primary b) (baf_seq b) (baf_digest b).

Definition BatchIDEqual (a b : BatchID) : bool :=
  (bid_Shard a =? bid_Shard b)%N && (bid_Primary a =? bid_Primary b)%N && (bid_Seq a =? bid_Seq b)%N &&
  bool_decide (bid_Digest a = bid_Digest b).

(** A signature of SmartBFT. *)
Record Signature := mkSignature { sig_ID : N; sig_Value : slice; sig_Msg : slice }.
#[export] Instance Signature_eq_dec : EqDecision Signature.
Proof. solve_decision. Defined.

Record OrderingInformation := mkOI {
  oi_CommonBlock : option Block;
  oi_Signatures : list Signature;
  oi_DecisionNum : DecisionNum;
  oi_BatchIndex : N;
  oi_BatchCount : N
}.
#[export] Instance OrderingInformation_eq_dec : EqDecision OrderingInformation.
Proof. solve_decision. Defined.

Section Blocks.
Context `{FabricCodecs} `{BlockCodecs} `{Sha256}.

(** ** protoutil *)
Definition NewBlock (seqNum : N) (previousHash : bytes) : Block :=
  mkBlock (Some (mkBlockHeader seqNum previousHash [])) (Some []) (Some (replicate metadata_names [])).

Definition BlockHeaderBytes (h : BlockHeader) : outcome bytes :=
  marshal_or_panic (mkAsn1Header (bh_Number h) (bh_PreviousHash h) (bh_DataHash h)).
Definition BlockHeaderHash (h : BlockHeader) : outcome bytes := bs ← BlockHeaderBytes h; Ok (sha256 bs).

Definition ComputeBlockDataHash (data : list bytes) : bytes :=
  sha256 (foldl (fun h (d : bytes) => (h ++ be_put 4 (u32 (N.of_nat (length d)))) ++ d) [] data).

Definition GetMetadataFromBlock (block : Block) (index : nat) : outcome Metadata :=
  md ← of_option "no metadata in block" (b_Metadata block);
  fail_if bool_decide (length md <= index) with "no metadata at index" ;;
  raw ← Prelude.index md index;
  wrap_err "error unmarshalling metadata at index" (unmarshal raw).

Definition HasConfigTx (data : list bytes) : bool :=
  match data with
  | [marshaledEnvelope] =>
      match (unmarshal marshaledEnvelope : outcome Envelope) with
      | Ok envelope =>
          match (unmarshal (env_Payload envelope) : outcome Payload) with
          | Ok payload =>
              match pl_Header payload with
              | Some channelHeader =>
                  match (unmarshal channelHeader : outcome ChannelHeader) with
                  | Ok hdr => bool_decide (ch_Type hdr = HeaderType_CONFIG)
                  | _ => false
                  end
              | None => false
              end
          | _ => false
          end
      | _ => false
      end
  | _ => false
  end.

Definition IsConfigBlock (block : Block) : bool :=
  match b_Data block with Some data => HasConfigTx data | None => false end.

(** ** Common config block operations *)
Definition Common_IsConfigBlock (block : option Block) : bool :=
  match block with None => false | Some b => IsConfigBlock b end.

Definition Common_ConfigFromBlock (block : option Block) : outcome ConfigEnvelope :=
  match block with
  | Some (mkBlock (Some h) (Some (txn :: _)) _) =>
      env ← (unmarshal txn : outcome Envelope);
      payload ← (unmarshal (env_Payload env) : outcome Payload);
      if (bh_Number h =? 0)%N then wrap_err "invalid config envelope" (unmarshal (pl_Data payload)) else
      channelHeader ← of_option "nil header in payload" (pl_Header payload);
      chdr ← (unmarshal channelHeader : outcome ChannelHeader);
      fail_if bool_decide (ch_Type chdr <> HeaderType_CONFIG) with "not a config block" ;;
      wrap_err "invalid config envelope" (unmarshal (pl_Data payload))
  | _ => Err "empty block"
  end.

(** ** The assembler's block metadata *)
Definition AssemblerBlockMetadataToBytes (batchID : option BatchID) (orderingInfo : option OrderingInformation)
    (transactionCount : N) : outcome bytes :=
  batchID ← of_option "nil batchID" batchID;
  orderingInfo ← of_option "nil orderingInfo" orderingInfo;
  of_option "failed to marshal" (enc (mkABM (bid_Primary batchID) (bid_Shard batchID) (bid_Seq batchID)
    (oi_DecisionNum orderingInfo) (u32 (oi_BatchIndex orderingInfo)) (u32 (oi_BatchCount orderingInfo)) transactionCount)).

(** A value out of range is reported with [errors.Wrapf(err, ...)] of a nil [err], which is nil: the result is the
    zero values and no error. *)
Definition AssemblerBlockMetadataFromBytes (metadata : slice) : outcome (PartyID * ShardID * BatchSequence * DecisionNum * N * N * N) :=
  metadata ← of_option "nil bytes" metadata;
  fail_if bool_decide (length metadata = 0) with "empty bytes" ;;
  md ← wrap_err "failed to unmarshal assembler block metadata" (unmarshal metadata : outcome AssemblerBlockMetadata);
  if (u16_max <? abm_Shard md)%N then Ok (0, 0, 0, 0, 0, 0, 0)%N else
  if (u16_max <? abm_Primary md)%N then Ok (0, 0, 0, 0, 0, 0, 0)%N else
  Ok (abm_Primary md, abm_Shard md, abm_Sequence md, abm_DecisionNum md, abm_BatchIndex md, abm_BatchCount md,
      abm_TransactionCount md).

Definition metadata_signature (sig : MetadataSignature) : outcome Signature :=
  identifierHeader ← wrap_err "failed to extract signature identifier" (unmarshal (ms_IdentifierHeader sig) : outcome IdentifierHeader);
  Ok (mkSignature (ih_Identifier identifierHeader) (Some (ms_Signature sig)) None).

Definition AssemblerBatchIdOrderingInfoAndTxCountFromBlock (block : option Block)
    : outcome (AvailableBatch.t * OrderingInformation * N) :=
  block ← of_option "nil block" block;
  header ← of_option "nil block header" (b_Header block);
  md ← of_option "missing block metadata" (b_Metadata block);
  fail_if bool_decide (length md = 0) with "missing block metadata" ;;
  fail_if bool_decide (length md < BlockMetadataIndex_ORDERER + 1) with "missing block ORDERER metadata" ;;
  raw ← index md BlockMetadataIndex_ORDERER;
  t ← wrap_err "failed to extract AssemblerBlockMetadata" (AssemblerBlockMetadataFromBytes (Some raw));
  let '(pr, sh, seq, num, bI, bC, tC) := t in
  mdSigs ← wrap_err "failed to extract signatures" (GetMetadataFromBlock block BlockMetadataIndex_SIGNATURES);
  bftSigs ← omapM metadata_signature (md_Signatures mdSigs);
  Ok (AvailableBatch.mk pr sh seq (bh_DataHash header), mkOI (Some block) bftSigs num bI bC, tC).

(** ** The blocks of a decision *)
Definition set_metadata (i : nat) (v : bytes) (block : Block) : outcome Block :=
  md ← deref (b_Metadata block);
  panic_if bool_decide (length md <= i) with "index out of range" ;;
  Ok (mkBlock (b_Header block) (b_Data block) (Some (<[i := v]> md))).

Definition last_config_bytes (lastConfig : N) : outcome bytes :=
  v ← marshal_or_panic (mkLastConfig lastConfig); marshal_or_panic (mkMetadata v []).

Definition ordering (decisionNum : DecisionNum) (batchCount batchIndex : N) : OrderingInformation :=
  mkOI None [] decisionNum batchIndex batchCount.

Definition CreateDataCommonBlock (blockNum : N) (prevHash : bytes) (batchID : BatchID) (txCount : N)
    (decisionNum : DecisionNum) (batchCount batchIndex : N) (lastConfigBlockNum : N) : outcome Block :=
  let block := mkBlock (Some (mkBlockHeader blockNum prevHash (bid_Digest batchID))) (Some []) (b_Metadata (NewBlock blockNum prevHash)) in
  blockMetadata ← wrap_err "Failed to invoke AssemblerBlockMetadataToBytes"
    (AssemblerBlockMetadataToBytes (Some batchID) (Some (ordering decisionNum batchCount batchIndex)) txCount);
  block ← set_metadata BlockMetadataIndex_ORDERER blockMetadata block;
  lc ← last_config_bytes lastConfigBlockNum;
  set_metadata BlockMetadataIndex_LAST_CONFIG lc block.

(** The batch ID of a config transaction: NewSimpleBatch(ShardIDConsensus, 0, 0, nil, 0, nil). *)
Definition config_batch_id : BatchID := mkBatchID ShardIDConsensus 0 0 (BatchedRequests.Digest []).

Definition CreateConfigCommonBlock (blockNum : N) (prevHash : bytes) (txCount : N) (decisionNum : DecisionNum)
    (batchCount batchIndex : N) (configReq : bytes) : outcome Block :=
  let configBlock := mkBlock (Some (mkBlockHeader blockNum prevHash (BatchedRequests.Digest [configReq]))) (Some [configReq])
    (b_Metadata (NewBlock blockNum prevHash)) in
  blockMetadata ← wrap_err "Failed to invoke AssemblerBlockMetadataToBytes"
    (AssemblerBlockMetadataToBytes (Some config_batch_id) (Some (ordering decisionNum batchCount batchIndex)) txCount);
  configBlock ← set_metadata BlockMetadataIndex_ORDERER blockMetadata configBlock;
  lc ← last_config_bytes blockNum;
  set_metadata BlockMetadataIndex_LAST_CONFIG lc configBlock.

Definition VerifyDataCommonBlock (block : Block) (blockNum : N) (prevHash : bytes) (batchID : BatchID) (txCount : N)
    (decisionNum : DecisionNum) (batchCount batchIndex : N) (lastConfigBlockNum : N) : outcome unit :=
  header ← deref (b_Header block);
  fail_if bool_decide (bh_PreviousHash header <> prevHash) with "proposed block header prev hash isn't equal to computed prev hash" ;;
  fail_if bool_decide (bh_DataHash header <> bid_Digest batchID) with "proposed block data hash isn't equal to computed digest" ;;
  fail_if bool_decide (bh_Number header <> blockNum) with "proposed block header number isn't equal to computed number" ;;
  computedBlockMetadata ← or_panic
    (AssemblerBlockMetadataToBytes (Some batchID) (Some (ordering decisionNum batchCount batchIndex)) txCount);
  md ← of_option "proposed block metadata is nil" (b_Metadata block);
  fail_if bool_decide (md = []) with "proposed block metadata is nil" ;;
  raw ← index md BlockMetadataIndex_ORDERER;
  fail_if bool_decide (computedBlockMetadata <> raw) with "proposed block metadata isn't equal to computed metadata" ;;
  rawLastConfig ← wrap_err "failed getting proposed block metadata last config"
    (GetMetadataFromBlock block BlockMetadataIndex_LAST_CONFIG);
  lastConf ← wrap_err "failed unmarshaling proposed block metadata last config" (unmarshal (md_Value rawLastConfig) : outcome LastConfig);
  fail_if negb (lc_Index lastConf =? lastConfigBlockNum)%N with "last config in block metadata points to another block" ;;
  Ok tt.

Definition VerifyConfigCommonBlock (configBlock : Block) (blockNum : N) (prevHash dataHash : bytes) (txCount : N)
    (decisionNum : DecisionNum) (batchCount batchIndex : N) : outcome unit :=
  header ← deref (b_Header configBlock);
  fail_if bool_decide (bh_Number header <> blockNum) with "proposed config block header number isn't equal to computed number" ;;
  fail_if bool_decide (bh_PreviousHash header <> prevHash) with "proposed config block header prev hash isn't equal to computed prev hash" ;;
  data ← of_option "empty config block data" (b_Data configBlock);
  fail_if bool_decide (length data = 0) with "empty config block data" ;;
  fail_if bool_decide (length data <> 1) with "config block does not contain only one tx" ;;
  fail_if bool_decide (bh_DataHash header <> BatchedRequests.Digest data) with "proposed config block data hash isn't equal to computed data digest" ;;
  fail_if bool_decide (bh_DataHash header <> dataHash) with "proposed config block data hash isn't equal to computed data hash" ;;
  computedBlockMetadata ← or_panic
    (AssemblerBlockMetadataToBytes (Some config_batch_id) (Some (ordering decisionNum batchCount batchIndex)) txCount);
  md ← of_option "proposed config block metadata is not set" (b_Metadata configBlock);
  fail_if bool_decide (length md <> metadata_names) with "proposed config block metadata is not set" ;;
  raw ← index md BlockMetadataIndex_ORDERER;
  fail_if bool_decide (computedBlockMetadata <> raw) with "proposed config block metadata isn't equal to computed metadata" ;;
  rawLastConfig ← wrap_err "failed getting proposed config block metadata last config"
    (GetMetadataFromBlock configBlock BlockMetadataIndex_LAST_CONFIG);
  lastConf ← wrap_err "failed unmarshaling proposed config block metadata last config" (unmarshal (md_Value rawLastConfig) : outcome LastConfig);
  fail_if negb (lc_Index lastConf =? blockNum)%N with "last config in block metadata points to another block" ;;
  Ok tt.

End Blocks.
