(* ===== verification/Ledger.v ===== *)
(** * The ledger of a consenter

    [src/node/ledger/consensus_ledger.go] over [src/common/ledger/blockledger/fileledger/impl.go] and the checks of
    [src/common/ledger/blkstorage/blockfile_mgr.go]: blocks are appended in order, each linked to the one before. The
    ledger is the list of its blocks, which the store of block files refines ([BlockFilesThms]). *)
From S2P Require Import Prelude Types Events Blocks.
From Stdlib Require Import NArith Lia.

Section Ledger.
Context `{BlockCodecs} `{Sha256}.

Definition Height (ledger : list Block) : N := N.of_nat (length ledger).

(** CurrentBlockHash of the chain information: empty before the first block. *)
Definition CurrentBlockHash (ledger : list Block) : outcome bytes :=
  match last ledger with
  | None => Ok []
  | Some b => header ← deref (b_Header b); BlockHeaderHash header
  end.

Definition addBlock (ledger : list Block) (block : Block) : outcome (list Block) :=
  header ← deref (b_Header block);
  fail_if negb (bh_Number header =? Height ledger)%N with "unexpected block number" ;;
  currentBlockHash ← CurrentBlockHash ledger;
  fail_if bool_decide (bh_PreviousHash header <> currentBlockHash) with "unexpected Previous block hash" ;;
  Ok (ledger ++ [block]).

Definition Append (ledger : list Block) (block : Block) : outcome (list Block) := or_panic (addBlock ledger block).
Definition WriteBlock (ledger : list Block) (block : Block) : outcome (list Block) := Append ledger block.

Definition RetrieveBlockByNumber (ledger : list Block) (blockNumber : N) : outcome Block :=
  of_option "block not found" (ledger !! N.to_nat blockNumber).

(** ** The chain the checks maintain *)
Record chain_ok (ledger : list Block) : Prop := {
  co_number : forall i b, ledger !! i = Some b -> exists h, b_Header b = Some h /\ bh_Number h = N.of_nat i;
  co_first : forall b h, ledger !! 0 = Some b -> b_Header b = Some h -> bh_PreviousHash h = [];
  co_link : forall i b b' h h', ledger !! i = Some b -> ledger !! S i = Some b' -> b_Header b = Some h -> b_Header b' = Some h' ->
    BlockHeaderHash h = Ok (bh_PreviousHash h')
}.

Lemma chain_ok_nil : chain_ok [].
Proof. split; intros; by rewrite lookup_nil in *. Qed.

Lemma Append_Ok ledger block ledger' :
  Append ledger block = Ok ledger' ->
  ledger' = ledger ++ [block] /\
  exists h, b_Header block = Some h /\ bh_Number h = Height ledger /\ CurrentBlockHash ledger = Ok (bh_PreviousHash h).
Proof.
  intros E%or_panic_Ok. unfold addBlock in E. apply bind_Ok_inv in E as (h & Hh & E).
  apply guard_err_Ok in E as [G1%negb_false_iff%N.eqb_eq E]. apply bind_Ok_inv in E as (cur & Hcur & E).
  apply guard_err_Ok in E as [G2%bool_decide_eq_false%dec_stable E]. apply Ok_inj in E as <-. split; [done|].
  destruct (b_Header block) as [h'|]; [|done]. cbn in Hh. apply Ok_inj in Hh as ->. exists h. by rewrite G2.
Qed.

Lemma Append_chain ledger block ledger' : chain_ok ledger -> Append ledger block = Ok ledger' -> chain_ok ledger'.
Proof.
  intros [Hn Hf Hl] [-> (h & Hh & Hnum & Hcur)]%Append_Ok. unfold Height in Hnum.
  assert (forall i b, (ledger ++ [block]) !! i = Some b -> ledger !! i = Some b \/ i = length ledger /\ b = block) as Hsplit.
  { intros i b [Hi|[Hge Hi]]%lookup_app_Some; [by left|right]. apply list_lookup_singleton_Some in Hi as [Hz <-]. split; [lia|done]. }
  split.
  - intros i b [Hi|[-> ->]]%Hsplit; [by apply Hn|]. by exists h.
  - intros b h' [Hi|[Hz ->]]%Hsplit Hb; [by eapply Hf|]. assert (h' = h) as -> by congruence. destruct ledger; [|done]. cbn in Hcur. by apply Ok_inj in Hcur.
  - intros i b b' h1 h2 Hi Hi' Hb Hb'. apply Hsplit in Hi' as [Hi'|[Ei ->]].
    + apply Hsplit in Hi as [Hi|[Ei ->]]; [exact (Hl i b b' h1 h2 Hi Hi' Hb Hb')|]. apply lookup_lt_Some in Hi'. lia.
    + apply Hsplit in Hi as [Hi|[Ei' _]]; [|lia]. assert (h2 = h) as -> by congruence. unfold CurrentBlockHash in Hcur.
      rewrite last_lookup, <-Ei in Hcur. cbn [Nat.pred] in Hcur. rewrite Hi, Hb in Hcur. exact Hcur.
Qed.

End Ledger.
