(* ===== verification/StateCodec.v ===== *)
(** * Encodings of the consensus state, headers, proposals and decisions

    [src/node/consensus/state]: Serialize and Deserialize of state.go and header.go, decision.go, compound_sig.go and
    consenter_block_operations.go. The wire messages are records of the fields of the protobuf and ASN.1 messages. *)
From S2P Require Import Prelude Types Events State Blocks.
From Stdlib Require Import NArith Lia.
Import Quorum.

(** ** Messages *)
Record HeightProto := mkHeightProto { phe_Party : N; phe_DecisionNum : N }.
Record PrunePointProto := mkPrunePointProto { ppp_Shard : N; ppp_Primary : N; ppp_Seq : N }.
Record ShardTermProto := mkShardTermProto { pst_Shard : N; pst_Term : N }.

Record StateProto := mkStateProto {
  ps_NumberOfParties : N;
  ps_Shards : list ShardTermProto;
  ps_Pending : list BAFProto;
  ps_Complaints : list ComplaintProto;
  ps_AppContext : bytes;
  ps_StaleConfigBafs : list BAFProto;
  ps_AssemblerHeights : list HeightProto;
  ps_PrunePoints : list PrunePointProto;
  ps_DurableWatermark : N
}.

Record HeaderProto := mkHeaderProto {
  ph_Num : N; ph_PrevHash : bytes; ph_AvailableCommonBlocks : list bytes; ph_State : bytes;
  ph_DecisionNumOfLastConfigBlock : N
}.

(** The message without any field set, which has the empty encoding. *)
Definition zero_state_proto : StateProto := mkStateProto 0 [] [] [] [] [] [] [] 0.
Definition zero_header_proto : HeaderProto := mkHeaderProto 0 [] [] [] 0.

Record asn1Signature := mkAsn1Signature { as_ID : Z; as_Value : bytes; as_Msg : bytes }.
Record asn1Proposal := mkAsn1Proposal { ap_Payload : bytes; ap_Header : bytes; ap_Metadata : bytes; ap_VerificationSequence : Z }.

Class StateCodecs := {
  sc_state :: Codec StateProto;
  sc_header :: Codec HeaderProto;
  sc_signature :: Codec asn1Signature;
  sc_proposal :: Codec asn1Proposal;
  sc_list :: Codec (list bytes);
  sc_state_zero : dec (A := StateProto) [] = Some zero_state_proto;
  sc_header_zero : dec (A := HeaderProto) [] = Some zero_header_proto;
  (** a DER encoding has at least a tag and a length *)
  sc_list_nonempty : forall (l : list bytes) bs, enc l = Some bs -> bs <> []
}.

(** A SmartBFT proposal. *)
Record Proposal := mkProposal { p_Payload : slice; p_Header : slice; p_Metadata : slice; p_VerificationSequence : Z }.
#[export] Instance Proposal_eq_dec : EqDecision Proposal.
Proof. solve_decision. Defined.

Record Header := mkHeader {
  h_Num : DecisionNum;
  h_PrevHash : bytes;
  h_AvailableCommonBlocks : list Block;
  h_State : option State;
  h_DecisionNumOfLastConfigBlock : DecisionNum
}.

(** ** The state *)
Definition Height_toProto (h : AssemblerHeight) : HeightProto := mkHeightProto (ah_Party h) (ah_DecisionNum h).
Definition Height_fromProto (ph : HeightProto) : outcome AssemblerHeight :=
  fail_if (u16_max <? phe_Party ph)%N with "the AssemblerHeight Party value exceeds uint16 maximum" ;;
  Ok (mkHeight (phe_Party ph) (phe_DecisionNum ph)).

Definition PrunePoint_toProto (p : PrunePoint) : PrunePointProto := mkPrunePointProto (pp_Shard p) (pp_Primary p) (pp_Seq p).
Definition PrunePoint_fromProto (pp : PrunePointProto) : outcome PrunePoint :=
  fail_if (u16_max <? ppp_Shard pp)%N with "the PrunePoint Shard value exceeds uint16 maximum" ;;
  fail_if (u16_max <? ppp_Primary pp)%N with "the PrunePoint Primary value exceeds uint16 maximum" ;;
  Ok (mkPrunePoint (ppp_Shard pp) (ppp_Primary pp) (ppp_Seq pp)).

Definition ShardTerm_toProto (st : ShardTerm) : ShardTermProto := mkShardTermProto (st_Shard st) (st_Term st).
Definition ShardTerm_fromProto (p : ShardTermProto) : outcome ShardTerm :=
  fail_if (u16_max <? pst_Shard p)%N with "the Shard value exceeds uint16 maximum" ;;
  Ok (mkShardTerm (pst_Shard p) (pst_Term p)).

Definition State_toProto (s : State) : StateProto :=
  mkStateProto (s_N s) (ShardTerm_toProto <$> s_Shards s) (BAF_ToProto <$> s_Pending s)
    (Complaint_toProto <$> s_Complaints s) (slice_bytes (s_AppContext s)) (BAF_ToProto <$> s_StaleConfigBAFs s)
    (Height_toProto <$> s_AssemblerHeights s) (PrunePoint_toProto <$> s_PrunePoints s) (s_DurableWatermark s).

Section StateCodec.
Context `{FabricCodecs} `{BlockCodecs} `{StateCodecs} `{Sha256}.

Definition State_Serialize (s : State) : outcome bytes := marshal_or_panic (State_toProto s).

Definition State_Deserialize (rawBytes : bytes) : outcome State :=
  ps ← (unmarshal rawBytes : outcome StateProto);
  fail_if (u16_max <? ps_NumberOfParties ps)%N with "the NumberOfParties value exceeds uint16 maximum" ;;
  let n := ps_NumberOfParties ps in
  let '(threshold, quorum) :=
    if (n =? 0)%N then (0, 0)%N else let '(_, t, q) := ComputeFTQ n in (t, q) in
  shards ← omapM ShardTerm_fromProto (ps_Shards ps);
  pending ← wrap_err "failed loading batch attestation fragment" (omapM BAF_FromProto (ps_Pending ps));
  complaints ← wrap_err "failed loading complaint" (omapM Complaint_fromProto (ps_Complaints ps));
  stale ← wrap_err "failed loading stale config batch attestation fragment" (omapM BAF_FromProto (ps_StaleConfigBafs ps));
  heights ← wrap_err "failed loading assembler height" (omapM Height_fromProto (ps_AssemblerHeights ps));
  prunePoints ← wrap_err "failed loading prune point" (omapM PrunePoint_fromProto (ps_PrunePoints ps));
  Ok (mkState n quorum threshold shards pending complaints (Some (ps_AppContext ps)) stale heights prunePoints
        (ps_DurableWatermark ps)).

(** ** The proposal header *)
Definition Header_Serialize (h : Header) : outcome bytes :=
  availableCommonBlocksBytes ← omapM marshal_or_panic (h_AvailableCommonBlocks h);
  rawState ← (match h_State h with Some s => State_Serialize s | None => Ok [] end);
  marshal_or_panic (mkHeaderProto (h_Num h) (h_PrevHash h) availableCommonBlocksBytes rawState
                      (h_DecisionNumOfLastConfigBlock h)).

Definition Header_Deserialize (rawBytes : slice) : outcome Header :=
  rawBytes ← of_option "nil bytes" rawBytes;
  fail_if bool_decide (length rawBytes = 0) with "empty bytes" ;;
  protoHeader ← wrap_err "failed to unmarshal header" (unmarshal rawBytes : outcome HeaderProto);
  blocks ← wrap_err "failed to unmarshal available common block" (omapM unmarshal (ph_AvailableCommonBlocks protoHeader));
  st ← (if decide (length (ph_State protoHeader) = 0) then Ok None else
        s ← wrap_err "failed to deserialize state" (State_Deserialize (ph_State protoHeader)); Ok (Some s));
  Ok (mkHeader (ph_Num protoHeader) (ph_PrevHash protoHeader) blocks st (ph_DecisionNumOfLastConfigBlock protoHeader)).

(** ** Proposals and decision signatures *)
Definition i64_of_u64 (n : N) : Z :=
  if (n <? 9223372036854775808)%N then Z.of_N n else (Z.of_N n - 18446744073709551616)%Z.
Definition u64_of_i64 (z : Z) : N := Z.to_N (z mod 18446744073709551616)%Z.

Definition ProposalToBytes (p : Proposal) : outcome bytes :=
  marshal_or_panic (mkAsn1Proposal (slice_bytes (p_Payload p)) (slice_bytes (p_Header p)) (slice_bytes (p_Metadata p))
                      (p_VerificationSequence p)).

Definition BytesToProposal (rawBytes : bytes) : outcome Proposal :=
  prop ← (unmarshal rawBytes : outcome asn1Proposal);
  Ok (mkProposal (Some (ap_Payload prop)) (Some (ap_Header prop)) (Some (ap_Metadata prop)) (ap_VerificationSequence prop)).

Definition signature_bytes (sig : Signature) : outcome bytes :=
  marshal_or_panic (mkAsn1Signature (i64_of_u64 (sig_ID sig)) (slice_bytes (sig_Value sig)) (slice_bytes (sig_Msg sig))).

Definition DecisionSignaturesToBytes (signatures : list Signature) : outcome bytes :=
  rawSigs ← omapM signature_bytes signatures;
  marshal_or_panic rawSigs.

Definition signature_of_bytes (rawSig : bytes) : outcome Signature :=
  sig ← (unmarshal rawSig : outcome asn1Signature);
  Ok (mkSignature (u64_of_i64 (as_ID sig)) (Some (as_Value sig)) (Some (as_Msg sig))).

Definition BytesToDecisionSignatures (rawBytes : bytes) : outcome (list Signature) :=
  rawSigs ← (unmarshal rawBytes : outcome (list bytes));
  omapM signature_of_bytes rawSigs.

(** ** Consenter blocks *)
Definition ConsenterBlockToProposal (block : option Block) : outcome Proposal :=
  block ← of_option "block is nil" block;
  _ ← of_option "block header is nil" (b_Header block);
  data ← of_option "data is empty for block" (b_Data block);
  fail_if bool_decide (length data = 0) with "data is empty for block" ;;
  proposalBytes ← index data 0;
  BytesToProposal proposalBytes.

Record Decision := mkDecision { d_Proposal : Proposal; d_Signatures : list Signature }.

Definition ConsenterBlockToDecision (block : option Block) : outcome Decision :=
  proposal ← wrap_err "failed to deserialize proposal for block" (ConsenterBlockToProposal block);
  block ← deref block;
  md ← of_option "metadata is empty for block" (b_Metadata block);
  fail_if bool_decide (length md = 0) with "metadata is empty for block" ;;
  fail_if bool_decide (length md <= BlockMetadataIndex_SIGNATURES) with "block metadata index is out of range" ;;
  signaturesBytes ← index md BlockMetadataIndex_SIGNATURES;
  fail_if bool_decide (length signaturesBytes = 0) with "signatures metadata is empty for block" ;;
  signatures ← wrap_err "failed to deserialize signatures for block" (BytesToDecisionSignatures signaturesBytes);
  Ok (mkDecision proposal signatures).

(** The metadata is initialized to five empty entries, of which three are set. *)
Definition CreateBlockToAppendFromDecision (number : N) (proposal : Proposal) (signatures : list Signature)
    (prevHash : bytes) (decisionNumOfLastConfigBlock : N) : outcome Block :=
  proposalBytes ← ProposalToBytes proposal;
  let data := [proposalBytes] in
  let block := mkBlock (Some (mkBlockHeader number prevHash (ComputeBlockDataHash data))) (Some data)
                 (Some [[]; []; []; []; []]) in
  sigBytes ← DecisionSignaturesToBytes signatures;
  block ← set_metadata BlockMetadataIndex_SIGNATURES sigBytes block;
  block ← set_metadata BlockMetadataIndex_ORDERER (slice_bytes (p_Metadata proposal)) block;
  lc ← last_config_bytes decisionNumOfLastConfigBlock;
  set_metadata BlockMetadataIndex_LAST_CONFIG lc block.

Definition GetLastConfigIndexFromConsenterBlock (block : option Block) : outcome N :=
  block ← of_option "nil block" block;
  header ← of_option "nil block header" (b_Header block);
  if (bh_Number header =? 0)%N then Ok 0%N else
  m ← GetMetadataFromBlock block BlockMetadataIndex_LAST_CONFIG;
  lastConfig ← (unmarshal (md_Value m) : outcome LastConfig);
  Ok (lc_Index lastConfig).

Definition Consenter_IsConfigBlock (block : option Block) : bool :=
  match block with
  | Some b =>
      match b_Header b with
      | Some h =>
          if (bh_Number h =? 0)%N then true else
          match GetLastConfigIndexFromConsenterBlock block with
          | Ok lastConfigIndex => (lastConfigIndex =? bh_Number h)%N
          | _ => false
          end
      | None => false
      end
  | None => false
  end.

Definition extractFabricConfigBlock (block : option Block) : outcome Block :=
  b ← of_option "block is nil" block;
  _ ← of_option "block header is nil" (b_Header b);
  data ← of_option "block data is empty" (b_Data b);
  fail_if bool_decide (length data = 0) with "block data is empty" ;;
  proposal ← wrap_err "failed to extract proposal from consenter block" (ConsenterBlockToProposal block);
  header ← wrap_err "failed to deserialize header" (Header_Deserialize (p_Header proposal));
  of_option "no available common blocks in consenter block" (last (h_AvailableCommonBlocks header)).

Definition Consenter_ConfigFromBlock (block : option Block) : outcome ConfigEnvelope :=
  fabricConfigBlock ← extractFabricConfigBlock block;
  fail_if negb (Common_IsConfigBlock (Some fabricConfigBlock)) with "Consenter decision block does not contain a config block" ;;
  Common_ConfigFromBlock (Some fabricConfigBlock).

Definition ConfigBlockNumFromBlock (block : option Block) : outcome N :=
  fabricConfigBlock ← extractFabricConfigBlock block;
  fail_if negb (Common_IsConfigBlock (Some fabricConfigBlock)) with "Consenter decision block does not contain a config block" ;;
  header ← of_option "fabric config block header is nil" (b_Header fabricConfigBlock);
  Ok (bh_Number header).

(** ** Compound signatures *)
Definition UnPack (cSig : Signature) : outcome (list Signature) :=
  let value := slice_bytes (sig_Value cSig) in
  fail_if bool_decide (length value = 0) with "empty signature value" ;;
  values ← wrap_err "failed to unmarshal values" (unmarshal value : outcome (list bytes));
  fail_if bool_decide (length values = 0) with "zero signature values" ;;
  msgs ← wrap_err "failed to unmarshal msgs" (unmarshal (slice_bytes (sig_Msg cSig)) : outcome (list bytes));
  fail_if bool_decide (length msgs = 0) with "zero signature msgs" ;;
  fail_if bool_decide (length msgs <> length values) with "number of msgs does not match number of values" ;;
  Ok (zip_with (fun v m => mkSignature (sig_ID cSig) (Some v) (Some m)) values msgs).

(** The zero value that fills the signature matrix first. *)
Definition zeroSig : Signature := mkSignature 0 None None.

(** One party's signatures written to its column: [sigsBnP[blockIdx-1][partyIdx] = sig]. *)
Definition fill_column (partyIdx : nat) (m : list (list Signature)) (blockSigs : list Signature) : list (list Signature) :=
  zip_with (fun row sig => <[partyIdx := sig]> row) m blockSigs.

Fixpoint unpack_parties (numBlocks partyIdx : nat) (m : list (list Signature)) (compoundSigs : list Signature)
    : outcome (list (list Signature)) :=
  match compoundSigs with
  | [] => Ok m
  | cSig :: rest =>
      partySigs ← wrap_err "failed to Unpack compound sig" (UnPack cSig);
      fail_if bool_decide (length partySigs <> numBlocks + 1) with "extracted a wrong number of signatures" ;;
      unpack_parties numBlocks (S partyIdx) (fill_column partyIdx m (drop 1 partySigs)) rest
  end.

Definition UnpackBlockHeaderSigs (compoundSigs : list Signature) (numBlocks : nat) : outcome (list (list Signature)) :=
  fail_if bool_decide (length compoundSigs = 0) with "zero compound sigs" ;;
  let sigsBnP := replicate numBlocks (replicate (length compoundSigs) zeroSig) in
  if decide (numBlocks = 0) then Ok (replicate 0 []) else
  unpack_parties numBlocks 0 sigsBnP compoundSigs.

End StateCodec.
