(* ===== verification/StateCodecFacts.v ===== *)
(** * Facts on the encodings of states, headers and decisions *)
From S2P Require Import Prelude Types Events State Blocks StateCodec.
From Stdlib Require Import NArith Lia.
Import Quorum.

(** ** Blocks of a decision *)
Section BlockFacts.
Context `{FabricCodecs} `{BlockCodecs} `{Sha256}.

Lemma last_config_read i b lc md :
  last_config_bytes i = Ok lc -> b_Metadata b = Some md -> md !! BlockMetadataIndex_LAST_CONFIG = Some lc ->
  exists m, GetMetadataFromBlock b BlockMetadataIndex_LAST_CONFIG = Ok m /\ (unmarshal (md_Value m) : outcome LastConfig) = Ok (mkLastConfig i).
Proof.
  unfold last_config_bytes. intros E Hb Hmd. outcome_inv. apply unmarshal_marshal in Hrun, Hrun0.
  exists (mkMetadata v []). split; [|done]. unfold GetMetadataFromBlock. rewrite Hb. cbn [of_option mbind outcome_bind].
  rewrite bool_decide_eq_false_2 by (apply lookup_lt_Some in Hmd; lia). cbn [guard_err]. unfold index. rewrite Hmd.
  cbn [mbind outcome_bind]. by rewrite Hrun0.
Qed.

Lemma CreateData_Ok n ph bid tx dn bc bi lc b :
  CreateDataCommonBlock n ph bid tx dn bc bi lc = Ok b ->
  exists m l, AssemblerBlockMetadataToBytes (Some bid) (Some (ordering dn bc bi)) tx = Ok m /\ last_config_bytes lc = Ok l /\
    b = mkBlock (Some (mkBlockHeader n ph (bid_Digest bid))) (Some []) (Some [[]; l; []; m; []]).
Proof.
  unfold CreateDataCommonBlock. intros E. apply bind_Ok_inv in E as (m & Hm & E). apply wrap_err_Ok in Hm.
  apply bind_Ok_inv in E as (b1 & Hb1 & E). cbn in Hb1. apply Ok_inj in Hb1 as <-.
  apply bind_Ok_inv in E as (l & Hl & E). cbn in E. apply Ok_inj in E as <-. by exists m, l.
Qed.

Lemma CreateConfig_Ok n ph tx dn bc bi req b :
  CreateConfigCommonBlock n ph tx dn bc bi req = Ok b ->
  exists m l, AssemblerBlockMetadataToBytes (Some config_batch_id) (Some (ordering dn bc bi)) tx = Ok m /\ last_config_bytes n = Ok l /\
    b = mkBlock (Some (mkBlockHeader n ph (BatchedRequests.Digest [req]))) (Some [req]) (Some [[]; l; []; m; []]).
Proof.
  unfold CreateConfigCommonBlock. intros E. apply bind_Ok_inv in E as (m & Hm & E). apply wrap_err_Ok in Hm.
  apply bind_Ok_inv in E as (b1 & Hb1 & E). cbn in Hb1. apply Ok_inj in Hb1 as <-.
  apply bind_Ok_inv in E as (l & Hl & E). cbn in E. apply Ok_inj in E as <-. by exists m, l.
Qed.

Lemma VerifyData_Create n ph bid tx dn bc bi lc b :
  CreateDataCommonBlock n ph bid tx dn bc bi lc = Ok b -> VerifyDataCommonBlock b n ph bid tx dn bc bi lc = Ok tt.
Proof.
  intros (m & l & Hm & Hl & ->)%CreateData_Ok. unfold VerifyDataCommonBlock. cbn [b_Header deref mbind outcome_bind].
  rewrite !bool_decide_eq_false_2 by (cbn; tauto). cbn [guard_err]. rewrite Hm. cbn [or_panic mbind outcome_bind of_option b_Metadata].
  rewrite bool_decide_eq_false_2 by done. cbn [guard_err index lookup list_lookup BlockMetadataIndex_ORDERER mbind outcome_bind].
  rewrite bool_decide_eq_false_2 by tauto. cbn [guard_err].
  destruct (last_config_read lc (mkBlock (Some (mkBlockHeader n ph (bid_Digest bid))) (Some []) (Some [[]; l; []; m; []])) l _ Hl (reflexivity _) (reflexivity _)) as (m' & -> & Hm').
  cbn [wrap_err mbind outcome_bind]. rewrite Hm'. cbn. by rewrite N.eqb_refl.
Qed.

Lemma VerifyConfig_Create n ph tx dn bc bi req b :
  CreateConfigCommonBlock n ph tx dn bc bi req = Ok b ->
  VerifyConfigCommonBlock b n ph (BatchedRequests.Digest [req]) tx dn bc bi = Ok tt.
Proof.
  intros (m & l & Hm & Hl & ->)%CreateConfig_Ok. unfold VerifyConfigCommonBlock. cbn [b_Header deref mbind outcome_bind].
  rewrite !bool_decide_eq_false_2 by (cbn; tauto). cbn [guard_err of_option mbind outcome_bind b_Data].
  rewrite !bool_decide_eq_false_2 by (cbn; tauto || lia). cbn [guard_err]. rewrite Hm. cbn [or_panic mbind outcome_bind of_option b_Metadata].
  rewrite bool_decide_eq_false_2 by (cbn; tauto). cbn [guard_err index lookup list_lookup BlockMetadataIndex_ORDERER mbind outcome_bind].
  rewrite bool_decide_eq_false_2 by tauto. cbn [guard_err].
  destruct (last_config_read n (mkBlock (Some (mkBlockHeader n ph (BatchedRequests.Digest [req]))) (Some [req]) (Some [[]; l; []; m; []])) l _ Hl (reflexivity _) (reflexivity _)) as (m' & -> & Hm').
  cbn [wrap_err mbind outcome_bind]. rewrite Hm'. cbn. by rewrite N.eqb_refl.
Qed.

(** What an accepted block is: everything but its data and the unused metadata entries is determined. *)
Definition block_matches (b : Block) (h : BlockHeader) (m : bytes) (lastConfig : N) : Prop :=
  b_Header b = Some h /\
  exists md rawLC, b_Metadata b = Some md /\ md !! BlockMetadataIndex_ORDERER = Some m /\
    GetMetadataFromBlock b BlockMetadataIndex_LAST_CONFIG = Ok rawLC /\
    (unmarshal (md_Value rawLC) : outcome LastConfig) = Ok (mkLastConfig lastConfig).

Lemma VerifyData_sound b n ph bid tx dn bc bi lc :
  VerifyDataCommonBlock b n ph bid tx dn bc bi lc = Ok tt ->
  exists m, AssemblerBlockMetadataToBytes (Some bid) (Some (ordering dn bc bi)) tx = Ok m /\
    block_matches b (mkBlockHeader n ph (bid_Digest bid)) m lc.
Proof.
  unfold VerifyDataCommonBlock. intros E. apply bind_Ok_inv in E as (h & Hh & E).
  apply guard_err_Ok in E as [G1 E]. apply guard_err_Ok in E as [G2 E]. apply guard_err_Ok in E as [G3 E].
  apply bind_Ok_inv in E as (m & Hm%or_panic_Ok & E). apply bind_Ok_inv in E as (md & Hmd%of_option_Ok & E).
  apply guard_err_Ok in E as [G4 E]. apply bind_Ok_inv in E as (raw & Hraw%index_Ok & E). apply guard_err_Ok in E as [G5 E].
  apply bind_Ok_inv in E as (rlc & Hrlc%wrap_err_Ok & E). apply bind_Ok_inv in E as ([ix] & Hix%wrap_err_Ok & E).
  apply guard_err_Ok in E as [G6 _]. apply negb_false_iff, N.eqb_eq in G6. cbn in G6. subst ix.
  apply bool_decide_eq_false, dec_stable in G1, G2, G3, G5. rewrite G5 in Hm. exists raw. split; [done|]. split.
  - destruct (b_Header b) as [h'|]; [|done]. cbn in Hh. apply Ok_inj in Hh as ->. destruct h; cbn in *. congruence.
  - by exists md, rlc.
Qed.

Lemma VerifyConfig_sound b n ph dh tx dn bc bi :
  VerifyConfigCommonBlock b n ph dh tx dn bc bi = Ok tt ->
  exists m req, AssemblerBlockMetadataToBytes (Some config_batch_id) (Some (ordering dn bc bi)) tx = Ok m /\
    block_matches b (mkBlockHeader n ph dh) m n /\ b_Data b = Some [req] /\ BatchedRequests.Digest [req] = dh.
Proof.
  unfold VerifyConfigCommonBlock. intros E. apply bind_Ok_inv in E as (h & Hh & E).
  apply guard_err_Ok in E as [G1 E]. apply guard_err_Ok in E as [G2 E]. apply bind_Ok_inv in E as (data & Hdata%of_option_Ok & E).
  apply guard_err_Ok in E as [G3 E]. apply guard_err_Ok in E as [G4 E]. apply guard_err_Ok in E as [G5 E]. apply guard_err_Ok in E as [G6 E].
  apply bind_Ok_inv in E as (m & Hm%or_panic_Ok & E). apply bind_Ok_inv in E as (md & Hmd%of_option_Ok & E).
  apply guard_err_Ok in E as [G7 E]. apply bind_Ok_inv in E as (raw & Hraw%index_Ok & E). apply guard_err_Ok in E as [G8 E].
  apply bind_Ok_inv in E as (rlc & Hrlc%wrap_err_Ok & E). apply bind_Ok_inv in E as ([ix] & Hix%wrap_err_Ok & E).
  apply guard_err_Ok in E as [G9 _]. apply negb_false_iff, N.eqb_eq in G9. cbn in G9. subst ix.
  apply bool_decide_eq_false, dec_stable in G1, G2, G4, G5, G6, G8. destruct data as [|req [|]]; [done| |done].
  exists raw, req. rewrite G8 in Hm. split; [done|]. split; [|split; [done|congruence]]. split.
  - destruct (b_Header b) as [h'|]; [|done]. cbn in Hh. apply Ok_inj in Hh as ->. destruct h; cbn in *. congruence.
  - by exists md, rlc.
Qed.

End BlockFacts.

(** ** States *)
Record state_in_range (s : State) : Prop := {
  sr_N : (s_N s <= u16_max)%N;
  sr_TQ : (s_Threshold s, s_Quorum s) = if (s_N s =? 0)%N then (0, 0)%N else let '(_, t, q) := ComputeFTQ (s_N s) in (t, q);
  sr_shards : Forall (fun st => (st_Shard st <= u16_max)%N) (s_Shards s);
  sr_pending : Forall BAF_ids_ok (s_Pending s);
  sr_complaints : Forall (fun c => (c_Shard c <= u16_max)%N /\ (c_Signer c <= u16_max)%N) (s_Complaints s);
  sr_stale : Forall BAF_ids_ok (s_StaleConfigBAFs s);
  sr_heights : Forall (fun h => (ah_Party h <= u16_max)%N) (s_AssemblerHeights s);
  sr_prune : Forall (fun p => (pp_Shard p <= u16_max)%N /\ (pp_Primary p <= u16_max)%N) (s_PrunePoints s)
}.

(** What the wire does not keep: nil-ness of byte strings. *)
Definition state_norm (s : State) : State :=
  mkState (s_N s) (s_Quorum s) (s_Threshold s) (s_Shards s) (BAF_norm <$> s_Pending s) (s_Complaints s)
    (Some (slice_bytes (s_AppContext s))) (BAF_norm <$> s_StaleConfigBAFs s) (s_AssemblerHeights s) (s_PrunePoints s)
    (s_DurableWatermark s).

Lemma omapM_fmap {A B C} (f : B -> outcome C) (g : A -> B) (h : A -> C) l :
  Forall (fun a => f (g a) = Ok (h a)) l -> omapM f (g <$> l) = Ok (h <$> l).
Proof. induction 1 as [|a l Ha _ IH]; [done|]. cbn. rewrite Ha. cbn. rewrite IH. done. Qed.

Lemma ShardTerm_round st : (st_Shard st <= u16_max)%N -> ShardTerm_fromProto (ShardTerm_toProto st) = Ok st.
Proof. intros Hs. unfold ShardTerm_fromProto; cbn. destruct (N.ltb_spec u16_max (st_Shard st)); [lia|]. by destruct st. Qed.
Lemma Height_round h : (ah_Party h <= u16_max)%N -> Height_fromProto (Height_toProto h) = Ok h.
Proof. intros Hs. unfold Height_fromProto; cbn. destruct (N.ltb_spec u16_max (ah_Party h)); [lia|]. by destruct h. Qed.
Lemma PrunePoint_round p : (pp_Shard p <= u16_max)%N -> (pp_Primary p <= u16_max)%N -> PrunePoint_fromProto (PrunePoint_toProto p) = Ok p.
Proof.
  intros Hs Hp. unfold PrunePoint_fromProto; cbn.
  destruct (N.ltb_spec u16_max (pp_Shard p)), (N.ltb_spec u16_max (pp_Primary p)); try lia. by destruct p.
Qed.

Lemma Forall_imp_fmap {A} (P Q : A -> Prop) l : (forall x, P x -> Q x) -> Forall P l -> Forall Q l.
Proof. intros HPQ Hall. eapply Forall_impl; [exact Hall|exact HPQ]. Qed.

Section StateFacts.
Context `{FabricCodecs} `{BlockCodecs} `{StateCodecs} `{Sha256}.

Lemma State_round s bs : state_in_range s -> State_Serialize s = Ok bs -> State_Deserialize bs = Ok (state_norm s).
Proof.
  intros [HN HTQ Hsh Hp Hc Hst Hh Hpp] E%unmarshal_marshal. unfold State_Deserialize. rewrite E. cbn [mbind outcome_bind State_toProto ps_NumberOfParties].
  destruct (N.ltb_spec u16_max (s_N s)) as [|_]; [lia|]. cbn [guard_err]. rewrite <-HTQ.
  cbn [State_toProto ps_NumberOfParties ps_Shards ps_Pending ps_Complaints ps_StaleConfigBafs ps_AssemblerHeights ps_PrunePoints ps_AppContext ps_DurableWatermark].
  rewrite (omapM_fmap ShardTerm_fromProto _ id) by (eapply Forall_imp_fmap; [|exact Hsh]; intros; by apply ShardTerm_round). cbn [mbind outcome_bind].
  rewrite (omapM_fmap BAF_FromProto BAF_ToProto BAF_norm (s_Pending s)) by (eapply Forall_imp_fmap; [|exact Hp]; intros; by apply BAF_FromProto_ToProto).
  cbn [wrap_err mbind outcome_bind].
  rewrite (omapM_fmap Complaint_fromProto _ id) by (eapply Forall_imp_fmap; [|exact Hc]; intros c [? ?]; by apply Complaint_fromProto_toProto).
  cbn [wrap_err mbind outcome_bind].
  rewrite (omapM_fmap BAF_FromProto BAF_ToProto BAF_norm (s_StaleConfigBAFs s)) by (eapply Forall_imp_fmap; [|exact Hst]; intros; by apply BAF_FromProto_ToProto).
  cbn [wrap_err mbind outcome_bind].
  rewrite (omapM_fmap Height_fromProto _ id) by (eapply Forall_imp_fmap; [|exact Hh]; intros; by apply Height_round).
  cbn [wrap_err mbind outcome_bind].
  rewrite (omapM_fmap PrunePoint_fromProto _ id) by (eapply Forall_imp_fmap; [|exact Hpp]; intros p [? ?]; by apply PrunePoint_round).
  cbn [wrap_err mbind outcome_bind]. by rewrite !list_fmap_id.
Qed.

Lemma BAF_ToProto_norm b : BAF_ToProto (BAF_norm b) = BAF_ToProto b.
Proof. unfold BAF_ToProto, BAF_norm; cbn. f_equal. case_decide as Hd; cbn; [by rewrite Hd|done]. Qed.

(** Normalization is invisible on the wire. *)
Lemma State_toProto_norm s : State_toProto (state_norm s) = State_toProto s.
Proof.
  unfold State_toProto, state_norm; cbn. f_equal; rewrite <-list_fmap_compose; apply fmap_ext_elem; intros; apply BAF_ToProto_norm.
Qed.

Lemma State_Serialize_norm s : State_Serialize (state_norm s) = State_Serialize s.
Proof. unfold State_Serialize. by rewrite State_toProto_norm. Qed.

(** The encoding of a state with parties is not empty. *)
Lemma State_Serialize_nonempty s bs : State_Serialize s = Ok bs -> (0 < s_N s)%N -> bs <> [].
Proof.
  intros E%marshal_or_panic_Ok%dec_enc Hn ->. rewrite sc_state_zero in E.
  assert (zero_state_proto = State_toProto s) as Ez by congruence. apply (f_equal ps_NumberOfParties) in Ez. cbn in Ez. lia.
Qed.

(** ** Headers *)
Definition header_norm (h : Header) : Header :=
  mkHeader (h_Num h) (h_PrevHash h) (h_AvailableCommonBlocks h) (state_norm <$> h_State h) (h_DecisionNumOfLastConfigBlock h).

Lemma blocks_round blocks raws : omapM marshal_or_panic blocks = Ok raws -> omapM (A := bytes) (B := Block) unmarshal raws = Ok blocks.
Proof.
  revert raws; induction blocks as [|b blocks IH]; intros raws E; cbn in E.
  - apply Ok_inj in E as <-. done.
  - apply bind_Ok_inv in E as (raw & Hraw & E). apply bind_Ok_inv in E as (raws' & Hraws & E). apply Ok_inj in E as <-.
    cbn. rewrite (unmarshal_marshal _ _ Hraw). cbn. by rewrite (IH _ Hraws).
Qed.

Lemma Header_round h s bs :
  h_State h = Some s -> state_in_range s -> (0 < s_N s)%N -> Header_Serialize h = Ok bs ->
  Header_Deserialize (Some bs) = Ok (header_norm h).
Proof.
  intros Hs Hr Hn E. unfold Header_Serialize in E. rewrite Hs in E.
  apply bind_Ok_inv in E as (raws & Hraws & E). apply bind_Ok_inv in E as (rawState & HrawState & E).
  pose proof (State_Serialize_nonempty _ _ HrawState Hn) as Hne.
  assert (bs <> []) as Hbs.
  { intros ->. apply marshal_or_panic_Ok, dec_enc in E. rewrite sc_header_zero in E.
    assert (zero_header_proto = mkHeaderProto (h_Num h) (h_PrevHash h) raws rawState (h_DecisionNumOfLastConfigBlock h)) as Ez by congruence.
    apply (f_equal ph_State) in Ez. cbn in Ez. congruence. }
  apply unmarshal_marshal in E. unfold Header_Deserialize. cbn [of_option mbind outcome_bind].
  rewrite bool_decide_eq_false_2 by (by destruct bs). cbn [guard_err]. rewrite E. cbn [wrap_err mbind outcome_bind ph_AvailableCommonBlocks ph_State].
  rewrite (blocks_round _ _ Hraws). cbn [wrap_err mbind outcome_bind].
  rewrite decide_False by (by destruct rawState). rewrite (State_round _ _ Hr HrawState). cbn. unfold header_norm. by rewrite Hs.
Qed.

(** ** Decisions *)
Definition proposal_norm (p : Proposal) : Proposal :=
  mkProposal (Some (slice_bytes (p_Payload p))) (Some (slice_bytes (p_Header p))) (Some (slice_bytes (p_Metadata p))) (p_VerificationSequence p).
Definition signature_norm (s : Signature) : Signature :=
  mkSignature (sig_ID s) (Some (slice_bytes (sig_Value s))) (Some (slice_bytes (sig_Msg s))).

Lemma u64_i64 n : (n <= u64_max)%N -> u64_of_i64 (i64_of_u64 n) = n.
Proof.
  unfold u64_of_i64, i64_of_u64, u64_max. intros Hn. destruct (N.ltb_spec n 9223372036854775808).
  - rewrite Z.mod_small by lia. lia.
  - replace (Z.of_N n - 18446744073709551616)%Z with (Z.of_N n + (-1) * 18446744073709551616)%Z by lia.
    rewrite Z.mod_add by lia. rewrite Z.mod_small by lia. lia.
Qed.

Lemma Proposal_round p bs : ProposalToBytes p = Ok bs -> BytesToProposal bs = Ok (proposal_norm p).
Proof. unfold ProposalToBytes, BytesToProposal. intros E%unmarshal_marshal. by rewrite E. Qed.

Lemma signature_round s raw : (sig_ID s <= u64_max)%N -> signature_bytes s = Ok raw -> signature_of_bytes raw = Ok (signature_norm s).
Proof.
  unfold signature_bytes, signature_of_bytes. intros Hs E%unmarshal_marshal. rewrite E. cbn. by rewrite u64_i64.
Qed.

Lemma signatures_round sigs raws :
  Forall (fun s => (sig_ID s <= u64_max)%N) sigs -> omapM signature_bytes sigs = Ok raws ->
  omapM signature_of_bytes raws = Ok (signature_norm <$> sigs).
Proof.
  intros Hids. revert raws; induction Hids as [|s sigs Hs _ IH]; intros raws E; cbn in E.
  - by apply Ok_inj in E as <-.
  - apply bind_Ok_inv in E as (raw & Hraw & E). apply bind_Ok_inv in E as (raws' & Hraws & E). apply Ok_inj in E as <-.
    cbn [omapM]. rewrite (signature_round s raw) by done. cbn [mbind outcome_bind]. by rewrite (IH _ Hraws).
Qed.

Lemma DecisionSignatures_round sigs bs :
  Forall (fun s => (sig_ID s <= u64_max)%N) sigs -> DecisionSignaturesToBytes sigs = Ok bs ->
  BytesToDecisionSignatures bs = Ok (signature_norm <$> sigs) /\ bs <> [].
Proof.
  unfold DecisionSignaturesToBytes, BytesToDecisionSignatures. intros Hids E. apply bind_Ok_inv in E as (raws & Hraws & E). split.
  - rewrite (unmarshal_marshal _ _ E). cbn. by apply signatures_round.
  - eapply sc_list_nonempty. by apply marshal_or_panic_Ok.
Qed.

Lemma CreateBlock_Ok num p sigs ph lc b :
  CreateBlockToAppendFromDecision num p sigs ph lc = Ok b ->
  exists pb sb l, ProposalToBytes p = Ok pb /\ DecisionSignaturesToBytes sigs = Ok sb /\ last_config_bytes lc = Ok l /\
    b = mkBlock (Some (mkBlockHeader num ph (ComputeBlockDataHash [pb]))) (Some [pb]) (Some [sb; l; []; slice_bytes (p_Metadata p); []]).
Proof.
  unfold CreateBlockToAppendFromDecision. intros E. apply bind_Ok_inv in E as (pb & Hpb & E).
  apply bind_Ok_inv in E as (sb & Hsb & E). apply bind_Ok_inv in E as (b1 & Hb1 & E). cbn in Hb1. apply Ok_inj in Hb1 as <-.
  apply bind_Ok_inv in E as (b2 & Hb2 & E). cbn in Hb2. apply Ok_inj in Hb2 as <-.
  apply bind_Ok_inv in E as (l & Hl & E). cbn in E. apply Ok_inj in E as <-. by exists pb, sb, l.
Qed.

Lemma Decision_round num p sigs ph lc b :
  Forall (fun s => (sig_ID s <= u64_max)%N) sigs -> CreateBlockToAppendFromDecision num p sigs ph lc = Ok b ->
  ConsenterBlockToDecision (Some b) = Ok (mkDecision (proposal_norm p) (signature_norm <$> sigs)).
Proof.
  intros Hids (pb & sb & l & Hpb & Hsb & Hl & ->)%CreateBlock_Ok.
  destruct (DecisionSignatures_round _ _ Hids Hsb) as [Hs Hne]. apply Proposal_round in Hpb.
  unfold ConsenterBlockToDecision, ConsenterBlockToProposal.
  cbn [of_option mbind outcome_bind b_Header b_Data b_Metadata length index lookup list_lookup BlockMetadataIndex_SIGNATURES deref].
  rewrite bool_decide_eq_false_2 by lia. cbn [guard_err]. rewrite Hpb. cbn [wrap_err mbind outcome_bind].
   rewrite !bool_decide_eq_false_2 by (unfold BlockMetadataIndex_SIGNATURES; destruct sb; cbn; done || lia). cbn [guard_err wrap_err mbind outcome_bind]. by rewrite Hs.
Qed.

Lemma LastConfigIndex_of_block num p sigs ph lc b :
  (0 < num)%N -> CreateBlockToAppendFromDecision num p sigs ph lc = Ok b ->
  GetLastConfigIndexFromConsenterBlock (Some b) = Ok lc.
Proof.
  intros Hn (pb & sb & l & Hpb & Hsb & Hl & ->)%CreateBlock_Ok. unfold GetLastConfigIndexFromConsenterBlock. cbn [of_option mbind outcome_bind b_Header bh_Number].
  destruct (N.eqb_spec num 0); [lia|].
  destruct (last_config_read lc (mkBlock (Some (mkBlockHeader num ph (ComputeBlockDataHash [pb]))) (Some [pb]) (Some [sb; l; []; slice_bytes (p_Metadata p); []])) l _ Hl (reflexivity _) (reflexivity _)) as (m' & -> & Hm').
  cbn [mbind outcome_bind]. by rewrite Hm'.
Qed.

(** ** The signature matrix *)
Lemma fill_column_lookup p m sigs b q :
  length m = length sigs ->
  (fill_column p m sigs !! b) ≫= (.!! q) =
    match m !! b, sigs !! b with
    | Some row, Some sig => if decide (q = p /\ p < length row) then Some sig else row !! q
    | _, _ => None
    end.
Proof.
  intros Hl. unfold fill_column. rewrite lookup_zip_with. destruct (m !! b) as [row|] eqn:Em; [|done]. cbn.
  destruct (sigs !! b) as [sig|] eqn:Es; [|done]. cbn. destruct (decide (q = p /\ p < length row)) as [[-> Hp]|Hn].
  - by rewrite list_lookup_insert_eq.
  - destruct (decide (q = p)) as [->|Hne]; [|by rewrite list_lookup_insert_ne by done].
    rewrite list_insert_ge; [done|]. destruct (decide (p < length row)); [tauto|lia].
Qed.

Lemma length_fill_column p m sigs : length m = length sigs -> length (fill_column p m sigs) = length m.
Proof. intros Hl. unfold fill_column. rewrite length_zip_with. lia. Qed.

Lemma fill_column_rows p m sigs k : Forall (fun row => length row = k) m -> Forall (fun row => length row = k) (fill_column p m sigs).
Proof.
  unfold fill_column. intros Hm. apply Forall_forall. intros row Hin. apply list_elem_of_lookup in Hin as [i Hi].
  rewrite lookup_zip_with in Hi. apply bind_Some in Hi as (r & Hr & Hi). apply bind_Some in Hi as (s & Hs & [= <-]).
  rewrite length_insert. rewrite Forall_forall in Hm. apply Hm. by eapply list_elem_of_lookup_2.
Qed.

Lemma unpack_parties_spec nb pi m cs us k :
  Forall2 (fun c u => UnPack c = Ok u /\ length u = nb + 1) cs us ->
  length m = nb -> Forall (fun row => length row = k) m -> pi + length cs <= k ->
  exists m', unpack_parties nb pi m cs = Ok m' /\ length m' = nb /\
    (forall b q, b < nb -> (m' !! b) ≫= (.!! q) =
       if decide (pi <= q < pi + length cs) then us !! (q - pi) ≫= (.!! S b) else (m !! b) ≫= (.!! q)).
Proof.
  intros Hall. revert pi m. induction Hall as [|c u cs us [Hu Hlu] _ IH]; intros pi m Hm Hrows Hk.
  { exists m. split; [done|split; [done|]]. intros b q Hb. rewrite decide_False; [done|]. cbn. lia. }
  cbn [unpack_parties]. rewrite Hu. cbn [wrap_err mbind outcome_bind]. rewrite bool_decide_eq_false_2 by tauto. cbn [guard_err].
  assert (length m = length (drop 1 u)) as Hld by (rewrite length_drop; lia).
  cbn [length] in Hk.
  destruct (IH (S pi) (fill_column pi m (drop 1 u))) as (m' & E & Hlm & Hspec).
  - by rewrite length_fill_column.
  - by apply fill_column_rows.
  - lia.
  - exists m'. split; [done|split; [done|]]. intros b q Hb. rewrite Hspec by done. cbn [length].
    destruct (decide (S pi <= q < S pi + length cs)) as [Hin|Hout].
    + rewrite decide_True by lia. replace (q - pi) with (S (q - S pi)) by lia. done.
    + rewrite fill_column_lookup by done. destruct (lookup_lt_is_Some_2 m b) as [row Hrow]; [lia|].
      destruct (lookup_lt_is_Some_2 (drop 1 u) b) as [sig Hsig]; [rewrite length_drop; lia|]. rewrite Hrow, Hsig. cbn [mbind option_bind].
      rewrite Forall_forall in Hrows. assert (length row = k) as Hlr by (apply Hrows; by eapply list_elem_of_lookup_2).
      destruct (decide (q = pi)) as [->|Hne].
      * rewrite decide_True by lia. rewrite decide_True by lia. rewrite Nat.sub_diag. cbn. by rewrite lookup_drop in Hsig.
      * rewrite decide_False by lia. by rewrite decide_False by lia.
Qed.

Lemma unpack_parties_inv nb pi m cs m' :
  unpack_parties nb pi m cs = Ok m' -> exists us, Forall2 (fun c u => UnPack c = Ok u /\ length u = nb + 1) cs us.
Proof.
  revert pi m; induction cs as [|c cs IH]; intros pi m E; [exists []; constructor|]. cbn [unpack_parties] in E.
  apply bind_Ok_inv in E as (u & Hu%wrap_err_Ok & E). apply guard_err_Ok in E as [Hg E].
  destruct (IH _ _ E) as (us & Hus). exists (u :: us). constructor; [|done]. split; [done|].
  apply bool_decide_eq_false in Hg. by apply dec_stable.
Qed.

End StateFacts.
