(* ===== verification/SampleBlocks.v ===== *)
(** * Concrete instances for blocks and states

    Codecs of the block, state and header messages, as in [Sample], with the empty encoding for the zero message. *)
From S2P Require Import Prelude Types Events State Blocks StateCodec Sample.
From Stdlib Require Import NArith.
From Stdlib Require Import Init.Byte.

Definition codec_zero {A B} `{Ser B} `{EqDecision B} (f : A -> B) (g : B -> A) (Hgf : forall a, g (f a) = a) (z : A) : Codec A.
Proof.
  refine {| enc a := if decide (f a = f z) then Some [] else Some (x01 :: put (f a));
            dec bs := match bs with [] => Some z | _ :: bs' => '(b, _) ← get bs'; Some (g b) end |}.
  intros a bs. destruct (decide (f a = f z)) as [E|_].
  - intros Hs. assert (bs = []) as -> by congruence. f_equal. by rewrite <-(Hgf a), E, Hgf.
  - intros Hs. assert (bs = x01 :: put (f a)) as -> by congruence.
    rewrite <-(app_nil_r (put (f a))), get_put. cbn. by rewrite Hgf.
Defined.

Definition header_tuple (h : BlockHeader) := (bh_Number h, bh_PreviousHash h, bh_DataHash h).
Definition tuple_header p := let '(a, b, c) := p in mkBlockHeader a b c.
Definition header_codec : Codec BlockHeader.
Proof. through_tuple header_tuple tuple_header. Defined.
Definition asn1Header_codec : Codec asn1Header.
Proof. through_tuple (fun h => (a_Number h, a_PreviousHash h, a_DataHash h)) (fun p : N * bytes * bytes => mkAsn1Header p.1.1 p.1.2 p.2). Defined.
Definition block_codec : Codec Block.
Proof.
  refine (codec_through (fun b => (header_tuple <$> b_Header b, b_Data b, b_Metadata b))
    (fun p => mkBlock (tuple_header <$> p.1.1) p.1.2 p.2) _).
  by intros [[[]|] ? ?].
Defined.
Definition ms_tuple (m : MetadataSignature) := (ms_SignatureHeader m, ms_Signature m, ms_IdentifierHeader m).
Definition tuple_ms p := let '(a, b, c) := p in mkMetadataSignature a b c.
Definition metadata_codec : Codec Metadata.
Proof.
  refine (codec_zero (fun m => (md_Value m, ms_tuple <$> md_Signatures m)) (fun p => mkMetadata p.1 (tuple_ms <$> p.2)) _ (mkMetadata [] [])).
  intros [v l]. cbn. f_equal. rewrite <-list_fmap_compose. apply fmap_id_elem. by intros [].
Defined.
Definition lastConfig_codec : Codec LastConfig.
Proof. through_tuple lc_Index mkLastConfig. Defined.
Definition identifier_codec : Codec IdentifierHeader.
Proof. through_tuple (fun i => (ih_Identifier i, ih_Nonce i)) (fun p => mkIdentifierHeader p.1 p.2). Defined.
Definition abm_tuple (m : AssemblerBlockMetadata) :=
  (abm_Primary m, abm_Shard m, abm_Sequence m, abm_DecisionNum m, abm_BatchIndex m, abm_BatchCount m, abm_TransactionCount m).
Definition tuple_abm p := let '(a, b, c, d, e, f, g) := p in mkABM a b c d e f g.
Definition abm_codec : Codec AssemblerBlockMetadata.
Proof. through_tuple abm_tuple tuple_abm. Defined.

Definition sample_blocks : BlockCodecs :=
  {| bc_asn1Header := asn1Header_codec; bc_header := header_codec; bc_block := block_codec; bc_metadata := metadata_codec;
     bc_lastConfig := lastConfig_codec; bc_identifier := identifier_codec; bc_abm := abm_codec |}.

Definition state_tuple (p : StateProto) :=
  (ps_NumberOfParties p, (fun s => (pst_Shard s, pst_Term s)) <$> ps_Shards p, baf_tuple <$> ps_Pending p,
   complaint_tuple <$> ps_Complaints p, ps_AppContext p, baf_tuple <$> ps_StaleConfigBafs p,
   (fun h => (phe_Party h, phe_DecisionNum h)) <$> ps_AssemblerHeights p,
   (fun q => (ppp_Shard q, ppp_Primary q, ppp_Seq q)) <$> ps_PrunePoints p, ps_DurableWatermark p).
Definition tuple_state p :=
  let '(n, sh, pe, co, ac, st, ah, pp, dw) := p in
  mkStateProto n ((fun s => mkShardTermProto s.1 s.2) <$> sh) (tuple_baf <$> pe) (tuple_complaint <$> co) ac
    (tuple_baf <$> st) ((fun h => mkHeightProto h.1 h.2) <$> ah) ((fun q => mkPrunePointProto q.1.1 q.1.2 q.2) <$> pp) dw.

Lemma tuple_state_round p : tuple_state (state_tuple p) = p.
Proof.
  destruct p. unfold tuple_state, state_tuple; cbn.
  f_equal; rewrite <-list_fmap_compose; apply fmap_id_elem; by intros [].
Qed.

Definition state_codec : Codec StateProto := codec_zero state_tuple tuple_state tuple_state_round zero_state_proto.
Definition headerProto_codec : Codec HeaderProto.
Proof.
  refine (codec_zero (fun h => (ph_Num h, ph_PrevHash h, ph_AvailableCommonBlocks h, ph_State h, ph_DecisionNumOfLastConfigBlock h))
    (fun p => mkHeaderProto p.1.1.1.1 p.1.1.1.2 p.1.1.2 p.1.2 p.2) _ zero_header_proto).
  by intros [].
Defined.
Definition signature_codec : Codec asn1Signature.
Proof. through_tuple (fun s => (as_ID s, as_Value s, as_Msg s)) (fun p : Z * bytes * bytes => mkAsn1Signature p.1.1 p.1.2 p.2). Defined.
Definition proposal_codec : Codec asn1Proposal.
Proof.
  through_tuple (fun s => (ap_Payload s, ap_Header s, ap_Metadata s, ap_VerificationSequence s))
    (fun p : bytes * bytes * bytes * Z => mkAsn1Proposal p.1.1.1 p.1.1.2 p.1.2 p.2).
Defined.
(** A tag byte, then the content. *)
Definition list_codec : Codec (list bytes).
Proof.
  refine {| enc l := Some (x01 :: put l);
            dec bs := match bs with [] => None | _ :: bs' => fst <$> get bs' end |}.
  intros l bs E. assert (bs = x01 :: put l) as -> by congruence. rewrite <-(app_nil_r (put l)), get_put. done.
Defined.

Definition sample_states : StateCodecs.
Proof.
  refine {| sc_state := state_codec; sc_header := headerProto_codec; sc_signature := signature_codec;
            sc_proposal := proposal_codec; sc_list := list_codec |}; try reflexivity.
  intros l bs E ->. cbn in E. congruence.
Defined.
