(* ===== verification/StateCodecThms.v ===== *)
(** * Properties of the encodings of states, decisions and blocks *)
From S2P Require Import Prelude Types Events State Blocks StateCodec StateCodecFacts Sample SampleBlocks.
From Stdlib Require Import NArith Lia.
From Stdlib Require Import Init.Byte.
Import Quorum.

Section Theorems.
Context `{FabricCodecs} `{BlockCodecs} `{StateCodecs} `{Sha256}.

(** the replicated state survives the wire and is determined by its bytes. Deserializing a serialized state gives
    the state back (up to nil-ness of byte strings), with threshold and quorum recomputed; and two states with the
    same bytes, which is how a follower compares the leader's state with its own, are the same state. *)
Theorem state_round_trip s1 s2 bs :
  state_in_range s1 -> state_in_range s2 -> State_Serialize s1 = Ok bs ->
  State_Deserialize bs = Ok (state_norm s1) /\ (State_Serialize s2 = Ok bs -> state_norm s2 = state_norm s1).
Proof.
  intros R1 R2 E1. pose proof (State_round _ _ R1 E1) as D1. split; [done|]. intros E2.
  pose proof (State_round _ _ R2 E2) as D2. rewrite D1 in D2. by apply Ok_inj in D2.
Qed.

(** proposal headers survive the wire: a header that carries a state with parties is read back with the same
    number, previous hash, blocks, state and last config decision. *)
Theorem header_round_trip h s bs :
  h_State h = Some s -> state_in_range s -> (0 < s_N s)%N -> Header_Serialize h = Ok bs ->
  Header_Deserialize (Some bs) = Ok (header_norm h).
Proof. apply Header_round. Qed.

(** a decision can be recovered from the ledger. The block appended for a decision gives back its proposal and
    its signatures (up to nil-ness) and the decision number of the last config block; it is recognized as a config
    decision exactly when that number is its own. *)
Theorem decision_block_round_trip num p sigs ph lc b :
  (0 < num)%N -> Forall (fun s => (sig_ID s <= u64_max)%N) sigs -> CreateBlockToAppendFromDecision num p sigs ph lc = Ok b ->
  ConsenterBlockToDecision (Some b) = Ok (mkDecision (proposal_norm p) (signature_norm <$> sigs)) /\
  GetLastConfigIndexFromConsenterBlock (Some b) = Ok lc /\
  Consenter_IsConfigBlock (Some b) = (lc =? num)%N.
Proof.
  intros Hn Hids E. split; [by eapply Decision_round|]. pose proof (LastConfigIndex_of_block _ _ _ _ _ _ Hn E) as El. split; [done|].
  unfold Consenter_IsConfigBlock. rewrite El. apply CreateBlock_Ok in E as (? & ? & ? & _ & _ & _ & ->). cbn.
  destruct (N.eqb_spec num 0); [lia|done].
Qed.

(** the signature matrix is the transpose. Unpacking the compound signatures of a decision succeeds exactly when
    every party's signature unpacks into one signature per block and one for the proposal; the entry of block [b]
    and party [p] is then the [b+1]-th signature of party [p]. *)
Theorem signature_matrix csigs nb :
  csigs <> [] -> 0 < nb ->
  (forall us, Forall2 (fun c u => UnPack c = Ok u /\ length u = nb + 1) csigs us ->
     exists m, UnpackBlockHeaderSigs csigs nb = Ok m /\ length m = nb /\
       forall b p, b < nb -> p < length csigs -> (m !! b) ≫= (.!! p) = us !! p ≫= (.!! S b)) /\
  (forall m, UnpackBlockHeaderSigs csigs nb = Ok m -> exists us, Forall2 (fun c u => UnPack c = Ok u /\ length u = nb + 1) csigs us).
Proof.
  intros Hne Hnb. unfold UnpackBlockHeaderSigs. rewrite bool_decide_eq_false_2 by (by destruct csigs). cbn [guard_err].
  rewrite decide_False by lia. split.
  - intros us Hall. destruct (unpack_parties_spec nb 0 (replicate nb (replicate (length csigs) zeroSig)) csigs us (length csigs))
      as (m & -> & Hl & Hspec); [done|by rewrite length_replicate| |lia|].
    { apply Forall_forall. intros row [-> _]%elem_of_replicate. by rewrite length_replicate. }
    exists m. split; [done|split; [done|]]. intros b p Hb Hp. rewrite Hspec by done. rewrite decide_True by lia. by rewrite Nat.sub_0_r.
  - intros m E. by eapply unpack_parties_inv.
Qed.

(** the blocks of a decision are pinned. The data block a leader creates is accepted by the verification with the
    same arguments, and an accepted block has exactly the computed header (number, previous hash, digest of the
    batch), orderer metadata and last config number; likewise for config blocks, whose only transaction must hash to
    the expected digest. *)
Theorem common_blocks_pinned n ph bid tx dn bc bi lc b req cb dh :
  (CreateDataCommonBlock n ph bid tx dn bc bi lc = Ok b -> VerifyDataCommonBlock b n ph bid tx dn bc bi lc = Ok tt) /\
  (VerifyDataCommonBlock b n ph bid tx dn bc bi lc = Ok tt ->
     exists m, AssemblerBlockMetadataToBytes (Some bid) (Some (ordering dn bc bi)) tx = Ok m /\
       block_matches b (mkBlockHeader n ph (bid_Digest bid)) m lc) /\
  (CreateConfigCommonBlock n ph tx dn bc bi req = Ok cb ->
     VerifyConfigCommonBlock cb n ph (BatchedRequests.Digest [req]) tx dn bc bi = Ok tt) /\
  (VerifyConfigCommonBlock cb n ph dh tx dn bc bi = Ok tt ->
     exists m req', AssemblerBlockMetadataToBytes (Some config_batch_id) (Some (ordering dn bc bi)) tx = Ok m /\
       block_matches cb (mkBlockHeader n ph dh) m n /\ b_Data cb = Some [req'] /\ BatchedRequests.Digest [req'] = dh).
Proof.
  split; [apply VerifyData_Create|split; [apply VerifyData_sound|split; [apply VerifyConfig_Create|apply VerifyConfig_sound]]].
Qed.

Lemma ABM_roundtrip bid oi tx m :
  AssemblerBlockMetadataToBytes (Some bid) (Some oi) tx = Ok m ->
  (unmarshal m : outcome AssemblerBlockMetadata) =
    Ok (mkABM (bid_Primary bid) (bid_Shard bid) (bid_Seq bid) (oi_DecisionNum oi) (u32 (oi_BatchIndex oi)) (u32 (oi_BatchCount oi)) tx).
Proof.
  unfold AssemblerBlockMetadataToBytes. cbn [of_option mbind outcome_bind]. intros E%of_option_Ok%dec_enc.
  unfold unmarshal. by rewrite E.
Qed.

(** the assembler's block metadata. What is written for a batch with identifiers in range is read back; but bytes
    that carry a shard or a primary above 65535 are read as all zeros without an error. *)
Theorem assembler_metadata_read bid oi tx m :
  m <> [] -> AssemblerBlockMetadataToBytes (Some bid) (Some oi) tx = Ok m ->
  AssemblerBlockMetadataFromBytes (Some m) =
    if (bid_Shard bid <=? u16_max)%N && (bid_Primary bid <=? u16_max)%N
    then Ok (bid_Primary bid, bid_Shard bid, bid_Seq bid, oi_DecisionNum oi, u32 (oi_BatchIndex oi), u32 (oi_BatchCount oi), tx)
    else Ok (0, 0, 0, 0, 0, 0, 0)%N.
Proof.
  intros Hne E%ABM_roundtrip. unfold AssemblerBlockMetadataFromBytes. cbn [of_option mbind outcome_bind].
  rewrite bool_decide_eq_false_2 by (by destruct m). cbn [guard_err]. rewrite E. cbn.
  destruct (N.ltb_spec u16_max (bid_Shard bid)), (N.leb_spec (bid_Shard bid) u16_max); try lia; cbn; [done|].
  destruct (N.ltb_spec u16_max (bid_Primary bid)), (N.leb_spec (bid_Primary bid) u16_max); try lia; done.
Qed.

(** a short metadata list crashes the verifier. A proposed data block whose header is the expected one but whose
    metadata has between one and three entries makes the verification panic instead of returning an error. *)
Theorem short_metadata_panics n ph bid tx dn bc bi lc m md data :
  AssemblerBlockMetadataToBytes (Some bid) (Some (ordering dn bc bi)) tx = Ok m ->
  md <> [] -> length md <= BlockMetadataIndex_ORDERER ->
  exists e, VerifyDataCommonBlock (mkBlock (Some (mkBlockHeader n ph (bid_Digest bid))) data (Some md)) n ph bid tx dn bc bi lc = Panic e.
Proof.
  intros Hm Hne Hl. unfold VerifyDataCommonBlock. cbn [deref b_Header mbind outcome_bind].
  rewrite !bool_decide_eq_false_2 by (cbn; tauto). cbn [guard_err]. rewrite Hm. cbn [or_panic mbind outcome_bind of_option b_Metadata].
  rewrite bool_decide_eq_false_2 by done. cbn [guard_err]. unfold index. rewrite (lookup_ge_None_2 _ _ Hl). cbn. eauto.
Qed.

End Theorems.

(** ** The theorems at concrete values *)
Section Witnesses.
#[local] Existing Instance sample_fabric.
#[local] Existing Instance sample_blocks.
#[local] Existing Instance sample_states.
#[local] Existing Instance sample_sha.

Definition ok_or_nil (o : outcome bytes) : bytes := match o with Ok bs => bs | _ => [] end.

Lemma sample_in_range : state_in_range sample_state.
Proof. split; repeat constructor; vm_compute; try discriminate; try done; repeat split; discriminate. Qed.

Lemma state_round_trip_witness :
  let bs := ok_or_nil (State_Serialize sample_state) in
  State_Deserialize bs = Ok (state_norm sample_state) /\
  (State_Serialize sample_state = Ok bs -> state_norm sample_state = state_norm sample_state).
Proof. apply (state_round_trip sample_state sample_state); [apply sample_in_range|apply sample_in_range|vm_compute; reflexivity]. Defined.

Definition sample_header : Header := mkHeader 5 [x01] [mkBlock (Some (mkBlockHeader 9 [] [x0a])) (Some []) None] (Some sample_state) 2.

Lemma header_round_trip_witness :
  Header_Deserialize (Some (ok_or_nil (Header_Serialize sample_header))) = Ok (header_norm sample_header).
Proof. apply (header_round_trip sample_header sample_state); [reflexivity|apply sample_in_range|reflexivity|vm_compute; reflexivity]. Defined.

Definition sample_proposal : Proposal := mkProposal (Some [x01]) (Some [x02]) None 3.
Definition sample_sigs : list Signature := [mkSignature 1 (Some [x01]) None; mkSignature 2 None (Some [x02])].

Lemma decision_block_round_trip_witness :
  exists b, CreateBlockToAppendFromDecision 4 sample_proposal sample_sigs [x05] 4 = Ok b /\
  ConsenterBlockToDecision (Some b) = Ok (mkDecision (proposal_norm sample_proposal) (signature_norm <$> sample_sigs)) /\
  GetLastConfigIndexFromConsenterBlock (Some b) = Ok 4%N /\ Consenter_IsConfigBlock (Some b) = true.
Proof.
  eexists. split; [vm_compute; reflexivity|]. apply (decision_block_round_trip 4 sample_proposal sample_sigs [x05] 4);
    [reflexivity|repeat constructor; vm_compute; discriminate|vm_compute; reflexivity].
Defined.

(** Two parties' signatures over a proposal and two blocks. *)
Definition sample_csig (p : N) : Signature :=
  mkSignature p (Some (ok_or_nil (marshal_or_panic [[x01]; [x02]; [x03]]))) (Some (ok_or_nil (marshal_or_panic [[x0a]; [x0b]; [x0c]]))).

Lemma signature_matrix_witness :
  let csigs := [sample_csig 1; sample_csig 2] in
  (forall us, Forall2 (fun c u => UnPack c = Ok u /\ length u = 2 + 1) csigs us ->
     exists m, UnpackBlockHeaderSigs csigs 2 = Ok m /\ length m = 2 /\
       forall b p, b < 2 -> p < length csigs -> (m !! b) ≫= (.!! p) = us !! p ≫= (.!! S b)) /\
  (forall m, UnpackBlockHeaderSigs csigs 2 = Ok m -> exists us, Forall2 (fun c u => UnPack c = Ok u /\ length u = 2 + 1) csigs us).
Proof. apply (signature_matrix [sample_csig 1; sample_csig 2] 2); [discriminate|repeat constructor]. Defined.

Definition sample_bid : BatchID := mkBatchID 1 2 7 [x0a].

Lemma common_blocks_pinned_witness :
  exists b cb, CreateDataCommonBlock 9 [x01] sample_bid 5 4 1 0 2 = Ok b /\ CreateConfigCommonBlock 9 [x01] 5 4 1 0 [x0c] = Ok cb /\
    (CreateDataCommonBlock 9 [x01] sample_bid 5 4 1 0 2 = Ok b -> VerifyDataCommonBlock b 9 [x01] sample_bid 5 4 1 0 2 = Ok tt) /\
    (VerifyDataCommonBlock b 9 [x01] sample_bid 5 4 1 0 2 = Ok tt ->
       exists m, AssemblerBlockMetadataToBytes (Some sample_bid) (Some (ordering 4 1 0)) 5 = Ok m /\
         block_matches b (mkBlockHeader 9 [x01] [x0a]) m 2) /\
    (CreateConfigCommonBlock 9 [x01] 5 4 1 0 [x0c] = Ok cb ->
       VerifyConfigCommonBlock cb 9 [x01] (BatchedRequests.Digest [[x0c]]) 5 4 1 0 = Ok tt) /\
    (VerifyConfigCommonBlock cb 9 [x01] (BatchedRequests.Digest [[x0c]]) 5 4 1 0 = Ok tt ->
       exists m req', AssemblerBlockMetadataToBytes (Some config_batch_id) (Some (ordering 4 1 0)) 5 = Ok m /\
         block_matches cb (mkBlockHeader 9 [x01] (BatchedRequests.Digest [[x0c]])) m 9 /\ b_Data cb = Some [req'] /\
         BatchedRequests.Digest [req'] = BatchedRequests.Digest [[x0c]]).
Proof. do 2 eexists. split; [vm_compute; reflexivity|split; [vm_compute; reflexivity|]]. apply common_blocks_pinned. Defined.

Lemma assembler_metadata_read_witness :
  AssemblerBlockMetadataFromBytes (Some (ok_or_nil (AssemblerBlockMetadataToBytes (Some (mkBatchID 65536 2 7 [])) (Some (ordering 4 1 0)) 5)))
  = Ok (0, 0, 0, 0, 0, 0, 0)%N.
Proof.
  apply (assembler_metadata_read (mkBatchID 65536 2 7 []) (ordering 4 1 0) 5); vm_compute; [discriminate|reflexivity].
Defined.

Lemma short_metadata_panics_witness :
  exists e, VerifyDataCommonBlock (mkBlock (Some (mkBlockHeader 9 [x01] [x0a])) None (Some [[x01]])) 9 [x01] sample_bid 5 4 1 0 2 = Panic e.
Proof.
  apply (short_metadata_panics 9 [x01] sample_bid 5 4 1 0 2 (ok_or_nil (AssemblerBlockMetadataToBytes (Some sample_bid) (Some (ordering 4 1 0)) 5)));
    [vm_compute; reflexivity|discriminate|repeat constructor].
Defined.

End Witnesses.
