(* ===== verification/Consensus.v ===== *)
(** * The consensus application

    [src/node/consensus/consensus.go]: what the node does for the BFT protocol: it verifies requests, assembles and
    verifies proposals, signs and verifies decisions, and delivers them. A node is the record of the fields these
    handlers read and write; they run under the node's lock, so each is a function on it. *)
From S2P Require Import Prelude Types Events State StateFacts StateProps Round Badb Consenter Blocks Ledger StateCodec.
From stdpp Require Import pretty.
From Stdlib Require Import NArith Lia.

(** ** Messages of the BFT library and of block signatures *)
Record ViewMetadata := mkViewMetadata { vm_LatestSequence : N }.
Record OrdererBlockMetadata := mkOBM { obm_LastConfig : N; obm_ConsenterMetadata : bytes }.
Record MessageToSign := mkMessageToSign { mts_IdentifierHeader : bytes; mts_BlockHeader : bytes; mts_OrdererBlockMetadata : bytes }.
Record RequestInfo := mkRequestInfo { ri_ID : bytes; ri_ClientID : string }.

Class BFTCodecs := {
  bft_view :: Codec ViewMetadata;
  bft_obm :: Codec OrdererBlockMetadata;
  bft_msg :: Codec MessageToSign;
  bft_event :: Codec ControlEventProto;
  bft_baf :: Codec asn1BAF
}.

(** What the node is given: the signature scheme, the validation of config requests, and the smartBFT configuration in
    a config block (here its list of nodes). *)
Class Environment := {
  verify_signature : NodeIdentity -> bytes -> bytes -> outcome unit;
  sign : PartyID -> bytes -> outcome bytes;
  ValidateConfigRequest : Envelope -> outcome unit;
  ValidateNewConfig : Envelope -> PartyID -> outcome unit;
  ValidateTransition : ConfigSequence -> Envelope -> outcome unit;
  ExtractSmartBFTConfigFromBlock : Block -> PartyID -> outcome (list N)
}.

Section Consensus.
Context `{FabricCodecs} `{BlockCodecs} `{StateCodecs} `{BFTCodecs} `{Sha256} {R : MapRange} `{DBI : BatchAttestationDB D}
  `{SharedConfigReader} `{Environment}.

Record Consensus := mkConsensus {
  c_PartyID : PartyID;
  c_SelfID : N;
  c_State : option State;
  c_configSeq : N;
  c_lastConfigBlockNum : N;
  c_decisionNumOfLastConfigBlock : DecisionNum;
  c_txCount : N;
  c_PrevHash : bytes;
  c_Storage : list Block;
  c_DB : D;
  c_CurrentNodes : list N;
  c_softStopped : bool
}.

(** ** Requests *)
Definition toBeSignedBAF (baf : BAF) : outcome bytes := BAF_ToBeSigned baf.

Definition duplicateBAFSetSigner (baf : BAF) (signer : PartyID) : BAF :=
  NewSimpleBatchAttestationFragment (baf_shard baf) (baf_primary baf) (baf_seq baf) (baf_digest baf) signer
    (baf_configSequence baf) (baf_txCount baf) (baf_primarySignature baf).

Definition RequestID (req : bytes) : outcome RequestInfo :=
  match ControlEvent_FromBytes req with
  | Ok ce =>
      match ce_Complaint ce, ce_BAF ce, ce_ConfigRequest ce, ce_AssemblerReport ce with
      | None, None, None, None => Ok (mkRequestInfo [] "")
      | _, _, _, _ => id ← ControlEvent_ID ce; Ok (mkRequestInfo id (ControlEvent_SignerID ce))
      end
  | Err _ => Ok (mkRequestInfo [] "")
  | Panic e => Panic e
  end.

(** The config sequence of a request, and whether it is a BAF. *)
Definition getReqConfigSeq (req : bytes) : outcome (N * bool) :=
  ce ← ControlEvent_FromBytes req;
  match ce_Complaint ce, ce_BAF ce, ce_ConfigRequest ce, ce_AssemblerReport ce with
  | Some c, _, _, _ => Ok (c_ConfigSeq c, false)
  | None, Some b, _, _ => Ok (baf_configSequence b, true)
  | None, None, Some cr, _ =>
      configSeq ← ConfigRequest_ConfigSequence cr;
      if (configSeq =? 0)%N then Ok (0%N, false) else Ok ((configSeq - 1)%N, false)
  | None, None, None, Some r => Ok (r_ConfigSeq r, false)
  | None, None, None, None => Err "empty control event"
  end.

Definition maxAssemblerReportSignatureSize : nat := 256.

Definition verifyReportDecisionNum (storage : list Block) (report : AssemblerDecisionReport) (proposalNum : DecisionNum) : outcome unit :=
  if (proposalNum =? 0)%N then
    let height := Height storage in
    fail_if (height =? 0)%N with "assembler decision report received before any decision is committed" ;;
    fail_if (height - 1 <? r_DecisionNum report)%N with "assembler decision report is ahead of the last committed decision" ;;
    Ok tt
  else
    fail_if (proposalNum <=? r_DecisionNum report)%N with "assembler decision report is not below the proposed decision" ;;
    Ok tt.

Definition verifyControlEvent (c : Consensus) (req : bytes) (proposalNum : DecisionNum) : outcome (RequestInfo * ControlEvent) :=
  ce ← ControlEvent_FromBytes req;
  reqID ← RequestID req;
  let configSeq := c_configSeq c in
  match ce_Complaint ce, ce_BAF ce, ce_ConfigRequest ce, ce_AssemblerReport ce with
  | Some complaint, _, _, _ =>
      fail_if negb (c_ConfigSeq complaint =? configSeq)%N with "mismatch config sequence" ;;
      msg ← Complaint_ToBeSigned complaint;
      _ ← verify_signature (NewBatcherIdentity (c_Signer complaint) (c_Shard complaint)) msg (c_Signature complaint);
      Ok (reqID, ce)
  | None, Some baf, _, _ =>
      fail_if (configSeq <? baf_configSequence baf)%N with "config sequence ahead" ;;
      _ ← (if (baf_primary baf =? baf_signer baf)%N then Ok tt else
             fail_if bool_decide (length (slice_bytes (baf_primarySignature baf)) = 0) with "missing primary signature" ;;
             let dupBAF := duplicateBAFSetSigner baf (baf_primary baf) in
             msg ← toBeSignedBAF dupBAF;
             wrap_err "failed to verify primary signature"
               (verify_signature (NewBatcherIdentity (baf_primary baf) (baf_shard baf)) msg (slice_bytes (baf_primarySignature baf))));
      msg ← toBeSignedBAF baf;
      _ ← verify_signature (NewBatcherIdentity (baf_signer baf) (baf_shard baf)) msg (slice_bytes (baf_signature baf));
      Ok (reqID, ce)
  | None, None, Some cr, _ =>
      reqConfigSeq ← wrap_err "failed getting config request's config seq" (ConfigRequest_ConfigSequence cr);
      fail_if negb (reqConfigSeq =? u64_incr configSeq)%N with "mismatch config sequence" ;;
      _ ← wrap_err "failed to verify and classify request" (ValidateConfigRequest (cr_Envelope cr));
      _ ← wrap_err "failed to validate rules in new config" (ValidateNewConfig (cr_Envelope cr) (c_PartyID c));
      _ ← wrap_err "failed to validate config transition rules" (ValidateTransition configSeq (cr_Envelope cr));
      Ok (reqID, ce)
  | None, None, None, Some report =>
      fail_if negb (r_ConfigSeq report =? configSeq)%N with "mismatch config sequence" ;;
      fail_if bool_decide (length (r_Signature report) = 0) with "missing assembler decision report signature" ;;
      _ ← verifyReportDecisionNum (c_Storage c) report proposalNum;
      fail_if bool_decide (maxAssemblerReportSignatureSize < length (r_Signature report)) with "assembler decision report signature too large" ;;
      msg ← Report_ToBeSigned report;
      _ ← wrap_err "invalid assembler decision report signature" (verify_signature (NewAssemblerIdentity (r_Party report)) msg (r_Signature report));
      Ok (reqID, ce)
  | None, None, None, None => Err "empty control event"
  end.

Definition verifyCE (c : Consensus) (req : bytes) := verifyControlEvent c req 0.
Definition verifyProposalCE (c : Consensus) (req : bytes) (proposalNum : DecisionNum) := verifyControlEvent c req proposalNum.

Definition VerifyRequest (c : Consensus) (req : bytes) : outcome RequestInfo :=
  r ← verifyCE c req; Ok r.1.

(** What SubmitRequest hands to the BFT protocol's pool. *)
Definition SubmitRequest (c : Consensus) (req : bytes) : outcome bytes :=
  fail_if c_softStopped c with "consensus is soft-stopped" ;;
  _ ← verifyCE c req;
  Ok req.

Definition verify_proposal_request (c : Consensus) (verificationSeq : N) (proposalNum : DecisionNum) (rawReq : bytes) : outcome RequestInfo :=
  sq ← wrap_err "invalid request" (getReqConfigSeq rawReq);
  let '(configSeq, isBAF) := sq in
  if (configSeq =? verificationSeq)%N || (isBAF && (configSeq <? verificationSeq)%N) then
    r ← wrap_err "invalid request" (verifyProposalCE c rawReq proposalNum); Ok r.1
  else RequestID rawReq.

Definition verifyProposalRequests (c : Consensus) (requests : list bytes) (verificationSeq : N) (proposalNum : DecisionNum)
    : outcome (list RequestInfo) :=
  omapM (verify_proposal_request c verificationSeq proposalNum) requests.

Definition RequestsFromProposal (proposal : Proposal) : outcome (list RequestInfo) :=
  match BatchedRequests.Deserialize (slice_bytes (p_Payload proposal)) with
  | Ok batch => omapM RequestID batch
  | _ => Panic "failed deserializing proposal payload"
  end.

(** ** Proposals *)

(** The transition of a round and, if there is a config request, the first one applied. *)
Definition simulate (c : Consensus) (requests : list bytes) : outcome (State * list (list BAF) * list ConfigRequest) :=
  st ← deref (c_State c);
  r ← SimulateStateTransition (c_DB c) st (c_configSeq c) requests;
  let '(newState, attestations, configRequests) := r in
  newState ← (match configRequests with cr :: _ => ApplyConfigToState newState cr | [] => Ok newState end);
  Ok (newState, attestations, configRequests).

(** numOfAvailableBlocks: a config block is added to the data blocks if there is a config request. *)
Definition num_blocks (attestations : list (list BAF)) (configRequests : list ConfigRequest) : N :=
  N.of_nat (length attestations + match configRequests with [] => 0 | _ => 1 end).

(** The position in the chain: number and hash of the last block, and the running transaction count. *)
Record chain := mkChain { ch_num : N; ch_prevHash : bytes; ch_txs : N }.

Definition chain_start (st : State) (txCount : N) : outcome chain :=
  lastCommonBlockHeader ← or_panic (unmarshal (slice_bytes (s_AppContext st)) : outcome BlockHeader);
  prevHash ← BlockHeaderHash lastCommonBlockHeader;
  Ok (mkChain (bh_Number lastCommonBlockHeader) prevHash txCount).

(** The data blocks of the attestations, one after the other; also the header of the last block, if any. *)
Fixpoint create_data_blocks (decisionNum batchCount lastConfigBlockNum : N) (i : nat) (ch : chain) (lastHeader : option BlockHeader)
    (attestations : list (list BAF)) : outcome (list Block * chain * option BlockHeader) :=
  match attestations with
  | [] => Ok ([], ch, lastHeader)
  | ba :: rest =>
      baf ← index ba 0;
      let num := u64_incr (ch_num ch) in
      let txs := u64 (ch_txs ch + baf_txCount baf) in
      block ← or_panic (CreateDataCommonBlock num (ch_prevHash ch) (BatchID_of baf) txs decisionNum batchCount (N.of_nat i) lastConfigBlockNum);
      header ← deref (b_Header block);
      prevHash ← BlockHeaderHash header;
      r ← create_data_blocks decisionNum batchCount lastConfigBlockNum (S i) (mkChain num prevHash txs) (Some header) rest;
      let '(blocks, ch', lastHeader') := r in
      Ok (block :: blocks, ch', lastHeader')
  end.

Definition AssembleProposal (c : Consensus) (metadata : bytes) (requests : list bytes) : outcome Proposal :=
  r ← or_panic (simulate c requests);
  let '(newState, attestations, configRequests) := r in
  ch ← chain_start newState (c_txCount c);
  md ← or_panic (unmarshal metadata : outcome ViewMetadata);
  let decisionNum := vm_LatestSequence md in
  let numOfAvailableBlocks := num_blocks attestations configRequests in
  r ← create_data_blocks decisionNum numOfAvailableBlocks (c_lastConfigBlockNum c) 0 ch None attestations;
  let '(blocks, ch, lastHeader) := r in
  r ← (match configRequests with
       | [] => Ok (blocks, lastHeader, c_decisionNumOfLastConfigBlock c)
       | cr :: _ =>
           configReq ← marshal_or_panic (cr_Envelope cr);
           configBlock ← or_panic (CreateConfigCommonBlock (u64_incr (ch_num ch)) (ch_prevHash ch) (u64_incr (ch_txs ch)) decisionNum
                           numOfAvailableBlocks (numOfAvailableBlocks - 1) configReq);
           header ← deref (b_Header configBlock);
           Ok (blocks ++ [configBlock], Some header, decisionNum)
       end);
  let '(availableCommonBlocks, lastHeader, decisionNumOfLastConfigBlock) := r in
  newState ← (match lastHeader with
              | Some h => ctx ← marshal_or_panic h; Ok (with_AppContext (Some ctx) newState)
              | None => Ok newState
              end);
  header ← Header_Serialize (mkHeader decisionNum (c_PrevHash c) availableCommonBlocks (Some newState) decisionNumOfLastConfigBlock);
  Ok (mkProposal (Some (BatchedRequests.Serialize requests)) (Some header) (Some metadata) (i64_of_u64 (c_configSeq c))).

Fixpoint verify_data_blocks (proposed : list Block) (decisionNum batchCount lastConfigBlockNum : N) (i : nat) (ch : chain)
    (lastHeader : option BlockHeader) (attestations : list (list BAF)) : outcome (chain * option BlockHeader) :=
  match attestations with
  | [] => Ok (ch, lastHeader)
  | ba :: rest =>
      baf ← index ba 0;
      let num := u64_incr (ch_num ch) in
      let txs := u64 (ch_txs ch + baf_txCount baf) in
      block ← index proposed i;
      _ ← wrap_err "failed verifying proposed block" (VerifyDataCommonBlock block num (ch_prevHash ch) (BatchID_of baf) txs decisionNum
            batchCount (N.of_nat i) lastConfigBlockNum);
      let header := mkBlockHeader num (ch_prevHash ch) (baf_digest baf) in
      prevHash ← BlockHeaderHash header;
      verify_data_blocks proposed decisionNum batchCount lastConfigBlockNum (S i) (mkChain num prevHash txs) (Some header) rest
  end.

(** [c] is the node when the requests are verified, [c'] the node when the lock is taken for the rest: a
    reconfiguration may have come in between. *)
Definition VerifyProposal (c c' : Consensus) (proposal : Proposal) : outcome (list RequestInfo) :=
  match p_Header proposal, p_Metadata proposal, p_Payload proposal with
  | Some rawHeader, Some rawMetadata, Some payload =>
      requests ← wrap_err "failed to deserialize proposal payload" (BatchedRequests.Deserialize payload);
      hdr ← wrap_err "failed to deserialize proposal header" (Header_Deserialize (Some rawHeader));
      hdrState ← of_option "state in proposal header is nil" (h_State hdr);
      md ← wrap_err "failed to unmarshal proposal metadata" (unmarshal rawMetadata : outcome ViewMetadata);
      let decisionNum := vm_LatestSequence md in
      fail_if negb (decisionNum =? h_Num hdr)%N with "proposed number isn't equal to computed number" ;;
      let verificationSeq := c_configSeq c in
      fail_if negb (verificationSeq =? u64_of_i64 (p_VerificationSequence proposal))%N with "unexpected verification sequence" ;;
      reqInfos ← verifyProposalRequests c requests verificationSeq (h_Num hdr);
      fail_if negb (c_configSeq c' =? verificationSeq)%N with "verification sequence changed while verifying the proposal" ;;
      r ← simulate c' requests;
      let '(computedState, attestations, configRequests) := r in
      let numOfAvailableBlocks := num_blocks attestations configRequests in
      let decisionNumOfLastConfigBlock := match configRequests with [] => c_decisionNumOfLastConfigBlock c' | _ => decisionNum end in
      fail_if negb (h_DecisionNumOfLastConfigBlock hdr =? decisionNumOfLastConfigBlock)%N
        with "proposed decision num of last config block isn't equal to computed" ;;
      ch ← chain_start computedState (c_txCount c');
      r ← verify_data_blocks (h_AvailableCommonBlocks hdr) decisionNum numOfAvailableBlocks (c_lastConfigBlockNum c') 0 ch None attestations;
      let '(ch, lastHeader) := r in
      lastHeader ← (match configRequests with
        | [] => Ok lastHeader
        | cr :: _ =>
            configReq ← marshal_or_panic (cr_Envelope cr);
            let dataHash := BatchedRequests.Digest [configReq] in
            block ← index (h_AvailableCommonBlocks hdr) (length attestations);
            _ ← wrap_err "failed verifying proposed config block" (VerifyConfigCommonBlock block (u64_incr (ch_num ch)) (ch_prevHash ch) dataHash
                  (u64_incr (ch_txs ch)) decisionNum numOfAvailableBlocks (numOfAvailableBlocks - 1));
            Ok (Some (mkBlockHeader (u64_incr (ch_num ch)) (ch_prevHash ch) dataHash))
        end);
      computedState ← (match lastHeader with
        | Some h => ctx ← marshal_or_panic h; Ok (with_AppContext (Some ctx) computedState)
        | None => Ok computedState
        end);
      proposedBytes ← State_Serialize hdrState;
      computedBytes ← State_Serialize computedState;
      fail_if bool_decide (proposedBytes <> computedBytes) with "proposed state isn't equal to computed state" ;;
      Ok reqInfos
  | _, _, _ => Err "proposal has a nil header or metadata or payload"
  end.

(** ** Signatures over decisions *)
Definition orderer_metadata (lastConfig : N) (consenterMetadata : bytes) : outcome bytes := marshal_or_panic (mkOBM lastConfig consenterMetadata).

(** The message over the proposal, as the header of the consenter block will be. *)
Definition proposal_message (identifier : bytes) (proposal : Proposal) (num decisionNumOfLastConfigBlock : N) (prevHash : bytes) : outcome bytes :=
  proposalBytes ← ProposalToBytes proposal;
  bh ← BlockHeaderBytes (mkBlockHeader num prevHash (ComputeBlockDataHash [proposalBytes]));
  obm ← orderer_metadata decisionNumOfLastConfigBlock (slice_bytes (p_Metadata proposal));
  marshal_or_panic (mkMessageToSign identifier bh obm).

Definition block_message (identifier : bytes) (block : Block) (lastConfigBlockNum : N) : outcome bytes :=
  header ← deref (b_Header block);
  bh ← BlockHeaderBytes header;
  md ← deref (b_Metadata block);
  consenterMetadata ← index md BlockMetadataIndex_ORDERER;
  obm ← orderer_metadata lastConfigBlockNum consenterMetadata;
  marshal_or_panic (mkMessageToSign identifier bh obm).

(** protoutil.NewIdentifierHeaderOrPanic with its random nonce. *)
Definition identifier_header (id : N) (nonce : bytes) : outcome bytes := marshal_or_panic (mkIdentifierHeader (u32 id) nonce).

(** The loop over the blocks: once a config block is met, its number is the last config of it and of those after it. *)
Fixpoint sign_blocks (c : Consensus) (lastConfigBlockNum : N) (nonces : nat -> bytes) (i : nat) (blocks : list Block) : outcome (list (bytes * bytes)) :=
  match blocks with
  | [] => Ok []
  | ab :: rest =>
      lastConfigBlockNum ← (if IsConfigBlock ab then header ← deref (b_Header ab); Ok (bh_Number header) else Ok lastConfigBlockNum);
      identifier ← identifier_header (c_PartyID c) (nonces i);
      msgBytes ← block_message identifier ab lastConfigBlockNum;
      sig ← or_panic (sign (c_PartyID c) msgBytes);
      r ← sign_blocks c lastConfigBlockNum nonces (S i) rest;
      Ok ((sig, msgBytes) :: r)
  end.

Definition SignProposal (c : Consensus) (nonces : nat -> bytes) (proposal : Proposal) : outcome Signature :=
  _ ← or_panic (BatchedRequests.Deserialize (slice_bytes (p_Payload proposal)));
  hdr ← or_panic (Header_Deserialize (p_Header proposal));
  let decisionNumOfLastConfigBlock :=
    if (h_Num hdr =? h_DecisionNumOfLastConfigBlock hdr)%N then h_Num hdr else c_decisionNumOfLastConfigBlock c in
  identifier ← identifier_header (c_PartyID c) (nonces 0);
  proposalMsgBytes ← proposal_message identifier proposal (h_Num hdr) decisionNumOfLastConfigBlock (h_PrevHash hdr);
  proposalSig ← or_panic (sign (c_PartyID c) proposalMsgBytes);
  r ← sign_blocks c (c_lastConfigBlockNum c) nonces 1 (h_AvailableCommonBlocks hdr);
  sigsRaw ← marshal_or_panic (proposalSig :: (fst <$> r));
  msgsRaw ← marshal_or_panic (proposalMsgBytes :: (snd <$> r));
  Ok (mkSignature (c_SelfID c) (Some sigsRaw) (Some msgsRaw)).

(** The identifier in a signed message, which must be that of the signer. *)
Definition check_identifier (msg : MessageToSign) (signatureID : N) : outcome unit :=
  idHeader ← wrap_err "failed to unmarshal identifier header" (unmarshal (mts_IdentifierHeader msg) : outcome IdentifierHeader);
  fail_if negb (ih_Identifier idHeader =? signatureID)%N with "signature ID does not match identifier header ID" ;;
  Ok tt.

Definition verifyProposalMessageToSign (proposalMsg : MessageToSign) (proposalMsgBytes : bytes) (signatureID : N) (proposal : Proposal)
    (num decisionNumOfLastConfigBlock : N) (prevHash : bytes) : outcome unit :=
  _ ← check_identifier proposalMsg signatureID;
  computed ← proposal_message (mts_IdentifierHeader proposalMsg) proposal num decisionNumOfLastConfigBlock prevHash;
  fail_if bool_decide (proposalMsgBytes <> computed) with "proposal message content is not as expected" ;;
  Ok tt.

Definition verifyBlockMessageToSign (msg : MessageToSign) (msgBytes : bytes) (signatureID : N) (block : Block) (lastConfigBlockNum : N) : outcome unit :=
  _ ← check_identifier msg signatureID;
  lastConfigBlockNum ← (if IsConfigBlock block then header ← deref (b_Header block); Ok (bh_Number header) else Ok lastConfigBlockNum);
  computed ← block_message (mts_IdentifierHeader msg) block lastConfigBlockNum;
  fail_if bool_decide (msgBytes <> computed) with "message content is not as expected" ;;
  Ok tt.

(** PartyID(signature.ID) is a conversion to uint16. *)
Definition VerifySignature (id : N) (msg value : bytes) : outcome unit :=
  verify_signature (NewConsenterIdentity (u16 id)) msg value.

Fixpoint verify_block_sigs (id : N) (values msgs : list bytes) (lastConfigBlockNum : N) (i : nat) (blocks : list Block) : outcome unit :=
  match blocks with
  | [] => Ok tt
  | ab :: rest =>
      msgBytes ← index msgs (i + 1);
      msg ← (unmarshal msgBytes : outcome MessageToSign);
      _ ← wrap_err "failed verifying msg over block" (verifyBlockMessageToSign msg msgBytes id ab lastConfigBlockNum);
      value ← index values (i + 1);
      _ ← wrap_err "failed verifying signature over block" (VerifySignature id msgBytes value);
      verify_block_sigs id values msgs lastConfigBlockNum (S i) rest
  end.

Definition VerifyConsenterSig (c : Consensus) (signature : Signature) (prop : Proposal) : outcome unit :=
  rawValue ← of_option "signature value is nil" (sig_Value signature);
  values ← wrap_err "failed unmarshaling signature value" (unmarshal rawValue : outcome (list bytes));
  fail_if bool_decide (length values = 0) with "signature values array is empty" ;;
  rawMsg ← of_option "signature msg is nil" (sig_Msg signature);
  msgs ← wrap_err "failed unmarshaling signature msg" (unmarshal rawMsg : outcome (list bytes));
  fail_if bool_decide (length msgs = 0) with "signature msgs array is empty" ;;
  hdr ← wrap_err "failed deserializing proposal header" (Header_Deserialize (p_Header prop));
  let decisionNumOfLastConfigBlock :=
    if (h_Num hdr =? h_DecisionNumOfLastConfigBlock hdr)%N then h_Num hdr else c_decisionNumOfLastConfigBlock c in
  proposalMsgBytes ← index msgs 0;
  proposalMsg ← (unmarshal proposalMsgBytes : outcome MessageToSign);
  _ ← wrap_err "failed verifying proposal msg" (verifyProposalMessageToSign proposalMsg proposalMsgBytes (sig_ID signature) prop (h_Num hdr)
        decisionNumOfLastConfigBlock (h_PrevHash hdr));
  value ← index values 0;
  _ ← wrap_err "failed verifying signature over proposal" (VerifySignature (sig_ID signature) proposalMsgBytes value);
  verify_block_sigs (sig_ID signature) values msgs (c_lastConfigBlockNum c) 0 (h_AvailableCommonBlocks hdr).

(** ** Delivery *)
Record Reconfig := mkReconfig { rc_CurrentNodes : list N; rc_InLatestDecision : bool }.

(** The digests of the data blocks; GetHeader and GetDataHash read through nil. *)
Definition digests_of_header (hdr : Header) : list bytes :=
  (fun ab => default [] (bh_DataHash <$> b_Header ab)) <$> filter (fun ab => IsConfigBlock ab = false) (h_AvailableCommonBlocks hdr).

Definition headerAndDigestsFromProposal (proposal : Proposal) : outcome (Header * list bytes) :=
  hdr ← or_panic (Header_Deserialize (p_Header proposal));
  Ok (hdr, digests_of_header hdr).

Definition getLastTxCountFromHeader (hdr : Header) : outcome N :=
  match last (h_AvailableCommonBlocks hdr) with
  | None => Ok 0%N
  | Some lastBlock => r ← or_panic (AssemblerBatchIdOrderingInfoAndTxCountFromBlock (Some lastBlock)); Ok r.2
  end.

(** The running transaction count; the counters of the metrics are not part of the node. *)
Definition updateMetricsOnDeliver (hdr : Header) (txCount : N) : outcome N :=
  t ← getLastTxCountFromHeader hdr;
  Ok (if (0 <? t)%N then t else txCount).

(** The config block of a decision: the last block, when the decision is the last config decision. *)
Definition config_block_of (hdr : Header) : outcome (option Block) :=
  if (h_Num hdr =? h_DecisionNumOfLastConfigBlock hdr)%N then
    match last (h_AvailableCommonBlocks hdr) with
    | Some b => Ok (Some b)
    | None => Panic "index out of range [-1]"
    end
  else Ok None.

(** What delivering a header does to the config fields; [decision] is the number recorded for a new config block. *)
Definition deliver_config (c : Consensus) (hdr : Header) (decision : DecisionNum) : outcome (N * DecisionNum * Reconfig * bool) :=
  cb ← config_block_of hdr;
  match cb with
  | None => Ok (c_lastConfigBlockNum c, c_decisionNumOfLastConfigBlock c, mkReconfig (c_CurrentNodes c) false, false)
  | Some configBlock =>
      header ← deref (b_Header configBlock);
      let lastBlockNum := bh_Number header in
      currentNodes ← or_panic (ExtractSmartBFTConfigFromBlock configBlock (c_PartyID c));
      if (c_lastConfigBlockNum c <? lastBlockNum)%N
      then Ok (lastBlockNum, decision, mkReconfig currentNodes true, true)
      else Ok (c_lastConfigBlockNum c, c_decisionNumOfLastConfigBlock c, mkReconfig currentNodes true, false)
  end.

(** The node, the reconfiguration reported to the protocol, and whether a reconfiguration of the node is started. *)
Definition Deliver (c : Consensus) (proposal : Proposal) (signatures : list Signature) : outcome (Consensus * Reconfig * bool) :=
  hd ← headerAndDigestsFromProposal proposal;
  let '(hdr, digests) := hd in
  db ← Index (c_DB c) digests;
  block ← CreateBlockToAppendFromDecision (h_Num hdr) proposal signatures (c_PrevHash c) (h_DecisionNumOfLastConfigBlock hdr);
  storage ← Append (c_Storage c) block;
  header ← deref (b_Header block);
  prevHash ← BlockHeaderHash header;
  r ← deliver_config c hdr (h_Num hdr);
  let '(lastConfigBlockNum, decisionNumOfLastConfigBlock, reconfig, started) := r in
  txCount ← updateMetricsOnDeliver hdr (c_txCount c);
  Ok (mkConsensus (c_PartyID c) (c_SelfID c) (h_State hdr) (c_configSeq c) lastConfigBlockNum decisionNumOfLastConfigBlock txCount prevHash
        storage db (c_CurrentNodes c) (c_softStopped c), reconfig, started).

(** The same for a block that the synchronizer pulled, indexed and wrote to the ledger. *)
Definition UpdateStateAndRuntimeConfig (c : Consensus) (block : Block) : outcome (Consensus * Reconfig * bool) :=
  proposal ← or_panic (ConsenterBlockToProposal (Some block));
  hd ← headerAndDigestsFromProposal proposal;
  let hdr := hd.1 in
  header ← deref (b_Header block);
  prevHash ← BlockHeaderHash header;
  r ← deliver_config c hdr (h_DecisionNumOfLastConfigBlock hdr);
  let '(lastConfigBlockNum, decisionNumOfLastConfigBlock, reconfig, started) := r in
  txCount ← updateMetricsOnDeliver hdr (c_txCount c);
  Ok (mkConsensus (c_PartyID c) (c_SelfID c) (h_State hdr) (c_configSeq c) lastConfigBlockNum decisionNumOfLastConfigBlock txCount prevHash
        (c_Storage c) (c_DB c) (c_CurrentNodes c) (c_softStopped c), reconfig, started).

(** The requests removed from the pool for a pulled block. *)
Definition PruneRequestsFromMemPool (block : Block) : outcome (list RequestInfo) :=
  if (default 0%N (bh_Number <$> b_Header block) =? 0)%N then Ok [] else
  decision ← or_panic (ConsenterBlockToDecision (Some block));
  batch ← or_panic (BatchedRequests.Deserialize (slice_bytes (p_Payload (d_Proposal decision))));
  omapM RequestID batch.

End Consensus.
Arguments Consensus D : clear implicits.
