(* ===== verification/ConsensusFacts.v ===== *)
(** * Facts on proposals, signatures and delivery *)
From S2P Require Import Prelude Types Events State StateFacts StateProps Round Badb Consenter Blocks StateCodec StateCodecFacts Consensus.
From Stdlib Require Import NArith Lia.
Import Quorum.

(** ** Identifiers of decoded events *)
Definition event_ids_ok (ce : ControlEvent) : Prop :=
  match ce_BAF ce with Some b => BAF_ids_ok b | None => True end /\
  match ce_Complaint ce with Some c => (c_Shard c <= u16_max)%N /\ (c_Signer c <= u16_max)%N | None => True end /\
  match ce_AssemblerReport ce with Some r => (r_Party r <= u16_max)%N | None => True end.

Section Facts.
Context `{FabricCodecs} `{BlockCodecs} `{StateCodecs} `{BFTCodecs} `{Sha256} `{SharedConfigReader}.

Lemma decoded_ids_ok bs ce : ControlEvent_FromBytes bs = Ok ce -> event_ids_ok ce.
Proof.
  unfold ControlEvent_FromBytes, ControlEvent_fromProto. intros E. apply bind_Ok_inv in E as (pe & _ & E).
  destruct pe as [o|o|o|o|]; [..|done]; apply bind_Ok_inv in E as (pb & _ & E); apply bind_Ok_inv in E as (x & Hx & E); apply Ok_inj in E as <-.
  - apply BAF_FromProto_range in Hx as (? & ? & ? & _). done.
  - unfold Complaint_fromProto in Hx. outcome_inv. rewrite N.ltb_ge in *. done.
  - done.
  - unfold Report_fromProto in Hx. outcome_inv. rewrite N.ltb_ge in *. done.
Qed.

Lemma decoded_all_ids_ok requests ces : requestsToControlEvents requests = Ok ces -> Forall event_ids_ok ces.
Proof.
  intros E%omapM_Ok. apply Forall_forall. intros ce Hin. apply list_elem_of_lookup in Hin as [i Hi].
  destruct (Forall2_lookup_r _ _ _ _ _ E Hi) as (req & _ & Hf). by eapply decoded_ids_ok.
Qed.

(** A round keeps the state in the ranges of its wire format. *)
Lemma Process_in_range {R : MapRange} cs ces s s' ex rq :
  round_ready s -> Forall single ces -> Forall event_ids_ok ces -> state_in_range s ->
  Process cs ces s = Ok (s', ex, rq) -> state_in_range s' /\ s_N s' = s_N s.
Proof.
  intros Hready Hs Hids [HN HTQ Hsh Hp Hc Hst Hh Hpp] E.
  destruct (Process_spec cs ces s Hready Hs) as (new & rot & P & hs & w & s2 & ex2 & rq2 & E2 & He).
  assert (s2 = s') as -> by congruence. rewrite Forall_forall in Hids.
  assert (forall b, b ∈ omap ce_BAF (filter (keeps cs) ces) -> BAF_ids_ok b) as Hb.
  { intros b (ce & [_ Hce]%list_elem_of_filter & Hbaf)%list_elem_of_omap. specialize (Hids ce Hce) as (Hi & _). by rewrite Hbaf in Hi. }
  assert (forall b, b ∈ round_pending cs ces s -> BAF_ids_ok b) as Hround.
  { intros b [[? _]|[? _]]%round_pending_elem; [|auto]. rewrite Forall_forall in Hp. auto. }
  split; [|apply He]. split.
  - by rewrite (re_N _ _ _ _ _ _ _ _ _ _ _ He).
  - by rewrite (re_N _ _ _ _ _ _ _ _ _ _ _ He), (re_Threshold _ _ _ _ _ _ _ _ _ _ _ He), (re_Quorum _ _ _ _ _ _ _ _ _ _ _ He).
  - rewrite (re_Shards _ _ _ _ _ _ _ _ _ _ _ He). rewrite !Forall_fmap. eapply Forall_impl; [exact Hsh|].
    intros st Hle. cbn. unfold rotate_terms, rotate_in. by repeat case_decide.
  - rewrite (re_Pending _ _ _ _ _ _ _ _ _ _ _ He). apply Forall_forall. intros b [_ Hin]%list_elem_of_filter. auto.
  - rewrite (re_Complaints _ _ _ _ _ _ _ _ _ _ _ He). apply Forall_forall. intros c [_ [_ Hin]%list_elem_of_filter]%list_elem_of_filter.
    apply elem_of_app in Hin as [[_ Hin]%list_elem_of_filter|Hin]; [rewrite Forall_forall in Hc; auto|].
    apply (re_new_sub _ _ _ _ _ _ _ _ _ _ _ He) in Hin. apply list_elem_of_omap in Hin as (ce & [_ Hce]%list_elem_of_filter & Hcc).
    specialize (Hids ce Hce) as (_ & Hi & _). by rewrite Hcc in Hi.
  - rewrite (re_Stale _ _ _ _ _ _ _ _ _ _ _ He). apply Forall_forall. unfold stale_bafs.
    intros b [_ (ce & Hce & Hbaf)%list_elem_of_omap]%list_elem_of_filter. specialize (Hids ce Hce) as (Hi & _). by rewrite Hbaf in Hi.
  - destruct (re_heights _ _ _ _ _ _ _ _ _ _ _ He) as (-> & _ & Hrec). apply Forall_forall. intros h Hin.
    apply (rec_sound _ _ _ Hrec) in Hin as [Hin|(r & Hr & ->)]; [rewrite Forall_forall in Hh; auto|]. cbn.
    apply list_elem_of_omap in Hr as (ce & [_ Hce]%list_elem_of_filter & Hrr). specialize (Hids ce Hce) as (_ & _ & Hi). by rewrite Hrr in Hi.
  - by rewrite (re_PrunePoints _ _ _ _ _ _ _ _ _ _ _ He).
Qed.

Lemma with_AppContext_in_range ctx s : state_in_range s -> state_in_range (with_AppContext ctx s).
Proof. intros []. by split. Qed.

Lemma ApplyConfig_in_range s cr ps s' :
  state_in_range s -> shared_parties cr = Ok ps -> (0 < N.of_nat (length ps) <= u16_max)%N -> ApplyConfigToState s cr = Ok s' ->
  state_in_range s' /\ (0 < s_N s')%N.
Proof.
  intros [HN HTQ Hsh Hp Hc Hst Hh Hpp] Hps Hlen E. unfold ApplyConfigToState, Clone in E. rewrite Hps in E. cbn [mbind outcome_bind] in E.
  rewrite u16_small in E by lia. destruct (ComputeFTQ (N.of_nat (length ps))) as [[f T] Q] eqn:EF. apply Ok_inj in E. subst s'.
  destruct (decide _); cbn -[N.eqb ComputeFTQ]; (split; [|lia]); split; cbn -[N.eqb ComputeFTQ]; try done; try lia.
  all: try (rewrite (proj2 (N.eqb_neq _ 0)) by lia; by rewrite EF).
  all: try (apply Forall_forall; intros h [_ Hin]%list_elem_of_filter; rewrite Forall_forall in Hh; by apply Hh).
  rewrite Forall_fmap. eapply Forall_impl; [exact Hsh|]. done.
Qed.

(** ** Two nodes with the same view *)
Lemma Simulate_agree {R1 R2 : MapRange} `{DB1 : BatchAttestationDB D1} `{DB2 : BatchAttestationDB D2} (db1 : D1) (db2 : D2) ds s cs reqs :
  db_holds db1 ds -> db_holds db2 ds ->
  @SimulateStateTransition _ _ R1 _ DB1 db1 s cs reqs = @SimulateStateTransition _ _ R2 _ DB2 db2 s cs reqs.
Proof.
  intros H1' H2'. unfold SimulateStateTransition. destruct (requestsToControlEvents reqs) as [ces| |]; [|done..].
  rewrite (pruneKnown_spec db1 ds), (pruneKnown_spec db2 ds) by done. cbn [mbind outcome_bind].
  by rewrite (Process_order_irrelevant R1 R2).
Qed.

Record same_view {D1 D2} `{DB1 : BatchAttestationDB D1} `{DB2 : BatchAttestationDB D2} (c1 : Consensus D1) (c2 : Consensus D2) (ds : gset bytes) : Prop := {
  sv_state : c_State c1 = c_State c2;
  sv_seq : c_configSeq c1 = c_configSeq c2;
  sv_lastConfig : c_lastConfigBlockNum c1 = c_lastConfigBlockNum c2;
  sv_decision : c_decisionNumOfLastConfigBlock c1 = c_decisionNumOfLastConfigBlock c2;
  sv_txs : c_txCount c1 = c_txCount c2;
  sv_db1 : db_holds (c_DB c1) ds;
  sv_db2 : db_holds (c_DB c2) ds
}.

Lemma simulate_agree {R1 R2 : MapRange} `{DB1 : BatchAttestationDB D1} `{DB2 : BatchAttestationDB D2} (c1 : Consensus D1) (c2 : Consensus D2) ds reqs :
  same_view c1 c2 ds ->
  simulate (R := R1) c1 reqs = simulate (R := R2) c2 reqs.
Proof.
  intros [Hs Hq _ _ _ Hd1 Hd2]. unfold simulate. rewrite Hs, Hq. destruct (c_State c2) as [st|]; [|done]. cbn [deref mbind outcome_bind].
  by rewrite (Simulate_agree (c_DB c1) (c_DB c2) ds).
Qed.

(** The state a simulation returns fits the wire format. *)
Lemma simulate_in_range {R : MapRange} `{DBI : BatchAttestationDB D} (c : Consensus D) ds st reqs st' atts crs :
  c_State c = Some st -> db_holds (c_DB c) ds -> round_ready st -> state_in_range st ->
  config_in_range (c_DB c) st (c_configSeq c) reqs ->
  simulate c reqs = Ok (st', atts, crs) -> state_in_range st' /\ (0 < s_N st')%N.
Proof.
  intros Hst Hdb Hready Hr Hcfg E. unfold simulate in E. rewrite Hst in E. cbn [deref mbind outcome_bind] in E.
  apply bind_Ok_inv in E as ([[s1 atts1] crs1] & E1 & E). apply bind_Ok_inv in E as (s2 & E2 & E).
  assert (s2 = st') as -> by congruence. pose proof E1 as Esim. unfold SimulateStateTransition in E1.
  destruct (requestsToControlEvents reqs) as [ces| |] eqn:Ec; [|done..].
  rewrite (pruneKnown_spec _ ds) in E1 by done. cbn [mbind outcome_bind] in E1.
  apply bind_Ok_inv in E1 as ([[s3 ex] rq] & Ep & E1). assert (s3 = s1) as -> by congruence.
  pose proof (decoded_single _ _ Ec) as Hsing. pose proof (decoded_all_ids_ok _ _ Ec) as Hids.
  destruct (Process_in_range _ _ _ _ _ _ Hready (Forall_filter _ (new_event ds) _ Hsing) (Forall_filter _ (new_event ds) _ Hids) Hr Ep) as [Hr1 HN1].
  destruct crs1 as [|cr crs1]; cbn [mbind outcome_bind] in E2.
  - apply Ok_inj in E2 as <-. split; [done|]. rewrite HN1. apply Hready.
  - destruct (ApplyConfigToState_reads _ _ _ E2) as [ps Hps]. pose proof (Hcfg _ _ _ _ _ Esim Hps). by eapply ApplyConfig_in_range.
Qed.

(** ** The leader's blocks pass the follower's checks *)
Lemma create_verify_blocks dn bc lc proposed i ch lh atts blocks ch' lh' :
  create_data_blocks dn bc lc i ch lh atts = Ok (blocks, ch', lh') ->
  (forall j b, blocks !! j = Some b -> proposed !! (i + j) = Some b) ->
  verify_data_blocks proposed dn bc lc i ch lh atts = Ok (ch', lh') /\ length blocks = length atts.
Proof.
  revert i ch lh blocks ch' lh'. induction atts as [|ba atts IH]; intros i ch lh blocks ch' lh' E Hprop; cbn [create_data_blocks] in E.
  { assert (blocks = [] /\ ch = ch' /\ lh = lh') as (-> & -> & ->) by (repeat split; congruence). done. }
  apply bind_Ok_inv in E as (baf & Hbaf & E). apply bind_Ok_inv in E as (b & Hb%or_panic_Ok & E).
  apply bind_Ok_inv in E as (h & Hh & E). apply bind_Ok_inv in E as (ph & Hph & E). apply bind_Ok_inv in E as ([[bl ch2] lh2] & Hrec & E).
  assert (blocks = b :: bl /\ ch2 = ch' /\ lh2 = lh') as (-> & -> & ->) by (repeat split; congruence).
  pose proof (VerifyData_Create _ _ _ _ _ _ _ _ _ Hb) as Hv. destruct (CreateData_Ok _ _ _ _ _ _ _ _ _ Hb) as (m & l & _ & _ & ->).
  cbn [deref b_Header] in Hh. apply Ok_inj in Hh as <-. cbn [bid_Digest BatchID_of] in *.
  destruct (IH _ _ _ _ _ _ Hrec) as [Hvr Hlen].
  { intros j b' Hj. specialize (Hprop (S j) b' Hj). by rewrite Nat.add_succ_r in Hprop. }
  split; [|cbn; by rewrite Hlen]. cbn [verify_data_blocks]. rewrite Hbaf. cbn [mbind outcome_bind].
  assert (proposed !! i = Some (mkBlock (Some (mkBlockHeader (u64_incr (ch_num ch)) (ch_prevHash ch) (baf_digest baf))) (Some []) (Some [[]; l; []; m; []]))) as Hi
    by (rewrite <-(Nat.add_0_r i); by apply Hprop).
  unfold index at 1. rewrite Hi. cbn [mbind outcome_bind]. rewrite Hv. cbn [wrap_err mbind outcome_bind]. rewrite Hph. cbn [mbind outcome_bind]. exact Hvr.
Qed.

(** ** What an accepted proposal must contain *)

(** The headers the attestations determine, from a position in the chain. *)
Fixpoint expected_headers (ch : chain) (atts : list (list BAF)) : outcome (list BlockHeader) :=
  match atts with
  | [] => Ok []
  | ba :: rest =>
      baf ← index ba 0;
      let header := mkBlockHeader (u64_incr (ch_num ch)) (ch_prevHash ch) (baf_digest baf) in
      prevHash ← BlockHeaderHash header;
      hs ← expected_headers (mkChain (u64_incr (ch_num ch)) prevHash (u64 (ch_txs ch + baf_txCount baf))) rest;
      Ok (header :: hs)
  end.

Lemma verify_blocks_headers proposed dn bc lc i ch lh atts r :
  verify_data_blocks proposed dn bc lc i ch lh atts = Ok r ->
  exists hs, expected_headers ch atts = Ok hs /\ length hs = length atts /\
    r.2 = match last hs with Some h => Some h | None => lh end /\
    forall j h, hs !! j = Some h -> exists b, proposed !! (i + j) = Some b /\ b_Header b = Some h.
Proof.
  revert i ch lh. induction atts as [|ba atts IH]; intros i ch lh E; cbn [verify_data_blocks] in E.
  { apply Ok_inj in E as <-. exists []. split; [done|split; [done|split; [done|]]]. intros j h Hj. by rewrite lookup_nil in Hj. }
  apply bind_Ok_inv in E as (baf & Hbaf & E). apply bind_Ok_inv in E as (b & Hb%index_Ok & E).
  apply bind_Ok_inv in E as ([] & Hv%wrap_err_Ok & E). apply bind_Ok_inv in E as (ph & Hph & E).
  destruct (IH _ _ _ E) as (hs & Hhs & Hl & Hlast & Hspec). cbn [expected_headers]. rewrite Hbaf. cbn [mbind outcome_bind]. rewrite Hph. cbn [mbind outcome_bind].
  rewrite Hhs. cbn [mbind outcome_bind]. eexists. split; [reflexivity|]. split; [cbn; by rewrite Hl|]. split; [rewrite Hlast, last_cons; by destruct (last hs)|].
  intros [|j] h Hj; cbn in Hj.
  - assert (h = mkBlockHeader (u64_incr (ch_num ch)) (ch_prevHash ch) (baf_digest baf)) as -> by congruence.
    apply VerifyData_sound in Hv as (m & _ & Hbh & _). rewrite Nat.add_0_r. by exists b.
  - rewrite Nat.add_succ_r. apply (Hspec j h Hj).
Qed.

Lemma lookup_prefix {A} (k l : list A) : (forall j x, k !! j = Some x -> l !! j = Some x) -> k `prefix_of` l.
Proof.
  revert l. induction k as [|x k IH]; intros l Hl; [apply prefix_nil|]. pose proof (Hl 0 x eq_refl) as H0'. destruct l as [|y l]; [done|].
  injection H0' as ->. apply prefix_cons, IH. intros j z. apply (Hl (S j)).
Qed.
(** A header that continues a chain after the last header so far, or at the start of it. *)
Definition continues (ch : chain) (previous : option BlockHeader) (h : BlockHeader) : Prop :=
  match previous with
  | Some p => bh_Number h = u64_incr (bh_Number p) /\ BlockHeaderHash p = Ok (bh_PreviousHash h)
  | None => bh_Number h = u64_incr (ch_num ch) /\ bh_PreviousHash h = ch_prevHash ch
  end.
Lemma verify_blocks_chain proposed dn bc lc i ch lh atts ch' lh' hs d :
  verify_data_blocks proposed dn bc lc i ch lh atts = Ok (ch', lh') -> expected_headers ch atts = Ok hs ->
  continues ch (last hs) (mkBlockHeader (u64_incr (ch_num ch')) (ch_prevHash ch') d).
Proof.
  revert i ch lh hs. induction atts as [|ba atts IH]; intros i ch lh hs E Hhs; cbn [verify_data_blocks expected_headers] in E, Hhs.
  { apply Ok_inj in Hhs as <-. assert (ch = ch') as -> by congruence. done. }
  apply bind_Ok_inv in E as (baf & Hbaf & E). apply bind_Ok_inv in E as (b & _ & E). apply bind_Ok_inv in E as ([] & _ & E). apply bind_Ok_inv in E as (ph & Hph & E).
  rewrite Hbaf in Hhs. cbn [mbind outcome_bind] in Hhs. rewrite Hph in Hhs. cbn [mbind outcome_bind] in Hhs. apply bind_Ok_inv in Hhs as (hs' & Hhs' & Hhs). apply Ok_inj in Hhs as <-.
  specialize (IH _ _ _ _ E Hhs'). rewrite last_cons. destruct (last hs') as [h|]; [exact IH|]. destruct IH as [IH1 IH2]. cbn in IH1, IH2 |- *. by rewrite IH2.
Qed.

(** The checks only read the blocks they compute. *)
Lemma verify_blocks_prefix proposed proposed' dn bc lc i ch lh atts r :
  verify_data_blocks proposed dn bc lc i ch lh atts = Ok r -> proposed `prefix_of` proposed' ->
  verify_data_blocks proposed' dn bc lc i ch lh atts = Ok r.
Proof.
  intros E Hpre. revert i ch lh E. induction atts as [|ba atts IH]; intros i ch lh E; [done|]. cbn [verify_data_blocks] in E |- *.
  apply bind_Ok_inv in E as (baf & Hbaf & E). apply bind_Ok_inv in E as (b & Hb%index_Ok & E).
  rewrite Hbaf. cbn [mbind outcome_bind]. unfold index at 1. rewrite (prefix_lookup_Some _ _ _ _ Hb Hpre). cbn [mbind outcome_bind].
  apply bind_Ok_inv in E as ([] & Hv & E). rewrite Hv. cbn [mbind outcome_bind].
  apply bind_Ok_inv in E as (ph & Hph & E). rewrite Hph. cbn [mbind outcome_bind]. by apply IH.
Qed.

End Facts.
