(* ===== verification/SampleNode.v ===== *)
(** * A concrete consensus node

    Codecs of the protocol's messages, a toy signature scheme, and a small node with requests for its next decision. *)
From S2P Require Import Prelude Types Events State StateFacts StateProps Round Badb Consenter Blocks Ledger StateCodec Consensus Sample SampleBlocks.
From Stdlib Require Import NArith.
From Stdlib Require Import Init.Byte.

Definition view_codec : Codec ViewMetadata.
Proof. refine (codec_zero vm_LatestSequence mkViewMetadata _ (mkViewMetadata 0)). by intros []. Defined.
Definition obm_codec : Codec OrdererBlockMetadata.
Proof. through_tuple (fun o => (obm_LastConfig o, obm_ConsenterMetadata o)) (fun p => mkOBM p.1 p.2). Defined.
Definition msg_codec : Codec MessageToSign.
Proof.
  through_tuple (fun m => (mts_IdentifierHeader m, mts_BlockHeader m, mts_OrdererBlockMetadata m))
    (fun p : bytes * bytes * bytes => mkMessageToSign p.1.1 p.1.2 p.2).
Defined.
Definition sample_bft : BFTCodecs :=
  {| bft_view := view_codec; bft_obm := obm_codec; bft_msg := msg_codec; bft_event := event_codec; bft_baf := asn1_codec |}.

Definition one_byte : bytes := [x01].
Definition sample_env : Environment :=
  {| verify_signature _ _ sig := if decide (sig = one_byte) then Ok tt else Err "invalid signature";
     sign _ _ := Ok one_byte;
     ValidateConfigRequest _ := Ok tt;
     ValidateNewConfig _ _ := Ok tt;
     ValidateTransition _ _ := Ok tt;
     ExtractSmartBFTConfigFromBlock _ _ := Ok [1; 2; 3; 4]%N |}.

Definition ok_bytes (o : outcome bytes) : bytes := match o with Ok bs => bs | _ => [] end.

Section SampleNode.
#[local] Existing Instance sample_fabric.
#[local] Existing Instance sample_blocks.
#[local] Existing Instance sample_states.
#[local] Existing Instance sample_bft.
#[local] Existing Instance sample_sha.

Definition signed_fragment (signer : N) : BAF := mkBAF 1 1 7 dgA signer (Some one_byte) (Some one_byte) 3 5.
Definition sample_tip : BlockHeader := mkBlockHeader 9 [x0a] [x0b].
Definition node_state : State :=
  mkState 4 3 2 [mkShardTerm 1 0; mkShardTerm 2 4] [signed_fragment 1] [complaint_by 1]
    (Some (ok_bytes (marshal_or_panic sample_tip))) [] [mkHeight 1 5; mkHeight 2 6] [] 0.
Definition node_events : list ControlEvent :=
  [BAFEvent (signed_fragment 2); ComplaintEvent (complaint_by 2); ReportEvent (report_by 3 6)].
Definition node_requests : list bytes := (fun ce => ok_bytes (ControlEvent_Bytes ce)) <$> node_events.
Definition node_metadata : bytes := ok_bytes (marshal_or_panic (mkViewMetadata 8)).

(** A ledger of eight blocks. *)
Definition next_block (ledger : list Block) : list Block :=
  ledger ++ [mkBlock (Some (mkBlockHeader (Height ledger) (ok_bytes (CurrentBlockHash ledger)) [x05])) (Some [[x05]]) None].
Definition sample_ledger : list Block := Nat.iter 8 next_block [].

(** Node [id] of four, before decision 8, at config sequence 3. *)
Definition sample_consensus (id : N) : Consensus Badb.t :=
  mkConsensus id id (Some node_state) 3 4 2 30 (ok_bytes (CurrentBlockHash sample_ledger)) sample_ledger (Badb.mk true ∅) [1; 2; 3; 4]%N false.

Lemma append_next ledger ph : CurrentBlockHash ledger = Ok ph -> Append ledger (mkBlock (Some (mkBlockHeader (Height ledger) ph [x05])) (Some [[x05]]) None) = Ok (next_block ledger).
Proof.
  intros E. unfold Append, addBlock, next_block. cbn [b_Header deref mbind outcome_bind bh_Number bh_PreviousHash]. rewrite N.eqb_refl. cbn [negb guard_err].
  rewrite E. cbn [mbind outcome_bind]. by rewrite bool_decide_eq_false_2 by tauto.
Qed.

Lemma next_block_hash ledger : exists ph, CurrentBlockHash (next_block ledger) = Ok ph.
Proof. unfold next_block, CurrentBlockHash. rewrite last_snoc. eexists. reflexivity. Qed.

Lemma sample_ledger_chain : chain_ok sample_ledger.
Proof.
  assert (forall n, chain_ok (Nat.iter n next_block []) /\ exists ph, CurrentBlockHash (Nat.iter n next_block []) = Ok ph) as Hn; [|apply Hn].
  induction n as [|n [Hc [ph Hph]]]; [split; [apply chain_ok_nil|by eexists]|]. split; [|apply next_block_hash].
  eapply Append_chain; [exact Hc|apply append_next, Hph].
Qed.

Lemma node_state_ready : round_ready node_state.
Proof.
  split.
  - done.
  - by exists 1%N.
  - vm_compute. repeat constructor; set_solver.
  - repeat constructor.
  - repeat constructor; vm_compute; done.
Qed.

Lemma empty_db_holds : db_holds (Badb.mk true ∅) ∅.
Proof. split; [done|]. rewrite gset_to_gmap_empty. apply Badb.represents_empty. Qed.
End SampleNode.
