(* ===== verification/ConsensusThms.v ===== *)
(** * Properties of the consensus application *)
From S2P Require Import Prelude Types Events State StateFacts StateProps Round Badb Consenter Blocks StateCodec StateCodecFacts Consensus ConsensusFacts Sample SampleBlocks SampleNode RoundThms.
From Stdlib Require Import NArith Lia.
From Stdlib Require Import Init.Byte.
Import Quorum.

Section Theorems.
Context `{FabricCodecs} `{BlockCodecs} `{StateCodecs} `{BFTCodecs} `{Sha256} `{SharedConfigReader} `{Environment}.

(** What a leader's proposal is made of. *)
Record assembled {R : MapRange} `{DBI : BatchAttestationDB D} (c : Consensus D) (metadata : bytes) (requests : list bytes) (p : Proposal)
    (dn : N) (st st' : State) (atts : list (list BAF)) (crs : list ConfigRequest) (hdr : Header) (rawHeader : bytes) : Prop := {
  as_view : (unmarshal metadata : outcome ViewMetadata) = Ok (mkViewMetadata dn);
  as_simulate : simulate c requests = Ok (st, atts, crs);
  as_rawHeader : Header_Serialize hdr = Ok rawHeader;
  as_num : h_Num hdr = dn;
  as_state : h_State hdr = Some st';
  as_dlc : h_DecisionNumOfLastConfigBlock hdr = match crs with [] => c_decisionNumOfLastConfigBlock c | _ => dn end;
  as_proposal : p = mkProposal (Some (BatchedRequests.Serialize requests)) (Some rawHeader) (Some metadata) (i64_of_u64 (c_configSeq c));
  as_blocks : exists ch blocks ch' lh lh',
    chain_start st (c_txCount c) = Ok ch /\
    create_data_blocks dn (num_blocks atts crs) (c_lastConfigBlockNum c) 0 ch None atts = Ok (blocks, ch', lh) /\
    match crs with
    | [] => h_AvailableCommonBlocks hdr = blocks /\ lh' = lh
    | cr :: _ => exists req b h, marshal_or_panic (cr_Envelope cr) = Ok req /\
        CreateConfigCommonBlock (u64_incr (ch_num ch')) (ch_prevHash ch') (u64_incr (ch_txs ch')) dn (num_blocks atts crs)
          (num_blocks atts crs - 1) req = Ok b /\ b_Header b = Some h /\
        h_AvailableCommonBlocks hdr = blocks ++ [b] /\ lh' = Some h
    end /\
    match lh' with
    | Some h => exists ctx, marshal_or_panic h = Ok ctx /\ st' = with_AppContext (Some ctx) st
    | None => st' = st
    end
}.

Lemma Assemble_inv {R : MapRange} `{DBI : BatchAttestationDB D} (c : Consensus D) metadata requests p :
  AssembleProposal c metadata requests = Ok p ->
  exists dn st st' atts crs hdr rawHeader, assembled c metadata requests p dn st st' atts crs hdr rawHeader.
Proof.
  unfold AssembleProposal. intros E. apply bind_Ok_inv in E as ([[st atts] crs] & Hsim%or_panic_Ok & E).
  apply bind_Ok_inv in E as (ch & Hch & E). apply bind_Ok_inv in E as ([dn] & Hmd%or_panic_Ok & E). cbn [vm_LatestSequence] in E.
  apply bind_Ok_inv in E as ([[blocks ch'] lh] & Hbl & E). apply bind_Ok_inv in E as ([[all lh'] dlc] & Hall & E).
  apply bind_Ok_inv in E as (st' & Hst' & E). apply bind_Ok_inv in E as (raw & Hraw & E). apply Ok_inj in E as <-.
  exists dn, st, st', atts, crs, (mkHeader dn (c_PrevHash c) all (Some st') dlc), raw. split; try done.
  - destruct crs as [|cr crs].
    + apply Ok_inj in Hall. cbn. congruence.
    + outcome_inv. done.
  - exists ch, blocks, ch', lh, lh'. split; [done|split; [done|split]].
    + destruct crs as [|cr crs].
      * apply Ok_inj in Hall. split; cbn; congruence.
      * apply bind_Ok_inv in Hall as (req & Hreq & Hall). apply bind_Ok_inv in Hall as (b & Hb%or_panic_Ok & Hall).
        apply bind_Ok_inv in Hall as (h & Hh & Hall). destruct (b_Header b) as [h'|] eqn:Ebh; [|done]. cbn in Hh. apply Ok_inj in Hh as ->.
        apply Ok_inj in Hall. exists req, b, h. cbn. repeat split; try done; congruence.
    + destruct lh' as [h|].
      * apply bind_Ok_inv in Hst' as (ctx & Hctx & E). apply Ok_inj in E as <-. by exists ctx.
      * by apply Ok_inj in Hst' as <-.
Qed.

(** C8: an honest leader's proposal is accepted. If a follower has the same view as the leader (state, configuration,
    chain position, digests ordered so far), whatever the two nodes' map iteration orders and databases, then its
    verdict on the proposal that the leader assembles is its verdict on the requests: it accepts the proposal, with
    their infos, if it can verify each of them, and otherwise fails with the error of the first that it cannot verify.
    If the transition applies a config that can be read, that config must have between 1 and 65535 parties. *)
Theorem honest_proposal_accepted (R1 R2 : MapRange) `{DB1 : BatchAttestationDB D1} `{DB2 : BatchAttestationDB D2}
    (leader : Consensus D1) (follower : Consensus D2) ds st metadata dn requests p :
  same_view leader follower ds -> c_State leader = Some st -> round_ready st -> state_in_range st ->
  (c_configSeq leader <= u64_max)%N -> requests <> [] -> BatchedRequests.sizes_ok requests ->
  config_in_range (R := R1) (c_DB leader) st (c_configSeq leader) requests ->
  (unmarshal metadata : outcome ViewMetadata) = Ok (mkViewMetadata dn) ->
  AssembleProposal (R := R1) leader metadata requests = Ok p ->
  VerifyProposal (R := R2) follower follower p = verifyProposalRequests follower requests (c_configSeq follower) dn.
Proof.
  intros Hv Hst Hready Hr Hseq Hne Hok Hcfg Hmd E.
  destruct (Assemble_inv _ _ _ _ E) as (dn' & st1 & st' & atts & crs & hdr & raw & [Hview Hsim Hraw Hnum Hhst Hdlc -> Hblocks]).
  rewrite Hmd in Hview. assert (dn' = dn) as -> by congruence. clear Hview.
  destruct (simulate_in_range leader ds st requests st1 atts crs Hst (sv_db1 _ _ _ Hv) Hready Hr Hcfg Hsim) as [Hr1 HN1].
  destruct Hblocks as (ch & blocks & ch' & lh & lh' & Hch & Hcreate & Hconf & Hctx).
  assert (state_in_range st' /\ (0 < s_N st')%N) as [Hr' HN'].
  { destruct lh' as [h|]; [destruct Hctx as (ctx & _ & ->)|subst st']; [split; [by apply with_AppContext_in_range|done]|done]. }
  unfold VerifyProposal. cbn [p_Header p_Metadata p_Payload]. rewrite BatchedRequests.Deserialize_Serialize by done. cbn [wrap_err mbind outcome_bind].
  rewrite (Header_round hdr st' raw) by done. cbn [wrap_err mbind outcome_bind]. unfold header_norm. cbn [h_State h_Num h_AvailableCommonBlocks h_DecisionNumOfLastConfigBlock].
  rewrite Hhst. cbn [fmap option_fmap option_map of_option mbind outcome_bind]. rewrite Hmd. cbn [wrap_err mbind outcome_bind vm_LatestSequence].
  rewrite Hnum, N.eqb_refl. cbn [negb guard_err]. cbn [p_VerificationSequence]. rewrite u64_i64 by done. rewrite (sv_seq _ _ _ Hv), N.eqb_refl. cbn [negb guard_err].
  destruct (verifyProposalRequests follower requests (c_configSeq follower) dn) as [infos| |]; [|done..]. cbn [mbind outcome_bind negb guard_err].
  rewrite <-(simulate_agree (R1 := R1) (R2 := R2) leader follower ds requests Hv), Hsim. cbn [mbind outcome_bind].
  rewrite Hdlc, (sv_decision _ _ _ Hv), N.eqb_refl. cbn [negb guard_err]. rewrite <-(sv_txs _ _ _ Hv), Hch. cbn [mbind outcome_bind].
  rewrite (sv_lastConfig _ _ _ Hv) in Hcreate.
  destruct (create_verify_blocks dn (num_blocks atts crs) (c_lastConfigBlockNum follower) (h_AvailableCommonBlocks hdr) 0 ch None atts blocks ch' lh Hcreate) as [Hvb Hlen].
  { intros j b Hj. cbn. destruct crs as [|cr crs]; [by destruct Hconf as [-> _]|]. destruct Hconf as (req & b' & h & _ & _ & _ & -> & _). by apply lookup_app_l_Some. }
  rewrite Hvb. cbn [mbind outcome_bind].
  assert (forall o, (match lh' with Some h => ctx ← marshal_or_panic h; Ok (with_AppContext (Some ctx) st1) | None => Ok st1 end = o) -> o = Ok st') as Hfin.
  { intros o <-. destruct lh' as [h|]; [destruct Hctx as (ctx & -> & ->); done|by rewrite Hctx]. }
  assert (exists sb, State_Serialize st' = Ok sb) as [sb Hsb] by (unfold Header_Serialize in Hraw; rewrite Hhst in Hraw; outcome_inv; eauto).
  assert (forall (X : outcome (option BlockHeader)), X = Ok lh' ->
    (lastHeader ← X;
     computedState ← (match lastHeader with Some h => ctx ← marshal_or_panic h; Ok (with_AppContext (Some ctx) st1) | None => Ok st1 end);
     proposedBytes ← State_Serialize (state_norm st');
     computedBytes ← State_Serialize computedState;
     fail_if bool_decide (proposedBytes <> computedBytes) with "proposed state isn't equal to computed state" ;; Ok infos) = Ok infos) as Hend.
  { intros X ->. cbn [mbind outcome_bind]. rewrite (Hfin _ eq_refl). cbn [mbind outcome_bind]. rewrite State_Serialize_norm, Hsb. cbn [mbind outcome_bind].
    rewrite bool_decide_eq_false_2 by tauto. done. }
  destruct crs as [|cr crs]; apply Hend.
  - by destruct Hconf as [_ ->].
  - destruct Hconf as (req & b & h & Hreq & Hb & Hbh & Hall & ->). rewrite Hreq. cbn [mbind outcome_bind].
    rewrite Hall. unfold index. rewrite lookup_app_r by lia. rewrite Hlen, Nat.sub_diag. cbn [lookup list_lookup mbind outcome_bind].
    rewrite (VerifyConfig_Create _ _ _ _ _ _ _ _ Hb). cbn [wrap_err mbind outcome_bind].
    destruct (CreateConfig_Ok _ _ _ _ _ _ _ _ Hb) as (m & l & _ & _ & ->). cbn in Hbh. congruence.
Qed.

(** The state a proposal must carry: the computed one, with the header of its last block as context. *)
Definition carries (lastHeader : option BlockHeader) (st st' : State) : Prop :=
  match lastHeader with
  | Some h => exists ctx, marshal_or_panic h = Ok ctx /\ st' = with_AppContext (Some ctx) st
  | None => st' = st
  end.

(** The steps of an accepting run of the verification. *)
Record verified {R : MapRange} `{DBI : BatchAttestationDB D} (c c' : Consensus D) (p : Proposal) (infos : list RequestInfo)
    (hdr : Header) (requests : list bytes) (stH st st' : State) (atts : list (list BAF)) (crs : list ConfigRequest) (ch ch' : chain)
    (lh lh' : option BlockHeader) : Prop := {
  v_header : Header_Deserialize (p_Header p) = Ok hdr;
  v_requests : exists payload, p_Payload p = Some payload /\ BatchedRequests.Deserialize payload = Ok requests;
  v_view : exists md, p_Metadata p = Some md /\ (unmarshal md : outcome ViewMetadata) = Ok (mkViewMetadata (h_Num hdr));
  v_seq : c_configSeq c = u64_of_i64 (p_VerificationSequence p) /\ c_configSeq c' = c_configSeq c;
  v_infos : verifyProposalRequests c requests (c_configSeq c) (h_Num hdr) = Ok infos;
  v_simulate : simulate c' requests = Ok (st, atts, crs);
  v_dlc : h_DecisionNumOfLastConfigBlock hdr = match crs with [] => c_decisionNumOfLastConfigBlock c' | _ => h_Num hdr end;
  v_chain : chain_start st (c_txCount c') = Ok ch;
  v_blocks : verify_data_blocks (h_AvailableCommonBlocks hdr) (h_Num hdr) (num_blocks atts crs) (c_lastConfigBlockNum c') 0 ch None atts = Ok (ch', lh);
  v_config : match crs with
    | [] => lh' = lh
    | cr :: _ => exists req b, marshal_or_panic (cr_Envelope cr) = Ok req /\ h_AvailableCommonBlocks hdr !! length atts = Some b /\
        VerifyConfigCommonBlock b (u64_incr (ch_num ch')) (ch_prevHash ch') (BatchedRequests.Digest [req]) (u64_incr (ch_txs ch')) (h_Num hdr)
          (num_blocks atts crs) (num_blocks atts crs - 1) = Ok tt /\
        lh' = Some (mkBlockHeader (u64_incr (ch_num ch')) (ch_prevHash ch') (BatchedRequests.Digest [req]))
    end;
  v_context : carries lh' st st';
  v_state : h_State hdr = Some stH /\ exists bs, State_Serialize stH = Ok bs /\ State_Serialize st' = Ok bs
}.

Lemma Verify_inv {R : MapRange} `{DBI : BatchAttestationDB D} (c c' : Consensus D) p infos :
  VerifyProposal c c' p = Ok infos ->
  exists hdr requests stH st st' atts crs ch ch' lh lh', verified c c' p infos hdr requests stH st st' atts crs ch ch' lh lh'.
Proof.
  unfold VerifyProposal. destruct (p_Header p) as [rawH|] eqn:EH, (p_Metadata p) as [rawM|] eqn:EM, (p_Payload p) as [payload|] eqn:EP; try done.
  intros E. apply bind_Ok_inv in E as (requests & Hreq%wrap_err_Ok & E). apply bind_Ok_inv in E as (hdr & Hhdr%wrap_err_Ok & E).
  apply bind_Ok_inv in E as (stH & HstH%of_option_Ok & E). apply bind_Ok_inv in E as ([dn] & Hmd%wrap_err_Ok & E). cbn [vm_LatestSequence] in E.
  apply guard_err_Ok in E as [G1%negb_false_iff%N.eqb_eq E]. subst dn. apply guard_err_Ok in E as [G2%negb_false_iff%N.eqb_eq E].
  apply bind_Ok_inv in E as (infos' & Hinfos & E). apply guard_err_Ok in E as [G3%negb_false_iff%N.eqb_eq E].
  apply bind_Ok_inv in E as ([[st atts] crs] & Hsim & E). apply guard_err_Ok in E as [G4%negb_false_iff%N.eqb_eq E].
  apply bind_Ok_inv in E as (ch & Hch & E). apply bind_Ok_inv in E as ([ch' lh] & Hbl & E). apply bind_Ok_inv in E as (lh' & Hlh' & E).
  apply bind_Ok_inv in E as (st' & Hst' & E). apply bind_Ok_inv in E as (b1 & Hb1 & E). apply bind_Ok_inv in E as (b2 & Hb2 & E).
  apply guard_err_Ok in E as [G5 E]. apply bool_decide_eq_false, dec_stable in G5. subst b2. apply Ok_inj in E as ->.
  exists hdr, requests, stH, st, st', atts, crs, ch, ch', lh, lh'. split; try done.
  - by rewrite EH.
  - by exists payload.
  - by exists rawM.
  - destruct crs as [|cr crs]; [by apply Ok_inj in Hlh'|].
    apply bind_Ok_inv in Hlh' as (req & Hr & Hlh'). apply bind_Ok_inv in Hlh' as (b & Hb%index_Ok & Hlh').
    apply bind_Ok_inv in Hlh' as ([] & Hv%wrap_err_Ok & Hlh'). apply Ok_inj in Hlh'. by exists req, b.
  - destruct lh' as [h|]; cbn; [|by apply Ok_inj in Hst']. apply bind_Ok_inv in Hst' as (ctx & Hc & E). apply Ok_inj in E. by exists ctx.
  - split; [done|]. by exists b1.
Qed.

Lemma Verify_intro {R : MapRange} `{DBI : BatchAttestationDB D} (c c' : Consensus D) p infos hdr requests stH st st' atts crs ch ch' lh lh' :
  verified c c' p infos hdr requests stH st st' atts crs ch ch' lh lh' -> VerifyProposal c c' p = Ok infos.
Proof.
  intros [Hh (payload & EP & Hreq) (md & EM & Hmd) [G2 G3] Hinfos Hsim Hdlc Hch Hbl Hconf Hctx [HstH (bs & Hb1 & Hb2)]].
  destruct (p_Header p) as [rawH|] eqn:EH; [|done]. unfold VerifyProposal. rewrite EH, EM, EP, Hreq. cbn [wrap_err mbind outcome_bind].
  rewrite Hh. cbn [wrap_err mbind outcome_bind]. rewrite HstH. cbn [of_option mbind outcome_bind]. rewrite Hmd. cbn [wrap_err mbind outcome_bind vm_LatestSequence].
  rewrite N.eqb_refl. cbn [negb guard_err]. rewrite <-G2, N.eqb_refl. cbn [negb guard_err]. rewrite Hinfos. cbn [mbind outcome_bind].
  rewrite G3, N.eqb_refl. cbn [negb guard_err]. rewrite Hsim. cbn [mbind outcome_bind].
  rewrite Hdlc, N.eqb_refl. cbn [negb guard_err]. rewrite Hch. cbn [mbind outcome_bind]. rewrite Hbl. cbn [mbind outcome_bind].
  assert (forall X, X = Ok lh' ->
    (lastHeader ← X;
     computedState ← (match lastHeader with Some h => ctx ← marshal_or_panic h; Ok (with_AppContext (Some ctx) st) | None => Ok st end);
     proposedBytes ← State_Serialize stH; computedBytes ← State_Serialize computedState;
     fail_if bool_decide (proposedBytes <> computedBytes) with "proposed state isn't equal to computed state" ;; Ok infos) = Ok infos) as Hend.
  { intros X ->. cbn [mbind outcome_bind]. destruct lh' as [h|]; cbn in Hctx; [destruct Hctx as (ctx & -> & ->)|subst st']; cbn [mbind outcome_bind];
      rewrite Hb1; cbn [mbind outcome_bind]; rewrite Hb2; cbn [mbind outcome_bind]; by rewrite bool_decide_eq_false_2 by tauto. }
  destruct crs as [|cr crs]; apply Hend; [by subst|]. destruct Hconf as (req & b & Hr & Hb & Hv & ->). rewrite Hr. cbn [mbind outcome_bind].
  unfold index. rewrite Hb. cbn [mbind outcome_bind]. by rewrite Hv.
Qed.

(** C9: an accepted proposal is right in what is verified of it. Acceptance implies that the configuration did not
    change meanwhile, every request passed the verification, and the transition of the follower's own state by the
    proposed requests returned; the headers of the proposed blocks begin with those of the ordered batches, hash-chained
    and numbered consecutively from the last block of the state, followed by that of a config block if a config is
    applied; and the proposed state has the bytes of the computed state, with the last of these headers recorded. Nothing is
    said of the [surplus] of blocks after them and of the previous hash in the proposal ([unverified_header_parts]). *)
Theorem accepted_proposal_sound {R : MapRange} `{DBI : BatchAttestationDB D} (c c' : Consensus D) p infos :
  VerifyProposal c c' p = Ok infos ->
  exists hdr payload requests st st' atts crs ch hs config surplus bs,
    Header_Deserialize (p_Header p) = Ok hdr /\ p_Payload p = Some payload /\ BatchedRequests.Deserialize payload = Ok requests /\
    c_configSeq c' = c_configSeq c /\
    Forall (fun req => exists info, verify_proposal_request c (c_configSeq c) (h_Num hdr) req = Ok info) requests /\
    simulate c' requests = Ok (st, atts, crs) /\ chain_start st (c_txCount c') = Ok ch /\
    expected_headers ch atts = Ok hs /\ length hs = length atts /\
    match crs with
    | [] => config = [] /\ h_DecisionNumOfLastConfigBlock hdr = c_decisionNumOfLastConfigBlock c'
    | cr :: _ => exists req h, config = [h] /\ marshal_or_panic (cr_Envelope cr) = Ok req /\ continues ch (last hs) h /\
        bh_DataHash h = BatchedRequests.Digest [req] /\ h_DecisionNumOfLastConfigBlock hdr = h_Num hdr
    end /\
    b_Header <$> h_AvailableCommonBlocks hdr = (Some <$> hs ++ config) ++ surplus /\
    carries (last (hs ++ config)) st st' /\ State_Serialize st' = Ok bs /\ (exists stH, h_State hdr = Some stH /\ State_Serialize stH = Ok bs).
Proof.
  intros E. destruct (Verify_inv _ _ _ _ E) as (hdr & requests & stH & st & st' & atts & crs & ch & ch' & lh & lh' & Hv).
  destruct Hv as [Hh (payload & EP & Hreq) _ [_ G3] Hinfos Hsim Hdlc Hch Hbl Hconf Hctx [HstH (bs & Hb1 & Hb2)]].
  destruct (verify_blocks_headers _ _ _ _ _ _ _ _ _ Hbl) as (hs & Hhs & Hl & Hlast & Hspec).
  assert (Forall (fun req => exists info, verify_proposal_request c (c_configSeq c) (h_Num hdr) req = Ok info) requests) as Hreqs.
  { apply Forall_forall. intros req Hin. apply omapM_Ok in Hinfos. apply list_elem_of_lookup in Hin as [i Hi].
    destruct (Forall2_lookup_l _ _ _ _ _ Hinfos Hi) as (info & _ & Hf). by exists info. }
  assert (exists config, lh' = last (hs ++ config) /\
    match crs with
    | [] => config = [] /\ h_DecisionNumOfLastConfigBlock hdr = c_decisionNumOfLastConfigBlock c'
    | cr :: _ => exists req h, config = [h] /\ marshal_or_panic (cr_Envelope cr) = Ok req /\ continues ch (last hs) h /\
        bh_DataHash h = BatchedRequests.Digest [req] /\ h_DecisionNumOfLastConfigBlock hdr = h_Num hdr
    end /\ forall j h, config !! j = Some h -> exists b, h_AvailableCommonBlocks hdr !! (length atts + j) = Some b /\ b_Header b = Some h) as (config & -> & Hconfig & Hcspec).
  { destruct crs as [|cr crs].
    - exists []. subst lh'. rewrite app_nil_r. cbn in Hlast. rewrite Hlast. split; [by destruct (last hs)|]. split; [done|]. intros j h Hj. by rewrite lookup_nil in Hj.
    - destruct Hconf as (req & b & Hr & Hb & Hvc & ->). apply VerifyConfig_sound in Hvc as (m & req' & _ & [Hbh _] & _ & _).
      eexists [_]. rewrite last_snoc. split; [done|]. split; [eexists req, _; split; [done|split; [done|split; [by eapply verify_blocks_chain|done]]]|].
      intros [|j] h Hj; [|by destruct j]. injection Hj as <-. exists b. by rewrite Nat.add_0_r. }
  destruct (lookup_prefix (Some <$> hs ++ config) (b_Header <$> h_AvailableCommonBlocks hdr)) as [surplus Hsur].
  { intros j o (h & -> & Hj)%list_lookup_fmap_Some. apply lookup_app_Some in Hj as [Hj|[Hge Hj]]; rewrite list_lookup_fmap.
    - destruct (Hspec j h Hj) as (b & Hb & Hbh). cbn in Hb. by rewrite Hb; cbn; rewrite Hbh.
    - destruct (Hcspec _ h Hj) as (b & Hb & Hbh). replace (length atts + (j - length hs)) with j in Hb by lia. by rewrite Hb; cbn; rewrite Hbh. }
  exists hdr, payload, requests, st, st', atts, crs, ch, hs, config, surplus, bs. split_and!; try done. by exists stH.
Qed.

(** what the verification does not cover. The follower's checks read neither the previous hash in the proposed
    header nor the blocks beyond those it computes: an accepted proposal is still accepted with any other previous
    hash and with any blocks appended, although all blocks of the header are signed, indexed and delivered. *)
Theorem unverified_header_parts {R : MapRange} `{DBI : BatchAttestationDB D} (c c' : Consensus D) p infos hdr raw' prevHash' extra :
  VerifyProposal c c' p = Ok infos -> Header_Deserialize (p_Header p) = Ok hdr ->
  Header_Deserialize (Some raw') =
    Ok (mkHeader (h_Num hdr) prevHash' (h_AvailableCommonBlocks hdr ++ extra) (h_State hdr) (h_DecisionNumOfLastConfigBlock hdr)) ->
  VerifyProposal c c' (mkProposal (p_Payload p) (Some raw') (p_Metadata p) (p_VerificationSequence p)) = Ok infos.
Proof.
  intros E Hh Hraw. destruct (Verify_inv _ _ _ _ E) as (hdr0 & requests & stH & st & st' & atts & crs & ch & ch' & lh & lh' & Hv).
  destruct Hv as [Hh0 Hreq Hview Hseq Hinfos Hsim Hdlc Hch Hbl Hconf Hctx Hst]. assert (hdr0 = hdr) as -> by congruence.
  eapply (Verify_intro c c' _ infos _ requests stH st st' atts crs ch ch' lh lh'). split; try done; cbn.
  - eapply verify_blocks_prefix; [exact Hbl|by eexists].
  - destruct crs as [|cr crs]; [done|]. destruct Hconf as (req & b & Hr & Hb & Hvc & ->). exists req, b. split; [done|].
    split; [by apply lookup_app_l_Some|done].
Qed.

End Theorems.

(** ** The theorems at a sample node *)
Section Witnesses.
#[local] Existing Instance sample_fabric.
#[local] Existing Instance sample_blocks.
#[local] Existing Instance sample_states.
#[local] Existing Instance sample_bft.
#[local] Existing Instance sample_sha.
#[local] Existing Instance sample_env.
#[local] Existing Instance signing_parties.
#[local] Existing Instance range_canonical.

Definition sample_assembled : outcome Proposal := AssembleProposal (sample_consensus 1) node_metadata node_requests.
Definition sample_proposed : Proposal := match sample_assembled with Ok p => p | _ => mkProposal None None None 0 end.
Definition sample_infos : list RequestInfo :=
  match verifyProposalRequests (sample_consensus 2) node_requests 3 8 with Ok i => i | _ => [] end.

Lemma sample_assembled_ok : AssembleProposal (sample_consensus 1) node_metadata node_requests = Ok sample_proposed.
Proof. vm_compute. reflexivity. Qed.
Lemma sample_infos_ok : verifyProposalRequests (sample_consensus 2) node_requests 3 8 = Ok sample_infos.
Proof. vm_compute. reflexivity. Qed.
Lemma sample_accepted : VerifyProposal (sample_consensus 2) (sample_consensus 2) sample_proposed = Ok sample_infos.
Proof. vm_compute. reflexivity. Qed.
Lemma sample_same_view : same_view (sample_consensus 1) (sample_consensus 2) ∅.
Proof. split; try done; apply empty_db_holds. Qed.
Lemma node_state_in_range : state_in_range node_state.
Proof. split; repeat constructor; vm_compute; try discriminate; try done; repeat split; discriminate. Qed.

Lemma honest_proposal_accepted_witness : VerifyProposal (sample_consensus 2) (sample_consensus 2) sample_proposed = Ok sample_infos.
Proof.
  rewrite <-sample_infos_ok.
  apply (honest_proposal_accepted range_canonical range_canonical (sample_consensus 1) (sample_consensus 2) ∅ node_state node_metadata 8 node_requests);
    [apply sample_same_view|reflexivity|apply node_state_ready|apply node_state_in_range|vm_compute; discriminate|vm_compute; discriminate
    | | |reflexivity|apply sample_assembled_ok].
  - repeat (apply Forall_cons_2; [vm_compute; discriminate|]). apply Forall_nil_2.
  - intros s1 atts cr crs ps E _. vm_compute in E. discriminate E.
Defined.

Definition sample_proposed_header : Header :=
  match Header_Deserialize (p_Header sample_proposed) with Ok h => h | _ => mkHeader 0 [] [] None 0 end.
Lemma sample_proposed_header_ok : Header_Deserialize (p_Header sample_proposed) = Ok sample_proposed_header.
Proof. vm_compute. reflexivity. Qed.

(** The accepted sample proposal orders one batch. *)
Lemma accepted_proposal_sound_witness : exists hdr, Header_Deserialize (p_Header sample_proposed) = Ok hdr /\ length (h_AvailableCommonBlocks hdr) >= 1.
Proof.
  destruct (accepted_proposal_sound (sample_consensus 2) (sample_consensus 2) sample_proposed sample_infos sample_accepted)
    as (hdr & _ & _ & _ & _ & _ & _ & _ & _ & _ & _ & _ & Hhdr & _).
  exists hdr. split; [exact Hhdr|]. rewrite sample_proposed_header_ok in Hhdr. apply Ok_inj in Hhdr as <-. vm_compute. repeat constructor.
Defined.

(** The same proposal with another previous hash and a block that the follower did not compute. *)
Definition forged_block : Block := mkBlock (Some (mkBlockHeader 77 [] [])) None None.
Definition forged_header : Header :=
  mkHeader (h_Num sample_proposed_header) [x0f] (h_AvailableCommonBlocks sample_proposed_header ++ [forged_block])
    (h_State sample_proposed_header) (h_DecisionNumOfLastConfigBlock sample_proposed_header).
Definition forged_raw : bytes := ok_bytes (Header_Serialize forged_header).

Lemma unverified_header_parts_witness :
  VerifyProposal (sample_consensus 2) (sample_consensus 2)
    (mkProposal (p_Payload sample_proposed) (Some forged_raw) (p_Metadata sample_proposed) (p_VerificationSequence sample_proposed)) = Ok sample_infos.
Proof.
  apply (unverified_header_parts (sample_consensus 2) (sample_consensus 2) sample_proposed sample_infos sample_proposed_header forged_raw [x0f] [forged_block]);
    [apply sample_accepted|apply sample_proposed_header_ok|vm_compute; reflexivity].
Defined.
End Witnesses.
