(* ===== verification/DecisionThms.v ===== *)
(** * Signing and delivering decisions *)
From S2P Require Import Prelude Types Events State StateFacts StateProps Round Badb Consenter Blocks Ledger StateCodec StateCodecFacts Consensus ConsensusFacts Sample SampleBlocks SampleNode RoundThms ConsensusThms.
From Stdlib Require Import NArith Lia.
From Stdlib Require Import Init.Byte.

Section Signatures.
Context `{FabricCodecs} `{BlockCodecs} `{StateCodecs} `{BFTCodecs} `{Sha256} `{Environment}.

(** What a consenter signs, another can verify under its identity. *)
Definition scheme_correct : Prop :=
  forall p msg sig, sign p msg = Ok sig -> verify_signature (NewConsenterIdentity p) msg sig = Ok tt.

(** Only the last block may be a config block. *)
Definition config_last (blocks : list Block) : Prop :=
  forall i b, blocks !! i = Some b -> IsConfigBlock b = true -> S i = length blocks.

Lemma check_identifier_own id nonce idh bh obm :
  (id <= u16_max)%N -> identifier_header id nonce = Ok idh -> check_identifier (mkMessageToSign idh bh obm) id = Ok tt.
Proof.
  intros Hid Hi. unfold check_identifier. cbn [mts_IdentifierHeader]. rewrite (unmarshal_marshal _ _ Hi). cbn [wrap_err mbind outcome_bind ih_Identifier].
  assert (u32 id = id) as -> by (unfold u32, u16_max in *; apply N.mod_small; lia). by rewrite N.eqb_refl.
Qed.

Lemma block_message_fields idh b lc bs :
  block_message idh b lc = Ok bs ->
  exists h md m bh obm, b_Header b = Some h /\ b_Metadata b = Some md /\ md !! BlockMetadataIndex_ORDERER = Some m /\ BlockHeaderBytes h = Ok bh /\
    orderer_metadata lc m = Ok obm /\ marshal_or_panic (mkMessageToSign idh bh obm) = Ok bs.
Proof.
  unfold block_message. intros E. apply bind_Ok_inv in E as (h & Hh & E). apply bind_Ok_inv in E as (bh & Hbh & E).
  apply bind_Ok_inv in E as (md & Hmd & E). apply bind_Ok_inv in E as (m & Hm%index_Ok & E). apply bind_Ok_inv in E as (obm & Hobm & E).
  destruct (b_Header b) as [h'|]; [|done]. destruct (b_Metadata b) as [md'|]; [|done]. cbn in Hh, Hmd. apply Ok_inj in Hh as ->. apply Ok_inj in Hmd as ->.
  by exists h, md, m, bh, obm.
Qed.

Lemma proposal_message_fields idh p num dlc ph bs :
  proposal_message idh p num dlc ph = Ok bs ->
  exists pb bh obm, ProposalToBytes p = Ok pb /\ BlockHeaderBytes (mkBlockHeader num ph (ComputeBlockDataHash [pb])) = Ok bh /\
    orderer_metadata dlc (slice_bytes (p_Metadata p)) = Ok obm /\ marshal_or_panic (mkMessageToSign idh bh obm) = Ok bs.
Proof.
  unfold proposal_message. intros E. apply bind_Ok_inv in E as (pb & Hpb & E). apply bind_Ok_inv in E as (bh & Hbh & E).
  apply bind_Ok_inv in E as (obm & Hobm & E). by exists pb, bh, obm.
Qed.

Lemma verify_own_proposal_message id nonce idh p num dlc ph bs bh obm :
  (id <= u16_max)%N -> identifier_header id nonce = Ok idh -> proposal_message idh p num dlc ph = Ok bs ->
  verifyProposalMessageToSign (mkMessageToSign idh bh obm) bs id p num dlc ph = Ok tt.
Proof.
  intros Hid Hi Hm. unfold verifyProposalMessageToSign. rewrite (check_identifier_own id nonce) by done. cbn [mbind outcome_bind mts_IdentifierHeader].
  rewrite Hm. cbn [mbind outcome_bind]. by rewrite bool_decide_eq_false_2 by tauto.
Qed.

Lemma sign_verify_blocks `{DB : BatchAttestationDB D} (c : Consensus D) nonces values msgs lc blocks i k r :
  scheme_correct -> (c_PartyID c <= u16_max)%N -> config_last blocks ->
  sign_blocks c lc nonces i blocks = Ok r ->
  (forall j v m, r !! j = Some (v, m) -> values !! (k + j + 1) = Some v /\ msgs !! (k + j + 1) = Some m) ->
  verify_block_sigs (c_PartyID c) values msgs lc k blocks = Ok tt.
Proof.
  intros Hs Hid. revert lc i k r. induction blocks as [|b blocks IH]; intros lc i k r Hlast E Hr; [done|]. cbn [sign_blocks] in E.
  apply bind_Ok_inv in E as (lc' & Hlc & E). apply bind_Ok_inv in E as (idh & Hi & E). apply bind_Ok_inv in E as (m & Hm & E).
  apply bind_Ok_inv in E as (v & Hv%or_panic_Ok & E). apply bind_Ok_inv in E as (r' & Hrec & E). apply Ok_inj in E as <-.
  destruct (Hr 0 v m eq_refl) as [Hv0 Hm0]. rewrite Nat.add_0_r in Hv0, Hm0. cbn [verify_block_sigs]. unfold index. rewrite Hm0. cbn [mbind outcome_bind].
  pose proof (block_message_fields _ _ _ _ Hm) as (h & md & m' & bh & obm & Hbh & Hmd & Hom & Hbb & Hobm & Hmsg). rewrite (unmarshal_marshal _ _ Hmsg). cbn [mbind outcome_bind].
  assert (verifyBlockMessageToSign (mkMessageToSign idh bh obm) m (c_PartyID c) b lc = Ok tt) as ->.
  { unfold verifyBlockMessageToSign. rewrite (check_identifier_own _ _ _ _ _ Hid Hi). cbn [mbind outcome_bind]. rewrite Hlc. cbn [mbind outcome_bind mts_IdentifierHeader].
    rewrite Hm. cbn [mbind outcome_bind]. by rewrite bool_decide_eq_false_2 by tauto. }
  cbn [wrap_err mbind outcome_bind]. rewrite Hv0. cbn [mbind outcome_bind]. unfold VerifySignature.
  assert (u16 (c_PartyID c) = c_PartyID c) as -> by (unfold u16, u16_max in *; apply N.mod_small; lia).
  rewrite (Hs _ _ _ Hv). cbn [wrap_err mbind outcome_bind].
  assert (verify_block_sigs (c_PartyID c) values msgs lc' (S k) blocks = Ok tt) as Hrest.
  { apply (IH lc' (S i) (S k) r'); [|done|].
    - intros j b' Hj Hc. specialize (Hlast (S j) b' Hj Hc). cbn in Hlast. lia.
    - intros j v' m'' Hj. specialize (Hr (S j) v' m'' Hj). replace (S k + j + 1) with (k + S j + 1) by lia. exact Hr. }
  destruct (IsConfigBlock b) eqn:Econf.
  - specialize (Hlast 0 b eq_refl Econf). by destruct blocks.
  - by apply Ok_inj in Hlc as <-.
Qed.

(** an honest signature is accepted. The compound signature a consenter puts on a proposal, over the proposal and
    over every block of it, is accepted by every node with the same record of the last config block, provided the
    signature scheme is correct and only the last block is a config block. *)
Theorem own_signature_accepted `{DB1 : BatchAttestationDB D1} `{DB2 : BatchAttestationDB D2} (c : Consensus D1) (v : Consensus D2) nonces p hdr sig :
  scheme_correct -> c_SelfID c = c_PartyID c -> (c_PartyID c <= u16_max)%N ->
  c_lastConfigBlockNum v = c_lastConfigBlockNum c -> c_decisionNumOfLastConfigBlock v = c_decisionNumOfLastConfigBlock c ->
  Header_Deserialize (p_Header p) = Ok hdr -> config_last (h_AvailableCommonBlocks hdr) ->
  SignProposal c nonces p = Ok sig -> VerifyConsenterSig v sig p = Ok tt.
Proof.
  intros Hs Hself Hid Hlc Hdn Hhdr Hlast E. unfold SignProposal in E. apply bind_Ok_inv in E as (? & _ & E). rewrite Hhdr in E. cbn [or_panic mbind outcome_bind] in E.
  apply bind_Ok_inv in E as (idh & Hi & E). apply bind_Ok_inv in E as (pm & Hpm & E). apply bind_Ok_inv in E as (ps & Hps%or_panic_Ok & E).
  apply bind_Ok_inv in E as (r & Hr & E). apply bind_Ok_inv in E as (vr & Hvr & E). apply bind_Ok_inv in E as (mr & Hmr & E). apply Ok_inj in E as <-.
  unfold VerifyConsenterSig. cbn [sig_Value sig_Msg sig_ID of_option mbind outcome_bind]. rewrite (unmarshal_marshal _ _ Hvr). cbn [wrap_err mbind outcome_bind].
  rewrite bool_decide_eq_false_2 by done. cbn [guard_err]. rewrite (unmarshal_marshal _ _ Hmr). cbn [wrap_err mbind outcome_bind].
  rewrite bool_decide_eq_false_2 by done. cbn [guard_err]. rewrite Hhdr. cbn [wrap_err mbind outcome_bind index lookup list_lookup].
  pose proof (proposal_message_fields _ _ _ _ _ _ Hpm) as (pb & bh & obm & _ & _ & _ & Hmsg). rewrite (unmarshal_marshal _ _ Hmsg). cbn [mbind outcome_bind].
  rewrite Hself, Hdn, (verify_own_proposal_message _ _ _ _ _ _ _ _ _ _ Hid Hi Hpm). cbn [wrap_err mbind outcome_bind]. unfold VerifySignature.
  assert (u16 (c_PartyID c) = c_PartyID c) as -> by (unfold u16, u16_max in *; apply N.mod_small; lia). rewrite (Hs _ _ _ Hps). cbn [wrap_err mbind outcome_bind].
  rewrite Hlc. apply (sign_verify_blocks c nonces _ _ _ _ 1 0 r Hs Hid Hlast Hr).
  intros j v' m Hj. rewrite Nat.add_1_r.
  assert ((fst <$> r) !! j = Some v' /\ (snd <$> r) !! j = Some m) as [Hv' Hm'] by (by rewrite !list_lookup_fmap, Hj). by split.
Qed.

(** [m] names the signer [id], and the [i]-th value is the signer's valid signature on it. *)
Definition signed_by (id : N) (values msgs : list bytes) (i : nat) (idh m : bytes) : Prop :=
  exists v nonce, values !! i = Some v /\ msgs !! i = Some m /\ verify_signature (NewConsenterIdentity (u16 id)) m v = Ok tt /\
    (unmarshal idh : outcome IdentifierHeader) = Ok (mkIdentifierHeader id nonce).

(** The last config number that goes with a block. *)
Definition last_config_of (lastConfigBlockNum : N) (b : Block) : N :=
  if IsConfigBlock b then default 0%N (bh_Number <$> b_Header b) else lastConfigBlockNum.

Lemma check_identifier_Ok msg id :
  check_identifier msg id = Ok tt -> exists nonce, (unmarshal (mts_IdentifierHeader msg) : outcome IdentifierHeader) = Ok (mkIdentifierHeader id nonce).
Proof.
  unfold check_identifier. intros E. apply bind_Ok_inv in E as ([i nonce] & Hi%wrap_err_Ok & E). apply guard_err_Ok in E as [G%negb_false_iff%N.eqb_eq _].
  cbn in G. subst i. by exists nonce.
Qed.

Lemma verify_block_sigs_sound id values msgs lc k blocks :
  verify_block_sigs id values msgs lc k blocks = Ok tt ->
  forall i b, blocks !! i = Some b -> exists idh m, block_message idh b (last_config_of lc b) = Ok m /\ signed_by id values msgs (k + i + 1) idh m.
Proof.
  revert k. induction blocks as [|b blocks IH]; intros k E i b' Hb; [by rewrite lookup_nil in Hb|]. cbn [verify_block_sigs] in E.
  apply bind_Ok_inv in E as (m & Hm%index_Ok & E). apply bind_Ok_inv in E as (msg & Hmsg & E). apply bind_Ok_inv in E as ([] & Hv%wrap_err_Ok & E).
  apply bind_Ok_inv in E as (v & Hval%index_Ok & E). apply bind_Ok_inv in E as ([] & Hs%wrap_err_Ok & E).
  destruct i as [|i]; cbn in Hb.
  - assert (b' = b) as -> by congruence. rewrite Nat.add_0_r. unfold verifyBlockMessageToSign in Hv. apply bind_Ok_inv in Hv as ([] & Hid & Hv).
    apply check_identifier_Ok in Hid as [nonce Hid]. apply bind_Ok_inv in Hv as (lc' & Hlc & Hv). apply bind_Ok_inv in Hv as (m' & Hm' & Hv).
    apply guard_err_Ok in Hv as [G%bool_decide_eq_false%dec_stable _]. subst m'. exists (mts_IdentifierHeader msg), m. split; [|by exists v, nonce].
    unfold last_config_of. destruct (IsConfigBlock b); [|by apply Ok_inj in Hlc as ->]. destruct (b_Header b); [|done]. cbn in Hlc. by apply Ok_inj in Hlc as <-.
  - replace (k + S i + 1) with (S k + i + 1) by lia. by apply IH.
Qed.

(** What acceptance says of the lists of values and messages in a signature. *)
Lemma VerifyConsenterSig_inv `{DB : BatchAttestationDB D} (c : Consensus D) sig p :
  VerifyConsenterSig c sig p = Ok tt ->
  exists hdr rv rm values msgs, sig_Value sig = Some rv /\ sig_Msg sig = Some rm /\ (unmarshal rv : outcome (list bytes)) = Ok values /\ (unmarshal rm : outcome (list bytes)) = Ok msgs /\ Header_Deserialize (p_Header p) = Ok hdr /\
    (exists idh m, proposal_message idh p (h_Num hdr) (if (h_Num hdr =? h_DecisionNumOfLastConfigBlock hdr)%N then h_Num hdr else c_decisionNumOfLastConfigBlock c)
       (h_PrevHash hdr) = Ok m /\ signed_by (sig_ID sig) values msgs 0 idh m) /\
    (forall i b, h_AvailableCommonBlocks hdr !! i = Some b ->
       exists idh m, block_message idh b (last_config_of (c_lastConfigBlockNum c) b) = Ok m /\ signed_by (sig_ID sig) values msgs (i + 1) idh m) /\
    length (h_AvailableCommonBlocks hdr) < length values /\ length (h_AvailableCommonBlocks hdr) < length msgs.
Proof.
  unfold VerifyConsenterSig. intros E. apply bind_Ok_inv in E as (rv & Hrv%of_option_Ok & E). apply bind_Ok_inv in E as (values & Hvs%wrap_err_Ok & E). apply guard_err_Ok in E as [G1 E].
  apply bind_Ok_inv in E as (rm & Hrm%of_option_Ok & E). apply bind_Ok_inv in E as (msgs & Hms%wrap_err_Ok & E). apply guard_err_Ok in E as [G2 E]. apply bool_decide_eq_false in G1, G2.
  apply bind_Ok_inv in E as (hdr & Hhdr%wrap_err_Ok & E). apply bind_Ok_inv in E as (m & Hm%index_Ok & E). apply bind_Ok_inv in E as (msg & Hmsg & E).
  apply bind_Ok_inv in E as ([] & Hv%wrap_err_Ok & E). apply bind_Ok_inv in E as (v & Hval%index_Ok & E). apply bind_Ok_inv in E as ([] & Hs%wrap_err_Ok & E).
  pose proof (verify_block_sigs_sound _ _ _ _ _ _ E) as Hblocks. cbn in Hblocks. exists hdr, rv, rm, values, msgs. do 5 (split; [done|]). split; [|split; [done|]].
  - unfold verifyProposalMessageToSign in Hv. apply bind_Ok_inv in Hv as ([] & Hid & Hv). apply check_identifier_Ok in Hid as [nonce Hid].
    apply bind_Ok_inv in Hv as (m' & Hm' & Hv). apply guard_err_Ok in Hv as [G%bool_decide_eq_false%dec_stable _]. subst m'.
    exists (mts_IdentifierHeader msg), m. split; [done|]. by exists v, nonce.
  - destruct (decide (length (h_AvailableCommonBlocks hdr) = 0)) as [->|Hne]; [lia|].
    destruct (lookup_lt_is_Some_2 (h_AvailableCommonBlocks hdr) (length (h_AvailableCommonBlocks hdr) - 1)) as [b Hb]; [lia|].
    destruct (Hblocks _ _ Hb) as (idh & m' & _ & (v' & nonce & Hv'%lookup_lt_Some & Hm'%lookup_lt_Some & _)). lia.
Qed.

(** an accepted signature covers the whole decision. Acceptance means that the signer's key signed the message of
    this very proposal (number, previous hash, content, last config decision) and, for every block of it, the message
    of that block's header and orderer metadata, each naming the signer; no block is left without a signature. *)
Theorem accepted_signature_covers `{DB : BatchAttestationDB D} (c : Consensus D) sig p :
  VerifyConsenterSig c sig p = Ok tt ->
  exists hdr values msgs, Header_Deserialize (p_Header p) = Ok hdr /\
    (exists idh m, proposal_message idh p (h_Num hdr) (if (h_Num hdr =? h_DecisionNumOfLastConfigBlock hdr)%N then h_Num hdr else c_decisionNumOfLastConfigBlock c)
       (h_PrevHash hdr) = Ok m /\ signed_by (sig_ID sig) values msgs 0 idh m) /\
    (forall i b, h_AvailableCommonBlocks hdr !! i = Some b ->
       exists idh m, block_message idh b (last_config_of (c_lastConfigBlockNum c) b) = Ok m /\ signed_by (sig_ID sig) values msgs (i + 1) idh m) /\
    length (h_AvailableCommonBlocks hdr) < length values /\ length (h_AvailableCommonBlocks hdr) < length msgs.
Proof. intros (hdr & rv & rm & values & msgs & _ & _ & _ & _ & Hc)%VerifyConsenterSig_inv. by exists hdr, values, msgs. Qed.

Lemma marshal_inj `{Codec A} (a b : A) bs : marshal_or_panic a = Ok bs -> marshal_or_panic b = Ok bs -> a = b.
Proof. intros Ha%unmarshal_marshal Hb%unmarshal_marshal. rewrite Ha in Hb. by apply Ok_inj in Hb. Qed.

Lemma BlockHeaderBytes_inj h h' bs : BlockHeaderBytes h = Ok bs -> BlockHeaderBytes h' = Ok bs -> h = h'.
Proof. unfold BlockHeaderBytes. intros E1 E2. pose proof (marshal_inj _ _ _ E1 E2) as E. destruct h, h'. cbn in *. congruence. Qed.

(** What ComputeBlockDataHash hashes for a single entry. *)
Definition framed (d : bytes) : bytes := be_put 4 (u32 (N.of_nat (length d))) ++ d.

(** a signed message stands for one thing only. If the same bytes are the message of two blocks, the blocks have the
    same header, the same orderer metadata and the same last config number; and if they are the message of two
    proposals, these have the same number, previous hash, last config and view metadata, and the same data hash, hence
    the same content unless SHA-256 collides on the two encoded proposals. *)
Theorem signed_messages_pinned idh idh' b b' lc lc' m p p' n n' d d' ph ph' :
  (block_message idh b lc = Ok m -> block_message idh' b' lc' = Ok m ->
     idh = idh' /\ lc = lc' /\ b_Header b = b_Header b' /\
     exists md md', b_Metadata b = Some md /\ b_Metadata b' = Some md' /\ md !! BlockMetadataIndex_ORDERER = md' !! BlockMetadataIndex_ORDERER) /\
  (proposal_message idh p n d ph = Ok m -> proposal_message idh' p' n' d' ph' = Ok m ->
     idh = idh' /\ n = n' /\ d = d' /\ ph = ph' /\ slice_bytes (p_Metadata p) = slice_bytes (p_Metadata p') /\
     (proposal_norm p = proposal_norm p' \/
      exists pb pb', ProposalToBytes p = Ok pb /\ ProposalToBytes p' = Ok pb' /\ sha256_collision (framed pb) (framed pb'))).
Proof.
  split.
  - intros E E'. apply block_message_fields in E as (h & md & o & bh & obm & Hh & Hmd & Ho & Hbh & Hobm & Hmsg).
    apply block_message_fields in E' as (h' & md' & o' & bh' & obm' & Hh' & Hmd' & Ho' & Hbh' & Hobm' & Hmsg').
    pose proof (marshal_inj _ _ _ Hmsg Hmsg') as Eq. injection Eq as <- <- <-. pose proof (marshal_inj _ _ _ Hobm Hobm') as Eq. injection Eq as <- <-.
    pose proof (BlockHeaderBytes_inj _ _ _ Hbh Hbh') as <-. split; [done|split; [done|split; [congruence|]]]. exists md, md'. split; [done|split; [done|congruence]].
  - intros E E'. apply proposal_message_fields in E as (pb & bh & obm & Hpb & Hbh & Hobm & Hmsg).
    apply proposal_message_fields in E' as (pb' & bh' & obm' & Hpb' & Hbh' & Hobm' & Hmsg').
    pose proof (marshal_inj _ _ _ Hmsg Hmsg') as Eq. injection Eq as <- <- <-. pose proof (marshal_inj _ _ _ Hobm Hobm') as Eq. injection Eq as <- Emd.
    pose proof (BlockHeaderBytes_inj _ _ _ Hbh Hbh') as Eq. injection Eq as <- <- Hd. unfold ComputeBlockDataHash in Hd. cbn [foldl] in Hd. rewrite !app_nil_l in Hd.
    do 5 (split; [done|]). apply (sha256_eq (framed pb) (framed pb')) in Hd as [Hd|Hc]; [left|right; by exists pb, pb'].
    apply app_inj_1 in Hd as [_ <-]; [|by rewrite !length_be_put]. apply Proposal_round in Hpb, Hpb'. rewrite Hpb in Hpb'. by apply Ok_inj in Hpb'.
Qed.

End Signatures.

Section Delivery.
Context `{FabricCodecs} `{BlockCodecs} `{StateCodecs} `{BFTCodecs} `{Sha256} `{Environment} `{DBI : BatchAttestationDB D}.
Implicit Types c : Consensus D.

(** The ledger is a numbered hash chain, and the node's previous hash is that of its last block. *)
Record chained c : Prop := {
  cd_chain : chain_ok (c_Storage c);
  cd_tip : CurrentBlockHash (c_Storage c) = Ok (c_PrevHash c)
}.

(** Decisions delivered one after the other. *)
Inductive deliveries c : list (Proposal * list Signature) -> Consensus D -> Prop :=
| deliveries_nil : deliveries c [] c
| deliveries_snoc ds c1 p sigs c2 rc started :
    deliveries c ds c1 -> Deliver c1 p sigs = Ok (c2, rc, started) -> deliveries c (ds ++ [(p, sigs)]) c2.

Definition delivered_digests (d : Proposal * list Signature) : list bytes :=
  match Header_Deserialize (p_Header d.1) with Ok hdr => digests_of_header hdr | _ => [] end.

(** One delivery, step by step. *)
Lemma Deliver_inv c p sigs c' rc started :
  Deliver c p sigs = Ok (c', rc, started) ->
  exists hdr block h, Header_Deserialize (p_Header p) = Ok hdr /\ Index (c_DB c) (digests_of_header hdr) = Ok (c_DB c') /\
    CreateBlockToAppendFromDecision (h_Num hdr) p sigs (c_PrevHash c) (h_DecisionNumOfLastConfigBlock hdr) = Ok block /\
    b_Header block = Some h /\ BlockHeaderHash h = Ok (c_PrevHash c') /\ Append (c_Storage c) block = Ok (c_Storage c') /\
    deliver_config c hdr (h_Num hdr) = Ok (c_lastConfigBlockNum c', c_decisionNumOfLastConfigBlock c', rc, started) /\
    updateMetricsOnDeliver hdr (c_txCount c) = Ok (c_txCount c') /\ c_State c' = h_State hdr /\
    c' = mkConsensus (c_PartyID c) (c_SelfID c) (h_State hdr) (c_configSeq c) (c_lastConfigBlockNum c') (c_decisionNumOfLastConfigBlock c')
           (c_txCount c') (c_PrevHash c') (c_Storage c') (c_DB c') (c_CurrentNodes c) (c_softStopped c).
Proof.
  unfold Deliver, headerAndDigestsFromProposal. intros E. apply bind_Ok_inv in E as ([hdr ds] & Hhd & E). apply bind_Ok_inv in Hhd as (hdr' & Hhdr%or_panic_Ok & Hhd).
  apply Ok_inj in Hhd. injection Hhd as -> <-. apply bind_Ok_inv in E as (db & Hdb & E). apply bind_Ok_inv in E as (block & Hblock & E).
  apply bind_Ok_inv in E as (storage & Hstorage & E). apply bind_Ok_inv in E as (h & Hh & E). apply bind_Ok_inv in E as (ph & Hph & E). apply bind_Ok_inv in E as ([[[lc dn] rc'] st'] & Hconf & E).
  apply bind_Ok_inv in E as (tx & Htx & E). apply Ok_inj in E. injection E as <- <- <-.
  destruct (b_Header block) as [h'|] eqn:Eh; [|done]. cbn in Hh. apply Ok_inj in Hh as ->. exists hdr, block, h. by repeat split.
Qed.

Lemma deliver_config_monotone c hdr dn lc dn' rc started : deliver_config c hdr dn = Ok (lc, dn', rc, started) -> (c_lastConfigBlockNum c <= lc)%N.
Proof.
  unfold deliver_config. intros E. apply bind_Ok_inv in E as ([cb|] & _ & E); [|apply Ok_inj in E; injection E; intros; lia].
  apply bind_Ok_inv in E as (h & _ & E). apply bind_Ok_inv in E as (nodes & _ & E).
  destruct (N.ltb_spec (c_lastConfigBlockNum c) (bh_Number h)); apply Ok_inj in E; injection E; intros; lia.
Qed.

Lemma CreateBlock_header num p sigs ph lc b h : CreateBlockToAppendFromDecision num p sigs ph lc = Ok b -> b_Header b = Some h -> bh_Number h = num /\ bh_PreviousHash h = ph.
Proof. intros (pb & sb & l & _ & _ & _ & ->)%CreateBlock_Ok Eh. cbn in Eh. assert (h = mkBlockHeader num ph (ComputeBlockDataHash [pb])) as -> by congruence. done. Qed.

Lemma Deliver_chained c p sigs c' rc started : chained c -> Deliver c p sigs = Ok (c', rc, started) -> chained c'.
Proof.
  intros [Hl _] (hdr & block & h & _ & _ & _ & Hh & Hph & Hst & _)%Deliver_inv. split; [by eapply Append_chain|].
  apply Append_Ok in Hst as [-> _]. unfold CurrentBlockHash. rewrite last_snoc, Hh. exact Hph.
Qed.

(** C10: the ledger a consenter builds. After any sequence of delivered decisions the ledger is still a numbered hash
    chain ending in the node's previous hash, it is the old ledger followed by one block per decision, the decisions
    are numbered consecutively, each can be read back from its block, the node's state is that of the last decision's header, its database holds the digests of
    all batches ordered by the decisions, and the number of the last config block never decreased. *)
Theorem delivered_ledger c known ds c' :
  chained c -> db_holds (c_DB c) known -> Forall (fun d => Forall (fun s => (sig_ID s <= u64_max)%N) d.2) ds -> deliveries c ds c' ->
  chained c' /\ length (c_Storage c') = length (c_Storage c) + length ds /\ c_Storage c `prefix_of` c_Storage c' /\
  (forall i p sigs, ds !! i = Some (p, sigs) -> exists b, c_Storage c' !! (length (c_Storage c) + i) = Some b /\
     ConsenterBlockToDecision (Some b) = Ok (mkDecision (proposal_norm p) (signature_norm <$> sigs)) /\
     exists hdr, Header_Deserialize (p_Header p) = Ok hdr /\ h_Num hdr = N.of_nat (length (c_Storage c) + i)) /\
  match last ds with
  | Some (p, _) => exists hdr, Header_Deserialize (p_Header p) = Ok hdr /\ c_State c' = h_State hdr
  | None => c' = c
  end /\
  (exists all, db_holds (c_DB c') all /\ all = list_to_set (concat (delivered_digests <$> ds)) ∪ known) /\
  (c_lastConfigBlockNum c <= c_lastConfigBlockNum c')%N.
Proof.
  intros Hch Hdb Hids Hrun. induction Hrun as [|ds c1 p sigs c2 rc started Hrun IH Hd].
  { split; [done|split; [cbn; lia|split; [done|]]]. split; [intros i p sigs Hi; by rewrite lookup_nil in Hi|]. split; [done|]. split; [|lia]. exists known. split; [done|set_solver]. }
  apply Forall_app in Hids as [Hids Hid]. rewrite Forall_singleton in Hid. destruct (IH Hids) as (Hch1 & Hlen & Hpre & Hblocks & _ & (all & Hall & Eall) & Hmono).
  pose proof (Deliver_chained _ _ _ _ _ _ Hch1 Hd) as Hch2. apply Deliver_inv in Hd as (hdr & block & h & Hhdr & Hix & Hb & Hh & Hph & Hst & Hconf & _ & Hstate & _).
  pose proof (CreateBlock_header _ _ _ _ _ _ _ Hb Hh) as [Hnum _]. apply Append_Ok in Hst as (Hst & h' & Hh' & Hheight & _).
  split; [done|]. rewrite Hst, !length_app. cbn [length]. split; [lia|]. split; [by apply prefix_app_r|]. split; [|split; [|split]].
  - intros i p' sigs' Hi. destruct (decide (i < length ds)) as [Hlt|Hge].
    + rewrite lookup_app_l in Hi by done. destruct (Hblocks _ _ _ Hi) as (b & Hlb & Hdec). exists b. split; [by apply lookup_app_l_Some|done].
    + apply lookup_lt_Some in Hi as Hl. rewrite length_app in Hl. cbn in Hl. assert (i = length ds) as -> by lia.
      rewrite lookup_app_r, Nat.sub_diag in Hi by lia. cbn in Hi. assert (p' = p /\ sigs' = sigs) as [-> ->] by (split; congruence).
      exists block. split; [rewrite lookup_app_r, Hlen by lia; by replace (_ - _) with 0 by lia|]. split; [by eapply Decision_round|].
      exists hdr. split; [done|]. rewrite <-Hnum. assert (h' = h) as -> by congruence. rewrite Hheight. unfold Height. by rewrite Hlen.
  - rewrite last_snoc. by exists hdr.
  - destruct (Index_spec _ _ (digests_of_header hdr) Hall) as (db' & Hix' & Hall'). rewrite Hix in Hix'. apply Ok_inj in Hix' as ->.
    eexists. split; [exact Hall'|]. assert (delivered_digests (p, sigs) = digests_of_header hdr) as Edd by (unfold delivered_digests; cbn [fst]; by rewrite Hhdr).
    rewrite fmap_app, concat_app, list_to_set_app_L, Eall. cbn [fmap list_fmap concat]. rewrite Edd, app_nil_r. set_solver.
  - apply deliver_config_monotone in Hconf. lia.
Qed.

(** The node after the synchronizer stored a pulled block and indexed its digests, before its state is updated. *)
Definition with_stored (storage : list Block) (db : D) c : Consensus D :=
  mkConsensus (c_PartyID c) (c_SelfID c) (c_State c) (c_configSeq c) (c_lastConfigBlockNum c) (c_decisionNumOfLastConfigBlock c)
    (c_txCount c) (c_PrevHash c) storage db (c_CurrentNodes c) (c_softStopped c).

(** catching up is the same as taking part. If delivering a decision changes a node in some way, then a node in the
    same situation that instead pulls the block appended for that decision, stores and indexes it, and updates its
    state from it, ends in the same state, with the same report to the protocol and the same reconfiguration. *)
Theorem synced_equals_delivered c p sigs c' rc started :
  Deliver c p sigs = Ok (c', rc, started) ->
  exists block, c_Storage c' = c_Storage c ++ [block] /\
    UpdateStateAndRuntimeConfig (with_stored (c_Storage c') (c_DB c') c) block = Ok (c', rc, started).
Proof.
  intros (hdr & block & h & Hhdr & _ & Hb & Hh & Hph & [Hst _]%Append_Ok & Hconf & Htx & _ & Hc')%Deliver_inv. exists block. split; [done|].
  apply CreateBlock_Ok in Hb as (pb & sb & l & Hpb & _ & _ & ->). destruct (p_Header p) as [rawH|] eqn:EH; [|done].
  cbn in Hh. apply (f_equal (default h)) in Hh. cbn in Hh. subst h.
  unfold UpdateStateAndRuntimeConfig, ConsenterBlockToProposal. cbn [of_option mbind outcome_bind b_Header b_Data].
  rewrite bool_decide_eq_false_2 by done. cbn [guard_err index lookup list_lookup mbind outcome_bind]. rewrite (Proposal_round _ _ Hpb). cbn [or_panic mbind outcome_bind].
  unfold headerAndDigestsFromProposal. cbn [proposal_norm p_Header]. rewrite EH. change (slice_bytes (Some rawH)) with rawH. rewrite Hhdr. cbn [or_panic mbind outcome_bind fst deref].
  rewrite Hph. cbn [mbind outcome_bind].
  assert (deliver_config (with_stored (c_Storage c') (c_DB c') c) hdr (h_DecisionNumOfLastConfigBlock hdr) =
    Ok (c_lastConfigBlockNum c', c_decisionNumOfLastConfigBlock c', rc, started)) as ->.
  { rewrite <-Hconf. unfold deliver_config, config_block_of. destruct (N.eqb_spec (h_Num hdr) (h_DecisionNumOfLastConfigBlock hdr)) as [<-|]; done. }
  cbn [mbind outcome_bind with_stored c_txCount]. rewrite Htx. cbn [mbind outcome_bind]. do 3 f_equal. symmetry. exact Hc'.
Qed.

End Delivery.

(** ** The theorems at a sample decision *)
Section Witnesses.
#[local] Existing Instance sample_fabric.
#[local] Existing Instance sample_blocks.
#[local] Existing Instance sample_states.
#[local] Existing Instance sample_bft.
#[local] Existing Instance sample_sha.
#[local] Existing Instance sample_env.

Definition sample_nonces (i : nat) : bytes := be_put 1 (N.of_nat i).
Definition sample_signature (id : N) : Signature :=
  match SignProposal (sample_consensus id) sample_nonces sample_proposed with Ok s => s | _ => mkSignature 0 None None end.
Lemma sample_signature_ok : SignProposal (sample_consensus 1) sample_nonces sample_proposed = Ok (sample_signature 1).
Proof. vm_compute. reflexivity. Qed.
Lemma sample_signature_accepted : VerifyConsenterSig (sample_consensus 2) (sample_signature 1) sample_proposed = Ok tt.
Proof. vm_compute. reflexivity. Qed.
Lemma sample_scheme_correct : scheme_correct.
Proof. intros p msg sig E. cbn in E. apply Ok_inj in E as <-. reflexivity. Qed.

Lemma own_signature_accepted_witness : VerifyConsenterSig (sample_consensus 2) (sample_signature 1) sample_proposed = Ok tt.
Proof.
  apply (own_signature_accepted (sample_consensus 1) (sample_consensus 2) sample_nonces sample_proposed sample_proposed_header);
    [apply sample_scheme_correct|reflexivity|vm_compute; discriminate|reflexivity|reflexivity|apply sample_proposed_header_ok| |apply sample_signature_ok].
  intros [|[|i]] b Hb Hc; vm_compute in Hb; try discriminate. reflexivity.
Defined.

Lemma accepted_signature_covers_witness : exists hdr, Header_Deserialize (p_Header sample_proposed) = Ok hdr.
Proof.
  destruct (accepted_signature_covers (sample_consensus 2) (sample_signature 1) sample_proposed sample_signature_accepted) as (hdr & _ & _ & Hhdr & _).
  exists hdr. exact Hhdr.
Defined.

Definition sample_delivery : outcome (Consensus Badb.t * Reconfig * bool) :=
  Deliver (sample_consensus 2) sample_proposed [sample_signature 1].
Definition sample_delivered : Consensus Badb.t := match sample_delivery with Ok (c, _, _) => c | _ => sample_consensus 2 end.
Lemma sample_delivered_ok : Deliver (sample_consensus 2) sample_proposed [sample_signature 1] = Ok (sample_delivered, mkReconfig [1; 2; 3; 4]%N false, false).
Proof. vm_compute. reflexivity. Qed.

Lemma delivered_ledger_witness :
  chained sample_delivered /\ length (c_Storage sample_delivered) = 9 /\
  exists all, db_holds (c_DB sample_delivered) all /\ all = list_to_set (concat (delivered_digests <$> [(sample_proposed, [sample_signature 1])])) ∪ ∅.
Proof.
  destruct (delivered_ledger (sample_consensus 2) ∅ [(sample_proposed, [sample_signature 1])] sample_delivered) as (Hch & Hlen & _ & _ & _ & Hdb & _).
  - split; [apply sample_ledger_chain|vm_compute; reflexivity].
  - apply empty_db_holds.
  - apply Forall_singleton. apply Forall_singleton. vm_compute. discriminate.
  - apply (deliveries_snoc _ [] (sample_consensus 2) _ _ _ (mkReconfig [1; 2; 3; 4]%N false) false); [constructor|apply sample_delivered_ok].
  - split; [exact Hch|]. split; [exact Hlen|exact Hdb].
Defined.

Lemma synced_equals_delivered_witness : exists block,
  UpdateStateAndRuntimeConfig (with_stored (c_Storage sample_delivered) (c_DB sample_delivered) (sample_consensus 2)) block
    = Ok (sample_delivered, mkReconfig [1; 2; 3; 4]%N false, false).
Proof.
  destruct (synced_equals_delivered (sample_consensus 2) sample_proposed [sample_signature 1] sample_delivered (mkReconfig [1; 2; 3; 4]%N false) false sample_delivered_ok)
    as (block & _ & E). exists block. exact E.
Defined.
End Witnesses.
