(* ===== verification/Startup.v ===== *)
(** * Starting a consenter

    [src/node/consensus/consensus_builder.go]: the state a node starts from, either the genesis block, a join config
    block, or the last decision in its ledger. *)
From S2P Require Import Prelude Types Events State StateFacts StateProps Round Badb Consenter Blocks Ledger StateCodec Consensus.
From Stdlib Require Import NArith Lia.
Import Quorum.

(** The parts of the node's configuration that are used here. *)
Record ConsenterNodeConfig := mkNodeConfig {
  nc_PartyId : PartyID;
  nc_SelfID : N;
  nc_Consenters : list PartyID;
  nc_Shards : list ShardID;
  nc_Sequence : N
}.

Section Startup.
Context `{FabricCodecs} `{BlockCodecs} `{StateCodecs} `{BFTCodecs} `{Sha256} {D : Type}.

Definition shard_le (a b : ShardTerm) : Prop := (st_Shard a <= st_Shard b)%N.
#[export] Instance shard_le_dec a b : base.Decision (shard_le a b).
Proof. unfold shard_le. apply _. Defined.

Definition initialStateFromConfig (config : ConsenterNodeConfig) : outcome State :=
  let n := u16 (N.of_nat (length (nc_Consenters config))) in
  let '(_, T, Q) := ComputeFTQ n in
  let shards := merge_sort shard_le ((fun s => mkShardTerm s 0) <$> nc_Shards config) in
  appContext ← marshal_or_panic (mkBlockHeader 0 [] []);
  Ok (mkState n Q T shards [] [] (Some appContext) [] [] [] 0).

Definition GenesisBlockMetadataBytes : outcome bytes :=
  marshal_or_panic (mkABM 0 ShardIDConsensus 0 0 0 0 1).

(** The new state, the hash of the genesis decision, and the ledger. The genesis block's orderer metadata is set in place. *)
Definition appendGenesisBlock (genesisBlock : Block) (initState : State) (consensusLedger : list Block)
    : outcome (State * bytes * list Block) :=
  data ← deref (b_Data genesisBlock);
  let genesisDigest := ComputeBlockDataHash data in
  lastCommonBlockHeader ← or_panic (unmarshal (slice_bytes (s_AppContext initState)) : outcome BlockHeader);
  appContext ← marshal_or_panic (mkBlockHeader (bh_Number lastCommonBlockHeader) (bh_PreviousHash lastCommonBlockHeader) genesisDigest);
  let initState := with_AppContext (Some appContext) initState in
  metadata ← GenesisBlockMetadataBytes;
  genesisBlock ← set_metadata BlockMetadataIndex_ORDERER metadata genesisBlock;
  payload ← marshal_or_panic genesisBlock;
  header ← Header_Serialize (mkHeader 0 [] [genesisBlock] (Some initState) 0);
  let genesisProposal := mkProposal (Some payload) (Some header) None 0 in
  block ← CreateBlockToAppendFromDecision 0 genesisProposal [] [] 0;
  ledger ← Append consensusLedger block;
  blockHeader ← deref (b_Header block);
  prevHash ← BlockHeaderHash blockHeader;
  Ok (initState, prevHash, ledger).

Record InitialState := mkInitial {
  is_State : option State;
  is_Metadata : ViewMetadata;
  is_LastProposal : option Proposal;
  is_LastSigs : list Signature;
  is_DecisionNumOfLastConfigBlock : DecisionNum;
  is_PrevHash : bytes;
  is_Ledger : list Block
}.

Definition getInitialStateAndMetadata (config : ConsenterNodeConfig) (lastConfigBlock : Block) (consLedger : list Block) : outcome InitialState :=
  let height := Height consLedger in
  if (height =? 0)%N then
    initState ← initialStateFromConfig config;
    configHeader ← deref (b_Header lastConfigBlock);
    if (bh_Number configHeader =? 0)%N then
      r ← appendGenesisBlock lastConfigBlock initState consLedger;
      let '(initState, prevHash, ledger) := r in
      Ok (mkInitial (Some initState) (mkViewMetadata 0) None [] 0 prevHash ledger)
    else
      r ← or_panic (AssemblerBatchIdOrderingInfoAndTxCountFromBlock (Some lastConfigBlock));
      Ok (mkInitial (Some initState) (mkViewMetadata 0) None [] (oi_DecisionNum r.1.2) [] consLedger)
  else
    block ← or_panic (RetrieveBlockByNumber consLedger (height - 1));
    decision ← or_panic (ConsenterBlockToDecision (Some block));
    md ← or_panic (unmarshal (slice_bytes (p_Metadata (d_Proposal decision))) : outcome ViewMetadata);
    header ← or_panic (Header_Deserialize (p_Header (d_Proposal decision)));
    blockHeader ← deref (b_Header block);
    prevHash ← BlockHeaderHash blockHeader;
    Ok (mkInitial (h_State header) md (Some (d_Proposal decision)) (d_Signatures decision) (h_DecisionNumOfLastConfigBlock header)
          prevHash consLedger).

(** The loop of getTxCount: the count of the last block of the last decision that has blocks. *)
Fixpoint tx_count_loop (consensusLedger : list Block) (height : nat) : outcome N :=
  match height with
  | 0 => Ok 1%N
  | S height' =>
      block ← or_panic (RetrieveBlockByNumber consensusLedger (N.of_nat height'));
      data ← deref (b_Data block);
      rawProposal ← index data 0;
      proposal ← or_panic (BytesToProposal rawProposal);
      header ← or_panic (Header_Deserialize (p_Header proposal));
      match last (h_AvailableCommonBlocks header) with
      | None => tx_count_loop consensusLedger height'
      | Some lastAvailableBlock => r ← or_panic (AssemblerBatchIdOrderingInfoAndTxCountFromBlock (Some lastAvailableBlock)); Ok r.2
      end
  end.

Definition getTxCount (consensusLedger : list Block) : outcome N :=
  let height := Height consensusLedger in
  if (height =? 0)%N then Ok 0%N else
  if (height =? 1)%N then Ok 1%N else tx_count_loop consensusLedger (length consensusLedger).

Definition shouldSyncOnStart (lastConfigBlock : Block) (height : N) : outcome bool :=
  header ← deref (b_Header lastConfigBlock);
  if (bh_Number header =? 0)%N then Ok false else
  r ← or_panic (AssemblerBatchIdOrderingInfoAndTxCountFromBlock (Some lastConfigBlock));
  Ok (height <=? oi_DecisionNum r.1.2)%N.

(** The fields of the node that configureConsensus sets, with the metadata for the protocol. *)
Definition configureConsensus (nodeConfig : ConsenterNodeConfig) (lastConfigBlock : option Block) (consLedger : list Block) (badb : D)
    : outcome (Consensus D * InitialState) :=
  match lastConfigBlock with
  | None => Panic "last config block is nil"
  | Some lastConfigBlock =>
      match b_Header lastConfigBlock with
      | None => Panic "last config block header is nil"
      | Some configHeader =>
          init ← getInitialStateAndMetadata nodeConfig lastConfigBlock consLedger;
          txCount ← getTxCount (is_Ledger init);
          _ ← shouldSyncOnStart lastConfigBlock (Height (is_Ledger init));
          Ok (mkConsensus (nc_PartyId nodeConfig) (nc_SelfID nodeConfig) (is_State init) (nc_Sequence nodeConfig) (bh_Number configHeader)
                (is_DecisionNumOfLastConfigBlock init) txCount (is_PrevHash init) (is_Ledger init) badb (nc_Consenters nodeConfig) false, init)
      end
  end.

End Startup.
