(* ===== verification/StartupThms.v ===== *)
(** * Properties of starting and restarting a consenter *)
From S2P Require Import Prelude Types Events State StateFacts StateProps Round Badb Consenter Blocks Ledger StateCodec StateCodecFacts Consensus ConsensusFacts DecisionThms Startup Sample SampleBlocks SampleNode RoundThms.
From Stdlib Require Import NArith Lia.
From Stdlib Require Import Init.Byte.
Import Quorum.

Section Startup.
Context `{FabricCodecs} `{BlockCodecs} `{StateCodecs} `{BFTCodecs} `{Sha256} `{Environment} `{DBI : BatchAttestationDB D}.
Implicit Types c : Consensus D.

Definition config_ok (cfg : ConsenterNodeConfig) : Prop :=
  0 < length (nc_Consenters cfg) /\ (N.of_nat (length (nc_Consenters cfg)) <= u16_max)%N /\
  NoDup (nc_Shards cfg) /\ Forall (fun s => (s <= u16_max)%N) (nc_Shards cfg).

(** The shards of the initial state. *)
Lemma initial_shards cfg s : initialStateFromConfig cfg = Ok s -> s_Shards s ≡ₚ (fun x => mkShardTerm x 0) <$> nc_Shards cfg.
Proof.
  unfold initialStateFromConfig. destruct (ComputeFTQ _) as [[f T] Q]. intros E. apply bind_Ok_inv in E as (ctx & _ & E). apply Ok_inj in E as <-.
  cbn. apply merge_sort_Permutation.
Qed.

Lemma initial_fields cfg s : initialStateFromConfig cfg = Ok s ->
  exists f ctx, ComputeFTQ (u16 (N.of_nat (length (nc_Consenters cfg)))) = (f, s_Threshold s, s_Quorum s) /\
    marshal_or_panic (mkBlockHeader 0 [] []) = Ok ctx /\
    s = mkState (u16 (N.of_nat (length (nc_Consenters cfg)))) (s_Quorum s) (s_Threshold s) (s_Shards s) [] [] (Some ctx) [] [] [] 0.
Proof.
  unfold initialStateFromConfig. destruct (ComputeFTQ _) as [[f T] Q] eqn:EF. intros E. apply bind_Ok_inv in E as (ctx & Hctx & E). apply Ok_inj in E as <-.
  by exists f, ctx.
Qed.

Lemma initial_in_range cfg s ctx : config_ok cfg -> initialStateFromConfig cfg = Ok s -> state_in_range (with_AppContext ctx s) /\ (0 < s_N s)%N.
Proof.
  intros (Hn & Hmax & _ & Hsmall) E. pose proof (initial_shards _ _ E) as Hsh. apply initial_fields in E as (f & ctx0 & HF & _ & Es).
  assert (u16 (N.of_nat (length (nc_Consenters cfg))) = N.of_nat (length (nc_Consenters cfg))) as Hu by (apply u16_small; lia).
  rewrite Hu in *. rewrite Es. split; [|cbn; lia]. split; cbn [with_AppContext s_N s_Quorum s_Threshold s_Shards s_Pending s_Complaints s_StaleConfigBAFs s_AssemblerHeights s_PrunePoints]; try apply Forall_nil_2.
  - lia.
  - destruct (N.eqb_spec (N.of_nat (length (nc_Consenters cfg))) 0); [lia|]. by rewrite HF.
  - rewrite Hsh. apply Forall_fmap. exact Hsmall.
Qed.

Lemma initial_state_inv cfg s ctx : config_ok cfg -> initialStateFromConfig cfg = Ok s -> state_inv (with_AppContext ctx s) /\ terms_below s.
Proof.
  intros Hok E. pose proof Hok as (Hn & Hmax & Hnd & _). pose proof (initial_shards _ _ E) as Hsh. apply initial_fields in E as (f & ctx0 & HF & _ & Es).
  assert (u16 (N.of_nat (length (nc_Consenters cfg))) = N.of_nat (length (nc_Consenters cfg))) as Hu by (apply u16_small; lia).
  rewrite Hu in *. split.
  - rewrite Es. split; cbn [with_AppContext s_N s_Quorum s_Threshold s_Shards s_Pending s_Complaints s_StaleConfigBAFs s_AssemblerHeights s_PrunePoints]; try apply Forall_nil_2; try apply NoDup_nil_2. split; cbn [with_AppContext s_N s_Quorum s_Threshold s_Shards s_Pending s_Complaints s_StaleConfigBAFs s_AssemblerHeights s_PrunePoints]; try apply Forall_nil_2.
    + lia.
    + by exists f.
    + unfold shard_ids. rewrite Hsh, <-list_fmap_compose. rewrite (fmap_id_elem (st_Shard ∘ _)) by done. exact Hnd.
    + constructor.
  - unfold terms_below. rewrite Hsh. apply Forall_fmap. apply Forall_true. done.
Qed.

(** ** What can be read back from the ledger *)
Record recoverable c : Prop := {
  rec_last : exists b d md hdr h, last (c_Storage c) = Some b /\ ConsenterBlockToDecision (Some b) = Ok d /\
    (unmarshal (slice_bytes (p_Metadata (d_Proposal d))) : outcome ViewMetadata) = Ok md /\
    Header_Deserialize (p_Header (d_Proposal d)) = Ok hdr /\ h_State hdr = c_State c /\
    h_DecisionNumOfLastConfigBlock hdr = c_decisionNumOfLastConfigBlock c /\ b_Header b = Some h /\ BlockHeaderHash h = Ok (c_PrevHash c);
  rec_txs : tx_count_loop (c_Storage c) (length (c_Storage c)) = Ok (c_txCount c);
  rec_one : length (c_Storage c) = 1 -> c_txCount c = 1%N
}.

(** A decision as the protocol delivers it: its metadata decodes, its last block counts transactions, and it either has
    no config block and refers to the last config decision, or ends in a config block with a new number. *)
Definition regular c (p : Proposal) (sigs : list Signature) : Prop :=
  Forall (fun s => (sig_ID s <= u64_max)%N) sigs /\
  (exists md, (unmarshal (slice_bytes (p_Metadata p)) : outcome ViewMetadata) = Ok md) /\
  forall hdr, Header_Deserialize (p_Header p) = Ok hdr ->
    (forall t, h_AvailableCommonBlocks hdr <> [] -> getLastTxCountFromHeader hdr = Ok t -> (0 < t)%N) /\
    (h_DecisionNumOfLastConfigBlock hdr = c_decisionNumOfLastConfigBlock c /\ h_Num hdr <> h_DecisionNumOfLastConfigBlock hdr \/
     h_DecisionNumOfLastConfigBlock hdr = h_Num hdr /\
     exists b h, last (h_AvailableCommonBlocks hdr) = Some b /\ b_Header b = Some h /\ (c_lastConfigBlockNum c < bh_Number h)%N).

Lemma tx_count_loop_app ledger b n : n <= length ledger -> tx_count_loop (ledger ++ [b]) n = tx_count_loop ledger n.
Proof.
  induction n as [|n IH]; intros Hn; [done|]. cbn [tx_count_loop]. unfold RetrieveBlockByNumber. rewrite Nat2N.id, lookup_app_l by lia.
  rewrite IH by lia. done.
Qed.

Lemma deliver_config_regular c p sigs hdr lc dn rc started :
  regular c p sigs -> Header_Deserialize (p_Header p) = Ok hdr -> deliver_config c hdr (h_Num hdr) = Ok (lc, dn, rc, started) ->
  dn = h_DecisionNumOfLastConfigBlock hdr.
Proof.
  intros (_ & _ & Hreg) Hhdr E. destruct (Hreg _ Hhdr) as [_ [[Hd Hne]|(Hd & b & h & Hb & Hh & Hlt)]]; unfold deliver_config, config_block_of in E.
  - destruct (N.eqb_spec (h_Num hdr) (h_DecisionNumOfLastConfigBlock hdr)); [done|]. cbn in E. apply Ok_inj in E. injection E. intros; congruence.
  - destruct (N.eqb_spec (h_Num hdr) (h_DecisionNumOfLastConfigBlock hdr)); [|congruence]. rewrite Hb in E. cbn [mbind outcome_bind] in E.
    rewrite Hh in E. cbn [deref mbind outcome_bind] in E. apply bind_Ok_inv in E as (nodes & _ & E).
    destruct (N.ltb_spec (c_lastConfigBlockNum c) (bh_Number h)); [|lia]. apply Ok_inj in E. injection E. intros; congruence.
Qed.

Lemma Deliver_recoverable c p sigs c' rc started :
  recoverable c -> regular c p sigs -> Deliver c p sigs = Ok (c', rc, started) -> recoverable c'.
Proof.
  intros [(b0 & _ & _ & _ & _ & Hlast0 & _) Htxs _] Hreg (hdr & block & h & Hhdr & _ & Hb & Hh & Hph & Hst & Hconf & Htx & Hstate & _)%Deliver_inv.
  pose proof Hreg as (Hids & (md & Hmd) & Hcount). destruct (Hcount _ Hhdr) as [Hpos _]. destruct (p_Header p) as [rawH|] eqn:EH; [|done].
  pose proof (Decision_round _ _ _ _ _ _ Hids Hb) as Hdec. apply Append_Ok in Hst as [Hst _]. rewrite <-EH in Hhdr. split.
  - exists block, (mkDecision (proposal_norm p) (signature_norm <$> sigs)), md, hdr, h. rewrite Hst, last_snoc. split; [done|]. split; [done|].
    split; [by cbn|]. split; [cbn; by rewrite EH in Hhdr |- *|]. split; [done|]. split; [by rewrite (deliver_config_regular _ _ _ _ _ _ _ _ Hreg Hhdr Hconf)|done].
  - rewrite Hst, length_app, Nat.add_1_r. cbn [tx_count_loop]. unfold RetrieveBlockByNumber. rewrite Nat2N.id, lookup_app_r, Nat.sub_diag by lia.
    apply CreateBlock_Ok in Hb as (pb & sb & l & Hpb & _ & _ & ->). cbn [lookup list_lookup of_option or_panic mbind outcome_bind deref b_Data index].
    rewrite (Proposal_round _ _ Hpb). cbn [or_panic mbind outcome_bind proposal_norm p_Header]. rewrite EH in Hhdr |- *.
    change (slice_bytes (Some rawH)) with rawH. rewrite Hhdr. cbn [or_panic mbind outcome_bind].
    unfold updateMetricsOnDeliver in Htx. apply bind_Ok_inv in Htx as (t & Ht & Htx). apply Ok_inj in Htx. pose proof Ht as Ht'. unfold getLastTxCountFromHeader in Ht.
    destruct (last (h_AvailableCommonBlocks hdr)) as [lb|] eqn:El.
    + apply bind_Ok_inv in Ht as (r & Hr & Ht). rewrite Hr. cbn [mbind outcome_bind]. apply Ok_inj in Ht. rewrite Ht, <-Htx.
      assert (0 < t)%N by (apply Hpos; [intros E0; by rewrite E0 in El|done]). by destruct (N.ltb_spec 0 t); [|lia].
    + apply Ok_inj in Ht. subst t. rewrite tx_count_loop_app by done. cbn in Htx. by rewrite Htxs, Htx.
  - rewrite Hst, length_app. destruct (c_Storage c); [done|]. cbn. lia.
Qed.

(** The metadata that the genesis block must already have: its signatures can be read. *)
Definition signatures_readable (b : Block) : Prop :=
  exists md sigs, GetMetadataFromBlock b BlockMetadataIndex_SIGNATURES = Ok md /\ omapM metadata_signature (md_Signatures md) = Ok sigs.

(** What the rest relies on in the wire format: the empty string is the empty view metadata, and a message with a field
    that is set is not the empty string. *)
Definition wire_format : Prop :=
  (unmarshal [] : outcome ViewMetadata) = Ok (mkViewMetadata 0) /\ (forall m, GenesisBlockMetadataBytes = Ok m -> m <> []).

(** The genesis block with the orderer metadata set counts one transaction. *)
Lemma genesis_tx_count b b' m :
  wire_format -> signatures_readable b -> b_Header b <> None -> GenesisBlockMetadataBytes = Ok m ->
  set_metadata BlockMetadataIndex_ORDERER m b = Ok b' ->
  exists r, AssemblerBatchIdOrderingInfoAndTxCountFromBlock (Some b') = Ok r /\ r.2 = 1%N.
Proof.
  intros [_ Hm] (smd & sigs & Hsmd & Hsigs) Hh Em E. specialize (Hm _ Em). unfold set_metadata in E. apply bind_Ok_inv in E as (md & Hmd & E).
  destruct (b_Metadata b) as [md'|] eqn:EM; [|done]. cbn in Hmd. apply Ok_inj in Hmd as ->. unfold guard_panic in E. case_bool_decide as Hlen; [done|]. apply Ok_inj in E as <-.
  destruct (b_Header b) as [h|] eqn:EH; [|done].
  assert (exists x y z w rest, md = x :: y :: z :: w :: rest) as (x & y & z & w & rest & ->).
  { unfold BlockMetadataIndex_ORDERER in Hlen. destruct md as [|x [|y [|z [|w rest]]]]; cbn in Hlen; try lia. by eexists _, _, _, _, _. }
  unfold AssemblerBatchIdOrderingInfoAndTxCountFromBlock. cbn [of_option mbind outcome_bind b_Header b_Metadata BlockMetadataIndex_ORDERER insert list_insert].
  rewrite !bool_decide_eq_false_2 by (cbn; lia). cbn [guard_err].
  change (index (x :: y :: z :: m :: rest) BlockMetadataIndex_ORDERER) with (Ok m). cbn [mbind outcome_bind]. unfold AssemblerBlockMetadataFromBytes. cbn [of_option mbind outcome_bind]. rewrite bool_decide_eq_false_2 by (by destruct m). cbn [guard_err].
  unfold GenesisBlockMetadataBytes in Em. rewrite (unmarshal_marshal _ _ Em). cbn [wrap_err mbind outcome_bind abm_Shard abm_Primary].
  cbn [N.ltb]. change (u16_max <? ShardIDConsensus)%N with false. change (u16_max <? 0)%N with false. cbn [wrap_err mbind outcome_bind].
  unfold GetMetadataFromBlock in Hsmd |- *. rewrite EM in Hsmd. cbn [b_Metadata of_option mbind outcome_bind] in Hsmd |- *.
  apply guard_err_Ok in Hsmd as [G Hsmd]. rewrite bool_decide_eq_false_2 by (unfold BlockMetadataIndex_SIGNATURES; cbn; lia). cbn [guard_err].
  change (index (x :: y :: z :: w :: rest) BlockMetadataIndex_SIGNATURES) with (Ok x) in Hsmd. change (index (x :: y :: z :: m :: rest) BlockMetadataIndex_SIGNATURES) with (Ok x).
  cbn [mbind outcome_bind] in Hsmd |- *. rewrite Hsmd. cbn [wrap_err mbind outcome_bind].
  rewrite Hsigs. cbn [mbind outcome_bind]. eexists. split; [reflexivity|done].
Qed.

Lemma genesis_recoverable cfg genesis db c0 init h :
  wire_format -> signatures_readable genesis -> config_ok cfg -> b_Header genesis = Some h -> bh_Number h = 0%N ->
  configureConsensus cfg (Some genesis) [] db = Ok (c0, init) -> recoverable c0.
Proof.
  intros Hwire Hsigs Hcfg Hh Hnum E. unfold configureConsensus in E. rewrite Hh in E. apply bind_Ok_inv in E as (init' & Hinit & E).
  apply bind_Ok_inv in E as (tx & Htx & E). apply bind_Ok_inv in E as (? & _ & E). apply Ok_inj in E. injection E as <- <-.
  unfold getInitialStateAndMetadata in Hinit. cbn [Height length N.of_nat N.eqb] in Hinit. apply bind_Ok_inv in Hinit as (s & Hs & Hinit).
  rewrite Hh in Hinit. cbn [deref mbind outcome_bind] in Hinit. rewrite Hnum in Hinit. cbn [N.eqb] in Hinit. apply bind_Ok_inv in Hinit as ([[s' ph] ledger] & Hg & Hinit).
  apply Ok_inj in Hinit as <-. cbn [is_State is_DecisionNumOfLastConfigBlock is_PrevHash is_Ledger] in *. unfold appendGenesisBlock in Hg.
  apply bind_Ok_inv in Hg as (data & _ & Hg). apply bind_Ok_inv in Hg as (lh & _ & Hg). apply bind_Ok_inv in Hg as (ctx & _ & Hg).
  apply bind_Ok_inv in Hg as (m & Hm & Hg). apply bind_Ok_inv in Hg as (g' & Hg' & Hg). apply bind_Ok_inv in Hg as (payload & _ & Hg).
  apply bind_Ok_inv in Hg as (header & Hheader & Hg). apply bind_Ok_inv in Hg as (block & Hblock & Hg). apply bind_Ok_inv in Hg as (l & Hl & Hg).
  apply bind_Ok_inv in Hg as (bh & Hbh & Hg). apply bind_Ok_inv in Hg as (ph' & Hph & Hg). apply Ok_inj in Hg. injection Hg as <- <- <-.
  destruct (initial_in_range cfg s (Some ctx) Hcfg Hs) as [Hrange HN].
  pose proof (Header_round _ _ _ (eq_refl : h_State (mkHeader 0 [] [g'] (Some (with_AppContext (Some ctx) s)) 0) = Some _) Hrange HN Hheader) as Hround.
  assert (header_norm (mkHeader 0 [] [g'] (Some (with_AppContext (Some ctx) s)) 0) = mkHeader 0 [] [g'] (Some (with_AppContext (Some ctx) s)) 0) as Hnorm.
  { apply initial_fields in Hs as (? & ? & _ & _ & ->). reflexivity. }
  rewrite Hnorm in Hround. pose proof (Decision_round _ _ _ _ _ _ (Forall_nil_2 _) Hblock) as Hdec. apply Append_Ok in Hl as [-> _].
  destruct (b_Header block) as [bh'|] eqn:EB; [|done]. cbn in Hbh. apply Ok_inj in Hbh as ->. cbn [Height length app N.of_nat N.eqb getTxCount] in Htx.
  assert (tx = 1%N) as -> by (unfold getTxCount in Htx; cbn in Htx; by apply Ok_inj in Htx). split; cbn [c_Storage c_State c_decisionNumOfLastConfigBlock c_PrevHash c_txCount app last length].
  - eexists block, _, (mkViewMetadata 0), _, bh. split; [done|]. split; [exact Hdec|]. split; [exact (proj1 Hwire)|]. split; [exact Hround|]. done.
  - cbn [tx_count_loop]. unfold RetrieveBlockByNumber. rewrite Nat2N.id. cbn [lookup list_lookup of_option or_panic mbind outcome_bind].
    apply CreateBlock_Ok in Hblock as (pb & sb & lc & Hpb & _ & _ & ->). cbn [deref b_Data mbind outcome_bind index lookup list_lookup].
    rewrite (Proposal_round _ _ Hpb). cbn [or_panic mbind outcome_bind proposal_norm p_Header]. change (slice_bytes (Some header)) with header.
    rewrite Hround. cbn [or_panic mbind outcome_bind h_AvailableCommonBlocks last].
    destruct (genesis_tx_count genesis g' m Hwire Hsigs) as (r & -> & Hr); [by rewrite Hh|done|done|]. cbn. by rewrite Hr.
  - done.
Qed.

(** A node's life: started from the genesis block, it delivers regular decisions. *)
Inductive life c : Consensus D -> Prop :=
| life_start : life c c
| life_deliver c1 p sigs c2 rc started : life c c1 -> regular c1 p sigs -> Deliver c1 p sigs = Ok (c2, rc, started) -> life c c2.

Lemma life_recoverable c c' : recoverable c -> life c c' -> recoverable c'.
Proof. intros Hr Hl. induction Hl as [|c1 p sigs c2 rc started _ IH Hreg Hd]; [done|]. by eapply Deliver_recoverable. Qed.

(** C11: restarting recovers the node. Whenever a node that started from the genesis block and delivered decisions stops,
    starting again from its ledger, with its last config block, succeeds and gives the same state, previous hash,
    transaction count, last config numbers, ledger and database as it had. *)
Theorem restart_recovers cfg genesis db c0 init h c cfg' cb hcb :
  wire_format -> signatures_readable genesis -> config_ok cfg -> b_Header genesis = Some h -> bh_Number h = 0%N ->
  configureConsensus cfg (Some genesis) [] db = Ok (c0, init) -> life c0 c ->
  b_Header cb = Some hcb -> bh_Number hcb = c_lastConfigBlockNum c -> (exists sync, shouldSyncOnStart cb (Height (c_Storage c)) = Ok sync) ->
  exists c' init', configureConsensus cfg' (Some cb) (c_Storage c) (c_DB c) = Ok (c', init') /\
    c_State c' = c_State c /\ c_PrevHash c' = c_PrevHash c /\ c_txCount c' = c_txCount c /\
    c_decisionNumOfLastConfigBlock c' = c_decisionNumOfLastConfigBlock c /\ c_lastConfigBlockNum c' = c_lastConfigBlockNum c /\
    c_Storage c' = c_Storage c /\ c_DB c' = c_DB c.
Proof.
  intros Hwire Hsigs Hcfg Hh Hnum E Hlife Hcb Hcbn [sync Hsync].
  assert (recoverable c) as [(b & d & md & hdr & bh & Hlast & Hdec & Hmd & Hhdr & Hst & Hdn & Hbh & Hph) Htxs Hone].
  { eapply life_recoverable; [|exact Hlife]. by eapply genesis_recoverable. }
  rewrite last_lookup in Hlast. apply lookup_lt_Some in Hlast as Hpos.
  unfold configureConsensus, getInitialStateAndMetadata. rewrite Hcb. unfold Height in *.
  destruct (N.eqb_spec (N.of_nat (length (c_Storage c))) 0); [lia|]. unfold RetrieveBlockByNumber. replace (N.to_nat _) with (Init.Nat.pred (length (c_Storage c))) by lia.
  rewrite Hlast. cbn [of_option or_panic mbind outcome_bind]. rewrite Hdec. cbn [or_panic mbind outcome_bind]. rewrite Hmd. cbn [or_panic mbind outcome_bind].
  rewrite Hhdr. cbn [or_panic mbind outcome_bind]. rewrite Hbh. cbn [deref mbind outcome_bind]. rewrite Hph. cbn [mbind outcome_bind is_Ledger].
  assert (getTxCount (c_Storage c) = Ok (c_txCount c)) as ->.
  { unfold getTxCount, Height. destruct (N.eqb_spec (N.of_nat (length (c_Storage c))) 0); [lia|].
    destruct (N.eqb_spec (N.of_nat (length (c_Storage c))) 1) as [E1|]; [by rewrite Hone by lia|done]. }
  cbn [mbind outcome_bind]. rewrite Hsync. cbn [mbind outcome_bind]. eexists _, _. split; [reflexivity|]. cbn. done.
Qed.

End Startup.

(** ** A node that starts, delivers a decision and restarts *)
Section Witnesses.
#[local] Existing Instance sample_fabric.
#[local] Existing Instance sample_blocks.
#[local] Existing Instance sample_states.
#[local] Existing Instance sample_bft.
#[local] Existing Instance sample_sha.
#[local] Existing Instance sample_env.
#[local] Existing Instance seven_parties.
#[local] Existing Instance range_canonical.

Definition sample_config : ConsenterNodeConfig := mkNodeConfig 2 2 [1; 2; 3; 4]%N [2; 1]%N 3.
Definition sample_genesis : Block := mkBlock (Some (mkBlockHeader 0 [] [x01])) (Some [[x01]]) (Some [[]; []; []; []; []]).
Definition started : option (Consensus Badb.t * InitialState) :=
  match configureConsensus sample_config (Some sample_genesis) [] (Badb.mk true ∅) with Ok r => Some r | _ => None end.
Definition node_started : Consensus Badb.t := default (sample_consensus 2) (fst <$> started).
Definition node_initial : InitialState := default (mkInitial None (mkViewMetadata 0) None [] 0 [] []) (snd <$> started).
Definition first_requests : list bytes := (fun ce => ok_bytes (ControlEvent_Bytes ce)) <$> [BAFEvent (signed_fragment 1); BAFEvent (signed_fragment 2)].
Definition first_proposal : Proposal :=
  match AssembleProposal node_started (ok_bytes (marshal_or_panic (mkViewMetadata 1))) first_requests with Ok p => p | _ => mkProposal None None None 0 end.
Definition first_header : Header := match Header_Deserialize (p_Header first_proposal) with Ok h => h | _ => mkHeader 0 [] [] None 0 end.
Definition node_one : Consensus Badb.t := match Deliver node_started first_proposal [mkSignature 1 None None] with Ok (c, _, _) => c | _ => node_started end.

Lemma node_started_ok : configureConsensus sample_config (Some sample_genesis) [] (Badb.mk true ∅) = Ok (node_started, node_initial).
Proof. vm_compute. reflexivity. Qed.
Lemma node_one_ok : Deliver node_started first_proposal [mkSignature 1 None None] = Ok (node_one, mkReconfig [1; 2; 3; 4]%N false, false).
Proof. vm_compute. reflexivity. Qed.
Lemma first_header_ok : Header_Deserialize (p_Header first_proposal) = Ok first_header.
Proof. vm_compute. reflexivity. Qed.
Lemma first_regular : regular node_started first_proposal [mkSignature 1 None None].
Proof.
  split; [apply Forall_singleton; vm_compute; discriminate|]. split; [eexists; vm_compute; reflexivity|]. intros hdr E. rewrite first_header_ok in E. apply Ok_inj in E as <-. split.
  - intros t _ E. vm_compute in E. apply Ok_inj in E as <-. reflexivity.
  - left. split; [vm_compute; reflexivity|vm_compute; discriminate].
Qed.

Lemma restart_recovers_witness : exists c' init', configureConsensus sample_config (Some sample_genesis) (c_Storage node_one) (c_DB node_one) = Ok (c', init') /\
  c_State c' = c_State node_one /\ c_PrevHash c' = c_PrevHash node_one /\ c_txCount c' = c_txCount node_one /\
  c_decisionNumOfLastConfigBlock c' = c_decisionNumOfLastConfigBlock node_one /\ c_lastConfigBlockNum c' = c_lastConfigBlockNum node_one /\
  c_Storage c' = c_Storage node_one /\ c_DB c' = c_DB node_one.
Proof.
  apply (restart_recovers sample_config sample_genesis (Badb.mk true ∅) node_started node_initial (mkBlockHeader 0 [] [x01]) node_one sample_config sample_genesis (mkBlockHeader 0 [] [x01])).
  - split; [reflexivity|]. intros m E. vm_compute in E. apply Ok_inj in E as <-. discriminate.
  - eexists _, _. split; [vm_compute; reflexivity|reflexivity].
  - split; [vm_compute; repeat constructor|]. split; [vm_compute; discriminate|]. split; [repeat constructor; set_solver|]. repeat constructor; vm_compute; discriminate.
  - reflexivity.
  - reflexivity.
  - apply node_started_ok.
  - eapply life_deliver; [apply life_start|apply first_regular|apply node_one_ok].
  - reflexivity.
  - vm_compute. reflexivity.
  - exists false. reflexivity.
Defined.
End Witnesses.
