(* ===== verification/Lifecycle.v ===== *)
(** * The life cycle of a consenter

    [src/node/consensus/consensus.go]: Start, SoftStop, Stop and the reconfiguration goroutine that Deliver starts for a
    new config block, with [src/node/utils/node_status.go]. Each critical section under the node's lock is one step, and
    the goroutines interleave between them. *)
From S2P Require Import Prelude.
From Stdlib Require Import NArith.

Module Lifecycle.

Inductive NodeState := StateInitializing | StateRunning | StateStopped | StateSoftStopped | StatePendingAdmin.
#[export] Instance NodeState_eq_dec : EqDecision NodeState.
Proof. solve_decision. Defined.
Record NodeStatus := mkStatus { ns_State : NodeState; ns_ConfigSequenceNumber : N }.

(** ** Channels that are only closed *)
Inductive channel := Nil | Open | Closed.
#[export] Instance channel_eq_dec : EqDecision channel.
Proof. solve_decision. Defined.
Definition close (ch : channel) : outcome channel :=
  match ch with
  | Nil => Panic "close of nil channel"
  | Closed => Panic "close of closed channel"
  | Open => Ok Closed
  end.

(** The resources that are open or running. *)
Record resources := mkResources {
  storage : bool; badb : bool; synchronizer : bool; metrics : bool; net : bool; ops : bool; ackReceiver : bool
}.
Record node := mkNode {
  status : NodeStatus;
  softStopCh : channel;
  ReconfigAbort : channel;
  MainExitChan : channel;
  res : resources;
  bft : bool
}.

Definition SetState (st : NodeState) (s : NodeStatus) : NodeStatus := mkStatus st (ns_ConfigSequenceNumber s).
Definition with_status (s : NodeStatus) (n : node) : node := mkNode s (softStopCh n) (ReconfigAbort n) (MainExitChan n) (res n) (bft n).
Definition with_softStopCh (ch : channel) (n : node) : node := mkNode (status n) ch (ReconfigAbort n) (MainExitChan n) (res n) (bft n).
Definition with_ReconfigAbort (ch : channel) (n : node) : node := mkNode (status n) (softStopCh n) ch (MainExitChan n) (res n) (bft n).
Definition with_MainExitChan (ch : channel) (n : node) : node := mkNode (status n) (softStopCh n) (ReconfigAbort n) ch (res n) (bft n).
Definition with_res (r : resources) (n : node) : node := mkNode (status n) (softStopCh n) (ReconfigAbort n) (MainExitChan n) r (bft n).
Definition with_bft (b : bool) (n : node) : node := mkNode (status n) (softStopCh n) (ReconfigAbort n) (MainExitChan n) (res n) b.

(** Synchronizer.Stop, BADB.Close and StopMetricsTracker. *)
Definition soft_stop_resources (r : resources) : resources := mkResources (storage r) false false false (net r) (ops r) (ackReceiver r).
(** Storage.Close, Net.Stop, opsSystem.Stop and ConfigAckReceiver.Stop. *)
Definition stop_resources (r : resources) : resources := mkResources false (badb r) (synchronizer r) (metrics r) false false false.

(** ** Critical sections *)
Definition startServices (n : node) : node :=
  let r := res n in
  with_res (mkResources (storage r) (badb r) (synchronizer r) true (net r) true (ackReceiver r))
    (with_softStopCh Open (with_status (SetState StateRunning (status n)) n)).

(** Start, and the start of the protocol that follows it. *)
Definition Start (n : node) : node := with_bft true (startServices n).
Definition StartWithoutBFT (n : node) : node := startServices n.
Definition StartConsensusService (n : node) : node :=
  let r := res n in with_res (mkResources (storage r) (badb r) (synchronizer r) (metrics r) true (ops r) (ackReceiver r)) n.

(** The first section of Stop: release a Deliver that waits for a reconfiguration. *)
Definition Stop_abort (n : node) : outcome node :=
  match ReconfigAbort n with
  | Closed => Ok n
  | ch => ch' ← close ch; Ok (with_ReconfigAbort ch' n)
  end.

(** The second section of Stop, after the protocol was stopped. *)
Definition Stop_teardown (n : node) : outcome node :=
  let state := ns_State (status n) in
  if decide (state = StateStopped) then Ok n else
  n ← (if decide (state <> StateSoftStopped /\ state <> StatePendingAdmin)
       then ch ← close (softStopCh n); Ok (with_res (soft_stop_resources (res n)) (with_softStopCh ch n))
       else Ok n);
  let n := with_status (SetState StateStopped (status n)) (with_res (stop_resources (res n)) n) in
  exit ← close (MainExitChan n);
  Ok (with_MainExitChan exit n).

Definition SoftStop (n : node) : outcome node :=
  let state := ns_State (status n) in
  if decide (state = StateStopped \/ state = StateSoftStopped) then Ok n else
  let n := with_status (SetState StateSoftStopped (status n)) n in
  ch ← close (softStopCh n);
  Ok (with_res (soft_stop_resources (res n)) (with_softStopCh ch n)).

Definition isReconfigAborted (n : node) : bool := bool_decide (ReconfigAbort n = Closed).

(** The locked part of stopAndReconfigure: the old services are stopped, and configureConsensus opens the ledger, the
    database and the synchronizer again and replaces the receiver of acks; softStopCh is left as it is. *)
Definition stopAndReconfigure (newConfigSeq : N) (n : node) : node :=
  let r := res n in
  with_res (mkResources true true true (metrics r) false false true) (with_status (mkStatus StateInitializing newConfigSeq) n).

(** What processNewConfigBlock does when an administrator must act. *)
Definition setPendingAdmin (n : node) : node := with_status (SetState StatePendingAdmin (status n)) n.

(** ** Interleavings *)

(** A call of Stop: called, after the first section, after the protocol stopped, returned. *)
Inductive stop_pc := SCalled | SAborted | SBftStopped | SDone.
(** The reconfiguration goroutine: none, started, waiting for acks after SoftStop, past the abort check of ApplyConfig, after
    the locked part of stopAndReconfigure, with the service started, and pending an administrator. *)
Inductive reconf_pc := RIdle | RBegun | RWaiting | RChecked | RConfigured | RServing | RAdmin.
#[export] Instance stop_pc_eq_dec : EqDecision stop_pc.
Proof. solve_decision. Defined.
#[export] Instance reconf_pc_eq_dec : EqDecision reconf_pc.
Proof. solve_decision. Defined.

Record system := mkSystem { sys_node : node; sys_stops : list stop_pc; sys_reconf : reconf_pc }.

Definition on_node (f : node -> outcome node) (stops : list stop_pc) (r : reconf_pc) (s : system) : outcome system :=
  n ← f (sys_node s); Ok (mkSystem n stops r).

Inductive step (s : system) : outcome system -> Prop :=
| step_call : step s (Ok (mkSystem (sys_node s) (sys_stops s ++ [SCalled]) (sys_reconf s)))
| step_abort i : sys_stops s !! i = Some SCalled ->
    step s (on_node Stop_abort (<[i := SAborted]> (sys_stops s)) (sys_reconf s) s)
| step_bft i : sys_stops s !! i = Some SAborted ->
    step s (on_node (fun n => Ok (with_bft false n)) (<[i := SBftStopped]> (sys_stops s)) (sys_reconf s) s)
| step_teardown i : sys_stops s !! i = Some SBftStopped ->
    step s (on_node Stop_teardown (<[i := SDone]> (sys_stops s)) (sys_reconf s) s)
| step_deliver : sys_reconf s = RIdle -> bft (sys_node s) = true ->
    step s (Ok (mkSystem (sys_node s) (sys_stops s) RBegun))
| step_softstop : sys_reconf s = RBegun ->
    step s (on_node SoftStop (sys_stops s) RWaiting s)
| step_check : sys_reconf s = RWaiting ->
    step s (Ok (mkSystem (sys_node s) (sys_stops s) (if isReconfigAborted (sys_node s) then RIdle else RChecked)))
| step_admin : sys_reconf s = RChecked ->
    step s (on_node (fun n => Ok (setPendingAdmin n)) (sys_stops s) RAdmin s)
| step_admin_bft : sys_reconf s = RAdmin ->
    step s (on_node (fun n => Ok (with_bft false n)) (sys_stops s) RIdle s)
| step_reconfigure seq : sys_reconf s = RChecked ->
    step s (on_node (fun n => Ok (stopAndReconfigure seq n)) (sys_stops s) RConfigured s)
| step_service : sys_reconf s = RConfigured ->
    step s (on_node (fun n => Ok (StartConsensusService n)) (sys_stops s) RServing s)
| step_start : sys_reconf s = RServing ->
    step s (on_node (fun n => Ok (StartWithoutBFT n)) (sys_stops s) RIdle s).

(** The goroutine is past the abort check. *)
Definition committed (r : reconf_pc) : Prop := r = RChecked \/ r = RConfigured \/ r = RServing \/ r = RAdmin.
#[export] Instance committed_dec r : Decision (committed r).
Proof. unfold committed. apply _. Defined.

(** No Stop begins while the goroutine is past the abort check. *)
Definition orderly (s : system) (o : outcome system) : Prop :=
  forall s', o = Ok s' -> ReconfigAbort (sys_node s) <> Closed -> ReconfigAbort (sys_node s') = Closed -> ~ committed (sys_reconf s).

Inductive run (s : system) : system -> Prop :=
| run_start : run s s
| run_step s1 s2 : run s s1 -> step s1 (Ok s2) -> run s s2.
Inductive orderly_run (s : system) : system -> Prop :=
| orderly_start : orderly_run s s
| orderly_step s1 s2 : orderly_run s s1 -> step s1 (Ok s2) -> orderly s1 (Ok s2) -> orderly_run s s2.

(** A node that runs. *)
Definition running (seq : N) : node :=
  mkNode (mkStatus StateRunning seq) Open Open Open (mkResources true true true true true true true) true.
Definition started (seq : N) : system := mkSystem (running seq) [] RIdle.


(** ** The invariant of orderly runs *)
Definition allowed (st : NodeState) (r : reconf_pc) : Prop :=
  match r with
  | RIdle => st <> StateInitializing
  | RBegun => st = StateRunning \/ st = StateSoftStopped \/ st = StateStopped
  | RWaiting => st = StateSoftStopped \/ st = StateStopped
  | RChecked => st = StateSoftStopped
  | RConfigured | RServing => st = StateInitializing
  | RAdmin => st = StatePendingAdmin
  end.
Definition resources_of (st : NodeState) (r : reconf_pc) : resources :=
  match st with
  | StateRunning => mkResources true true true true true true true
  | StateSoftStopped | StatePendingAdmin => mkResources true false false false true true true
  | StateStopped => mkResources false false false false false false false
  | StateInitializing => mkResources true true true false (bool_decide (r = RServing)) false true
  end.
Definition begun (stops : list stop_pc) : Prop := exists pc, pc ∈ stops /\ pc <> SCalled.

Record inv (s : system) : Prop := {
  i_allowed : allowed (ns_State (status (sys_node s))) (sys_reconf s);
  i_soft : softStopCh (sys_node s) = if decide (ns_State (status (sys_node s)) = StateRunning) then Open else Closed;
  i_exit : MainExitChan (sys_node s) = if decide (ns_State (status (sys_node s)) = StateStopped) then Closed else Open;
  i_abort : ReconfigAbort (sys_node s) = Open /\ ~ begun (sys_stops s) \/ ReconfigAbort (sys_node s) = Closed /\ begun (sys_stops s);
  i_committed : committed (sys_reconf s) -> ReconfigAbort (sys_node s) = Open;
  i_pending : sys_reconf s = RIdle -> ns_State (status (sys_node s)) = StatePendingAdmin -> bft (sys_node s) = false;
  i_stopped : ns_State (status (sys_node s)) = StateStopped -> ReconfigAbort (sys_node s) = Closed;
  i_done : SDone ∈ sys_stops s -> ns_State (status (sys_node s)) = StateStopped;
  i_res : res (sys_node s) = resources_of (ns_State (status (sys_node s))) (sys_reconf s)
}.

Lemma inv_started seq : inv (started seq).
Proof. split; cbn; try done; [left; split; [done|intros (pc & Hpc & _)]|intros Hin]; set_solver. Qed.

Lemma begun_insert i pc x stops : stops !! i = Some x -> pc <> SCalled -> begun (<[i := pc]> stops).
Proof. intros Hx Hne. exists pc. split; [|done]. apply list_elem_of_insert. by eapply lookup_lt_Some. Qed.

Lemma begun_lookup i pc stops : stops !! i = Some pc -> pc <> SCalled -> begun stops.
Proof. intros Hi Hne. exists pc. split; [by eapply list_elem_of_lookup_2|done]. Qed.

Lemma elem_of_insert_ne i (pc x : stop_pc) (stops : list stop_pc) : pc ∈ <[i := x]> stops -> pc = x \/ pc ∈ stops.
Proof. intros [j Hj]%list_elem_of_lookup. apply list_lookup_insert_Some in Hj as [(_ & <- & _)|[_ Hj]]; [by left|right]. by eapply list_elem_of_lookup_2. Qed.

Lemma begun_app_called stops : begun (stops ++ [SCalled]) <-> begun stops.
Proof. split; intros (pc & Hin & Hne); exists pc; split; try done; set_solver. Qed.

(** A Stop that is past its first section has closed the abort channel. *)
Lemma inv_aborted s i pc : inv s -> sys_stops s !! i = Some pc -> pc <> SCalled -> ReconfigAbort (sys_node s) = Closed /\ ~ committed (sys_reconf s).
Proof.
  intros Hi Hpc Hne. pose proof (begun_lookup _ _ _ Hpc Hne) as Hb. destruct (i_abort _ Hi) as [[_ Hnb]|[Hc _]]; [done|].
  split; [done|]. intros Hcom. by rewrite (i_committed _ Hi Hcom) in Hc.
Qed.

(** The invariant when only the protocol flag and the calls of Stop change, without a return. *)
Lemma inv_stops s b stops' :
  inv s -> (b = true -> bft (sys_node s) = true) -> (begun stops' <-> begun (sys_stops s)) -> (SDone ∈ stops' -> SDone ∈ sys_stops s) ->
  inv (mkSystem (with_bft b (sys_node s)) stops' (sys_reconf s)).
Proof.
  intros [] Hb Hbeg Hdone. split; cbn; try done; auto.
  - destruct i_abort0 as [[? ?]|[? ?]]; [left|right]; tauto.
  - intros Hr Hp. specialize (i_pending0 Hr Hp). destruct b; [|done]. by rewrite Hb in i_pending0.
Qed.

Lemma inv_stops_same s stops' :
  inv s -> (begun stops' <-> begun (sys_stops s)) -> (SDone ∈ stops' -> SDone ∈ sys_stops s) -> inv (mkSystem (sys_node s) stops' (sys_reconf s)).
Proof.
  intros Hi Hb Hd. pose proof (inv_stops s (bft (sys_node s)) stops' Hi (fun e => e) Hb Hd) as Hn.
  assert (with_bft (bft (sys_node s)) (sys_node s) = sys_node s) as E by (by destruct (sys_node s)). by rewrite E in Hn.
Qed.

Lemma inv_abort s i : inv s -> sys_stops s !! i = Some SCalled ->
  exists s', on_node Stop_abort (<[i := SAborted]> (sys_stops s)) (sys_reconf s) s = Ok s' /\ (orderly s (Ok s') -> inv s').
Proof.
  intros Hi Hpc. pose proof Hi as []. pose proof (begun_insert i SAborted SCalled _ Hpc ltac:(done)) as Hbeg.
  assert (SDone ∈ <[i := SAborted]> (sys_stops s) -> SDone ∈ sys_stops s) as Hdone by (by intros [|]%elem_of_insert_ne).
  unfold on_node, Stop_abort. destruct i_abort0 as [[Ha Hnb]|[Ha Hb]]; rewrite Ha; cbn [close mbind outcome_bind]; eexists; (split; [reflexivity|]); intros Hord.
  - assert (~ committed (sys_reconf s)) as Hnc by (apply (Hord _ eq_refl); cbn; [by rewrite Ha|done]).
    split; cbn; try done; auto.
  - by apply inv_stops_same.
Qed.

Lemma inv_teardown s i : inv s -> sys_stops s !! i = Some SBftStopped ->
  exists s', on_node Stop_teardown (<[i := SDone]> (sys_stops s)) (sys_reconf s) s = Ok s' /\ inv s'.
Proof.
  intros Hi Hpc. destruct (inv_aborted _ _ _ Hi Hpc ltac:(done)) as [Ha Hnc]. pose proof (begun_insert i SDone _ _ Hpc ltac:(done)) as Hbeg.
  destruct s as [[[st seq] ss ra me r b] stops rc]. destruct Hi. cbn in *. subst ra ss me r.
  unfold on_node, Stop_teardown, committed in *. cbn.
  destruct st; cbn; try (destruct rc; cbn in *; intuition congruence); eexists; (split; [reflexivity|]); split; cbn; try done; auto;
    destruct rc; cbn in *; intuition congruence.
Qed.

Lemma inv_softstop s : inv s -> sys_reconf s = RBegun -> exists s', on_node SoftStop (sys_stops s) RWaiting s = Ok s' /\ inv s'.
Proof.
  intros Hi Hr. destruct s as [[[st seq] ss ra me r b] stops rc]. destruct Hi. cbn in *. subst rc ss me r. unfold on_node, SoftStop. cbn.
  destruct st; cbn in *; try (intuition congruence); eexists; (split; [reflexivity|]); split; cbn; try done; auto; unfold committed; intuition congruence.
Qed.

(** Case analysis on the status for the steps that change only the status and the resources. *)
Ltac crush_node s Hi :=
  destruct s as [[[st ?] ? ? ? ? ?] stops ?]; destruct Hi; cbn in *; subst; destruct st; cbn in *; unfold committed in *;
  try solve [intuition congruence]; split; cbn; try done; auto; unfold committed in *; intuition congruence.

(** Every step of an orderly run succeeds and keeps the invariant. *)
Lemma step_inv s o : inv s -> step s o -> exists s', o = Ok s' /\ (orderly s (Ok s') -> inv s').
Proof.
  intros Hi [|i Hpc|i Hpc|i Hpc|Hr Hb|Hr|Hr|Hr|Hr|seq Hr|Hr|Hr].
  - eexists; split; [done|intros _]. apply inv_stops_same; [done|apply begun_app_called|set_solver].
  - by apply inv_abort.
  - eexists; split; [reflexivity|intros _]. pose proof (begun_lookup _ _ _ Hpc ltac:(done)). pose proof (begun_insert i SBftStopped _ _ Hpc ltac:(done)).
    apply inv_stops; try done. by intros [|]%elem_of_insert_ne.
  - destruct (inv_teardown _ _ Hi Hpc) as (s' & E & Hs'). by exists s'.
  - eexists; split; [done|intros _]. crush_node s Hi.
  - destruct (inv_softstop _ Hi Hr) as (s' & E & Hs'). by exists s'.
  - eexists; split; [done|intros _]. unfold isReconfigAborted. case_bool_decide; crush_node s Hi.
  - eexists; split; [reflexivity|intros _]. crush_node s Hi.
  - eexists; split; [reflexivity|intros _]. crush_node s Hi.
  - eexists; split; [reflexivity|intros _]. crush_node s Hi.
  - eexists; split; [reflexivity|intros _]. crush_node s Hi.
  - eexists; split; [reflexivity|intros _]. crush_node s Hi.
Qed.

Lemma orderly_inv seq s : orderly_run (started seq) s -> inv s.
Proof.
  induction 1 as [|s1 s2 _ IH Hs Ho]; [apply inv_started|]. destruct (step_inv _ _ IH Hs) as (s' & E & Hs').
  apply Ok_inj in E as ->. by apply Hs'.
Qed.

Lemma stopped_final s s' : inv s -> ns_State (status (sys_node s)) = StateStopped -> step s (Ok s') -> ns_State (status (sys_node s')) = StateStopped.
Proof.
  intros Hi Hst Hs. assert (ReconfigAbort (sys_node s) = Closed) as Ha by (by apply i_stopped).
  assert (~ committed (sys_reconf s)) as Hnc by (intros Hc; by rewrite (i_committed _ Hi Hc) in Ha). unfold committed in Hnc.
  inversion Hs as [E|i Hpc E|i Hpc E|i Hpc E|Hr Hb E|Hr E|Hr E|Hr E|Hr E|seq Hr E|Hr E|Hr E]; unfold on_node, Stop_abort, Stop_teardown, SoftStop in *;
    try (exfalso; tauto); try (subst; done);
    rewrite ?Ha, ?Hst in E; cbn [decide] in E; try rewrite decide_True in E by auto; cbn in E; apply Ok_inj in E as <-; done.
Qed.

(** stopping and reconfiguring. As long as no Stop begins while a reconfiguration is past its abort check, no step of
    any interleaving of Stop calls and reconfigurations panics (no channel is closed twice), a running node has all its
    resources open, the exit of the main program is signalled exactly when the node is stopped, a Stop that returned
    left the node stopped with all resources closed, and a stopped node stays stopped. *)
Theorem orderly_shutdown seq s :
  orderly_run (started seq) s ->
  (forall o, step s o -> exists s', o = Ok s') /\
  (ns_State (status (sys_node s)) = StateRunning -> res (sys_node s) = mkResources true true true true true true true) /\
  (MainExitChan (sys_node s) = Closed <-> ns_State (status (sys_node s)) = StateStopped) /\
  (SDone ∈ sys_stops s -> ns_State (status (sys_node s)) = StateStopped /\ res (sys_node s) = mkResources false false false false false false false) /\
  (ns_State (status (sys_node s)) = StateStopped -> forall s', step s (Ok s') -> ns_State (status (sys_node s')) = StateStopped).
Proof.
  intros Hrun%orderly_inv. pose proof Hrun as []. split; [|split; [|split; [|split]]].
  - intros o Ho. destruct (step_inv _ _ Hrun Ho) as (s' & E & _). by exists s'.
  - intros E. by rewrite i_res0, E.
  - rewrite i_exit0. case_decide; done.
  - intros Hd. specialize (i_done0 Hd). split; [done|]. by rewrite i_res0, i_done0.
  - intros E s'. by apply stopped_final.
Qed.

Lemma step_to s o o' : step s o -> o = o' -> step s o'.
Proof. by intros ? <-. Qed.

(** what the abort check does not prevent. The check is not in the critical section it guards: if Stop begins right
    after it, one interleaving closes softStopCh twice, which panics, and another one starts the node again after the
    exit of the main program was signalled. *)
Theorem stop_during_reconfiguration (seq seq' : N) :
  (exists s e, run (started seq) s /\ step s (Panic e)) /\
  (exists s, run (started seq) s /\ MainExitChan (sys_node s) = Closed /\ ns_State (status (sys_node s)) = StateRunning).
Proof.
  set (s0 := started seq).
  assert (exists s, run s0 s /\ sys_reconf s = RChecked /\ sys_stops s = [SBftStopped] /\
    sys_node s = mkNode (mkStatus StateSoftStopped seq) Closed Closed Open (mkResources true false false false true true true) false) as (s & Hrun & Hr & Hst & Hn).
  { eexists. split; [|split; [|split]].
    - eapply run_step; [eapply run_step; [eapply run_step; [eapply run_step; [eapply run_step; [eapply run_step; [apply run_start|]|]|]|]|]|].
      + eapply step_to; [by apply step_deliver|reflexivity].
      + eapply step_to; [by apply step_softstop|reflexivity].
      + eapply step_to; [by apply step_check|reflexivity].
      + apply step_call.
      + eapply step_to; [by apply (step_abort _ 0)|reflexivity].
      + eapply step_to; [by apply (step_bft _ 0)|reflexivity].
    - reflexivity.
    - reflexivity.
    - reflexivity. }
  destruct s as [n stops r]. cbn in Hr, Hst, Hn. subst. split.
  - eexists _, _. split.
    + eapply run_step; [exact Hrun|]. eapply step_to; [by apply (step_reconfigure _ seq')|reflexivity].
    + eapply step_to; [by apply (step_teardown _ 0)|reflexivity].
  - eexists. split.
    + eapply run_step; [eapply run_step; [eapply run_step; [eapply run_step; [exact Hrun|]|]|]|].
      * eapply step_to; [by apply (step_teardown _ 0)|reflexivity].
      * eapply step_to; [by apply (step_reconfigure _ seq')|reflexivity].
      * eapply step_to; [by apply step_service|reflexivity].
      * eapply step_to; [by apply step_start|reflexivity].
    + done.
Qed.

(** A Stop of a running node. *)
Definition stopped_system : system :=
  mkSystem (mkNode (mkStatus StateStopped 3) Closed Closed Closed (mkResources false false false false false false false) false) [SDone] RIdle.
Lemma stopped_system_reached : orderly_run (started 3) stopped_system.
Proof.
  eapply orderly_step; [eapply orderly_step; [eapply orderly_step; [eapply orderly_step; [apply orderly_start| |]| |]| |]| |].
  - apply step_call.
  - intros s' <-%Ok_inj. done.
  - eapply step_to; [by apply (step_abort _ 0)|reflexivity].
  - intros s' <-%Ok_inj _ _ [?|[?|[?|?]]]; done.
  - eapply step_to; [by apply (step_bft _ 0)|reflexivity].
  - intros s' <-%Ok_inj. done.
  - eapply step_to; [by apply (step_teardown _ 0)|reflexivity].
  - intros s' <-%Ok_inj. done.
Qed.

Lemma orderly_shutdown_witness :
  ns_State (status (sys_node stopped_system)) = StateStopped /\ (MainExitChan (sys_node stopped_system) = Closed <-> ns_State (status (sys_node stopped_system)) = StateStopped).
Proof.
  destruct (orderly_shutdown 3 stopped_system stopped_system_reached) as (_ & _ & Hexit & Hdone & _). split; [|exact Hexit].
  apply Hdone. repeat constructor.
Defined.

End Lifecycle.
