(* ===== verification/BatchMapper.v ===== *)
(** * The assembler's batch maps

    [src/node/assembler/batch_mapper.go] and batch_cache.go: a map from batch identifiers of one partition (shard and
    primary), kept as lists of the batches of each sequence number, and the cache built on it. *)
From S2P Require Import Prelude Types Events Blocks.
From Stdlib Require Import NArith Lia.

Record ShardPrimary := mkPartition { sp_Shard : ShardID; sp_Primary : PartyID }.
#[export] Instance ShardPrimary_eq_dec : EqDecision ShardPrimary.
Proof. solve_decision. Defined.
#[export] Instance ShardPrimary_countable : Countable ShardPrimary.
Proof. refine (inj_countable' (fun p => (sp_Shard p, sp_Primary p)) (fun p => mkPartition p.1 p.2) _). by intros []. Defined.
Definition ShardPrimaryFromBatch (batchId : BatchID) : ShardPrimary := mkPartition (bid_Shard batchId) (bid_Primary batchId).

(** A batch, of which the assembler reads the identifier and the requests. *)
Record Batch := mkBatch { bt_ID : BatchID; bt_Requests : list bytes }.
#[export] Instance BatchID_eq_dec : EqDecision BatchID.
Proof. solve_decision. Defined.
#[export] Instance Batch_eq_dec : EqDecision Batch.
Proof. solve_decision. Defined.
Definition batchSizeBytes (batch : Batch) : Z := foldl (fun size (req : bytes) => (size + Z.of_nat (length req))%Z) 0%Z (bt_Requests batch).

Definition ErrBatchDoesNotExist : gerror := "batch doesn't exist".
Definition ErrBatchAlreadyExists : gerror := "batch already exists".
Definition ErrBatchTooLarge : gerror := "batch is too large".
Definition ErrOperationCancelled : gerror := "operation cancelled".

Section Mapper.
Context {V : Type}.

(** The batches of a sequence number are a slice of pairs; the identifier is used for its digest. *)
Record BatchMapper := mkMapper { seqToBatches : gmap N (list (BatchID * V)); m_partition : ShardPrimary }.

Definition NewBatchMapper (partition : ShardPrimary) : BatchMapper := mkMapper ∅ partition.

Definition assertShardAndParty (m : BatchMapper) (batchId : BatchID) : outcome unit :=
  panic_if negb (sp_Shard (m_partition m) =? bid_Shard batchId)%N || negb (sp_Primary (m_partition m) =? bid_Primary batchId)%N
    with "batch is not compatible with mapper" ;; Ok tt.

(** The search loops: the value of the first entry with the digest, the list with that value overwritten, the list
    without that entry. *)
Fixpoint find_value (digest : bytes) (l : list (BatchID * V)) : option V :=
  match l with
  | [] => None
  | (b, v) :: l' => if decide (bid_Digest b = digest) then Some v else find_value digest l'
  end.
Fixpoint set_value (digest : bytes) (value : V) (l : list (BatchID * V)) : list (BatchID * V) :=
  match l with
  | [] => []
  | (b, v) :: l' => if decide (bid_Digest b = digest) then (b, value) :: l' else (b, v) :: set_value digest value l'
  end.
Fixpoint remove_value (digest : bytes) (l : list (BatchID * V)) : list (BatchID * V) :=
  match l with
  | [] => []
  | (b, v) :: l' => if decide (bid_Digest b = digest) then l' else (b, v) :: remove_value digest l'
  end.

Definition with_seq (seq : N) (l : list (BatchID * V)) (m : BatchMapper) : BatchMapper :=
  mkMapper (<[seq := l]> (seqToBatches m)) (m_partition m).

Definition insert_ (m : BatchMapper) (batchId : BatchID) (value : V) (overwrite : bool) : outcome (BatchMapper * bool) :=
  _ ← assertShardAndParty m batchId;
  match seqToBatches m !! bid_Seq batchId with
  | None => Ok (with_seq (bid_Seq batchId) [(batchId, value)] m, true)
  | Some l =>
      match find_value (bid_Digest batchId) l with
      | Some _ => if overwrite then Ok (with_seq (bid_Seq batchId) (set_value (bid_Digest batchId) value l) m, true) else Ok (m, false)
      | None => Ok (with_seq (bid_Seq batchId) (l ++ [(batchId, value)]) m, true)
      end
  end.

Definition Mapper_Put (m : BatchMapper) (batchId : BatchID) (value : V) : outcome BatchMapper := r ← insert_ m batchId value true; Ok r.1.
Definition Mapper_Insert (m : BatchMapper) (batchId : BatchID) (value : V) : outcome (BatchMapper * bool) := insert_ m batchId value false.

Definition Mapper_Get (m : BatchMapper) (batchId : BatchID) : outcome V :=
  _ ← assertShardAndParty m batchId;
  of_option ErrBatchDoesNotExist (l ← seqToBatches m !! bid_Seq batchId; find_value (bid_Digest batchId) l).

Definition Mapper_Has (m : BatchMapper) (batchId : BatchID) : outcome bool :=
  _ ← assertShardAndParty m batchId;
  match Mapper_Get m batchId with Ok _ => Ok true | Err _ => Ok false | Panic e => Panic e end.

Definition Mapper_Remove (m : BatchMapper) (batchId : BatchID) : outcome (BatchMapper * V) :=
  _ ← assertShardAndParty m batchId;
  match seqToBatches m !! bid_Seq batchId with
  | None => Err ErrBatchDoesNotExist
  | Some l =>
      v ← of_option ErrBatchDoesNotExist (find_value (bid_Digest batchId) l);
      let withoutBatch := remove_value (bid_Digest batchId) l in
      let seqs := if decide (length withoutBatch = 0) then delete (bid_Seq batchId) (seqToBatches m)
                  else <[bid_Seq batchId := withoutBatch]> (seqToBatches m) in
      Ok (mkMapper seqs (m_partition m), v)
  end.

(** ** The map that a mapper stands for *)
Definition key_of (batchId : BatchID) : N * bytes := (bid_Seq batchId, bid_Digest batchId).
Definition in_partition (p : ShardPrimary) (batchId : BatchID) : Prop := ShardPrimaryFromBatch batchId = p.
#[export] Instance in_partition_dec p b : Decision (in_partition p b).
Proof. unfold in_partition. apply _. Defined.

Record maps (a : gmap (N * bytes) V) (m : BatchMapper) : Prop := {
  maps_get : forall s d, a !! (s, d) = (l ← seqToBatches m !! s; find_value d l);
  maps_nodup : forall s l, seqToBatches m !! s = Some l -> NoDup ((fun x => bid_Digest x.1) <$> l)
}.

Lemma maps_new p : maps ∅ (NewBatchMapper p).
Proof. split; intros; cbn in *; [by rewrite lookup_empty|by rewrite lookup_empty in *]. Qed.

Lemma assert_ok m id : in_partition (m_partition m) id -> assertShardAndParty m id = Ok tt.
Proof. unfold in_partition, assertShardAndParty. intros <-. cbn. by rewrite !N.eqb_refl. Qed.

Lemma assert_panic m id : ~ in_partition (m_partition m) id -> exists e, assertShardAndParty m id = Panic e.
Proof.
  unfold in_partition, assertShardAndParty. intros Hne. destruct (N.eqb_spec (sp_Shard (m_partition m)) (bid_Shard id)) as [E1|]; cbn; [|by eexists].
  destruct (N.eqb_spec (sp_Primary (m_partition m)) (bid_Primary id)) as [E2|]; cbn; [|by eexists].
  exfalso. apply Hne. unfold ShardPrimaryFromBatch. rewrite <-E1, <-E2. by destruct (m_partition m).
Qed.

Lemma find_value_None d l : find_value d l = None <-> d ∉ (fun x => bid_Digest x.1) <$> l.
Proof.
  induction l as [|[b v] l IH]; cbn; [set_solver|]. case_decide; [split; [done|set_solver]|]. rewrite IH. set_solver.
Qed.

Lemma find_value_app d l b v : find_value d (l ++ [(b, v)]) =
  match find_value d l with Some x => Some x | None => if decide (bid_Digest b = d) then Some v else None end.
Proof. induction l as [|[b' v'] l IH]; cbn; [done|]. destruct (decide (bid_Digest b' = d)); [done|exact IH]. Qed.

Lemma find_set_value d d' v l : find_value d (set_value d' v l) =
  if decide (d = d') then (_ ← find_value d l; Some v) else find_value d l.
Proof.
  induction l as [|[b v'] l IH]; cbn [find_value set_value]; [by case_decide|]. destruct (decide (bid_Digest b = d')) as [E|E]; cbn [find_value].
  - destruct (decide (bid_Digest b = d)) as [E'|E'].
    + rewrite decide_True by congruence. done.
    + rewrite decide_False by congruence. done.
  - destruct (decide (bid_Digest b = d)) as [E'|E'].
    + rewrite decide_False by congruence. done.
    + exact IH.
Qed.

Lemma set_value_digests d v l : (fun x => bid_Digest x.1) <$> set_value d v l = (fun x => bid_Digest x.1) <$> l.
Proof. induction l as [|[b v'] l IH]; cbn; [done|]. case_decide; cbn; [done|]. by rewrite IH. Qed.

Lemma find_remove_value d d' l : NoDup ((fun x => bid_Digest x.1) <$> l) ->
  find_value d (remove_value d' l) = if decide (d = d') then None else find_value d l.
Proof.
  induction l as [|[b v] l IH]; cbn; [by case_decide|]. intros [Hni Hnd]%NoDup_cons. destruct (decide (bid_Digest b = d')) as [<-|E]; cbn.
  - destruct (decide (d = bid_Digest b)) as [->|E'].
    + by apply find_value_None.
    + by rewrite decide_False by congruence.
  - destruct (decide (bid_Digest b = d)) as [<-|E'].
    + by rewrite decide_False by congruence.
    + by apply IH.
Qed.

Lemma remove_value_subset d d' l : d ∈ (fun x => bid_Digest x.1) <$> remove_value d' l -> d ∈ (fun x => bid_Digest x.1) <$> l.
Proof. induction l as [|[b v] l IH]; cbn; [done|]. case_decide; cbn; set_solver. Qed.

Lemma remove_value_NoDup d l : NoDup ((fun x => bid_Digest x.1) <$> l) -> NoDup ((fun x => bid_Digest x.1) <$> remove_value d l).
Proof.
  induction l as [|[b v] l IH]; cbn; [done|]. intros [Hni Hnd]%NoDup_cons. case_decide; cbn; [done|].
  apply NoDup_cons. split; [|by apply IH]. intros Hin. apply Hni. by eapply remove_value_subset.
Qed.

Lemma Mapper_Get_spec a m id : maps a m -> in_partition (m_partition m) id -> Mapper_Get m id = of_option ErrBatchDoesNotExist (a !! key_of id).
Proof. intros Hm Hp. unfold Mapper_Get. rewrite (assert_ok _ _ Hp). cbn [mbind outcome_bind]. unfold key_of. by rewrite (maps_get _ _ Hm). Qed.

Lemma Mapper_Has_spec a m id : maps a m -> in_partition (m_partition m) id -> Mapper_Has m id = Ok (bool_decide (is_Some (a !! key_of id))).
Proof.
  intros Hm Hp. unfold Mapper_Has. rewrite (assert_ok _ _ Hp). cbn [mbind outcome_bind]. rewrite (Mapper_Get_spec _ _ _ Hm Hp).
  destruct (a !! key_of id); cbn [of_option]; [by rewrite bool_decide_eq_true_2|by rewrite bool_decide_eq_false_2 by (by intros [])].
Qed.

(** Writing a key: the map is updated, whether the key was there or not. *)
Lemma maps_with_seq a m s l l0 k v :
  maps a m -> s = k.1 -> NoDup ((fun x => bid_Digest x.1) <$> l) -> default [] (seqToBatches m !! s) = l0 ->
  (forall d, find_value d l = if decide (d = k.2) then Some v else find_value d l0) ->
  maps (<[k := v]> a) (with_seq s l m).
Proof.
  intros [Hget Hnd] -> Hl Hl0 Hfind. split.
  - intros s d. cbn. destruct (decide (s = k.1)) as [->|Hs].
    + rewrite lookup_insert_eq. cbn. rewrite Hfind. destruct k as [s' d']. cbn in *. destruct (decide (d = d')) as [->|Hd].
      * by rewrite lookup_insert_eq.
      * rewrite lookup_insert_ne by congruence. rewrite Hget, <-Hl0. destruct (seqToBatches m !! s'); done.
    + rewrite lookup_insert_ne by (destruct k; cbn in *; congruence). rewrite lookup_insert_ne by done. apply Hget.
  - intros s l' Hs. cbn in Hs. apply lookup_insert_Some in Hs as [[_ <-]|[_ Hs]]; [done|]. by eapply Hnd.
Qed.

Lemma insert_spec a m id v overwrite : maps a m -> in_partition (m_partition m) id ->
  exists m', insert_ m id v overwrite = Ok (m', overwrite || bool_decide (a !! key_of id = None)) /\ m_partition m' = m_partition m /\
    maps (if overwrite || bool_decide (a !! key_of id = None) then <[key_of id := v]> a else a) m'.
Proof.
  intros Hm Hp. pose proof Hm as [Hget Hnd]. unfold insert_. rewrite (assert_ok _ _ Hp). cbn [mbind outcome_bind]. unfold key_of in *. rewrite Hget.
  destruct (seqToBatches m !! bid_Seq id) as [l|] eqn:El; cbn [mbind option_bind].
  - destruct (find_value (bid_Digest id) l) as [v0|] eqn:Ef.
    + rewrite bool_decide_eq_false_2 by done. destruct overwrite; cbn [orb]; eexists; (split; [reflexivity|]); (split; [done|]); [|done].
      eapply maps_with_seq; try done; cbn; [by rewrite set_value_digests; eapply Hnd|]. intros d. rewrite El, find_set_value. cbn.
      case_decide as Hd; [by rewrite Hd, Ef|done].
    + rewrite bool_decide_eq_true_2 by done. rewrite orb_true_r. eexists. split; [reflexivity|]. split; [done|].
      eapply maps_with_seq; try done; cbn.
      * rewrite fmap_app. apply NoDup_app. split; [by eapply Hnd|]. split; [|apply NoDup_singleton].
        apply find_value_None in Ef. set_solver.
      * intros d. rewrite El, find_value_app. cbn. destruct (decide (d = bid_Digest id)) as [->|Hd].
        -- by rewrite Ef, decide_True by done.
        -- rewrite decide_False by congruence. by destruct (find_value d l).
  - rewrite bool_decide_eq_true_2 by done. rewrite orb_true_r. eexists. split; [reflexivity|]. split; [done|].
    eapply maps_with_seq; try done; cbn; [apply NoDup_singleton|]. intros d. rewrite El. cbn. case_decide; case_decide; congruence.
Qed.

Lemma Mapper_Put_spec a m id v : maps a m -> in_partition (m_partition m) id ->
  exists m', Mapper_Put m id v = Ok m' /\ m_partition m' = m_partition m /\ maps (<[key_of id := v]> a) m'.
Proof. intros Hm Hp. destruct (insert_spec a m id v true Hm Hp) as (m' & E & Hpart & Hm'). exists m'. unfold Mapper_Put. by rewrite E. Qed.

Lemma Mapper_Remove_spec a m id : maps a m -> in_partition (m_partition m) id ->
  match a !! key_of id with
  | None => Mapper_Remove m id = Err ErrBatchDoesNotExist
  | Some v => exists m', Mapper_Remove m id = Ok (m', v) /\ m_partition m' = m_partition m /\ maps (delete (key_of id) a) m'
  end.
Proof.
  intros Hm Hp. pose proof Hm as [Hget Hnd]. unfold Mapper_Remove. rewrite (assert_ok _ _ Hp). cbn [mbind outcome_bind]. unfold key_of. rewrite Hget.
  destruct (seqToBatches m !! bid_Seq id) as [l|] eqn:El; cbn [mbind option_bind]; [|done].
  destruct (find_value (bid_Digest id) l) as [v|] eqn:Ef; cbn [of_option mbind outcome_bind]; [|done].
  eexists. split; [reflexivity|]. split; [done|]. pose proof (Hnd _ _ El) as Hl.
  assert (forall s d, (l' ← (if decide (length (remove_value (bid_Digest id) l) = 0) then delete (bid_Seq id) (seqToBatches m)
      else <[bid_Seq id := remove_value (bid_Digest id) l]> (seqToBatches m)) !! s; find_value d l') =
    if decide (s = bid_Seq id) then find_value d (remove_value (bid_Digest id) l) else (l' ← seqToBatches m !! s; find_value d l')) as Hlook.
  { intros s d. destruct (decide (s = bid_Seq id)) as [->|Hs]; case_decide as Hlen.
    - rewrite lookup_delete_eq. cbn. by destruct (remove_value (bid_Digest id) l).
    - by rewrite lookup_insert_eq.
    - by rewrite lookup_delete_ne.
    - by rewrite lookup_insert_ne. }
  split; cbn.
  - intros s d. rewrite Hlook. destruct (decide (s = bid_Seq id)) as [->|Hs].
    + rewrite find_remove_value by done. destruct (decide (d = bid_Digest id)) as [->|Hd]; [by rewrite lookup_delete_eq|].
      rewrite lookup_delete_ne by congruence. by rewrite Hget, El.
    + rewrite lookup_delete_ne by congruence. apply Hget.
  - intros s l'. case_decide; intros Hs.
    + apply lookup_delete_Some in Hs as [_ Hs]. by eapply Hnd.
    + apply lookup_insert_Some in Hs as [[_ <-]|[_ Hs]]; [by apply remove_value_NoDup|by eapply Hnd].
Qed.

End Mapper.
Arguments BatchMapper V : clear implicits.

(** ** The batch cache *)
Record BatchCache := mkCache { shardBatchMapper : BatchMapper Batch; sizeBytes : Z }.
Definition NewBatchCache (partition : ShardPrimary) : BatchCache := mkCache (NewBatchMapper partition) 0.

Definition Cache_Pop (bc : BatchCache) (batchId : BatchID) : outcome (BatchCache * Batch) :=
  r ← Mapper_Remove (shardBatchMapper bc) batchId;
  let '(m, batch) := r in
  Ok (mkCache m (sizeBytes bc - batchSizeBytes batch), batch).

Definition Cache_Put (bc : BatchCache) (batch : Batch) : outcome BatchCache :=
  r ← Mapper_Insert (shardBatchMapper bc) (bt_ID batch) batch;
  let '(m, inserted) := r in
  fail_if negb inserted with ErrBatchAlreadyExists ;;
  Ok (mkCache m (sizeBytes bc + batchSizeBytes batch)).

Definition Cache_Has (bc : BatchCache) (batchId : BatchID) : outcome bool := Mapper_Has (shardBatchMapper bc) batchId.
Definition Cache_Get (bc : BatchCache) (batchId : BatchID) : outcome Batch := Mapper_Get (shardBatchMapper bc) batchId.
Definition SizeBytes (bc : BatchCache) : Z := sizeBytes bc.

(** The total size of a set of batches. *)
Definition total (a : gmap (N * bytes) Batch) : Z := map_fold (fun _ b acc => batchSizeBytes b + acc)%Z 0%Z a.

Lemma total_empty : total ∅ = 0%Z.
Proof. apply map_fold_empty. Qed.
Lemma total_insert a k b : a !! k = None -> total (<[k := b]> a) = (batchSizeBytes b + total a)%Z.
Proof. intros Hk. unfold total. rewrite map_fold_insert_L; [done|intros; lia|done]. Qed.
Lemma total_delete a k b : a !! k = Some b -> total (delete k a) = (total a - batchSizeBytes b)%Z.
Proof.
  intros Hk. rewrite <-(insert_delete_id a k b Hk) at 2. rewrite total_insert by apply lookup_delete_eq. lia.
Qed.
Lemma batchSize_nonneg b : (0 <= batchSizeBytes b)%Z.
Proof.
  unfold batchSizeBytes. assert (forall l z, (0 <= z)%Z -> (0 <= foldl (fun size (req : bytes) => (size + Z.of_nat (length req))%Z) z l)%Z) as Hf; [|by apply Hf].
  induction l as [|r l IH]; intros z Hz; cbn; [done|]. apply IH. lia.
Qed.
Lemma total_nonneg a : (0 <= total a)%Z.
Proof.
  unfold total. apply (map_fold_weak_ind (fun r _ => (0 <= r)%Z)); [done|]. intros k b m r _ Hr. pose proof (batchSize_nonneg b). lia.
Qed.

(** The cache stands for a map of batches, each under its own key, whose size it counts. *)
Record caches (a : gmap (N * bytes) Batch) (p : ShardPrimary) (bc : BatchCache) : Prop := {
  ca_maps : maps a (shardBatchMapper bc);
  ca_partition : m_partition (shardBatchMapper bc) = p;
  ca_keys : forall k b, a !! k = Some b -> key_of (bt_ID b) = k /\ in_partition p (bt_ID b);
  ca_size : sizeBytes bc = total a
}.

Lemma caches_new p : caches ∅ p (NewBatchCache p).
Proof. split; cbn; [apply maps_new|done|by intros k b Hk; rewrite lookup_empty in Hk|by rewrite total_empty]. Qed.

Lemma Cache_Put_spec a p bc b : caches a p bc -> in_partition p (bt_ID b) ->
  match a !! key_of (bt_ID b) with
  | Some _ => Cache_Put bc b = Err ErrBatchAlreadyExists
  | None => exists bc', Cache_Put bc b = Ok bc' /\ caches (<[key_of (bt_ID b) := b]> a) p bc'
  end.
Proof.
  intros [Hm <- Hk Hs] Hp. unfold Cache_Put, Mapper_Insert. destruct (insert_spec a _ (bt_ID b) b false Hm Hp) as (m' & E & Hpart & Hm'). rewrite E. cbn [mbind outcome_bind orb] in *.
  destruct (a !! key_of (bt_ID b)) as [b0|] eqn:Ea.
  - rewrite bool_decide_eq_false_2 by done. done.
  - rewrite bool_decide_eq_true_2 in Hm' |- * by done. cbn [negb guard_err]. eexists. split; [reflexivity|]. split; cbn; [done|done| |].
    + intros k b' [[<- <-]|[_ Hb']]%lookup_insert_Some; [done|by apply Hk].
    + rewrite total_insert by done. lia.
Qed.

Lemma Cache_Pop_spec a p bc id : caches a p bc -> in_partition p id ->
  match a !! key_of id with
  | None => Cache_Pop bc id = Err ErrBatchDoesNotExist
  | Some b => exists bc', Cache_Pop bc id = Ok (bc', b) /\ caches (delete (key_of id) a) p bc'
  end.
Proof.
  intros [Hm <- Hk Hs] Hp. unfold Cache_Pop. pose proof (Mapper_Remove_spec a _ id Hm Hp) as Hr. destruct (a !! key_of id) as [b|] eqn:Ea; [|by rewrite Hr].
  destruct Hr as (m' & E & Hpart & Hm'). rewrite E. cbn [mbind outcome_bind]. eexists. split; [reflexivity|]. split; cbn; [done|done| |].
  - intros k b' [_ Hb']%lookup_delete_Some. by apply Hk.
  - rewrite (total_delete _ _ _ Ea). lia.
Qed.

Lemma Cache_Has_spec a p bc id : caches a p bc -> in_partition p id -> Cache_Has bc id = Ok (bool_decide (is_Some (a !! key_of id))).
Proof. intros [Hm <- _ _] Hp. by apply Mapper_Has_spec. Qed.
