(* ===== verification/BatchHeap.v ===== *)
(** * The assembler's batch heap

    [src/node/assembler/batch_heap.go] with the algorithms of Go's container/heap: a binary heap of batches ordered by
    sequence number, with a map from batches to their positions so that any batch can be removed. *)
From S2P Require Import Prelude Types Events Blocks BatchMapper.
From Stdlib Require Import NArith Lia.

Section Heap.
Context {T : Type}.

Record BatchHeapItem := mkItem { hi_Batch : Batch; hi_Value : T }.
(** The comparator the prefetch index gives: the lower sequence number first. *)
Definition less (item1 item2 : BatchHeapItem) : bool := (bid_Seq (bt_ID (hi_Batch item1)) <? bid_Seq (bt_ID (hi_Batch item2)))%N.

Record batchHeap := mkHeap { h_data : list BatchHeapItem; batchToIndex : BatchMapper nat }.
Definition newBatchHeap (partition : ShardPrimary) : batchHeap := mkHeap [] (NewBatchMapper partition).

(** ** heap.Interface *)
Definition Len (h : batchHeap) : nat := length (h_data h).
Definition Less (h : batchHeap) (i j : nat) : outcome bool :=
  item1 ← index (h_data h) i; item2 ← index (h_data h) j; Ok (less item1 item2).
Definition Swap (h : batchHeap) (i j : nat) : outcome batchHeap :=
  x ← index (h_data h) i;
  y ← index (h_data h) j;
  let data := <[i := y]> (<[j := x]> (h_data h)) in
  di ← index data i;
  m ← Mapper_Put (batchToIndex h) (bt_ID (hi_Batch di)) i;
  dj ← index data j;
  m ← Mapper_Put m (bt_ID (hi_Batch dj)) j;
  Ok (mkHeap data m).
Definition heap_Push (h : batchHeap) (item : BatchHeapItem) : outcome batchHeap :=
  m ← Mapper_Put (batchToIndex h) (bt_ID (hi_Batch item)) (length (h_data h));
  Ok (mkHeap (h_data h ++ [item]) m).
(** The error of the removal from the map is ignored. *)
Definition heap_Pop (h : batchHeap) : outcome (batchHeap * BatchHeapItem) :=
  lastItem ← index (h_data h) (length (h_data h) - 1);
  let data := take (length (h_data h) - 1) (h_data h) in
  match Mapper_Remove (batchToIndex h) (bt_ID (hi_Batch lastItem)) with
  | Ok (m, _) => Ok (mkHeap data m, lastItem)
  | Err _ => Ok (mkHeap data (batchToIndex h), lastItem)
  | Panic e => Panic e
  end.

(** ** container/heap: up and down run at most once per level, so the position and the size bound the number of rounds. *)
Definition parent (j : nat) : nat := (j - 1) / 2.

Fixpoint up (fuel : nat) (h : batchHeap) (j : nat) : outcome batchHeap :=
  match fuel with
  | 0 => Ok h
  | S fuel' =>
      let i := parent j in
      if decide (i = j) then Ok h else
      b ← Less h j i;
      if negb b then Ok h else
      h ← Swap h i j;
      up fuel' h i
  end.

(** The child of [i] to compare with: the smaller one below [n]. *)
Definition child (h : batchHeap) (i n : nat) : outcome nat :=
  let j1 := 2 * i + 1 in
  let j2 := j1 + 1 in
  if decide (j2 < n) then b ← Less h j2 j1; Ok (if b : bool then j2 else j1) else Ok j1.

(** Also returns the final position. *)
Fixpoint down (fuel : nat) (h : batchHeap) (i n : nat) : outcome (batchHeap * nat) :=
  match fuel with
  | 0 => Ok (h, i)
  | S fuel' =>
      if decide (n <= 2 * i + 1) then Ok (h, i) else
      j ← child h i n;
      b ← Less h j i;
      if negb b then Ok (h, i) else
      h ← Swap h i j;
      down fuel' h j n
  end.

Definition go_Push (h : batchHeap) (item : BatchHeapItem) : outcome batchHeap :=
  h ← heap_Push h item; up (Len h) h (Len h - 1).
Definition go_Pop (h : batchHeap) : outcome (batchHeap * BatchHeapItem) :=
  let n := Len h - 1 in
  h ← Swap h 0 n;
  r ← down n h 0 n;
  heap_Pop r.1.
Definition go_Remove (h : batchHeap) (i : nat) : outcome (batchHeap * BatchHeapItem) :=
  let n := Len h - 1 in
  h ← (if decide (n = i) then Ok h else
       h ← Swap h i n;
       r ← down n h i n;
       if decide (i < r.2) then Ok r.1 else up n r.1 i);
  heap_Pop h.

(** ** The heap of batches *)
Definition Heap_Push (h : batchHeap) (item : BatchHeapItem) : outcome batchHeap :=
  b ← Mapper_Has (batchToIndex h) (bt_ID (hi_Batch item));
  fail_if b with ErrBatchAlreadyExists ;;
  go_Push h item.
Definition Heap_Peek (h : batchHeap) : option BatchHeapItem := h_data h !! 0.
Definition Heap_Pop (h : batchHeap) : outcome (batchHeap * option BatchHeapItem) :=
  if decide (Len h = 0) then Ok (h, None) else r ← go_Pop h; Ok (r.1, Some r.2).
Definition Heap_Has (h : batchHeap) (batchId : BatchID) : outcome bool := Mapper_Has (batchToIndex h) batchId.
(** Also the heap: an entry that points outside of it is dropped from the map. *)
Definition Heap_Remove (h : batchHeap) (batchId : BatchID) : outcome (batchHeap * outcome BatchHeapItem) :=
  match Mapper_Get (batchToIndex h) batchId with
  | Panic e => Panic e
  | Err _ => Ok (h, Err ErrBatchDoesNotExist)
  | Ok idx =>
      if decide (length (h_data h) <= idx) then
        match Mapper_Remove (batchToIndex h) batchId with
        | Ok (m, _) => Ok (mkHeap (h_data h) m, Err ErrBatchDoesNotExist)
        | Err _ => Ok (h, Err ErrBatchDoesNotExist)
        | Panic e => Panic e
        end
      else r ← go_Remove h idx; Ok (r.1, Ok r.2)
  end.

(** ** Positions *)
Definition item_key (x : BatchHeapItem) : N * bytes := key_of (bt_ID (hi_Batch x)).
Definition swap_list (l : list BatchHeapItem) (i j : nat) : list BatchHeapItem :=
  match l !! i, l !! j with Some x, Some y => <[i := y]> (<[j := x]> l) | _, _ => l end.

(** The map tells the position of each item, so no two items have the same key. *)
Record coherent (p : ShardPrimary) (h : batchHeap) : Prop := {
  co_partition : m_partition (batchToIndex h) = p;
  co_items : Forall (fun x => in_partition p (bt_ID (hi_Batch x))) (h_data h);
  co_index : exists a, maps a (batchToIndex h) /\ forall k i, a !! k = Some i <-> exists x, h_data h !! i = Some x /\ item_key x = k
}.

Lemma coherent_inj p h i j x y : coherent p h -> h_data h !! i = Some x -> h_data h !! j = Some y -> item_key x = item_key y -> i = j.
Proof.
  intros [_ _ (a & _ & Ha)] Hi Hj E. assert (a !! item_key x = Some i) as H1 by (apply Ha; eauto). assert (a !! item_key x = Some j) as H2 by (apply Ha; eauto). congruence.
Qed.

Lemma lookup_swap l i j k x y : l !! i = Some x -> l !! j = Some y ->
  swap_list l i j !! k = if decide (k = i) then Some y else if decide (k = j) then Some x else l !! k.
Proof.
  intros Hi Hj. unfold swap_list. rewrite Hi, Hj. pose proof (lookup_lt_Some _ _ _ Hi). pose proof (lookup_lt_Some _ _ _ Hj).
  destruct (decide (k = i)) as [->|Hki]; [by rewrite list_lookup_insert_eq by (by rewrite length_insert)|].
  rewrite list_lookup_insert_ne by done. destruct (decide (k = j)) as [->|Hkj]; [by rewrite list_lookup_insert_eq|by rewrite list_lookup_insert_ne].
Qed.

Lemma length_swap l i j : length (swap_list l i j) = length l.
Proof. unfold swap_list. destruct (l !! i), (l !! j); by rewrite ?length_insert. Qed.

Lemma elem_of_swap l i j x : x ∈ swap_list l i j <-> x ∈ l.
Proof.
  destruct (l !! i) as [a|] eqn:Hi, (l !! j) as [b|] eqn:Hj; unfold swap_list; rewrite ?Hi, ?Hj; try done.
  assert (swap_list l i j = <[i:=b]> (<[j:=a]> l)) as <- by (unfold swap_list; by rewrite Hi, Hj).
  rewrite !list_elem_of_lookup. split; intros [k Hk].
  - rewrite (lookup_swap _ _ _ _ _ _ Hi Hj) in Hk. case_decide; [exists j; congruence|]. case_decide; [exists i; congruence|by exists k].
  - destruct (decide (k = i)) as [->|Hki]; [exists j|destruct (decide (k = j)) as [->|Hkj]; [exists i|exists k]];
      rewrite (lookup_swap _ _ _ _ _ _ Hi Hj); repeat case_decide; congruence.
Qed.

Lemma Swap_spec p h i j : coherent p h -> i < Len h -> j < Len h ->
  exists h', Swap h i j = Ok h' /\ h_data h' = swap_list (h_data h) i j /\ coherent p h'.
Proof.
  intros Hc Hi Hj. pose proof Hc as [Hp Hit (a & Hm & Ha)]. unfold Len in *. destruct (lookup_lt_is_Some_2 _ _ Hi) as [x Hx], (lookup_lt_is_Some_2 _ _ Hj) as [y Hy].
  assert (<[i:=y]> (<[j:=x]> (h_data h)) = swap_list (h_data h) i j) as Esw by (unfold swap_list; by rewrite Hx, Hy).
  unfold Swap, index. rewrite Hx, Hy. cbn [mbind outcome_bind]. rewrite Esw.
  assert (in_partition p (bt_ID (hi_Batch x))) as Hpx by exact (Forall_lookup_1 _ _ _ _ Hit Hx).
  assert (in_partition p (bt_ID (hi_Batch y))) as Hpy by exact (Forall_lookup_1 _ _ _ _ Hit Hy).
  assert (swap_list (h_data h) i j !! i = Some y) as Ei by (rewrite (lookup_swap _ _ _ _ _ _ Hx Hy); by case_decide).
  assert (swap_list (h_data h) i j !! j = Some x) as Ej by (rewrite (lookup_swap _ _ _ _ _ _ Hx Hy); repeat case_decide; congruence).
  rewrite Ei. cbn [mbind outcome_bind].
  destruct (Mapper_Put_spec a _ (bt_ID (hi_Batch y)) i Hm) as (m1 & -> & Hp1 & Hm1); [by rewrite Hp|]. cbn [mbind outcome_bind].
  rewrite Ej.
  cbn [mbind outcome_bind]. destruct (Mapper_Put_spec _ _ (bt_ID (hi_Batch x)) j Hm1) as (m2 & -> & Hp2 & Hm2); [by rewrite Hp1, Hp|]. cbn [mbind outcome_bind].
  eexists. split; [reflexivity|]. split; [done|]. split; cbn; [congruence| |].
  - apply Forall_forall. intros z Hz. rewrite elem_of_swap in Hz. rewrite Forall_forall in Hit. by apply Hit.
  - eexists. split; [exact Hm2|]. intros k q. fold (item_key x) (item_key y). rewrite (lookup_swap _ _ _ q _ _ Hx Hy).
    destruct (decide (item_key x = k)) as [<-|Hkx]; [rewrite lookup_insert_eq|rewrite lookup_insert_ne by done].
    + split; [intros E; exists x; split; [|done]; repeat case_decide; congruence|].
      intros (z & Hz & Ez). f_equal. repeat (case_decide; try subst q).
      * assert (z = y) as -> by congruence. symmetry. apply (coherent_inj p h i j x y); done.
      * done.
      * exfalso. assert (q = i) as -> by (by apply (coherent_inj p h q i z x)). done.
    + destruct (decide (item_key y = k)) as [<-|Hky]; [rewrite lookup_insert_eq|rewrite lookup_insert_ne by done].
      * split; [intros E; exists y; split; [|done]; repeat case_decide; congruence|].
        intros (z & Hz & Ez). f_equal. repeat (case_decide; try subst q); [done|congruence|].
        exfalso. assert (q = j) as -> by (by apply (coherent_inj p h q j z y)). done.
      * rewrite Ha. repeat (case_decide; try subst q); split; intros (z & Hz & Ez); exists z; split; try done; exfalso; congruence.
Qed.

(** ** Order *)
Definition K (l : list BatchHeapItem) (k : nat) : N := default 0%N ((fun x => bid_Seq (bt_ID (hi_Batch x))) <$> l !! k).
(** The first [n] positions are in heap order. *)
Definition ordered (n : nat) (l : list BatchHeapItem) : Prop := forall k, 0 < k < n -> (K l (parent k) <= K l k)%N.

Lemma parent_spec k : 0 < k -> k = 2 * parent k + 1 \/ k = 2 * parent k + 2.
Proof. intros Hk. unfold parent. pose proof (Nat.div_mod_eq (k - 1) 2). pose proof (Nat.mod_upper_bound (k - 1) 2). lia. Qed.
Lemma parent_0 : parent 0 = 0.
Proof. done. Qed.

Lemma Less_spec h i j : i < Len h -> j < Len h -> Less h i j = Ok (K (h_data h) i <? K (h_data h) j)%N.
Proof.
  unfold Len. intros [x Hx]%lookup_lt_is_Some_2 [y Hy]%lookup_lt_is_Some_2. unfold Less, index, K. rewrite Hx, Hy. done.
Qed.

Lemma K_swap l i j k : i < length l -> j < length l ->
  K (swap_list l i j) k = if decide (k = i) then K l j else if decide (k = j) then K l i else K l k.
Proof.
  intros [x Hx]%lookup_lt_is_Some_2 [y Hy]%lookup_lt_is_Some_2. unfold K. rewrite (lookup_swap _ _ _ _ _ _ Hx Hy).
  repeat case_decide; rewrite ?Hx, ?Hy; done.
Qed.

(** The items are permuted below [n] and the map follows. *)
Record moved (p : ShardPrimary) (n : nat) (h h' : batchHeap) : Prop := {
  mv_coherent : coherent p h';
  mv_len : Len h' = Len h;
  mv_beyond : forall k, n <= k -> h_data h' !! k = h_data h !! k;
  mv_items : forall x, x ∈ h_data h' <-> x ∈ h_data h
}.

Lemma moved_refl p n h : coherent p h -> moved p n h h.
Proof. by split. Qed.
Lemma moved_trans p n h1 h2 h3 : moved p n h1 h2 -> moved p n h2 h3 -> moved p n h1 h3.
Proof. intros [? ? Hb Hi] [? ? Hb' Hi']. split; [done|congruence|intros k Hk; by rewrite Hb', Hb|intros x; by rewrite Hi', Hi]. Qed.

Lemma Swap_moved p n h i j : coherent p h -> n <= Len h -> i < n -> j < n ->
  exists h', Swap h i j = Ok h' /\ moved p n h h' /\
    forall k, K (h_data h') k = if decide (k = i) then K (h_data h) j else if decide (k = j) then K (h_data h) i else K (h_data h) k.
Proof.
  intros Hc Hn Hi Hj. destruct (Swap_spec p h i j Hc) as (h' & E & Hd & Hc'); [lia..|]. unfold Len in Hn. exists h'. split; [done|]. split; [split|].
  - done.
  - unfold Len. by rewrite Hd, length_swap.
  - intros k Hk. rewrite Hd. destruct (lookup_lt_is_Some_2 (h_data h) i) as [x Hx]; [lia|]. destruct (lookup_lt_is_Some_2 (h_data h) j) as [y Hy]; [lia|].
    rewrite (lookup_swap _ _ _ _ _ _ Hx Hy). repeat case_decide; [lia|lia|done].
  - intros x. by rewrite Hd, elem_of_swap.
  - intros k. rewrite Hd. apply K_swap; lia.
Qed.

(** Decide the equalities of positions in the keys after a swap. *)
Ltac positions := repeat match goal with |- context [decide (?a = ?b)] => destruct (decide (a = b)); [try lia|]; try lia end.

Lemma up_spec p n fuel h j :
  coherent p h -> n <= Len h -> j < n -> j <= fuel ->
  (forall k, 0 < k < n -> k <> j -> (K (h_data h) (parent k) <= K (h_data h) k)%N) ->
  (forall k, 0 < k < n -> parent k = j -> 0 < j -> (K (h_data h) (parent j) <= K (h_data h) k)%N) ->
  exists h', up fuel h j = Ok h' /\ moved p n h h' /\ ordered n (h_data h').
Proof.
  intros Hc Hn. revert h j Hc Hn. induction fuel as [|fuel IH]; intros h j Hc Hn Hj Hf H1 H2; cbn [up].
  { exists h. split; [done|]. split; [by apply moved_refl|]. intros k Hk. apply H1; lia. }
  destruct (decide (parent j = j)) as [Ej|Ej].
  { exists h. split; [done|]. split; [by apply moved_refl|]. intros k Hk. apply H1; [done|]. intros ->. pose proof (parent_spec j). lia. }
  destruct (decide (j = 0)) as [->|Hj0]; [by rewrite parent_0 in Ej|]. pose proof (parent_spec j ltac:(lia)) as Hpj.
  rewrite Less_spec by lia. cbn [mbind outcome_bind]. destruct (N.ltb_spec (K (h_data h) j) (K (h_data h) (parent j))) as [Hlt|Hge]; cbn [negb].
  - destruct (Swap_moved p n h (parent j) j Hc Hn) as (h1 & -> & Hmv & HK); [lia..|]. cbn [mbind outcome_bind].
    destruct (IH h1 (parent j)) as (h' & E & Hmv' & Ho).
    + apply Hmv.
    + rewrite (mv_len _ _ _ _ Hmv). done.
    + lia.
    + lia.
    + intros k Hk Hki. pose proof (parent_spec k ltac:(lia)) as Hpk. rewrite !HK.
      destruct (decide (k = j)) as [->|Hkj].
      * positions.
      * pose proof (H1 k Hk Hkj). destruct (decide (k = parent j)); [done|]. destruct (decide (parent k = parent j)) as [Ep|Ep]; [rewrite Ep in *; lia|].
        destruct (decide (parent k = j)) as [Ep'|Ep']; [|done]. apply H2; [done|done|lia].
    + intros k Hk Epk Hpos. pose proof (parent_spec (parent j) Hpos) as Hpp. assert (parent (parent j) <> parent j /\ parent (parent j) <> j) as [? ?] by lia.
      pose proof (H1 (parent j) ltac:(lia) ltac:(lia)). rewrite !HK. destruct (decide (parent (parent j) = parent j)); [done|]. destruct (decide (parent (parent j) = j)); [done|].
      pose proof (parent_spec k ltac:(lia)). destruct (decide (k = parent j)); [lia|]. destruct (decide (k = j)) as [->|Hkj]; [done|].
      pose proof (H1 k Hk Hkj) as Hk1. rewrite Epk in Hk1. lia.
    + exists h'. split; [exact E|]. split; [by eapply moved_trans|done].
  - exists h. split; [done|]. split; [by apply moved_refl|]. intros k Hk. destruct (decide (k = j)) as [->|Hkj]; [done|by apply H1].
Qed.

Lemma child_spec h i n : n <= Len h -> 2 * i + 1 < n ->
  exists j, child h i n = Ok j /\ j < n /\ 0 < j /\ parent j = i /\ forall k, 0 < k < n -> parent k = i -> (K (h_data h) j <= K (h_data h) k)%N.
Proof.
  intros Hn Hi. unfold child. assert (forall k, 0 < k < n -> parent k = i -> k = 2 * i + 1 \/ k = 2 * i + 2) as Hkids.
  { intros k Hk Ek. pose proof (parent_spec k). lia. }
  assert (parent (2 * i + 1) = i) as Hp1 by (pose proof (parent_spec (2 * i + 1)); lia).
  destruct (decide (2 * i + 1 + 1 < n)) as [Hlt|Hge].
  - rewrite Less_spec by lia. cbn [mbind outcome_bind]. assert (parent (2 * i + 1 + 1) = i) as Hp2 by (pose proof (parent_spec (2 * i + 1 + 1)); lia).
    eexists. split; [reflexivity|]. destruct (N.ltb_spec (K (h_data h) (2 * i + 1 + 1)) (K (h_data h) (2 * i + 1))); (split; [lia|split; [lia|split; [done|]]]);
      intros k Hk Ek; destruct (Hkids k Hk Ek) as [->| ->]; try lia; replace (2 * i + 2) with (2 * i + 1 + 1) by lia; lia.
  - eexists. split; [reflexivity|]. split; [lia|split; [lia|split; [done|]]]. intros k Hk Ek. destruct (Hkids k Hk Ek) as [->| ->]; lia.
Qed.

(** From a position whose children may be smaller. *)
Lemma down_spec p n fuel h i :
  coherent p h -> n <= Len h -> i < n -> n <= i + fuel ->
  (forall k, 0 < k < n -> parent k <> i -> (K (h_data h) (parent k) <= K (h_data h) k)%N) ->
  (forall k, 0 < k < n -> parent k = i -> 0 < i -> (K (h_data h) (parent i) <= K (h_data h) k)%N) ->
  exists h' i', down fuel h i n = Ok (h', i') /\ i <= i' /\ moved p n h h' /\ ordered n (h_data h').
Proof.
  intros Hc Hn. revert h i Hc Hn. induction fuel as [|fuel IH]; intros h i Hc Hn Hi Hf H1 H2; cbn [down]; [lia|].
  destruct (decide (n <= 2 * i + 1)) as [Hleaf|Hleaf].
  { exists h, i. split; [done|]. split; [done|]. split; [by apply moved_refl|]. intros k Hk. apply H1; [done|]. pose proof (parent_spec k). lia. }
  destruct (child_spec h i n Hn ltac:(lia)) as (j & -> & Hj & Hj0 & Hpj & Hmin). cbn [mbind outcome_bind]. pose proof (parent_spec j Hj0) as Hjs.
  rewrite Less_spec by lia. cbn [mbind outcome_bind]. destruct (N.ltb_spec (K (h_data h) j) (K (h_data h) i)) as [Hlt|Hge]; cbn [negb].
  - destruct (Swap_moved p n h i j Hc Hn) as (h1 & -> & Hmv & HK); [lia..|]. cbn [mbind outcome_bind].
    destruct (IH h1 j) as (h' & i' & E & Hi' & Hmv' & Ho).
    + apply Hmv.
    + rewrite (mv_len _ _ _ _ Hmv). done.
    + done.
    + lia.
    + intros k Hk Hpk. pose proof (parent_spec k ltac:(lia)) as Hks. rewrite !HK. destruct (decide (parent k = i)) as [Ek|Ek].
      * pose proof (Hmin k Hk Ek). destruct (decide (k = i)); [lia|]. destruct (decide (k = j)); lia.
      * destruct (decide (parent k = j)); [done|]. pose proof (H1 k Hk Ek) as Hk1. destruct (decide (k = i)) as [->|Hki].
        -- apply H2; [lia|done|lia].
        -- destruct (decide (k = j)); [congruence|done].
    + intros k Hk Ek _. pose proof (parent_spec k ltac:(lia)) as Hks. rewrite Hpj, !HK. destruct (decide (i = i)); [|done].
      destruct (decide (k = i)); [lia|]. destruct (decide (k = j)); [lia|]. rewrite <-Ek. apply H1; [done|lia].
    + exists h', i'. split; [exact E|]. split; [lia|]. split; [by eapply moved_trans|done].
  - exists h, i. split; [done|]. split; [done|]. split; [by apply moved_refl|]. intros k Hk. destruct (decide (parent k = i)) as [Ek|Ek]; [|by apply H1].
    pose proof (Hmin k Hk Ek). rewrite Ek. lia.
Qed.

(** When the position itself may be smaller than its parent as well: either nothing moved and the children are in
    order, or everything is. *)
Lemma down_first p n fuel h i :
  coherent p h -> n <= Len h -> i < n -> n <= i + fuel ->
  (forall k, 0 < k < n -> k <> i -> parent k <> i -> (K (h_data h) (parent k) <= K (h_data h) k)%N) ->
  (forall k, 0 < k < n -> parent k = i -> 0 < i -> (K (h_data h) (parent i) <= K (h_data h) k)%N) ->
  exists h' i', down fuel h i n = Ok (h', i') /\ moved p n h h' /\
    (i' = i /\ h' = h /\ (forall k, 0 < k < n -> k <> i -> (K (h_data h) (parent k) <= K (h_data h) k)%N) \/ i < i' /\ ordered n (h_data h')).
Proof.
  intros Hc Hn Hi Hf H1 H2. destruct fuel as [|fuel]; [lia|]. cbn [down]. destruct (decide (n <= 2 * i + 1)) as [Hleaf|Hleaf].
  { exists h, i. split; [done|]. split; [by apply moved_refl|]. left. split; [done|split; [done|]]. intros k Hk Hki. apply H1; [done|done|]. pose proof (parent_spec k). lia. }
  destruct (child_spec h i n Hn ltac:(lia)) as (j & -> & Hj & Hj0 & Hpj & Hmin). cbn [mbind outcome_bind]. pose proof (parent_spec j Hj0) as Hjs.
  rewrite Less_spec by lia. cbn [mbind outcome_bind]. destruct (N.ltb_spec (K (h_data h) j) (K (h_data h) i)) as [Hlt|Hge]; cbn [negb].
  - destruct (Swap_moved p n h i j Hc Hn) as (h1 & -> & Hmv & HK); [lia..|]. cbn [mbind outcome_bind].
    destruct (down_spec p n fuel h1 j) as (h' & i' & E & Hi' & Hmv' & Ho).
    + apply Hmv.
    + rewrite (mv_len _ _ _ _ Hmv). done.
    + done.
    + lia.
    + intros k Hk Hpk. pose proof (parent_spec k ltac:(lia)) as Hks. rewrite !HK. destruct (decide (parent k = i)) as [Ek|Ek].
      * pose proof (Hmin k Hk Ek). destruct (decide (k = i)); [lia|]. destruct (decide (k = j)); lia.
      * destruct (decide (parent k = j)); [done|]. destruct (decide (k = i)) as [->|Hki].
        -- apply H2; [lia|done|lia].
        -- destruct (decide (k = j)); [congruence|]. by apply H1.
    + intros k Hk Ek _. pose proof (parent_spec k ltac:(lia)) as Hks. rewrite Hpj, !HK. destruct (decide (i = i)); [|done].
      destruct (decide (k = i)); [lia|]. destruct (decide (k = j)); [lia|]. rewrite <-Ek. apply H1; [done|done|lia].
    + exists h', i'. split; [exact E|]. split; [by eapply moved_trans|]. right. split; [lia|done].
  - exists h, i. split; [done|]. split; [by apply moved_refl|]. left. split; [done|split; [done|]]. intros k Hk Hki.
    destruct (decide (parent k = i)) as [Ek|Ek]; [|by apply H1]. pose proof (Hmin k Hk Ek). rewrite Ek. lia.
Qed.

Lemma child_lt h i n j : child h i n = Ok j -> 2 * i + 1 < n -> j < n.
Proof. unfold child. case_decide; [intros E Hn; apply bind_Ok_inv in E as (b & _ & E); apply Ok_inj in E as <-; destruct b; lia|]. intros E Hn. apply Ok_inj in E as <-. lia. Qed.

Lemma down_len p fuel h i n h' i' : coherent p h -> n <= Len h -> down fuel h i n = Ok (h', i') -> Len h' = Len h.
Proof.
  intros Hc Hn. revert h i Hc Hn. induction fuel as [|fuel IH]; intros h i Hc Hn E; cbn [down] in E; [apply Ok_inj in E; congruence|].
  destruct (decide (n <= 2 * i + 1)); [apply Ok_inj in E; congruence|]. apply bind_Ok_inv in E as (j & Hj & E). apply bind_Ok_inv in E as (b & _ & E).
  destruct b; cbn [negb] in E; [|apply Ok_inj in E; congruence]. apply bind_Ok_inv in E as (h1 & Hs & E). apply child_lt in Hj; [|lia].
  destruct (Swap_moved p n h i j Hc Hn) as (h1' & E' & Hmv & _); [lia..|]. rewrite Hs in E'. apply Ok_inj in E' as <-.
  rewrite (IH h1 j (mv_coherent _ _ _ _ Hmv) ltac:(rewrite (mv_len _ _ _ _ Hmv); done) E). apply Hmv.
Qed.

(** ** What the heap stands for *)
Record heap_inv (p : ShardPrimary) (a : gmap (N * bytes) BatchHeapItem) (h : batchHeap) : Prop := {
  hv_coherent : coherent p h;
  hv_ordered : ordered (Len h) (h_data h);
  hv_contents : forall k x, a !! k = Some x <-> item_key x = k /\ x ∈ h_data h
}.

Lemma heap_inv_new p : heap_inv p ∅ (newBatchHeap p).
Proof.
  split.
  - split; [done|constructor|]. exists ∅. split; [apply maps_new|]. intros k i. rewrite lookup_empty. split; [done|]. intros (x & Hx & _). by apply lookup_lt_Some, Nat.nlt_0_r in Hx.
  - intros k Hk. cbn in Hk. lia.
  - intros k x. rewrite lookup_empty. split; [done|]. intros [_ Hx]. by apply elem_of_nil in Hx.
Qed.

(** The position of a key. *)
Lemma position p a h k x : heap_inv p a h -> a !! k = Some x -> exists i, h_data h !! i = Some x /\ i < Len h.
Proof. intros Hi [_ Hx]%(hv_contents _ _ _ Hi). apply list_elem_of_lookup in Hx as [i Hx]. exists i. split; [done|]. by eapply lookup_lt_Some. Qed.

Lemma ordered_min l n : ordered n l -> forall k, k < n -> (K l 0 <= K l k)%N.
Proof.
  intros Ho k. induction (lt_wf k) as [k _ IH]. intros Hk. destruct (decide (k = 0)) as [->|Hk0]; [done|].
  pose proof (parent_spec k ltac:(lia)). etransitivity; [apply (IH (parent k)); lia|]. apply Ho. lia.
Qed.

Lemma in_partition_key p x y : in_partition p (bt_ID (hi_Batch x)) -> in_partition p (bt_ID (hi_Batch y)) ->
  item_key x = item_key y -> bt_ID (hi_Batch x) = bt_ID (hi_Batch y).
Proof.
  unfold in_partition, item_key, key_of, ShardPrimaryFromBatch. destruct (bt_ID (hi_Batch x)), (bt_ID (hi_Batch y)). cbn. intros <- E1 E2. congruence.
Qed.

Lemma heap_Push_spec p a h x : heap_inv p a h -> in_partition p (bt_ID (hi_Batch x)) -> a !! item_key x = None ->
  exists h', heap_Push h x = Ok h' /\ h_data h' = h_data h ++ [x] /\ coherent p h'.
Proof.
  intros [[Hp Hit (ia & Hm & Ha)] _ Hcont] Hx Hn. unfold heap_Push.
  destruct (Mapper_Put_spec ia _ (bt_ID (hi_Batch x)) (length (h_data h)) Hm) as (m & -> & Hpm & Hmm); [by rewrite Hp|]. cbn [mbind outcome_bind].
  eexists. split; [reflexivity|]. split; [done|]. split; cbn; [congruence|by apply Forall_app; split; [|apply Forall_singleton]|].
  eexists. split; [exact Hmm|]. intros k i. fold (item_key x). destruct (decide (item_key x = k)) as [<-|Hk].
  - rewrite lookup_insert_eq. split.
    + intros E. assert (i = length (h_data h)) as -> by congruence. exists x. split; [|done]. by rewrite lookup_app_r, Nat.sub_diag by lia.
    + intros (y & [Hy|[Hle Hy]]%lookup_app_Some & Ey).
      * exfalso. assert (a !! item_key x = Some y) as Hc by (apply Hcont; split; [done|by eapply list_elem_of_lookup_2]). congruence.
      * apply list_lookup_singleton_Some in Hy as [Hz _]. f_equal. lia.
  - rewrite lookup_insert_ne by done. rewrite Ha. split; intros (y & Hy & Ey); exists y; split; try done.
    + by apply lookup_app_l_Some.
    + apply lookup_app_Some in Hy as [Hy|[_ Hy]]; [done|]. apply list_lookup_singleton_Some in Hy as [_ <-]. done.
Qed.

Lemma go_Push_spec p a h x : heap_inv p a h -> in_partition p (bt_ID (hi_Batch x)) -> a !! item_key x = None ->
  exists h', go_Push h x = Ok h' /\ heap_inv p (<[item_key x := x]> a) h'.
Proof.
  intros Hi Hp Hn. unfold go_Push. destruct (heap_Push_spec p a h x Hi Hp Hn) as (h1 & -> & Hd & Hc). cbn [mbind outcome_bind].
  assert (Len h1 = S (Len h)) as Hlen by (unfold Len; rewrite Hd, length_app; cbn; lia).
  assert (forall k, k < Len h -> K (h_data h1) k = K (h_data h) k) as HK by (intros k Hk; unfold K, Len in *; by rewrite Hd, lookup_app_l).
  destruct (up_spec p (Len h1) (Len h1) h1 (Len h1 - 1)) as (h' & E & Hmv & Ho); [done|done|lia|lia| | |].
  - intros k Hk Hkj. pose proof (parent_spec k ltac:(lia)). rewrite !HK by lia. apply (hv_ordered _ _ _ Hi). lia.
  - intros k Hk Ek. pose proof (parent_spec k ltac:(lia)). lia.
  - exists h'. split; [exact E|]. split; [apply Hmv|by rewrite (mv_len _ _ _ _ Hmv)|].
    intros k y. rewrite (mv_items _ _ _ _ Hmv), Hd, elem_of_app, list_elem_of_singleton. destruct (decide (item_key x = k)) as [<-|Hk].
    + rewrite lookup_insert_eq. split; [intros Eq; injection Eq as <-; auto|]. intros [Ey [Hy| ->]]; [|done].
      assert (a !! item_key x = Some y) as Hc' by (apply (hv_contents _ _ _ Hi); done). congruence.
    + rewrite lookup_insert_ne by done. rewrite (hv_contents _ _ _ Hi). split; [tauto|]. intros [Ey [Hy| ->]]; [done|]. congruence.
Qed.

(** Removing the last position. *)
Lemma heap_Pop_spec p h n x : coherent p h -> Len h = S n -> h_data h !! n = Some x -> ordered n (h_data h) ->
  exists h', heap_Pop h = Ok (h', x) /\ coherent p h' /\ ordered (Len h') (h_data h') /\
    forall y, y ∈ h_data h' <-> y ∈ h_data h /\ item_key y <> item_key x.
Proof.
  intros Hc Hlen Hx Ho. pose proof Hc as [Hp Hit (ia & Hm & Ha)]. unfold heap_Pop, Len in *. rewrite Hlen. cbn [Nat.sub]. rewrite Nat.sub_0_r. unfold index. rewrite Hx. cbn [mbind outcome_bind].
  assert (ia !! item_key x = Some n) as Hpos by (apply Ha; eauto). assert (in_partition p (bt_ID (hi_Batch x))) as Hxp by exact (Forall_lookup_1 _ _ _ _ Hit Hx).
  pose proof (Mapper_Remove_spec ia _ (bt_ID (hi_Batch x)) Hm) as Hr. rewrite Hp in Hr. specialize (Hr Hxp). fold (item_key x) in Hr. rewrite Hpos in Hr. destruct Hr as (m & -> & Hpm & Hmm).
  eexists. split; [reflexivity|]. cbn [h_data].
  assert (forall i y, take n (h_data h) !! i = Some y <-> h_data h !! i = Some y /\ i < n) as Htake.
  { intros i y. destruct (decide (i < n)); [rewrite lookup_take_lt by done; tauto|]. rewrite lookup_take_ge by lia. split; [done|lia]. }
  split; [split|split].
  - cbn. congruence.
  - cbn. by apply Forall_take.
  - eexists. split; [exact Hmm|]. cbn. intros k i. destruct (decide (item_key x = k)) as [<-|Hk].
    + rewrite lookup_delete_eq. split; [done|]. intros (y & [Hy Hi]%Htake & Ey). assert (i = n) by (by apply (coherent_inj p h i n y x)). lia.
    + rewrite lookup_delete_ne by done. rewrite Ha. split; intros (y & Hy & Ey); exists y; split; try done.
      * apply Htake. split; [done|]. pose proof (lookup_lt_Some _ _ _ Hy). destruct (decide (i = n)) as [->|]; [|lia]. congruence.
      * by apply Htake in Hy as [Hy _].
  - intros k Hk. rewrite length_take in Hk. pose proof (parent_spec k ltac:(lia)). unfold K. rewrite !lookup_take_lt by lia. apply Ho. lia.
  - intros y. rewrite !list_elem_of_lookup. split.
    + intros [i [Hy Hi]%Htake]. split; [by exists i|]. intros Ey. assert (i = n) by (by apply (coherent_inj p h i n y x)). lia.
    + intros [[i Hy] Hne]. exists i. apply Htake. split; [done|]. pose proof (lookup_lt_Some _ _ _ Hy). destruct (decide (i = n)) as [->|]; [|lia]. congruence.
Qed.

Lemma heap_inv_pop p a h h' x : heap_inv p a h -> a !! item_key x = Some x -> coherent p h' -> ordered (Len h') (h_data h') ->
  (forall y, y ∈ h_data h' <-> y ∈ h_data h /\ item_key y <> item_key x) -> heap_inv p (delete (item_key x) a) h'.
Proof.
  intros Hi Hx Hc Ho Hel. split; [done|done|]. intros k y. rewrite Hel, lookup_delete_Some, (hv_contents _ _ _ Hi). split; [intros (H1 & H2 & H3); subst; done|].
  intros (E & Hy & Hne). subst. done.
Qed.

(** After a swap with the last position, the item to remove is at the end. *)
Lemma swap_to_end p a h i n x : heap_inv p a h -> Len h = S n -> i < n -> h_data h !! i = Some x ->
  exists h1, Swap h i n = Ok h1 /\ coherent p h1 /\ Len h1 = S n /\ h_data h1 !! n = Some x /\ (forall y, y ∈ h_data h1 <-> y ∈ h_data h) /\
    (forall k, K (h_data h1) k = if decide (k = i) then K (h_data h) n else if decide (k = n) then K (h_data h) i else K (h_data h) k).
Proof.
  intros Hi Hlen Hin Hx. destruct (Swap_moved p (S n) h i n (hv_coherent _ _ _ Hi)) as (h1 & E & Hmv & HK); [lia..|].
  destruct (Swap_spec p h i n (hv_coherent _ _ _ Hi)) as (h1' & E' & Hd & _); [lia..|]. rewrite E in E'. apply Ok_inj in E' as <-.
  exists h1. split; [done|]. split; [apply Hmv|]. split; [by rewrite (mv_len _ _ _ _ Hmv)|]. split; [|split; [apply Hmv|exact HK]].
  destruct (lookup_lt_is_Some_2 (h_data h) n) as [y Hy]; [unfold Len in *; lia|]. rewrite Hd, (lookup_swap _ _ _ _ _ _ Hx Hy). repeat case_decide; [lia|done|lia].
Qed.

Lemma go_Remove_spec p a h i x : heap_inv p a h -> h_data h !! i = Some x -> exists h', go_Remove h i = Ok (h', x) /\ heap_inv p (delete (item_key x) a) h'.
Proof.
  intros Hi Hx. pose proof (lookup_lt_Some _ _ _ Hx) as Hlt. assert (exists n, Len h = S n) as [n Hlen] by (exists (Len h - 1); unfold Len; lia).
  assert (a !! item_key x = Some x) as Hax by (apply (hv_contents _ _ _ Hi); split; [done|by eapply list_elem_of_lookup_2]).
  unfold go_Remove. rewrite Hlen. cbn [Nat.sub]. rewrite Nat.sub_0_r. fold (Len h) in Hlt. destruct (decide (n = i)) as [<-|Hne]; cbn [mbind outcome_bind].
  - destruct (heap_Pop_spec p h n x) as (h' & E & Hc & Ho & Hel); [apply Hi|done|done| |].
    + intros k Hk. apply (hv_ordered _ _ _ Hi). lia.
    + exists h'. split; [done|]. by eapply heap_inv_pop.
  - destruct (swap_to_end p a h i n x Hi Hlen ltac:(lia) Hx) as (h1 & -> & Hc1 & Hlen1 & Hx1 & Hel1 & HK). cbn [mbind outcome_bind].
    pose proof (hv_ordered _ _ _ Hi) as Hord. rewrite Hlen in Hord.
    destruct (down_first p n n h1 i) as (h2 & i2 & -> & Hmv & Hcase); [done|lia|lia|lia| | |].
    { intros k Hk Hki Hpk. pose proof (parent_spec k ltac:(lia)). rewrite !HK. destruct (decide (parent k = i)); [done|]. destruct (decide (parent k = n)); [lia|].
      destruct (decide (k = i)); [done|]. destruct (decide (k = n)); [lia|]. apply Hord. lia. }
    { intros k Hk Ek Hpos. pose proof (parent_spec k ltac:(lia)). pose proof (parent_spec i Hpos). rewrite !HK. destruct (decide (parent i = i)); [lia|]. destruct (decide (parent i = n)); [lia|].
      destruct (decide (k = i)); [lia|]. destruct (decide (k = n)); [lia|]. pose proof (Hord k ltac:(lia)) as O1. pose proof (Hord i ltac:(lia)) as O2. rewrite Ek in O1. lia. }
    cbn [mbind outcome_bind fst snd].
    assert (exists h3, (if decide (i < i2) then Ok h2 else up n h2 i) = Ok h3 /\ moved p n h1 h3 /\ ordered n (h_data h3)) as (h3 & -> & Hmv3 & Ho3).
    { destruct Hcase as [(-> & -> & Hkids)|[Hi2 Ho]].
      - rewrite decide_False by lia. destruct (up_spec p n n h1 i) as (h3 & E & Hmv3 & Ho3); [done|lia|lia|lia|done| |by exists h3].
        intros k Hk Ek Hpos. pose proof (parent_spec k ltac:(lia)). pose proof (parent_spec i Hpos). rewrite !HK. destruct (decide (parent i = i)); [lia|]. destruct (decide (parent i = n)); [lia|].
        destruct (decide (k = i)); [lia|]. destruct (decide (k = n)); [lia|]. pose proof (Hord k ltac:(lia)) as O1. pose proof (Hord i ltac:(lia)) as O2. rewrite Ek in O1. lia.
      - rewrite decide_True by lia. by exists h2. }
    cbn [mbind outcome_bind]. destruct (heap_Pop_spec p h3 n x) as (h' & E & Hc & Ho & Hel); [apply Hmv3|by rewrite (mv_len _ _ _ _ Hmv3)|by rewrite (mv_beyond _ _ _ _ Hmv3)|done|].
    exists h'. split; [done|]. eapply heap_inv_pop; [done|done|done|done|]. intros y. by rewrite Hel, (mv_items _ _ _ _ Hmv3), Hel1.
Qed.

Lemma go_Pop_spec p a h x : heap_inv p a h -> h_data h !! 0 = Some x -> exists h', go_Pop h = Ok (h', x) /\ heap_inv p (delete (item_key x) a) h'.
Proof.
  intros Hi Hx. pose proof (lookup_lt_Some _ _ _ Hx) as Hlt. assert (exists n, Len h = S n) as [n Hlen] by (exists (Len h - 1); unfold Len; lia).
  assert (a !! item_key x = Some x) as Hax by (apply (hv_contents _ _ _ Hi); split; [done|by eapply list_elem_of_lookup_2]).
  unfold go_Pop. rewrite Hlen. cbn [Nat.sub]. rewrite Nat.sub_0_r. pose proof (hv_ordered _ _ _ Hi) as Hord. rewrite Hlen in Hord. destruct (decide (n = 0)) as [->|Hn0].
  - destruct (Swap_spec p h 0 0 (hv_coherent _ _ _ Hi)) as (h1 & -> & Hd & Hc1); [lia..|]. cbn [mbind outcome_bind down fst].
    assert (h_data h1 !! 0 = Some x) as Hx1 by (rewrite Hd, (lookup_swap _ _ _ _ _ _ Hx Hx); by case_decide).
    destruct (heap_Pop_spec p h1 0 x) as (h' & E & Hc & Ho & Hel); [done|unfold Len in *; by rewrite Hd, length_swap|done|intros k Hk; lia|].
    exists h'. split; [done|]. eapply heap_inv_pop; [done|done|done|done|]. intros y. by rewrite Hel, Hd, elem_of_swap.
  - destruct (swap_to_end p a h 0 n x Hi Hlen ltac:(lia) Hx) as (h1 & -> & Hc1 & Hlen1 & Hx1 & Hel1 & HK). cbn [mbind outcome_bind].
    destruct (down_spec p n n h1 0) as (h2 & i2 & -> & _ & Hmv & Ho2); [done|lia|lia|lia| |intros; lia|].
    { intros k Hk Hpk. pose proof (parent_spec k ltac:(lia)). rewrite !HK. destruct (decide (parent k = 0)); [done|]. destruct (decide (parent k = n)); [lia|].
      destruct (decide (k = 0)); [lia|]. destruct (decide (k = n)); [lia|]. apply Hord. lia. }
    cbn [mbind outcome_bind fst]. destruct (heap_Pop_spec p h2 n x) as (h' & E & Hc & Ho & Hel); [apply Hmv|by rewrite (mv_len _ _ _ _ Hmv)|by rewrite (mv_beyond _ _ _ _ Hmv)|done|].
    exists h'. split; [done|]. eapply heap_inv_pop; [done|done|done|done|]. intros y. by rewrite Hel, (mv_items _ _ _ _ Hmv), Hel1.
Qed.

Lemma top_is_min p a h x : heap_inv p a h -> h_data h !! 0 = Some x ->
  a !! item_key x = Some x /\ forall k y, a !! k = Some y -> (bid_Seq (bt_ID (hi_Batch x)) <= bid_Seq (bt_ID (hi_Batch y)))%N.
Proof.
  intros Hi Hx. split; [apply (hv_contents _ _ _ Hi); split; [done|by eapply list_elem_of_lookup_2]|]. intros k y Hy.
  destruct (position _ _ _ _ _ Hi Hy) as (i & Hiy & Hlt). pose proof (ordered_min _ _ (hv_ordered _ _ _ Hi) i Hlt) as Hmin.
  unfold K in Hmin. rewrite Hx, Hiy in Hmin. exact Hmin.
Qed.

Lemma empty_heap p a h : heap_inv p a h -> (h_data h = [] <-> a = ∅).
Proof.
  intros Hi. split.
  - intros E. apply map_eq. intros k. rewrite lookup_empty. destruct (a !! k) as [x|] eqn:Ex; [|done]. apply (hv_contents _ _ _ Hi) in Ex as [_ Hx]. rewrite E in Hx. by apply elem_of_nil in Hx.
  - intros ->. destruct (h_data h) as [|x l] eqn:E; [done|]. assert ((∅ : gmap (N * bytes) BatchHeapItem) !! item_key x = Some x) as Hx by (apply (hv_contents _ _ _ Hi); rewrite E; split; [done|by left]).
    by rewrite lookup_empty in Hx.
Qed.

Lemma Heap_index p a h id : heap_inv p a h -> in_partition p id ->
  Mapper_Has (batchToIndex h) id = Ok (bool_decide (is_Some (a !! key_of id))) /\
  Mapper_Get (batchToIndex h) id = match a !! key_of id with Some x => match list_find (eq (key_of id)) (item_key <$> h_data h) with Some (i, _) => Ok i | None => Err ErrBatchDoesNotExist end
                                   | None => Err ErrBatchDoesNotExist end.
Proof.
  intros Hi Hp. pose proof (hv_coherent _ _ _ Hi) as Hc. pose proof Hc as [Hpart _ (ia & Hm & Ha)].
  assert (forall x, a !! key_of id = Some x -> exists i, h_data h !! i = Some x /\ ia !! key_of id = Some i /\ list_find (eq (key_of id)) (item_key <$> h_data h) = Some (i, key_of id)) as Hsome.
  { intros x Hx. destruct (position _ _ _ _ _ Hi Hx) as (i & Hix & _). apply (hv_contents _ _ _ Hi) in Hx as [Ek _]. exists i. split; [done|]. split; [apply Ha; eauto|].
    apply list_find_Some. rewrite list_lookup_fmap, Hix. cbn. split; [by rewrite Ek|]. split; [done|]. intros j y Hy Hj. rewrite list_lookup_fmap in Hy.
    destruct (h_data h !! j) as [z|] eqn:Hz; [|done]. cbn in Hy. intros E. assert (j = i) by (apply (coherent_inj p h j i z x Hc Hz Hix); congruence). lia. }
  assert (a !! key_of id = None -> ia !! key_of id = None) as Hnone.
  { intros E. destruct (ia !! key_of id) as [i|] eqn:Ei; [|done]. apply Ha in Ei as (x & Hx & Ek). assert (a !! key_of id = Some x) as Hc' by (apply (hv_contents _ _ _ Hi); split; [done|by eapply list_elem_of_lookup_2]). congruence. }
  rewrite (Mapper_Has_spec ia), (Mapper_Get_spec ia) by (done || by rewrite Hpart). destruct (a !! key_of id) as [x|] eqn:Ea.
  - destruct (Hsome x eq_refl) as (i & Hix & Hia & ->). rewrite Hia. done.
  - rewrite Hnone by done. done.
Qed.

Lemma Heap_Push_spec p a h item : heap_inv p a h -> in_partition p (bt_ID (hi_Batch item)) ->
  match a !! item_key item with
  | Some _ => Heap_Push h item = Err ErrBatchAlreadyExists
  | None => exists h', Heap_Push h item = Ok h' /\ heap_inv p (<[item_key item := item]> a) h'
  end.
Proof.
  intros Hi Hp. unfold Heap_Push. destruct (Heap_index p a h _ Hi Hp) as [-> _]. cbn [mbind outcome_bind]. fold (item_key item).
  destruct (a !! item_key item) as [x|] eqn:Ea; [done|]. cbn [guard_err]. rewrite bool_decide_eq_false_2 by (by intros []). by apply go_Push_spec.
Qed.

Lemma Heap_Pop_spec p a h : heap_inv p a h ->
  (a = ∅ /\ Heap_Pop h = Ok (h, None)) \/
  exists h' x, Heap_Pop h = Ok (h', Some x) /\ a !! item_key x = Some x /\
    (forall k y, a !! k = Some y -> (bid_Seq (bt_ID (hi_Batch x)) <= bid_Seq (bt_ID (hi_Batch y)))%N) /\ heap_inv p (delete (item_key x) a) h'.
Proof.
  intros Hi. unfold Heap_Pop, Len. destruct (h_data h) as [|x l] eqn:Ed.
  - left. split; [by apply (empty_heap p a h Hi)|done].
  - right. assert (h_data h !! 0 = Some x) as Hx by (by rewrite Ed). destruct (go_Pop_spec p a h x Hi Hx) as (h' & -> & Hi').
    destruct (top_is_min p a h x Hi Hx) as [Hax Hmin]. exists h', x. by cbn.
Qed.

(** Pop shortens the heap. *)
Lemma heap_pop_len p a h h' x : heap_inv p a h -> Heap_Pop h = Ok (h', Some x) -> Len h' < Len h.
Proof.
  intros Hi E. unfold Heap_Pop in E. destruct (decide (Len h = 0)) as [H0|H0]; [apply Ok_inj in E; congruence|].
  apply bind_Ok_inv in E as ([h1 y] & Hg & E). apply Ok_inj in E. injection E as -> <-. unfold go_Pop in Hg.
  apply bind_Ok_inv in Hg as (hs & Hs & Hg). apply bind_Ok_inv in Hg as ([hd i] & Hd & Hg).
  destruct (Swap_spec p h 0 (Len h - 1) (hv_coherent _ _ _ Hi)) as (hs' & E' & Hdata & Hc); [lia..|]. rewrite Hs in E'. apply Ok_inj in E' as <-.
  assert (Len hs = Len h) as Hls by (unfold Len; by rewrite Hdata, length_swap). assert (Len hd = Len hs) as Hld by (eapply down_len; [exact Hc| |exact Hd]; lia).
  unfold heap_Pop in Hg. apply bind_Ok_inv in Hg as (z & Hz%index_Ok%lookup_lt_Some & Hg). cbn [fst] in *. unfold Len in *.
  destruct (Mapper_Remove _ _) as [[m v]| |]; try done; apply Ok_inj in Hg; injection Hg as <- _; cbn; rewrite length_take; lia.
Qed.

Lemma Heap_Remove_spec p a h id : heap_inv p a h -> in_partition p id ->
  match a !! key_of id with
  | None => Heap_Remove h id = Ok (h, Err ErrBatchDoesNotExist)
  | Some x => exists h', Heap_Remove h id = Ok (h', Ok x) /\ heap_inv p (delete (key_of id) a) h'
  end.
Proof.
  intros Hi Hp. unfold Heap_Remove. destruct (Heap_index p a h id Hi Hp) as [_ ->]. destruct (a !! key_of id) as [x|] eqn:Ea; [|done].
  destruct (position _ _ _ _ _ Hi Ea) as (i & Hix & Hlt). apply (hv_contents _ _ _ Hi) in Ea as [Ek _].
  assert (list_find (eq (key_of id)) (item_key <$> h_data h) = Some (i, key_of id)) as ->.
  { apply list_find_Some. rewrite list_lookup_fmap, Hix. cbn. split; [by rewrite Ek|]. split; [done|]. intros j y Hy Hj. rewrite list_lookup_fmap in Hy.
    destruct (h_data h !! j) as [z|] eqn:Hz; [|done]. cbn in Hy. intros E. assert (j = i) by (apply (coherent_inj p h j i z x (hv_coherent _ _ _ Hi) Hz Hix); congruence). lia. }
  unfold Len in Hlt. rewrite decide_False by lia. destruct (go_Remove_spec p a h i x Hi Hix) as (h' & -> & Hi'). exists h'. rewrite <-Ek. done.
Qed.

(** the heap is a priority queue with removal. The binary heap with its position map behaves as a map from batch
    identifiers to items: Push adds an item whose batch is not there yet and refuses it otherwise; Pop and Peek give an
    item of the lowest sequence number, or nothing exactly when the map is empty; Remove takes out exactly the named
    batch; no operation panics, and each leaves the heap in order with the positions right. *)
Theorem batch_heap_refines p a h item id :
  heap_inv p a h -> in_partition p (bt_ID (hi_Batch item)) -> in_partition p id ->
  match a !! item_key item with
  | Some _ => Heap_Push h item = Err ErrBatchAlreadyExists
  | None => exists h', Heap_Push h item = Ok h' /\ heap_inv p (<[item_key item := item]> a) h'
  end /\
  ((a = ∅ /\ Heap_Pop h = Ok (h, None) /\ Heap_Peek h = None) \/
   exists h' x, Heap_Pop h = Ok (h', Some x) /\ Heap_Peek h = Some x /\ a !! item_key x = Some x /\
     (forall k y, a !! k = Some y -> (bid_Seq (bt_ID (hi_Batch x)) <= bid_Seq (bt_ID (hi_Batch y)))%N) /\ heap_inv p (delete (item_key x) a) h') /\
  match a !! key_of id with
  | None => Heap_Remove h id = Ok (h, Err ErrBatchDoesNotExist)
  | Some x => exists h', Heap_Remove h id = Ok (h', Ok x) /\ heap_inv p (delete (key_of id) a) h'
  end /\
  Heap_Has h id = Ok (bool_decide (is_Some (a !! key_of id))).
Proof.
  intros Hi Hp Hid. split; [by apply Heap_Push_spec|]. split; [|split; [by apply Heap_Remove_spec|by apply (Heap_index p a h id)]].
  unfold Heap_Peek. destruct (h_data h) as [|x l] eqn:Ed.
  - left. split; [by apply (empty_heap p a h Hi)|]. unfold Heap_Pop, Len. by rewrite Ed.
  - right. assert (h_data h !! 0 = Some x) as Hx by (by rewrite Ed). destruct (go_Pop_spec p a h x Hi Hx) as (h' & E & Hi').
    destruct (top_is_min p a h x Hi Hx) as [Hax Hmin]. exists h', x. unfold Heap_Pop, Len. rewrite Ed. cbn [length]. rewrite decide_False by lia. by rewrite E.
Qed.

End Heap.
Arguments BatchHeapItem T : clear implicits.
Arguments batchHeap T : clear implicits.

(** ** A heap of three batches *)
Definition sample_batch (seq : N) : Batch := mkBatch (mkBatchID 1 2 seq []) [].
Definition sample_items : list (BatchHeapItem unit) := (fun s => mkItem (sample_batch s) tt) <$> [5; 3; 4]%N.
Definition sample_heap : batchHeap unit :=
  foldl (fun h x => match Heap_Push h x with Ok h' => h' | _ => h end) (newBatchHeap (mkPartition 1 2)) sample_items.
Definition sample_contents : gmap (N * bytes) (BatchHeapItem unit) := foldl (fun a x => <[item_key x := x]> a) ∅ sample_items.

Lemma sample_heap_inv : heap_inv (mkPartition 1 2) sample_contents sample_heap.
Proof.
  assert (forall l a h, heap_inv (mkPartition 1 2) a h -> Forall (fun x => in_partition (mkPartition 1 2) (bt_ID (hi_Batch x))) l ->
    (forall x, x ∈ l -> a !! item_key x = None) -> NoDup (item_key <$> l) ->
    heap_inv (mkPartition 1 2) (foldl (fun a x => <[item_key x := x]> a) a l) (foldl (fun h (x : BatchHeapItem unit) => match Heap_Push h x with Ok h' => h' | _ => h end) h l)) as Hfold.
  { induction l as [|x l IH]; intros a h Hi Hp Hn Hnd; [done|]. apply Forall_cons in Hp as [Hpx Hp]. cbn in Hnd. apply NoDup_cons in Hnd as [Hni Hnd]. cbn.
    pose proof (Heap_Push_spec _ a h x Hi Hpx) as Hps. rewrite Hn in Hps by left. destruct Hps as (h' & -> & Hi'). apply IH; [done|done| |done].
    intros y Hy. rewrite lookup_insert_ne; [apply Hn; by right|]. intros E. apply Hni. rewrite E. by apply list_elem_of_fmap_2. }
  apply Hfold; [apply heap_inv_new|repeat constructor|intros x _; apply lookup_empty|].
  vm_compute. repeat constructor; set_solver.
Qed.

Lemma batch_heap_refines_witness : exists h' x, Heap_Pop sample_heap = Ok (h', Some x) /\ bid_Seq (bt_ID (hi_Batch x)) = 3%N.
Proof.
  destruct (batch_heap_refines (mkPartition 1 2) sample_contents sample_heap (mkItem (sample_batch 9) tt) (mkBatchID 1 2 4 []) sample_heap_inv ltac:(reflexivity) ltac:(reflexivity))
    as (_ & [[Hemp _]|(h' & x & Hpop & _)] & _).
  - exfalso. assert (sample_contents !! (3%N, []) = Some (mkItem (sample_batch 3) tt)) as Hc by (vm_compute; reflexivity). rewrite Hemp, lookup_empty in Hc. discriminate.
  - exists h', x. split; [exact Hpop|]. vm_compute in Hpop. apply Ok_inj in Hpop. injection Hpop as _ <-. reflexivity.
Defined.
