(* ===== verification/PrefetchIndex.v ===== *)
(** * The assembler's prefetch index

    [src/node/assembler/partition_prefetch_index.go] and prefetch_index.go: batches that arrive from the batchers are
    paired with the batch identifiers that consensus ordered. Each critical section under the index's lock is a
    function; a goroutine that waits on the condition variable runs its next round later, so rounds of PopOrWait and
    Put, PutForce, Stop and the TTL handlers interleave. *)
From S2P Require Import Prelude Types Events Blocks BatchMapper BatchHeap.
From Stdlib Require Import NArith Lia.

(** The timer of an item: its handler is the step [ttl_expired], which may also run after the timer was stopped, if it
    had fired and was waiting for the lock. *)
Notation timer := unit.

(** [batchRequestChan] is the channel of search requests, here a list without a bound: a send on the full channel, which the
    code does under the lock in PopOrWait, waits for the goroutine that answers the requests, and is placed when there is room. *)
Record PartitionPrefetchIndex := mkIndex {
  pi_partition : ShardPrimary;
  lastPutSeqRequest : BatchSequence;
  lastPutSeq : BatchSequence;
  maxPoppedCallSeq : BatchSequence;
  cache : BatchCache;
  forcedPutCache : BatchCache;
  sequenceHeap : batchHeap timer;
  maxSizeBytes : Z;
  batchRequestChan : list BatchID;
  cancelled : bool
}.

Definition NewPartitionPrefetchIndex (partition : ShardPrimary) (maxSizeBytes : Z) : PartitionPrefetchIndex :=
  mkIndex partition 0 0 0 (NewBatchCache partition) (NewBatchCache partition) (newBatchHeap partition) maxSizeBytes [] false.

Definition with_cache c pi := mkIndex (pi_partition pi) (lastPutSeqRequest pi) (lastPutSeq pi) (maxPoppedCallSeq pi) c (forcedPutCache pi) (sequenceHeap pi)
  (maxSizeBytes pi) (batchRequestChan pi) (cancelled pi).
Definition with_forced c pi := mkIndex (pi_partition pi) (lastPutSeqRequest pi) (lastPutSeq pi) (maxPoppedCallSeq pi) (cache pi) c (sequenceHeap pi)
  (maxSizeBytes pi) (batchRequestChan pi) (cancelled pi).
Definition with_heap h pi := mkIndex (pi_partition pi) (lastPutSeqRequest pi) (lastPutSeq pi) (maxPoppedCallSeq pi) (cache pi) (forcedPutCache pi) h
  (maxSizeBytes pi) (batchRequestChan pi) (cancelled pi).
Definition with_lastPutSeqRequest s pi := mkIndex (pi_partition pi) s (lastPutSeq pi) (maxPoppedCallSeq pi) (cache pi) (forcedPutCache pi) (sequenceHeap pi)
  (maxSizeBytes pi) (batchRequestChan pi) (cancelled pi).
Definition with_lastPutSeq s pi := mkIndex (pi_partition pi) (lastPutSeqRequest pi) s (maxPoppedCallSeq pi) (cache pi) (forcedPutCache pi) (sequenceHeap pi)
  (maxSizeBytes pi) (batchRequestChan pi) (cancelled pi).
Definition with_maxPopped s pi := mkIndex (pi_partition pi) (lastPutSeqRequest pi) (lastPutSeq pi) s (cache pi) (forcedPutCache pi) (sequenceHeap pi)
  (maxSizeBytes pi) (batchRequestChan pi) (cancelled pi).
Definition with_requests r pi := mkIndex (pi_partition pi) (lastPutSeqRequest pi) (lastPutSeq pi) (maxPoppedCallSeq pi) (cache pi) (forcedPutCache pi) (sequenceHeap pi)
  (maxSizeBytes pi) r (cancelled pi).
Definition with_cancelled pi := mkIndex (pi_partition pi) (lastPutSeqRequest pi) (lastPutSeq pi) (maxPoppedCallSeq pi) (cache pi) (forcedPutCache pi) (sequenceHeap pi)
  (maxSizeBytes pi) (batchRequestChan pi) true.

Definition assertBatchPartition (pi : PartitionPrefetchIndex) (batchId : BatchID) : outcome unit :=
  panic_if bool_decide (ShardPrimaryFromBatch batchId <> pi_partition pi) with "batch partition does not match" ;; Ok tt.

(** The index after the attempt, with the batch or the error: an item that is missing in the heap is gone from the cache.
    The errors are wrapped with the error of the cache or the heap inside, which is what the callers compare. *)
Definition removeUnsafe (pi : PartitionPrefetchIndex) (batchId : BatchID) : outcome (PartitionPrefetchIndex * outcome Batch) :=
  match Cache_Pop (cache pi) batchId with
  | Panic e => Panic e
  | Err _ =>
      match Cache_Pop (forcedPutCache pi) batchId with
      | Panic e => Panic e
      | Err e => Ok (pi, Err e)
      | Ok (c, batch) => Ok (with_forced c pi, Ok batch)
      end
  | Ok (c, batch) =>
      r ← Heap_Remove (sequenceHeap pi) batchId;
      let '(h, item) := r in
      let pi := with_heap h (with_cache c pi) in
      match item with
      | Ok _ => Ok (pi, Ok batch)
      | Err e => Ok (pi, Err e)
      | Panic e => Panic e
      end
  end.

(** ** PopOrWait *)
(** The section before the loop. *)
Definition PopOrWait_begin (pi : PartitionPrefetchIndex) (batchId : BatchID) : outcome PartitionPrefetchIndex :=
  _ ← assertBatchPartition pi batchId;
  Ok (if (maxPoppedCallSeq pi <? bid_Seq batchId)%N then with_maxPopped (bid_Seq batchId) pi else pi).

Inductive pop_result := Popped (batch : Batch) | PopFailed (e : gerror) | PopWaiting (requested monitor : bool).

(** One round of the loop, with the flag of the call: whether the batch was requested. A round that waits tells the new
    flag and whether it scheduled a monitor that will request the batch later. *)
Definition PopOrWait_round (pi : PartitionPrefetchIndex) (batchId : BatchID) (wasBatchRequested : bool) : outcome (PartitionPrefetchIndex * pop_result) :=
  if cancelled pi then Ok (pi, PopFailed ErrOperationCancelled) else
  r ← removeUnsafe pi batchId;
  let '(pi, res) := r in
  match res with
  | Ok batch => Ok (pi, Popped batch)
  | Panic e => Panic e
  | Err e =>
      panic_if negb (bool_decide (e = ErrBatchDoesNotExist)) with "unexpected error occured while poping batch" ;;
      let doubleDigest := (bid_Seq batchId <? lastPutSeqRequest pi)%N || (bid_Seq batchId =? lastPutSeq pi)%N in
      let ask := negb wasBatchRequested && doubleDigest in
      let pi := if ask then with_requests (batchRequestChan pi ++ [batchId]) pi else pi in
      let requested := wasBatchRequested || ask in
      Ok (pi, PopWaiting requested (negb requested))
  end.

(** The monitor of a waiting call: it requests the batch. *)
Definition censorship_monitor (pi : PartitionPrefetchIndex) (batchId : BatchID) : PartitionPrefetchIndex :=
  with_requests (batchRequestChan pi ++ [batchId]) pi.

(** ** Put *)
Definition evictOldestBatch (pi : PartitionPrefetchIndex) : outcome (PartitionPrefetchIndex * outcome unit) :=
  r ← Heap_Pop (sequenceHeap pi);
  let '(h, item) := r in
  let pi := with_heap h pi in
  match item with
  | None => Ok (pi, Err "there is nothing to evict, the sequence heap is empty")
  | Some batchAndTimer =>
      match Cache_Pop (cache pi) (bt_ID (hi_Batch batchAndTimer)) with
      | Panic e => Panic e
      | Err e => Ok (pi, Err e)
      | Ok (c, _) => Ok (with_cache c pi, Ok tt)
      end
  end.

Definition saveOrdinaryBatch (pi : PartitionPrefetchIndex) (batch : Batch) : outcome (PartitionPrefetchIndex * outcome unit) :=
  match Cache_Put (cache pi) batch with
  | Panic e => Panic e
  | Err e => Ok (pi, Err e)
  | Ok c =>
      let pi := with_cache c pi in
      match Heap_Push (sequenceHeap pi) (mkItem batch tt) with
      | Panic e => Panic e
      | Err _ =>
          match Cache_Pop (cache pi) (bt_ID batch) with
          | Panic e => Panic e
          | Err _ => Ok (pi, Err "failed to push batch to the sequence heap")
          | Ok (c, _) => Ok (with_cache c pi, Err "failed to push batch to the sequence heap")
          end
      | Ok h => Ok (with_lastPutSeq (bid_Seq (bt_ID batch)) (with_heap h pi), Ok tt)
      end
  end.

Inductive put_result := PutDone | PutFailed (e : gerror) | PutWaiting.

(** The loop of Put from where it starts or wakes up: it evicts until there is space, unless it must wait. *)
Fixpoint Put_loop (fuel : nat) (pi : PartitionPrefetchIndex) (batch : Batch) : outcome (PartitionPrefetchIndex * put_result) :=
  match fuel with
  | 0 => Err "out of fuel"
  | S fuel' =>
      if decide (SizeBytes (cache pi) + batchSizeBytes batch <= maxSizeBytes pi)%Z then
        r ← saveOrdinaryBatch pi batch;
        Ok (r.1, match r.2 with Ok _ => PutDone | Err e => PutFailed e | Panic e => PutFailed e end)
      else if cancelled pi then Ok (pi, PutFailed ErrOperationCancelled)
      else if (maxPoppedCallSeq pi <? bid_Seq (bt_ID batch))%N then Ok (pi, PutWaiting)
      else
        r ← evictOldestBatch pi;
        match r.2 with
        | Ok _ => Put_loop fuel' r.1 batch
        | Err _ => Ok (r.1, PutFailed "failed to evict batch")
        | Panic e => Panic e
        end
  end.
(** The loop evicts at most all items of the heap. *)
Definition Put_round (pi : PartitionPrefetchIndex) (batch : Batch) : outcome (PartitionPrefetchIndex * put_result) :=
  Put_loop (S (Len (sequenceHeap pi))) pi batch.

Definition Put (pi : PartitionPrefetchIndex) (batch : Batch) : outcome (PartitionPrefetchIndex * put_result) :=
  _ ← assertBatchPartition pi (bt_ID batch);
  if (maxSizeBytes pi <? batchSizeBytes batch)%Z then Ok (pi, PutFailed ErrBatchTooLarge) else
  has ← Cache_Has (cache pi) (bt_ID batch);
  if has : bool then Ok (pi, PutFailed ErrBatchAlreadyExists) else
  Put_round (with_lastPutSeqRequest (bid_Seq (bt_ID batch)) pi) batch.

Definition PutForce (pi : PartitionPrefetchIndex) (batch : Batch) : outcome (PartitionPrefetchIndex * outcome unit) :=
  _ ← assertBatchPartition pi (bt_ID batch);
  if (maxSizeBytes pi <? batchSizeBytes batch)%Z then Ok (pi, Err ErrBatchTooLarge) else
  match Cache_Put (forcedPutCache pi) batch with
  | Panic e => Panic e
  | Err e => Ok (pi, Err e)
  | Ok c => Ok (with_forced c pi, Ok tt)
  end.

(** The handler of the timer of a batch; an error is only logged. *)
Definition ttl_expired (pi : PartitionPrefetchIndex) (batch : Batch) : outcome PartitionPrefetchIndex :=
  r ← removeUnsafe pi (bt_ID batch); Ok r.1.

Fixpoint stop_timers (fuel : nat) (h : batchHeap timer) : outcome (batchHeap timer) :=
  match fuel with
  | 0 => Ok h
  | S fuel' => r ← Heap_Pop h; match r.2 with None => Ok r.1 | Some _ => stop_timers fuel' r.1 end
  end.
(** Stop cancels the context before it takes the lock; other sections may run in between. *)
Definition Stop_drain (pi : PartitionPrefetchIndex) : outcome PartitionPrefetchIndex :=
  h ← stop_timers (S (Len (sequenceHeap pi))) (sequenceHeap pi);
  Ok (with_heap h pi).
Definition Stop (pi : PartitionPrefetchIndex) : outcome PartitionPrefetchIndex := Stop_drain (with_cancelled pi).

(** ** The invariant *)
Notation batches := (gmap (N * bytes) Batch).

(** What the caches hold, within the size limit; the heap has items of the cache only, and until Stop all of them. *)
Record index_inv (a f : batches) (pi : PartitionPrefetchIndex) : Prop := {
  ii_cache : caches a (pi_partition pi) (cache pi);
  ii_forced : caches f (pi_partition pi) (forcedPutCache pi);
  ii_heap : exists hm, heap_inv (pi_partition pi) hm (sequenceHeap pi) /\ (forall k x, hm !! k = Some x -> a !! k = Some (hi_Batch x)) /\
    (cancelled pi = false -> forall k b, a !! k = Some b -> hm !! k = Some (mkItem b tt));
  ii_size : (total a <= maxSizeBytes pi)%Z
}.

(** What the removals leave unchanged. *)
Record same_counters (pi pi' : PartitionPrefetchIndex) : Prop := {
  sc_partition : pi_partition pi' = pi_partition pi;
  sc_request : lastPutSeqRequest pi' = lastPutSeqRequest pi;
  sc_lastPut : lastPutSeq pi' = lastPutSeq pi;
  sc_popped : maxPoppedCallSeq pi' = maxPoppedCallSeq pi;
  sc_max : maxSizeBytes pi' = maxSizeBytes pi;
  sc_requests : batchRequestChan pi' = batchRequestChan pi;
  sc_cancelled : cancelled pi' = cancelled pi
}.
Lemma same_counters_refl pi : same_counters pi pi.
Proof. by split. Qed.
Lemma same_counters_trans pi1 pi2 pi3 : same_counters pi1 pi2 -> same_counters pi2 pi3 -> same_counters pi1 pi3.
Proof. intros [] []. split; congruence. Qed.

Lemma index_inv_new p max : (0 <= max)%Z -> index_inv ∅ ∅ (NewPartitionPrefetchIndex p max).
Proof.
  intros Hm. split; cbn; [apply caches_new|apply caches_new| |by rewrite total_empty].
  exists ∅. split; [apply heap_inv_new|]. split; [intros k x Hk|intros _ k x Hk]; by rewrite lookup_empty in Hk.
Qed.

Lemma total_delete_le a k : (total (delete k a) <= total a)%Z.
Proof.
  destruct (a !! k) as [b|] eqn:E; [|by rewrite delete_id]. rewrite (total_delete _ _ _ E). pose proof (batchSize_nonneg b). lia.
Qed.

Lemma removeUnsafe_spec a f pi id : index_inv a f pi -> in_partition (pi_partition pi) id ->
  match a !! key_of id, f !! key_of id with
  | Some b, _ => exists pi' r, removeUnsafe pi id = Ok (pi', r) /\ index_inv (delete (key_of id) a) f pi' /\ same_counters pi pi' /\
      (r = Ok b \/ cancelled pi = true /\ r = Err ErrBatchDoesNotExist)
  | None, Some b => exists pi', removeUnsafe pi id = Ok (pi', Ok b) /\ index_inv a (delete (key_of id) f) pi' /\ same_counters pi pi'
  | None, None => removeUnsafe pi id = Ok (pi, Err ErrBatchDoesNotExist)
  end.
Proof.
  intros [Hc Hf (hm & Hh & Hsub & Hall) Hs] Hp. unfold removeUnsafe. pose proof (Cache_Pop_spec a _ _ id Hc Hp) as Hpop. destruct (a !! key_of id) as [b|] eqn:Ea.
  - destruct Hpop as (c & -> & Hc'). pose proof (Heap_Remove_spec _ hm _ id Hh Hp) as Hrem.
    assert (forall hm' h', heap_inv (pi_partition pi) hm' h' -> hm' = delete (key_of id) hm -> index_inv (delete (key_of id) a) f (with_heap h' (with_cache c pi))) as Hinv.
    { intros hm' h' Hh' ->. split; cbn; [done|done| |pose proof (total_delete_le a (key_of id)); lia]. exists (delete (key_of id) hm). split; [done|]. split.
      - intros k x [Hne Hx]%lookup_delete_Some. rewrite lookup_delete_ne by done. by apply Hsub.
      - intros Hcan k b' [Hne Hb']%lookup_delete_Some. rewrite lookup_delete_ne by done. by apply Hall. }
    destruct (hm !! key_of id) as [x|] eqn:Ex.
    + destruct Hrem as (h' & -> & Hh'). cbn [mbind outcome_bind]. eexists _, _. split; [reflexivity|]. split; [by eapply Hinv|]. split; [by split|]. by left.
    + rewrite Hrem. cbn [mbind outcome_bind]. eexists _, _. split; [reflexivity|]. split; [eapply Hinv; [done|by rewrite delete_id]|]. split; [by split|]. right. split; [|done].
      destruct (cancelled pi) eqn:Ecan; [done|]. pose proof (eq_trans (eq_sym Ex) (Hall eq_refl _ _ Ea)). done.
  - rewrite Hpop. pose proof (Cache_Pop_spec f _ _ id Hf Hp) as Hpopf. destruct (f !! key_of id) as [b|] eqn:Ef.
    + destruct Hpopf as (c & -> & Hf'). eexists. split; [reflexivity|]. split; [|by split]. split; cbn; [done|done|by exists hm|done].
    + by rewrite Hpopf.
Qed.

Lemma evict_spec a f pi : index_inv a f pi -> cancelled pi = false -> a <> ∅ ->
  exists b pi', evictOldestBatch pi = Ok (pi', Ok tt) /\ a !! key_of (bt_ID b) = Some b /\
    (forall k b', a !! k = Some b' -> (bid_Seq (bt_ID b) <= bid_Seq (bt_ID b'))%N) /\
    index_inv (delete (key_of (bt_ID b)) a) f pi' /\ same_counters pi pi' /\ Len (sequenceHeap pi') < Len (sequenceHeap pi).
Proof.
  intros [Hc Hf (hm & Hh & Hsub & Hall) Hs] Hcan Hne. specialize (Hall Hcan). unfold evictOldestBatch.
  destruct (Heap_Pop_spec _ hm _ Hh) as [[-> _]|(h' & x & Epop & Hx & Hmin & Hh')].
  - exfalso. apply Hne, map_eq. intros k. rewrite lookup_empty. destruct (a !! k) as [b|] eqn:Eb; [|done]. apply Hall in Eb. by rewrite lookup_empty in Eb.
  - rewrite Epop. cbn [mbind outcome_bind]. pose proof (Hsub _ _ Hx) as Ha. assert (in_partition (pi_partition pi) (bt_ID (hi_Batch x))) as Hp by (by apply (ca_keys _ _ _ Hc) in Ha as [_ Hp]).
    cbn [with_heap cache]. pose proof (Cache_Pop_spec a _ _ (bt_ID (hi_Batch x)) Hc Hp) as Hpop. fold (item_key x) in Hpop. rewrite Ha in Hpop. destruct Hpop as (c & -> & Hc').
    exists (hi_Batch x). eexists. split; [reflexivity|]. split; [exact Ha|]. split; [|split; [|split]].
    + intros k b' Hb'. apply Hall in Hb'. exact (Hmin _ _ Hb').
    + split; cbn; [done|done| |pose proof (total_delete_le a (item_key x)); unfold item_key in *; lia]. exists (delete (item_key x) hm). split; [done|]. split.
      * intros k y [Hk Hy]%lookup_delete_Some. unfold item_key in *. rewrite lookup_delete_ne by done. by apply Hsub.
      * intros _ k b' [Hk Hb']%lookup_delete_Some. unfold item_key. rewrite lookup_delete_ne by done. by apply Hall.
    + by split.
    + cbn. pose proof (hv_contents _ _ _ Hh') as Hcont'. pose proof (heap_pop_len _ _ _ _ _ Hh Epop) as Hl. exact Hl.
Qed.

(** ** Put, specified *)
Lemma save_spec a f pi b : index_inv a f pi -> in_partition (pi_partition pi) (bt_ID b) -> (total a + batchSizeBytes b <= maxSizeBytes pi)%Z ->
  match a !! key_of (bt_ID b) with
  | Some _ => saveOrdinaryBatch pi b = Ok (pi, Err ErrBatchAlreadyExists)
  | None => exists pi', saveOrdinaryBatch pi b = Ok (pi', Ok tt) /\ index_inv (<[key_of (bt_ID b) := b]> a) f pi' /\
      lastPutSeq pi' = bid_Seq (bt_ID b) /\ same_counters (with_lastPutSeq (bid_Seq (bt_ID b)) pi) pi'
  end.
Proof.
  intros [Hc Hf (hm & Hh & Hsub & Hall) Hs] Hp Hsz. unfold saveOrdinaryBatch. pose proof (Cache_Put_spec a _ _ b Hc Hp) as Hput.
  destruct (a !! key_of (bt_ID b)) as [b'|] eqn:Ea; [by rewrite Hput|]. destruct Hput as (c & -> & Hc').
  assert (hm !! item_key (mkItem (T := timer) b tt) = None) as Hnone. { unfold item_key. cbn [hi_Batch]. destruct (hm !! _) as [x|] eqn:Ex; [|done]. apply Hsub in Ex. congruence. }
  pose proof (Heap_Push_spec _ hm _ (mkItem b tt) Hh Hp) as Hpush. rewrite Hnone in Hpush. destruct Hpush as (h' & Hpush & Hh').
  cbn [sequenceHeap with_cache]. rewrite Hpush. eexists. split; [reflexivity|]. split; [|split; [done|by split]]. split; cbn.
  - done.
  - done.
  - exists (<[item_key (mkItem (T := timer) b tt) := mkItem b tt]> hm). split; [done|]. unfold item_key. cbn [hi_Batch]. split.
    + intros k x [[<- <-]|[Hk Hx]]%lookup_insert_Some; [by rewrite lookup_insert_eq|]. rewrite lookup_insert_ne by done. by apply Hsub.
    + intros Hcan k b' [[<- <-]|[Hk Hx]]%lookup_insert_Some; [by rewrite lookup_insert_eq|]. rewrite lookup_insert_ne by done. by apply Hall.
  - rewrite total_insert by done. lia.
Qed.

(** [a'] is what is left of [a] when batches are evicted in the order of their sequence numbers. *)
Record evicted (a a' : batches) : Prop := {
  ev_subset : a' ⊆ a;
  ev_order : forall k b k' b', a !! k = Some b -> a' !! k = None -> a' !! k' = Some b' -> (bid_Seq (bt_ID b) <= bid_Seq (bt_ID b'))%N
}.
Lemma evicted_refl a : evicted a a.
Proof. split; [done|]. intros k b k' b' Hk Hk'. congruence. Qed.
Lemma evicted_one a b a' : a !! key_of (bt_ID b) = Some b -> (forall k b', a !! k = Some b' -> (bid_Seq (bt_ID b) <= bid_Seq (bt_ID b'))%N) ->
  evicted (delete (key_of (bt_ID b)) a) a' -> evicted a a'.
Proof.
  intros Hb Hmin [Hsub Ho]. split; [etrans; [exact Hsub|apply delete_subseteq]|]. intros k b1 k' b' Hk Hn Hk'.
  destruct (decide (key_of (bt_ID b) = k)) as [<-|Hne].
  - rewrite Hb in Hk. injection Hk as <-. apply (Hmin k'). exact (lookup_weaken _ _ _ _ (lookup_weaken _ _ _ _ Hk' Hsub) (delete_subseteq _ _)).
  - apply (Ho k _ k'); [by rewrite lookup_delete_ne|done|done].
Qed.

(** What a Put, or one that wakes up, does. *)
Definition put_outcome (a f : batches) (pi pi' : PartitionPrefetchIndex) (b : Batch) (r : put_result) : Prop :=
  match r with
  | PutDone => ((total a + batchSizeBytes b <= maxSizeBytes pi)%Z \/ (bid_Seq (bt_ID b) <= maxPoppedCallSeq pi)%N) /\ exists a', evicted a a' /\ ((total a + batchSizeBytes b <= maxSizeBytes pi)%Z -> a' = a) /\ a' !! key_of (bt_ID b) = None /\
      index_inv (<[key_of (bt_ID b) := b]> a') f pi' /\ same_counters (with_lastPutSeq (bid_Seq (bt_ID b)) pi) pi'
  | PutWaiting => pi' = pi /\ (maxPoppedCallSeq pi < bid_Seq (bt_ID b))%N /\ (maxSizeBytes pi < total a + batchSizeBytes b)%Z /\ cancelled pi = false
  | PutFailed e => (exists a', evicted a a' /\ index_inv a' f pi' /\ same_counters pi pi') /\
      (e = ErrOperationCancelled /\ cancelled pi = true /\ pi' = pi \/ e = ErrBatchAlreadyExists /\ is_Some (a !! key_of (bt_ID b)))
  end.

Lemma Put_loop_spec fuel a f pi b : index_inv a f pi -> in_partition (pi_partition pi) (bt_ID b) -> (batchSizeBytes b <= maxSizeBytes pi)%Z ->
  Len (sequenceHeap pi) < fuel -> exists pi' r, Put_loop fuel pi b = Ok (pi', r) /\ put_outcome a f pi pi' b r.
Proof.
  revert a pi. induction fuel as [|fuel IH]; intros a pi Hi Hp Hb Hl; [lia|]. cbn [Put_loop]. unfold SizeBytes. rewrite (ca_size _ _ _ (ii_cache _ _ _ Hi)).
  destruct (decide _) as [Hfit|Hfit].
  { pose proof (save_spec a f pi b Hi Hp Hfit) as Hsave. destruct (a !! key_of (bt_ID b)) as [b'|] eqn:Ea.
    - rewrite Hsave. cbn [mbind outcome_bind fst snd]. eexists _, _. split; [reflexivity|]. split; [|right; eauto]. exists a. split; [apply evicted_refl|]. split; [done|by split].
    - destruct Hsave as (pi' & -> & Hi' & _ & Hsc). cbn [mbind outcome_bind fst snd]. eexists _, _. split; [reflexivity|]. split; [by left|]. exists a. split; [apply evicted_refl|]. by split. }
  destruct (cancelled pi) eqn:Hcan.
  { eexists _, _. split; [reflexivity|]. split; [|by left]. exists a. split; [apply evicted_refl|]. split; [done|apply same_counters_refl]. }
  destruct (N.ltb_spec (maxPoppedCallSeq pi) (bid_Seq (bt_ID b))) as [Hlt|Hge].
  { eexists _, _. split; [reflexivity|]. split; [done|]. split; [done|]. split; [lia|done]. }
  assert (a <> ∅) as Hne. { intros ->. rewrite total_empty in Hfit. lia. }
  destruct (evict_spec a f pi Hi Hcan Hne) as (b1 & pi1 & -> & Hb1 & Hmin & Hi1 & Hsc1 & Hl1). cbn [mbind outcome_bind fst snd].
  destruct (IH _ pi1 Hi1) as (pi' & r & E & Ho); [by rewrite (sc_partition _ _ Hsc1)|by rewrite (sc_max _ _ Hsc1)|lia|].
  exists pi', r. split; [done|]. destruct r as [|e|]; cbn [put_outcome] in *.
  - destruct Ho as (_ & a' & Hev & _ & Hn & Hi' & Hsc'). split; [by right|]. exists a'. split; [by eapply evicted_one|]. split; [lia|]. split; [done|]. split; [done|].
    destruct Hsc1, Hsc'. split; cbn in *; congruence.
  - destruct Ho as [(a' & Hev & Hi' & Hsc') Hcase]. split; [exists a'; split; [by eapply evicted_one|]; split; [done|by eapply same_counters_trans]|].
    rewrite (sc_cancelled _ _ Hsc1) in Hcase. destruct Hcase as [(_ & ? & _)|[? [x Hx]]]; [congruence|]. right. split; [done|].
    apply lookup_delete_Some in Hx as [_ Hx]. eauto.
  - destruct Ho as (_ & Hlt & _). rewrite (sc_popped _ _ Hsc1) in Hlt. lia.
Qed.
