(* ===== verification/PrefetchThms.v ===== *)
(** * The prefetch index: theorems

    The sections of concurrent calls interleave as steps; the invariant of [PrefetchIndex] holds in every reachable
    index, and no section panics or runs forever. Then what PopOrWait and Put promise to the assembler. *)
From S2P Require Import Prelude Types Events Blocks BatchMapper BatchHeap PrefetchIndex.
From Stdlib Require Import NArith Lia.

Lemma in_partition_id p id id' : in_partition p id -> in_partition p id' -> key_of id = key_of id' -> id = id'.
Proof. destruct id, id'. unfold in_partition, ShardPrimaryFromBatch, key_of. cbn. congruence. Qed.

Lemma cached_id g p c id b : caches g p c -> in_partition p id -> g !! key_of id = Some b -> bt_ID b = id.
Proof. intros Hg Hp Hb. apply (ca_keys _ _ _ Hg) in Hb as [Hk Hb]. by eapply in_partition_id. Qed.

(** ** Remaining operations *)
Lemma stop_timers_spec p fuel a h : heap_inv p a h -> Len h < fuel -> exists h', stop_timers fuel h = Ok h' /\ heap_inv p ∅ h'.
Proof.
  revert a h. induction fuel as [|fuel IH]; intros a h Hi Hl; [lia|]. cbn [stop_timers].
  destruct (Heap_Pop_spec p a h Hi) as [[-> E]|(h' & x & E & _ & _ & Hi')]; rewrite E; cbn [mbind outcome_bind fst snd]; [eauto|].
  apply (IH _ _ Hi'). pose proof (heap_pop_len _ _ _ _ _ Hi E). lia.
Qed.

Lemma drain_spec a f pi : index_inv a f pi -> cancelled pi = true -> exists pi', Stop_drain pi = Ok pi' /\ index_inv a f pi' /\ same_counters pi pi' /\ h_data (sequenceHeap pi') = [].
Proof.
  intros [Hc Hf (hm & Hh & Hsub & Hall) Hs] Hcan. unfold Stop_drain. destruct (stop_timers_spec _ (S (Len (sequenceHeap pi))) _ _ Hh) as (h & -> & Hh'); [lia|].
  cbn [mbind outcome_bind]. eexists. split; [reflexivity|]. split; [|split; [by split|by apply (empty_heap _ _ _ Hh')]]. split; cbn; [done|done| |done].
  exists ∅. split; [done|]. split; [intros k x Hx; by rewrite lookup_empty in Hx|congruence].
Qed.

Lemma inv_counters a f pi pi' : index_inv a f pi -> cache pi' = cache pi -> forcedPutCache pi' = forcedPutCache pi -> sequenceHeap pi' = sequenceHeap pi ->
  pi_partition pi' = pi_partition pi -> maxSizeBytes pi' = maxSizeBytes pi -> (cancelled pi' = false -> cancelled pi = false) -> index_inv a f pi'.
Proof.
  intros [Hc Hf (hm & Hh & Hsub & Hall) Hs] E1 E2 E3 E4 E5 E6. split; rewrite ?E1, ?E2, ?E3, ?E4, ?E5; [done|done| |done]. exists hm. eauto.
Qed.

Lemma force_spec a f pi b : index_inv a f pi -> in_partition (pi_partition pi) (bt_ID b) -> (batchSizeBytes b <= maxSizeBytes pi)%Z ->
  match f !! key_of (bt_ID b) with
  | Some _ => PutForce pi b = Ok (pi, Err ErrBatchAlreadyExists)
  | None => exists pi', PutForce pi b = Ok (pi', Ok tt) /\ index_inv a (<[key_of (bt_ID b) := b]> f) pi' /\ same_counters pi pi'
  end.
Proof.
  intros [Hc Hf Hh Hs] Hp Hsz. unfold PutForce, assertBatchPartition. rewrite (bool_decide_eq_false_2 _ (fun H => H Hp)). cbn [mbind outcome_bind guard_panic].
  destruct (Z.ltb_spec (maxSizeBytes pi) (batchSizeBytes b)) as [|_]; [lia|]. pose proof (Cache_Put_spec f _ _ b Hf Hp) as Hput.
  destruct (f !! key_of (bt_ID b)) as [b'|]; [by rewrite Hput|]. destruct Hput as (c & -> & Hc'). eexists. split; [reflexivity|]. split; [|by split]. by split.
Qed.

Lemma Put_spec a f pi b : index_inv a f pi -> in_partition (pi_partition pi) (bt_ID b) -> (batchSizeBytes b <= maxSizeBytes pi)%Z ->
  match a !! key_of (bt_ID b) with
  | Some _ => Put pi b = Ok (pi, PutFailed ErrBatchAlreadyExists)
  | None => exists pi' r, Put pi b = Ok (pi', r) /\ put_outcome a f (with_lastPutSeqRequest (bid_Seq (bt_ID b)) pi) pi' b r
  end.
Proof.
  intros Hi Hp Hsz. unfold Put, assertBatchPartition. rewrite (bool_decide_eq_false_2 _ (fun H => H Hp)). cbn [mbind outcome_bind guard_panic].
  destruct (Z.ltb_spec (maxSizeBytes pi) (batchSizeBytes b)) as [|_]; [lia|]. rewrite (Cache_Has_spec _ _ _ _ (ii_cache _ _ _ Hi) Hp). cbn [mbind outcome_bind].
  destruct (a !! key_of (bt_ID b)) as [b'|] eqn:Ea; [by rewrite bool_decide_eq_true_2|]. rewrite bool_decide_eq_false_2 by (by intros []).
  apply Put_loop_spec; cbn; [by eapply inv_counters|done|done|lia].
Qed.

Lemma round_spec a f pi id flag : index_inv a f pi -> in_partition (pi_partition pi) id -> cancelled pi = false ->
  match a !! key_of id, f !! key_of id with
  | Some b, _ => exists pi', PopOrWait_round pi id flag = Ok (pi', Popped b) /\ index_inv (delete (key_of id) a) f pi' /\ same_counters pi pi'
  | None, Some b => exists pi', PopOrWait_round pi id flag = Ok (pi', Popped b) /\ index_inv a (delete (key_of id) f) pi' /\ same_counters pi pi'
  | None, None => let ask := negb flag && ((bid_Seq id <? lastPutSeqRequest pi)%N || (bid_Seq id =? lastPutSeq pi)%N) in
      PopOrWait_round pi id flag = Ok (if ask then with_requests (batchRequestChan pi ++ [id]) pi else pi, PopWaiting (flag || ask) (negb (flag || ask)))
  end.
Proof.
  intros Hi Hp Hcan. unfold PopOrWait_round. rewrite Hcan. pose proof (removeUnsafe_spec a f pi id Hi Hp) as Hr.
  destruct (a !! key_of id) as [b|] eqn:Ea.
  - destruct Hr as (pi' & r & -> & Hi' & Hsc & [->|[? _]]); [|congruence]. cbn [mbind outcome_bind]. eauto.
  - destruct (f !! key_of id) as [b|] eqn:Ef.
    + destruct Hr as (pi' & -> & Hi' & Hsc). cbn [mbind outcome_bind]. eauto.
    + rewrite Hr. cbn [mbind outcome_bind]. rewrite bool_decide_eq_true_2 by done. cbn [negb guard_panic]. done.
Qed.

(** ** Interleaving *)
(** The sections that may run next: those of calls that start, of waiting calls, of timers and of Stop. A Put that waits
    has passed the checks before its loop. *)
Inductive index_step (pi : PartitionPrefetchIndex) : PartitionPrefetchIndex -> Prop :=
  | step_pop_begin id pi' : PopOrWait_begin pi id = Ok pi' -> index_step pi pi'
  | step_pop_round id flag pi' r : in_partition (pi_partition pi) id -> PopOrWait_round pi id flag = Ok (pi', r) -> index_step pi pi'
  | step_monitor id : index_step pi (censorship_monitor pi id)
  | step_put b pi' r : Put pi b = Ok (pi', r) -> index_step pi pi'
  | step_put_round b pi' r : in_partition (pi_partition pi) (bt_ID b) -> (batchSizeBytes b <= maxSizeBytes pi)%Z -> Put_round pi b = Ok (pi', r) -> index_step pi pi'
  | step_put_force b pi' r : PutForce pi b = Ok (pi', r) -> index_step pi pi'
  | step_ttl b pi' : in_partition (pi_partition pi) (bt_ID b) -> ttl_expired pi b = Ok pi' -> index_step pi pi'
  | step_cancel : index_step pi (with_cancelled pi)
  | step_drain pi' : cancelled pi = true -> Stop_drain pi = Ok pi' -> index_step pi pi'.

(** No section panics on the identifiers of the partition, and each one ends. *)
Record sections_total (pi : PartitionPrefetchIndex) : Prop := {
  st_begin : forall id, in_partition (pi_partition pi) id -> exists pi', PopOrWait_begin pi id = Ok pi';
  st_round : forall id flag, in_partition (pi_partition pi) id -> exists x, PopOrWait_round pi id flag = Ok x;
  st_put : forall b, in_partition (pi_partition pi) (bt_ID b) -> exists x, Put pi b = Ok x;
  st_put_round : forall b, in_partition (pi_partition pi) (bt_ID b) -> (batchSizeBytes b <= maxSizeBytes pi)%Z -> exists x, Put_round pi b = Ok x;
  st_put_force : forall b, in_partition (pi_partition pi) (bt_ID b) -> exists x, PutForce pi b = Ok x;
  st_ttl : forall b, in_partition (pi_partition pi) (bt_ID b) -> exists pi', ttl_expired pi b = Ok pi';
  st_stop : exists pi', Stop pi = Ok pi'
}.

(** *** Each section keeps the invariant *)
Definition kept (pi pi' : PartitionPrefetchIndex) : Prop :=
  pi_partition pi' = pi_partition pi /\ maxSizeBytes pi' = maxSizeBytes pi /\ exists a f, index_inv a f pi'.

Lemma kept_same a f pi pi' : index_inv a f pi' -> same_counters pi pi' -> kept pi pi'.
Proof. intros Hi Hsc. split; [apply Hsc|]. split; [apply Hsc|eauto]. Qed.

Lemma put_kept a f pi pi0 pi' b r : put_outcome a f pi0 pi' b r -> index_inv a f pi0 -> pi_partition pi0 = pi_partition pi -> maxSizeBytes pi0 = maxSizeBytes pi -> kept pi pi'.
Proof.
  intros Ho Hi0 Ep Em. destruct r as [|e|]; cbn [put_outcome] in Ho.
  - destruct Ho as (_ & a' & _ & _ & _ & Hi & Hsc). destruct Hsc. cbn in *. split; [congruence|]. split; [congruence|eauto].
  - destruct Ho as [(a' & _ & Hi & Hsc) _]. destruct Hsc. split; [congruence|]. split; [congruence|eauto].
  - destruct Ho as [-> _]. split; [done|]. split; [done|eauto].
Qed.

Lemma ttl_kept a f pi id pi' r : index_inv a f pi -> in_partition (pi_partition pi) id -> removeUnsafe pi id = Ok (pi', r) -> kept pi pi'.
Proof.
  intros Hi Hp E. pose proof (removeUnsafe_spec a f pi id Hi Hp) as Hr. rewrite E in Hr. destruct (a !! key_of id); [|destruct (f !! key_of id)].
  - destruct Hr as (pi1 & r1 & Eq & Hi' & Hsc & _). apply Ok_inj in Eq. injection Eq as -> ->. by eapply kept_same.
  - destruct Hr as (pi1 & Eq & Hi' & Hsc). apply Ok_inj in Eq. injection Eq as -> ->. by eapply kept_same.
  - apply Ok_inj in Hr. injection Hr as -> ->. eapply kept_same; [done|apply same_counters_refl].
Qed.

Lemma requests_kept a f pi rs : index_inv a f pi -> kept pi (with_requests rs pi).
Proof. intros Hi. split; [done|]. split; [done|]. exists a, f. by eapply inv_counters. Qed.

Lemma asserted pi id x : assertBatchPartition pi id = Ok x -> in_partition (pi_partition pi) id.
Proof. unfold assertBatchPartition. case_bool_decide as H; cbn [guard_panic]; [done|]. intros _. unfold in_partition. destruct (decide (ShardPrimaryFromBatch id = pi_partition pi)); done. Qed.

Lemma step_kept pi pi' : index_step pi pi' -> (exists a f, index_inv a f pi) -> kept pi pi'.
Proof.
  intros Hstep (a & f & Hi). destruct Hstep as [id pi' E|id flag pi' r Hp E|id|b pi' r E|b pi' r Hp Hsz E|b pi' r E|b pi' Hp E| |pi' Hcan E].
  - apply bind_Ok_inv in E as (u & _ & E). apply Ok_inj in E as <-. destruct (_ <? _)%N; (split; [done|]; split; [done|]; exists a, f; by eapply inv_counters).
  - destruct (cancelled pi) eqn:Hcan; [unfold PopOrWait_round in E; rewrite Hcan in E; apply Ok_inj in E; injection E as <- _; by eapply kept_same, same_counters_refl|].
    pose proof (round_spec a f pi id flag Hi Hp Hcan) as Hr. rewrite E in Hr. destruct (a !! key_of id); [|destruct (f !! key_of id)].
    1,2: destruct Hr as (pi1 & Eq & Hi' & Hsc); apply Ok_inj in Eq; injection Eq as -> _; by eapply kept_same.
    cbn zeta in Hr. apply Ok_inj in Hr. injection Hr as -> _. destruct (_ && _); [by eapply requests_kept|by eapply kept_same, same_counters_refl].
  - by eapply requests_kept.
  - pose proof E as E0. unfold Put in E0. apply bind_Ok_inv in E0 as (u & Hp%asserted & E0). destruct (Z.ltb_spec (maxSizeBytes pi) (batchSizeBytes b)) as [|Hsz].
    { apply Ok_inj in E0. injection E0 as <- _. by eapply kept_same, same_counters_refl. }
    clear E0. pose proof (Put_spec a f pi b Hi Hp Hsz) as Hput. rewrite E in Hput. destruct (a !! key_of (bt_ID b)).
    + apply Ok_inj in Hput. injection Hput as -> _. by eapply kept_same, same_counters_refl.
    + destruct Hput as (pi1 & r1 & Eq & Ho). apply Ok_inj in Eq. injection Eq as -> ->. eapply put_kept; [exact Ho|by eapply inv_counters|done|done].
  - destruct (Put_loop_spec (S (Len (sequenceHeap pi))) a f pi b Hi Hp Hsz) as (pi1 & r1 & Eq & Ho); [lia|]. unfold Put_round in E. rewrite E in Eq.
    apply Ok_inj in Eq. injection Eq as -> ->. by eapply put_kept.
  - pose proof E as E0. unfold PutForce in E0. apply bind_Ok_inv in E0 as (u & Hp%asserted & E0). destruct (Z.ltb_spec (maxSizeBytes pi) (batchSizeBytes b)) as [|Hsz].
    { apply Ok_inj in E0. injection E0 as <- _. by eapply kept_same, same_counters_refl. }
    clear E0. pose proof (force_spec a f pi b Hi Hp Hsz) as Hput. rewrite E in Hput. destruct (f !! key_of (bt_ID b)).
    + apply Ok_inj in Hput. injection Hput as -> _. by eapply kept_same, same_counters_refl.
    + destruct Hput as (pi1 & Eq & Hi' & Hsc). apply Ok_inj in Eq. injection Eq as -> ->. by eapply kept_same.
  - unfold ttl_expired in E. apply bind_Ok_inv in E as ([pi1 r] & E & E'). apply Ok_inj in E' as <-. by eapply ttl_kept.
  - split; [done|]. split; [done|]. exists a, f. by eapply inv_counters.
  - destruct (drain_spec a f pi Hi Hcan) as (pi1 & Eq & Hi' & Hsc & _). rewrite E in Eq. apply Ok_inj in Eq as ->. by eapply kept_same.
Qed.

Lemma inv_total a f pi : index_inv a f pi -> sections_total pi.
Proof.
  intros Hi. split.
  - intros id Hp. unfold PopOrWait_begin, assertBatchPartition. rewrite (bool_decide_eq_false_2 _ (fun H => H Hp)). cbn [mbind outcome_bind guard_panic]. eauto.
  - intros id flag Hp. destruct (cancelled pi) eqn:Hcan; [unfold PopOrWait_round; rewrite Hcan; eauto|]. pose proof (round_spec a f pi id flag Hi Hp Hcan) as Hr.
    destruct (a !! key_of id); [destruct Hr as (? & -> & _); eauto|destruct (f !! key_of id); [destruct Hr as (? & -> & _); eauto|eauto]].
  - intros b Hp. destruct (Z.le_gt_cases (batchSizeBytes b) (maxSizeBytes pi)) as [Hsz|Hsz].
    + pose proof (Put_spec a f pi b Hi Hp Hsz) as Hput. destruct (a !! _); [eauto|]. destruct Hput as (? & ? & -> & _). eauto.
    + unfold Put, assertBatchPartition. rewrite (bool_decide_eq_false_2 _ (fun H => H Hp)). cbn [mbind outcome_bind guard_panic]. rewrite (proj2 (Z.ltb_lt _ _) Hsz). eauto.
  - intros b Hp Hsz. destruct (Put_loop_spec (S (Len (sequenceHeap pi))) a f pi b Hi Hp Hsz) as (? & ? & E & _); [lia|]. unfold Put_round. rewrite E. eauto.
  - intros b Hp. destruct (Z.le_gt_cases (batchSizeBytes b) (maxSizeBytes pi)) as [Hsz|Hsz].
    + pose proof (force_spec a f pi b Hi Hp Hsz) as Hput. destruct (f !! _); [eauto|]. destruct Hput as (? & -> & _). eauto.
    + unfold PutForce, assertBatchPartition. rewrite (bool_decide_eq_false_2 _ (fun H => H Hp)). cbn [mbind outcome_bind guard_panic]. rewrite (proj2 (Z.ltb_lt _ _) Hsz). eauto.
  - intros b Hp. unfold ttl_expired. pose proof (removeUnsafe_spec a f pi _ Hi Hp) as Hr. destruct (a !! _); [|destruct (f !! _)].
    + destruct Hr as (? & ? & -> & _). cbn [mbind outcome_bind]. eauto.
    + destruct Hr as (? & -> & _). cbn [mbind outcome_bind]. eauto.
    + rewrite Hr. cbn [mbind outcome_bind]. eauto.
  - unfold Stop. destruct (drain_spec a f (with_cancelled pi)) as (pi' & -> & _); [by eapply inv_counters|done|eauto].
Qed.

Lemma reachable_inv p max pi : (0 <= max)%Z -> rtc index_step (NewPartitionPrefetchIndex p max) pi ->
  pi_partition pi = p /\ maxSizeBytes pi = max /\ exists a f, index_inv a f pi.
Proof.
  intros Hm. set (P := fun pi => pi_partition pi = p /\ maxSizeBytes pi = max /\ exists a f, index_inv a f pi).
  assert (P (NewPartitionPrefetchIndex p max)) as H0. { split; [done|]. split; [done|]. exists ∅, ∅. by apply index_inv_new. }
  intros Hr. change (P pi). revert H0. generalize (NewPartitionPrefetchIndex p max) Hr. clear Hr. intros pi0 Hr. induction Hr as [|x y z Hs _ IH]; [done|].
  intros (Hp & Hx & Hi). apply IH. destruct (step_kept _ _ Hs Hi) as (E1 & E2 & Hi'). split; [congruence|]. split; [congruence|done].
Qed.

(** ** What the index promises *)
(** C12: In every interleaving of the calls, monitors, timers and Stop, the prefetched batches never exceed the size limit,
    the size counter is exact, until Stop the eviction heap holds exactly the cached batches, and no section that runs
    next on batches of the partition panics or loops. The channel of search requests has no bound here: a send that waits for room in it
    is not a section that loops. *)
Theorem prefetch_index_bounded p max pi :
  (0 <= max)%Z -> rtc index_step (NewPartitionPrefetchIndex p max) pi ->
  (exists a f, index_inv a f pi /\ SizeBytes (cache pi) = total a) /\ (0 <= SizeBytes (cache pi) <= max)%Z /\ sections_total pi.
Proof.
  intros Hm Hr. destruct (reachable_inv p max pi Hm Hr) as (_ & Hmax & a & f & Hi). pose proof (ca_size _ _ _ (ii_cache _ _ _ Hi)) as Hs.
  split; [eauto|]. split; [|by eapply inv_total]. unfold SizeBytes. rewrite Hs. pose proof (ii_size _ _ _ Hi). pose proof (total_nonneg a). lia.
Qed.

(** A round of PopOrWait returns a batch exactly when the batch with this sequence number and digest was prefetched or
    force-put; the returned batch has the requested identifier, and it leaves the index. Otherwise it waits. *)
Theorem pop_returns_requested a f pi id flag :
  index_inv a f pi -> in_partition (pi_partition pi) id -> cancelled pi = false ->
  exists pi' r, PopOrWait_round pi id flag = Ok (pi', r) /\
  match r with
  | Popped b => bt_ID b = id /\ (a !! key_of id = Some b \/ a !! key_of id = None /\ f !! key_of id = Some b) /\
      exists a' f', index_inv a' f' pi' /\ (a' = delete (key_of id) a /\ f' = f \/ a' = a /\ f' = delete (key_of id) f)
  | PopWaiting _ _ => a !! key_of id = None /\ f !! key_of id = None /\ index_inv a f pi'
  | PopFailed _ => False
  end.
Proof.
  intros Hi Hp Hcan. pose proof (round_spec a f pi id flag Hi Hp Hcan) as Hr.
  destruct (a !! key_of id) as [b|] eqn:Ea; [|destruct (f !! key_of id) as [b|] eqn:Ef].
  - destruct Hr as (pi' & E & Hi' & _). exists pi', (Popped b). split; [done|]. split; [exact (cached_id _ _ _ _ _ (ii_cache _ _ _ Hi) Hp Ea)|]. eauto 10.
  - destruct Hr as (pi' & E & Hi' & _). exists pi', (Popped b). split; [done|]. split; [exact (cached_id _ _ _ _ _ (ii_forced _ _ _ Hi) Hp Ef)|]. eauto 10.
  - eexists _, _. split; [exact Hr|]. split; [done|]. split; [done|]. destruct (_ && _); [by eapply inv_counters|done].
Qed.

(** Put returns or waits: a batch over the limit or already cached is refused; otherwise, when there is space the
    batch is added and nothing else changes; when there is none the call waits iff no PopOrWait was called for
    its sequence or a later one, and if one was, batches are evicted in the order of their sequence numbers until the
    batch fits. *)
Theorem put_makes_room a f pi b :
  index_inv a f pi -> in_partition (pi_partition pi) (bt_ID b) -> cancelled pi = false ->
  let fits := (total a + batchSizeBytes b <= maxSizeBytes pi)%Z in
  if decide (maxSizeBytes pi < batchSizeBytes b)%Z then Put pi b = Ok (pi, PutFailed ErrBatchTooLarge) else
  if decide (is_Some (a !! key_of (bt_ID b))) then Put pi b = Ok (pi, PutFailed ErrBatchAlreadyExists) else
  exists pi' r, Put pi b = Ok (pi', r) /\ lastPutSeqRequest pi' = bid_Seq (bt_ID b) /\
  match r with
  | PutDone => (fits \/ (bid_Seq (bt_ID b) <= maxPoppedCallSeq pi)%N) /\ exists a', evicted a a' /\ (fits -> a' = a) /\ index_inv (<[key_of (bt_ID b) := b]> a') f pi'
  | PutWaiting => ~ fits /\ (maxPoppedCallSeq pi < bid_Seq (bt_ID b))%N /\ index_inv a f pi'
  | PutFailed _ => False
  end.
Proof.
  intros Hi Hp Hcan fits. destruct (decide _) as [Hbig|Hsz].
  { unfold Put, assertBatchPartition. rewrite (bool_decide_eq_false_2 _ (fun H => H Hp)). cbn [mbind outcome_bind guard_panic]. by rewrite (proj2 (Z.ltb_lt _ _) Hbig). }
  pose proof (Put_spec a f pi b Hi Hp ltac:(lia)) as Hput. destruct (a !! key_of (bt_ID b)) as [b'|] eqn:Ea.
  { destruct (decide _) as [_|n]; [done|]. destruct n; eauto. }
  destruct (decide _) as [[? ?]|_]; [done|]. destruct Hput as (pi' & r & E & Ho). exists pi', r. split; [done|].
  destruct r as [|e|]; cbn [put_outcome] in Ho.
  - destruct Ho as (Hneed & a' & Hev & Hfit & Hn & Hi' & Hsc). split; [exact (sc_request _ _ Hsc)|]. eauto 10.
  - destruct Ho as [_ [(_ & ? & _)|[_ [x Hx]]]]; [cbn in *; congruence|congruence].
  - destruct Ho as (-> & Hlt & Hgt & _). cbn in *. split; [done|]. split; [unfold fits; lia|]. split; [done|]. by eapply inv_counters.
Qed.

(** No deadlock between a waiting Put and the calls of PopOrWait. While a Put waits for space, a PopOrWait for an earlier
    sequence number does not depend on it: its round returns the batch or requests it at once. A PopOrWait for
    the sequence number of the waiting batch or a later one releases the Put: its next round stores the batch. *)
Theorem waiting_put_released a f pi b pi1 id pi2 :
  index_inv a f pi -> in_partition (pi_partition pi) (bt_ID b) -> cancelled pi = false -> (batchSizeBytes b <= maxSizeBytes pi)%Z ->
  Put pi b = Ok (pi1, PutWaiting) -> PopOrWait_begin pi1 id = Ok pi2 ->
  if decide (bid_Seq id < bid_Seq (bt_ID b))%N
  then exists pi3 r, PopOrWait_round pi2 id false = Ok (pi3, r) /\ (match r with
       | Popped b' => bt_ID b' = id | PopWaiting requested _ => requested = true /\ batchRequestChan pi3 = batchRequestChan pi ++ [id] | PopFailed _ => False end)
  else exists pi3, Put_round pi2 b = Ok (pi3, PutDone).
Proof.
  intros Hi Hp Hcan Hsz E Hb. pose proof (Put_spec a f pi b Hi Hp Hsz) as Hput. rewrite E in Hput.
  destruct (a !! key_of (bt_ID b)) as [b'|] eqn:Ea; [apply Ok_inj in Hput; congruence|]. destruct Hput as (pi1' & r & Eq & Ho).
  apply Ok_inj in Eq. injection Eq as <- <-. destruct Ho as (-> & Hlt & Hgt & _). cbn in Hlt.
  unfold PopOrWait_begin in Hb. apply bind_Ok_inv in Hb as (u & Hid%asserted & Hb). apply Ok_inj in Hb. cbn in Hid, Hb.
  assert (index_inv a f pi2) as Hi2 by (subst pi2; destruct (_ <? _)%N; by eapply inv_counters).
  assert (pi_partition pi2 = pi_partition pi /\ maxSizeBytes pi2 = maxSizeBytes pi /\ cancelled pi2 = false /\ lastPutSeqRequest pi2 = bid_Seq (bt_ID b) /\
    batchRequestChan pi2 = batchRequestChan pi) as (Ep & Em & Ec & El & Er) by (subst pi2; destruct (_ <? _)%N; done).
  destruct (decide _) as [Hbefore|Hlate].
  - pose proof (round_spec a f pi2 id false Hi2 ltac:(by rewrite Ep) Ec) as Hr. rewrite El, (proj2 (N.ltb_lt _ _) Hbefore) in Hr. cbn [negb andb orb] in Hr.
    destruct (a !! key_of id) as [b'|] eqn:Eid; [|destruct (f !! key_of id) as [b'|] eqn:Fid].
    + destruct Hr as (pi3 & -> & _). eexists _, _. split; [done|]. rewrite <-Ep in Hid. exact (cached_id _ _ _ _ _ (ii_cache _ _ _ Hi2) Hid Eid).
    + destruct Hr as (pi3 & -> & _). eexists _, _. split; [done|]. rewrite <-Ep in Hid. exact (cached_id _ _ _ _ _ (ii_forced _ _ _ Hi2) Hid Fid).
    + eexists _, _. split; [exact Hr|]. cbn. by rewrite Er.
  - destruct (Put_loop_spec (S (Len (sequenceHeap pi2))) a f pi2 b Hi2) as (pi3 & r & Eq & Ho); [by rewrite Ep|by rewrite Em|lia|].
    assert (maxPoppedCallSeq pi2 = bid_Seq id) as Hmp. { subst pi2. destruct (N.ltb_spec (maxPoppedCallSeq pi) (bid_Seq id)); [done|lia]. }
    unfold Put_round. rewrite Eq. destruct r as [|e|]; [eauto| |].
    + destruct Ho as [_ [(_ & ? & _)|[_ [x Hx]]]]; congruence.
    + destruct Ho as (_ & Hlt' & _). rewrite Hmp in Hlt'. lia.
Qed.

(** ** Witnesses *)
Module Samples.
Definition partition : ShardPrimary := mkPartition 1 2.
(** A batch of eight bytes. *)
Definition batch (seq : N) : Batch := mkBatch (mkBatchID 1 2 seq []) [repeat Byte.x61 8].
Definition empty : PartitionPrefetchIndex := NewPartitionPrefetchIndex partition 10.
Definition one : PartitionPrefetchIndex := match Put empty (batch 1) with Ok (pi, _) => pi | _ => empty end.
Definition waiting : PartitionPrefetchIndex := match Put one (batch 2) with Ok (pi, _) => pi | _ => one end.

Lemma one_inv : index_inv (<[key_of (bt_ID (batch 1)) := batch 1]> ∅) ∅ one.
Proof.
  pose proof (Put_spec ∅ ∅ empty (batch 1) (index_inv_new partition 10 ltac:(done)) eq_refl ltac:(by vm_compute)) as Hput. rewrite lookup_empty in Hput.
  destruct Hput as (pi' & r & E & Ho). assert (Put empty (batch 1) = Ok (one, PutDone)) as E' by (vm_compute; reflexivity).
  rewrite E' in E. apply Ok_inj in E. injection E as <- <-. destruct Ho as (_ & a' & [Hsub _] & _ & _ & Hi & _).
  assert (a' = ∅) as -> by (apply (anti_symm (⊆)); [done|apply map_empty_subseteq]). done.
Qed.
End Samples.
Import Samples.

(** The flag that limits a call to one request is set only when its monitor fires, and every round that waits before that
    schedules another monitor: here a call wakes up once for another batch, and its two monitors both request its batch. *)
Theorem repeated_monitors :
  let id := bt_ID (batch 5) in
  exists pi1 pi2 pi3 pi4, PopOrWait_begin empty id = Ok pi1 /\ PopOrWait_round pi1 id false = Ok (pi2, PopWaiting false true) /\
    Put pi2 (batch 1) = Ok (pi3, PutDone) /\ PopOrWait_round pi3 id false = Ok (pi4, PopWaiting false true) /\
    batchRequestChan (censorship_monitor (censorship_monitor pi4 id) id) = [id; id].
Proof. eexists _, _, _, _. repeat (split; [vm_compute; reflexivity|]). vm_compute. reflexivity. Qed.

Lemma prefetch_index_bounded_witness : (SizeBytes (cache one) <= 10)%Z.
Proof.
  apply (prefetch_index_bounded partition 10 one); [done|]. apply rtc_once. eapply (step_put _ (batch 1) _ PutDone). vm_compute. reflexivity.
Defined.

Lemma pop_returns_requested_witness : exists pi' r, PopOrWait_round one (bt_ID (batch 1)) false = Ok (pi', r) /\ match r with Popped b => bt_ID b = bt_ID (batch 1) | _ => True end.
Proof.
  destruct (pop_returns_requested _ _ one (bt_ID (batch 1)) false one_inv eq_refl eq_refl) as (pi' & r & E & H). exists pi', r. split; [exact E|]. destruct r; [apply H|done|done].
Defined.

Lemma put_makes_room_witness : exists pi' r, Put one (batch 2) = Ok (pi', r) /\ lastPutSeqRequest pi' = 2%N.
Proof.
  pose proof (put_makes_room _ _ one (batch 2) one_inv eq_refl eq_refl) as H. cbn zeta in H.
  rewrite decide_False in H by (vm_compute; congruence). rewrite decide_False in H by (vm_compute; by intros []). destruct H as (pi' & r & E & Hs & _). exists pi', r. split; [exact E|exact Hs].
Defined.

Lemma waiting_put_released_witness : exists pi3, Put_round (with_maxPopped 2 waiting) (batch 2) = Ok (pi3, PutDone).
Proof.
  exact (waiting_put_released _ _ one (batch 2) waiting (bt_ID (batch 2)) (with_maxPopped 2 waiting) one_inv eq_refl eq_refl ltac:(by vm_compute) ltac:(vm_compute; reflexivity) ltac:(vm_compute; reflexivity)).
Defined.
