(* ===== verification/FabricBatch.v ===== *)
(** * Batches as blocks, and the batcher's ledger

    [src/node/ledger/batch_encoding.go]: a batch is stored as a Fabric block, with the shard, the primary and the config
    sequence in its metadata; the name of a ledger tells its shard and primary.
    [src/node/ledger/batch_ledger_part.go] and batch_ledger_array.go: one ledger per primary. *)
From S2P Require Import Prelude Types Events Blocks Ledger BatchMapper Sample SampleBlocks.
From Stdlib Require Import NArith Lia.
From Stdlib Require Import DecimalString DecimalN DecimalFacts Decimal Ascii.

(** ** FabricBatch *)
Definition partyShardConfigSequenceSize : nat := 2 + 2 + 8.

Definition ordererMetadata (m : list bytes) : bytes :=
  match m !! BlockMetadataIndex_ORDERER with
  | None => []
  | Some buff => if decide (length buff < partyShardConfigSequenceSize) then [] else buff
  end.

Definition FB_Digest (b : Block) : bytes := match b_Header b with Some h => bh_DataHash h | None => [] end.
Definition FB_Requests (b : Block) : list bytes := default [] (b_Data b).
Definition FB_Seq (b : Block) : BatchSequence := match b_Header b with Some h => bh_Number h | None => 0%N end.
Definition FB_buff (b : Block) : bytes := ordererMetadata (default [] (b_Metadata b)).
Definition FB_Primary (b : Block) : PartyID := if decide (length (FB_buff b) = 0) then 0%N else be_get (sub 2 4 (FB_buff b)).
Definition FB_Shard (b : Block) : ShardID := if decide (length (FB_buff b) = 0) then 0%N else be_get (sub 0 2 (FB_buff b)).
(** [binary.BigEndian.Uint64] reads the first eight bytes of the rest. *)
Definition FB_ConfigSequence (b : Block) : ConfigSequence := if decide (length (FB_buff b) = 0) then 0%N else be_get (sub 4 12 (FB_buff b)).
Definition FB_PrimarySignature (b : Block) : slice := default [] (b_Metadata b) !! BlockMetadataIndex_SIGNATURES.

(** The block seen as the types.Batch of the assembler. *)
Definition Batch_of_block (b : Block) : Batch := mkBatch (mkBatchID (FB_Shard b) (FB_Primary b) (FB_Seq b) (FB_Digest b)) (FB_Requests b).

Definition NewFabricBatchFromRequests (shardID : ShardID) (partyID : PartyID) (seq : BatchSequence) (batchedRequests : list bytes)
    (digest : bytes) (configSeq : ConfigSequence) (prevHash primarySignature : bytes) : Block :=
  let buff := be_put 2 shardID ++ be_put 2 partyID ++ be_put 8 configSeq in
  mkBlock (Some (mkBlockHeader seq prevHash digest)) (Some batchedRequests) (Some [primarySignature; []; []; buff; []]).

Definition NewFabricBatchFromBlock (block : option Block) : outcome Block :=
  block ← of_option "empty block" block;
  _ ← of_option "empty block header" (b_Header block);
  _ ← of_option "empty block data" (b_Data block);
  m ← of_option "empty block metadata" (b_Metadata block);
  fail_if bool_decide (length m = 0) with "empty block metadata" ;;
  fail_if bool_decide (length m <= BlockMetadataIndex_ORDERER) with "missing orderer metadata" ;;
  buff ← index m BlockMetadataIndex_ORDERER;
  fail_if bool_decide (length buff < partyShardConfigSequenceSize) with "bad orderer metadata" ;;
  Ok block.

(** ** Channel names *)
(** [%d] of an unsigned number, and strconv.ParseUint(s, 10, 16). *)
Definition print_uint (n : N) : string := NilZero.string_of_uint (N.to_uint n).
Definition ParseUint16 (s : string) : outcome N :=
  d ← of_option "invalid syntax" (NilZero.uint_of_string s);
  let n := N.of_uint d in
  fail_if (u16_max <? n)%N with "value out of range" ;;
  Ok n.

(** strings.CutPrefix and strings.Cut: around the first occurrence of the separator. *)
Fixpoint CutPrefix (s prefix : string) {struct prefix} : option string :=
  match prefix, s with
  | EmptyString, _ => Some s
  | String p prefix', String c s' => if decide (p = c) then CutPrefix s' prefix' else None
  | String _ _, EmptyString => None
  end.
Fixpoint Cut (s sep : string) : option (string * string) :=
  match CutPrefix s sep with
  | Some rest => Some (EmptyString, rest)
  | None =>
      match s with
      | EmptyString => None
      | String c s' => match Cut s' sep with Some (before, after) => Some (String c before, after) | None => None end
      end
  end.

(** configtx.ValidateChannelID, of a library. *)
Class ChannelIDs := { ValidateChannelID : string -> bool }.

Section Names.
Context `{ChannelIDs}.

Definition ShardPartyChannelIDToChannelName (shardID : ShardID) (partyID : PartyID) (channelID : string) : string :=
  String.append "shard" (String.append (print_uint shardID) (String.append "party" (String.append (print_uint partyID) (String.append "-" channelID)))).

Definition ChannelNameToShardPartyChannelID (channelName : string) : outcome (ShardID * PartyID * string) :=
  s ← of_option "channel name does not start with 'shard'" (CutPrefix channelName "shard");
  c ← of_option "channel name does not contain 'party'" (Cut s "party");
  let '(shard, rest) := c in
  shardID ← wrap_err "cannot extract 'shardID' from channel name" (ParseUint16 shard);
  c ← of_option "channel name does not contain the '-<channelID>' suffix" (Cut rest "-");
  let '(partyStr, channelID) := c in
  partyID ← wrap_err "cannot extract 'partyID' from channel name" (ParseUint16 partyStr);
  fail_if negb (ValidateChannelID channelID) with "cannot extract 'channelID' from channel name" ;;
  Ok (shardID, partyID, channelID).
End Names.

(** ** The ledger parts *)
Section Parts.
Context `{BlockCodecs} `{Sha256} `{ChannelIDs}.

Record BatchLedgerPart := mkPart {
  lp_shardID : ShardID;
  lp_partyID : PartyID;
  lp_primaryPartyID : PartyID;
  lp_ledger : list Block;
  lp_prevHash : bytes
}.

(** The block storage provider: the ledgers on disk by name; opening creates a missing one. *)
Abbreviation provider := (gmap string (list Block)).
Definition Open (disk : provider) (name : string) : list Block := default [] (disk !! name).

Definition newBatchLedgerPart (disk : provider) (shardID : ShardID) (partyID primaryPartyID : PartyID) (channelID : string) : outcome BatchLedgerPart :=
  let fl := Open disk (ShardPartyChannelIDToChannelName shardID primaryPartyID channelID) in
  prevHash ← (if decide (Height fl = 0%N) then Ok [] else
    block ← wrap_err "failed retrieving last block" (RetrieveBlockByNumber fl (Height fl - 1));
    header ← deref (b_Header block);
    BlockHeaderHash header);
  Ok (mkPart shardID partyID primaryPartyID fl prevHash).

Definition Part_Append (b : BatchLedgerPart) (seq : BatchSequence) (configSeq : ConfigSequence) (batchedRequests : list bytes)
    (digest primarySignature : bytes) : outcome BatchLedgerPart :=
  let block := NewFabricBatchFromRequests (lp_shardID b) (lp_primaryPartyID b) seq batchedRequests digest configSeq (lp_prevHash b) primarySignature in
  header ← deref (b_Header block);
  prevHash ← BlockHeaderHash header;
  ledger ← or_panic (addBlock (lp_ledger b) block);
  Ok (mkPart (lp_shardID b) (lp_partyID b) (lp_primaryPartyID b) ledger prevHash).

Definition Part_Height (b : BatchLedgerPart) : N := Height (lp_ledger b).
Definition Part_RetrieveBatchByNumber (b : BatchLedgerPart) (seq : N) : option Block :=
  match RetrieveBlockByNumber (lp_ledger b) seq with Ok block => Some block | _ => None end.

(** ** The array of the parts *)
Record BatchLedgerArray := mkArray {
  bla_shardID : ShardID;
  bla_partyID : PartyID;
  bla_channelID : string;
  bla_ledgerParts : gmap PartyID BatchLedgerPart
}.

Fixpoint open_parts (disk : provider) (shardID : ShardID) (partyID : PartyID) (channelID : string) (parties : list PartyID)
    (parts : gmap PartyID BatchLedgerPart) : outcome (gmap PartyID BatchLedgerPart) :=
  match parties with
  | [] => Ok parts
  | primaryPartyID :: rest =>
      part ← newBatchLedgerPart disk shardID partyID primaryPartyID channelID;
      open_parts disk shardID partyID channelID rest (<[primaryPartyID := part]> parts)
  end.

(** The parts of primaries that are no longer configured. *)
Fixpoint open_names (disk : provider) (shardID : ShardID) (partyID : PartyID) (channelID : string) (names : list string)
    (parts : gmap PartyID BatchLedgerPart) : outcome (gmap PartyID BatchLedgerPart) :=
  match names with
  | [] => Ok parts
  | name :: rest =>
      c ← ChannelNameToShardPartyChannelID name;
      let primaryPartyID := c.1.2 in
      match parts !! primaryPartyID with
      | Some _ => open_names disk shardID partyID channelID rest parts
      | None =>
          part ← newBatchLedgerPart disk shardID partyID primaryPartyID channelID;
          open_names disk shardID partyID channelID rest (<[primaryPartyID := part]> parts)
      end
  end.

(** [names] is what the provider lists: the ledgers on disk, with those that were just opened. *)
Definition NewBatchLedgerArray (disk : provider) (names : list string) (shardID : ShardID) (partyID : PartyID) (parties : list PartyID)
    (channelID : string) : outcome BatchLedgerArray :=
  fail_if negb (bool_decide (partyID ∈ parties)) with "partyID not in parties" ;;
  parts ← open_parts disk shardID partyID channelID parties ∅;
  parts ← open_names disk shardID partyID channelID names parts;
  Ok (mkArray shardID partyID channelID parts).

Definition ledger_part (bla : BatchLedgerArray) (partyID : PartyID) : outcome BatchLedgerPart :=
  match bla_ledgerParts bla !! partyID with Some part => Ok part | None => Panic "partyID does not exist" end.
Definition Array_Height (bla : BatchLedgerArray) (partyID : PartyID) : outcome N := part ← ledger_part bla partyID; Ok (Part_Height part).
Definition Array_Append (bla : BatchLedgerArray) (partyID : PartyID) (batchSeq : BatchSequence) (configSeq : ConfigSequence)
    (batchedRequests : list bytes) (digest primarySignature : bytes) : outcome BatchLedgerArray :=
  part ← ledger_part bla partyID;
  part ← Part_Append part batchSeq configSeq batchedRequests digest primarySignature;
  Ok (mkArray (bla_shardID bla) (bla_partyID bla) (bla_channelID bla) (<[partyID := part]> (bla_ledgerParts bla))).
Definition Array_RetrieveBatchByNumber (bla : BatchLedgerArray) (partyID : PartyID) (seq : N) : outcome (option Block) :=
  part ← ledger_part bla partyID; Ok (Part_RetrieveBatchByNumber part seq).
End Parts.

(** * Batches as blocks: theorems

    What is written to a batch ledger is read back, also after a restart; the names of ledgers are unambiguous. *)

(** ** Printing and cutting *)
Fixpoint avoids (c : Ascii.ascii) (s : string) : Prop :=
  match s with EmptyString => True | String x s' => x <> c /\ avoids c s' end.

Lemma append_cons x s t : String.append (String x s) t = String x (String.append s t).
Proof. done. Qed.

Lemma CutPrefix_append prefix s : CutPrefix (String.append prefix s) prefix = Some s.
Proof. induction prefix as [|p prefix IH]; [done|]. rewrite append_cons. cbn [CutPrefix]. by rewrite decide_True. Qed.

Lemma Cut_avoids s c sep rest : avoids c s -> Cut (String.append s (String.append (String c sep) rest)) (String c sep) = Some (s, rest).
Proof.
  induction s as [|x s IH]; cbn [avoids].
  - intros _. change (String.append "" ?t) with t. pose proof (CutPrefix_append (String c sep) rest) as E. rewrite append_cons in *. cbn [Cut]. by rewrite E.
  - intros [Hx Hs]. rewrite append_cons. cbn [Cut CutPrefix]. rewrite decide_False by done. rewrite (IH Hs). done.
Qed.

Lemma digits_avoid c d : (forall x, x ∈ ["0"; "1"; "2"; "3"; "4"; "5"; "6"; "7"; "8"; "9"]%char -> x <> c) -> avoids c (NilEmpty.string_of_uint d).
Proof. intros Hc. induction d; cbn [NilEmpty.string_of_uint avoids]; [done|..]; (split; [apply Hc; set_solver|done]). Qed.

Lemma print_avoids c n : (forall x, x ∈ ["0"; "1"; "2"; "3"; "4"; "5"; "6"; "7"; "8"; "9"]%char -> x <> c) -> avoids c (print_uint n).
Proof.
  intros Hc. unfold print_uint, NilZero.string_of_uint. destruct (N.to_uint n) eqn:E; rewrite <-?E; try by apply digits_avoid.
  cbn [avoids]. split; [apply Hc; set_solver|done].
Qed.

Lemma to_uint_nonnil n : N.to_uint n <> Nil.
Proof. intros E. pose proof (DecimalN.Unsigned.to_of (N.to_uint n)) as H. rewrite DecimalN.Unsigned.of_to, E in H. cbn in H. congruence. Qed.

Lemma ParseUint16_print n : (n <= u16_max)%N -> ParseUint16 (print_uint n) = Ok n.
Proof.
  intros Hn. unfold ParseUint16, print_uint. rewrite NilZero.usu by apply to_uint_nonnil. cbn [of_option mbind outcome_bind].
  rewrite DecimalN.Unsigned.of_to. destruct (N.ltb_spec u16_max n); [lia|done].
Qed.

Ltac not_digit := let x := fresh in intros x; rewrite !elem_of_cons, elem_of_nil; intros Hx; destruct_or?; subst; try done; congruence.

Section Names.
Context `{ChannelIDs}.

(** The name of a ledger is parsed back to its shard, primary and channel. *)
Lemma parse_name s p c : (s <= u16_max)%N -> (p <= u16_max)%N -> ValidateChannelID c = true ->
  ChannelNameToShardPartyChannelID (ShardPartyChannelIDToChannelName s p c) = Ok (s, p, c).
Proof.
  intros Hs Hp Hc. unfold ChannelNameToShardPartyChannelID, ShardPartyChannelIDToChannelName. rewrite CutPrefix_append. cbn [of_option mbind outcome_bind].
  rewrite Cut_avoids by (apply print_avoids; not_digit). cbn [of_option mbind outcome_bind]. rewrite ParseUint16_print by done. cbn [wrap_err mbind outcome_bind].
  rewrite Cut_avoids by (apply print_avoids; not_digit). cbn [of_option mbind outcome_bind]. rewrite ParseUint16_print by done. cbn [wrap_err mbind outcome_bind].
  by rewrite Hc.
Qed.

Lemma name_inj s p c s' p' c' : (s <= u16_max)%N -> (p <= u16_max)%N -> (s' <= u16_max)%N -> (p' <= u16_max)%N ->
  ValidateChannelID c = true -> ValidateChannelID c' = true ->
  ShardPartyChannelIDToChannelName s p c = ShardPartyChannelIDToChannelName s' p' c' -> s = s' /\ p = p' /\ c = c'.
Proof. intros Hs Hp Hs' Hp' Hc Hc' E. pose proof (parse_name s p c Hs Hp Hc) as P. rewrite E, parse_name in P by done. by simplify_eq. Qed.
End Names.

(** ** The encoding *)
(** What is encoded in a block is read back. *)
Record encodes (b : Block) (shardID : ShardID) (partyID : PartyID) (seq : BatchSequence) (reqs : list bytes) (digest : bytes) (configSeq : ConfigSequence)
    (sig : bytes) : Prop := {
  en_batch : Batch_of_block b = mkBatch (mkBatchID shardID partyID seq digest) reqs;
  en_configSeq : FB_ConfigSequence b = configSeq;
  en_signature : FB_PrimarySignature b = Some sig;
  en_accepted : NewFabricBatchFromBlock (Some b) = Ok b
}.

Lemma fabric_batch_encodes s p seq reqs dg cs ph sig : (s <= u16_max)%N -> (p <= u16_max)%N -> (cs <= u64_max)%N ->
  encodes (NewFabricBatchFromRequests s p seq reqs dg cs ph sig) s p seq reqs dg cs sig.
Proof.
  intros Hs Hp Hcs. set (b := NewFabricBatchFromRequests s p seq reqs dg cs ph sig). pose proof (length_be_put 2 s) as L1. pose proof (length_be_put 2 p) as L2. pose proof (length_be_put 8 cs) as L3.
  assert (FB_buff b = be_put 2 s ++ be_put 2 p ++ be_put 8 cs) as Eb.
  { set (buff := be_put 2 s ++ be_put 2 p ++ be_put 8 cs). change (FB_buff b) with (if decide (length buff < partyShardConfigSequenceSize) then [] else buff).
    apply decide_False. unfold buff. rewrite !length_app, L1, L2, L3. unfold partyShardConfigSequenceSize. lia. }
  assert (length (FB_buff b) = 12) as El by (rewrite Eb, !length_app, L1, L2, L3; done).
  assert (sub 0 2 (FB_buff b) = be_put 2 s) as E1 by (apply (sub_mid [] _ (be_put 2 p ++ be_put 8 cs)); [exact Eb|done|rewrite L1; done]).
  assert (sub 2 4 (FB_buff b) = be_put 2 p) as E2 by (apply (sub_mid (be_put 2 s) _ (be_put 8 cs)); [exact Eb|by rewrite L1|rewrite L2; done]).
  assert (sub 4 12 (FB_buff b) = be_put 8 cs) as E3.
  { apply (sub_mid (be_put 2 s ++ be_put 2 p) _ []); [by rewrite Eb, List.app_nil_r, <-app_assoc|by rewrite length_app, L1, L2|rewrite L3; done]. }
  split.
  - unfold Batch_of_block, FB_Shard, FB_Primary. rewrite El, E1, E2. rewrite !decide_False by lia. by rewrite !be_get_put2 by done.
  - unfold FB_ConfigSequence. rewrite El, E3. rewrite decide_False by lia. by rewrite be_get_put8.
  - done.
  - set (buff := be_put 2 s ++ be_put 2 p ++ be_put 8 cs) in *. assert (length buff = 12) as Lb by (unfold buff; by rewrite !length_app, L1, L2, L3).
    change (NewFabricBatchFromBlock (Some b)) with (guard_err (bool_decide (length buff < partyShardConfigSequenceSize)) "bad orderer metadata" (Ok b)).
    rewrite bool_decide_eq_false_2; [done|]. rewrite Lb. unfold partyShardConfigSequenceSize. lia.
Qed.

(** ** Parts *)
Section Parts.
Context `{BlockCodecs} `{Sha256} `{ChannelIDs}.

(** The part's previous hash is that of its last block. *)
Record part_ok (part : BatchLedgerPart) : Prop := {
  po_chain : chain_ok (lp_ledger part);
  po_prev : CurrentBlockHash (lp_ledger part) = Ok (lp_prevHash part)
}.

(** The ledgers of an array on disk. *)
Definition saved (bla : BatchLedgerArray) : gmap string (list Block) :=
  list_to_map ((fun x => (ShardPartyChannelIDToChannelName (bla_shardID bla) x.1 (bla_channelID bla), lp_ledger x.2)) <$> map_to_list (bla_ledgerParts bla)).

Record array_ok (bla : BatchLedgerArray) : Prop := {
  ao_shard : (bla_shardID bla <= u16_max)%N;
  ao_channel : ValidateChannelID (bla_channelID bla) = true;
  ao_parts : forall p part, bla_ledgerParts bla !! p = Some part ->
    part_ok part /\ lp_shardID part = bla_shardID bla /\ lp_primaryPartyID part = p /\ lp_partyID part = bla_partyID bla /\ (p <= u16_max)%N
}.

Lemma last_block (l : list Block) b : last l = Some b -> Height l <> 0%N /\ RetrieveBlockByNumber l (Height l - 1) = Ok b.
Proof.
  intros E. rewrite last_lookup in E. pose proof (lookup_lt_Some _ _ _ E). unfold Height, RetrieveBlockByNumber. split; [lia|].
  replace (N.to_nat (N.of_nat (length l) - 1)) with (pred (length l)) by lia. by rewrite E.
Qed.

(** Opening a part computes the hash that the part had. *)
Lemma open_part disk s party p c l prev : Open disk (ShardPartyChannelIDToChannelName s p c) = l -> CurrentBlockHash l = Ok prev ->
  newBatchLedgerPart disk s party p c = Ok (mkPart s party p l prev).
Proof.
  intros E Hh. unfold newBatchLedgerPart. rewrite E. unfold CurrentBlockHash in Hh. destruct (last l) as [b|] eqn:El.
  - destruct (last_block l b El) as [Hn ->]. rewrite decide_False by done. cbn [wrap_err mbind outcome_bind]. destruct (deref (b_Header b)) as [h| |]; cbn [mbind outcome_bind] in *; [|done..].
    by rewrite Hh.
  - apply last_None in El as ->. apply Ok_inj in Hh as <-. done.
Qed.

Lemma saved_lookup bla p part : array_ok bla -> bla_ledgerParts bla !! p = Some part ->
  Open (saved bla) (ShardPartyChannelIDToChannelName (bla_shardID bla) p (bla_channelID bla)) = lp_ledger part.
Proof.
  intros [Hs Hc Hp] E. unfold Open, saved. erewrite (elem_of_list_to_map_1' _ _ (lp_ledger part)); [done| |].
  - intros y Hy. apply list_elem_of_fmap in Hy as ([q part'] & Eq & Hin). apply elem_of_map_to_list in Hin. apply pair_equal_spec in Eq as [En ->]. cbn [fst snd] in *.
    apply name_inj in En as (_ & -> & _); [congruence|done|by apply Hp in E as (_ & _ & _ & _ & ?)|done|by apply Hp in Hin as (_ & _ & _ & _ & ?)|done|done].
  - apply list_elem_of_fmap. exists (p, part). split; [done|]. by apply elem_of_map_to_list.
Qed.

Lemma Part_Append_spec part seq cs reqs dg sig part' : part_ok part -> Part_Append part seq cs reqs dg sig = Ok part' ->
  let b := NewFabricBatchFromRequests (lp_shardID part) (lp_primaryPartyID part) seq reqs dg cs (lp_prevHash part) sig in
  seq = Part_Height part /\ lp_ledger part' = lp_ledger part ++ [b] /\ part_ok part' /\
  lp_shardID part' = lp_shardID part /\ lp_partyID part' = lp_partyID part /\ lp_primaryPartyID part' = lp_primaryPartyID part.
Proof.
  intros [Hc Hp] E b. unfold Part_Append in E. fold b in E. apply bind_Ok_inv in E as (h & Hh & E). apply bind_Ok_inv in E as (ph & Hph & E). apply bind_Ok_inv in E as (l & Hl & E).
  apply Ok_inj in E as <-. fold (Append (lp_ledger part) b) in Hl. pose proof (Append_chain _ _ _ Hc Hl) as Hc'. apply Append_Ok in Hl as (-> & h' & Hh' & Hn & _).
  unfold b in Hh. cbn [NewFabricBatchFromRequests b_Header deref] in Hh. apply Ok_inj in Hh as <-. unfold b in Hh'. cbn [NewFabricBatchFromRequests b_Header] in Hh'. injection Hh' as <-.
  split; [exact Hn|]. split; [done|]. split; [|done]. split; [done|]. cbn [lp_ledger lp_prevHash]. unfold CurrentBlockHash. rewrite last_snoc. exact Hph.
Qed.

(** What appending to the part of a primary guarantees. *)
Lemma Array_Append_spec bla p seq cs reqs dg sig bla' :
  array_ok bla -> (cs <= u64_max)%N -> Array_Append bla p seq cs reqs dg sig = Ok bla' ->
  array_ok bla' /\ Array_Height bla p = Ok seq /\ Array_Height bla' p = Ok (seq + 1)%N /\
  (exists b, Array_RetrieveBatchByNumber bla' p seq = Ok (Some b) /\ encodes b (bla_shardID bla) p seq reqs dg cs sig) /\
  (forall q n b, Array_RetrieveBatchByNumber bla q n = Ok (Some b) -> Array_RetrieveBatchByNumber bla' q n = Ok (Some b)) /\
  (forall q part, bla_ledgerParts bla' !! q = Some part -> newBatchLedgerPart (saved bla') (bla_shardID bla') (bla_partyID bla') q (bla_channelID bla') = Ok part).
Proof.
  intros Hok Hcs E. unfold Array_Append in E. apply bind_Ok_inv in E as (part & Hpart & E). apply bind_Ok_inv in E as (part' & Happ & E). apply Ok_inj in E.
  unfold ledger_part in Hpart. destruct (bla_ledgerParts bla !! p) as [part0|] eqn:Ep; [|done]. apply Ok_inj in Hpart as ->.
  destruct (ao_parts _ Hok _ _ Ep) as (Hpo & Hsh & Hpr & Hpa & Hp16). apply Part_Append_spec in Happ as (-> & Hled & Hpo' & Esh & Epa & Epr); [|done].
  assert (array_ok bla') as Hok'. { subst bla'. split; [apply Hok|apply Hok|]. cbn [bla_ledgerParts bla_shardID bla_partyID]. intros q part1 [[<- <-]|[_ Hq]]%lookup_insert_Some; [|by apply Hok].
    split; [done|]. cbn. split; [congruence|]. split; [congruence|]. split; [congruence|done]. }
  assert (bla_ledgerParts bla' !! p = Some part') as Ep' by (subst bla'; apply lookup_insert_eq).
  split; [done|]. split; [unfold Array_Height, ledger_part; by rewrite Ep|].
  split; [unfold Array_Height, ledger_part, Part_Height, Height; rewrite Ep'; cbn [mbind outcome_bind]; rewrite Hled, length_app; cbn [length]; f_equal; lia|]. split; [|split].
  - rewrite <-Hsh, <-Hpr. eexists. split; [|by eapply fabric_batch_encodes; [rewrite Hsh; apply Hok|rewrite Hpr|]].
    unfold Array_RetrieveBatchByNumber, ledger_part. rewrite Hpr, Ep'. cbn [mbind outcome_bind]. unfold Part_RetrieveBatchByNumber, RetrieveBlockByNumber, Part_Height, Height.
    rewrite Hled, Nnat.Nat2N.id, list_lookup_middle by done. rewrite Hpr. done.
  - intros q n b Hq. unfold Array_RetrieveBatchByNumber, ledger_part in *. destruct (decide (q = p)) as [->|Hne].
    + rewrite Ep' . rewrite Ep in Hq. cbn [mbind outcome_bind] in *. apply Ok_inj in Hq. f_equal. unfold Part_RetrieveBatchByNumber, RetrieveBlockByNumber in *. rewrite Hled.
      destruct (lp_ledger part !! N.to_nat n) as [b'|] eqn:Eb; [|done]. by rewrite (lookup_app_l_Some _ _ _ _ Eb).
    + subst bla'. cbn [bla_ledgerParts]. by rewrite lookup_insert_ne.
  - intros q part1 Hq. pose proof (ao_parts _ Hok' _ _ Hq) as ([_ Hprev] & Es & Er & Epar & _).
    rewrite (open_part _ _ _ _ _ _ _ (saved_lookup bla' q part1 Hok' Hq) Hprev). destruct part1. cbn in *. by subst.
Qed.

(** A batch that a batcher stores is durable. Appending to the part of a primary succeeds only with the next sequence
    number; the stored block gives back the shard, primary, sequence, digest, requests, config sequence and signature,
    and is accepted by the assembler's decoder; the batches stored before stay readable; and after a restart every
    part is opened with the ledger and the previous hash it had. *)
Theorem batch_ledger_durable bla p seq cs reqs dg sig bla' :
  array_ok bla -> (cs <= u64_max)%N -> Array_Append bla p seq cs reqs dg sig = Ok bla' ->
  array_ok bla' /\ Array_Height bla p = Ok seq /\ Array_Height bla' p = Ok (seq + 1)%N /\
  (exists b, Array_RetrieveBatchByNumber bla' p seq = Ok (Some b) /\ encodes b (bla_shardID bla) p seq reqs dg cs sig) /\
  (forall q n b, Array_RetrieveBatchByNumber bla q n = Ok (Some b) -> Array_RetrieveBatchByNumber bla' q n = Ok (Some b)) /\
  (forall q part, bla_ledgerParts bla' !! q = Some part -> newBatchLedgerPart (saved bla') (bla_shardID bla') (bla_partyID bla') q (bla_channelID bla') = Ok part).
Proof. apply Array_Append_spec. Qed.
End Parts.


(** ** Witnesses *)
#[local] Existing Instance sample_blocks.
#[local] Existing Instance sample_sha.
Definition sample_channels : ChannelIDs := {| ValidateChannelID := fun _ => true |}.
#[local] Existing Instance sample_channels.

Definition sample_array : BatchLedgerArray :=
  match NewBatchLedgerArray ∅ [] 1 2 [1; 2; 3]%N "arma" with Ok bla => bla | _ => mkArray 1 2 "arma" ∅ end.

Lemma sample_array_ok : array_ok sample_array.
Proof.
  assert (sample_array = mkArray 1 2 "arma" (<[3%N := mkPart 1 2 3 [] []]> (<[2%N := mkPart 1 2 2 [] []]> (<[1%N := mkPart 1 2 1 [] []]> ∅)))) as -> by (vm_compute; reflexivity).
  split; [done|done|]. cbn [bla_ledgerParts bla_shardID bla_partyID].
  assert (forall p, part_ok (mkPart 1 2 p [] [])) as Hp by (intros p; split; [apply chain_ok_nil|done]).
  intros p part [[<- <-]|[_ [[<- <-]|[_ [[<- <-]|[_ E]]%lookup_insert_Some]]%lookup_insert_Some]]%lookup_insert_Some; [done..|by rewrite lookup_empty in E].
Qed.

Lemma batch_ledger_durable_witness : exists bla' b, Array_Append sample_array 3 0 7 [[Byte.x61]] [Byte.x62] [Byte.x63] = Ok bla' /\
  Array_RetrieveBatchByNumber bla' 3 0 = Ok (Some b) /\ FB_Requests b = [[Byte.x61]].
Proof.
  destruct (Array_Append sample_array 3 0 7 [[Byte.x61]] [Byte.x62] [Byte.x63]) as [bla'| |] eqn:E; [|vm_compute in E; discriminate E..].
  destruct (batch_ledger_durable sample_array 3 0 7 [[Byte.x61]] [Byte.x62] [Byte.x63] bla' sample_array_ok ltac:(by vm_compute) E) as (_ & _ & _ & (b & Hb & He) & _).
  exists bla', b. split; [reflexivity|]. split; [exact Hb|]. exact (f_equal bt_Requests (en_batch _ _ _ _ _ _ _ _ He)).
Defined.
