(* ===== verification/Assembler.v ===== *)
(** * The assembler

    [src/node/ledger/assembler_ledger.go] (the ledger of ordered blocks), [src/node/delivery/consensus_ba_deliver_client.go]
    (from decisions to ordered batch attestations, with recovery), [src/node/assembler/collator.go] (attestations are
    paired with batches and appended), and the checks of a fetched batch in [src/node/assembler/batch_fetcher.go]. *)
From S2P Require Import Prelude Types Events State Blocks Ledger StateCodec Consensus BatchMapper FabricBatch.
From Stdlib Require Import NArith Lia.

(** ** The assembler's ledger *)
(** The blocks and the counters that updateMetrics keeps, without the estimated size of whole blocks. *)
Record AssemblerLedger := mkAL {
  al_Ledger : list Block;
  al_TransactionCount : N;
  al_TransactionsSize : N;
  al_BlocksCount : N
}.

(** types.AssemblerConsensusPosition: where to continue in the sequence of decisions. *)
Record Position := mkPosition { pos_DecisionNum : DecisionNum; pos_BatchIndex : N }.
#[export] Instance Position_eq_dec : EqDecision Position.
Proof. solve_decision. Defined.

Record AvailableBatchOrdered := mkABO { abo_AvailableBatch : AvailableBatch.t; abo_OrderingInformation : OrderingInformation }.

(** What the collator needs of the index: a batch it returns is the requested one. *)
Class AssemblerIndex := {
  PopOrWait : BatchID -> outcome Batch;
  PopOrWait_id : forall id b, PopOrWait id = Ok b -> bt_ID b = id
}.

Definition BatchID_of_available (ab : AvailableBatch.t) : BatchID :=
  mkBatchID (AvailableBatch.shard ab) (AvailableBatch.primary ab) (AvailableBatch.seq ab) (AvailableBatch.digest ab).

Section Assembler.
Context `{FabricCodecs} `{BlockCodecs} `{StateCodecs} `{BFTCodecs} `{Sha256}.

Definition sum_lengths (l : list bytes) : N := foldl (fun n (d : bytes) => n + N.of_nat (length d))%N 0%N l.

Definition updateMetrics (l : AssemblerLedger) (ledger : list Block) (block : Block) : AssemblerLedger :=
  let data := default [] (b_Data block) in
  mkAL ledger (al_TransactionCount l + N.of_nat (length data)) (al_TransactionsSize l + sum_lengths data) (al_BlocksCount l + 1).

Definition AppendBlock (l : AssemblerLedger) (block : Block) : outcome AssemblerLedger :=
  ledger ← or_panic (addBlock (al_Ledger l) block);
  Ok (updateMetrics l ledger block).

(** The signatures for the block, and the orderer metadata of the first signed message. *)
Fixpoint arrange (sigs : list MetadataSignature) (ordererBlockMetadata : option bytes) (signatures : list Signature)
    : outcome (list MetadataSignature * option bytes) :=
  match signatures with
  | [] => Ok (sigs, ordererBlockMetadata)
  | s :: rest =>
      msg ← or_panic (unmarshal (slice_bytes (sig_Msg s)) : outcome MessageToSign);
      arrange (sigs ++ [mkMetadataSignature [] (slice_bytes (sig_Value s)) (mts_IdentifierHeader msg)])
        (match ordererBlockMetadata with None => Some (mts_OrdererBlockMetadata msg) | m => m end) rest
  end.
Definition arrangeSignatures (orderingInfo : OrderingInformation) : outcome (list MetadataSignature * option bytes) :=
  arrange [] None (oi_Signatures orderingInfo).

Definition AL_Append (l : AssemblerLedger) (batch : Batch) (ordInfo : OrderingInformation) : outcome AssemblerLedger :=
  commonBlock ← deref (oi_CommonBlock ordInfo);
  let blockToAppend := mkBlock (b_Header commonBlock) (Some (bt_Requests batch)) (b_Metadata commonBlock) in
  r ← arrangeSignatures ordInfo;
  let '(sigs, ordererBlockMetadata) := r in
  md ← marshal_or_panic (mkMetadata (default [] ordererBlockMetadata) sigs);
  blockToAppend ← set_metadata BlockMetadataIndex_SIGNATURES md blockToAppend;
  AppendBlock l blockToAppend.

Definition AppendConfig (l : AssemblerLedger) (orderingInfo : OrderingInformation) : outcome AssemblerLedger :=
  match oi_CommonBlock orderingInfo with
  | None => Panic "attempting to AppendConfig with nil block"
  | Some configBlock =>
      panic_if negb (IsConfigBlock configBlock) with "attempting to AppendConfig a block which is not a config block" ;;
      r ← arrangeSignatures orderingInfo;
      let '(sigs, ordererBlockMetadata) := r in
      configBlock ← (if decide (sigs = []) then Ok configBlock else
        md ← marshal_or_panic (mkMetadata (default [] ordererBlockMetadata) sigs);
        set_metadata BlockMetadataIndex_SIGNATURES md configBlock);
      AppendBlock l configBlock
  end.

Definition LastOrderingInfo (l : AssemblerLedger) : outcome (option OrderingInformation) :=
  let h := Height (al_Ledger l) in
  if (h =? 0)%N then Ok None else
  block ← RetrieveBlockByNumber (al_Ledger l) (h - 1);
  r ← AssemblerBatchIdOrderingInfoAndTxCountFromBlock (Some block);
  Ok (Some r.1.2).

(** ** The batch frontier *)
Abbreviation BatchFrontier := (gmap ShardID (gmap PartyID BatchSequence)).

(** Block [h - 1] is scanned when [h] is given. [expired] tells whether the deadline passed after recording a batch of
    block [h - 1]. *)
Fixpoint frontier_scan (ledger : list Block) (shards : list ShardID) (parties : list PartyID) (expired : nat -> bool) (h : nat) (count : Z)
    (shardParty2Seq : BatchFrontier) : outcome BatchFrontier :=
  match h with
  | 0 => Ok shardParty2Seq
  | S h' =>
      block ← RetrieveBlockByNumber ledger (N.of_nat h');
      r ← AssemblerBatchIdOrderingInfoAndTxCountFromBlock (Some block);
      let ab := r.1.1 in
      let shard := AvailableBatch.shard ab in
      let primary := AvailableBatch.primary ab in
      if ((shard =? ShardIDConsensus) || (primary =? 0))%N then frontier_scan ledger shards parties expired h' count shardParty2Seq else
      if negb (bool_decide (primary ∈ parties)) || negb (bool_decide (shard ∈ shards)) then frontier_scan ledger shards parties expired h' count shardParty2Seq else
      let m := default ∅ (shardParty2Seq !! shard) in
      match m !! primary with
      | Some _ => frontier_scan ledger shards parties expired h' count (<[shard := m]> shardParty2Seq)
      | None =>
          let shardParty2Seq := <[shard := <[primary := AvailableBatch.seq ab]> m]> shardParty2Seq in
          let count := (count - 1)%Z in
          if (count =? 0)%Z then Ok shardParty2Seq else
          if expired h' then Ok shardParty2Seq else
          frontier_scan ledger shards parties expired h' count shardParty2Seq
      end
  end.

Definition BatchFrontier_of (l : AssemblerLedger) (shards : list ShardID) (parties : list PartyID) (expired : nat -> bool) : outcome (option BatchFrontier) :=
  if (Height (al_Ledger l) =? 0)%N then Ok None else
  f ← frontier_scan (al_Ledger l) shards parties expired (length (al_Ledger l)) (Z.of_nat (length shards * length parties)) ∅;
  Ok (Some f).

(** protoutil: from the signed orderer metadata, or for old blocks from the last config entry. *)
Definition GetLastConfigIndexFromBlock (block : Block) : outcome N :=
  m ← wrap_err "failed to retrieve metadata" (GetMetadataFromBlock block BlockMetadataIndex_SIGNATURES);
  if decide (length (md_Value m) = 0) then
    m ← wrap_err "failed to retrieve metadata" (GetMetadataFromBlock block BlockMetadataIndex_LAST_CONFIG);
    lc ← wrap_err "error unmarshalling LastConfig" (unmarshal (md_Value m) : outcome LastConfig);
    Ok (lc_Index lc)
  else
    obm ← wrap_err "failed to unmarshal orderer block metadata" (unmarshal (md_Value m) : outcome OrdererBlockMetadata);
    Ok (obm_LastConfig obm).

Definition GetLastConfigIndexFromAssemblerLedger (l : AssemblerLedger) : outcome N :=
  let ledgerHeight := Height (al_Ledger l) in
  fail_if (ledgerHeight =? 0)%N with "assembler ledger is empty" ;;
  lastBlock ← wrap_err "failed to retrieve last block from assembler ledger" (RetrieveBlockByNumber (al_Ledger l) (ledgerHeight - 1));
  wrap_err "failed to get last config index from assebmler's last block" (GetLastConfigIndexFromBlock lastBlock).

Definition GetLastConfigBlockFromAssemblerLedger (l : AssemblerLedger) : outcome Block :=
  lastConfigIndex ← wrap_err "failed to get last config block" (GetLastConfigIndexFromAssemblerLedger l);
  wrap_err "failed to get last config block" (RetrieveBlockByNumber (al_Ledger l) lastConfigIndex).

(** ** From decisions to ordered batch attestations *)
Definition createAssemblerConsensusPosition (oi : option OrderingInformation) : Position :=
  match oi with
  | None => mkPosition 0 0
  | Some oi =>
      if (oi_BatchIndex oi + 1 =? oi_BatchCount oi)%N then mkPosition (u64_incr (oi_DecisionNum oi)) 0
      else mkPosition (oi_DecisionNum oi) (oi_BatchIndex oi + 1)
  end.

Definition extractHeaderAndSigsFromBlock (block : option Block) : outcome (Header * list (list Signature)) :=
  b ← of_option "block is nil" block;
  bh ← of_option "block header is nil" (b_Header b);
  decision ← wrap_err "failed to extract decision from consenter block" (ConsenterBlockToDecision block);
  header ← wrap_err "failed to deserialize proposal header from block" (Header_Deserialize (p_Header (d_Proposal decision)));
  if (bh_Number bh =? 0)%N then Ok (header, [[]]) else
  sigs ← wrap_err "failed to extract header signatures from compound signature" (UnpackBlockHeaderSigs (d_Signatures decision) (length (h_AvailableCommonBlocks header)));
  Ok (header, sigs).

(** One available common block of a decision. *)
Definition ordered_batch (header : Header) (sigs : list (list Signature)) (i : nat) (acb : Block) : outcome AvailableBatchOrdered :=
  md ← deref (b_Metadata acb);
  raw ← index md BlockMetadataIndex_ORDERER;
  t ← or_panic (AssemblerBlockMetadataFromBytes (Some raw));
  let '(primary, shard, seq, _, _, _, _) := t in
  bh ← deref (b_Header acb);
  blockSigs ← index sigs i;
  Ok (mkABO (AvailableBatch.mk primary shard seq (bh_DataHash bh))
        (mkOI (Some acb) blockSigs (h_Num header) (N.of_nat i) (N.of_nat (length (h_AvailableCommonBlocks header))))).

(** Those committed before are skipped. *)
Definition skipped (initPosition : Position) (abo : AvailableBatchOrdered) : bool :=
  (oi_DecisionNum (abo_OrderingInformation abo) =? pos_DecisionNum initPosition)%N &&
  (oi_BatchIndex (abo_OrderingInformation abo) <? pos_BatchIndex initPosition)%N.

Fixpoint handle_batches (initPosition : Position) (header : Header) (sigs : list (list Signature)) (i : nat) (blocks : list Block)
    : outcome (list AvailableBatchOrdered) :=
  match blocks with
  | [] => Ok []
  | acb :: rest =>
      abo ← ordered_batch header sigs i acb;
      more ← handle_batches initPosition header sigs (S i) rest;
      Ok (if skipped initPosition abo then more else abo :: more)
  end.

Definition handleBlock (initPosition : Position) (block : Block) : outcome (list AvailableBatchOrdered) :=
  r ← or_panic (extractHeaderAndSigsFromBlock (Some block));
  handle_batches initPosition r.1 r.2 0 (h_AvailableCommonBlocks r.1).

(** The decisions the deliver service sends for NextSeekInfo of a decision number. *)
Definition decisions_from (decisions : list Block) (start : DecisionNum) : list Block := drop (N.to_nat start) decisions.

(** What a connection opened at [start] delivers, with the initial position of the replicator. *)
Definition delivered (initPosition : Position) (decisions : list Block) (start : DecisionNum) : outcome (list AvailableBatchOrdered) :=
  bs ← omapM (handleBlock initPosition) (decisions_from decisions start); Ok (concat bs).

(** The first connection of Replicate: both positions are those of the ledger. *)
Definition Replicate (l : AssemblerLedger) (decisions : list Block) : outcome (list AvailableBatchOrdered) :=
  oi ← or_panic (LastOrderingInfo l);
  let position := createAssemblerConsensusPosition oi in
  delivered position decisions (pos_DecisionNum position).

(** ** The collator *)
Context `{AssemblerIndex}.

Inductive collator_exit := Running | Reconfiguring (configBlock : Block) | Cancelled.

Definition collate_one (configBlockNumber : N) (l : AssemblerLedger) (oba : AvailableBatchOrdered) : outcome (AssemblerLedger * collator_exit) :=
  let orderingInfo := abo_OrderingInformation oba in
  if (AvailableBatch.shard (abo_AvailableBatch oba) =? ShardIDConsensus)%N then
    l ← AppendConfig l orderingInfo;
    block ← deref (oi_CommonBlock orderingInfo);
    let number := match b_Header block with Some h => bh_Number h | None => 0%N end in
    Ok (l, if (configBlockNumber <? number)%N then Reconfiguring block else Running)
  else
    match PopOrWait (BatchID_of_available (abo_AvailableBatch oba)) with
    | Ok batch => l ← AL_Append l batch orderingInfo; Ok (l, Running)
    | Err e => if decide (e = ErrOperationCancelled) then Ok (l, Cancelled) else Panic "Something went wrong while fetching the batch"
    | Panic e => Panic e
    end.

Fixpoint processOrderedBatchAttestations (configBlockNumber : N) (l : AssemblerLedger) (obas : list AvailableBatchOrdered)
    : outcome (AssemblerLedger * collator_exit) :=
  match obas with
  | [] => Ok (l, Running)
  | oba :: rest =>
      r ← collate_one configBlockNumber l oba;
      match r.2 with
      | Running => processOrderedBatchAttestations configBlockNumber r.1 rest
      | _ => Ok r
      end
  end.

(** ** Fetching a single batch *)
(** What pullSingleBatch makes of the block that a batcher sent; [None] is a nil result. *)
Definition check_pulled (batchID : BatchID) (block : option Block) : option Batch :=
  match NewFabricBatchFromBlock block with
  | Ok fb =>
      if negb (bool_decide (ComputeBlockDataHash (FB_Requests fb) = FB_Digest fb)) then None
      else if negb (BatchIDEqual (bt_ID (Batch_of_block fb)) batchID) then None
      else Some (Batch_of_block fb)
  | _ => None
  end.

(** The loop of GetBatch over the results in the order they arrive; the list ends where the fetcher is stopped. *)
Definition context_Canceled : gerror := "context canceled".
Fixpoint GetBatch_results (batchID : BatchID) (batchers count : nat) (results : list (option Batch)) : outcome Batch :=
  match results with
  | [] => Err context_Canceled
  | fb :: rest =>
      let count := S count in
      match fb with
      | Some b => if BatchIDEqual (bt_ID b) batchID then Ok b
                  else if decide (count = batchers) then Err "failed finding batchID within shard" else GetBatch_results batchID batchers count rest
      | None => if decide (count = batchers) then Err "failed finding batchID within shard" else GetBatch_results batchID batchers count rest
      end
  end.
(** GetBatch with the configured shards and the number of their batchers, and what the batchers answered. *)
Definition GetBatch (shards : list (ShardID * nat)) (batchID : BatchID) (pulled : list (option Block)) : outcome Batch :=
  match List.find (fun sh => (sh.1 =? bid_Shard batchID)%N) shards with
  | None => Err "failed finding shard within config"
  | Some (_, batchers) => GetBatch_results batchID batchers 0 (check_pulled batchID <$> pulled)
  end.
End Assembler.
