(* ===== verification/AssemblerThms.v ===== *)
(** * The assembler: theorems

    The assembler's ledger follows the decisions of consensus: through crashes and restarts each ordered batch becomes
    exactly one block, in order, and the scan for the batch frontier finds the last batch of every primary. *)
From S2P Require Import Prelude Types Events State Blocks Ledger StateCodec Consensus BatchMapper FabricBatch Assembler.
From Stdlib Require Import NArith Lia.

(** ** Lists *)
Lemma lookup_concat {A} (ll : list (list A)) k x : concat ll !! k = Some x ->
  exists i j l, ll !! i = Some l /\ l !! j = Some x /\ drop (S k) (concat ll) = drop (S j) l ++ concat (drop (S i) ll).
Proof.
  revert k. induction ll as [|l ll IH]; intros k; cbn [concat]; [by rewrite lookup_nil|]. intros [Hl|[Hge Hr]]%lookup_app_Some.
  - exists 0, k, l. split; [done|]. split; [done|]. rewrite drop_app_le by (apply lookup_lt_Some in Hl; lia). done.
  - destruct (IH _ Hr) as (i & j & l' & Hi & Hj & E). exists (S i), j, l'. split; [done|]. split; [done|].
    rewrite drop_app_ge by lia. replace (S k - length l) with (S (k - length l)) by lia. done.
Qed.

Lemma concat_mono {A} (ll ll' : list (list A)) : ll `prefix_of` ll' -> concat ll `prefix_of` concat ll'.
Proof. intros [k ->]. rewrite concat_app. by apply prefix_app_r. Qed.

Lemma omapM_app {A B} (f : A -> outcome B) l1 l2 r : omapM f (l1 ++ l2) = Ok r ->
  exists r1 r2, omapM f l1 = Ok r1 /\ omapM f l2 = Ok r2 /\ r = r1 ++ r2.
Proof.
  revert r. induction l1 as [|a l1 IH]; intros r; cbn [omapM app]; [intros E; by exists [], r|].
  intros E. apply bind_Ok_inv in E as (b & Hb & E). apply bind_Ok_inv in E as (bs & Hbs & E). apply Ok_inj in E as <-.
  destruct (IH _ Hbs) as (r1 & r2 & E1 & E2 & ->). exists (b :: r1), r2. rewrite Hb. cbn [mbind outcome_bind]. rewrite E1. done.
Qed.

Lemma omapM_drop {A B} (f : A -> outcome B) n l r : omapM f l = Ok r -> omapM f (drop n l) = Ok (drop n r).
Proof.
  revert l r. induction n as [|n IH]; intros l r E; [done|]. destruct l as [|a l]; cbn [omapM] in E; [by apply Ok_inj in E as <-|].
  apply bind_Ok_inv in E as (b & Hb & E). apply bind_Ok_inv in E as (bs & Hbs & E). apply Ok_inj in E as <-. cbn [drop]. by apply IH.
Qed.

Lemma omapM_lookup {A B} (f : A -> outcome B) l r i a b : omapM f l = Ok r -> l !! i = Some a -> r !! i = Some b -> f a = Ok b.
Proof.
  revert r i. induction l as [|a' l IH]; intros r i E Ha Hb; [by rewrite lookup_nil in Ha|]. cbn [omapM] in E.
  apply bind_Ok_inv in E as (b' & Hb' & E). apply bind_Ok_inv in E as (bs & Hbs & E). apply Ok_inj in E as <-. destruct i as [|i]; cbn in *; [congruence|by eapply IH].
Qed.

Lemma omapM_length {A B} (f : A -> outcome B) l r : omapM f l = Ok r -> length r = length l.
Proof.
  revert r. induction l as [|a l IH]; intros r E; cbn [omapM] in E; [by apply Ok_inj in E as <-|].
  apply bind_Ok_inv in E as (b & Hb & E). apply bind_Ok_inv in E as (bs & Hbs & E). apply Ok_inj in E as <-. cbn. by rewrite (IH _ Hbs).
Qed.

Lemma omapM_map {A B C} (f : A -> outcome B) (g : A -> outcome C) (h : B -> C) l r : omapM f l = Ok r ->
  (forall i a b, l !! i = Some a -> r !! i = Some b -> g a = Ok (h b)) -> omapM g l = Ok (h <$> r).
Proof.
  revert r. induction l as [|a l IH]; intros r E Hg; cbn [omapM] in *; [by apply Ok_inj in E as <-|].
  apply bind_Ok_inv in E as (b & Hb & E). apply bind_Ok_inv in E as (bs & Hbs & E). apply Ok_inj in E as <-.
  rewrite (Hg 0 a b eq_refl eq_refl). cbn [mbind outcome_bind]. rewrite (IH bs Hbs); [done|]. intros i. exact (Hg (S i)).
Qed.

Section Assembler.
Context `{FabricCodecs} `{BlockCodecs} `{StateCodecs} `{BFTCodecs} `{Sha256} `{AssemblerIndex}.

(** ** Appending *)
Lemma AppendBlock_spec l block l' : AppendBlock l block = Ok l' ->
  Append (al_Ledger l) block = Ok (al_Ledger l') /\ al_Ledger l' = al_Ledger l ++ [block] /\
  al_TransactionCount l' = (al_TransactionCount l + N.of_nat (length (default [] (b_Data block))))%N.
Proof.
  unfold AppendBlock. intros E. apply bind_Ok_inv in E as (ledger & Ha & E). apply Ok_inj in E as <-. cbn [updateMetrics al_Ledger al_TransactionCount].
  fold (Append (al_Ledger l) block) in Ha. split; [done|]. split; [by apply Append_Ok in Ha as [-> _]|done].
Qed.

Lemma set_metadata_Ok i v b b' : set_metadata i v b = Ok b' ->
  exists md, b_Metadata b = Some md /\ i < length md /\ b' = mkBlock (b_Header b) (b_Data b) (Some (<[i := v]> md)).
Proof.
  unfold set_metadata. intros E. apply bind_Ok_inv in E as (md & Hmd & E). apply guard_panic_Ok in E as [G%bool_decide_eq_false E]. apply Ok_inj in E as <-.
  destruct (b_Metadata b); [|done]. cbn in Hmd. apply Ok_inj in Hmd as ->. exists md. split; [done|]. split; [lia|done].
Qed.

(** The signatures of the ordering information name their signers. *)
Definition identified (s : Signature) : Prop :=
  exists msg idh, (unmarshal (slice_bytes (sig_Msg s)) : outcome MessageToSign) = Ok msg /\ (unmarshal (mts_IdentifierHeader msg) : outcome IdentifierHeader) = Ok idh.

Lemma arrange_spec sigs obm signatures r : arrange sigs obm signatures = Ok r ->
  exists more, r.1 = sigs ++ more /\ length more = length signatures /\ (Forall identified signatures -> Forall (fun m => is_ok (metadata_signature m)) more).
Proof.
  revert sigs obm. induction signatures as [|s rest IH]; intros sigs obm E; cbn [arrange] in E.
  - apply Ok_inj in E as <-. exists []. rewrite app_nil_r. split; [done|]. split; [done|constructor].
  - apply bind_Ok_inv in E as (msg & Hm%or_panic_Ok & E). destruct (IH _ _ E) as (more & Hr & Hl & Hi). exists (mkMetadataSignature [] (slice_bytes (sig_Value s)) (mts_IdentifierHeader msg) :: more).
    split; [by rewrite Hr, <-app_assoc|]. split; [cbn; by rewrite Hl|]. intros [(msg' & idh & Hm' & Hidh) Hrest]%Forall_cons. rewrite Hm in Hm'. apply Ok_inj in Hm' as <-.
    constructor; [|by apply Hi]. unfold metadata_signature. cbn [ms_IdentifierHeader]. rewrite Hidh. done.
Qed.

Lemma read_signatures more : Forall (fun m => is_ok (metadata_signature m)) more -> exists bs, omapM metadata_signature more = Ok bs.
Proof.
  induction 1 as [|m more Hm _ [bs IH]]; cbn [omapM]; [eauto|]. destruct (metadata_signature m); [|done..]. cbn [mbind outcome_bind]. rewrite IH. cbn [mbind outcome_bind]. eauto.
Qed.

(** *** What the ordering information of a common block must be for the stored block to be read back *)
Record readable (oba : AvailableBatchOrdered) : Prop := {
  rd_block : exists cb md raw primary shard seq bC tC,
    oi_CommonBlock (abo_OrderingInformation oba) = Some cb /\ b_Metadata cb = Some md /\ md !! BlockMetadataIndex_ORDERER = Some raw /\
    AssemblerBlockMetadataFromBytes (Some raw) = Ok (primary, shard, seq, oi_DecisionNum (abo_OrderingInformation oba), oi_BatchIndex (abo_OrderingInformation oba), bC, tC) /\
    ((oi_BatchIndex (abo_OrderingInformation oba) + 1)%N = bC -> (oi_BatchIndex (abo_OrderingInformation oba) + 1)%N = oi_BatchCount (abo_OrderingInformation oba)) /\
    (oi_Signatures (abo_OrderingInformation oba) = [] -> exists m bs, GetMetadataFromBlock cb BlockMetadataIndex_SIGNATURES = Ok m /\ omapM metadata_signature (md_Signatures m) = Ok bs);
  rd_signatures : Forall identified (oi_Signatures (abo_OrderingInformation oba))
}.

(** The stored block of an attestation: the header and metadata of the ordered common block, with the signatures set, and
    the requests of the attested batch or the config transaction. *)
Record block_of (oba : AvailableBatchOrdered) (b : Block) : Prop := {
  bo_header : exists cb, oi_CommonBlock (abo_OrderingInformation oba) = Some cb /\ b_Header b = b_Header cb /\
    (forall i, i <> BlockMetadataIndex_SIGNATURES -> default [] (b_Metadata b) !! i = default [] (b_Metadata cb) !! i) /\
    (AvailableBatch.shard (abo_AvailableBatch oba) = ShardIDConsensus -> IsConfigBlock cb = true /\ b_Data b = b_Data cb);
  bo_data : AvailableBatch.shard (abo_AvailableBatch oba) <> ShardIDConsensus ->
    exists batch, b_Data b = Some (bt_Requests batch) /\ bt_ID batch = BatchID_of_available (abo_AvailableBatch oba);
  bo_read : readable oba -> exists r, AssemblerBatchIdOrderingInfoAndTxCountFromBlock (Some b) = Ok r /\
    oi_DecisionNum r.1.2 = oi_DecisionNum (abo_OrderingInformation oba) /\ oi_BatchIndex r.1.2 = oi_BatchIndex (abo_OrderingInformation oba) /\
    (oi_BatchIndex r.1.2 + 1 = oi_BatchCount r.1.2 -> oi_BatchIndex r.1.2 + 1 = oi_BatchCount (abo_OrderingInformation oba))%N
}.

Lemma read_block b h md raw m bs pr sh seq num bI bC tC :
  b_Header b = Some h -> b_Metadata b = Some md -> md !! BlockMetadataIndex_ORDERER = Some raw ->
  AssemblerBlockMetadataFromBytes (Some raw) = Ok (pr, sh, seq, num, bI, bC, tC) ->
  GetMetadataFromBlock b BlockMetadataIndex_SIGNATURES = Ok m -> omapM metadata_signature (md_Signatures m) = Ok bs ->
  AssemblerBatchIdOrderingInfoAndTxCountFromBlock (Some b) = Ok (AvailableBatch.mk pr sh seq (bh_DataHash h), mkOI (Some b) bs num bI bC, tC).
Proof.
  intros Hh Hmd Hraw Ht Hm Hbs. unfold AssemblerBatchIdOrderingInfoAndTxCountFromBlock. cbn [of_option mbind outcome_bind]. rewrite Hh, Hmd. cbn [of_option mbind outcome_bind].
  pose proof (lookup_lt_Some _ _ _ Hraw). unfold BlockMetadataIndex_ORDERER in *. rewrite bool_decide_eq_false_2 by lia. cbn [guard_err]. rewrite bool_decide_eq_false_2 by lia. cbn [guard_err].
  unfold index. rewrite Hraw. cbn [mbind outcome_bind]. rewrite Ht. cbn [wrap_err mbind outcome_bind]. rewrite Hm. cbn [wrap_err mbind outcome_bind]. by rewrite Hbs.
Qed.

Lemma read_signed b md raw (m : Metadata) : b_Metadata b = Some (<[BlockMetadataIndex_SIGNATURES := raw]> md) -> BlockMetadataIndex_SIGNATURES < length md ->
  marshal_or_panic m = Ok raw -> GetMetadataFromBlock b BlockMetadataIndex_SIGNATURES = Ok m.
Proof.
  intros Hmd Hl Hm. unfold GetMetadataFromBlock. rewrite Hmd. cbn [of_option mbind outcome_bind]. rewrite bool_decide_eq_false_2 by (rewrite length_insert; lia). cbn [guard_err].
  unfold index. rewrite list_lookup_insert_eq by done. cbn [mbind outcome_bind]. by rewrite (unmarshal_marshal _ _ Hm).
Qed.

(** Reading back a block whose signatures were set from the ordering information. *)
Lemma read_stored oba cb b data md r sm ledger ledger' :
  oi_CommonBlock (abo_OrderingInformation oba) = Some cb -> arrangeSignatures (abo_OrderingInformation oba) = Ok r ->
  marshal_or_panic (mkMetadata (default [] r.2) r.1) = Ok sm -> b_Metadata cb = Some md -> BlockMetadataIndex_SIGNATURES < length md ->
  b = mkBlock (b_Header cb) data (Some (<[BlockMetadataIndex_SIGNATURES := sm]> md)) -> Append ledger b = Ok ledger' ->
  readable oba -> exists r, AssemblerBatchIdOrderingInfoAndTxCountFromBlock (Some b) = Ok r /\
    oi_DecisionNum r.1.2 = oi_DecisionNum (abo_OrderingInformation oba) /\ oi_BatchIndex r.1.2 = oi_BatchIndex (abo_OrderingInformation oba) /\
    (oi_BatchIndex r.1.2 + 1 = oi_BatchCount r.1.2 -> oi_BatchIndex r.1.2 + 1 = oi_BatchCount (abo_OrderingInformation oba))%N.
Proof.
  intros Hcb Hr Hsm Hmd Hl -> Ha [(cb' & md' & raw' & pr & sh & seq & bC & tC & Hcb' & Hmd' & Hraw & Ht & Hcount & _) Hids].
  rewrite Hcb in Hcb'. injection Hcb' as <-. rewrite Hmd in Hmd'. injection Hmd' as <-. apply Append_Ok in Ha as (_ & h & Hh & _).
  apply arrange_spec in Hr as (more & Er & _ & Hok). rewrite app_nil_l in Er. specialize (Hok Hids). destruct (read_signatures more Hok) as [bs Hbs].
  eexists. split; [eapply read_block; [exact Hh|done| |exact Ht|by eapply read_signed|cbn [md_Signatures]; rewrite Er; exact Hbs]|].
  - rewrite list_lookup_insert_ne; [exact Hraw|done].
  - cbn. done.
Qed.

Lemma AL_Append_spec l batch oba l' : AL_Append l batch (abo_OrderingInformation oba) = Ok l' ->
  AvailableBatch.shard (abo_AvailableBatch oba) <> ShardIDConsensus -> bt_ID batch = BatchID_of_available (abo_AvailableBatch oba) ->
  exists b, AppendBlock l b = Ok l' /\ block_of oba b.
Proof.
  intros E Hsh Hid. unfold AL_Append in E. apply bind_Ok_inv in E as (cb & Hcb & E). apply bind_Ok_inv in E as (r & Hr & E). destruct r as [sigs obm] eqn:Er.
  apply bind_Ok_inv in E as (sm & Hsm & E). apply bind_Ok_inv in E as (b & Hb & E). apply set_metadata_Ok in Hb as (md & Hmd & Hl & Eb). cbn [b_Header b_Data b_Metadata] in *.
  destruct (oi_CommonBlock (abo_OrderingInformation oba)) as [cb'|] eqn:Ecb; [|done]. cbn in Hcb. apply Ok_inj in Hcb as ->.
  exists b. split; [done|]. pose proof (AppendBlock_spec _ _ _ E) as (Ha & _). split.
  - exists cb. split; [done|]. subst b. cbn. split; [done|]. split; [|done]. intros i Hi. rewrite Hmd. cbn. by rewrite list_lookup_insert_ne.
  - intros _. exists batch. by subst b.
  - eapply (read_stored oba cb b); [exact Ecb|exact Hr|cbn; exact Hsm|exact Hmd|exact Hl|exact Eb|exact Ha].
Qed.

Lemma AppendConfig_spec l oba l' : AppendConfig l (abo_OrderingInformation oba) = Ok l' ->
  AvailableBatch.shard (abo_AvailableBatch oba) = ShardIDConsensus -> exists b, AppendBlock l b = Ok l' /\ block_of oba b.
Proof.
  intros E Hsh. unfold AppendConfig in E. destruct (oi_CommonBlock (abo_OrderingInformation oba)) as [cb|] eqn:Ecb; [|done].
  apply guard_panic_Ok in E as [Hc%negb_false_iff E]. apply bind_Ok_inv in E as (r & Hr & E). destruct r as [sigs obm] eqn:Er.
  apply bind_Ok_inv in E as (b & Hb & E). exists b. split; [done|]. pose proof (AppendBlock_spec _ _ _ E) as (Ha & _). destruct (decide (sigs = [])) as [->|Hne].
  - apply Ok_inj in Hb as <-. split; [by exists cb|done|]. intros [(cb' & md & raw & pr & sh & seq & bC & tC & Hcb' & Hmd & Hraw & Ht & Hcount & Hnosig) _].
    rewrite Ecb in Hcb'. injection Hcb' as <-. apply Append_Ok in Ha as (_ & h & Hh & _). apply arrange_spec in Hr as (more & Em & Hl & _). cbn in Em. subst more. symmetry in Hl. cbn in Hl. apply nil_length_inv in Hl.
    destruct (Hnosig Hl) as (m & bs & Hm & Hbs). eexists. split; [by eapply read_block|]. done.
  - apply bind_Ok_inv in Hb as (sm & Hsm & Hb). apply set_metadata_Ok in Hb as (md & Hmd & Hl & Eb). split.
    + exists cb. split; [done|]. subst b. cbn. split; [done|]. split; [|done]. intros i Hi. rewrite Hmd. cbn. by rewrite list_lookup_insert_ne.
    + done.
    + eapply (read_stored oba cb b); [exact Ecb|exact Hr|cbn; exact Hsm|exact Hmd|exact Hl|exact Eb|exact Ha].
Qed.

Lemma collate_one_spec cn l oba l' ex : collate_one cn l oba = Ok (l', ex) ->
  (ex = Cancelled /\ l' = l) \/ (ex <> Cancelled /\ exists b, AppendBlock l b = Ok l' /\ block_of oba b).
Proof.
  unfold collate_one. destruct (N.eqb_spec (AvailableBatch.shard (abo_AvailableBatch oba)) ShardIDConsensus) as [Hsh|Hsh]; intros E.
  - apply bind_Ok_inv in E as (l1 & Hl & E). apply bind_Ok_inv in E as (cb & _ & E). apply Ok_inj in E. injection E as -> <-. right.
    split; [by destruct (_ <? _)%N|by apply AppendConfig_spec].
  - destruct (PopOrWait _) as [batch|e|e] eqn:Hpop; [|case_decide; [|done]; apply Ok_inj in E; injection E as -> <-; by left|done].
    apply bind_Ok_inv in E as (l1 & Hl & E). apply Ok_inj in E. injection E as -> <-. right. split; [done|]. eapply AL_Append_spec; [done|done|by apply PopOrWait_id].
Qed.

(** A run of the collator appends one block for each attestation it takes, in order. *)
Lemma process_spec cn l obas l' ex : processOrderedBatchAttestations cn l obas = Ok (l', ex) ->
  exists n blocks, al_Ledger l' = al_Ledger l ++ blocks /\ n <= length obas /\ Forall2 block_of (take n obas) blocks /\
    (chain_ok (al_Ledger l) -> chain_ok (al_Ledger l')) /\ (ex = Running -> n = length obas).
Proof.
  revert l. induction obas as [|oba rest IH]; intros l E; cbn [processOrderedBatchAttestations] in E.
  { apply Ok_inj in E. injection E as -> <-. exists 0, []. rewrite app_nil_r. split; [done|]. split; [lia|]. split; [apply Forall2_nil_2|done]. }
  apply bind_Ok_inv in E as ([l1 ex1] & Hone & E). cbn [fst snd] in E. apply collate_one_spec in Hone as [[-> ->]|(Hex & b & Hb & Hbo)].
  { apply Ok_inj in E. injection E as -> <-. exists 0, []. rewrite app_nil_r. split; [done|]. split; [lia|]. split; [rewrite take_0; apply Forall2_nil_2|done]. }
  pose proof (AppendBlock_spec _ _ _ Hb) as (Ha & Hl1 & _). assert (chain_ok (al_Ledger l) -> chain_ok (al_Ledger l1)) as Hc1 by (intros Hc; by eapply Append_chain).
  destruct ex1 as [|cb|]; [|clear IH|done].
  - destruct (IH _ E) as (n & blocks & Hl & Hn & Hf & Hc & Hr). exists (S n), (b :: blocks). rewrite Hl, Hl1, <-app_assoc. split; [done|]. split; [cbn; lia|]. split; [by constructor|].
    split; [rewrite Hl in Hc; rewrite Hl1, <-app_assoc in Hc; cbn in *; rewrite Hl1 in Hc1; auto|]. intros Hrun. cbn. by rewrite (Hr Hrun).
  - apply Ok_inj in E. injection E as <- <-. exists 1, [b]. split; [done|]. split; [cbn; lia|]. split; [cbn [take]; rewrite take_0; by constructor|]. split; [done|done].
Qed.

(** ** The attestations of a decision *)
Definition unskipped (pos : Position) (abos : list AvailableBatchOrdered) : list AvailableBatchOrdered := filter (fun abo => skipped pos abo = false) abos.

(** The attestations are numbered from [i]. *)
Definition numbered (num : N) (count i : nat) (abos : list AvailableBatchOrdered) : Prop :=
  forall j abo, abos !! j = Some abo -> oi_DecisionNum (abo_OrderingInformation abo) = num /\ oi_BatchIndex (abo_OrderingInformation abo) = N.of_nat (i + j) /\
    oi_BatchCount (abo_OrderingInformation abo) = N.of_nat count.

Lemma start_skips_nothing abo : skipped (mkPosition 0 0) abo = false.
Proof. unfold skipped. cbn [pos_DecisionNum pos_BatchIndex]. rewrite (proj2 (N.ltb_ge _ 0)) by lia. apply andb_false_r. Qed.

Lemma ordered_batch_numbers hdr sigs i acb abo : ordered_batch hdr sigs i acb = Ok abo ->
  oi_DecisionNum (abo_OrderingInformation abo) = h_Num hdr /\ oi_BatchIndex (abo_OrderingInformation abo) = N.of_nat i /\
  oi_BatchCount (abo_OrderingInformation abo) = N.of_nat (length (h_AvailableCommonBlocks hdr)).
Proof.
  unfold ordered_batch. intros E. apply bind_Ok_inv in E as (md & _ & E). apply bind_Ok_inv in E as (raw & _ & E). apply bind_Ok_inv in E as (t & _ & E).
  destruct t as [[[[[[? ?] ?] ?] ?] ?] ?]. apply bind_Ok_inv in E as (bh & _ & E). apply bind_Ok_inv in E as (bs & _ & E). apply Ok_inj in E as <-. done.
Qed.

Lemma handle_batches_spec hdr sigs i blocks abos : handle_batches (mkPosition 0 0) hdr sigs i blocks = Ok abos ->
  length abos = length blocks /\ numbered (h_Num hdr) (length (h_AvailableCommonBlocks hdr)) i abos /\
  forall pos, handle_batches pos hdr sigs i blocks = Ok (unskipped pos abos).
Proof.
  revert i abos. induction blocks as [|acb rest IH]; intros i abos E; cbn [handle_batches] in E.
  { apply Ok_inj in E as <-. split; [done|]. split; [intros j abo Hj; by rewrite lookup_nil in Hj|done]. }
  apply bind_Ok_inv in E as (abo & Habo & E). apply bind_Ok_inv in E as (more & Hmore & E). rewrite start_skips_nothing in E. apply Ok_inj in E as <-.
  destruct (IH _ _ Hmore) as (Hl & Hn & Hp). split; [cbn; by rewrite Hl|]. split.
  - intros [|j] abo' Hj; cbn in Hj.
    + injection Hj as <-. rewrite Nat.add_0_r. by apply ordered_batch_numbers in Habo.
    + rewrite <-Nat.add_succ_comm. by apply Hn.
  - intros pos. cbn [handle_batches]. rewrite Habo. cbn [mbind outcome_bind]. rewrite Hp. cbn [mbind outcome_bind]. f_equal. unfold unskipped. rewrite filter_cons.
    destruct (skipped pos abo) eqn:Es; [by rewrite decide_False|by rewrite decide_True].
Qed.

Lemma unskipped_other num count i abos pos : numbered num count i abos -> num <> pos_DecisionNum pos -> unskipped pos abos = abos.
Proof.
  intros Hn Hne. unfold unskipped. apply filter_all, Forall_lookup_2. intros j abo Hj. apply Hn in Hj as (Hd & _). unfold skipped. rewrite Hd.
  by rewrite (proj2 (N.eqb_neq _ _) Hne).
Qed.

Lemma unskipped_same num count i abos n : numbered num count i abos -> i <= n -> unskipped (mkPosition num (N.of_nat n)) abos = drop (n - i) abos.
Proof.
  revert i. induction abos as [|abo abos IH]; intros i Hn Hi; [by rewrite drop_nil|]. assert (numbered num count (S i) abos) as Hn' by (intros j a Hj; rewrite Nat.add_succ_comm; by apply Hn).
  destruct (Hn 0 abo eq_refl) as (Hd & Hb & _). rewrite Nat.add_0_r in Hb. unfold unskipped. rewrite filter_cons.
  assert (skipped (mkPosition num (N.of_nat n)) abo = (N.of_nat i <? N.of_nat n)%N) as Es by (unfold skipped; cbn [pos_DecisionNum pos_BatchIndex]; by rewrite Hd, N.eqb_refl, Hb).
  destruct (N.ltb_spec (N.of_nat i) (N.of_nat n)) as [Hlt|Hge].
  - rewrite decide_False by congruence. replace (n - i) with (S (n - S i)) by lia. cbn [drop]. apply IH; [done|lia].
  - rewrite decide_True by done. replace (n - i) with 0 by lia. cbn [drop]. f_equal. change (unskipped (mkPosition num (N.of_nat n)) abos = abos).
    assert (n = i) as -> by lia. unfold unskipped. apply filter_all, Forall_lookup_2. intros j a Hj. apply Hn' in Hj as (_ & Hb' & _). unfold skipped. cbn [pos_DecisionNum pos_BatchIndex].
    rewrite Hb'. rewrite (proj2 (N.ltb_ge _ _)) by lia. apply andb_false_r.
Qed.

(** ** Decisions *)
(** The ordered batches of the decisions: all of them, from the first. *)
Definition all_batches (decisions : list Block) : outcome (list AvailableBatchOrdered) := delivered (mkPosition 0 0) decisions 0.

(** The decisions are numbered by their position and carry readable common blocks. *)
Record decisions_ok (decisions : list Block) : Prop := {
  do_length : (N.of_nat (length decisions) <= u64_max)%N;
  do_number : forall i b r, decisions !! i = Some b -> extractHeaderAndSigsFromBlock (Some b) = Ok r -> h_Num r.1 = N.of_nat i;
  do_readable : forall b abos, b ∈ decisions -> handleBlock (mkPosition 0 0) b = Ok abos -> Forall readable abos
}.

Lemma handleBlock_spec decisions i b abos : decisions_ok decisions -> decisions !! i = Some b -> handleBlock (mkPosition 0 0) b = Ok abos ->
  numbered (N.of_nat i) (length abos) 0 abos /\ forall pos, handleBlock pos b = Ok (unskipped pos abos).
Proof.
  intros Hok Hi E. unfold handleBlock in *. apply bind_Ok_inv in E as (r & Hr%or_panic_Ok & E). destruct (handle_batches_spec _ _ _ _ _ E) as (Hl & Hn & Hp).
  rewrite (do_number _ Hok _ _ _ Hi Hr) in Hn. rewrite Hl. split; [done|]. intros pos. rewrite Hr. cbn [or_panic mbind outcome_bind]. apply Hp.
Qed.

Lemma unskipped_zero n abos : unskipped (mkPosition n 0) abos = abos.
Proof.
  unfold unskipped. apply filter_all, Forall_forall. intros abo _. unfold skipped. cbn [pos_DecisionNum pos_BatchIndex]. rewrite (proj2 (N.ltb_ge _ 0)) by lia. apply andb_false_r.
Qed.

Lemma delivered_spec decisions lists pos start : decisions_ok decisions -> omapM (handleBlock (mkPosition 0 0)) decisions = Ok lists ->
  delivered pos decisions start = Ok (concat (unskipped pos <$> drop (N.to_nat start) lists)).
Proof.
  intros Hok E. unfold delivered, decisions_from. rewrite (omapM_map _ _ _ _ _ (omapM_drop _ (N.to_nat start) _ _ E)
    (fun i b abos Hb Habos => proj2 (handleBlock_spec decisions (N.to_nat start + i) b abos Hok ltac:(by rewrite <-lookup_drop)
       (omapM_lookup _ _ _ _ _ _ (omapM_drop _ _ _ _ E) Hb Habos)) pos)). done.
Qed.

Lemma all_batches_spec decisions all : decisions_ok decisions -> all_batches decisions = Ok all ->
  exists lists, omapM (handleBlock (mkPosition 0 0)) decisions = Ok lists /\ all = concat lists /\
    (forall i abos, lists !! i = Some abos -> numbered (N.of_nat i) (length abos) 0 abos /\ Forall readable abos /\ (N.of_nat i + 1 <= u64_max)%N).
Proof.
  intros Hok E. unfold all_batches, delivered, decisions_from in E. cbn [N.to_nat] in E. rewrite drop_0 in E. apply bind_Ok_inv in E as (lists & Hl & E). apply Ok_inj in E as <-.
  exists lists. split; [done|]. split; [done|]. intros i abos Hi. pose proof (omapM_length _ _ _ Hl) as Hlen. pose proof (lookup_lt_Some _ _ _ Hi) as Hlt. rewrite Hlen in Hlt.
  destruct (lookup_lt_is_Some_2 decisions i Hlt) as [b Hb]. pose proof (omapM_lookup _ _ _ _ _ _ Hl Hb Hi) as Hh. pose proof (do_length _ Hok).
  split; [by eapply handleBlock_spec|]. split; [|lia]. eapply do_readable; [exact Hok|by eapply list_elem_of_lookup_2|done].
Qed.

(** The ledger holds the blocks of the first ordered batches. *)
Definition follows (all : list AvailableBatchOrdered) (ledger : list Block) : Prop :=
  length ledger <= length all /\ Forall2 block_of (take (length ledger) all) ledger.

(** The replicator continues right after the last stored block. *)
Lemma resume decisions all l : decisions_ok decisions -> all_batches decisions = Ok all -> follows all (al_Ledger l) ->
  Replicate l decisions = Ok (drop (length (al_Ledger l)) all).
Proof.
  intros Hok Eall [Hlen Hf]. destruct (all_batches_spec _ _ Hok Eall) as (lists & Hlists & -> & Hnum). unfold Replicate, LastOrderingInfo.
  destruct (last (al_Ledger l)) as [b|] eqn:El.
  2: { apply last_None in El. rewrite El. cbn [length Height N.of_nat N.eqb]. cbn [or_panic mbind outcome_bind createAssemblerConsensusPosition pos_DecisionNum]. rewrite drop_0. exact Eall. }
  rewrite last_lookup in El. set (k := pred (length (al_Ledger l))) in *. pose proof (lookup_lt_Some _ _ _ El) as Hk. assert (length (al_Ledger l) = S k) as HS by lia.
  destruct (Forall2_lookup_r _ _ _ _ _ Hf El) as (x & Hx & Hbo). rewrite lookup_take_lt in Hx by lia. destruct (lookup_concat _ _ _ Hx) as (i & j & abos & Hi & Hj & Hdrop).
  destruct (Hnum _ _ Hi) as (Hn & Hread & Hu). destruct (Hn _ _ Hj) as (Hd & Hb & Hc). cbn [Nat.add] in Hb. rewrite Forall_lookup in Hread.
  destruct (bo_read _ _ Hbo (Hread _ _ Hj)) as (r & Er & Ed & Eb & Ec). rewrite Hd in Ed. rewrite Hb in Eb. rewrite Hc in Ec. rewrite Eb in Ec.
  rewrite (proj2 (N.eqb_neq _ _)) by (unfold Height; lia). unfold RetrieveBlockByNumber. replace (N.to_nat (Height (al_Ledger l) - 1)) with k by (unfold Height; lia).
  rewrite El. cbn [of_option mbind outcome_bind]. rewrite Er. cbn [mbind outcome_bind or_panic createAssemblerConsensusPosition]. rewrite Ed, Eb, HS, Hdrop.
  pose proof (lookup_lt_Some _ _ _ Hj) as Hjl. destruct (N.eqb_spec (N.of_nat j + 1) (oi_BatchCount r.1.2)) as [Hlast|Hmid]; cbn [pos_DecisionNum].
  - specialize (Ec Hlast). assert (S j = length abos) as Hjlast by lia. rewrite Hjlast, drop_all. cbn [app]. rewrite u64_incr_small by lia.
    rewrite (delivered_spec _ _ _ _ Hok Hlists). replace (N.to_nat (N.of_nat i + 1)) with (S i) by lia. do 2 f_equal. rewrite <-(list_fmap_id (drop (S i) lists)) at 2.
    apply list_fmap_ext. intros ? ? _. apply unskipped_zero.
  - rewrite (delivered_spec _ _ _ _ Hok Hlists), Nnat.Nat2N.id. rewrite (drop_S _ _ _ Hi). cbn [fmap list_fmap concat]. f_equal. f_equal.
    + replace (N.of_nat j + 1)%N with (N.of_nat (S j)) by lia. rewrite (unskipped_same _ _ _ _ _ Hn) by lia. by rewrite Nat.sub_0_r.
    + f_equal. rewrite <-(list_fmap_id (drop (S i) lists)) at 2. apply list_fmap_ext. intros i' abos' Hi'. rewrite lookup_drop in Hi'.
      destruct (Hnum _ _ Hi') as (Hn' & _). eapply unskipped_other; [exact Hn'|]. cbn. lia.
Qed.

(** ** The life of an assembler *)
(** It starts with an empty ledger; consensus decides more; and an incarnation of the assembler replicates from where its
    ledger ends, collates some of the attestations and then stops, crashes, or is restarted for a new config. *)
Inductive life : list Block -> AssemblerLedger -> Prop :=
  | life_start decisions l : al_Ledger l = [] -> life decisions l
  | life_decided decisions decisions' l : life decisions l -> decisions `prefix_of` decisions' -> life decisions' l
  | life_run decisions l obas taken cn l' ex : life decisions l -> Replicate l decisions = Ok obas -> taken `prefix_of` obas ->
      processOrderedBatchAttestations cn l taken = Ok (l', ex) -> life decisions l'.

Lemma decisions_ok_prefix decisions decisions' : decisions_ok decisions' -> decisions `prefix_of` decisions' -> decisions_ok decisions.
Proof.
  intros [Hl Hn Hr] [k ->]. split.
  - rewrite length_app in Hl. lia.
  - intros i b r Hi. apply Hn. by apply lookup_app_l_Some.
  - intros b abos Hb. apply Hr. apply elem_of_app. by left.
Qed.

Lemma all_batches_prefix decisions decisions' all' : decisions `prefix_of` decisions' -> all_batches decisions' = Ok all' ->
  exists all, all_batches decisions = Ok all /\ all `prefix_of` all'.
Proof.
  intros [k ->] E. unfold all_batches, delivered, decisions_from in *. cbn [N.to_nat] in *. rewrite drop_0 in *. apply bind_Ok_inv in E as (lists & Hl & E). apply Ok_inj in E as <-.
  apply omapM_app in Hl as (r1 & r2 & E1 & _ & ->). exists (concat r1). rewrite E1. split; [done|]. apply concat_mono. by exists r2.
Qed.

Lemma follows_prefix all all' ledger : follows all ledger -> all `prefix_of` all' -> follows all' ledger.
Proof. intros [Hl Hf] [k ->]. split; [rewrite length_app; lia|]. by rewrite take_app_le. Qed.

Lemma follows_run all l taken cn l' ex : follows all (al_Ledger l) -> taken `prefix_of` drop (length (al_Ledger l)) all ->
  processOrderedBatchAttestations cn l taken = Ok (l', ex) -> follows all (al_Ledger l').
Proof.
  intros [Hl Hf] [rest Hrest] E. apply process_spec in E as (n & blocks & -> & Hn & Hb & _). pose proof (Forall2_length _ _ _ Hb) as Hbl. rewrite length_take in Hbl.
  assert (n + length (al_Ledger l) <= length all) as Hle. { pose proof (f_equal length Hrest) as Hr. rewrite length_drop, length_app in Hr. lia. }
  split; [rewrite length_app; lia|]. rewrite length_app, <-Hbl, Nat.min_l by lia. rewrite <-take_take_drop. apply Forall2_app; [done|]. rewrite Hrest, take_app_le by lia. done.
Qed.

Lemma life_follows decisions l all : life decisions l -> decisions_ok decisions -> all_batches decisions = Ok all ->
  follows all (al_Ledger l) /\ chain_ok (al_Ledger l).
Proof.
  intros Hlife. revert all. induction Hlife as [decisions l E|decisions decisions' l _ IH Hp|decisions l obas taken cn l' ex _ IH Hr Ht Hc]; intros all Hok Hall.
  - rewrite E. split; [split; [cbn; lia|constructor]|apply chain_ok_nil].
  - destruct (all_batches_prefix _ _ _ Hp Hall) as (all0 & Hall0 & Hp0). destruct (IH _ (decisions_ok_prefix _ _ Hok Hp) Hall0) as [Hf Hc]. split; [by eapply follows_prefix|done].
  - destruct (IH _ Hok Hall) as [Hf Hch]. rewrite (resume _ _ _ Hok Hall Hf) in Hr. apply Ok_inj in Hr as <-. split; [by eapply follows_run|].
    apply process_spec in Hc as (_ & _ & _ & _ & _ & Hchain & _). auto.
Qed.

(** C13: The assembler's ledger follows consensus through crashes. After any number of runs, each stopped at any point and
    followed by a restart while consensus decides more, the ledger is a numbered hash chain whose [i]-th block is the
    [i]-th ordered common block of the decisions, with its header, metadata and signatures, and with the requests of the
    batch that has the ordered identifier and digest (or the config transaction): nothing is skipped, repeated or
    reordered. The next run is given exactly the attestations of the batches that are not stored yet. *)
Theorem assembler_ledger_follows decisions l all :
  decisions_ok decisions -> all_batches decisions = Ok all -> life decisions l ->
  chain_ok (al_Ledger l) /\ length (al_Ledger l) <= length all /\
  (forall i b, al_Ledger l !! i = Some b -> exists oba, all !! i = Some oba /\ block_of oba b) /\
  Replicate l decisions = Ok (drop (length (al_Ledger l)) all).
Proof.
  intros Hok Hall Hlife. destruct (life_follows _ _ _ Hlife Hok Hall) as [Hf Hc]. split; [done|]. split; [apply Hf|]. split; [|by apply resume].
  intros i b Hi. destruct Hf as [Hl Hf]. destruct (Forall2_lookup_r _ _ _ _ _ Hf Hi) as (x & Hx & Hbo). exists x. split; [|done].
  apply lookup_lt_Some in Hi. by rewrite lookup_take_lt in Hx.
Qed.

(** ** Reconnecting *)
(** A block is appended only at its own number. *)
Lemma appended_number l b l' : AppendBlock l b = Ok l' -> exists h, b_Header b = Some h /\ bh_Number h = Height (al_Ledger l).
Proof. intros (Ha & _)%AppendBlock_spec. apply Append_Ok in Ha as (_ & h & Hh & Hn & _). eauto. Qed.

Lemma collated_number cn l oba l' ex : collate_one cn l oba = Ok (l', ex) -> ex <> Cancelled ->
  exists cb h, oi_CommonBlock (abo_OrderingInformation oba) = Some cb /\ b_Header cb = Some h /\ bh_Number h = Height (al_Ledger l) /\ length (al_Ledger l') = S (length (al_Ledger l)).
Proof.
  intros [[? _]|(_ & b & Hb & [(cb & Hcb & Hh & _) _ _])]%collate_one_spec Hex; [done|]. destruct (appended_number _ _ _ Hb) as (h & Hbh & Hn). apply AppendBlock_spec in Hb as (_ & -> & _).
  exists cb, h. rewrite length_app. cbn. split; [done|]. split; [congruence|]. split; [done|lia].
Qed.

Lemma process_cons cn l oba rest l' : processOrderedBatchAttestations cn l (oba :: rest) = Ok (l', Running) ->
  exists l1, collate_one cn l oba = Ok (l1, Running) /\ processOrderedBatchAttestations cn l1 rest = Ok (l', Running).
Proof. cbn [processOrderedBatchAttestations]. intros E. apply bind_Ok_inv in E as ([l1 [|cb|]] & Hone & E); cbn [fst snd] in E; [by exists l1|done|done]. Qed.

Lemma process_numbers cn l obas l' : processOrderedBatchAttestations cn l obas = Ok (l', Running) ->
  forall oba, oba ∈ obas -> exists cb h, oi_CommonBlock (abo_OrderingInformation oba) = Some cb /\ b_Header cb = Some h /\ (Height (al_Ledger l) <= bh_Number h)%N.
Proof.
  revert l. induction obas as [|x rest IH]; intros l E oba Hin; [by apply not_elem_of_nil in Hin|]. apply process_cons in E as (l1 & Hone & E).
  destruct (collated_number _ _ _ _ _ Hone ltac:(done)) as (cb & h & Hcb & Hh & Hn & Hlen). apply elem_of_cons in Hin as [->|Hin].
  - exists cb, h. split; [done|]. split; [done|]. lia.
  - destruct (IH _ E _ Hin) as (cb' & h' & ? & ? & Hle). exists cb', h'. split; [done|]. split; [done|]. unfold Height in *. lia.
Qed.

(** A lost connection while attestations are in flight stops the assembler. A new connection starts at the decision of
    the last stored block, and the batches that were committed or already handed over since the start are not skipped: if
    an attestation [x] is still queued for the collator when the new connection is opened, it is delivered again,
    and the collator cannot get through the queue and the new deliveries, since the second append is refused. *)
Theorem reconnect_redelivers decisions l all init cn queued rest x redelivered :
  decisions_ok decisions -> all_batches decisions = Ok all -> follows all (al_Ledger l) ->
  drop (length (al_Ledger l)) all = (x :: queued) ++ rest -> skipped init x = false ->
  (position ← (oi ← or_panic (LastOrderingInfo l); Ok (createAssemblerConsensusPosition oi)); delivered init decisions (pos_DecisionNum position)) = Ok redelivered ->
  x ∈ redelivered /\ forall l', processOrderedBatchAttestations cn l ((x :: queued) ++ redelivered) <> Ok (l', Running).
Proof.
  intros Hok Hall Hf Hdrop Hskip Hre. pose proof (resume _ _ _ Hok Hall Hf) as Hresume. unfold Replicate in Hresume.
  apply bind_Ok_inv in Hre as (position & Hpos & Hre). apply bind_Ok_inv in Hpos as (oi & Hoi & Hpos). apply Ok_inj in Hpos as <-. rewrite Hoi in Hresume. cbn [mbind outcome_bind] in Hresume.
  destruct (all_batches_spec _ _ Hok Hall) as (lists & Hlists & _ & _). rewrite (delivered_spec _ _ _ _ Hok Hlists) in Hre. rewrite (delivered_spec _ _ _ _ Hok Hlists) in Hresume. apply Ok_inj in Hre, Hresume.
  assert (x ∈ redelivered) as Hx.
  { assert (x ∈ drop (length (al_Ledger l)) all) as Hin by (rewrite Hdrop; set_solver). rewrite <-Hresume in Hin. rewrite <-Hre. apply elem_of_concat in Hin as (abos & Hx & Hin).
    apply list_elem_of_fmap in Hin as (abos0 & -> & Hin). apply elem_of_concat. exists (unskipped init abos0). split; [|by apply list_elem_of_fmap_2].
    unfold unskipped in *. apply list_elem_of_filter in Hx as [_ Hx]. by apply list_elem_of_filter. }
  split; [done|]. intros l' E. cbn [app] in E. apply process_cons in E as (l1 & Hone & E). destruct (collated_number _ _ _ _ _ Hone ltac:(done)) as (cb & h & Hcb & Hh & Hn & Hlen).
  destruct (process_numbers _ _ _ _ E x) as (cb' & h' & Hcb' & Hh' & Hle); [apply elem_of_app; by right|]. unfold Height in *. assert (h' = h) by congruence. subst h'. lia.
Qed.
End Assembler.
