(* ===== verification/Frontier.v ===== *)
(** * The batch frontier and fetched batches: theorems

    The backward scan of the assembler's ledger gives the last batch of every shard and primary; a batch that is fetched
    on request is the requested one, with the data its digest names. *)
From S2P Require Import Prelude Types Events State Blocks Ledger StateCodec Consensus BatchMapper FabricBatch Assembler AssemblerThms.
From Stdlib Require Import NArith Lia.

(** ** Reference: the last batch of a shard and primary in a list of batches *)
Definition matches (s : ShardID) (p : PartyID) (ab : AvailableBatch.t) : Prop := AvailableBatch.shard ab = s /\ AvailableBatch.primary ab = p.
#[export] Instance matches_dec s p ab : base.Decision (matches s p ab).
Proof. unfold matches. apply _. Defined.
Definition last_seq (infos : list AvailableBatch.t) (s : ShardID) (p : PartyID) : option BatchSequence :=
  AvailableBatch.seq <$> last (filter (matches s p) infos).

Definition entry (f : gmap ShardID (gmap PartyID BatchSequence)) (s : ShardID) (p : PartyID) : option BatchSequence := f !! s ≫= fun m => m !! p.
(** The pairs that the caller asks for and that can have batches. *)
Definition wanted (shards : list ShardID) (parties : list PartyID) (s : ShardID) (p : PartyID) : Prop :=
  s ∈ shards /\ p ∈ parties /\ s <> ShardIDConsensus /\ p <> 0%N.
#[export] Instance wanted_dec shards parties s p : base.Decision (wanted shards parties s p).
Proof. unfold wanted. apply _. Defined.

Lemma last_seq_cons x infos s p : last_seq (x :: infos) s p =
  match last_seq infos s p with Some q => Some q | None => if decide (matches s p x) then Some (AvailableBatch.seq x) else None end.
Proof.
  unfold last_seq. rewrite filter_cons. destruct (decide (matches s p x)); [rewrite last_cons|]; by destruct (last (filter _ _)).
Qed.

Lemma last_seq_suffix infos1 infos2 s p q : last_seq infos2 s p = Some q -> last_seq (infos1 ++ infos2) s p = Some q.
Proof. intros E. induction infos1 as [|x l IH]; [done|]. cbn [app]. by rewrite last_seq_cons, IH. Qed.

Lemma entry_insert f s p q s' p' : entry (<[s := <[p := q]> (default ∅ (f !! s))]> f) s' p' = if decide (s' = s /\ p' = p) then Some q else entry f s' p'.
Proof.
  unfold entry. destruct (decide (s' = s)) as [->|Hs].
  - rewrite lookup_insert_eq. cbn [mbind option_bind]. destruct (decide (p' = p)) as [->|Hp]; [rewrite lookup_insert_eq; by rewrite decide_True|].
    rewrite lookup_insert_ne by done. rewrite decide_False by tauto. destruct (f !! s); cbn; [done|apply lookup_empty].
  - rewrite lookup_insert_ne by done. by rewrite decide_False by tauto.
Qed.
Lemma entry_init f s s' p' : entry (<[s := default ∅ (f !! s)]> f) s' p' = entry f s' p'.
Proof.
  unfold entry. destruct (decide (s' = s)) as [->|Hs]; [|by rewrite lookup_insert_ne]. rewrite lookup_insert_eq. cbn [mbind option_bind]. destruct (f !! s); cbn; [done|apply lookup_empty].
Qed.

(** ** Counting the pairs that are not recorded yet *)
Lemma NoDup_prod {A B} (l1 : list A) (l2 : list B) : NoDup l1 -> NoDup l2 -> NoDup (list_prod l1 l2).
Proof.
  intros H1 H2. induction H1 as [|a l1 Ha _ IH]; cbn [list_prod]; [constructor|]. apply NoDup_app. split; [apply (NoDup_fmap_2 (pair a)); done|]. split; [|done].
  intros [a' b] Hin Hin'. apply list_elem_of_fmap in Hin as (b' & E & _). injection E as -> _. apply list_elem_of_In, in_prod_iff in Hin' as [Hin' _]. by apply list_elem_of_In in Hin'.
Qed.

Lemma filter_remove {A} `{!EqDecision A} (P Q : A -> Prop) `{!forall x, base.Decision (P x)} `{!forall x, base.Decision (Q x)} (l : list A) x : NoDup l -> x ∈ l -> P x ->
  (forall y, Q y <-> P y /\ y <> x) -> length (filter P l) = S (length (filter Q l)).
Proof.
  intros Hn Hx HP HQ. induction Hn as [|a l Ha Hn IH]; [by apply not_elem_of_nil in Hx|]. rewrite !filter_cons. destruct (decide (a = x)) as [->|Hne].
  - rewrite decide_True by done. rewrite decide_False by (rewrite HQ; tauto). cbn. f_equal. f_equal. apply filter_ext_elem. intros y Hy. rewrite HQ.
    split; [intros ?; split; [done|congruence]|by intros []].
  - apply elem_of_cons in Hx as [?|Hx]; [congruence|]. destruct (decide (P a)) as [Hp|Hp].
    + rewrite decide_True by (rewrite HQ; done). cbn. by rewrite (IH Hx).
    + rewrite decide_False by (rewrite HQ; tauto). exact (IH Hx).
Qed.

Section Frontier.
Context `{FabricCodecs} `{BlockCodecs} `{StateCodecs} `{BFTCodecs} `{Sha256}.

(** The batches of the blocks of a ledger. *)
Definition batches_of (ledger : list Block) : outcome (list AvailableBatch.t) :=
  omapM (fun b => r ← AssemblerBatchIdOrderingInfoAndTxCountFromBlock (Some b); Ok r.1.1) ledger.

Section Scan.
Context (shards : list ShardID) (parties : list PartyID) (Hs : NoDup shards) (Hp : NoDup parties).

Definition open_pairs (f : gmap ShardID (gmap PartyID BatchSequence)) : list (ShardID * PartyID) := filter (fun x => entry f x.1 x.2 = None) (list_prod shards parties).

(** The scan of the blocks from position [h] on: the recorded pairs are wanted and their last sequence is known; the count
    is the number of pairs that are not recorded. *)
Record scanned (infos : list AvailableBatch.t) (h : nat) (count : Z) (f : gmap ShardID (gmap PartyID BatchSequence)) : Prop := {
  sc_entry : forall s p, entry f s p = if decide (wanted shards parties s p) then last_seq (drop h infos) s p else None;
  sc_count : count = Z.of_nat (length (open_pairs f))
}.

Lemma in_pairs s p : (s, p) ∈ list_prod shards parties <-> s ∈ shards /\ p ∈ parties.
Proof. by rewrite list_elem_of_In, in_prod_iff, <-!list_elem_of_In. Qed.

Lemma scanned_skip infos h x count f f' : infos !! h = Some x -> scanned infos (S h) count f -> (forall s p, entry f' s p = entry f s p) ->
  ~ wanted shards parties (AvailableBatch.shard x) (AvailableBatch.primary x) \/ is_Some (entry f (AvailableBatch.shard x) (AvailableBatch.primary x)) -> scanned infos h count f'.
Proof.
  intros Hx [He Hc] Hf Hskip. split.
  - intros s p. rewrite Hf, He. destruct (decide (wanted shards parties s p)) as [Hw|]; [|done]. rewrite (drop_S _ _ _ Hx), last_seq_cons.
    destruct (last_seq (drop (S h) infos) s p) as [q|] eqn:El; [done|]. destruct (decide (matches s p x)) as [[<- <-]|]; [|done]. destruct Hskip as [Hnw|[q Hq]]; [done|].
    rewrite He, decide_True in Hq by done. congruence.
  - rewrite Hc. do 2 f_equal. unfold open_pairs. apply filter_ext_elem. intros [s p] _. cbn. by rewrite Hf.
Qed.

Lemma scanned_record infos h x count f : infos !! h = Some x -> scanned infos (S h) count f ->
  wanted shards parties (AvailableBatch.shard x) (AvailableBatch.primary x) -> entry f (AvailableBatch.shard x) (AvailableBatch.primary x) = None ->
  scanned infos h (count - 1) (<[AvailableBatch.shard x := <[AvailableBatch.primary x := AvailableBatch.seq x]> (default ∅ (f !! AvailableBatch.shard x))]> f).
Proof.
  intros Hx [He Hc] Hw Hnone. split.
  - intros s p. rewrite entry_insert, (drop_S _ _ _ Hx), last_seq_cons, He. destruct (decide (s = _ /\ p = _)) as [[-> ->]|Hne].
    + rewrite decide_True by done. rewrite He, decide_True in Hnone by done. rewrite Hnone. by rewrite decide_True by done.
    + destruct (decide (wanted shards parties s p)); [|done]. destruct (last_seq _ _ _); [done|]. rewrite decide_False; [done|]. intros [<- <-]. by destruct Hne.
  - rewrite Hc. unfold open_pairs. rewrite (filter_remove _ (fun y => entry (<[AvailableBatch.shard x := <[AvailableBatch.primary x := AvailableBatch.seq x]> (default ∅ (f !! AvailableBatch.shard x))]> f) y.1 y.2 = None)
      _ (AvailableBatch.shard x, AvailableBatch.primary x)); [lia|by apply NoDup_prod|by apply in_pairs; destruct Hw as (? & ? & _)|exact Hnone|].
    intros [s p]. cbn [fst snd]. rewrite entry_insert. destruct (decide (s = _ /\ p = _)) as [[-> ->]|Hne]; [naive_solver|]. split; [intros ?; split; [done|]; intros E; injection E as -> ->; by destruct Hne|by intros []].
Qed.

(** The result: right where it has an entry, and complete unless the deadline passed. *)
Definition frontier_of (complete : Prop) (infos : list AvailableBatch.t) (f : gmap ShardID (gmap PartyID BatchSequence)) : Prop :=
  (forall s p q, entry f s p = Some q -> wanted shards parties s p /\ last_seq infos s p = Some q) /\
  (complete -> forall s p, wanted shards parties s p -> entry f s p = last_seq infos s p).

Lemma scanned_frontier infos h count f complete : scanned infos h count f -> (complete -> h = 0 \/ count = 0%Z) -> frontier_of complete infos f.
Proof.
  intros [He Hc] Hdone. assert (forall s p q, entry f s p = Some q -> wanted shards parties s p /\ last_seq infos s p = Some q) as Hright.
  { intros s p q Hq. rewrite He in Hq. destruct (decide (wanted shards parties s p)) as [Hw|]; [|done]. split; [done|]. rewrite <-(take_drop h infos). by apply last_seq_suffix. }
  split; [done|]. intros Hcomplete s p Hw. destruct (Hdone Hcomplete) as [->|Hzero]; [rewrite He, decide_True by done; by rewrite drop_0|].
  destruct (entry f s p) as [q|] eqn:E; [by destruct (Hright _ _ _ E) as [_ ->]|]. exfalso. assert ((s, p) ∈ open_pairs f) as Hin.
  { apply list_elem_of_filter. split; [done|]. apply in_pairs. destruct Hw as (? & ? & _). done. }
  rewrite Hzero in Hc. destruct (open_pairs f); [by apply not_elem_of_nil in Hin|]. cbn in Hc. lia.
Qed.

Lemma scan_spec ledger infos expired h count f f' : batches_of ledger = Ok infos -> h <= length infos -> scanned infos h count f ->
  frontier_scan ledger shards parties expired h count f = Ok f' -> frontier_of (forall n, expired n = false) infos f'.
Proof.
  intros Hb. unfold batches_of in Hb. revert count f. induction h as [|h IH]; intros count f Hh Hsc E; cbn [frontier_scan] in E.
  { apply Ok_inj in E as <-. eapply scanned_frontier; [done|]. by left. }
  apply bind_Ok_inv in E as (block & Hblock & E). apply bind_Ok_inv in E as (r & Hr & E). unfold RetrieveBlockByNumber in Hblock. rewrite Nnat.Nat2N.id in Hblock. apply of_option_Ok in Hblock.
  destruct (lookup_lt_is_Some_2 infos h ltac:(lia)) as [x Hx]. pose proof (omapM_lookup _ _ _ _ _ _ Hb Hblock Hx) as Ex. cbn beta in Ex. rewrite Hr in Ex. cbn [mbind outcome_bind] in Ex. apply Ok_inj in Ex. rewrite Ex in E. clear Ex Hr.
  destruct (decide (wanted shards parties (AvailableBatch.shard x) (AvailableBatch.primary x))) as [Hw|Hnw].
  - destruct Hw as (Hws & Hwp & Hwc & Hw0). rewrite (proj2 (N.eqb_neq _ _) Hwc), (proj2 (N.eqb_neq _ _) Hw0) in E. cbn [orb] in E. rewrite !bool_decide_eq_true_2 in E by done. cbn [negb orb] in E.
    assert (default ∅ (f !! AvailableBatch.shard x) !! AvailableBatch.primary x = entry f (AvailableBatch.shard x) (AvailableBatch.primary x)) as Eentry.
    { unfold entry. destruct (f !! AvailableBatch.shard x); cbn; [done|apply lookup_empty]. }
    rewrite Eentry in E. destruct (entry f _ _) as [q|] eqn:Eq.
    + eapply IH; [lia| |exact E]. eapply scanned_skip; [done|done|intros; apply entry_init|right; by eexists].
    + assert (scanned infos h (count - 1) (<[AvailableBatch.shard x := <[AvailableBatch.primary x := AvailableBatch.seq x]> (default ∅ (f !! AvailableBatch.shard x))]> f)) as Hsc' by (by apply scanned_record).
      destruct (Z.eqb_spec (count - 1) 0) as [Hz|_]; [apply Ok_inj in E as <-; eapply scanned_frontier; [done|by right]|].
      destruct (expired h) eqn:Eexp; [apply Ok_inj in E as <-; eapply scanned_frontier; [done|]; intros Hn; by rewrite Hn in Eexp|].
      eapply IH; [lia|exact Hsc'|exact E].
  - assert (scanned infos h count f) as Hsc' by (eapply scanned_skip; [done|done|done|by left]).
    destruct ((AvailableBatch.shard x =? ShardIDConsensus) || (AvailableBatch.primary x =? 0))%N eqn:E1; [eapply IH; [lia|done|exact E]|].
    destruct (negb (bool_decide (AvailableBatch.primary x ∈ parties)) || _) eqn:E2; [eapply IH; [lia|done|exact E]|]. exfalso. apply Hnw.
    apply orb_false_iff in E1 as [E1%N.eqb_neq E1'%N.eqb_neq]. apply orb_false_iff in E2 as [E2%negb_false_iff%bool_decide_eq_true E2'%negb_false_iff%bool_decide_eq_true]. done.
Qed.
End Scan.

Lemma scan_total ledger infos shards parties expired h count f : batches_of ledger = Ok infos -> h <= length ledger ->
  exists f', frontier_scan ledger shards parties expired h count f = Ok f'.
Proof.
  intros Hb. unfold batches_of in Hb. revert count f. induction h as [|h IH]; intros count f Hh; cbn [frontier_scan]; [eauto|].
  destruct (lookup_lt_is_Some_2 ledger h ltac:(lia)) as [block Hblock]. destruct (lookup_lt_is_Some_2 infos h) as [x Hx]; [rewrite (omapM_length _ _ _ Hb); lia|].
  pose proof (omapM_lookup _ _ _ _ _ _ Hb Hblock Hx) as Ex. cbn beta in Ex. apply bind_Ok_inv in Ex as (r & Hr & _).
  unfold RetrieveBlockByNumber. rewrite Nnat.Nat2N.id, Hblock. cbn [of_option mbind outcome_bind]. rewrite Hr. cbn [mbind outcome_bind].
  repeat match goal with |- context [if ?b then _ else _] => destruct b; [by (apply IH; lia) || eauto|] | |- context [match ?o with Some _ => _ | None => _ end] => destruct o; [apply IH; lia|] end.
  apply IH. lia.
Qed.

(** The recovery of the assembler's prefetching. If the blocks of a non-empty ledger can be read, the backward scan ends
    with a frontier, whose entries are the sequence number of the last batch of that shard and primary among all stored
    blocks, for configured shards and primaries only; unless the scan times out, no configured shard and primary with a
    stored batch is missing, although the scan stops early once it found them all. *)
Theorem batch_frontier_correct l infos shards parties expired :
  al_Ledger l <> [] -> batches_of (al_Ledger l) = Ok infos -> NoDup shards -> NoDup parties ->
  exists f, BatchFrontier_of l shards parties expired = Ok (Some f) /\
    (forall s p q, entry f s p = Some q -> wanted shards parties s p /\ last_seq infos s p = Some q) /\
    ((forall n, expired n = false) -> forall s p, wanted shards parties s p -> entry f s p = last_seq infos s p).
Proof.
  intros Hne Hb Hs Hp. unfold BatchFrontier_of. rewrite (proj2 (N.eqb_neq _ _)) by (unfold Height; destruct (al_Ledger l); [done|cbn; lia]).
  destruct (scan_total _ _ shards parties expired (length (al_Ledger l)) (Z.of_nat (length shards * length parties)) ∅ Hb) as [f Hf]; [lia|]. rewrite Hf. cbn [mbind outcome_bind].
  exists f. split; [done|]. pose proof (omapM_length _ _ _ Hb) as Hlen. eapply scan_spec; [exact Hs|exact Hp|exact Hb| | |exact Hf]; [lia|]. split.
  - intros s p. rewrite <-Hlen, drop_all. by case_decide.
  - unfold open_pairs. rewrite filter_all; [by rewrite length_prod|]. apply Forall_forall. intros [s p] _. done.
Qed.

(** ** Fetched batches *)
Lemma BatchIDEqual_true a b : BatchIDEqual a b = true -> a = b.
Proof. unfold BatchIDEqual. rewrite !andb_true_iff, !N.eqb_eq, bool_decide_eq_true. destruct a, b. cbn. intros [[[-> ->] ->] ->]. done. Qed.
Lemma BatchIDEqual_refl a : BatchIDEqual a a = true.
Proof. unfold BatchIDEqual. by rewrite !N.eqb_refl, bool_decide_eq_true_2. Qed.

Lemma check_pulled_Some id blk b : check_pulled id blk = Some b -> bt_ID b = id /\ BatchedRequests.Digest (bt_Requests b) = bid_Digest id.
Proof.
  unfold check_pulled. destruct (NewFabricBatchFromBlock blk) as [fb| |]; [|done..]. destruct (bool_decide _) eqn:E1; [|done]. destruct (BatchIDEqual _ _) eqn:E2; [|done]. cbn [negb].
  intros [= <-]. apply bool_decide_eq_true in E1. apply BatchIDEqual_true in E2 as <-. done.
Qed.

Lemma GetBatch_results_Ok id n count results b : GetBatch_results id n count results = Ok b -> Some b ∈ results.
Proof.
  revert count. induction results as [|[x|] rest IH]; intros count E; cbn [GetBatch_results] in E; [done| |].
  - destruct (BatchIDEqual _ _); [apply Ok_inj in E as <-; by left|]. case_decide; [done|]. right. by eapply IH.
  - case_decide; [done|]. right. by eapply IH.
Qed.

Lemma GetBatch_results_found id n count results b : bt_ID b = id -> Some b ∈ results -> count + length results <= n -> exists b', GetBatch_results id n count results = Ok b'.
Proof.
  intros Hb. revert count. induction results as [|x rest IH]; intros count Hin Hn; [by apply not_elem_of_nil in Hin|]. cbn [GetBatch_results]. cbn in Hn.
  apply elem_of_cons in Hin as [<-|Hin]; [rewrite Hb, BatchIDEqual_refl; eauto|]. assert (length rest <> 0) by (destruct rest; [by apply not_elem_of_nil in Hin|done]).
  destruct x as [x|]; [destruct (BatchIDEqual _ _); [eauto|]|]; (rewrite decide_False by lia; apply IH; [done|lia]).
Qed.

(** C14: A fetched batch is the ordered one. Whatever the batchers of the shard answer, a batch that GetBatch returns has the
    requested identifier and its requests hash to the ordered digest, so two assemblers that fetch the same batch
    get the same requests unless SHA-256 collides on their encodings; and if one batcher answers with such a batch, a
    batch is returned. *)
Theorem fetched_batch_is_ordered shards id n pulled : List.find (fun sh => (sh.1 =? bid_Shard id)%N) shards = Some (bid_Shard id, n) ->
  (forall b, GetBatch shards id pulled = Ok b -> bt_ID b = id /\ BatchedRequests.Digest (bt_Requests b) = bid_Digest id) /\
  (forall shards' pulled' b b', GetBatch shards id pulled = Ok b -> GetBatch shards' id pulled' = Ok b' ->
     BatchedRequests.sizes_ok (bt_Requests b) -> BatchedRequests.sizes_ok (bt_Requests b') ->
     bt_Requests b = bt_Requests b' \/ sha256_collision (BatchedRequests.Serialize (bt_Requests b)) (BatchedRequests.Serialize (bt_Requests b'))) /\
  (forall blk b, blk ∈ pulled -> check_pulled id blk = Some b -> length pulled <= n -> exists b', GetBatch shards id pulled = Ok b').
Proof.
  intros Hf.
  assert (forall shards pulled b, GetBatch shards id pulled = Ok b -> bt_ID b = id /\ BatchedRequests.Digest (bt_Requests b) = bid_Digest id) as Hok.
  { intros sh0 pulled0 b E. unfold GetBatch in E. destruct (List.find _ sh0) as [[? n0]|]; [|done].
    apply GetBatch_results_Ok in E. apply list_elem_of_fmap in E as (blk & Hc & _). symmetry in Hc. by eapply check_pulled_Some. }
  split; [by apply Hok|]. split.
  - intros sh' pulled' b b' E E' Hs Hs'. apply BatchedRequests.Digest_inj; [done|done|]. destruct (Hok _ _ _ E) as [_ ->]. by destruct (Hok _ _ _ E') as [_ ->].
  - intros blk b Hin Hc Hn. unfold GetBatch. rewrite Hf. eapply GetBatch_results_found; [by eapply check_pulled_Some|rewrite <-Hc; by apply list_elem_of_fmap_2|rewrite length_fmap; lia].
Qed.
End Frontier.
