(* ===== verification/AssemblerSample.v ===== *)
(** * A concrete assembler

    Two decisions, the second with two batches, and the witnesses of the theorems about the assembler. *)
From S2P Require Import Prelude Types Events State Blocks Ledger StateCodec Consensus BatchMapper FabricBatch Assembler AssemblerThms Frontier.
From S2P Require Import Sample SampleBlocks SampleNode.
From Stdlib Require Import NArith Lia.
From Stdlib Require Import Init.Byte.

#[local] Existing Instance sample_fabric.
#[local] Existing Instance sample_blocks.
#[local] Existing Instance sample_states.
#[local] Existing Instance sample_bft.
#[local] Existing Instance sample_sha.

Definition sample_index : AssemblerIndex.
Proof. refine {| PopOrWait id := Ok (mkBatch id [[x61]]) |}. by intros id b [= <-]. Defined.
#[local] Existing Instance sample_index.

Definition empty_block : Block := mkBlock None None None.
Definition ok_block (o : outcome Block) : Block := match o with Ok b => b | _ => empty_block end.
Definition header_hash (b : Block) : bytes := match b_Header b with Some h => ok_bytes (BlockHeaderHash h) | None => [] end.

Definition batch_id (seq : N) : BatchID := mkBatchID 1 2 seq [x07].
Definition common0 : Block := ok_block (CreateDataCommonBlock 0 [] (batch_id 4) 1 1 2 0 0).
Definition common1 : Block := ok_block (CreateDataCommonBlock 1 (header_hash common0) (batch_id 5) 2 1 2 1 0).

Definition signed_message : bytes := ok_bytes (marshal_or_panic (mkMessageToSign (ok_bytes (marshal_or_panic (mkIdentifierHeader 1 [x01]))) [x02] [x03])).
Definition compound (n : nat) : Signature :=
  mkSignature 1 (Some (ok_bytes (marshal_or_panic (replicate (S n) one_byte)))) (Some (ok_bytes (marshal_or_panic (replicate (S n) signed_message)))).
Definition decision (num : N) (blocks : list Block) : Block :=
  let header := ok_bytes (Header_Serialize (mkHeader num [] blocks (Some node_state) 0)) in
  ok_block (CreateBlockToAppendFromDecision num (mkProposal (Some [x01]) (Some header) (Some []) 0) [compound (length blocks)] [] 0).
Definition decisions : list Block := [decision 0 []; decision 1 [common0; common1]].

Definition ordered : list AvailableBatchOrdered := match all_batches decisions with Ok all => all | _ => [] end.
Definition start : AssemblerLedger := mkAL [] 0 0 0.
(** The assembler crashed after the first batch of the second decision. *)
Definition crashed : AssemblerLedger := match processOrderedBatchAttestations 0 start (take 1 ordered) with Ok (l, _) => l | _ => start end.

Lemma ordered_two : length ordered = 2.
Proof. vm_compute. reflexivity. Qed.
Lemma crashed_one : length (al_Ledger crashed) = 1.
Proof. vm_compute. reflexivity. Qed.

(** *** The decisions are in order *)
Definition decision_number (b : Block) : option N := match extractHeaderAndSigsFromBlock (Some b) with Ok r => Some (h_Num r.1) | _ => None end.
Lemma decision_number_Ok b r : extractHeaderAndSigsFromBlock (Some b) = Ok r -> decision_number b = Some (h_Num r.1).
Proof. intros E. unfold decision_number. by rewrite E. Qed.

(** What [readable] asks of an attestation with signatures, as a computation. *)
Definition identifiedb (s : Signature) : bool :=
  match (unmarshal (slice_bytes (sig_Msg s)) : outcome MessageToSign) with
  | Ok msg => match (unmarshal (mts_IdentifierHeader msg) : outcome IdentifierHeader) with Ok _ => true | _ => false end
  | _ => false
  end.
Definition readableb (oba : AvailableBatchOrdered) : bool :=
  let oi := abo_OrderingInformation oba in
  match oi_CommonBlock oi with
  | Some cb =>
      match b_Metadata cb with
      | Some md =>
          match md !! BlockMetadataIndex_ORDERER with
          | Some raw =>
              match AssemblerBlockMetadataFromBytes (Some raw) with
              | Ok (_, _, _, num, bI, bC, _) => (num =? oi_DecisionNum oi)%N && (bI =? oi_BatchIndex oi)%N && (bC =? oi_BatchCount oi)%N
              | _ => false
              end
          | None => false
          end
      | None => false
      end
  | None => false
  end && negb (bool_decide (oi_Signatures oi = [])) && forallb identifiedb (oi_Signatures oi).

Lemma readableb_sound oba : readableb oba = true -> readable oba.
Proof.
  unfold readableb. rewrite !andb_true_iff, negb_true_iff, bool_decide_eq_false. intros [[Hb Hne] Hids].
  destruct (oi_CommonBlock _) as [cb|] eqn:Ecb; [|done]. destruct (b_Metadata cb) as [md|] eqn:Emd; [|done]. destruct (md !! _) as [raw|] eqn:Eraw; [|done].
  destruct (AssemblerBlockMetadataFromBytes _) as [[[[[[[pr sh] seq] num] bI] bC] tC]| |] eqn:Et; [|done..]. rewrite !andb_true_iff, !N.eqb_eq in Hb. destruct Hb as [[-> ->] ->]. split.
  - exists cb, md, raw, pr, sh, seq, (oi_BatchCount (abo_OrderingInformation oba)), tC. repeat (split; [done|]). done.
  - apply Forall_forall. intros s Hs. rewrite forallb_forall in Hids. specialize (Hids s (proj1 (list_elem_of_In _ _) Hs)). unfold identifiedb in Hids.
    destruct (unmarshal (slice_bytes (sig_Msg s)) : outcome MessageToSign) as [msg| |] eqn:Em; [|done..]. destruct (unmarshal (mts_IdentifierHeader msg) : outcome IdentifierHeader) as [idh| |] eqn:Ei; [|done..].
    by exists msg, idh.
Qed.

Definition handled (b : Block) : list AvailableBatchOrdered := match handleBlock (mkPosition 0 0) b with Ok abos => abos | _ => [] end.

Lemma sample_decisions_ok : decisions_ok decisions.
Proof.
  split.
  - vm_compute. discriminate.
  - intros i b r Hi E%decision_number_Ok. assert (decision_number <$> decisions = [Some 0%N; Some 1%N]) as Hn by (vm_compute; reflexivity).
    pose proof (f_equal (lookup i) Hn) as Hl. rewrite list_lookup_fmap, Hi in Hl. cbn [fmap option_fmap option_map] in Hl. rewrite E in Hl.
    destruct i as [|[|i]]; cbn in Hl; [by injection Hl..|done].
  - intros b abos Hb E. assert (forallb readableb (handled b) = true) as Hf. { unfold decisions in Hb. rewrite !elem_of_cons, elem_of_nil in Hb. destruct Hb as [->|[->|[]]]; vm_compute; reflexivity. }
    unfold handled in Hf. rewrite E in Hf. apply Forall_forall. intros x Hx. rewrite forallb_forall in Hf. apply readableb_sound, Hf. by apply list_elem_of_In.
Qed.

Lemma sample_ordered : all_batches decisions = Ok ordered.
Proof. vm_compute. reflexivity. Qed.
Lemma sample_crashed : exists ex, processOrderedBatchAttestations 0 start (take 1 ordered) = Ok (crashed, ex).
Proof. eexists. vm_compute. reflexivity. Qed.
Lemma sample_replicated : Replicate start decisions = Ok ordered.
Proof. vm_compute. reflexivity. Qed.

Lemma crashed_life : life decisions crashed.
Proof.
  destruct sample_crashed as [ex E]. eapply (life_run decisions start ordered (take 1 ordered)); [by apply life_start|apply sample_replicated|apply prefix_take|exact E].
Qed.

(** ** Witnesses *)
Lemma assembler_ledger_follows_witness : chain_ok (al_Ledger crashed) /\ Replicate crashed decisions = Ok (drop 1 ordered).
Proof.
  destruct (assembler_ledger_follows decisions crashed ordered sample_decisions_ok sample_ordered crashed_life) as (Hc & _ & _ & Hr).
  rewrite crashed_one in Hr. split; [exact Hc|exact Hr].
Defined.

(** With the second batch queued when the connection is lost, the new connection starts at the second decision. *)
Definition second : AvailableBatchOrdered := match drop 1 ordered with x :: _ => x | [] => mkABO (AvailableBatch.mk 0 0 0 []) (mkOI None [] 0 0 0) end.
Definition redelivered : list AvailableBatchOrdered := match delivered (mkPosition 0 0) decisions 1 with Ok r => r | _ => [] end.

Lemma reconnect_redelivers_witness : second ∈ redelivered /\ forall l', processOrderedBatchAttestations 0 crashed ([second] ++ redelivered) <> Ok (l', Running).
Proof.
  apply (reconnect_redelivers decisions crashed ordered (mkPosition 0 0) 0 [] [] second redelivered sample_decisions_ok sample_ordered (proj1 (life_follows _ _ _ crashed_life sample_decisions_ok sample_ordered))).
  - rewrite crashed_one. vm_compute. reflexivity.
  - vm_compute. reflexivity.
  - vm_compute. reflexivity.
Defined.

Definition crashed_batches : list AvailableBatch.t := match batches_of (al_Ledger crashed) with Ok bs => bs | _ => [] end.
Lemma batch_frontier_correct_witness : exists f, BatchFrontier_of crashed [1%N] [1; 2]%N (fun _ => false) = Ok (Some f) /\ entry f 1 2 = Some 4%N.
Proof.
  destruct (batch_frontier_correct crashed crashed_batches [1%N] [1; 2]%N (fun _ => false)) as (f & Hf & _ & Hc).
  - vm_compute. discriminate.
  - vm_compute. reflexivity.
  - apply NoDup_singleton.
  - repeat constructor; [by intros ?%list_elem_of_singleton|by intros ?%not_elem_of_nil].
  - exists f. split; [exact Hf|]. rewrite (Hc ltac:(done) 1%N 2%N); [vm_compute; reflexivity|]. repeat split; [by left|by right; left|discriminate|discriminate].
Defined.

Definition honest_answer : Block := NewFabricBatchFromRequests 1 2 4 [[x61]] (BatchedRequests.Digest [[x61]]) 0 [] [].
Definition fetched_id : BatchID := mkBatchID 1 2 4 (BatchedRequests.Digest [[x61]]).
Definition fetched : Batch := mkBatch fetched_id [[x61]].
Lemma fetched_batch_is_ordered_witness : exists b, GetBatch [(2%N, 4); (1%N, 3)] fetched_id [None; Some empty_block; Some honest_answer] = Ok b /\ bt_ID b = fetched_id.
Proof.
  destruct (fetched_batch_is_ordered [(2%N, 4); (1%N, 3)] fetched_id 3 [None; Some empty_block; Some honest_answer] eq_refl) as (Hok & _ & Hfound).
  destruct (Hfound (Some honest_answer) fetched) as [b E]; [by right; right; left|vm_compute; reflexivity|by cbn|]. exists b. split; [exact E|]. exact (proj1 (Hok b E)).
Defined.
