(* ===== verification/PrefetchMap.v ===== *)
(** * The prefetch index of all partitions

    [src/node/assembler/prefetch_index.go]: one index per shard and primary, each with its own lock; the requests of all
    of them go to one channel, here the list of each partition. The index provides what the collator needs. *)
From S2P Require Import Prelude Types Events Blocks BatchMapper BatchHeap PrefetchIndex PrefetchThms StateCodec Consensus FabricBatch Assembler.
From Stdlib Require Import NArith Lia.

Record PrefetchIndex := mkPrefetchIndex { partitionToIndex : gmap ShardPrimary PartitionPrefetchIndex }.

Definition NewPrefetchIndex (shards : list ShardID) (parties : list PartyID) (maxPartitionSizeBytes : Z) : PrefetchIndex :=
  mkPrefetchIndex (foldl (fun m shardId => foldl (fun m partyId =>
    let partition := mkPartition shardId partyId in <[partition := NewPartitionPrefetchIndex partition maxPartitionSizeBytes]> m) m parties) ∅ shards).

(** A missing partition is a nil interface, on which a call panics. *)
Definition on_partition {R} (pi : PrefetchIndex) (batchId : BatchID) (op : PartitionPrefetchIndex -> outcome (PartitionPrefetchIndex * R)) : outcome (PrefetchIndex * R) :=
  let partition := ShardPrimaryFromBatch batchId in
  partitionIndex ← deref (partitionToIndex pi !! partition);
  r ← op partitionIndex;
  Ok (mkPrefetchIndex (<[partition := r.1]> (partitionToIndex pi)), r.2).

Definition Index_PopOrWait (pi : PrefetchIndex) (batchId : BatchID) (flag : bool) : outcome (PrefetchIndex * pop_result) :=
  on_partition pi batchId (fun p => p ← PopOrWait_begin p batchId; PopOrWait_round p batchId flag).
Definition Index_Put (pi : PrefetchIndex) (batch : Batch) : outcome (PrefetchIndex * put_result) := on_partition pi (bt_ID batch) (fun p => Put p batch).
Definition Index_PutForce (pi : PrefetchIndex) (batch : Batch) : outcome (PrefetchIndex * outcome unit) := on_partition pi (bt_ID batch) (fun p => PutForce p batch).

(** Every partition is in order. *)
Definition all_inv (pi : PrefetchIndex) : Prop :=
  forall partition p, partitionToIndex pi !! partition = Some p -> pi_partition p = partition /\ exists a f, index_inv a f p.

Lemma new_inv shards parties max : (0 <= max)%Z -> all_inv (NewPrefetchIndex shards parties max).
Proof.
  intros Hm. unfold all_inv, NewPrefetchIndex. cbn [partitionToIndex].
  set (P := fun m : gmap ShardPrimary PartitionPrefetchIndex => forall partition p, m !! partition = Some p -> pi_partition p = partition /\ exists a f, index_inv a f p).
  assert (forall s m, P m -> P (foldl (fun m partyId => <[mkPartition s partyId := NewPartitionPrefetchIndex (mkPartition s partyId) max]> m) m parties)) as Hinner.
  { intros s. generalize parties. induction parties0 as [|q qs IH]; intros m Hp; [done|]. cbn [foldl]. apply IH. intros partition p [[<- <-]|[_ E]]%lookup_insert_Some; [|by apply Hp].
    split; [done|]. exists ∅, ∅. by apply index_inv_new. }
  change (P (foldl (fun m shardId => foldl (fun m partyId => <[mkPartition shardId partyId := NewPartitionPrefetchIndex (mkPartition shardId partyId) max]> m) m parties) ∅ shards)).
  assert (P ∅) as H0 by (intros ? ? E; by rewrite lookup_empty in E). revert H0. generalize (∅ : gmap ShardPrimary PartitionPrefetchIndex). induction shards as [|s ss IH]; intros m Hp; [done|].
  cbn [foldl]. by apply IH, Hinner.
Qed.

(** Put keeps all partitions in order. *)
Lemma Put_inv pi batch pi' r : all_inv pi -> Index_Put pi batch = Ok (pi', r) -> all_inv pi'.
Proof.
  intros Hi E. unfold Index_Put, on_partition in E. apply bind_Ok_inv in E as (p & Hp & E). apply bind_Ok_inv in E as ([p' r'] & Hput & E). apply Ok_inj in E. injection E as <- <-.
  destruct (partitionToIndex pi !! _) as [p0|] eqn:Ep; [|done]. cbn in Hp. apply Ok_inj in Hp as ->. destruct (Hi _ _ Ep) as [Hpart Hinv].
  intros partition q Hq. cbn [partitionToIndex fst] in Hq. apply lookup_insert_Some in Hq as [[<- <-]|[_ Eq]]; [|by apply Hi]. destruct (step_kept p p') as (E1 & _ & Hinv'); [by eapply step_put|done|]. cbn. split; [congruence|done].
Qed.

(** ** The index as the collator sees it *)
(** What a call of PopOrWait gives at a time when the index is [pi]; the call that has to wait has no result yet. *)
Definition pop_now (pi : PrefetchIndex) (batchId : BatchID) : outcome Batch :=
  r ← Index_PopOrWait pi batchId false;
  match r.2 with Popped b => Ok b | PopFailed e => Err e | PopWaiting _ _ => Err "waiting" end.

Lemma pop_now_id pi id b : all_inv pi -> pop_now pi id = Ok b -> bt_ID b = id.
Proof.
  intros Hi E. unfold pop_now, Index_PopOrWait, on_partition in E. apply bind_Ok_inv in E as ([pi' r] & E & Er). cbn [snd] in Er. destruct r as [b'| |]; [|done..]. apply Ok_inj in Er as ->.
  apply bind_Ok_inv in E as (p & Hp & E). destruct (partitionToIndex pi !! _) as [p0|] eqn:Ep; [|done]. cbn in Hp. apply Ok_inj in Hp as ->. destruct (Hi _ _ Ep) as [Hpart Hinv].
  apply bind_Ok_inv in E as ([p1 r1] & E & E'). apply Ok_inj in E'. injection E' as _ ->. apply bind_Ok_inv in E as (p2 & Hbegin & E).
  destruct (step_kept p p2) as (Hpart2 & _ & a & f & Hinv2); [by eapply step_pop_begin|done|]. assert (in_partition (pi_partition p2) id) as Hin by (unfold in_partition; congruence).
  destruct (cancelled p2) eqn:Hcan; [unfold PopOrWait_round in E; rewrite Hcan in E; done|]. pose proof (round_spec a f p2 id false Hinv2 Hin Hcan) as Hr. rewrite E in Hr.
  destruct (a !! key_of id) as [b0|] eqn:Ea; [|destruct (f !! key_of id) as [b0|] eqn:Ef].
  - destruct Hr as (? & Eq & _). apply Ok_inj in Eq. injection Eq as _ ->. exact (cached_id _ _ _ _ _ (ii_cache _ _ _ Hinv2) Hin Ea).
  - destruct Hr as (? & Eq & _). apply Ok_inj in Eq. injection Eq as _ ->. exact (cached_id _ _ _ _ _ (ii_forced _ _ _ Hinv2) Hin Ef).
  - done.
Qed.

Definition index_for_collator (pi : PrefetchIndex) (Hi : all_inv pi) : AssemblerIndex := {| PopOrWait := pop_now pi; PopOrWait_id := fun id b => pop_now_id pi id b Hi |}.
