(* ===== verification/Acker.v ===== *)
(** * The primary's acker

    [src/node/batcher/acker.go]: the primary of a shard counts the acknowledgements of its secondaries and holds back
    when it is [gap] batches ahead of what a threshold of batchers has stored. HandleAck is one critical section; the
    loop of wait is one round per time it holds the lock. *)
From S2P Require Import Prelude Types.
From stdpp Require Import gmap sets relations.
From Stdlib Require Import NArith Lia.

Record Acker := mkAcker {
  ak_threshold : N;
  ak_numOfParties : N;
  ak_gap : BatchSequence;
  ak_confirmedSeq : BatchSequence;
  ak_confirmedSequences : gmap BatchSequence (gset PartyID);
  ak_stopped : bool
}.

Definition NewAcker (confirmedSeq gap : BatchSequence) (numOfParties threshold : N) : Acker :=
  mkAcker threshold numOfParties gap confirmedSeq ∅ false.

Definition Acker_Stop (a : Acker) : Acker :=
  mkAcker (ak_threshold a) (ak_numOfParties a) (ak_gap a) (ak_confirmedSeq a) (ak_confirmedSequences a) true.

(** Who confirmed a sequence, as far as the acker remembers; a missing entry counts as empty. *)
Definition confirmations (a : Acker) (seq : BatchSequence) : gset PartyID := default ∅ (ak_confirmedSequences a !! seq).

Definition with_confirmed (a : Acker) (confirmedSeq : BatchSequence) (m : gmap BatchSequence (gset PartyID)) : Acker :=
  mkAcker (ak_threshold a) (ak_numOfParties a) (ak_gap a) confirmedSeq m (ak_stopped a).

Definition HandleAck (a : Acker) (seq : BatchSequence) (from : PartyID) : Acker :=
  if (seq <? ak_confirmedSeq a)%N then a
  else if (ak_gap a <? seq - ak_confirmedSeq a)%N then a
  else if decide (from ∈ confirmations a seq) then a
  else
    let m := <[seq := {[from]} ∪ confirmations a seq]> (ak_confirmedSequences a) in
    let signatureCollectCount := N.of_nat (size (default ∅ (m !! ak_confirmedSeq a))) in
    if (ak_threshold a <=? signatureCollectCount)%N
    then with_confirmed a (u64_incr (ak_confirmedSeq a)) (delete (ak_confirmedSeq a) m)
    else with_confirmed a (ak_confirmedSeq a) m.

(** The difference is of uint64, so it wraps around when the sequence is below the confirmed one. *)
Definition secondariesKeepUpWithMe (a : Acker) (seq : BatchSequence) : bool :=
  (u64 (seq + 18446744073709551616 - ak_confirmedSeq a) <? ak_gap a)%N.

Inductive wait_result := KeptUp | WaitStopped | Waiting.
#[global] Instance wait_result_eq : EqDecision wait_result. Proof. solve_decision. Defined.
Definition wait_round (a : Acker) (seq : BatchSequence) : wait_result :=
  if secondariesKeepUpWithMe a seq then KeptUp else if ak_stopped a then WaitStopped else Waiting.

(** ** One acknowledgement *)

Lemma empty_below (P : gset PartyID) : ∅ ⊆ P.
Proof. apply empty_subseteq. Qed.

Lemma HandleAck_cases a seq from :
  HandleAck a seq from = a /\ ((seq < ak_confirmedSeq a)%N \/ (ak_confirmedSeq a + ak_gap a < seq)%N \/ from ∈ confirmations a seq) \/
  ((ak_confirmedSeq a <= seq <= ak_confirmedSeq a + ak_gap a)%N /\ from ∉ confirmations a seq /\
   let m := <[seq := {[from]} ∪ confirmations a seq]> (ak_confirmedSequences a) in
   let count := N.of_nat (size (default ∅ (m !! ak_confirmedSeq a))) in
   ((ak_threshold a <= count)%N /\ HandleAck a seq from = with_confirmed a (u64_incr (ak_confirmedSeq a)) (delete (ak_confirmedSeq a) m) \/
    (count < ak_threshold a)%N /\ HandleAck a seq from = with_confirmed a (ak_confirmedSeq a) m)).
Proof.
  unfold HandleAck. destruct (N.ltb_spec seq (ak_confirmedSeq a)); [by left; auto|].
  destruct (N.ltb_spec (ak_gap a) (seq - ak_confirmedSeq a)); [left; split; [done|right; left; lia]|].
  destruct (decide _); [by left; auto|]. right. split; [lia|]. split; [done|]. cbv zeta. destruct (N.leb_spec (ak_threshold a) (N.of_nat (size (default ∅ (<[seq:={[from]} ∪ confirmations a seq]> (ak_confirmedSequences a) !! ak_confirmedSeq a))))); auto.
Qed.

(** Only [ak_confirmedSeq] and the remembered confirmations ever change. *)
Lemma HandleAck_frame a seq from :
  ak_threshold (HandleAck a seq from) = ak_threshold a /\ ak_gap (HandleAck a seq from) = ak_gap a /\ ak_stopped (HandleAck a seq from) = ak_stopped a.
Proof. destruct (HandleAck_cases a seq from) as [[-> _]|(_ & _ & [[_ ->]|[_ ->]])]; done. Qed.

(** The same in terms of confirmations: an acknowledgement is dropped, or it is recorded and the confirmed sequence moves
    on by one if that sequence now has enough of them. *)
Lemma HandleAck_spec a seq from : (ak_confirmedSeq a < u64_max)%N ->
  let a' := HandleAck a seq from in
  let c := ak_confirmedSeq a in
  a' = a /\ ((seq < c)%N \/ (c + ak_gap a < seq)%N \/ from ∈ confirmations a seq) \/
  (c <= seq <= c + ak_gap a)%N /\ from ∉ confirmations a seq /\
  let recorded s := if decide (s = seq) then {[from]} ∪ confirmations a s else confirmations a s in
  ((ak_threshold a <= N.of_nat (size (recorded c)))%N /\ ak_confirmedSeq a' = (c + 1)%N /\
     (forall s, confirmations a' s = if decide (s = c) then ∅ else recorded s) \/
   (N.of_nat (size (recorded c)) < ak_threshold a)%N /\ ak_confirmedSeq a' = c /\ (forall s, confirmations a' s = recorded s)).
Proof.
  intros Hmax. cbv zeta. destruct (HandleAck_cases a seq from) as [?|(Hw & Hnew & Hc)]; [by left|right]. split; [done|]. split; [done|].
  cbv zeta in Hc.
  assert (forall s, default ∅ (<[seq := {[from]} ∪ confirmations a seq]> (ak_confirmedSequences a) !! s) =
     if decide (s = seq) then {[from]} ∪ confirmations a s else confirmations a s) as Hrec.
  { intros s. destruct (decide (s = seq)) as [->|]; [by rewrite lookup_insert_eq|by rewrite lookup_insert_ne]. }
  rewrite !Hrec in Hc. destruct Hc as [[Hge ->]|[Hlt ->]]; [left|right]; (split; [done|]).
  - split; [by apply u64_incr_small|]. intros s. unfold confirmations at 1; cbn [with_confirmed ak_confirmedSequences].
    destruct (decide (s = ak_confirmedSeq a)) as [->|]; [by rewrite lookup_delete_eq|]. rewrite lookup_delete_ne by done. apply Hrec.
  - split; [done|]. intros s. unfold confirmations at 1; cbn [with_confirmed ak_confirmedSequences]. apply Hrec.
Qed.

(** ** Soundness and memory, whatever acknowledgements arrive *)

Definition acked_by (acks : list (BatchSequence * PartyID)) (s : BatchSequence) (P : gset PartyID) : Prop := forall p, p ∈ P -> (s, p) ∈ acks.

Definition handle_all (a : Acker) (acks : list (BatchSequence * PartyID)) : Acker := foldl (fun a x => HandleAck a x.1 x.2) a acks.

(** What the acker's state says of the acknowledgements so far. *)
Record acker_inv (s0 : BatchSequence) (acks : list (BatchSequence * PartyID)) (a : Acker) : Prop := {
  ai_start : (s0 <= ak_confirmedSeq a <= s0 + N.of_nat (length acks))%N;
  ai_passed : forall s, (s0 <= s < ak_confirmedSeq a)%N -> exists P, (ak_threshold a <= N.of_nat (size P))%N /\ acked_by acks s P;
  ai_window : forall s, is_Some (ak_confirmedSequences a !! s) -> (ak_confirmedSeq a <= s <= ak_confirmedSeq a + ak_gap a)%N;
  ai_stored : forall s, acked_by acks s (confirmations a s)
}.

Lemma acked_by_mono acks x s P : acked_by acks s P -> acked_by (acks ++ [x]) s P.
Proof. intros H p Hp. apply elem_of_app. left. auto. Qed.

Lemma acker_inv_step s0 acks a s p : acker_inv s0 acks a -> (s0 + N.of_nat (length acks) < u64_max)%N ->
  acker_inv s0 (acks ++ [(s, p)]) (HandleAck a s p).
Proof.
  intros [Hst Hpass Hwin Hstored] Hmax.
  assert (forall r, acked_by (acks ++ [(s, p)]) r (if decide (r = s) then {[p]} ∪ confirmations a r else confirmations a r)) as Hrec.
  { intros r. destruct (decide (r = s)) as [->|]; [|by apply acked_by_mono].
    intros q [->%elem_of_singleton|Hq]%elem_of_union; apply elem_of_app; [right; by left|left; by apply Hstored]. }
  assert (forall r, (s0 <= r < ak_confirmedSeq a)%N -> exists P, (ak_threshold a <= N.of_nat (size P))%N /\ acked_by (acks ++ [(s, p)]) r P) as Hpass'.
  { intros r Hr. destruct (Hpass r Hr) as (P & ? & ?). exists P. split; [done|by apply acked_by_mono]. }
  destruct (HandleAck_frame a s p) as (Et & Eg & _).
  assert (forall r, is_Some (<[s := {[p]} ∪ confirmations a s]> (ak_confirmedSequences a) !! r) -> r = s \/ (ak_confirmedSeq a <= r <= ak_confirmedSeq a + ak_gap a)%N) as Hwin'.
  { intros r [x Hx]. destruct (decide (r = s)) as [->|]; [by left|right]. rewrite lookup_insert_ne in Hx by done. apply Hwin. by exists x. }
  destruct (HandleAck_spec a s p) as [[-> _]|(Hw & _ & Hs)]; [lia| |].
  { constructor; [rewrite length_app; cbn [length]; lia|done|done|intros r; by apply acked_by_mono]. }
  cbv zeta in Hs. constructor; rewrite ?Et, ?Eg, ?length_app; cbn [length].
  - destruct Hs as [(_ & -> & _)|(_ & -> & _)]; lia.
  - intros r Hr. destruct Hs as [(Hge & Ec & _)|(_ & Ec & _)]; rewrite Ec in Hr; [|by apply Hpass'].
    destruct (decide (r = ak_confirmedSeq a)) as [->|]; [eexists; split; [exact Hge|apply Hrec]|apply Hpass'; lia].
  - intros r. destruct (HandleAck_cases a s p) as [[-> _]|(_ & _ & [[_ ->]|[_ ->]])]; cbn [with_confirmed ak_confirmedSequences ak_confirmedSeq ak_gap].
    + apply Hwin.
    + rewrite u64_incr_small by lia. intros [x Hx]. apply lookup_delete_Some in Hx as [Hne Hx].
      destruct (Hwin' r) as [->|]; [by exists x|lia|lia].
    + intros Hx. destruct (Hwin' r Hx) as [->|]; lia.
  - intros r. destruct Hs as [(_ & _ & ->)|(_ & _ & ->)]; [|apply Hrec]. destruct (decide (r = ak_confirmedSeq a)); [intros q Hq; set_solver|apply Hrec].
Qed.

Lemma acker_inv_all s0 gap n t acks : (s0 + N.of_nat (length acks) <= u64_max)%N -> acker_inv s0 acks (handle_all (NewAcker s0 gap n t) acks).
Proof.
  unfold handle_all. induction acks as [|[s p] acks IH] using rev_ind; intros Hmax.
  { constructor; cbn; [lia|intros; lia|intros s [x Hx]; by rewrite lookup_empty in Hx|].
    intros s p Hp. unfold confirmations in Hp. cbn in Hp. rewrite lookup_empty in Hp. set_solver. }
  rewrite length_app in Hmax. cbn [length] in Hmax. rewrite foldl_app. apply acker_inv_step; [apply IH|]; lia.
Qed.

Lemma handle_all_frame a acks : ak_threshold (handle_all a acks) = ak_threshold a /\ ak_gap (handle_all a acks) = ak_gap a.
Proof.
  unfold handle_all. revert a. induction acks as [|x acks IH]; intros a; [done|]. cbn [foldl].
  destruct (IH (HandleAck a x.1 x.2)) as [-> ->]. by destruct (HandleAck_frame a x.1 x.2) as (-> & -> & _).
Qed.

(** The sequences that have an entry are a window of [gap + 1] numbers. *)
Lemma window_size (m : gmap N (gset N)) c g : (forall s, is_Some (m !! s) -> (c <= s <= c + g)%N) -> (N.of_nat (size m) <= g + 1)%N.
Proof.
  intros H. set (l := (fun i => (c + N.of_nat i)%N) <$> seq 0 (N.to_nat (g + 1))).
  transitivity (N.of_nat (size (list_to_set l : gset N))).
  - rewrite <-size_dom. apply N_of_nat_le, subseteq_size. intros s Hs%elem_of_dom. specialize (H s Hs).
    apply elem_of_list_to_set, list_elem_of_fmap. exists (N.to_nat (s - c)). split; [lia|]. apply elem_of_seq. lia.
  - rewrite size_list_to_set by (apply NoDup_fmap_elem; [apply NoDup_seq|intros; lia]). unfold l. rewrite length_fmap, length_seq. lia.
Qed.

Lemma keeps_up_below a seq s : (seq <= u64_max)%N -> (ak_confirmedSeq a <= u64_max)%N -> secondariesKeepUpWithMe a seq = true ->
  (s + ak_gap a <= seq)%N -> (s < ak_confirmedSeq a)%N.
Proof.
  unfold secondariesKeepUpWithMe, u64, u64_max. intros Hs Hc Hk%N.ltb_lt Hle.
  destruct (N.le_gt_cases (ak_confirmedSeq a) seq) as [Hge|]; [|lia].
  replace (seq + 18446744073709551616 - ak_confirmedSeq a)%N with (seq - ak_confirmedSeq a + 1 * 18446744073709551616)%N in Hk by lia.
  rewrite N.Div0.mod_add, N.mod_small in Hk by lia. lia.
Qed.

(** The acker never counts what it was not sent. Whatever acknowledgements arrive, in whatever order, repeated or
    far ahead: every sequence below the confirmed one was acknowledged by a threshold of distinct parties; when the
    primary is let past the wait for [seq], so was every sequence that is [gap] or more behind; and the acker remembers
    at most [gap + 1] sequences, of acknowledgements it really received. *)
Theorem acker_sound s0 gap n t acks a : (s0 + N.of_nat (length acks) <= u64_max)%N -> a = handle_all (NewAcker s0 gap n t) acks ->
  (forall s, (s0 <= s < ak_confirmedSeq a)%N -> exists P, (t <= N.of_nat (size P))%N /\ acked_by acks s P) /\
  (forall seq s, (seq <= u64_max)%N -> wait_round a seq = KeptUp -> (s0 <= s)%N -> (s + gap <= seq)%N ->
     exists P, (t <= N.of_nat (size P))%N /\ acked_by acks s P) /\
  (N.of_nat (size (ak_confirmedSequences a)) <= gap + 1)%N /\
  (forall s, acked_by acks s (confirmations a s)).
Proof.
  intros Hmax ->. pose proof (acker_inv_all s0 gap n t acks Hmax) as [Hst Hpass Hwin Hstored].
  destruct (handle_all_frame (NewAcker s0 gap n t) acks) as [Et Eg]. rewrite Et in Hpass. rewrite Eg in Hwin. cbn in Hpass, Hwin.
  split; [done|]. split; [|split; [by eapply window_size|done]].
  intros seq s Hseq Hk Hs Hle. apply Hpass. split; [done|]. unfold wait_round in Hk.
  destruct (secondariesKeepUpWithMe _ seq) eqn:E; [|by destruct (ak_stopped _)].
  eapply keeps_up_below; [done| |done|rewrite Eg; cbn; lia]. lia.
Qed.

Lemma acker_sound_witness :
  (forall s, (7 <= s < 8)%N -> exists P, (2 <= N.of_nat (size P))%N /\ acked_by [(7, 1); (8, 1); (7, 1); (12, 3); (7, 2)]%N s P).
Proof.
  pose proof (acker_sound 7 3 4 2 [(7, 1); (8, 1); (7, 1); (12, 3); (7, 2)]%N _ ltac:(vm_compute; discriminate) eq_refl) as (H & _).
  intros s Hs. apply H. exact Hs.
Defined.

(** ** The primary's loop

    The primary waits for its secondaries, appends the batch to its ledger, where the secondaries see it, sends its
    fragment, and acknowledges the batch itself. Parties in [F] may acknowledge anything at any time; the others
    acknowledge a batch only once it is in the primary's ledger, but their acknowledgements may be lost, repeated or
    out of order. The list of acknowledgements is kept for the statements only. *)
Section Loop.
Context (F : gset PartyID) (self : PartyID).

Record primary_loop := mkLoop {
  pl_acker : Acker;
  pl_seq : BatchSequence;
  pl_inflight : bool;
  pl_acks : list (BatchSequence * PartyID)
}.

(** How many batches are in the primary's ledger. *)
Definition pl_visible (st : primary_loop) : N := (if pl_inflight st then pl_seq st + 1 else pl_seq st)%N.

Inductive loop_step : primary_loop -> primary_loop -> Prop :=
| step_ack st s p : p <> self -> (p ∈ F \/ (s < pl_visible st)%N) ->
    loop_step st (mkLoop (HandleAck (pl_acker st) s p) (pl_seq st) (pl_inflight st) (pl_acks st ++ [(s, p)]))
| step_append st : pl_inflight st = false -> wait_round (pl_acker st) (pl_seq st) = KeptUp ->
    loop_step st (mkLoop (pl_acker st) (pl_seq st) true (pl_acks st))
| step_sent st : pl_inflight st = true ->
    loop_step st (mkLoop (HandleAck (pl_acker st) (pl_seq st) self) (u64_incr (pl_seq st)) false (pl_acks st ++ [(pl_seq st, self)])).

Context (t gap n s0 : N) (Ht : (0 < t)%N) (HF : (N.of_nat (size F) < t)%N) (Hgap : (0 < gap)%N).

Definition loop_start : primary_loop := mkLoop (NewAcker s0 gap n t) s0 false [].

Record loop_inv (st : primary_loop) : Prop := {
  li_params : ak_threshold (pl_acker st) = t /\ ak_gap (pl_acker st) = gap;
  li_acker : acker_inv s0 (pl_acks st) (pl_acker st);
  li_window : (ak_confirmedSeq (pl_acker st) <= pl_visible st <= ak_confirmedSeq (pl_acker st) + gap)%N;
  li_early : forall s, (pl_visible st <= s)%N -> confirmations (pl_acker st) s ⊆ F;
  li_own : forall s, (pl_seq st <= s)%N -> self ∉ confirmations (pl_acker st) s;
  li_honest : forall s p, (ak_confirmedSeq (pl_acker st) <= s)%N -> (s, p) ∈ pl_acks st -> p ∉ F -> p ∈ confirmations (pl_acker st) s;
  li_due : (t <= N.of_nat (size (confirmations (pl_acker st) (ak_confirmedSeq (pl_acker st)))))%N ->
           (pl_seq st < ak_confirmedSeq (pl_acker st) + gap)%N
}.

(** What one more acknowledgement does to the parts of the invariant that speak of the acker alone. *)
Lemma ack_common acks a s p visible : acker_inv s0 acks a -> (ak_confirmedSeq a < u64_max)%N -> ak_threshold a = t -> ak_gap a = gap ->
  (ak_confirmedSeq a <= visible <= ak_confirmedSeq a + gap)%N -> (p ∈ F \/ (s < visible)%N) ->
  (forall r, (visible <= r)%N -> confirmations a r ⊆ F) ->
  (forall r q, (ak_confirmedSeq a <= r)%N -> (r, q) ∈ acks -> q ∉ F -> q ∈ confirmations a r) ->
  let a' := HandleAck a s p in
  (ak_confirmedSeq a <= ak_confirmedSeq a' <= visible)%N /\
  (forall r, (visible <= r)%N -> confirmations a' r ⊆ F) /\
  (forall r q, (ak_confirmedSeq a' <= r)%N -> (r, q) ∈ acks ++ [(s, p)] -> q ∉ F -> q ∈ confirmations a' r) /\
  (forall r, confirmations a' r ⊆ {[p]} ∪ confirmations a r /\ (r <> s -> confirmations a' r ⊆ confirmations a r)) /\
  (ak_confirmedSeq a' = (ak_confirmedSeq a + 1)%N \/
   ak_confirmedSeq a' = ak_confirmedSeq a /\
   (a' = a /\ ((s < ak_confirmedSeq a)%N \/ (ak_confirmedSeq a + gap < s)%N \/ p ∈ confirmations a s) \/
    (N.of_nat (size (confirmations a' (ak_confirmedSeq a))) < t)%N)).
Proof.
  intros Hinv Hmax Et Eg Hwin Hp Hearly Hhon. destruct (HandleAck_spec a s p Hmax) as [[-> Hd]|(Hw & Hnew & Hs)]; cbv zeta in *.
  { rewrite Eg in Hd. split; [lia|]. split; [done|]. split; [|split; [intros r; split; [apply union_subseteq_r|done]|]].
    - intros r q Hr [Hin|Hin]%elem_of_app Hq; [by apply Hhon|]. apply list_elem_of_singleton in Hin as [= -> ->].
      destruct Hp as [?|Hlt]; [done|]. destruct Hd as [?|[?|?]]; [lia|lia|done].
    - right. auto. }
  rewrite Et, Eg in *.
  set (recorded r := if decide (r = s) then {[p]} ∪ confirmations a r else confirmations a r) in *.
  assert (forall r, (visible <= r)%N -> recorded r ⊆ F) as Hearly'.
  { intros r Hr. unfold recorded. specialize (Hearly r Hr). destruct (decide (r = s)) as [->|]; [|done]. destruct Hp; [|lia]. apply union_subseteq. split; [by apply singleton_subseteq_l|done]. }
  assert (forall r q, (ak_confirmedSeq a <= r)%N -> (r, q) ∈ acks ++ [(s, p)] -> q ∉ F -> q ∈ recorded r) as Hhon'.
  { intros r q Hr [Hin|Hin]%elem_of_app Hq; unfold recorded.
    - specialize (Hhon r q Hr Hin Hq). destruct (decide (r = s)); [apply elem_of_union; by right|done].
    - apply list_elem_of_singleton in Hin as [= -> ->]. rewrite decide_True by done. apply elem_of_union. left. by apply elem_of_singleton. }
  assert (forall r, recorded r ⊆ {[p]} ∪ confirmations a r /\ (r <> s -> recorded r ⊆ confirmations a r)) as Hsub.
  { intros r. unfold recorded. destruct (decide (r = s)) as [->|]; (split; [|intros ?]); [done|done|apply union_subseteq_r|done]. }
  destruct Hs as [(Hge & Ec & Hcf)|(Hlt & Ec & Hcf)]; rewrite Ec.
  - assert (ak_confirmedSeq a < visible)%N.
    { destruct (N.lt_ge_cases (ak_confirmedSeq a) visible) as [?|Hv]; [done|]. specialize (Hearly' _ Hv). apply subseteq_size in Hearly'. unfold recorded in Hearly'. lia. }
    split; [lia|]. split; [|split; [|split]].
    + intros r Hr. rewrite Hcf. destruct (decide (r = ak_confirmedSeq a)); [apply empty_below|by apply Hearly'].
    + intros r q Hr Hin Hq. rewrite Hcf. destruct (decide (r = ak_confirmedSeq a)); [lia|]. apply Hhon'; [lia|done|done].
    + intros r. rewrite Hcf. destruct (decide (r = ak_confirmedSeq a)); [split; [|intros _]; apply empty_below|apply Hsub].
    + by left.
  - split; [lia|]. split; [|split; [|split]].
    + intros r Hr. rewrite Hcf. by apply Hearly'.
    + intros r q Hr Hin Hq. rewrite Hcf. by apply Hhon'.
    + intros r. rewrite Hcf. apply Hsub.
    + right. split; [done|]. right. rewrite Hcf. exact Hlt.
Qed.

Lemma loop_inv_start : loop_inv loop_start.
Proof.
  assert (forall r, confirmations (NewAcker s0 gap n t) r = ∅) as E by (intros r; unfold confirmations; cbn; by rewrite lookup_empty).
  constructor; cbn [loop_start pl_acker pl_seq pl_acks pl_inflight]; unfold pl_visible; cbn [loop_start pl_inflight pl_seq NewAcker ak_confirmedSeq].
  - done.
  - constructor; cbn; [lia|intros; lia|intros s [x Hx]; by rewrite lookup_empty in Hx|]. intros s p Hp. rewrite E in Hp. by apply not_elem_of_empty in Hp.
  - lia.
  - intros. rewrite E. apply empty_below.
  - intros. rewrite E. apply not_elem_of_empty.
  - intros s p _ Hin. by apply not_elem_of_nil in Hin.
  - intros. lia.
Qed.

Lemma keeps_up_iff a seq : (seq <= u64_max)%N -> (ak_confirmedSeq a <= seq)%N -> secondariesKeepUpWithMe a seq = true <-> (seq < ak_confirmedSeq a + ak_gap a)%N.
Proof.
  unfold secondariesKeepUpWithMe, u64, u64_max. intros Hs Hc. rewrite N.ltb_lt.
  replace (seq + 18446744073709551616 - ak_confirmedSeq a)%N with (seq - ak_confirmedSeq a + 1 * 18446744073709551616)%N by lia.
  rewrite N.Div0.mod_add, N.mod_small by lia. lia.
Qed.

Lemma wait_round_KeptUp a seq : wait_round a seq = KeptUp <-> secondariesKeepUpWithMe a seq = true.
Proof. unfold wait_round. destruct (secondariesKeepUpWithMe a seq); [done|]. by destruct (ak_stopped a). Qed.

Lemma loop_inv_step st st' : loop_inv st -> loop_step st st' -> (pl_seq st + 1 < u64_max)%N -> (s0 + N.of_nat (length (pl_acks st)) < u64_max)%N -> loop_inv st'.
Proof.
  intros [[Et Eg] Hai Hwin Hearly Hown Hhon Hdue] Hstep Hseq Hlen.
  assert (pl_seq st <= pl_visible st <= pl_seq st + 1)%N as Hvis by (unfold pl_visible; destruct (pl_inflight st); lia).
  destruct Hstep as [st s p Hp Hps|st Hi Hk|st Hi].
  - destruct (ack_common (pl_acks st) (pl_acker st) s p (pl_visible st)) as (Hc & He & Hh & Hsub & Hcase); [done|lia|done..|].
    destruct (HandleAck_frame (pl_acker st) s p) as (Et' & Eg' & _).
    constructor; cbn [pl_acker pl_seq pl_acks]; rewrite ?Et', ?Eg'; try done.
    + apply acker_inv_step; [done|lia].
    + unfold pl_visible in *; cbn [pl_inflight pl_seq]. lia.
    + intros r Hr Hin. specialize (Hown r Hr). apply (proj1 (Hsub r)) in Hin. apply elem_of_union in Hin as [Hin%elem_of_singleton|]; congruence.
    + intros Hd. destruct Hcase as [->|[Ec [[Ea _]|Hlt]]]; [lia|rewrite Ea in *; auto|rewrite Ec in Hd; lia].
  - apply wait_round_KeptUp, keeps_up_iff in Hk; [|lia|unfold pl_visible in Hwin; rewrite Hi in Hwin; lia]. rewrite Eg in Hk.
    unfold pl_visible in *; rewrite Hi in *.
    constructor; cbn [pl_acker pl_seq pl_acks]; unfold pl_visible; cbn [pl_inflight pl_seq]; try done; [lia|]. intros r Hr. apply Hearly. lia.
  - unfold pl_visible in Hwin, Hearly; rewrite Hi in *.
    destruct (ack_common (pl_acks st) (pl_acker st) (pl_seq st) self (pl_seq st + 1)%N) as (Hc & He & Hh & Hsub & Hcase); [done|lia|done|done|done|right; lia|done|done|].
    destruct (HandleAck_frame (pl_acker st) (pl_seq st) self) as (Et' & Eg' & _).
    constructor; cbn [pl_acker pl_seq pl_acks]; unfold pl_visible; cbn [pl_inflight pl_seq]; rewrite ?Et', ?Eg', ?u64_incr_small by lia; try done.
    + apply acker_inv_step; [done|lia].
    + lia.
    + intros r Hr Hin. apply (Hown r); [lia|]. apply (proj2 (Hsub r)); [lia|done].
    + intros Hd. destruct Hcase as [->|[Ec [[Ea Hwhy]|Hlt]]]; [lia| |rewrite Ec in Hd; lia].
      destruct Hwhy as [?|[?|Hin]]; [lia|lia|]. by destruct (Hown (pl_seq st) ltac:(lia)).
Qed.

(** In [k] steps the primary makes at most [k] batches and receives at most [k] acknowledgements. *)
Lemma loop_bounds k st : nsteps loop_step k loop_start st -> (s0 + N.of_nat k + 1 < u64_max)%N ->
  loop_inv st /\ (pl_seq st <= s0 + N.of_nat k)%N /\ length (pl_acks st) <= k.
Proof.
  revert st. induction k as [|k IH]; intros st Hn Hmax.
  { inversion Hn; subst. split; [apply loop_inv_start|]. cbn. lia. }
  apply nsteps_inv_r in Hn as (st1 & Hn & Hstep). destruct (IH st1 Hn) as (Hinv & Hs & Hl); [lia|].
  split; [eapply loop_inv_step; [done|done|lia|lia]|]. destruct Hstep; cbn [pl_seq pl_acks]; rewrite ?length_app; cbn [length]; try lia.
  rewrite u64_incr_small by lia. lia.
Qed.

(** The window of the primary is exact. Fewer than a threshold of parties misbehave; acknowledgements of the others may
    be lost, repeated or reordered. In every reachable state in which the primary is about to make batch [seq]: the
    confirmed sequence is never ahead of it and at most [gap] behind, so the difference does not wrap around; if
    the primary may go on, every batch [gap] or more behind was acknowledged by a threshold of parties; and if each
    such batch was acknowledged by a threshold of correct parties, the primary may go on, although an
    acknowledgement moves the confirmed sequence by at most one. *)
Theorem primary_window k st : nsteps loop_step k loop_start st -> (s0 + N.of_nat k + 1 < u64_max)%N -> pl_inflight st = false ->
  (ak_confirmedSeq (pl_acker st) <= pl_seq st <= ak_confirmedSeq (pl_acker st) + gap)%N /\
  (wait_round (pl_acker st) (pl_seq st) = KeptUp -> forall s, (s0 <= s)%N -> (s + gap <= pl_seq st)%N ->
     exists P, (t <= N.of_nat (size P))%N /\ acked_by (pl_acks st) s P) /\
  ((forall s, (s0 <= s)%N -> (s + gap <= pl_seq st)%N -> exists P, P ## F /\ (t <= N.of_nat (size P))%N /\ acked_by (pl_acks st) s P) ->
     wait_round (pl_acker st) (pl_seq st) = KeptUp).
Proof.
  intros Hn Hmax Hidle. destruct (loop_bounds k st Hn Hmax) as ([[Et Eg] Hai Hwin _ _ Hhon Hdue] & Hs & _).
  unfold pl_visible in Hwin. rewrite Hidle in Hwin. split; [done|].
  rewrite wait_round_KeptUp, keeps_up_iff, Eg by lia. split.
  - intros Hk s Hs0 Hle. rewrite <-Et. apply (ai_passed _ _ _ Hai). lia.
  - intros Hall. destruct (N.lt_ge_cases (pl_seq st) (ak_confirmedSeq (pl_acker st) + gap)) as [?|Hge]; [done|]. apply Hdue.
    destruct (Hall (ak_confirmedSeq (pl_acker st))) as (P & HPF & HP & Hacked); [by apply Hai|done|].
    etransitivity; [exact HP|]. apply N_of_nat_le, subseteq_size. intros p Hp. apply Hhon; [lia|by apply Hacked|].
    intros HpF. by apply (HPF p).
Qed.
End Loop.

(** Party 2 is faulty; batch 0 was confirmed late, so batch 1 has enough acknowledgements and is not confirmed yet. *)
Definition late_loop : primary_loop :=
  mkLoop (handle_all (NewAcker 0 2 4 2) [(0, 1); (1, 1); (5, 2); (1, 3); (0, 4)]%N) 2 false [(0, 1); (1, 1); (5, 2); (1, 3); (0, 4)]%N.
Lemma late_loop_reached : nsteps (loop_step {[2%N]} 1%N) 7 (loop_start 2 2 4 0) late_loop.
Proof.
  do 2 (eapply nsteps_l; [apply step_append; reflexivity|]; eapply nsteps_l; [apply step_sent; reflexivity|]).
  eapply nsteps_l; [apply (step_ack _ _ _ 5 2); [done|left; set_solver]|].
  eapply nsteps_l; [apply (step_ack _ _ _ 1 3); [done|right; done]|].
  eapply nsteps_l; [apply (step_ack _ _ _ 0 4); [done|right; done]|].
  match goal with |- nsteps _ 0 ?a ?b => replace a with b by (vm_compute; reflexivity) end. apply nsteps_O.
Qed.
Lemma primary_window_witness : ak_confirmedSeq (pl_acker late_loop) = 1%N /\ wait_round (pl_acker late_loop) 2 = KeptUp.
Proof.
  split; [vm_compute; reflexivity|].
  refine (proj2 (proj2 (primary_window {[2%N]} 1%N 2 2 4 0 _ _ _ 7 late_loop late_loop_reached _ _)) _); [done|by vm_compute|done|by vm_compute|done|].
  intros s Hs0 Hle. exists {[1%N; 4%N]}. assert (s = 0%N) as -> by (cbn in Hle; lia).
  split; [set_solver|]. split; [by vm_compute|]. intros p Hp.
  apply elem_of_union in Hp as [->%elem_of_singleton| ->%elem_of_singleton]; cbn; rewrite !elem_of_cons; auto 10.
Defined.
