(* ===== verification/Batcher.v ===== *)
(** * The batcher

    [src/node/batcher]: the role of a batcher in its shard (batcher_role.go: primary, secondary, term changes and the
    resubmission of requests), the node around it (batcher.go: fragments, complaints, the decisions it follows;
    batcher_builder.go: the initial state and restarts), and the broadcast of control events
    (control_event_broadcaster.go). The mempool and the verification of requests are interfaces here. *)
From S2P Require Import Prelude Types Events State Blocks Ledger StateCodec FabricBatch Acker.
From stdpp Require Import gmap sets.
From Stdlib Require Import NArith Lia.

(** The identifier of a request, as its hexadecimal text. *)
Abbreviation reqID := (list Byte.byte) (only parsing).

Definition DefaultRequestID `{Sha256} (req : bytes) : reqID := if decide (length req = 0) then [] else hex_encode (sha256 req).

(** ** Interfaces of the role *)
(** The operations of the mempool that the role calls and that change it. *)
Class MemPool (P : Type) := {
  mp_RemoveRequests : P -> list reqID -> P;
  mp_Submit : P -> bytes -> P * outcome unit;
  mp_Restart : P -> bool -> P
}.

(** BatchedRequestsVerifier: the identifiers of verified requests, and the unconditional check of one request. *)
Class BatchedRequestsVerifier (P : Type) := {
  VerifyBatchedRequests : P -> list bytes -> outcome (list reqID);
  VerifyRequest : bytes -> outcome unit
}.

(** The key of this batcher and the public keys of the batchers of the shard. *)
Class BatcherKeys := {
  batcher_sign : bytes -> outcome bytes;
  batcher_verify : NodeIdentity -> bytes -> bytes -> outcome unit
}.

Section Batcher.
Context `{FabricCodecs} `{BlockCodecs} `{Sha256} `{ChannelIDs} `{Codec asn1BAF} `{MemPool P} `{!BatchedRequestsVerifier P} `{BatcherKeys}.

Record BatcherRole := mkRole {
  br_Batchers : list PartyID;
  br_ID : PartyID;
  br_Shard : ShardID;
  br_Threshold : N;
  br_N : N;
  br_Ledger : BatchLedgerArray;
  br_ConfigSequence : ConfigSequence;
  br_MemPool : P;
  br_BatchSequenceGap : BatchSequence;
  br_primary : PartyID;
  br_seq : BatchSequence;
  br_term : N;
  br_acker : option Acker
}.

(** Assignments to the fields that change while the role runs. *)
Definition with_ledger (l : BatchLedgerArray) (b : BatcherRole) : BatcherRole :=
  mkRole (br_Batchers b) (br_ID b) (br_Shard b) (br_Threshold b) (br_N b) l (br_ConfigSequence b) (br_MemPool b) (br_BatchSequenceGap b)
    (br_primary b) (br_seq b) (br_term b) (br_acker b).
Definition with_pool (p : P) (b : BatcherRole) : BatcherRole :=
  mkRole (br_Batchers b) (br_ID b) (br_Shard b) (br_Threshold b) (br_N b) (br_Ledger b) (br_ConfigSequence b) p (br_BatchSequenceGap b)
    (br_primary b) (br_seq b) (br_term b) (br_acker b).
Definition with_position (primary : PartyID) (seq : BatchSequence) (b : BatcherRole) : BatcherRole :=
  mkRole (br_Batchers b) (br_ID b) (br_Shard b) (br_Threshold b) (br_N b) (br_Ledger b) (br_ConfigSequence b) (br_MemPool b) (br_BatchSequenceGap b)
    primary seq (br_term b) (br_acker b).
Definition with_term (term : N) (b : BatcherRole) : BatcherRole :=
  mkRole (br_Batchers b) (br_ID b) (br_Shard b) (br_Threshold b) (br_N b) (br_Ledger b) (br_ConfigSequence b) (br_MemPool b) (br_BatchSequenceGap b)
    (br_primary b) (br_seq b) term (br_acker b).
Definition with_acker (a : option Acker) (b : BatcherRole) : BatcherRole :=
  mkRole (br_Batchers b) (br_ID b) (br_Shard b) (br_Threshold b) (br_N b) (br_Ledger b) (br_ConfigSequence b) (br_MemPool b) (br_BatchSequenceGap b)
    (br_primary b) (br_seq b) (br_term b) a.

(** ** The primary of a term *)
(** The sum is of uint64; the remainder fits 16 bits. *)
Definition primary_index (shard : ShardID) (term n : N) : outcome N :=
  panic_if (n =? 0)%N with "integer divide by zero" ;; Ok (u16 (u64 (shard + term) mod n)).

Definition getPrimaryIndex (b : BatcherRole) (term : N) : outcome N := primary_index (br_Shard b) term (br_N b).
Definition getPrimaryID (b : BatcherRole) (term : N) : outcome PartyID :=
  primaryIndex ← getPrimaryIndex b term;
  match br_Batchers b !! N.to_nat primaryIndex with Some p => Ok p | None => Panic "index out of range" end.

(** The term of a shard in a state: of the last entry, and the largest uint64 counts as missing. *)
Definition shard_term (shard : ShardID) (shards : list ShardTerm) : outcome N :=
  let term := foldl (fun term st => if (st_Shard st =? shard)%N then st_Term st else term) u64_max shards in
  panic_if (term =? u64_max)%N with "Could not find our shard within the shards" ;; Ok term.
Definition getTerm (b : BatcherRole) (st : State) : outcome N := shard_term (br_Shard b) (s_Shards st).

(** ** Fragments and complaints *)
Definition CreateBAF (id : PartyID) (shard : ShardID) (digest : bytes) (primary : PartyID) (seq : BatchSequence) (configSeq : ConfigSequence)
    (txCount : N) (primarySignature : slice) : outcome BAF :=
  let baf := NewSimpleBatchAttestationFragment shard primary seq digest id configSeq txCount primarySignature in
  msg ← BAF_ToBeSigned baf;
  sig ← batcher_sign msg;
  Ok (SetSignature baf (Some sig)).

Definition CreateComplaint (id : PartyID) (shard : ShardID) (term : N) (configSeq : ConfigSequence) (reason : bytes) : outcome Complaint :=
  let c := mkComplaint (mkShardTerm shard term) id [] reason configSeq in
  msg ← Complaint_ToBeSigned c;
  sig ← batcher_sign msg;
  Ok (mkComplaint (mkShardTerm shard term) id sig reason configSeq).

(** ** The secondary *)
Definition verifyBatch (b : BatcherRole) (batch : Block) : outcome (list reqID) :=
  fail_if negb (FB_Primary batch =? br_primary b)%N with "batch primary not equal to expected primary" ;;
  fail_if negb (FB_Shard batch =? br_Shard b)%N with "batch shard not equal to expected shard" ;;
  fail_if negb (FB_Seq batch =? br_seq b)%N with "batch seq not equal to expected seq" ;;
  fail_if bool_decide (length (FB_Requests batch) = 0) with "empty batch" ;;
  fail_if negb (bool_decide (FB_Digest batch = BatchedRequests.Digest (FB_Requests batch))) with "batch digest is not equal to calculated digest" ;;
  let primaryBAF := NewSimpleBatchAttestationFragment (FB_Shard batch) (FB_Primary batch) (FB_Seq batch) (FB_Digest batch) (FB_Primary batch)
                      (FB_ConfigSequence batch) (N.of_nat (length (FB_Requests batch))) None in
  msg ← BAF_ToBeSigned primaryBAF;
  _ ← wrap_err "failed verifying primary signature" (batcher_verify (NewBatcherIdentity (FB_Primary batch) (FB_Shard batch)) msg (slice_bytes (FB_PrimarySignature batch)));
  wrap_err "failed verifying requests" (VerifyBatchedRequests (br_MemPool b) (FB_Requests batch)).

(** A pulled batch up to the broadcast of the fragment. An [Err] is the batch failing verification, for which the
    secondary complains; the ledger and the creation of the fragment panic instead. *)
Definition secondary_batch (b : BatcherRole) (batch : Block) : outcome (BatcherRole * BAF * list reqID) :=
  reqIDs ← verifyBatch b batch;
  let requests := FB_Requests batch in
  let digest := FB_Digest batch in
  ledger ← Array_Append (br_Ledger b) (br_primary b) (br_seq b) (br_ConfigSequence b) requests digest (slice_bytes (FB_PrimarySignature batch));
  baf ← or_panic (CreateBAF (br_ID b) (br_Shard b) digest (br_primary b) (br_seq b) (br_ConfigSequence b) (N.of_nat (length requests)) (FB_PrimarySignature batch));
  Ok (with_ledger ledger b, baf, reqIDs).

(** After the broadcast: the requests leave the pool, the primary gets its acknowledgement. *)
Definition secondary_sent (b : BatcherRole) (baf : BAF) (reqIDs : list reqID) : BatcherRole * (BatchSequence * PartyID) :=
  (with_position (br_primary b) (u64_incr (br_seq b)) (with_pool (mp_RemoveRequests (br_MemPool b) reqIDs) b), (baf_seq baf, br_primary b)).

(** ** The primary *)
Definition primary_batch (b : BatcherRole) (currentBatch : list bytes) : outcome (BatcherRole * BAF) :=
  let digest := BatchedRequests.Digest currentBatch in
  baf ← or_panic (CreateBAF (br_ID b) (br_Shard b) digest (br_ID b) (br_seq b) (br_ConfigSequence b) (N.of_nat (length currentBatch)) None);
  ledger ← Array_Append (br_Ledger b) (br_ID b) (br_seq b) (br_ConfigSequence b) currentBatch digest (slice_bytes (baf_signature baf));
  Ok (with_ledger ledger b, baf).

Definition role_HandleAck (b : BatcherRole) (seq : BatchSequence) (from : PartyID) : BatcherRole :=
  match br_acker b with Some a => with_acker (Some (HandleAck a seq from)) b | None => b end.

Definition primary_sent (b : BatcherRole) (reqIDs : list reqID) : BatcherRole :=
  let b := role_HandleAck b (br_seq b) (br_ID b) in
  with_pool (mp_RemoveRequests (br_MemPool b) reqIDs) (with_position (br_primary b) (u64_incr (br_seq b)) b).

(** ** The loop of run *)
Inductive role_phase :=
| AtTop | AsPrimary | AsSecondary
| PrimarySending (baf : BAF) (reqIDs : list reqID)
| SecondarySending (baf : BAF) (reqIDs : list reqID).

Definition run_top (b : BatcherRole) : outcome (BatcherRole * role_phase) :=
  primary ← getPrimaryID b (br_term b);
  height ← Array_Height (br_Ledger b) primary;
  let b := with_position primary height b in
  if (primary =? br_ID b)%N then
    let b := with_acker (Some (NewAcker height (br_BatchSequenceGap b) (br_N b) (u16 (br_Threshold b)))) b in
    Ok (with_pool (mp_Restart (br_MemPool b) true) b, AsPrimary)
  else Ok (with_pool (mp_Restart (br_MemPool b) false) b, AsSecondary).

(** ** Resubmission of requests *)
Definition revive_request (reverify : bool) (pool : P) (req : bytes) : P :=
  if reverify && negb (is_ok (VerifyRequest req)) then pool else (mp_Submit pool req).1.

Definition reviveBAFRequests (b : BatcherRole) (baf : BAF) : outcome BatcherRole :=
  batch ← Array_RetrieveBatchByNumber (br_Ledger b) (baf_primary baf) (baf_seq baf);
  match batch with
  | None => Panic "Error: No such batch"
  | Some batch =>
      let reverify := (baf_configSequence baf <? br_ConfigSequence b)%N in
      Ok (with_pool (foldl (revive_request reverify) (br_MemPool b) (FB_Requests batch)) b)
  end.

Fixpoint revive_all (b : BatcherRole) (bafs : list BAF) : outcome BatcherRole :=
  match bafs with [] => Ok b | baf :: rest => b ← reviveBAFRequests b baf; revive_all b rest end.

Definition my_baf (b : BatcherRole) (baf : BAF) : bool := (baf_shard baf =? br_Shard b)%N && (baf_signer baf =? br_ID b)%N.

Definition ResubmitPendingBAFs (b : BatcherRole) (st : State) (prevPrimary : PartyID) (ignorePrevPrimary : bool) : outcome BatcherRole :=
  revive_all b (List.filter (fun baf => my_baf b baf && (ignorePrevPrimary || (baf_primary baf =? prevPrimary)%N)) (s_Pending st)).

Definition ResubmitStaleConfigBAFs (b : BatcherRole) (st : State) : outcome BatcherRole :=
  revive_all b (List.filter (my_baf b) (s_StaleConfigBAFs st)).

(** One state received by getTermAndNotifyChange; the second component is what it sends on termChan. *)
Definition role_on_state (b : BatcherRole) (st : State) : outcome (BatcherRole * option N) :=
  newTerm ← getTerm b st;
  let currentTerm := br_term b in
  if (currentTerm =? newTerm)%N then Ok (b, None) else
  let b := with_term newTerm b in
  prevPrimary ← getPrimaryID b currentTerm;
  b ← ResubmitPendingBAFs b st prevPrimary false;
  Ok (b, Some newTerm).
End Batcher.
Arguments BatcherRole P : clear implicits.
