(* ===== verification/ConfigStore.v ===== *)
(** * The config store

    [src/common/configstore/configstore.go] over [src/common/filerepo/filerepo.go]: config blocks in files named after
    their numbers. A file is written atomically and never overwritten, so the directory is a map from numbers to contents. *)
From S2P Require Import Prelude Types Events State Blocks.
From stdpp Require Import gmap sorting.
From Stdlib Require Import NArith Lia.

Section Store.
Context `{BlockCodecs}.

Record Store := mkStore { cs_files : gmap N bytes }.

Definition block_number (b : Block) : N := match b_Header b with Some h => bh_Number h | None => 0%N end.

Definition Store_Add (s : Store) (block : option Block) : outcome Store :=
  block ← of_option "block is nil" block;
  header ← of_option "block header is nil" (b_Header block);
  content ← of_option "failed to marshal block" (enc block);
  fail_if bool_decide (is_Some (cs_files s !! bh_Number header)) with "failed to add block: file already exists" ;;
  Ok (mkStore (<[bh_Number header := content]> (cs_files s))).

Definition Store_GetByNumber (s : Store) (num : N) : outcome Block :=
  content ← of_option "failed reading block" (cs_files s !! num);
  wrap_err "failed to unmarshal block" (unmarshal content).

(** The blocks of all files in the order the directory lists them, which the callers sort. *)
Definition read_all (s : Store) : outcome (list Block) := omapM (fun f : N * bytes => unmarshal f.2) (map_to_list (cs_files s)).

Definition number_le (a b : Block) : Prop := (block_number a <= block_number b)%N.
#[export] Instance number_le_dec a b : base.Decision (number_le a b).
Proof. unfold number_le. apply _. Defined.

Definition Store_ListBlocks (s : Store) : outcome (list Block) := blocks ← read_all s; Ok (merge_sort number_le blocks).
Definition Store_ListBlockNumbers (s : Store) : outcome (list N) := blocks ← read_all s; Ok (merge_sort N.le (block_number <$> blocks)).

Definition Store_Last (s : Store) : outcome Block :=
  nums ← wrap_err "failed to list block numbers" (Store_ListBlockNumbers s);
  num ← of_option "config store is empty" (last nums);
  Store_GetByNumber s num.

(** ** Its contents *)
(** Every file holds the encoding of a block with the number of the file. *)
Definition store_ok (s : Store) (blocks : gmap N Block) : Prop :=
  dom (cs_files s) = dom blocks /\
  forall n b, blocks !! n = Some b -> is_Some (b_Header b) /\ block_number b = n /\ exists bs, cs_files s !! n = Some bs /\ enc b = Some bs.

Lemma store_ok_empty : store_ok (mkStore ∅) ∅.
Proof. split; [done|]. intros n b Hb. by rewrite lookup_empty in Hb. Qed.

Lemma store_ok_file s blocks n bs : store_ok s blocks -> cs_files s !! n = Some bs -> exists b, blocks !! n = Some b /\ enc b = Some bs /\ block_number b = n.
Proof.
  intros [Hd Hf] Hn. assert (n ∈ dom blocks) as Hin by (rewrite <-Hd; by apply elem_of_dom_2 in Hn).
  apply elem_of_dom in Hin as [b Hb]. destruct (Hf n b Hb) as (_ & Hnum & bs' & Hbs & He). exists b. split; [done|]. split; [congruence|done].
Qed.

Lemma Store_Add_ok s blocks b s' : store_ok s blocks -> Store_Add s (Some b) = Ok s' ->
  blocks !! block_number b = None /\ store_ok s' (<[block_number b := b]> blocks).
Proof.
  intros [Hd Hf] E. unfold Store_Add in E. cbn [of_option] in E. apply bind_Ok_inv in E as (b0 & Eb & E). injection Eb as ->.
  apply bind_Ok_inv in E as (h & Eh%of_option_Ok & E). apply bind_Ok_inv in E as (content & Ec%of_option_Ok & E).
  apply guard_err_Ok in E as [Hnew E]. apply Ok_inj in E as <-. apply bool_decide_eq_false in Hnew.
  assert (block_number b0 = bh_Number h) as En by (unfold block_number; by rewrite Eh). rewrite En.
  assert (blocks !! bh_Number h = None) as Hnone.
  { apply not_elem_of_dom. rewrite <-Hd. intros Hin%elem_of_dom. done. }
  split; [done|]. split; cbn [cs_files].
  - by rewrite !dom_insert_L, Hd.
  - intros n b Hb. apply lookup_insert_Some in Hb as [[<- <-]|[Hne Hb]].
    + split; [by rewrite Eh|]. split; [done|]. exists content. by rewrite lookup_insert_eq.
    + rewrite lookup_insert_ne by done. by apply Hf.
Qed.

Lemma keys_elem {A} (m : gmap N A) n : n ∈ (map_to_list m).*1 <-> n ∈ dom m.
Proof.
  rewrite list_elem_of_fmap, elem_of_dom. split.
  - intros ([n' x] & -> & Hin%elem_of_map_to_list). by exists x.
  - intros [x Hx]. exists (n, x). split; [done|]. by apply elem_of_map_to_list.
Qed.

Lemma lookup_all_values {A} (m : gmap N A) l : (forall n x, (n, x) ∈ l -> m !! n = Some x) -> omap (fun n => m !! n) l.*1 = l.*2.
Proof.
  induction l as [|[n x] l IH]; intros Hl; [done|]. cbn. rewrite (Hl n x) by by left. f_equal. apply IH. intros. apply Hl. by right.
Qed.

Lemma read_all_ok s blocks : store_ok s blocks -> exists l, read_all s = Ok l /\ l ≡ₚ (map_to_list blocks).*2.
Proof.
  intros Hok. unfold read_all.
  assert (forall fs, (forall n bs, (n, bs) ∈ fs -> cs_files s !! n = Some bs) ->
     omapM (fun f : N * bytes => unmarshal f.2) fs = Ok (omap (fun n => blocks !! n) fs.*1)) as Hall.
  { induction fs as [|[n bs] fs IH]; intros Hin; [done|].
    destruct (store_ok_file s blocks n bs Hok) as (b & Hb & He & Hnum); [apply Hin; by left|].
    assert (unmarshal bs = Ok b) as Eu by (unfold unmarshal; by rewrite (dec_enc _ _ He)).
    cbn [omapM snd]. rewrite Eu. cbn [mbind outcome_bind]. rewrite IH by (intros; apply Hin; by right). cbn. by rewrite Hb. }
  eexists. split; [apply Hall; intros n bs; by rewrite elem_of_map_to_list|].
  rewrite <-(lookup_all_values blocks (map_to_list blocks)) by (intros n x; by rewrite elem_of_map_to_list).
  apply omap_Permutation, NoDup_Permutation; [apply NoDup_fst_map_to_list..|]. intros n. destruct Hok as [Hd _]. by rewrite !keys_elem, Hd.
Qed.

Lemma values_numbers s blocks : store_ok s blocks -> block_number <$> (map_to_list blocks).*2 = (map_to_list blocks).*1.
Proof.
  intros [_ Hf]. rewrite <-list_fmap_compose. apply fmap_ext_elem. intros [n b] Hin%elem_of_map_to_list. cbn. by destruct (Hf n b Hin) as (_ & -> & _).
Qed.

Lemma sorted_last_max (l : list N) m : StronglySorted N.le l -> last l = Some m -> Forall (fun n => (n <= m)%N) l.
Proof.
  intros Hs Hm. apply last_Some in Hm as [l' ->]. apply Forall_app. split; [|by constructor].
  apply Forall_forall. intros n Hn. eapply StronglySorted_app_1_elem_of; [exact Hs|done|by left].
Qed.

(** The operations in terms of the contents. *)
Lemma store_operations s blocks : store_ok s blocks ->
  (forall b, (exists s', Store_Add s (Some b) = Ok s' /\ store_ok s' (<[block_number b := b]> blocks)) <->
             is_Some (b_Header b) /\ is_Some (enc b) /\ blocks !! block_number b = None) /\
  (forall n b, Store_GetByNumber s n = Ok b <-> blocks !! n = Some b) /\
  (exists l, Store_ListBlocks s = Ok l /\ l ≡ₚ (map_to_list blocks).*2 /\ Sorted number_le l) /\
  (forall b, Store_Last s = Ok b <-> blocks !! block_number b = Some b /\ forall n, is_Some (blocks !! n) -> (n <= block_number b)%N).
Proof.
  intros Hok. pose proof Hok as [Hd Hf].
  assert (forall n b, Store_GetByNumber s n = Ok b <-> blocks !! n = Some b) as Hget.
  { intros n b. unfold Store_GetByNumber. split.
    - intros E. apply bind_Ok_inv in E as (content & Ec%of_option_Ok & E%wrap_err_Ok). unfold unmarshal in E. apply of_option_Ok in E.
      destruct (store_ok_file s blocks n content Hok Ec) as (b' & Hb' & He & _). apply dec_enc in He. congruence.
    - intros Hb. destruct (Hf n b Hb) as (_ & _ & bs & -> & He). cbn [of_option mbind outcome_bind]. apply wrap_err_Ok. unfold unmarshal. by rewrite (dec_enc _ _ He). }
  destruct (read_all_ok s blocks Hok) as (l & El & Pl).
  assert (merge_sort N.le (block_number <$> l) ≡ₚ (map_to_list blocks).*1) as Pnum.
  { rewrite merge_sort_Permutation. by rewrite Pl, (values_numbers s blocks Hok). }
  split; [|split; [done|split]].
  - intros b. split.
    + intros (s' & E & _). destruct (Store_Add_ok s blocks b s' Hok E) as [Hn _]. unfold Store_Add in E. cbn [of_option] in E.
      apply bind_Ok_inv in E as (b0 & [= <-] & E). apply bind_Ok_inv in E as (h & Eh%of_option_Ok & E).
      apply bind_Ok_inv in E as (content & Ec%of_option_Ok & E). by rewrite Eh, Ec.
    + intros ([h Eh] & [content Ec] & Hnew). assert (Store_Add s (Some b) = Ok (mkStore (<[bh_Number h := content]> (cs_files s)))) as E.
      { unfold Store_Add. cbn [of_option mbind outcome_bind]. rewrite Eh. cbn [of_option mbind outcome_bind]. rewrite Ec. cbn [of_option mbind outcome_bind].
        rewrite bool_decide_false; [done|]. intros Hs. apply elem_of_dom in Hs. rewrite Hd in Hs. apply elem_of_dom in Hs.
        unfold block_number in Hnew. rewrite Eh in Hnew. rewrite Hnew in Hs. by apply is_Some_None in Hs. }
      eexists. split; [exact E|]. by destruct (Store_Add_ok s blocks b _ Hok E).
  - exists (merge_sort number_le l). unfold Store_ListBlocks. rewrite El. split; [done|]. split; [by rewrite merge_sort_Permutation|].
    apply Sorted_merge_sort. intros x y. unfold number_le. lia.
  - intros b. unfold Store_Last, Store_ListBlockNumbers. rewrite El. cbn [mbind outcome_bind wrap_err].
    assert (StronglySorted N.le (merge_sort N.le (block_number <$> l))) as Hsort by (apply StronglySorted_merge_sort; [typeclasses eauto|intros x y; lia]).
    assert (forall n, n ∈ merge_sort N.le (block_number <$> l) <-> is_Some (blocks !! n)) as Hin by (intros n; rewrite Pnum, keys_elem; apply elem_of_dom).
    destruct (last _) as [m|] eqn:Em; cbn [of_option mbind outcome_bind].
    + pose proof (sorted_last_max _ _ Hsort Em) as Hmax. rewrite Forall_forall in Hmax.
      assert (is_Some (blocks !! m)) as [bm Hm] by (apply Hin, last_Some_elem_of; done).
      rewrite Hget. split.
      * intros Hb. destruct (Hf m b Hb) as (_ & -> & _). split; [done|]. intros n Hn. by apply Hmax, Hin.
      * intros [Hb Hle]. assert (block_number b = m) as <-; [|done]. apply N.le_antisymm; [apply Hmax, Hin; by exists b|apply Hle; by exists bm].
    + split; [done|]. intros [Hb _]. apply last_None in Em. assert (block_number b ∈ merge_sort N.le (block_number <$> l)) as Hbn by (apply Hin; by exists b).
      rewrite Em in Hbn. by apply not_elem_of_nil in Hbn.
Qed.

(** The config store is a map from block numbers to blocks, of which Last gives the highest. Adding a block to a store
    with the contents [blocks] succeeds exactly if it has a header, can be encoded and its number is new; then the
    store has it besides all others, unchanged. GetByNumber gives exactly the stored blocks, ListBlocks all of them in
    order of their numbers, and Last the one with the highest number, or an error if there is none. *)
Theorem config_store_contents s blocks : store_ok s blocks ->
  (forall b, (exists s', Store_Add s (Some b) = Ok s' /\ store_ok s' (<[block_number b := b]> blocks)) <->
             is_Some (b_Header b) /\ is_Some (enc b) /\ blocks !! block_number b = None) /\
  (forall n b, Store_GetByNumber s n = Ok b <-> blocks !! n = Some b) /\
  (exists l, Store_ListBlocks s = Ok l /\ l ≡ₚ (map_to_list blocks).*2 /\ Sorted number_le l) /\
  (forall b, Store_Last s = Ok b <-> blocks !! block_number b = Some b /\ forall n, is_Some (blocks !! n) -> (n <= block_number b)%N).
Proof. apply store_operations. Qed.
End Store.
