(* ===== verification/BatcherNode.v ===== *)
(** * The batcher node

    [src/node/batcher/batcher.go] around the role: the decisions it replicates, the primary and term it tracks for
    its complaints and connections; [src/node/batcher/batcher_builder.go]: the order of the batchers, the initial state, and
    where a restarted node resumes; [src/node/batcher/puller.go]: what a secondary pulls;
    [src/node/batcher/control_event_broadcaster.go]. *)
From S2P Require Import Prelude Types Events State Blocks Ledger StateCodec FabricBatch Acker Batcher ConfigStore.
From stdpp Require Import gmap sets sorting.
From Stdlib Require Import NArith Lia.

(** ** Broadcast of a control event *)
(** One round sends to every remaining sender; [fails] tells which sends of the round fail. *)
Definition broadcast_round {S} (fails : S -> bool) (retrySenders : list S) : list S := List.filter fails retrySenders.

(** The loop over the rounds. After a round without enough successes it waits, and may be cancelled there, which is
    the end of the list of rounds. The result of success are the senders that are left. *)
Fixpoint broadcast_rounds {S} (senders : nat) (threshold : Z) (rounds : list (S -> bool)) (retrySenders : list S) : outcome (list S) :=
  match rounds with
  | [] => Err "broadcast cancelled"
  | fails :: rest =>
      let failed := broadcast_round fails retrySenders in
      if (threshold <=? Z.of_nat senders - Z.of_nat (length failed))%Z then Ok failed
      else broadcast_rounds senders threshold rest failed
  end.
Definition BroadcastControlEvent {S} (senders : list S) (n f : Z) (rounds : list (S -> bool)) : outcome (list S) :=
  broadcast_rounds (length senders) (n - f) rounds senders.

Section Node.
Context `{FabricCodecs} `{BlockCodecs} `{StateCodecs} `{Sha256} `{ChannelIDs} `{Codec asn1BAF} `{MemPool P} `{!BatchedRequestsVerifier P} `{BatcherKeys}.

(** ** The configuration *)
(** Of the node's configuration: the shards with the batchers of each, and the consenters. *)
Record BatcherNodeConfig := mkBatcherConfig {
  bc_Shards : list (ShardID * list PartyID);
  bc_Consenters : list PartyID;
  bc_PartyId : PartyID;
  bc_ShardId : ShardID
}.

Definition batchersFromConfig (config : BatcherNodeConfig) : list PartyID :=
  merge_sort N.le (foldl (fun batchers sh => if (sh.1 =? bc_ShardId config)%N then sh.2 else batchers) [] (bc_Shards config)).

Definition computeZeroState (config : BatcherNodeConfig) : State :=
  mkState (u16 (N.of_nat (length (bc_Consenters config)))) 0 0 ((fun sh => mkShardTerm sh.1 0) <$> bc_Shards config) [] [] None [] [] [] 0.

(** ** The node *)
Record Batcher := mkBatcher {
  bn_config : BatcherNodeConfig;
  bn_batchers : list PartyID;
  bn_role : BatcherRole P;
  bn_wal : list bytes;
  bn_ConfigStore : Store;
  bn_primaryID : PartyID;
  bn_term : N
}.

Definition getPrimaryIDAndTerm (shardId : ShardID) (batchers : list PartyID) (st : State) : outcome (PartyID * N) :=
  term ← shard_term shardId (s_Shards st);
  primaryIndex ← primary_index shardId term (s_N st);
  match batchers !! N.to_nat primaryIndex with Some p => Ok (p, term) | None => Panic "index out of range" end.

(** The tracked primary and term: both are set only when the primary is another one. *)
Definition track (tracked : PartyID * N) (current : PartyID * N) : PartyID * N :=
  if (tracked.1 =? current.1)%N then tracked else current.

(** What the handling of one decision leads to besides the new state of the node. *)
Inductive decision_effect :=
| Following (pushed : State) (connectTo : option PartyID)
| AlreadyProcessed
| Reconfigure (configBlock : Block).

Definition node_with (b : Batcher) (role : BatcherRole P) (wal : list bytes) (store : Store) (tracked : PartyID * N) : Batcher :=
  mkBatcher (bn_config b) (bn_batchers b) role wal store tracked.1 tracked.2.

(** The rest of the loop body: revive stale fragments, pass the state on, track the primary. *)
Definition follow_state (b : Batcher) (role : BatcherRole P) (wal : list bytes) (st : option State) : outcome (Batcher * decision_effect) :=
  st ← deref st;
  role ← ResubmitStaleConfigBAFs role st;
  current ← getPrimaryIDAndTerm (bc_ShardId (bn_config b)) (bn_batchers b) st;
  let tracked := track (bn_primaryID b, bn_term b) current in
  Ok (node_with b role wal (bn_ConfigStore b) tracked,
      Following st (if (bn_primaryID b =? current.1)%N then None else Some current.1)).

(** The body of the loop of replicateDecision; the write-ahead log keeps the last entry only. *)
Definition replicate_one (b : Batcher) (header : Header) : outcome (Batcher * decision_effect) :=
  rawHeader ← Header_Serialize header;
  let wal := [rawHeader] in
  if (h_Num header =? h_DecisionNumOfLastConfigBlock header)%N && negb (h_Num header =? 0)%N then
    lastBlock ← (match last (h_AvailableCommonBlocks header) with Some lb => Ok lb | None => Panic "index out of range [-1]" end);
    if IsConfigBlock lastBlock then
      let lastBlockNum := block_number lastBlock in
      lastConfig ← or_panic (Store_Last (bn_ConfigStore b));
      let lastConfigBlockNum := block_number lastConfig in
      if (lastConfigBlockNum =? lastBlockNum)%N then
        st ← deref (h_State header);
        role ← ResubmitPendingBAFs (bn_role b) st 0 true;
        follow_state b role wal (h_State header)
      else if (lastBlockNum <? lastConfigBlockNum)%N then
        Ok (node_with b (bn_role b) wal (bn_ConfigStore b) (bn_primaryID b, bn_term b), AlreadyProcessed)
      else
        store ← or_panic (Store_Add (bn_ConfigStore b) (Some lastBlock));
        Ok (node_with b (bn_role b) wal store (bn_primaryID b, bn_term b), Reconfigure lastBlock)
    else follow_state b (bn_role b) wal (h_State header)
  else follow_state b (bn_role b) wal (h_State header).

(** ** Start *)
Definition getLastKnownDecisionNumFromConfigBlock (configBlock : Block) : outcome DecisionNum :=
  md ← deref (b_Metadata configBlock);
  raw ← or_panic (Prelude.index md BlockMetadataIndex_ORDERER);
  t ← or_panic (AssemblerBlockMetadataFromBytes (Some raw));
  let '(_, _, _, lastDecisionNumber, _, _, _) := t in Ok lastDecisionNumber.

Definition getLastKnownDecisionNumFromConfigStore (store : Store) : outcome DecisionNum :=
  lastConfigBlock ← or_panic (Store_Last store);
  if (block_number lastConfigBlock =? 0)%N then Ok 0%N else getLastKnownDecisionNumFromConfigBlock lastConfigBlock.

Definition getLastKnownDecisionNum (wal : list bytes) (store : Store) : outcome DecisionNum :=
  match last wal with
  | Some raw =>
      header ← or_panic (Header_Deserialize (Some raw));
      if (0 <? h_Num header)%N then Ok (h_Num header) else getLastKnownDecisionNumFromConfigStore store
  | None => getLastKnownDecisionNumFromConfigStore store
  end.

(** configureBatcher: the fields of the node that the model has, with the ledger that it opened and the mempool that it kept or created. *)
Definition configureBatcher (config : BatcherNodeConfig) (configSeq gap : N) (ledger : BatchLedgerArray) (memPool : P) (wal : list bytes) (store : Store)
    : outcome Batcher :=
  let batchers := batchersFromConfig config in
  panic_if bool_decide (length batchers = 0) with "Failed locating the configuration of our shard" ;;
  let initState := computeZeroState config in
  current ← getPrimaryIDAndTerm (bc_ShardId config) batchers initState;
  let f := (u16 (s_N initState + 65535) / 3)%N in
  let role := mkRole batchers (bc_PartyId config) (bc_ShardId config) (u16 (f + 1)) (s_N initState) ledger configSeq memPool gap 0 0 0 None in
  Ok (mkBatcher config batchers role wal store current.1 current.2).

(** A complaint of the node is about the tracked term. *)
Definition createComplaint (b : Batcher) (reason : bytes) : outcome Complaint :=
  or_panic (CreateComplaint (bc_PartyId (bn_config b)) (bc_ShardId (bn_config b)) (bn_term b) (br_ConfigSequence (bn_role b)) reason).

(** An acknowledgement goes out only to the tracked primary. *)
Definition Ack (b : Batcher) (seq : BatchSequence) (to : PartyID) : option (PartyID * BatchSequence) :=
  if (to =? bn_primaryID b)%N then Some (to, seq) else None.

(** ** Pulled batches *)
(** The handler of the blocks a secondary pulls reads the number in the header of the block, which pullBlocks does not check. *)
Definition pull_handler (block : Block) : outcome Block :=
  header ← deref (b_Header block); data ← deref (b_Data block); Ok block.

(** A connection asks for the primary's batches from the height of the own ledger on. *)
Definition pulled_from (primary_ledger : list Block) (seq : N) : list Block := drop (N.to_nat seq) primary_ledger.
End Node.
Arguments Batcher P : clear implicits.
