(* ===== verification/BatcherThms.v ===== *)
(** * Properties of the batcher's role

    The rotation of primaries, and the runs of a role: in every run, over term changes, restarts and reconfigurations, a
    batcher attests one batch per primary and sequence, which is in its ledger. *)
From S2P Require Import Prelude Types Events State Blocks Ledger StateCodec BatchMapper FabricBatch Acker Batcher ConfigStore BatcherNode.
From stdpp Require Import gmap sets sorting relations.
From Stdlib Require Import NArith Lia.

(** ** Rotation *)
Lemma primary_index_Ok shard term n : n <> 0%N -> (n <= u16_max)%N -> (shard + term <= u64_max)%N -> primary_index shard term n = Ok ((shard + term) mod n)%N.
Proof.
  intros Hn Hmax Hs. unfold primary_index. rewrite (proj2 (N.eqb_neq n 0)) by done. cbn [guard_panic]. rewrite (u64_small (shard + term)) by done.
  rewrite u16_small; [done|]. pose proof (N.mod_lt (shard + term) n Hn). lia.
Qed.

(** Every remainder is taken exactly once in a window of [n] numbers. *)
Lemma mod_window a n r : (r < n)%N -> exists k, (k < n)%N /\ ((a + k) mod n = r)%N /\ forall k', (k' < n)%N -> ((a + k') mod n = r)%N -> k' = k.
Proof.
  intros Hr. assert (n <> 0%N) as Hn by lia. pose proof (N.mod_lt a n Hn) as Ha.
  assert (forall k, (k < n)%N -> ((a + k) mod n = if decide (a mod n + k < n)%N then a mod n + k else a mod n + k - n)%N) as Hmod.
  { intros k Hk. rewrite <-N.Div0.add_mod_idemp_l. generalize dependent (a mod n)%N. intros m Hm. case_decide as Hd; [by apply N.mod_small|].
    assert (m + k = m + k - n + 1 * n)%N as -> by lia. rewrite N.Div0.mod_add, N.mod_small by lia. lia. }
  generalize dependent (a mod n)%N. intros m Hm Hmod.
  exists (if decide (m <= r)%N then r - m else r + n - m)%N. split; [case_decide; lia|]. split.
  - rewrite Hmod by (case_decide; lia). repeat case_decide; lia.
  - intros k' Hk' E. rewrite Hmod in E by done. repeat case_decide; lia.
Qed.

Section Role.
Context `{FabricCodecs} `{BlockCodecs} `{StateCodecs} `{Sha256} `{ChannelIDs} `{Codec asn1BAF} `{MemPool P} `{!BatchedRequestsVerifier P} `{BatcherKeys}.
Implicit Types (b : BatcherRole P).

(** A role as configureBatcher makes it: as many batchers as parties. *)
Definition role_ok b : Prop := NoDup (br_Batchers b) /\ br_Batchers b <> [] /\ br_N b = N.of_nat (length (br_Batchers b)) /\ (br_N b <= u16_max)%N.

Lemma getPrimaryID_Ok b term : role_ok b -> (br_Shard b + term <= u64_max)%N ->
  exists p, getPrimaryID b term = Ok p /\ br_Batchers b !! N.to_nat ((br_Shard b + term) mod br_N b) = Some p.
Proof.
  intros (Hnd & Hne & HN & Hmax) Hs. assert (br_N b <> 0%N) as HN0 by (destruct (br_Batchers b); [done|cbn in HN; lia]).
  unfold getPrimaryID, getPrimaryIndex. rewrite primary_index_Ok by done. cbn [mbind outcome_bind].
  pose proof (N.mod_lt (br_Shard b + term) (br_N b) HN0) as Hlt.
  destruct (lookup_lt_is_Some_2 (br_Batchers b) (N.to_nat ((br_Shard b + term) mod br_N b))) as [p Hp]; [lia|]. exists p. by rewrite Hp.
Qed.

(** The primary rotates through all batchers. For a role whose batchers are distinct and as many as the parties, and as long
    as shard plus term fit 64 bits: every term has a primary; in any [N] consecutive terms every batcher is the primary of
    exactly one; in the same term, shards whose numbers differ by less than [N] have different primaries; and the node
    around the role computes the same primary from a state. *)
Theorem primary_rotation b term : role_ok b -> (br_Shard b + term + br_N b <= u64_max)%N ->
  (exists p, getPrimaryID b term = Ok p /\ p ∈ br_Batchers b) /\
  (forall p, p ∈ br_Batchers b -> exists k, (k < br_N b)%N /\ getPrimaryID b (term + k) = Ok p /\
     forall k', (k' < br_N b)%N -> getPrimaryID b (term + k') = Ok p -> k' = k) /\
  (forall b' d, br_Batchers b' = br_Batchers b -> br_N b' = br_N b -> br_Shard b' = (br_Shard b + d)%N -> (0 < d < br_N b)%N ->
     getPrimaryID b' term <> getPrimaryID b term) /\
  (forall st, s_N st = br_N b -> getTerm b st = Ok term ->
     exists p, getPrimaryID b term = Ok p /\ getPrimaryIDAndTerm (br_Shard b) (br_Batchers b) st = Ok (p, term)).
Proof.
  intros Hok Hmax. pose proof Hok as (Hnd & Hne & HN & Hn16).
  assert (br_N b <> 0%N) as HN0 by (destruct (br_Batchers b); [done|cbn in HN; lia]).
  destruct (getPrimaryID_Ok b term Hok) as (p0 & E0 & Hp0); [lia|].
  split; [exists p0; split; [done|by eapply list_elem_of_lookup_2]|]. split; [|split].
  - intros p [i Hi]%list_elem_of_lookup. pose proof (lookup_lt_Some _ _ _ Hi) as Hlt.
    destruct (mod_window (br_Shard b + term) (br_N b) (N.of_nat i)) as (k & Hk & Ek & Huniq); [lia|].
    exists k. split; [done|]. split.
    + destruct (getPrimaryID_Ok b (term + k) Hok) as (q & -> & Hq); [lia|]. rewrite N.add_assoc, Ek, Nnat.Nat2N.id in Hq. congruence.
    + intros k' Hk' E. destruct (getPrimaryID_Ok b (term + k') Hok) as (q & Eq & Hq); [lia|]. rewrite E in Eq. apply Ok_inj in Eq as <-.
      apply Huniq; [done|]. rewrite N.add_assoc in Hq. pose proof (NoDup_lookup _ _ _ _ Hnd Hi Hq). lia.
  - intros b' d EB EN ES Hd E. destruct (getPrimaryID_Ok b' term) as (q & Eq & Hq); [unfold role_ok; by rewrite EB, EN|lia|].
    rewrite EB, EN, ES in Hq. rewrite Eq, E0 in E. apply Ok_inj in E as ->. pose proof (NoDup_lookup _ _ _ _ Hnd Hp0 Hq) as Ei.
    destruct (mod_window (br_Shard b + term) (br_N b) ((br_Shard b + term) mod br_N b)) as (k & Hk & Ek & Huniq); [by apply N.mod_lt|].
    assert (0%N = k) as <- by (apply Huniq; [lia|by rewrite N.add_0_r]).
    assert (d = 0%N) by (apply Huniq; [lia|]; replace (br_Shard b + term + d)%N with (br_Shard b + d + term)%N by lia; lia). lia.
  - intros st EN Et. exists p0. split; [done|]. unfold getPrimaryIDAndTerm. unfold getTerm in Et. rewrite Et. cbn [mbind outcome_bind].
    unfold getPrimaryID, getPrimaryIndex in E0. rewrite EN. destruct (primary_index _ _ _); [|done..]. cbn [mbind outcome_bind] in *. by destruct (br_Batchers b !! _); [apply Ok_inj in E0 as ->|].
Qed.

(** ** Runs of a role *)
Record role_state := mkRS { rs_role : BatcherRole P; rs_phase : role_phase; rs_sent : list BAF }.

(** A restart or a reconfiguration opens the same ledgers again, perhaps with parts for new primaries. *)
Record reopened b b' : Prop := {
  ro_ID : br_ID b' = br_ID b;
  ro_Shard : br_Shard b' = br_Shard b;
  ro_array : array_ok (br_Ledger b');
  ro_shard : bla_shardID (br_Ledger b') = bla_shardID (br_Ledger b);
  ro_parts : forall p part, bla_ledgerParts (br_Ledger b) !! p = Some part -> bla_ledgerParts (br_Ledger b') !! p = Some part;
  ro_configSeq : (br_ConfigSequence b' <= u64_max)%N
}.

(** The steps between the points where run and its two roles select on their channels. [rs_sent] are the fragments handed
    to the broadcast. A fragment's broadcast may be cut short by a term change or a stop, after which run starts over;
    acknowledgements, submissions to the pool and changes of the term come from other goroutines. *)
Inductive role_step : role_state -> role_state -> Prop :=
| step_run b b' ph sent : run_top b = Ok (b', ph) -> role_step (mkRS b AtTop sent) (mkRS b' ph sent)
| step_primary b b' baf reqs ids a sent : br_acker b = Some a -> wait_round a (br_seq b) = KeptUp -> reqs <> [] -> primary_batch b reqs = Ok (b', baf) ->
    role_step (mkRS b AsPrimary sent) (mkRS b' (PrimarySending baf ids) (sent ++ [baf]))
| step_primary_sent b baf ids sent : role_step (mkRS b (PrimarySending baf ids) sent) (mkRS (primary_sent b ids) AsPrimary sent)
| step_secondary b b' batch baf ids sent : secondary_batch b batch = Ok (b', baf, ids) ->
    role_step (mkRS b AsSecondary sent) (mkRS b' (SecondarySending baf ids) (sent ++ [baf]))
| step_complain b batch e sent : verifyBatch b batch = Err e -> role_step (mkRS b AsSecondary sent) (mkRS b AsSecondary sent)
| step_secondary_sent b baf ids sent : role_step (mkRS b (SecondarySending baf ids) sent) (mkRS (secondary_sent b baf ids).1 AsSecondary sent)
| step_return b ph sent : role_step (mkRS b ph sent) (mkRS b AtTop sent)
| step_term b term ph sent : role_step (mkRS b ph sent) (mkRS (with_term term b) ph sent)
| step_acked b seq from ph sent : role_step (mkRS b ph sent) (mkRS (role_HandleAck b seq from) ph sent)
| step_pool b pool ph sent : role_step (mkRS b ph sent) (mkRS (with_pool pool b) ph sent)
| step_restart b b' ph sent : reopened b b' -> role_step (mkRS b ph sent) (mkRS b' AtTop sent).

(** The fragment is the batcher's own, and its batch is in the ledger. *)
Record attests b (baf : BAF) (batch : Block) : Prop := {
  at_signer : baf_signer baf = br_ID b;
  at_shard : baf_shard baf = br_Shard b;
  at_stored : Array_RetrieveBatchByNumber (br_Ledger b) (baf_primary baf) (baf_seq baf) = Ok (Some batch);
  at_digest : BatchedRequests.Digest (FB_Requests batch) = baf_digest baf;
  at_count : baf_txCount baf = N.of_nat (length (FB_Requests batch)) /\ FB_Requests batch <> [];
  at_seq : FB_ConfigSequence batch = baf_configSequence baf;
  at_signed : exists msg, BAF_ToBeSigned baf = Ok msg /\ batcher_sign msg = Ok (slice_bytes (baf_signature baf));
  at_primary : baf_primary baf <> br_ID b -> exists cs msg,
    BAF_ToBeSigned (NewSimpleBatchAttestationFragment (baf_shard baf) (baf_primary baf) (baf_seq baf) (baf_digest baf) (baf_primary baf) cs (baf_txCount baf) None) = Ok msg /\
    batcher_verify (NewBatcherIdentity (baf_primary baf) (baf_shard baf)) msg (slice_bytes (baf_primarySignature baf)) = Ok tt
}.

Record run_inv (st : role_state) : Prop := {
  ri_array : array_ok (br_Ledger (rs_role st));
  ri_shard : bla_shardID (br_Ledger (rs_role st)) = br_Shard (rs_role st);
  ri_configSeq : (br_ConfigSequence (rs_role st) <= u64_max)%N;
  ri_sent : forall baf, baf ∈ rs_sent st -> exists batch, attests (rs_role st) baf batch;
  ri_keys : NoDup ((fun baf => (baf_primary baf, baf_seq baf)) <$> rs_sent st)
}.

Lemma retrieve_below bla p n blk h : Array_RetrieveBatchByNumber bla p n = Ok (Some blk) -> Array_Height bla p = Ok h -> (n < h)%N.
Proof.
  unfold Array_RetrieveBatchByNumber, Array_Height. destruct (ledger_part bla p) as [part| |]; [|done..]. cbn [mbind outcome_bind].
  intros E%Ok_inj Hh%Ok_inj. unfold Part_RetrieveBatchByNumber, RetrieveBlockByNumber in E. unfold Part_Height, Height in Hh.
  destruct (lp_ledger part !! N.to_nat n) eqn:El; [|done]. apply lookup_lt_Some in El. lia.
Qed.

(** Steps that keep the identity, the ledger and the config sequence keep what the fragments say. *)
Lemma attests_frame b b' baf batch : br_ID b' = br_ID b -> br_Shard b' = br_Shard b ->
  (forall q n blk, Array_RetrieveBatchByNumber (br_Ledger b) q n = Ok (Some blk) -> Array_RetrieveBatchByNumber (br_Ledger b') q n = Ok (Some blk)) ->
  attests b baf batch -> attests b' baf batch.
Proof. intros EI ES Hr []. split; rewrite ?EI, ?ES; auto. Qed.

Lemma run_inv_frame st b' ph : run_inv st -> br_ID b' = br_ID (rs_role st) -> br_Shard b' = br_Shard (rs_role st) -> br_Ledger b' = br_Ledger (rs_role st) ->
  br_ConfigSequence b' = br_ConfigSequence (rs_role st) -> run_inv (mkRS b' ph (rs_sent st)).
Proof.
  intros [Ha Hs Hc Hsent Hk] EI ES EL EC. split; cbn [rs_role rs_phase rs_sent]; rewrite ?EL, ?ES, ?EC; try done.
  intros baf Hb. destruct (Hsent baf Hb) as [batch Hat]. exists batch. apply (attests_frame (rs_role st)); [done|done|by rewrite EL|done].
Qed.

(** Appending a batch and attesting it. *)
Lemma run_inv_append st bla' baf ph : run_inv st ->
  let b := rs_role st in
  forall reqs sig,
  Array_Append (br_Ledger b) (baf_primary baf) (baf_seq baf) (br_ConfigSequence b) reqs (baf_digest baf) sig = Ok bla' ->
  baf_signer baf = br_ID b -> baf_shard baf = br_Shard b -> baf_configSequence baf = br_ConfigSequence b ->
  baf_txCount baf = N.of_nat (length reqs) -> reqs <> [] -> BatchedRequests.Digest reqs = baf_digest baf ->
  (exists msg, BAF_ToBeSigned baf = Ok msg /\ batcher_sign msg = Ok (slice_bytes (baf_signature baf))) ->
  (baf_primary baf <> br_ID b -> exists cs msg,
    BAF_ToBeSigned (NewSimpleBatchAttestationFragment (baf_shard baf) (baf_primary baf) (baf_seq baf) (baf_digest baf) (baf_primary baf) cs (baf_txCount baf) None) = Ok msg /\
    batcher_verify (NewBatcherIdentity (baf_primary baf) (baf_shard baf)) msg (slice_bytes (baf_primarySignature baf)) = Ok tt) ->
  run_inv (mkRS (with_ledger bla' b) ph (rs_sent st ++ [baf])).
Proof.
  intros [Ha Hs Hc Hsent Hk] b reqs sig E Esg Esh Ecs Etx Hne Hdg Hsig Hprim.
  destruct (Array_Append_spec _ _ _ _ _ _ _ _ Ha Hc E) as (Ha' & Hh & _ & (blk & Hblk & Henc) & Hkeep & _).
  assert (bla_shardID bla' = bla_shardID (br_Ledger b)) as Eshard.
  { unfold Array_Append in E. apply bind_Ok_inv in E as (? & _ & E). apply bind_Ok_inv in E as (? & _ & E). by apply Ok_inj in E as <-. }
  destruct Henc as [Hbt Henc_cs _ _]. pose proof (f_equal bt_Requests Hbt) as Hreqs. cbn in Hreqs.
  split; cbn [rs_role rs_phase rs_sent with_ledger br_Ledger br_Shard br_ConfigSequence br_ID]; [done|by rewrite Eshard|done| |].
  - intros x [Hx|Hx]%elem_of_app.
    + destruct (Hsent x Hx) as [bx Hat]. exists bx. apply (attests_frame b); [done|done|apply Hkeep|exact Hat].
    + apply list_elem_of_singleton in Hx as ->. exists blk. split; cbn [with_ledger br_ID br_Shard br_Ledger]; rewrite ?Hreqs; auto. by rewrite Henc_cs, Ecs.
  - rewrite fmap_app. apply NoDup_app. split; [done|]. split; [|apply NoDup_singleton].
    intros k Hin Hk2. apply list_elem_of_singleton in Hk2 as ->. apply list_elem_of_fmap in Hin as (x & Ex & Hx).
    destruct (Hsent x Hx) as [bx Hat]. pose proof (at_stored _ _ _ Hat) as Hr. injection Ex as Ep Eq. rewrite <-Ep, <-Eq in Hr.
    pose proof (retrieve_below _ _ _ _ _ Hr Hh). lia.
Qed.

Lemma CreateBAF_Ok id shard dg primary seq cs tx ps baf : CreateBAF id shard dg primary seq cs tx ps = Ok baf ->
  exists msg sig, BAF_ToBeSigned baf = Ok msg /\ batcher_sign msg = Ok sig /\ baf = mkBAF shard primary seq dg id (Some sig) ps cs tx.
Proof.
  unfold CreateBAF. intros E. apply bind_Ok_inv in E as (msg & Em & E). apply bind_Ok_inv in E as (sig & Es & E). apply Ok_inj in E as <-. by exists msg, sig.
Qed.

(** What a secondary knows of a batch that it verified. *)
Lemma verifyBatch_Ok b batch ids : verifyBatch b batch = Ok ids ->
  FB_Primary batch = br_primary b /\ FB_Shard batch = br_Shard b /\ FB_Seq batch = br_seq b /\ FB_Requests batch <> [] /\
  FB_Digest batch = BatchedRequests.Digest (FB_Requests batch) /\
  VerifyBatchedRequests (br_MemPool b) (FB_Requests batch) = Ok ids /\
  exists msg, BAF_ToBeSigned (NewSimpleBatchAttestationFragment (br_Shard b) (br_primary b) (br_seq b) (FB_Digest batch) (br_primary b) (FB_ConfigSequence batch)
      (N.of_nat (length (FB_Requests batch))) None) = Ok msg /\
    batcher_verify (NewBatcherIdentity (br_primary b) (br_Shard b)) msg (slice_bytes (FB_PrimarySignature batch)) = Ok tt.
Proof.
  unfold verifyBatch. intros E. do 5 (apply guard_err_Ok in E as [? E]).
  repeat match goal with Hn : negb _ = false |- _ => apply negb_false_iff in Hn end. rewrite N.eqb_eq in *. rewrite bool_decide_eq_false, bool_decide_eq_true in *.
  apply bind_Ok_inv in E as (msg & Em & E). apply bind_Ok_inv in E as ([] & Ev%wrap_err_Ok & E%wrap_err_Ok).
  repeat match goal with Hx : FB_Primary _ = _ |- _ => rewrite Hx in * | Hx : FB_Shard _ = _ |- _ => rewrite Hx in * | Hx : FB_Seq _ = _ |- _ => rewrite Hx in * end.
  repeat (split; [done|]). split; [by intros Hn; rewrite Hn in *|]. repeat (split; [done|]). by exists msg.
Qed.

Lemma run_inv_step st st' : run_inv st -> role_step st st' -> run_inv st'.
Proof.
  intros Hi Hs. destruct Hs as [b b' ph sent E|b b' baf reqs ids a sent _ _ Hne E|b baf ids sent|b b' batch baf ids sent E|b batch e sent _|b baf ids sent
    |b ph sent|b term ph sent|b seq from ph sent|b pool ph sent|b b' ph sent Hro].
  - unfold run_top in E. apply bind_Ok_inv in E as (p & _ & E). apply bind_Ok_inv in E as (h & _ & E). cbn [with_position br_ID] in E.
    destruct (N.eqb_spec p (br_ID b)) as [|Hnp]; apply Ok_inj in E; injection E as <- <-; apply (run_inv_frame _ _ _ Hi); done.
  - unfold primary_batch in E. apply bind_Ok_inv in E as (baf0 & Eb%or_panic_Ok & E). apply bind_Ok_inv in E as (bla' & Ea & E). apply Ok_inj in E. injection E as <- <-.
    apply CreateBAF_Ok in Eb as (msg & sig & Em & Es & ->). apply (run_inv_append _ _ _ _ Hi reqs (slice_bytes (Some sig))); try done. by exists msg.
  - apply (run_inv_frame _ _ _ Hi); unfold primary_sent, role_HandleAck; cbn; destruct (br_acker b); done.
  - unfold secondary_batch in E. apply bind_Ok_inv in E as (ids0 & Ev & E). apply bind_Ok_inv in E as (bla' & Ea & E).
    apply bind_Ok_inv in E as (baf0 & Eb%or_panic_Ok & E). apply Ok_inj in E. injection E as <- <- <-.
    apply CreateBAF_Ok in Eb as (msg & sig & Em & Es & ->). apply verifyBatch_Ok in Ev as (_ & _ & _ & Hne & Hdg & _ & Hprim).
    apply (run_inv_append _ _ _ _ Hi (FB_Requests batch) (slice_bytes (FB_PrimarySignature batch))); try done; [by exists msg|].
    intros _. destruct Hprim as (msg' & Em' & Ev'). by exists (FB_ConfigSequence batch), msg'.
  - exact Hi.
  - by apply (run_inv_frame _ _ _ Hi).
  - by apply (run_inv_frame _ _ _ Hi).
  - by apply (run_inv_frame _ _ _ Hi).
  - apply (run_inv_frame _ _ _ Hi); unfold role_HandleAck; by destruct (br_acker b).
  - by apply (run_inv_frame _ _ _ Hi).
  - destruct Hi as [Ha Hsh Hc Hsent Hk]. destruct Hro as [EI ES Ha' Esh Hparts Hc']. cbn [rs_role rs_sent] in *. split; cbn [rs_role rs_sent]; try done; [congruence|].
    intros baf Hb. destruct (Hsent baf Hb) as [batch Hat]. exists batch. apply (attests_frame b); [done|done| |done].
    intros q n blk. unfold Array_RetrieveBatchByNumber, ledger_part. destruct (bla_ledgerParts (br_Ledger b) !! q) as [part|] eqn:Ep; [|done]. by rewrite (Hparts _ _ Ep).
Qed.

Lemma run_inv_run st st' : run_inv st -> rtc role_step st st' -> run_inv st'.
Proof. intros Hi Hr. induction Hr as [|x y z Hs _ IH]; [done|]. apply IH. by eapply run_inv_step. Qed.

(** C15: A batcher attests each batch of a primary once, and only what it stored. In every run of the role that starts with
    well-formed ledgers, over any number of terms, interrupted broadcasts, restarts and reconfigurations: two fragments it
    hands out for the same primary and sequence are the same fragment, so an honest batcher, and an honest primary
    in particular, never equivocates; every fragment is signed by this batcher for its shard, and the batch with
    its digest, transaction count and config sequence is in the ledger; and for another primary, the
    primary's signature over this batch was verified. *)
Theorem batcher_attests_once b0 st : array_ok (br_Ledger b0) -> bla_shardID (br_Ledger b0) = br_Shard b0 -> (br_ConfigSequence b0 <= u64_max)%N ->
  rtc role_step (mkRS b0 AtTop []) st ->
  (forall f1 f2, f1 ∈ rs_sent st -> f2 ∈ rs_sent st -> baf_primary f1 = baf_primary f2 -> baf_seq f1 = baf_seq f2 -> f1 = f2) /\
  (forall f, f ∈ rs_sent st -> exists batch, attests (rs_role st) f batch).
Proof.
  intros Ha Hs Hc Hrun.
  assert (run_inv st) as Hi.
  { eapply run_inv_run; [|exact Hrun]. split; cbn [rs_role rs_sent]; [exact Ha|exact Hs|exact Hc| |by apply NoDup_nil_2]. intros baf Hb. by apply not_elem_of_nil in Hb. }
  split; [|apply Hi]. intros f1 f2 Hf1 Hf2 Ep Eq.
  eapply (lookup_fmap_eq_unique (fun baf => (baf_primary baf, baf_seq baf))); [apply (ri_keys _ Hi)|done|done|by rewrite Ep, Eq].
Qed.

(** ** Resubmission *)
(** The requests of the batches that fragments attest, each with whether it is verified again. *)
Definition attested_requests b (bafs : list BAF) : list (bool * bytes) :=
  concat ((fun f => match Array_RetrieveBatchByNumber (br_Ledger b) (baf_primary f) (baf_seq f) with
                    | Ok (Some batch) => pair (baf_configSequence f <? br_ConfigSequence b)%N <$> FB_Requests batch
                    | _ => []
                    end) <$> bafs).
Definition resubmit (pool : P) (reqs : list (bool * bytes)) : P := foldl (fun p x => revive_request x.1 p x.2) pool reqs.

Lemma revive_all_Ok b bafs : (forall f, f ∈ bafs -> exists batch, attests b f batch) ->
  revive_all b bafs = Ok (with_pool (resubmit (br_MemPool b) (attested_requests b bafs)) b).
Proof.
  revert b. induction bafs as [|f bafs IH]; intros b Hf; [by destruct b|]. cbn [revive_all].
  destruct (Hf f) as [batch Hat]; [by left|]. unfold reviveBAFRequests. rewrite (at_stored _ _ _ Hat). cbn [mbind outcome_bind].
  set (pool := foldl _ _ _). rewrite (IH (with_pool pool b)).
  - assert (resubmit (br_MemPool b) (attested_requests b (f :: bafs)) = resubmit pool (attested_requests b bafs)) as ->; [|done].
    unfold attested_requests at 1. cbn [fmap list_fmap concat]. rewrite (at_stored _ _ _ Hat). unfold resubmit at 1. rewrite foldl_app.
    change (resubmit (resubmit (br_MemPool b) (pair (baf_configSequence f <? br_ConfigSequence b)%N <$> FB_Requests batch)) (attested_requests b bafs) = resubmit pool (attested_requests b bafs)).
    f_equal. unfold pool, resubmit. generalize (br_MemPool b). induction (FB_Requests batch) as [|r rs IHr]; intros p; [done|]. cbn. apply IHr.
  - intros g Hg. destruct (Hf g) as [bg Hbg]; [by right|]. exists bg. by apply (attests_frame b).
Qed.

(** The resubmission of requests never panics and gives back exactly the requests of the own pending batches. After any run, if
    the pending and the stale fragments of a consensus state that carry this batcher's signature are fragments it handed
    out: resubmitting the pending ones after a term change, or after a config change, and the stale ones, changes only the
    mempool, to which the requests of their batches are submitted in order; those of an older config sequence only
    if they verify again. *)
Theorem resubmission_total b0 st s prev ign : array_ok (br_Ledger b0) -> bla_shardID (br_Ledger b0) = br_Shard b0 -> (br_ConfigSequence b0 <= u64_max)%N ->
  rtc role_step (mkRS b0 AtTop []) st ->
  (forall f, f ∈ s_Pending s \/ f ∈ s_StaleConfigBAFs s -> my_baf (rs_role st) f = true -> f ∈ rs_sent st) ->
  let b := rs_role st in
  ResubmitPendingBAFs b s prev ign =
    Ok (with_pool (resubmit (br_MemPool b)
      (attested_requests b (List.filter (fun f => my_baf b f && (ign || (baf_primary f =? prev)%N)) (s_Pending s)))) b) /\
  ResubmitStaleConfigBAFs b s = Ok (with_pool (resubmit (br_MemPool b) (attested_requests b (List.filter (my_baf b) (s_StaleConfigBAFs s)))) b) /\
  (forall fs reverify req, (reverify, req) ∈ attested_requests b fs -> exists f batch, f ∈ fs /\
     Array_RetrieveBatchByNumber (br_Ledger b) (baf_primary f) (baf_seq f) = Ok (Some batch) /\ req ∈ FB_Requests batch /\
     reverify = (baf_configSequence f <? br_ConfigSequence b)%N).
Proof.
  intros Ha Hs Hc Hrun Hmine b.
  assert (run_inv st) as Hi.
  { eapply run_inv_run; [|exact Hrun]. split; cbn [rs_role rs_sent]; [exact Ha|exact Hs|exact Hc| |by apply NoDup_nil_2]. intros f Hb. by apply not_elem_of_nil in Hb. }
  split; [|split].
  - apply revive_all_Ok. intros f Hf. apply list_elem_of_In, filter_In in Hf as [Hf Hb]. apply andb_true_iff in Hb as [Hb _].
    apply (ri_sent _ Hi), Hmine; [left; by apply list_elem_of_In|done].
  - apply revive_all_Ok. intros f Hf. apply list_elem_of_In, filter_In in Hf as [Hf Hb].
    apply (ri_sent _ Hi), Hmine; [right; by apply list_elem_of_In|done].
  - intros fs reverify req Hin. unfold attested_requests in Hin. apply elem_of_concat in Hin as (l & Hin & Hl).
    apply list_elem_of_fmap in Hl as (f & -> & Hf). exists f.
    destruct (Array_RetrieveBatchByNumber _ _ _) as [[batch|]| |]; [|by apply not_elem_of_nil in Hin..].
    apply list_elem_of_fmap in Hin as (r & [= -> ->] & Hr). by exists batch.
Qed.
End Role.
