(* ===== verification/Equivocation.v ===== *)
(** * Rounds after an equivocation

    DetectEquivocation of [src/node/consensus/state/state.go] removes no fragments: what this means for the rounds that
    follow one in which a primary's conflicting batches show up without either of them reaching the threshold. *)
From S2P Require Import Prelude Types Events State StateFacts StateProps Round Sample RoundThms.
From Stdlib Require Import NArith Lia.

Section Rounds.
Context `{FabricCodecs} {R : MapRange}.

(** A sequence of rounds at one config sequence. *)
Inductive rounds (cs : ConfigSequence) : State -> list (list ControlEvent) -> State -> Prop :=
| rounds_nil s : rounds cs s [] s
| rounds_cons s ces s1 extracted requests rest s' :
    Process cs ces s = Ok (s1, extracted, requests) -> rounds cs s1 rest s' -> rounds cs s (ces :: rest) s'.

(** The fragments of a batch that count in a round. *)
Definition of_batch (bk : batchKey) (l : list BAF) : list BAF := filter (fun b => batchKeyOf b = bk) l.
Definition evidence (cs : ConfigSequence) (bk : batchKey) (s : State) : list BAF := of_batch bk (filter (fun b => baf_configSequence b = cs) (s_Pending s)).

(** No event of the rounds is a fragment of the batch. *)
Definition no_fragment (bk : batchKey) (ces : list ControlEvent) : Prop := forall ce b, ce ∈ ces -> ce_BAF ce = Some b -> batchKeyOf b <> bk.

Lemma filter_no_fragment {A} (P : A -> Prop) `{!forall x, base.Decision (P x)} (l : list A) : (forall x, x ∈ l -> ~ P x) -> filter P l = [].
Proof.
  intros Hl. induction l as [|x l IH]; [done|]. rewrite filter_cons_False by (apply Hl; by left). apply IH. intros y Hy. apply Hl. by right.
Qed.

Lemma vote_count_of_batch bk dg l : vote_count l bk dg = vote_count (of_batch bk l) bk dg.
Proof.
  unfold vote_count, of_batch. f_equal. rewrite list_filter_filter. apply filter_ext_elem. intros b _. naive_solver.
Qed.

(** Whether a batch is decided depends on its own fragments only. *)
Lemma decided_of_batch thr bk l : decided thr l bk <-> decided thr (of_batch bk l) bk.
Proof.
  unfold decided. rewrite !Exists_exists. unfold attested. split.
  - intros (b & Hb & Hk & Ha). exists b. split; [by apply list_elem_of_filter|]. by rewrite <-vote_count_of_batch.
  - intros (b & Hb & Hk & Ha). apply list_elem_of_filter in Hb as [_ Hb]. exists b. split; [done|]. by rewrite vote_count_of_batch.
Qed.

Lemma round_pending_of_batch cs bk ces s : no_fragment bk ces -> of_batch bk (round_pending cs ces s) = evidence cs bk s.
Proof.
  intros Hno. unfold round_pending, of_batch. rewrite filter_app. rewrite (filter_no_fragment _ (accepted_bafs _ _ _)); [by rewrite app_nil_r|].
  intros b Hb Hk. unfold accepted_bafs in Hb. apply list_elem_of_filter in Hb as [_ Hb].
  apply list_elem_of_omap in Hb as (ce & Hce & E). apply list_elem_of_filter in Hce as [_ Hce]. by apply (Hno ce b Hce E).
Qed.

Lemma round_pending_seq cs ces s b : Forall single ces -> b ∈ round_pending cs ces s -> baf_configSequence b = cs.
Proof.
  intros Hs. unfold round_pending. rewrite elem_of_app. intros [Hb|Hb]; [by apply list_elem_of_filter in Hb as [? _]|].
  unfold accepted_bafs in Hb. apply list_elem_of_filter in Hb as [_ Hb]. apply list_elem_of_omap in Hb as (ce & Hce & E).
  apply list_elem_of_filter in Hce as [Hk _]. unfold keeps in Hk. by rewrite E in Hk.
Qed.

(** One round keeps the evidence and advances the term. *)
Lemma equivocation_round cs bk ces s s1 ex rq b1 b2 term :
  state_inv s -> terms_below s -> Forall single ces -> no_fragment bk ces -> Process cs ces s = Ok (s1, ex, rq) ->
  b1 ∈ evidence cs bk s -> b2 ∈ evidence cs bk s -> baf_digest b1 <> baf_digest b2 -> counted true b1 -> counted true b2 ->
  ~ decided (s_Threshold s) (evidence cs bk s) bk -> mkShardTerm (bk_shard bk) term ∈ s_Shards s ->
  evidence cs bk s1 = evidence cs bk s /\ s_Threshold s1 = s_Threshold s /\ mkShardTerm (bk_shard bk) (term + 1) ∈ s_Shards s1 /\
  Forall2 (fun st st1 => (st_Term st1 <= st_Term st + 1)%N) (s_Shards s) (s_Shards s1).
Proof.
  intros Hinv Hb Hs Hno E H1 H2 Hd C1 C2 Hund Hterm.
  pose proof (round_pending_of_batch cs bk ces s Hno) as Ebk.
  destruct (Process_effect _ _ _ _ _ _ Hinv Hs E) as (new & rot & P & hs & w & He).
  pose proof (round_terms _ _ _ _ _ _ _ _ _ _ _ He (si_ready _ Hinv) (si_terms _ Hinv) Hb) as Hnext.
  assert (forall b, b ∈ evidence cs bk s -> b ∈ round_pending cs ces s /\ batchKeyOf b = bk) as Hev.
  { intros b Hb'. rewrite <-Ebk in Hb'. apply list_elem_of_filter in Hb'. tauto. }
  split; [|split; [apply (re_Threshold _ _ _ _ _ _ _ _ _ _ _ He)|split]].
  - unfold evidence at 1. rewrite (re_Pending _ _ _ _ _ _ _ _ _ _ _ He), <-Ebk. unfold of_batch. rewrite !list_filter_filter.
    apply filter_ext_elem. intros b Hb'. pose proof (round_pending_seq _ _ _ _ Hs Hb') as Hcs.
    assert (batchKeyOf b = bk -> ~ decided (s_Threshold s) (round_pending cs ces s) (batchKeyOf b)) by (intros ->; by rewrite decided_of_batch, Ebk). tauto.
  - destruct (Hev _ H1) as [P1 K1], (Hev _ H2) as [P2 K2].
    apply list_elem_of_lookup in Hterm as [i Hi]. destruct (Forall2_lookup_l _ _ _ _ _ Hnext Hi) as (st1 & Hi1 & Hsh & Hcase).
    assert (equivocated (round_pending cs ces s) (bk_shard bk)) as Heq.
    { exists b1, b2. repeat split; try done; [congruence|]. by rewrite <-K1. }
    destruct Hcase as [[_ Ht]|[Hnot _]]; [|by destruct Hnot; left].
    apply list_elem_of_lookup. exists i. rewrite Hi1. destruct st1 as [sh t]. cbn in *. by subst.
  - eapply Forall2_impl; [exact Hnext|]. intros st st1 [_ [[_ ->]|[_ ->]]]; lia.
Qed.

(** An equivocation without a decision rotates the primary in every later round. If two secondaries' fragments of one
    batch with different digests are pending and no digest of the batch has enough votes, then through any
    further rounds at the config sequence, with whatever events other than fragments of this batch, both fragments stay
    pending and the term of the shard advances in each round, whoever its primary is by then. *)
Theorem equivocation_rotates_forever cs bk s evs s' b1 b2 term :
  state_inv s -> rounds cs s evs s' -> Forall (Forall single) evs -> Forall distinct_attestations evs -> Forall (no_fragment bk) evs ->
  b1 ∈ evidence cs bk s -> b2 ∈ evidence cs bk s -> baf_digest b1 <> baf_digest b2 -> counted true b1 -> counted true b2 ->
  ~ decided (s_Threshold s) (evidence cs bk s) bk -> mkShardTerm (bk_shard bk) term ∈ s_Shards s ->
  Forall (fun st => (st_Term st + N.of_nat (length evs) < u64_max)%N) (s_Shards s) ->
  b1 ∈ s_Pending s' /\ b2 ∈ s_Pending s' /\ mkShardTerm (bk_shard bk) (term + N.of_nat (length evs)) ∈ s_Shards s'.
Proof.
  intros Hinv Hr. revert term Hinv. induction Hr as [s|s ces s1 ex rq rest s' E Hr IH]; intros term Hinv Hs Hd Hno H1 H2 Hdg C1 C2 Hund Hterm Hmax.
  { cbn. rewrite N.add_0_r. split; [|split; [|done]].
    - apply list_elem_of_filter in H1 as [_ H1]. by apply list_elem_of_filter in H1 as [_ ?].
    - apply list_elem_of_filter in H2 as [_ H2]. by apply list_elem_of_filter in H2 as [_ ?]. }
  apply Forall_cons in Hs as [Hs1 Hs], Hd as [Hd1 Hd], Hno as [Hno1 Hno]. cbn [length] in Hmax.
  assert (terms_below s) as Hb by (eapply Forall_impl; [exact Hmax|]; cbn; intros; lia).
  destruct (equivocation_round cs bk ces s s1 ex rq b1 b2 term) as (Ee & Et & Ht & Hle); [done..|].
  destruct (Process_inv cs ces s Hinv Hb Hs1 Hd1) as (? & ? & ? & ? & ? & s2 & ex2 & rq2 & E2 & _ & Hinv1).
  rewrite E in E2. injection E2 as <- <- <-.
  cbn [length]. replace (term + N.of_nat (S (length rest)))%N with (term + 1 + N.of_nat (length rest))%N by lia.
  apply IH; rewrite ?Ee, ?Et; try done.
  apply Forall_lookup. intros i st1 Hi. destruct (Forall2_lookup_r _ _ _ _ _ Hle Hi) as (st & Hst & Hl).
  rewrite Forall_lookup in Hmax. specialize (Hmax i st Hst). cbn in *. lia.
Qed.
End Rounds.

(** Party 1 was primary of shard 1 at term 0; it sent different batches to parties 2 and 3. *)
Definition split_state : State :=
  mkState 4 3 2 [mkShardTerm 1 0; mkShardTerm 2 4] [fragment 2 dgA; fragment 3 (Byte.xff :: dgA)] [] (Some []) [] [] [] 0.

Lemma split_state_inv : state_inv split_state.
Proof.
  split; [split| | | |].
  - done.
  - by exists 1%N.
  - vm_compute. repeat constructor; set_solver.
  - repeat constructor.
  - repeat constructor; vm_compute; done.
  - repeat constructor.
  - repeat constructor; set_solver.
  - repeat constructor; set_solver.
  - repeat constructor.
Qed.
#[local] Existing Instance sample_fabric.
#[local] Existing Instance range_canonical.

Lemma equivocation_rotates_forever_witness : exists s', rounds 3 split_state [[]; []; []] s' /\ mkShardTerm 1 3 ∈ s_Shards s'.
Proof.
  assert (exists s', rounds 3 split_state [[]; []; []] s') as [s' Hr].
  { eexists. do 3 (eapply rounds_cons; [vm_compute; reflexivity|]). apply rounds_nil. }
  exists s'. split; [exact Hr|].
  refine (proj2 (proj2 (equivocation_rotates_forever 3 (mkBatchKey 1 1 7) split_state _ s' (fragment 2 dgA) (fragment 3 (Byte.xff :: dgA)) 0
    split_state_inv Hr _ _ _ _ _ _ _ _ _ _ _))).
  - repeat constructor.
  - repeat constructor.
  - repeat constructor; intros ce b Hin; by apply not_elem_of_nil in Hin.
  - by left.
  - right. by left.
  - discriminate.
  - done.
  - done.
  - vm_compute. intros Hx. inversion Hx as [? ? [_ Hy]|? ? Hx']; subst; [by apply Hy|]. inversion Hx' as [? ? [_ Hy]|? ? Hx'']; subst; [by apply Hy|]. inversion Hx''.
  - by left.
  - repeat constructor.
Defined.
