(* ===== verification/BatcherConsensus.v ===== *)
(** * Batchers and consensus

    How the batcher's fragments and complaints fare with the consenters: acceptance of fragments, evidence against
    primaries, the term that complaints are about, the broadcast to the consenters, and where a restarted
    batcher resumes. *)
From S2P Require Import Prelude Types Events State StateFacts StateProps Round Badb Consenter Blocks Ledger StateCodec StateCodecFacts Consensus BatchMapper FabricBatch Acker Batcher ConfigStore BatcherNode BatcherThms RoundThms Equivocation.
From stdpp Require Import gmap sets sorting relations.
From Stdlib Require Import NArith Lia.

(** ** Broadcast *)
Lemma failed_length_le {A} (f : A -> bool) (l : list A) : length (List.filter f l) <= length l.
Proof. induction l as [|x l IH]; [done|]. cbn. destruct (f x); cbn; lia. Qed.

(** A sender is among the failed ones as long as all its sends failed. *)
Lemma broadcast_rounds_Ok {S} (senders : nat) thr (rounds : list (S -> bool)) retry failed : broadcast_rounds senders thr rounds retry = Ok failed ->
  (thr <= Z.of_nat senders - Z.of_nat (length failed))%Z /\
  exists k, 0 < k <= length rounds /\ failed = List.filter (fun s => forallb (fun fails => fails s) (take k rounds)) retry.
Proof.
  revert retry. induction rounds as [|fails rounds IH]; intros retry E; [done|]. cbn [broadcast_rounds] in E.
  destruct (Z.leb_spec thr (Z.of_nat senders - Z.of_nat (length (broadcast_round fails retry)))) as [Hle|Hlt].
  - apply Ok_inj in E as <-. split; [done|]. exists 1. split; [cbn; lia|]. unfold broadcast_round. cbn. apply List.filter_ext. intros s. by rewrite andb_true_r.
  - destruct (IH _ E) as (Hthr & k & Hk & ->). split; [done|]. exists (Datatypes.S k). split; [cbn; lia|]. unfold broadcast_round. cbn [take forallb].
    clear. induction retry as [|s retry IH]; [done|]. cbn. destruct (fails s); cbn; [|done]. destruct (forallb _ _); by rewrite IH.
Qed.

Lemma filter_partition {A} (f : A -> bool) (l : list A) : length (List.filter f l) + length (List.filter (fun x => negb (f x)) l) = length l.
Proof. induction l as [|x l IH]; [done|]. cbn. destruct (f x); cbn; lia. Qed.

(** A control event is broadcast to a quorum. If BroadcastControlEvent to [n] consenters returns without an error, then in
    the rounds it made at least [n - f] of them took the event; with at most [f] faulty consenters among [n >= 3f + 1] at
    least [f + 1] correct ones have it. If in some round all but [f] of the remaining sends succeed, it returns. *)
Theorem broadcast_reaches_quorum {S} `{EqDecision S} (senders : list S) (n f : nat) rounds : length senders = n -> f <= n ->
  (forall failed, BroadcastControlEvent senders (Z.of_nat n) (Z.of_nat f) rounds = Ok failed ->
     exists k got, 0 < k <= length rounds /\ got = List.filter (fun s => negb (forallb (fun fails => fails s) (take k rounds))) senders /\ n - f <= length got /\
     forall faulty, NoDup senders -> NoDup faulty -> length faulty <= f -> 3 * f + 1 <= n ->
       f + 1 <= length (List.filter (fun s => negb (bool_decide (s ∈ faulty))) got)) /\
  (forall fails rest, rounds = fails :: rest -> length (List.filter fails senders) <= f -> exists failed, BroadcastControlEvent senders (Z.of_nat n) (Z.of_nat f) rounds = Ok failed).
Proof.
  intros Hn Hf. unfold BroadcastControlEvent. rewrite Hn. split.
  - intros failed E. apply broadcast_rounds_Ok in E as (Hthr & k & Hk & ->). exists k. eexists. split; [done|]. split; [reflexivity|].
    pose proof (filter_partition (fun s => forallb (fun fails => fails s) (take k rounds)) senders) as Hp. split; [lia|].
    intros faulty Hnd Hndf Hlf Hq. set (got := List.filter (fun s => negb _) senders) in *.
    pose proof (filter_partition (fun s => bool_decide (s ∈ faulty)) got) as Hp2.
    assert (length (List.filter (fun s => bool_decide (s ∈ faulty)) got) <= length faulty); [|lia].
    apply submseteq_length, NoDup_submseteq.
    + apply NoDup_ListNoDup, List.NoDup_filter, List.NoDup_filter, NoDup_ListNoDup. done.
    + intros s Hs. apply list_elem_of_In, filter_In in Hs as [_ Hs]. by apply bool_decide_eq_true in Hs.
  - intros fails rest -> Hle. exists (broadcast_round fails senders). cbn [broadcast_rounds].
    destruct (Z.leb_spec (Z.of_nat n - Z.of_nat f) (Z.of_nat n - Z.of_nat (length (broadcast_round fails senders)))) as [|Hlt]; [done|]. unfold broadcast_round in Hlt. lia.
Qed.

Lemma broadcast_reaches_quorum_witness : exists failed, BroadcastControlEvent [1; 2; 3; 4]%N 4 1 [(fun s => s <? 3)%N; (fun s => s =? 2)%N] = Ok failed /\ failed = [2%N].
Proof.
  exists [2%N]. split; [|reflexivity].
  destruct (broadcast_reaches_quorum [1; 2; 3; 4]%N 4 1 [(fun s => s <? 3)%N; (fun s => s =? 2)%N] eq_refl ltac:(lia)) as [H _].
  destruct (H [2%N] eq_refl) as (k & got & _). reflexivity.
Defined.

Lemma BAF_ToBeSigned_inj `{Codec asn1BAF} f1 f2 msg : BAF_ToBeSigned f1 = Ok msg -> BAF_ToBeSigned f2 = Ok msg -> BAF_toASN1 f1 = BAF_toASN1 f2.
Proof.
  unfold BAF_ToBeSigned. intros E1 E2. apply bind_Ok_inv in E1 as (r1 & M1 & E1), E2 as (r2 & M2 & E2).
  destruct (PrefixWithDomain_inj _ _ _ _ _ E1 E2) as [_ ->]. apply marshal_or_panic_Ok in M1, M2. by eapply enc_inj.
Qed.

Section Fragments.
Context `{FabricCodecs} `{BlockCodecs} `{StateCodecs} `{Sha256} `{ChannelIDs} `{BFTCodecs} `{MemPool P} `{!BatchedRequestsVerifier P} `{BatcherKeys}
  {R : MapRange} `{DBI : BatchAttestationDB D} `{SharedConfigReader} `{Environment}.

(** C16: There is no evidence against an honest primary. After any run of a batcher's role, if each secondary's fragment
    that names it as the primary of its shard carries a primary signature over a message that this batcher signed for
    one of its fragments, which is what the consenters verify, then an equivocation in the shard is always one of
    another primary. *)
Theorem honest_primary_not_blamed (b0 : BatcherRole P) st pending : array_ok (br_Ledger b0) -> bla_shardID (br_Ledger b0) = br_Shard b0 -> (br_ConfigSequence b0 <= u64_max)%N ->
  rtc role_step (mkRS b0 AtTop []) st ->
  let p := br_ID (rs_role st) in
  (forall f, f ∈ pending -> baf_shard f = br_Shard (rs_role st) -> baf_primary f = p -> baf_signer f <> p ->
     exists f0 msg, f0 ∈ rs_sent st /\ BAF_ToBeSigned f0 = Ok msg /\ toBeSignedBAF (duplicateBAFSetSigner f p) = Ok msg) ->
  equivocated pending (br_Shard (rs_role st)) ->
  exists f1 f2, f1 ∈ pending /\ f2 ∈ pending /\ batchKeyOf f1 = batchKeyOf f2 /\ baf_digest f1 <> baf_digest f2 /\ baf_primary f1 <> p.
Proof.
  intros Ha Hs Hc Hrun p Hsig (f1 & f2 & Hf1 & Hf2 & C1 & C2 & Ek & Hd & Esh). exists f1, f2. repeat (split; [done|]). intros Ep.
  pose proof (f_equal bk_primary Ek) as Ek2. pose proof (f_equal bk_shard Ek) as Ek1. pose proof (f_equal bk_seq Ek) as Ek3. cbn in Ek1, Ek2, Ek3.
  assert (run_inv st) as Hi.
  { eapply run_inv_run; [|exact Hrun]. split; cbn [rs_role rs_sent]; [exact Ha|exact Hs|exact Hc| |by apply NoDup_nil_2]. intros f Hb. by apply not_elem_of_nil in Hb. }
  destruct (Hsig f1) as (g1 & m1 & Hg1 & E1 & E1'); [done|done|done|specialize (C1 eq_refl); congruence|].
  destruct (Hsig f2) as (g2 & m2 & Hg2 & E2 & E2'); [done|congruence|congruence|specialize (C2 eq_refl); congruence|].
  pose proof (BAF_ToBeSigned_inj _ _ _ E1 E1') as A1. pose proof (BAF_ToBeSigned_inj _ _ _ E2 E2') as A2.
  unfold BAF_toASN1, duplicateBAFSetSigner, NewSimpleBatchAttestationFragment in A1, A2. cbn in A1, A2. injection A1 as ? Ep1 Es1 Ed1 _ _ _. injection A2 as ? Ep2 Es2 Ed2 _ _ _.
  assert (g1 = g2) as Eg by (apply (lookup_fmap_eq_unique (fun baf => (baf_primary baf, baf_seq baf)) _ _ _ (ri_keys _ Hi)); [done|done|congruence]).
  subst g2. congruence.
Qed.

(** Consensus accepts exactly the fragments of secondaries that agree with the primary on the config sequence. A secondary
    that verified a batch and made its fragment, with keys that the consenters know: if the batch has the
    batcher's config sequence, not ahead of consensus, the consenters accept the fragment; and whatever the batch's config
    sequence, the message over which they check the primary's signature is the one the secondary verified if and only if
    the two config sequences are equal. *)
Theorem secondary_fragment_accepted (c : Consensus D) (b b' : BatcherRole P) batch baf ids req proposalNum :
  secondary_batch b batch = Ok (b', baf, ids) -> br_primary b <> br_ID b ->
  BAF_in_range baf -> ControlEvent_Bytes (BAFEvent baf) = Ok req ->
  (forall id msg sig, verify_signature id msg sig = batcher_verify id msg sig) ->
  (forall msg sig, batcher_sign msg = Ok sig -> batcher_verify (NewBatcherIdentity (br_ID b) (br_Shard b)) msg sig = Ok tt) ->
  (forall id msg, batcher_verify id msg [] <> Ok tt) ->
  (br_ConfigSequence b <= c_configSeq c)%N ->
  (FB_ConfigSequence batch = br_ConfigSequence b -> exists info, verifyControlEvent c req proposalNum = Ok (info, BAFEvent baf)) /\
  (exists verified, BAF_ToBeSigned (NewSimpleBatchAttestationFragment (FB_Shard batch) (FB_Primary batch) (FB_Seq batch) (FB_Digest batch) (FB_Primary batch)
       (FB_ConfigSequence batch) (N.of_nat (length (FB_Requests batch))) None) = Ok verified /\
     (forall checked, toBeSignedBAF (duplicateBAFSetSigner baf (baf_primary baf)) = Ok checked -> (checked = verified <-> FB_ConfigSequence batch = br_ConfigSequence b))).
Proof.
  intros E Hnp Hrange Hreq Hver Hown Hempty Hcs. unfold secondary_batch in E. apply bind_Ok_inv in E as (ids0 & Ev & E). apply bind_Ok_inv in E as (bla' & Ea & E).
  apply bind_Ok_inv in E as (baf0 & Eb%or_panic_Ok & E). apply Ok_inj in E. injection E as <- <- <-.
  apply CreateBAF_Ok in Eb as (msg & sig & Em & Es & ->).
  apply verifyBatch_Ok in Ev as (Ep & Esh & Eq & Hreqs & Hdg & _ & vmsg & Evm & Evs).
  rewrite Ep, Esh, Eq. split.
  - intros Ecs. unfold verifyControlEvent.
    assert (slice_bytes (FB_PrimarySignature batch) <> []) as Hps by (intros Hn; rewrite Hn in Evs; by apply Hempty in Evs).
    assert (BAF_norm (mkBAF (br_Shard b) (br_primary b) (br_seq b) (FB_Digest batch) (br_ID b) (Some sig) (FB_PrimarySignature batch) (br_ConfigSequence b) (N.of_nat (length (FB_Requests batch)))) =
      mkBAF (br_Shard b) (br_primary b) (br_seq b) (FB_Digest batch) (br_ID b) (Some sig) (FB_PrimarySignature batch) (br_ConfigSequence b) (N.of_nat (length (FB_Requests batch)))) as Hnorm.
    { unfold BAF_norm. cbn. by rewrite decide_False. }
    assert (ControlEvent_FromBytes req = Ok (BAFEvent (mkBAF (br_Shard b) (br_primary b) (br_seq b) (FB_Digest batch) (br_ID b) (Some sig) (FB_PrimarySignature batch) (br_ConfigSequence b)
      (N.of_nat (length (FB_Requests batch)))))) as Hfrom by (apply ControlEvent_FromBytes_Bytes; [by constructor|done]).
    rewrite Hfrom. cbn [mbind outcome_bind]. unfold RequestID. rewrite Hfrom. cbn [BAFEvent ce_BAF ce_Complaint ce_ConfigRequest ce_AssemblerReport].
    unfold ControlEvent_ID, ControlEvent_idPayload. cbn [BAFEvent ce_BAF mbind outcome_bind baf_configSequence baf_primary baf_signer].
    rewrite (proj2 (N.ltb_ge _ _)) by done. cbn [guard_err]. rewrite (proj2 (N.eqb_neq _ _)) by done. cbn [baf_primarySignature].
    rewrite bool_decide_eq_false_2 by (by intros Hl%length_zero_iff_nil). cbn [guard_err].
    unfold toBeSignedBAF, duplicateBAFSetSigner. cbn [baf_shard baf_primary baf_seq baf_digest baf_configSequence baf_txCount baf_primarySignature].
    replace (BAF_ToBeSigned (NewSimpleBatchAttestationFragment (br_Shard b) (br_primary b) (br_seq b) (FB_Digest batch) (br_primary b) (br_ConfigSequence b) (N.of_nat (length (FB_Requests batch))) (FB_PrimarySignature batch)))
      with (Ok vmsg) by (rewrite <-Evm, Ecs; done).
    cbn [mbind outcome_bind]. rewrite Hver, Evs. cbn [wrap_err mbind outcome_bind].
    rewrite Em. cbn [mbind outcome_bind]. rewrite Hver. cbn [baf_signature baf_signer baf_shard]. unfold slice_bytes, default, from_option, id. rewrite (Hown _ _ Es). cbn [mbind outcome_bind]. eauto.
  - exists vmsg. split; [done|]. intros checked Ec. split.
    + intros ->. pose proof (BAF_ToBeSigned_inj _ _ _ Ec Evm) as A. cbn in A. by injection A as A.
    + intros Ecs. rewrite Ecs in Evm. apply (Ok_inj checked vmsg). rewrite <-Ec, <-Evm. reflexivity.
Qed.

(** ** The tracked primary and term *)
Definition follow_all (shard : ShardID) (batchers : list PartyID) (tracked : PartyID * N) (sts : list State) : outcome (PartyID * N) :=
  foldl (fun o st => tr ← o; current ← getPrimaryIDAndTerm shard batchers st; Ok (track tr current)) (Ok tracked) sts.

(** The primary of a term among [n] batchers. *)
Definition primary_of (shard : ShardID) (batchers : list PartyID) (term : N) : option PartyID :=
  batchers !! N.to_nat ((shard + term) mod N.of_nat (length batchers)).

Lemma shard_term_last shard shards term : shard_term shard shards = Ok term -> exists st, st ∈ shards /\ st_Shard st = shard /\ st_Term st = term.
Proof.
  unfold shard_term. intros E. apply guard_panic_Ok in E as [Hne E]. apply Ok_inj in E. apply N.eqb_neq in Hne.
  assert (forall l acc t, foldl (fun term st => if (st_Shard st =? shard)%N then st_Term st else term) acc l = t ->
     t = acc \/ exists st, st ∈ l /\ st_Shard st = shard /\ st_Term st = t) as Hf.
  { induction l as [|st l IH]; intros acc t Et; [by left|]. cbn in Et. destruct (N.eqb_spec (st_Shard st) shard) as [Es|]; destruct (IH _ _ Et) as [->|(st' & Hin & ?)].
    - right. exists st. split; [by left|done].
    - right. exists st'. split; [by right|done].
    - by left.
    - right. exists st'. split; [by right|done]. }
  destruct (Hf _ _ _ E) as [->|?]; [congruence|done].
Qed.

Lemma current_primary shard batchers st p term : batchers <> [] -> (N.of_nat (length batchers) <= u16_max)%N -> s_N st = N.of_nat (length batchers) ->
  getPrimaryIDAndTerm shard batchers st = Ok (p, term) -> (shard + term <= u64_max)%N -> shard_term shard (s_Shards st) = Ok term /\ primary_of shard batchers term = Some p.
Proof.
  intros Hne Hmax HN E Hs. unfold getPrimaryIDAndTerm in E. apply bind_Ok_inv in E as (t & Et & E). apply bind_Ok_inv in E as (i & Ei & E).
  destruct (batchers !! N.to_nat i) as [q|] eqn:Eq; [|done]. apply Ok_inj in E. injection E as -> ->. split; [done|].
  rewrite primary_index_Ok in Ei; [|rewrite HN; destruct batchers; [done|cbn; lia]|lia|done]. apply Ok_inj in Ei as <-. by rewrite HN in Eq.
Qed.

Lemma same_primary_congruent shard batchers t1 t2 p : NoDup batchers -> batchers <> [] -> primary_of shard batchers t1 = Some p -> primary_of shard batchers t2 = Some p ->
  ((shard + t1) mod N.of_nat (length batchers) = (shard + t2) mod N.of_nat (length batchers))%N.
Proof. unfold primary_of. intros Hnd Hne E1 E2. pose proof (NoDup_lookup _ _ _ _ Hnd E1 E2). lia. Qed.

Lemma follow_inv shard batchers sts tr tr' : batchers <> [] -> (N.of_nat (length batchers) <= u16_max)%N -> NoDup batchers ->
  (forall st, st ∈ sts -> s_N st = N.of_nat (length batchers) /\ forall x, x ∈ s_Shards st -> (shard + st_Term x <= u64_max)%N) ->
  primary_of shard batchers tr.2 = Some tr.1 -> follow_all shard batchers tr sts = Ok tr' ->
  primary_of shard batchers tr'.2 = Some tr'.1 /\
  (forall st, last sts = Some st -> exists term, shard_term shard (s_Shards st) = Ok term /\ primary_of shard batchers term = Some tr'.1).
Proof.
  intros Hne Hmax Hnd. unfold follow_all. revert tr'. induction sts as [|st sts IH] using rev_ind; intros tr' Hst Htr E; [apply Ok_inj in E as <-; done|].
  rewrite foldl_app in E. cbn in E. apply bind_Ok_inv in E as (tr1 & E1 & E). apply bind_Ok_inv in E as ([p term] & Ec & E). apply Ok_inj in E as <-.
  destruct (Hst st) as [HN Hsh]; [apply elem_of_app; right; by left|].
  assert (shard + term <= u64_max)%N as Hsum.
  { unfold getPrimaryIDAndTerm in Ec. apply bind_Ok_inv in Ec as (t & Et & Ec). apply bind_Ok_inv in Ec as (i & _ & Ec). destruct (batchers !! _); [|done].
    apply Ok_inj in Ec. injection Ec as -> ->. apply shard_term_last in Et as (x & Hx & _ & <-). by apply Hsh. }
  destruct (current_primary shard batchers st p term Hne Hmax HN Ec Hsum) as [Et Hp].
  destruct (IH tr1) as [Htr1 _]; [intros x Hx; apply Hst, elem_of_app; by left|done|done|].
  rewrite last_snoc. unfold track. cbn [fst]. destruct (N.eqb_spec tr1.1 p) as [Ep|Hnp]; cbn [fst snd].
  - split; [done|]. intros ? [= <-]. exists term. by rewrite Ep.
  - split; [done|]. intros ? [= <-]. by exists term.
Qed.

(** A batcher always knows the primary of its shard. Through any sequence of decisions with as many parties as batchers, the
    tracked primary is that of the last decision's term, and the tracked term is congruent to that term modulo the
    number of batchers; so it is the term itself if that is less than this number ahead. *)
Theorem tracked_primary_correct shard batchers tr sts tr' st : NoDup batchers -> batchers <> [] -> (N.of_nat (length batchers) <= u16_max)%N ->
  (forall st, st ∈ sts -> s_N st = N.of_nat (length batchers) /\ forall x, x ∈ s_Shards st -> (shard + st_Term x <= u64_max)%N) ->
  primary_of shard batchers tr.2 = Some tr.1 -> follow_all shard batchers tr sts = Ok tr' -> last sts = Some st ->
  exists term, shard_term shard (s_Shards st) = Ok term /\ primary_of shard batchers term = Some tr'.1 /\
    ((shard + tr'.2) mod N.of_nat (length batchers) = (shard + term) mod N.of_nat (length batchers))%N /\
    ((tr'.2 <= term < tr'.2 + N.of_nat (length batchers))%N -> tr'.2 = term).
Proof.
  intros Hnd Hne Hmax. assert (N.of_nat (length batchers) <> 0%N) as Hn0 by (destruct batchers; [done|cbn; lia]).
  intros Hst Htr E Hl. destruct (follow_inv shard batchers sts tr tr' Hne Hmax Hnd Hst Htr E) as [Hp Hlast].
  destruct (Hlast st Hl) as (term & Et & Hpt). exists term. split; [done|]. split; [done|].
  pose proof (same_primary_congruent shard batchers _ _ _ Hnd Hne Hp Hpt) as Hcong. split; [done|]. intros Hb.
  destruct (mod_window (shard + tr'.2) (N.of_nat (length batchers)) ((shard + tr'.2) mod N.of_nat (length batchers))) as (k & _ & _ & Hu); [by apply N.mod_lt|].
  assert (0%N = k) as <- by (apply Hu; [lia|by rewrite N.add_0_r]).
  assert (term - tr'.2 = 0)%N; [|lia]. apply Hu; [lia|]. rewrite Hcong. f_equal. lia.
Qed.

(** A restarted batcher may complain in vain. A batcher that starts tracks term 0; if the first decision it follows has its
    shard at a positive multiple of the number of batchers, the primary is the same and it keeps term 0. The complaints it
    creates are then about term 0, and if all complaints of a round about the shard are like that, the round does not replace
    the primary, however many there are. *)
Theorem restarted_complaints_ignored shard batchers (bn bn' : Batcher P) st k eff reason c : NoDup batchers -> batchers <> [] -> (N.of_nat (length batchers) <= u16_max)%N ->
  bc_ShardId (bn_config bn) = shard -> bn_batchers bn = batchers -> bn_term bn = 0%N ->
  primary_of shard batchers 0 = Some (bn_primaryID bn) -> s_N st = N.of_nat (length batchers) ->
  shard_term shard (s_Shards st) = Ok (k * N.of_nat (length batchers))%N -> (0 < k)%N -> (shard + k * N.of_nat (length batchers) <= u64_max)%N ->
  follow_state bn (bn_role bn) (bn_wal bn) (Some st) = Ok (bn', eff) -> createComplaint bn' reason = Ok c ->
  c_ShardTerm c = mkShardTerm shard 0 /\
  (forall cs ces s s' ex rq, state_inv s -> terms_below s -> Forall single ces -> Process cs ces s = Ok (s', ex, rq) -> (0 < s_Threshold s)%N ->
     mkShardTerm shard (k * N.of_nat (length batchers)) ∈ s_Shards s -> ~ equivocated (round_pending cs ces s) shard ->
     (forall c', c' ∈ round_complaints cs ces s -> c_Shard c' = shard -> c_ShardTerm c' = c_ShardTerm c) ->
     mkShardTerm shard (k * N.of_nat (length batchers)) ∈ s_Shards s').
Proof.
  intros Hnd Hne Hmax. assert (N.of_nat (length batchers) <> 0%N) as Hn0 by (destruct batchers; [done|cbn; lia]).
  intros Esh Eb Et0 Hp0 HN Hterm Hk Hsum Ef Ec.
  assert (bn_term bn' = 0%N /\ bc_ShardId (bn_config bn') = shard) as [Et' Esh'].
  { unfold follow_state in Ef. cbn [deref mbind outcome_bind] in Ef. apply bind_Ok_inv in Ef as (role & _ & Ef). apply bind_Ok_inv in Ef as ([p t] & Ecur & Ef).
    apply Ok_inj in Ef. injection Ef as <- _. rewrite Esh, Eb in Ecur. pose proof Ecur as Ecur'. unfold getPrimaryIDAndTerm in Ecur'. rewrite Hterm in Ecur'. cbn [mbind outcome_bind] in Ecur'.
    apply bind_Ok_inv in Ecur' as (i & _ & Ecur'). destruct (batchers !! _); [|done]. apply Ok_inj in Ecur'. injection Ecur' as _ <-.
    destruct (current_primary _ _ _ _ _ Hne Hmax HN Ecur Hsum) as [_ Hp].
    unfold primary_of in Hp0, Hp. rewrite N.add_0_r in Hp0. rewrite N.Div0.mod_add, Hp0 in Hp. injection Hp as Hp.
    unfold node_with, track. cbn [fst snd bn_term bn_config]. rewrite Hp, N.eqb_refl. cbn [snd]. done. }
  assert (c_ShardTerm c = mkShardTerm shard 0) as Hc.
  { unfold createComplaint in Ec. apply or_panic_Ok in Ec. unfold CreateComplaint in Ec. apply bind_Ok_inv in Ec as (? & _ & Ec). apply bind_Ok_inv in Ec as (? & _ & Ec).
    apply Ok_inj in Ec as <-. cbn. by rewrite Et', Esh'. }
  split; [done|]. intros cs ces s s' ex rq Hinv Hb Hs Ep Hthr Hin Hnoeq Hcomp.
  destruct (Process_effect _ _ _ _ _ _ Hinv Hs Ep) as (new & rot & PP & hs & w & He).
  pose proof (round_terms _ _ _ _ _ _ _ _ _ _ _ He (si_ready _ Hinv) (si_terms _ Hinv) Hb) as Hnext.
  apply list_elem_of_lookup in Hin as [i Hi]. destruct (Forall2_lookup_l _ _ _ _ _ Hnext Hi) as (st1 & Hi1 & Hsh & Hcase). cbn [st_Shard st_Term] in *.
  apply list_elem_of_lookup. exists i. rewrite Hi1. destruct st1 as [sh1 t1]. cbn in Hsh, Hcase. subst sh1. destruct Hcase as [[[Hq|[_ Hover]] _]|[_ ->]]; [done| |done].
  exfalso. unfold complaint_count in Hover. rewrite filter_no_fragment in Hover; [cbn in Hover; lia|].
  intros c' Hc' Ec'. specialize (Hcomp c' Hc'). rewrite Ec' in Hcomp. cbn in Hcomp. rewrite Hc in Hcomp. specialize (Hcomp eq_refl). injection Hcomp. nia.
Qed.

(** ** Pulled batches after a reconnection *)
(** The loop of a secondary over the batches it receives, up to the first one it complains about. *)
Fixpoint secondary_run (b : BatcherRole P) (batches : list Block) : outcome (BatcherRole P * option gerror) :=
  match batches with
  | [] => Ok (b, None)
  | batch :: rest =>
      match secondary_batch b batch with
      | Ok (b', baf, ids) => secondary_run (secondary_sent b' baf ids).1 rest
      | Err e => Ok (b, Some e)
      | Panic e => Panic e
      end
  end.

Lemma secondary_run_app b l1 l2 b' : secondary_run b l1 = Ok (b', None) -> secondary_run b (l1 ++ l2) = secondary_run b' l2.
Proof.
  revert b. induction l1 as [|x l1 IH]; intros b E; cbn in E |- *; [by apply Ok_inj in E; injection E as ->|].
  destruct (secondary_batch b x) as [[[b1 baf] ids]| |]; [by apply IH|done|done].
Qed.

Lemma secondary_run_seq b l b' : secondary_run b l = Ok (b', None) -> (br_seq b + N.of_nat (length l) < u64_max)%N -> br_seq b' = (br_seq b + N.of_nat (length l))%N.
Proof.
  revert b. induction l as [|x l IH]; intros b E Hmax; cbn in E.
  { apply Ok_inj in E. injection E as ->. cbn. lia. }
  cbn [length] in Hmax. destruct (secondary_batch b x) as [[[b1 baf] ids]| |] eqn:Eb; [|done..].
  assert (br_seq b1 = br_seq b) as Es.
  { unfold secondary_batch in Eb. apply bind_Ok_inv in Eb as (? & _ & Eb). apply bind_Ok_inv in Eb as (? & _ & Eb). apply bind_Ok_inv in Eb as (? & _ & Eb).
    apply Ok_inj in Eb. by injection Eb as <- _ _. }
  apply IH in E; cbn [secondary_sent fst with_position br_seq] in *; rewrite Es, u64_incr_small in * by lia; cbn [length]; lia.
Qed.

(** A lost connection makes a secondary blame an honest primary. A secondary reads the primary's ledger through a
    buffered channel, and a new connection asks again from the height of the secondary's own ledger. If the connection is
    lost while batches are in the channel, the secondary receives them twice: it appends the first copies and complains
    about the second, although the primary's ledger is a correct sequence of batches. *)
Theorem reconnect_blames_primary (b b' : BatcherRole P) L k : (forall i blk, L !! i = Some blk -> FB_Seq blk = N.of_nat i) ->
  0 < k -> N.to_nat (br_seq b) + k <= length L -> (N.of_nat (length L) < u64_max)%N ->
  let queued := take k (pulled_from L (br_seq b)) in
  secondary_run b queued = Ok (b', None) ->
  br_seq b' = (br_seq b + N.of_nat k)%N /\ exists e, secondary_run b (queued ++ pulled_from L (br_seq b)) = Ok (b', Some e).
Proof.
  intros HL Hk Hlen Hmax queued E. assert (length queued = k) as Hq by (unfold queued, pulled_from; rewrite length_take, length_drop; lia).
  pose proof (secondary_run_seq _ _ _ E ltac:(rewrite Hq; lia)) as Hseq. rewrite Hq in Hseq. split; [done|].
  rewrite (secondary_run_app _ _ _ _ E). unfold pulled_from.
  destruct (lookup_lt_is_Some_2 L (N.to_nat (br_seq b))) as [blk Hblk]; [lia|]. rewrite (drop_S _ _ _ Hblk). cbn [secondary_run].
  assert (exists e, verifyBatch b' blk = Err e) as [e Ev].
  { unfold verifyBatch. destruct (negb (FB_Primary blk =? br_primary b')%N); cbn [guard_err]; [eauto|]. destruct (negb (FB_Shard blk =? br_Shard b')%N); cbn [guard_err]; [eauto|].
    rewrite (HL _ _ Hblk), Nnat.N2Nat.id, Hseq, (proj2 (N.eqb_neq _ _)) by lia. cbn. eauto. }
  exists e. unfold secondary_batch. by rewrite Ev.
Qed.

(** ** Restarts *)
Lemma follow_state_store (b b' : Batcher P) role wal ost eff : follow_state b role wal ost = Ok (b', eff) ->
  bn_wal b' = wal /\ bn_ConfigStore b' = bn_ConfigStore b /\ exists st conn, ost = Some st /\ eff = Following st conn.
Proof.
  unfold follow_state. intros E. apply bind_Ok_inv in E as (st & Est & E). destruct ost as [st'|]; [|done]. apply Ok_inj in Est as ->.
  apply bind_Ok_inv in E as (r & _ & E). apply bind_Ok_inv in E as (cur & _ & E). apply Ok_inj in E. injection E as <- <-. cbn. eauto 10.
Qed.

Lemma replicate_one_wal (b b' : Batcher P) hdr eff : replicate_one b hdr = Ok (b', eff) -> exists raw, Header_Serialize hdr = Ok raw /\ bn_wal b' = [raw].
Proof.
  unfold replicate_one. intros E. apply bind_Ok_inv in E as (raw & Er & E). exists raw. split; [done|].
  destruct ((h_Num hdr =? _)%N && _); [|by apply follow_state_store in E as (? & _)].
  apply bind_Ok_inv in E as (lb & _ & E). destruct (IsConfigBlock lb); [|by apply follow_state_store in E as (? & _)].
  apply bind_Ok_inv in E as (lc & _ & E). destruct (N.eqb_spec (block_number lc) (block_number lb)).
  - apply bind_Ok_inv in E as (st & _ & E). apply bind_Ok_inv in E as (r & _ & E). by apply follow_state_store in E as (? & _).
  - destruct (_ <? _)%N; [apply Ok_inj in E; by injection E as <- _|]. apply bind_Ok_inv in E as (store & _ & E). apply Ok_inj in E. by injection E as <- _.
Qed.

(** A restarted batcher resumes at the decision it handled last, and applies each config block once. After a decision
    is handled, a restart asks for decisions from that one on, so none is missed. A decision makes the batcher reconfigure
    only if its config block is newer than all in the config store, and then the block is the last one of the store; when
    the same decision comes again after the restart, the batcher does not reconfigure again and follows its state. *)
Theorem batcher_resumes (b b' : Batcher P) hdr eff st blocks : store_ok (bn_ConfigStore b) blocks -> replicate_one b hdr = Ok (b', eff) ->
  h_State hdr = Some st -> state_in_range st -> (0 < s_N st)%N -> (0 < h_Num hdr)%N ->
  getLastKnownDecisionNum (bn_wal b') (bn_ConfigStore b') = Ok (h_Num hdr) /\
  (forall blk, eff = Reconfigure blk ->
     last (h_AvailableCommonBlocks hdr) = Some blk /\ (forall n, is_Some (blocks !! n) -> (n < block_number blk)%N) /\
     store_ok (bn_ConfigStore b') (<[block_number blk := blk]> blocks) /\ Store_Last (bn_ConfigStore b') = Ok blk /\
     forall (b2 b3 : Batcher P) eff2, bn_ConfigStore b2 = bn_ConfigStore b' -> replicate_one b2 hdr = Ok (b3, eff2) ->
       bn_ConfigStore b3 = bn_ConfigStore b' /\ exists conn, eff2 = Following st conn).
Proof.
  intros Hok E Hst Hr HN Hnum. split.
  { destruct (replicate_one_wal _ _ _ _ E) as (raw & Eraw & ->). unfold getLastKnownDecisionNum. cbn [last].
    rewrite (Header_round _ _ _ Hst Hr HN Eraw). cbn [or_panic mbind outcome_bind]. unfold header_norm. cbn [h_Num]. by rewrite (proj2 (N.ltb_lt _ _)). }
  intros blk ->. unfold replicate_one in E. apply bind_Ok_inv in E as (raw & Eraw & E).
  destruct ((h_Num hdr =? _)%N && _) eqn:Econf; [|by apply follow_state_store in E as (_ & _ & ? & ? & _ & ?)].
  apply bind_Ok_inv in E as (lb & Elb & E). destruct (IsConfigBlock lb) eqn:Eis; [|by apply follow_state_store in E as (_ & _ & ? & ? & _ & ?)].
  apply bind_Ok_inv in E as (lc & Elc%or_panic_Ok & E). destruct (N.eqb_spec (block_number lc) (block_number lb)) as [|Hne].
  { apply bind_Ok_inv in E as (st' & _ & E). apply bind_Ok_inv in E as (r & _ & E). by apply follow_state_store in E as (_ & _ & ? & ? & _ & ?). }
  destruct (N.ltb_spec (block_number lb) (block_number lc)) as [|Hge]; [by apply Ok_inj in E|].
  apply bind_Ok_inv in E as (store & Eadd%or_panic_Ok & E). apply Ok_inj in E. injection E as <- <-. cbn [node_with bn_ConfigStore].
  destruct (last (h_AvailableCommonBlocks hdr)) as [lb'|] eqn:Elast; [|done]. apply Ok_inj in Elb as ->. split; [done|].
  destruct (store_operations _ _ Hok) as (_ & _ & _ & Hlast). apply Hlast in Elc as [_ Hmax].
  assert (forall n, is_Some (blocks !! n) -> (n < block_number lb)%N) as Hlt by (intros n Hn; specialize (Hmax n Hn); lia). split; [done|].
  destruct (Store_Add_ok _ _ _ _ Hok Eadd) as [Hnew Hok']. split; [done|].
  assert (Store_Last store = Ok lb) as Hl.
  { apply (store_operations _ _ Hok'). split; [by rewrite lookup_insert_eq|]. intros n [x Hx]. apply lookup_insert_Some in Hx as [[<- _]|[_ Hx]]; [lia|].
    specialize (Hlt n ltac:(by exists x)). lia. }
  split; [done|]. intros b2 b3 eff2 Es2 E2. unfold replicate_one in E2. rewrite Eraw in E2. cbn [mbind outcome_bind] in E2. rewrite Econf, Elast in E2. cbn [mbind outcome_bind] in E2.
  rewrite Eis, Es2, Hl in E2. cbn [or_panic mbind outcome_bind] in E2. rewrite N.eqb_refl, Hst in E2. cbn [deref mbind outcome_bind] in E2.
  apply bind_Ok_inv in E2 as (r & _ & E2). apply follow_state_store in E2 as (_ & Ec & st' & conn & [= <-] & ->). rewrite Ec, Es2. eauto.
Qed.
End Fragments.
