(* ===== verification/BatcherSample.v ===== *)
(** * A concrete batcher

    Batcher 2 of shard 1 with three parties, a toy signature scheme and a mempool that is a list: its runs as primary and as
    secondary, and the instances of the theorems on batchers at them. *)
From S2P Require Import Prelude Types Events State StateFacts StateProps Round Badb Consenter Blocks Ledger StateCodec StateCodecFacts Consensus BatchMapper FabricBatch Acker Batcher ConfigStore BatcherNode BatcherThms RoundThms Equivocation BatcherConsensus Sample SampleBlocks SampleNode.
From stdpp Require Import gmap sets sorting relations.
From Stdlib Require Import NArith Lia.
From Stdlib Require Import Init.Byte.

#[local] Existing Instance sample_fabric.
#[local] Existing Instance sample_blocks.
#[local] Existing Instance sample_states.
#[local] Existing Instance sample_bft.
#[local] Existing Instance sample_sha.
#[local] Existing Instance sample_channels.
#[local] Existing Instance range_canonical.
#[local] Existing Instance sample_env.

Definition list_pool : MemPool (list bytes) := {|
  mp_RemoveRequests pool ids := List.filter (fun r => negb (bool_decide (DefaultRequestID r ∈ ids))) pool;
  mp_Submit pool req := (pool ++ [req], Ok tt);
  mp_Restart pool _ := pool |}.
#[local] Existing Instance list_pool.
Definition list_verifier : BatchedRequestsVerifier (list bytes) := {|
  VerifyBatchedRequests _ reqs := Ok (DefaultRequestID <$> reqs);
  VerifyRequest _ := Ok tt |}.
#[local] Existing Instance list_verifier.
Definition toy_keys : BatcherKeys := {|
  batcher_sign _ := Ok one_byte;
  batcher_verify _ _ sig := if decide (sig = one_byte) then Ok tt else Err "invalid signature" |}.
#[local] Existing Instance toy_keys.

(** In term 0 batcher 2 is the primary of shard 1, in term 1 batcher 3 is. *)
Definition role_at (term : N) : BatcherRole (list bytes) := mkRole [1; 2; 3]%N 2 1 1 3 sample_array 3 [] 10 0 0 term None.
Definition started (b : BatcherRole (list bytes)) : BatcherRole (list bytes) * role_phase := match run_top b with Ok r => r | _ => (b, AtTop) end.
Definition primary0 : BatcherRole (list bytes) := (started (role_at 0)).1.
Definition dummy_baf : BAF := mkBAF 0 0 0 [] 0 None None 0 0.
Definition made : BatcherRole (list bytes) * BAF := match primary_batch primary0 [[x61]] with Ok r => r | _ => (primary0, dummy_baf) end.
Definition made_state : role_state := mkRS made.1 (PrimarySending made.2 []) [made.2].

Lemma role_at_ok term : role_ok (role_at term).
Proof. repeat split; [|discriminate|done]. cbn. apply NoDup_cons. split; [set_solver|]. apply NoDup_cons. split; [set_solver|]. apply NoDup_singleton. Qed.

Lemma made_reached : rtc role_step (mkRS (role_at 0) AtTop []) made_state.
Proof.
  eapply rtc_l; [eapply (step_run _ primary0 AsPrimary); vm_compute; reflexivity|].
  eapply rtc_l; [|apply rtc_refl]. eapply (step_primary _ made.1 made.2 [[x61]] []); [vm_compute; reflexivity|vm_compute; reflexivity|discriminate|vm_compute; reflexivity].
Qed.

Lemma primary_rotation_witness : exists k, (k < 3)%N /\ getPrimaryID (role_at 0) (5 + k) = Ok 3%N.
Proof.
  destruct (primary_rotation (role_at 0) 5 (role_at_ok 0) ltac:(vm_compute; discriminate)) as (_ & H & _).
  destruct (H 3%N) as (k & Hk & E & _); [right; right; by left|]. exists k. split; [exact Hk|exact E].
Defined.

Lemma batcher_attests_once_witness : exists batch, attests made.1 made.2 batch.
Proof.
  exact (proj2 (batcher_attests_once (role_at 0) made_state sample_array_ok eq_refl ltac:(vm_compute; discriminate) made_reached) made.2 ltac:(by left)).
Defined.

Lemma resubmission_total_witness : exists pool, ResubmitPendingBAFs made.1 (with_Pending [made.2] sample_state) 0 true = Ok (with_pool pool made.1).
Proof.
  eexists. refine (proj1 (resubmission_total (role_at 0) made_state (with_Pending [made.2] sample_state) 0 true sample_array_ok eq_refl ltac:(vm_compute; discriminate) made_reached _)).
  intros f [Hf|Hf] _; [exact Hf|]. by apply not_elem_of_nil in Hf.
Defined.

(** The honest primary's batch as its secondary 3 attests it, and two conflicting fragments that name batcher 3 as primary. *)
Definition attested_by_3 : BAF := mkBAF 1 2 0 (baf_digest made.2) 3 (Some one_byte) (Some one_byte) 3 1.
Definition forked (digest : bytes) (signer : N) : BAF := mkBAF 1 3 0 digest signer (Some one_byte) (Some one_byte) 3 1.

Lemma honest_primary_not_blamed_witness :
  let pending := [attested_by_3; forked [x01] 1; forked [x02] 2] in
  exists f1 f2, f1 ∈ pending /\ f2 ∈ pending /\ batchKeyOf f1 = batchKeyOf f2 /\ baf_digest f1 <> baf_digest f2 /\ baf_primary f1 <> 2%N.
Proof.
  intros pending. refine (honest_primary_not_blamed (role_at 0) made_state pending sample_array_ok eq_refl ltac:(vm_compute; discriminate) made_reached _ _).
  - intros f Hf Hsh Hp Hsg. apply elem_of_cons in Hf as [->|Hf].
    + exists made.2. eexists. split; [by left|]. split; vm_compute; reflexivity.
    + exfalso. apply elem_of_cons in Hf as [->|Hf]; [discriminate Hp|]. apply elem_of_cons in Hf as [->|Hf]; [discriminate Hp|]. by apply not_elem_of_nil in Hf.
  - exists (forked [x01] 1), (forked [x02] 2). repeat split; try done; try (intros _; discriminate); [right; by left|right; right; by left].
Defined.

(** Batcher 2 as secondary of batcher 3. *)
Definition secondary1 : BatcherRole (list bytes) := (started (role_at 1)).1.
Definition batch_of_3 (seq : N) (ph : bytes) : Block := NewFabricBatchFromRequests 1 3 seq [[x61]] (BatchedRequests.Digest [[x61]]) 3 ph one_byte.
Definition stored : BatcherRole (list bytes) * BAF * list bytes :=
  match secondary_batch secondary1 (batch_of_3 0 []) with Ok r => r | _ => (secondary1, dummy_baf, []) end.
Definition stored_event : bytes := ok_bytes (ControlEvent_Bytes (BAFEvent stored.1.2)).

Lemma secondary_fragment_accepted_witness : exists info, verifyControlEvent (sample_consensus 1) stored_event 0 = Ok (info, BAFEvent stored.1.2).
Proof.
  refine (proj1 (secondary_fragment_accepted (sample_consensus 1) secondary1 stored.1.1 (batch_of_3 0 []) stored.1.2 stored.2 stored_event 0 _ _ _ _ _ _ _ _) _).
  - vm_compute. reflexivity.
  - vm_compute. discriminate.
  - repeat split; vm_compute; discriminate.
  - vm_compute. reflexivity.
  - reflexivity.
  - intros msg sig E. apply Ok_inj in E as <-. reflexivity.
  - intros id msg. discriminate.
  - vm_compute. discriminate.
  - vm_compute. reflexivity.
Defined.

(** ** The node *)
Definition state_at (term : N) : State := mkState 3 2 1 [mkShardTerm 1 term] [] [] (Some []) [] [] [] 0.

Lemma tracked_primary_correct_witness : exists tr', follow_all 1 [1; 2; 3]%N (2, 0)%N [state_at 0; state_at 1; state_at 4] = Ok tr' /\
  exists term, shard_term 1 (s_Shards (state_at 4)) = Ok term /\ primary_of 1 [1; 2; 3]%N term = Some tr'.1.
Proof.
  exists (3, 1)%N. split; [vm_compute; reflexivity|].
  destruct (tracked_primary_correct 1 [1; 2; 3]%N (2, 0)%N [state_at 0; state_at 1; state_at 4] (3, 1)%N (state_at 4)) as (term & Et & Hp & _).
  - apply (role_at_ok 0).
  - discriminate.
  - vm_compute. discriminate.
  - intros st Hst. rewrite !elem_of_cons in Hst. destruct Hst as [->|[->|[->|Hst]]]; [..|by apply not_elem_of_nil in Hst];
      (split; [reflexivity|]; intros x Hx; apply list_elem_of_singleton in Hx as ->; vm_compute; discriminate).
  - vm_compute. reflexivity.
  - vm_compute. reflexivity.
  - reflexivity.
  - exists term. split; [exact Et|exact Hp].
Defined.

Definition genesis : Block := mkBlock (Some (mkBlockHeader 0 [] [])) (Some [[x61]]) None.
Definition genesis_store : Store := mkStore {[0%N := ok_bytes (marshal_or_panic genesis)]}.
Definition node_config : BatcherNodeConfig := mkBatcherConfig [(1, [3; 1; 2])]%N [1; 2; 3]%N 2 1.
Definition fresh_node : Batcher (list bytes) :=
  match configureBatcher node_config 3 10 sample_array [] [] genesis_store with Ok b => b | _ => mkBatcher node_config [] (role_at 0) [] genesis_store 0 0 end.
Definition following : Batcher (list bytes) :=
  match follow_state fresh_node (bn_role fresh_node) (bn_wal fresh_node) (Some (state_at 3)) with Ok (b, _) => b | _ => fresh_node end.
Definition vain_complaint : Complaint := match createComplaint following [x62] with Ok c => c | _ => complaint_by 1 end.

Lemma restarted_complaints_ignored_witness : c_ShardTerm vain_complaint = mkShardTerm 1 0.
Proof.
  refine (proj1 (restarted_complaints_ignored 1 [1; 2; 3]%N fresh_node following (state_at 3) 1 (Following (state_at 3) None) [x62] vain_complaint
    _ _ _ _ _ _ _ _ _ _ _ _ _)); try (vm_compute; reflexivity).
  - apply (role_at_ok 0).
  - discriminate.
  - vm_compute. discriminate.
  - vm_compute. discriminate.
Defined.

(** A ledger of two batches of batcher 3, both in the channel when the connection is lost. *)
Definition ledger_of_3 : list Block := [batch_of_3 0 []; batch_of_3 1 [x01]].
Definition received : BatcherRole (list bytes) := match secondary_run secondary1 (take 2 (pulled_from ledger_of_3 0)) with Ok (b, _) => b | _ => secondary1 end.

Lemma reconnect_blames_primary_witness : exists e, secondary_run secondary1 (take 2 (pulled_from ledger_of_3 0) ++ pulled_from ledger_of_3 0) = Ok (received, Some e).
Proof.
  refine (proj2 (reconnect_blames_primary secondary1 received ledger_of_3 2 _ _ _ _ _)).
  - intros [|[|i]] blk E; [injection E as <-; reflexivity|injection E as <-; reflexivity|done].
  - lia.
  - vm_compute. lia.
  - vm_compute. reflexivity.
  - vm_compute. reflexivity.
Defined.

Lemma genesis_store_ok : store_ok genesis_store {[0%N := genesis]}.
Proof.
  split; [vm_compute; reflexivity|]. intros n b Hb. apply lookup_singleton_Some in Hb as [<- <-]. split; [by eexists|]. split; [reflexivity|].
  eexists. split; vm_compute; reflexivity.
Qed.

Lemma config_store_contents_witness : Store_Last genesis_store = Ok genesis.
Proof.
  destruct (config_store_contents genesis_store {[0%N := genesis]} genesis_store_ok) as (_ & _ & _ & H). apply H.
  split; [reflexivity|]. intros n [x Hx]. apply lookup_singleton_Some in Hx as [<- _]. vm_compute. discriminate.
Defined.

(** Decision 5 has a config block with number 4. *)
Definition config_block : Block :=
  mkBlock (Some (mkBlockHeader 4 [] [])) (Some [ok_bytes (marshal_or_panic (mkEnvelope (ok_bytes (marshal_or_panic (mkPayload (Some (ok_bytes (marshal_or_panic (mkChannelHeader 1 [])))) []))) []))]) None.
Definition config_decision : Header := mkHeader 5 [] [config_block] (Some (state_at 3)) 5.
Definition reconfiguring : Batcher (list bytes) := match replicate_one fresh_node config_decision with Ok (b, _) => b | _ => fresh_node end.

Lemma batcher_resumes_witness : getLastKnownDecisionNum (bn_wal reconfiguring) (bn_ConfigStore reconfiguring) = Ok 5%N /\ Store_Last (bn_ConfigStore reconfiguring) = Ok config_block.
Proof.
  destruct (batcher_resumes fresh_node reconfiguring config_decision (Reconfigure config_block) (state_at 3) {[0%N := genesis]}) as [Hl Hc].
  - exact genesis_store_ok.
  - vm_compute. reflexivity.
  - reflexivity.
  - repeat split; repeat constructor; vm_compute; try discriminate; try reflexivity.
  - vm_compute. reflexivity.
  - vm_compute. reflexivity.
  - split; [exact Hl|]. destruct (Hc config_block eq_refl) as (_ & _ & _ & E & _). exact E.
Defined.
