(* ===== verification/BatchStore.v ===== *)
(** * The batch store of the mempool

    [src/request/batchstore.go] and [src/request/batch.go]: the requests of a primary, gathered into batches of
    bounded count and bytes. Batches are shared between the store's lists and its index, so they live in a heap of
    their own. Each operation is one step, and Insert one round per attempt on the current batch. *)
From S2P Require Import Prelude Types.
From stdpp Require Import gmap sets.
From Stdlib Require Import NArith Lia.

Abbreviation reqID := (list Byte.byte) (only parsing).

(** [ba_sizeBytes] has the number of requests in its upper 32 bits and their bytes in the lower. *)
Record batch := mkBatchMap { ba_sizeBytes : N; ba_enqueued : bool; ba_m : gmap reqID bytes }.
Definition new_batch : batch := mkBatchMap 0 false ∅.

Record BatchStore := mkBatchStore {
  bs_batchMaxSize : N;
  bs_batchMaxSizeBytes : N;
  bs_heap : gmap nat batch;
  bs_currentBatch : nat;
  bs_readyBatches : list nat;
  bs_keys2Batches : gmap reqID nat;
  bs_next : nat
}.

Definition NewBatchStore (batchMaxSize batchMaxSizeBytes : N) : BatchStore := mkBatchStore batchMaxSize batchMaxSizeBytes {[0 := new_batch]} 0 [] ∅ 1.

Section Store.
Context {R : MapRange}.

Definition at_batch (bs : BatchStore) (i : nat) : batch := default new_batch (bs_heap bs !! i).
Definition with_heap (bs : BatchStore) (heap : gmap nat batch) : BatchStore :=
  mkBatchStore (bs_batchMaxSize bs) (bs_batchMaxSizeBytes bs) heap (bs_currentBatch bs) (bs_readyBatches bs) (bs_keys2Batches bs) (bs_next bs).
Definition set_batch (bs : BatchStore) (i : nat) (b : batch) : BatchStore := with_heap bs (<[i := b]> (bs_heap bs)).

Definition Lookup (bs : BatchStore) (key : reqID) : option bytes := i ← bs_keys2Batches bs !! key; ba_m (at_batch bs i) !! key.

(** A new current batch in place of the present one. *)
Definition fresh_current (bs : BatchStore) (ready : list nat) : BatchStore :=
  mkBatchStore (bs_batchMaxSize bs) (bs_batchMaxSizeBytes bs) (<[bs_next bs := new_batch]> (bs_heap bs)) (bs_next bs) ready (bs_keys2Batches bs) (S (bs_next bs)).

(** Sizes after an attempt, and whether the batch is full. *)
Definition attempt (bs : BatchStore) (size : N) : N := u64 (ba_sizeBytes (at_batch bs (bs_currentBatch bs)) + (size + N.shiftl 1 32)).
Definition over_limit (bs : BatchStore) (newSize : N) : bool :=
  (bs_batchMaxSize bs <? u32 (N.shiftr newSize 32))%N || (bs_batchMaxSizeBytes bs <? u32 newSize)%N.

(** One attempt of Insert; [None] means to try again. *)
Definition insert_round (bs : BatchStore) (key : reqID) (value : bytes) (size : N) : BatchStore * option bool :=
  let i := bs_currentBatch bs in
  let cur := at_batch bs i in
  let newSize := attempt bs size in
  if negb (over_limit bs newSize) then
    match bs_keys2Batches bs !! key with
    | Some _ => (set_batch bs i (mkBatchMap newSize (ba_enqueued cur) (ba_m cur)), Some false)
    | None =>
        let bs := set_batch bs i (mkBatchMap newSize (ba_enqueued cur) (<[key := value]> (ba_m cur))) in
        (mkBatchStore (bs_batchMaxSize bs) (bs_batchMaxSizeBytes bs) (bs_heap bs) (bs_currentBatch bs) (bs_readyBatches bs) (<[key := i]> (bs_keys2Batches bs)) (bs_next bs), Some true)
    end
  else if ba_enqueued cur then (set_batch bs i (mkBatchMap newSize true (ba_m cur)), None)
  else (fresh_current (set_batch bs i (mkBatchMap newSize true (ba_m cur))) (bs_readyBatches bs ++ [i]), None).

(** The loop of Insert; [None] is that it did not end within the fuel. *)
Fixpoint Insert (fuel : nat) (bs : BatchStore) (key : reqID) (value : bytes) (size : N) : option (BatchStore * bool) :=
  match fuel with
  | 0 => None
  | S fuel =>
      match insert_round bs key value size with
      | (bs, Some inserted) => Some (bs, inserted)
      | (bs, None) => Insert fuel bs key value size
      end
  end.

Definition batch_items (bs : BatchStore) (i : nat) : list (reqID * bytes) := range_map 10 (ba_m (at_batch bs i)).

Definition ForEach (bs : BatchStore) : list (reqID * bytes) :=
  concat (batch_items bs <$> bs_readyBatches bs) ++ batch_items bs (bs_currentBatch bs).

(** Remove, and whether onDelete was called. *)
Definition Remove (bs : BatchStore) (key : reqID) : BatchStore * bool :=
  match bs_keys2Batches bs !! key with
  | None => (bs, false)
  | Some i =>
      let b := at_batch bs i in
      (mkBatchStore (bs_batchMaxSize bs) (bs_batchMaxSizeBytes bs) (<[i := mkBatchMap (ba_sizeBytes b) (ba_enqueued b) (delete key (ba_m b))]> (bs_heap bs))
         (bs_currentBatch bs) (bs_readyBatches bs) (delete key (bs_keys2Batches bs)) (bs_next bs), true)
  end.

(** Removal of several keys with the number of calls of onDelete; each key is handled by one worker. *)
Fixpoint RemoveAll (bs : BatchStore) (keys : list reqID) : BatchStore * nat :=
  match keys with
  | [] => (bs, 0)
  | key :: rest =>
      let r := Remove bs key in
      let r' := RemoveAll r.1 rest in
      (r'.1, (if r.2 then 1 else 0) + r'.2)
  end.

Definition Store_Prune (bs : BatchStore) (valid : bytes -> bool) : BatchStore * nat :=
  RemoveAll bs (List.filter (fun kv => negb (valid kv.2)) (ForEach bs)).*1.

(** prepareBatch marks the batch and lists its requests. *)
Definition prepareBatch (bs : BatchStore) (i : nat) : BatchStore * list (reqID * bytes) :=
  let b := at_batch bs i in
  (set_batch bs i (mkBatchMap (ba_sizeBytes b) true (ba_m b)), range_map 11 (ba_m b)).

Definition with_ready (bs : BatchStore) (ready : list nat) : BatchStore :=
  mkBatchStore (bs_batchMaxSize bs) (bs_batchMaxSizeBytes bs) (bs_heap bs) (bs_currentBatch bs) ready (bs_keys2Batches bs) (bs_next bs).

(** Fetch after it waited: for a ready batch or for its context to be done. *)
Fixpoint fetch_ready (bs : BatchStore) (ready : list nat) : BatchStore * list (reqID * bytes) :=
  match ready with
  | [] =>
      let i := bs_currentBatch bs in
      let bs := with_ready bs [] in
      if (ba_sizeBytes (at_batch bs i) =? 0)%N then (bs, [])
      else let r := prepareBatch bs i in (fresh_current r.1 [], r.2)
  | i :: rest =>
      let r := prepareBatch bs i in
      match r.2 with
      | [] => fetch_ready r.1 rest
      | _ => (with_ready r.1 rest, r.2)
      end
  end.
Definition Fetch (bs : BatchStore) : BatchStore * list (reqID * bytes) := fetch_ready bs (bs_readyBatches bs).

(** ** Invariant *)
(** The bytes of the requests of a batch. *)
Definition weight (m : gmap reqID bytes) : N := map_fold (fun _ v n => N.of_nat (length v) + n)%N 0%N m.

Lemma weight_insert m k v : m !! k = None -> weight (<[k := v]> m) = (N.of_nat (length v) + weight m)%N.
Proof. intros Hk. unfold weight. rewrite map_fold_insert_L; [done|intros; lia|done]. Qed.

Lemma size_delete_le (m : gmap reqID bytes) k : size (delete k m) <= size m.
Proof. rewrite map_size_delete. destruct (m !! k); cbn; lia. Qed.

Lemma weight_delete m k : (weight (delete k m) <= weight m)%N.
Proof.
  destruct (m !! k) as [v|] eqn:Hk; [|by rewrite delete_id]. rewrite <-(insert_delete_id m k v) at 2 by done.
  rewrite weight_insert by apply lookup_delete_eq. lia.
Qed.

Lemma sum_list_Permutation (l1 l2 : list nat) : l1 ≡ₚ l2 -> sum_list l1 = sum_list l2.
Proof. induction 1; cbn; lia. Qed.

Lemma weight_list (l : list (reqID * bytes)) m : l ≡ₚ map_to_list m -> N.of_nat (sum_list (length <$> l.*2)) = weight m.
Proof.
  intros Hl. rewrite (sum_list_Permutation _ (length <$> (map_to_list m).*2)) by (by rewrite Hl).
  clear Hl. unfold weight. rewrite map_fold_foldr. induction (map_to_list m) as [|[k v] kvs IH]; [done|]. cbn. rewrite <-IH. cbn. lia.
Qed.

(** A batch within the limits, and the current one, whose counters cover what it holds and are within the limits too. *)
Definition within (bs : BatchStore) (b : batch) : Prop :=
  (N.of_nat (size (ba_m b)) <= bs_batchMaxSize bs)%N /\ (weight (ba_m b) <= bs_batchMaxSizeBytes bs)%N.
Definition measured (bs : BatchStore) (b : batch) : Prop := exists c w, ba_sizeBytes b = (c * 4294967296 + w)%N /\ ba_enqueued b = false /\
  (N.of_nat (size (ba_m b)) <= c <= bs_batchMaxSize bs)%N /\ (weight (ba_m b) <= w <= bs_batchMaxSizeBytes bs)%N.

Record bs_inv (bs : BatchStore) : Prop := {
  bi_index : forall k i, bs_keys2Batches bs !! k = Some i <-> exists b, bs_heap bs !! i = Some b /\ is_Some (ba_m b !! k);
  bi_within : forall i b, bs_heap bs !! i = Some b -> within bs b;
  bi_current : exists b, bs_heap bs !! bs_currentBatch bs = Some b /\ measured bs b;
  bi_ready : NoDup (bs_currentBatch bs :: bs_readyBatches bs) /\ forall i, i ∈ bs_readyBatches bs -> is_Some (bs_heap bs !! i);
  bi_next : forall i, is_Some (bs_heap bs !! i) -> i < bs_next bs
}.

(** The limits the pool is configured with: counters of 32 bits hold them, with one request more. *)
Definition limits_ok (bs : BatchStore) (size : N) : Prop :=
  (0 < bs_batchMaxSize bs)%N /\ (bs_batchMaxSize bs < u32_max)%N /\ (size <= bs_batchMaxSizeBytes bs)%N /\ (bs_batchMaxSizeBytes bs + size <= u32_max)%N.

Lemma new_batch_within bs : within bs new_batch /\ measured bs new_batch.
Proof.
  split; [split; cbn; [rewrite map_size_empty; lia|unfold weight; rewrite map_fold_empty; lia]|].
  exists 0%N, 0%N. cbn. rewrite map_size_empty. unfold weight. rewrite map_fold_empty. repeat split; lia.
Qed.

Lemma bs_inv_new n w : bs_inv (NewBatchStore n w).
Proof.
  assert (forall i b, ({[0 := new_batch]} : gmap nat batch) !! i = Some b -> i = 0 /\ b = new_batch) as Hh by (intros i b [? ?]%lookup_singleton_Some; done).
  split; cbn [NewBatchStore bs_keys2Batches bs_heap bs_currentBatch bs_readyBatches bs_next].
  - intros k i. rewrite lookup_empty. split; [done|]. intros (b & [-> ->]%Hh & Hs). cbn in Hs. rewrite lookup_empty in Hs. by apply is_Some_None in Hs.
  - intros i b [-> ->]%Hh. apply new_batch_within.
  - exists new_batch. split; [done|apply new_batch_within].
  - split; [apply NoDup_singleton|]. intros i Hi. by apply not_elem_of_nil in Hi.
  - intros i [b [-> _]%Hh]. lia.
Qed.

(** The counters of an attempt on a measured batch do not overflow into each other. *)
Lemma attempt_parts bs b c w size : bs_heap bs !! bs_currentBatch bs = Some b -> ba_sizeBytes b = (c * 4294967296 + w)%N ->
  (c < u32_max)%N -> (w + size <= u32_max)%N ->
  attempt bs size = ((c + 1) * 4294967296 + (w + size))%N /\ u32 (N.shiftr (attempt bs size) 32) = (c + 1)%N /\ u32 (attempt bs size) = (w + size)%N.
Proof.
  intros Hb Hs Hc Hw. unfold u32_max in *. assert (attempt bs size = ((c + 1) * 4294967296 + (w + size))%N) as ->.
  { unfold attempt, at_batch, u64. rewrite Hb. cbn [default from_option id]. rewrite Hs. rewrite N.shiftl_1_l. change (2 ^ 32)%N with 4294967296%N.
    rewrite N.mod_small by lia. lia. }
  split; [done|]. rewrite N.shiftr_div_pow2. change (2 ^ 32)%N with 4294967296%N. unfold u32. split.
  - rewrite N.div_add_l by done. rewrite (N.div_small (w + size)) by lia. rewrite N.mod_small by lia. lia.
  - rewrite N.add_comm, N.Div0.mod_add, N.mod_small by lia. done.
Qed.

Lemma at_current bs b : bs_heap bs !! bs_currentBatch bs = Some b -> at_batch bs (bs_currentBatch bs) = b.
Proof. unfold at_batch. by intros ->. Qed.

Lemma key_absent bs k : bs_inv bs -> bs_keys2Batches bs !! k = None -> forall i b, bs_heap bs !! i = Some b -> ba_m b !! k = None.
Proof.
  intros Hi Hk i b Hb. destruct (ba_m b !! k) eqn:E; [|done]. assert (bs_keys2Batches bs !! k = Some i) by (apply Hi; exists b; by rewrite E). congruence.
Qed.

(** Replacing a batch by one with the same requests keeps the index. *)
Lemma index_same bs i b b' : bs_inv bs -> bs_heap bs !! i = Some b -> ba_m b' = ba_m b ->
  forall k j, bs_keys2Batches bs !! k = Some j <-> exists x, <[i := b']> (bs_heap bs) !! j = Some x /\ is_Some (ba_m x !! k).
Proof.
  intros Hi Hb Em k j. rewrite (bi_index _ Hi). split; intros (x & Hx & Hs).
  - destruct (decide (j = i)) as [->|]; [exists b'; rewrite lookup_insert_eq, Em; split; [done|congruence]|exists x; by rewrite lookup_insert_ne].
  - apply lookup_insert_Some in Hx as [[<- <-]|[_ Hx]]; [exists b; by rewrite <-Em|by exists x].
Qed.

Lemma within_same bs i b b' : bs_inv bs -> bs_heap bs !! i = Some b -> ba_m b' = ba_m b -> forall j x, <[i := b']> (bs_heap bs) !! j = Some x -> within bs x.
Proof.
  intros Hi Hb Em j x [[<- <-]|[_ Hx]]%lookup_insert_Some; [|by eapply Hi]. unfold within. rewrite Em. by eapply Hi.
Qed.

Lemma heap_dom bs i b b' j : bs_heap bs !! i = Some b -> is_Some (<[i := b']> (bs_heap bs) !! j) <-> is_Some (bs_heap bs !! j).
Proof. intros Hb. rewrite lookup_insert_is_Some'. split; [intros [<-|?]; [by rewrite Hb|done]|auto]. Qed.

Lemma Lookup_same bs bs' i b b' : bs_heap bs !! i = Some b -> ba_m b' = ba_m b -> bs_keys2Batches bs' = bs_keys2Batches bs ->
  (forall j, at_batch bs' j = if decide (j = i) then b' else at_batch bs j) -> forall k, Lookup bs' k = Lookup bs k.
Proof.
  intros Hb Em Ek Ha k. unfold Lookup. rewrite Ek. destruct (bs_keys2Batches bs !! k) as [j|]; [|done]. cbn. rewrite Ha.
  case_decide as Hj; [|done]. subst. unfold at_batch. by rewrite Hb, Em.
Qed.

Lemma at_set_batch bs i b' j : at_batch (set_batch bs i b') j = if decide (j = i) then b' else at_batch bs j.
Proof. unfold at_batch. cbn. case_decide as Hj; [subst; by rewrite lookup_insert_eq|by rewrite lookup_insert_ne]. Qed.

(** The three things an attempt can do to the store: count a duplicate, store a request, enqueue the batch. *)
Lemma bs_inv_bump bs b b' : bs_inv bs -> bs_heap bs !! bs_currentBatch bs = Some b -> ba_m b' = ba_m b -> measured bs b' ->
  bs_inv (set_batch bs (bs_currentBatch bs) b').
Proof.
  intros Hi Hb Em Hmeas. pose proof Hi as [Hidx Hwithin Hcur Hready Hnext].
  split; cbn [set_batch with_heap bs_keys2Batches bs_heap bs_currentBatch bs_readyBatches bs_next].
  - by eapply index_same.
  - intros j x Hx. by eapply (within_same bs _ b).
  - exists b'. split; [apply lookup_insert_eq|done].
  - split; [apply Hready|]. intros j Hj. rewrite heap_dom by done. by apply Hready.
  - intros j Hj. rewrite heap_dom in Hj by done. by apply Hnext.
Qed.

Lemma bs_inv_store bs b b' key value : bs_inv bs -> bs_heap bs !! bs_currentBatch bs = Some b -> bs_keys2Batches bs !! key = None ->
  ba_m b' = <[key := value]> (ba_m b) -> measured bs b' ->
  bs_inv (mkBatchStore (bs_batchMaxSize bs) (bs_batchMaxSizeBytes bs) (<[bs_currentBatch bs := b']> (bs_heap bs)) (bs_currentBatch bs) (bs_readyBatches bs)
    (<[key := bs_currentBatch bs]> (bs_keys2Batches bs)) (bs_next bs)).
Proof.
  intros Hi Hb Hk Em Hmeas. pose proof Hi as [Hidx Hwithin Hcur Hready Hnext].
  split; cbn [bs_keys2Batches bs_heap bs_currentBatch bs_readyBatches bs_next].
  - intros k j. rewrite lookup_insert_Some, (Hidx k j). split.
    + intros [[<- <-]|[Hne (x & Hx & Hs)]]; [exists b'; rewrite lookup_insert_eq, Em, lookup_insert_eq; by split|].
      destruct (decide (j = bs_currentBatch bs)) as [->|]; [exists b'; rewrite lookup_insert_eq, Em, lookup_insert_ne by done; split; [done|congruence]|exists x; by rewrite lookup_insert_ne].
    + intros (x & Hx & Hs). apply lookup_insert_Some in Hx as [[<- <-]|[Hne Hx]].
      * rewrite Em in Hs. destruct (decide (key = k)) as [->|]; [by left|]. rewrite lookup_insert_ne in Hs by done. right. split; [done|by exists b].
      * right. split; [|by exists x]. intros ->. destruct Hs as [v Hv]. by rewrite (key_absent bs k Hi Hk j x Hx) in Hv.
  - intros j x Hx. apply lookup_insert_Some in Hx as [[<- <-]|[_ Hx]]; [|by eapply Hwithin]. destruct Hmeas as (c & w & _ & _ & ? & ?). split; cbn [bs_batchMaxSize bs_batchMaxSizeBytes]; lia.
  - exists b'. split; [apply lookup_insert_eq|done].
  - split; [apply Hready|]. intros j Hj. rewrite heap_dom by done. by apply Hready.
  - intros j Hj. rewrite heap_dom in Hj by done. by apply Hnext.
Qed.

Lemma bs_inv_enqueue bs b b' ready : bs_inv bs -> bs_heap bs !! bs_currentBatch bs = Some b -> ba_m b' = ba_m b ->
  NoDup ready -> (forall i, i ∈ ready -> i = bs_currentBatch bs \/ i ∈ bs_readyBatches bs) -> bs_inv (fresh_current (set_batch bs (bs_currentBatch bs) b') ready).
Proof.
  intros Hi Hb Em Hnd Hsub. pose proof Hi as [Hidx Hwithin Hcur Hready Hnext].
  assert (bs_heap bs !! bs_next bs = None) as Hfresh. { destruct (bs_heap bs !! bs_next bs) eqn:E; [|done]. specialize (Hnext (bs_next bs) ltac:(by rewrite E)). lia. }
  assert (bs_next bs <> bs_currentBatch bs) as Hne by (intros E; rewrite E in Hfresh; congruence).
  assert (<[bs_currentBatch bs := b']> (bs_heap bs) !! bs_next bs = None) as Hfresh' by (by rewrite lookup_insert_ne by done).
  split; cbn [fresh_current set_batch with_heap bs_keys2Batches bs_heap bs_currentBatch bs_readyBatches bs_next].
  - intros k j. rewrite (index_same bs _ b b' Hi Hb Em k j). split; intros (x & Hx & Hs).
    + exists x. split; [|done]. rewrite lookup_insert_ne; [done|]. intros <-. congruence.
    + apply lookup_insert_Some in Hx as [[<- <-]|[_ Hx]]; [cbn in Hs; rewrite lookup_empty in Hs; by apply is_Some_None in Hs|by exists x].
  - intros j x Hx. apply lookup_insert_Some in Hx as [[<- <-]|[_ Hx]]; [|by eapply (within_same bs _ b)].
    apply new_batch_within.
  - exists new_batch. split; [apply lookup_insert_eq|]. apply new_batch_within.
  - assert (forall j, j ∈ ready -> is_Some (bs_heap bs !! j)) as Hin by (intros j [->|Hj]%Hsub; [by rewrite Hb|by apply Hready]). split.
    + apply NoDup_cons. split; [|done]. intros Hj%Hin. rewrite Hfresh in Hj. by apply is_Some_None in Hj.
    + intros j Hj%Hin. rewrite lookup_insert_is_Some'. right. by rewrite heap_dom.
  - intros j Hj. rewrite lookup_insert_is_Some' in Hj. destruct Hj as [<-|Hj]; [lia|]. rewrite heap_dom in Hj by done. specialize (Hnext j Hj). lia.
Qed.

(** One attempt: it ends and stores the request exactly if its identifier is new, or a new batch takes its place. *)
Lemma insert_round_spec bs key value size bs' o : bs_inv bs -> limits_ok bs size -> N.of_nat (length value) = size -> insert_round bs key value size = (bs', o) ->
  bs_inv bs' /\ bs_batchMaxSize bs' = bs_batchMaxSize bs /\ bs_batchMaxSizeBytes bs' = bs_batchMaxSizeBytes bs /\
  match o with
  | Some inserted =>
      inserted = bool_decide (bs_keys2Batches bs !! key = None) /\ bs_readyBatches bs' = bs_readyBatches bs /\
      (exists i, bs_keys2Batches bs' = if inserted then <[key := i]> (bs_keys2Batches bs) else bs_keys2Batches bs) /\
      (forall k, Lookup bs' k = if inserted then if decide (k = key) then Some value else Lookup bs k else Lookup bs k)
  | None =>
      bs_keys2Batches bs' = bs_keys2Batches bs /\ (forall k, Lookup bs' k = Lookup bs k) /\ bs_readyBatches bs' = bs_readyBatches bs ++ [bs_currentBatch bs] /\
      bs_heap bs' !! bs_currentBatch bs' = Some new_batch
  end.
Proof.
  intros Hi (Hm0 & Hm & Hsz & Hov) Hlen E. pose proof (bi_current _ Hi) as (b & Hb & c & w & Hs & Henq & Hc & Hw).
  destruct (attempt_parts bs b c w size Hb Hs) as (Ea & Ec & Ew); [lia|lia|].
  unfold insert_round in E. rewrite (at_current _ _ Hb) in E. destruct (over_limit bs (attempt bs size)) eqn:Hol; cbn [negb] in E.
  - rewrite Henq in E. injection E as <- <-. split; [|split; [done|split; [done|]]].
    + eapply bs_inv_enqueue; [done|done|done| |intros i; rewrite elem_of_app, list_elem_of_singleton; tauto].
      destruct (bi_ready _ Hi) as [Hnd _]. apply NoDup_cons in Hnd as [Hni Hnd]. apply NoDup_app. split; [done|]. split; [|apply NoDup_singleton].
      intros x Hx Hx'. apply list_elem_of_singleton in Hx' as ->. done.
    + split; [done|]. split; [|split; [done|cbn; apply lookup_insert_eq]].
      intros k. unfold Lookup. cbn [fresh_current set_batch with_heap bs_keys2Batches]. destruct (bs_keys2Batches bs !! k) as [j|] eqn:Ek; [|done]. cbn.
      apply (bi_index _ Hi) in Ek as (x & Hx & Hsx). pose proof (bi_next _ Hi j ltac:(by rewrite Hx)) as Hj. unfold at_batch. cbn.
      rewrite lookup_insert_ne by lia. destruct (decide (j = bs_currentBatch bs)) as [->|]; [by rewrite lookup_insert_eq, Hb|by rewrite lookup_insert_ne].
  - unfold over_limit in Hol. rewrite Ec, Ew in Hol. apply orb_false_iff in Hol as [H1%N.ltb_ge H2%N.ltb_ge].
    destruct (bs_keys2Batches bs !! key) as [j|] eqn:Ek; injection E as <- <-.
    + split; [|split; [done|split; [done|]]].
      * eapply bs_inv_bump; [done|done|done|]. exists (c + 1)%N, (w + size)%N. cbn. repeat split; [done|done|lia..].
      * split; [done|]. split; [done|]. split; [by exists 0|]. eapply Lookup_same; [done| |done|apply at_set_batch]. done.
    + split; [|split; [done|split; [done|]]].
      * eapply bs_inv_store; [done|done|done|done|]. pose proof (key_absent bs key Hi Ek _ _ Hb) as Hkb.
        exists (c + 1)%N, (w + size)%N. cbn. rewrite weight_insert, map_size_insert_None by done. repeat split; [done|done|lia..].
      * split; [by rewrite bool_decide_eq_true_2|]. split; [done|]. split; [by exists (bs_currentBatch bs)|].
        intros k. unfold Lookup. cbn [bs_keys2Batches set_batch with_heap bs_heap]. case_decide as Hk.
        -- subst. rewrite lookup_insert_eq. cbn. unfold at_batch. cbn. rewrite lookup_insert_eq. cbn. by rewrite lookup_insert_eq.
        -- rewrite lookup_insert_ne by done. destruct (bs_keys2Batches bs !! k) as [j|]; [|done]. cbn. unfold at_batch. cbn.
           destruct (decide (j = bs_currentBatch bs)) as [->|]; [rewrite lookup_insert_eq, Hb; cbn; by rewrite lookup_insert_ne|by rewrite lookup_insert_ne].
Qed.

(** Two attempts are enough. *)
Lemma Insert_spec fuel bs key value size : bs_inv bs -> limits_ok bs size -> N.of_nat (length value) = size -> 2 <= fuel ->
  exists bs' inserted, Insert fuel bs key value size = Some (bs', inserted) /\ bs_inv bs' /\
    bs_batchMaxSize bs' = bs_batchMaxSize bs /\ bs_batchMaxSizeBytes bs' = bs_batchMaxSizeBytes bs /\
    inserted = bool_decide (bs_keys2Batches bs !! key = None) /\
    (exists i, bs_keys2Batches bs' = if inserted then <[key := i]> (bs_keys2Batches bs) else bs_keys2Batches bs) /\
    (forall k, Lookup bs' k = if inserted then if decide (k = key) then Some value else Lookup bs k else Lookup bs k).
Proof.
  intros Hi Hl Hlen Hf. destruct fuel as [|[|fuel]]; [lia|lia|]. cbn [Insert].
  destruct (insert_round bs key value size) as [bs1 [r1|]] eqn:E1; destruct (insert_round_spec _ _ _ _ _ _ Hi Hl Hlen E1) as (Hi1 & Em1 & Eb1 & H1).
  { destruct H1 as (Er & _ & Hk & HL). by exists bs1, r1. }
  destruct H1 as (Ek1 & HL1 & _ & Hnew).
  assert (limits_ok bs1 size) as Hl1 by (unfold limits_ok; by rewrite Em1, Eb1).
  destruct (insert_round bs1 key value size) as [bs2 [r2|]] eqn:E2; destruct (insert_round_spec _ _ _ _ _ _ Hi1 Hl1 Hlen E2) as (Hi2 & Em2 & Eb2 & H2).
  - destruct H2 as (Er & _ & Hk & HL). rewrite Ek1 in *. exists bs2, r2. split; [done|]. split; [done|]. split; [congruence|]. split; [congruence|]. split; [done|]. split; [done|]. intros k. rewrite HL, HL1. done.
  - exfalso. destruct Hl1 as (Hm0 & Hm & Hsz & Hov). destruct (attempt_parts bs1 new_batch 0 0 size Hnew) as (_ & Ec & Ew); [done|by vm_compute|lia|].
    unfold insert_round in E2. unfold over_limit in E2. rewrite Ec, Ew in E2. rewrite (proj2 (N.ltb_ge _ _)), (proj2 (N.ltb_ge _ _)) in E2 by lia. cbn in E2.
    by destruct (bs_keys2Batches bs1 !! key).
Qed.

(** A request that does not fit an empty batch is tried forever, with a new batch per attempt. *)
Lemma Insert_oversize fuel bs b key value size : bs_heap bs !! bs_currentBatch bs = Some b -> measured bs b -> (bs_batchMaxSize bs < u32_max)%N ->
  (bs_batchMaxSizeBytes bs < size)%N -> (bs_batchMaxSizeBytes bs + size <= u32_max)%N -> Insert fuel bs key value size = None.
Proof.
  revert bs b. induction fuel as [|fuel IH]; intros bs b Hb (c & w & Hs & Henq & Hc & Hw) Hm Hsz Hov; [done|]. cbn [Insert].
  destruct (attempt_parts bs b c w size Hb Hs) as (_ & Ec & Ew); [lia|lia|].
  unfold insert_round. rewrite (at_current _ _ Hb). unfold over_limit. rewrite Ec, Ew, (proj2 (N.ltb_lt (bs_batchMaxSizeBytes bs) (w + size))), orb_true_r by lia. cbn [negb].
  rewrite Henq. eapply IH; [cbn; apply lookup_insert_eq|apply new_batch_within|done|done|done].
Qed.

Lemma Remove_spec bs key bs' deleted : bs_inv bs -> Remove bs key = (bs', deleted) ->
  bs_inv bs' /\ bs_batchMaxSize bs' = bs_batchMaxSize bs /\ bs_batchMaxSizeBytes bs' = bs_batchMaxSizeBytes bs /\
  bs_keys2Batches bs' = delete key (bs_keys2Batches bs) /\ deleted = bool_decide (is_Some (bs_keys2Batches bs !! key)) /\
  (forall k, Lookup bs' k = if decide (k = key) then None else Lookup bs k).
Proof.
  intros Hi E. unfold Remove in E. destruct (bs_keys2Batches bs !! key) as [i|] eqn:Ek; injection E as <- <-.
  2: { repeat (split; [done|]). split; [by rewrite delete_id|]. split; [done|]. intros k. case_decide as Hk; [|done]. subst. unfold Lookup. by rewrite Ek. }
  pose proof Hi as [Hidx Hwithin Hcur Hready Hnext]. pose proof Ek as Ek'. apply Hidx in Ek' as (b & Hb & Hbk).
  assert (at_batch bs i = b) as Eb by (unfold at_batch; by rewrite Hb). rewrite Eb.
  set (b' := mkBatchMap _ _ _). split; [|repeat (split; [done|])].
  - split; cbn [bs_keys2Batches bs_heap bs_currentBatch bs_readyBatches bs_next].
    + intros k j. rewrite lookup_delete_Some, (Hidx k j). split.
      * intros (Hne & x & Hx & Hs). destruct (decide (j = i)) as [->|]; [|exists x; by rewrite lookup_insert_ne].
        exists b'. rewrite lookup_insert_eq. split; [done|]. cbn. rewrite lookup_delete_ne by done. congruence.
      * intros (x & Hx & Hs). apply lookup_insert_Some in Hx as [[<- <-]|[Hne Hx]].
        -- cbn in Hs. rewrite lookup_delete_is_Some in Hs. destruct Hs as [Hne Hs]. split; [done|by exists b].
        -- split; [|by exists x]. intros <-. assert (bs_keys2Batches bs !! key = Some j) by (apply Hidx; by exists x). congruence.
    + intros j x Hx. apply lookup_insert_Some in Hx as [[<- <-]|[_ Hx]]; [|by eapply Hwithin]. destruct (Hwithin _ _ Hb) as [H1 H2]. split; cbn.
      * etransitivity; [|exact H1]. apply N_of_nat_le, size_delete_le.
      * etransitivity; [apply weight_delete|done].
    + destruct Hcur as (bc & Hbc & c & w & Hs & He & Hc & Hw). destruct (decide (i = bs_currentBatch bs)) as [->|].
      * exists b'. split; [apply lookup_insert_eq|]. rewrite Hb in Hbc. injection Hbc as <-. exists c, w. cbn. split; [done|]. split; [done|]. split.
        -- pose proof (size_delete_le (ba_m b) key). lia.
        -- pose proof (weight_delete (ba_m b) key). lia.
      * exists bc. rewrite lookup_insert_ne by done. split; [done|]. by exists c, w.
    + split; [apply Hready|]. intros j Hj. rewrite heap_dom by done. by apply Hready.
    + intros j Hj. rewrite heap_dom in Hj by done. by apply Hnext.
  - intros k. unfold Lookup. cbn [bs_keys2Batches]. case_decide as Hk; [subst; by rewrite lookup_delete_eq|]. rewrite lookup_delete_ne by done.
    destruct (bs_keys2Batches bs !! k) as [j|]; [|done]. cbn. unfold at_batch. cbn. destruct (decide (j = i)) as [->|]; [|by rewrite lookup_insert_ne].
    rewrite lookup_insert_eq, Hb. cbn. by rewrite lookup_delete_ne.
Qed.

Lemma RemoveAll_spec bs keys bs' n : bs_inv bs -> RemoveAll bs keys = (bs', n) ->
  bs_inv bs' /\ bs_batchMaxSize bs' = bs_batchMaxSize bs /\ bs_batchMaxSizeBytes bs' = bs_batchMaxSizeBytes bs /\
  n + size (bs_keys2Batches bs') = size (bs_keys2Batches bs) /\
  (forall k, bs_keys2Batches bs' !! k = if decide (k ∈ keys) then None else bs_keys2Batches bs !! k) /\
  (forall k, Lookup bs' k = if decide (k ∈ keys) then None else Lookup bs k).
Proof.
  revert bs bs' n. induction keys as [|key keys IH]; intros bs bs' n Hi E; cbn [RemoveAll] in E.
  { injection E as <- <-. repeat (split; [done|]). split; intros k; case_decide as Hk; try done; by apply not_elem_of_nil in Hk. }
  destruct (Remove bs key) as [bs1 d] eqn:Er. destruct (Remove_spec _ _ _ _ Hi Er) as (Hi1 & Em & Eb & Ek & Ed & HL). cbn [fst snd] in E.
  destruct (RemoveAll bs1 keys) as [bs2 n2] eqn:Ea. injection E as <- <-. destruct (IH _ _ _ Hi1 Ea) as (Hi2 & Em2 & Eb2 & En & Hk2 & HL2).
  split; [done|]. split; [congruence|]. split; [congruence|]. split; [|split].
  - rewrite Ek, map_size_delete in En. rewrite Ed. destruct (bs_keys2Batches bs !! key) as [i|] eqn:Ekey; cbn in *; [|lia].
    assert (size (bs_keys2Batches bs) <> 0) by (intros Hz%map_size_empty_iff; by rewrite Hz, lookup_empty in Ekey). lia.
  - intros k. rewrite Hk2, Ek. destruct (decide (k ∈ keys)) as [Hin|Hin]; [by rewrite decide_True by (by right)|].
    destruct (decide (k = key)) as [->|Hne]; [rewrite decide_True by (by left); by rewrite lookup_delete_eq|].
    rewrite (decide_False (P := k ∈ key :: keys)) by (rewrite elem_of_cons; tauto). by rewrite lookup_delete_ne.
  - intros k. rewrite HL2, HL. destruct (decide (k ∈ keys)) as [Hin|Hin]; [by rewrite decide_True by (by right)|].
    destruct (decide (k = key)) as [->|Hne]; [by rewrite decide_True by (by left)|].
    by rewrite (decide_False (P := k ∈ key :: keys)) by (rewrite elem_of_cons; tauto).
Qed.

Lemma Lookup_at bs k : bs_inv bs -> forall v, Lookup bs k = Some v <-> exists i b, bs_heap bs !! i = Some b /\ ba_m b !! k = Some v.
Proof.
  intros Hi v. unfold Lookup. split.
  - destruct (bs_keys2Batches bs !! k) as [i|] eqn:Ek; [|done]. cbn. intros Hv. apply (bi_index _ Hi) in Ek as (b & Hb & _). exists i, b. split; [done|]. unfold at_batch in Hv. by rewrite Hb in Hv.
  - intros (i & b & Hb & Hv). assert (bs_keys2Batches bs !! k = Some i) as -> by (apply (bi_index _ Hi); exists b; by rewrite Hv). cbn. unfold at_batch. by rewrite Hb.
Qed.

(** Marking a ready batch when it is taken off the list. *)
Lemma bs_inv_mark bs i rest b' : bs_inv (with_ready bs (i :: rest)) -> ba_m b' = ba_m (at_batch bs i) -> bs_inv (with_ready (set_batch bs i b') rest).
Proof.
  intros Hi Em. pose proof Hi as [Hidx Hwithin Hcur [Hnd Hready] Hnext]. cbn [with_ready bs_keys2Batches bs_heap bs_currentBatch bs_readyBatches bs_next] in *.
  destruct (Hready i ltac:(by left)) as [b Hb]. assert (at_batch bs i = b) as Eb by (unfold at_batch; by rewrite Hb). rewrite Eb in Em.
  apply NoDup_cons in Hnd as [Hni Hnd]. apply NoDup_cons in Hnd as [Hi' Hnd].
  assert (bs_currentBatch bs <> i) as Hne by (intros E; apply Hni; rewrite E; by left).
  split; cbn [with_ready set_batch with_heap bs_keys2Batches bs_heap bs_currentBatch bs_readyBatches bs_next].
  - exact (index_same (with_ready bs (i :: rest)) i b b' Hi Hb Em).
  - intros j x Hx. apply lookup_insert_Some in Hx as [[<- <-]|[_ Hx]]; [|by apply (Hwithin j x)]. unfold within. rewrite Em. by apply (Hwithin i b).
  - destruct Hcur as (bc & Hbc & Hm). exists bc. by rewrite lookup_insert_ne.
  - split; [apply NoDup_cons; split; [|done]; intros Hin; apply Hni; by right|]. intros j Hj. rewrite heap_dom by done. apply Hready. by right.
  - intros j Hj. rewrite heap_dom in Hj by done. by apply Hnext.
Qed.

Lemma items_set bs i b' j : ba_m b' = ba_m (at_batch bs i) -> batch_items (set_batch bs i b') j = batch_items bs j.
Proof. intros Em. unfold batch_items. rewrite at_set_batch. case_decide as Hj; [subst; by rewrite Em|done]. Qed.

Lemma Lookup_set bs i b' k : ba_m b' = ba_m (at_batch bs i) -> Lookup (set_batch bs i b') k = Lookup bs k.
Proof.
  intros Em. unfold Lookup. cbn [set_batch with_heap bs_keys2Batches]. destruct (bs_keys2Batches bs !! k) as [j|]; [|done]. cbn. rewrite at_set_batch. case_decide as Hj; [subst; by rewrite Em|done].
Qed.

(** What a fetch returns: nothing, or all requests of one batch, which leave the waiting ones and stay in the index. *)
Record fetched (bs bs' : BatchStore) (l : list (reqID * bytes)) : Prop := {
  ft_inv : bs_inv bs';
  ft_max : bs_batchMaxSize bs' = bs_batchMaxSize bs /\ bs_batchMaxSizeBytes bs' = bs_batchMaxSizeBytes bs;
  ft_keys : bs_keys2Batches bs' = bs_keys2Batches bs;
  ft_lookup : forall k, Lookup bs' k = Lookup bs k;
  ft_batch : l = [] \/ exists i b, bs_heap bs !! i = Some b /\ l ≡ₚ map_to_list (ba_m b);
  ft_waiting : ForEach bs ≡ₚ l ++ ForEach bs'
}.

Lemma Lookup_fresh bs ready k : (forall j, bs_keys2Batches bs !! k = Some j -> j <> bs_next bs) -> Lookup (fresh_current bs ready) k = Lookup bs k.
Proof.
  intros Hj. unfold Lookup. cbn [fresh_current bs_keys2Batches]. destruct (bs_keys2Batches bs !! k) as [j|]; [|done]. cbn. unfold at_batch. cbn. by rewrite lookup_insert_ne by (specialize (Hj j eq_refl); done).
Qed.

Lemma range_empty site : range_map site (∅ : gmap reqID bytes) = [].
Proof. apply Permutation_nil. rewrite range_perm. by rewrite map_to_list_empty. Qed.

Lemma ForEach_fresh bs : ForEach (fresh_current bs []) = [].
Proof. unfold ForEach, batch_items, at_batch. cbn. rewrite lookup_insert_eq. cbn. apply range_empty. Qed.

Lemma fetch_ready_spec bs ready bs' l : bs_inv (with_ready bs ready) -> fetch_ready bs ready = (bs', l) -> fetched (with_ready bs ready) bs' l.
Proof.
  revert bs. induction ready as [|i rest IH]; intros bs Hi E.
  - pose proof (bi_current _ Hi) as (b & Hb & Hm). cbn [with_ready bs_heap bs_currentBatch] in Hb. cbn [fetch_ready] in E.
    assert (at_batch (with_ready bs []) (bs_currentBatch bs) = b) as Eb by (unfold at_batch; cbn; by rewrite Hb). rewrite Eb in E.
    destruct (N.eqb_spec (ba_sizeBytes b) 0) as [Hz|Hnz]; injection E as <- <-; [split; [done|done|done|done|by left|done]|].
    unfold prepareBatch. rewrite Eb. cbn [fst snd]. set (b' := mkBatchMap _ true _). change (bs_currentBatch bs) with (bs_currentBatch (with_ready bs [])).
    split; [|done|done| | |].
    + eapply bs_inv_enqueue; [done|exact Hb|done|constructor|]. intros j Hj. by apply not_elem_of_nil in Hj.
    + intros k. rewrite Lookup_fresh; [apply Lookup_set; cbn; by rewrite Eb|]. cbn. intros j Hj. apply (bi_index _ Hi) in Hj as (x & Hx & _).
      pose proof (bi_next _ Hi j ltac:(by rewrite Hx)) as Hn. cbn in Hn. lia.
    + right. exists (bs_currentBatch bs), b. split; [done|]. apply range_perm.
    + rewrite ForEach_fresh, app_nil_r. unfold ForEach. cbn [with_ready bs_readyBatches bs_currentBatch fmap list_fmap concat app]. unfold batch_items. rewrite Eb. by rewrite !range_perm.
  - cbn [fetch_ready] in E. unfold prepareBatch in E. cbn [snd fst] in E. set (b' := mkBatchMap _ true _) in E.
    assert (ba_m b' = ba_m (at_batch bs i)) as Em by done. pose proof (bs_inv_mark bs i rest b' Hi Em) as Hi1.
    assert (ForEach (with_ready bs (i :: rest)) = batch_items bs i ++ ForEach (with_ready (set_batch bs i b') rest)) as Hfe.
    { unfold ForEach. cbn [with_ready bs_readyBatches bs_currentBatch fmap list_fmap concat set_batch with_heap]. rewrite <-app_assoc. f_equal. f_equal.
      - f_equal. apply list_fmap_ext. intros j x Hx. symmetry. exact (items_set bs i b' x Em).
      - symmetry. exact (items_set bs i b' _ Em). }
    destruct (range_map 11 (ba_m (at_batch bs i))) as [|kv kvs] eqn:Er.
    + destruct (IH _ Hi1 E) as [H1 H2 H3 H4 H5 H6]. split; [done|done|done| | |].
      * intros k. rewrite H4. exact (Lookup_set bs i b' k Em).
      * destruct H5 as [->|(j & x & Hx & Hl)]; [by left|right]. cbn in Hx. apply lookup_insert_Some in Hx as [[<- <-]|[_ Hx]]; [|by exists j, x].
        rewrite Em, <-(range_perm 11), Er in Hl. exists i, (at_batch bs i). split; [|by rewrite <-(range_perm 11), Er].
        destruct (proj2 (bi_ready _ Hi) i ltac:(by left)) as [x Hx]. cbn in Hx. unfold at_batch. by rewrite Hx.
      * rewrite Hfe, H6. assert (batch_items bs i = []) as ->; [|done]. apply Permutation_nil. unfold batch_items. by rewrite range_perm, <-(range_perm 11), Er.
    + injection E as <- <-. split; [done|done|done| | |].
      * intros k. exact (Lookup_set bs i b' k Em).
      * right. destruct (proj2 (bi_ready _ Hi) i ltac:(by left)) as [x Hx]. cbn in Hx. exists i, x. split; [done|]. rewrite <-Er. unfold at_batch. rewrite Hx. apply range_perm.
      * rewrite Hfe, <-Er. apply Permutation_app; [|done]. unfold batch_items. by rewrite !range_perm.
Qed.

Lemma Fetch_spec bs bs' l : bs_inv bs -> Fetch bs = (bs', l) -> fetched bs bs' l.
Proof. intros Hi E. destruct bs. by apply fetch_ready_spec in E. Qed.

(** The waiting requests are requests of the store, each once. *)
Lemma ForEach_spec bs : bs_inv bs -> NoDup (ForEach bs).*1 /\ forall k v, (k, v) ∈ ForEach bs -> Lookup bs k = Some v.
Proof.
  intros Hi. destruct (bi_ready _ Hi) as [Hnd Hready].
  assert (forall i, i = bs_currentBatch bs \/ i ∈ bs_readyBatches bs -> exists b, bs_heap bs !! i = Some b /\ at_batch bs i = b) as Hin.
  { intros i [->|H]; [destruct (bi_current _ Hi) as (b & Hb & _)|destruct (Hready i H) as [b Hb]]; exists b; split; [done| |done|]; unfold at_batch; by rewrite Hb. }
  assert (forall i k v, i = bs_currentBatch bs \/ i ∈ bs_readyBatches bs -> (k, v) ∈ batch_items bs i -> bs_keys2Batches bs !! k = Some i /\ Lookup bs k = Some v) as Hitem.
  { intros i k v H Hkv. destruct (Hin i H) as (b & Hb & Eb). unfold batch_items in Hkv. rewrite Eb in Hkv. apply elem_of_range in Hkv. split.
    - apply (bi_index _ Hi). exists b. by rewrite Hkv.
    - apply (Lookup_at _ _ Hi). by exists i, b. }
  assert (forall i, NoDup (batch_items bs i).*1) as Hone by (intros i; unfold batch_items; rewrite range_perm; apply NoDup_fst_map_to_list).
  assert (forall l, NoDup l -> (forall i, i ∈ l -> i = bs_currentBatch bs \/ i ∈ bs_readyBatches bs) -> NoDup (concat (batch_items bs <$> l)).*1) as Hall.
  { induction l as [|i l IH]; intros Hl Hs; [constructor|]. apply NoDup_cons in Hl as [Hi' Hl]. cbn [fmap list_fmap concat]. rewrite fmap_app. apply NoDup_app.
    split; [apply Hone|]. split; [|apply IH; [done|intros j Hj; apply Hs; by right]].
    intros k Hk1 Hk2. apply list_elem_of_fmap in Hk1 as ([k1 v1] & -> & H1), Hk2 as ([k2 v2] & Ek & H2). cbn in Ek. subst k2.
    apply elem_of_concat in H2 as (l2 & H2 & Hl2). apply list_elem_of_fmap in Hl2 as (j & -> & Hj).
    destruct (Hitem i k1 v1) as [E1 _]; [apply Hs; by left|done|]. destruct (Hitem j k1 v2) as [E2 _]; [apply Hs; by right|done|]. assert (i = j) as <- by congruence. done. }
  assert (ForEach bs ≡ₚ concat (batch_items bs <$> bs_currentBatch bs :: bs_readyBatches bs)) as Hfe by (unfold ForEach; cbn [fmap list_fmap concat]; apply Permutation_app_comm).
  split.
  - rewrite Hfe. apply Hall; [done|]. intros i [->|H]%elem_of_cons; auto.
  - intros k v Hkv. rewrite Hfe in Hkv. apply elem_of_concat in Hkv as (l & Hkv & Hl). apply list_elem_of_fmap in Hl as (i & -> & Hi').
    eapply Hitem; [|exact Hkv]. apply elem_of_cons in Hi'. tauto.
Qed.
End Store.
