(* ===== verification/PendingStore.v ===== *)
(** * The pending store of the mempool

    [src/request/pending.go] and [src/request/bucket.go]: the requests of a secondary in buckets by the time of their arrival,
    with the strikes that detect a primary that ignores requests. Buckets are shared between the store's lists
    and its index, so they live in a heap of their own. Times are nanoseconds; [None] is the zero time. *)
From S2P Require Import Prelude Types BatchStore.
From stdpp Require Import gmap sets.
From Stdlib Require Import NArith ZArith Lia.

Record bucket := mkBucket { bk_size : N; bk_lastTimestamp : option Z; bk_firstStrikeTimestamp : option Z; bk_requests : gmap reqID bytes }.
Definition newBucket : bucket := mkBucket 0 None None ∅.

(** What an identifier maps to: a bucket, or the tombstone of a request that was removed, with its time. *)
Inductive bucket_ref := InBucket (id : N) | Tombstone (processedTimestamp : Z).

Record PendingStore := mkPending {
  ps_ReqIDGCInterval : Z; ps_ReqIDLifetime : Z; ps_FirstStrikeThreshold : Z; ps_SecondStrikeThreshold : Z; ps_Epoch : Z;
  ps_lastTick : Z; ps_lastEpochChange : Z; ps_lastProcessedGC : Z;
  ps_heap : gmap N bucket;
  ps_reqID2Bucket : gmap reqID bucket_ref;
  ps_currentBucket : N;
  ps_buckets : list N;
  ps_stopped : bool;
  ps_closed : bool
}.

(** Init at the start time. *)
Definition Pending_Init (gcInterval lifetime first second epoch start : Z) : PendingStore :=
  mkPending gcInterval lifetime first second epoch start start start {[1%N := newBucket]} ∅ 1 [] false false.

Section Pending.
Context {R : MapRange}.

Definition bucket_at (ps : PendingStore) (i : N) : bucket := default newBucket (ps_heap ps !! i).

(** Assignments: the heap and the index, the list of buckets with the current one, the clocks, the flags. *)
Definition with_contents (ps : PendingStore) (heap : gmap N bucket) (idx : gmap reqID bucket_ref) : PendingStore :=
  mkPending (ps_ReqIDGCInterval ps) (ps_ReqIDLifetime ps) (ps_FirstStrikeThreshold ps) (ps_SecondStrikeThreshold ps) (ps_Epoch ps)
    (ps_lastTick ps) (ps_lastEpochChange ps) (ps_lastProcessedGC ps) heap idx (ps_currentBucket ps) (ps_buckets ps) (ps_stopped ps) (ps_closed ps).
Definition with_buckets (ps : PendingStore) (heap : gmap N bucket) (current : N) (buckets : list N) : PendingStore :=
  mkPending (ps_ReqIDGCInterval ps) (ps_ReqIDLifetime ps) (ps_FirstStrikeThreshold ps) (ps_SecondStrikeThreshold ps) (ps_Epoch ps)
    (ps_lastTick ps) (ps_lastEpochChange ps) (ps_lastProcessedGC ps) heap (ps_reqID2Bucket ps) current buckets (ps_stopped ps) (ps_closed ps).
Definition with_clocks (ps : PendingStore) (tick epoch gc : Z) : PendingStore :=
  mkPending (ps_ReqIDGCInterval ps) (ps_ReqIDLifetime ps) (ps_FirstStrikeThreshold ps) (ps_SecondStrikeThreshold ps) (ps_Epoch ps)
    tick epoch gc (ps_heap ps) (ps_reqID2Bucket ps) (ps_currentBucket ps) (ps_buckets ps) (ps_stopped ps) (ps_closed ps).
Definition with_flags (ps : PendingStore) (stopped closed : bool) : PendingStore :=
  mkPending (ps_ReqIDGCInterval ps) (ps_ReqIDLifetime ps) (ps_FirstStrikeThreshold ps) (ps_SecondStrikeThreshold ps) (ps_Epoch ps)
    (ps_lastTick ps) (ps_lastEpochChange ps) (ps_lastProcessedGC ps) (ps_heap ps) (ps_reqID2Bucket ps) (ps_currentBucket ps) (ps_buckets ps) stopped closed.

(** ** Submission *)
Definition errBucketSealed : gerror := "bucket sealed".

(** tryInsert on the current bucket. The payload is stored before the identifier, and the size counted with it. *)
Definition tryInsert (ps : PendingStore) (id : reqID) (request : bytes) : PendingStore * outcome unit :=
  let i := ps_currentBucket ps in
  let b := bucket_at ps i in
  match bk_lastTimestamp b with
  | Some _ => (ps, Err errBucketSealed)
  | None =>
      match ps_reqID2Bucket ps !! id with
      | Some _ => (ps, Err "already inserted")
      | None =>
          match bk_requests b !! id with
          | Some _ => (ps, Err "already inserted")
          | None =>
              let b := mkBucket (u32 (bk_size b + 1)) (bk_lastTimestamp b) (bk_firstStrikeTimestamp b) (<[id := request]> (bk_requests b)) in
              (with_contents ps (<[i := b]> (ps_heap ps)) (<[id := InBucket i]> (ps_reqID2Bucket ps)), Ok tt)
          end
      end
  end.

(** One round of Submit; an [Err errBucketSealed] is tried again on the next bucket. *)
Definition Pending_Submit (RequestID : bytes -> reqID) (ps : PendingStore) (request : bytes) : PendingStore * outcome unit :=
  if ps_closed ps then (ps, Err "pending store closed, request rejected") else tryInsert ps (RequestID request) request.

(** ** Removal *)
Definition bucket_delete (b : bucket) (id : reqID) : option bucket :=
  match bk_requests b !! id with
  | None => None
  | Some _ => Some (mkBucket (u32 (bk_size b + u32_max)) (bk_lastTimestamp b) (bk_firstStrikeTimestamp b) (delete id (bk_requests b)))
  end.

(** removeRequest, and whether OnDelete was called. *)
Definition removeRequest (ps : PendingStore) (id : reqID) (now : Z) : PendingStore * bool :=
  match ps_reqID2Bucket ps !! id with
  | Some (InBucket i) =>
      match bucket_delete (bucket_at ps i) id with
      | Some b => (with_contents ps (<[i := b]> (ps_heap ps)) (delete id (ps_reqID2Bucket ps)), true)
      | None => (with_contents ps (ps_heap ps) (<[id := Tombstone now]> (ps_reqID2Bucket ps)), false)
      end
  | _ => (with_contents ps (ps_heap ps) (<[id := Tombstone now]> (ps_reqID2Bucket ps)), false)
  end.

Fixpoint remove_all (ps : PendingStore) (now : Z) (ids : list reqID) : PendingStore * nat :=
  match ids with
  | [] => (ps, 0)
  | id :: rest =>
      let r := removeRequest ps id now in
      let r' := remove_all r.1 now rest in
      (r'.1, (if r.2 then 1 else 0) + r'.2)
  end.
Definition Pending_RemoveRequests (ps : PendingStore) (ids : list reqID) : PendingStore * nat :=
  if ps_closed ps then (ps, 0) else remove_all ps (ps_lastTick ps) ids.

Definition PLookup (ps : PendingStore) (id : reqID) : option bytes :=
  match ps_reqID2Bucket ps !! id with Some (InBucket i) => bk_requests (bucket_at ps i) !! id | _ => None end.
Definition Pending_Contains (ps : PendingStore) (id : reqID) : bool := bool_decide (is_Some (PLookup ps id)).

(** Prune erases the identifiers of the requests it deletes. *)
Definition prune_one (valid : bytes -> bool) (acc : PendingStore * nat) (id : reqID) : PendingStore * nat :=
  let ps := acc.1 in
  match ps_reqID2Bucket ps !! id with
  | Some (InBucket i) =>
      match bk_requests (bucket_at ps i) !! id with
      | Some request =>
          if valid request then acc else
          match bucket_delete (bucket_at ps i) id with
          | Some b => (with_contents ps (<[i := b]> (ps_heap ps)) (delete id (ps_reqID2Bucket ps)), S acc.2)
          | None => (with_contents ps (ps_heap ps) (delete id (ps_reqID2Bucket ps)), acc.2)
          end
      | None => acc
      end
  | _ => acc
  end.
Definition Pending_Prune (ps : PendingStore) (valid : bytes -> bool) : PendingStore * nat :=
  foldl (prune_one valid) (ps, 0) (range_map 12 (ps_reqID2Bucket ps)).*1.

(** ** Epochs and strikes *)
Definition rotateBuckets (ps : PendingStore) (now : Z) : PendingStore :=
  let i := ps_currentBucket ps in
  let b := bucket_at ps i in
  if (bk_size b =? 0)%N then ps else
  let sealed := mkBucket (bk_size b) (Some now) (bk_firstStrikeTimestamp b) (bk_requests b) in
  with_buckets ps (<[(i + 1)%N := newBucket]> (<[i := sealed]> (ps_heap ps))) (i + 1) (ps_buckets ps ++ [i]).

Definition garbageCollectEmptyBuckets (ps : PendingStore) : PendingStore :=
  with_buckets ps (ps_heap ps) (ps_currentBucket ps) (List.filter (fun i => (0 <? bk_size (bucket_at ps i))%N) (ps_buckets ps)).

Definition expired (now lifetime : Z) (r : bucket_ref) : bool := match r with Tombstone t => (lifetime <? now - t)%Z | InBucket _ => false end.
Definition garbageCollectProcessed (ps : PendingStore) (now : Z) : PendingStore :=
  with_contents ps (ps_heap ps) (filter (fun kv => expired now (ps_ReqIDLifetime ps) kv.2 = false) (ps_reqID2Bucket ps)).

Definition strikes_first (now threshold : Z) (b : bucket) : bool :=
  match bk_firstStrikeTimestamp b with Some _ => false | None => match bk_lastTimestamp b with Some t => (threshold <? now - t)%Z | None => true end end.
Definition strikes_second (now threshold : Z) (b : bucket) : bool :=
  match bk_firstStrikeTimestamp b with Some t => (threshold <? now - t)%Z | None => false end.
Definition set_first_strike (now : Z) (b : bucket) : bucket := mkBucket (bk_size b) (bk_lastTimestamp b) (Some now) (bk_requests b).
Definition resetTimestamp (t : Z) (b : bucket) : bucket := mkBucket (bk_size b) (Some t) None (bk_requests b).

(** checkFirstStrike: the buckets that get their first strike, whose requests are sent to the primary. *)
Definition struck (ps : PendingStore) (now : Z) : list N := List.filter (fun i => strikes_first now (ps_FirstStrikeThreshold ps) (bucket_at ps i)) (ps_buckets ps).
Definition update_buckets (f : bucket -> bucket) (ps : PendingStore) (ids : list N) : PendingStore :=
  with_buckets ps (foldr (fun i heap => <[i := f (bucket_at ps i)]> heap) (ps_heap ps) ids) (ps_currentBucket ps) (ps_buckets ps).
Definition checkFirstStrike (ps : PendingStore) (now : Z) : PendingStore * list (reqID * bytes) :=
  (update_buckets (set_first_strike now) ps (struck ps now), concat ((fun i => range_map 13 (bk_requests (bucket_at ps i))) <$> struck ps now)).

(** checkSecondStrike: the first bucket whose second strike is due starts over, and censorship is detected. *)
Definition checkSecondStrike (ps : PendingStore) (now : Z) : PendingStore * bool :=
  match List.find (fun i => strikes_second now (ps_SecondStrikeThreshold ps) (bucket_at ps i)) (ps_buckets ps) with
  | Some i => (update_buckets (resetTimestamp (ps_lastTick ps)) ps [i], true)
  | None => (ps, false)
  end.

(** A tick of the clock: the store, the requests to resend, and whether to complain. *)
Definition changeEpochs (ps : PendingStore) (now : Z) : PendingStore * list (reqID * bytes) * bool :=
  if ps_stopped ps then (ps, [], false)
  else if (now - ps_lastEpochChange ps <=? ps_Epoch ps)%Z then (ps, [], false)
  else
    let ps := with_clocks ps (ps_lastTick ps) now (ps_lastProcessedGC ps) in
    let ps := garbageCollectEmptyBuckets (rotateBuckets ps now) in
    let ps := if (ps_ReqIDGCInterval ps <? now - ps_lastProcessedGC ps)%Z
              then garbageCollectProcessed (with_clocks ps (ps_lastTick ps) (ps_lastEpochChange ps) now) now else ps in
    let r := checkFirstStrike ps now in
    let r' := checkSecondStrike r.1 now in
    (r'.1, r.2, r'.2).
Definition Pending_tick (ps : PendingStore) (now : Z) : PendingStore * list (reqID * bytes) * bool :=
  changeEpochs (with_clocks ps now (ps_lastEpochChange ps) (ps_lastProcessedGC ps)) now.

(** ** Stop, reset, close *)
Definition Pending_Stop (ps : PendingStore) : PendingStore := if ps_closed ps then ps else with_flags ps true (ps_closed ps).
Definition Pending_Close (ps : PendingStore) : PendingStore := with_flags ps true true.
Definition ResetTimestamps (ps : PendingStore) : PendingStore :=
  if ps_closed ps then ps else with_flags (update_buckets (resetTimestamp (ps_lastTick ps)) ps (ps_buckets ps)) false false.

(** All requests, by bucket. *)
Definition all_items (ps : PendingStore) : list (reqID * bytes) :=
  concat ((fun i => range_map 14 (bk_requests (bucket_at ps i))) <$> ps_buckets ps ++ [ps_currentBucket ps]).
Definition GetAllRequests (ps : PendingStore) : list bytes := (all_items ps).*2.

(** ** Invariant *)
Definition in_bucket (r : bucket_ref) : bool := match r with InBucket _ => true | Tombstone _ => false end.
(** The identifiers of the requests the store holds. *)
Definition held (ps : PendingStore) : gmap reqID bucket_ref := filter (fun kv => in_bucket kv.2 = true) (ps_reqID2Bucket ps).

Record ps_inv (ps : PendingStore) : Prop := {
  pi_index : forall k i, ps_reqID2Bucket ps !! k = Some (InBucket i) <-> exists b, ps_heap ps !! i = Some b /\ is_Some (bk_requests b !! k);
  pi_size : forall i b, ps_heap ps !! i = Some b -> bk_size b = N.of_nat (size (bk_requests b)) /\ (bk_size b <= u32_max)%N;
  pi_listed : forall i b, ps_heap ps !! i = Some b -> bk_requests b <> ∅ -> i = ps_currentBucket ps \/ i ∈ ps_buckets ps;
  pi_current : exists b, ps_heap ps !! ps_currentBucket ps = Some b /\ bk_lastTimestamp b = None /\ bk_firstStrikeTimestamp b = None;
  pi_sealed : forall i, i ∈ ps_buckets ps -> (i < ps_currentBucket ps)%N /\ exists b, ps_heap ps !! i = Some b /\ is_Some (bk_lastTimestamp b);
  pi_fresh : forall i, is_Some (ps_heap ps !! i) -> (i <= ps_currentBucket ps)%N;
  pi_nodup : NoDup (ps_buckets ps)
}.

Lemma at_bucket ps i b : ps_heap ps !! i = Some b -> bucket_at ps i = b.
Proof. unfold bucket_at. by intros ->. Qed.

Lemma ps_inv_init a b c d e t : ps_inv (Pending_Init a b c d e t).
Proof.
  assert (forall i b, ({[1%N := newBucket]} : gmap N bucket) !! i = Some b -> i = 1%N /\ b = newBucket) as Hh by (intros i x [? ?]%lookup_singleton_Some; done).
  split; cbn [Pending_Init ps_reqID2Bucket ps_heap ps_currentBucket ps_buckets].
  - intros k i. rewrite lookup_empty. split; [done|]. intros (x & [-> ->]%Hh & Hs). cbn in Hs. rewrite lookup_empty in Hs. by apply is_Some_None in Hs.
  - intros i x [-> ->]%Hh. cbn. rewrite map_size_empty. done.
  - intros i x [-> ->]%Hh. done.
  - exists newBucket. split; [apply lookup_singleton_eq|done].
  - intros i Hi. by apply not_elem_of_nil in Hi.
  - intros i [x [-> _]%Hh]. lia.
  - constructor.
Qed.

(** The payload of an identifier, by the heap. *)
Lemma PLookup_at ps k : ps_inv ps -> forall v, PLookup ps k = Some v <-> exists i b, ps_heap ps !! i = Some b /\ bk_requests b !! k = Some v.
Proof.
  intros Hi v. unfold PLookup. split.
  - destruct (ps_reqID2Bucket ps !! k) as [[i|]|] eqn:E; [|done..]. intros Hv. apply (pi_index _ Hi) in E as (b & Hb & _). exists i, b.
    by rewrite (at_bucket _ _ _ Hb) in Hv.
  - intros (i & b & Hb & Hv). assert (ps_reqID2Bucket ps !! k = Some (InBucket i)) as -> by (apply (pi_index _ Hi); exists b; by rewrite Hv). by rewrite (at_bucket _ _ _ Hb).
Qed.

Lemma held_lookup ps k : is_Some (held ps !! k) <-> exists i, ps_reqID2Bucket ps !! k = Some (InBucket i).
Proof.
  unfold held. split.
  - intros [r [Hr Hin]%map_lookup_filter_Some]. destruct r as [i|]; [by exists i|done].
  - intros [i Hi]. exists (InBucket i). by apply map_lookup_filter_Some.
Qed.

Lemma PLookup_held ps k : ps_inv ps -> is_Some (PLookup ps k) <-> is_Some (held ps !! k).
Proof.
  intros Hi. rewrite held_lookup. unfold PLookup. split.
  - destruct (ps_reqID2Bucket ps !! k) as [[i|]|]; [by exists i|intros [? ?]; done..].
  - intros [i E]. rewrite E. apply (pi_index _ Hi) in E as (b & Hb & Hs). by rewrite (at_bucket _ _ _ Hb).
Qed.

(** A bucket holds at most as many requests as the store. *)
Lemma bucket_le_held ps i b : ps_inv ps -> ps_heap ps !! i = Some b -> size (bk_requests b) <= size (held ps).
Proof.
  intros Hi Hb. rewrite <-!size_dom. apply subseteq_size. intros k Hk. apply elem_of_dom in Hk. apply elem_of_dom, held_lookup. exists i.
  apply (pi_index _ Hi). by exists b.
Qed.

(** ** Submission *)
Lemma tryInsert_spec ps id request ps' o : ps_inv ps -> (N.of_nat (size (held ps)) < u32_max)%N -> tryInsert ps id request = (ps', o) ->
  match ps_reqID2Bucket ps !! id with
  | Some _ => ps' = ps /\ o = Err "already inserted"
  | None =>
      o = Ok tt /\ ps_inv ps' /\ size (held ps') = S (size (held ps)) /\ ps_reqID2Bucket ps' = <[id := InBucket (ps_currentBucket ps)]> (ps_reqID2Bucket ps) /\
      (forall k, PLookup ps' k = if decide (k = id) then Some request else PLookup ps k) /\
      ps' = with_contents ps (ps_heap ps') (ps_reqID2Bucket ps') /\
      exists b, ps_heap ps !! ps_currentBucket ps = Some b /\
        ps_heap ps' = <[ps_currentBucket ps := mkBucket (bk_size b + 1) (bk_lastTimestamp b) (bk_firstStrikeTimestamp b) (<[id := request]> (bk_requests b))]> (ps_heap ps)
  end.
Proof.
  intros Hi Hsz E. destruct (pi_current _ Hi) as (b & Hb & Hl & Hf). unfold tryInsert in E. rewrite (at_bucket _ _ _ Hb), Hl in E.
  destruct (ps_reqID2Bucket ps !! id) eqn:Ek; [by injection E as <- <-|].
  assert (forall j x, ps_heap ps !! j = Some x -> bk_requests x !! id = None) as Habs.
  { intros j x Hx. destruct (bk_requests x !! id) eqn:Ex; [|done]. assert (ps_reqID2Bucket ps !! id = Some (InBucket j)) by (apply (pi_index _ Hi); exists x; by rewrite Ex). congruence. }
  rewrite (Habs _ _ Hb) in E. pose proof (bucket_le_held _ _ _ Hi Hb) as Hle. pose proof (pi_size _ Hi _ _ Hb) as [Hs Hsm].
  assert (u32 (bk_size b + 1) = bk_size b + 1)%N as Eu by (unfold u32, u32_max in *; apply N.mod_small; lia). rewrite Eu in E. clear Eu.
  injection E as <- <-. split; [done|].
  set (b' := mkBucket _ _ _ _).
  assert (ps_inv (with_contents ps (<[ps_currentBucket ps := b']> (ps_heap ps)) (<[id := InBucket (ps_currentBucket ps)]> (ps_reqID2Bucket ps)))) as Hi'.
  { split; cbn [with_contents ps_reqID2Bucket ps_heap ps_currentBucket ps_buckets].
    - intros k j. rewrite lookup_insert_Some, (pi_index _ Hi k j). split.
      + intros [[<- [= <-]]|[Hne (x & Hx & Hsx)]]; [exists b'; rewrite lookup_insert_eq; cbn; rewrite lookup_insert_eq; by split|].
        destruct (decide (j = ps_currentBucket ps)) as [->|]; [exists b'; rewrite lookup_insert_eq; cbn; rewrite lookup_insert_ne by done; split; [done|congruence]|exists x; by rewrite lookup_insert_ne].
      + intros (x & Hx & Hsx). apply lookup_insert_Some in Hx as [[<- <-]|[Hne Hx]].
        * cbn in Hsx. destruct (decide (id = k)) as [->|]; [by left|]. rewrite lookup_insert_ne in Hsx by done. right. split; [done|by exists b].
        * right. split; [|by exists x]. intros ->. rewrite (Habs _ _ Hx) in Hsx. by apply is_Some_None in Hsx.
    - intros j x [[<- <-]|[_ Hx]]%lookup_insert_Some; [|by eapply Hi]. cbn. rewrite map_size_insert_None by by eapply Habs. lia.
    - intros j x [[<- <-]|[_ Hx]]%lookup_insert_Some Hne; [by left|by eapply Hi].
    - exists b'. split; [apply lookup_insert_eq|done].
    - intros j Hj. destruct (pi_sealed _ Hi j Hj) as (Hlt & x & Hx & Hsx). split; [done|]. exists x. rewrite lookup_insert_ne by lia. done.
    - intros j Hj. rewrite lookup_insert_is_Some' in Hj. destruct Hj as [<-|Hj]; [done|by apply Hi].
    - apply Hi. }
  split; [done|]. split.
  { unfold held. cbn [with_contents ps_reqID2Bucket]. rewrite map_filter_insert_True by done. apply map_size_insert_None. apply map_lookup_filter_None. by left. }
  split; [done|]. split; [|split; [done|exists b; by rewrite Hl]].
  intros k. unfold PLookup. cbn [with_contents ps_reqID2Bucket]. case_decide as Hk.
  - subst k. rewrite lookup_insert_eq. unfold bucket_at. cbn. rewrite lookup_insert_eq. cbn. apply lookup_insert_eq.
  - rewrite lookup_insert_ne by done. destruct (ps_reqID2Bucket ps !! k) as [[j|]|]; [|done..]. unfold bucket_at. cbn.
    destruct (decide (j = ps_currentBucket ps)) as [->|]; [rewrite lookup_insert_eq, Hb; cbn; by rewrite lookup_insert_ne|by rewrite lookup_insert_ne].
Qed.

(** How far the detection of censorship has come for a request: in the current bucket, in a bucket sealed at a time, in a
    bucket that was struck at a time. *)
Inductive stage := Waiting | Sealed (t : Z) | Struck (t : Z).
Definition bucket_stage (b : bucket) : stage :=
  match bk_firstStrikeTimestamp b with Some t => Struck t | None => match bk_lastTimestamp b with Some t => Sealed t | None => Waiting end end.
Definition request_stage (ps : PendingStore) (k : reqID) : option stage :=
  match ps_reqID2Bucket ps !! k with Some (InBucket i) => Some (bucket_stage (bucket_at ps i)) | _ => None end.

(** ** Removal *)
Lemma size_delete_Some {A} (m : gmap reqID A) k x : m !! k = Some x -> S (size (delete k m)) = size m.
Proof.
  intros Hk. rewrite map_size_delete, Hk. cbn. assert (size m <> 0); [|lia]. intros Hz%map_size_empty_iff. by rewrite Hz, lookup_empty in Hk.
Qed.

Lemma drop_held ps id i : ps_inv ps -> ps_reqID2Bucket ps !! id = Some (InBucket i) ->
  exists b', bucket_delete (bucket_at ps i) id = Some b' /\
    let ps' := with_contents ps (<[i := b']> (ps_heap ps)) (delete id (ps_reqID2Bucket ps)) in
    ps_inv ps' /\ S (size (held ps')) = size (held ps) /\
    forall k, k <> id -> PLookup ps' k = PLookup ps k /\ request_stage ps' k = request_stage ps k.
Proof.
  intros Hi Ek. destruct (proj1 (pi_index _ Hi id i) Ek) as (b & Hb & v & Hv). pose proof (pi_size _ Hi _ _ Hb) as [Hs Hsm].
  unfold bucket_delete. rewrite (at_bucket _ _ _ Hb), Hv. eexists. split; [done|]. set (b' := mkBucket _ _ _ _). cbn zeta.
  pose proof (eq_sym (size_delete_Some _ _ _ Hv)) as Hsd.
  assert (forall k j x, k <> id -> ps_heap ps !! j = Some x -> exists x', <[i := b']> (ps_heap ps) !! j = Some x' /\ bk_requests x' !! k = bk_requests x !! k /\ bucket_stage x' = bucket_stage x) as Hkeep.
  { intros k j x Hk Hx. destruct (decide (j = i)) as [->|]; [|exists x; by rewrite lookup_insert_ne]. exists b'. rewrite lookup_insert_eq. assert (x = b) as -> by congruence.
    split; [done|]. cbn. by rewrite lookup_delete_ne. }
  split; [|split].
  - split; cbn [with_contents ps_reqID2Bucket ps_heap ps_currentBucket ps_buckets].
    + intros k j. rewrite lookup_delete_Some, (pi_index _ Hi k j). split.
      * intros [Hne (x & Hx & Hsx)]. destruct (Hkeep k j x) as (x' & ? & Er & _); [done..|]. exists x'. by rewrite Er.
      * intros (x & Hx & Hsx). apply lookup_insert_Some in Hx as [[<- <-]|[Hne Hx]].
        -- cbn in Hsx. destruct Hsx as [w [Hne Hw]%lookup_delete_Some]. split; [done|]. exists b. by rewrite Hw.
        -- split; [|by exists x]. intros <-. assert (ps_reqID2Bucket ps !! id = Some (InBucket j)) by (apply (pi_index _ Hi); by exists x). congruence.
    + intros j x [[<- <-]|[_ Hx]]%lookup_insert_Some; [|by eapply Hi]. cbn. rewrite Hs, Hsd in Hsm |- *. unfold u32, u32_max in *.
      replace (N.of_nat (S (size (delete id (bk_requests b)))) + 4294967295)%N with (N.of_nat (size (delete id (bk_requests b))) + 1 * 4294967296)%N by lia.
      rewrite N.Div0.mod_add, N.mod_small by lia. lia.
    + intros j x [[<- <-]|[_ Hx]]%lookup_insert_Some Hne; [|by eapply Hi]. eapply (pi_listed _ Hi); [exact Hb|]. intros E. rewrite E, lookup_empty in Hv. done.
    + destruct (pi_current _ Hi) as (c & Hc & Hcl & Hcf). destruct (decide (ps_currentBucket ps = i)) as [<-|]; [|exists c; by rewrite lookup_insert_ne].
      exists b'. rewrite lookup_insert_eq. assert (c = b) as -> by congruence. done.
    + intros j Hj. destruct (pi_sealed _ Hi j Hj) as (Hlt & x & Hx & Hsx). split; [done|].
      destruct (decide (j = i)) as [->|]; [|exists x; by rewrite lookup_insert_ne]. exists b'. rewrite lookup_insert_eq. assert (x = b) as -> by congruence. done.
    + intros j Hj. rewrite lookup_insert_is_Some' in Hj. destruct Hj as [<-|Hj]; apply (pi_fresh _ Hi); [by rewrite Hb|done].
    + apply Hi.
  - unfold held. cbn [with_contents ps_reqID2Bucket]. rewrite map_filter_delete. apply (size_delete_Some _ _ (InBucket i)). by apply map_lookup_filter_Some.
  - intros k Hk. unfold PLookup, request_stage. cbn [with_contents ps_reqID2Bucket]. rewrite lookup_delete_ne by done.
    destruct (ps_reqID2Bucket ps !! k) as [[j|]|] eqn:Ekk; [|done..]. apply (pi_index _ Hi) in Ekk as (x & Hx & _). destruct (Hkeep k j x) as (x' & Hx' & Er & Est); [done..|].
    unfold bucket_at. cbn. rewrite Hx, Hx'. cbn. by rewrite Er, Est.
Qed.

Lemma tombstone_spec ps id t : ps_inv ps -> (forall i, ps_reqID2Bucket ps !! id <> Some (InBucket i)) ->
  let ps' := with_contents ps (ps_heap ps) (<[id := Tombstone t]> (ps_reqID2Bucket ps)) in
  ps_inv ps' /\ held ps' = held ps /\ (forall k, PLookup ps' k = PLookup ps k) /\ (forall k, request_stage ps' k = request_stage ps k).
Proof.
  intros Hi Hno. cbn zeta.
  assert (forall k j, <[id := Tombstone t]> (ps_reqID2Bucket ps) !! k = Some (InBucket j) <-> ps_reqID2Bucket ps !! k = Some (InBucket j)) as Hidx.
  { intros k j. destruct (decide (id = k)) as [->|]; [rewrite lookup_insert_eq; split; [done|intros E; by apply Hno in E]|by rewrite lookup_insert_ne]. }
  assert (forall k (T : Type) (f : N -> T) (d : T), match <[id := Tombstone t]> (ps_reqID2Bucket ps) !! k with Some (InBucket j) => f j | _ => d end
    = match ps_reqID2Bucket ps !! k with Some (InBucket j) => f j | _ => d end) as Hm.
  { intros k T f d. specialize (Hidx k). destruct (<[_ := _]> _ !! k) as [[j|]|], (ps_reqID2Bucket ps !! k) as [[j'|]|]; try done;
      [by injection (proj1 (Hidx j) eq_refl) as ->|by specialize (proj1 (Hidx j) eq_refl)|by specialize (proj1 (Hidx j) eq_refl)|by specialize (proj2 (Hidx j') eq_refl)|by specialize (proj2 (Hidx j') eq_refl)]. }
  split; [|split; [|split]].
  - split; cbn [with_contents ps_reqID2Bucket ps_heap ps_currentBucket ps_buckets]; try apply Hi. intros k i. rewrite Hidx. apply Hi.
  - unfold held. cbn [with_contents ps_reqID2Bucket]. rewrite map_filter_insert_False by done. apply map_eq. intros k. destruct (decide (k = id)) as [->|].
    + transitivity (@None bucket_ref); [|symmetry]; apply map_lookup_filter_None; [left; apply lookup_delete_eq|].
      right. intros [j|] E; [by apply Hno in E|done].
    + apply option_eq. intros r. rewrite !map_lookup_filter_Some, lookup_delete_ne by done. done.
  - intros k. exact (Hm k _ (fun i => bk_requests (bucket_at ps i) !! k) None).
  - intros k. exact (Hm k _ (fun i => Some (bucket_stage (bucket_at ps i))) None).
Qed.

(** Everything but the heap and the index is as before. *)
Definition same_frame (ps ps' : PendingStore) : Prop := ps' = with_contents ps (ps_heap ps') (ps_reqID2Bucket ps').
Lemma same_frame_trans a b c : same_frame a b -> same_frame b c -> same_frame a c.
Proof. unfold same_frame. intros E1 E2. rewrite E2. rewrite E1. done. Qed.

(** A request that is held is deleted with its identifier; any other identifier is tombstoned. *)
Lemma removeRequest_spec ps id now ps' d : ps_inv ps -> removeRequest ps id now = (ps', d) ->
  ps_inv ps' /\ same_frame ps ps' /\ size (held ps) = (if d then 1 else 0) + size (held ps') /\ d = bool_decide (is_Some (PLookup ps id)) /\
  ps_reqID2Bucket ps' = (if d then delete id (ps_reqID2Bucket ps) else <[id := Tombstone now]> (ps_reqID2Bucket ps)) /\
  forall k, PLookup ps' k = (if decide (k = id) then None else PLookup ps k) /\ (k <> id -> request_stage ps' k = request_stage ps k).
Proof.
  intros Hi E. unfold removeRequest in E. destruct (ps_reqID2Bucket ps !! id) as [r|] eqn:Ek; [destruct r as [i|]|].
  1:{ destruct (drop_held ps id i Hi Ek) as (b' & Ed & Hi' & Hsz & Hk). rewrite Ed in E. injection E as <- <-. split; [done|]. split; [done|]. split; [cbn; lia|].
    split; [symmetry; apply bool_decide_eq_true; apply PLookup_held, held_lookup; [done|by exists i]|]. split; [done|].
    intros k. case_decide as Hkk; [|split; [by apply Hk|intros _; by apply Hk]]. subst. split; [|done]. unfold PLookup. cbn [with_contents ps_reqID2Bucket]. by rewrite lookup_delete_eq. }
  all: injection E as <- <-; destruct (tombstone_spec ps id now Hi) as (Hi' & Hh & Hp & Hs); [intros i; by rewrite Ek|]; split; [done|]; split; [done|]; split; [cbn; by rewrite Hh|];
    assert (PLookup ps id = None) as En by (unfold PLookup; by rewrite Ek); split; [rewrite En; symmetry; by apply bool_decide_eq_false|]; split; [done|];
    intros k; rewrite Hp; case_decide as Hkk; [by subst|done].
Qed.

Lemma remove_all_spec now ids : forall ps ps' n, ps_inv ps -> remove_all ps now ids = (ps', n) ->
  ps_inv ps' /\ same_frame ps ps' /\ size (held ps) = n + size (held ps') /\
  forall k, PLookup ps' k = (if decide (k ∈ ids) then None else PLookup ps k) /\ (k ∉ ids -> request_stage ps' k = request_stage ps k).
Proof.
  induction ids as [|id ids IH]; intros ps ps' n Hi E; cbn [remove_all] in E.
  - injection E as <- <-. split; [done|]. split; [by destruct ps|]. split; [done|]. intros k. rewrite decide_False by apply not_elem_of_nil. done.
  - destruct (removeRequest ps id now) as [p1 d] eqn:E1. cbn [fst snd] in E. destruct (remove_all p1 now ids) as [p2 n2] eqn:E2. cbn [fst snd] in E. injection E as <- <-.
    destruct (removeRequest_spec _ _ _ _ _ Hi E1) as (Hi1 & Hf1 & Hs1 & _ & _ & Hk1). destruct (IH _ _ _ Hi1 E2) as (Hi2 & Hf2 & Hs2 & Hk2).
    split; [done|]. split; [by eapply same_frame_trans|]. split; [lia|]. intros k. destruct (Hk1 k) as [P1 S1], (Hk2 k) as [P2 S2]. split.
    + rewrite P2, P1. destruct (decide (k ∈ ids)) as [Hin|Hin], (decide (k ∈ id :: ids)) as [Hc|Hc]; [done|destruct Hc; by right| |];
        rewrite elem_of_cons in Hc; case_decide; tauto || done.
    + intros [Hne Hnin]%not_elem_of_cons. rewrite S2, S1 by done. done.
Qed.

(** Whether a held request is refused by the predicate of a prune. *)
Definition invalid (ps : PendingStore) (valid : bytes -> bool) (k : reqID) : bool := match PLookup ps k with Some r => negb (valid r) | None => false end.

Lemma prune_one_spec valid ps n id ps' n' : ps_inv ps -> prune_one valid (ps, n) id = (ps', n') ->
  ps_inv ps' /\ same_frame ps ps' /\ n' + size (held ps') = n + size (held ps) /\
  forall k, PLookup ps' k = (if bool_decide (k = id) && invalid ps valid k then None else PLookup ps k) /\
            (bool_decide (k = id) && invalid ps valid k = false -> request_stage ps' k = request_stage ps k).
Proof.
  intros Hi E. unfold prune_one in E. cbn [fst snd] in E.
  assert (invalid ps valid id = false -> (ps', n') = (ps, n) -> ps_inv ps' /\ same_frame ps ps' /\ n' + size (held ps') = n + size (held ps) /\
    forall k, PLookup ps' k = (if bool_decide (k = id) && invalid ps valid k then None else PLookup ps k) /\
              (bool_decide (k = id) && invalid ps valid k = false -> request_stage ps' k = request_stage ps k)) as Hsame.
  { intros Hv [= -> ->]. split; [done|]. split; [by destruct ps|]. split; [done|]. intros k. case_bool_decide as Hk; [subst; by rewrite Hv|done]. }
  unfold invalid in Hsame at 1. unfold PLookup in Hsame at 1.
  destruct (ps_reqID2Bucket ps !! id) as [[i|]|] eqn:Ek; [|by apply Hsame..].
  destruct (bk_requests (bucket_at ps i) !! id) as [r|] eqn:Er; [|by apply Hsame].
  destruct (valid r) eqn:Hv; [by apply Hsame|]. clear Hsame.
  destruct (drop_held ps id i Hi Ek) as (b' & Ed & Hi' & Hsz & Hk). rewrite Ed in E. injection E as <- <-. split; [done|]. split; [done|]. split; [lia|].
  intros k. case_bool_decide as Hd; [|split; [by apply Hk|intros _; by apply Hk]]. subst k.
  assert (invalid ps valid id = true) as -> by (unfold invalid, PLookup; by rewrite Ek, Er, Hv). split; [|done].
  unfold PLookup. cbn [with_contents ps_reqID2Bucket]. by rewrite lookup_delete_eq.
Qed.

Lemma prune_fold_spec valid ids : forall ps n ps' n', ps_inv ps -> foldl (prune_one valid) (ps, n) ids = (ps', n') ->
  ps_inv ps' /\ same_frame ps ps' /\ n' + size (held ps') = n + size (held ps) /\
  forall k, PLookup ps' k = (if bool_decide (k ∈ ids) && invalid ps valid k then None else PLookup ps k) /\ (invalid ps valid k = false -> request_stage ps' k = request_stage ps k).
Proof.
  induction ids as [|id ids IH]; intros ps n ps' n' Hi E; cbn [foldl] in E.
  - injection E as <- <-. split; [done|]. split; [by destruct ps|]. split; [done|]. intros k. rewrite bool_decide_false by apply not_elem_of_nil. done.
  - destruct (prune_one valid (ps, n) id) as [p1 n1] eqn:E1. destruct (prune_one_spec _ _ _ _ _ _ Hi E1) as (Hi1 & Hf1 & Hs1 & Hk1).
    destruct (IH _ _ _ _ Hi1 E) as (Hi2 & Hf2 & Hs2 & Hk2). split; [done|]. split; [by eapply same_frame_trans|]. split; [lia|].
    intros k. destruct (Hk1 k) as [P1 S1], (Hk2 k) as [P2 S2].
    assert (bool_decide (k ∈ id :: ids) = bool_decide (k = id) || bool_decide (k ∈ ids)) as -> by (apply eq_true_iff_eq; rewrite orb_true_iff, !bool_decide_eq_true; apply elem_of_cons).
    destruct (bool_decide (k = id) && invalid ps valid k) eqn:Eb.
    + apply andb_true_iff in Eb as [-> Hv]. rewrite P2, P1, Hv. split; [by destruct (_ && _)|done].
    + assert (invalid p1 valid k = invalid ps valid k) as Ei by (unfold invalid; by rewrite P1). rewrite Ei in *. rewrite P2, P1. split.
      * destruct (bool_decide (k = id)), (invalid ps valid k); try done. by rewrite !andb_false_r.
      * intros Hv. rewrite S2 by done. by apply S1.
Qed.

(** Prune deletes exactly the requests the predicate refuses. *)
Lemma Pending_Prune_spec valid ps ps' n : ps_inv ps -> Pending_Prune ps valid = (ps', n) ->
  ps_inv ps' /\ same_frame ps ps' /\ n + size (held ps') = size (held ps) /\
  forall k, PLookup ps' k = (if invalid ps valid k then None else PLookup ps k) /\ (invalid ps valid k = false -> request_stage ps' k = request_stage ps k).
Proof.
  intros Hi E. destruct (prune_fold_spec _ _ _ _ _ _ Hi E) as (Hi' & Hf & Hs & Hk). split; [done|]. split; [done|]. split; [done|].
  intros k. destruct (Hk k) as [P S]. split; [|done]. rewrite P. destruct (invalid ps valid k) eqn:Ei; [|by rewrite andb_false_r].
  rewrite bool_decide_true; [done|]. unfold invalid in Ei. destruct (PLookup ps k) as [r|] eqn:Ep; [|done].
  unfold PLookup in Ep. destruct (ps_reqID2Bucket ps !! k) as [r'|] eqn:Ek; [|done]. apply list_elem_of_fmap. exists (k, r'). split; [done|].
  rewrite range_perm. by apply elem_of_map_to_list.
Qed.
End Pending.
