(* ===== verification/PendingThms.v ===== *)
(** * The pending store detects censorship

    The epochs and strikes of [src/request/pending.go]: a tick of the clock moves every request the store holds through
    the stages of a small automaton, resends the requests of the buckets it strikes and complains exactly if a request was struck
    for longer than the second threshold; a request that stays in the store makes it complain within a bounded time. *)
From S2P Require Import Prelude Types BatchStore PendingStore.
From stdpp Require Import gmap sets.
From Stdlib Require Import NArith ZArith Lia.

Section Ticks.
Context {R : MapRange}.

(** ** Steps that keep the requests *)
(** Two stores with the same requests in the same buckets. *)
Definition same_requests (ps ps' : PendingStore) : Prop := forall k, PLookup ps' k = PLookup ps k.

(** A change of the buckets' times, by a function of the bucket. *)
Lemma ps_inv_retime ps ps' (g : N -> bucket -> bucket) : ps_inv ps ->
  ps_reqID2Bucket ps' = ps_reqID2Bucket ps -> ps_currentBucket ps' = ps_currentBucket ps -> ps_buckets ps' = ps_buckets ps ->
  (forall i, ps_heap ps' !! i = g i <$> ps_heap ps !! i) ->
  (forall i b, bk_requests (g i b) = bk_requests b /\ bk_size (g i b) = bk_size b /\ (is_Some (bk_lastTimestamp b) -> is_Some (bk_lastTimestamp (g i b)))) ->
  (forall b, g (ps_currentBucket ps) b = b) -> ps_inv ps' /\ same_requests ps ps'.
Proof.
  intros Hi Eidx Ecur Ebk Hh Hg Hgc. split.
  - split; rewrite ?Eidx, ?Ecur, ?Ebk.
    + intros k i. rewrite (pi_index _ Hi). split.
      * intros (b & Hb & Hs). exists (g i b). rewrite Hh, Hb. split; [done|]. by rewrite (proj1 (Hg i b)).
      * intros (x & Hx & Hs). rewrite Hh in Hx. apply fmap_Some in Hx as (b & Hb & ->). exists b. by rewrite (proj1 (Hg i b)) in Hs.
    + intros i x Hx. rewrite Hh in Hx. apply fmap_Some in Hx as (b & Hb & ->). destruct (Hg i b) as (-> & -> & _). by eapply Hi.
    + intros i x Hx. rewrite Hh in Hx. apply fmap_Some in Hx as (b & Hb & ->). destruct (Hg i b) as (-> & _). by eapply Hi.
    + destruct (pi_current _ Hi) as (b & Hb & H1 & H2). exists b. rewrite Hh, Hb. cbn. by rewrite Hgc.
    + intros i Hin. destruct (pi_sealed _ Hi i Hin) as (Hlt & b & Hb & Hs). split; [done|]. exists (g i b). rewrite Hh, Hb. split; [done|]. by apply Hg.
    + intros i Hx. rewrite Hh, fmap_is_Some in Hx. by apply Hi.
    + apply Hi.
  - intros k. unfold PLookup. rewrite Eidx. destruct (ps_reqID2Bucket ps !! k) as [[i|]|]; [|done..]. unfold bucket_at. rewrite Hh.
    destruct (ps_heap ps !! i) as [b|]; [|done]. cbn. by rewrite (proj1 (Hg i b)).
Qed.

(** The bucket of a held request: the current one, or a listed and sealed one. *)
Lemma held_bucket ps k s : ps_inv ps -> request_stage ps k = Some s -> exists i b, ps_reqID2Bucket ps !! k = Some (InBucket i) /\ ps_heap ps !! i = Some b /\
  s = bucket_stage b /\ is_Some (bk_requests b !! k) /\ (i = ps_currentBucket ps /\ s = Waiting \/ i ∈ ps_buckets ps /\ i <> ps_currentBucket ps /\ is_Some (bk_lastTimestamp b)).
Proof.
  intros Hi E. unfold request_stage in E. destruct (ps_reqID2Bucket ps !! k) as [[i|]|] eqn:Ek; [|done..]. injection E as <-.
  destruct (proj1 (pi_index _ Hi k i) Ek) as (b & Hb & Hs). exists i, b. rewrite (at_bucket _ _ _ Hb). split; [done|]. split; [done|]. split; [done|]. split; [done|].
  destruct (pi_listed _ Hi i b Hb) as [->|Hin].
  - intros E. rewrite E, lookup_empty in Hs. by apply is_Some_None in Hs.
  - left. split; [done|]. destruct (pi_current _ Hi) as (c & Hc & Hl & Hf). assert (c = b) as -> by congruence. unfold bucket_stage. by rewrite Hf, Hl.
  - right. destruct (pi_sealed _ Hi i Hin) as (Hlt & x & Hx & Hsx). assert (x = b) as -> by congruence. split; [done|]. split; [lia|done].
Qed.

Lemma stage_same ps ps' k : ps_reqID2Bucket ps' = ps_reqID2Bucket ps -> ps_heap ps' = ps_heap ps -> request_stage ps' k = request_stage ps k /\ PLookup ps' k = PLookup ps k.
Proof. intros E1 E2. unfold request_stage, PLookup, bucket_at. by rewrite E1, E2. Qed.

Lemma ps_inv_clocks ps a b c : ps_inv ps -> ps_inv (with_clocks ps a b c).
Proof. intros [? ? ? ? ? ? ?]. by split. Qed.

(** ** Rotation *)
Definition seal_stage (now : Z) (s : stage) : stage := match s with Waiting => Sealed now | s => s end.

Lemma rotateBuckets_spec ps now : ps_inv ps -> ps_inv (rotateBuckets ps now) /\ same_requests ps (rotateBuckets ps now) /\
  forall k, request_stage (rotateBuckets ps now) k = seal_stage now <$> request_stage ps k.
Proof.
  intros Hi. destruct (pi_current _ Hi) as (b & Hb & Hl & Hf). unfold rotateBuckets. rewrite (at_bucket _ _ _ Hb). destruct (pi_size _ Hi _ _ Hb) as [Hs _].
  destruct (N.eqb_spec (bk_size b) 0) as [Hz|Hz].
  - split; [done|]. split; [done|]. intros k. destruct (request_stage ps k) as [s|] eqn:Es; [|done].
    destruct (held_bucket ps k s Hi Es) as (i & x & _ & Hx & Est & [v Hv] & [[-> _]|(_ & _ & Hsl)]).
    + assert (x = b) as -> by congruence. assert (size (bk_requests b) = 0) as He%map_size_empty_iff by lia. rewrite He, lookup_empty in Hv. done.
    + subst s. unfold bucket_stage. destruct (bk_firstStrikeTimestamp x); [done|]. by destruct (bk_lastTimestamp x), Hsl.
  - set (c := ps_currentBucket ps) in *. set (sealed := mkBucket _ _ _ _).
    assert (ps_heap ps !! (c + 1)%N = None) as Hfr. { destruct (ps_heap ps !! (c + 1)%N) eqn:E; [|done]. pose proof (pi_fresh _ Hi (c + 1)%N ltac:(by rewrite E)) as Hle. subst c. lia. }
    assert (forall i x, ps_heap ps !! i = Some x -> <[(c + 1)%N := newBucket]> (<[c := sealed]> (ps_heap ps)) !! i = Some (if decide (i = c) then sealed else x)) as Hold.
    { intros i x Hx. rewrite lookup_insert_ne by (intros <-; congruence). case_decide as Hc; [subst i; apply lookup_insert_eq|by rewrite lookup_insert_ne]. }
    assert (forall i x, <[(c + 1)%N := newBucket]> (<[c := sealed]> (ps_heap ps)) !! i = Some x -> i = (c + 1)%N /\ x = newBucket \/ exists y, ps_heap ps !! i = Some y /\ x = if decide (i = c) then sealed else y) as Hnew.
    { intros i x [[<- <-]|[_ Hx]]%lookup_insert_Some; [by left|right]. apply lookup_insert_Some in Hx as [[<- <-]|[Hne Hx]]; [exists b; by rewrite decide_True|exists x; by rewrite decide_False]. }
    assert (forall i y, ps_heap ps !! i = Some y -> bk_requests (if decide (i = c) then sealed else y) = bk_requests y /\ bk_size (if decide (i = c) then sealed else y) = bk_size y) as Hrq.
    { intros i y Hy. case_decide as Hc; [|done]. subst i. by assert (y = b) as -> by congruence. }
    split; [|split].
    + split; cbn [with_buckets ps_reqID2Bucket ps_heap ps_currentBucket ps_buckets].
      * intros k i. rewrite (pi_index _ Hi). split.
        -- intros (x & Hx & Hsx). eexists. split; [by apply Hold|]. by rewrite (proj1 (Hrq i x Hx)).
        -- intros (x & [[-> ->]|(y & Hy & ->)]%Hnew & Hsx); [cbn in Hsx; rewrite lookup_empty in Hsx; by apply is_Some_None in Hsx|]. exists y. by rewrite (proj1 (Hrq i y Hy)) in Hsx.
      * intros i x [[-> ->]|(y & Hy & ->)]%Hnew; [cbn; rewrite map_size_empty; done|]. destruct (Hrq i y Hy) as [-> ->]. by eapply Hi.
      * intros i x [[-> ->]|(y & Hy & ->)]%Hnew Hne; [done|]. rewrite (proj1 (Hrq i y Hy)) in Hne. right. apply elem_of_app. rewrite list_elem_of_singleton. destruct (pi_listed _ Hi i y Hy Hne); auto.
      * exists newBucket. split; [apply lookup_insert_eq|done].
      * intros i [Hin|Hin]%elem_of_app; [|apply list_elem_of_singleton in Hin as ->].
        -- destruct (pi_sealed _ Hi i Hin) as (Hlt & x & Hx & Hsx). split; [subst c; lia|]. exists x. rewrite (Hold i x Hx), decide_False by (subst c; lia). done.
        -- split; [lia|]. exists sealed. by rewrite (Hold c b Hb), decide_True.
      * intros i [x [[-> _]|(y & Hy & _)]%Hnew]; [done|]. pose proof (pi_fresh _ Hi i ltac:(by rewrite Hy)) as Hle. subst c. lia.
      * apply NoDup_app. split; [apply Hi|]. split; [|apply NoDup_singleton]. intros i Hin Hin2. apply list_elem_of_singleton in Hin2 as ->. destruct (pi_sealed _ Hi c Hin) as [Hlt _]. subst c. lia.
    + intros k. unfold PLookup. cbn [with_buckets ps_reqID2Bucket]. destruct (ps_reqID2Bucket ps !! k) as [[i|]|] eqn:Ek; [|done..].
      apply (pi_index _ Hi) in Ek as (x & Hx & _). unfold bucket_at. cbn. rewrite (Hold i x Hx), Hx. cbn. by rewrite (proj1 (Hrq i x Hx)).
    + intros k. unfold request_stage. cbn [with_buckets ps_reqID2Bucket]. destruct (ps_reqID2Bucket ps !! k) as [[i|]|] eqn:Ek; [|done..].
      pose proof Ek as Ek'. apply (pi_index _ Hi) in Ek as (x & Hx & _). unfold bucket_at. cbn. rewrite (Hold i x Hx), Hx. cbn. f_equal. case_decide as Hc.
      * subst i. assert (x = b) as -> by congruence. unfold bucket_stage. cbn. by rewrite Hf, Hl.
      * destruct (held_bucket ps k (bucket_stage x) Hi) as (j & y & Ej & Hy & _ & _ & [[Hj _]|(_ & _ & Hsl)]); [unfold request_stage; rewrite Ek'; by rewrite (at_bucket _ _ _ Hx)|exfalso; apply Hc; subst c; congruence|].
        assert (y = x) as -> by congruence. unfold bucket_stage. destruct (bk_firstStrikeTimestamp x); [done|]. by destruct (bk_lastTimestamp x), Hsl.
Qed.

(** ** Garbage collection *)
Definition all_occupied (ps : PendingStore) : Prop := forall i, i ∈ ps_buckets ps -> exists b, ps_heap ps !! i = Some b /\ bk_requests b <> ∅.

Lemma gc_empty_spec ps : ps_inv ps -> let ps' := garbageCollectEmptyBuckets ps in
  ps_inv ps' /\ all_occupied ps' /\ forall k, request_stage ps' k = request_stage ps k /\ PLookup ps' k = PLookup ps k.
Proof.
  intros Hi. cbn zeta.
  assert (forall i, i ∈ ps_buckets (garbageCollectEmptyBuckets ps) <-> i ∈ ps_buckets ps /\ exists b, ps_heap ps !! i = Some b /\ bk_requests b <> ∅) as Hin.
  { intros i. cbn [garbageCollectEmptyBuckets with_buckets ps_buckets]. rewrite list_elem_of_In, List.filter_In, <-list_elem_of_In, N.ltb_lt. split; intros [H1 H2]; split; try done.
    - destruct (pi_sealed _ Hi i H1) as (_ & b & Hb & _). exists b. split; [done|]. rewrite (at_bucket _ _ _ Hb) in H2. destruct (pi_size _ Hi _ _ Hb) as [Hs _].
      intros He. rewrite He, map_size_empty in Hs. lia.
    - destruct H2 as (b & Hb & Hne). rewrite (at_bucket _ _ _ Hb). destruct (pi_size _ Hi _ _ Hb) as [Hs _].
      assert (size (bk_requests b) <> 0) by (by rewrite map_size_empty_iff). lia. }
  split; [|split; [intros i Hx; apply Hin in Hx; apply Hx|intros k; by apply stage_same]].
  split; try apply Hi.
  - intros i b Hb Hne. destruct (pi_listed _ Hi i b Hb Hne) as [->|Hl]; [by left|right]. apply Hin. split; [done|by exists b].
  - intros i Hx. apply Hin in Hx as [Hx _]. by apply Hi.
  - cbn [garbageCollectEmptyBuckets with_buckets ps_buckets]. apply NoDup_ListNoDup, List.NoDup_filter, NoDup_ListNoDup, Hi.
Qed.

Lemma gc_processed_spec ps now : ps_inv ps -> let ps' := garbageCollectProcessed ps now in
  ps_inv ps' /\ forall k, request_stage ps' k = request_stage ps k /\ PLookup ps' k = PLookup ps k.
Proof.
  intros Hi. cbn zeta. set (ps' := garbageCollectProcessed ps now).
  assert (forall k i, ps_reqID2Bucket ps' !! k = Some (InBucket i) <-> ps_reqID2Bucket ps !! k = Some (InBucket i)) as Hidx.
  { intros k i. subst ps'. cbn [garbageCollectProcessed with_contents ps_reqID2Bucket]. rewrite map_lookup_filter_Some. cbn. tauto. }
  split; [split; try apply Hi; intros k i; rewrite Hidx; apply Hi|].
  intros k. unfold request_stage, PLookup. change (bucket_at ps') with (bucket_at ps). specialize (Hidx k).
  destruct (ps_reqID2Bucket ps' !! k) as [[i|]|] eqn:E1; [by rewrite (proj1 (Hidx i) eq_refl)|..];
    destruct (ps_reqID2Bucket ps !! k) as [[j|]|]; try done; by specialize (proj2 (Hidx j) eq_refl).
Qed.

(** ** Strikes *)
Lemma update_heap ps (f : bucket -> bucket) ids j :
  foldr (fun i heap => <[i := f (bucket_at ps i)]> heap) (ps_heap ps) ids !! j = if decide (j ∈ ids) then Some (f (bucket_at ps j)) else ps_heap ps !! j.
Proof.
  induction ids as [|i ids IH]; cbn [foldr]; [by rewrite decide_False by apply not_elem_of_nil|]. destruct (decide (i = j)) as [->|Hne].
  - rewrite lookup_insert_eq, decide_True by (by left). done.
  - rewrite lookup_insert_ne, IH by done. destruct (decide (j ∈ ids)) as [Hj|Hj], (decide (j ∈ i :: ids)) as [Hc|Hc]; rewrite elem_of_cons in Hc; try done; exfalso; tauto || (destruct Hc; congruence).
Qed.

Definition keeps (f : bucket -> bucket) : Prop := forall b, bk_requests (f b) = bk_requests b /\ bk_size (f b) = bk_size b /\ (is_Some (bk_lastTimestamp b) -> is_Some (bk_lastTimestamp (f b))).

Lemma update_buckets_spec f ps ids : ps_inv ps -> keeps f -> ids ⊆ ps_buckets ps -> let ps' := update_buckets f ps ids in
  ps_inv ps' /\ same_requests ps ps' /\
  forall k i b, ps_reqID2Bucket ps !! k = Some (InBucket i) -> ps_heap ps !! i = Some b ->
    request_stage ps' k = Some (if decide (i ∈ ids) then bucket_stage (f b) else bucket_stage b).
Proof.
  intros Hi Hf Hsub. cbn zeta. assert (forall j, ps_heap (update_buckets f ps ids) !! j = (fun b => if decide (j ∈ ids) then f b else b) <$> ps_heap ps !! j) as Hh.
  { intros j. cbn [update_buckets with_buckets ps_heap]. rewrite update_heap. case_decide as Hj; [|by destruct (ps_heap ps !! j)].
    destruct (pi_sealed _ Hi j (Hsub j Hj)) as (_ & b & Hb & _). unfold bucket_at. by rewrite Hb. }
  destruct (ps_inv_retime ps (update_buckets f ps ids) (fun j b => if decide (j ∈ ids) then f b else b) Hi) as [H1 H2]; [done|done|done|exact Hh| | |split; [done|split; [done|]]].
  - intros i b. case_decide; [apply Hf|done].
  - intros b. rewrite decide_False; [done|]. intros Hj%Hsub. apply (pi_sealed _ Hi) in Hj as [Hlt _]. lia.
  - intros k i b Ek Hb. unfold request_stage. change (ps_reqID2Bucket (update_buckets f ps ids)) with (ps_reqID2Bucket ps). rewrite Ek. unfold bucket_at. rewrite Hh, Hb. cbn.
    by case_decide.
Qed.

Definition strike_stage (now first : Z) (s : stage) : stage := match s with Sealed t => if (first <? now - t)%Z then Struck now else Sealed t | s => s end.
Definition due (now second : Z) (s : stage) : bool := match s with Struck t => (second <? now - t)%Z | _ => false end.

Lemma keeps_strike now : keeps (set_first_strike now).
Proof. by intros b. Qed.
Lemma keeps_reset t : keeps (resetTimestamp t).
Proof. intros b. by repeat split. Qed.

Lemma struck_in ps now i : i ∈ struck ps now <-> i ∈ ps_buckets ps /\ strikes_first now (ps_FirstStrikeThreshold ps) (bucket_at ps i) = true.
Proof. unfold struck. by rewrite list_elem_of_In, List.filter_In, <-list_elem_of_In. Qed.

Lemma strikes_first_stage now first b : is_Some (bk_lastTimestamp b) ->
  strikes_first now first b = match bucket_stage b with Sealed t => (first <? now - t)%Z | _ => false end.
Proof. intros [t Ht]. unfold strikes_first, bucket_stage. rewrite Ht. by destruct (bk_firstStrikeTimestamp b). Qed.

Lemma strikes_second_stage now second b : strikes_second now second b = due now second (bucket_stage b).
Proof. unfold strikes_second, due, bucket_stage. destruct (bk_firstStrikeTimestamp b); [done|]. by destruct (bk_lastTimestamp b). Qed.

(** The first strike moves the stages, and resends exactly the requests it strikes. *)
Lemma checkFirstStrike_spec ps now ps' l : ps_inv ps -> checkFirstStrike ps now = (ps', l) ->
  ps_inv ps' /\ same_requests ps ps' /\ (all_occupied ps -> all_occupied ps') /\
  (forall k, request_stage ps' k = strike_stage now (ps_FirstStrikeThreshold ps) <$> request_stage ps k) /\
  (forall k v, (k, v) ∈ l <-> PLookup ps k = Some v /\ exists t, request_stage ps k = Some (Sealed t) /\ (ps_FirstStrikeThreshold ps < now - t)%Z).
Proof.
  intros Hi E. unfold checkFirstStrike in E. injection E as <- <-.
  destruct (update_buckets_spec (set_first_strike now) ps (struck ps now) Hi (keeps_strike now)) as (Hi' & Hr & Hst); [intros i Hx; by apply struck_in in Hx as [? _]|].
  split; [done|]. split; [done|]. split; [|split].
  - intros Hocc i Hx. destruct (Hocc i Hx) as (b & Hb & Hne). cbn [update_buckets with_buckets ps_heap]. rewrite update_heap, (at_bucket _ _ _ Hb). case_decide; [by eexists|by exists b].
  - intros k. destruct (request_stage ps k) as [s|] eqn:Es; cbn.
    + destruct (held_bucket ps k s Hi Es) as (i & b & Ek & Hb & -> & _ & Hc). rewrite (Hst k i b Ek Hb). f_equal.
      destruct Hc as [[-> Ew]|(Hin & Hne & Hl)].
      * rewrite decide_False; [by rewrite Ew|]. intros [Hx _]%struck_in. apply (pi_sealed _ Hi) in Hx as [Hlt _]. lia.
      * pose proof (strikes_first_stage now (ps_FirstStrikeThreshold ps) b Hl) as Hsf. case_decide as Hd.
        -- apply struck_in in Hd as [_ Hd]. rewrite (at_bucket _ _ _ Hb), Hsf in Hd. destruct (bucket_stage b) as [|t|]; try done. cbn. by rewrite Hd.
        -- destruct (bucket_stage b) as [|t|] eqn:Eb; try done. cbn. destruct (_ <? _)%Z; [|done]. destruct Hd. apply struck_in. by rewrite (at_bucket _ _ _ Hb).
    + unfold request_stage in *. change (ps_reqID2Bucket (update_buckets _ _ _)) with (ps_reqID2Bucket ps). by destruct (ps_reqID2Bucket ps !! k) as [[i|]|].
  - intros k v. rewrite elem_of_concat. split.
    + intros (kvs & Hkv & Hl). apply list_elem_of_fmap in Hl as (i & -> & Hx). apply struck_in in Hx as [Hin Hsf]. destruct (pi_sealed _ Hi i Hin) as (_ & b & Hb & Hl).
      rewrite (at_bucket _ _ _ Hb) in *. rewrite range_perm, elem_of_map_to_list in Hkv. split; [apply (PLookup_at _ _ Hi); by exists i, b|].
      rewrite strikes_first_stage in Hsf by done. unfold request_stage. rewrite (proj2 (pi_index _ Hi k i)) by (exists b; by rewrite Hkv).
      rewrite (at_bucket _ _ _ Hb). destruct (bucket_stage b) as [|t|]; try done. exists t. split; [done|]. lia.
    + intros [Hv (t & Es & Ht)]. destruct (held_bucket ps k _ Hi Es) as (i & b & Ek & Hb & Est & _ & Hc). destruct Hc as [[_ ?]|(Hin & _ & Hl)]; [done|].
      exists (range_map 13 (bk_requests (bucket_at ps i))). split.
      * rewrite range_perm, elem_of_map_to_list. unfold PLookup in Hv. by rewrite Ek in Hv.
      * apply list_elem_of_fmap. exists i. split; [done|]. apply struck_in. split; [done|]. rewrite (at_bucket _ _ _ Hb), strikes_first_stage, <-Est by done. lia.
Qed.

(** The second strike complains exactly if a request is due. *)
Lemma checkSecondStrike_spec ps now ps' c : ps_inv ps -> all_occupied ps -> checkSecondStrike ps now = (ps', c) ->
  ps_inv ps' /\ same_requests ps ps' /\
  (c = true <-> exists k s, request_stage ps k = Some s /\ due now (ps_SecondStrikeThreshold ps) s = true) /\ (c = false -> ps' = ps).
Proof.
  intros Hi Hocc E. unfold checkSecondStrike in E.
  destruct (List.find _ (ps_buckets ps)) as [i|] eqn:Ef; injection E as <- <-.
  - apply List.find_some in Ef as [Hin Hs]. rewrite <-list_elem_of_In in Hin.
    destruct (update_buckets_spec (resetTimestamp (ps_lastTick ps)) ps [i] Hi (keeps_reset _)) as (Hi' & Hr & _); [intros j Hj; by apply list_elem_of_singleton in Hj as ->|].
    split; [done|]. split; [done|]. split; [|done]. split; [intros _|done]. destruct (Hocc i Hin) as (b & Hb & Hne). apply map_choose in Hne as (k & v & Hkv).
    rewrite (at_bucket _ _ _ Hb), strikes_second_stage in Hs. exists k, (bucket_stage b). split; [|done].
    unfold request_stage. rewrite (proj2 (pi_index _ Hi k i)) by (exists b; by rewrite Hkv). by rewrite (at_bucket _ _ _ Hb).
  - split; [done|]. split; [done|]. split; [|done]. split; [done|]. intros (k & s & Es & Hd). exfalso. destruct (held_bucket ps k s Hi Es) as (i & b & _ & Hb & -> & _ & Hc).
    destruct Hc as [[_ Ew]|(Hin & _ & _)]; [by rewrite Ew in Hd|]. rewrite list_elem_of_In in Hin. pose proof (List.find_none _ _ Ef i Hin) as Hn. cbn beta in Hn.
    rewrite (at_bucket _ _ _ Hb), strikes_second_stage in Hn. congruence.
Qed.

(** ** A tick *)
Definition params (ps : PendingStore) := (ps_FirstStrikeThreshold ps, ps_SecondStrikeThreshold ps, ps_Epoch ps, ps_stopped ps, ps_closed ps).
Definition tick_stage (ps : PendingStore) (now : Z) (s : stage) : stage := strike_stage now (ps_FirstStrikeThreshold ps) (seal_stage now s).

(** The part of a tick before the strikes. *)
Definition epoch_start (ps : PendingStore) (now : Z) : PendingStore :=
  let ps := with_clocks ps (ps_lastTick ps) now (ps_lastProcessedGC ps) in
  let ps := garbageCollectEmptyBuckets (rotateBuckets ps now) in
  if (ps_ReqIDGCInterval ps <? now - ps_lastProcessedGC ps)%Z
  then garbageCollectProcessed (with_clocks ps (ps_lastTick ps) (ps_lastEpochChange ps) now) now else ps.

Lemma rotate_clocks ps now : params (rotateBuckets ps now) = params ps /\ ps_lastEpochChange (rotateBuckets ps now) = ps_lastEpochChange ps /\ ps_lastTick (rotateBuckets ps now) = ps_lastTick ps.
Proof. unfold rotateBuckets. by case_match. Qed.

Lemma epoch_start_spec ps now : ps_inv ps -> let ps' := epoch_start ps now in
  ps_inv ps' /\ same_requests ps ps' /\ all_occupied ps' /\ params ps' = params ps /\ ps_lastEpochChange ps' = now /\ ps_lastTick ps' = ps_lastTick ps /\
  forall k, request_stage ps' k = seal_stage now <$> request_stage ps k.
Proof.
  intros Hi. cbn zeta. unfold epoch_start. set (p0 := with_clocks ps _ _ _). assert (ps_inv p0) as Hi0 by by apply ps_inv_clocks.
  destruct (rotateBuckets_spec p0 now Hi0) as (Hi1 & Hr1 & Hs1). destruct (rotate_clocks p0 now) as (Hp1 & He1 & Ht1).
  destruct (gc_empty_spec _ Hi1) as (Hi2 & Hocc & Hk2). set (p2 := garbageCollectEmptyBuckets _) in *.
  assert (forall k, request_stage p2 k = seal_stage now <$> request_stage ps k) as Hs2 by (intros k; by rewrite (proj1 (Hk2 k)), Hs1).
  assert (same_requests ps p2) as Hr2 by (intros k; by rewrite (proj2 (Hk2 k)), Hr1).
  case_match; [|split; [done|]; split; [done|]; split; [done|]; split; [exact Hp1|]; split; [exact He1|]; split; [exact Ht1|done]].
  set (p3 := with_clocks p2 _ _ _). destruct (gc_processed_spec p3 now) as (Hi4 & Hk4); [by apply ps_inv_clocks|]. split; [done|].
  split; [intros k; rewrite (proj2 (Hk4 k)); exact (Hr2 k)|]. split; [exact Hocc|]. split; [exact Hp1|]. split; [exact He1|]. split; [exact Ht1|].
  intros k. rewrite (proj1 (Hk4 k)). exact (Hs2 k).
Qed.

Lemma update_params f ps ids : params (update_buckets f ps ids) = params ps /\ ps_lastEpochChange (update_buckets f ps ids) = ps_lastEpochChange ps /\ ps_lastTick (update_buckets f ps ids) = ps_lastTick ps.
Proof. done. Qed.

(** What a tick does to a running store. *)
Record ticked (ps : PendingStore) (now : Z) (ps' : PendingStore) (resent : list (reqID * bytes)) (complaint : bool) : Prop := {
  tk_inv : ps_inv ps';
  tk_requests : same_requests ps ps';
  tk_params : params ps' = params ps;
  tk_tick : ps_lastTick ps' = now;
  tk_quiet : (now - ps_lastEpochChange ps <= ps_Epoch ps)%Z ->
    ps_lastEpochChange ps' = ps_lastEpochChange ps /\ resent = [] /\ complaint = false /\ forall k, request_stage ps' k = request_stage ps k;
  tk_epoch : (ps_Epoch ps < now - ps_lastEpochChange ps)%Z ->
    ps_lastEpochChange ps' = now /\
    (forall k v, (k, v) ∈ resent <-> PLookup ps k = Some v /\ exists t, seal_stage now <$> request_stage ps k = Some (Sealed t) /\ (ps_FirstStrikeThreshold ps < now - t)%Z) /\
    (complaint = true <-> exists k s, request_stage ps k = Some s /\ due now (ps_SecondStrikeThreshold ps) (tick_stage ps now s) = true) /\
    (complaint = false -> forall k, request_stage ps' k = tick_stage ps now <$> request_stage ps k)
}.

Lemma tick_spec ps now ps' l c : ps_inv ps -> ps_stopped ps = false -> Pending_tick ps now = (ps', l, c) -> ticked ps now ps' l c.
Proof.
  intros Hi Hst E. unfold Pending_tick, changeEpochs in E.
  set (p0 := with_clocks ps now (ps_lastEpochChange ps) (ps_lastProcessedGC ps)) in *. assert (ps_inv p0) as Hi0 by by apply ps_inv_clocks.
  change (ps_stopped p0) with (ps_stopped ps) in E. rewrite Hst in E. change (ps_lastEpochChange p0) with (ps_lastEpochChange ps) in E. change (ps_Epoch p0) with (ps_Epoch ps) in E.
  destruct (Z.leb_spec (now - ps_lastEpochChange ps) (ps_Epoch ps)) as [Hq|Hq].
  - injection E as <- <- <-. split; [done|done|done|done|done|lia].
  - destruct (epoch_start_spec p0 now Hi0) as (Hi1 & Hr1 & Hocc & Hp1 & He1 & Ht1 & Hs1).
    assert (exists p2, checkFirstStrike (epoch_start p0 now) now = (p2, l) /\ checkSecondStrike p2 now = (ps', c)) as (p2 & E1 & E2).
    { change ((let r := checkFirstStrike (epoch_start p0 now) now in let r' := checkSecondStrike r.1 now in (r'.1, r.2, r'.2)) = (ps', l, c)) in E. cbv zeta in E. injection E as <- <- <-.
      eexists. split; [apply surjective_pairing|]. apply surjective_pairing. }
    destruct (checkFirstStrike_spec _ _ _ _ Hi1 E1) as (Hi2 & Hr2 & Ho2 & Hs2 & Hl2). destruct (checkSecondStrike_spec _ _ _ _ Hi2 (Ho2 Hocc) E2) as (Hi3 & Hr3 & Hc3 & Hk3).
    assert (p2 = (checkFirstStrike (epoch_start p0 now) now).1) as Ep2 by (by rewrite E1). cbn [checkFirstStrike fst] in Ep2.
    assert (params p2 = params ps /\ ps_lastEpochChange p2 = now /\ ps_lastTick p2 = now) as (Hp2 & He2 & Ht2) by (subst p2; done).
    assert (params ps' = params p2 /\ ps_lastEpochChange ps' = ps_lastEpochChange p2 /\ ps_lastTick ps' = ps_lastTick p2) as (Hp3 & He3 & Ht3).
    { unfold checkSecondStrike in E2. destruct (List.find _ _); by injection E2 as <- <-. }
    assert (ps_FirstStrikeThreshold (epoch_start p0 now) = ps_FirstStrikeThreshold ps) as Ef by (by injection Hp1).
    assert (ps_SecondStrikeThreshold p2 = ps_SecondStrikeThreshold ps) as Es by (by injection Hp2).
    assert (forall k, request_stage (epoch_start p0 now) k = seal_stage now <$> request_stage ps k) as Hs1' by exact Hs1.
    rewrite Ef in *. rewrite Es in *.
    assert (forall k, request_stage p2 k = tick_stage ps now <$> request_stage ps k) as Hs2' by (intros k; rewrite Hs2, Hs1', <-option_fmap_compose; done).
    split; [done|intros k; by rewrite Hr3, Hr2, Hr1|congruence|congruence|lia|]. intros _. split; [congruence|]. split; [|split].
    + intros k v. rewrite Hl2, Hr1, Hs1'. done.
    + rewrite Hc3. split; intros (k & s & Hs & Hd).
      * rewrite Hs2' in Hs. apply fmap_Some in Hs as (s0 & Hs0 & ->). by exists k, s0.
      * exists k, (tick_stage ps now s). by rewrite Hs2', Hs.
    + intros Hc k. by rewrite (Hk3 Hc), Hs2'.
Qed.

(** ** Runs *)
Context (RequestID : bytes -> reqID).
Inductive pending_op := OpSubmit (request : bytes) | OpRemove (ids : list reqID) | OpPrune (valid : bytes -> bool) | OpTick (now : Z).
(** One operation, and whether it raised a complaint. *)
Definition pending_step (ps : PendingStore) (op : pending_op) : PendingStore * bool :=
  match op with
  | OpSubmit request => ((Pending_Submit RequestID ps request).1, false)
  | OpRemove ids => ((Pending_RemoveRequests ps ids).1, false)
  | OpPrune valid => ((Pending_Prune ps valid).1, false)
  | OpTick now => let r := Pending_tick ps now in (r.1.1, r.2)
  end.
Fixpoint pending_run (ps : PendingStore) (ops : list pending_op) : PendingStore * bool :=
  match ops with
  | [] => (ps, false)
  | op :: ops => let r := pending_step ps op in let r' := pending_run r.1 ops in (r'.1, r.2 || r'.2)
  end.

(** An operation that leaves a request in the store. *)
Definition spares (k : reqID) (request : bytes) (op : pending_op) : Prop :=
  match op with OpRemove ids => k ∉ ids | OpPrune valid => valid request = true | _ => True end.
(** Ticks that are at most [gap] apart, the first one after [prev]. *)
Fixpoint ticks_within (gap prev : Z) (ops : list pending_op) : Prop :=
  match ops with
  | [] => True
  | OpTick now :: ops => (now <= prev + gap)%Z /\ ticks_within gap now ops
  | _ :: ops => ticks_within gap prev ops
  end.

(** An operation other than a tick keeps the stage of a request it spares. *)
Lemma op_spares ps op k request : ps_inv ps -> (N.of_nat (size (held ps)) < u32_max)%N -> PLookup ps k = Some request -> spares k request op ->
  match op with OpTick _ => True | _ =>
    let ps' := (pending_step ps op).1 in
    ps_inv ps' /\ same_frame ps ps' /\ size (held ps') <= S (size (held ps)) /\ PLookup ps' k = Some request /\ request_stage ps' k = request_stage ps k end.
Proof.
  intros Hi Hsz Hk Hsp. assert (same_frame ps ps) as Hrefl by by destruct ps. destruct op as [r|ids|valid|now]; [| | |done]; cbn zeta; cbn [pending_step fst] in *.
  - unfold Pending_Submit. destruct (ps_closed ps); [split; [done|]; split; [done|]; split; [cbn; lia|]; by split|].
    destruct (tryInsert ps (RequestID r) r) as [ps' o] eqn:E. pose proof (tryInsert_spec ps _ r ps' o Hi Hsz E) as Hs. cbn [fst].
    destruct (ps_reqID2Bucket ps !! RequestID r) eqn:Ek; [destruct Hs as [-> _]; split; [done|]; split; [done|]; split; [lia|]; by split|].
    destruct Hs as (_ & Hi' & Hh & Eidx & HP & Hf & b & Hb & Eh). split; [done|]. split; [done|]. split; [lia|].
    assert (k <> RequestID r) as Hne by (intros ->; unfold PLookup in Hk; by rewrite Ek in Hk). split; [by rewrite HP, decide_False|].
    unfold request_stage. rewrite Eidx, lookup_insert_ne by done. destruct (ps_reqID2Bucket ps !! k) as [[i|]|]; [|done..]. unfold bucket_at. rewrite Eh.
    destruct (decide (i = ps_currentBucket ps)) as [->|]; [rewrite lookup_insert_eq, Hb; done|by rewrite lookup_insert_ne].
  - unfold Pending_RemoveRequests. destruct (ps_closed ps); [split; [done|]; split; [done|]; split; [cbn; lia|]; by split|].
    destruct (remove_all ps (ps_lastTick ps) ids) as [ps' n] eqn:E. destruct (remove_all_spec _ _ _ _ _ Hi E) as (Hi' & Hf & Hh & HP). cbn [fst].
    destruct (HP k) as [P S]. split; [done|]. split; [done|]. split; [lia|]. rewrite P, decide_False by done. split; [done|by apply S].
  - destruct (Pending_Prune ps valid) as [ps' n] eqn:E. destruct (Pending_Prune_spec _ _ _ _ Hi E) as (Hi' & Hf & Hh & HP). cbn [fst].
    destruct (HP k) as [P S]. assert (invalid ps valid k = false) as Hv by (unfold invalid; by rewrite Hk, Hsp). rewrite Hv in P. split; [done|]. split; [done|]. split; [lia|].
    split; [congruence|by apply S].
Qed.

(** How late a request can be in its stage while no complaint was raised, the epoch having changed last at [e0] before it was submitted. *)
Definition on_time (gap e0 : Z) (ps : PendingStore) (s : stage) : Prop :=
  (ps_lastTick ps - ps_lastEpochChange ps <= ps_Epoch ps)%Z /\
  match s with
  | Waiting => (ps_lastEpochChange ps <= e0)%Z
  | Sealed t => (ps_lastEpochChange ps - t <= ps_FirstStrikeThreshold ps)%Z /\ (t <= e0 + ps_Epoch ps + gap)%Z
  | Struck t => (ps_lastEpochChange ps - t <= ps_SecondStrikeThreshold ps)%Z /\ (t <= e0 + 2 * ps_Epoch ps + ps_FirstStrikeThreshold ps + 2 * gap)%Z
  end.
Definition thresholds_ok (ps : PendingStore) : Prop := (0 <= ps_Epoch ps)%Z /\ (0 <= ps_FirstStrikeThreshold ps)%Z /\ (0 <= ps_SecondStrikeThreshold ps)%Z.
Definition detection_time (gap : Z) (ps : PendingStore) : Z :=
  (3 * ps_Epoch ps + ps_FirstStrikeThreshold ps + ps_SecondStrikeThreshold ps + 2 * gap)%Z.

Lemma on_time_tick gap e0 ps now ps' l k s : ps_inv ps -> ps_stopped ps = false -> thresholds_ok ps -> (0 <= gap)%Z -> (now <= ps_lastTick ps + gap)%Z ->
  request_stage ps k = Some s -> on_time gap e0 ps s -> Pending_tick ps now = (ps', l, false) -> exists s', request_stage ps' k = Some s' /\ on_time gap e0 ps' s'.
Proof.
  intros Hi Hst (Hep & Hfi & Hse) Hgap Hnow Hs (Hlast & Hstage) E. destruct (tick_spec _ _ _ _ _ Hi Hst E) as [_ _ Hpar Htick Hquiet Hepoch].
  assert (ps_FirstStrikeThreshold ps' = ps_FirstStrikeThreshold ps /\ ps_SecondStrikeThreshold ps' = ps_SecondStrikeThreshold ps /\ ps_Epoch ps' = ps_Epoch ps) as (E1 & E2 & E3) by (by injection Hpar).
  unfold on_time. rewrite E1, E2, E3, Htick.
  destruct (Z.le_gt_cases (now - ps_lastEpochChange ps) (ps_Epoch ps)) as [Hq|Hq].
  - destruct (Hquiet Hq) as (Ee & _ & _ & Hk). exists s. rewrite Hk, Ee. split; [done|]. split; [done|]. exact Hstage.
  - destruct (Hepoch ltac:(lia)) as (Ee & _ & Hc & Hk). exists (tick_stage ps now s). rewrite (Hk eq_refl), Hs, Ee. split; [done|]. split; [lia|].
    assert (due now (ps_SecondStrikeThreshold ps) (tick_stage ps now s) = false) as Hdue by (apply not_true_iff_false; intros Hd; assert (false = true) by (apply Hc; by exists k, s); done).
    unfold tick_stage in *. destruct s as [|t|t]; cbn [seal_stage strike_stage] in *.
    + destruct (Z.ltb_spec (ps_FirstStrikeThreshold ps) (now - now)); lia.
    + destruct (Z.ltb_spec (ps_FirstStrikeThreshold ps) (now - t)); lia.
    + cbn [due] in Hdue. apply Z.ltb_ge in Hdue. lia.
Qed.

Lemma run_on_time gap e0 k request ops : forall ps s, ps_inv ps -> ps_stopped ps = false -> thresholds_ok ps -> (0 <= gap)%Z ->
  (N.of_nat (size (held ps) + length ops) <= u32_max)%N -> PLookup ps k = Some request -> Forall (spares k request) ops -> ticks_within gap (ps_lastTick ps) ops ->
  request_stage ps k = Some s -> on_time gap e0 ps s -> (pending_run ps ops).2 = false ->
  let ps' := (pending_run ps ops).1 in PLookup ps' k = Some request /\ params ps' = params ps /\ exists s', request_stage ps' k = Some s' /\ on_time gap e0 ps' s'.
Proof.
  induction ops as [|op ops IH]; intros ps s Hi Hst Hth Hgap Hsz Hk Hsp Htk Hs Hon Hc; cbn zeta; [cbn; split; [done|]; split; [done|]; by exists s|].
  apply Forall_cons in Hsp as [Hop Hsp]. cbn [pending_run] in *. cbn zeta in Hc |- *. cbn [fst snd] in Hc |- *. apply orb_false_iff in Hc as [Hc1 Hc2]. cbn [length] in Hsz.
  assert (forall p1 s1, ps_inv p1 -> params p1 = params ps -> size (held p1) <= S (size (held ps)) -> PLookup p1 k = Some request -> ticks_within gap (ps_lastTick p1) ops ->
    request_stage p1 k = Some s1 -> on_time gap e0 p1 s1 -> (pending_step ps op).1 = p1 ->
    PLookup (pending_run p1 ops).1 k = Some request /\ params (pending_run p1 ops).1 = params ps /\ exists s', request_stage (pending_run p1 ops).1 k = Some s' /\ on_time gap e0 (pending_run p1 ops).1 s') as Hgo.
  { intros p1 s1 Hi1 Hp1 Hh1 Hk1 Ht1 Hs1 Ho1 E1. rewrite E1 in Hc2. injection Hp1 as A1 A2 A3 A4 A5.
    destruct (IH p1 s1) as (B1 & B2 & B3); [done|congruence|unfold thresholds_ok in *; by rewrite A1, A2, A3|done|lia|done..|]. split; [done|]. split; [|done].
    rewrite B2. unfold params. congruence. }
  pose proof (op_spares ps op k request Hi ltac:(lia) Hk Hop) as Hother. destruct op as [r|ids|valid|now].
  4:{ destruct (Pending_tick ps now) as [[p1 l] c] eqn:E. cbn [pending_step fst snd] in *. rewrite E in Hc1, Hgo |- *. cbn [fst snd] in *. subst c. destruct Htk as [Hnow Htk].
    destruct (tick_spec _ _ _ _ _ Hi Hst E) as [Hi1 Hr1 Hp1 Ht1 _ _]. destruct (on_time_tick gap e0 ps now p1 l k s Hi Hst Hth Hgap Hnow Hs Hon E) as (s1 & Hs1 & Ho1).
    apply (Hgo p1 s1); [done|done| |by rewrite Hr1|by rewrite Ht1|done..]. rewrite <-!size_dom. apply Nat.le_le_succ_r, subseteq_size.
    intros x. rewrite !elem_of_dom, <-!PLookup_held by done. by rewrite Hr1. }
  all: cbn zeta in Hother; destruct Hother as (Hi1 & Hf1 & Hh1 & Hk1 & Hs1); apply (Hgo _ s); [done|by rewrite Hf1|done|done|by rewrite Hf1|congruence|rewrite Hf1; exact Hon|done].
Qed.

(** C17: The pending store detects a primary that ignores a request: once a request is in the current bucket of a running
    store and nothing takes it out, whatever is submitted, removed or pruned besides, a complaint is raised before more than three epochs, both thresholds and
    twice the longest gap between ticks have passed since the last change of epoch. *)
Theorem ignored_request_detected ps k request gap ops :
  ps_inv ps -> ps_stopped ps = false -> thresholds_ok ps -> (0 <= gap)%Z -> (ps_lastTick ps - ps_lastEpochChange ps <= ps_Epoch ps)%Z ->
  PLookup ps k = Some request -> request_stage ps k = Some Waiting -> Forall (spares k request) ops -> ticks_within gap (ps_lastTick ps) ops ->
  (N.of_nat (size (held ps) + length ops) <= u32_max)%N ->
  (ps_lastEpochChange ps + detection_time gap ps < ps_lastTick (pending_run ps ops).1)%Z -> (pending_run ps ops).2 = true.
Proof.
  intros Hi Hst Hth Hgap Hlast Hk Hs Hsp Htk Hsz Hlate. apply not_false_iff_true. intros Hc.
  destruct (run_on_time gap (ps_lastEpochChange ps) k request ops ps Waiting) as (_ & Hp & s' & Hs' & Ho); [done..|by split|done|].
  assert (ps_FirstStrikeThreshold (pending_run ps ops).1 = ps_FirstStrikeThreshold ps /\ ps_SecondStrikeThreshold (pending_run ps ops).1 = ps_SecondStrikeThreshold ps /\ ps_Epoch (pending_run ps ops).1 = ps_Epoch ps) as (E1 & E2 & E3) by (by injection Hp).
  destruct Hth as (H1 & H2 & H3). unfold detection_time, on_time in *. rewrite E1, E2, E3 in Ho. destruct Ho as [Ho1 Ho2]. destruct s' as [|t|t]; lia.
Qed.

(** A tick of a running store keeps every request; within an epoch it does nothing else. A tick that ends the epoch seals
    the current bucket, resends exactly the requests whose bucket was sealed for longer than the first threshold, and raises a complaint exactly if some request of the store was struck
    for longer than the second one. *)
Theorem strikes_exact ps now ps' resent complaint :
  ps_inv ps -> ps_stopped ps = false -> Pending_tick ps now = (ps', resent, complaint) -> ticked ps now ps' resent complaint.
Proof. apply tick_spec. Qed.
End Ticks.

(** ** A request that is ignored *)
Definition censored_store : PendingStore := (Pending_Submit (fun r => r) (Pending_Init 100 400 10 10 2 0) [Byte.x01]).1.
Definition every_second : list pending_op := OpTick <$> [1; 4; 7; 10; 13; 16; 19; 22; 25; 28; 31; 34]%Z.

Lemma censored_inv : ps_inv censored_store.
Proof.
  assert (tryInsert (Pending_Init 100 400 10 10 2 0) [Byte.x01] [Byte.x01] = (censored_store, Ok tt)) as E by reflexivity.
  apply tryInsert_spec in E; [|apply ps_inv_init|vm_compute; done]. apply E.
Qed.

Lemma ignored_request_detected_witness : (pending_run (R := range_canonical) (fun r => r) censored_store every_second).2 = true.
Proof.
  apply (ignored_request_detected (R := range_canonical) (fun r => r) censored_store [Byte.x01] [Byte.x01] 3);
    [apply censored_inv|reflexivity|vm_compute; repeat split; done|lia|vm_compute; done|reflexivity|reflexivity|repeat constructor|vm_compute; repeat split; done|vm_compute; done|vm_compute; reflexivity].
Defined.

Definition third_tick : PendingStore := (pending_run (R := range_canonical) (fun r => r) censored_store [OpTick 1; OpTick 4]).1.
Lemma third_inv : ps_inv third_tick.
Proof.
  assert (exists l c, Pending_tick (R := range_canonical) (Pending_tick (R := range_canonical) censored_store 1).1.1 4 = (third_tick, l, c)) as (l & c & E2) by (eexists _, _; vm_compute; reflexivity).
  apply tick_spec in E2; [apply E2| |vm_compute; reflexivity].
  destruct (Pending_tick (R := range_canonical) censored_store 1) as [[p1 l1] c1] eqn:E1. apply tick_spec in E1; [apply E1|apply censored_inv|vm_compute; reflexivity].
Qed.

Lemma strikes_exact_witness : ticked third_tick 15 (Pending_tick (R := range_canonical) third_tick 15).1.1 [([Byte.x01], [Byte.x01])] false.
Proof. apply (strikes_exact (R := range_canonical)); [apply third_inv|vm_compute; reflexivity|vm_compute; reflexivity]. Defined.
