(* ===== verification/Pool.v ===== *)
(** * The request pool

    [src/request/pool.go] over the batch store of a primary and the pending store of a secondary, with the weighted
    semaphore of [src/vendor/golang.org/x/sync/semaphore] that bounds it. Operations are atomic: those that read the
    pool hold its read lock until they return, those that replace its stores hold the write lock, and the wait of Submit for a
    permit is placed before its step. NextRequests is the step at which Fetch returns; that it holds the read lock while Fetch
    waits is in the calls of [PoolThms]. Insert runs with fuel; [None] is that Submit or Restart does not return. *)
From stdpp Require Import gmap sets.
From Stdlib Require Import NArith ZArith Lia.
From S2P Require Import Prelude Types BatchStore PendingStore PendingThms.

(** ** The semaphore *)
Record Weighted := mkWeighted { sem_size : Z; sem_cur : Z }.
Definition to_int64 (n : N) : Z := if (n <? 9223372036854775808)%N then Z.of_N n else (Z.of_N n - 18446744073709551616)%Z.
Definition NewWeighted (n : Z) : Weighted := mkWeighted n 0.
(** Acquire with nobody waiting before; [None] is that the context was done first. *)
Definition Acquire (s : Weighted) (n : Z) : option Weighted := if (n <=? sem_size s - sem_cur s)%Z then Some (mkWeighted (sem_size s) (sem_cur s + n)) else None.
Definition Release (s : Weighted) (n : Z) : outcome Weighted :=
  if (n <? 0)%Z then Panic "semaphore: n < 0"
  else if (sem_cur s - n <? 0)%Z then Panic "semaphore: released more than held"
  else Ok (mkWeighted (sem_size s) (sem_cur s - n)).

(** ** The pool *)
Record PoolOptions := mkPoolOptions {
  po_MaxSize : N; po_BatchMaxSize : N; po_BatchMaxSizeBytes : N; po_RequestMaxBytes : N;
  po_FirstStrikeThreshold : Z; po_SecondStrikeThreshold : Z; po_AutoRemoveTimeout : Z }.

Record Pool := mkPool {
  rp_options : PoolOptions;
  rp_pending : option PendingStore;
  rp_batchStore : option BatchStore;
  rp_semaphore : Weighted;
  rp_closed : bool;
  rp_stopped : bool;
  rp_batchingEnabled : bool;
  rp_size : Z
}.

Definition with_stores (rp : Pool) (pending : option PendingStore) (store : option BatchStore) : Pool :=
  mkPool (rp_options rp) pending store (rp_semaphore rp) (rp_closed rp) (rp_stopped rp) (rp_batchingEnabled rp) (rp_size rp).
Definition with_permits (rp : Pool) (sem : Weighted) (size : Z) : Pool :=
  mkPool (rp_options rp) (rp_pending rp) (rp_batchStore rp) sem (rp_closed rp) (rp_stopped rp) (rp_batchingEnabled rp) size.
Definition with_mode (rp : Pool) (closed stopped batching : bool) : Pool :=
  mkPool (rp_options rp) (rp_pending rp) (rp_batchStore rp) (rp_semaphore rp) closed stopped batching (rp_size rp).

Definition second : Z := 1000000000.
Definition createPendingStore (o : PoolOptions) (now : Z) : PendingStore :=
  Pending_Init (Z.quot (po_AutoRemoveTimeout o) 4) (po_AutoRemoveTimeout o) (po_FirstStrikeThreshold o) (po_SecondStrikeThreshold o) second now.
Definition createBatchStore (o : PoolOptions) : BatchStore := NewBatchStore (po_BatchMaxSize o) (po_BatchMaxSizeBytes o).
Definition NewPool (o : PoolOptions) (now : Z) : Pool :=
  mkPool o (Some (createPendingStore o now)) (Some (createBatchStore o)) (NewWeighted (to_int64 (po_MaxSize o))) false false false 0.

Definition nil_dereference : string := "runtime error: invalid memory address or nil pointer dereference".

Section Pool.
Context {R : MapRange} (RequestID : bytes -> reqID).

(** A permit given back, when the rest went well. *)
Definition release_one (rp : Pool) (r : outcome unit) : Pool * outcome unit :=
  match Release (rp_semaphore rp) 1 with
  | Ok sem => (with_permits rp sem (rp_size rp), r)
  | Err e => (rp, Err e)
  | Panic m => (rp, Panic m)
  end.
(** The callback OnDelete, called a number of times. *)
Fixpoint on_delete (n : nat) (rp : Pool) : Pool * outcome unit :=
  match n with
  | 0 => (rp, Ok tt)
  | S n =>
      match Release (rp_semaphore rp) 1 with
      | Ok sem => on_delete n (with_permits rp sem (rp_size rp - 1))
      | Err e => (rp, Err e)
      | Panic m => (rp, Panic m)
      end
  end.

(** ** Submit *)
Definition submitToPendingStore (rp : Pool) (request : bytes) : Pool * outcome unit :=
  match rp_pending rp with
  | None => (rp, Panic nil_dereference)
  | Some ps =>
      let r := Pending_Submit RequestID ps request in
      let rp := with_stores rp (Some r.1) (rp_batchStore rp) in
      match r.2 with
      | Ok _ => (with_permits rp (rp_semaphore rp) (rp_size rp + 1), Ok tt)
      | Err e => release_one rp (Err e)
      | Panic m => (rp, Panic m)
      end
  end.

Definition submitToBatchStore (fuel : nat) (rp : Pool) (reqID : reqID) (request : bytes) : option (Pool * outcome unit) :=
  match rp_batchStore rp with
  | None => Some (rp, Panic nil_dereference)
  | Some bs =>
      match Insert fuel bs reqID request (u32 (N.of_nat (length request))) with
      | None => None
      | Some (bs, inserted) =>
          let rp := with_stores rp (rp_pending rp) (Some bs) in
          Some (if inserted then (with_permits rp (rp_semaphore rp) (rp_size rp + 1), Ok tt) else release_one rp (Err "already inserted"))
      end
  end.

Definition Pool_Submit (fuel : nat) (rp : Pool) (request : bytes) : option (Pool * outcome unit) :=
  if rp_closed rp || rp_stopped rp then Some (rp, Err "pool halted or closed, request rejected")
  else if (po_RequestMaxBytes (rp_options rp) <? u64 (N.of_nat (length request)))%N then Some (rp, Err "submitted request is bigger than request max bytes")
  else
    match Acquire (rp_semaphore rp) 1 with
    | None => Some (rp, Err "timed out enqueuing request to pool")
    | Some sem =>
        let rp := with_permits rp sem (rp_size rp) in
        if rp_batchingEnabled rp then submitToBatchStore fuel rp (RequestID request) request else Some (submitToPendingStore rp request)
    end.

(** ** Reading and removing *)
Definition NextRequests (rp : Pool) : Pool * outcome (list bytes * list reqID) :=
  if rp_closed rp || rp_stopped rp then (rp, Ok ([], []))
  else if negb (rp_batchingEnabled rp) then (rp, Ok ([], []))
  else
    match rp_batchStore rp with
    | None => (rp, Panic nil_dereference)
    | Some bs => let r := Fetch bs in (with_stores rp (rp_pending rp) (Some r.1), Ok (r.2.*2, r.2.*1))
    end.

Definition Pool_RemoveRequests (rp : Pool) (requestIDs : list reqID) : Pool * outcome unit :=
  if rp_closed rp then (rp, Ok tt)
  else if negb (rp_batchingEnabled rp) then
    match rp_pending rp with
    | None => (rp, Panic nil_dereference)
    | Some ps => let r := Pending_RemoveRequests ps requestIDs in on_delete r.2 (with_stores rp (Some r.1) (rp_batchStore rp))
    end
  else
    match rp_batchStore rp with
    | None => (rp, Panic nil_dereference)
    | Some bs => let r := RemoveAll bs requestIDs in on_delete r.2 (with_stores rp (rp_pending rp) (Some r.1))
    end.

Definition Pool_Contains (rp : Pool) (reqID : reqID) : outcome bool :=
  if rp_closed rp || rp_stopped rp then Ok false
  else if rp_batchingEnabled rp then Ok false
  else match rp_pending rp with None => Panic nil_dereference | Some ps => Ok (Pending_Contains ps reqID) end.

Definition RequestCount (rp : Pool) : Z := rp_size rp.

Definition Pool_Prune (rp : Pool) (valid : bytes -> bool) : Pool * outcome unit :=
  if rp_closed rp then (rp, Ok tt)
  else if rp_batchingEnabled rp then
    match rp_batchStore rp with
    | None => (rp, Panic nil_dereference)
    | Some bs => let r := Store_Prune bs valid in on_delete r.2 (with_stores rp (rp_pending rp) (Some r.1))
    end
  else
    match rp_pending rp with
    | None => (rp, Panic nil_dereference)
    | Some ps => let r := Pending_Prune ps valid in on_delete r.2 (with_stores rp (Some r.1) (rp_batchStore rp))
    end.

(** A tick of the goroutine of the pending store: the requests to send to the primary, and whether to complain about it. *)
Definition Pool_tick (rp : Pool) (now : Z) : Pool * (list (reqID * bytes) * bool) :=
  match rp_pending rp with
  | None => (rp, ([], false))
  | Some ps => let r := Pending_tick ps now in (with_stores rp (Some r.1.1) (rp_batchStore rp), (r.1.2, r.2))
  end.

(** ** Close, Halt and Restart *)
Definition Pool_Close (rp : Pool) : Pool :=
  mkPool (rp_options rp) None None (rp_semaphore rp) true (rp_stopped rp) (rp_batchingEnabled rp) 0.

Definition Pool_Halt (rp : Pool) : Pool * outcome unit :=
  let rp := with_mode rp (rp_closed rp) true (rp_batchingEnabled rp) in
  if negb (rp_batchingEnabled rp) then
    match rp_pending rp with
    | None => (rp, Panic nil_dereference)
    | Some ps => (with_stores rp (Some (Pending_Stop ps)) (rp_batchStore rp), Ok tt)
    end
  else (rp, Ok tt).

(** The loop of moveToPendingStore: an error is logged, a panic ends it. *)
Fixpoint resubmit_pending (rp : Pool) (requests : list bytes) : Pool * outcome unit :=
  match requests with
  | [] => (rp, Ok tt)
  | req :: rest => match submitToPendingStore rp req with (rp, Panic m) => (rp, Panic m) | (rp, _) => resubmit_pending rp rest end
  end.
Definition moveToPendingStore (rp : Pool) (now : Z) : Pool * outcome unit :=
  match rp_batchStore rp with
  | None => (rp, Panic nil_dereference)
  | Some bs =>
      let requests := (ForEach bs).*2 in
      let dropped := (rp_size rp - Z.of_nat (length requests))%Z in
      match (if (0 <? dropped)%Z then Release (rp_semaphore rp) dropped else Ok (rp_semaphore rp)) with
      | Ok sem =>
          let rp := with_stores (with_permits rp sem 0) (Some (createPendingStore (rp_options rp) now)) (rp_batchStore rp) in
          match resubmit_pending rp requests with
          | (rp, Ok _) => (with_stores rp (rp_pending rp) None, Ok tt)
          | r => r
          end
      | Err e => (rp, Err e)
      | Panic m => (rp, Panic m)
      end
  end.

(** The loop of moveToBatchStore, which ends at the first error. *)
Fixpoint resubmit_batch (fuel : nat) (rp : Pool) (requests : list bytes) : option (Pool * outcome unit) :=
  match requests with
  | [] => Some (rp, Ok tt)
  | req :: rest =>
      match submitToBatchStore fuel rp (RequestID req) req with
      | Some (rp, Ok _) => resubmit_batch fuel rp rest
      | r => r
      end
  end.
Definition moveToBatchStore (fuel : nat) (rp : Pool) : option (Pool * outcome unit) :=
  match rp_pending rp with
  | None => Some (rp, Panic nil_dereference)
  | Some ps =>
      let ps := Pending_Close ps in
      let requests := GetAllRequests ps in
      match resubmit_batch fuel (with_stores rp (Some ps) (Some (createBatchStore (rp_options rp)))) requests with
      | Some (rp, Ok _) => Some (with_permits (with_stores rp None (rp_batchStore rp)) (rp_semaphore rp) (Z.of_nat (length requests)), Ok tt)
      | Some (rp, Err _) => Some (rp, Ok tt)
      | r => r
      end
  end.

(** The deferred reset of the stopped flag. *)
Definition restarted (r : Pool * outcome unit) : Pool * outcome unit := (with_mode r.1 (rp_closed r.1) false (rp_batchingEnabled r.1), r.2).
Definition Pool_Restart (fuel : nat) (rp : Pool) (batching : bool) (now : Z) : option (Pool * outcome unit) :=
  if rp_closed rp then Some (restarted (rp, Ok tt)) else
  match Pool_Halt rp with
  | (rp, Ok _) =>
      let was := rp_batchingEnabled rp in
      if was && batching then Some (restarted (rp, Ok tt))
      else if negb was && negb batching then
        match rp_pending rp with
        | None => Some (restarted (rp, Panic nil_dereference))
        | Some ps => Some (restarted (with_stores rp (Some (ResetTimestamps ps)) (rp_batchStore rp), Ok tt))
        end
      else
        let rp := with_mode rp (rp_closed rp) (rp_stopped rp) batching in
        if was then Some (restarted (moveToPendingStore rp now)) else restarted <$> moveToBatchStore fuel rp
  | r => Some (restarted r)
  end.
End Pool.
