(* ===== verification/PoolThms.v ===== *)
(** * What the pool promises

    The permits of the semaphore, the request count and the stored requests agree in every reachable state of the pool of
    [src/request/pool.go], no call of callers that follow its rules panics or fails to return, batches respect their limits, and a change of the
    role keeps the requests that wait. *)
From stdpp Require Import gmap sets.
From Stdlib Require Import NArith ZArith Lia.
From S2P Require Import Prelude Types BatchStore PendingStore PendingThms Pool Batcher.

Section PoolThms.
Context {R : MapRange} (RequestID : bytes -> reqID).

(** The limits a pool should be configured with: a request fits a batch, and the counters of 32 bits hold a full batch with one request more. Neither the pool
    nor the rules of configurations enforce them; where a request of a legal size does not fit a batch, Submit does not return ([oversize_submit_hangs]). *)
Record options_ok (o : PoolOptions) : Prop := {
  oo_batch : (0 < po_BatchMaxSize o < u32_max)%N;
  oo_fits : (po_RequestMaxBytes o <= po_BatchMaxSizeBytes o)%N;
  oo_bytes : (po_BatchMaxSizeBytes o + po_RequestMaxBytes o <= u32_max)%N;
  oo_size : (po_MaxSize o <= u32_max)%N
}.

(** The request the pool stores under an identifier, and whether it refuses the identifier. *)
Definition stored (rp : Pool) (k : reqID) : option bytes :=
  if rp_batchingEnabled rp then bs ← rp_batchStore rp; Lookup bs k else ps ← rp_pending rp; PLookup ps k.
Definition known (rp : Pool) (k : reqID) : bool :=
  if rp_batchingEnabled rp then match rp_batchStore rp with Some bs => bool_decide (is_Some (bs_keys2Batches bs !! k)) | None => false end
  else match rp_pending rp with Some ps => bool_decide (is_Some (ps_reqID2Bucket ps !! k)) | None => false end.

Definition entries_ok (o : PoolOptions) (get : reqID -> option bytes) : Prop :=
  forall k r, get k = Some r -> RequestID r = k /\ (N.of_nat (length r) <= po_RequestMaxBytes o)%N.
Definition batching_ok (o : PoolOptions) (count : Z) (bs : BatchStore) : Prop :=
  bs_inv bs /\ bs_batchMaxSize bs = po_BatchMaxSize o /\ bs_batchMaxSizeBytes bs = po_BatchMaxSizeBytes o /\
  Z.of_nat (size (bs_keys2Batches bs)) = count /\ entries_ok o (Lookup bs).
Definition pending_ok (o : PoolOptions) (count : Z) (stopped : bool) (ps : PendingStore) : Prop :=
  ps_inv ps /\ ps_closed ps = false /\ ps_stopped ps = stopped /\ Z.of_nat (size (held ps)) = count /\ entries_ok o (PLookup ps).

Record pool_inv (rp : Pool) : Prop := {
  pv_options : options_ok (rp_options rp);
  pv_size : sem_size (rp_semaphore rp) = Z.of_N (po_MaxSize (rp_options rp)) /\ (0 <= rp_size rp <= Z.of_N (po_MaxSize (rp_options rp)))%Z;
  pv_permits : rp_closed rp = false -> sem_cur (rp_semaphore rp) = rp_size rp;
  pv_batch : rp_closed rp = false -> rp_batchingEnabled rp = true -> exists bs, rp_batchStore rp = Some bs /\ batching_ok (rp_options rp) (rp_size rp) bs;
  pv_pending : rp_closed rp = false -> rp_batchingEnabled rp = false -> exists ps, rp_pending rp = Some ps /\ pending_ok (rp_options rp) (rp_size rp) (rp_stopped rp) ps;
  pv_closed : rp_closed rp = true -> rp_pending rp = None /\ rp_batchStore rp = None /\ rp_size rp = 0%Z
}.

Lemma pool_inv_new o now : options_ok o -> pool_inv (NewPool o now).
Proof.
  intros Ho. pose proof (oo_size _ Ho) as Hm. unfold u32_max in Hm. split; cbn [NewPool rp_options rp_semaphore rp_closed rp_batchingEnabled rp_pending rp_size NewWeighted sem_size sem_cur]; try done.
  - unfold to_int64. rewrite (proj2 (N.ltb_lt _ _)) by lia. lia.
  - intros _ _. eexists. split; [done|]. split; [apply ps_inv_init|]. split; [done|]. split; [done|]. split; [done|]. intros k r. unfold PLookup. cbn. by rewrite lookup_empty.
Qed.

(** ** Permits *)
Lemma release_ok s n : (0 <= n <= sem_cur s)%Z -> Release s n = Ok (mkWeighted (sem_size s) (sem_cur s - n)).
Proof. intros Hn. unfold Release. rewrite (proj2 (Z.ltb_ge n 0)), (proj2 (Z.ltb_ge (sem_cur s - n) 0)) by lia. done. Qed.

Lemma on_delete_spec n : forall rp, (Z.of_nat n <= sem_cur (rp_semaphore rp))%Z ->
  on_delete n rp = (with_permits rp (mkWeighted (sem_size (rp_semaphore rp)) (sem_cur (rp_semaphore rp) - Z.of_nat n)) (rp_size rp - Z.of_nat n), Ok tt).
Proof.
  induction n as [|n IH]; intros rp Hn; cbn [on_delete].
  - rewrite !Z.sub_0_r. destruct rp as [? ? ? [] ? ? ? ?]. done.
  - rewrite release_ok by lia. rewrite IH by (cbn; lia). cbn [with_permits rp_semaphore sem_size sem_cur rp_size].
    f_equal. unfold with_permits. cbn. f_equal; [f_equal|]; lia.
Qed.

Lemma release_one_acquired rp sem o : Acquire (rp_semaphore rp) 1 = Some sem -> (0 <= sem_cur (rp_semaphore rp))%Z ->
  forall rp', rp_semaphore rp' = sem -> release_one rp' o = (with_permits rp' (rp_semaphore rp) (rp_size rp'), o).
Proof.
  intros Ha Hc rp' Es. unfold Acquire in Ha. destruct (_ <=? _)%Z; [|done]. injection Ha as <-. unfold release_one. rewrite Es, release_ok by (cbn; lia). cbn.
  do 2 f_equal. destruct (rp_semaphore rp). cbn. f_equal. lia.
Qed.

(** ** The steps of the stores *)
Lemma request_limits o bs (r : bytes) : options_ok o -> bs_batchMaxSize bs = po_BatchMaxSize o -> bs_batchMaxSizeBytes bs = po_BatchMaxSizeBytes o ->
  (N.of_nat (length r) <= po_RequestMaxBytes o)%N -> u32 (N.of_nat (length r)) = N.of_nat (length r) /\ limits_ok bs (N.of_nat (length r)).
Proof.
  intros [H1 H2 H3 _] E1 E2 Hr. unfold limits_ok, u32, u32_max in *. rewrite E1, E2. split; [apply N.mod_small; lia|]. repeat split; lia.
Qed.

(** Insertion into the batch store of a pool. *)
Lemma insert_ok fuel o n bs (r : bytes) : options_ok o -> batching_ok o n bs -> 2 <= fuel -> (N.of_nat (length r) <= po_RequestMaxBytes o)%N ->
  exists bs', Insert fuel bs (RequestID r) r (u32 (N.of_nat (length r))) = Some (bs', bool_decide (bs_keys2Batches bs !! RequestID r = None)) /\
    batching_ok o (n + if bool_decide (bs_keys2Batches bs !! RequestID r = None) then 1 else 0) bs' /\
    (forall k, Lookup bs' k = if bool_decide (bs_keys2Batches bs !! RequestID r = None) then if decide (k = RequestID r) then Some r else Lookup bs k else Lookup bs k).
Proof.
  intros Ho (Hi & E1 & E2 & Hn & He) Hf Hr. destruct (request_limits o bs r Ho E1 E2 Hr) as [Eu Hlim]. rewrite Eu.
  destruct (Insert_spec fuel bs (RequestID r) r _ Hi Hlim eq_refl Hf) as (bs' & ins & Ei & Hi' & F1 & F2 & -> & [i Hk] & Hl). exists bs'. split; [done|]. split; [|done].
  split; [done|]. split; [congruence|]. split; [congruence|]. split.
  - rewrite Hk. case_bool_decide as Hb; [rewrite map_size_insert_None by done; lia|lia].
  - intros k x Hx. rewrite Hl in Hx. case_bool_decide; [|by apply He]. case_decide as Hk'; [|by apply He]. injection Hx as <-. subst k. done.
Qed.

(** Submission to the pending store of a pool. *)
Lemma submit_ok o n stopped ps (r : bytes) : options_ok o -> pending_ok o n stopped ps -> (n < Z.of_N (po_MaxSize o))%Z -> (N.of_nat (length r) <= po_RequestMaxBytes o)%N ->
  exists ps', Pending_Submit RequestID ps r = (ps', if bool_decide (is_Some (ps_reqID2Bucket ps !! RequestID r)) then Err "already inserted" else Ok tt) /\
    pending_ok o (n + if bool_decide (is_Some (ps_reqID2Bucket ps !! RequestID r)) then 0 else 1) stopped ps' /\
    (forall k, PLookup ps' k = if bool_decide (is_Some (ps_reqID2Bucket ps !! RequestID r)) then PLookup ps k else if decide (k = RequestID r) then Some r else PLookup ps k) /\
    (forall k, is_Some (ps_reqID2Bucket ps' !! k) <-> k = RequestID r \/ is_Some (ps_reqID2Bucket ps !! k)).
Proof.
  intros Ho (Hi & Hc & Hs & Hn & He) Hroom Hr. pose proof (oo_size _ Ho) as Hm. unfold Pending_Submit. rewrite Hc.
  destruct (tryInsert ps (RequestID r) r) as [ps' o'] eqn:E. pose proof (tryInsert_spec _ _ _ _ _ Hi ltac:(lia) E) as Hsp. exists ps'.
  destruct (ps_reqID2Bucket ps !! RequestID r) as [x|] eqn:Ek.
  - destruct Hsp as [-> ->]. rewrite bool_decide_true by done. split; [done|]. split; [by rewrite Z.add_0_r|]. split; [done|]. intros k. split; [by right|]. intros [->|?]; [by rewrite Ek|done].
  - destruct Hsp as (-> & Hi' & Hh & Eidx & HP & Hf & _). rewrite bool_decide_false by apply is_Some_None. split; [done|]. split; [|split; [done|]].
    + split; [done|]. split; [by rewrite Hf|]. split; [by rewrite Hf|]. split; [lia|]. intros k x Hx. rewrite HP in Hx. case_decide as Hk; [injection Hx as <-; by subst|by apply He].
    + intros k. rewrite Eidx, lookup_insert_is_Some'. split; intros [?|?]; auto.
Qed.

(** ** Building and opening the invariant *)
Lemma mk_batching rp n bs : options_ok (rp_options rp) -> rp_semaphore rp = mkWeighted (Z.of_N (po_MaxSize (rp_options rp))) n -> rp_size rp = n ->
  (0 <= n <= Z.of_N (po_MaxSize (rp_options rp)))%Z -> rp_closed rp = false -> rp_batchingEnabled rp = true -> rp_batchStore rp = Some bs -> batching_ok (rp_options rp) n bs -> pool_inv rp.
Proof.
  intros Ho Es En Hn Hc Hb Est Hok. split; [done|rewrite Es, En; done|intros _; by rewrite Es, En|intros _ _; exists bs; by rewrite En|congruence|congruence].
Qed.
Lemma mk_pending rp n ps : options_ok (rp_options rp) -> rp_semaphore rp = mkWeighted (Z.of_N (po_MaxSize (rp_options rp))) n -> rp_size rp = n ->
  (0 <= n <= Z.of_N (po_MaxSize (rp_options rp)))%Z -> rp_closed rp = false -> rp_batchingEnabled rp = false -> rp_pending rp = Some ps ->
  pending_ok (rp_options rp) n (rp_stopped rp) ps -> pool_inv rp.
Proof.
  intros Ho Es En Hn Hc Hb Est Hok. split; [done|rewrite Es, En; done|intros _; by rewrite Es, En|congruence|intros _ _; exists ps; by rewrite En|congruence].
Qed.

Lemma open_semaphore rp : pool_inv rp -> rp_closed rp = false -> rp_semaphore rp = mkWeighted (Z.of_N (po_MaxSize (rp_options rp))) (rp_size rp).
Proof. intros [_ [Hs _] Hp _ _ _] Hc. specialize (Hp Hc). destruct (rp_semaphore rp). cbn in *. congruence. Qed.

(** ** Submit *)
Definition accepts (rp : Pool) (request : bytes) : bool :=
  negb (rp_closed rp) && negb (rp_stopped rp) && (N.of_nat (length request) <=? po_RequestMaxBytes (rp_options rp))%N &&
  (rp_size rp <? Z.of_N (po_MaxSize (rp_options rp)))%Z && negb (known rp (RequestID request)).

Record submitted (rp : Pool) (request : bytes) (rp' : Pool) (o : outcome unit) : Prop := {
  su_inv : pool_inv rp';
  su_mode : rp_closed rp' = rp_closed rp /\ rp_stopped rp' = rp_stopped rp /\ rp_batchingEnabled rp' = rp_batchingEnabled rp;
  su_result : if accepts rp request then o = Ok tt else exists e, o = Err e;
  su_count : RequestCount rp' = (RequestCount rp + if accepts rp request then 1 else 0)%Z;
  su_stored : forall k, stored rp' k = if accepts rp request then if decide (k = RequestID request) then Some request else stored rp k else stored rp k
}.

Lemma submitted_same rp request e : pool_inv rp -> accepts rp request = false -> submitted rp request rp (Err e).
Proof. intros Hi Ha. split; [done|done|rewrite Ha; by exists e|rewrite Ha; lia|intros k; by rewrite Ha]. Qed.

Lemma Pool_Submit_spec fuel rp request : pool_inv rp -> 2 <= fuel -> (N.of_nat (length request) <= u64_max)%N ->
  exists rp' o, Pool_Submit RequestID fuel rp request = Some (rp', o) /\ submitted rp request rp' o.
Proof.
  intros Hi Hf Hlen. unfold Pool_Submit. pose proof (submitted_same rp request) as Hsame.
  destruct (rp_closed rp) eqn:Hc; [eexists _, _; split; [done|]; apply Hsame; [done|]; unfold accepts; by rewrite Hc|].
  destruct (rp_stopped rp) eqn:Hst; [eexists _, _; split; [done|]; apply Hsame; [done|]; unfold accepts; by rewrite Hc, Hst|]. cbn [orb].
  assert (u64 (N.of_nat (length request)) = N.of_nat (length request)) as Eu by (unfold u64, u64_max in *; apply N.mod_small; lia). rewrite Eu.
  destruct (N.ltb_spec (po_RequestMaxBytes (rp_options rp)) (N.of_nat (length request))) as [Hbig|Hfit].
  { eexists _, _. split; [done|]. apply Hsame; [done|]. unfold accepts. rewrite (proj2 (N.leb_gt _ _)) by done. by rewrite andb_false_r. }
  pose proof (open_semaphore rp Hi Hc) as Esem. pose proof (pv_size _ Hi) as [_ Hsz]. pose proof (pv_options _ Hi) as Ho.
  destruct (Acquire (rp_semaphore rp) 1) as [sem|] eqn:Ea; unfold Acquire in Ea; rewrite Esem in Ea; cbn [sem_size sem_cur] in Ea;
    destruct (Z.leb_spec 1 (Z.of_N (po_MaxSize (rp_options rp)) - rp_size rp)) as [Hroom|Hfull]; try done.
  2:{ eexists _, _. split; [done|]. apply Hsame; [done|]. unfold accepts. rewrite (proj2 (Z.ltb_ge (rp_size rp) _)) by lia. by rewrite andb_false_r. }
  injection Ea as <-. clear Hsame.
  assert (accepts rp request = negb (known rp (RequestID request))) as Eacc by (unfold accepts; rewrite Hc, Hst, (proj2 (N.leb_le _ _)), (proj2 (Z.ltb_lt (rp_size rp) _)) by lia; done).
  assert (forall rp' e, rp_semaphore rp' = mkWeighted (Z.of_N (po_MaxSize (rp_options rp))) (rp_size rp + 1) -> release_one rp' (Err e) = (with_permits rp' (rp_semaphore rp) (rp_size rp'), Err e)) as Hrel.
  { intros rp' e Es. eapply release_one_acquired; [|rewrite Esem; cbn; lia|exact Es]. unfold Acquire. rewrite Esem. cbn. by rewrite (proj2 (Z.leb_le _ _)) by lia. }
  cbn [with_permits rp_batchingEnabled]. destruct (rp_batchingEnabled rp) eqn:Hb.
  - destruct (pv_batch _ Hi Hc Hb) as (bs & Ebs & Hok). destruct (insert_ok fuel _ _ bs request Ho Hok Hf Hfit) as (bs' & Ei & Hok' & Hl).
    unfold submitToBatchStore. cbn [with_permits rp_batchStore]. rewrite Ebs, Ei.
    assert (known rp (RequestID request) = negb (bool_decide (bs_keys2Batches bs !! RequestID request = None))) as Ek.
    { unfold known. rewrite Hb, Ebs. destruct (bs_keys2Batches bs !! RequestID request); [done|by rewrite bool_decide_false by apply is_Some_None]. }
    rewrite Ek, negb_involutive in Eacc. destruct (bool_decide (bs_keys2Batches bs !! RequestID request = None)); [|rewrite Hrel by done].
    + eexists _, _. split; [done|]. cbn [negb] in Eacc. split; rewrite ?Eacc; [| |done|done|].
      * eapply mk_batching; cbn [with_permits with_stores rp_options rp_semaphore rp_size rp_closed rp_batchingEnabled rp_batchStore]; [done|done|done|lia|done|done|done|done].
      * done.
      * intros k. unfold stored. cbn. rewrite Hb, Ebs. cbn. apply Hl.
    + eexists _, _. split; [done|]. cbn [negb] in Eacc. split; rewrite ?Eacc; [| |by eexists|unfold RequestCount; cbn [with_permits with_stores rp_size]; lia|].
      * rewrite Z.add_0_r in Hok'. eapply mk_batching; cbn [with_permits with_stores rp_options rp_semaphore rp_size rp_closed rp_batchingEnabled rp_batchStore]; [done|done|done|lia|done|done|done|done].
      * done.
      * intros k. unfold stored. cbn. rewrite Hb, Ebs. cbn. apply Hl.
  - destruct (pv_pending _ Hi Hc Hb) as (ps & Eps & Hok). destruct (submit_ok _ _ _ ps request Ho Hok ltac:(lia) Hfit) as (ps' & Ei & Hok' & Hl & _).
    unfold submitToPendingStore. cbn [with_permits rp_pending]. rewrite Eps. cbn zeta. rewrite Ei. cbn [fst snd].
    assert (known rp (RequestID request) = bool_decide (is_Some (ps_reqID2Bucket ps !! RequestID request))) as Ek by (unfold known; by rewrite Hb, Eps).
    rewrite Ek in Eacc. destruct (bool_decide (is_Some (ps_reqID2Bucket ps !! RequestID request))); [rewrite Hrel by done|].
    + eexists _, _. split; [done|]. cbn [negb] in Eacc. split; rewrite ?Eacc; [| |by eexists|unfold RequestCount; cbn [with_permits with_stores rp_size]; lia|].
      * rewrite Z.add_0_r in Hok'. eapply mk_pending; cbn [with_permits with_stores rp_options rp_semaphore rp_size rp_closed rp_batchingEnabled rp_pending rp_stopped]; [done|done|done|lia|done|done|done|done].
      * done.
      * intros k. unfold stored. cbn. rewrite Hb, Eps. cbn. apply Hl.
    + eexists _, _. split; [done|]. cbn [negb] in Eacc. split; rewrite ?Eacc; [| |done|done|].
      * eapply mk_pending; cbn [with_permits with_stores rp_options rp_semaphore rp_size rp_closed rp_batchingEnabled rp_pending rp_stopped]; [done|done|done|lia|done|done|done|done].
      * done.
      * intros k. unfold stored. cbn. rewrite Hb, Eps. cbn. apply Hl.
Qed.

(** ** What the pool holds *)
(** The requests of the pool as a map, with as many entries as the pool counts. *)
Lemma stored_map rp : pool_inv rp -> exists m : gmap reqID bytes, (forall k, m !! k = stored rp k) /\ Z.of_nat (size m) = RequestCount rp.
Proof.
  intros Hi. assert (forall (A : Type) (idx : gmap reqID A) (get : reqID -> option bytes), (forall k, is_Some (get k) <-> is_Some (idx !! k)) ->
    exists m : gmap reqID bytes, (forall k, m !! k = get k) /\ size m = size idx) as Hmap.
  { intros A idx get Hd. exists (map_imap (fun k _ => get k) idx). assert (forall k, map_imap (fun k _ => get k) idx !! k = get k) as Hl.
    { intros k. rewrite map_lookup_imap. specialize (Hd k). destruct (idx !! k); [done|]. cbn. destruct (get k) as [v|]; [|done]. destruct (proj1 Hd ltac:(done)). done. }
    split; [done|]. rewrite <-!size_dom. f_equal. apply set_eq. intros k. by rewrite !elem_of_dom, Hl. }
  unfold RequestCount. destruct (rp_closed rp) eqn:Hc.
  - destruct (pv_closed _ Hi Hc) as (Ep & Eb & ->). exists ∅. split; [|by rewrite map_size_empty]. intros k. rewrite lookup_empty. unfold stored. rewrite Ep, Eb. by destruct (rp_batchingEnabled rp).
  - unfold stored. destruct (rp_batchingEnabled rp) eqn:Hb.
    + destruct (pv_batch _ Hi Hc Hb) as (bs & -> & Hbi & _ & _ & <- & _). cbn. destruct (Hmap _ (bs_keys2Batches bs) (Lookup bs)) as (m & Hm & Es).
      { intros k. split; [intros [v Hv]; unfold Lookup in Hv; by destruct (bs_keys2Batches bs !! k)|]. intros [i Hk]. apply (bi_index _ Hbi) in Hk as (b & Hbb & [v Hv]).
        exists v. apply (Lookup_at _ _ Hbi). by exists i, b. }
      exists m. split; [done|by rewrite Es].
    + destruct (pv_pending _ Hi Hc Hb) as (ps & -> & Hpi & _ & _ & <- & _). cbn. destruct (Hmap _ (held ps) (PLookup ps)) as (m & Hm & Es); [intros k; by apply PLookup_held|].
      exists m. split; [done|by rewrite Es].
Qed.

(** ** Removal *)
(** The step leaves the mode of the pool and each stored request that [keep] holds of. *)
Record removed (keep : reqID -> bytes -> bool) (rp : Pool) (rp' : Pool) (o : outcome unit) : Prop := {
  rm_inv : pool_inv rp';
  rm_mode : rp_closed rp' = rp_closed rp /\ rp_stopped rp' = rp_stopped rp /\ rp_batchingEnabled rp' = rp_batchingEnabled rp;
  rm_result : o = Ok tt;
  rm_stored : forall k, stored rp' k = r ← stored rp k; if keep k r then Some r else None
}.

Lemma removed_closed keep rp : pool_inv rp -> rp_closed rp = true -> removed keep rp rp (Ok tt).
Proof. intros Hi Hc. split; [done|done|done|]. destruct (pv_closed _ Hi Hc) as (Ep & Eb & _). intros k. unfold stored. rewrite Ep, Eb. by destruct (rp_batchingEnabled rp). Qed.

Lemma removed_batching (keep : reqID -> bytes -> bool) rp bs bs' n : pool_inv rp -> rp_closed rp = false -> rp_batchingEnabled rp = true -> rp_batchStore rp = Some bs ->
  bs_inv bs' -> bs_batchMaxSize bs' = bs_batchMaxSize bs -> bs_batchMaxSizeBytes bs' = bs_batchMaxSizeBytes bs -> n + size (bs_keys2Batches bs') = size (bs_keys2Batches bs) ->
  (forall k, Lookup bs' k = r ← Lookup bs k; if keep k r then Some r else None) ->
  let r := on_delete n (with_stores rp (rp_pending rp) (Some bs')) in removed keep rp r.1 r.2.
Proof.
  intros Hi Hc Hb Ebs Hi' E1 E2 Hn Hl. destruct (pv_batch _ Hi Hc Hb) as (x & Ex & _ & F1 & F2 & Hcnt & He). assert (x = bs) as -> by congruence. clear Ex.
  pose proof (open_semaphore rp Hi Hc) as Es. destruct (pv_size _ Hi) as [_ Hsz]. cbn zeta. rewrite on_delete_spec by (cbn [with_stores rp_semaphore]; rewrite Es; cbn; lia).
  cbn [fst snd with_stores rp_semaphore rp_size]. rewrite Es. cbn [sem_size sem_cur]. split; [|done|done|].
  - eapply (mk_batching _ (rp_size rp - Z.of_nat n) bs'); cbn [with_permits with_stores rp_options rp_semaphore rp_size rp_closed rp_batchingEnabled rp_batchStore];
      [apply Hi|done|done|lia|done|done|done|]. split; [done|]. split; [congruence|]. split; [congruence|]. split; [lia|].
    intros k r Hr. rewrite Hl in Hr. apply bind_Some in Hr as (r' & Hr' & Hk). destruct (keep k r'); [|done]. injection Hk as <-. by apply He.
  - intros k. unfold stored. cbn. rewrite Hb, Ebs. cbn. apply Hl.
Qed.

Lemma removed_pending (keep : reqID -> bytes -> bool) rp ps ps' n : pool_inv rp -> rp_closed rp = false -> rp_batchingEnabled rp = false -> rp_pending rp = Some ps ->
  ps_inv ps' -> same_frame ps ps' -> n + size (held ps') = size (held ps) ->
  (forall k, PLookup ps' k = r ← PLookup ps k; if keep k r then Some r else None) ->
  let r := on_delete n (with_stores rp (Some ps') (rp_batchStore rp)) in removed keep rp r.1 r.2.
Proof.
  intros Hi Hc Hb Eps Hi' Hf Hn Hl. destruct (pv_pending _ Hi Hc Hb) as (x & Ex & _ & F1 & F2 & Hcnt & He). assert (x = ps) as -> by congruence. clear Ex.
  pose proof (open_semaphore rp Hi Hc) as Es. destruct (pv_size _ Hi) as [_ Hsz]. cbn zeta. rewrite on_delete_spec by (cbn [with_stores rp_semaphore]; rewrite Es; cbn; lia).
  cbn [fst snd with_stores rp_semaphore rp_size]. rewrite Es. cbn [sem_size sem_cur]. split; [|done|done|].
  - eapply (mk_pending _ (rp_size rp - Z.of_nat n) ps'); cbn [with_permits with_stores rp_options rp_semaphore rp_size rp_closed rp_batchingEnabled rp_pending rp_stopped];
      [apply Hi|done|done|lia|done|done|done|]. split; [done|]. split; [by rewrite Hf|]. split; [by rewrite Hf|]. split; [lia|].
    intros k r Hr. rewrite Hl in Hr. apply bind_Some in Hr as (r' & Hr' & Hk). destruct (keep k r'); [|done]. injection Hk as <-. by apply He.
  - intros k. unfold stored. cbn. rewrite Hb, Eps. cbn. apply Hl.
Qed.

Lemma keep_not_in (get : option bytes) (P : Prop) `{!base.Decision P} : (if decide P then None else get) = r ← get; if negb (bool_decide P) then Some r else None.
Proof. case_bool_decide as Hd; [rewrite (decide_True _ _ Hd)|rewrite (decide_False _ _ Hd)]; by destruct get. Qed.

Lemma Pool_RemoveRequests_spec rp ids : pool_inv rp ->
  let r := Pool_RemoveRequests rp ids in removed (fun k _ => negb (bool_decide (k ∈ ids))) rp r.1 r.2.
Proof.
  intros Hi. cbn zeta. unfold Pool_RemoveRequests. destruct (rp_closed rp) eqn:Hc; [by apply removed_closed|]. destruct (rp_batchingEnabled rp) eqn:Hb; cbn [negb].
  - destruct (pv_batch _ Hi Hc Hb) as (bs & Ebs & Hok). rewrite Ebs. destruct (RemoveAll bs ids) as [bs' n] eqn:E. destruct Hok as (Hbi & _).
    destruct (RemoveAll_spec _ _ _ _ Hbi E) as (Hi' & E1 & E2 & Hn & _ & Hl). apply (removed_batching _ rp bs); [done..|]. intros k. rewrite Hl. apply keep_not_in.
  - destruct (pv_pending _ Hi Hc Hb) as (ps & Eps & Hpi & Hcl & _). rewrite Eps. unfold Pending_RemoveRequests. rewrite Hcl. destruct (remove_all ps (ps_lastTick ps) ids) as [ps' n] eqn:E.
    destruct (remove_all_spec _ _ _ _ _ Hpi E) as (Hi' & Hf & Hn & Hl). apply (removed_pending _ rp ps ps' n Hi Hc Hb Eps Hi' Hf (eq_sym Hn)). intros k. rewrite (proj1 (Hl k)). apply keep_not_in.
Qed.

(** ** Waiting requests *)
(** The requests a batch can still be made of, or all requests of a secondary. *)
Definition waiting (rp : Pool) : list (reqID * bytes) :=
  if rp_batchingEnabled rp then match rp_batchStore rp with Some bs => ForEach bs | None => [] end
  else match rp_pending rp with Some ps => all_items ps | None => [] end.

Lemma all_items_spec ps : ps_inv ps -> NoDup (all_items ps).*1 /\ forall k v, (k, v) ∈ all_items ps <-> PLookup ps k = Some v.
Proof.
  intros Hi. assert (NoDup (ps_buckets ps ++ [ps_currentBucket ps])) as Hnd.
  { apply NoDup_app. split; [apply Hi|]. split; [|apply NoDup_singleton]. intros i Hx Hx'. apply list_elem_of_singleton in Hx' as ->. destruct (pi_sealed _ Hi _ Hx) as [Hlt _]. lia. }
  assert (forall i, i ∈ ps_buckets ps ++ [ps_currentBucket ps] -> exists b, ps_heap ps !! i = Some b /\ bucket_at ps i = b) as Hin.
  { intros i [Hx|Hx]%elem_of_app; [destruct (pi_sealed _ Hi _ Hx) as (_ & b & Hb & _)|apply list_elem_of_singleton in Hx as ->; destruct (pi_current _ Hi) as (b & Hb & _)];
      exists b; split; [done|by apply at_bucket|done|by apply at_bucket]. }
  assert (forall i k v, i ∈ ps_buckets ps ++ [ps_currentBucket ps] -> (k, v) ∈ range_map 14 (bk_requests (bucket_at ps i)) -> ps_reqID2Bucket ps !! k = Some (InBucket i) /\ PLookup ps k = Some v) as Hitem.
  { intros i k v Hx Hkv. destruct (Hin i Hx) as (b & Hb & Eb). rewrite Eb, range_perm, elem_of_map_to_list in Hkv. split; [apply (pi_index _ Hi); exists b; by rewrite Hkv|].
    apply (PLookup_at _ _ Hi). by exists i, b. }
  split.
  - unfold all_items. assert (forall i, i ∈ ps_buckets ps ++ [ps_currentBucket ps] -> i ∈ ps_buckets ps ++ [ps_currentBucket ps]) as Hsub by done.
    revert Hnd Hsub. generalize (ps_buckets ps ++ [ps_currentBucket ps]) at 1 2 4. intros l Hnd Hsub. induction l as [|i l IH]; [constructor|].
    apply NoDup_cons in Hnd as [Hni Hnd]. cbn [fmap list_fmap concat]. rewrite fmap_app. apply NoDup_app. split; [rewrite range_perm; apply NoDup_fst_map_to_list|].
    split; [|apply IH; [done|intros j Hj; apply Hsub; by right]]. intros k Hk1 Hk2. apply list_elem_of_fmap in Hk1 as ([k1 v1] & -> & H1), Hk2 as ([k2 v2] & Ek & H2). cbn in Ek. subst k2.
    apply elem_of_concat in H2 as (l2 & H2 & Hl2). apply list_elem_of_fmap in Hl2 as (j & -> & Hj).
    destruct (Hitem i k1 v1) as [E1 _]; [apply Hsub; by left|done|]. destruct (Hitem j k1 v2) as [E2 _]; [apply Hsub; by right|done|]. assert (i = j) as <- by congruence. done.
  - intros k v. unfold all_items. rewrite elem_of_concat. split.
    + intros (l & Hkv & Hl). apply list_elem_of_fmap in Hl as (i & -> & Hx). by eapply Hitem.
    + intros Hv. apply (PLookup_at _ _ Hi) in Hv as (i & b & Hb & Hv). exists (range_map 14 (bk_requests (bucket_at ps i))). rewrite (at_bucket _ _ _ Hb). split; [by rewrite range_perm, elem_of_map_to_list|].
      apply list_elem_of_fmap. exists i. rewrite (at_bucket _ _ _ Hb). split; [done|]. apply elem_of_app. rewrite list_elem_of_singleton.
      destruct (pi_listed _ Hi i b Hb) as [->|?]; [intros E; by rewrite E, lookup_empty in Hv|by right|by left].
Qed.

Lemma waiting_stored rp : pool_inv rp -> NoDup (waiting rp).*1 /\ forall k v, (k, v) ∈ waiting rp -> stored rp k = Some v.
Proof.
  intros Hi. unfold waiting, stored. destruct (rp_closed rp) eqn:Hc.
  { destruct (pv_closed _ Hi Hc) as (-> & -> & _). destruct (rp_batchingEnabled rp); (split; [constructor|intros k v Hk; by apply not_elem_of_nil in Hk]). }
  destruct (rp_batchingEnabled rp) eqn:Hb.
  - destruct (pv_batch _ Hi Hc Hb) as (bs & -> & Hbi & _). by apply ForEach_spec.
  - destruct (pv_pending _ Hi Hc Hb) as (ps & -> & Hpi & _). destruct (all_items_spec ps Hpi) as [Hn Hl]. split; [done|]. intros k v. apply Hl.
Qed.

(** Prune drops the waiting requests that are refused. *)
Lemma Pool_Prune_spec rp valid : pool_inv rp ->
  let r := Pool_Prune rp valid in removed (fun k v => valid v || negb (bool_decide ((k, v) ∈ waiting rp))) rp r.1 r.2.
Proof.
  intros Hi. cbn zeta. unfold Pool_Prune. destruct (rp_closed rp) eqn:Hc; [by apply removed_closed|]. unfold waiting. destruct (rp_batchingEnabled rp) eqn:Hb.
  - destruct (pv_batch _ Hi Hc Hb) as (bs & Ebs & Hbi & Hok). rewrite Ebs. destruct (Store_Prune bs valid) as [bs' n] eqn:E. unfold Store_Prune in E.
    destruct (RemoveAll_spec _ _ _ _ Hbi E) as (Hi' & E1 & E2 & Hn & _ & Hl). apply (removed_batching _ rp bs bs' n Hi Hc Hb Ebs Hi' E1 E2 Hn). intros k. rewrite Hl.
    destruct (ForEach_spec bs Hbi) as [_ Hfe]. set (refused := (List.filter _ _).*1).
    assert (forall v, Lookup bs k = Some v -> k ∈ refused <-> (k, v) ∈ ForEach bs /\ valid v = false) as Hr.
    { intros v Hv. subst refused. rewrite list_elem_of_fmap. split.
      - intros ([k' v'] & -> & Hx). rewrite list_elem_of_In, List.filter_In, <-list_elem_of_In in Hx. destruct Hx as [Hx Hf]. cbn in *. rewrite (Hfe _ _ Hx) in Hv. injection Hv as <-. split; [done|]. by apply negb_true_iff.
      - intros [Hx Hf]. exists (k, v). split; [done|]. rewrite list_elem_of_In, List.filter_In, <-list_elem_of_In. cbn. by rewrite Hf. }
    destruct (Lookup bs k) as [v|] eqn:Ev; cbn; [|by case_decide]. specialize (Hr v eq_refl). case_decide as Hd; destruct (valid v) eqn:Hv; cbn; try done.
    + apply Hr in Hd as [_ ?]. done.
    + rewrite bool_decide_true; [done|]. by apply Hr.
    + rewrite bool_decide_false; [done|]. intros Hx. apply Hd, Hr. done.
  - destruct (pv_pending _ Hi Hc Hb) as (ps & Eps & Hpi & Hcl & _). rewrite Eps. destruct (Pending_Prune ps valid) as [ps' n] eqn:E.
    destruct (Pending_Prune_spec _ _ _ _ Hpi E) as (Hi' & Hf & Hn & Hl). apply (removed_pending _ rp ps ps' n Hi Hc Hb Eps Hi' Hf Hn). intros k. rewrite (proj1 (Hl k)). unfold invalid.
    destruct (PLookup ps k) as [v|] eqn:Ev; [|done]. cbn. destruct (valid v); [done|]. cbn. rewrite bool_decide_true; [done|]. by apply all_items_spec.
Qed.

(** Requests stored under their identifiers. *)
Lemma entries_ids o get l : entries_ok o get -> (forall k v, (k, v) ∈ l -> get k = Some v) -> l.*1 = RequestID <$> l.*2.
Proof.
  intros He. induction l as [|[k v] l IH]; intros Hl; [done|]. cbn. f_equal; [symmetry; apply (He k v), Hl; by left|]. apply IH. intros k' v' Hx. apply Hl. by right.
Qed.

Lemma entries_in o get l k v : entries_ok o get -> (forall k v, (k, v) ∈ l -> get k = Some v) -> v ∈ l.*2 /\ RequestID v = k <-> (k, v) ∈ l.
Proof.
  intros He Hl. rewrite list_elem_of_fmap. split.
  - intros [([k' v'] & -> & Hx) Ek]. destruct (He k' v' (Hl _ _ Hx)) as [E _]. cbn in Ek. by rewrite <-Ek, E.
  - intros Hx. split; [by exists (k, v)|]. apply (He k v), Hl, Hx.
Qed.

(** ** Batches *)
Record next_batch (rp : Pool) (rp' : Pool) (requests : list bytes) (ids : list reqID) : Prop := {
  nb_inv : pool_inv rp';
  nb_mode : rp_closed rp' = rp_closed rp /\ rp_stopped rp' = rp_stopped rp /\ rp_batchingEnabled rp' = rp_batchingEnabled rp;
  nb_count : RequestCount rp' = RequestCount rp;
  nb_stored : forall k, stored rp' k = stored rp k;
  nb_ids : ids = RequestID <$> requests /\ NoDup ids;
  nb_max : (N.of_nat (length requests) <= po_BatchMaxSize (rp_options rp))%N;
  nb_bytes : (N.of_nat (sum_list (length <$> requests)) <= po_BatchMaxSizeBytes (rp_options rp))%N;
  nb_waiting : waiting rp ≡ₚ zip ids requests ++ waiting rp'
}.

Lemma next_batch_empty rp : pool_inv rp -> next_batch rp rp [] [].
Proof. intros Hi. split; [done|done|done|done|split; [done|constructor]|cbn; lia|cbn; lia|done]. Qed.

Lemma NextRequests_spec rp : pool_inv rp -> exists rp' requests ids, NextRequests rp = (rp', Ok (requests, ids)) /\ next_batch rp rp' requests ids.
Proof.
  intros Hi. unfold NextRequests. destruct (rp_closed rp || rp_stopped rp) eqn:Hcs; [exists rp, [], []; split; [done|by apply next_batch_empty]|].
  destruct (rp_batchingEnabled rp) eqn:Hb; cbn [negb]; [|exists rp, [], []; split; [done|by apply next_batch_empty]].
  apply orb_false_iff in Hcs as [Hc Hs]. destruct (pv_batch _ Hi Hc Hb) as (bs & Ebs & Hbi & E1 & E2 & Hn & He). rewrite Ebs.
  destruct (Fetch bs) as [bs' l] eqn:Ef. destruct (Fetch_spec _ _ _ Hbi Ef) as [Hi' [F1 F2] Ek Hl Hbatch Hfe]. cbn [fst snd]. eexists _, _, _. split; [done|].
  assert (forall k v, (k, v) ∈ l -> Lookup bs k = Some v) as Hin.
  { intros k v Hkv. destruct Hbatch as [->|(i & b & Hbb & Hp)]; [by apply not_elem_of_nil in Hkv|]. rewrite Hp, elem_of_map_to_list in Hkv. apply (Lookup_at _ _ Hbi). by exists i, b. }
  split; [| |done| | | | |].
  - eapply (mk_batching _ (rp_size rp) bs'); cbn [with_stores rp_options rp_semaphore rp_size rp_closed rp_batchingEnabled rp_batchStore];
      [apply Hi|by apply open_semaphore|done|apply Hi|done|done|done|]. split; [done|]. split; [congruence|]. split; [congruence|]. split; [by rewrite Ek|]. intros k r. rewrite Hl. apply He.
  - done.
  - intros k. unfold stored. cbn. rewrite Hb, Ebs. cbn. apply Hl.
  - split.
    + by apply (entries_ids (rp_options rp) (Lookup bs)).
    + destruct Hbatch as [->|(i & b & Hbb & Hp)]; [constructor|]. rewrite Hp. apply NoDup_fst_map_to_list.
  - destruct Hbatch as [->|(i & b & Hbb & Hp)]; [cbn; lia|]. destruct (bi_within _ Hbi i b Hbb) as [Hw _]. rewrite length_fmap, Hp, length_map_to_list. lia.
  - destruct Hbatch as [->|(i & b & Hbb & Hp)]; [cbn; lia|]. destruct (bi_within _ Hbi i b Hbb) as [_ Hw]. rewrite (weight_list l _ Hp). lia.
  - unfold waiting. cbn. rewrite Hb, Ebs, zip_fst_snd. exact Hfe.
Qed.

(** ** Moving the requests between the stores *)
Lemma resubmit_pending_spec stopped l : forall rp ps, rp_pending rp = Some ps -> options_ok (rp_options rp) -> pending_ok (rp_options rp) (rp_size rp) stopped ps ->
  NoDup (RequestID <$> l) -> (forall r, r ∈ l -> ps_reqID2Bucket ps !! RequestID r = None /\ (N.of_nat (length r) <= po_RequestMaxBytes (rp_options rp))%N) ->
  (rp_size rp + Z.of_nat (length l) <= Z.of_N (po_MaxSize (rp_options rp)))%Z ->
  exists ps', resubmit_pending RequestID rp l = (with_permits (with_stores rp (Some ps') (rp_batchStore rp)) (rp_semaphore rp) (rp_size rp + Z.of_nat (length l)), Ok tt) /\
    pending_ok (rp_options rp) (rp_size rp + Z.of_nat (length l)) stopped ps' /\ forall k v, PLookup ps' k = Some v <-> PLookup ps k = Some v \/ v ∈ l /\ RequestID v = k.
Proof.
  induction l as [|r l IH]; intros rp ps Eps Ho Hok Hnd Hl Hsz.
  - exists ps. cbn [resubmit_pending length]. rewrite Z.add_0_r. split; [|split; [done|]].
    + destruct rp. cbn in *. by subst.
    + intros k v. split; [by left|]. intros [?|[Hv _]]; [done|by apply not_elem_of_nil in Hv].
  - cbn [fmap list_fmap length] in *. apply NoDup_cons in Hnd as [Hnr Hnd]. destruct (Hl r ltac:(by left)) as [Er Hlen].
    destruct (submit_ok _ _ _ ps r Ho Hok ltac:(lia) Hlen) as (ps1 & E1 & Hok1 & Hl1 & Hk1). rewrite bool_decide_false in E1, Hok1, Hl1 by (rewrite Er; apply is_Some_None).
    cbn [resubmit_pending]. unfold submitToPendingStore at 1. rewrite Eps. cbn zeta. rewrite E1. cbn [fst snd].
    set (rp1 := with_permits _ _ _). destruct (IH rp1 ps1) as (ps' & E' & Hok' & HP'); [done|done|done|done| |cbn; lia|].
    { intros x Hx. destruct (Hl x ltac:(by right)) as [Ex Hxl]. split; [|done]. destruct (ps_reqID2Bucket ps1 !! RequestID x) eqn:Ex1; [|done].
      destruct (proj1 (Hk1 (RequestID x)) ltac:(by rewrite Ex1)) as [E|Hs]; [|rewrite Ex in Hs; by apply is_Some_None in Hs].
      destruct Hnr. rewrite <-E. apply list_elem_of_fmap. by exists x. }
    exists ps'. assert (rp_size rp1 + Z.of_nat (length l) = rp_size rp + Z.of_nat (S (length l)))%Z as Esz by (subst rp1; cbn [with_permits with_stores rp_size]; lia). rewrite Esz in E', Hok'. split; [exact E'|]. split; [exact Hok'|].
    intros k v. rewrite HP', Hl1, elem_of_cons. case_decide as Hk.
    + subst k. split.
      * intros [[= <-]|[? ?]]; [right; split; [by left|done]|right; split; [by right|done]].
      * intros [Hv|[[->|Hv] Ev]]; [unfold PLookup in Hv; by rewrite Er in Hv|by left|by right].
    + split; [intros [?|[? ?]]; auto|]. intros [?|[[->|?] Ev]]; [by left|congruence|by right].
Qed.

(** Every request of a store waits in a batch that was not fetched. *)
Definition all_waiting (bs : BatchStore) : Prop := forall i b, bs_heap bs !! i = Some b -> ba_m b <> ∅ -> i = bs_currentBatch bs \/ i ∈ bs_readyBatches bs.

Lemma insert_round_waiting bs key value sz bs' o : all_waiting bs -> insert_round bs key value sz = (bs', o) -> all_waiting bs'.
Proof.
  intros Hw E. unfold insert_round in E.
  assert (forall b' i x, <[bs_currentBatch bs := b']> (bs_heap bs) !! i = Some x -> ba_m x <> ∅ -> i = bs_currentBatch bs \/ i ∈ bs_readyBatches bs) as Hset.
  { intros b' i x [[<- <-]|[_ Hx]]%lookup_insert_Some Hne; [by left|by eapply Hw]. }
  destruct (negb _); [destruct (bs_keys2Batches bs !! key)|destruct (ba_enqueued _)]; injection E as <- <-; try (intros i x; apply Hset).
  intros i x Hx Hne. cbn in Hx |- *. apply lookup_insert_Some in Hx as [[<- <-]|[_ Hx]]; [done|]. right. apply elem_of_app. rewrite list_elem_of_singleton. destruct (Hset _ i x Hx Hne); auto.
Qed.

Lemma Insert_waiting fuel : forall bs key value sz bs' ins, all_waiting bs -> Insert fuel bs key value sz = Some (bs', ins) -> all_waiting bs'.
Proof.
  induction fuel as [|fuel IH]; intros bs key value sz bs' ins Hw E; [done|]. cbn [Insert] in E. destruct (insert_round bs key value sz) as [bs1 [r|]] eqn:E1.
  - injection E as <- <-. by eapply insert_round_waiting.
  - eapply IH; [|exact E]. by eapply insert_round_waiting.
Qed.

Lemma all_waiting_ForEach bs k v : bs_inv bs -> all_waiting bs -> (k, v) ∈ ForEach bs <-> Lookup bs k = Some v.
Proof.
  intros Hi Hw. split; [apply ForEach_spec; done|]. intros Hv. apply (Lookup_at _ _ Hi) in Hv as (i & b & Hb & Hv).
  assert ((k, v) ∈ batch_items bs i) as Hit by (unfold batch_items, at_batch; rewrite Hb; cbn; by rewrite range_perm, elem_of_map_to_list).
  unfold ForEach. apply elem_of_app. destruct (Hw i b Hb) as [->|Hr]; [intros E; by rewrite E, lookup_empty in Hv|by right|left].
  apply elem_of_concat. exists (batch_items bs i). split; [done|]. apply list_elem_of_fmap. by exists i.
Qed.

Lemma resubmit_batch_spec fuel l : 2 <= fuel -> forall rp bs, rp_batchStore rp = Some bs -> options_ok (rp_options rp) -> forall n, batching_ok (rp_options rp) n bs -> all_waiting bs ->
  NoDup (RequestID <$> l) -> (forall r, r ∈ l -> bs_keys2Batches bs !! RequestID r = None /\ (N.of_nat (length r) <= po_RequestMaxBytes (rp_options rp))%N) ->
  exists bs', resubmit_batch RequestID fuel rp l = Some (with_permits (with_stores rp (rp_pending rp) (Some bs')) (rp_semaphore rp) (rp_size rp + Z.of_nat (length l)), Ok tt) /\
    batching_ok (rp_options rp) (n + Z.of_nat (length l)) bs' /\ all_waiting bs' /\ forall k v, Lookup bs' k = Some v <-> Lookup bs k = Some v \/ v ∈ l /\ RequestID v = k.
Proof.
  intros Hf. induction l as [|r l IH]; intros rp bs Ebs Ho n Hok Hw Hnd Hl.
  - exists bs. cbn [resubmit_batch length]. rewrite !Z.add_0_r. split; [|split; [done|split; [done|]]].
    + destruct rp. cbn in *. by subst.
    + intros k v. split; [by left|]. intros [?|[Hv _]]; [done|by apply not_elem_of_nil in Hv].
  - cbn [fmap list_fmap length] in *. apply NoDup_cons in Hnd as [Hnr Hnd]. destruct (Hl r ltac:(by left)) as [Er Hlen].
    destruct (insert_ok fuel _ _ bs r Ho Hok Hf Hlen) as (bs1 & E1 & Hok1 & Hl1). rewrite bool_decide_true in E1, Hok1, Hl1 by done.
    cbn [resubmit_batch]. unfold submitToBatchStore at 1. rewrite Ebs, E1. cbn zeta.
    pose proof (Insert_waiting _ _ _ _ _ _ _ Hw E1) as Hw1.
    set (rp1 := with_permits _ _ _). destruct (IH rp1 bs1 eq_refl Ho _ Hok1 Hw1 Hnd) as (bs' & E' & Hok' & Hw' & HP').
    { intros x Hx. destruct (Hl x ltac:(by right)) as [Ex Hxl]. split; [|done]. destruct (bs_keys2Batches bs1 !! RequestID x) as [i|] eqn:Ex1; [|done]. exfalso.
      destruct Hok1 as (Hi1 & _). apply (bi_index _ Hi1) in Ex1 as (b & Hb & v & Hv). assert (Lookup bs1 (RequestID x) = Some v) as HL by (apply (Lookup_at _ _ Hi1); by exists i, b).
      rewrite Hl1 in HL. case_decide as Hxr; [|unfold Lookup in HL; by rewrite Ex in HL]. destruct Hnr. rewrite <-Hxr. apply list_elem_of_fmap. by exists x. }
    exists bs'. assert (rp_size rp1 + Z.of_nat (length l) = rp_size rp + Z.of_nat (S (length l)))%Z as Esz by (subst rp1; cbn [with_permits with_stores rp_size]; lia).
    rewrite Esz in E'. split; [exact E'|]. replace (n + Z.of_nat (S (length l)))%Z with (n + 1 + Z.of_nat (length l))%Z by lia. split; [exact Hok'|]. split; [done|].
    intros k v. rewrite HP', Hl1, elem_of_cons. case_decide as Hk.
    + subst k. split.
      * intros [[= <-]|[? ?]]; [right; split; [by left|done]|right; split; [by right|done]].
      * intros [Hv|[[->|Hv] Ev]]; [unfold Lookup in Hv; by rewrite Er in Hv|by left|by right].
    + split; [intros [?|[? ?]]; auto|]. intros [?|[[->|?] Ev]]; [by left|congruence|by right].
Qed.

(** ** Halt, Close, Restart *)
Lemma Pool_Close_spec rp : pool_inv rp -> pool_inv (Pool_Close rp).
Proof. intros [Ho [Hs _] _ _ _ _]. split; [done|cbn; lia|done|done|done|done]. Qed.

Lemma Pool_Halt_spec rp : pool_inv rp -> rp_closed rp = false -> exists rp', Pool_Halt rp = (rp', Ok tt) /\ pool_inv rp' /\ rp_stopped rp' = true /\
  rp_closed rp' = false /\ rp_batchingEnabled rp' = rp_batchingEnabled rp /\ rp_options rp' = rp_options rp /\ (forall k, stored rp' k = stored rp k) /\ waiting rp' = waiting rp.
Proof.
  intros Hi Hc. unfold Pool_Halt. cbn [with_mode rp_batchingEnabled]. pose proof (open_semaphore _ Hi Hc) as Es. pose proof (pv_size _ Hi) as [_ Hsz]. pose proof (pv_options _ Hi) as Ho.
  destruct (rp_batchingEnabled rp) eqn:Hb; cbn [negb].
  - destruct (pv_batch _ Hi Hc Hb) as (bs & Ebs & Hok). eexists. split; [done|]. split; [|split; [done|]; split; [done|]; split; [done|]; split; [done|]; unfold stored, waiting; cbn; by rewrite Hb].
    by eapply (mk_batching _ (rp_size rp) bs).
  - destruct (pv_pending _ Hi Hc Hb) as (ps & Eps & Hpi & Hcl & Hst & Hn & He). cbn [with_mode rp_pending]. rewrite Eps. unfold Pending_Stop. rewrite Hcl.
    eexists. split; [done|]. split; [|split; [done|]; split; [done|]; split; [done|]; split; [done|]; unfold stored, waiting; cbn; by rewrite Hb, Eps].
    eapply (mk_pending _ (rp_size rp)); cbn [with_stores with_mode rp_options rp_semaphore rp_size rp_closed rp_batchingEnabled rp_pending rp_stopped]; [done..|].
    split; [|split; [done|split; [done|split; [done|exact He]]]]. destruct Hpi as [? ? ? ? ? ? ?]. by split.
Qed.

Record restart_ok (rp : Pool) (batching : bool) (rp' : Pool) (o : outcome unit) : Prop := {
  rs_inv : pool_inv rp';
  rs_result : o = Ok tt;
  rs_mode : rp_stopped rp' = false /\ rp_closed rp' = rp_closed rp /\ rp_batchingEnabled rp' = if rp_closed rp then rp_batchingEnabled rp else batching;
  rs_waiting : forall k v, (k, v) ∈ waiting rp' <-> (k, v) ∈ waiting rp;
  rs_stored : if rp_batchingEnabled rp && negb batching then forall k v, stored rp' k = Some v <-> (k, v) ∈ waiting rp else forall k, stored rp' k = stored rp k
}.

Lemma moveToPendingStore_spec rp now : options_ok (rp_options rp) -> rp_semaphore rp = mkWeighted (Z.of_N (po_MaxSize (rp_options rp))) (rp_size rp) ->
  (0 <= rp_size rp <= Z.of_N (po_MaxSize (rp_options rp)))%Z -> rp_closed rp = false -> rp_batchingEnabled rp = false -> forall bs, rp_batchStore rp = Some bs -> batching_ok (rp_options rp) (rp_size rp) bs ->
  exists rp', restarted (moveToPendingStore RequestID rp now) = (rp', Ok tt) /\ pool_inv rp' /\ rp_stopped rp' = false /\ rp_closed rp' = false /\ rp_batchingEnabled rp' = false /\
    (forall k v, stored rp' k = Some v <-> (k, v) ∈ ForEach bs) /\ (forall k v, (k, v) ∈ waiting rp' <-> (k, v) ∈ ForEach bs).
Proof.
  intros Ho Es Hsz Hc Hb bs Ebs (Hbi & E1 & E2 & Hn & He). destruct (ForEach_spec bs Hbi) as [Hnd Hfe]. unfold moveToPendingStore. rewrite Ebs, length_fmap.
  assert (length (ForEach bs) <= size (bs_keys2Batches bs)) as Hle.
  { rewrite <-(length_fmap fst), <-size_dom, <-(size_list_to_set (C := gset reqID)) by done. apply subseteq_size. intros k Hk. apply elem_of_list_to_set, list_elem_of_fmap in Hk as ([k' v] & -> & Hx).
    apply elem_of_dom. pose proof (Hfe _ _ Hx) as HL. unfold Lookup in HL. cbn. by destruct (bs_keys2Batches bs !! k'). }
  set (L := length (ForEach bs)) in *.
  assert ((if (0 <? rp_size rp - Z.of_nat L)%Z then Release (rp_semaphore rp) (rp_size rp - Z.of_nat L) else Ok (rp_semaphore rp)) = Ok (mkWeighted (Z.of_N (po_MaxSize (rp_options rp))) (Z.of_nat L))) as ->.
  { rewrite Es. destruct (Z.ltb_spec 0 (rp_size rp - Z.of_nat L)); [rewrite release_ok by (cbn; lia); cbn; do 2 f_equal; lia|do 2 f_equal; lia]. }
  set (rp0 := with_stores _ _ _). set (ps0 := createPendingStore (rp_options rp) now).
  destruct (resubmit_pending_spec false (ForEach bs).*2 rp0 ps0) as (ps' & Er & Hok' & HP').
  - done.
  - done.
  - split; [apply ps_inv_init|]. split; [done|]. split; [done|]. split; [done|]. intros k r. unfold PLookup. cbn. by rewrite lookup_empty.
  - by rewrite <-(entries_ids (rp_options rp) (Lookup bs) (ForEach bs) He Hfe).
  - intros r Hr. split; [apply lookup_empty|]. apply list_elem_of_fmap in Hr as ([k v] & -> & Hx). apply (He k v), Hfe, Hx.
  - cbn [rp0 with_stores with_permits rp_size rp_options]. rewrite length_fmap. subst L. lia.
  - rewrite Er. cbn [restarted fst snd]. eexists. split; [done|].
    assert (forall k v, PLookup ps' k = Some v <-> (k, v) ∈ ForEach bs) as HP.
    { intros k v. rewrite HP'. rewrite (entries_in (rp_options rp) (Lookup bs) (ForEach bs) k v He Hfe). split; [intros [Hx|?]; [|done]|by right]. unfold PLookup in Hx. cbn in Hx. by rewrite lookup_empty in Hx. }
    rewrite length_fmap in Hok' |- *. fold L in Hok' |- *. split; [|split; [done|split; [done|split; [done|split]]]].
    + eapply (mk_pending _ (Z.of_nat L) ps'); cbn; [done|done|done|lia|done|done|done|exact Hok'].
    + intros k v. rewrite <-HP. unfold stored. cbn. by rewrite Hb.
    + intros k v. rewrite <-HP. unfold waiting. cbn. rewrite Hb. destruct Hok' as (Hpi & _). by apply all_items_spec.
Qed.

Lemma moveToBatchStore_spec fuel rp : 2 <= fuel -> options_ok (rp_options rp) -> rp_semaphore rp = mkWeighted (Z.of_N (po_MaxSize (rp_options rp))) (rp_size rp) ->
  (0 <= rp_size rp <= Z.of_N (po_MaxSize (rp_options rp)))%Z -> rp_closed rp = false -> rp_batchingEnabled rp = true ->
  forall ps stopped, rp_pending rp = Some ps -> pending_ok (rp_options rp) (rp_size rp) stopped ps ->
  exists rp', restarted <$> moveToBatchStore RequestID fuel rp = Some (rp', Ok tt) /\ pool_inv rp' /\ rp_stopped rp' = false /\ rp_closed rp' = false /\ rp_batchingEnabled rp' = true /\
    (forall k, stored rp' k = PLookup ps k) /\ (forall k v, (k, v) ∈ waiting rp' <-> (k, v) ∈ all_items ps).
Proof.
  intros Hf Ho Es Hsz Hc Hb ps stopped Eps (Hpi & Hcl & _ & Hn & He). destruct (all_items_spec ps Hpi) as [Hnd Hfe]. unfold moveToBatchStore. rewrite Eps.
  change (GetAllRequests (Pending_Close ps)) with ((all_items ps).*2). set (rp0 := with_stores _ _ _).
  assert (length (all_items ps) = size (held ps)) as Hlen.
  { rewrite <-(length_fmap fst), <-size_dom, <-(size_list_to_set (C := gset reqID)) by done. f_equal. apply set_eq. intros k.
    rewrite elem_of_list_to_set, list_elem_of_fmap, elem_of_dom, <-PLookup_held by done. split; [intros ([k' v] & -> & Hx); apply Hfe in Hx; by exists v|intros [v Hv]; exists (k, v); split; [done|by apply Hfe]]. }
  assert (forall k v, (k, v) ∈ all_items ps -> PLookup ps k = Some v) as Hfe' by (intros k v; apply Hfe).
  destruct (resubmit_batch_spec fuel (all_items ps).*2 Hf rp0 (createBatchStore (rp_options rp)) eq_refl Ho 0%Z) as (bs' & Er & Hok' & Hw' & HP').
  - split; [apply bs_inv_new|]. split; [done|]. split; [done|]. split; [done|]. intros k r. unfold Lookup. cbn. by rewrite lookup_empty.
  - intros i b Hb0. cbn [createBatchStore NewBatchStore bs_heap] in Hb0. apply lookup_singleton_Some in Hb0 as [<- <-]. done.
  - by rewrite <-(entries_ids (rp_options rp) (PLookup ps) (all_items ps) He Hfe').
  - intros r Hr. split; [apply lookup_empty|]. apply list_elem_of_fmap in Hr as ([k v] & -> & Hx). apply (He k v), Hfe, Hx.
  - rewrite Er. cbn [fmap option_fmap option_map restarted fst snd]. eexists. split; [done|].
    assert (forall k v, Lookup bs' k = Some v <-> PLookup ps k = Some v) as HP.
    { intros k v. rewrite HP', (entries_in (rp_options rp) (PLookup ps) (all_items ps) k v He Hfe'), Hfe. split; [intros [Hx|?]; [|done]|by right]. unfold Lookup in Hx. cbn in Hx. by rewrite lookup_empty in Hx. }
    rewrite length_fmap in Hok' |- *. rewrite Hlen, Hn in Hok' |- *. split; [|split; [done|split; [done|split; [done|split]]]].
    + eapply (mk_batching _ (rp_size rp) bs'); cbn; [done|done|done|lia|done|done|done|exact Hok'].
    + intros k. unfold stored. cbn. rewrite Hb. cbn. apply option_eq. intros v. apply HP.
    + intros k v. rewrite Hfe, <-HP. unfold waiting. cbn. rewrite Hb. destruct Hok' as (Hbi & _). by apply all_waiting_ForEach.
Qed.

Lemma ResetTimestamps_spec ps : ps_inv ps -> ps_closed ps = false -> let ps' := ResetTimestamps ps in
  ps_inv ps' /\ ps_stopped ps' = false /\ ps_closed ps' = false /\ held ps' = held ps /\ same_requests ps ps'.
Proof.
  intros Hi Hc. cbn zeta. unfold ResetTimestamps. rewrite Hc. destruct (update_buckets_spec (resetTimestamp (ps_lastTick ps)) ps (ps_buckets ps) Hi (keeps_reset _)) as (Hi' & Hr & _); [done|].
  split; [|by repeat split]. destruct Hi' as [? ? ? ? ? ? ?]. by split.
Qed.

Lemma Pool_Restart_spec fuel rp batching now : pool_inv rp -> 2 <= fuel -> exists rp' o, Pool_Restart RequestID fuel rp batching now = Some (rp', o) /\ restart_ok rp batching rp' o.
Proof.
  intros Hi Hf. unfold Pool_Restart. destruct (rp_closed rp) eqn:Hc.
  { destruct (pv_closed _ Hi Hc) as (Ep & Ebs & En). eexists _, _. split; [done|]. split; [|done|by rewrite Hc| |].
    - destruct Hi as [Ho Hs Hp Hbt Hpd Hcl]. split; [done|done|cbn; congruence|cbn; congruence|cbn; congruence|done].
    - intros k v. unfold waiting. cbn. by rewrite Ep, Ebs.
    - unfold stored, waiting. cbn. rewrite Ep, Ebs. destruct (rp_batchingEnabled rp); [|done]. destruct batching; [done|]. cbn. intros k v. split; [done|]. intros Hx. by apply not_elem_of_nil in Hx. }
  destruct (Pool_Halt_spec rp Hi Hc) as (rp1 & -> & Hi1 & Hst1 & Hc1 & Hb1 & Ho1 & Hs1 & Hw1).
  pose proof (open_semaphore _ Hi1 Hc1) as Es. pose proof (pv_size _ Hi1) as [_ Hsz]. pose proof (pv_options _ Hi1) as Ho. unfold restarted at 1.
  destruct (rp_batchingEnabled rp1) eqn:Hwas, batching; cbn [andb negb].
  - destruct (pv_batch _ Hi1 Hc1 Hwas) as (bs & Ebs & Hok). eexists _, _. split; [done|].
    split; [by eapply (mk_batching _ (rp_size rp1) bs)|done|by rewrite Hc| |].
    + intros k v. unfold waiting at 1. cbn. by rewrite <-Hw1.
    + rewrite <-Hb1. cbn. exact Hs1.
  - destruct (pv_batch _ Hi1 Hc1 Hwas) as (bs & Ebs & Hok).
    destruct (moveToPendingStore_spec (with_mode rp1 (rp_closed rp1) (rp_stopped rp1) false) now Ho Es Hsz Hc1 eq_refl bs Ebs Hok) as (rp' & -> & Hi' & A1 & A2 & A3 & A4 & A5).
    assert (waiting rp = ForEach bs) as Ew by (rewrite <-Hw1; unfold waiting; by rewrite Hwas, Ebs).
    eexists _, _. split; [done|]. split; [done|done|by rewrite Hc, A2|intros k v; by rewrite A5, Ew|]. rewrite <-Hb1. cbn. intros k v. by rewrite A4, Ew.
  - destruct (pv_pending _ Hi1 Hc1 Hwas) as (ps & Eps & Hok).
    destruct (moveToBatchStore_spec fuel (with_mode rp1 (rp_closed rp1) (rp_stopped rp1) true) Hf Ho Es Hsz Hc1 eq_refl ps _ Eps Hok) as (rp' & -> & Hi' & A1 & A2 & A3 & A4 & A5).
    assert (waiting rp = all_items ps) as Ew by (rewrite <-Hw1; unfold waiting; by rewrite Hwas, Eps).
    eexists _, _. split; [done|]. split; [done|done|by rewrite Hc, A2|intros k v; by rewrite A5, Ew|]. rewrite <-Hb1. cbn. intros k. rewrite A4, <-Hs1. unfold stored. by rewrite Hwas, Eps.
  - destruct (pv_pending _ Hi1 Hc1 Hwas) as (ps & Eps & Hpi & Hcl & _ & Hn & He). rewrite Eps. destruct (ResetTimestamps_spec ps Hpi Hcl) as (Hi2 & B1 & B2 & B3 & B4).
    eexists _, _. split; [done|]. split; [|done|by rewrite Hc| |].
    + eapply (mk_pending _ (rp_size rp1)); [done|done|done|done|done|done|done|]. split; [done|]. split; [done|]. split; [done|]. split; [by rewrite B3|]. intros k r. rewrite B4. apply He.
    + intros k v. rewrite <-Hw1. unfold waiting. cbn. rewrite Hwas, Eps, (proj2 (all_items_spec _ Hi2)), (proj2 (all_items_spec _ Hpi)). by rewrite B4.
    + rewrite <-Hb1. cbn. intros k. rewrite <-Hs1. unfold stored. cbn. rewrite Hwas, Eps. cbn. apply B4.
Qed.

Lemma Pool_tick_spec rp now : pool_inv rp -> pool_inv (Pool_tick rp now).1 /\ (forall k, stored (Pool_tick rp now).1 k = stored rp k) /\ rp_closed (Pool_tick rp now).1 = rp_closed rp.
Proof.
  intros Hi. unfold Pool_tick. destruct (rp_pending rp) as [ps|] eqn:Eps; [|done]. cbn [fst]. destruct (rp_closed rp) eqn:Hc; [by destruct (pv_closed _ Hi Hc) as (? & _); congruence|].
  pose proof (open_semaphore _ Hi Hc) as Es. pose proof (pv_size _ Hi) as [_ Hsz]. pose proof (pv_options _ Hi) as Ho. destruct (rp_batchingEnabled rp) eqn:Hb.
  - destruct (pv_batch _ Hi Hc Hb) as (bs & Ebs & Hok). split; [by eapply (mk_batching _ (rp_size rp) bs)|]. split; [|done]. intros k. unfold stored. cbn. by rewrite Hb.
  - destruct (pv_pending _ Hi Hc Hb) as (x & Ex & Hpi & Hcl & Hst & Hn & He). assert (x = ps) as -> by congruence. clear Ex.
    assert (exists ps', (Pending_tick ps now).1.1 = ps' /\ ps_inv ps' /\ same_requests ps ps' /\ ps_closed ps' = false /\ ps_stopped ps' = ps_stopped ps) as (ps' & -> & Hi' & Hr & Hcl' & Hst').
    { eexists. split; [done|]. destruct (ps_stopped ps) eqn:Hs.
      - unfold Pending_tick, changeEpochs. cbn [with_clocks ps_stopped]. rewrite Hs. cbn [fst]. split; [by apply ps_inv_clocks|]. split; [intros k; by apply stage_same|]. split; [done|done].
      - destruct (Pending_tick ps now) as [[ps' l] c] eqn:E. destruct (tick_spec _ _ _ _ _ Hpi Hs E) as [T1 T2 T3 _ _ _]. injection T3 as _ _ _ T4 T5. cbn. split; [done|]. split; [done|]. split; congruence. }
    split; [|split; [|done]].
    + eapply (mk_pending _ (rp_size rp) ps'); [done|done|done|done|done|done|done|]. split; [done|]. split; [done|]. split; [cbn; congruence|].
      assert (size (held ps') = size (held ps)) as -> by (rewrite <-!size_dom; f_equal; apply set_eq; intros k; by rewrite !elem_of_dom, <-!PLookup_held, Hr by done).
      split; [done|]. intros k r. rewrite Hr. apply He.
    + intros k. unfold stored. cbn. rewrite Hb, Eps. cbn. apply Hr.
Qed.

(** ** Runs *)
Inductive pool_op := PSubmit (request : bytes) | PNext | PRemove (ids : list reqID) | PPrune (valid : bytes -> bool) | PTick (now : Z) | PClose | PHalt | PRestart (batching : bool) (now : Z).
Definition pool_step (fuel : nat) (rp : Pool) (op : pool_op) : option (Pool * outcome unit) :=
  match op with
  | PSubmit request => Pool_Submit RequestID fuel rp request
  | PNext => let r := NextRequests rp in Some (r.1, match r.2 with Ok _ => Ok tt | Err e => Err e | Panic m => Panic m end)
  | PRemove ids => Some (Pool_RemoveRequests rp ids)
  | PPrune valid => Some (Pool_Prune rp valid)
  | PTick now => Some ((Pool_tick rp now).1, Ok tt)
  | PClose => Some (Pool_Close rp, Ok tt)
  | PHalt => Some (Pool_Halt rp)
  | PRestart batching now => Pool_Restart RequestID fuel rp batching now
  end.

(** The calls of the goroutines around a pool, interleaved. Where it does not return at once, NextRequests keeps the read lock while Fetch waits on the condition of the store, so it is a call that
    may start to wait and wake-ups of a waiting call: it returns if a full batch is there or its context was cancelled, and otherwise waits on. The other
    operations are atomic: they do not wait while they hold the lock, but for the bounded wait of Submit for a permit. *)
Inductive pool_call := Call (op : pool_op) | NextCall | NextWake (cancelled : bool).
Definition takes_write_lock (op : pool_op) : bool := match op with PClose | PHalt | PRestart _ _ => true | _ => false end.
Definition no_ready_batch (rp : Pool) : bool := match rp_batchStore rp with Some bs => bool_decide (bs_readyBatches bs = []) | None => false end.
(** A pool and the number of calls of NextRequests that wait in Fetch. *)
Definition call_step (fuel : nat) (rp : Pool) (waiting : nat) (c : pool_call) : option (Pool * nat * outcome unit) :=
  match c with
  | Call op => if takes_write_lock op && negb (waiting =? 0) then None else (fun r => (r.1, waiting, r.2)) <$> pool_step fuel rp op
  | NextCall => Some (rp, if rp_closed rp || rp_stopped rp || negb (rp_batchingEnabled rp) then waiting else S waiting, Ok tt)
  | NextWake cancelled =>
      match waiting with
      | 0 => Some (rp, 0, Ok tt)
      | S others =>
          if no_ready_batch rp && negb cancelled then Some (rp, waiting, Ok tt)
          else let r := NextRequests rp in Some (r.1, others, match r.2 with Ok _ => Ok tt | Err e => Err e | Panic m => Panic m end)
      end
  end.
(** An error is its caller's, a panic ends the process, and [None] is a call that does not return: an Insert that loops, or one that wants the write lock and
    waits for a call of NextRequests that only its own caller could end. *)
Fixpoint pool_run (fuel : nat) (rp : Pool) (waiting : nat) (cs : list pool_call) : option (outcome (Pool * nat)) :=
  match cs with
  | [] => Some (Ok (rp, waiting))
  | c :: cs =>
      match call_step fuel rp waiting c with
      | None => None
      | Some (_, _, Panic m) => Some (Panic m)
      | Some (rp, waiting, _) => pool_run fuel rp waiting cs
      end
  end.

(** What the callers promise: each call of NextRequests is cancelled before the pool is closed, halted or restarted, as the comment of NextRequests demands, the
    pool is not halted after it was closed, and requests are slices. [waiting] bounds the calls that were not cancelled. *)
Fixpoint calls_ok (closed : bool) (waiting : nat) (cs : list pool_call) : Prop :=
  match cs with
  | [] => True
  | Call PHalt :: cs => closed = false /\ waiting = 0 /\ calls_ok closed waiting cs
  | Call PClose :: cs => waiting = 0 /\ calls_ok true waiting cs
  | Call (PRestart _ _) :: cs => waiting = 0 /\ calls_ok closed waiting cs
  | Call (PSubmit request) :: cs => (N.of_nat (length request) <= u64_max)%N /\ calls_ok closed waiting cs
  | NextCall :: cs => calls_ok closed (S waiting) cs
  | NextWake true :: cs => calls_ok closed (pred waiting) cs
  | _ :: cs => calls_ok closed waiting cs
  end.

(** The operations of such callers return and keep the invariant. *)
Lemma pool_step_spec fuel rp op : 2 <= fuel -> pool_inv rp -> match op with PSubmit r => (N.of_nat (length r) <= u64_max)%N | PHalt => rp_closed rp = false | _ => True end ->
  exists rp' o, pool_step fuel rp op = Some (rp', o) /\ (forall m, o <> Panic m) /\ pool_inv rp' /\ rp_closed rp' = match op with PClose => true | _ => rp_closed rp end.
Proof.
  intros Hf Hi Hop. destruct op as [r| |ids|valid|now| | |batching now]; cbn [pool_step].
  - destruct (Pool_Submit_spec fuel rp r Hi Hf Hop) as (rp' & o & -> & [Hi' (Hc & _ & _) Ho _ _]). exists rp', o.
    split; [done|]. split; [|by split]. destruct (accepts rp r); [subst o|destruct Ho as [e ->]]; done.
  - destruct (NextRequests_spec rp Hi) as (rp' & rs & ids & -> & [Hi' (Hc & _) _ _ _ _ _ _]). by exists rp', (Ok tt).
  - destruct (Pool_RemoveRequests_spec rp ids Hi) as [Hi' (Hc & _) Ho _]. destruct (Pool_RemoveRequests rp ids) as [rp' o]. cbn in *. subst o. by exists rp', (Ok tt).
  - destruct (Pool_Prune_spec rp valid Hi) as [Hi' (Hc & _) Ho _]. destruct (Pool_Prune rp valid) as [rp' o]. cbn in *. subst o. by exists rp', (Ok tt).
  - destruct (Pool_tick_spec rp now Hi) as (Hi' & _ & Hc). by eexists _, _.
  - eexists _, _. split; [done|]. split; [done|]. split; [by apply Pool_Close_spec|done].
  - destruct (Pool_Halt_spec rp Hi Hop) as (rp' & -> & Hi' & _ & Hc' & _). exists rp', (Ok tt). split; [done|]. split; [done|]. split; [done|congruence].
  - destruct (Pool_Restart_spec fuel rp batching now Hi Hf) as (rp' & o & -> & [Hi' -> (_ & Hc & _) _ _]). by exists rp', (Ok tt).
Qed.

Lemma pool_run_spec fuel cs : 2 <= fuel -> forall rp waiting bound, pool_inv rp -> waiting <= bound -> calls_ok (rp_closed rp) bound cs ->
  exists rp' waiting', pool_run fuel rp waiting cs = Some (Ok (rp', waiting')) /\ pool_inv rp'.
Proof.
  intros Hf. induction cs as [|c cs IH]; intros rp waiting bound Hi Hw Hh; [by exists rp, waiting|]. cbn [pool_run]. destruct c as [op| |cancelled]; cbn [call_step].
  - assert (takes_write_lock op && negb (waiting =? 0) = false) as ->.
    { destruct op; cbn [calls_ok takes_write_lock andb] in *; try done; apply negb_false_iff, Nat.eqb_eq; destruct_and?; lia. }
    destruct (pool_step_spec fuel rp op) as (rp' & o & -> & Hno & Hi' & Hc); [done|done|by destruct op; cbn [calls_ok] in Hh; destruct_and?|]. cbn [fmap option_fmap option_map fst snd].
    assert (calls_ok (rp_closed rp') bound cs) as Hh' by (rewrite Hc; by destruct op; cbn [calls_ok] in Hh; destruct_and?).
    destruct o as [[]|e|m]; [by eapply IH..|by destruct (Hno m)].
  - cbn [calls_ok] in Hh. eapply IH; [done| |done]. destruct (_ || _); lia.
  - destruct waiting as [|others]; [eapply (IH _ _ (if cancelled then pred bound else bound)); [done|lia|by destruct cancelled]|].
    destruct (no_ready_batch rp); cbn [andb negb]; [destruct cancelled; cbn [negb]|].
    2: { by eapply IH. }
    all: destruct (NextRequests_spec rp Hi) as (rp' & rs & ids & -> & [Hi' (Hc & _) _ _ _ _ _ _]); cbn [fst snd].
    1: { eapply (IH _ _ (pred bound)); [done|lia|by rewrite Hc]. }
    eapply (IH _ _ (if cancelled then pred bound else bound)); [done|destruct cancelled; lia|by destruct cancelled; rewrite Hc].
Qed.

(** No operation changes the options. *)
Lemma on_delete_options n : forall rp, rp_options (on_delete n rp).1 = rp_options rp.
Proof. induction n as [|n IH]; intros rp; cbn [on_delete]; [done|]. destruct (Release _ _); [by rewrite IH|done|done]. Qed.
Lemma release_one_options rp r : rp_options (release_one rp r).1 = rp_options rp.
Proof. unfold release_one. by destruct (Release _ _). Qed.
Lemma submitToPendingStore_options rp r : rp_options (submitToPendingStore RequestID rp r).1 = rp_options rp.
Proof. unfold submitToPendingStore. destruct (rp_pending rp); [|done]. cbn zeta. destruct (Pending_Submit _ _ _) as [? [| |]]; cbn [snd]; [done|by rewrite release_one_options|done]. Qed.
Lemma submitToBatchStore_options fuel rp k r rp' o : submitToBatchStore fuel rp k r = Some (rp', o) -> rp_options rp' = rp_options rp.
Proof.
  unfold submitToBatchStore. destruct (rp_batchStore rp); [|by intros [= <- <-]]. destruct (Insert _ _ _ _ _) as [[? []]|]; [by intros [= <- <-]| |done].
  cbn zeta. intros [= E]. apply (f_equal (fun r => rp_options r.1)) in E. by rewrite release_one_options in E.
Qed.
Lemma resubmit_pending_options l : forall rp, rp_options (resubmit_pending RequestID rp l).1 = rp_options rp.
Proof.
  induction l as [|r l IH]; intros rp; cbn [resubmit_pending]; [done|]. pose proof (submitToPendingStore_options rp r) as E. destruct (submitToPendingStore RequestID rp r) as [rp1 [| |]]; cbn [fst] in *; [by rewrite IH|by rewrite IH|done].
Qed.
Lemma resubmit_batch_options fuel l : forall rp rp' o, resubmit_batch RequestID fuel rp l = Some (rp', o) -> rp_options rp' = rp_options rp.
Proof.
  induction l as [|r l IH]; intros rp rp' o; cbn [resubmit_batch]; [by intros [= <- <-]|]. destruct (submitToBatchStore fuel rp (RequestID r) r) as [[rp1 [| |]]|] eqn:E; [|by intros [= <- <-]; eapply submitToBatchStore_options..|done].
  intros E'. rewrite (IH _ _ _ E'). by eapply submitToBatchStore_options.
Qed.
Lemma moveToBatchStore_options fuel rp rp' o : moveToBatchStore RequestID fuel rp = Some (rp', o) -> rp_options rp' = rp_options rp.
Proof.
  unfold moveToBatchStore. destruct (rp_pending rp); [|by intros [= <- <-]]. cbn zeta. destruct (resubmit_batch _ _ _ _) as [[rp1 [| |]]|] eqn:E; [..|done];
    apply resubmit_batch_options in E; intros [= <- <-]; exact E.
Qed.
Lemma moveToPendingStore_options rp now : rp_options (moveToPendingStore RequestID rp now).1 = rp_options rp.
Proof.
  unfold moveToPendingStore. destruct (rp_batchStore rp); [|done]. cbn zeta. destruct (if (0 <? _)%Z then _ else _) as [sem| |]; [|done|done].
  match goal with |- context [resubmit_pending _ ?p ?l] => pose proof (resubmit_pending_options l p) as E; destruct (resubmit_pending RequestID p l) as [rp1 [| |]] end; exact E.
Qed.
Lemma Pool_Halt_options rp : rp_options (Pool_Halt rp).1 = rp_options rp.
Proof. unfold Pool_Halt. cbn. destruct (negb _); [|done]. by destruct (rp_pending rp). Qed.
Lemma Pool_Restart_options fuel rp batching now rp' o : Pool_Restart RequestID fuel rp batching now = Some (rp', o) -> rp_options rp' = rp_options rp.
Proof.
  unfold Pool_Restart. destruct (rp_closed rp); [by intros [= <- <-]|]. pose proof (Pool_Halt_options rp) as Eh. destruct (Pool_Halt rp) as [rp1 [| |]]; cbn [fst] in Eh; [|intros [= <- <-]; exact Eh..].
  destruct (rp_batchingEnabled rp1), batching; cbn [andb negb].
  - intros [= <- <-]. exact Eh.
  - intros [= <- <-]. pose proof (moveToPendingStore_options (with_mode rp1 (rp_closed rp1) (rp_stopped rp1) false) now) as E. cbn [restarted with_mode rp_options] in *. congruence.
  - intros E. apply fmap_Some in E as ([rp2 o2] & E & Er). apply moveToBatchStore_options in E. apply (f_equal (fun r => rp_options r.1)) in Er.
    cbn [restarted with_mode rp_options fst] in *. congruence.
  - destruct (rp_pending rp1); intros [= <- <-]; exact Eh.
Qed.

Lemma NextRequests_options rp : rp_options (NextRequests rp).1 = rp_options rp.
Proof. unfold NextRequests. destruct (_ || _); [done|]. destruct (negb _); [done|]. by destruct (rp_batchStore rp). Qed.
Lemma pool_step_options fuel rp op rp' o : pool_step fuel rp op = Some (rp', o) -> rp_options rp' = rp_options rp.
Proof.
  destruct op as [r| |ids|valid|now| | |batching now]; cbn [pool_step].
  - unfold Pool_Submit. destruct (_ || _); [by intros [= <- <-]|]. destruct (_ <? _)%N; [by intros [= <- <-]|]. destruct (Acquire _ _); [|by intros [= <- <-]]. cbn zeta.
    destruct (rp_batchingEnabled _); [by intros E%submitToBatchStore_options|]. intros [= E]. apply (f_equal (fun r => rp_options r.1)) in E. by rewrite submitToPendingStore_options in E.
  - intros [= <- _]. apply NextRequests_options.
  - intros [= E]. assert (rp' = (Pool_RemoveRequests rp ids).1) as -> by by rewrite E. unfold Pool_RemoveRequests. destruct (rp_closed rp); [done|].
    destruct (negb _); [destruct (rp_pending rp)|destruct (rp_batchStore rp)]; cbn zeta; rewrite ?on_delete_options; done.
  - intros [= E]. assert (rp' = (Pool_Prune rp valid).1) as -> by by rewrite E. unfold Pool_Prune. destruct (rp_closed rp); [done|].
    destruct (rp_batchingEnabled _); [destruct (rp_batchStore rp)|destruct (rp_pending rp)]; cbn zeta; rewrite ?on_delete_options; done.
  - intros [= <- <-]. unfold Pool_tick. by destruct (rp_pending rp).
  - by intros [= <- <-].
  - intros [= E]. by rewrite <-(Pool_Halt_options rp), E.
  - apply Pool_Restart_options.
Qed.

Lemma call_step_options fuel rp waiting c rp' waiting' o : call_step fuel rp waiting c = Some (rp', waiting', o) -> rp_options rp' = rp_options rp.
Proof.
  destruct c as [op| |cancelled]; cbn [call_step]; [|by intros [= <- _ _]|].
  - destruct (_ && _); [done|]. destruct (pool_step fuel rp op) as [[rp1 o1]|] eqn:E; [|done]. intros [= <- _ _]. by eapply pool_step_options.
  - destruct waiting; [by intros [= <- _ _]|]. destruct (_ && _); intros [= <- _ _]; [done|apply NextRequests_options].
Qed.
Lemma pool_run_options fuel cs : forall rp waiting rp' waiting', pool_run fuel rp waiting cs = Some (Ok (rp', waiting')) -> rp_options rp' = rp_options rp.
Proof.
  induction cs as [|c cs IH]; intros rp waiting rp' waiting'; cbn [pool_run]; [by intros [= <- _]|]. destruct (call_step fuel rp waiting c) as [[[rp1 w1] o]|] eqn:E; [|done]. apply call_step_options in E.
  destruct o; intros E'; [rewrite (IH _ _ _ _ E')|rewrite (IH _ _ _ _ E')|done]; done.
Qed.
End PoolThms.

(** * The pool of a batcher

    The theorems of the request pool of [src/request/pool.go], a pool to try them on, and the pool as the mempool of the batcher's role. *)

Section Claims.
Context {R : MapRange} (RequestID : bytes -> reqID).

(** C18: In a pool whose limits let every legal request fit a batch, whatever is submitted, fetched, removed, pruned, halted, restarted and closed by callers that cancel a waiting
    NextRequests before they stop or restart the pool and do not halt a closed one, also while calls of NextRequests wait: no call panics, and every call returns, NextRequests when a batch is full or its context is cancelled; the count the pool reports is the
    number of requests it stores and, while it is open, the number of permits taken from its semaphore, and never more than its maximal size. *)
Theorem pool_accounting o now fuel cs : options_ok o -> 2 <= fuel -> calls_ok false 0 cs ->
  exists rp waiting, pool_run RequestID fuel (NewPool o now) 0 cs = Some (Ok (rp, waiting)) /\
    (exists m : gmap reqID bytes, (forall k, m !! k = stored rp k) /\ RequestCount rp = Z.of_nat (size m)) /\
    (rp_closed rp = false -> sem_cur (rp_semaphore rp) = RequestCount rp) /\ (0 <= RequestCount rp <= Z.of_N (po_MaxSize o))%Z.
Proof.
  intros Ho Hf Hh. destruct (pool_run_spec RequestID fuel cs Hf (NewPool o now) 0 0 (pool_inv_new RequestID o now Ho) (le_n 0) Hh) as (rp & w & E & Hi). exists rp, w. split; [done|].
  destruct (stored_map RequestID rp Hi) as (m & Hm & Hs). split; [by exists m|]. split; [apply Hi|]. pose proof (pool_run_options RequestID fuel cs _ _ _ _ E) as Eo. cbn in Eo. rewrite <-Eo. apply Hi.
Qed.

(** Submit accepts a request exactly if the pool is neither closed nor halted, the request is within the size limit, a
    permit is free and its identifier is neither stored nor, on a secondary, that of a request that was already ordered; it then stores the request, and otherwise changes nothing
    that is stored. *)
Theorem submit_exact fuel rp request : pool_inv RequestID rp -> 2 <= fuel -> (N.of_nat (length request) <= u64_max)%N ->
  exists rp' o, Pool_Submit RequestID fuel rp request = Some (rp', o) /\ submitted RequestID rp request rp' o.
Proof. apply Pool_Submit_spec. Qed.

(** A batch of the pool has at most the maximal number of requests and of bytes, with distinct identifiers, and takes exactly
    its requests out of those that wait, so that no request is put in two batches; they stay stored until they are removed. *)
Theorem next_batch_limits rp : pool_inv RequestID rp ->
  exists rp' requests ids, NextRequests rp = (rp', Ok (requests, ids)) /\ next_batch RequestID rp rp' requests ids.
Proof. apply NextRequests_spec. Qed.

(** Restart returns in every role, and the requests that wait after it are exactly those that waited before: a new primary
    batches all requests it had as a secondary, and a former primary keeps those it had not batched and gives back the permits of the others. *)
Theorem restart_keeps_waiting fuel rp batching now : pool_inv RequestID rp -> 2 <= fuel ->
  exists rp' o, Pool_Restart RequestID fuel rp batching now = Some (rp', o) /\ restart_ok RequestID rp batching rp' o.
Proof. apply Pool_Restart_spec. Qed.

(** A request that the pool admits and that is bigger than a batch may be makes Submit of a primary loop forever, with a new
    batch per round, whatever fuel it is given. *)
Theorem oversize_submit_hangs fuel rp bs request :
  rp_closed rp = false -> rp_stopped rp = false -> rp_batchingEnabled rp = true -> rp_batchStore rp = Some bs -> bs_inv bs ->
  (1 <= sem_size (rp_semaphore rp) - sem_cur (rp_semaphore rp))%Z -> (bs_batchMaxSize bs < u32_max)%N ->
  (bs_batchMaxSizeBytes bs < N.of_nat (length request) <= po_RequestMaxBytes (rp_options rp))%N -> (bs_batchMaxSizeBytes bs + N.of_nat (length request) <= u32_max)%N ->
  Pool_Submit RequestID fuel rp request = None.
Proof.
  intros Hc Hs Hb Ebs Hi Hroom Hm [Hbig Hlen] Hov. unfold Pool_Submit. rewrite Hc, Hs. cbn [orb].
  assert (u64 (N.of_nat (length request)) = N.of_nat (length request) /\ u32 (N.of_nat (length request)) = N.of_nat (length request)) as [-> E32] by (unfold u64, u32, u32_max in *; split; apply N.mod_small; lia).
  rewrite (proj2 (N.ltb_ge _ _)) by done. unfold Acquire. rewrite (proj2 (Z.leb_le _ _)) by done. cbn zeta. cbn [with_permits rp_batchingEnabled]. rewrite Hb.
  unfold submitToBatchStore. cbn [with_permits rp_batchStore]. rewrite Ebs, E32. destruct (bi_current _ Hi) as (b & Hbb & Hmeas). by rewrite (Insert_oversize fuel bs b).
Qed.
End Claims.

(** The pool as the mempool of the batcher's role; a Submit or Restart that does not return has no result. *)
Definition pool_mempool {R : MapRange} (RequestID : bytes -> reqID) (fuel : nat) (now : Z) : MemPool Pool := {|
  mp_RemoveRequests rp ids := (Pool_RemoveRequests rp ids).1;
  mp_Submit rp request := default (rp, Panic "deadlock") (Pool_Submit RequestID fuel rp request);
  mp_Restart rp batching := match Pool_Restart RequestID fuel rp batching now with Some (rp, _) => rp | None => rp end |}.

(** ** A pool *)
Definition id_of (r : bytes) : reqID := take 2 r.
Definition pool_limits : PoolOptions := mkPoolOptions 3 2 10 6 10 10 400.
Definition busy : list pool_call :=
  [Call (PSubmit [Byte.x01]); Call (PSubmit [Byte.x02; Byte.x02; Byte.x02]); Call (PSubmit [Byte.x03]); Call (PSubmit [Byte.x04]); Call (PRestart true 5); NextCall; Call (PRemove [[Byte.x01]]); NextWake false;
   Call (PSubmit [Byte.x04]); NextWake true; Call (PRestart false 6); Call (PTick 7); Call (PPrune (fun _ => false)); Call PHalt; Call PClose; Call (PRestart true 8)].

Lemma pool_limits_ok : options_ok pool_limits.
Proof. by split. Qed.
Lemma pool_accounting_witness : exists rp waiting, pool_run (R := range_canonical) id_of 2 (NewPool pool_limits 0) 0 busy = Some (Ok (rp, waiting)) /\
  (exists m : gmap reqID bytes, (forall k, m !! k = stored rp k) /\ RequestCount rp = Z.of_nat (size m)) /\
  (rp_closed rp = false -> sem_cur (rp_semaphore rp) = RequestCount rp) /\ (0 <= RequestCount rp <= Z.of_N (po_MaxSize pool_limits))%Z.
Proof. apply (pool_accounting (R := range_canonical)); [apply pool_limits_ok|lia|vm_compute; repeat split; done]. Defined.

(** A Close while NextRequests waits does not return, as its comment says; it does after the context of that call was cancelled. *)
Example close_waits_for_fetch :
  pool_run (R := range_canonical) id_of 2 (NewPool pool_limits 0) 0 [Call (PRestart true 5); NextCall; Call PClose] = None /\
  is_Some (pool_run (R := range_canonical) id_of 2 (NewPool pool_limits 0) 0 [Call (PRestart true 5); NextCall; NextWake true; Call PClose]).
Proof. vm_compute. split; [done|by eexists]. Qed.

(** The pool after some of these operations. *)
Definition pool_after (n : nat) : Pool := match pool_run (R := range_canonical) id_of 2 (NewPool pool_limits 0) 0 (take n busy) with Some (Ok (rp, _)) => rp | _ => NewPool pool_limits 0 end.
Lemma pool_after_inv n : calls_ok false 0 (take n busy) -> pool_inv id_of (pool_after n).
Proof.
  intros Hh. destruct (pool_run_spec (R := range_canonical) id_of 2 (take n busy) ltac:(lia) _ 0 0 (pool_inv_new id_of pool_limits 0 pool_limits_ok) (le_n 0) Hh) as (rp & w & E & Hi).
  unfold pool_after. by rewrite E.
Qed.

Lemma submit_exact_witness : exists rp' o, Pool_Submit id_of 2 (pool_after 2) [Byte.x05] = Some (rp', o) /\ submitted id_of (pool_after 2) [Byte.x05] rp' o.
Proof. apply submit_exact; [apply pool_after_inv; vm_compute; repeat split; done|lia|vm_compute; done]. Defined.

Lemma next_batch_limits_witness : exists rp' requests ids, NextRequests (R := range_canonical) (pool_after 5) = (rp', Ok (requests, ids)) /\ next_batch (R := range_canonical) id_of (pool_after 5) rp' requests ids.
Proof. apply next_batch_limits. apply pool_after_inv. vm_compute. repeat split; done. Defined.

Lemma restart_keeps_waiting_witness : exists rp' o, Pool_Restart (R := range_canonical) id_of 2 (pool_after 6) false 6 = Some (rp', o) /\ restart_ok (R := range_canonical) id_of (pool_after 6) false rp' o.
Proof. apply (restart_keeps_waiting (R := range_canonical)); [apply pool_after_inv; vm_compute; repeat split; done|lia]. Defined.

(** A pool that admits requests of 20 bytes and batches of 10. *)
Definition misfit : Pool := match Pool_Restart (R := range_canonical) id_of 2 (NewPool (mkPoolOptions 3 2 10 20 10 10 400) 0) true 5 with Some (rp, _) => rp | None => NewPool pool_limits 0 end.
Lemma misfit_store : rp_batchStore misfit = Some (NewBatchStore 2 10).
Proof. vm_compute. reflexivity. Qed.
Lemma oversize_submit_hangs_witness : Pool_Submit id_of 1000 misfit (repeat Byte.x01 11) = None.
Proof.
  apply (oversize_submit_hangs id_of 1000 misfit (NewBatchStore 2 10));
    [vm_compute; reflexivity|vm_compute; reflexivity|vm_compute; reflexivity|apply misfit_store|apply bs_inv_new|vm_compute; done|vm_compute; done|vm_compute; split; done|vm_compute; done].
Defined.
