(* ===== verification/RateLimit.v ===== *)
(** * The rate limiter of the router

    [src/common/ratelimit/gcra.go] and [src/node/router/throttle.go]. The limiter is one int64; an admission is a compare-and-swap that succeeds, and
    a call that lost the race starts over with the same time, so calls take effect one after the other but their times may be out of order.
    Rates are IEEE doubles. *)
From stdpp Require Import gmap sets.
From Stdlib Require Import ZArith Lia Floats.SpecFloat.
From S2P Require Import Prelude.
Open Scope Z_scope.

(** ** Doubles *)
Definition float64_of_int (z : Z) : spec_float := binary_normalize 53 1024 z 0 false.
Definition float64_div (x y : spec_float) : spec_float := SFdiv 53 1024 x y.
(** Conversion to an int64 drops the fraction; what does not fit becomes the smallest int64, as on amd64. *)
Definition int64_of_float (x : spec_float) : Z :=
  match x with
  | S754_zero _ => 0
  | S754_finite s m e =>
      let n := if (0 <=? e)%Z then Zpos m * 2 ^ e else Zpos m / 2 ^ (- e) in
      if n <=? max_int64 then (if s then - n else n) else - 9223372036854775808
  | _ => - 9223372036854775808
  end.

(** ** The limiter *)
Record Limiter := mkLimiter { tatNanos : Z; intervalNanos : Z; burstOffsetNanos : Z }.
Definition second_nanos : Z := 1000000000.
Definition maxIntervalNanos : Z := 24 * 60 * 60 * second_nanos.

Definition newWithClock (rate : spec_float) (burst : Z) : option Limiter :=
  if SFleb rate (S754_zero false) then None else
  let intervalFloat := float64_div (float64_of_int second_nanos) rate in
  let intervalFloat := if SFltb (float64_of_int maxIntervalNanos) intervalFloat then float64_of_int maxIntervalNanos else intervalFloat in
  let interval := int64_of_float intervalFloat in
  if interval <=? 0 then None else
  let burst := if burst <? 1 then 1 else burst in
  let burstOffset := i64 (interval * burst) in
  let burstOffset := if negb (Z.quot burstOffset burst =? interval) then max_int64 else burstOffset in
  Some (mkLimiter 0 interval burstOffset).

(** A call that is not nil's and takes effect at once, at the time it read before. *)
Definition Allow (l : Limiter) (now : Z) : Limiter * bool :=
  let newTat := i64 (Z.max (tatNanos l) now + intervalNanos l) in
  if now <? i64 (newTat - burstOffsetNanos l) then (l, false)
  else (mkLimiter newTat (intervalNanos l) (burstOffsetNanos l), true).

(** ** The throttler of the router *)
Inductive throttlingPolicy := PolicyUnset | PolicyDisabled | PolicyGlobal | PolicyUnknown.
Record throttler := mkThrottler { global : option Limiter }.
Definition newThrottler (policy : throttlingPolicy) (Rate Burst : Z) : outcome throttler :=
  match policy with
  | PolicyUnset | PolicyDisabled => Ok (mkThrottler None)
  | PolicyGlobal =>
      fail_if Rate <=? 0 with "router throttling policy requires Rate > 0" ;;
      match newWithClock (float64_of_int Rate) Burst with
      | None => Err "Rate is too high"
      | Some l => Ok (mkThrottler (Some l))
      end
  | PolicyUnknown => Err "unknown router throttling policy"
  end.
Definition throttler_Allow (t : throttler) (now : Z) : throttler * bool :=
  match global t with None => (t, true) | Some l => let r := Allow l now in (mkThrottler (Some r.1), r.2) end.

(** ** Specification *)
(** Calls at the given times, one after the other, with the answers. *)
Fixpoint allow_all (l : Limiter) (nows : list Z) : list bool :=
  match nows with [] => [] | now :: rest => let r := Allow l now in r.2 :: allow_all r.1 rest end.

(** The reference: with the times admitted so far, the last one first, a call is admitted exactly if for no earlier admission the ones from it on
    exceed a burst and one per interval. *)
Fixpoint within_rate (T B now : Z) (n : nat) (hist : list Z) : bool :=
  match hist with [] => true | t :: rest => (t + Z.of_nat (n + 2) * T <=? now + B) && within_rate T B now (S n) rest end.
Definition may_admit (T B : Z) (hist : list Z) (now : Z) : bool := (T <=? B) && within_rate T B now 0 hist.
Fixpoint admit_all (T B : Z) (hist : list Z) (nows : list Z) : list bool :=
  match nows with [] => [] | now :: rest => let b := may_admit T B hist now in b :: admit_all T B (if b then now :: hist else hist) rest end.

(** The theoretical arrival time of a history: each admission counts one interval for itself and each later one. *)
Fixpoint tat_of (T : Z) (n : nat) (hist : list Z) : Z := match hist with [] => 0 | t :: rest => Z.max (t + Z.of_nat (n + 1) * T) (tat_of T (S n) rest) end.

Lemma within_rate_tat T B now hist : 0 < T -> 0 <= now -> T <= B -> forall n, (within_rate T B now n hist = true <-> tat_of T n hist + T <= now + B).
Proof.
  intros HT Hnow HB. induction hist as [|t rest IH]; intros n; cbn [within_rate tat_of]; [split; [lia|done]|].
  rewrite andb_true_iff, IH, Z.leb_le. rewrite Nat2Z.inj_add, Nat2Z.inj_add, <-Z.add_max_distr_r, Z.max_lub_iff. split; (intros [H1 H2]; split; [nia|done]).
Qed.

Lemma tat_of_shift T hist : 0 < T -> Forall (fun t => 0 <= t) hist -> forall n, hist <> [] -> tat_of T (S n) hist = tat_of T n hist + T.
Proof.
  intros HT. induction 1 as [|t rest Ht Hrest IH]; intros n Hne; [done|]. cbn [tat_of]. destruct rest as [|t' rest].
  - cbn [tat_of]. assert (0 < (Z.of_nat (n + 1)) * T) by nia. nia.
  - rewrite IH by done. rewrite <-Z.add_max_distr_r. f_equal. nia.
Qed.

Lemma tat_of_cons T hist now : 0 < T -> 0 <= now -> Forall (fun t => 0 <= t) hist -> tat_of T 0 (now :: hist) = Z.max (tat_of T 0 hist) now + T.
Proof.
  intros HT Hnow Hh. cbn [tat_of]. destruct hist as [|t rest]; [cbn [tat_of]; lia|]. rewrite tat_of_shift by done. lia.
Qed.

(** No time of a call is so late that the sums overflow. *)
Definition in_range (l : Limiter) (nows : list Z) : Prop := Forall (fun now => 0 <= now /\ now + burstOffsetNanos l + intervalNanos l <= max_int64) nows.

(** The answers are those of the reference, whatever the order of the times. *)
Lemma allow_all_reference T B nows : 0 < T -> 0 <= B -> forall tat hist, Forall (fun t => 0 <= t /\ t + B + T <= max_int64) nows -> Forall (fun t => 0 <= t) hist ->
  tat = tat_of T 0 hist -> tat + T <= max_int64 -> allow_all (mkLimiter tat T B) nows = admit_all T B hist nows.
Proof.
  intros HT HB. induction nows as [|now nows IH]; intros tat hist Hr Hh Et Htat; [done|]. apply Forall_cons in Hr as [[Hnow Hmax] Hr]. cbn [allow_all admit_all].
  assert (0 <= tat) as Ht0 by (subst tat; destruct Hh as [|t rest Ht _]; [done|]; cbn [tat_of]; lia).
  unfold Allow. cbn [tatNanos intervalNanos burstOffsetNanos]. unfold max_int64 in *.
  rewrite (i64_small (Z.max tat now + T)) by (unfold max_int64; lia). rewrite i64_small by (unfold max_int64; lia).
  assert (may_admit T B hist now = negb (now <? Z.max tat now + T - B)) as ->.
  { unfold may_admit. apply eq_true_iff_eq. rewrite andb_true_iff, negb_true_iff, Z.leb_le, Z.ltb_ge. split.
    - intros [H1 H2%within_rate_tat]; [|done..]. lia.
    - intros H. assert (T <= B) by lia. split; [done|]. apply within_rate_tat; [done..|]. lia. }
  destruct (Z.ltb_spec now (Z.max tat now + T - B)); cbn [negb fst snd]; f_equal.
  - by apply IH.
  - apply IH; [done|by constructor| |].
    + rewrite tat_of_cons by done. by subst.
    + lia.
Qed.

(** The admissions within a window of time. *)
Fixpoint admitted_in (a b : Z) (nows : list Z) (answers : list bool) : nat :=
  match nows, answers with
  | now :: nows, answer :: answers => ((if (answer && (a <=? now) && (now <=? b))%Z then 1 else 0) + admitted_in a b nows answers)%nat
  | _, _ => 0%nat
  end.

Lemma window_bound T B a b nows : 0 < T -> 0 <= B -> forall tat, 0 <= tat -> Forall (fun t => 0 <= t /\ t + B + T <= max_int64) nows -> tat + T <= max_int64 ->
  (admitted_in a b nows (allow_all (mkLimiter tat T B) nows) > 0)%nat ->
  Z.max tat a + Z.of_nat (admitted_in a b nows (allow_all (mkLimiter tat T B) nows)) * T <= b + B.
Proof.
  intros HT HB. induction nows as [|now nows IH]; intros tat Ht0 Hr Htat Hpos; [cbn in Hpos; lia|]. apply Forall_cons in Hr as [[Hnow Hmax] Hr]. cbn [allow_all admitted_in] in *.
  unfold Allow in *. cbn [tatNanos intervalNanos burstOffsetNanos] in *. unfold max_int64 in *.
  rewrite (i64_small (Z.max tat now + T)) in * by (unfold max_int64; lia). rewrite i64_small in * by (unfold max_int64; lia).
  destruct (Z.ltb_spec now (Z.max tat now + T - B)); cbn [fst snd andb] in *; [by apply IH|].
  specialize (IH (Z.max tat now + T) ltac:(lia) Hr ltac:(lia)). set (n := admitted_in a b nows _) in *.
  destruct (Z.leb_spec a now) as [Ha|Ha], (Z.leb_spec now b) as [Hb|Hb]; cbn [andb] in *;
    destruct (decide (n = 0)%nat) as [->|Hn]; try lia; specialize (IH ltac:(lia)); nia.
Qed.

(** The limiter admits exactly what its rate and burst allow. A fresh limiter with interval [T] and a burst offset
    [B] answers every sequence of calls, also with times out of order as concurrent calls have them, like the reference that admits a call unless the admissions since some earlier one
    would exceed a burst and one per interval; and in every window of time at most [(b - a + B) / T] calls are admitted. *)
Lemma limiter_exact T B nows a b : 0 < T -> 0 <= B -> in_range (mkLimiter 0 T B) nows -> T <= max_int64 -> a <= b ->
  allow_all (mkLimiter 0 T B) nows = admit_all T B [] nows /\
  Z.of_nat (admitted_in a b nows (allow_all (mkLimiter 0 T B) nows)) * T <= b - a + B.
Proof.
  intros HT HB Hr Hmax Hab. split; [by apply allow_all_reference|]. pose proof (window_bound T B a b nows HT HB 0 ltac:(lia) Hr ltac:(lia)) as Hw.
  set (n := admitted_in a b nows _) in *. destruct (decide (n = 0)%nat) as [->|Hn]; [lia|]. specialize (Hw ltac:(lia)). lia.
Qed.

(** A limiter of ten per second with a burst of two, and the one for a rate that no double interval divides evenly. *)
Example ten_per_second : newWithClock (float64_of_int 10) 2 = Some (mkLimiter 0 100000000 200000000).
Proof. vm_compute. reflexivity. Qed.
Example seven_per_second : newWithClock (float64_of_int 7) 0 = Some (mkLimiter 0 142857142 142857142).
Proof. vm_compute. reflexivity. Qed.
Example too_fast : newThrottler PolicyGlobal 1000000001 5 = Err "Rate is too high".
Proof. vm_compute. reflexivity. Qed.

Example limiter_exact_at : allow_all (mkLimiter 0 100 200) [0; 0; 0; 150; 120; 260] = admit_all 100 200 [] [0; 0; 0; 150; 120; 260] /\
  Z.of_nat (admitted_in 0 150 [0; 0; 0; 150; 120; 260] (allow_all (mkLimiter 0 100 200) [0; 0; 0; 150; 120; 260])) * 100 <= 150 - 0 + 200.
Proof. apply (limiter_exact 100 200 [0; 0; 0; 150; 120; 260] 0 150); [lia|lia|unfold in_range, max_int64; cbn; repeat constructor; lia|vm_compute; done|lia]. Defined.
