(* ===== verification/RequestFilter.v ===== *)
(** * Verification of client requests

    [src/common/requestfilter]: the rules a request is checked against; [src/node/router/mapper.go]: the shard of a request;
    [src/node/batcher/requests_inspector_verifier.go]: how a batcher checks a request and a batch of a primary;
    and the classification of requests by the router in [src/node/router/stream.go]. *)
From stdpp Require Import gmap sets.
From Stdlib Require Import NArith ZArith Lia.
From S2P Require Import Prelude Types Events Blocks Batcher.

(** ** Requests *)
Record Request := mkRequest { rq_Payload : slice; rq_Signature : bytes; rq_TraceId : slice; rq_ConfigSeq : N }.
Definition nil_if_empty (bs : bytes) : slice := match bs with [] => None | _ => Some bs end.
(** The headers of a payload: those of the channel and of the signature. *)
Record Headers := mkHeaders { hd_ChannelHeader : slice; hd_SignatureHeader : slice }.
Record SignatureHeader := mkSignatureHeader { sh_Creator : bytes; sh_Nonce : bytes }.
Record SignedData := mkSignedData { sd_Data : slice; sd_Identity : bytes; sd_Signature : bytes }.

(** The decoders of the messages in a request. The headers are those of the payload message of [FabricCodecs], and an envelope read as a request has
    its payload and signature, since the two messages have these fields in common. *)
Class RequestCodecs `{FabricCodecs} := {
  payload_headers : bytes -> option (option Headers);
  signature_header : bytes -> option SignatureHeader;
  UnmarshalIdentity : bytes -> option bytes;
  request_of : bytes -> option Request;
  headers_of_payload : forall bs p, dec (A := Payload) bs = Some p ->
    exists h, payload_headers bs = Some h /\ (fun h => slice_bytes (hd_ChannelHeader h)) <$> h = pl_Header p;
  request_of_envelope : forall env bs, enc (A := Envelope) env = Some bs ->
    exists r, request_of bs = Some r /\ rq_Payload r = nil_if_empty (env_Payload env) /\ rq_Signature r = env_Signature env
}.

(** ** Rules *)
Inductive Rule := AcceptRule | PayloadNotEmptyRule | MaxSizeFilter (requestMaxBytes : N).
Definition Rule_Verify (rule : Rule) (request : Request) : outcome unit :=
  match rule with
  | AcceptRule => Ok tt
  | PayloadNotEmptyRule => match rq_Payload request with None => Err "empty payload field" | Some _ => Ok tt end
  | MaxSizeFilter requestMaxBytes =>
      let requestSize := u64 (N.of_nat (length (slice_bytes (rq_Payload request)) + length (rq_Signature request))) in
      fail_if (requestMaxBytes <? requestSize)%N with "the request's size exceeds the maximum size" ;; Ok tt
  end.
(** What the filters read from a node's configuration. *)
Record FilterConfig := mkFilterConfig {
  fc_RequestMaxBytes : N;
  fc_ClientSignatureVerificationRequired : bool;
  fc_ChannelID : string;
  fc_PolicyManager : string -> option (SignedData -> bool)
}.
Definition Rule_Update (config : FilterConfig) (rule : Rule) : Rule := match rule with MaxSizeFilter _ => MaxSizeFilter (fc_RequestMaxBytes config) | r => r end.

Record SigFilter := mkSigFilter {
  sf_clientSignatureVerificationRequired : bool; sf_channelID : string; sf_policyName : string; sf_policyManager : string -> option (SignedData -> bool) }.
Definition NewSigFilter (config : FilterConfig) (policyName : string) : SigFilter :=
  mkSigFilter (fc_ClientSignatureVerificationRequired config) (fc_ChannelID config) policyName (fc_PolicyManager config).
Definition SigFilter_Update (config : FilterConfig) (sf : SigFilter) : SigFilter := NewSigFilter config (sf_policyName sf).

Record RulesVerifier := mkRulesVerifier { rv_rules : list Rule; rv_structureRule : option SigFilter }.
Definition AddRule (rule : Rule) (rv : RulesVerifier) : RulesVerifier := mkRulesVerifier (rv_rules rv ++ [rule]) (rv_structureRule rv).
Definition AddStructureRule (sf : SigFilter) (rv : RulesVerifier) : RulesVerifier := mkRulesVerifier (rv_rules rv) (Some sf).
Definition RulesVerifier_Update (config : FilterConfig) (rv : RulesVerifier) : RulesVerifier :=
  mkRulesVerifier (Rule_Update config <$> rv_rules rv) (SigFilter_Update config <$> rv_structureRule rv).

Definition ChannelWriters : string := "/Channel/Writers".
(** The verifier that the router and the batchers create. *)
Definition createVerifier (config : FilterConfig) : RulesVerifier :=
  AddStructureRule (NewSigFilter config ChannelWriters) (AddRule (MaxSizeFilter (fc_RequestMaxBytes config)) (AddRule PayloadNotEmptyRule (mkRulesVerifier [] None))).

Fixpoint verify_rules (rules : list Rule) (request : Request) : outcome unit :=
  match rules with [] => Ok tt | rule :: rest => _ ← Rule_Verify rule request; verify_rules rest request end.
Definition Verify (rv : RulesVerifier) (request : Request) : outcome unit := verify_rules (rv_rules rv) request.

(** ** The structure of a request *)
Section Structure.
Context `{RequestCodecs} `{Sha256}.

Definition ComputeTxID (nonce creator : bytes) : bytes := hex_encode (sha256 (nonce ++ creator)).
Definition verifyTxID (chdr : ChannelHeader) (shdr : SignatureHeader) : outcome unit :=
  fail_if bool_decide (sh_Nonce shdr = []) with "missing nonce in signature header" ;;
  fail_if negb (bool_decide (length (ch_TxId chdr) = 64)) with "invalid tx id" ;;
  fail_if negb (bool_decide (ch_TxId chdr = ComputeTxID (sh_Nonce shdr) (sh_Creator shdr))) with "invalid tx id" ;;
  Ok tt.

Definition requestToSignedData (request : Request) : outcome (SignedData * Z) :=
  headers ← of_option "failed unmarshalling payload" (payload_headers (slice_bytes (rq_Payload request)));
  header ← of_option "missing header in request's payload" headers;
  rawSignatureHeader ← of_option "missing signature header in payload's header" (hd_SignatureHeader header);
  shdr ← of_option "failed unmarshalling signature header" (signature_header rawSignatureHeader);
  rawChannelHeader ← of_option "missing channel header in request's payload" (hd_ChannelHeader header);
  chdr ← wrap_err "failed unmarshalling channel header" (unmarshal rawChannelHeader : outcome ChannelHeader);
  _ ← verifyTxID chdr shdr;
  id ← of_option "error unmarshalling Identity" (UnmarshalIdentity (sh_Creator shdr));
  Ok (mkSignedData (rq_Payload request) id (rq_Signature request), ch_Type chdr).

Definition SigFilter_VerifyAndClassify (sf : SigFilter) (request : Request) : outcome Z :=
  sd ← wrap_err "failed to convert request to signedData" (requestToSignedData request);
  let '(signedData, reqType) := sd in
  if sf_clientSignatureVerificationRequired sf || bool_decide (reqType = HeaderType_CONFIG_UPDATE) then
    policy ← of_option "no policies in config block" (sf_policyManager sf (sf_policyName sf));
    fail_if negb (policy signedData : bool) with "signature did not satisfy policy" ;; Ok reqType
  else Ok reqType.

Definition VerifyStructureAndClassify (rv : RulesVerifier) (request : Request) : outcome Z :=
  sf ← of_option "sturcture rule is not set in verifier" (rv_structureRule rv); SigFilter_VerifyAndClassify sf request.

(** ** The router's check *)
Definition HeaderType_ORDERER_TRANSACTION : Z := 4.
Definition HeaderType_DELIVER_SEEK_INFO : Z := 5.
(** [len(common.HeaderType_value)] *)
Definition header_types : Z := 7.
Definition supported_type (reqType : Z) : bool :=
  negb ((header_types <=? reqType)%Z || bool_decide (reqType = HeaderType_CONFIG) || bool_decide (reqType = HeaderType_ORDERER_TRANSACTION) || bool_decide (reqType = HeaderType_DELIVER_SEEK_INFO)).
Definition verifyAndClassifyRequest (rv : RulesVerifier) (request : Request) : outcome Z :=
  _ ← wrap_err "request verification error" (Verify rv request);
  reqType ← wrap_err "request structure verification error" (VerifyStructureAndClassify rv request);
  fail_if negb (supported_type reqType) with "request has unsupported type" ;; Ok reqType.
End Structure.

(** ** The shard of a request *)
(** The reflected polynomial of ECMA-182, a step for one bit, and for one byte as by the table. *)
Definition crc64_ECMA : N := 0xC96C5795D7870F42.
Definition crc_bit (crc : N) : N := if N.testbit crc 0 then N.lxor (N.shiftr crc 1) crc64_ECMA else N.shiftr crc 1.
Definition crc_table (b : N) : N := Nat.iter 8 crc_bit b.
Definition crc_byte (crc : N) (b : Byte.byte) : N := N.lxor (crc_table (N.lxor (N.land crc 255) (Byte.to_N b))) (N.shiftr crc 8).
Definition crc64_Checksum (bs : bytes) : N := N.lxor u64_max (foldl crc_byte u64_max bs).
Example crc64_check : crc64_Checksum (Byte.x31 :: [Byte.x32; Byte.x33; Byte.x34; Byte.x35; Byte.x36; Byte.x37; Byte.x38; Byte.x39]) = 0x995DC9BBDF1939FA%N.
Proof. vm_compute. reflexivity. Qed.

(** The result is the shard index and the request's identifier; no shards are a division by zero. *)
Definition CRC64RequestToShard (shardCount : N) (request : bytes) : outcome (N * bytes) :=
  let reqID := crc64_Checksum request in
  panic_if (shardCount =? 0)%N with "integer divide by zero" ;;
  Ok ((u16 reqID mod shardCount)%N, be_put 8 reqID).
Definition Mapper_Map (shardCount : N) (request : bytes) : outcome (N * bytes) := CRC64RequestToShard shardCount request.

(** ** The batcher's check *)
Class PooledRequests (P : Type) := { pr_Contains : P -> bytes -> bool }.

Record RequestsInspectorVerifier := mkInspector {
  riv_batchMaxBytes : N;
  riv_batchMaxSize : N;
  riv_shards : list ShardID;
  riv_shardID : ShardID;
  riv_requestVerifier : RulesVerifier;
  riv_configSeq : N
}.

Section Inspector.
Context `{RequestCodecs} `{Sha256} `{PooledRequests P} (requestIDFunc : bytes -> bytes).

Definition VerifyRequestShard (r : RequestsInspectorVerifier) (req : Request) : outcome unit :=
  if bool_decide (length (riv_shards r) = 1) then Ok tt else
  m ← Mapper_Map (u16 (N.of_nat (length (riv_shards r)))) (slice_bytes (rq_Payload req));
  shard ← Prelude.index (riv_shards r) (N.to_nat m.1);
  fail_if negb (riv_shardID r =? shard)%N with "request maps to another shard" ;; Ok tt.

Definition VerifyRequestFromRouter (r : RequestsInspectorVerifier) (req : Request) : outcome unit :=
  fail_if negb (riv_configSeq r =? rq_ConfigSeq req)%N with "mismatch config seq" ;; Ok tt.

Definition Inspector_VerifyRequest (r : RequestsInspectorVerifier) (req : bytes) : outcome unit :=
  request ← of_option "failed to unmarshall req" (request_of req);
  _ ← wrap_err "failed verifying request" (VerifyRequestShard r request);
  _ ← wrap_err "failed verifying request" (Verify (riv_requestVerifier r) request);
  _ ← wrap_err "failed verifying request 's structure" (VerifyStructureAndClassify (riv_requestVerifier r) request);
  Ok tt.

(** The requests that are not in the pool are checked by parallel workers, each one by exactly one worker unless another
    request failed before; a panic of any of them stops the process. *)
Definition check_one (r : RequestsInspectorVerifier) (pool : P) (req : bytes) : outcome unit :=
  if pr_Contains pool (requestIDFunc req) then Ok tt else Inspector_VerifyRequest r req.
Definition VerifyBatchedRequests_ (r : RequestsInspectorVerifier) (pool : P) (reqs : list bytes) : outcome (list bytes) :=
  fail_if bool_decide (reqs = []) with "empty batch" ;;
  fail_if (riv_batchMaxSize r <? N.of_nat (length reqs))%N with "batch is too big" ;;
  fail_if (riv_batchMaxBytes r <? N.of_nat (sum_list (length <$> reqs)))%N with "batch is too big" ;;
  match List.find (fun o => match o with Panic _ => true | _ => false end) (check_one r pool <$> reqs) with
  | Some (Panic m) => Panic m
  | _ =>
      if forallb (fun req => is_ok (check_one r pool req)) reqs then Ok (requestIDFunc <$> reqs) else Err "failed verifying batch"
  end.
End Inspector.

(** The inspector as the verifier of a batcher's role. *)
Definition inspector_verifier `{RequestCodecs} `{Sha256} `{PooledRequests P} (requestIDFunc : bytes -> bytes) (r : RequestsInspectorVerifier) : BatchedRequestsVerifier P :=
  {| VerifyBatchedRequests pool reqs := VerifyBatchedRequests_ requestIDFunc r pool reqs; VerifyRequest req := Inspector_VerifyRequest r req |}.
