(* ===== verification/Router.v ===== *)
(** * The router: dispatch, replies and the decisions it follows

    [src/node/router/router.go], [shard_router.go] (choice of a stream), [tracked_request.go], [client_feedback.go] and
    [config_submitter.go]. The streams to a batcher are in [RouterStream]. *)
From stdpp Require Import gmap sets sorting.
From Stdlib Require Import NArith ZArith Lia Strings.String.
From S2P Require Import Prelude Types Events State Blocks StateCodec ConfigStore RequestFilter.

(** ** Dispatch *)
(** The shards of the configuration in increasing order: what the router keeps, and GetShardsIDs of a batcher's configuration. *)
Definition sortedShardIDs (shards : list ShardID) : list ShardID := merge_sort N.le shards.

(** The shard whose router gets the request, and the request's identifier; the shard routers are created for all shard ids. *)
Definition getShardRouterAndReqID (shardIDs : list ShardID) (shardRouters : gset ShardID) (req : Request) : outcome (ShardID * bytes) :=
  m ← Mapper_Map (u16 (N.of_nat (List.length shardIDs))) (slice_bytes (rq_Payload req));
  shardId ← Prelude.index shardIDs (N.to_nat m.1);
  panic_if negb (bool_decide (shardId ∈ shardRouters)) with "Mapped request to a non existent shard" ;;
  Ok (shardId, m.2).

(** The connection and the stream in it of a request: the leading four bytes of its identifier, zero-padded, modulo the number of streams. *)
Definition streamIndexes (connPoolSize streamsPerConn : N) (reqID : bytes) : outcome (N * N) :=
  let leadingBytes := take 4 (reqID ++ repeat Byte.x00 4) in
  let numOfSlots := (connPoolSize * streamsPerConn)%N in
  panic_if (numOfSlots =? 0)%N with "integer divide by zero" ;;
  let slot := (be_get leadingBytes mod numOfSlots)%N in
  Ok ((slot / streamsPerConn)%N, (slot mod streamsPerConn)%N).

(** ** Replies *)
Record SubmitResponse := mkSubmitResponse { sr_ReqID : bytes; sr_TraceId : bytes; sr_Error : string }.
(** [rs_err] is [None] for a nil error. *)
Record Response := mkResponse { rs_err : option string; rs_reqID : bytes; rs_SubmitResponse : option SubmitResponse }.
Definition ErrThrottled : string := "service unavailable: request throttled by router rate limiter".

Definition responseToSubmitResponse (response : Response) : outcome SubmitResponse :=
  match rs_SubmitResponse response with
  | Some r => Ok r
  | None => match rs_err response with
            | Some e => Ok (mkSubmitResponse (rs_reqID response) [] e)
            | None => Panic "invalid memory address or nil pointer dereference"
            end
  end.

Inductive Status := SUCCESS | SERVICE_UNAVAILABLE | INTERNAL_SERVER_ERROR.
(** [errors.Is] compares with the sentinel itself, which the router passes on unwrapped. *)
Definition responseToBroadcastResponse (response : Response) : Status * string :=
  match rs_err response with
  | None => (SUCCESS, ""%string)
  | Some e => if bool_decide (e = ErrThrottled) then (SERVICE_UNAVAILABLE, e) else (INTERNAL_SERVER_ERROR, e)
  end.

(** ** The feedback of a client *)
Record RouterMetrics := mkRouterMetrics {
  rm_rejected400 : N; rm_rejected500 : N; rm_droppedClientGone : N; rm_droppedRouterDraining : N; rm_droppedClientBehind : N }.
Definition contains (sub s : string) : bool := match String.index 0 sub s with Some _ => true | None => false end.
Definition increaseErrorCount (err : option string) (m : RouterMetrics) : RouterMetrics :=
  match err with
  | None => m
  | Some e =>
      mkRouterMetrics
        (if contains "request verification error" e || contains "request structure verification error" e || contains "bad request" e
         then (rm_rejected400 m + 1)%N else rm_rejected400 m)
        (if contains "server error" e then (rm_rejected500 m + 1)%N else rm_rejected500 m)
        (rm_droppedClientGone m) (rm_droppedRouterDraining m) (rm_droppedClientBehind m)
  end.

Definition clientFeedbackBufferSize : nat := 1000.
Record clientFeedback := mkClientFeedback {
  cf_responses : list Response; cf_cap : nat; cf_dropped : N; cf_nextReport : N; cf_clientDone : bool; cf_routerDraining : bool }.
Definition newClientFeedback (capacity : nat) : clientFeedback := mkClientFeedback [] capacity 0 0 false false.

Definition nextDropReport (cap : nat) (reported : N) : N :=
  let ceiling := (10 * N.max (N.of_nat cap) 10)%N in
  if (reported =? 0)%N then 10%N else if (reported <? ceiling)%N then u64 (reported * 10) else u64 (reported + ceiling).
(** The result tells whether a warning is logged. *)
Definition reportDrop (c : clientFeedback) : clientFeedback * bool :=
  let n := u64 (cf_dropped c + 1) in
  if (n <? cf_nextReport c)%N then (mkClientFeedback (cf_responses c) (cf_cap c) n (cf_nextReport c) (cf_clientDone c) (cf_routerDraining c), false)
  else (mkClientFeedback (cf_responses c) (cf_cap c) n (nextDropReport (cf_cap c) (cf_nextReport c)) (cf_clientDone c) (cf_routerDraining c), true).
Definition recordDrop (c : clientFeedback) (m : RouterMetrics) (resp : Response) : clientFeedback * RouterMetrics :=
  let m := increaseErrorCount (rs_err resp) m in
  if cf_clientDone c then (c, mkRouterMetrics (rm_rejected400 m) (rm_rejected500 m) (rm_droppedClientGone m + 1) (rm_droppedRouterDraining m) (rm_droppedClientBehind m))
  else if cf_routerDraining c then (c, mkRouterMetrics (rm_rejected400 m) (rm_rejected500 m) (rm_droppedClientGone m) (rm_droppedRouterDraining m + 1) (rm_droppedClientBehind m))
  else ((reportDrop c).1, mkRouterMetrics (rm_rejected400 m) (rm_rejected500 m) (rm_droppedClientGone m) (rm_droppedRouterDraining m) (rm_droppedClientBehind m + 1)).
Definition reply (c : clientFeedback) (m : RouterMetrics) (resp : Response) : clientFeedback * RouterMetrics * bool :=
  if bool_decide (List.length (cf_responses c) < cf_cap c)
  then (mkClientFeedback (cf_responses c ++ [resp]) (cf_cap c) (cf_dropped c) (cf_nextReport c) (cf_clientDone c) (cf_routerDraining c), m, true)
  else (recordDrop c m resp, false).

(** ** Config updates *)
(** What a config request goes through on its way to the consenter: the proposal of the update, the rules of the new configuration and of the
    transition, and the call of the consenter, whose response and error are both given. *)
Class ConfigPath := {
  ProposeConfigUpdate : Request -> outcome Request;
  ValidateNewConfig : Envelope -> outcome unit;
  ValidateTransition : Envelope -> outcome unit;
  submitConfigRequestToConsensus : Request -> option SubmitResponse * option string
}.
Section ConfigSubmitter.
Context `{ConfigPath}.
Definition forward_failed (reqID : bytes) (text : string) : Response := mkResponse (Some text) reqID None.
(** The reply to a config request, whether it was submitted to the consenter, and the panic for no response without an error. *)
Definition forwardRequest (request : Request) (reqID : bytes) : outcome (Response * bool) :=
  match ProposeConfigUpdate request with
  | Panic p => Panic p
  | Err _ => Ok (forward_failed reqID "error in verification and proposing update", false)
  | Ok configRequest =>
      let env := mkEnvelope (slice_bytes (rq_Payload configRequest)) (rq_Signature configRequest) in
      match ValidateNewConfig env with
      | Panic p => Panic p
      | Err _ => Ok (forward_failed reqID "error in validating config rules", false)
      | Ok _ =>
          match ValidateTransition env with
          | Panic p => Panic p
          | Err _ => Ok (forward_failed reqID "error in validating config transition rules", false)
          | Ok _ =>
              let '(resp, err) := submitConfigRequestToConsensus request in
              let resp := (fun r => mkSubmitResponse reqID (sr_TraceId r) (sr_Error r)) <$> resp in
              match err with
              | Some _ => Ok (mkResponse (Some "error forwarding config request to consenter"%string) reqID resp, true)
              | None =>
                  r ← deref resp;
                  Ok (mkResponse (if bool_decide (sr_Error r = ""%string) then None else Some (sr_Error r)) reqID (Some r), true)
              end
          end
      end
  end.
End ConfigSubmitter.

(** ** The decisions of the consensus *)
Section Decisions.
Context `{FabricCodecs} `{BlockCodecs} `{StateCodecs} `{Sha256}.

Definition getDecisionNumberFromConfigBlock (configBlock : Block) : outcome DecisionNum :=
  md ← deref (b_Metadata configBlock);
  raw ← or_panic (Prelude.index md BlockMetadataIndex_ORDERER);
  t ← or_panic (AssemblerBlockMetadataFromBytes (Some raw));
  let '(_, _, _, num, _, _, _) := t in Ok num.

(** What the router keeps on disk; the write-ahead log is truncated to its last entry. *)
Record RouterDisk := mkRouterDisk { rd_wal : list bytes; rd_store : Store }.

Definition getNextDecisionNumber (d : RouterDisk) : outcome DecisionNum :=
  match last (rd_wal d) with
  | Some lastWalEntry => decision ← or_panic (Header_Deserialize (Some lastWalEntry)); Ok (h_Num decision)
  | None =>
      lastBlock ← or_panic (Store_Last (rd_store d));
      header ← deref (b_Header lastBlock);
      if (bh_Number header =? 0)%N then Ok 1%N else num ← getDecisionNumberFromConfigBlock lastBlock; Ok (u64 (num + 1))
  end.

(** The body of the loop of pullAndProcessDecisions: the write to the log, and the rest, whose result is the config block that
    the router reconfigures to and stops pulling for. *)
Definition append_decision (d : RouterDisk) (decision : Header) : outcome RouterDisk :=
  raw ← Header_Serialize decision; Ok (mkRouterDisk [raw] (rd_store d)).
Definition process_decision (d : RouterDisk) (decision : Header) : outcome (RouterDisk * option Block) :=
  if negb (h_Num decision =? h_DecisionNumOfLastConfigBlock decision)%N then Ok (d, None) else
  block ← (match last (h_AvailableCommonBlocks decision) with Some b => Ok b | None => Panic "index out of range [-1]" end);
  let blockNum := block_number block in
  if negb (IsConfigBlock block) then Ok (d, None) else
  lastBlockInStore ← or_panic (Store_Last (rd_store d));
  header ← deref (b_Header lastBlockInStore);
  if (blockNum <=? bh_Number header)%N then Ok (d, None) else
  store ← or_panic (Store_Add (rd_store d) (Some block));
  Ok (mkRouterDisk (rd_wal d) store, Some block).
End Decisions.
