(* ===== verification/RouterThms.v ===== *)
(** * Theorems on the router

    A request is routed to the shard whose batchers accept it; no config block of the consensus is missed by a router that
    crashes, reconnects or is reconfigured at any point. *)
From stdpp Require Import gmap sets sorting relations.
From Stdlib Require Import NArith ZArith Lia.
From Stdlib Require Import Init.Byte.
From S2P Require Import Prelude Types Events State StateFacts StateProps Round Badb Consenter Blocks Ledger StateCodec StateCodecFacts Consensus ConfigStore RequestFilter Router Sample SampleBlocks SampleNode ConsensusThms.

(** ** Routing *)
Lemma sorted_same (shards shards' : list ShardID) : shards ≡ₚ shards' -> sortedShardIDs shards = sortedShardIDs shards'.
Proof.
  intros HP. apply (StronglySorted_unique N.le); [apply StronglySorted_merge_sort; [typeclasses eauto|intros x y; lia]..|].
  unfold sortedShardIDs. by rewrite !merge_sort_Permutation.
Qed.

Lemma streamIndexes_range conns streams reqID : (0 < conns)%N -> (0 < streams)%N ->
  exists i j, streamIndexes conns streams reqID = Ok (i, j) /\ (i < conns)%N /\ (j < streams)%N.
Proof.
  intros Hc Hs. unfold streamIndexes. rewrite (proj2 (N.eqb_neq (conns * streams) 0)) by nia. cbn [guard_panic].
  set (slot := (be_get _ mod _)%N). assert (slot < conns * streams)%N by (apply N.mod_lt; nia). eexists _, _. split; [reflexivity|].
  split; [apply N.Div0.div_lt_upper_bound; nia|apply N.mod_lt; lia].
Qed.

Lemma map_in_range (shards : list ShardID) payload : shards <> [] -> (N.of_nat (length shards) <= u16_max)%N ->
  exists i s, Mapper_Map (u16 (N.of_nat (length shards))) payload = Ok (i, be_put 8 (crc64_Checksum payload)) /\ Prelude.index shards (N.to_nat i) = Ok s /\ s ∈ shards.
Proof.
  intros Hne Hlen. assert (0 < length shards) by (destruct shards; [done|cbn; lia]). unfold Mapper_Map, CRC64RequestToShard. rewrite u16_small by done.
  rewrite (proj2 (N.eqb_neq _ _)) by lia. cbn [guard_panic]. set (i := (_ mod N.of_nat (length shards))%N).
  assert (i < N.of_nat (length shards))%N by (apply N.mod_lt; lia). destruct (lookup_lt_is_Some_2 shards (N.to_nat i)) as [s Hs]; [lia|].
  exists i, s. split; [done|]. split; [by apply index_Ok|]. by eapply list_elem_of_lookup_2.
Qed.

Lemma shard_accepts r req s i id : s ∈ riv_shards r -> riv_shardID r ∈ riv_shards r ->
  Mapper_Map (u16 (N.of_nat (length (riv_shards r)))) (slice_bytes (rq_Payload req)) = Ok (i, id) -> Prelude.index (riv_shards r) (N.to_nat i) = Ok s ->
  VerifyRequestShard r req = if (riv_shardID r =? s)%N then Ok tt else Err "request maps to another shard".
Proof.
  intros Hs Hr Hm Hi. unfold VerifyRequestShard. case_bool_decide as Hone.
  - destruct (riv_shards r) as [|x [|]] eqn:E; try discriminate Hone. apply list_elem_of_singleton in Hs, Hr. by rewrite Hs, Hr, N.eqb_refl.
  - rewrite Hm. cbn [mbind outcome_bind fst]. rewrite Hi. cbn [mbind outcome_bind]. by destruct (riv_shardID r =? s)%N.
Qed.

(** Router and batchers agree on the shard of a request. With any configured shards, the router passes a request to exactly one of
    them, whose batchers accept it, and the batchers of every other shard reject it, in whatever order their configurations list the shards and
    whatever else differs in the request but its payload; the identifier has eight bytes and selects one of the streams to the
    batcher. Nothing panics. *)
Theorem request_routing (shards : list ShardID) req : shards <> [] -> (N.of_nat (length shards) <= u16_max)%N ->
  exists s id, getShardRouterAndReqID (sortedShardIDs shards) (list_to_set shards) req = Ok (s, id) /\ s ∈ shards /\ length id = 8 /\
    (forall r req', riv_shards r ≡ₚ shards -> riv_shards r = sortedShardIDs (riv_shards r) -> riv_shardID r ∈ shards -> slice_bytes (rq_Payload req') = slice_bytes (rq_Payload req) ->
       VerifyRequestShard r req' = if (riv_shardID r =? s)%N then Ok tt else Err "request maps to another shard") /\
    (forall conns streams, (0 < conns)%N -> (0 < streams)%N ->
       exists i j, streamIndexes conns streams id = Ok (i, j) /\ (i < conns)%N /\ (j < streams)%N).
Proof.
  intros Hne Hlen. pose proof (merge_sort_Permutation N.le shards) as HP. fold (sortedShardIDs shards) in HP.
  destruct (map_in_range (sortedShardIDs shards) (slice_bytes (rq_Payload req))) as (i & s & Hm & Hi & Hs).
  { intros E. rewrite E in HP. by apply Permutation_nil in HP. } { by rewrite HP. }
  exists s, (be_put 8 (crc64_Checksum (slice_bytes (rq_Payload req)))). unfold getShardRouterAndReqID. rewrite Hm. cbn [mbind outcome_bind fst snd]. rewrite Hi. cbn [mbind outcome_bind].
  rewrite HP in Hs. rewrite bool_decide_true by by apply elem_of_list_to_set. cbn [negb guard_panic]. split; [done|]. split; [done|]. split; [apply length_be_put|]. split.
  - intros r req' HPr Hsort Hr Hpay. rewrite (sorted_same _ _ HPr) in Hsort. eapply shard_accepts; rewrite ?Hsort, ?HP, ?Hpay; [done..|by rewrite HP in Hm; apply Hm|done].
  - intros. by apply streamIndexes_range.
Qed.

Definition two_shards (self : ShardID) : RequestsInspectorVerifier := mkInspector 100 10 [1; 2]%N self (mkRulesVerifier [] None) 0.
Definition sample_request : Request := mkRequest (Some [Byte.x61]) [] None 0.
Lemma request_routing_witness : exists s, VerifyRequestShard (two_shards 1) sample_request = (if (1 =? s)%N then Ok tt else Err "request maps to another shard") /\
  VerifyRequestShard (two_shards 2) sample_request = (if (2 =? s)%N then Ok tt else Err "request maps to another shard").
Proof.
  destruct (request_routing [2; 1]%N sample_request ltac:(done) ltac:(done)) as (s & id & _ & _ & _ & Hv & _). exists s.
  split; (apply Hv; [apply Permutation_swap|reflexivity|set_solver|reflexivity]).
Defined.

(** ** Decisions *)
Section Decisions.
Context `{FabricCodecs} `{BlockCodecs} `{StateCodecs} `{Sha256}.

(** The decisions of the consensus, by number. A decision that records itself as the last one with a config block ends with that block;
    the numbers of config blocks increase and a config block's metadata has the number of its decision, as the consensus
    assembles them. Decision 0 has the genesis block. *)
Record history (hist : N -> Header) (cblock : N -> Block) : Prop := {
  hi_Num : forall n, h_Num (hist n) = n;
  hi_state : forall n, exists st raw, h_State (hist n) = Some st /\ state_in_range st /\ (0 < s_N st)%N /\ Header_Serialize (hist n) = Ok raw;
  hi_last : forall n, h_DecisionNumOfLastConfigBlock (hist n) = n -> last (h_AvailableCommonBlocks (hist n)) = Some (cblock n);
  hi_config : forall n, h_DecisionNumOfLastConfigBlock (hist n) = n ->
    (n < u64_max)%N /\ IsConfigBlock (cblock n) = true /\ is_Some (b_Header (cblock n)) /\ is_Some (enc (cblock n)) /\
    (block_number (cblock n) <> 0%N -> getDecisionNumberFromConfigBlock (cblock n) = Ok n);
  hi_mono : forall m n, h_DecisionNumOfLastConfigBlock (hist m) = m -> h_DecisionNumOfLastConfigBlock (hist n) = n -> (m < n)%N ->
    (block_number (cblock m) < block_number (cblock n))%N;
  hi_genesis : h_DecisionNumOfLastConfigBlock (hist 0%N) = 0%N
}.
Context (hist : N -> Header) (cblock : N -> Block) (Hhist : history hist cblock).
Definition is_cfg (n : N) : Prop := h_DecisionNumOfLastConfigBlock (hist n) = n.

(** A router between two decisions, after the write to its log, while it reconfigures, and down. *)
Inductive router_phase := Pulling | Appended (decision : Header) | Applying (configBlock : Block) | Down.
Record router_state := mkRouterState { ro_disk : RouterDisk; ro_seek : N; ro_next : N; ro_phase : router_phase }.

(** The delivery client gets decisions from the one it seeks on; a reconnection seeks the same one again. *)
Inductive router_step : router_state -> router_state -> Prop :=
| step_append s d : ro_phase s = Pulling -> append_decision (ro_disk s) (hist (ro_next s)) = Ok d ->
    router_step s (mkRouterState d (ro_seek s) (ro_next s) (Appended (hist (ro_next s))))
| step_skip s h d : ro_phase s = Appended h -> process_decision (ro_disk s) h = Ok (d, None) ->
    router_step s (mkRouterState d (ro_seek s) (ro_next s + 1) Pulling)
| step_config s h d b : ro_phase s = Appended h -> process_decision (ro_disk s) h = Ok (d, Some b) ->
    router_step s (mkRouterState d (ro_seek s) (ro_next s) (Applying b))
| step_applied s b n : ro_phase s = Applying b -> getDecisionNumberFromConfigBlock b = Ok n ->
    router_step s (mkRouterState (ro_disk s) n n Pulling)
| step_reconnect s : ro_phase s = Pulling -> router_step s (mkRouterState (ro_disk s) (ro_seek s) (ro_seek s) Pulling)
| step_crash s : router_step s (mkRouterState (ro_disk s) (ro_seek s) (ro_next s) Down)
| step_start s n : ro_phase s = Down -> getNextDecisionNumber (ro_disk s) = Ok n -> router_step s (mkRouterState (ro_disk s) n n Pulling).

(** The store holds the config blocks of exactly the decisions up to the config decision [K]. *)
Definition store_upto (store : Store) (K : N) : Prop :=
  is_cfg K /\ exists blocks, store_ok store blocks /\
    forall num b, blocks !! num = Some b <-> exists n, (n <= K)%N /\ is_cfg n /\ b = cblock n /\ num = block_number b.
(** No config decision before [n] is missing. *)
Definition none_missing (K n : N) : Prop := forall m, is_cfg m -> (m < n)%N -> (m <= K)%N.

Definition wal_inv (wal : list bytes) (K : N) : Prop :=
  wal = [] \/ exists w raw, wal = [raw] /\ Header_Serialize (hist w) = Ok raw /\ none_missing K w.
Definition router_inv (s : router_state) : Prop := exists K, store_upto (rd_store (ro_disk s)) K /\ wal_inv (rd_wal (ro_disk s)) K /\
  none_missing K (ro_seek s) /\ none_missing K (ro_next s) /\
  match ro_phase s with
  | Appended h => h = hist (ro_next s)
  | Applying b => b = cblock K /\ block_number b <> 0%N
  | _ => True
  end.

Lemma cfg_number_le m n : is_cfg m -> is_cfg n -> (block_number (cblock m) <= block_number (cblock n))%N -> (m <= n)%N.
Proof. intros Hm Hn Hle. destruct (N.le_gt_cases m n) as [|Hlt]; [done|]. pose proof (hi_mono _ _ Hhist _ _ Hn Hm Hlt). lia. Qed.

Lemma store_upto_last store K : store_upto store K -> Store_Last store = Ok (cblock K).
Proof.
  intros (HK & blocks & Hok & Hb). apply (store_operations _ _ Hok). split; [apply Hb; eauto using N.le_refl|].
  intros num [b Hnum]. apply Hb in Hnum as (n & Hn & Hc & -> & ->). destruct (N.eq_dec n K) as [->|]; [lia|].
  pose proof (hi_mono _ _ Hhist _ _ Hc HK ltac:(lia)). lia.
Qed.

Lemma cfg_header n : is_cfg n -> exists h, b_Header (cblock n) = Some h /\ bh_Number h = block_number (cblock n).
Proof. intros Hn. destruct (hi_config _ _ Hhist n Hn) as (_ & _ & [h Eh] & _). exists h. split; [done|]. unfold block_number. by rewrite Eh. Qed.

(** Processing the next decision succeeds; it adds the decision's config block exactly if it is a new one. *)
Lemma route_process_spec d K n : store_upto (rd_store d) K -> none_missing K n ->
  exists d' o, process_decision d (hist n) = Ok (d', o) /\ rd_wal d' = rd_wal d /\
    ((o = None /\ d' = d /\ none_missing K (n + 1)) \/
     (o = Some (cblock n) /\ block_number (cblock n) <> 0%N /\ is_cfg n /\ (K < n)%N /\ store_upto (rd_store d') n)).
Proof.
  intros Hst Hnm. pose proof Hst as (HK & blocks & Hok & Hb). unfold process_decision. rewrite (hi_Num _ _ Hhist).
  destruct (N.eqb_spec n (h_DecisionNumOfLastConfigBlock (hist n))) as [Hcfg|Hne]; cbn [negb].
  2:{ exists d, None. split; [done|]. split; [done|]. left. split; [done|]. split; [done|].
      intros m Hm Hlt. destruct (N.eq_dec m n) as [->|]; [unfold is_cfg in Hm; congruence|apply Hnm; [done|lia]]. }
  symmetry in Hcfg. destruct (hi_config _ _ Hhist n Hcfg) as (_ & Hic & _ & Henc & _).
  destruct (cfg_header n Hcfg) as (hn & Ehn & Hhn). destruct (cfg_header K HK) as (hK & EhK & HhK).
  rewrite (hi_last _ _ Hhist n Hcfg). cbn [mbind outcome_bind]. rewrite Hic. cbn [negb]. rewrite (store_upto_last _ _ Hst). cbn [or_panic mbind outcome_bind].
  rewrite EhK. cbn [deref mbind outcome_bind]. rewrite HhK. destruct (N.leb_spec (block_number (cblock n)) (block_number (cblock K))) as [Hle|Hgt].
  - exists d, None. split; [done|]. split; [done|]. left. split; [done|]. split; [done|]. pose proof (cfg_number_le n K Hcfg HK Hle).
    intros m Hm Hlt. destruct (N.eq_dec m n) as [->|]; [done|]. apply Hnm; [done|lia].
  - assert (K < n)%N as HKn. { destruct (N.lt_ge_cases K n); [done|]. destruct (N.eq_dec n K) as [->|]; [lia|]. pose proof (hi_mono _ _ Hhist _ _ Hcfg HK ltac:(lia)). lia. }
    destruct (store_operations _ _ Hok) as (Hadd & _). destruct (proj2 (Hadd (cblock n))) as (s' & Es' & Hok').
    { split; [by rewrite Ehn|]. split; [done|]. destruct (blocks !! _) as [b|] eqn:E; [|done]. exfalso. apply Hb in E as (m & Hm & Hcm & -> & Enum).
      pose proof (hi_mono _ _ Hhist _ _ Hcm Hcfg ltac:(lia)). lia. }
    rewrite Es'. cbn [or_panic mbind outcome_bind]. eexists _, _. split; [reflexivity|]. split; [done|]. right. split; [done|]. split; [lia|]. split; [done|]. split; [done|].
    cbn [rd_store]. split; [done|]. eexists. split; [exact Hok'|]. intros num b. rewrite lookup_insert_Some. split.
    + intros [[<- <-]|[_ Hin]]; [exists n; eauto using N.le_refl|]. apply Hb in Hin as (m & Hm & ? & ? & ?). exists m. split; [lia|done].
    + intros (m & Hm & Hcm & -> & ->). destruct (N.eq_dec m n) as [->|Hmn]; [by left|]. right.
      pose proof (hi_mono _ _ Hhist _ _ Hcm Hcfg ltac:(lia)). split; [lia|]. apply Hb. exists m. split; [apply Hnm; [done|lia]|done].
Qed.
Lemma next_spec d K : store_upto (rd_store d) K -> wal_inv (rd_wal d) K -> exists n, getNextDecisionNumber d = Ok n /\ none_missing K n.
Proof.
  intros Hst [Hw|(w & raw & Hw & Er & Hnm)]; unfold getNextDecisionNumber; rewrite Hw; cbn [last].
  - rewrite (store_upto_last _ _ Hst). cbn [or_panic mbind outcome_bind]. destruct Hst as (HK & _). destruct (cfg_header K HK) as (h & Eh & Hh). rewrite Eh. cbn [deref mbind outcome_bind]. rewrite Hh.
    destruct (hi_config _ _ Hhist K HK) as (Hmax & _ & _ & _ & Hdec). destruct (N.eqb_spec (block_number (cblock K)) 0) as [|Hnz].
    + exists 1%N. split; [done|]. intros m Hm Hlt. assert (m = 0%N) as -> by lia. lia.
    + rewrite Hdec by done. cbn [mbind outcome_bind]. eexists. split; [reflexivity|]. rewrite u64_small by lia. intros m Hm Hlt. lia.
  - destruct (hi_state _ _ Hhist w) as (st & raw' & Es & Hr & HN & Er'). rewrite (Header_round _ _ _ Es Hr HN Er). cbn [or_panic mbind outcome_bind]. unfold header_norm. cbn [h_Num].
    rewrite (hi_Num _ _ Hhist). eauto.
Qed.

Lemma none_missing_le K n m : none_missing K n -> (m <= n)%N -> none_missing K m.
Proof. intros Hnm Hle x Hx Hlt. apply Hnm; [done|lia]. Qed.
Lemma none_missing_up K K' n : none_missing K n -> (K <= K')%N -> none_missing K' n.
Proof. intros Hnm Hle x Hx Hlt. specialize (Hnm x Hx Hlt). lia. Qed.

Lemma router_step_inv s s' : router_inv s -> router_step s s' -> router_inv s'.
Proof.
  intros (K & Hst & Hw & Hseek & Hnext & Hph) Hstep. destruct Hstep as [s d Hp E|s h d Hp E|s h d b Hp E|s b n Hp E|s Hp|s|s n Hp E]; try rewrite Hp in Hph.
  - unfold append_decision in E. apply bind_Ok_inv in E as (raw & Er & E). apply Ok_inj in E as <-. exists K. cbn. repeat (split; [done|]). split; [|done].
    right. eauto 10.
  - subst h. destruct (route_process_spec _ _ _ Hst Hnext) as (d' & o & E' & Hwal & Hcase). rewrite E in E'. injection E' as <- <-.
    destruct Hcase as [(_ & -> & Hnm)|(Hbad & _)]; [|done]. exists K. cbn. eauto 10.
  - subst h. destruct (route_process_spec _ _ _ Hst Hnext) as (d' & o & E' & Hwal & Hcase). rewrite E in E'. injection E' as <- <-.
    destruct Hcase as [(Hbad & _)|(Eb & Hnz & Hc & Hlt & Hst')]; [done|]. injection Eb as ->. exists (ro_next s). cbn. rewrite Hwal.
    split; [done|]. assert (K <= ro_next s)%N as Hle by lia. split; [destruct Hw as [?|(w & raw & ? & ? & ?)]; [by left|right; eauto 10 using none_missing_up]|].
    split; [by eapply none_missing_up|]. split; [by eapply none_missing_up|done].
  - destruct Hph as [-> Hnz]. destruct Hst as (HK & Hrest). destruct (hi_config _ _ Hhist K HK) as (_ & _ & _ & _ & Hdec).
    rewrite Hdec in E by done. injection E as <-. exists K. cbn. split; [done|]. split; [done|]. split; [intros m ? ?; lia|]. split; [intros m ? ?; lia|done].
  - exists K. cbn. eauto 10.
  - exists K. cbn. eauto 10.
  - destruct (next_spec _ _ Hst Hw) as (n' & En & Hnm). rewrite E in En. injection En as <-. exists K. cbn. eauto 10.
Qed.

(** C20: A router misses no config block of the consensus. Start a router with the genesis block in its config store and an empty log, let it
    pull decisions, store config blocks and reconfigure, and let it reconnect to the consenter, or crash and restart, at any point, also between the write to its log and the
    write to its store. At any time the store has the config blocks of exactly the decisions up to some decision, the decision that it would start
    from after a restart can be computed, and no config block of a decision before it is missing; pulling never skips one either. Handling a
    decision never panics, and it reconfigures the router exactly if the decision's config block is not in the store yet. *)
Theorem router_misses_no_config store s : store_upto store 0%N -> rtc router_step (mkRouterState (mkRouterDisk [] store) 0%N 0%N Down) s ->
  exists K, store_upto (rd_store (ro_disk s)) K /\
    (exists n, getNextDecisionNumber (ro_disk s) = Ok n /\ forall m, is_cfg m -> (m < n)%N -> (m <= K)%N) /\
    (forall m, is_cfg m -> (m < ro_next s)%N -> (m <= K)%N) /\
    (forall h, ro_phase s = Appended h -> exists d' o, process_decision (ro_disk s) h = Ok (d', o) /\ (is_Some o <-> is_cfg (h_Num h) /\ (K < h_Num h)%N)).
Proof.
  intros Hst Hrun. assert (router_inv s) as (K & HstK & Hw & _ & Hnext & Hph).
  { revert Hrun. set (s0 := mkRouterState _ _ _ _). assert (router_inv s0) as H0'.
    2:{ intros Hrun. induction Hrun as [|x y z Hxy _ IH]; [done|]. apply IH. by eapply router_step_inv. }
    exists 0%N. cbn. split; [done|]. split; [by left|]. split; [intros m _ Hm; lia|]. split; [intros m _ Hm; lia|done]. }
  exists K. split; [done|]. split; [by apply next_spec|]. split; [done|]. intros h Hp. rewrite Hp in Hph. subst h.
  destruct (route_process_spec _ _ _ HstK Hnext) as (d' & o & E & _ & Hcase). exists d', o. split; [done|]. rewrite (hi_Num _ _ Hhist).
  destruct Hcase as [(-> & _ & Hnm)|(-> & _ & Hc & Hlt & _)].
  - split; [by intros [? ?]|]. intros [Hc Hlt]. specialize (Hnm _ Hc ltac:(lia)). lia.
  - split; [done|]. by eexists.
Qed.
End Decisions.

(** * A concrete router

    A history of decisions with a config block in decision 2, and a router that crashes between the writes to its log and to its store. *)

#[local] Existing Instance sample_fabric.
#[local] Existing Instance sample_blocks.
#[local] Existing Instance sample_states.
#[local] Existing Instance sample_sha.

(** A config transaction and the blocks with it. *)
Definition typed_payload (reqType : Z) (txid data : bytes) : bytes :=
  ok_bytes (marshal_or_panic (mkPayload (Some (ok_bytes (marshal_or_panic (mkChannelHeader reqType txid)))) data)).
Definition config_tx : bytes := ok_bytes (marshal_or_panic (mkEnvelope (typed_payload HeaderType_CONFIG [] []) [])).
Definition config_block (num dn : N) : Block := match CreateConfigCommonBlock num [] 1 dn 1 0 config_tx with Ok b => b | _ => mkBlock None None None end.
Definition sample_cblock (n : N) : Block := if (n =? 2)%N then config_block 1 2 else config_block 0 0.
Definition sample_hist (n : N) : Header :=
  mkHeader n [] (if (n =? 2)%N then [sample_cblock 2] else if (n =? 0)%N then [sample_cblock 0] else []) (Some node_state) (if (n =? 2)%N then 2%N else 0%N).

Lemma headerProto_total (h : HeaderProto) : exists bs, (marshal_or_panic h : outcome bytes) = Ok bs.
Proof. unfold marshal_or_panic. cbn [enc sample_states sc_header headerProto_codec codec_zero]. destruct (decide _); cbn; eauto. Qed.

Lemma sample_cfg n : h_DecisionNumOfLastConfigBlock (sample_hist n) = n -> n = 0%N \/ n = 2%N.
Proof. unfold sample_hist. cbn. destruct (N.eqb_spec n 2); [by right|]. intros <-. by left. Qed.

Lemma sample_history : history sample_hist sample_cblock.
Proof.
  split.
  - done.
  - intros n. destruct (State_Serialize node_state) as [sb| |] eqn:E; [|by vm_compute in E..].
    assert (exists bbs, omapM marshal_or_panic (h_AvailableCommonBlocks (sample_hist n)) = Ok bbs) as [bbs Eb].
    { unfold sample_hist. cbn [h_AvailableCommonBlocks]. destruct (n =? 2)%N; [eexists; vm_compute; reflexivity|]. destruct (n =? 0)%N; eexists; vm_compute; reflexivity. }
    destruct (headerProto_total (mkHeaderProto n [] bbs sb (h_DecisionNumOfLastConfigBlock (sample_hist n)))) as [bs Hbs].
    exists node_state, bs. split; [done|]. split; [apply node_state_in_range|]. split; [done|].
    unfold Header_Serialize. rewrite Eb. change (h_State (sample_hist n)) with (Some node_state). cbn [mbind outcome_bind]. rewrite E. cbn [mbind outcome_bind]. exact Hbs.
  - intros n [->| ->]%sample_cfg; vm_compute; reflexivity.
  - intros n [->| ->]%sample_cfg; (split; [done|]; split; [vm_compute; reflexivity|]; split; [eexists; vm_compute; reflexivity|]; split; [eexists; vm_compute; reflexivity|]).
    + by intros [].
    + intros _. vm_compute. reflexivity.
  - intros m n [->| ->]%sample_cfg [->| ->]%sample_cfg Hlt; [lia|vm_compute; reflexivity|lia|lia].
  - done.
Qed.

Definition genesis_store : Store := match Store_Add (mkStore ∅) (Some (sample_cblock 0)) with Ok s => s | _ => mkStore ∅ end.
Lemma genesis_stored : store_upto sample_hist sample_cblock genesis_store 0.
Proof.
  split; [done|]. exists (<[0%N := sample_cblock 0]> ∅). split.
  - apply (Store_Add_ok (mkStore ∅) ∅ (sample_cblock 0)); [apply store_ok_empty|vm_compute; reflexivity].
  - intros num b. rewrite lookup_insert_Some, lookup_empty. split.
    + intros [[<- <-]|[_ ?]]; [|done]. exists 0%N. repeat split; vm_compute; done.
    + intros (n & Hn & _ & -> & ->). assert (n = 0%N) as -> by lia. left. split; vm_compute; reflexivity.
Qed.

(** The router was started, handled decision 1, wrote decision 2 to its log and crashed before it stored the config block. *)
Definition disk_with (n : N) : RouterDisk := match append_decision (mkRouterDisk [] genesis_store) (sample_hist n) with Ok d => d | _ => mkRouterDisk [] genesis_store end.
Definition crashed_router : router_state := mkRouterState (disk_with 2) 1 2 Down.
Lemma crashed_reached : rtc (router_step sample_hist) (mkRouterState (mkRouterDisk [] genesis_store) 0 0 Down) crashed_router.
Proof.
  eapply rtc_l; [apply (step_start _ _ 1); [done|vm_compute; reflexivity]|].
  eapply rtc_l; [eapply (step_append _ _ (disk_with 1)); [done|vm_compute; reflexivity]|].
  eapply rtc_l; [eapply (step_skip _ _ _ (disk_with 1)); [reflexivity|vm_compute; reflexivity]|].
  eapply rtc_l; [eapply (step_append _ _ (disk_with 2)); [done|vm_compute; reflexivity]|].
  eapply rtc_l; [apply step_crash|]. apply rtc_refl.
Qed.

Lemma router_misses_no_config_witness : exists K n, getNextDecisionNumber (ro_disk crashed_router) = Ok n /\ ((2 < n)%N -> (2 <= K)%N).
Proof.
  destruct (router_misses_no_config sample_hist sample_cblock sample_history genesis_store crashed_router genesis_stored crashed_reached) as (K & _ & (n & En & Hn) & _).
  exists K, n. split; [exact En|]. intros Hlt. apply (Hn 2%N); [reflexivity|exact Hlt].
Defined.
