(* ===== verification/BatcherService.v ===== *)
(** * The services of a batcher that take requests

    Submit and SubmitStream, for the router of its party, and FwdRequestStream, for the other batchers of its shard
    ([src/node/batcher/batcher.go]), on the mempool of [Pool]. *)
From stdpp Require Import gmap sets.
From Stdlib Require Import NArith ZArith Lia.
From S2P Require Import Prelude Types Events Blocks Batcher Pool RequestFilter Router.

Section Service.
Context `{RequestCodecs} `{Sha256} {R : MapRange}.

#[export] Instance pool_contains : PooledRequests Pool := { pr_Contains rp id := match Pool_Contains rp id with Ok b => b | _ => false end }.

(** The requests of a batch are the bytes of envelopes. *)
Definition raw_request (req : Request) : outcome bytes :=
  match enc (mkEnvelope (slice_bytes (rq_Payload req)) (rq_Signature req)) with Some raw => Ok raw | None => Panic "Failed marshaling request" end.

(** What Submit and a turn of dispatchRequests do with a request of the router: the response has its trace; [None] is a call of the mempool that does not return. *)
Definition handle_router_request (fuel : nat) (r : RequestsInspectorVerifier) (rp : Pool) (req : Request) : option (Pool * outcome SubmitResponse) :=
  let respond e := Ok (mkSubmitResponse [] (slice_bytes (rq_TraceId req)) e) in
  match raw_request req with
  | Ok rawReq =>
      match VerifyRequestFromRouter r req with
      | Ok _ =>
          match Pool_Submit DefaultRequestID fuel rp rawReq with
          | None => None
          | Some (rp, Ok _) => Some (rp, respond ""%string)
          | Some (rp, Err e) => Some (rp, respond e)
          | Some (rp, Panic p) => Some (rp, Panic p)
          end
      | Err e => Some (rp, respond e)
      | Panic p => Some (rp, Panic p)
      end
  | Err e => Some (rp, Err e)
  | Panic p => Some (rp, Panic p)
  end.

(** Submit serves the router of the batcher's party only, and not after it was stopped. *)
Definition Batcher_Submit (fuel : nat) (stopped ownRouter : bool) (r : RequestsInspectorVerifier) (rp : Pool) (req : Request) : option (Pool * outcome SubmitResponse) :=
  if stopped then Some (rp, Err "batcher is stopped")
  else if negb ownRouter then Some (rp, Err "access denied; only the router of the party is served")
  else handle_router_request fuel r rp req.

(** A turn of dispatchRequests; only a traced request gets a response. *)
Definition dispatch_request (fuel : nat) (r : RequestsInspectorVerifier) (rp : Pool) (req : Request) : option (Pool * outcome (option SubmitResponse)) :=
  match handle_router_request fuel r rp req with
  | None => None
  | Some (rp, Ok resp) => Some (rp, Ok (if bool_decide (0 < length (slice_bytes (rq_TraceId req))) then Some resp else None))
  | Some (rp, Err e) => Some (rp, Err e)
  | Some (rp, Panic p) => Some (rp, Panic p)
  end.

(** A turn of FwdRequestStream: errors are logged only. *)
Definition forwarded_request (fuel : nat) (r : RequestsInspectorVerifier) (rp : Pool) (request : bytes) : option (Pool * outcome unit) :=
  match Inspector_VerifyRequest r request with
  | Ok _ =>
      match Pool_Submit DefaultRequestID fuel rp request with
      | None => None
      | Some (rp, Panic p) => Some (rp, Panic p)
      | Some (rp, _) => Some (rp, Ok tt)
      end
  | Err _ => Some (rp, Ok tt)
  | Panic p => Some (rp, Panic p)
  end.

(** What happens to the mempool of a batcher in one configuration, besides batches that are taken, removed or restarted. *)
Inductive pool_use := Take | Remove (ids : list reqID) | Tick (now : Z) | Halt | RestartAs (primary : bool) (now : Z).
Inductive service_op := FromRouter (req : Request) | FromBatcher (request : bytes) | OnPool (op : pool_use).
Definition pool_service (fuel : nat) (r : RequestsInspectorVerifier) (rp : Pool) (op : service_op) : option (Pool * outcome unit) :=
  match op with
  | FromRouter req => (fun res => (res.1, match res.2 with Ok _ => Ok tt | Err e => Err e | Panic p => Panic p end)) <$> dispatch_request fuel r rp req
  | FromBatcher request => forwarded_request fuel r rp request
  | OnPool Take => Some ((NextRequests rp).1, Ok tt)
  | OnPool (Remove ids) => Some (Pool_RemoveRequests rp ids)
  | OnPool (Tick now) => Some ((Pool_tick rp now).1, Ok tt)
  | OnPool Halt => Some (Pool_Halt rp)
  | OnPool (RestartAs primary now) => Pool_Restart DefaultRequestID fuel rp primary now
  end.
Fixpoint service_run (fuel : nat) (r : RequestsInspectorVerifier) (rp : Pool) (ops : list service_op) : option (outcome Pool) :=
  match ops with
  | [] => Some (Ok rp)
  | op :: ops =>
      match pool_service fuel r rp op with
      | None => None
      | Some (_, Panic p) => Some (Panic p)
      | Some (rp, _) => service_run fuel r rp ops
      end
  end.
End Service.
