(* ===== verification/RequestFilterThms.v ===== *)
(** * Theorems on the verification of requests

    What the router and a batcher accept, exactly; that a request in a batcher's mempool passes the batcher's own check, so that
    a batch that skips pooled requests is verified; and the request types that only the router refuses. *)
From stdpp Require Import gmap sets.
From Stdlib Require Import NArith ZArith Lia.
From Stdlib Require Import Init.Byte.
From S2P Require Import Prelude Types Events Blocks Batcher BatchStore PendingStore Pool PoolThms RequestFilter Router RouterThms BatcherService Sample SampleBlocks.

Section Checks.
Context `{RequestCodecs} `{Sha256}.

(** A payload with a signature that satisfies the checks of a configuration, and its type. *)
Record well_formed (config : FilterConfig) (payload signature : bytes) (reqType : Z) : Prop := {
  wf_size : (N.of_nat (length payload + length signature) <= fc_RequestMaxBytes config)%N;
  wf_headers : exists rawS rawC shdr chdr identity,
    payload_headers payload = Some (Some (mkHeaders (Some rawC) (Some rawS))) /\ signature_header rawS = Some shdr /\ dec rawC = Some chdr /\
    sh_Nonce shdr <> [] /\ ch_TxId chdr = ComputeTxID (sh_Nonce shdr) (sh_Creator shdr) /\ UnmarshalIdentity (sh_Creator shdr) = Some identity /\ ch_Type chdr = reqType /\
    (fc_ClientSignatureVerificationRequired config = true \/ reqType = HeaderType_CONFIG_UPDATE ->
       exists policy, fc_PolicyManager config ChannelWriters = Some policy /\ policy (mkSignedData (Some payload) identity signature) = true)
}.

Lemma length_hex bs : length (hex_encode bs) = 2 * length bs.
Proof. induction bs as [|b bs IH]; [done|]. unfold hex_encode in *. cbn. rewrite IH. lia. Qed.

Lemma verifyTxID_Ok chdr shdr : verifyTxID chdr shdr = Ok tt <-> sh_Nonce shdr <> [] /\ ch_TxId chdr = ComputeTxID (sh_Nonce shdr) (sh_Creator shdr).
Proof.
  unfold verifyTxID. rewrite !guard_err_Ok, bool_decide_eq_false, !negb_false_iff, !bool_decide_eq_true. split; [tauto|]. intros [Hn Ht]. split; [done|]. split; [|done].
  rewrite Ht. unfold ComputeTxID. by rewrite length_hex, sha256_length.
Qed.

Lemma requestToSignedData_Ok req payload sd t : rq_Payload req = Some payload -> requestToSignedData req = Ok (sd, t) <->
  exists rawS rawC shdr chdr identity, payload_headers payload = Some (Some (mkHeaders (Some rawC) (Some rawS))) /\ signature_header rawS = Some shdr /\ dec rawC = Some chdr /\
    sh_Nonce shdr <> [] /\ ch_TxId chdr = ComputeTxID (sh_Nonce shdr) (sh_Creator shdr) /\ UnmarshalIdentity (sh_Creator shdr) = Some identity /\ ch_Type chdr = t /\
    sd = mkSignedData (Some payload) identity (rq_Signature req).
Proof.
  intros Hp. unfold requestToSignedData. rewrite Hp. cbn [slice_bytes]. split.
  - intros E. apply bind_Ok_inv in E as (hs & Ehs%of_option_Ok & E). apply bind_Ok_inv in E as (h & Eh%of_option_Ok & E). apply bind_Ok_inv in E as (rawS & Es%of_option_Ok & E).
    apply bind_Ok_inv in E as (shdr & Esh%of_option_Ok & E). apply bind_Ok_inv in E as (rawC & Ec%of_option_Ok & E). apply bind_Ok_inv in E as (chdr & Ech%wrap_err_Ok & E).
    apply of_option_Ok in Ech. apply bind_Ok_inv in E as ([] & Et & E). apply verifyTxID_Ok in Et as [Hn Ht]. apply bind_Ok_inv in E as (identity & Ei%of_option_Ok & E). apply Ok_inj in E.
    injection E as <- <-. destruct h as [hc hsig]. cbn in *. subst hs hc hsig. exists rawS, rawC, shdr, chdr, identity. done.
  - intros (rawS & rawC & shdr & chdr & identity & Eh & Es & Ec & Hn & Ht & Ei & <- & ->). change (slice_bytes (Some payload)) with payload. rewrite Eh. cbn [of_option mbind outcome_bind hd_SignatureHeader hd_ChannelHeader]. rewrite Es. cbn [of_option mbind outcome_bind].
    unfold unmarshal. rewrite Ec. cbn [of_option wrap_err mbind outcome_bind]. rewrite (proj2 (verifyTxID_Ok chdr shdr)) by done. cbn [mbind outcome_bind]. rewrite Ei. done.
Qed.

Lemma classify_Ok config req payload t : rq_Payload req = Some payload -> VerifyStructureAndClassify (createVerifier config) req = Ok t <->
  exists rawS rawC shdr chdr identity,
    payload_headers payload = Some (Some (mkHeaders (Some rawC) (Some rawS))) /\ signature_header rawS = Some shdr /\ dec rawC = Some chdr /\
    sh_Nonce shdr <> [] /\ ch_TxId chdr = ComputeTxID (sh_Nonce shdr) (sh_Creator shdr) /\ UnmarshalIdentity (sh_Creator shdr) = Some identity /\ ch_Type chdr = t /\
    (fc_ClientSignatureVerificationRequired config = true \/ t = HeaderType_CONFIG_UPDATE ->
       exists policy, fc_PolicyManager config ChannelWriters = Some policy /\ policy (mkSignedData (Some payload) identity (rq_Signature req)) = true).
Proof.
  intros Hp. unfold VerifyStructureAndClassify, createVerifier. cbn [AddStructureRule rv_structureRule of_option mbind outcome_bind]. unfold SigFilter_VerifyAndClassify. cbn [NewSigFilter sf_clientSignatureVerificationRequired sf_policyManager sf_policyName]. split.
  - intros E. apply bind_Ok_inv in E as ([sd t'] & Esd%wrap_err_Ok & E). apply (requestToSignedData_Ok _ _ _ _ Hp) in Esd as (rawS & rawC & shdr & chdr & identity & ? & ? & ? & ? & ? & ? & Et & ->).
    exists rawS, rawC, shdr, chdr, identity. destruct (fc_ClientSignatureVerificationRequired config) eqn:Ereq; cbn [orb] in E.
    + apply bind_Ok_inv in E as (policy & Epol%of_option_Ok & E). apply guard_err_Ok in E as [Epass%negb_false_iff E]. apply Ok_inj in E as ->. repeat (split; [done|]). intros _. eauto.
    + case_bool_decide as Hcu.
      * apply bind_Ok_inv in E as (policy & Epol%of_option_Ok & E). apply guard_err_Ok in E as [Epass%negb_false_iff E]. apply Ok_inj in E as ->. repeat (split; [done|]). intros _. eauto.
      * apply Ok_inj in E as ->. repeat (split; [done|]). intros [|]; done.
  - intros (rawS & rawC & shdr & chdr & identity & H3 & H4 & H5 & H6 & H7 & H8 & H9 & Hpol).
    rewrite (proj2 (requestToSignedData_Ok req payload _ t Hp) ltac:(eauto 20)). cbn [wrap_err mbind outcome_bind].
    destruct (fc_ClientSignatureVerificationRequired config || bool_decide (t = HeaderType_CONFIG_UPDATE)) eqn:Eor; [|done].
    destruct Hpol as (policy & -> & Hpass). { apply orb_true_iff in Eor as [?|?%bool_decide_eq_true]; auto. } cbn [of_option mbind outcome_bind]. by rewrite Hpass.
Qed.

Lemma Verify_Ok config req payload : rq_Payload req = Some payload -> (N.of_nat (length payload + length (rq_Signature req)) <= u64_max)%N ->
  Verify (createVerifier config) req = Ok tt <-> (N.of_nat (length payload + length (rq_Signature req)) <= fc_RequestMaxBytes config)%N.
Proof.
  intros Hp Hlen. unfold Verify, createVerifier. cbn [AddStructureRule AddRule rv_rules app verify_rules Rule_Verify]. rewrite Hp. cbn [mbind outcome_bind]. change (slice_bytes (Some payload)) with payload. rewrite u64_small by done.
  destruct (N.ltb_spec (fc_RequestMaxBytes config) (N.of_nat (length payload + length (rq_Signature req)))); cbn; split; intros; try done; lia.
Qed.

Lemma well_formed_iff config req payload t : rq_Payload req = Some payload -> (N.of_nat (length payload + length (rq_Signature req)) <= u64_max)%N ->
  well_formed config payload (rq_Signature req) t <-> Verify (createVerifier config) req = Ok tt /\ VerifyStructureAndClassify (createVerifier config) req = Ok t.
Proof.
  intros Hp Hlen. rewrite (Verify_Ok config req payload Hp Hlen), (classify_Ok config req payload t Hp). split; [intros [? ?]; done|intros [? ?]; by split].
Qed.

Lemma router_accepts config req payload t : rq_Payload req = Some payload -> (N.of_nat (length payload + length (rq_Signature req)) <= u64_max)%N ->
  verifyAndClassifyRequest (createVerifier config) req = Ok t <-> well_formed config payload (rq_Signature req) t /\ supported_type t = true.
Proof.
  intros Hp Hlen. rewrite (well_formed_iff config req payload t Hp Hlen). unfold verifyAndClassifyRequest. split.
  - intros E. apply bind_Ok_inv in E as ([] & Ev%wrap_err_Ok & E). apply bind_Ok_inv in E as (t' & Ec%wrap_err_Ok & E). apply guard_err_Ok in E as [Es%negb_false_iff E]. by apply Ok_inj in E as ->.
  - intros [[-> ->] Es]. cbn. by rewrite Es.
Qed.

Lemma batcher_accepts config r raw payload signature : riv_requestVerifier r = createVerifier config -> payload <> [] -> (N.of_nat (length payload + length signature) <= u64_max)%N ->
  enc (mkEnvelope payload signature) = Some raw ->
  Inspector_VerifyRequest r raw = Ok tt <-> VerifyRequestShard r (mkRequest (Some payload) signature None 0) = Ok tt /\ exists t, well_formed config payload signature t.
Proof.
  intros Hv Hne Hlen Henc. unfold Inspector_VerifyRequest. destruct (request_of_envelope _ _ Henc) as (request & -> & Hp & Hs). cbn [of_option mbind outcome_bind env_Payload env_Signature] in *.
  assert (rq_Payload request = Some payload) as Hpay by (rewrite Hp; by destruct payload). clear Hp. rewrite Hv.
  assert (VerifyRequestShard r request = VerifyRequestShard r (mkRequest (Some payload) signature None 0)) as -> by (unfold VerifyRequestShard; by rewrite Hpay).
  pose proof (fun t => well_formed_iff config request payload t Hpay ltac:(by rewrite Hs)) as Hwf. rewrite Hs in Hwf. split.
  - intros E. apply bind_Ok_inv in E as ([] & Esh%wrap_err_Ok & E). apply bind_Ok_inv in E as ([] & Ev%wrap_err_Ok & E). apply bind_Ok_inv in E as (t & Ec%wrap_err_Ok & E). split; [done|]. exists t. by apply Hwf.
  - intros [-> [t Ht]]. apply Hwf in Ht as [-> ->]. done.
Qed.

(** C21: What router and batcher check, and how they differ. A router accepts a request, as one of type [t], exactly if payload and signature together are within the size
    limit, the payload has a channel header of type [t] with the transaction identifier that is the hash of the nonce and creator of its signature header, the
    creator is an identity, the signature satisfies the writers policy if that is required or [t] is a config update, and [t] is a
    supported type. A batcher of the same configuration accepts the envelope of the request exactly if it maps to the batcher's shard and is well-formed
    in this sense for any type: it accepts every request the router accepted for its shard. *)
Theorem request_checks_exact config r req payload raw : rq_Payload req = Some payload -> payload <> [] ->
  (N.of_nat (length payload + length (rq_Signature req)) <= u64_max)%N -> raw_request req = Ok raw -> riv_requestVerifier r = createVerifier config ->
  (forall t, verifyAndClassifyRequest (createVerifier config) req = Ok t <-> well_formed config payload (rq_Signature req) t /\ supported_type t = true) /\
  (Inspector_VerifyRequest r raw = Ok tt <-> VerifyRequestShard r req = Ok tt /\ exists t, well_formed config payload (rq_Signature req) t) /\
  (VerifyRequestShard r req = Ok tt -> is_ok (verifyAndClassifyRequest (createVerifier config) req) = true -> Inspector_VerifyRequest r raw = Ok tt).
Proof.
  intros Hp Hne Hlen Hraw Hv. assert (enc (mkEnvelope payload (rq_Signature req)) = Some raw) as Henc.
  { unfold raw_request in Hraw. rewrite Hp in Hraw. change (slice_bytes (Some payload)) with payload in Hraw. destruct (enc _); [by apply Ok_inj in Hraw as ->|done]. }
  assert (VerifyRequestShard r req = VerifyRequestShard r (mkRequest (Some payload) (rq_Signature req) None 0)) as Esh by (unfold VerifyRequestShard; by rewrite Hp).
  pose proof (batcher_accepts config r raw payload (rq_Signature req) Hv Hne Hlen Henc) as Hb. rewrite <-Esh in Hb.
  split; [intros t; by apply router_accepts|]. split; [done|]. intros Hs Hok. apply Hb. split; [done|].
  destruct (verifyAndClassifyRequest _ _) as [t| |] eqn:E; [|done..]. exists t. by apply (router_accepts config req payload t Hp Hlen) in E as [? _].
Qed.
End Checks.

(** ** Outcomes that are not panics *)
Definition no_panic {A} (o : outcome A) : Prop := forall p, o <> Panic p.
Lemma np_bind {A B} (o : outcome A) (f : A -> outcome B) : no_panic o -> (forall a, o = Ok a -> no_panic (f a)) -> no_panic (o ≫= f).
Proof. intros Ho Hf p. destruct o as [a|e|q]; cbn; [by apply Hf|done|by destruct (Ho q)]. Qed.
Lemma np_wrap {A} w (o : outcome A) : no_panic o -> no_panic (wrap_err w o).
Proof. intros Ho p. destruct o as [a|e|q]; cbn; [done|done|by destruct (Ho q)]. Qed.
Lemma np_option {A} e (o : option A) : no_panic (of_option e o).
Proof. by destruct o. Qed.
Lemma np_guard {A} (b : bool) e (k : outcome A) : no_panic k -> no_panic (guard_err b e k).
Proof. intros Hk. by destruct b. Qed.
Create HintDb np.
#[local] Hint Resolve np_wrap np_option np_guard : np.

(** ** The mempool holds verified requests only *)
Section Pooled.
Context `{RequestCodecs} `{Sha256} {R : MapRange} (config : FilterConfig) (r : RequestsInspectorVerifier).

(** A batcher of one of the shards, with the checks of the configuration. *)
Record inspector_ok : Prop := {
  io_verifier : riv_requestVerifier r = createVerifier config;
  io_shards : riv_shards r <> [] /\ (N.of_nat (length (riv_shards r)) <= u16_max)%N /\ riv_shardID r ∈ riv_shards r
}.
(** A router of the batcher's party passes a request on under a configuration only if it accepted it under that configuration, and to the shard it maps to. *)
Definition own_router (req : Request) : Prop :=
  (exists raw, raw_request req = Ok raw /\ (N.of_nat (length raw) <= u64_max)%N) /\
  (rq_ConfigSeq req = riv_configSeq r -> exists payload, rq_Payload req = Some payload /\ payload <> [] /\ (N.of_nat (length payload + length (rq_Signature req)) <= u64_max)%N /\
     is_ok (verifyAndClassifyRequest (createVerifier config) req) = true /\ VerifyRequestShard r req = Ok tt).
Definition op_ok (op : service_op) : Prop :=
  match op with
  | FromRouter req => own_router req
  | FromBatcher request => (N.of_nat (length request) <= u64_max)%N
  | OnPool _ => True
  end.
Definition verified (raw : bytes) : Prop := Inspector_VerifyRequest r raw = Ok tt.
Definition all_verified (rp : Pool) : Prop := forall k v, stored rp k = Some v -> verified v.

Lemma shard_no_panic req : inspector_ok -> no_panic (VerifyRequestShard r req).
Proof.
  intros [_ (Hne & Hlen & Hin)]. destruct (map_in_range (riv_shards r) (slice_bytes (rq_Payload req)) Hne Hlen) as (i & s & Em & Ei & Hs).
  rewrite (shard_accepts r req s i _ Hs Hin Em Ei). by destruct (_ =? _)%N.
Qed.

Lemma verify_no_panic raw : inspector_ok -> no_panic (Inspector_VerifyRequest r raw).
Proof.
  intros Hok. pose proof (io_verifier Hok) as Hv. unfold Inspector_VerifyRequest. rewrite Hv. apply np_bind; [auto with np|]. intros req _.
  apply np_bind; [by apply np_wrap, shard_no_panic|]. intros _ _. apply np_bind.
  { apply np_wrap. unfold Verify, createVerifier. cbn [AddStructureRule AddRule rv_rules app verify_rules Rule_Verify]. destruct (rq_Payload req); [|done]. cbn [mbind outcome_bind]. by destruct (_ <? _)%N. }
  intros _ _. apply np_bind; [|done]. apply np_wrap. unfold VerifyStructureAndClassify, SigFilter_VerifyAndClassify, requestToSignedData, verifyTxID, unmarshal.
  repeat (first [apply np_bind; [|intros ? _] | apply np_guard | apply np_wrap | apply np_option | done | match goal with |- no_panic (let '(_, _) := ?p in _) => destruct p end | match goal with |- no_panic (if ?b then _ else _) => destruct b end]).
Qed.

Lemma own_router_verified req raw : inspector_ok -> own_router req -> rq_ConfigSeq req = riv_configSeq r -> raw_request req = Ok raw -> verified raw.
Proof.
  intros Hok [_ Hr] Hseq Hraw. destruct (Hr Hseq) as (payload & Hp & Hne & Hlen & Hacc & Hsh). unfold verified.
  unfold raw_request in Hraw. rewrite Hp in Hraw. change (slice_bytes (Some payload)) with payload in Hraw. destruct (enc _) as [x|] eqn:Henc; [|done]. apply Ok_inj in Hraw as ->.
  apply (batcher_accepts config r raw payload _ (io_verifier Hok) Hne Hlen Henc). split; [unfold VerifyRequestShard in *; by rewrite Hp in Hsh|].
  destruct (verifyAndClassifyRequest _ _) as [t| |] eqn:E; [|done..]. exists t. by apply (router_accepts config req payload t Hp Hlen) in E as [? _].
Qed.

(** An operation of the services is at most one operation of the pool, which submits verified requests only. *)
Lemma service_as_pool_op fuel rp op : inspector_ok -> op_ok op ->
  pool_service fuel r rp op = Some (rp, Ok tt) \/
  exists pop, (forall req, pop = PSubmit req -> verified req /\ (N.of_nat (length req) <= u64_max)%N) /\ pop <> PClose /\
    match pool_step DefaultRequestID fuel rp pop with
    | None => pool_service fuel r rp op = None
    | Some (rp', o) => exists o', pool_service fuel r rp op = Some (rp', o') /\ ((forall p, o <> Panic p) -> forall p, o' <> Panic p)
    end.
Proof.
  intros Hok Hop. destruct op as [req|request|[|ids|now| |primary now]]; cbn [op_ok pool_service] in *.
  - pose proof (own_router_verified req) as Hver. destruct (Hop) as [(raw & Eraw & Hlen) _]. unfold dispatch_request, handle_router_request. rewrite Eraw.
    unfold VerifyRequestFromRouter. destruct (N.eqb_spec (riv_configSeq r) (rq_ConfigSeq req)) as [Hseq|]; cbn [negb guard_err]; [|by left].
    right. exists (PSubmit raw). split; [intros ? [= <-]; split; [by apply Hver|done]|]. split; [done|]. cbn [pool_step].
    destruct (Pool_Submit DefaultRequestID fuel rp raw) as [[rp' [[]|e|p]]|]; cbn; [| | |done]; (eexists; split; [done|]); try done.
  - unfold forwarded_request. pose proof (verify_no_panic request Hok) as Hnp. destruct (Inspector_VerifyRequest r request) as [[]| |p] eqn:E; [|by left|by destruct (Hnp p)].
    right. exists (PSubmit request). split; [intros ? [= <-]; done|]. split; [done|]. cbn [pool_step].
    destruct (Pool_Submit DefaultRequestID fuel rp request) as [[rp' [[]|e|p]]|]; [| | |done]; (eexists; split; [done|]); try done.
  - right. exists PNext. split; [done|]. split; [done|]. cbn [pool_step]. by eexists.
  - right. exists (PRemove ids). split; [done|]. split; [done|]. cbn [pool_step]. destruct (Pool_RemoveRequests rp ids). eauto.
  - right. exists (PTick now). split; [done|]. split; [done|]. cbn [pool_step]. eauto.
  - right. exists PHalt. split; [done|]. split; [done|]. cbn [pool_step]. destruct (Pool_Halt rp). eauto.
  - right. exists (PRestart primary now). split; [done|]. split; [done|]. cbn [pool_step]. destruct (Pool_Restart DefaultRequestID fuel rp primary now) as [[]|]; eauto.
Qed.

(** Every operation of an open pool returns without a panic and stores nothing but what was submitted. *)
Lemma pool_step_stored fuel rp pop : pool_inv DefaultRequestID rp -> 2 <= fuel -> rp_closed rp = false -> pop <> PClose -> (forall req, pop = PSubmit req -> (N.of_nat (length req) <= u64_max)%N) ->
  exists rp' o, pool_step DefaultRequestID fuel rp pop = Some (rp', o) /\ (forall p, o <> Panic p) /\ pool_inv DefaultRequestID rp' /\ rp_closed rp' = false /\
    forall k v, stored rp' k = Some v -> stored rp k = Some v \/ pop = PSubmit v.
Proof.
  intros Hi Hf Hc Hnc Hlen. destruct pop as [req| |ids|valid|now| | |batching now]; cbn [pool_step].
  - destruct (Pool_Submit_spec _ fuel rp req Hi Hf (Hlen _ eq_refl)) as (rp' & o & -> & [Hi' (Hc' & _) Ho _ Hst]). exists rp', o. split; [done|].
    split; [destruct (accepts _ _ _); [by subst|by destruct Ho as [e ->]]|]. split; [done|]. split; [congruence|]. intros k v. rewrite Hst. destruct (accepts _ _ _); [|by left]. case_decide; [intros [= <-]; by right|by left].
  - destruct (NextRequests_spec DefaultRequestID rp Hi) as (rp' & reqs & ids & -> & [Hi' (Hc' & _) _ Hst _ _ _ _]). cbn. eexists _, _. split; [done|]. split; [done|]. split; [done|]. split; [congruence|]. intros k v. rewrite Hst. by left.
  - destruct (Pool_RemoveRequests_spec _ rp ids Hi) as [Hi' (Hc' & _) Ho Hst]. destruct (Pool_RemoveRequests rp ids) as [rp' o]. cbn in *. exists rp', o. split; [done|]. split; [by subst|]. split; [done|]. split; [congruence|].
    intros k v. rewrite Hst. destruct (stored rp k); [|done]. cbn. destruct (negb _); [|done]. by left.
  - destruct (Pool_Prune_spec _ rp valid Hi) as [Hi' (Hc' & _) Ho Hst]. destruct (Pool_Prune rp valid) as [rp' o]. cbn in *. exists rp', o. split; [done|]. split; [by subst|]. split; [done|]. split; [congruence|].
    intros k v. rewrite Hst. destruct (stored rp k) as [x|]; [|done]. cbn. destruct (_ || _); [|done]. by left.
  - destruct (Pool_tick_spec _ rp now Hi) as (Hi' & Hst & Hc'). eexists _, _. split; [done|]. split; [done|]. split; [done|]. split; [congruence|]. intros k v. rewrite Hst. by left.
  - done.
  - destruct (Pool_Halt_spec _ rp Hi Hc) as (rp' & -> & Hi' & _ & Hc' & _ & _ & Hst & _). eexists _, _. split; [done|]. split; [done|]. split; [done|]. split; [done|]. intros k v. rewrite Hst. by left.
  - destruct (Pool_Restart_spec _ fuel rp batching now Hi Hf) as (rp' & o & -> & [Hi' -> (_ & Hc' & _) _ Hst]). eexists _, _. split; [done|]. split; [done|]. split; [done|]. split; [congruence|].
    intros k v Hv. left. destruct (rp_batchingEnabled rp && negb batching); [|by rewrite Hst in Hv]. apply Hst in Hv. by apply (waiting_stored _ rp Hi).
Qed.

Lemma service_run_spec fuel ops : inspector_ok -> 2 <= fuel -> Forall op_ok ops -> forall rp, pool_inv DefaultRequestID rp -> rp_closed rp = false -> all_verified rp ->
  exists rp', service_run fuel r rp ops = Some (Ok rp') /\ pool_inv DefaultRequestID rp' /\ rp_closed rp' = false /\ all_verified rp' /\ rp_options rp' = rp_options rp.
Proof.
  intros Hok Hf. induction ops as [|op ops IH]; intros Hops rp Hi Hc Hv; [by exists rp|]. apply Forall_cons in Hops as [Hop Hops]. cbn [service_run].
  destruct (service_as_pool_op fuel rp op Hok Hop) as [->|(pop & Hsub & Hnc & Hstep)]; [by apply IH|].
  destruct (pool_step_stored fuel rp pop Hi Hf Hc Hnc ltac:(intros; by apply Hsub)) as (rp' & o & E & Ho & Hi' & Hc' & Hst).
  pose proof (pool_step_options _ _ _ _ _ _ E) as Eo. rewrite E in Hstep. destruct Hstep as (o' & -> & Ho').
  assert (all_verified rp') as Hv' by (intros k v [Hk| ->]%Hst; [by eapply Hv|by apply Hsub]).
  specialize (IH Hops rp' Hi' Hc' Hv') as (rp2 & E2 & ? & ? & ? & ?). specialize (Ho' Ho). exists rp2. destruct o' as [| |p]; [| |by destruct (Ho' p)]; (split; [done|]; repeat (split; [done|]); congruence).
Qed.

(** ** Batches *)
Lemma batch_accepted_iff (rp : Pool) reqs ids : inspector_ok ->
  VerifyBatchedRequests_ DefaultRequestID r rp reqs = Ok ids <->
  reqs <> [] /\ (N.of_nat (length reqs) <= riv_batchMaxSize r)%N /\ (N.of_nat (sum_list (length <$> reqs)) <= riv_batchMaxBytes r)%N /\ ids = DefaultRequestID <$> reqs /\
  forall req, req ∈ reqs -> pr_Contains rp (DefaultRequestID req) = true \/ verified req.
Proof.
  intros Hok. unfold VerifyBatchedRequests_. rewrite !guard_err_Ok, bool_decide_eq_false, !N.ltb_ge.
  assert (List.find (fun o => match o with Panic _ => true | _ => false end) (check_one DefaultRequestID r rp <$> reqs) = None) as ->.
  { destruct (List.find _ _) as [o|] eqn:E; [|done]. apply List.find_some in E as [Hin Ho]. apply list_elem_of_In, list_elem_of_fmap in Hin as (req & -> & _). unfold check_one in Ho.
    destruct (pr_Contains _ _); [done|]. pose proof (verify_no_panic req Hok) as Hnp. destruct (Inspector_VerifyRequest r req) as [| |p]; [done..|by destruct (Hnp p)]. }
  assert (forallb (fun req => is_ok (check_one DefaultRequestID r rp req)) reqs = true <-> forall req, req ∈ reqs -> pr_Contains rp (DefaultRequestID req) = true \/ verified req) as Hall.
  { rewrite forallb_forall. split; intros Hx req Hin; specialize (Hx req); [rewrite <-list_elem_of_In in Hx|rewrite list_elem_of_In in Hx]; specialize (Hx Hin); unfold check_one, verified in *.
    - destruct (pr_Contains _ _); [by left|]. right. by destruct (Inspector_VerifyRequest r req) as [[]| |].
    - destruct (pr_Contains _ _); [done|]. destruct Hx as [|Hx]; [done|]. by rewrite Hx. }
  destruct (forallb _ _) eqn:E.
  - split; [intros (? & ? & ? & [= <-]); repeat (split; [done|]); by apply Hall|]. intros (? & ? & ? & -> & _). done.
  - split; [intros (_ & _ & _ & [=])|]. intros (_ & _ & _ & _ & Hx). by apply Hall in Hx.
Qed.

Lemma contains_stored (rp : Pool) id : pr_Contains rp id = true -> exists v, stored rp id = Some v.
Proof.
  cbn. unfold Pool_Contains, stored. destruct (_ || _); [done|]. destruct (rp_batchingEnabled rp); [done|]. destruct (rp_pending rp) as [ps|]; [|done]. unfold Pending_Contains. intros Hx%bool_decide_eq_true. exact Hx.
Qed.

Lemma request_id_collision v w : DefaultRequestID v = DefaultRequestID w -> v = w \/ sha256_collision v w.
Proof.
  unfold DefaultRequestID. assert (forall x, hex_encode (sha256 x) <> []) as Hne by (intros x E; apply (f_equal length) in E; rewrite length_hex, sha256_length in E; discriminate).
  case_decide as Hv; case_decide as Hw; intros E.
  - left. apply nil_length_inv in Hv, Hw. congruence.
  - symmetry in E. by destruct (Hne w).
  - by destruct (Hne v).
  - apply (inj hex_encode) in E. destruct (decide (v = w)) as [->|]; [by left|]. right. by split.
Qed.

(** C22: A batch that a batcher accepts is verified, although requests in its mempool are not checked again, and the batches of an honest primary are accepted. Let the mempools of
    batchers of a shard be used in any way under one configuration: the router of the party passes on requests it accepted, other
    batchers forward anything, batches are taken, requests removed, the pool halted and restarted in any role; it is not closed, and not pruned, which a change of the configuration does. No operation panics or fails to return. Then a batch that a
    batcher accepts is within the limits, comes with the identifiers of its requests, and each of its requests passes the batcher's check, or else
    is a SHA-256 collision with another request. And a batch that a primary takes from its mempool is accepted by the others, whatever their mempools hold. *)
Theorem accepted_batch_verified o now fuel ops : inspector_ok -> options_ok o -> po_BatchMaxSize o = riv_batchMaxSize r -> po_BatchMaxSizeBytes o = riv_batchMaxBytes r ->
  2 <= fuel -> Forall op_ok ops ->
  exists rp, service_run fuel r (NewPool o now) ops = Some (Ok rp) /\
    (forall reqs ids, VerifyBatchedRequests_ DefaultRequestID r rp reqs = Ok ids ->
       (N.of_nat (length reqs) <= riv_batchMaxSize r)%N /\ (N.of_nat (sum_list (length <$> reqs)) <= riv_batchMaxBytes r)%N /\ ids = DefaultRequestID <$> reqs /\
       forall req, req ∈ reqs -> Inspector_VerifyRequest r req = Ok tt \/ exists req', sha256_collision req req') /\
    (forall rp' requests ids (other : Pool), NextRequests rp = (rp', Ok (requests, ids)) -> requests <> [] -> VerifyBatchedRequests_ DefaultRequestID r other requests = Ok ids).
Proof.
  intros Hok Ho Emax Ebytes Hf Hops.
  destruct (service_run_spec fuel ops Hok Hf Hops (NewPool o now) (pool_inv_new _ o now Ho) eq_refl) as (rp & E & Hi & Hc & Hv & Eo).
  { intros k v. unfold stored. cbn. unfold PLookup. cbn. by rewrite lookup_empty. }
  exists rp. split; [done|]. cbn in Eo. split.
  - intros reqs ids (_ & Hl1 & Hl2 & Hl3 & Hreq)%(batch_accepted_iff rp reqs ids Hok). repeat (split; [done|]). intros req Hin. destruct (Hreq req Hin) as [Hp|]; [|by left].
    apply contains_stored in Hp as [v Hst]. assert (DefaultRequestID v = DefaultRequestID req) as Eid.
    { destruct (rp_batchingEnabled rp) eqn:Hb; unfold stored in Hst; rewrite Hb in Hst.
      - destruct (pv_batch _ _ Hi Hc Hb) as (bs & Ebs & _ & _ & _ & _ & He). rewrite Ebs in Hst. by apply (He _ _ Hst).
      - destruct (pv_pending _ _ Hi Hc Hb) as (ps & Eps & _ & _ & _ & _ & He). rewrite Eps in Hst. by apply (He _ _ Hst). }
    destruct (request_id_collision _ _ Eid) as [->|[Hne Hs]]; [left; by eapply Hv|]. right. exists v. by split.
  - intros rp' requests ids other En Hne. destruct (NextRequests_spec DefaultRequestID rp Hi) as (rp1 & reqs & ids' & En' & [_ _ _ _ [Hids _] Hmax Hbytes Hw]). rewrite En in En'. injection En' as <- <- <-.
    rewrite Eo in Hmax, Hbytes. rewrite Emax in Hmax. rewrite Ebytes in Hbytes. apply (batch_accepted_iff other _ _ Hok). repeat (split; [done|]).
    intros req Hin. right. subst ids. assert ((DefaultRequestID req, req) ∈ zip (DefaultRequestID <$> requests) requests) as Hz.
    { clear -Hin. induction Hin as [|? ? ? ? IH]; cbn; [by left|by right]. }
    eapply Hv, (waiting_stored _ rp Hi). rewrite Hw. apply elem_of_app. by left.
Qed.

(** A batcher does not check the type of a request, which only the router restricts. A request of type CONFIG that is well-formed otherwise is refused by every router, but if a primary puts it
    in a batch, alone, the other batchers of the shard accept and attest the batch, and a data block with it counts as a config block. *)
Lemma config_request_attested (pool : Pool) payload (p : Payload) signature raw : inspector_ok -> payload <> [] -> (N.of_nat (length payload + length signature) <= u64_max)%N ->
  enc (mkEnvelope payload signature) = Some raw -> dec payload = Some p -> VerifyRequestShard r (mkRequest (Some payload) signature None 0) = Ok tt ->
  well_formed config payload signature HeaderType_CONFIG -> (1 <= riv_batchMaxSize r)%N -> (N.of_nat (length raw) <= riv_batchMaxBytes r)%N ->
  (forall trace seq, is_ok (verifyAndClassifyRequest (createVerifier config) (mkRequest (Some payload) signature trace seq)) = false) /\
  VerifyBatchedRequests_ DefaultRequestID r pool [raw] = Ok [DefaultRequestID raw] /\
  forall header md, IsConfigBlock (mkBlock header (Some [raw]) md) = true.
Proof.
  intros Hok Hne Hlen Henc Hdec Hsh Hwf Hsize Hbytes. split; [|split].
  - intros trace seq. destruct (verifyAndClassifyRequest _ _) as [t| |] eqn:E; [|done..]. apply (router_accepts config (mkRequest (Some payload) signature trace seq) payload t eq_refl Hlen) in E as [Hwf' Hs]. cbn [rq_Signature] in Hwf'.
    destruct Hwf as [_ (? & ? & ? & ? & ? & Eh & _ & Ec & _ & _ & _ & Et & _)], Hwf' as [_ (? & ? & ? & ? & ? & Eh' & _ & Ec' & _ & _ & _ & Et' & _)].
    rewrite Eh in Eh'. injection Eh' as <- <-. rewrite Ec in Ec'. injection Ec' as <-. rewrite Et in Et'. subst t. done.
  - apply (batch_accepted_iff pool _ _ Hok). split; [done|]. split; [cbn; lia|]. split; [cbn; lia|]. split; [done|]. intros req ->%list_elem_of_singleton. right.
    apply (batcher_accepts config r raw payload signature (io_verifier Hok) Hne Hlen Henc). eauto.
  - intros header md. destruct Hwf as [_ (rawS & rawC & shdr & chdr & identity & Eh & _ & Ec & _ & _ & _ & Et & _)]. destruct (headers_of_payload _ _ Hdec) as (h & Eh' & Ep).
    rewrite Eh in Eh'. injection Eh' as <-. cbn in Ep. change (default [] (Some rawC)) with rawC in Ep. unfold IsConfigBlock, HasConfigTx. cbn [b_Data]. unfold unmarshal. rewrite (dec_enc _ _ Henc). cbn [of_option env_Payload]. rewrite Hdec. cbn [of_option]. rewrite <-Ep.
    rewrite Ec. cbn [of_option]. rewrite Et. by apply bool_decide_eq_true.
Qed.
End Pooled.

(** * Concrete requests

    Codecs of the headers of a request, requests of a client of shard 1, and the theorems on their verification at them. *)

#[local] Existing Instance sample_fabric.
#[local] Existing Instance sample_blocks.
#[local] Existing Instance sample_sha.
#[local] Existing Instance range_canonical.

(** The signature header of a payload is in its data. *)
Definition sample_requests : RequestCodecs.
Proof.
  refine {| payload_headers bs := (fun p : Payload => (fun c => mkHeaders (Some c) (Some (pl_Data p))) <$> pl_Header p) <$> dec bs;
            signature_header bs := (fun x : bytes * bytes * bytes => mkSignatureHeader x.1.1 x.1.2) <$> get bs;
            UnmarshalIdentity := Some;
            request_of bs := (fun e : Envelope => mkRequest (nil_if_empty (env_Payload e)) (env_Signature e) None 0) <$> dec bs |}.
  - intros bs p E. rewrite E. cbn. eexists. split; [done|]. by destruct (pl_Header p).
  - intros env bs E. rewrite (dec_enc _ _ E). cbn. by eexists.
Defined.
#[local] Existing Instance sample_requests.

Definition some_bytes {A} `{Codec A} (a : A) : bytes := default [] (enc a).
Definition creator : bytes := [x02].
Definition nonce : bytes := [x01].
Definition payload_of (reqType : Z) : bytes :=
  some_bytes (mkPayload (Some (some_bytes (mkChannelHeader reqType (ComputeTxID nonce creator)))) (put (creator, nonce))).
(** The policy accepts the signature with the creator's byte. *)
Definition writers : FilterConfig := mkFilterConfig 5000 true "arma" (fun name => if decide (name = ChannelWriters) then Some (fun sd => bool_decide (sd_Signature sd = sd_Identity sd)) else None).
Definition shard1 : RequestsInspectorVerifier := mkInspector 100000 10 [1]%N 1 (createVerifier writers) 7.
Definition request_of_type (reqType : Z) : Request := mkRequest (Some (payload_of reqType)) creator (Some [x09]) 7.
Definition raw_of_type (reqType : Z) : bytes := some_bytes (mkEnvelope (payload_of reqType) creator).
Definition HeaderType_MESSAGE : Z := 0.

Lemma shard1_ok : inspector_ok writers shard1.
Proof. split; [done|]. split; [done|]. split; [done|]. by left. Qed.

Lemma request_checks_exact_witness : Inspector_VerifyRequest shard1 (raw_of_type HeaderType_MESSAGE) = Ok tt.
Proof.
  apply (request_checks_exact writers shard1 (request_of_type HeaderType_MESSAGE) (payload_of HeaderType_MESSAGE) (raw_of_type HeaderType_MESSAGE));
    [reflexivity|vm_compute; discriminate|vm_compute; discriminate|vm_compute; reflexivity|reflexivity|vm_compute; reflexivity|vm_compute; reflexivity].
Defined.

Definition service_limits : PoolOptions := mkPoolOptions 10 10 100000 5000 10 10 400.
Definition service_ops : list service_op :=
  [FromRouter (request_of_type HeaderType_MESSAGE); FromBatcher (raw_of_type HeaderType_CONFIG); FromBatcher [x01]; OnPool (RestartAs true 5); OnPool Take; OnPool Halt; OnPool (RestartAs false 6)].
Lemma service_ops_ok : Forall (op_ok writers shard1) service_ops.
Proof.
  apply Forall_cons. split; [|repeat constructor; vm_compute; try discriminate; done]. split.
  - exists (raw_of_type HeaderType_MESSAGE). split; [vm_compute; reflexivity|vm_compute; discriminate].
  - intros _. exists (payload_of HeaderType_MESSAGE). split; [done|]. split; [vm_compute; discriminate|]. split; [vm_compute; discriminate|]. split; vm_compute; reflexivity.
Qed.
Lemma accepted_batch_verified_witness : exists rp, service_run 2 shard1 (NewPool service_limits 0) service_ops = Some (Ok rp).
Proof.
  destruct (accepted_batch_verified writers shard1 service_limits 0 2 service_ops shard1_ok) as (rp & E & _); [by split|reflexivity|reflexivity|lia|apply service_ops_ok|]. exists rp. exact E.
Defined.
