(* ===== verification/RouterStream.v ===== *)
(** * The streams of a shard router to its batcher

    [src/node/router/stream.go] and the parts of [shard_router.go] that use a stream: Forward, renewal and SoftStop, for one of the stream slots. Each
    goroutine (the Forward calls of clients, sendRequests and readResponses of every stream, the reconnection routine, SoftStop, the config submitter)
    is a program counter, and a step is what runs between two of its accesses to shared state: a channel, the registrations of a stream, its
    context, the installed stream. *)
From stdpp Require Import gmap sets relations.
From Stdlib Require Import NArith ZArith Lia Strings.String.
From S2P Require Import Prelude Types Events Blocks RequestFilter Router.

(** A tracked request is a pointer; what it points to is given by the functions of the section below. *)
Notation tracked := nat (only parsing).

(** Where a goroutine is in cancelOnServerError: before cancel, draining the queue, with a drained request in hand, before the registrations are detached, before the notification. *)
Inductive fail_stage := FCancel | FDrain | FHold (tr : tracked) | FDetach | FNotify | FDone.
Inductive sender_pc := SIdle | SHolding (tr : tracked) | SFailing (f : fail_stage) | SExited.
Inductive reader_pc := RIdle | RFailing (f : fail_stage) | RExited.

Record stream := mkStream {
  st_faulty : bool;
  st_done : bool;
  st_requestsChannel : list tracked;
  st_requestsByTraceID : gmap bytes tracked;
  st_notifiedReconnect : bool;
  st_sender : sender_pc;
  st_reader : reader_pc
}.
Definition new_stream (channel : list tracked) (registered : gmap bytes tracked) : stream := mkStream false false channel registered false SIdle RIdle.
Definition with_channel c s := mkStream (st_faulty s) (st_done s) c (st_requestsByTraceID s) (st_notifiedReconnect s) (st_sender s) (st_reader s).
Definition with_registered m s := mkStream (st_faulty s) (st_done s) (st_requestsChannel s) m (st_notifiedReconnect s) (st_sender s) (st_reader s).
Definition with_notified s := mkStream (st_faulty s) (st_done s) (st_requestsChannel s) (st_requestsByTraceID s) true (st_sender s) (st_reader s).
Definition with_sender p s := mkStream (st_faulty s) (st_done s) (st_requestsChannel s) (st_requestsByTraceID s) (st_notifiedReconnect s) p (st_reader s).
Definition with_reader p s := mkStream (st_faulty s) (st_done s) (st_requestsChannel s) (st_requestsByTraceID s) (st_notifiedReconnect s) (st_sender s) p.
Definition cancelled s := mkStream true (st_done s) (st_requestsChannel s) (st_requestsByTraceID s) (st_notifiedReconnect s) (st_sender s) (st_reader s).
Definition closed s := mkStream true true (st_requestsChannel s) (st_requestsByTraceID s) (st_notifiedReconnect s) (st_sender s) (st_reader s).

(** A Forward call: before it reads the installed stream, with the stream it read, after the check that it is not faulty, after the registration. *)
Inductive forward_pc := FwStart (tr : tracked) | FwGot (tr : tracked) (i : option nat) | FwChecked (tr : tracked) (i : nat) | FwRegistered (tr : tracked) (i : nat).
(** The reconnection routine: idle, renewing stream [i] with the requests moved so far, with the new stream to install. *)
Inductive reconnect_pc := CIdle | CMove (i : nat) (moved : list tracked) | CCopy (i : nat) (moved : list tracked) | CInstall (i : nat) | CStopped.

Record shard_router := mkShardRouter {
  sh_streams : list stream;
  sh_installed : option nat;
  sh_reconnects : nat;
  sh_forwards : list forward_pc;
  sh_reconnect : reconnect_pc;
  sh_softStop : option fail_stage;
  sh_configRequests : list tracked;
  sh_sent : list tracked;
  sh_replies : list (tracked * Response);
  (** Requests that Forward was called for, and requests that left the queues. *)
  sh_submitted : list tracked;
  sh_handled : list tracked
}.
Definition set_streams l r := mkShardRouter l (sh_installed r) (sh_reconnects r) (sh_forwards r) (sh_reconnect r) (sh_softStop r) (sh_configRequests r) (sh_sent r) (sh_replies r) (sh_submitted r) (sh_handled r).
Definition set_stream i s r := set_streams (<[i := s]> (sh_streams r)) r.
Definition set_forwards l r := mkShardRouter (sh_streams r) (sh_installed r) (sh_reconnects r) l (sh_reconnect r) (sh_softStop r) (sh_configRequests r) (sh_sent r) (sh_replies r) (sh_submitted r) (sh_handled r).
Definition set_reconnect n p r := mkShardRouter (sh_streams r) (sh_installed r) n (sh_forwards r) p (sh_softStop r) (sh_configRequests r) (sh_sent r) (sh_replies r) (sh_submitted r) (sh_handled r).
Definition set_installed i r := mkShardRouter (sh_streams r) i (sh_reconnects r) (sh_forwards r) (sh_reconnect r) (sh_softStop r) (sh_configRequests r) (sh_sent r) (sh_replies r) (sh_submitted r) (sh_handled r).
Definition set_softStop p r := mkShardRouter (sh_streams r) (sh_installed r) (sh_reconnects r) (sh_forwards r) (sh_reconnect r) p (sh_configRequests r) (sh_sent r) (sh_replies r) (sh_submitted r) (sh_handled r).
Definition set_config l r := mkShardRouter (sh_streams r) (sh_installed r) (sh_reconnects r) (sh_forwards r) (sh_reconnect r) (sh_softStop r) l (sh_sent r) (sh_replies r) (sh_submitted r) (sh_handled r).
Definition set_sent l r := mkShardRouter (sh_streams r) (sh_installed r) (sh_reconnects r) (sh_forwards r) (sh_reconnect r) (sh_softStop r) (sh_configRequests r) l (sh_replies r) (sh_submitted r) (sh_handled r).
Definition replied l r := mkShardRouter (sh_streams r) (sh_installed r) (sh_reconnects r) (sh_forwards r) (sh_reconnect r) (sh_softStop r) (sh_configRequests r) (sh_sent r) (sh_replies r ++ l) (sh_submitted r) (sh_handled r).
Definition handled tr r := mkShardRouter (sh_streams r) (sh_installed r) (sh_reconnects r) (sh_forwards r) (sh_reconnect r) (sh_softStop r) (sh_configRequests r) (sh_sent r) (sh_replies r) (sh_submitted r) (sh_handled r ++ [tr]).
Definition submitted tr r := mkShardRouter (sh_streams r) (sh_installed r) (sh_reconnects r) (sh_forwards r) (sh_reconnect r) (sh_softStop r) (sh_configRequests r) (sh_sent r) (sh_replies r) (sh_submitted r ++ [tr]) (sh_handled r).
Definition empty_router : shard_router := mkShardRouter [] None 1 [] CIdle None [] [] [] [] [].

Definition channel_capacity : nat := 1000.
Definition config_capacity : nat := 100.

Section Streams.
(** The request, trace and identifier of a tracked request, what the verifier says of a request, and the reply of the config submitter. *)
Context (request : tracked -> Request) (trace : tracked -> option bytes) (reqID : tracked -> bytes).
Context (verify : Request -> outcome Z) (config_reply : tracked -> Response).

Definition server_error (tr : tracked) : tracked * Response := (tr, mkResponse (Some "server error: could not establish connection between router and batcher"%string) (reqID tr) None).
Definition unregister (tr : tracked) (s : stream) : stream :=
  match trace tr with Some t => with_registered (delete t (st_requestsByTraceID s)) s | None => s end.
Definition is_registered (tr : tracked) (s : stream) : bool :=
  match trace tr with Some t => bool_decide (is_Some (st_requestsByTraceID s !! t)) | None => false end.

(** ** cancelOnServerError on stream [i] *)
Definition notify (i : nat) (s : stream) (r : shard_router) : shard_router :=
  if st_notifiedReconnect s then r else set_reconnect (S (sh_reconnects r)) (sh_reconnect r) (set_stream i (with_notified s) r).
Definition fail_step (i : nat) (s : stream) (f : fail_stage) (r : shard_router) : option (shard_router * fail_stage) :=
  match f with
  | FCancel => Some (set_stream i (cancelled s) r, FDrain)
  | FDrain =>
      match st_requestsChannel s with
      | tr :: rest => Some (set_stream i (with_channel rest s) r, FHold tr)
      | [] => Some (r, FDetach)
      end
  | FHold tr => Some (handled tr (replied [server_error tr] (set_stream i (unregister tr s) r)), FDrain)
  | FDetach => Some (replied (server_error <$> (map_to_list (st_requestsByTraceID s)).*2) (set_stream i (with_registered ∅ s) r), FNotify)
  | FNotify => if st_faulty s then Some (notify i s r, FDone) else None
  | FDone => None
  end.

(** ** sendRequests: what happens to a request that was taken from the queue *)
Definition untraced_reply (tr : tracked) (resp : Response) : list (tracked * Response) := match trace tr with None => [(tr, resp)] | Some _ => [] end.
(** responseToClientWithError *)
Definition reply_error (tr : tracked) (err : string) (s : stream) : stream * list (tracked * Response) :=
  match trace tr with
  | None => (s, [(tr, mkResponse (Some err) [] None)])
  | Some t =>
      match st_requestsByTraceID s !! t with
      | Some tr' => (with_registered (delete t (st_requestsByTraceID s)) s, [(tr', mkResponse None [] (Some (mkSubmitResponse [] t err)))])
      | None => (s, [])
      end
  end.
(** Forward of the config submitter *)
Definition config_forward (tr : tracked) (r : shard_router) : shard_router :=
  if bool_decide (List.length (sh_configRequests r) < config_capacity) then set_config (sh_configRequests r ++ [tr]) r
  else handled tr (replied [(tr, mkResponse (Some "server error: config request queue is full, try again later"%string) (reqID tr) None)] r).

(** The sender goes on with stream [i], [sendOk] being the result of Send; a panic of the verifier ends the process. *)
Definition send_step (i : nat) (s : stream) (tr : tracked) (sendOk : bool) (r : shard_router) : option shard_router :=
  match verify (request tr) with
  | Panic _ => None
  | Err e => let '(s, l) := reply_error tr e s in Some (handled tr (replied l (set_stream i (with_sender SIdle s) r)))
  | Ok t => Some (
      if bool_decide (t = HeaderType_CONFIG_UPDATE) then
        if bool_decide (is_Some (trace tr)) && negb (is_registered tr s) then handled tr (set_stream i (with_sender SIdle s) r)
        else config_forward tr (set_stream i (with_sender SIdle (unregister tr s)) r)
      else if sendOk then handled tr (replied (untraced_reply tr (mkResponse None [] None)) (set_sent (sh_sent r ++ [tr]) (set_stream i (with_sender SIdle s) r)))
      else handled tr (replied (untraced_reply tr (mkResponse (Some "server error: could not establish connection between router and batcher"%string) [] None)) (set_stream i (with_sender (SFailing FCancel) s) r)))
  end.

(** forwardResponseToClient *)
Definition receive (i : nat) (s : stream) (response : SubmitResponse) (r : shard_router) : shard_router :=
  match st_requestsByTraceID s !! sr_TraceId response with
  | Some tr => replied [(tr, mkResponse None [] (Some response))] (set_stream i (with_registered (delete (sr_TraceId response) (st_requestsByTraceID s)) s) r)
  | None => r
  end.

(** ** Forward *)
Definition forward_got (tr : tracked) (o : option nat) (r : shard_router) : shard_router * list forward_pc :=
  let rejected r := (handled tr (replied [(tr, mkResponse (Some "server error: connection between router and batcher is broken, try again later"%string) (reqID tr) None)] r), []) in
  match o with
  | None => rejected r
  | Some i =>
      match sh_streams r !! i with
      | None => rejected r
      | Some s => if st_faulty s then rejected (notify i s r) else (r, [FwChecked tr i])
      end
  end.

(** ** Steps *)
(** SoftStop holds the shard router's lock for reading until it has answered the requests; installing a stream needs it for writing. *)
Definition not_stopping (r : shard_router) : Prop := sh_softStop r = None \/ sh_softStop r = Some FNotify.
(** The label tells the replies to drained requests and the copies of registrations from the other steps. *)
Inductive label := LDrained (i : nat) (tr : tracked) | LCopied (i : nat) | LOther.
Definition fail_label (i : nat) (f : fail_stage) : label := match f with FHold tr => LDrained i tr | _ => LOther end.

Inductive stream_step : shard_router -> label -> shard_router -> Prop :=
| step_submit r tr : tr ∉ sh_submitted r -> stream_step r LOther (submitted tr (set_forwards (sh_forwards r ++ [FwStart tr]) r))
| step_read r l1 tr l2 : sh_forwards r = l1 ++ FwStart tr :: l2 -> stream_step r LOther (set_forwards (l1 ++ FwGot tr (sh_installed r) :: l2) r)
| step_check r l1 tr o l2 r' new : sh_forwards r = l1 ++ FwGot tr o :: l2 -> forward_got tr o r = (r', new) -> stream_step r LOther (set_forwards (l1 ++ new ++ l2) r')
| step_register r l1 tr i l2 s : sh_forwards r = l1 ++ FwChecked tr i :: l2 -> sh_streams r !! i = Some s ->
    stream_step r LOther (set_forwards (l1 ++ FwRegistered tr i :: l2)
      (match trace tr with Some t => set_stream i (with_registered (<[t := tr]> (st_requestsByTraceID s)) s) r | None => r end))
| step_enqueue r l1 tr i l2 s : sh_forwards r = l1 ++ FwRegistered tr i :: l2 -> sh_streams r !! i = Some s -> List.length (st_requestsChannel s) < channel_capacity ->
    stream_step r LOther (set_forwards (l1 ++ l2) (set_stream i (with_channel (st_requestsChannel s ++ [tr]) s) r))
| step_sender_exit r i s : sh_streams r !! i = Some s -> st_sender s = SIdle -> st_done s = true -> stream_step r LOther (set_stream i (with_sender SExited s) r)
| step_take r i s tr rest : sh_streams r !! i = Some s -> st_sender s = SIdle -> st_requestsChannel s = tr :: rest ->
    stream_step r LOther (set_stream i (with_sender (SHolding tr) (with_channel rest s)) r)
| step_send r i s tr sendOk r' : sh_streams r !! i = Some s -> st_sender s = SHolding tr -> send_step i s tr sendOk r = Some r' -> stream_step r LOther r'
| step_sender_fail r i s f r' s' f' : sh_streams r !! i = Some s -> st_sender s = SFailing f -> fail_step i s f r = Some (r', f') -> sh_streams r' !! i = Some s' ->
    stream_step r (fail_label i f) (set_stream i (with_sender (match f' with FDone => SExited | _ => SFailing f' end) s') r')
| step_reader_exit r i s : sh_streams r !! i = Some s -> st_reader s = RIdle -> st_done s = true -> stream_step r LOther (set_stream i (with_reader RExited s) r)
| step_receive r i s response : sh_streams r !! i = Some s -> st_reader s = RIdle -> stream_step r LOther (receive i s response r)
| step_receive_fails r i s : sh_streams r !! i = Some s -> st_reader s = RIdle -> stream_step r LOther (set_stream i (with_reader (RFailing FCancel) s) r)
| step_reader_fail r i s f r' s' f' : sh_streams r !! i = Some s -> st_reader s = RFailing f -> fail_step i s f r = Some (r', f') -> sh_streams r' !! i = Some s' ->
    stream_step r (fail_label i f) (set_stream i (with_reader (match f' with FDone => RExited | _ => RFailing f' end) s') r')
| step_init r n : not_stopping r -> sh_reconnect r = CIdle -> sh_reconnects r = S n -> sh_installed r = None ->
    stream_step r LOther (set_installed (Some (List.length (sh_streams r))) (set_streams (sh_streams r ++ [new_stream [] ∅]) (set_reconnect n CIdle r)))
| step_not_faulty r n i s : sh_reconnect r = CIdle -> sh_reconnects r = S n -> sh_installed r = Some i -> sh_streams r !! i = Some s -> st_faulty s = false ->
    stream_step r LOther (set_reconnect n CIdle r)
| step_renew r n i s : sh_reconnect r = CIdle -> sh_reconnects r = S n -> sh_installed r = Some i -> sh_streams r !! i = Some s -> st_faulty s = true ->
    stream_step r LOther (set_stream i (closed s) (set_reconnect n (CMove i []) r))
| step_move r i s moved tr rest : sh_reconnect r = CMove i moved -> sh_streams r !! i = Some s -> st_requestsChannel s = tr :: rest ->
    stream_step r LOther (set_stream i (with_channel rest s) (set_reconnect (sh_reconnects r) (CMove i (moved ++ [tr])) r))
| step_moved r i s moved : sh_reconnect r = CMove i moved -> sh_streams r !! i = Some s -> st_requestsChannel s = [] ->
    stream_step r LOther (set_reconnect (sh_reconnects r) (CCopy i moved) r)
| step_copy r i s moved : sh_reconnect r = CCopy i moved -> sh_streams r !! i = Some s ->
    stream_step r (LCopied i) (set_streams (sh_streams r ++ [new_stream moved (st_requestsByTraceID s)]) (set_reconnect (sh_reconnects r) (CInstall (List.length (sh_streams r))) r))
| step_install r i : not_stopping r -> sh_reconnect r = CInstall i -> stream_step r LOther (set_installed (Some i) (set_reconnect (sh_reconnects r) CIdle r))
| step_stop r : sh_softStop r = None -> stream_step r LOther (set_softStop (Some FDrain) r)
| step_stop_reconnect r : sh_softStop r <> None -> sh_reconnect r = CIdle -> stream_step r LOther (set_reconnect (sh_reconnects r) CStopped r)
| step_stop_drain r i s f r' f' : sh_softStop r = Some f -> f <> FNotify -> sh_installed r = Some i -> sh_streams r !! i = Some s -> fail_step i s f r = Some (r', f') ->
    stream_step r (fail_label i f) (set_softStop (Some f') r')
| step_config r tr rest : sh_configRequests r = tr :: rest -> stream_step r LOther (handled tr (replied [(tr, config_reply tr)] (set_config rest r))).
End Streams.
