(* ===== verification/RouterStreamThms.v ===== *)
(** * Theorems on the streams of a shard router

    Where each request is at any time, how many replies it gets under every interleaving, and the two interleavings in which the code replies twice. *)
From stdpp Require Import gmap sets relations.
From Stdlib Require Import NArith ZArith Lia.
From Stdlib Require Import Init.Byte.
From S2P Require Import Prelude Types Events Blocks RequestFilter Router RouterStream.

(** ** Occurrences *)
Fixpoint occ (x : nat) (l : list nat) : nat := match l with [] => 0 | y :: l => (if decide (x = y) then 1 else 0) + occ x l end.
Lemma occ_app x l1 l2 : occ x (l1 ++ l2) = occ x l1 + occ x l2.
Proof. induction l1 as [|y l1 IH]; [done|]. cbn. rewrite IH. lia. Qed.
Lemma occ_elem x l : x ∈ l <-> 0 < occ x l.
Proof.
  induction l as [|y l IH]; cbn; [split; [by intros ?%not_elem_of_nil|lia]|]. rewrite elem_of_cons, IH. destruct (decide (x = y)); [split; [lia|by left]|]. split; [intros [|]; [done|lia]|intros; right; lia].
Qed.
Lemma occ_perm x l1 l2 : l1 ≡ₚ l2 -> occ x l1 = occ x l2.
Proof. induction 1; cbn; lia. Qed.
Lemma occ_concat_insert {A} (f : A -> list nat) x l i a a' : l !! i = Some a ->
  occ x (concat (f <$> <[i := a']> l)) + occ x (f a) = occ x (concat (f <$> l)) + occ x (f a').
Proof.
  intros Hi. rewrite (insert_take_drop l i a') by by eapply lookup_lt_Some. rewrite <-(take_drop_middle l i a Hi) at 3.
  rewrite !fmap_app, !concat_app, !occ_app. cbn. rewrite !occ_app. lia.
Qed.
Lemma occ_concat_snoc {A} (f : A -> list nat) x l a : occ x (concat (f <$> (l ++ [a]))) = occ x (concat (f <$> l)) + occ x (f a).
Proof. rewrite fmap_app, concat_app, occ_app. cbn. by rewrite app_nil_r. Qed.

(** ** The places of a request *)
Definition fail_holds (f : fail_stage) : list nat := match f with FHold tr => [tr] | _ => [] end.
Definition stream_holds (s : stream) : list nat :=
  st_requestsChannel s ++ match st_sender s with SHolding tr => [tr] | SFailing f => fail_holds f | _ => [] end ++ match st_reader s with RFailing f => fail_holds f | _ => [] end.
Definition forward_holds (f : forward_pc) : list nat := match f with FwStart tr | FwGot tr _ | FwChecked tr _ | FwRegistered tr _ => [tr] end.
Definition reconnect_holds (p : reconnect_pc) : list nat := match p with CMove _ moved | CCopy _ moved => moved | _ => [] end.
Definition places (r : shard_router) : list nat :=
  concat (forward_holds <$> sh_forwards r) ++ concat (stream_holds <$> sh_streams r) ++ reconnect_holds (sh_reconnect r) ++
  match sh_softStop r with Some f => fail_holds f | None => [] end ++ sh_configRequests r.

Arguments places : simpl never.
(** The registrations, and the requests that are not registered yet. *)
Definition stream_registered (s : stream) : list nat := (map_to_list (st_requestsByTraceID s)).*2.
Definition registered (r : shard_router) : list nat := concat (stream_registered <$> sh_streams r).
Definition forward_unregistered (f : forward_pc) : list nat := match f with FwStart tr | FwGot tr _ | FwChecked tr _ => [tr] | FwRegistered _ _ => [] end.
Definition unregistered (r : shard_router) : list nat := concat (forward_unregistered <$> sh_forwards r).

Lemma occ_delete (x : nat) (m : gmap bytes nat) (t : bytes) (y : nat) : m !! t = Some y -> occ x (map_to_list m).*2 = occ x (map_to_list (delete t m)).*2 + occ x [y].
Proof. intros Hm. rewrite <-(occ_perm x _ _ (fmap_Permutation snd _ _ (map_to_list_delete m t y Hm))). cbn. lia. Qed.
Lemma occ_insert (x : nat) (m : gmap bytes nat) (t : bytes) (y : nat) : m !! t = None -> occ x (map_to_list (<[t := y]> m)).*2 = occ x (map_to_list m).*2 + occ x [y].
Proof. intros Hm. rewrite (occ_perm x _ _ (fmap_Permutation snd _ _ (map_to_list_insert m t y Hm))). cbn. lia. Qed.

Ltac occ_simp := repeat rewrite ?fmap_app, ?concat_app, ?occ_app in *; cbn [fmap list_fmap concat app occ fst snd] in *; repeat rewrite ?app_nil_r in *.

Section Accounting.
Context (request : tracked -> Request) (trace : tracked -> option bytes) (reqID : tracked -> bytes).
Context (verify : Request -> outcome Z) (config_reply : tracked -> Response).
Notation step := (stream_step request trace reqID verify config_reply).

(** Any run, and the states it goes through. *)
Inductive reach (safe : shard_router -> label -> Prop) : shard_router -> Prop :=
| reach_start : reach safe empty_router
| reach_step r l r' : reach safe r -> safe r l -> step r l r' -> reach safe r'.
Definition any (r : shard_router) (l : label) : Prop := True.

Definition keys_ok (m : gmap bytes tracked) : Prop := forall t x, m !! t = Some x -> trace x = Some t.
Definition all_keys (r : shard_router) : Prop := forall i s, sh_streams r !! i = Some s -> keys_ok (st_requestsByTraceID s).
(** A request is at one place until it is handled; an untraced one is replied to when it is handled; only traced requests are registered, under their trace. *)
Record stream_inv (r : shard_router) : Prop := {
  iv_places : forall x, occ x (places r) + occ x (sh_handled r) = occ x (sh_submitted r);
  iv_once : forall x, occ x (sh_submitted r) <= 1;
  iv_untraced : forall x, trace x = None -> occ x (sh_replies r).*1 = occ x (sh_handled r);
  iv_registered : all_keys r;
  iv_sent : forall x, x ∈ sh_sent r -> exists t, verify (request x) = Ok t /\ t <> HeaderType_CONFIG_UPDATE;
  iv_config : forall x, x ∈ sh_configRequests r -> verify (request x) = Ok HeaderType_CONFIG_UPDATE;
  iv_success : forall x resp, (x, resp) ∈ sh_replies r -> trace x = None -> rs_err resp = None -> x ∈ sh_sent r \/ verify (request x) = Ok HeaderType_CONFIG_UPDATE
}.

(** *** What the parts of a step change *)
Lemma holds_set_stream x r i s s' : sh_streams r !! i = Some s ->
  occ x (places (set_stream i s' r)) + occ x (stream_holds s) = occ x (places r) + occ x (stream_holds s').
Proof. intros Hs. pose proof (occ_concat_insert stream_holds x _ i s s' Hs). unfold places. cbn. rewrite !occ_app. lia. Qed.

(** [r'] has the requests, replies and registrations of [r] but for the request [out] that was handled, and the replies [l]. *)
Record keeps (r r' : shard_router) (l : list (tracked * Response)) : Prop := {
  kp_submitted : sh_submitted r' = sh_submitted r;
  kp_forwards : sh_forwards r' = sh_forwards r;
  kp_config : sh_configRequests r' = sh_configRequests r;
  kp_sent : sh_sent r' = sh_sent r;
  kp_replies : sh_replies r' = sh_replies r ++ l
}.

Lemma keys_delete m t : keys_ok m -> keys_ok (delete t m).
Proof. intros Hm t' x Hx. apply lookup_delete_Some in Hx as [_ Hx]. by apply Hm. Qed.
Lemma keys_set_stream r i s' : all_keys r -> keys_ok (st_requestsByTraceID s') -> all_keys (set_stream i s' r).
Proof. intros Hr Hs j s Hj. cbn in Hj. apply list_lookup_insert_Some in Hj as [(-> & <- & _)|[_ Hj]]; [done|by eapply Hr]. Qed.
Lemma keys_unregister tr s : keys_ok (st_requestsByTraceID s) -> keys_ok (st_requestsByTraceID (unregister trace tr s)).
Proof. unfold unregister. destruct (trace tr); [cbn; apply keys_delete|done]. Qed.
Lemma unregister_holds tr s : stream_holds (unregister trace tr s) = stream_holds s.
Proof. unfold unregister. by destruct (trace tr). Qed.

Lemma registered_untraced m x : keys_ok m -> trace x = None -> occ x (map_to_list m).*2 = 0.
Proof.
  intros Hm Hx. destruct (occ x _) eqn:E; [done|]. assert (x ∈ (map_to_list m).*2) as Hin by (apply occ_elem; lia).
  apply list_elem_of_fmap in Hin as ([t y] & -> & Hy%elem_of_map_to_list). apply Hm in Hy. cbn in *. congruence.
Qed.

Lemma notify_keeps i s r : sh_streams r !! i = Some s -> keeps r (notify i s r) [] /\ (forall x, occ x (places (notify i s r)) = occ x (places r)) /\
  sh_handled (notify i s r) = sh_handled r /\ (all_keys r -> all_keys (notify i s r)).
Proof.
  intros Hs. unfold notify. destruct (st_notifiedReconnect s); [split; [by split; rewrite ?app_nil_r|done]|]. split; [by split; cbn; rewrite ?app_nil_r|]. split; [|split; [done|]].
  - intros x. pose proof (holds_set_stream x r i s (with_notified s) Hs) as E. change (stream_holds (with_notified s)) with (stream_holds s) in E. unfold places in *. cbn [set_reconnect set_stream set_streams sh_streams sh_forwards sh_reconnect sh_softStop sh_configRequests] in *. lia.
  - intros Hk. apply (keys_set_stream (set_reconnect _ _ r)); [exact Hk|]. exact (Hk i s Hs).
Qed.

Lemma fail_step_keeps i s f r r' f' : sh_streams r !! i = Some s -> all_keys r -> fail_step trace reqID i s f r = Some (r', f') ->
  exists l out, keeps r r' l /\ sh_handled r' = sh_handled r ++ out /\ all_keys r' /\
    (forall x, occ x (places r') + occ x (fail_holds f') + occ x out = occ x (places r) + occ x (fail_holds f)) /\
    (forall x, trace x = None -> occ x l.*1 = occ x out) /\ (forall x resp, (x, resp) ∈ l -> rs_err resp <> None).
Proof.
  intros Hs Hk E. destruct f as [| |tr| | |]; cbn [fail_step] in E.
  - injection E as <- <-. exists [], []. cbn. rewrite !app_nil_r. split; [by split; cbn; rewrite ?app_nil_r|]. split; [done|]. split; [apply keys_set_stream; [done|exact (Hk i s Hs)]|]. split; [|split; [done|by intros ? ? ?%not_elem_of_nil]].
    intros x. pose proof (holds_set_stream x r i s (cancelled s) Hs) as Ep. unfold stream_holds in Ep. cbn in Ep. lia.
  - destruct (st_requestsChannel s) as [|tr rest] eqn:Ec; injection E as <- <-.
    + exists [], []. rewrite !app_nil_r. split; [by split; rewrite ?app_nil_r|]. split; [done|]. split; [done|]. split; [done|]. split; [done|]. by intros ? ? ?%not_elem_of_nil.
    + exists [], []. cbn. rewrite !app_nil_r. split; [by split; cbn; rewrite ?app_nil_r|]. split; [done|]. split; [apply keys_set_stream; [done|exact (Hk i s Hs)]|]. split; [|split; [done|by intros ? ? ?%not_elem_of_nil]].
      intros x. pose proof (holds_set_stream x r i s (with_channel rest s) Hs) as Ep. unfold stream_holds in Ep. rewrite Ec in Ep. cbn in Ep. rewrite !occ_app in Ep. lia.
  - injection E as <- <-. exists [server_error reqID tr], [tr]. split; [done|]. split; [done|]. split; [apply (keys_set_stream r); [done|apply keys_unregister; exact (Hk i s Hs)]|]. split; [|split; [done|]].
    + intros x. pose proof (holds_set_stream x r i s (unregister trace tr s) Hs) as Ep. rewrite unregister_holds in Ep. unfold places in *. cbn in *. lia.
    + by intros x resp [= -> ->]%list_elem_of_singleton.
  - injection E as <- <-. exists (server_error reqID <$> (map_to_list (st_requestsByTraceID s)).*2), []. split; [done|]. cbn. rewrite app_nil_r. split; [done|]. split; [apply (keys_set_stream r); [done|intros t x Hx; cbn in Hx; by rewrite lookup_empty in Hx]|]. split; [|split].
    + intros x. pose proof (holds_set_stream x r i s (with_registered ∅ s) Hs) as Ep. unfold stream_holds, places in *. cbn in *. lia.
    + intros x Hx. rewrite <-list_fmap_compose. rewrite (list_fmap_ext _ id) by done. rewrite list_fmap_id. apply registered_untraced; [exact (Hk i s Hs)|done].
    + intros x resp (y & [= -> ->] & _)%list_elem_of_fmap. done.
  - destruct (st_faulty s); [|done]. injection E as <- <-. destruct (notify_keeps i s r Hs) as (Hkp & Hp & Hh & Hkeys). exists [], []. rewrite app_nil_r. split; [done|]. split; [done|]. split; [by apply Hkeys|].
    split; [intros x; rewrite Hp; cbn; lia|]. split; [done|]. by intros ? ? ?%not_elem_of_nil.
  - done.
Qed.

(** An operation that handles [out], replies [l], sends [snt] and leaves requests of its own kind in the config queue. *)
Lemma inv_update r r' out l snt : stream_inv r -> sh_submitted r' = sh_submitted r -> sh_handled r' = sh_handled r ++ out -> sh_replies r' = sh_replies r ++ l -> sh_sent r' = sh_sent r ++ snt ->
  (forall x, occ x (places r') + occ x out = occ x (places r)) -> (forall x, trace x = None -> occ x l.*1 = occ x out) -> all_keys r' ->
  (forall x, x ∈ snt -> exists t, verify (request x) = Ok t /\ t <> HeaderType_CONFIG_UPDATE) ->
  (forall x, x ∈ sh_configRequests r' -> x ∈ sh_configRequests r \/ verify (request x) = Ok HeaderType_CONFIG_UPDATE) ->
  (forall x resp, (x, resp) ∈ l -> trace x = None -> rs_err resp = None -> x ∈ snt \/ verify (request x) = Ok HeaderType_CONFIG_UPDATE) -> stream_inv r'.
Proof.
  intros [Hp Ho Hu Hk Hsent Hc Hsu] Es Eh Er Et Hpl Hl Hk' Hsn Hco Hsl. split.
  - intros x. rewrite Eh, Es, occ_app, <-Hp, <-Hpl. lia.
  - intros x. by rewrite Es.
  - intros x Hx. rewrite Er, Eh, fmap_app, !occ_app, (Hu x Hx), (Hl x Hx). done.
  - done.
  - intros x. rewrite Et. intros [Hx|Hx]%elem_of_app; [by apply Hsent|by apply Hsn].
  - intros x [Hx|Hx]%Hco; [by apply Hc|done].
  - intros x resp. rewrite Er, Et. intros [Hx|Hx]%elem_of_app Hn He; [destruct (Hsu x resp Hx Hn He) as [|]; [left; apply elem_of_app; by left|by right]|].
    destruct (Hsl x resp Hx Hn He) as [|]; [left; apply elem_of_app; by right|by right].
Qed.

(** An operation that only moves requests. *)
Lemma inv_move r r' : stream_inv r -> keeps r r' [] -> sh_handled r' = sh_handled r -> (forall x, occ x (places r') = occ x (places r)) -> all_keys r' -> stream_inv r'.
Proof.
  intros Hi [E1 _ E3 E4 E5] E6 Hp Hk. apply (inv_update r r' [] [] []); rewrite ?app_nil_r; try done.
  - by rewrite E5, app_nil_r.
  - intros x. rewrite Hp. cbn. lia.
  - by intros x ?%not_elem_of_nil.
  - intros x. rewrite E3. by left.
  - by intros x resp ?%not_elem_of_nil.
Qed.

(** Replacing the stream by one with the same requests, up to what [lost] says. *)
Lemma places_stream x r i s s' : sh_streams r !! i = Some s -> occ x (stream_holds s') = occ x (stream_holds s) -> occ x (places (set_stream i s' r)) = occ x (places r).
Proof. intros Hs E. pose proof (holds_set_stream x r i s s' Hs). lia. Qed.
Lemma places_forwards x r l1 f f' l2 : sh_forwards r = l1 ++ f :: l2 -> occ x (places (set_forwards (l1 ++ f' ++ l2) r)) + occ x (forward_holds f) = occ x (places r) + occ x (concat (forward_holds <$> f')).
Proof. intros E. unfold places. cbn. rewrite E, !occ_app, !fmap_app, !concat_app, !occ_app. cbn. rewrite !occ_app. lia. Qed.

Lemma inv_fail r i s f r' f' r'' : stream_inv r -> sh_streams r !! i = Some s -> fail_step trace reqID i s f r = Some (r', f') -> keeps r' r'' [] -> sh_handled r'' = sh_handled r' ->
  (forall x, occ x (places r'') + occ x (fail_holds f) = occ x (places r') + occ x (fail_holds f')) -> (all_keys r' -> all_keys r'') -> stream_inv r''.
Proof.
  intros Hi Hs E [E1 _ E3 E4 E5] E6 Hp Hk. destruct (fail_step_keeps _ _ _ _ _ _ Hs (iv_registered _ Hi) E) as (l & out & [F1 _ F3 F4 F5] & F6 & F7 & F8 & F9 & F10).
  apply (inv_update r r'' out l []); [done|congruence|congruence|by rewrite E5, app_nil_r|by rewrite E4, F4, app_nil_r| |done|by apply Hk|by intros x ?%not_elem_of_nil|intros x; rewrite E3, F3; by left|].
  - intros x. specialize (Hp x). specialize (F8 x). lia.
  - intros x resp Hx _ He. by destruct (F10 x resp Hx).
Qed.

Lemma inv_send r i s tr sendOk r' : stream_inv r -> sh_streams r !! i = Some s -> st_sender s = SHolding tr -> send_step request trace reqID verify i s tr sendOk r = Some r' -> stream_inv r'.
Proof.
  intros Hi Hs Hh E. pose proof (iv_registered _ Hi i s Hs) as Hk. unfold send_step in E.
  assert (forall x p s1, st_requestsChannel s1 = st_requestsChannel s -> st_reader s1 = st_reader s -> (p = SIdle \/ p = SFailing FCancel) ->
    occ x (places (set_stream i (with_sender p s1) r)) + occ x [tr] = occ x (places r)) as Hpl.
  { intros x p s1 E1 E2 Hp. pose proof (holds_set_stream x r i s (with_sender p s1) Hs) as Ep. unfold stream_holds in Ep. cbn [with_sender st_requestsChannel st_sender st_reader] in Ep. rewrite E1, E2, Hh in Ep. rewrite !occ_app in Ep.
    destruct Hp as [-> | ->]; cbn in *; lia. }
  assert (forall p s1, keys_ok (st_requestsByTraceID s1) -> all_keys (set_stream i (with_sender p s1) r)) as Hks by (intros; by apply keys_set_stream; [apply Hi|]).
  destruct (verify (request tr)) as [t|e|] eqn:Ev; [| |done].
  2:{ destruct (reply_error trace tr e s) as [s1 l] eqn:Er. injection E as <-. unfold reply_error in Er.
      assert (st_requestsChannel s1 = st_requestsChannel s /\ st_reader s1 = st_reader s /\ keys_ok (st_requestsByTraceID s1) /\ (forall x, trace x = None -> occ x l.*1 = occ x [tr]) /\ (forall x resp, (x, resp) ∈ l -> trace x = None -> rs_err resp <> None)) as (G1 & G2 & G3 & G4 & G5).
      { destruct (trace tr) as [t|] eqn:Et.
        - assert (forall x, trace x = None -> occ x [tr] = 0) as Hz by (intros x Hx; cbn; destruct (decide (x = tr)); [congruence|done]).
          destruct (st_requestsByTraceID s !! t) as [tr'|] eqn:Em; injection Er as <- <-; (split; [done|]; split; [done|]).
          + assert (trace tr' = Some t) as Ht by by apply Hk in Em. split; [by apply keys_delete|]. split; [intros x Hx; rewrite (Hz x Hx); cbn; destruct (decide (x = tr')); [congruence|done]|]. intros x resp [= -> ->]%list_elem_of_singleton. congruence.
          + split; [done|]. split; [intros x Hx; by rewrite (Hz x Hx)|]. by intros x resp ?%not_elem_of_nil.
        - injection Er as <- <-. split; [done|]. split; [done|]. split; [done|]. split; [done|]. by intros x resp [= -> ->]%list_elem_of_singleton. }
      eapply (inv_update r _ [tr] l []); [done|done|done|done|by rewrite app_nil_r| |done|by apply Hks|by intros x ?%not_elem_of_nil|intros x; by left|intros x resp Hx Hn He; by destruct (G5 x resp Hx Hn)].
      intros x. by apply Hpl; auto. }
  injection E as <-. case_bool_decide as Ht.
  - subst t. case_match.
    + eapply (inv_update r _ [tr] [] []); [done|done|done|by rewrite app_nil_r|by rewrite app_nil_r| | |by apply Hks|by intros x ?%not_elem_of_nil|intros x; by left|by intros x resp ?%not_elem_of_nil].
      { intros x. by apply Hpl; auto. } intros x Hx. cbn. apply andb_true_iff in H as [Htr%bool_decide_eq_true _]. destruct (decide (x = tr)) as [->|]; [|done]. rewrite Hx in Htr. by destruct Htr.
    + clear H. assert (st_requestsChannel (unregister trace tr s) = st_requestsChannel s /\ st_reader (unregister trace tr s) = st_reader s) as [G1 G2] by (unfold unregister; by destruct (trace tr)).
      pose proof (keys_unregister tr s Hk) as G3. unfold config_forward. case_bool_decide.
      * eapply (inv_update r _ [] [] []); [done|done|by rewrite app_nil_r|by rewrite app_nil_r|by rewrite app_nil_r| |done|by apply Hks|by intros x ?%not_elem_of_nil| |by intros x resp ?%not_elem_of_nil].
        { intros x. specialize (Hpl x SIdle _ G1 G2 ltac:(auto)). unfold places in *. cbn in *. rewrite !occ_app in *. cbn. lia. }
        intros x [Hx|Hx]%elem_of_app; [by left|apply list_elem_of_singleton in Hx as ->; by right].
      * eapply (inv_update r _ [tr] [_] []); [done|done|done|done|by rewrite app_nil_r| |done|by apply Hks|by intros x ?%not_elem_of_nil|intros x; by left|by intros x resp [= -> ->]%list_elem_of_singleton].
        intros x. by apply Hpl; auto.
  - assert (forall x resp, trace x = None -> occ x (untraced_reply trace tr resp).*1 = occ x [tr]) as Hun.
    { intros x resp Hx. unfold untraced_reply. destruct (trace tr) eqn:Et; cbn; [|done]. destruct (decide (x = tr)); [congruence|done]. }
    destruct sendOk.
    + eapply (inv_update r _ [tr] _ [tr]); [done|done|done|done|done| |intros x Hx; by apply Hun|by apply Hks|intros x ->%list_elem_of_singleton; eauto|intros x; by left|].
      { intros x. by apply Hpl; auto. } intros x resp Hx _ _. left. unfold untraced_reply in Hx. destruct (trace tr); [by apply not_elem_of_nil in Hx|]. apply list_elem_of_singleton in Hx as [= -> _]. by left.
    + eapply (inv_update r _ [tr] _ []); [done|done|done|done|by rewrite app_nil_r| |intros x Hx; by apply Hun|by apply Hks|by intros x ?%not_elem_of_nil|intros x; by left|].
      { intros x. by apply Hpl; auto. } intros x resp Hx _ He. unfold untraced_reply in Hx. destruct (trace tr); [by apply not_elem_of_nil in Hx|]. by apply list_elem_of_singleton in Hx as [= _ ->].
Qed.

Lemma keeps_refl r r' : sh_submitted r' = sh_submitted r -> sh_forwards r' = sh_forwards r -> sh_configRequests r' = sh_configRequests r -> sh_sent r' = sh_sent r -> sh_replies r' = sh_replies r -> keeps r r' [].
Proof. intros. split; rewrite ?app_nil_r; done. Qed.

(** A step that only changes stream [i], keeping its requests and registrations. *)
Lemma inv_stream r i s s' : stream_inv r -> sh_streams r !! i = Some s -> (forall x, occ x (stream_holds s') = occ x (stream_holds s)) -> keys_ok (st_requestsByTraceID s') -> stream_inv (set_stream i s' r).
Proof. intros Hi Hs Hh Hk. eapply inv_move; [done|by apply keeps_refl|done|intros x; by eapply places_stream|apply keys_set_stream; [apply Hi|done]]. Qed.

(** A step of a Forward call that keeps its request. *)
Lemma inv_forward r l1 f f' l2 r1 : stream_inv r -> sh_forwards r = l1 ++ f :: l2 -> forward_holds f' = forward_holds f -> sh_forwards r1 = sh_forwards r -> keeps r r1 [] -> sh_handled r1 = sh_handled r ->
  (forall x, occ x (places r1) = occ x (places r)) -> all_keys r1 -> stream_inv (set_forwards (l1 ++ f' :: l2) r1).
Proof.
  intros Hi Ef Eh Ef1 [E1 _ E3 E4 E5] E6 Hp Hk. apply (inv_update r _ [] [] []); rewrite ?app_nil_r in *; try done.
  - intros x. pose proof (places_forwards x r1 l1 f [f'] l2 ltac:(congruence)) as E. cbn in E. rewrite Eh, app_nil_r in E. rewrite <-Hp. cbn. lia.
  - by intros x ?%not_elem_of_nil.
  - intros x. cbn. rewrite E3. by left.
  - by intros x resp ?%not_elem_of_nil.
Qed.

Lemma inv_check r l1 tr o l2 r' new : stream_inv r -> sh_forwards r = l1 ++ FwGot tr o :: l2 -> forward_got reqID tr o r = (r', new) -> stream_inv (set_forwards (l1 ++ new ++ l2) r').
Proof.
  intros Hi Ef E. unfold forward_got in E.
  assert (forall r0 resp, keeps r r0 [] -> sh_handled r0 = sh_handled r -> (forall x, occ x (places r0) = occ x (places r)) -> all_keys r0 -> rs_err resp <> None ->
    stream_inv (set_forwards (l1 ++ [] ++ l2) (handled tr (replied [(tr, resp)] r0)))) as Hrej.
  { intros r0 resp [E1 E2 E3 E4 E5] E6 Hp Hk He. apply (inv_update r _ [tr] [(tr, resp)] []); cbn [set_forwards handled replied sh_submitted sh_handled sh_replies sh_sent sh_configRequests]; rewrite ?app_nil_r in *; [done|done|congruence|congruence|congruence| |done|exact Hk|by intros x ?%not_elem_of_nil|intros x; rewrite E3; by left|].
    - intros x. pose proof (places_forwards x r0 l1 (FwGot tr o) [] l2 ltac:(congruence)) as Ep. cbn [forward_holds fmap list_fmap concat] in Ep. rewrite Hp in Ep. unfold places in *. cbn in *. lia.
    - by intros x resp' [= -> ->]%list_elem_of_singleton. }
  assert (forall resp, rs_err resp <> None -> stream_inv (set_forwards (l1 ++ [] ++ l2) (handled tr (replied [(tr, resp)] r)))) as Hrej0.
  { intros resp He. apply Hrej; [by apply keeps_refl|done|done|apply Hi|done]. }
  destruct o as [i|]; [|injection E as <- <-; by apply Hrej0]. destruct (sh_streams r !! i) as [s|] eqn:Hs; [|injection E as <- <-; by apply Hrej0].
  destruct (st_faulty s); injection E as <- <-.
  - destruct (notify_keeps i s r Hs) as (Hkp & Hp & Hh & Hkeys). apply Hrej; [done|done|done|by apply Hkeys, Hi|done].
  - apply (inv_forward r l1 (FwGot tr (Some i))); [done|done|done|done|by apply keeps_refl|done|done|apply Hi].
Qed.

Lemma inv_submit r tr : stream_inv r -> tr ∉ sh_submitted r -> stream_inv (RouterStream.submitted tr (set_forwards (sh_forwards r ++ [FwStart tr]) r)).
Proof.
  intros [Hp Ho Hu Hk Hsent Hc Hsu] Hn. split; try done; intros x; cbn [RouterStream.submitted sh_submitted sh_handled set_forwards]; rewrite occ_app.
  - rewrite <-Hp. unfold places. cbn. rewrite fmap_app, concat_app, !occ_app. cbn. lia.
  - specialize (Ho x). cbn. destruct (decide (x = tr)) as [->|]; [|lia]. destruct (occ tr (sh_submitted r)) eqn:E; [lia|]. destruct Hn. apply occ_elem. lia.
Qed.

Lemma fail_step_pcs i s f r r' f' : sh_streams r !! i = Some s -> fail_step trace reqID i s f r = Some (r', f') ->
  sh_softStop r' = sh_softStop r /\ exists s', sh_streams r' !! i = Some s' /\ st_sender s' = st_sender s /\ st_reader s' = st_reader s.
Proof.
  intros Hs E. assert (forall s' r1, sh_streams r1 = sh_streams r -> sh_streams (set_stream i s' r1) !! i = Some s') as Hset.
  { intros s' r1 E1. cbn. rewrite E1. apply list_lookup_insert_eq. by eapply lookup_lt_Some. }
  destruct f as [| |tr| | |]; cbn [fail_step] in E.
  - injection E as <- <-. split; [done|]. eexists. split; [by apply Hset|done].
  - destruct (st_requestsChannel s); injection E as <- <-; (split; [done|]); [by exists s|]. eexists. split; [by apply Hset|done].
  - injection E as <- <-. split; [done|]. eexists. split; [by apply (Hset _ r)|]. unfold unregister. by destruct (trace tr).
  - injection E as <- <-. split; [done|]. eexists. split; [by apply (Hset _ r)|done].
  - destruct (st_faulty s); [|done]. injection E as <- <-. unfold notify. destruct (st_notifiedReconnect s); (split; [done|]); [by exists s|]. eexists. split; [by apply (Hset _ r)|done].
  - done.
Qed.

Lemma stream_step_inv r l r' : stream_inv r -> step r l r' -> stream_inv r'.
Proof.
  intros Hi Hstep. pose proof (iv_registered _ Hi) as Hk.
  destruct Hstep as [r tr Hn|r l1 tr l2 Ef|r l1 tr o l2 r' new Ef E|r l1 tr i l2 s Ef Hs|r l1 tr i l2 s Ef Hs Hlt|r i s Hs Hp Hd|r i s tr rest Hs Hp Hc|r i s tr ok r' Hs Hp E|r i s f r' s' f' Hs Hp E Hs'
    |r i s Hs Hp Hd|r i s resp Hs Hp|r i s Hs Hp|r i s f r' s' f' Hs Hp E Hs'|r n Hst Hp Hn Hin|r n i s Hp Hn Hin Hs Hf|r n i s Hp Hn Hin Hs Hf|r i s moved tr rest Hp Hs Hc|r i s moved Hp Hs Hc|r i s moved Hp Hs|r i Hst Hp|r Hp|r Hst Hp|r i s f r' f' Hp Hnf Hin Hs E|r tr rest Hp].
  - by apply inv_submit.
  - apply (inv_forward r l1 (FwStart tr)); [done|done|done|done|by apply keeps_refl|done|done|done].
  - by eapply inv_check.
  - apply (inv_forward r l1 (FwChecked tr i)); [done|done|done|by destruct (trace tr)|destruct (trace tr); by apply keeps_refl|by destruct (trace tr)| |].
    + intros x. destruct (trace tr); [|done]. by eapply places_stream.
    + destruct (trace tr) eqn:Et; [|done]. apply keys_set_stream; [done|]. intros t x Hx. cbn in Hx. apply lookup_insert_Some in Hx as [[<- <-]|[_ Hx]]; [done|by eapply Hk].
  - apply (inv_update r _ [] [] []); cbn; rewrite ?app_nil_r; try done; [|by apply keys_set_stream; [|exact (Hk i s Hs)]|by intros x ?%not_elem_of_nil|by intros x; left|by intros x resp ?%not_elem_of_nil].
    intros x. pose proof (holds_set_stream x r i s (with_channel (st_requestsChannel s ++ [tr]) s) Hs) as Ep. pose proof (places_forwards x (set_stream i (with_channel (st_requestsChannel s ++ [tr]) s) r) l1 (FwRegistered tr i) [] l2 Ef) as Eq.
    unfold stream_holds in Ep. cbn in Ep, Eq |- *. rewrite !occ_app in Ep. cbn in Ep. lia.
  - eapply inv_stream; [done|done| |exact (Hk i s Hs)]. intros x. unfold stream_holds. cbn. by rewrite Hp.
  - eapply inv_stream; [done|done| |exact (Hk i s Hs)]. intros x. unfold stream_holds. cbn. rewrite Hp, Hc. cbn. rewrite !occ_app. cbn. lia.
  - by eapply inv_send.
  - eapply (inv_fail r i s f r' f'); [done|done|done|by apply keeps_refl|done| |].
    + intros x. assert (st_sender s' = SFailing f) as Hp'.
      { destruct (fail_step_pcs _ _ _ _ _ _ Hs E) as (_ & s0 & Hs0 & Esn & Ere). congruence. }
      pose proof (holds_set_stream x r' i s' (with_sender (match f' with FDone => SExited | _ => SFailing f' end) s') Hs') as Ep. unfold stream_holds in Ep. cbn in Ep. rewrite Hp' in Ep. rewrite !occ_app in Ep. destruct f'; cbn in *; lia.
    + intros Hk'. apply keys_set_stream; [done|exact (Hk' i s' Hs')].
  - eapply inv_stream; [done|done| |exact (Hk i s Hs)]. intros x. unfold stream_holds. cbn. by rewrite Hp.
  - unfold receive. destruct (st_requestsByTraceID s !! sr_TraceId resp) as [tr|] eqn:Em; [|done]. assert (trace tr = Some (sr_TraceId resp)) as Ht by exact (Hk i s Hs _ _ Em).
    apply (inv_update r _ [] [(tr, mkResponse None [] (Some resp))] []); cbn; rewrite ?app_nil_r; try done; [| |apply (keys_set_stream r); [done|apply keys_delete; exact (Hk i s Hs)]|by intros x ?%not_elem_of_nil|by intros x; left|].
    + intros x. pose proof (places_stream x r i s (with_registered (delete (sr_TraceId resp) (st_requestsByTraceID s)) s) Hs eq_refl) as Ep. unfold places in *. cbn in *. lia.
    + intros x Hx. cbn. destruct (decide (x = tr)); [congruence|done].
    + intros x resp' [= -> ->]%list_elem_of_singleton. congruence.
  - eapply inv_stream; [done|done| |exact (Hk i s Hs)]. intros x. unfold stream_holds. cbn. by rewrite Hp.
  - eapply (inv_fail r i s f r' f'); [done|done|done|by apply keeps_refl|done| |].
    + intros x. assert (st_reader s' = RFailing f) as Hp'.
      { destruct (fail_step_pcs _ _ _ _ _ _ Hs E) as (_ & s0 & Hs0 & Esn & Ere). congruence. }
      pose proof (holds_set_stream x r' i s' (with_reader (match f' with FDone => RExited | _ => RFailing f' end) s') Hs') as Ep. unfold stream_holds in Ep. cbn in Ep. rewrite Hp' in Ep. rewrite !occ_app in Ep. destruct f'; cbn in *; lia.
    + intros Hk'. apply keys_set_stream; [done|exact (Hk' i s' Hs')].
  - eapply inv_move; [done|by apply keeps_refl|done| |].
    + intros x. unfold places. cbn. rewrite Hp. rewrite !occ_app, occ_concat_snoc. cbn. lia.
    + intros j s Hj. cbn in Hj. apply lookup_app_Some in Hj as [Hj|[_ Hj]]; [by eapply Hk|]. apply list_lookup_singleton_Some in Hj as [_ <-]. intros t x Hx. cbn in Hx. by rewrite lookup_empty in Hx.
  - eapply inv_move; [done|by apply keeps_refl|done| |done]. intros x. unfold places. cbn. by rewrite Hp.
  - apply (inv_stream (set_reconnect n (CMove i []) r) i s); [|done|done|exact (Hk i s Hs)]. eapply inv_move; [exact Hi|by apply keeps_refl|done| |done]. intros x. unfold places. cbn. by rewrite Hp.
  - eapply inv_move; [done|by apply keeps_refl|done| |by apply (keys_set_stream (set_reconnect _ _ r)); [|exact (Hk i s Hs)]].
    intros x. pose proof (holds_set_stream x r i s (with_channel rest s) Hs) as Ep. unfold stream_holds in Ep. rewrite Hc in Ep. unfold places in *. cbn in Ep |- *. rewrite Hp in *. cbn [reconnect_holds] in *. rewrite !occ_app in *. cbn in *. lia.
  - eapply inv_move; [done|by apply keeps_refl|done| |done]. intros x. unfold places. cbn. by rewrite Hp.
  - eapply inv_move; [done|by apply keeps_refl|done| |].
    + intros x. unfold places. cbn. rewrite Hp. rewrite !occ_app, occ_concat_snoc. unfold stream_holds at 2. cbn. rewrite !occ_app. cbn. lia.
    + intros j s' Hj. cbn in Hj. apply lookup_app_Some in Hj as [Hj|[_ Hj]]; [by eapply Hk|]. apply list_lookup_singleton_Some in Hj as [_ <-]. exact (Hk i s Hs).
  - eapply inv_move; [done|by apply keeps_refl|done| |done]. intros x. unfold places. cbn. by rewrite Hp.
  - eapply inv_move; [done|by apply keeps_refl|done| |done]. intros x. unfold places. cbn. by rewrite Hp.
  - eapply inv_move; [done|by apply keeps_refl|done| |done]. intros x. unfold places. cbn. by rewrite Hp.
  - eapply (inv_fail r i s f r' f'); [done|done|done|by apply keeps_refl|done| |done]. intros x. assert (sh_softStop r' = Some f) as Hp'.
    { rewrite <-Hp. by destruct (fail_step_pcs _ _ _ _ _ _ Hs E) as [-> _]. }
    unfold places. cbn. rewrite Hp', !occ_app. lia.
  - apply (inv_update r _ [tr] [(tr, config_reply tr)] []); cbn; rewrite ?app_nil_r; try done; [|by intros x ?%not_elem_of_nil| |].
    + intros x. unfold places. cbn. rewrite Hp, !occ_app. cbn. lia.
    + intros x Hx. left. rewrite Hp. by right.
    + intros x resp [= -> ->]%list_elem_of_singleton _ _. right. apply (iv_config _ Hi). rewrite Hp. by left.
Qed.

(** *** Traced requests *)
Definition answers (x : nat) (r : shard_router) : nat := occ x (sh_replies r).*1 + occ x (registered r) + occ x (unregistered r) + occ x (sh_configRequests r).
(** A drained request is still registered, and a stream is renewed after its registrations were detached. *)
Definition orderly (r : shard_router) (l : label) : Prop :=
  match l with
  | LDrained i tr => trace tr = None \/ exists s, sh_streams r !! i = Some s /\ is_registered trace tr s = true
  | LCopied i => exists s, sh_streams r !! i = Some s /\ st_requestsByTraceID s = ∅
  | LOther => True
  end.
Hypothesis trace_inj : forall x y t, trace x = Some t -> trace y = Some t -> x = y.

Lemma registered_set_stream x r i s s' : sh_streams r !! i = Some s ->
  occ x (registered (set_stream i s' r)) + occ x (stream_registered s) = occ x (registered r) + occ x (stream_registered s').
Proof. apply occ_concat_insert. Qed.
Lemma registered_unregister x s tr : keys_ok (st_requestsByTraceID s) -> is_registered trace tr s = true ->
  occ x (stream_registered s) = occ x (stream_registered (unregister trace tr s)) + occ x [tr].
Proof.
  unfold is_registered, unregister, stream_registered. intros Hk Hr. destruct (trace tr) as [t|] eqn:Et; [|done]. apply bool_decide_eq_true in Hr as [y Hy].
  assert (y = tr) as -> by (eapply trace_inj; [by apply Hk|done]). by apply occ_delete.
Qed.
Lemma unregister_absent s tr : is_registered trace tr s = false -> stream_registered (unregister trace tr s) = stream_registered s.
Proof.
  unfold is_registered, unregister. destruct (trace tr) as [t|]; [|done]. intros Hn%bool_decide_eq_false. unfold stream_registered. cbn. rewrite delete_id; [done|].
  destruct (st_requestsByTraceID s !! t); [|done]. destruct Hn. by eexists.
Qed.

(** The parts of [answers] that a step of a stream changes: its registrations and the replies. *)
Lemma answers_stream x r i s s' l : sh_streams r !! i = Some s -> occ x (stream_registered s') + occ x l.*1 = occ x (stream_registered s) ->
  answers x (replied l (set_stream i s' r)) = answers x r.
Proof. intros Hs E. pose proof (registered_set_stream x r i s s' Hs). unfold answers, registered, unregistered in *. cbn in *. rewrite fmap_app, occ_app. lia. Qed.
Lemma answers_quiet x r i s s' : sh_streams r !! i = Some s -> stream_registered s' = stream_registered s -> answers x (set_stream i s' r) = answers x r.
Proof. intros Hs E. pose proof (registered_set_stream x r i s s' Hs) as Er. rewrite E in Er. unfold answers, registered, unregistered in *. cbn in *. lia. Qed.

Lemma answers_notify x i s r : sh_streams r !! i = Some s -> answers x (notify i s r) = answers x r.
Proof.
  intros Hs. unfold notify. destruct (st_notifiedReconnect s); [done|]. change (answers x (set_reconnect _ _ ?q)) with (answers x q). by eapply answers_quiet.
Qed.

Lemma answers_fail x i s f r r' f' : sh_streams r !! i = Some s -> all_keys r -> orderly r (fail_label i f) -> trace x <> None -> fail_step trace reqID i s f r = Some (r', f') ->
  answers x r' = answers x r.
Proof.
  intros Hs Hk Ho Hx E. destruct f as [| |tr| | |]; cbn [fail_step] in E.
  - injection E as <- <-. by eapply answers_quiet.
  - destruct (st_requestsChannel s); injection E as <- <-; [done|]. by eapply answers_quiet.
  - injection E as <- <-. change (answers x (handled tr ?q)) with (answers x q). eapply answers_stream; [done|]. cbn [fmap list_fmap server_error fst].
    destruct Ho as [Hn|(s0 & Hs0 & Hr)].
    + unfold unregister. rewrite Hn. cbn. destruct (decide (x = tr)); [congruence|lia].
    + assert (s0 = s) as -> by congruence. rewrite (registered_unregister x s tr); [done|exact (Hk i s Hs)|done].
  - injection E as <- <-. eapply answers_stream; [done|]. rewrite <-list_fmap_compose, (list_fmap_ext _ id) by done. rewrite list_fmap_id. unfold stream_registered at 1. cbn. rewrite map_to_list_empty. done.
  - destruct (st_faulty s); [|done]. injection E as <- <-. by apply answers_notify.
  - done.
Qed.

Lemma answers_send x r i s tr sendOk r' : sh_streams r !! i = Some s -> all_keys r -> trace x <> None -> send_step request trace reqID verify i s tr sendOk r = Some r' -> answers x r' = answers x r.
Proof.
  intros Hs Hk Hx E. pose proof (Hk i s Hs) as Hks. unfold send_step in E. destruct (verify (request tr)) as [t|e|]; [| |done].
  2:{ destruct (reply_error trace tr e s) as [s1 l] eqn:Er. injection E as <-. change (answers x (handled tr ?q)) with (answers x q). eapply answers_stream; [done|].
      change (stream_registered (with_sender SIdle s1)) with (stream_registered s1). unfold reply_error in Er. destruct (trace tr) as [t|] eqn:Et.
      - destruct (st_requestsByTraceID s !! t) as [y|] eqn:Ey; injection Er as <- <-; [|cbn; lia]. unfold stream_registered. cbn. rewrite (occ_delete x _ _ _ Ey). cbn. lia.
      - injection Er as <- <-. cbn. destruct (decide (x = tr)); [congruence|lia]. }
  injection E as <-. case_bool_decide.
  - case_match eqn:Ereg; [change (answers x (handled tr ?q)) with (answers x q); by eapply answers_quiet|].
    assert (occ x (stream_registered (unregister trace tr s)) + occ x [tr] = occ x (stream_registered s)) as Hun.
    { destruct (trace tr) as [tt0|] eqn:Et.
      - cbn in Ereg. apply negb_false_iff in Ereg. rewrite (registered_unregister x s tr Hks Ereg). done.
      - unfold unregister. rewrite Et. cbn. destruct (decide (x = tr)); [congruence|lia]. }
    pose proof (registered_set_stream x r i s (with_sender SIdle (unregister trace tr s)) Hs) as Eq. change (stream_registered (with_sender SIdle ?q)) with (stream_registered q) in Eq.
    unfold config_forward. match goal with |- context [if ?b then _ else _] => destruct b end; unfold answers, registered, unregistered in *; cbn in *; rewrite ?fmap_app, ?occ_app; cbn; lia.
  - assert (forall resp, occ x (untraced_reply trace tr resp).*1 = 0) as Hun.
    { intros resp. unfold untraced_reply. destruct (trace tr) eqn:Et; [done|]. cbn. destruct (decide (x = tr)); [congruence|done]. }
    destruct sendOk; change (answers x (handled tr ?q)) with (answers x q); [change (set_sent ?l (set_stream i ?y r)) with (set_stream i y (set_sent l r))|];
      (erewrite answers_stream; [| |rewrite Hun, Nat.add_0_r]; [done|exact Hs|done]).
Qed.

Lemma answers_forwards x r l1 f f' l2 : sh_forwards r = l1 ++ f :: l2 ->
  answers x (set_forwards (l1 ++ f' ++ l2) r) + occ x (forward_unregistered f) = answers x r + occ x (concat (forward_unregistered <$> f')).
Proof. intros E. unfold answers, registered, unregistered. cbn. rewrite E, !fmap_app, !concat_app, !occ_app. cbn. rewrite !occ_app. lia. Qed.

(** A request whose Forward call has not registered it has no reply and no registration. *)
Lemma unregistered_fresh x r : stream_inv r -> answers x r = occ x (sh_submitted r) -> x ∈ unregistered r -> occ x (registered r) = 0.
Proof. intros Hi Ha Hu%occ_elem. pose proof (iv_once _ Hi x). unfold answers in Ha. lia. Qed.

Lemma occ_registered_at x r i s : sh_streams r !! i = Some s -> occ x (stream_registered s) <= occ x (registered r).
Proof. intros Hs. unfold registered. rewrite <-(take_drop_middle _ i s Hs), fmap_app, concat_app, occ_app. cbn. rewrite occ_app. lia. Qed.

Lemma answers_register x r l1 tr i l2 s : stream_inv r -> (forall y, trace y <> None -> answers y r = occ y (sh_submitted r)) -> trace x <> None -> sh_forwards r = l1 ++ FwChecked tr i :: l2 -> sh_streams r !! i = Some s ->
  answers x (set_forwards (l1 ++ FwRegistered tr i :: l2) (match trace tr with Some t => set_stream i (with_registered (<[t := tr]> (st_requestsByTraceID s)) s) r | None => r end)) = answers x r.
Proof.
  intros Hi Ha Hx Ef Hs. destruct (trace tr) as [t|] eqn:Et.
  - pose proof (answers_forwards x (set_stream i (with_registered (<[t := tr]> (st_requestsByTraceID s)) s) r) l1 (FwChecked tr i) [FwRegistered tr i] l2 Ef) as E. cbn [forward_unregistered fmap list_fmap concat app occ] in E.
    assert (st_requestsByTraceID s !! t = None) as Hn.
    { destruct (st_requestsByTraceID s !! t) as [y|] eqn:Ey; [|done]. assert (y = tr) as -> by (eapply trace_inj; [exact (iv_registered _ Hi i s Hs t y Ey)|done]).
      assert (occ tr (registered r) = 0) as Hz. { apply unregistered_fresh; [done|apply Ha; congruence|]. unfold unregistered. rewrite Ef, fmap_app, concat_app. apply elem_of_app. right. by left. }
      pose proof (occ_registered_at tr r i s Hs). unfold stream_registered in *. rewrite (occ_delete tr _ _ _ Ey) in *. cbn in *. destruct (decide (tr = tr)); [lia|done]. }
    pose proof (registered_set_stream x r i s (with_registered (<[t := tr]> (st_requestsByTraceID s)) s) Hs) as Er. unfold stream_registered in Er. cbn [with_registered st_requestsByTraceID] in Er. rewrite (occ_insert x _ _ _ Hn) in Er.
    unfold answers, registered, unregistered in *. cbn in *. lia.
  - pose proof (answers_forwards x r l1 (FwChecked tr i) [FwRegistered tr i] l2 Ef) as E. cbn in E. destruct (decide (x = tr)); [congruence|]. cbn. lia.
Qed.

Lemma answers_step x r l r' : stream_inv r -> (forall y, trace y <> None -> answers y r = occ y (sh_submitted r)) -> trace x <> None -> orderly r l -> step r l r' -> answers x r' = occ x (sh_submitted r').
Proof.
  intros Hi Ha Hx Ho Hstep. pose proof (iv_registered _ Hi) as Hk.
  assert (forall q, sh_submitted q = sh_submitted r -> answers x q = answers x r -> answers x q = occ x (sh_submitted q)) as Hq by (intros q -> ->; by apply Ha).
  destruct Hstep as [r tr Hn|r l1 tr l2 Ef|r l1 tr o l2 r' new Ef E|r l1 tr i l2 s Ef Hs|r l1 tr i l2 s Ef Hs Hlt|r i s Hs Hp Hd|r i s tr rest Hs Hp Hc|r i s tr ok r' Hs Hp E|r i s f r' s' f' Hs Hp E Hs'
    |r i s Hs Hp Hd|r i s resp Hs Hp|r i s Hs Hp|r i s f r' s' f' Hs Hp E Hs'|r n Hst Hp Hn Hin|r n i s Hp Hn Hin Hs Hf|r n i s Hp Hn Hin Hs Hf|r i s moved tr rest Hp Hs Hc|r i s moved Hp Hs Hc|r i s moved Hp Hs|r i Hst Hp|r Hp|r Hst Hp|r i s f r' f' Hp Hnf Hin Hs E|r tr rest Hp].
  - cbn [RouterStream.submitted sh_submitted set_forwards]. rewrite occ_app, <-(Ha x Hx). unfold answers, registered, unregistered. cbn. rewrite fmap_app, concat_app, occ_app. cbn. lia.
  - apply Hq; [done|]. pose proof (answers_forwards x r l1 (FwStart tr) [FwGot tr (sh_installed r)] l2 Ef) as E. cbn in E. cbn. lia.
  - assert (sh_submitted r' = sh_submitted r /\ answers x r' + occ x (concat (forward_unregistered <$> new)) = answers x r + occ x [tr] /\ sh_forwards r' = sh_forwards r) as (E1 & E2 & E3).
    { unfold forward_got in E. assert (forall q resp, answers x (handled tr (replied [(tr, resp)] q)) = answers x q + occ x [tr]) as Hrep by (intros q resp; unfold answers, registered, unregistered; cbn; rewrite fmap_app, occ_app; cbn; lia).
      destruct o as [i|]; [|injection E as <- <-; rewrite Hrep; cbn; repeat split; lia]. destruct (sh_streams r !! i) as [s|] eqn:Hs; [|injection E as <- <-; rewrite Hrep; cbn; repeat split; lia].
      destruct (st_faulty s); injection E as <- <-; [|cbn; repeat split; lia]. destruct (notify_keeps i s r Hs) as ([K1 K2 _ _ _] & _). rewrite Hrep, answers_notify by done. cbn in *. repeat split; [done|lia|done]. }
    apply Hq; [done|]. pose proof (answers_forwards x r' l1 (FwGot tr o) new l2 ltac:(congruence)) as Ef'. cbn [forward_unregistered] in Ef'. lia.
  - apply Hq; [by destruct (trace tr)|]. by apply answers_register.
  - apply Hq; [done|]. pose proof (answers_forwards x (set_stream i (with_channel (st_requestsChannel s ++ [tr]) s) r) l1 (FwRegistered tr i) [] l2 Ef) as E. cbn in E. rewrite !Nat.add_0_r in E. cbn. rewrite E. by eapply answers_quiet.
  - apply Hq; [done|]. by eapply answers_quiet.
  - apply Hq; [done|]. by eapply answers_quiet.
  - apply Hq; [|by eapply answers_send]. unfold send_step in E. destruct (verify (request tr)); [|destruct (reply_error _ _ _ _); by injection E as <-|done]. injection E as <-. case_match; [|by destruct ok]. case_match; [done|]. unfold config_forward. by case_match.
  - destruct (fail_step_keeps _ _ _ _ _ _ Hs Hk E) as (l & out & [K1 _ _ _ _] & _). apply Hq; [done|]. rewrite <-(answers_fail x i s f r r' f' Hs Hk Ho Hx E). by eapply answers_quiet.
  - apply Hq; [done|]. by eapply answers_quiet.
  - unfold receive in *. destruct (st_requestsByTraceID s !! sr_TraceId resp) as [tr|] eqn:Em; [|by apply Hq]. apply Hq; [done|]. eapply answers_stream; [done|]. unfold stream_registered. cbn. rewrite (occ_delete x _ _ _ Em). cbn. lia.
  - apply Hq; [done|]. by eapply answers_quiet.
  - destruct (fail_step_keeps _ _ _ _ _ _ Hs Hk E) as (l & out & [K1 _ _ _ _] & _). apply Hq; [done|]. rewrite <-(answers_fail x i s f r r' f' Hs Hk Ho Hx E). by eapply answers_quiet.
  - apply Hq; [done|]. unfold answers, registered, unregistered. cbn. rewrite occ_concat_snoc. unfold stream_registered at 2. cbn. rewrite map_to_list_empty. cbn. lia.
  - by apply Hq.
  - apply Hq; [done|]. apply (answers_quiet x (set_reconnect n (CMove i []) r) i s); done.
  - apply Hq; [done|]. apply (answers_quiet x (set_reconnect _ (CMove i (moved ++ [tr])) r) i s); done.
  - by apply Hq.
  - apply Hq; [done|]. destruct Ho as (s0 & Hs0 & Hm). assert (s0 = s) as -> by congruence. unfold answers, registered, unregistered. cbn. rewrite occ_concat_snoc, Hm. unfold stream_registered at 2. cbn. rewrite map_to_list_empty. cbn. lia.
  - by apply Hq.
  - by apply Hq.
  - by apply Hq.
  - destruct (fail_step_keeps _ _ _ _ _ _ Hs Hk E) as (l & out & [K1 _ _ _ _] & _). apply Hq; [done|]. rewrite <-(answers_fail x i s f r r' f' Hs Hk Ho Hx E). done.
  - apply Hq; [done|]. unfold answers, registered, unregistered. cbn. rewrite Hp, fmap_app, occ_app. cbn. lia.
Qed.

Lemma stream_inv_empty : stream_inv empty_router.
Proof. split; try done; [intros x; cbn; lia|by intros x ?%not_elem_of_nil|by intros x ?%not_elem_of_nil|by intros x resp ?%not_elem_of_nil]. Qed.
Lemma reach_inv safe r : reach safe r -> stream_inv r.
Proof. induction 1 as [|r l r' _ IH _ Hs]; [apply stream_inv_empty|by eapply stream_step_inv]. Qed.
Lemma reach_answers r : reach orderly r -> forall x, trace x <> None -> answers x r = occ x (sh_submitted r).
Proof. induction 1 as [|r l r' Hr IH Ho Hs]; intros x Hx; [done|]. eapply answers_step; [by eapply reach_inv|exact IH|done|exact Ho|done]. Qed.
End Accounting.

Section Claims.
Context (request : tracked -> Request) (trace : tracked -> option bytes) (reqID : tracked -> bytes).
Context (verify : Request -> outcome Z) (config_reply : tracked -> Response).

(** Requests without a trace, those of Broadcast, are replied to exactly once, under every interleaving of the goroutines of the router, with failures of streams, renewals and SoftStop
    at any point. While a request is in a queue or in the hands of a goroutine it has no reply, when it is not any more it has exactly one, and it never has two places. A reply without an error means
    that the request was sent to the batcher, or was answered by the consenter; and only requests that the verifier accepts are sent: config updates to the consenter, all others to the batcher. *)
Theorem untraced_replied_once r : reach request trace reqID verify config_reply any r ->
  (forall x, trace x = None -> x ∈ sh_submitted r ->
     occ x (places r) + occ x (sh_replies r).*1 = 1 /\
     (forall resp, (x, resp) ∈ sh_replies r -> rs_err resp = None -> x ∈ sh_sent r \/ verify (request x) = Ok HeaderType_CONFIG_UPDATE)) /\
  (forall x, x ∈ sh_sent r -> exists t, verify (request x) = Ok t /\ t <> HeaderType_CONFIG_UPDATE) /\
  (forall x, x ∈ sh_configRequests r -> verify (request x) = Ok HeaderType_CONFIG_UPDATE).
Proof.
  intros Hr. destruct (reach_inv _ _ _ _ _ _ _ Hr) as [Hp Ho Hu _ Hs Hc Hsu]. split; [|done]. intros x Hx Hin%occ_elem. specialize (Hp x). specialize (Ho x). rewrite <-(Hu x Hx) in Hp. split; [lia|].
  intros resp Hresp He. by eapply Hsu.
Qed.

(** A traced request, of Submit and SubmitStream, is replied to at most once if failures are handled in order. In every run in which a request that is drained from the queue of a failed stream is
    still registered, and a stream is renewed only after its registrations were detached, a request that was submitted is at any time in exactly one of these states: not registered yet, registered, with the config submitter, or replied to, once. *)
Theorem traced_replied_once r x : (forall x y t, trace x = Some t -> trace y = Some t -> x = y) -> reach request trace reqID verify config_reply (orderly trace) r -> trace x <> None -> x ∈ sh_submitted r ->
  occ x (sh_replies r).*1 + occ x (registered r) + occ x (unregistered r) + occ x (sh_configRequests r) = 1.
Proof.
  intros Hinj Hr Hx Hin%occ_elem. pose proof (reach_answers _ _ _ _ _ Hinj r Hr x Hx) as Ha. pose proof (iv_once _ _ _ _ (reach_inv _ _ _ _ _ _ _ Hr) x). unfold answers in Ha. lia.
Qed.

(** *** Streams that were left *)
(** Request [x] is in the queue of stream [i], whose goroutines have exited and which is not installed any more. *)
Definition left_stream (i x : nat) (s : stream) : Prop := st_sender s = SExited /\ st_reader s = RExited /\ x ∈ st_requestsChannel s.
Definition stuck (i x : nat) (r : shard_router) : Prop :=
  (exists s, sh_streams r !! i = Some s /\ left_stream i x s) /\ sh_installed r <> Some i /\ match sh_reconnect r with CMove j _ | CCopy j _ | CInstall j => j <> i | _ => True end.
Notation step := (stream_step request trace reqID verify config_reply).

Lemma stuck_stream i x r j s s' : stuck i x r -> sh_streams r !! j = Some s -> (left_stream i x s -> left_stream i x s') -> stuck i x (set_stream j s' r).
Proof.
  intros ((s0 & Hs0 & Hl) & Hin & Hre) Hs Himp. split; [|done]. cbn. destruct (decide (j = i)) as [->|Hne].
  - exists s'. rewrite list_lookup_insert_eq by by eapply lookup_lt_Some. split; [done|]. apply Himp. congruence.
  - exists s0. by rewrite list_lookup_insert_ne.
Qed.
Lemma stuck_same i x r r' : stuck i x r -> sh_streams r' = sh_streams r -> sh_installed r' = sh_installed r -> sh_reconnect r' = sh_reconnect r -> stuck i x r'.
Proof. unfold stuck. by intros Hs -> -> ->. Qed.
Lemma stuck_app i x r s' inst rec : stuck i x r -> inst <> Some i -> match rec with CMove j _ | CCopy j _ | CInstall j => j <> i | _ => True end ->
  forall r', sh_streams r' = sh_streams r ++ [s'] -> sh_installed r' = inst -> sh_reconnect r' = rec -> stuck i x r'.
Proof. intros ((s0 & Hs0 & Hl) & _ & _) Hi Hre r' E1 E2 E3. split; [|by rewrite E2, E3]. exists s0. rewrite E1. split; [by apply lookup_app_l_Some|done]. Qed.

Lemma stuck_notify i x j s r : stuck i x r -> sh_streams r !! j = Some s -> stuck i x (notify j s r).
Proof. intros Hst Hs. unfold notify. destruct (st_notifiedReconnect s); [done|]. eapply stuck_same; [eapply (stuck_stream i x r j s (with_notified s)); done|done..]. Qed.

Lemma stuck_fail i x j s f r r' f' : stuck i x r -> sh_streams r !! j = Some s -> (j = i -> False) -> fail_step trace reqID j s f r = Some (r', f') -> stuck i x r'.
Proof.
  intros Hst Hs Hj E. assert (forall s', stuck i x (set_stream j s' r)) as Hset.
  { intros s'. pose proof Hst as ((s0 & Hs0 & Hl) & Hin & Hre). split; [|done]. exists s0. cbn. by rewrite list_lookup_insert_ne. }
  destruct f as [| |tr| | |]; cbn [fail_step] in E.
  - injection E as <- <-. apply Hset.
  - destruct (st_requestsChannel s); injection E as <- <-; [done|apply Hset].
  - injection E as <- <-. eapply stuck_same; [apply (Hset (unregister trace tr s))|done..].
  - injection E as <- <-. eapply stuck_same; [apply (Hset (with_registered ∅ s))|done..].
  - destruct (st_faulty s); [|done]. injection E as <- <-. by apply stuck_notify.
  - done.
Qed.

Lemma stuck_step i x r l r' : stuck i x r -> step r l r' -> stuck i x r'.
Proof.
  intros Hst Hstep. pose proof Hst as ((s0 & Hs0 & Hsn & Hrd & Hx) & Hin0 & Hre0).
  destruct Hstep as [r tr Hn|r l1 tr l2 Ef|r l1 tr o l2 r' new Ef E|r l1 tr j l2 s Ef Hs|r l1 tr j l2 s Ef Hs Hlt|r j s Hs Hp Hd|r j s tr rest Hs Hp Hc|r j s tr ok r' Hs Hp E|r j s f r' s' f' Hs Hp E Hs'
    |r j s Hs Hp Hd|r j s resp Hs Hp|r j s Hs Hp|r j s f r' s' f' Hs Hp E Hs'|r n Hst' Hp Hn Hin|r n j s Hp Hn Hin Hs Hf|r n j s Hp Hn Hin Hs Hf|r j s moved tr rest Hp Hs Hc|r j s moved Hp Hs Hc|r j s moved Hp Hs|r j Hst' Hp|r Hp|r Hst' Hp|r j s f r' f' Hp Hnf Hin Hs E|r tr rest Hp];
    try (assert (j <> i) as Hji by (intros ->; congruence)).
  - by eapply stuck_same.
  - by eapply stuck_same.
  - assert (stuck i x r') as Hst'; [|by eapply stuck_same]. unfold forward_got in E. destruct o as [j|]; [|injection E as <- <-; by eapply stuck_same]. destruct (sh_streams r !! j) as [s|] eqn:Hs; [|injection E as <- <-; by eapply stuck_same].
    destruct (st_faulty s); injection E as <- <-; [|done]. eapply stuck_same; [by apply (stuck_notify i x j s r)|done..].
  - eapply (stuck_same _ _ (match trace tr with Some t => set_stream j (with_registered (<[t := tr]> (st_requestsByTraceID s)) s) r | None => r end)); [|done..]. destruct (trace tr); [|done]. by eapply stuck_stream.
  - eapply (stuck_same _ _ (set_stream j (with_channel (st_requestsChannel s ++ [tr]) s) r)); [|done..]. eapply stuck_stream; [done|done|]. intros (? & ? & ?). repeat (split; [done|]). apply elem_of_app. by left.
  - eapply stuck_stream; [done|done|]. intros (? & _). congruence.
  - eapply stuck_stream; [done|done|]. intros (? & _). congruence.
  - assert (forall s', stuck i x (set_stream j s' r)) as Hset by (intros s'; eapply stuck_stream; [done|done|intros (? & _); congruence]).
    unfold send_step in E. destruct (verify (request tr)); [| |done].
    2:{ destruct (reply_error trace tr e s) as [s1 l]. injection E as <-. eapply stuck_same; [apply (Hset (with_sender SIdle s1))|done..]. }
    injection E as <-. destruct (bool_decide (_ = HeaderType_CONFIG_UPDATE)); [destruct (bool_decide (is_Some (trace tr)) && _)|destruct ok].
    + eapply stuck_same; [apply (Hset (with_sender SIdle s))|done..].
    + unfold config_forward. destruct (bool_decide (_ < config_capacity)); (eapply stuck_same; [apply (Hset (with_sender SIdle (unregister trace tr s)))|done..]).
    + eapply stuck_same; [apply (Hset (with_sender SIdle s))|done..].
    + eapply stuck_same; [apply (Hset (with_sender (SFailing FCancel) s))|done..].
  - eapply stuck_stream; [by eapply (stuck_fail i x j s f r)|done|]. intros (Hbad & _). destruct (fail_step_pcs trace reqID j s f r r' f' Hs E) as (_ & s1 & Hs1 & E1 & _). congruence.
  - eapply stuck_stream; [done|done|]. intros (_ & ? & _). congruence.
  - unfold receive. destruct (st_requestsByTraceID s !! sr_TraceId resp); [|done]. eapply (stuck_same _ _ (set_stream j (with_registered (delete (sr_TraceId resp) (st_requestsByTraceID s)) s) r)); [|done..]. by eapply stuck_stream.
  - eapply stuck_stream; [done|done|]. intros (_ & ? & _). congruence.
  - eapply stuck_stream; [by eapply (stuck_fail i x j s f r)|done|]. intros (_ & Hbad & _). destruct (fail_step_pcs trace reqID j s f r r' f' Hs E) as (_ & s1 & Hs1 & _ & E1). congruence.
  - apply (stuck_app i x r (new_stream [] ∅) (Some (length (sh_streams r))) CIdle); [done| |done|done|done|done]. intros [= E]. apply lookup_lt_Some in Hs0. lia.
  - split; [apply Hst|]. done.
  - split; [|by cbn]. cbn. exists s0. by rewrite list_lookup_insert_ne.
  - split; [|split; [done|]; cbn; rewrite Hp in Hre0; done]. cbn. rewrite Hp in Hre0. exists s0. by rewrite list_lookup_insert_ne.
  - split; [apply Hst|]. split; [done|]. cbn. by rewrite Hp in Hre0.
  - apply (stuck_app i x r (new_stream moved (st_requestsByTraceID s)) (sh_installed r) (CInstall (length (sh_streams r)))); [done|done| |done|done|done]. apply lookup_lt_Some in Hs0. lia.
  - split; [apply Hst|]. rewrite Hp in Hre0. cbn. split; [congruence|done].
  - by eapply stuck_same.
  - split; [apply Hst|]. done.
  - eapply (stuck_same _ _ r'); [|done..]. eapply (stuck_fail i x j s f r); [done|done|congruence|done].
  - by eapply stuck_same.
Qed.

(** A Forward call that read a stream before it was renewed can put its request in the queue of the old stream, after its requests were moved: then the request is never sent and, if it
    is untraced, never replied to, whatever happens later. *)
Theorem stale_forward_stuck r r' i x : reach request trace reqID verify config_reply any r -> trace x = None -> stuck i x r -> rtc (fun r r' => exists l, step r l r') r r' ->
  reach request trace reqID verify config_reply any r' /\ stuck i x r' /\ x ∉ (sh_replies r').*1.
Proof.
  intros Hr Hx Hst Hrun. induction Hrun as [r|r r1 r2 [l Hs] _ IH].
  - split; [done|]. split; [done|]. pose proof (reach_inv _ _ _ _ _ _ _ Hr) as [Hp Ho Hu _ _ _ _]. specialize (Hp x). specialize (Ho x). rewrite <-(Hu x Hx) in Hp.
    destruct Hst as ((s & Hs & _ & _ & Hin) & _). rewrite occ_elem. enough (0 < occ x (places r)) by lia. apply occ_elem. unfold places. apply elem_of_app. right. apply elem_of_app. left.
    apply elem_of_concat. exists (stream_holds s). split; [apply elem_of_app; by left|]. apply list_elem_of_fmap. exists s. split; [done|]. by eapply list_elem_of_lookup_2.
  - apply IH; [by eapply reach_step|by eapply stuck_step].
Qed.
End Claims.

(** * Runs of a shard router

    The steps as a function of an event, concrete runs with it, and the interleavings in which a request is replied to twice or never. *)

Inductive event :=
  ESubmit (tr : nat) | ERead (k : nat) | ECheck (k : nat) | ERegister (k : nat) | EEnqueue (k : nat) | ESenderExit (i : nat) | ETake (i : nat) | ESend (i : nat) (ok : bool) | ESenderFail (i : nat)
| EReaderExit (i : nat) | EReceive (i : nat) (resp : SubmitResponse) | EReceiveFails (i : nat) | EReaderFail (i : nat) | EReconnect | EMove | ECopy | EInstall | EStop | EStopDrain | EConfig.

Section Exec.
Context (request : nat -> Request) (trace : nat -> option bytes) (reqID : nat -> bytes).
Context (verify : Request -> outcome Z) (config_reply : nat -> Response).

(** The [k]-th Forward call goes on. *)
Definition forward_at (r : shard_router) (k : nat) (new : list forward_pc) (r' : shard_router) : shard_router :=
  set_forwards (take k (sh_forwards r) ++ new ++ drop (S k) (sh_forwards r)) r'.
Definition exec (r : shard_router) (e : event) : option (label * shard_router) :=
  match e with
  | ESubmit tr => if bool_decide (tr ∈ sh_submitted r) then None else Some (LOther, submitted tr (set_forwards (sh_forwards r ++ [FwStart tr]) r))
  | ERead k => match sh_forwards r !! k with Some (FwStart tr) => Some (LOther, forward_at r k [FwGot tr (sh_installed r)] r) | _ => None end
  | ECheck k => match sh_forwards r !! k with Some (FwGot tr o) => let '(r', new) := forward_got reqID tr o r in Some (LOther, forward_at r k new r') | _ => None end
  | ERegister k =>
      match sh_forwards r !! k with
      | Some (FwChecked tr i) => s ← sh_streams r !! i;
          Some (LOther, forward_at r k [FwRegistered tr i] (match trace tr with Some t => set_stream i (with_registered (<[t := tr]> (st_requestsByTraceID s)) s) r | None => r end))
      | _ => None
      end
  | EEnqueue k =>
      match sh_forwards r !! k with
      | Some (FwRegistered tr i) => s ← sh_streams r !! i;
          if bool_decide (length (st_requestsChannel s) < channel_capacity) then Some (LOther, forward_at r k [] (set_stream i (with_channel (st_requestsChannel s ++ [tr]) s) r)) else None
      | _ => None
      end
  | ESenderExit i => s ← sh_streams r !! i; match st_sender s, st_done s with SIdle, true => Some (LOther, set_stream i (with_sender SExited s) r) | _, _ => None end
  | ETake i => s ← sh_streams r !! i; match st_sender s, st_requestsChannel s with SIdle, tr :: rest => Some (LOther, set_stream i (with_sender (SHolding tr) (with_channel rest s)) r) | _, _ => None end
  | ESend i ok => s ← sh_streams r !! i; match st_sender s with SHolding tr => r' ← send_step request trace reqID verify i s tr ok r; Some (LOther, r') | _ => None end
  | ESenderFail i => s ← sh_streams r !! i;
      match st_sender s with
      | SFailing f => '(r', f') ← fail_step trace reqID i s f r; s' ← sh_streams r' !! i; Some (fail_label i f, set_stream i (with_sender (match f' with FDone => SExited | _ => SFailing f' end) s') r')
      | _ => None
      end
  | EReaderExit i => s ← sh_streams r !! i; match st_reader s, st_done s with RIdle, true => Some (LOther, set_stream i (with_reader RExited s) r) | _, _ => None end
  | EReceive i resp => s ← sh_streams r !! i; match st_reader s with RIdle => Some (LOther, receive i s resp r) | _ => None end
  | EReceiveFails i => s ← sh_streams r !! i; match st_reader s with RIdle => Some (LOther, set_stream i (with_reader (RFailing FCancel) s) r) | _ => None end
  | EReaderFail i => s ← sh_streams r !! i;
      match st_reader s with
      | RFailing f => '(r', f') ← fail_step trace reqID i s f r; s' ← sh_streams r' !! i; Some (fail_label i f, set_stream i (with_reader (match f' with FDone => RExited | _ => RFailing f' end) s') r')
      | _ => None
      end
  | EReconnect =>
      match sh_reconnect r, sh_reconnects r with
      | CIdle, S n =>
          match sh_installed r with
          | None => match sh_softStop r with None => Some (LOther, set_installed (Some (length (sh_streams r))) (set_streams (sh_streams r ++ [new_stream [] ∅]) (set_reconnect n CIdle r))) | _ => None end
          | Some i => s ← sh_streams r !! i; if st_faulty s then Some (LOther, set_stream i (closed s) (set_reconnect n (CMove i []) r)) else Some (LOther, set_reconnect n CIdle r)
          end
      | _, _ => None
      end
  | EMove =>
      match sh_reconnect r with
      | CMove i moved => s ← sh_streams r !! i;
          match st_requestsChannel s with
          | tr :: rest => Some (LOther, set_stream i (with_channel rest s) (set_reconnect (sh_reconnects r) (CMove i (moved ++ [tr])) r))
          | [] => Some (LOther, set_reconnect (sh_reconnects r) (CCopy i moved) r)
          end
      | _ => None
      end
  | ECopy => match sh_reconnect r with CCopy i moved => s ← sh_streams r !! i; Some (LCopied i, set_streams (sh_streams r ++ [new_stream moved (st_requestsByTraceID s)]) (set_reconnect (sh_reconnects r) (CInstall (length (sh_streams r))) r)) | _ => None end
  | EInstall => match sh_reconnect r, sh_softStop r with CInstall i, None => Some (LOther, set_installed (Some i) (set_reconnect (sh_reconnects r) CIdle r)) | _, _ => None end
  | EStop => match sh_softStop r with None => Some (LOther, set_softStop (Some FDrain) r) | _ => None end
  | EStopDrain =>
      match sh_softStop r, sh_installed r with
      | Some FNotify, _ => None
      | Some f, Some i => s ← sh_streams r !! i; '(r', f') ← fail_step trace reqID i s f r; Some (fail_label i f, set_softStop (Some f') r')
      | _, _ => None
      end
  | EConfig => match sh_configRequests r with tr :: rest => Some (LOther, handled tr (replied [(tr, config_reply tr)] (set_config rest r))) | [] => None end
  end.
Fixpoint exec_all (r : shard_router) (es : list event) : option shard_router := match es with [] => Some r | e :: es => '(_, r') ← exec r e; exec_all r' es end.

Lemma at_split {A} (l : list A) k a : l !! k = Some a -> l = take k l ++ a :: drop (S k) l.
Proof. intros. symmetry. by apply take_drop_middle. Qed.

Lemma exec_sound r e l r' : exec r e = Some (l, r') -> stream_step request trace reqID verify config_reply r l r'.
Proof.
  destruct e as [tr|k|k|k|k|i|i|i ok|i|i|i resp|i|i| | | | | | |]; cbn [exec]; intros E.
  - case_bool_decide; [done|]. injection E as <- <-. by apply step_submit.
  - destruct (sh_forwards r !! k) as [[]|] eqn:Ek; try done. injection E as <- <-. by apply (step_read _ _ _ _ _ r _ _ _ (at_split _ _ _ Ek)).
  - destruct (sh_forwards r !! k) as [[]|] eqn:Ek; try done. destruct (forward_got _ _ _ _) as [r1 new] eqn:Eg. injection E as <- <-. by apply (step_check _ _ _ _ _ r _ _ _ _ _ _ (at_split _ _ _ Ek)).
  - destruct (sh_forwards r !! k) as [[]|] eqn:Ek; try done. apply bind_Some in E as (s & Hs & E). injection E as <- <-. by apply (step_register _ _ _ _ _ r _ _ _ _ _ (at_split _ _ _ Ek)).
  - destruct (sh_forwards r !! k) as [[]|] eqn:Ek; try done. apply bind_Some in E as (s & Hs & E). case_bool_decide; [|done]. injection E as <- <-. by apply (step_enqueue _ _ _ _ _ r _ _ _ _ _ (at_split _ _ _ Ek)).
  - apply bind_Some in E as (s & Hs & E). destruct (st_sender s) eqn:?, (st_done s) eqn:?; try done. injection E as <- <-. by apply step_sender_exit.
  - apply bind_Some in E as (s & Hs & E). destruct (st_sender s) eqn:?; try done. destruct (st_requestsChannel s) eqn:?; [done|]. injection E as <- <-. by apply step_take.
  - apply bind_Some in E as (s & Hs & E). destruct (st_sender s) eqn:?; try done. apply bind_Some in E as (r1 & E1 & E). injection E as <- <-. by eapply step_send.
  - apply bind_Some in E as (s & Hs & E). destruct (st_sender s) eqn:?; try done. apply bind_Some in E as ([r1 f1] & E1 & E). apply bind_Some in E as (s1 & Hs1 & E). injection E as <- <-. by eapply step_sender_fail.
  - apply bind_Some in E as (s & Hs & E). destruct (st_reader s) eqn:?, (st_done s) eqn:?; try done. injection E as <- <-. by apply step_reader_exit.
  - apply bind_Some in E as (s & Hs & E). destruct (st_reader s) eqn:?; try done. injection E as <- <-. by apply step_receive.
  - apply bind_Some in E as (s & Hs & E). destruct (st_reader s) eqn:?; try done. injection E as <- <-. by apply step_receive_fails.
  - apply bind_Some in E as (s & Hs & E). destruct (st_reader s) eqn:?; try done. apply bind_Some in E as ([r1 f1] & E1 & E). apply bind_Some in E as (s1 & Hs1 & E). injection E as <- <-. by eapply step_reader_fail.
  - destruct (sh_reconnect r) eqn:?, (sh_reconnects r) eqn:?; try done. destruct (sh_installed r) eqn:?.
    + apply bind_Some in E as (s & Hs & E). destruct (st_faulty s) eqn:?; injection E as <- <-; [by eapply step_renew|by eapply step_not_faulty].
    + destruct (sh_softStop r) eqn:?; [done|]. injection E as <- <-. apply step_init; [by left|done..].
  - destruct (sh_reconnect r) eqn:?; try done. apply bind_Some in E as (s & Hs & E). destruct (st_requestsChannel s) eqn:?; injection E as <- <-; [by eapply step_moved|by eapply step_move].
  - destruct (sh_reconnect r) eqn:?; try done. apply bind_Some in E as (s & Hs & E). injection E as <- <-. by apply step_copy.
  - destruct (sh_reconnect r) eqn:?, (sh_softStop r) eqn:?; try done. injection E as <- <-. apply step_install; [by left|done].
  - destruct (sh_softStop r) eqn:?; [done|]. injection E as <- <-. by apply step_stop.
  - destruct (sh_softStop r) as [f|] eqn:?; [|done]. destruct (sh_installed r) as [i|] eqn:?; [|by destruct f].
    assert (f <> FNotify) as Hf by (by intros ->). assert ((s ← sh_streams r !! i; '(r', f') ← fail_step trace reqID i s f r; Some (fail_label i f, set_softStop (Some f') r')) = Some (l, r')) as E' by (by destruct f).
    apply bind_Some in E' as (s & Hs & E'). apply bind_Some in E' as ([r1 f1] & E1 & E'). injection E' as <- <-. by eapply step_stop_drain.
  - destruct (sh_configRequests r) eqn:?; [done|]. injection E as <- <-. by apply step_config.
Qed.

Lemma exec_reach es : forall r r', reach request trace reqID verify config_reply any r -> exec_all r es = Some r' -> reach request trace reqID verify config_reply any r'.
Proof.
  induction es as [|e es IH]; intros r r' Hr E; cbn in E; [by injection E as <-|]. apply bind_Some in E as ([l r1] & E1 & E). apply (IH r1); [|done]. eapply reach_step; [done|done|by eapply exec_sound].
Qed.
End Exec.

(** ** A router whose requests all are accepted; those from 10 on are not traced *)
Definition some_request (tr : nat) : Request := mkRequest (Some [x61]) [] None 0.
Definition some_trace (tr : nat) : option bytes := if decide (10 <= tr) then None else Some [byte_of_N (N.of_nat tr)].
Definition some_id (tr : nat) : bytes := [x01].
Definition accept_all (r : Request) : outcome Z := Ok 0%Z.
Definition some_reply (tr : nat) : Response := mkResponse None [] None.
Definition run (es : list event) : option shard_router := exec_all some_request some_trace some_id accept_all some_reply empty_router es.
Definition state_after (es : list event) : shard_router := default empty_router (run es).
Definition sample_reach := reach some_request some_trace some_id accept_all some_reply.

Lemma run_reach es : match run es with Some _ => true | None => false end = true -> sample_reach any (state_after es).
Proof. unfold state_after. destruct (run es) as [r|] eqn:Hr; [|done]. intros _. cbn [default]. eapply exec_reach; [apply reach_start|exact Hr]. Qed.

Definition forward (tr : nat) : list event := [ESubmit tr; ERead 0; ECheck 0; ERegister 0; EEnqueue 0].
(** The reader fails and drains the request; SoftStop detaches the registrations and replies; the reader replies to the drained request. *)
Definition drained_twice : list event := EReconnect :: forward 1 ++ [EReceiveFails 0; EReaderFail 0; EReaderFail 0; EStop; EStopDrain; EStopDrain; EReaderFail 0].
(** The reader has cancelled the stream; another request finds it broken and has it renewed, which copies the registration; then the reader replies with an error, the new stream sends the request, and the batcher's response is a second reply. *)
Definition renewed_twice : list event :=
  EReconnect :: forward 1 ++ [EReceiveFails 0; EReaderFail 0; ESubmit 11; ERead 0; ECheck 0; EReconnect; EMove; EMove; ECopy; EInstall; EReaderFail 0; EReaderFail 0; ETake 1; ESend 1 true; EReceive 1 (mkSubmitResponse [] [x01] "")].

(** A traced request can be replied to twice. When a stream fails, a request that one goroutine has drained from the queue is also replied to by another one that detaches the registrations, as the result of
    unregisterReply is not looked at; and a stream that is renewed before the failing goroutine has detached the registrations hands them to both the old and the new stream, so that a client gets
    an error and then the batcher's response. *)
Theorem traced_replied_twice :
  (exists r, sample_reach any r /\ occ 1 (sh_replies r).*1 = 2) /\
  (exists r, sample_reach any r /\ (rs_err <$> (sh_replies r).*2) = [Some "server error: connection between router and batcher is broken, try again later"; Some "server error: could not establish connection between router and batcher"; None]%string /\
     (sh_replies r).*1 = [11; 1; 1] /\ 1 ∈ sh_sent r).
Proof.
  split.
  - exists (state_after drained_twice). split; [apply run_reach; vm_compute; reflexivity|vm_compute; reflexivity].
  - exists (state_after renewed_twice). split; [apply run_reach; vm_compute; reflexivity|]. split; [vm_compute; reflexivity|]. split; [vm_compute; reflexivity|]. apply occ_elem. vm_compute. lia.
Qed.

(** A Forward call that has read the stream is overtaken by its renewal. *)
Definition stale_run : list event :=
  [EReconnect; ESubmit 10; ERead 0; ECheck 0; ERegister 0; EReceiveFails 0; EReaderFail 0; EReaderFail 0; EReaderFail 0; EReaderFail 0; EReconnect; EMove; ECopy; EInstall; ESenderExit 0; EEnqueue 0].
Lemma stale_forward_stuck_witness : 10 ∉ (sh_replies (state_after stale_run)).*1.
Proof.
  refine (proj2 (proj2 (stale_forward_stuck some_request some_trace some_id accept_all some_reply (state_after stale_run) (state_after stale_run) 0 10 _ _ _ _))).
  - apply run_reach. vm_compute. reflexivity.
  - reflexivity.
  - split; [eexists; split; [vm_compute; reflexivity|]; split; [reflexivity|]; split; [reflexivity|]; by left|]. split; [vm_compute; discriminate|vm_compute; exact I].
  - apply rtc_refl.
Defined.

Definition good_run : list event := EReconnect :: forward 10 ++ forward 1 ++ [ETake 0; ESend 0 true; ETake 0; ESend 0 true].
Lemma untraced_replied_once_witness : occ 10 (places (state_after good_run)) + occ 10 (sh_replies (state_after good_run)).*1 = 1.
Proof.
  refine (proj1 (proj1 (untraced_replied_once some_request some_trace some_id accept_all some_reply (state_after good_run) _) 10 _ _)); [apply run_reach; vm_compute; reflexivity|reflexivity|]. apply occ_elem. vm_compute. lia.
Defined.

Lemma some_trace_inj x y t : some_trace x = Some t -> some_trace y = Some t -> x = y.
Proof.
  unfold some_trace. do 2 case_decide; try done. assert (forall n, n < 10 -> N.to_nat (Byte.to_N (byte_of_N (N.of_nat n))) = n) as Hb.
  { intros n Hn. do 10 (destruct n as [|n]; [reflexivity|]). lia. }
  intros [= <-] [= E]. rewrite <-(Hb x), <-(Hb y) by lia. by rewrite E.
Qed.
Lemma traced_replied_once_witness : occ 1 (sh_replies (state_after [EReconnect])).*1 + occ 1 (registered (submitted 1 (set_forwards [FwStart 1] (state_after [EReconnect])))) + 1 + 0 = 1.
Proof.
  refine (traced_replied_once some_request some_trace some_id accept_all some_reply (submitted 1 (set_forwards [FwStart 1] (state_after [EReconnect]))) 1 some_trace_inj _ _ _).
  - eapply (reach_step some_request some_trace some_id accept_all some_reply (orderly some_trace) _ LOther); [eapply (reach_step some_request some_trace some_id accept_all some_reply (orderly some_trace) _ LOther); [apply reach_start|exact I|]|exact I|].
    + apply (exec_sound some_request some_trace some_id accept_all some_reply empty_router EReconnect). vm_compute. reflexivity.
    + apply (step_submit some_request some_trace some_id accept_all some_reply (state_after [EReconnect])). by intros ?%not_elem_of_nil.
  - discriminate.
  - by left.
Defined.
