(* ===== verification/RouterFront.v ===== *)
(** * The handlers of clients' requests

    Broadcast, SubmitStream and Submit of [src/node/router/router.go]: what they do with a request, up to the call of Forward of a shard router, on
    the rate limiter of [RateLimit] and the dispatch of [Router]. *)
From stdpp Require Import gmap sets sorting.
From Stdlib Require Import NArith ZArith Lia Strings.String.
From S2P Require Import Prelude Types Events State Blocks StateCodec ConfigStore RequestFilter RateLimit Router RouterThms.

(** What the handlers read and change of the router. *)
Record Front := mkFront {
  fr_shardIDs : list ShardID;
  fr_shardRouters : gset ShardID;
  fr_throttler : throttler;
  fr_configSeq : N;
  fr_stopped : bool
}.
Definition with_throttler (t : throttler) (f : Front) : Front := mkFront (fr_shardIDs f) (fr_shardRouters f) t (fr_configSeq f) (fr_stopped f).

(** A reply, or the tracked request that a shard router gets; an untraced request has no trace. *)
Inductive action := Rejected (resp : Response) | Forwarded (shard : ShardID) (req : Request) (reqID : bytes) (trace : option bytes).

(** Two random non-negative int64. *)
Definition createTraceID (n1 n2 : N) : bytes := be_put 8 n1 ++ be_put 8 n2.
Definition throttled_response (reqID : bytes) : Response := mkResponse (Some ErrThrottled) reqID None.
Definition stopping_response (reqID : bytes) : Response := mkResponse (Some "router is stopping, cannot process request"%string) reqID None.
Definition with_config_seq (seq : N) (req : Request) : Request := mkRequest (rq_Payload req) (rq_Signature req) (rq_TraceId req) seq.

(** A turn of Broadcast with an envelope; its answers have no identifier, so the limiter is asked first. *)
Definition Broadcast_one (f : Front) (now : Z) (payload : slice) (signature : bytes) : outcome (Front * action) :=
  let '(t, allowed) := throttler_Allow (fr_throttler f) now in
  let f := with_throttler t f in
  if negb allowed then Ok (f, Rejected (throttled_response [])) else
  let request := mkRequest payload signature None (fr_configSeq f) in
  m ← getShardRouterAndReqID (fr_shardIDs f) (fr_shardRouters f) request;
  Ok (f, if fr_stopped f then Rejected (stopping_response m.2) else Forwarded m.1 request m.2 None).

(** A turn of SubmitStream. *)
Definition SubmitStream_one (f : Front) (now : Z) (req : Request) (n1 n2 : N) : outcome (Front * action) :=
  m ← getShardRouterAndReqID (fr_shardIDs f) (fr_shardRouters f) req;
  let '(t, allowed) := throttler_Allow (fr_throttler f) now in
  let f := with_throttler t f in
  if negb allowed then Ok (f, Rejected (throttled_response m.2)) else
  Ok (f, if fr_stopped f then Rejected (stopping_response m.2) else Forwarded m.1 (with_config_seq (fr_configSeq f) req) m.2 (Some (createTraceID n1 n2))).

(** Submit up to the wait for the response, or its answer; a router that is stopping is noticed only in the wait. *)
Definition Submit_one (f : Front) (now : Z) (req : Request) (n1 n2 : N) : outcome (Front * action) :=
  m ← getShardRouterAndReqID (fr_shardIDs f) (fr_shardRouters f) req;
  let '(t, allowed) := throttler_Allow (fr_throttler f) now in
  let f := with_throttler t f in
  if negb allowed then Ok (f, Rejected (throttled_response m.2))
  else Ok (f, Forwarded m.1 (with_config_seq (fr_configSeq f) req) m.2 (Some (createTraceID n1 n2))).

(** The wait of Submit ends with the reply, when the router stops, or with the client's context. *)
Inductive wait_end := GotReply (resp : Response) | RouterStops | ContextDone.
Definition Submit_response (reqID : bytes) (w : wait_end) (m : RouterMetrics) : RouterMetrics * outcome SubmitResponse :=
  let response := match w with
                  | GotReply resp => resp
                  | RouterStops => stopping_response reqID
                  | ContextDone => mkResponse (Some "context done before receiving response for request"%string) reqID None
                  end in
  (increaseErrorCount (rs_err response) m, responseToSubmitResponse response).

(** ** Calls of clients, one after the other as the limiter sees them *)
Inductive client_call := CallBroadcast (payload : slice) (signature : bytes) | CallStream (req : Request) (n1 n2 : N) | CallSubmit (req : Request) (n1 n2 : N).
Definition call_payload (c : client_call) : slice := match c with CallBroadcast p _ => p | CallStream r _ _ | CallSubmit r _ _ => rq_Payload r end.
Definition call_signature (c : client_call) : bytes := match c with CallBroadcast _ s => s | CallStream r _ _ | CallSubmit r _ _ => rq_Signature r end.
Definition handle_call (f : Front) (now : Z) (c : client_call) : outcome (Front * action) :=
  match c with
  | CallBroadcast p s => Broadcast_one f now p s
  | CallStream r n1 n2 => SubmitStream_one f now r n1 n2
  | CallSubmit r n1 n2 => Submit_one f now r n1 n2
  end.
Fixpoint handle_calls (f : Front) (calls : list (Z * client_call)) : outcome (Front * list action) :=
  match calls with
  | [] => Ok (f, [])
  | (now, c) :: rest => r ← handle_call f now c; rs ← handle_calls r.1 rest; Ok (rs.1, r.2 :: rs.2)
  end.

(** ** Admission *)
Definition is_throttled (act : action) : bool := match act with Rejected resp => bool_decide (rs_err resp = Some ErrThrottled) | Forwarded _ _ _ _ => false end.
Definition is_forwarded (act : action) : bool := match act with Forwarded _ _ _ _ => true | Rejected _ => false end.
(** The requests that went to shard routers in a window of time. *)
Fixpoint forwarded_in (a b : Z) (nows : list Z) (actions : list action) : nat :=
  match nows, actions with
  | now :: nows, act :: actions => ((if (is_forwarded act && (a <=? now)%Z && (now <=? b)%Z)%bool then 1 else 0) + forwarded_in a b nows actions)%nat
  | _, _ => 0%nat
  end.
(** The shards of the router, each with a shard router. *)
Definition front_ok (f : Front) : Prop := fr_shardIDs f <> [] /\ (N.of_nat (List.length (fr_shardIDs f)) <= u16_max)%N /\ forall s, s ∈ fr_shardIDs f -> s ∈ fr_shardRouters f.
(** A request is passed on unchanged, with the router's config sequence, to the shard it maps to. *)
Definition passed_on (f : Front) (c : client_call) (act : action) : Prop :=
  forall shard req reqID trace, act = Forwarded shard req reqID trace ->
    getShardRouterAndReqID (fr_shardIDs f) (fr_shardRouters f) req = Ok (shard, reqID) /\ rq_Payload req = call_payload c /\ rq_Signature req = call_signature c /\ rq_ConfigSeq req = fr_configSeq f.

Lemma dispatch_total f req : front_ok f -> exists s, getShardRouterAndReqID (fr_shardIDs f) (fr_shardRouters f) req = Ok (s, be_put 8 (crc64_Checksum (slice_bytes (rq_Payload req)))).
Proof.
  intros (Hne & Hlen & Hsub). destruct (map_in_range (fr_shardIDs f) (slice_bytes (rq_Payload req)) Hne Hlen) as (i & s & Hm & Hi & Hs). exists s. unfold getShardRouterAndReqID. rewrite Hm. cbn [mbind outcome_bind fst snd]. rewrite Hi. cbn [mbind outcome_bind].
  by rewrite bool_decide_true by by apply Hsub.
Qed.

(** One call: the limiter decides, and nothing else of the router changes. *)
Lemma handle_call_spec f now c l : front_ok f -> global (fr_throttler f) = Some l ->
  exists act, handle_call f now c = Ok (with_throttler (mkThrottler (Some (Allow l now).1)) f, act) /\ is_throttled act = negb (Allow l now).2 /\ (is_forwarded act = true -> (Allow l now).2 = true) /\ passed_on f c act.
Proof.
  intros Hok Hl. assert (throttler_Allow (fr_throttler f) now = (mkThrottler (Some (Allow l now).1), (Allow l now).2)) as Ht by (unfold throttler_Allow; by rewrite Hl).
  destruct c as [p s|r n1 n2|r n1 n2]; cbn [handle_call]; unfold Broadcast_one, SubmitStream_one, Submit_one; rewrite Ht.
  - destruct (dispatch_total f (mkRequest p s None (fr_configSeq f)) Hok) as [shard Hd]. destruct (Allow l now) as [l' ok]. cbn [snd fst with_throttler fr_shardIDs fr_shardRouters fr_configSeq fr_stopped]. destruct ok; cbn [negb].
    + rewrite Hd. cbn [mbind outcome_bind fst snd]. eexists. split; [done|]. destruct (fr_stopped f); (split; [done|split; [done|]]); intros ? ? ? ? [=]; by subst.
    + eexists. split; [done|]. split; [done|]. split; [done|]. by intros ? ? ? ? [=].
  - destruct (dispatch_total f r Hok) as [shard Hd]. rewrite Hd. cbn [mbind outcome_bind fst snd]. destruct (Allow l now) as [l' ok]. destruct ok; cbn [negb snd fst].
    + eexists. split; [done|]. cbn [with_throttler fr_stopped fr_configSeq]. destruct (fr_stopped f); (split; [done|split; [done|]]); intros ? ? ? ? [=]; by subst.
    + eexists. split; [done|]. split; [done|]. split; [done|]. by intros ? ? ? ? [=].
  - destruct (dispatch_total f r Hok) as [shard Hd]. rewrite Hd. cbn [mbind outcome_bind fst snd]. destruct (Allow l now) as [l' ok]. destruct ok; cbn [negb snd fst].
    + eexists. split; [done|]. split; [done|]. split; [done|]. intros ? ? ? ? [=]; by subst.
    + eexists. split; [done|]. split; [done|]. split; [done|]. by intros ? ? ? ? [=].
Qed.

Lemma handle_calls_spec calls : forall f l, front_ok f -> global (fr_throttler f) = Some l ->
  exists f' actions, handle_calls f calls = Ok (f', actions) /\ is_throttled <$> actions = negb <$> allow_all l (fst <$> calls) /\ Forall2 (passed_on f) (snd <$> calls) actions /\
    forall a b, (forwarded_in a b (fst <$> calls) actions <= admitted_in a b (fst <$> calls) (allow_all l (fst <$> calls)))%nat.
Proof.
  induction calls as [|[now c] calls IH]; intros f l Hok Hl; [exists f, []; repeat split; [constructor|done]|].
  destruct (handle_call_spec f now c l Hok Hl) as (act & E & Ht & Hf & Hp). destruct (IH (with_throttler (mkThrottler (Some (Allow l now).1)) f) (Allow l now).1 Hok eq_refl) as (f' & actions & E' & Ht' & Hp' & Hc).
  exists f', (act :: actions). cbn [handle_calls]. rewrite E. cbn [mbind outcome_bind fst snd]. rewrite E'. split; [done|]. cbn. split; [by rewrite Ht, Ht'|]. split; [by constructor|].
  intros a b. specialize (Hc a b). destruct (is_forwarded act) eqn:Ef; [rewrite (Hf eq_refl)|]; cbn [andb]; [lia|]. destruct (_ && _ && _)%bool; lia.
Qed.

(** C19: The router admits requests within its rate and passes them on. Under the global policy with interval [T] and burst offset [B], over any calls of the three client handlers, in any order as
    the limiter sees them: nothing panics, a call is answered as throttled exactly if the reference limiter refuses it, at most [(b - a + B) / T] requests go to the
    shard routers in any window of time, and each of these goes, with its payload and signature and the config sequence of the router, whatever the client wrote there, to the shard
    it maps to. *)
Theorem router_admission f T B calls a b : front_ok f -> global (fr_throttler f) = Some (mkLimiter 0 T B) ->
  (0 < T)%Z -> (0 <= B)%Z -> in_range (mkLimiter 0 T B) (fst <$> calls) -> (T <= max_int64)%Z -> (a <= b)%Z ->
  exists f' actions, handle_calls f calls = Ok (f', actions) /\ is_throttled <$> actions = negb <$> admit_all T B [] (fst <$> calls) /\
    (Z.of_nat (forwarded_in a b (fst <$> calls) actions) * T <= b - a + B)%Z /\ Forall2 (passed_on f) (snd <$> calls) actions.
Proof.
  intros Hok Hl HT HB Hr Hmax Hab. destruct (handle_calls_spec calls f _ Hok Hl) as (f' & actions & E & Ht & Hp & Hc). destruct (limiter_exact T B (fst <$> calls) a b HT HB Hr Hmax Hab) as [Hex Hw].
  exists f', actions. split; [done|]. rewrite <-Hex. split; [done|]. split; [|done]. specialize (Hc a b). nia.
Qed.

Definition sample_front : Front := mkFront [1; 2]%N {[1; 2]}%N (match newThrottler PolicyGlobal 10 2 with Ok t => t | _ => mkThrottler None end) 7 false.
Definition sample_calls : list (Z * client_call) :=
  [(0%Z, CallBroadcast (Some [Byte.x61]) []); (1%Z, CallSubmit (mkRequest (Some [Byte.x62]) [] None 3) 5 6); (2%Z, CallStream sample_request 1 2); (150000000%Z, CallStream sample_request 1 2)].
Lemma router_admission_witness : exists f' actions, handle_calls sample_front sample_calls = Ok (f', actions) /\ is_throttled <$> actions = [false; false; true; false].
Proof.
  destruct (router_admission sample_front 100000000 200000000 sample_calls 0 150000000) as (f' & actions & E & Ht & _); [|reflexivity|lia|lia| |vm_compute; done|lia|].
  - split; [done|]. split; [done|]. intros s Hs. cbn in Hs. set_solver.
  - unfold in_range, max_int64. cbn. repeat constructor; lia.
  - exists f', actions. split; [exact E|]. rewrite Ht. vm_compute. reflexivity.
Defined.
