(* ===== verification/BlockVerify.v ===== *)
(** * Verification of delivered blocks

    What a node that pulls blocks from others checks: [src/common/deliverclient/block_verification.go] for the blocks of assemblers, with the
    block handling of [block_receiver.go] and [bft_header_receiver.go] in [src/common/deliverclient/blocksprovider], and
    [src/node/consensus/synchronizer/consenter_block_verifier.go] with [sig_verifier.go] for the blocks of consenters. *)
From stdpp Require Import gmap sets.
From Stdlib Require Import NArith ZArith Lia.
From S2P Require Import Prelude Types Events State Blocks Ledger StateCodec Consensus Assembler RequestFilter.

Definition BlockVerifierFunc : Type := BlockHeader -> list bytes -> outcome unit.
(** A consenter of the configuration: its number and identity. *)
Record Consenter_ := mkConsenter { co_Id : N; co_Identity : bytes }.
Definition Policy : Type := list SignedData -> outcome unit.

(** CloneableUpdatableBlockVerifier, with the config block operations that go with it; a clone is the value itself. *)
Class BlockVerifier (V : Type) := {
  VerifyBlock : V -> Block -> outcome V;
  VerifyBlockAttestation : V -> Block -> outcome V;
  UpdateConfig : V -> Block -> outcome V;
  UpdateBlockHeader : V -> Block -> outcome V;
  ops_IsConfigBlock : Block -> bool;
  ops_ConfigFromBlock : Block -> outcome ConfigEnvelope
}.

(** ** Receivers *)
(** What the receiver of blocks, and that of headers, do with a block that was delivered; [handle] is the block handler's result. *)
Definition receive_block `{BlockVerifier V} (v : V) (handle : outcome unit) (block : Block) : outcome V :=
  _ ← deref (b_Header block);
  v ← wrap_err "block could not be verified" (VerifyBlock v block);
  _ ← wrap_err "block could not be handled" handle;
  v ← (if ops_IsConfigBlock block then
         _ ← wrap_err "failed to extract channel-config from config block" (ops_ConfigFromBlock block);
         wrap_err "config block failed to update block verifier" (UpdateConfig v block)
       else Ok v);
  UpdateBlockHeader v block.
Definition receive_header `{BlockVerifier V} (v : V) (block : Block) : outcome V :=
  _ ← deref (b_Header block);
  v ← (if ops_IsConfigBlock block then v ← VerifyBlock v block; UpdateConfig v block else VerifyBlockAttestation v block);
  UpdateBlockHeader v block.

(** The channel of a channel header, and what Fabric's libraries make of a configuration (the bytes of its config envelope): the function that
    checks the signatures over a block with its block validation policy, or that policy and the consenters. *)
Class ChannelConfigs := {
  header_channel : bytes -> string;
  VerifierFromConfig : bytes -> string -> outcome BlockVerifierFunc;
  policy_of_config : bytes -> string -> outcome (Policy * list Consenter_)
}.

Section Blocks.
Context `{FabricCodecs} `{BlockCodecs} `{Sha256}.

(** ** protoutil *)
Definition ExtractEnvelope (block : Block) (index : nat) : outcome Envelope :=
  data ← of_option "block data is nil" (b_Data block);
  marshaledEnvelope ← of_option "envelope index out of bounds" (data !! index);
  wrap_err "block data does not carry an envelope" (unmarshal marshaledEnvelope : outcome Envelope).

Definition well_formed_tx (rawTx : bytes) : bool :=
  match (unmarshal rawTx : outcome Envelope) with
  | Ok env =>
      negb (bool_decide (length (env_Payload env) = 0)) && negb (bool_decide (length (env_Signature env) = 0)) &&
      match enc env with Some expected => bool_decide (expected = rawTx) | None => false end
  | _ => false
  end.
Definition VerifyTransactionsAreWellFormed (data : option (list bytes)) : outcome unit :=
  match data with
  | None | Some [] => Err "empty block"
  | Some txs => if HasConfigTx txs then Ok tt else if forallb well_formed_tx txs then Ok tt else Err "transaction is invalid"
  end.
Definition BlockDataHash (data : option (list bytes)) : outcome bytes :=
  _ ← VerifyTransactionsAreWellFormed data; Ok (ComputeBlockDataHash (default [] data)).

(** ** The verifier of assembler blocks *)
Record BlockVerificationAssistant := mkBVA {
  bva_channelID : string;
  bva_sigVerifierFunc : BlockVerifierFunc;
  bva_configBlockHeader : option BlockHeader;
  bva_lastBlockHeader : BlockHeader;
  bva_lastBlockHeaderHash : bytes
}.
Definition with_last (header : BlockHeader) (hash : bytes) (a : BlockVerificationAssistant) : BlockVerificationAssistant :=
  mkBVA (bva_channelID a) (bva_sigVerifierFunc a) (bva_configBlockHeader a) header hash.

(** The check against the last block; the first error is for a nil block. *)
Definition verifyHeader (lastNumber : N) (lastHash : bytes) (block : Block) : outcome BlockHeader :=
  header ← of_option "invalid block, header must be different from nil" (b_Header block);
  fail_if negb (u64 (lastNumber + 1) =? bh_Number header)%N with "expected block number is different" ;;
  fail_if negb (bool_decide (length lastHash = 0)) && bool_decide (bh_PreviousHash header <> lastHash) with "Header.PreviousHash is different from Hash(block.Header) of previous block" ;;
  Ok header.
Definition verifyMetadata (block : Block) : outcome (list bytes) :=
  md ← of_option "block does not have metadata" (b_Metadata block);
  fail_if bool_decide (length md < metadata_names) with "block metadata contains too few entries" ;; Ok md.

Definition BVA_VerifyBlock (a : BlockVerificationAssistant) (block : Block) : outcome BlockVerificationAssistant :=
  header ← verifyHeader (bh_Number (bva_lastBlockHeader a)) (bva_lastBlockHeaderHash a) block;
  md ← verifyMetadata block;
  dataHash ← wrap_err "failed to verify transactions are well formed" (BlockDataHash (b_Data block));
  fail_if bool_decide (dataHash <> bh_DataHash header) with "Header.DataHash is different from Hash(block.Data)" ;;
  _ ← bva_sigVerifierFunc a header md;
  hash ← BlockHeaderHash header;
  Ok (with_last header hash a).

Definition BVA_VerifyBlockAttestation (a : BlockVerificationAssistant) (block : Block) : outcome BlockVerificationAssistant :=
  header ← verifyHeader (bh_Number (bva_lastBlockHeader a)) (bva_lastBlockHeaderHash a) block;
  md ← verifyMetadata block;
  _ ← bva_sigVerifierFunc a header md;
  hash ← BlockHeaderHash header;
  Ok (with_last header hash a).

Definition BVA_UpdateBlockHeader (a : BlockVerificationAssistant) (block : Block) : outcome BlockVerificationAssistant :=
  header ← deref (b_Header block); hash ← BlockHeaderHash header; Ok (with_last header hash a).
End Blocks.

Section Configs.
Context `{FabricCodecs} `{BlockCodecs} `{StateCodecs} `{BFTCodecs} `{Sha256} `{ChannelConfigs}.

(** The channel and the config envelope of a config block. *)
Definition config_of_block (configBlock : Block) : outcome (string * bytes) :=
  configTx ← wrap_err "error extracting envelope" (ExtractEnvelope configBlock 0);
  payload ← wrap_err "error unmarshalling envelope to payload" (unmarshal (env_Payload configTx) : outcome Payload);
  rawChannelHeader ← of_option "missing channel header" (pl_Header payload);
  _ ← wrap_err "error unmarshalling channel header" (unmarshal rawChannelHeader : outcome ChannelHeader);
  _ ← wrap_err "error unmarshalling config envelope from payload data" (unmarshal (pl_Data payload) : outcome ConfigEnvelope);
  Ok (header_channel rawChannelHeader, pl_Data payload).

Definition NewBlockVerificationAssistant (configBlock lastBlock : option Block) : outcome BlockVerificationAssistant :=
  configBlock ← of_option "config block is nil" configBlock;
  configHeader ← of_option "config block header is nil" (b_Header configBlock);
  fail_if negb (IsConfigBlock configBlock) with "config block parameter does not carry a config block" ;;
  configIndex ← wrap_err "error getting config index from config block" (GetLastConfigIndexFromBlock configBlock);
  fail_if negb (configIndex =? bh_Number configHeader)%N with "config block number is different than its own config index" ;;
  lastBlock ← of_option "last block is nil" lastBlock;
  lastHeader ← of_option "last verified block header is nil" (b_Header lastBlock);
  fail_if (bh_Number lastHeader <? bh_Number configHeader)%N with "last verified block number is smaller than the config block number" ;;
  lastBlockConfigIndex ← wrap_err "error getting config index from last verified block" (GetLastConfigIndexFromBlock lastBlock);
  fail_if negb (lastBlockConfigIndex =? bh_Number configHeader)%N with "last verified block config index is different than the config block number" ;;
  cfg ← config_of_block configBlock;
  verifierFunc ← wrap_err "error creating verifier function" (VerifierFromConfig cfg.2 cfg.1);
  hash ← BlockHeaderHash lastHeader;
  Ok (mkBVA cfg.1 verifierFunc (Some configHeader) lastHeader hash).

Definition NewBlockVerificationAssistantFromConfig (config : option bytes) (lastBlockNumber : N) (lastBlockHeaderHash : bytes) (channelID : string) : outcome BlockVerificationAssistant :=
  config ← of_option "config is nil" config;
  fail_if bool_decide (length lastBlockHeaderHash = 0) with "last block header hash is missing" ;;
  verifierFunc ← wrap_err "error creating verifier function" (VerifierFromConfig config channelID);
  Ok (mkBVA channelID verifierFunc None (mkBlockHeader lastBlockNumber [] []) lastBlockHeaderHash).

Definition BVA_UpdateConfig (a : BlockVerificationAssistant) (configBlock : Block) : outcome BlockVerificationAssistant :=
  cfg ← config_of_block configBlock;
  fail_if bool_decide (cfg.1 <> bva_channelID a) with "config block channel ID does not match expected" ;;
  verifierFunc ← wrap_err "error creating verifier function" (VerifierFromConfig cfg.2 cfg.1);
  header ← deref (b_Header configBlock);
  hash ← BlockHeaderHash header;
  Ok (mkBVA (bva_channelID a) verifierFunc (Some header) header hash).

#[export] Instance assembler_verifier : BlockVerifier BlockVerificationAssistant := {
  VerifyBlock := BVA_VerifyBlock; VerifyBlockAttestation := BVA_VerifyBlockAttestation; UpdateConfig := BVA_UpdateConfig; UpdateBlockHeader := BVA_UpdateBlockHeader;
  ops_IsConfigBlock block := Common_IsConfigBlock (Some block); ops_ConfigFromBlock block := Common_ConfigFromBlock (Some block) }.

(** ** The verifier of consenter blocks *)
Record BlockSigVerifier := mkBSV { bsv_Policy : Policy; bsv_Consenters : list Consenter_; bsv_ConfigBlockNum : N }.

Definition searchConsenterIdentityByID (v : BlockSigVerifier) (identifier : N) : option bytes :=
  co_Identity <$> List.find (fun c => (co_Id c =? identifier)%N) (bsv_Consenters v).

(** The identity of the signer of a message, whose identifier header must have the signature's number. *)
Definition message_signer (v : BlockSigVerifier) (msg : MessageToSign) (id : N) : outcome bytes :=
  idHeader ← wrap_err "failed to unmarshal identifier header" (unmarshal (mts_IdentifierHeader msg) : outcome IdentifierHeader);
  fail_if negb (ih_Identifier idHeader =? id)%N with "signature ID does not match identifier header ID" ;;
  of_option "signature has unknown consenter identity" (searchConsenterIdentityByID v (ih_Identifier idHeader)).

(** A message over a header and metadata with its signature, if it is the one the verifier computes. *)
Definition signed_data (identifier : bytes) (header metadata : bytes) (msg value identity : bytes) : outcome SignedData :=
  computed ← marshal_or_panic (mkMessageToSign identifier header metadata);
  fail_if bool_decide (computed <> msg) with "signature msg does not match computed message" ;;
  Ok (mkSignedData (Some computed) identity value).

Fixpoint collectBlocksSignatures (v : BlockSigVerifier) (id : N) (msgs values headers metadata : list bytes) : outcome (list SignedData) :=
  match msgs, values, headers, metadata with
  | [], [], [], [] => Ok []
  | msg :: msgs, value :: values, header :: headers, md :: metadata =>
      signedMsg ← wrap_err "failed to unmarshal the signature msg" (unmarshal msg : outcome MessageToSign);
      signerIdentity ← message_signer v signedMsg id;
      sd ← signed_data (mts_IdentifierHeader signedMsg) header md msg value signerIdentity;
      rest ← collectBlocksSignatures v id msgs values headers metadata;
      Ok (sd :: rest)
  | _, _, _, _ => Err "the length of the msgs, values, blockHeaderBytes and ordererBlockMetadata slices are not equal"
  end.

(** What a signature adds to the sets: nothing if it is skipped, else one entry to the sets of the blocks, and one to that of the proposal if its message is as computed. *)
Definition collect_signature (v : BlockSigVerifier) (verifyData : bool) (proposalHeader proposalMetadata : bytes) (headers metadata : list bytes) (sig : Signature)
    : outcome (option (option SignedData * list SignedData)) :=
  match (unmarshal (slice_bytes (sig_Value sig)) : outcome (list bytes)), (unmarshal (slice_bytes (sig_Msg sig)) : outcome (list bytes)) with
  | Ok (value :: values), Ok (msg :: msgs) =>
      if negb (bool_decide (length msgs = length values)) then Ok None
      else if verifyData && negb (bool_decide (length msgs = length headers)) then Ok None
      else
        match (unmarshal msg : outcome MessageToSign) with
        | Ok proposalMsg =>
            match message_signer v proposalMsg (sig_ID sig) with
            | Ok signerIdentity =>
                match (if verifyData then collectBlocksSignatures v (sig_ID sig) msgs values headers metadata else Ok []) with
                | Ok blockSigs =>
                    match signed_data (mts_IdentifierHeader proposalMsg) proposalHeader proposalMetadata msg value signerIdentity with
                    | Ok sd => Ok (Some (Some sd, blockSigs))
                    | Err _ => Ok (Some (None, blockSigs))
                    | Panic p => Panic p
                    end
                | Err _ => Ok None
                | Panic p => Panic p
                end
            | Err _ => Ok None
            | Panic p => Panic p
            end
        | Err _ => Ok None
        | Panic p => Panic p
        end
  | _, _ => Ok None
  end.

(** The header bytes and the orderer metadata of the blocks of a decision. *)
Fixpoint block_messages (lastConfigNum : N) (blocks : list Block) : outcome (list bytes * list bytes) :=
  match blocks with
  | [] => Ok ([], [])
  | b :: rest =>
      header ← of_option "available common block header is nil" (b_Header b);
      hb ← BlockHeaderBytes header;
      md ← of_option "available common block metadata is nil" (b_Metadata b);
      fail_if bool_decide (length md <= BlockMetadataIndex_ORDERER) with "available common block metadata is missing ORDERER entry" ;;
      let lastConfigNum := if IsConfigBlock b then bh_Number header else lastConfigNum in
      consenterMetadata ← Prelude.index md BlockMetadataIndex_ORDERER;
      obm ← orderer_metadata lastConfigNum consenterMetadata;
      r ← block_messages lastConfigNum rest;
      Ok (hb :: r.1, obm :: r.2)
  end.

Fixpoint evaluate_sets (policy : Policy) (sets : list (list SignedData)) (n i : nat) : outcome unit :=
  match n with
  | 0 => Ok tt
  | S n => _ ← wrap_err "failed to evaluate signature set" (policy (omap (fun s => s !! i) sets)); evaluate_sets policy sets n (S i)
  end.

Definition BlockSigVerifier_Verify (v : BlockSigVerifier) (consenterBlock : Block) (verifyData : bool) : outcome unit :=
  header ← of_option "consenter block header is nil" (b_Header consenterBlock);
  md ← of_option "consenter block metadata is nil" (b_Metadata consenterBlock);
  fail_if bool_decide (length md < metadata_names) with "consenter block metadata len is less than expected" ;;
  fail_if verifyData && bool_decide (length (default [] (b_Data consenterBlock)) = 0) with "consenter block data is nil or empty" ;;
  sigsBytes ← Prelude.index md BlockMetadataIndex_SIGNATURES;
  sigs ← wrap_err "failed to deserialize signatures from metadata" (BytesToDecisionSignatures sigsBytes);
  blockHeaderBytes ← BlockHeaderBytes header;
  proposalMetadata ← Prelude.index md BlockMetadataIndex_ORDERER;
  lastConfigIndex ← wrap_err "failed to get last config index from consenter block" (GetLastConfigIndexFromConsenterBlock (Some consenterBlock));
  proposalOrdererBlockMetadata ← orderer_metadata lastConfigIndex proposalMetadata;
  blocks ← (if verifyData then
              proposalBytes ← Prelude.index (default [] (b_Data consenterBlock)) 0;
              proposal ← wrap_err "failed to deserialize proposal from block data" (BytesToProposal proposalBytes);
              hdr ← wrap_err "failed deserializing proposal header" (Header_Deserialize (p_Header proposal));
              Ok (h_AvailableCommonBlocks hdr)
            else Ok []);
  bm ← block_messages (bsv_ConfigBlockNum v) blocks;
  collected ← omapM (collect_signature v verifyData blockHeaderBytes proposalOrdererBlockMetadata bm.1 bm.2) sigs;
  _ ← wrap_err "failed to evaluate signature set of the first (proposal) signature" (bsv_Policy v (omap (fun c => c ≫= fst) collected));
  evaluate_sets (bsv_Policy v) (omap (fun c => snd <$> c) collected) (length blocks) 0.

Record ConsenterBlockVerifier := mkCBV { cbv_channelID : string; cbv_lastBlockHeader : BlockHeader; cbv_sigVerifier : BlockSigVerifier }.

Definition SigVerifierFromConfig (configuration : bytes) (channel : string) (configBlockNum : N) : outcome BlockSigVerifier :=
  pc ← policy_of_config configuration channel; Ok (mkBSV pc.1 pc.2 configBlockNum).

(** The last block is a consenter block, the config block the one its decision's metadata names. *)
Definition CreateBlockVerifier (configBlock lastBlock : option Block) : outcome ConsenterBlockVerifier :=
  configBlock ← of_option "config block is nil" configBlock;
  configHeader ← of_option "config block header is nil" (b_Header configBlock);
  fail_if negb (IsConfigBlock configBlock) with "config block parameter does not carry a config block" ;;
  configIndex ← wrap_err "failed getting config index from config block" (GetLastConfigIndexFromBlock configBlock);
  fail_if negb (configIndex =? bh_Number configHeader)%N with "config block number is different than its own config index" ;;
  lastBlock ← of_option "last block is nil" lastBlock;
  lastHeader ← of_option "last verified block header is nil" (b_Header lastBlock);
  cfg ← config_of_block configBlock;
  info ← wrap_err "Failed to extract ordering info from last config block" (AssemblerBatchIdOrderingInfoAndTxCountFromBlock (Some configBlock));
  let configBlockDecisionNum := oi_DecisionNum info.1.2 in
  fail_if (bh_Number lastHeader <? configBlockDecisionNum)%N with "config block decision number is greater than last block decision number" ;;
  lastBlockConfigDecisionNum ← wrap_err "Failed to get last config index from last block" (GetLastConfigIndexFromConsenterBlock (Some lastBlock));
  fail_if negb (lastBlockConfigDecisionNum =? configBlockDecisionNum)%N with "config block decision number is not equal to last block config index decision number" ;;
  v ← wrap_err "error creating sig verifier function" (SigVerifierFromConfig cfg.2 cfg.1 (bh_Number configHeader));
  Ok (mkCBV cfg.1 lastHeader v).

Definition CBV_UpdateBlockHeader (c : ConsenterBlockVerifier) (block : option Block) : ConsenterBlockVerifier :=
  match block ≫= b_Header with Some header => mkCBV (cbv_channelID c) header (cbv_sigVerifier c) | None => c end.

(** The config block is the last block of the decision in the consenter block. *)
Definition CBV_UpdateConfig (c : ConsenterBlockVerifier) (consenterConfigBlock : Block) : outcome ConsenterBlockVerifier :=
  _ ← wrap_err "failed to extract config from block" (Consenter_ConfigFromBlock (Some consenterConfigBlock));
  configBlockNum ← wrap_err "failed to extract config block number from block" (ConfigBlockNumFromBlock (Some consenterConfigBlock));
  fail_if bool_decide (cbv_channelID c = ""%string) with "channel ID is empty" ;;
  fabricConfigBlock ← wrap_err "failed to extract config from block" (extractFabricConfigBlock (Some consenterConfigBlock));
  cfg ← wrap_err "failed to extract config from block" (config_of_block fabricConfigBlock);
  v ← wrap_err "error creating verifier function" (SigVerifierFromConfig cfg.2 (cbv_channelID c) configBlockNum);
  header ← deref (b_Header consenterConfigBlock);
  Ok (mkCBV (cbv_channelID c) header v).

Definition CBV_verifyHeader (c : ConsenterBlockVerifier) (block : Block) : outcome BlockHeader :=
  header ← of_option "invalid block, header must be different from nil" (b_Header block);
  fail_if negb (u64 (bh_Number (cbv_lastBlockHeader c) + 1) =? bh_Number header)%N with "expected block number is different" ;;
  lastBlockHeaderHash ← BlockHeaderHash (cbv_lastBlockHeader c);
  fail_if bool_decide (bh_PreviousHash header <> lastBlockHeaderHash) with "Header.PreviousHash is different from Hash(block.Header) of previous block" ;;
  Ok header.

Definition CBV_VerifyBlock (c : ConsenterBlockVerifier) (block : Block) : outcome ConsenterBlockVerifier :=
  header ← CBV_verifyHeader c block;
  _ ← verifyMetadata block;
  data ← of_option "block does not have data" (b_Data block);
  fail_if bool_decide (length data = 0) with "block data length is zero" ;;
  fail_if bool_decide (ComputeBlockDataHash data <> bh_DataHash header) with "Header.DataHash is different from Hash(block.Data)" ;;
  _ ← wrap_err "failed to verify signatures of block" (BlockSigVerifier_Verify (cbv_sigVerifier c) block true);
  Ok (mkCBV (cbv_channelID c) header (cbv_sigVerifier c)).

Definition CBV_VerifyBlockAttestation (c : ConsenterBlockVerifier) (block : Block) : outcome ConsenterBlockVerifier :=
  header ← CBV_verifyHeader c block;
  _ ← verifyMetadata block;
  _ ← wrap_err "failed to verify signatures of block attestation" (BlockSigVerifier_Verify (cbv_sigVerifier c) block false);
  Ok (mkCBV (cbv_channelID c) header (cbv_sigVerifier c)).

#[export] Instance consenter_verifier : BlockVerifier ConsenterBlockVerifier := {
  VerifyBlock := CBV_VerifyBlock; VerifyBlockAttestation := CBV_VerifyBlockAttestation; UpdateConfig := CBV_UpdateConfig; UpdateBlockHeader c block := Ok (CBV_UpdateBlockHeader c (Some block));
  ops_IsConfigBlock block := Consenter_IsConfigBlock (Some block); ops_ConfigFromBlock block := Consenter_ConfigFromBlock (Some block) }.
End Configs.
