(* ===== verification/BlockVerifyThms.v ===== *)
(** * Theorems on the verification of delivered blocks

    The verified blocks extend the chain; what is signed of an accepted consenter block; the blocks of the consensus are accepted; and two kinds of
    ordered requests that the verifier of assembler blocks does not cope with. *)
From stdpp Require Import gmap sets.
From Stdlib Require Import NArith ZArith Lia.
From S2P Require Import Prelude Types Events State Blocks Ledger StateCodec StateCodecFacts Consensus Assembler Batcher BatchStore PendingStore Pool PoolThms RequestFilter Router RouterThms BatcherService RequestFilterThms BlockVerify.

(** Steps of a computation that succeeded, up to a constant. *)
Ltac peel E := repeat first [ apply guard_err_Ok in E as [_ E] | match type of E with mbind _ (of_option _ (Some _)) = Ok _ => fail 2 | _ => let x := fresh "x" in let Ex := fresh "Ex" in apply bind_Ok_inv in E as (x & Ex & E) end ].

Section Chain.
Context `{FabricCodecs} `{BlockCodecs} `{StateCodecs} `{BFTCodecs} `{Sha256} `{ChannelConfigs}.

(** The header is the last one of the ledger. *)
Definition at_tip (header : BlockHeader) (ledger : list Block) : Prop :=
  chain_ok ledger /\ exists b, last ledger = Some b /\ b_Header b = Some header.
Lemma header_hash_nonempty h hash : BlockHeaderHash h = Ok hash -> hash <> [].
Proof. unfold BlockHeaderHash. intros E ->. apply bind_Ok_inv in E as (bs & _ & E). apply Ok_inj in E. apply (f_equal length) in E. by rewrite sha256_length in E. Qed.

Lemma extends header ledger block h hash : at_tip header ledger -> (Height ledger < u64_max)%N -> b_Header block = Some h ->
  u64 (bh_Number header + 1) = bh_Number h -> BlockHeaderHash header = Ok hash -> bh_PreviousHash h = hash ->
  Append ledger block = Ok (ledger ++ [block]) /\ at_tip h (ledger ++ [block]).
Proof.
  intros (Hc & b & Hlast & Hb) Hlt Hh Hnum Hhash Hprev. assert (bh_Number header = N.of_nat (length ledger - 1) /\ 0 < length ledger) as [Hn Hpos].
  { rewrite last_lookup in Hlast. pose proof (lookup_lt_Some _ _ _ Hlast). destruct (co_number _ Hc _ _ Hlast) as (h' & Hb' & Hn). rewrite Hb in Hb'. injection Hb' as <-. rewrite Hn. split; [f_equal; lia|lia]. }
  unfold Height in Hlt. assert (Append ledger block = Ok (ledger ++ [block])) as Happ.
  { unfold Append, addBlock. rewrite Hh. cbn [deref mbind outcome_bind]. rewrite <-Hnum, Hn. rewrite u64_small by lia. unfold Height.
    replace (N.of_nat (length ledger - 1) + 1)%N with (N.of_nat (length ledger)) by lia. rewrite N.eqb_refl. cbn [negb guard_err].
    unfold CurrentBlockHash. rewrite Hlast, Hb. cbn [deref mbind outcome_bind]. rewrite Hhash. cbn [mbind outcome_bind]. rewrite bool_decide_eq_false_2 by (intros E; by apply E). done. }
  split; [done|]. split; [by eapply Append_chain|]. exists block. by rewrite last_snoc.
Qed.

Lemma BVA_VerifyBlock_inv a block a' : BVA_VerifyBlock a block = Ok a' ->
  exists h hash, b_Header block = Some h /\ u64 (bh_Number (bva_lastBlockHeader a) + 1) = bh_Number h /\ (bva_lastBlockHeaderHash a <> [] -> bh_PreviousHash h = bva_lastBlockHeaderHash a) /\
    BlockHeaderHash h = Ok hash /\ a' = with_last h hash a /\ VerifyTransactionsAreWellFormed (b_Data block) = Ok tt /\ bh_DataHash h = ComputeBlockDataHash (default [] (b_Data block)) /\
    exists md, b_Metadata block = Some md /\ bva_sigVerifierFunc a h md = Ok tt.
Proof.
  unfold BVA_VerifyBlock, verifyHeader, verifyMetadata, BlockDataHash. intros E. apply bind_Ok_inv in E as (h & Eh & E).
  apply bind_Ok_inv in Eh as (h' & Eh'%of_option_Ok & Eh). apply guard_err_Ok in Eh as [Hnum%negb_false_iff%N.eqb_eq Eh]. apply guard_err_Ok in Eh as [Hprev Eh]. apply Ok_inj in Eh as ->.
  apply bind_Ok_inv in E as (md & Emd & E). apply bind_Ok_inv in Emd as (md' & Emd'%of_option_Ok & Emd). apply guard_err_Ok in Emd as [_ Emd]. apply Ok_inj in Emd as ->.
  apply bind_Ok_inv in E as (dh & Edh%wrap_err_Ok & E). apply bind_Ok_inv in Edh as ([] & Ewf & Edh). apply Ok_inj in Edh as <-.
  apply guard_err_Ok in E as [Hdh%bool_decide_eq_false%dec_stable E]. apply bind_Ok_inv in E as ([] & Esig & E). apply bind_Ok_inv in E as (hash & Ehash & E). apply Ok_inj in E as <-.
  exists h, hash. repeat (split; [done|]). split; [|by eauto 10].
  intros Hne. apply andb_false_iff in Hprev as [Hz%negb_false_iff%bool_decide_eq_true|Hp%bool_decide_eq_false%dec_stable]; [|done]. by apply nil_length_inv in Hz.
Qed.

Fixpoint append_all (ledger : list Block) (blocks : list Block) : outcome (list Block) :=
  match blocks with [] => Ok ledger | b :: rest => l ← Append ledger b; append_all l rest end.

Lemma UpdateConfig_inv a block a' : BVA_UpdateConfig a block = Ok a' -> exists cfg v h hash, config_of_block block = Ok cfg /\ cfg.1 = bva_channelID a /\ VerifierFromConfig cfg.2 cfg.1 = Ok v /\
  b_Header block = Some h /\ BlockHeaderHash h = Ok hash /\ a' = mkBVA (bva_channelID a) v (Some h) h hash.
Proof.
  unfold BVA_UpdateConfig. intros E. apply bind_Ok_inv in E as (cfg & Ec & E). apply guard_err_Ok in E as [Hch%bool_decide_eq_false%dec_stable E]. apply bind_Ok_inv in E as (v & Ev%wrap_err_Ok & E).
  apply bind_Ok_inv in E as (h & Eh & E). apply bind_Ok_inv in E as (hash & Ehash & E). apply Ok_inj in E as <-. destruct (b_Header block); [|done]. apply Ok_inj in Eh as ->. eauto 20.
Qed.

(** ** Verifiers that follow a chain *)
(** What a verifier keeps of the chain: the last header, and whatever it needs to know of it. *)
Class ChainVerifier (V : Type) `{BlockVerifier V} := {
  tip : V -> BlockHeader;
  tip_ok : V -> Prop;
  verify_links : forall v b v', tip_ok v -> VerifyBlock v b = Ok v' ->
    exists h, b_Header b = Some h /\ u64 (bh_Number (tip v) + 1) = bh_Number h /\ BlockHeaderHash (tip v) = Ok (bh_PreviousHash h) /\ tip v' = h /\ tip_ok v';
  update_config_tip : forall v b v' h, UpdateConfig v b = Ok v' -> b_Header b = Some h -> tip v' = h /\ tip_ok v';
  update_header_tip : forall v b v' h, tip_ok v -> UpdateBlockHeader v b = Ok v' -> b_Header b = Some h -> tip v' = h /\ tip_ok v'
}.

#[export] Instance assembler_chain : ChainVerifier BlockVerificationAssistant.
Proof.
  refine {| tip a := bva_lastBlockHeader a; tip_ok a := BlockHeaderHash (bva_lastBlockHeader a) = Ok (bva_lastBlockHeaderHash a) |}.
  - intros a b a' Hok (h & hash & Hh & Hnum & Hprev & Hhash & -> & _)%BVA_VerifyBlock_inv. exists h. cbn. repeat (split; [done|]). split; [|done]. rewrite Hprev; [done|]. by eapply header_hash_nonempty.
  - intros a b a' h (cfg & v & h' & hash & _ & _ & _ & Hh' & Hhash & ->)%UpdateConfig_inv Hh. cbn. rewrite Hh in Hh'. by injection Hh' as <-.
  - intros a b a' h _ E Hh. cbn in E. unfold BVA_UpdateBlockHeader in E. rewrite Hh in E. cbn in E. apply bind_Ok_inv in E as (hash & Ehash & E). by apply Ok_inj in E as <-.
Defined.

Lemma CBV_VerifyBlock_inv c b c' : CBV_VerifyBlock c b = Ok c' ->
  exists h data, b_Header b = Some h /\ u64 (bh_Number (cbv_lastBlockHeader c) + 1) = bh_Number h /\ BlockHeaderHash (cbv_lastBlockHeader c) = Ok (bh_PreviousHash h) /\
    b_Data b = Some data /\ data <> [] /\ bh_DataHash h = ComputeBlockDataHash data /\ BlockSigVerifier_Verify (cbv_sigVerifier c) b true = Ok tt /\ c' = mkCBV (cbv_channelID c) h (cbv_sigVerifier c).
Proof.
  unfold CBV_VerifyBlock, CBV_verifyHeader. intros E. apply bind_Ok_inv in E as (h & Eh & E). apply bind_Ok_inv in Eh as (h' & Eh'%of_option_Ok & Eh).
  apply guard_err_Ok in Eh as [Hnum%negb_false_iff%N.eqb_eq Eh]. apply bind_Ok_inv in Eh as (hash & Ehash & Eh). apply guard_err_Ok in Eh as [Hprev%bool_decide_eq_false%dec_stable Eh]. apply Ok_inj in Eh as ->.
  apply bind_Ok_inv in E as (md & _ & E). apply bind_Ok_inv in E as (data & Ed%of_option_Ok & E). apply guard_err_Ok in E as [Hne%bool_decide_eq_false E]. apply guard_err_Ok in E as [Hdh%bool_decide_eq_false%dec_stable E].
  apply bind_Ok_inv in E as ([] & Ev%wrap_err_Ok & E). apply Ok_inj in E as <-. exists h, data. rewrite Hprev. repeat (split; [done|]). split; [by intros ->|]. done.
Qed.

#[export] Instance consenter_chain : ChainVerifier ConsenterBlockVerifier.
Proof.
  refine {| tip c := cbv_lastBlockHeader c; tip_ok _ := True |}.
  - intros c b c' _ (h & data & Hh & Hnum & Hhash & _ & _ & _ & _ & ->)%CBV_VerifyBlock_inv. by exists h.
  - intros c b c' h E Hh. cbn in E. unfold CBV_UpdateConfig in E. apply bind_Ok_inv in E as (? & _ & E). apply bind_Ok_inv in E as (? & _ & E). apply guard_err_Ok in E as [_ E].
    apply bind_Ok_inv in E as (? & _ & E). apply bind_Ok_inv in E as (? & _ & E). apply bind_Ok_inv in E as (? & _ & E). rewrite Hh in E. cbn in E. by apply Ok_inj in E as <-.
  - intros c b c' h _ E Hh. cbn in E. unfold CBV_UpdateBlockHeader in E. cbn in E. rewrite Hh in E. by apply Ok_inj in E as <-.
Defined.

Section Generic.
Context `{ChainVerifier V}.
Definition tracks (v : V) (ledger : list Block) : Prop := at_tip (tip v) ledger /\ tip_ok v.

Fixpoint receive_blocks (v : V) (blocks : list Block) : outcome V :=
  match blocks with [] => Ok v | b :: rest => v ← receive_block v (Ok tt) b; receive_blocks v rest end.

Lemma receive_block_tracks v v' b ledger : tracks v ledger -> (Height ledger < u64_max)%N -> receive_block v (Ok tt) b = Ok v' ->
  Append ledger b = Ok (ledger ++ [b]) /\ tracks v' (ledger ++ [b]).
Proof.
  intros [Ht Hok] Hlt E. unfold receive_block in E. apply bind_Ok_inv in E as (h & Eh & E). destruct (b_Header b) as [h'|] eqn:Hh; [|done]. apply Ok_inj in Eh as ->.
  apply bind_Ok_inv in E as (v1 & Ev%wrap_err_Ok & E). destruct (verify_links _ _ _ Hok Ev) as (h1 & Hh1 & Hnum & Hhash & Htip & Hok1). rewrite Hh in Hh1. injection Hh1 as <-.
  destruct (extends _ _ b h _ Ht Hlt Hh Hnum Hhash eq_refl) as [Happ Htip']. split; [done|].
  cbn [wrap_err mbind outcome_bind] in E. apply bind_Ok_inv in E as (v2 & Ev2 & E). assert (tip_ok v2) as Hok2.
  { destruct (ops_IsConfigBlock b); [|by apply Ok_inj in Ev2 as <-]. apply bind_Ok_inv in Ev2 as (? & _ & Ev2%wrap_err_Ok). by eapply update_config_tip. }
  destruct (update_header_tip _ _ _ _ Hok2 E Hh) as [E1 E2]. split; [by rewrite E1|done].
Qed.

Lemma receive_blocks_tracks blocks : forall v v' ledger, tracks v ledger -> (Height ledger + N.of_nat (length blocks) < u64_max)%N -> receive_blocks v blocks = Ok v' ->
  append_all ledger blocks = Ok (ledger ++ blocks) /\ tracks v' (ledger ++ blocks).
Proof.
  induction blocks as [|b blocks IH]; intros v v' ledger Ht Hlt E; cbn [receive_blocks append_all] in *; [apply Ok_inj in E as ->; by rewrite app_nil_r|].
  apply bind_Ok_inv in E as (v1 & Ev1 & E). cbn [length] in Hlt. destruct (receive_block_tracks _ _ _ _ Ht ltac:(lia) Ev1) as [Happ Ht1]. rewrite Happ. cbn [mbind outcome_bind].
  destruct (IH v1 v' (ledger ++ [b]) Ht1) as [Ha Hb]; [unfold Height in *; rewrite length_app; cbn; lia|done|]. by rewrite <-app_assoc in *.
Qed.
End Generic.

(** C23: Whatever another node delivers, the blocks that pass the verifier extend the ledger. A verifier of assembler blocks or of consenter blocks that was created for the last block of a ledger, and then received any
    blocks in a row without an error, config blocks among them, has accepted blocks that the ledger accepts one after the other: their numbers follow, and each has the hash of
    the header before it; and the verifier stands at the last of them. *)
Theorem verified_blocks_extend_ledger ledger configBlock lastBlock blocks : chain_ok ledger -> last ledger = Some lastBlock -> (Height ledger + N.of_nat (length blocks) < u64_max)%N ->
  (forall a a', NewBlockVerificationAssistant configBlock (Some lastBlock) = Ok a -> receive_blocks a blocks = Ok a' ->
     append_all ledger blocks = Ok (ledger ++ blocks) /\ chain_ok (ledger ++ blocks) /\ exists b, last (ledger ++ blocks) = Some b /\ b_Header b = Some (bva_lastBlockHeader a')) /\
  (forall c c', CreateBlockVerifier configBlock (Some lastBlock) = Ok c -> receive_blocks c blocks = Ok c' ->
     append_all ledger blocks = Ok (ledger ++ blocks) /\ chain_ok (ledger ++ blocks) /\ exists b, last (ledger ++ blocks) = Some b /\ b_Header b = Some (cbv_lastBlockHeader c')).
Proof.
  intros Hc Hlast Hlt. split.
  - intros a a' Ea E. assert (tracks a ledger) as Ht.
    { unfold NewBlockVerificationAssistant in Ea. peel Ea. cbn [of_option mbind outcome_bind] in Ea. peel Ea. apply Ok_inj in Ea as <-.
      match goal with Hh : of_option _ (b_Header lastBlock) = Ok _ |- _ => apply of_option_Ok in Hh; split; [split; [done|]; exists lastBlock; split; [done|exact Hh]|done] end. }
    destruct (receive_blocks_tracks _ _ _ _ Ht Hlt E) as [Ha [[? ?] _]]. done.
  - intros c c' Ec E. assert (tracks c ledger) as Ht.
    { unfold CreateBlockVerifier in Ec. peel Ec. cbn [of_option mbind outcome_bind] in Ec. peel Ec. apply Ok_inj in Ec as <-.
      match goal with Hh : of_option _ (b_Header lastBlock) = Ok _ |- _ => apply of_option_Ok in Hh; split; [split; [done|]; exists lastBlock; split; [done|exact Hh]|done] end. }
    destruct (receive_blocks_tracks _ _ _ _ Ht Hlt E) as [Ha [[? ?] _]]. done.
Qed.
End Chain.

(** ** What is signed of an accepted consenter block *)
Section Signatures.
Context `{FabricCodecs} `{BlockCodecs} `{StateCodecs} `{BFTCodecs} `{Sha256} `{ChannelConfigs}.

(** A signature by a consenter of the configuration over a message with the bytes of a header, and with the consenter's number. *)
Definition over_header (v : BlockSigVerifier) (hb : bytes) (sd : SignedData) : Prop :=
  exists raw msg ident c, sd_Data sd = Some raw /\ dec raw = Some msg /\ mts_BlockHeader msg = hb /\ dec (mts_IdentifierHeader msg) = Some ident /\
    c ∈ bsv_Consenters v /\ co_Id c = ih_Identifier ident /\ co_Identity c = sd_Identity sd.

Lemma message_signer_Ok v msg id identity : message_signer v msg id = Ok identity ->
  exists ident c, dec (mts_IdentifierHeader msg) = Some ident /\ ih_Identifier ident = id /\ c ∈ bsv_Consenters v /\ co_Id c = id /\ co_Identity c = identity.
Proof.
  unfold message_signer, unmarshal. intros E. apply bind_Ok_inv in E as (ident & Ei%wrap_err_Ok%of_option_Ok & E). apply guard_err_Ok in E as [Hid%negb_false_iff%N.eqb_eq E]. apply of_option_Ok in E.
  unfold searchConsenterIdentityByID in E. apply fmap_Some in E as (c & Ec & ->). apply List.find_some in Ec as [Hin%list_elem_of_In Hc%N.eqb_eq]. exists ident, c. by rewrite <-Hid.
Qed.

Lemma signed_data_Ok v msg id identifier hb md raw value identity sd : message_signer v msg id = Ok identity -> identifier = mts_IdentifierHeader msg ->
  signed_data identifier hb md raw value identity = Ok sd -> over_header v hb sd.
Proof.
  intros Hs -> E. destruct (message_signer_Ok _ _ _ _ Hs) as (ident & c & Hi & Hid & Hc & Hcid & Hci). unfold signed_data in E. apply bind_Ok_inv in E as (computed & Ec & E). apply guard_err_Ok in E as [_ E]. apply Ok_inj in E as <-.
  exists computed, (mkMessageToSign (mts_IdentifierHeader msg) hb md), ident, c. cbn. split; [done|]. split; [by apply dec_enc, marshal_or_panic_Ok|]. rewrite Hid. done.
Qed.

Lemma collectBlocks_Forall2 v id : forall msgs values headers metadata l, collectBlocksSignatures v id msgs values headers metadata = Ok l -> Forall2 (over_header v) headers l.
Proof.
  induction msgs as [|msg msgs IH]; intros values headers metadata l E; destruct values, headers, metadata; try discriminate E; [apply Ok_inj in E as <-; constructor|]. cbn [collectBlocksSignatures] in E.
  apply bind_Ok_inv in E as (m & _ & E). apply bind_Ok_inv in E as (identity & Es & E). apply bind_Ok_inv in E as (sd & Esd & E). apply bind_Ok_inv in E as (rest & Er & E). apply Ok_inj in E as <-.
  constructor; [by eapply signed_data_Ok|by eapply IH].
Qed.

Lemma collect_signature_Ok v hb md headers metadata sig o l : collect_signature v true hb md headers metadata sig = Ok (Some (o, l)) ->
  (forall sd, o = Some sd -> over_header v hb sd) /\ Forall2 (over_header v) headers l.
Proof.
  unfold collect_signature. intros E. destruct (unmarshal (slice_bytes (sig_Value sig))) as [[|value values]| |]; try done. destruct (unmarshal (slice_bytes (sig_Msg sig))) as [[|msg msgs]| |]; try done.
  destruct (negb _); [done|]. destruct (true && _); [done|]. destruct (unmarshal msg) as [m| |]; try done. destruct (message_signer v m (sig_ID sig)) as [identity| |] eqn:Es; try done.
  destruct (collectBlocksSignatures _ _ _ _ _ _) as [bs| |] eqn:Ec; try done. apply collectBlocks_Forall2 in Ec.
  destruct (signed_data _ _ _ _ _ _) as [sd| |] eqn:Esd; try done; injection E as <- <-; (split; [|done]); [|done]. intros sd' [= <-]. by eapply signed_data_Ok.
Qed.

Lemma block_messages_lookup : forall blocks n hs mds, block_messages n blocks = Ok (hs, mds) -> length hs = length blocks /\
  forall i b, blocks !! i = Some b -> exists h hb, b_Header b = Some h /\ BlockHeaderBytes h = Ok hb /\ hs !! i = Some hb.
Proof.
  induction blocks as [|b blocks IH]; intros n hs mds E; cbn [block_messages] in E; [apply Ok_inj in E; injection E as <- <-; split; [done|intros i b Hi; by rewrite lookup_nil in Hi]|].
  apply bind_Ok_inv in E as (h & Eh%of_option_Ok & E). apply bind_Ok_inv in E as (hb & Ehb & E). apply bind_Ok_inv in E as (md & _ & E). apply guard_err_Ok in E as [_ E]. apply bind_Ok_inv in E as (cm & _ & E).
  apply bind_Ok_inv in E as (obm & _ & E). apply bind_Ok_inv in E as ([hs' mds'] & Er & E). apply Ok_inj in E. injection E as <- <-. destruct (IH _ _ _ Er) as [Hl Hi]. split; [cbn; by rewrite Hl|].
  intros [|i] b' Hb; cbn in *; [injection Hb as <-; eauto|by apply Hi].
Qed.

Lemma evaluate_sets_Ok policy sets : forall n i, evaluate_sets policy sets n i = Ok tt -> forall j, j < n -> policy (omap (fun s => s !! (i + j)) sets) = Ok tt.
Proof.
  induction n as [|n IH]; intros i E j Hj; [lia|]. cbn [evaluate_sets] in E. apply bind_Ok_inv in E as ([] & Ep%wrap_err_Ok & E). destruct j as [|j]; [by rewrite Nat.add_0_r|]. specialize (IH (S i) E j ltac:(lia)). by rewrite Nat.add_succ_r.
Qed.

(** The configuration's policy accepts signatures by its consenters over the header. *)
Definition policy_signed (v : BlockSigVerifier) (h : BlockHeader) : Prop :=
  exists hb set, BlockHeaderBytes h = Ok hb /\ bsv_Policy v set = Ok tt /\ Forall (over_header v hb) set.

Lemma Verify_sound v b h : BlockSigVerifier_Verify v b true = Ok tt -> b_Header b = Some h ->
  exists data pb p hdr, b_Data b = Some data /\ data !! 0 = Some pb /\ BytesToProposal pb = Ok p /\ Header_Deserialize (p_Header p) = Ok hdr /\ policy_signed v h /\
    forall i blk, h_AvailableCommonBlocks hdr !! i = Some blk -> exists hblk, b_Header blk = Some hblk /\ policy_signed v hblk.
Proof.
  unfold BlockSigVerifier_Verify. intros E Hh. apply bind_Ok_inv in E as (h' & Eh'%of_option_Ok & E). rewrite Hh in Eh'. injection Eh' as <-. apply bind_Ok_inv in E as (md & _ & E). do 2 apply guard_err_Ok in E as [? E].
  apply bind_Ok_inv in E as (sb & _ & E). apply bind_Ok_inv in E as (sigs & _ & E). apply bind_Ok_inv in E as (hb & Ehb & E). apply bind_Ok_inv in E as (pm & _ & E). apply bind_Ok_inv in E as (lci & _ & E). apply bind_Ok_inv in E as (pom & _ & E).
  apply bind_Ok_inv in E as (blocks & Eblocks & E). apply bind_Ok_inv in Eblocks as (pb & Epb%index_Ok & Eblocks). apply bind_Ok_inv in Eblocks as (p & Ep%wrap_err_Ok & Eblocks). apply bind_Ok_inv in Eblocks as (hdr & Ehdr%wrap_err_Ok & Eblocks). apply Ok_inj in Eblocks as <-.
  apply bind_Ok_inv in E as ([hs mds] & Ebm & E). apply bind_Ok_inv in E as (collected & Ecol & E). apply bind_Ok_inv in E as ([] & Epol%wrap_err_Ok & E). cbn [fst snd] in *.
  apply omapM_Ok in Ecol. assert (forall o l, Some (o, l) ∈ collected -> (forall sd, o = Some sd -> over_header v hb sd) /\ Forall2 (over_header v) hs l) as Hcol.
  { intros o l [k Hk]%list_elem_of_lookup_1. destruct (Forall2_lookup_r _ _ _ _ _ Ecol Hk) as (sig & _ & Hsig). by eapply collect_signature_Ok. }
  destruct (b_Data b) as [data|]; [|by cbn in Epb]. exists data, pb, p, hdr. repeat (split; [done|]). split.
  - exists hb, (omap (fun c : option (option SignedData * list SignedData) => c ≫= fst) collected). split; [done|]. split; [done|]. apply Forall_forall. intros sd Hsd. apply list_elem_of_omap in Hsd as ([[o l]|] & Hin & Ho); [|done].
    by apply (Hcol o l Hin).
  - intros i blk Hi. destruct (block_messages_lookup _ _ _ _ Ebm) as [Hlen Hbm]. destruct (Hbm i blk Hi) as (hblk & hbb & Hhb & Hhbb & Hhs). exists hblk. split; [done|].
    pose proof (evaluate_sets_Ok _ _ _ _ E i ltac:(by eapply lookup_lt_Some)) as Hp. cbn [Nat.add] in Hp. eexists hbb, _. split; [done|]. split; [exact Hp|].
    apply Forall_forall. intros sd Hsd. apply list_elem_of_omap in Hsd as (l & Hl & Hsd). apply list_elem_of_omap in Hl as ([[o l']|] & Hin & Ho); [|done]. cbn in Ho. injection Ho as ->.
    destruct (Hcol o l Hin) as [_ Hf]. destruct (Forall2_lookup_l _ _ _ _ _ Hf Hhs) as (sd' & Hsd' & Hov). rewrite Hsd in Hsd'. by injection Hsd' as <-.
Qed.

(** C24: What a consenter that synchronizes accepts was signed. If the verifier of consenter blocks accepts a block, then the block has the next number, the hash of the last header and the hash of its own data, the data has a decision, and
    the block validation policy of the last configuration is satisfied both for the block and for every block that the decision orders, in each case by signatures of consenters of that configuration over messages with the very header, each
    with the number of its signer in it. *)
Theorem accepted_consenter_block_signed (c c' : ConsenterBlockVerifier) b : VerifyBlock c b = Ok c' ->
  exists h data pb p hdr, b_Header b = Some h /\ b_Data b = Some data /\ bh_DataHash h = ComputeBlockDataHash data /\ bh_Number h = u64 (bh_Number (cbv_lastBlockHeader c) + 1) /\ BlockHeaderHash (cbv_lastBlockHeader c) = Ok (bh_PreviousHash h) /\
    data !! 0 = Some pb /\ BytesToProposal pb = Ok p /\ Header_Deserialize (p_Header p) = Ok hdr /\ policy_signed (cbv_sigVerifier c) h /\
    forall i blk, h_AvailableCommonBlocks hdr !! i = Some blk -> exists hblk, b_Header blk = Some hblk /\ policy_signed (cbv_sigVerifier c) hblk.
Proof.
  intros (h & data & Hh & Hnum & Hhash & Hd & _ & Hdh & Hv & ->)%CBV_VerifyBlock_inv. destruct (Verify_sound _ _ _ Hv Hh) as (data' & pb & p & hdr & Hd' & Hpb & Hp & Hhdr & Hsig & Hblk).
  rewrite Hd in Hd'. injection Hd' as <-. exists h, data, pb, p, hdr. rewrite Hnum. repeat (split; [done|]). done.
Qed.
End Signatures.

(** ** Requests that the verifier of assembler blocks does not cope with *)
Section Requests.
Context `{RequestCodecs} `{BlockCodecs} `{StateCodecs} `{BFTCodecs} `{Sha256} `{ChannelConfigs}.

(** The transaction of a well-formed request has the type of the request. *)
Lemma HasConfigTx_typed config payload signature raw t : enc (mkEnvelope payload signature) = Some raw -> well_formed config payload signature t -> t <> HeaderType_CONFIG -> HasConfigTx [raw] = false.
Proof.
  intros Henc [_ (rawS & rawC & shdr & chdr & identity & Eh & _ & Ec & _ & _ & _ & Et & _)] Hne. unfold HasConfigTx, unmarshal. rewrite (dec_enc _ _ Henc). cbn [of_option env_Payload].
  destruct (dec payload) as [p|] eqn:Hdec; cbn [of_option]; [|done]. destruct (headers_of_payload _ _ Hdec) as (h & Eh' & Ep). rewrite Eh in Eh'. injection Eh' as <-. cbn in Ep.
  change (default [] (Some rawC)) with rawC in Ep. rewrite <-Ep, Ec. cbn [of_option]. rewrite Et. by apply bool_decide_eq_false.
Qed.

(** An unsigned request passes the router and the batchers, but no block with it passes the verification. If client signatures are not required, a request with an empty signature
    that a router accepts is accepted by the batchers of its shard too; but whatever the verifier of assembler blocks has seen before, it refuses every block that contains the
    request's transaction, since such a block is not well-formed without a signature. *)
Theorem unsigned_request_unverifiable config r req payload raw t : rq_Payload req = Some payload -> payload <> [] -> rq_Signature req = [] -> (N.of_nat (length payload) <= u64_max)%N ->
  raw_request req = Ok raw -> riv_requestVerifier r = createVerifier config -> VerifyRequestShard r req = Ok tt ->
  verifyAndClassifyRequest (createVerifier config) req = Ok t ->
  Inspector_VerifyRequest r raw = Ok tt /\
  forall a block data, b_Data block = Some data -> raw ∈ data -> is_ok (BVA_VerifyBlock a block) = false.
Proof.
  intros Hp Hne Hs Hlen Hraw Hv Hsh E. assert (enc (mkEnvelope payload []) = Some raw) as Henc.
  { unfold raw_request in Hraw. rewrite Hp, Hs in Hraw. change (slice_bytes (Some payload)) with payload in Hraw. destruct (enc _); [by apply Ok_inj in Hraw as ->|done]. }
  apply (router_accepts config req payload t Hp) in E as [Hwf Hsup]; [|rewrite Hs; cbn; by rewrite Nat.add_0_r]. rewrite Hs in Hwf. split.
  - apply (batcher_accepts config r raw payload [] Hv Hne); [cbn; by rewrite Nat.add_0_r|done|]. split; [|by eauto]. unfold VerifyRequestShard in *. by rewrite Hp in Hsh.
  - intros a block data Hd Hin. destruct (BVA_VerifyBlock a block) as [a'| |] eqn:Ev; [|done..]. apply BVA_VerifyBlock_inv in Ev as (h & hash & _ & _ & _ & _ & _ & Hwt & _). rewrite Hd in Hwt. exfalso.
    assert (well_formed_tx raw = false) as Htx. { unfold well_formed_tx, unmarshal. rewrite (dec_enc _ _ Henc). cbn. by rewrite andb_false_r. }
    assert (HasConfigTx data = false) as Hc.
    { destruct data as [|x [|y rest]]; [done| |done]. apply list_elem_of_singleton in Hin as <-. eapply HasConfigTx_typed; [done..|]. intros ->. done. }
    unfold VerifyTransactionsAreWellFormed in Hwt. rewrite Hc in Hwt. destruct data as [|x rest]; [done|]. destruct (forallb well_formed_tx (x :: rest)) eqn:Hall; [|done].
    apply List.forallb_forall with (x := raw) in Hall; [by rewrite Htx in Hall|by apply list_elem_of_In].
Qed.

(** A request of type CONFIG, which routers refuse but batchers attest, takes over the verifier. Let it have the channel of the verifier and any configuration as its data. If a primary puts it in a
    batch, alone, the batchers of the shard accept the batch whatever their mempools hold; and when the receiver of blocks gets a correctly signed data block with it, it takes the block for a config block and installs
    the signature verification of the configuration in the request, which the orderers never agreed on. *)
Theorem forged_config_takes_over config r (pool : Pool) payload p signature raw a a1 block configEnv v : inspector_ok config r -> payload <> [] -> (N.of_nat (length payload + length signature) <= u64_max)%N ->
  enc (mkEnvelope payload signature) = Some raw -> dec payload = Some p -> VerifyRequestShard r (mkRequest (Some payload) signature None 0) = Ok tt ->
  well_formed config payload signature HeaderType_CONFIG -> (1 <= riv_batchMaxSize r)%N -> (N.of_nat (length raw) <= riv_batchMaxBytes r)%N ->
  header_channel (default [] (pl_Header p)) = bva_channelID a -> dec (A := ConfigEnvelope) (pl_Data p) = Some configEnv -> VerifierFromConfig (pl_Data p) (bva_channelID a) = Ok v ->
  b_Data block = Some [raw] -> BVA_VerifyBlock a block = Ok a1 ->
  (forall trace seq, is_ok (verifyAndClassifyRequest (createVerifier config) (mkRequest (Some payload) signature trace seq)) = false) /\
  VerifyBatchedRequests_ DefaultRequestID r pool [raw] = Ok [DefaultRequestID raw] /\
  exists a', receive_block a (Ok tt) block = Ok a' /\ bva_sigVerifierFunc a' = v.
Proof.
  intros Hok Hne Hlen Henc Hdec Hsh Hwf Hsize Hbytes Hch Hcfg Hver Hd Ev. destruct (config_request_attested config r pool payload p signature raw) as (Hr & Hb & Hc); [done..|]. split; [done|]. split; [done|].
  destruct Hwf as [_ (rawS & rawC & shdr & chdr & identity & Eh & _ & Ec & _ & _ & _ & Et & _)]. destruct (headers_of_payload _ _ Hdec) as (h & Eh' & Ep).
  rewrite Eh in Eh'. injection Eh' as <-. cbn in Ep. change (default [] (Some rawC)) with rawC in Ep. symmetry in Ep. rewrite Ep in Hch. cbn in Hch.
  pose proof (BVA_VerifyBlock_inv _ _ _ Ev) as (bh & hash & Hbh & _ & _ & Hhash & -> & _). destruct block as [h' d' md']. cbn in Hbh, Hd. subst h' d'.
  assert (Common_ConfigFromBlock (Some (mkBlock (Some bh) (Some [raw]) md')) = Ok configEnv) as Hcf.
  { unfold Common_ConfigFromBlock, unmarshal. rewrite (dec_enc _ _ Henc). cbn [of_option mbind outcome_bind env_Payload]. rewrite Hdec. cbn [of_option mbind outcome_bind]. rewrite Hcfg, Ep. cbn [of_option mbind outcome_bind wrap_err].
    rewrite Ec. cbn [of_option mbind outcome_bind]. rewrite Et, bool_decide_eq_false_2 by tauto. cbn. by destruct (bh_Number bh =? 0)%N. }
  assert (config_of_block (mkBlock (Some bh) (Some [raw]) md') = Ok (bva_channelID a, pl_Data p)) as Hco.
  { unfold config_of_block, ExtractEnvelope, unmarshal. cbn. rewrite (dec_enc _ _ Henc). cbn. rewrite Hdec. cbn. rewrite Ep. cbn. rewrite Ec. cbn. rewrite Hcfg. cbn. by rewrite Hch. }
  assert (UpdateConfig (with_last bh hash a) (mkBlock (Some bh) (Some [raw]) md') = Ok (mkBVA (bva_channelID a) v (Some bh) bh hash)) as Hup.
  { cbn. unfold BVA_UpdateConfig. rewrite Hco. cbn [mbind outcome_bind fst snd with_last bva_channelID]. rewrite bool_decide_eq_false_2 by tauto. cbn [guard_err]. rewrite Hver. cbn [wrap_err mbind outcome_bind b_Header deref]. by rewrite Hhash. }
  unfold receive_block. cbn [b_Header deref mbind outcome_bind]. change (VerifyBlock a) with (BVA_VerifyBlock a). rewrite Ev. cbn [wrap_err mbind outcome_bind].
  change (ops_IsConfigBlock (mkBlock (Some bh) (Some [raw]) md')) with (IsConfigBlock (mkBlock (Some bh) (Some [raw]) md')). rewrite (Hc (Some bh) md').
  change (ops_ConfigFromBlock (mkBlock (Some bh) (Some [raw]) md')) with (Common_ConfigFromBlock (Some (mkBlock (Some bh) (Some [raw]) md'))). rewrite Hcf. cbn [wrap_err mbind outcome_bind]. rewrite Hup. cbn [wrap_err mbind outcome_bind].
  cbn. unfold BVA_UpdateBlockHeader. cbn [b_Header deref mbind outcome_bind]. rewrite Hhash. by eexists.
Qed.
End Requests.
