(* ===== verification/SyncThms.v ===== *)
(** * The blocks of decisions pass the synchronizer

    Which decisions, with the signatures that consenters accepted for them, a consenter that synchronizes accepts as blocks of others. *)
From stdpp Require Import gmap sets.
From Stdlib Require Import NArith ZArith Lia.
From S2P Require Import Prelude Types Events State StateFacts StateProps Round Badb Consenter Blocks Ledger StateCodec StateCodecFacts Consensus ConsensusFacts RoundThms ConsensusThms DecisionThms Assembler RequestFilter BlockVerify BlockVerifyThms.

Section Sync.
Context `{FabricCodecs} `{BlockCodecs} `{StateCodecs} `{BFTCodecs} `{Sha256} `{Environment} (v : BlockSigVerifier).

(** A signature under the identity of a consenter of the configuration. *)
Definition genuine (id : N) (sd : SignedData) : Prop :=
  exists raw, sd_Data sd = Some raw /\ searchConsenterIdentityByID v id = Some (sd_Identity sd) /\ verify_signature (NewConsenterIdentity (u16 id)) raw (sd_Signature sd) = Ok tt.
(** The block validation policy asks for the signatures of [q] different consenters. *)
Definition policy_quorum (q : nat) : Prop :=
  forall sds, Forall (fun sd => exists id, genuine id sd) sds -> NoDup (sd_Identity <$> sds) -> bsv_Policy v sds = Ok tt <-> q <= length sds.
Definition distinct_identities : Prop := forall id id' identity, searchConsenterIdentityByID v id = Some identity -> searchConsenterIdentityByID v id' = Some identity -> id = id'.

(** The compound signature has one entry for the proposal, and one for each of [n] blocks. *)
Definition entries (n : nat) (raw : slice) : bool := match (unmarshal (slice_bytes raw) : outcome (list bytes)) with Ok l => bool_decide (length l = S n) | _ => false end.
Definition exact (n : nat) (sig : Signature) : bool := entries n (sig_Value sig) && entries n (sig_Msg sig).

(** ** The messages over the blocks *)
Definition message_parts (lc : N) (b : Block) (hb obm : bytes) : Prop := forall idh, block_message idh b (last_config_of lc b) = marshal_or_panic (mkMessageToSign idh hb obm).

Lemma block_messages_parts lc : forall blocks, config_last blocks -> (forall i b, blocks !! i = Some b -> exists idh m, block_message idh b (last_config_of lc b) = Ok m) ->
  exists hs mds, block_messages lc blocks = Ok (hs, mds) /\ Forall3 (message_parts lc) blocks hs mds.
Proof.
  induction blocks as [|b blocks IH]; intros Hlast Hb; [exists [], []; split; [done|constructor]|].
  destruct (Hb 0 b eq_refl) as (idh & m & Hm). destruct (block_message_fields _ _ _ _ Hm) as (h & md & cm & hb & obm & Hh & Hmd & Hcm & Hhb & Hobm & _).
  destruct IH as (hs & mds & Ebm & Hp). { intros i b' Hi Hc. specialize (Hlast (S i) b' Hi Hc). cbn in Hlast. lia. } { intros i b' Hi. by apply (Hb (S i)). }
  assert (message_parts lc b hb obm) as Hpart. { intros idh'. unfold block_message, Prelude.index. rewrite Hh, Hmd. cbn [deref mbind outcome_bind]. rewrite Hhb. cbn [mbind outcome_bind]. rewrite Hcm. cbn [mbind outcome_bind]. rewrite Hobm. done. }
  exists (hb :: hs), (obm :: mds). split; [|by constructor]. cbn [block_messages]. rewrite Hh. cbn [of_option mbind outcome_bind]. rewrite Hhb. cbn [mbind outcome_bind]. rewrite Hmd. cbn [of_option mbind outcome_bind].
  rewrite bool_decide_eq_false_2 by (apply lookup_lt_Some in Hcm; lia). cbn [guard_err]. unfold Prelude.index. rewrite Hcm. cbn [mbind outcome_bind]. unfold last_config_of in Hobm. rewrite Hh in Hobm. cbn in Hobm. rewrite Hobm. cbn [mbind outcome_bind].
  destruct (IsConfigBlock b) eqn:Ec; [|by rewrite Ebm]. specialize (Hlast 0 b eq_refl Ec). destruct blocks; [|done]. inversion Hp; subst. done.
Qed.

Lemma message_signer_own msg id nonce identity : (unmarshal (mts_IdentifierHeader msg) : outcome IdentifierHeader) = Ok (mkIdentifierHeader id nonce) -> searchConsenterIdentityByID v id = Some identity -> message_signer v msg id = Ok identity.
Proof. intros Hi Hs. unfold message_signer. rewrite Hi. cbn [wrap_err mbind outcome_bind ih_Identifier]. rewrite N.eqb_refl. cbn [negb guard_err]. by rewrite Hs. Qed.

(** A message as it is computed is collected. *)
Lemma signed_own idh hb obm m value identity : marshal_or_panic (mkMessageToSign idh hb obm) = Ok m -> signed_data idh hb obm m value identity = Ok (mkSignedData (Some m) identity value).
Proof. intros Hm. unfold signed_data. rewrite Hm. cbn [mbind outcome_bind]. by rewrite bool_decide_eq_false_2 by tauto. Qed.

Lemma collectBlocks_own lc id identity : searchConsenterIdentityByID v id = Some identity -> forall blocks hs mds msgs values, Forall3 (message_parts lc) blocks hs mds -> length msgs = length blocks -> length values = length blocks ->
  (forall i b, blocks !! i = Some b -> exists idh m, block_message idh b (last_config_of lc b) = Ok m /\ signed_by id values msgs i idh m) ->
  exists l, collectBlocksSignatures v id msgs values hs mds = Ok l /\ length l = length blocks /\ Forall (genuine id) l.
Proof.
  intros Hid blocks. induction blocks as [|b blocks IH]; intros hs mds msgs values Hp Hlm Hlv Hs; inversion Hp as [|? hb obm ? hs' mds' Hpart Hp']; subst; destruct msgs as [|m msgs]; try done; destruct values as [|value values]; try done; [by exists []|].
  destruct (Hs 0 b eq_refl) as (idh & m' & Hm & (val & nonce & Hval & Hmm & Hver & Hidh)). cbn in Hval, Hmm. injection Hval as <-. injection Hmm as <-. rewrite Hpart in Hm. cbn [collectBlocksSignatures]. rewrite (unmarshal_marshal _ _ Hm). cbn [wrap_err mbind outcome_bind].
  rewrite (message_signer_own (mkMessageToSign idh hb obm) id nonce identity Hidh Hid). cbn [mbind outcome_bind mts_IdentifierHeader]. rewrite (signed_own _ _ _ _ _ _ Hm). cbn [mbind outcome_bind].
  destruct (IH hs' mds' msgs values Hp') as (l & -> & Hl & Hg); [by injection Hlm|by injection Hlv| |]. { intros i b' Hi. apply (Hs (S i) b' Hi). }
  eexists. split; [done|]. split; [cbn; by rewrite Hl|]. constructor; [|done]. by exists m.
Qed.

(** What an accepted signature adds to the sets: an entry to each of them if it is exact, else nothing. *)
Lemma collect_accepted `{DB : BatchAttestationDB D} (c : Consensus D) p hdr sig hb obm hs mds : VerifyConsenterSig c sig p = Ok tt -> Header_Deserialize (p_Header p) = Ok hdr -> is_Some (searchConsenterIdentityByID v (sig_ID sig)) ->
  (forall idh, proposal_message idh p (h_Num hdr) (if (h_Num hdr =? h_DecisionNumOfLastConfigBlock hdr)%N then h_Num hdr else c_decisionNumOfLastConfigBlock c) (h_PrevHash hdr) = marshal_or_panic (mkMessageToSign idh hb obm)) ->
  Forall3 (message_parts (c_lastConfigBlockNum c)) (h_AvailableCommonBlocks hdr) hs mds ->
  let n := length (h_AvailableCommonBlocks hdr) in
  exists o, collect_signature v true hb obm hs mds sig = Ok o /\
    if exact n sig then exists sd l, o = Some (Some sd, l) /\ genuine (sig_ID sig) sd /\ length l = n /\ Forall (genuine (sig_ID sig)) l else o = None.
Proof.
  intros (hdr' & rv & rm & values & msgs & Hrv & Hrm & Hvs & Hms & Hhdr' & (idh & m & Hm & value & nonce & Hval & Hmm & Hver & Hidh) & Hblocks & Hlv & Hlm)%VerifyConsenterSig_inv Hhdr [identity Hid] Hprop Hp n.
  rewrite Hhdr in Hhdr'. apply Ok_inj in Hhdr' as <-. unfold collect_signature, exact, entries. rewrite Hrv, Hrm. change (slice_bytes (Some rv)) with rv. change (slice_bytes (Some rm)) with rm. rewrite Hvs, Hms.
  destruct values as [|value' values]; [done|]. destruct msgs as [|m' msgs]; [done|]. cbn in Hval, Hmm. injection Hval as ->. injection Hmm as ->. cbn [length] in *.
  assert (length hs = n) as Hhs by (by pose proof (Forall3_length_lm _ _ _ _ Hp)).
  destruct (decide (length msgs = length values)) as [Heq|]; [|rewrite (bool_decide_eq_false_2 (length msgs = length values)) by done; exists None; split; [done|]; case_bool_decide; cbn; [|done]; case_bool_decide; [lia|done]].
  rewrite (bool_decide_eq_true_2 (length msgs = length values)) by done. cbn [negb andb].
  destruct (decide (length msgs = n)) as [Hn|]; [|rewrite (bool_decide_eq_false_2 (length msgs = length hs)) by lia; exists None; split; [done|]; rewrite (bool_decide_eq_false_2 (S (length values) = S n)) by lia; done].
  rewrite (bool_decide_eq_true_2 (length msgs = length hs)) by lia. cbn [negb]. rewrite !bool_decide_eq_true_2 by lia. cbn [andb]. rewrite Hprop in Hm. rewrite (unmarshal_marshal _ _ Hm).
  rewrite (message_signer_own (mkMessageToSign idh hb obm) _ nonce identity Hidh Hid). destruct (collectBlocks_own (c_lastConfigBlockNum c) _ _ Hid _ _ _ msgs values Hp Hn) as (l & -> & Hl & Hg); [lia| |].
  { intros i b Hi. destruct (Hblocks i b Hi) as (idh' & m' & Hm' & val & nonce' & Hv' & Hmm' & ?). rewrite Nat.add_1_r in Hv', Hmm'. exists idh', m'. split; [done|]. exists val, nonce'. done. }
  cbn [mts_IdentifierHeader]. rewrite (signed_own _ _ _ _ _ _ Hm). eexists. split; [done|]. eexists _, l. split; [done|]. split; [by exists m|done].
Qed.

(** A set has an entry for each exact signature. *)
Definition entry_of (n : nat) (get : option (option SignedData * list SignedData) -> option SignedData) (sig : Signature) (o : option (option SignedData * list SignedData)) : Prop :=
  if exact n sig then exists sd, get o = Some sd /\ genuine (sig_ID sig) sd else get o = None.

Lemma collected_from n get sigs collected sd : Forall2 (entry_of n get) sigs collected -> sd ∈ omap get collected -> exists sig, sig ∈ sigs /\ genuine (sig_ID sig) sd.
Proof.
  intros Hf (o & Ho & Hg)%list_elem_of_omap. apply list_elem_of_lookup_1 in Ho as [i Hi]. destruct (Forall2_lookup_r _ _ _ _ _ Hf Hi) as (sig & Hsig & Hc). exists sig. split; [by eapply list_elem_of_lookup_2|].
  unfold entry_of in Hc. destruct (exact n sig); [|congruence]. destruct Hc as (sd' & Hg' & ?). rewrite Hg in Hg'. by injection Hg' as <-.
Qed.

Lemma collected_set n get sigs collected : distinct_identities -> NoDup (sig_ID <$> sigs) -> Forall2 (entry_of n get) sigs collected ->
  NoDup (sd_Identity <$> omap get collected) /\ length (omap get collected) = length (filter (fun s => exact n s = true) sigs).
Proof.
  intros Hd Hnd Hf. induction Hf as [|sig o sigs collected Hc Hf IH]; [by split; [constructor|]|]. cbn in Hnd. apply NoDup_cons in Hnd as [Hfresh Hnd]. specialize (IH Hnd) as [IH1 IH2].
  rewrite filter_cons. unfold entry_of in Hc. cbn [omap list_omap]. destruct (exact n sig); [|rewrite Hc, decide_False by done; done].
  destruct Hc as (sd & -> & (_ & _ & Hs & _)). rewrite decide_True by done. split; [|cbn; by f_equal]. constructor; [|done].
  intros (sd' & Eid & Hsd')%list_elem_of_fmap. destruct (collected_from _ _ _ _ _ Hf Hsd') as (sig' & Hsig' & (_ & _ & Hs' & _)).
  rewrite Eid in Hs. apply Hfresh. rewrite (Hd _ _ _ Hs Hs'). by apply list_elem_of_fmap_2.
Qed.

Lemma set_policy n get sigs collected q : policy_quorum q -> distinct_identities -> NoDup (sig_ID <$> sigs) -> Forall2 (entry_of n get) sigs collected ->
  bsv_Policy v (omap get collected) = Ok tt <-> q <= length (filter (fun s => exact n s = true) sigs).
Proof.
  intros Hq Hd Hnd Hf. destruct (collected_set n get sigs collected Hd Hnd Hf) as [Hnd' Hlen]. rewrite (Hq _); [by rewrite Hlen| |done].
  apply Forall_forall. intros sd (sig & _ & ?)%(collected_from _ _ _ _ _ Hf). by exists (sig_ID sig).
Qed.

Lemma evaluate_sets_iff sets : forall n i, evaluate_sets (bsv_Policy v) sets n i = Ok tt <-> forall j, j < n -> bsv_Policy v (omap (fun s => s !! (i + j)) sets) = Ok tt.
Proof.
  intros n. induction n as [|n IH]; intros i; [split; [intros _ j Hj; lia|done]|]. split; [apply evaluate_sets_Ok|]. intros Hj. cbn [evaluate_sets]. pose proof (Hj 0 ltac:(lia)) as H0'. rewrite Nat.add_0_r in H0'. rewrite H0'. cbn [wrap_err mbind outcome_bind].
  apply IH. intros j Hlt. specialize (Hj (S j) ltac:(lia)). by rewrite Nat.add_succ_r in Hj.
Qed.

Lemma omap_omap_sets (collected : list (option (option SignedData * list SignedData))) (j : nat) :
  omap (fun s : list SignedData => s !! j) (omap (fun c : option (option SignedData * list SignedData) => snd <$> c) collected) = omap (fun c : option (option SignedData * list SignedData) => (snd <$> c) ≫= (.!! j)) collected.
Proof. induction collected as [|[[o l]|] collected IH]; cbn; [done| |done]. destruct (l !! j); by rewrite IH. Qed.

(** The header and metadata that the proposal's signatures are over are those of the block of the decision. *)
Lemma proposal_message_parts p num dlc ph idh m : proposal_message idh p num dlc ph = Ok m ->
  exists pb hb obm, ProposalToBytes p = Ok pb /\ BlockHeaderBytes (mkBlockHeader num ph (ComputeBlockDataHash [pb])) = Ok hb /\ orderer_metadata dlc (slice_bytes (p_Metadata p)) = Ok obm /\
    forall idh', proposal_message idh' p num dlc ph = marshal_or_panic (mkMessageToSign idh' hb obm).
Proof.
  intros (pb & hb & obm & Hpb & Hhb & Hobm & _)%proposal_message_fields. exists pb, hb, obm. repeat (split; [done|]). intros idh'. unfold proposal_message. rewrite Hpb. cbn [mbind outcome_bind]. rewrite Hhb. cbn [mbind outcome_bind]. by rewrite Hobm.
Qed.

Lemma collect_all `{DB : BatchAttestationDB D} (c : Consensus D) p hdr sigs hb obm hs mds : Forall (fun s => VerifyConsenterSig c s p = Ok tt /\ is_Some (searchConsenterIdentityByID v (sig_ID s))) sigs -> Header_Deserialize (p_Header p) = Ok hdr ->
  (forall idh, proposal_message idh p (h_Num hdr) (if (h_Num hdr =? h_DecisionNumOfLastConfigBlock hdr)%N then h_Num hdr else c_decisionNumOfLastConfigBlock c) (h_PrevHash hdr) = marshal_or_panic (mkMessageToSign idh hb obm)) ->
  Forall3 (message_parts (c_lastConfigBlockNum c)) (h_AvailableCommonBlocks hdr) hs mds ->
  let n := length (h_AvailableCommonBlocks hdr) in
  exists collected, omapM (collect_signature v true hb obm hs mds) sigs = Ok collected /\ Forall2 (entry_of n (fun c => c ≫= fst)) sigs collected /\
    forall j, j < n -> Forall2 (entry_of n (fun c : option (option SignedData * list SignedData) => (snd <$> c) ≫= (.!! j))) sigs collected.
Proof.
  intros Hacc Hhdr Hprop Hp n. induction Hacc as [|sig sigs [Hver Hid] Hacc IH]; [exists []; split; [done|split; [constructor|intros; constructor]]|].
  destruct IH as (collected & Ec & H1' & H2'). destruct (collect_accepted c p hdr sig hb obm hs mds Hver Hhdr Hid Hprop Hp) as (o & Eo & Ho). fold n in Ho.
  exists (o :: collected). cbn [omapM]. rewrite Eo. cbn [mbind outcome_bind]. rewrite Ec. split; [done|]. split; [|intros j Hj]; (constructor; [|auto]); unfold entry_of; destruct (exact n sig).
  - destruct Ho as (sd & l & -> & Hg & _). by exists sd.
  - by subst o.
  - destruct Ho as (sd & l & -> & _ & Hl & Hg). cbn. destruct (lookup_lt_is_Some_2 l j) as [sd' Hsd']; [lia|]. exists sd'. split; [done|]. by eapply Forall_lookup_1.
  - by subst o.
Qed.

Lemma signature_norm_accepted `{DB : BatchAttestationDB D} (c : Consensus D) p sig : VerifyConsenterSig c sig p = Ok tt -> signature_norm sig = sig.
Proof. intros (hdr & rv & rm & values & msgs & Hrv & Hrm & _)%VerifyConsenterSig_inv. destruct sig as [id val msg]. cbn in *. subst. done. Qed.

(** The check of the signatures of a decided block. *)
Lemma Verify_decided `{DB : BatchAttestationDB D} (c : Consensus D) p hdr sigs block q : (0 < h_Num hdr)%N -> Header_Deserialize (p_Header p) = Ok hdr -> config_last (h_AvailableCommonBlocks hdr) ->
  sigs <> [] -> Forall (fun s => VerifyConsenterSig c s p = Ok tt /\ is_Some (searchConsenterIdentityByID v (sig_ID s))) sigs -> NoDup (sig_ID <$> sigs) -> Forall (fun s => (sig_ID s <= u64_max)%N) sigs ->
  (h_Num hdr <> h_DecisionNumOfLastConfigBlock hdr -> c_decisionNumOfLastConfigBlock c = h_DecisionNumOfLastConfigBlock hdr) -> c_lastConfigBlockNum c = bsv_ConfigBlockNum v ->
  CreateBlockToAppendFromDecision (h_Num hdr) p sigs (h_PrevHash hdr) (h_DecisionNumOfLastConfigBlock hdr) = Ok block -> policy_quorum q -> distinct_identities ->
  BlockSigVerifier_Verify v block true = Ok tt <-> q <= length (filter (fun s => exact (length (h_AvailableCommonBlocks hdr)) s = true) sigs).
Proof.
  intros Hnum Hhdr Hlast Hne Hacc Hnd Hids Hdn Hlc Hcreate Hq Hd. pose proof (LastConfigIndex_of_block _ _ _ _ _ _ Hnum Hcreate) as Hlci.
  apply CreateBlock_Ok in Hcreate as (pb & sb & l & Hpb & Hsb & Hl & ->). destruct (DecisionSignatures_round _ _ Hids Hsb) as [Hsigs _].
  assert (signature_norm <$> sigs = sigs) as Hnorm. { clear -Hacc DB. induction Hacc as [|s sigs [Hs _] _ IH]; cbn; [done|]. by rewrite IH, (signature_norm_accepted c p s Hs). } rewrite Hnorm in Hsigs.
  assert (exists s, s ∈ sigs /\ VerifyConsenterSig c s p = Ok tt) as (s0 & Hs0 & Hv0). { destruct sigs as [|s sigs]; [done|]. exists s. split; [by left|]. by apply Forall_cons in Hacc as [[? _] _]. }
  apply VerifyConsenterSig_inv in Hv0 as (hdr' & rv & rm & values & msgs & _ & _ & _ & _ & Hhdr' & (idh & m & Hm & _) & Hblocks & _). rewrite Hhdr in Hhdr'. apply Ok_inj in Hhdr' as <-.
  destruct (proposal_message_parts _ _ _ _ _ _ Hm) as (pb' & hb & obm & Hpb' & Hhb & Hobm & Hprop). rewrite Hpb in Hpb'. apply Ok_inj in Hpb' as <-.
  assert (orderer_metadata (h_DecisionNumOfLastConfigBlock hdr) (slice_bytes (p_Metadata p)) = Ok obm) as Hobm' by (destruct (N.eqb_spec (h_Num hdr) (h_DecisionNumOfLastConfigBlock hdr)) as [<-|Hn]; [done|by rewrite (Hdn Hn) in Hobm]).
  destruct (block_messages_parts (c_lastConfigBlockNum c) _ Hlast) as (hs & mds & Ebm & Hparts). { intros i b Hi. destruct (Hblocks i b Hi) as (idh' & m' & ? & _). eauto. }
  destruct (collect_all c p hdr sigs hb obm hs mds Hacc Hhdr Hprop Hparts) as (collected & Ecol & Hprops & Hsets).
  unfold BlockSigVerifier_Verify. rewrite Hlci. cbn [b_Header b_Metadata b_Data of_option mbind outcome_bind length default option_map andb]. rewrite !bool_decide_eq_false_2 by (unfold metadata_names; cbn; lia). cbn [guard_err andb].
  change (Prelude.index [sb; l; []; slice_bytes (p_Metadata p); []] BlockMetadataIndex_SIGNATURES) with (Ok sb). change (Prelude.index [sb; l; []; slice_bytes (p_Metadata p); []] BlockMetadataIndex_ORDERER) with (Ok (slice_bytes (p_Metadata p))).
  cbn [mbind outcome_bind]. rewrite Hsigs. cbn [wrap_err mbind outcome_bind]. rewrite Hhb. cbn [mbind outcome_bind]. rewrite Hobm'. cbn [mbind outcome_bind].
  change (Prelude.index (id [pb]) 0) with (Ok pb). cbn [mbind outcome_bind]. rewrite (Proposal_round _ _ Hpb). cbn [wrap_err mbind outcome_bind proposal_norm p_Header].
  assert (Header_Deserialize (Some (slice_bytes (p_Header p))) = Ok hdr) as ->. { destruct (p_Header p); [done|]. done. }
  cbn [wrap_err mbind outcome_bind]. rewrite <-Hlc, Ebm. cbn [mbind outcome_bind fst snd]. rewrite Ecol. cbn [mbind outcome_bind].
  pose proof (set_policy _ _ _ _ q Hq Hd Hnd Hprops) as Hpol. split.
  - intros E. apply bind_Ok_inv in E as ([] & Ep%wrap_err_Ok & _). by apply Hpol.
  - intros Hle. rewrite (proj2 Hpol Hle). cbn [wrap_err mbind outcome_bind]. apply evaluate_sets_iff. intros j Hj. cbn [Nat.add]. rewrite omap_omap_sets. by apply (set_policy _ _ _ _ q Hq Hd Hnd (Hsets j Hj)).
Qed.
End Sync.

(** C25: Which decisions a synchronizing consenter accepts. Take a decision whose signatures, of different consenters, the consensus verified at a node, and the block in that node's ledger, with a block verifier at the block
    before it, of the same configuration, whose policy asks for [q] signatures. The verifier accepts the block exactly if [q] of the signatures have as many entries as the decision
    has blocks, and one more. The consensus does not count the entries of a signature: a signature with another entry at the end is accepted for the decision, and counts for its quorum, but not here; so that a consenter
    can keep others from synchronizing past a decision that it signed as one of no more than [q]. *)
Theorem decided_block_syncs `{FabricCodecs} `{BlockCodecs} `{StateCodecs} `{BFTCodecs} `{Sha256} `{Environment} `{DB : BatchAttestationDB D} (c : Consensus D) (cv : ConsenterBlockVerifier) p hdr sigs block q :
  (0 < h_Num hdr)%N -> Header_Deserialize (p_Header p) = Ok hdr -> config_last (h_AvailableCommonBlocks hdr) ->
  sigs <> [] -> Forall (fun s => VerifyConsenterSig c s p = Ok tt /\ is_Some (searchConsenterIdentityByID (cbv_sigVerifier cv) (sig_ID s))) sigs -> NoDup (sig_ID <$> sigs) -> Forall (fun s => (sig_ID s <= u64_max)%N) sigs ->
  (h_Num hdr <> h_DecisionNumOfLastConfigBlock hdr -> c_decisionNumOfLastConfigBlock c = h_DecisionNumOfLastConfigBlock hdr) -> c_lastConfigBlockNum c = bsv_ConfigBlockNum (cbv_sigVerifier cv) ->
  CreateBlockToAppendFromDecision (h_Num hdr) p sigs (h_PrevHash hdr) (h_DecisionNumOfLastConfigBlock hdr) = Ok block -> policy_quorum (cbv_sigVerifier cv) q -> distinct_identities (cbv_sigVerifier cv) ->
  u64 (bh_Number (cbv_lastBlockHeader cv) + 1) = h_Num hdr -> BlockHeaderHash (cbv_lastBlockHeader cv) = Ok (h_PrevHash hdr) ->
  is_ok (CBV_VerifyBlock cv block) = true <-> q <= length (filter (fun s => exact (length (h_AvailableCommonBlocks hdr)) s = true) sigs).
Proof.
  intros Hnum Hhdr Hlast Hne Hacc Hnd Hids Hdn Hlc Hcreate Hq Hd Hn Hhash. rewrite <-(Verify_decided _ c p hdr sigs block q Hnum Hhdr Hlast Hne Hacc Hnd Hids Hdn Hlc Hcreate Hq Hd).
  apply CreateBlock_Ok in Hcreate as (pb & sb & l & Hpb & Hsb & Hl & ->). split.
  - intros E. destruct (CBV_VerifyBlock _ _) as [cv'| |] eqn:Ev; [|done..]. by apply CBV_VerifyBlock_inv in Ev as (h & data & _ & _ & _ & _ & _ & _ & Hv & _).
  - intros Hv. unfold CBV_VerifyBlock, CBV_verifyHeader, verifyMetadata. cbn [b_Header b_Metadata b_Data of_option mbind outcome_bind bh_Number bh_PreviousHash bh_DataHash]. rewrite Hn, N.eqb_refl. cbn [negb guard_err]. rewrite Hhash. cbn [mbind outcome_bind].
    rewrite (bool_decide_eq_false_2 (h_PrevHash hdr <> h_PrevHash hdr)) by tauto. cbn [guard_err mbind outcome_bind]. rewrite (bool_decide_eq_false_2 (_ < metadata_names)) by (unfold metadata_names; cbn; lia). cbn [guard_err mbind outcome_bind].
    rewrite (bool_decide_eq_false_2 (length [pb] = 0)) by done. cbn [guard_err]. rewrite (bool_decide_eq_false_2 (ComputeBlockDataHash [pb] <> _)) by tauto. cbn [guard_err]. by rewrite Hv.
Qed.
