(* ===== verification/BlockVerifySample.v ===== *)
(** * Concrete delivered blocks

    Verifiers of a small configuration, blocks for them, and the theorems on the verification of blocks at these. *)
From stdpp Require Import gmap sets.
From Stdlib Require Import NArith ZArith Lia.
From Stdlib Require Import Init.Byte.
From S2P Require Import Prelude Types Events State StateFacts StateProps Round Badb Consenter Blocks Ledger StateCodec StateCodecFacts Consensus ConsensusFacts RoundThms ConsensusThms DecisionThms Assembler Batcher BatchStore PendingStore Pool PoolThms RequestFilter Router RouterThms BatcherService RequestFilterThms BlockVerify BlockVerifyThms SyncThms Sample SampleBlocks SampleNode.

#[local] Existing Instance sample_fabric.
#[local] Existing Instance sample_blocks.
#[local] Existing Instance sample_states.
#[local] Existing Instance sample_bft.
#[local] Existing Instance sample_sha.
#[local] Existing Instance sample_env.
#[local] Existing Instance range_canonical.

(** Consenter [n] of four has the byte [n] as its identity. *)
Definition consenters : list Consenter_ := [mkConsenter 1 [x01]; mkConsenter 2 [x02]; mkConsenter 3 [x03]; mkConsenter 4 [x04]].
Definition at_least (q : nat) : Policy := fun sds => if decide (q <= length sds) then Ok tt else Err "not enough signatures".
(** A block is signed if the configuration is in its metadata. *)
Definition sample_configs : ChannelConfigs :=
  {| header_channel _ := "arma";
     VerifierFromConfig config _ := Ok (fun _ md => if decide (md !! BlockMetadataIndex_SIGNATURES = Some config) then Ok tt else Err "not signed");
     policy_of_config _ _ := Ok (at_least 1, consenters) |}.
#[local] Existing Instance sample_configs.

(** Here the signature header is the same for every payload, so that its data can be a configuration. *)
Definition config_requests : RequestCodecs.
Proof.
  refine {| payload_headers bs := (fun p : Payload => (fun c => mkHeaders (Some c) (Some (put (creator, nonce)))) <$> pl_Header p) <$> dec bs;
            signature_header bs := (fun x : bytes * bytes * bytes => mkSignatureHeader x.1.1 x.1.2) <$> get bs;
            UnmarshalIdentity := Some;
            request_of bs := (fun e : Envelope => mkRequest (nil_if_empty (env_Payload e)) (env_Signature e) None 0) <$> dec bs |}.
  - intros bs p E. rewrite E. cbn. eexists. split; [done|]. by destruct (pl_Header p).
  - intros env bs E. rewrite (dec_enc _ _ E). cbn. by eexists.
Defined.
#[local] Existing Instance config_requests.

Definition config_env (seq : N) : ConfigEnvelope := mkConfigEnvelope (Some seq) None.
Definition payload_with (reqType : Z) (data : bytes) : Payload := mkPayload (Some (some_bytes (mkChannelHeader reqType (ComputeTxID nonce creator)))) data.
Definition tx_with (reqType : Z) (data : bytes) : bytes := some_bytes (mkEnvelope (some_bytes (payload_with reqType data)) creator).
Definition config1 : bytes := some_bytes (config_env 1).
Definition config2 : bytes := some_bytes (config_env 2).

(** ** A chain of assembler blocks *)
Definition genesis : Block := match CreateConfigCommonBlock 0 [] 1 0 1 0 (tx_with HeaderType_CONFIG config1) with Ok b => b | _ => mkBlock None None None end.
Definition hash_of (b : Block) : bytes := match b_Header b with Some h => ok_bytes (BlockHeaderHash h) | None => [] end.
Definition signed_block (num : N) (prev : Block) (data : list bytes) (signature : bytes) : Block :=
  mkBlock (Some (mkBlockHeader num (hash_of prev) (ComputeBlockDataHash data))) (Some data) (Some [signature; []; []; []; []]).
Definition block1 : Block := signed_block 1 genesis [tx_with HeaderType_MESSAGE []; tx_with HeaderType_MESSAGE [x01]] config1.
Definition block2 : Block := signed_block 2 block1 [tx_with HeaderType_CONFIG config2] config1.
Definition block3 : Block := signed_block 3 block2 [tx_with HeaderType_MESSAGE []] config2.
Definition ok_or {A} (a : A) (o : outcome A) : A := match o with Ok x => x | _ => a end.
Definition nobody : BlockVerificationAssistant := mkBVA "" (fun _ _ => Err "nobody") None (mkBlockHeader 0 [] []) [].
Definition assistant : BlockVerificationAssistant := ok_or nobody (NewBlockVerificationAssistant (Some genesis) (Some genesis)).

Lemma genesis_chain : chain_ok [genesis].
Proof. apply (Append_chain [] genesis [genesis] chain_ok_nil). vm_compute. reflexivity. Qed.

(** ** A consenter block for it *)
Definition consenter0 (id : N) : Consensus Badb.t := mkConsensus id id (Some node_state) 3 0 0 30 (hash_of genesis) [genesis] (Badb.mk true ∅) [1; 2; 3; 4]%N false.
Definition header1 : Header := mkHeader 1 (hash_of genesis) [] (Some node_state) 0.
Definition proposal1 : Proposal := mkProposal (Some (BatchedRequests.Serialize [])) (Some (ok_bytes (Header_Serialize header1))) (Some [x01]) 3.
Definition signature1 (id : N) : Signature := ok_or (mkSignature 0 None None) (SignProposal (consenter0 id) sample_nonces proposal1).
Definition decided1 : Block := ok_or (mkBlock None None None) (CreateBlockToAppendFromDecision 1 proposal1 [signature1 1] (hash_of genesis) 0).
Definition nobody_c : ConsenterBlockVerifier := mkCBV "" (mkBlockHeader 0 [] []) (mkBSV (at_least 1) [] 0).
Definition follower : ConsenterBlockVerifier := ok_or nobody_c (CreateBlockVerifier (Some genesis) (Some genesis)).

(** The assembler blocks: a data block, a config block, and a block under the new configuration. *)
Lemma verified_blocks_extend_ledger_witness : append_all [genesis] [block1; block2; block3] = Ok [genesis; block1; block2; block3] /\ append_all [genesis] [decided1] = Ok [genesis; decided1].
Proof.
  split.
  - destruct (receive_blocks assistant [block1; block2; block3]) as [a| |] eqn:E; [|by vm_compute in E..].
    destruct (verified_blocks_extend_ledger [genesis] (Some genesis) genesis [block1; block2; block3] genesis_chain eq_refl ltac:(vm_compute; reflexivity)) as [Ha _]. exact (proj1 (Ha assistant a ltac:(vm_compute; reflexivity) E)).
  - destruct (receive_blocks follower [decided1]) as [c| |] eqn:E; [|by vm_compute in E..].
    destruct (verified_blocks_extend_ledger [genesis] (Some genesis) genesis [decided1] genesis_chain eq_refl ltac:(vm_compute; reflexivity)) as [_ Hc]. exact (proj1 (Hc follower c ltac:(vm_compute; reflexivity) E)).
Defined.

(** ** The signatures of a decision with blocks *)
Definition verifier : BlockSigVerifier := mkBSV (at_least 2) consenters 4.
Definition tip8 : BlockHeader := match last sample_ledger with Some b => default (mkBlockHeader 0 [] []) (b_Header b) | None => mkBlockHeader 0 [] [] end.
Definition follower8 : ConsenterBlockVerifier := mkCBV "arma" tip8 verifier.
Definition decided (sigs : list Signature) : Block := ok_or (mkBlock None None None) (CreateBlockToAppendFromDecision (h_Num sample_proposed_header) sample_proposed sigs (h_PrevHash sample_proposed_header) (h_DecisionNumOfLastConfigBlock sample_proposed_header)).
Definition entries_of (raw : slice) : list bytes := match (unmarshal (slice_bytes raw) : outcome (list bytes)) with Ok l => l | _ => [] end.
(** The signature with another entry at the end. *)
Definition padded (sig : Signature) : Signature :=
  mkSignature (sig_ID sig) (Some (some_bytes (entries_of (sig_Value sig) ++ [[x01]]))) (Some (some_bytes (entries_of (sig_Msg sig) ++ [[x01]]))).

Lemma verifier_quorum : policy_quorum verifier 2.
Proof. intros sds _ _. cbn. unfold at_least. destruct (decide (2 <= length sds)); split; (done || lia). Qed.
Lemma verifier_distinct : distinct_identities verifier.
Proof.
  intros id id' identity. unfold searchConsenterIdentityByID. cbn. repeat case_match; cbn; intros; simplify_eq; repeat match goal with H : (_ =? _)%positive = true |- _ => apply Pos.eqb_eq in H end; congruence.
Qed.
Lemma sample_config_last : config_last (h_AvailableCommonBlocks sample_proposed_header).
Proof. intros [|[|i]] b Hb Hc; vm_compute in Hb; try discriminate. reflexivity. Qed.

Lemma two_signers (s s' : Signature) : sig_ID s <> sig_ID s' -> NoDup (sig_ID <$> [s; s']).
Proof. intros Hne. cbn. repeat constructor; set_solver. Qed.
Lemma decided_accepted (sigs : list Signature) : forallb (fun s => is_ok (VerifyConsenterSig (sample_consensus 2) s sample_proposed) && bool_decide (is_Some (searchConsenterIdentityByID verifier (sig_ID s)))) sigs = true ->
  Forall (fun s => VerifyConsenterSig (sample_consensus 2) s sample_proposed = Ok tt /\ is_Some (searchConsenterIdentityByID verifier (sig_ID s))) sigs.
Proof.
  intros E. apply Forall_forall. intros s Hs. apply List.forallb_forall with (x := s) in E; [|by apply list_elem_of_In]. apply andb_true_iff in E as [E Hid%bool_decide_eq_true]. split; [|done]. by destruct (VerifyConsenterSig _ _ _) as [[]| |].
Qed.

(** The second signature keeps the block from being accepted if it is padded. *)
Lemma decided_block_syncs_witness : is_ok (CBV_VerifyBlock follower8 (decided [sample_signature 1; sample_signature 3])) = true /\
  VerifyConsenterSig (sample_consensus 2) (padded (sample_signature 3)) sample_proposed = Ok tt /\ ~ is_ok (CBV_VerifyBlock follower8 (decided [sample_signature 1; padded (sample_signature 3)])) = true.
Proof.
  split; [|split; [vm_compute; reflexivity|]].
  - apply (decided_block_syncs (sample_consensus 2) follower8 sample_proposed sample_proposed_header [sample_signature 1; sample_signature 3] (decided [sample_signature 1; sample_signature 3]) 2);
      [vm_compute; reflexivity|apply sample_proposed_header_ok|apply sample_config_last|done|apply decided_accepted; vm_compute; reflexivity|apply two_signers; vm_compute; discriminate|repeat constructor; vm_compute; discriminate
      |intros _; vm_compute; reflexivity|reflexivity|vm_compute; reflexivity|apply verifier_quorum|apply verifier_distinct|vm_compute; reflexivity|vm_compute; reflexivity|apply Nat.leb_le; vm_compute; reflexivity].
  - intros E. apply (decided_block_syncs (sample_consensus 2) follower8 sample_proposed sample_proposed_header [sample_signature 1; padded (sample_signature 3)] (decided [sample_signature 1; padded (sample_signature 3)]) 2) in E;
      [apply Nat.leb_le in E; vm_compute in E; discriminate E|vm_compute; reflexivity|apply sample_proposed_header_ok|apply sample_config_last|done|apply decided_accepted; vm_compute; reflexivity|apply two_signers; vm_compute; discriminate|repeat constructor; vm_compute; discriminate
      |intros _; vm_compute; reflexivity|reflexivity|vm_compute; reflexivity|apply verifier_quorum|apply verifier_distinct|vm_compute; reflexivity|vm_compute; reflexivity].
Defined.

Lemma accepted_consenter_block_signed_witness : exists pb p hdr, b_Data (decided [sample_signature 1; sample_signature 3]) = Some [pb] /\ BytesToProposal pb = Ok p /\ Header_Deserialize (p_Header p) = Ok hdr.
Proof.
  destruct (CBV_VerifyBlock follower8 (decided [sample_signature 1; sample_signature 3])) as [c| |] eqn:E; [|by vm_compute in E..].
  destruct (accepted_consenter_block_signed follower8 c (decided [sample_signature 1; sample_signature 3]) E) as (h & data & pb & p & hdr & _ & Hd & _ & _ & _ & Hpb & Hp & Hhdr & _).
  exists pb, p, hdr. assert (length (default [] (b_Data (decided [sample_signature 1; sample_signature 3]))) = 1) as Hl by (vm_compute; reflexivity). rewrite Hd in Hl. destruct data as [|d [|]]; try discriminate Hl. injection Hpb as ->. split; [exact Hd|]. split; [exact Hp|exact Hhdr].
Defined.

(** ** An unsigned request, and a forged configuration *)
Definition no_signatures : FilterConfig := mkFilterConfig 5000 false "arma" (fun _ => None).
Definition shard_unsigned : RequestsInspectorVerifier := mkInspector 100000 10 [1]%N 1 (createVerifier no_signatures) 7.
Definition unsigned : Request := mkRequest (Some (some_bytes (payload_with HeaderType_MESSAGE []))) [] None 7.
Definition unsigned_tx : bytes := some_bytes (mkEnvelope (some_bytes (payload_with HeaderType_MESSAGE [])) []).
Lemma unsigned_request_unverifiable_witness : is_ok (BVA_VerifyBlock assistant (signed_block 1 genesis [unsigned_tx; tx_with HeaderType_MESSAGE []] config1)) = false.
Proof.
  destruct (unsigned_request_unverifiable no_signatures shard_unsigned unsigned (some_bytes (payload_with HeaderType_MESSAGE [])) unsigned_tx HeaderType_MESSAGE) as [_ Hb];
    [reflexivity|vm_compute; discriminate|reflexivity|vm_compute; discriminate|vm_compute; reflexivity|reflexivity|reflexivity|vm_compute; reflexivity|].
  apply (Hb _ _ [unsigned_tx; tx_with HeaderType_MESSAGE []]); [reflexivity|left].
Defined.

Definition forged_tx : bytes := tx_with HeaderType_CONFIG config2.
Definition forged_block : Block := signed_block 1 genesis [forged_tx] config1.
Definition after_forged : BlockVerificationAssistant := ok_or nobody (BVA_VerifyBlock assistant forged_block).
Lemma forged_config_takes_over_witness : VerifyBatchedRequests_ DefaultRequestID shard1 (NewPool service_limits 0) [forged_tx] = Ok [DefaultRequestID forged_tx] /\
  exists a', receive_block assistant (Ok tt) forged_block = Ok a' /\ forall h md, md !! BlockMetadataIndex_SIGNATURES = Some config2 -> bva_sigVerifierFunc a' h md = Ok tt.
Proof.
  destruct (forged_config_takes_over writers shard1 (NewPool service_limits 0) (some_bytes (payload_with HeaderType_CONFIG config2)) (payload_with HeaderType_CONFIG config2) creator forged_tx
    assistant after_forged forged_block (config_env 2) (fun _ md => if decide (md !! BlockMetadataIndex_SIGNATURES = Some config2) then Ok tt else Err "not signed")) as (_ & Hv & a' & Ha & Hf);
    [apply shard1_ok|vm_compute; discriminate|vm_compute; discriminate|vm_compute; reflexivity|vm_compute; reflexivity|vm_compute; reflexivity| |vm_compute; discriminate|vm_compute; discriminate|vm_compute; reflexivity|vm_compute; reflexivity|reflexivity|reflexivity|vm_compute; reflexivity|].
  - apply (well_formed_iff writers (mkRequest (Some (some_bytes (payload_with HeaderType_CONFIG config2))) creator None 0)); [reflexivity|vm_compute; discriminate|]. split; vm_compute; reflexivity.
  - split; [exact Hv|]. exists a'. split; [exact Ha|]. intros h md Hmd. rewrite Hf. by rewrite decide_True.
Defined.
