(* ===== verification/ConfigAck.v ===== *)
(** * The acknowledgement of a new configuration within a party

    [src/common/configack/receiver.go], the consenter's side of the handshake in which the router, the assembler and the batchers of a party acknowledge
    a config block before any of them, or the consenter, applies it, with the handler AckConfig of [src/node/consensus/consensus.go] and the wait of its
    ApplyConfig. A step is what one goroutine does between two accesses to the receiver's lock or channels. *)
From stdpp Require Import gmap sets relations.
From Stdlib Require Import NArith ZArith Lia.
From S2P Require Import Prelude Types.

(** ** Roles *)
Inductive NodeType := ASSEMBLER | BATCHER | ROUTER | OtherType (n : Z).
#[export] Instance NodeType_eq_dec : EqDecision NodeType.
Proof. solve_decision. Defined.
Definition type_number (t : NodeType) : Z + unit + unit + unit := match t with OtherType n => inl (inl (inl n)) | ASSEMBLER => inl (inl (inr tt)) | BATCHER => inl (inr tt) | ROUTER => inr tt end.
Definition number_type (s : Z + unit + unit + unit) : NodeType := match s with inl (inl (inl n)) => OtherType n | inl (inl (inr _)) => ASSEMBLER | inl (inr _) => BATCHER | inr _ => ROUTER end.
#[export] Instance NodeType_countable : Countable NodeType.
Proof. apply (inj_countable' type_number number_type). by intros []. Defined.
Record ClientRole := mkClientRole { cr_NodeType : NodeType; cr_Shard : ShardID }.
#[export] Instance ClientRole_eq_dec : EqDecision ClientRole.
Proof. solve_decision. Defined.
#[export] Instance ClientRole_countable : Countable ClientRole.
Proof. apply (inj_countable' (fun r => (cr_NodeType r, cr_Shard r)) (fun p => mkClientRole p.1 p.2)). by intros []. Defined.
Record ConfigAck := mkConfigAck { ca_ConfigSeq : N; ca_NodeType : NodeType; ca_Shard : N }.

(** ** The receiver *)
(** The channel that is closed on a release is numbered, and closed once there is a later one; the signal channel holds so many signals. *)
Record Receiver := mkReceiver { rv_acks : gmap ClientRole N; rv_releasedSeq : N; rv_releaseChan : nat; rv_signals : nat; rv_stopped : bool }.
Definition signal_capacity : nat := 100.

Definition initClients (shards : list ShardID) : gmap ClientRole N :=
  foldl (fun acks shard => <[mkClientRole BATCHER shard := 0%N]> acks) {[mkClientRole ROUTER 0 := 0%N; mkClientRole ASSEMBLER 0 := 0%N]} shards.
Definition NewReceiver (shards : list ShardID) (configSeq : N) : Receiver := mkReceiver (initClients shards) configSeq 0 0 false.
Definition Receiver_Stop (r : Receiver) : Receiver := mkReceiver (rv_acks r) (rv_releasedSeq r) (rv_releaseChan r) (rv_signals r) true.

(** The result tells whether the caller goes on to send a signal. *)
Definition AddAck (r : Receiver) (request : option ConfigAck) : outcome (Receiver * bool) :=
  request ← of_option "config ack request is nil" request;
  let clientRole := mkClientRole (ca_NodeType request) (u16 (ca_Shard request)) in
  fail_if negb (bool_decide (ca_NodeType request ∈ [ROUTER; BATCHER; ASSEMBLER])) with "unknown node type" ;;
  lastSeq ← of_option "config ack received from unknown client" (rv_acks r !! clientRole);
  fail_if (ca_ConfigSeq request <? lastSeq)%N with "config ack has been received on an earlier sequence" ;;
  if (ca_ConfigSeq request =? lastSeq)%N then Ok (r, false)
  else Ok (mkReceiver (<[clientRole := ca_ConfigSeq request]> (rv_acks r)) (rv_releasedSeq r) (rv_releaseChan r) (rv_signals r) (rv_stopped r), true).

Definition allAcksAtSeq (r : Receiver) (seq : N) : bool :=
  negb (bool_decide (rv_acks r = ∅)) && bool_decide (map_Forall (fun _ ackSeq => ackSeq = seq) (rv_acks r)).

Definition release (configSeq : N) (r : Receiver) : Receiver :=
  if (configSeq <=? rv_releasedSeq r)%N then r else mkReceiver (rv_acks r) configSeq (S (rv_releaseChan r)) (rv_signals r) (rv_stopped r).
Definition with_signals (n : nat) (r : Receiver) : Receiver := mkReceiver (rv_acks r) (rv_releasedSeq r) (rv_releaseChan r) n (rv_stopped r).

(** ** Calls *)
(** A call of AckConfig: before it signals its ack, before it reads whether its sequence is released, blocked on a release channel, answered (by an answer without an error, or by an error that is retried), rejected. *)
Inductive ack_call := CSignal (seq : N) | CRelease (seq : N) | CBlocked (seq : N) (ch : nat) | CAnswered (seq : N) (ok : bool) | CRejected.
(** The consenter's wait for the acks on a config sequence: not begun, in the select, with a signal, with all acks, and how it ended. *)
Inductive wait_result := AllAcked | TimedOut | WStopped.
Inductive ack_wait := WNone | WSelect (seq : N) | WSignalled (seq : N) | WReleasing (seq : N) | WDone (seq : N) (res : wait_result).
Record handshake := mkHandshake { hs_receiver : Receiver; hs_wait : ack_wait; hs_calls : list ack_call }.
Definition set_call (i : nat) (c : ack_call) (s : handshake) : handshake := mkHandshake (hs_receiver s) (hs_wait s) (<[i := c]> (hs_calls s)).
Definition set_wait (w : ack_wait) (s : handshake) : handshake := mkHandshake (hs_receiver s) w (hs_calls s).
Definition set_receiver (r : Receiver) (s : handshake) : handshake := mkHandshake r (hs_wait s) (hs_calls s).

Definition new_call (s : handshake) (request : ConfigAck) : handshake :=
  match AddAck (hs_receiver s) (Some request) with
  | Ok (r, signal) => mkHandshake r (hs_wait s) (hs_calls s ++ [if signal then CSignal (ca_ConfigSeq request) else CRelease (ca_ConfigSeq request)])
  | _ => mkHandshake (hs_receiver s) (hs_wait s) (hs_calls s ++ [CRejected])
  end.

(** The steps of the wait, and of calls up to their signal. *)
Inductive wait_step : handshake -> handshake -> Prop :=
| step_signal s i seq : hs_calls s !! i = Some (CSignal seq) -> rv_signals (hs_receiver s) < signal_capacity ->
    wait_step s (set_call i (CRelease seq) (set_receiver (with_signals (S (rv_signals (hs_receiver s))) (hs_receiver s)) s))
| step_take s seq n : hs_wait s = WSelect seq -> rv_signals (hs_receiver s) = S n -> wait_step s (set_wait (WSignalled seq) (set_receiver (with_signals n (hs_receiver s)) s))
| step_check s seq : hs_wait s = WSignalled seq -> wait_step s (set_wait (if allAcksAtSeq (hs_receiver s) seq then WReleasing seq else WSelect seq) s)
| step_release s seq : hs_wait s = WReleasing seq -> wait_step s (set_wait (WDone seq AllAcked) (set_receiver (release seq (hs_receiver s)) s)).
Inductive handshake_step : handshake -> handshake -> Prop :=
| step_of_wait s s' : wait_step s s' -> handshake_step s s'
| step_call s request : handshake_step s (new_call s request)
| step_read s i seq : hs_calls s !! i = Some (CRelease seq) ->
    handshake_step s (set_call i (if (seq <=? rv_releasedSeq (hs_receiver s))%N then CAnswered seq true else CBlocked seq (rv_releaseChan (hs_receiver s))) s)
| step_wake s i seq ch : hs_calls s !! i = Some (CBlocked seq ch) -> ch < rv_releaseChan (hs_receiver s) -> handshake_step s (set_call i (CRelease seq) s)
| step_call_ends s i seq ch : hs_calls s !! i = Some (CBlocked seq ch) -> handshake_step s (set_call i (CAnswered seq false) s)
| step_begin s seq : hs_wait s = WNone -> handshake_step s (set_wait (WSelect seq) s)
| step_timeout s seq : hs_wait s = WSelect seq -> handshake_step s (set_wait (WDone seq TimedOut) (set_receiver (release seq (hs_receiver s)) s))
| step_wait_stopped s seq : hs_wait s = WSelect seq -> rv_stopped (hs_receiver s) = true -> handshake_step s (set_wait (WDone seq WStopped) s)
| step_stop s : handshake_step s (set_receiver (Receiver_Stop (hs_receiver s)) s).
Definition new_handshake (shards : list ShardID) (configSeq : N) : handshake := mkHandshake (NewReceiver shards configSeq) WNone [].

(** ** Invariant *)
(** The sequence the wait is or was for. *)
Definition wait_seq (w : ack_wait) : option N := match w with WNone => None | WSelect s | WSignalled s | WReleasing s | WDone s _ => Some s end.
(** All members are known to have acknowledged at least the sequence. *)
Definition acked (r : Receiver) (seq : N) : Prop := map_Forall (fun _ a => (seq <= a)%N) (rv_acks r).
Definition pending (s : handshake) : Prop := 0 < rv_signals (hs_receiver s) \/ exists i seq, hs_calls s !! i = Some (CSignal seq).
Definition released_ok (configSeq : N) (s : handshake) (seq : N) : Prop :=
  (seq <= configSeq)%N \/ exists s' res, hs_wait s = WDone s' res /\ res <> WStopped /\ (seq <= s')%N.

Record handshake_inv (configSeq : N) (s : handshake) : Prop := {
  hv_members : rv_acks (hs_receiver s) <> ∅;
  hv_released : released_ok configSeq s (rv_releasedSeq (hs_receiver s));
  hv_answered : forall i seq, hs_calls s !! i = Some (CAnswered seq true) -> (seq <= rv_releasedSeq (hs_receiver s))%N;
  hv_blocked : forall i seq ch, hs_calls s !! i = Some (CBlocked seq ch) -> ch <= rv_releaseChan (hs_receiver s) /\ (ch = rv_releaseChan (hs_receiver s) -> (rv_releasedSeq (hs_receiver s) < seq)%N);
  hv_acked : forall seq, hs_wait s = WReleasing seq \/ hs_wait s = WDone seq AllAcked -> acked (hs_receiver s) seq;
  hv_signal : forall seq, (0 < seq)%N -> allAcksAtSeq (hs_receiver s) seq = true -> hs_wait s = WNone \/ hs_wait s = WSelect seq -> pending s
}.

Lemma set_call_lookup i c s j x : hs_calls (set_call i c s) !! j = Some x -> x = c \/ hs_calls s !! j = Some x.
Proof. cbn. intros [(_ & -> & _)|[_ ?]]%list_lookup_insert_Some; auto. Qed.
Lemma pending_other i c c' s r : hs_calls s !! i = Some c -> (forall seq, c <> CSignal seq) -> rv_signals r = rv_signals (hs_receiver s) -> pending s -> pending (set_call i c' (set_receiver r s)).
Proof.
  intros Hi Hc Hr [Hs|(j & seq & Hj)]; [left; cbn; by rewrite Hr|]. right. exists j, seq. cbn. rewrite list_lookup_insert_ne; [done|]. intros ->. rewrite Hi in Hj. injection Hj as ->. by eapply Hc.
Qed.
Lemma allAcks_acked r seq : allAcksAtSeq r seq = true -> acked r seq.
Proof. unfold allAcksAtSeq. intros [_ Ha%bool_decide_eq_true]%andb_true_iff k a Hk. specialize (Ha k a Hk). cbn in Ha. lia. Qed.

(** A release is by the end of the wait, and wakes the calls for the sequences it covers. *)
Lemma release_ge seq r : (rv_releasedSeq r <= rv_releasedSeq (release seq r))%N /\ (rv_releasedSeq (release seq r) = rv_releasedSeq r \/ rv_releasedSeq (release seq r) = seq).
Proof. unfold release. destruct (N.leb_spec seq (rv_releasedSeq r)); cbn; split; auto; lia. Qed.
Lemma release_inv configSeq s seq res : handshake_inv configSeq s -> wait_seq (hs_wait s) = Some seq -> (forall r, hs_wait s <> WDone seq r) -> res <> WStopped -> (res = AllAcked -> acked (hs_receiver s) seq) ->
  handshake_inv configSeq (set_wait (WDone seq res) (set_receiver (release seq (hs_receiver s)) s)).
Proof.
  intros [Hm Hr Ha Hb Hk Hsig] Hw Hnd Hres Hacked. assert (rv_acks (release seq (hs_receiver s)) = rv_acks (hs_receiver s)) as Eacks by (unfold release; by destruct (_ <=? _)%N). split; cbn [set_wait set_receiver hs_receiver hs_wait hs_calls].
  - by rewrite Eacks.
  - destruct (release_ge seq (hs_receiver s)) as [_ [->| ->]]; [|right; exists seq, res; auto using N.le_refl]. destruct Hr as [?|(s' & r' & E & _)]; [by left|]. rewrite E in Hw. injection Hw as ->. by destruct (Hnd r').
  - intros i x Hx. etrans; [by eapply Ha|]. apply release_ge.
  - intros i x ch Hx. destruct (Hb i x ch Hx) as [Hle Heq]. unfold release. destruct (N.leb_spec seq (rv_releasedSeq (hs_receiver s))); cbn; [auto|]. split; [lia|]. intros ->. lia.
  - intros x [[=]|[= <- E]]. intros k a Hka. rewrite Eacks in Hka. by apply (Hacked E k a).
  - intros x _ _ [|]; discriminate.
Qed.

Lemma call_inv configSeq s i c c' : handshake_inv configSeq s -> hs_calls s !! i = Some c -> (forall seq, c <> CSignal seq) ->
  match c' with CRelease _ | CAnswered _ false => True | CAnswered seq true => (seq <= rv_releasedSeq (hs_receiver s))%N | CBlocked seq ch => ch = rv_releaseChan (hs_receiver s) /\ (rv_releasedSeq (hs_receiver s) < seq)%N | _ => False end ->
  handshake_inv configSeq (set_call i c' s).
Proof.
  intros [Hm Hr Ha Hb Hk Hsig] Hi Hc Hc'. split; [done|done| | |done|].
  - intros j seq [<-|Hj]%set_call_lookup; [done|by eapply Ha].
  - intros j seq ch [<-|Hj]%set_call_lookup; [|by eapply Hb]. destruct Hc' as [-> ?]. cbn. auto.
  - intros seq Hpos Hall Hw. specialize (Hsig seq Hpos Hall Hw). by apply (pending_other i c c' s (hs_receiver s)) in Hsig.
Qed.

Lemma new_call_inv configSeq s request : handshake_inv configSeq s -> handshake_inv configSeq (new_call s request).
Proof.
  intros Hinv. pose proof Hinv as [Hm Hr Ha Hb Hk Hsig]. assert (forall c, match c with CRelease _ | CRejected => True | _ => False end -> handshake_inv configSeq (mkHandshake (hs_receiver s) (hs_wait s) (hs_calls s ++ [c]))) as Hsame.
  { intros c Hc. split; [done|done| | |done|]; cbn.
    - intros i seq [?|[_ Hi]]%lookup_app_Some; [by eapply Ha|]. apply list_lookup_singleton_Some in Hi as [_ ->]. done.
    - intros i seq ch [?|[_ Hi]]%lookup_app_Some; [by eapply Hb|]. apply list_lookup_singleton_Some in Hi as [_ ->]. done.
    - intros seq Hpos Hall Hw. destruct (Hsig seq Hpos Hall Hw) as [?|(i & x & Hi)]; [by left|]. right. exists i, x. cbn. by apply lookup_app_l_Some. }
  unfold new_call. destruct (AddAck (hs_receiver s) (Some request)) as [[r signal]| |] eqn:E; [|by apply Hsame..]. unfold AddAck in E. cbn [of_option mbind outcome_bind] in E. apply guard_err_Ok in E as [_ E].
  apply bind_Ok_inv in E as (lastSeq & El%of_option_Ok & E). apply guard_err_Ok in E as [Hlt%N.ltb_ge E]. destruct (N.eqb_spec (ca_ConfigSeq request) lastSeq) as [Heq|Hne]; apply Ok_inj in E; injection E as <- <-; [by apply Hsame|].
  split; cbn.
  - by apply insert_non_empty.
  - done.
  - intros i seq [?|[_ Hi]]%lookup_app_Some; [by eapply Ha|]. apply list_lookup_singleton_Some in Hi as [_ [=]].
  - intros i seq ch [?|[_ Hi]]%lookup_app_Some; [by eapply Hb|]. apply list_lookup_singleton_Some in Hi as [_ [=]].
  - intros seq Hw k a Hka. cbn in Hka. apply lookup_insert_Some in Hka as [[<- <-]|[_ Hka]]; [|by eapply (Hk seq Hw)]. pose proof (Hk seq Hw _ _ El). cbn in *. lia.
  - intros seq _ _ _. right. exists (length (hs_calls s)), (ca_ConfigSeq request). cbn. by apply list_lookup_middle.
Qed.

Lemma wait_step_inv configSeq s s' : handshake_inv configSeq s -> wait_step s s' -> handshake_inv configSeq s'.
Proof.
  intros Hinv Hstep. pose proof Hinv as [Hm Hr Ha Hb Hk Hsig]. destruct Hstep as [s i seq Hi Hcap|s seq n Hw Hn|s seq Hw|s seq Hw].
  - split; [done|done| | |done|]; cbn.
    + intros j x [E|Hj]%set_call_lookup; [discriminate E|by eapply Ha].
    + intros j x ch [E|Hj]%set_call_lookup; [discriminate E|by eapply Hb].
    + intros x _ _ _. left. cbn. lia.
  - split; [done| |done|done| |]; cbn.
    + destruct Hr as [?|(s' & r & E & _)]; [by left|]. by rewrite Hw in E.
    + intros x [[=]|[=]].
    + intros x _ _ [[=]|[=]].
  - split; [done| |done|done| |]; cbn.
    + destruct Hr as [?|(s' & r & E & _)]; [by left|]. by rewrite Hw in E.
    + intros x. destruct (allAcksAtSeq (hs_receiver s) seq) eqn:E; [|intros [[=]|[=]]]. intros [[= <-]|[=]]. by apply allAcks_acked.
    + intros x Hpos Hall. destruct (allAcksAtSeq (hs_receiver s) seq) eqn:E; [intros [[=]|[=]]|]. intros [[=]|[= <-]]. congruence.
  - apply release_inv; [done|by rewrite Hw|by rewrite Hw|done|]. intros _. apply Hk. by left.
Qed.

Lemma handshake_step_inv configSeq s s' : handshake_inv configSeq s -> handshake_step s s' -> handshake_inv configSeq s'.
Proof.
  intros Hinv Hstep. pose proof Hinv as [Hm Hr Ha Hb Hk Hsig]. destruct Hstep as [s s' Hw|s request|s i seq Hi|s i seq ch Hi Hlt|s i seq ch Hi|s seq Hw|s seq Hw|s seq Hw Hst|s].
  - by eapply wait_step_inv.
  - by apply new_call_inv.
  - eapply call_inv; [done|exact Hi|done|]. destruct (N.leb_spec seq (rv_releasedSeq (hs_receiver s))); [done|]. by split.
  - by eapply call_inv.
  - by eapply call_inv.
  - split; [done| |done|done| |]; cbn.
    + destruct Hr as [?|(s' & r & E & _)]; [by left|]. by rewrite Hw in E.
    + intros x [[=]|[=]].
    + intros x Hpos Hall [[=]|[= <-]]. apply (Hsig seq Hpos Hall). by left.
  - apply release_inv; [done|by rewrite Hw|by rewrite Hw|done|done].
  - split; [done| |done|done| |]; cbn.
    + destruct Hr as [?|(s' & r & E & _)]; [by left|]. by rewrite Hw in E.
    + intros x [[=]|[=]].
    + intros x _ _ [[=]|[=]].
  - by split.
Qed.

Lemma initClients_zero shards : map_Forall (fun _ a => a = 0%N) (initClients shards) /\ initClients shards <> ∅.
Proof.
  unfold initClients. assert (forall m : gmap ClientRole N, map_Forall (fun _ a => a = 0%N) m /\ m <> ∅ -> map_Forall (fun _ a => a = 0%N) (foldl (fun acks shard => <[mkClientRole BATCHER shard := 0%N]> acks) m shards) /\
    foldl (fun acks shard => <[mkClientRole BATCHER shard := 0%N]> acks) m shards <> ∅) as Hf.
  { induction shards as [|sh shards IH]; intros m [Hz Hne]; [done|]. cbn. apply IH. split; [by apply map_Forall_insert_2|apply insert_non_empty]. }
  apply Hf. split; [|apply insert_non_empty]. by apply map_Forall_insert_2, map_Forall_singleton.
Qed.
Lemma new_handshake_inv shards configSeq : handshake_inv configSeq (new_handshake shards configSeq).
Proof.
  destruct (initClients_zero shards) as [Hzero Hne]. split; cbn; try done.
  - left. cbn. lia.
  - intros seq [|]; discriminate.
  - intros seq Hpos [_ Ha%bool_decide_eq_true]%andb_true_iff _. exfalso. cbn in Ha. apply map_choose in Hne as (k & a & Hk). specialize (Ha k a Hk). rewrite (Hzero _ _ Hk) in Ha. cbn in Ha. lia.
Qed.

Lemma ack_reachable_inv shards configSeq s : rtc handshake_step (new_handshake shards configSeq) s -> handshake_inv configSeq s.
Proof. intros Hr. apply (rtc_ind_r (handshake_inv configSeq) _ (new_handshake_inv shards configSeq)) in Hr; [done|]. intros ? ? _ Hstep ?. by eapply handshake_step_inv. Qed.

(** Once there is a signal, the wait ends. *)
Lemma signalled_ends s seq : hs_wait s = WSignalled seq -> allAcksAtSeq (hs_receiver s) seq = true -> exists s', rtc wait_step s s' /\ hs_wait s' = WDone seq AllAcked /\ (seq <= rv_releasedSeq (hs_receiver s'))%N.
Proof.
  intros Hw Hall. eexists. split; [eapply rtc_l; [by apply step_check|]; eapply rtc_l; [apply (step_release _ seq); cbn; by rewrite Hall|]; apply rtc_refl|]. cbn. split; [done|].
  unfold release. destruct (N.leb_spec seq (rv_releasedSeq (hs_receiver s))); cbn; lia.
Qed.
Lemma select_ends s seq : hs_wait s = WSelect seq -> allAcksAtSeq (hs_receiver s) seq = true -> pending s -> exists s', rtc wait_step s s' /\ hs_wait s' = WDone seq AllAcked /\ (seq <= rv_releasedSeq (hs_receiver s'))%N.
Proof.
  assert (forall s n, hs_wait s = WSelect seq -> allAcksAtSeq (hs_receiver s) seq = true -> rv_signals (hs_receiver s) = S n -> exists s', rtc wait_step s s' /\ hs_wait s' = WDone seq AllAcked /\ (seq <= rv_releasedSeq (hs_receiver s'))%N) as Hpos.
  { clear s. intros s n Hw Hall Hn. destruct (signalled_ends (set_wait (WSignalled seq) (set_receiver (with_signals n (hs_receiver s)) s)) seq eq_refl Hall) as (s' & Hr & Hs'). exists s'. split; [|done]. eapply rtc_l; [by eapply step_take|done]. }
  intros Hw Hall [Hs|(i & x & Hi)]; [destruct (rv_signals (hs_receiver s)) eqn:E; [lia|by eapply Hpos]|].
  destruct (rv_signals (hs_receiver s)) as [|n] eqn:E; [|by eapply Hpos].
  destruct (Hpos (set_call i (CRelease x) (set_receiver (with_signals 1 (hs_receiver s)) s)) 0 Hw Hall eq_refl) as (s' & Hr & Hs'). exists s'. split; [|done].
  eapply rtc_l; [|exact Hr]. rewrite <-E. apply step_signal; [done|]. rewrite E. unfold signal_capacity. lia.
Qed.

(** C26: The handshake on a new configuration is safe and does not get stuck. In every interleaving of acks, retries, the consenter's wait for a config sequence, its timeout and the stop of the receiver:
    a member whose ack was answered without an error acknowledged a sequence that was released, so that it is no later than the one the receiver was created for or the wait for it or a later one has
    ended, other than by a stop; if it ended because all acknowledged it, no member's ack is on an earlier sequence; as soon as all members have acknowledged the sequence that the consenter waits for, the wait and the
    calls that bring signals can end it, without any other ack or the timeout; and a call that is blocked on a sequence that was released can go on and is then answered. *)
Theorem config_ack_handshake shards configSeq s : rtc handshake_step (new_handshake shards configSeq) s ->
  (forall i seq, hs_calls s !! i = Some (CAnswered seq true) -> released_ok configSeq s seq) /\
  (forall seq, hs_wait s = WDone seq AllAcked -> acked (hs_receiver s) seq) /\
  (forall seq, (0 < seq)%N -> hs_wait s = WSelect seq \/ hs_wait s = WSignalled seq -> allAcksAtSeq (hs_receiver s) seq = true ->
     exists s', rtc wait_step s s' /\ hs_wait s' = WDone seq AllAcked /\ (seq <= rv_releasedSeq (hs_receiver s'))%N) /\
  (forall i seq ch, hs_calls s !! i = Some (CBlocked seq ch) -> (seq <= rv_releasedSeq (hs_receiver s))%N -> exists s', rtc handshake_step s s' /\ hs_calls s' !! i = Some (CAnswered seq true)).
Proof.
  intros [Hm Hr Ha Hb Hk Hsig]%ack_reachable_inv. split; [|split; [|split]].
  - intros i seq Hi. specialize (Ha i seq Hi). destruct Hr as [?|(s' & r & E & Hn & Hle)]; [left; lia|]. right. exists s', r. split; [done|]. split; [done|lia].
  - intros seq Hw. apply Hk. by right.
  - intros seq Hpos [Hw|Hw] Hall; [|by apply signalled_ends]. apply select_ends; [done..|]. apply (Hsig seq Hpos Hall). by right.
  - intros i seq ch Hi Hle. destruct (Hb i seq ch Hi) as [Hch Heq]. assert (ch < rv_releaseChan (hs_receiver s)) by (destruct (decide (ch = rv_releaseChan (hs_receiver s))) as [E|]; [specialize (Heq E); lia|lia]).
    pose proof (lookup_lt_Some _ _ _ Hi). eexists. split; [eapply rtc_l; [by eapply step_wake|]; eapply rtc_l; [apply (step_read _ i seq); cbn; by rewrite list_lookup_insert_eq|]; apply rtc_refl|].
    cbn. rewrite (proj2 (N.leb_le _ _) Hle). apply list_lookup_insert_eq. by rewrite length_insert.
Qed.

(** A party with one shard: all three acknowledge sequence 1, the last ack before its signal was sent. *)
Definition ack_of (t : NodeType) (shard : N) : ConfigAck := mkConfigAck 1 t shard.
Definition acked_party : handshake := new_call (new_call (new_call (set_wait (WSelect 1) (new_handshake [1%N] 0)) (ack_of ROUTER 0)) (ack_of BATCHER 1)) (ack_of ASSEMBLER 0).
Lemma config_ack_handshake_witness : exists s', rtc wait_step acked_party s' /\ hs_wait s' = WDone 1 AllAcked.
Proof.
  destruct (config_ack_handshake [1%N] 0 acked_party) as (_ & _ & Hw & _).
  - eapply rtc_l; [apply step_begin; reflexivity|]. eapply rtc_l; [apply (step_call _ (ack_of ROUTER 0))|]. eapply rtc_l; [apply (step_call _ (ack_of BATCHER 1))|]. eapply rtc_l; [apply (step_call _ (ack_of ASSEMBLER 0))|]. apply rtc_refl.
  - destruct (Hw 1%N) as (s' & Hr & Hd & _); [lia|left; reflexivity|vm_compute; reflexivity|]. exists s'. split; [exact Hr|exact Hd].
Defined.
