(* ===== verification/NodeLifecycle.v ===== *)
(** * The life cycles of router, batcher and assembler

    Stop, SoftStop and the reconfiguration on a new config block, of [src/node/router/router.go], [src/node/batcher/batcher.go] and
    [src/node/assembler/assembler.go]. A critical section under the node's lock is one step. The reconfiguration runs in a goroutine of its own: it soft-stops the
    node, sends the acknowledgement of [ConfigAck] to the consenter and waits for the answer, and then restarts the node with the new configuration, section by
    section, unless the sender of acknowledgements was stopped or an administrator must act. *)
From stdpp Require Import base list relations.
From Stdlib Require Import NArith Lia.
From S2P Require Import Prelude Lifecycle.
Import Lifecycle.

Inductive node_kind := KRouter | KBatcher | KAssembler.
(** [pn_pulling] says that the goroutines run that pull decisions, or collate blocks. *)
Record party_node := mkPartyNode { pn_state : NodeState; pn_stopChan : channel; pn_mainExitChan : channel; pn_ackerStopped : bool; pn_pulling : bool; pn_net : bool; pn_ledger : bool }.

(** close under a sync.Once of its own. *)
Definition close_once (ch : channel) : channel := Closed.

(** ** Router *)
Definition Router_Stop (n : party_node) : outcome party_node :=
  if decide (pn_state n = StateStopped) then Ok n else
  let n := if decide (pn_state n <> StateSoftStopped /\ pn_state n <> StatePendingAdmin)
           then mkPartyNode (pn_state n) (close_once (pn_stopChan n)) (pn_mainExitChan n) (pn_ackerStopped n) false false (pn_ledger n) else n in
  exit ← close (pn_mainExitChan n);
  Ok (mkPartyNode StateStopped (pn_stopChan n) exit true (pn_pulling n) (pn_net n) false).
Definition Router_SoftStop (n : party_node) : outcome party_node :=
  fail_if bool_decide (pn_state n = StateStopped \/ pn_state n = StateSoftStopped) with "soft stop failed: router is already stopped" ;;
  Ok (mkPartyNode StateSoftStopped (close_once (pn_stopChan n)) (pn_mainExitChan n) (pn_ackerStopped n) false false (pn_ledger n)).
(** initFromConfig, and StartRouterService. The log, here the ledger, stays open. *)
Definition Router_initFromConfig (n : party_node) : party_node := mkPartyNode StateInitializing Open (pn_mainExitChan n) false (pn_pulling n) (pn_net n) (pn_ledger n).
Definition StartRouterService (n : party_node) : party_node := mkPartyNode StateRunning (pn_stopChan n) (pn_mainExitChan n) (pn_ackerStopped n) true true (pn_ledger n).

(** ** Batcher *)
Definition Batcher_Stop (n : party_node) : outcome party_node :=
  if decide (pn_state n = StateStopped) then Ok n else
  n ← (if decide (pn_state n <> StateSoftStopped /\ pn_state n <> StatePendingAdmin)
       then ch ← close (pn_stopChan n); Ok (mkPartyNode (pn_state n) ch (pn_mainExitChan n) (pn_ackerStopped n) false (pn_net n) (pn_ledger n)) else Ok n);
  exit ← close (pn_mainExitChan n);
  Ok (mkPartyNode StateStopped (pn_stopChan n) exit true (pn_pulling n) false false).
Definition Batcher_SoftStop (n : party_node) : outcome party_node :=
  if decide (pn_state n = StateSoftStopped \/ pn_state n = StateStopped \/ pn_state n = StatePendingAdmin) then Ok n else
  ch ← close (pn_stopChan n);
  Ok (mkPartyNode StateSoftStopped ch (pn_mainExitChan n) (pn_ackerStopped n) false (pn_net n) (pn_ledger n)).
(** The locked section of stopAndReconfigure, which is followed by the pruning of the mempool, StartBatcherService and Run. *)
Definition Batcher_reconfigure (n : party_node) : party_node := mkPartyNode StateInitializing (pn_stopChan n) (pn_mainExitChan n) false (pn_pulling n) false true.
Definition StartBatcherService (n : party_node) : party_node := mkPartyNode (pn_state n) (pn_stopChan n) (pn_mainExitChan n) (pn_ackerStopped n) (pn_pulling n) true (pn_ledger n).
Definition Batcher_Run (n : party_node) : party_node := mkPartyNode StateRunning Open (pn_mainExitChan n) (pn_ackerStopped n) true (pn_net n) (pn_ledger n).

(** ** Assembler *)
Definition Assembler_Stop (n : party_node) : outcome party_node :=
  if decide (pn_state n = StateStopped) then Ok n else
  let n := if decide (pn_state n <> StateSoftStopped /\ pn_state n <> StatePendingAdmin) then mkPartyNode (pn_state n) (pn_stopChan n) (pn_mainExitChan n) (pn_ackerStopped n) false (pn_net n) (pn_ledger n) else n in
  exit ← close (pn_mainExitChan n);
  Ok (mkPartyNode StateStopped (pn_stopChan n) exit true (pn_pulling n) false false).
Definition Assembler_SoftStop (n : party_node) : outcome party_node :=
  if decide (pn_state n = StateStopped \/ pn_state n = StateSoftStopped) then Ok n else
  Ok (mkPartyNode StateSoftStopped (pn_stopChan n) (pn_mainExitChan n) (pn_ackerStopped n) false (pn_net n) (pn_ledger n)).
(** The stop of the network, initFromConfig and StartAssemblerService. *)
Definition Assembler_stop_net (n : party_node) : party_node := mkPartyNode (pn_state n) (pn_stopChan n) (pn_mainExitChan n) (pn_ackerStopped n) (pn_pulling n) false (pn_ledger n).
Definition Assembler_initFromConfig (n : party_node) : party_node := mkPartyNode StateInitializing (pn_stopChan n) (pn_mainExitChan n) false true (pn_net n) (pn_ledger n).
Definition StartAssemblerService (n : party_node) : party_node := mkPartyNode StateRunning (pn_stopChan n) (pn_mainExitChan n) (pn_ackerStopped n) (pn_pulling n) true (pn_ledger n).

(** ** Interleavings *)
Definition node_Stop (k : node_kind) : party_node -> outcome party_node := match k with KRouter => Router_Stop | KBatcher => Batcher_Stop | KAssembler => Assembler_Stop end.
Definition node_SoftStop (k : node_kind) : party_node -> outcome party_node := match k with KRouter => Router_SoftStop | KBatcher => Batcher_SoftStop | KAssembler => Assembler_SoftStop end.
Definition node_restart (k : node_kind) : list (party_node -> party_node) :=
  match k with
  | KRouter => [Router_initFromConfig; StartRouterService]
  | KBatcher => [Batcher_reconfigure; StartBatcherService; Batcher_Run]
  | KAssembler => [Assembler_stop_net; Assembler_initFromConfig; StartAssemblerService]
  end.
Definition node_pending (n : party_node) : party_node := mkPartyNode StatePendingAdmin (pn_stopChan n) (pn_mainExitChan n) (pn_ackerStopped n) (pn_pulling n) (pn_net n) (pn_ledger n).

(** The reconfiguration: none, begun, waiting for the answer to its acknowledgement, and past it with the sections to go. *)
Inductive apply_pc := AIdle | ABegun | AWaiting | AApplying (i : nat).
Record life := mkLife { li_node : party_node; li_apply : apply_pc }.
(** A new config block is met only by a node that runs; the router gives up if it cannot be soft-stopped. *)
Inductive life_step (k : node_kind) (s : life) : outcome life -> Prop :=
| step_node_stop : life_step k s (n ← node_Stop k (li_node s); Ok (mkLife n (li_apply s)))
| step_node_config : li_apply s = AIdle -> pn_pulling (li_node s) = true -> pn_state (li_node s) = StateRunning -> life_step k s (Ok (mkLife (li_node s) ABegun))
| step_node_softstop : li_apply s = ABegun -> (forall e, node_SoftStop k (li_node s) <> Err e) -> life_step k s (n ← node_SoftStop k (li_node s); Ok (mkLife n AWaiting))
| step_node_gives_up e : li_apply s = ABegun -> node_SoftStop k (li_node s) = Err e -> life_step k s (Ok (mkLife (li_node s) AIdle))
| step_node_acked : li_apply s = AWaiting -> pn_ackerStopped (li_node s) = false -> life_step k s (Ok (mkLife (li_node s) (AApplying 0)))
| step_node_abort : li_apply s = AWaiting -> pn_ackerStopped (li_node s) = true -> life_step k s (Ok (mkLife (li_node s) AIdle))
| step_node_admin : li_apply s = AApplying 0 -> life_step k s (Ok (mkLife (node_pending (li_node s)) AIdle))
| step_node_section i f : li_apply s = AApplying i -> node_restart k !! i = Some f ->
    life_step k s (Ok (mkLife (f (li_node s)) (if decide (S i = length (node_restart k)) then AIdle else AApplying (S i)))).
Definition started_node (k : node_kind) : life := mkLife (mkPartyNode StateRunning (match k with KAssembler => Nil | _ => Open end) Open false true true true) AIdle.

(** No Stop while a reconfiguration is past the answer to its acknowledgement. *)
Definition applying (a : apply_pc) : Prop := match a with AApplying _ => True | _ => False end.
Definition life_orderly (s : life) (s' : life) : Prop := pn_state (li_node s) <> StateStopped -> pn_state (li_node s') = StateStopped -> ~ applying (li_apply s).
Inductive life_run (k : node_kind) : life -> Prop :=
| life_start : life_run k (started_node k)
| life_next s s' : life_run k s -> life_step k s (Ok s') -> life_run k s'.
Inductive orderly_life (k : node_kind) : life -> Prop :=
| orderly_life_start : orderly_life k (started_node k)
| orderly_life_next s s' : orderly_life k s -> life_step k s (Ok s') -> life_orderly s s' -> orderly_life k s'.

(** ** The invariant of orderly runs *)
Definition state_ok (k : node_kind) (s : life) : Prop :=
  let n := li_node s in
  match li_apply s with
  | AIdle => pn_state n <> StateInitializing
  | ABegun => pn_state n = StateRunning \/ pn_state n = StateStopped
  | AWaiting => pn_state n = StateSoftStopped \/ pn_state n = StateStopped
  | AApplying 0 => pn_state n = StateSoftStopped
  | AApplying 1 => pn_state n = match k with KAssembler => StateSoftStopped | _ => StateInitializing end
  | AApplying _ => pn_state n = StateInitializing
  end.
Record life_inv (k : node_kind) (s : life) : Prop := {
  lv_state : state_ok k s;
  lv_exit : pn_mainExitChan (li_node s) = if decide (pn_state (li_node s) = StateStopped) then Closed else Open;
  lv_acker : pn_ackerStopped (li_node s) = bool_decide (pn_state (li_node s) = StateStopped);
  lv_stopChan : k = KBatcher -> pn_state (li_node s) = StateRunning -> pn_stopChan (li_node s) = Open;
  lv_running : pn_state (li_node s) = StateRunning -> pn_net (li_node s) = true /\ pn_ledger (li_node s) = true /\ pn_pulling (li_node s) = true;
  lv_stopped : pn_state (li_node s) = StateStopped -> pn_net (li_node s) = false /\ pn_ledger (li_node s) = false /\ pn_pulling (li_node s) = false;
  lv_soft : pn_state (li_node s) = StateSoftStopped \/ pn_state (li_node s) = StatePendingAdmin -> pn_ledger (li_node s) = true /\ pn_pulling (li_node s) = false /\ (k = KRouter -> pn_net (li_node s) = false);
  lv_init : pn_state (li_node s) = StateInitializing -> pn_ledger (li_node s) = true /\ (k = KAssembler -> pn_pulling (li_node s) = true) /\ (k = KBatcher -> li_apply s = AApplying 2 -> pn_net (li_node s) = true)
}.

Lemma life_stop_inv k s : life_inv k s -> exists s', (n ← node_Stop k (li_node s); Ok (mkLife n (li_apply s))) = Ok s' /\ (life_orderly s s' -> life_inv k s') \/ applying (li_apply s).
Proof.
  intros Hi. destruct s as [n [| | |i]] eqn:Es; [| | |exists s; right; by subst]; subst s.
  all: destruct n as [st ch exit acker pull net ledger]; destruct Hi as [Hst Hex Hack Hsc Hrun Hstop Hsoft Hinit]; cbn in Hst, Hex, Hack, Hsc, Hrun, Hstop, Hsoft, Hinit; subst exit acker.
  all: destruct k; unfold node_Stop, Router_Stop, Batcher_Stop, Assembler_Stop; destruct st; cbn in *; try (exfalso; intuition congruence).
  all: try (rewrite (Hsc eq_refl eq_refl)); eexists; left; (split; [reflexivity|]); intros _; split; cbn; try done; try (intuition congruence).
Qed.

Lemma life_softstop_inv k s : life_inv k s -> li_apply s = ABegun -> (forall e, node_SoftStop k (li_node s) <> Err e) -> exists n, node_SoftStop k (li_node s) = Ok n /\ life_inv k (mkLife n AWaiting).
Proof.
  intros Hi Ha Hne. destruct s as [[st ch exit acker pull net ledger] a]. cbn in Ha. subst a. destruct Hi as [Hst Hex Hack Hsc Hrun Hstop Hsoft Hinit]; cbn in Hst, Hex, Hack, Hsc, Hrun, Hstop, Hsoft, Hinit; subst exit acker. cbn [li_node] in *.
  destruct k; unfold node_SoftStop, Router_SoftStop, Batcher_SoftStop, Assembler_SoftStop in *; destruct st; cbn in *; try (exfalso; intuition congruence); try (exfalso; eapply Hne; reflexivity).
  all: try (rewrite (Hsc eq_refl eq_refl)); eexists; (split; [reflexivity|]); split; cbn; try done; try (intuition congruence).
Qed.

Lemma life_section_inv k s i f : life_inv k s -> li_apply s = AApplying i -> node_restart k !! i = Some f ->
  life_inv k (mkLife (f (li_node s)) (if decide (S i = length (node_restart k)) then AIdle else AApplying (S i))).
Proof.
  intros Hi Ha Hf. destruct s as [[st ch exit acker pull net ledger] a]. cbn in Ha. subst a. destruct Hi as [Hst Hex Hack Hsc Hrun Hstop Hsoft Hinit]; cbn in Hst, Hex, Hack, Hsc, Hrun, Hstop, Hsoft, Hinit; subst exit acker. cbn [li_node].
  destruct k, i as [|[|[|i]]]; cbn in Hf; try discriminate Hf; injection Hf as <-; cbn in *; subst st; cbn in *; split; cbn; try done; try (intuition congruence).
Qed.

(** Every step succeeds, and an orderly one keeps the invariant, unless it is a Stop in the middle of a restart. *)
Lemma life_step_inv k s o : life_inv k s -> life_step k s o -> (exists s', o = Ok s' /\ (life_orderly s s' -> life_inv k s')) \/ (applying (li_apply s) /\ o = (n ← node_Stop k (li_node s); Ok (mkLife n (li_apply s)))).
Proof.
  intros Hi Hs. destruct Hs as [|Ha Hp Hst|Ha Hne|e Ha He|Ha Hack|Ha Hack|Ha|i f Ha Hf].
  - destruct (life_stop_inv k s Hi) as (s' & [[-> Hs']|Happ]); [left; by exists s'|by right].
  - left. eexists. split; [done|intros _]. destruct Hi. split; cbn; try done; [by left|]. intros E. congruence.
  - left. destruct (life_softstop_inv k s Hi Ha Hne) as (n & -> & Hn). eexists. split; [done|]. auto.
  - left. eexists. split; [done|intros _]. destruct Hi as [Hst Hex Hk Hsc Hrun Hstop Hsoft Hinit]. unfold state_ok in Hst. rewrite Ha in Hst. split; cbn; try done; [intuition congruence|]. intros E. intuition congruence.
  - left. eexists. split; [done|intros _]. destruct Hi as [Hst Hex Hk Hsc Hrun Hstop Hsoft Hinit]. unfold state_ok in Hst. rewrite Ha in Hst. rewrite Hk in Hack. apply bool_decide_eq_false in Hack. split; cbn; try done; intuition congruence.
  - left. eexists. split; [done|intros _]. destruct Hi as [Hst Hex Hk Hsc Hrun Hstop Hsoft Hinit]. unfold state_ok in Hst. rewrite Ha in Hst. split; cbn; try done; [intuition congruence|]. intros E. intuition congruence.
  - left. eexists. split; [done|intros _]. destruct Hi as [Hst Hex Hk Hsc Hrun Hstop Hsoft Hinit]. unfold state_ok in Hst. rewrite Ha in Hst. rewrite Hst in Hex, Hk, Hsoft. cbn in Hex, Hk. split; cbn; try done. intros _. apply Hsoft. by left.
  - left. eexists. split; [done|intros _]. by apply life_section_inv.
Qed.

Lemma started_node_inv k : life_inv k (started_node k).
Proof. split; cbn; try done; [by intros ->|intuition congruence]. Qed.

Lemma orderly_life_inv k s : orderly_life k s -> life_inv k s.
Proof.
  induction 1 as [|s s' _ IH Hs Ho]; [apply started_node_inv|]. destruct (life_step_inv k s _ IH Hs) as [(s1 & [= <-] & H1)|[Happ E]]; [by apply H1|].
  pose proof (lv_state _ _ IH) as Hst. destruct (node_Stop k (li_node s)) as [n| |] eqn:En; [|done..]. cbn in E. injection E as ->. exfalso.
  assert (pn_state (li_node s) <> StateStopped) as Hns. { unfold state_ok in Hst. destruct (li_apply s) as [| | |[|[|i]]]; try done; rewrite Hst; try done. by destruct k. }
  apply (Ho Hns); [|done]. cbn. destruct k; cbn in En; unfold Router_Stop, Batcher_Stop, Assembler_Stop in En; rewrite decide_False in En by done.
  - by apply bind_Ok_inv in En as (ex & _ & [= <-]).
  - apply bind_Ok_inv in En as (n1 & _ & En). by apply bind_Ok_inv in En as (ex & _ & [= <-]).
  - by apply bind_Ok_inv in En as (ex & _ & [= <-]).
Qed.

(** Routers, batchers and assemblers stop and reconfigure in order. In every interleaving of Stop calls and reconfigurations in which no Stop takes place between the answer to the acknowledgement of a
    new configuration and the end of the restart with it: no step panics, so no channel is closed twice; a running node has its network, its ledger and the goroutines that follow the
    consensus; the exit of the main program is signalled exactly if the node is stopped; a stopped node has closed all of them, also if it was stopped in the middle of a soft stop or of the wait for the
    answer; and it stays stopped. *)
Theorem nodes_stop_in_order k s : orderly_life k s ->
  (~ applying (li_apply s) -> forall o, life_step k s o -> exists s', o = Ok s') /\
  (pn_state (li_node s) = StateRunning -> pn_net (li_node s) = true /\ pn_ledger (li_node s) = true /\ pn_pulling (li_node s) = true) /\
  (pn_mainExitChan (li_node s) = Closed <-> pn_state (li_node s) = StateStopped) /\
  (pn_state (li_node s) = StateStopped -> (pn_net (li_node s) = false /\ pn_ledger (li_node s) = false /\ pn_pulling (li_node s) = false) /\
     forall s', life_step k s (Ok s') -> pn_state (li_node s') = StateStopped).
Proof.
  intros Hi%orderly_life_inv. split; [|split; [|split]].
  - intros Hna o Ho. destruct (life_step_inv k s o Hi Ho) as [(s' & -> & _)|[Happ _]]; [by eexists|done].
  - apply (lv_running _ _ Hi).
  - rewrite (lv_exit _ _ Hi). by destruct (decide _).
  - intros Hst. split; [by apply (lv_stopped _ _ Hi)|]. intros s' Hs. pose proof (lv_state _ _ Hi) as Hok. pose proof (lv_acker _ _ Hi) as Hack. unfold state_ok in Hok. rewrite Hst in Hack, Hok. cbn in Hack.
    inversion Hs as [E|Ha Hp Hr|Ha Hne E|e Ha He|Ha Hk|Ha Hk|Ha|i f Ha Hf]; subst; cbn; try congruence.
    + unfold node_Stop, Router_Stop, Batcher_Stop, Assembler_Stop in E. destruct k; rewrite decide_True in E by done; injection E as <-; done.
    + unfold node_SoftStop, Router_SoftStop, Batcher_SoftStop, Assembler_SoftStop in E, Hne. destruct k; [exfalso; eapply Hne; rewrite bool_decide_eq_true_2 by auto; reflexivity| |]; rewrite decide_True in E by auto; injection E as <-; done.
    + rewrite Ha in Hok. done.
    + rewrite Ha in Hok. destruct i as [|[|i]]; [done|by destruct k|done].
Qed.

(** ** A Stop in the middle of a restart *)
Lemma life_next_eq k s o s' : life_run k s -> life_step k s o -> o = Ok s' -> life_run k s'.
Proof. intros Hr Hs ->. by eapply life_next. Qed.
(** The run to a node that has the answer to its acknowledgement. *)
Definition acked_node (k : node_kind) : life := match node_SoftStop k (li_node (started_node k)) with Ok n => mkLife n (AApplying 0) | _ => started_node k end.
Lemma acked_reached k : life_run k (acked_node k).
Proof.
  destruct k;
    (eapply life_next_eq; [eapply life_next_eq; [eapply life_next_eq; [apply life_start|by apply step_node_config|reflexivity]|by apply step_node_softstop|reflexivity]|by apply step_node_acked|reflexivity]).
Qed.
Definition stopped_then (k : node_kind) (fs : list (party_node -> party_node)) (a : apply_pc) : life :=
  match node_Stop k (li_node (acked_node k)) with Ok n => mkLife (foldl (fun n f => f n) n fs) a | _ => started_node k end.

(** What the sender of acknowledgements does not prevent. If a node is stopped between the answer to its acknowledgement and the end of the restart, it exits and then runs
    again: there is an interleaving, of a router, of a batcher and of an assembler, in which the node runs although the exit of the main program was signalled, and the next Stop closes the exit channel a second time,
    which panics. And a batcher that is stopped while its mempool is pruned in the restart closes its stop channel, which the soft stop has closed before, and panics at once. *)
Theorem stop_during_restart :
  (forall k, exists s e, life_run k s /\ pn_mainExitChan (li_node s) = Closed /\ pn_state (li_node s) = StateRunning /\ life_step k s (Panic e)) /\
  (exists s e, life_run KBatcher s /\ pn_mainExitChan (li_node s) = Open /\ pn_state (li_node s) = StateInitializing /\ life_step KBatcher s (Panic e)).
Proof.
  split.
  - intros k. exists (stopped_then k (node_restart k) AIdle), "close of closed channel"%string. split; [|destruct k; (split; [reflexivity|]; split; [reflexivity|]; apply step_node_stop)].
    pose proof (acked_reached k) as Hr. assert (life_run k (stopped_then k [] (AApplying 0))) as Hs by (destruct k; eapply life_next_eq; [exact Hr|apply step_node_stop|reflexivity|exact Hr|apply step_node_stop|reflexivity|exact Hr|apply step_node_stop|reflexivity]).
    destruct k.
    + eapply life_next_eq; [eapply life_next_eq; [exact Hs|by apply (step_node_section _ _ 0)|reflexivity]|by apply (step_node_section _ _ 1)|reflexivity].
    + eapply life_next_eq; [eapply life_next_eq; [eapply life_next_eq; [exact Hs|by apply (step_node_section _ _ 0)|reflexivity]|by apply (step_node_section _ _ 1)|reflexivity]|by apply (step_node_section _ _ 2)|reflexivity].
    + eapply life_next_eq; [eapply life_next_eq; [eapply life_next_eq; [exact Hs|by apply (step_node_section _ _ 0)|reflexivity]|by apply (step_node_section _ _ 1)|reflexivity]|by apply (step_node_section _ _ 2)|reflexivity].
  - exists (mkLife (Batcher_reconfigure (li_node (acked_node KBatcher))) (AApplying 1)), "close of closed channel"%string. split; [|split; [reflexivity|split; [reflexivity|apply step_node_stop]]].
    eapply life_next_eq; [apply acked_reached|by apply (step_node_section _ _ 0)|reflexivity].
Qed.

(** A batcher that is stopped while it waits for the answer. *)
Definition waiting_batcher : life := match node_SoftStop KBatcher (li_node (started_node KBatcher)) with Ok n => mkLife n AWaiting | _ => started_node KBatcher end.
Definition stopped_batcher : life := match node_Stop KBatcher (li_node waiting_batcher) with Ok n => mkLife n AWaiting | _ => waiting_batcher end.
Lemma orderly_life_eq k s o s' : orderly_life k s -> life_step k s o -> o = Ok s' -> life_orderly s s' -> orderly_life k s'.
Proof. intros Hr Hs ->. by eapply orderly_life_next. Qed.
Lemma nodes_stop_in_order_witness : pn_mainExitChan (li_node stopped_batcher) = Closed /\ forall s', life_step KBatcher stopped_batcher (Ok s') -> pn_state (li_node s') = StateStopped.
Proof.
  destruct (nodes_stop_in_order KBatcher stopped_batcher) as (_ & _ & Hx & Hs).
  - eapply orderly_life_eq; [eapply orderly_life_eq; [eapply orderly_life_eq; [apply orderly_life_start|by apply step_node_config|reflexivity|by intros _ _ []]|by apply step_node_softstop|reflexivity|by intros _ [=]]|apply step_node_stop|reflexivity|by intros _ _ []].
  - split; [apply Hx; reflexivity|]. apply (Hs eq_refl).
Defined.
