(* ===== verification/Endpoints.v ===== *)
(** * Endpoints of the other orderers

    [src/common/deliverclient/orderers/connection.go]: the endpoints a node may pull blocks from, and their refresh when a configuration changes them. The channel of an endpoint,
    which is closed when the endpoint is stale, is its number in a store of channels. *)
From stdpp Require Import gmap sets.
From Stdlib Require Import NArith Lia.
From S2P Require Import Prelude Types.

(** ** Channels that are only closed *)
Record Chans := mkChans { ch_next : nat; ch_closed : gset nat }.
Definition make_chan (s : Chans) : nat * Chans := (ch_next s, mkChans (S (ch_next s)) (ch_closed s)).
Definition close_chan (c : nat) (s : Chans) : outcome Chans :=
  panic_if bool_decide (c ∈ ch_closed s) with "close of closed channel" ;; Ok (mkChans (ch_next s) ({[c]} ∪ ch_closed s)).

Record Endpoint := mkEndpoint { ep_Address : string; ep_RootCerts : list bytes; ep_Refreshed : nat }.
(** What a configuration says of a party: the address and the TLS root certificates of its node. *)
Notation Party2Endpoint := (gmap PartyID (string * list bytes)) (only parsing).

Record ConnectionSource := mkSource {
  cs_allEndpoints : list Endpoint;
  cs_partyToEndpoints : gmap PartyID Endpoint;
  cs_selfParty : PartyID
}.
Definition NewConnectionSource (selfParty : PartyID) : ConnectionSource := mkSource [] ∅ selfParty.

Section Source.
Context `{Sha256} `{MapRange}.

Definition flattenRootCerts (rootCerts : list bytes) : bytes := sha256 (concat rootCerts).

(** [indices] is the permutation that was drawn. *)
Definition ShuffledEndpoints (cs : ConnectionSource) (indices : list nat) : outcome (list Endpoint) := omapM (fun idx => Prelude.index (cs_allEndpoints cs) idx) indices.
Definition RandomEndpoint (cs : ConnectionSource) (draw : nat) : outcome Endpoint :=
  fail_if bool_decide (length (cs_allEndpoints cs) = 0) with "no endpoints currently defined" ;; Prelude.index (cs_allEndpoints cs) draw.

Definition endpoint_changed (existing : option Endpoint) (e : string * list bytes) : bool :=
  match existing with
  | None => true
  | Some x => bool_decide (e.1 <> ep_Address x) || bool_decide (flattenRootCerts e.2 <> flattenRootCerts (ep_RootCerts x))
  end.
Definition detectChanges (cs : ConnectionSource) (party2Endpoints : Party2Endpoint) : bool :=
  bool_decide (size party2Endpoints <> size (cs_partyToEndpoints cs)) ||
  existsb (fun pe => endpoint_changed (cs_partyToEndpoints cs !! pe.1) pe.2) (range_map 0 party2Endpoints).

Fixpoint close_all (eps : list (PartyID * Endpoint)) (s : Chans) : outcome Chans :=
  match eps with [] => Ok s | (_, e) :: rest => s ← close_chan (ep_Refreshed e) s; close_all rest s end.

(** A party's fresh endpoint goes into the map, and unless it is the own one also to the end of the list. *)
Fixpoint add_fresh (entries : list (PartyID * (string * list bytes))) (cs : ConnectionSource) (s : Chans) : ConnectionSource * Chans :=
  match entries with
  | [] => (cs, s)
  | (party, (address, rootCerts)) :: rest =>
      let (c, s) := make_chan s in
      let fresh := mkEndpoint address rootCerts c in
      let all := if (party =? cs_selfParty cs)%N then cs_allEndpoints cs else cs_allEndpoints cs ++ [fresh] in
      add_fresh rest (mkSource all (<[party := fresh]> (cs_partyToEndpoints cs)) (cs_selfParty cs)) s
  end.

Definition Update2 (party2Endpoints : Party2Endpoint) (cs : ConnectionSource) (s : Chans) : outcome (ConnectionSource * Chans) :=
  if negb (detectChanges cs party2Endpoints) then Ok (cs, s)
  else
    s ← close_all (range_map 1 (cs_partyToEndpoints cs)) s;
    Ok (add_fresh (range_map 2 party2Endpoints) (NewConnectionSource (cs_selfParty cs)) s).

Fixpoint updates (l : list Party2Endpoint) (cs : ConnectionSource) (s : Chans) : outcome (ConnectionSource * Chans) :=
  match l with [] => Ok (cs, s) | p :: rest => r ← Update2 p cs s; updates rest r.1 r.2 end.
End Source.

(** ** Theorems *)
Section Theorems.
Context `{Sha256} `{MapRange}.

(** The endpoints to fetch from are those of the other parties. *)
Definition others (cs : ConnectionSource) : Prop := cs_allEndpoints cs ≡ₚ (map_to_list (delete (cs_selfParty cs) (cs_partyToEndpoints cs))).*2.
(** The channels made since number [base] that are open are those of the current endpoints, and every party has its own. *)
Record current (base : nat) (cs : ConnectionSource) (s : Chans) : Prop := {
  cu_others : others cs;
  cu_base : base <= ch_next s;
  cu_open : forall c, base <= c < ch_next s -> c ∉ ch_closed s <-> exists party e, cs_partyToEndpoints cs !! party = Some e /\ ep_Refreshed e = c;
  cu_range : forall party e, cs_partyToEndpoints cs !! party = Some e -> base <= ep_Refreshed e < ch_next s;
  cu_distinct : forall p q e e', cs_partyToEndpoints cs !! p = Some e -> cs_partyToEndpoints cs !! q = Some e' -> ep_Refreshed e = ep_Refreshed e' -> p = q;
  cu_bound : forall c, c ∈ ch_closed s -> c < ch_next s
}.

Lemma add_fresh_spec : forall entries cs s cs' s', add_fresh entries cs s = (cs', s') -> NoDup entries.*1 -> (forall p, p ∈ entries.*1 -> cs_partyToEndpoints cs !! p = None) ->
  ch_closed s' = ch_closed s /\ ch_next s' = ch_next s + length entries /\ cs_selfParty cs' = cs_selfParty cs /\ (others cs -> others cs') /\
  forall p e, cs_partyToEndpoints cs' !! p = Some e <-> cs_partyToEndpoints cs !! p = Some e \/ exists i a rc, entries !! i = Some (p, (a, rc)) /\ e = mkEndpoint a rc (ch_next s + i).
Proof.
  induction entries as [|[p [a rc]] entries IH]; intros cs s cs' s' E Hnd Hfresh; cbn [add_fresh make_chan] in E.
  { injection E as <- <-. rewrite Nat.add_0_r. do 4 (split; [done|]). intros q e. split; [by left|intros [?|(i & a & rc & Hi & _)]; [done|by rewrite lookup_nil in Hi]]. }
  apply NoDup_cons in Hnd as [Hp Hnd]. pose proof (Hfresh p ltac:(by left)) as Hnone. apply IH in E; [|done|].
  2: { intros q Hq. cbn. rewrite lookup_insert_ne by (intros ->; done). apply Hfresh. by right. }
  cbn [ch_closed ch_next cs_selfParty cs_partyToEndpoints length] in E. destruct E as (Hc & Hn & Hs & Ho & Hl). split; [done|]. split; [cbn [length]; lia|]. split; [done|]. split.
  - intros Hcs. apply Ho. unfold others in *. cbn [cs_allEndpoints cs_selfParty cs_partyToEndpoints]. destruct (N.eqb_spec p (cs_selfParty cs)) as [->|Hne].
    + by rewrite delete_insert_eq.
    + rewrite delete_insert_ne by done. rewrite map_to_list_insert by (by rewrite lookup_delete_ne). cbn [fmap list_fmap snd]. rewrite Hcs. apply Permutation_app_comm.
  - intros q e. rewrite Hl. destruct (decide (q = p)) as [->|Hne].
    + rewrite lookup_insert_eq, Hnone. split; [intros [[= <-]|(i & a' & rc' & Hi & _)]|intros [?|([|i] & a' & rc' & Hi & ->)]]; try done.
      * right. exists 0, a, rc. by rewrite Nat.add_0_r.
      * exfalso. apply Hp. apply list_elem_of_fmap. exists (p, (a', rc')). split; [done|]. by eapply list_elem_of_lookup_2.
      * injection Hi as <- <-. left. by rewrite Nat.add_0_r.
      * exfalso. apply Hp. apply list_elem_of_fmap. exists (p, (a', rc')). split; [done|]. by eapply list_elem_of_lookup_2.
    + rewrite lookup_insert_ne by done. split; (intros [?|(i & a' & rc' & Hi & ->)]; [by left|right]).
      * exists (S i), a', rc'. split; [done|]. f_equal. lia.
      * destruct i as [|i]; [cbn in Hi; congruence|]. exists i, a', rc'. split; [done|]. f_equal. lia.
Qed.

Lemma close_all_spec : forall eps s, NoDup (ep_Refreshed <$> eps.*2) -> (forall e, e ∈ eps.*2 -> ep_Refreshed e ∉ ch_closed s) ->
  close_all eps s = Ok (mkChans (ch_next s) (list_to_set (ep_Refreshed <$> eps.*2) ∪ ch_closed s)).
Proof.
  induction eps as [|[p e] eps IH]; intros s Hnd Hopen; cbn [close_all fmap list_fmap snd list_to_set].
  { rewrite (left_id_L ∅ (∪)). by destruct s. }
  cbn [fmap list_fmap snd] in Hnd. apply NoDup_cons in Hnd as [He Hnd]. unfold close_chan. rewrite bool_decide_eq_false_2 by (apply Hopen; by left). cbn [guard_panic mbind outcome_bind].
  rewrite IH; [|done|]. 2: { intros e' He'. cbn [ch_closed]. intros [Heq%elem_of_singleton|Hcl]%elem_of_union; [|by eapply (Hopen e'); [by right|]]. apply He. rewrite <-Heq. by apply list_elem_of_fmap_2. }
  cbn [ch_next ch_closed]. do 2 f_equal. set_solver.
Qed.

Lemma map_values_NoDup {A B} (f : A -> B) (m : gmap PartyID A) : (forall p q e e', m !! p = Some e -> m !! q = Some e' -> f e = f e' -> p = q) -> NoDup (f <$> (map_to_list m).*2).
Proof.
  intros Hd. rewrite <-list_fmap_compose. apply NoDup_fmap_elem; [apply NoDup_map_to_list|]. intros [p e] [q e'] Hp%elem_of_map_to_list Hq%elem_of_map_to_list Hf. cbn in Hf.
  pose proof (Hd _ _ _ _ Hp Hq Hf) as <-. congruence.
Qed.

Definition matches (p2e : Party2Endpoint) (cs : ConnectionSource) : Prop :=
  forall party, match cs_partyToEndpoints cs !! party, p2e !! party with
  | Some e, Some (address, rootCerts) => ep_Address e = address /\ flattenRootCerts (ep_RootCerts e) = flattenRootCerts rootCerts
  | None, None => True
  | _, _ => False
  end.

Lemma unchanged_matches cs p2e : detectChanges cs p2e = false -> matches p2e cs.
Proof.
  intros [Hsize%bool_decide_eq_false%dec_stable Hall]%orb_false_iff. assert (forall p a rc, p2e !! p = Some (a, rc) -> endpoint_changed (cs_partyToEndpoints cs !! p) (a, rc) = false) as Hp.
  { intros p a rc Hl. apply not_true_iff_false. intros Hc. apply not_true_iff_false in Hall. apply Hall, existsb_exists. exists (p, (a, rc)). split; [|done].
    apply list_elem_of_In. rewrite (range_perm 0 p2e). by apply elem_of_map_to_list. }
  assert (dom p2e = dom (cs_partyToEndpoints cs)) as Hdom.
  { apply set_subseteq_size_eq; [|rewrite !size_dom; lia]. intros p [[a rc] Hl]%elem_of_dom. specialize (Hp _ _ _ Hl). apply elem_of_dom. unfold endpoint_changed in Hp. by destruct (_ !! p). }
  intros p. destruct (p2e !! p) as [[a rc]|] eqn:El.
  - specialize (Hp _ _ _ El). unfold endpoint_changed in Hp. destruct (_ !! p) as [e|]; [|done]. apply orb_false_iff in Hp as [Ha%bool_decide_eq_false%dec_stable Hr%bool_decide_eq_false%dec_stable]. done.
  - apply not_elem_of_dom in El. rewrite Hdom in El. apply not_elem_of_dom in El. by rewrite El.
Qed.

Lemma Update2_spec base cs s p2e : current base cs s -> exists cs' s', Update2 p2e cs s = Ok (cs', s') /\ current base cs' s' /\ matches p2e cs' /\ cs_selfParty cs' = cs_selfParty cs.
Proof.
  intros [Ho Hb Hopen Hr Hd Hbd]. unfold Update2. destruct (detectChanges cs p2e) eqn:Ed; cbn [negb].
  2: { exists cs, s. split; [done|]. split; [by split|]. split; [by apply unchanged_matches|done]. }
  assert ((range_map 1 (cs_partyToEndpoints cs)).*2 ≡ₚ (map_to_list (cs_partyToEndpoints cs)).*2) as Hperm by by rewrite range_perm.
  assert (forall e, e ∈ (range_map 1 (cs_partyToEndpoints cs)).*2 <-> exists p, cs_partyToEndpoints cs !! p = Some e) as Hin.
  { intros e. rewrite Hperm, list_elem_of_fmap. split; [intros ([p e'] & -> & Hp%elem_of_map_to_list); by exists p|intros (p & Hp); exists (p, e); by rewrite elem_of_map_to_list]. }
  rewrite close_all_spec.
  2: { rewrite Hperm. by apply map_values_NoDup. }
  2: { intros e (p & Hp)%Hin. apply Hopen; [by eapply Hr|]. by exists p, e. }
  cbn [mbind outcome_bind]. destruct (add_fresh _ _ _) as [cs' s'] eqn:Ea. apply add_fresh_spec in Ea.
  2: { rewrite (range_perm 2 p2e). apply NoDup_fst_map_to_list. }
  2: { intros p _. apply lookup_empty. }
  cbn [ch_closed ch_next cs_selfParty NewConnectionSource cs_partyToEndpoints] in Ea. destruct Ea as (Hc & Hn & Hs & Ho' & Hl). exists cs', s'. split; [done|].
  assert (forall p e, cs_partyToEndpoints cs' !! p = Some e <-> exists i a rc, range_map 2 p2e !! i = Some (p, (a, rc)) /\ e = mkEndpoint a rc (ch_next s + i)) as Hl'.
  { intros p e. rewrite Hl, lookup_empty. split; [by intros [?|?]|by right]. }
  assert (forall c, c ∈ ch_closed s' -> c < ch_next s) as Hcl.
  { intros c. rewrite Hc, elem_of_union, elem_of_list_to_set, list_elem_of_fmap. intros [(e & -> & (p & Hp)%Hin)|?]; [by eapply Hr|by apply Hbd]. }
  split; [split|split; [|done]].
  - apply Ho'. unfold others. cbn. by rewrite delete_empty, map_to_list_empty.
  - lia.
  - intros c Hc'. destruct (decide (c < ch_next s)) as [Hlt|Hge].
    + split; [|intros (p & e & (i & a & rc & _ & ->)%Hl' & Ee); cbn in Ee; lia]. intros Hnc. exfalso. apply Hnc. rewrite Hc. apply elem_of_union.
      destruct (decide (c ∈ ch_closed s)) as [?|Hno]; [by right|left]. apply Hopen in Hno as (p & e & Hp & <-); [|lia]. apply elem_of_list_to_set, list_elem_of_fmap_2, Hin. by exists p.
    + split; [intros _|by intros _ ?%Hcl]. destruct (range_map 2 p2e !! (c - ch_next s)) as [[p [a rc]]|] eqn:Ei; [|apply lookup_ge_None in Ei; lia].
      exists p, (mkEndpoint a rc c). split; [|done]. apply Hl'. exists (c - ch_next s), a, rc. split; [done|]. f_equal. lia.
  - intros p e (i & a & rc & Hi%lookup_lt_Some & ->)%Hl'. cbn. lia.
  - intros p q e e' (i & a & rc & Hi & ->)%Hl' (j & a' & rc' & Hj & ->)%Hl' Ee. cbn in Ee. assert (i = j) as -> by lia. congruence.
  - intros c ?%Hcl. lia.
  - intros p. destruct (cs_partyToEndpoints cs' !! p) as [e|] eqn:Ee.
    + apply Hl' in Ee as (i & a & rc & Hi%list_elem_of_lookup_2 & ->). rewrite (range_perm 2 p2e) in Hi. apply elem_of_map_to_list in Hi. by rewrite Hi.
    + destruct (p2e !! p) as [[a rc]|] eqn:Ep; [|done]. apply elem_of_map_to_list in Ep. rewrite <-(range_perm 2 p2e) in Ep. apply list_elem_of_lookup in Ep as (i & Hi).
      rewrite (proj2 (Hl' p (mkEndpoint a rc (ch_next s + i)))) in Ee; [done|]. by exists i, a, rc.
Qed.

(** The sources of a node follow the configuration. However configurations change the endpoints, applying them never closes a channel twice; afterwards the node knows exactly the
    parties of the last configuration, with its addresses and certificates, would fetch from all of them but itself, and exactly the endpoints it handed out that are still current are not marked as refreshed. *)
Theorem endpoints_follow_config self (l : list Party2Endpoint) p2e s0 : (forall c, c ∈ ch_closed s0 -> c < ch_next s0) ->
  exists cs s, updates (l ++ [p2e]) (NewConnectionSource self) s0 = Ok (cs, s) /\ matches p2e cs /\ cs_selfParty cs = self /\ others cs /\
    forall c, ch_next s0 <= c < ch_next s -> c ∉ ch_closed s <-> exists party e, cs_partyToEndpoints cs !! party = Some e /\ ep_Refreshed e = c.
Proof.
  intros Hbd. assert (current (ch_next s0) (NewConnectionSource self) s0) as Hcur.
  { split; cbn; try done; [|intros c ?; lia]. unfold others. cbn. by rewrite delete_empty, map_to_list_empty. }
  assert (forall l cs s, current (ch_next s0) cs s -> exists cs' s', updates (l ++ [p2e]) cs s = Ok (cs', s') /\ current (ch_next s0) cs' s' /\ matches p2e cs' /\ cs_selfParty cs' = cs_selfParty cs) as Hall.
  { clear. intros l. induction l as [|p l IH]; intros cs s Hcur; cbn [app updates].
    - destruct (Update2_spec _ _ _ p2e Hcur) as (cs' & s' & -> & Hc & Hm & Hs). by exists cs', s'.
    - destruct (Update2_spec _ _ _ p Hcur) as (cs1 & s1 & -> & Hc & _ & Hs). cbn [mbind outcome_bind fst snd]. destruct (IH _ _ Hc) as (cs' & s' & -> & Hc' & Hm & Hs'). exists cs', s'. by rewrite Hs', Hs. }
  destruct (Hall l _ _ Hcur) as (cs & s & -> & [Ho _ Hopen _ _ _] & Hm & Hs). exists cs, s. by rewrite Hs.
Qed.

Lemma shuffled_perm cs indices : indices ≡ₚ seq 0 (length (cs_allEndpoints cs)) -> exists l, ShuffledEndpoints cs indices = Ok l /\ l ≡ₚ cs_allEndpoints cs.
Proof.
  intros Hp. unfold ShuffledEndpoints. assert (forall e, e ∈ indices -> e < length (cs_allEndpoints cs)) as Hlt. { intros e. rewrite Hp. rewrite elem_of_seq. lia. }
  assert (exists l, omapM (fun idx => Prelude.index (cs_allEndpoints cs) idx) indices = Ok l) as (l & El).
  { clear Hp. induction indices as [|i indices IH]; [by exists []|]. cbn [omapM]. destruct (lookup_lt_is_Some_2 (cs_allEndpoints cs) i) as (e & He); [apply Hlt; by left|].
    apply index_Ok in He. rewrite He. cbn [mbind outcome_bind]. destruct IH as (l & ->); [intros; apply Hlt; by right|]. by exists (e :: l). }
  exists l. split; [done|]. apply omapM_Ok in El. assert (l = omap (fun i => cs_allEndpoints cs !! i) indices) as ->.
  { clear Hp Hlt. induction El as [|i e idx l Hi _ IH]; [done|]. apply index_Ok in Hi. cbn [omap list_omap]. by rewrite Hi, <-IH. }
  rewrite Hp. clear. generalize (cs_allEndpoints cs). intros l. assert (forall pre, omap (fun i => (pre ++ l) !! i) (seq (length pre) (length l)) = l) as Hg; [|specialize (Hg []); cbn in Hg; by rewrite Hg].
  induction l as [|e l IH]; intros pre; [done|]. cbn [length seq omap list_omap]. rewrite list_lookup_middle by done. f_equal. specialize (IH (pre ++ [e])).
  rewrite <-app_assoc, length_app, Nat.add_1_r in IH. exact IH.
Qed.
End Theorems.
