(* ===== verification/SyncTarget.v ===== *)
(** * What a node that synchronizes learns of the others first

    The probes of [src/node/comm/deliver.go] (heights and genesis blocks by endpoint), the target height of [src/node/consensus/synchronizer/synchronizer_bft.go]
    and the choice of a genesis block in [src/common/synchronizer/genesis.go]. The endpoints are probed in parallel; their answers are a list in the order in which they arrive. *)
From stdpp Require Import gmap sets sorting.
From Stdlib Require Import NArith ZArith Lia.
From S2P Require Import Prelude Types Blocks Endpoints.

(** ** Responses of a deliver service *)
Inductive Status := SUCCESS | FORBIDDEN | SERVICE_UNAVAILABLE | OtherStatus.
Inductive DeliverResponse := ResponseStatus (s : Status) | ResponseBlock (b : option Block) | ResponseUnknown.
Definition ErrForbidden : gerror := "forbidden pulling the channel".
Definition ErrServiceUnavailable : gerror := "service unavailable".

Definition extractBlockFromResponse (resp : DeliverResponse) : outcome Block :=
  match resp with
  | ResponseBlock block =>
      block ← of_option "block is nil" block;
      _ ← of_option "block data is nil" (b_Data block);
      _ ← of_option "block header is nil" (b_Header block);
      fail_if bool_decide (length (default [] (b_Metadata block)) = 0) with "block metadata is empty" ;; Ok block
  | ResponseStatus FORBIDDEN => Err ErrForbidden
  | ResponseStatus SERVICE_UNAVAILABLE => Err ErrServiceUnavailable
  | ResponseStatus _ => Err "faulty node"
  | ResponseUnknown => Err "response is of unexpected type"
  end.

(** ** Probing for heights *)
(** [resp] is the response to the request of the newest block, or the error of the connection, of the stream or of its timeout. *)
Definition fetchLastBlockSeq (minRequestedSequence : N) (resp : outcome DeliverResponse) : outcome N :=
  resp ← resp;
  block ← extractBlockFromResponse resp;
  header ← deref (b_Header block);
  fail_if (bh_Number header <? minRequestedSequence)%N with "endpoint is below the minimum requested sequence" ;; Ok (bh_Number header).

Record endpointInfo := mkInfo { ei_endpoint : string; ei_lastBlockSeq : N; ei_certificate : option bytes }.
(** An endpoint, its certificate, and its response. *)
Definition Probe : Type := string * option bytes * outcome DeliverResponse.
Definition probeEndpoint (min : N) (p : Probe) : outcome endpointInfo :=
  seq ← fetchLastBlockSeq min p.2; Ok (mkInfo p.1.1 seq p.1.2).
Definition failed_with (e : gerror) (o : outcome endpointInfo) : bool := match o with Err e' => bool_decide (e' = e) | _ => false end.

(** The endpoints that answered, and the error if none did. *)
Definition probeEndpoints (min : N) (arrivals : list Probe) : list endpointInfo * option gerror :=
  let results := probeEndpoint min <$> arrivals in
  let bucket := omap (fun r => match r with Ok i => Some i | _ => None end) results in
  let err := if existsb (failed_with ErrServiceUnavailable) results && bool_decide (length bucket = 0) then Some ErrServiceUnavailable else None in
  let err := if existsb (failed_with ErrForbidden) results && bool_decide (length bucket = 0) then Some ErrForbidden else err in
  (bucket, err).
(** The first answer of an endpoint counts. *)
Definition byEndpoints (bucket : list endpointInfo) : gmap string endpointInfo :=
  foldl (fun m i => match m !! ei_endpoint i with Some _ => m | None => <[ei_endpoint i := i]> m end) ∅ bucket.

(** Descending. *)
Definition desc (a b : N) : Prop := (b <= a)%N.
#[export] Instance desc_dec : RelDecision desc := fun a b => N.le_dec b a.

Section Heights.
Context `{MapRange}.

Definition HeightsByEndpoints (MyOwnTLSCert : option bytes) (arrivals : list Probe) : gmap string N * string * option gerror :=
  let eib := probeEndpoints 0 arrivals in
  let infos := byEndpoints eib.1 in
  let myEndpoint := foldl (fun my '(endpoint, ei) => if bool_decide (MyOwnTLSCert <> None) && bool_decide (MyOwnTLSCert = ei_certificate ei) then endpoint else my) ""%string (range_map 0 infos) in
  ((fun ei => u64 (ei_lastBlockSeq ei + 1)) <$> infos, myEndpoint, eib.2).

(** [clusterSize] is a length, so not negative. *)
Definition tolerated_faults (clusterSize : Z) : N := (Z.to_N ((clusterSize - 1) mod 18446744073709551616) / 3)%N.
Definition computeTargetHeight (clusterSize : Z) (heights : list N) : outcome N :=
  let heights := merge_sort desc heights in
  let f := tolerated_faults clusterSize in
  let lenH := N.of_nat (length heights) in
  if (lenH <? u64 (f + 1))%N then Prelude.index heights (length heights - 1) else Prelude.index heights (N.to_nat f).

Definition detectTargetHeight (clusterSize : Z) (MyOwnTLSCert : option bytes) (arrivals : list Probe) : outcome (N * string) :=
  let '(heightByEndpoint, myEndpoint, err) := HeightsByEndpoints MyOwnTLSCert arrivals in
  fail_if bool_decide (err <> None) with "cannot get HeightsByEndpoints" ;;
  let heightByEndpoint := delete myEndpoint heightByEndpoint in
  let heights := (range_map 1 heightByEndpoint).*2 in
  fail_if bool_decide (length heights = 0) with "no cluster members to synchronize with" ;;
  targetHeight ← computeTargetHeight clusterSize heights;
  Ok (targetHeight, myEndpoint).
End Heights.

(** ** The endpoints that are probed *)
Definition extractEndpointCriteriaFromConfig `{MapRange} (myPartyID : PartyID) (party2endpoint : outcome Party2Endpoint) : outcome (list (string * list bytes)) :=
  p2e ← party2endpoint;
  Ok (omap (fun '(party, ep) => if (party =? myPartyID)%N then None else Some ep) (range_map 0 p2e)).

(** ** Genesis blocks *)
Definition fetchGenesisFromEndpoint (p : Probe) : outcome (string * Block) :=
  resp ← wrap_err "failed to receive block" p.2;
  block ← wrap_err "invalid block response" (extractBlockFromResponse resp);
  fail_if negb (bool_decide (bh_Number <$> b_Header block = Some 0%N)) with "expected block 0" ;; Ok (p.1.1, block).
(** The first block of an endpoint counts. *)
Definition GenesisByEndpoints (arrivals : list Probe) : outcome (gmap string Block) :=
  let infos := omap (fun p => match fetchGenesisFromEndpoint p with Ok i => Some i | _ => None end) arrivals in
  let result := foldl (fun (m : gmap string Block) '(e, b) => match m !! e with Some _ => m | None => <[e := b]> m end) ∅ infos in
  fail_if bool_decide (size result = 0) with "failed to fetch genesis block from any endpoint" ;; Ok result.

Section Genesis.
Context `{MapRange} `{BlockCodecs} `{Sha256}.

(** The counts and the blocks by the hexadecimal digest of their bytes; blocks that do not marshal are skipped. *)
Definition count_block (acc : gmap bytes Z * gmap bytes Block) (entry : string * option Block) : gmap bytes Z * gmap bytes Block :=
  match entry.2 with
  | None => acc
  | Some block =>
      match enc block with
      | None => acc
      | Some blockBytes =>
          let h := hex_encode (sha256 blockBytes) in
          (<[h := (default 0 (acc.1 !! h) + 1)%Z]> acc.1, <[h := block]> acc.2)
      end
  end.
Definition SelectGenesisBlock (genesisByEndpoint : gmap string (option Block)) (clusterSize : Z) : outcome (option Block) :=
  fail_if (clusterSize <=? 0)%Z with "invalid cluster size" ;;
  let '(_, requiredMatches, _) := Quorum.ComputeFTQ (Z.to_N (clusterSize mod 65536)) in
  let '(blockCounts, blockByHash) := foldl count_block (∅, ∅) (range_map 0 genesisByEndpoint) in
  match List.find (fun '(_, count) => Z.of_N requiredMatches <=? count)%Z (range_map 1 blockCounts) with
  | Some (blockHash, _) => Ok (blockByHash !! blockHash)
  | None => Err "could not find genesis block with enough matching copies"
  end.

Definition fetchGenesisBlock (clusterSize : Z) (arrivals : list Probe) : outcome (option Block) :=
  genesisByEndpoint ← wrap_err "cannot get GenesisByEndpoints" (GenesisByEndpoints arrivals);
  SelectGenesisBlock (Some <$> genesisByEndpoint) clusterSize.
End Genesis.

(** * The target height and the genesis block

    With at most [f] faulty nodes, the target of a synchronization is a height that an honest node has, and the genesis block that is chosen is the honest nodes'. *)

(** ** Target height *)
#[local] Instance desc_total : Total desc.
Proof. intros a b. unfold desc. lia. Qed.
#[local] Instance desc_trans : Transitive desc.
Proof. intros a b c. unfold desc. lia. Qed.

Lemma length_filter_fmap {A B} (f : A -> B) (P : B -> Prop) `{!forall x, Decision (P x)} l : length (filter P (f <$> l)) = length (filter (fun x => P (f x)) l).
Proof. induction l as [|x l IH]; [done|]. cbn [fmap list_fmap]. rewrite !filter_cons. destruct (decide (P (f x))); cbn; by rewrite IH. Qed.

Lemma sorted_counts (l : list N) i t : StronglySorted desc l -> l !! i = Some t ->
  length (filter (fun h => t < h)%N l) <= i /\ i < length (filter (fun h => t <= h)%N l).
Proof.
  intros Hs Hi. rewrite <-(take_drop_middle l i t Hi) in Hs |- *. pose proof (lookup_lt_Some _ _ _ Hi) as Hlt. apply StronglySorted_app in Hs as (Hcross & _ & Hs).
  apply StronglySorted_inv in Hs as [_ Hle]. rewrite Forall_forall in Hle. rewrite !filter_app, !length_app. split.
  - rewrite (filter_none _ (t :: _)). { etrans; [apply Nat.add_le_mono_r, length_filter|]. rewrite length_take. cbn. lia. }
    apply Forall_forall. intros x [->|Hx]%elem_of_cons; [lia|]. apply Hle in Hx. unfold desc in Hx. lia.
  - rewrite (filter_all _ (take i l)). { rewrite length_take, filter_cons, decide_True by lia. cbn. lia. }
    apply Forall_forall. intros x Hx. specialize (Hcross x t Hx ltac:(by left)). unfold desc in Hcross. lia.
Qed.

Lemma tolerated_small n : (0 < n <= 9223372036854775807)%Z -> tolerated_faults n = (Z.to_N (n - 1) / 3)%N /\ (tolerated_faults n + 1 <= u64_max)%N.
Proof.
  intros Hn. unfold tolerated_faults, u64_max. rewrite Z.mod_small by lia. split; [done|].
  pose proof (N.Div0.div_le_upper_bound (Z.to_N (n - 1)) 3 (Z.to_N (n - 1)) ltac:(lia)). lia.
Qed.

(** The heights above the target are at most [f], those that reach it more than [f]; with too few heights it is the smallest. *)
Lemma computeTargetHeight_spec n heights t : (0 < n <= 9223372036854775807)%Z -> computeTargetHeight n heights = Ok t ->
  if (N.of_nat (length heights) <=? tolerated_faults n)%N then t ∈ heights /\ (forall h, h ∈ heights -> (t <= h)%N)
  else length (filter (fun h => t < h)%N heights) <= N.to_nat (tolerated_faults n) < length (filter (fun h => t <= h)%N heights).
Proof.
  intros Hn E. destruct (tolerated_small n Hn) as [_ Hf]. unfold computeTargetHeight in E. rewrite u64_small in E by done.
  pose proof (StronglySorted_merge_sort desc heights) as Hs. pose proof (merge_sort_Permutation desc heights) as Hp. rewrite (Permutation_length Hp) in E. destruct (N.leb_spec (N.of_nat (length heights)) (tolerated_faults n)) as [Hle|Hgt].
  - rewrite (proj2 (N.ltb_lt _ _)) in E by lia. apply index_Ok in E. split; [rewrite <-Hp; by eapply list_elem_of_lookup_2|].
    intros h. rewrite <-Hp. intros (j & Hj)%list_elem_of_lookup. pose proof (lookup_lt_Some _ _ _ E) as Hlt. pose proof (lookup_lt_Some _ _ _ Hj) as Hltj. rewrite Hp in Hlt, Hltj.
    destruct (decide (j = length heights - 1)) as [->|Hne]; [rewrite E in Hj; injection Hj as ->; lia|].
    rewrite <-(take_drop_middle _ _ _ E) in Hs. eapply StronglySorted_app_1_elem_of in Hs; [exact Hs|apply (list_elem_of_lookup_2 _ j); rewrite lookup_take_lt by lia; exact Hj|by left].
  - rewrite (proj2 (N.ltb_ge _ _)) in E by lia. apply index_Ok in E. destruct (sorted_counts _ _ _ Hs E) as [H1 H2]. by rewrite Hp in H1, H2.
Qed.

(** C28: The target of a synchronization. When more than [f] of the other nodes report a height, [f] being the faults that the cluster tolerates, and at most [f] of them are faulty, the target is not above the height that some
    honest node reports, so it can be reached; and at most [f] nodes report more. When at most [f] answer the target is the lowest height reported, of which nothing more is known: the answers may all be faulty. *)
Theorem target_height_reachable (R : MapRange) n cert arrivals target my (faulty : gset string) : (0 < n <= 9223372036854775807)%Z -> detectTargetHeight n cert arrivals = Ok (target, my) ->
  let reported := delete my (HeightsByEndpoints cert arrivals).1.1 in let f := N.to_nat (tolerated_faults n) in
  (f < size reported -> size (faulty ∩ dom reported) <= f ->
     (exists e h, reported !! e = Some h /\ e ∉ faulty /\ (target <= h)%N) /\ length (filter (fun eh => target < eh.2)%N (map_to_list reported)) <= f) /\
  (size reported <= f -> (exists e, reported !! e = Some target) /\ forall e h, reported !! e = Some h -> (target <= h)%N).
Proof.
  intros Hn E. unfold detectTargetHeight in E. destruct (HeightsByEndpoints cert arrivals) as [[hs my'] err]. apply guard_err_Ok in E as [_ E]. apply guard_err_Ok in E as [_ E].
  apply bind_Ok_inv in E as (t & Et & E). apply Ok_inj in E. injection E as -> ->. cbn [fst]. set (rep := delete my hs) in *. apply computeTargetHeight_spec in Et; [|done].
  assert ((range_map 1 rep).*2 ≡ₚ (map_to_list rep).*2) as Hp by by rewrite range_perm.
  assert (forall e h, rep !! e = Some h -> h ∈ (range_map 1 rep).*2) as Hin. { intros e h He. rewrite Hp. apply list_elem_of_fmap. exists (e, h). by rewrite elem_of_map_to_list. }
  rewrite length_fmap, (Permutation_length (range_perm 1 rep)) in Et. rewrite length_map_to_list in Et. split.
  - intros Hlt Hfaulty. rewrite (proj2 (N.leb_gt _ _)) in Et by lia. destruct Et as [Habove Hreach]. rewrite Hp, length_filter_fmap in Habove, Hreach. split; [|done].
    destruct (pigeonhole_outside (filter (fun eh => target <= eh.2)%N (map_to_list rep)).*1 (faulty ∩ dom rep)) as (e & He & Hne).
    { apply fmap_filter_NoDup, NoDup_fst_map_to_list. }
    { rewrite length_fmap. lia. }
    apply list_elem_of_fmap in He as ([e' h] & -> & [Hle He']%list_elem_of_filter). apply elem_of_map_to_list in He'. exists e', h. split; [done|]. split; [|done].
    intros Hf. apply Hne. apply elem_of_intersection. split; [done|]. by eapply elem_of_dom_2.
  - intros Hle. rewrite (proj2 (N.leb_le _ _)) in Et by lia. destruct Et as [Ht Hmin]. split; [|intros e h He; apply Hmin; by eapply Hin].
    rewrite Hp in Ht. apply list_elem_of_fmap in Ht as ([e h] & -> & He%elem_of_map_to_list). by exists e.
Qed.

(** ** Genesis block *)
Section Genesis.
Context `{MapRange} `{BlockCodecs} `{Sha256}.

Definition genesis_digest (entry : string * option Block) : option bytes := b ← entry.2; raw ← enc b; Some (hex_encode (sha256 raw)).
Definition copies (h : bytes) (entries : list (string * option Block)) : nat := length (filter (fun e => genesis_digest e = Some h) entries).

Lemma count_block_spec entries h : let acc := foldl count_block (∅, ∅) entries in
  acc.1 !! h = (if copies h entries is O then None else Some (Z.of_nat (copies h entries))) /\
  match acc.2 !! h with Some b => exists e, e ∈ entries /\ e.2 = Some b /\ genesis_digest e = Some h | None => copies h entries = 0 end.
Proof.
  induction entries as [|e entries [IH1 IH2]] using rev_ind; [cbn; by rewrite !lookup_empty|]. rewrite foldl_snoc. set (acc := foldl count_block (∅, ∅) entries) in *.
  assert (copies h (entries ++ [e]) = copies h entries + (if decide (genesis_digest e = Some h) then 1 else 0)) as ->.
  { unfold copies. rewrite filter_app, length_app. f_equal. rewrite filter_cons, filter_nil. by destruct (decide _). }
  assert (match acc.2 !! h with Some b => exists e0, e0 ∈ entries ++ [e] /\ e0.2 = Some b /\ genesis_digest e0 = Some h | None => copies h entries = 0 end) as IH2'.
  { destruct (acc.2 !! h); [|done]. destruct IH2 as (e0 & ? & ?). exists e0. split; [|done]. apply elem_of_app. by left. }
  assert (genesis_digest e = None -> count_block acc e = acc) as Hskip. { unfold genesis_digest, count_block. destruct (e.2) as [b|]; [|done]. cbn. by destruct (enc b). }
  destruct (genesis_digest e) as [h'|] eqn:Ed.
  2: { rewrite Hskip by done. rewrite decide_False by done. rewrite Nat.add_0_r. done. }
  unfold genesis_digest in Ed. unfold count_block. destruct (e.2) as [b|] eqn:Eb; [|done]. cbn in Ed. destruct (enc b) as [raw|] eqn:Er; [|done]. cbn in Ed. injection Ed as Ed. rewrite Ed. cbn [fst snd].
  destruct (decide (h' = h)) as [->|Hne].
  - rewrite !lookup_insert_eq, decide_True by done. split.
    + rewrite IH1. destruct (copies h entries) as [|k]; cbn; [done|]. f_equal. lia.
    + exists e. split; [apply elem_of_app; right; by left|]. split; [done|]. unfold genesis_digest. rewrite Eb. cbn. rewrite Er. cbn. by rewrite Ed.
  - rewrite !lookup_insert_ne by done. rewrite decide_False by congruence. rewrite Nat.add_0_r. done.
Qed.

(** Joining a cluster. When at most [f] of the endpoints are faulty, for the [f] of a cluster of this size, and all others that answered gave the same genesis block, a block that is selected is that one, whatever the faulty ones answered
    and in whatever order the answers are counted, unless SHA-256 collides; and one is selected if more than [f] honest ones answered. *)
Theorem genesis_agreed (reports : gmap string (option Block)) (faulty : gset string) g raw n f t q : (0 < n <= 65535)%Z -> Quorum.ComputeFTQ (Z.to_N n) = (f, t, q) -> enc g = Some raw ->
  (forall e b, reports !! e = Some b -> e ∉ faulty -> b = Some g) -> size faulty <= N.to_nat f ->
  (forall r, SelectGenesisBlock reports n = Ok r -> exists b, r = Some b /\ (b = g \/ exists raw', enc b = Some raw' /\ sha256_collision raw' raw)) /\
  (N.to_nat f < size (dom reports ∖ faulty) -> is_ok (SelectGenesisBlock reports n) = true).
Proof.
  intros Hn Hftq Hraw Hhonest Hfaulty. destruct (Quorum.ComputeFTQ_eq (Z.to_N n) f t q ltac:(unfold u16_max; lia) Hftq) as (_ & Ht & _). unfold SelectGenesisBlock. rewrite (proj2 (Z.leb_gt n 0)) by lia. cbn [guard_err].
  rewrite Z.mod_small by lia. rewrite Hftq. destruct (foldl count_block (∅, ∅) (range_map 0 reports)) as [counts blocks] eqn:Efold.
  assert (forall h, counts !! h = (if copies h (map_to_list reports) is O then None else Some (Z.of_nat (copies h (map_to_list reports)))) /\
    match blocks !! h with Some b => exists e, reports !! e = Some (Some b) /\ genesis_digest (e, Some b) = Some h | None => copies h (map_to_list reports) = 0 end) as Hspec.
  { intros h. pose proof (count_block_spec (range_map 0 reports) h) as Hs. cbn zeta in Hs. rewrite Efold in Hs. cbn [fst snd] in Hs. assert (copies h (range_map 0 reports) = copies h (map_to_list reports)) as Ec.
    { unfold copies. by rewrite (range_perm 0 reports). } rewrite Ec in Hs. destruct Hs as [Hc1 Hc2]. split; [done|]. destruct (blocks !! h) as [b|]; [|done]. destruct Hc2 as ([e o] & He & Ho & Hd). cbn in Ho. subst o.
    exists e. split; [|done]. rewrite (range_perm 0 reports) in He. by apply elem_of_map_to_list. }
  assert (forall h, genesis_digest (""%string, Some g) <> Some h -> copies h (map_to_list reports) <= N.to_nat f) as Hfew.
  { intros h Hne. etrans; [|exact Hfaulty]. destruct (decide (copies h (map_to_list reports) <= size faulty)) as [?|Hgt]; [done|]. exfalso.
    destruct (pigeonhole_outside (filter (fun e => genesis_digest e = Some h) (map_to_list reports)).*1 faulty) as (e & He & Hnf).
    { apply fmap_filter_NoDup, NoDup_fst_map_to_list. } { rewrite length_fmap. unfold copies in Hgt. lia. }
    apply list_elem_of_fmap in He as ([e' o] & -> & [Hd He]%list_elem_of_filter). apply elem_of_map_to_list in He. cbn in Hnf. rewrite (Hhonest _ _ He Hnf) in Hd. done. }
  split.
  - intros r. destruct (List.find _ (range_map 1 counts)) as [[h c]|] eqn:Ef; [|done]. intros [= <-]. apply List.find_some in Ef as [Hin Hc%Z.leb_le]. apply list_elem_of_In in Hin.
    rewrite (range_perm 1 counts) in Hin. apply elem_of_map_to_list in Hin. destruct (Hspec h) as [Hc1 Hc2]. rewrite Hc1 in Hin. destruct (copies h (map_to_list reports)) as [|k] eqn:Ec; [done|]. injection Hin as <-.
    destruct (decide (genesis_digest (""%string, Some g) = Some h)) as [Hg|Hg]; [|specialize (Hfew h Hg); lia]. destruct (blocks !! h) as [b|]; [|lia]. exists b. split; [done|]. destruct Hc2 as (e & _ & Hb).
    unfold genesis_digest in Hg, Hb. cbn in Hg, Hb. rewrite Hraw in Hg. cbn in Hg. destruct (enc b) as [raw'|] eqn:Eb; [|done]. cbn in Hb. rewrite <-Hb in Hg. injection Hg as Hg%hex_encode_inj.
    symmetry in Hg. apply sha256_eq in Hg as [->|Hcol]; [left; by eapply enc_inj|]. right. by exists raw'.
  - intros Hmany. set (h := hex_encode (sha256 raw)). assert (N.to_nat f < copies h (map_to_list reports)) as Hc.
    { eapply Nat.lt_le_trans; [exact Hmany|]. transitivity (size (list_to_set (C := gset string) (filter (fun e => genesis_digest e = Some h) (map_to_list reports)).*1)).
      - apply subseteq_size. intros e [[o He]%elem_of_dom Hne]%elem_of_difference. apply elem_of_list_to_set, list_elem_of_fmap. exists (e, o). split; [done|]. apply list_elem_of_filter. rewrite elem_of_map_to_list. split; [|done].
        rewrite (Hhonest _ _ He Hne). unfold genesis_digest. cbn. by rewrite Hraw.
      - rewrite size_list_to_set by (apply fmap_filter_NoDup, NoDup_fst_map_to_list). by rewrite length_fmap. }
    destruct (List.find _ (range_map 1 counts)) as [[h' c]|] eqn:Ef; [done|]. exfalso. destruct (Hspec h) as [Hc1 _]. destruct (copies h (map_to_list reports)) as [|k] eqn:Ec; [lia|].
    apply elem_of_map_to_list in Hc1. rewrite <-(range_perm 1 counts) in Hc1. apply list_elem_of_In in Hc1. apply (List.find_none _ _ Ef) in Hc1. apply Z.leb_gt in Hc1. lia.
Qed.
End Genesis.
