(* ===== verification/Synchronizer.v ===== *)
(** * Synchronizers

    How a consenter ([src/node/consensus/synchronizer/synchronizer_bft.go], with the adapter of [src/node/consensus/consenter_support_adapter.go]) and an assembler
    ([src/node/assembler/synchronizer/synchronizer_bft.go], [src/node/assembler/assembler_sync_support.go]) that fell behind write the blocks they pull: from the buffer
    ([src/common/synchronizer/sync_buffer.go]) that the deliverer of blocks fills, up to a target height. *)
From stdpp Require Import gmap sets.
From Stdlib Require Import NArith ZArith Lia.
From S2P Require Import Prelude Types Events State StateFacts StateProps Round Badb Consenter Blocks Ledger StateCodec StateCodecFacts Consensus ConsensusFacts RoundThms ConsensusThms DecisionThms Assembler RequestFilter BlockVerify Startup Endpoints SyncTarget.

(** [x - 1] on a uint64. *)
Definition u64_decr (n : N) : N := u64 (n + u64_max).

(** ** The buffer *)
Record SyncBuffer := mkSyncBuffer { sb_blockCh : list Block; sb_capacity : nat; sb_stopped : bool }.
Definition NewSyncBuffer (capacity : nat) : SyncBuffer := mkSyncBuffer [] (if capacity =? 0 then 10 else capacity) false.
Definition SyncBuffer_Stop (sb : SyncBuffer) : SyncBuffer := mkSyncBuffer (sb_blockCh sb) (sb_capacity sb) true.

(** What the select of a puller chooses: a block of the channel, or the closed stop channel. *)
Inductive buffer_event := Received (block : Block) | BufferStopped.
Inductive buffer_label := Handled (block : Block) | HandleRefused (block : option Block) | Pulled (e : buffer_event) | StopCalled.

(** HandleBlock of a block without header is an error; of another one it waits for room in the channel or for the stop, and with both either is chosen. *)
Inductive buffer_step : SyncBuffer -> buffer_label -> SyncBuffer -> Prop :=
| bs_handled sb b : b_Header b <> None -> length (sb_blockCh sb) < sb_capacity sb ->
    buffer_step sb (Handled b) (mkSyncBuffer (sb_blockCh sb ++ [b]) (sb_capacity sb) (sb_stopped sb))
| bs_handle_empty sb block : block ≫= b_Header = None -> buffer_step sb (HandleRefused block) sb
| bs_handle_stopping sb block : sb_stopped sb = true -> buffer_step sb (HandleRefused block) sb
| bs_pulled sb b rest : sb_blockCh sb = b :: rest -> buffer_step sb (Pulled (Received b)) (mkSyncBuffer rest (sb_capacity sb) (sb_stopped sb))
| bs_pull_stopping sb : sb_stopped sb = true -> buffer_step sb (Pulled BufferStopped) sb
| bs_stop sb : buffer_step sb StopCalled (SyncBuffer_Stop sb).

(** The loop of PullBlock over the choices of its selects: the result with the choices left, or nothing while it waits. *)
Fixpoint PullBlock (events : list buffer_event) (seq : N) : option (option Block * list buffer_event) :=
  match events with
  | [] => None
  | BufferStopped :: rest => Some (None, rest)
  | Received block :: rest =>
      match b_Header block with
      | None => Some (None, rest)
      | Some header =>
          if (bh_Number header =? seq)%N then Some (Some block, rest)
          else if (bh_Number header <? seq)%N then PullBlock rest seq
          else Some (None, rest)
      end
  end.

(** ** Pulling and committing *)
(** The loop of getBlocksFromSyncBuffer, which ends with an error if no block was pulled; [commit] is what is done with a block. Every round takes at least one event, so [length events] rounds are enough for what is there. *)
Fixpoint pull_loop {S} (commit : S -> Block -> outcome S) (fuel : nat) (events : list buffer_event) (seq targetSeq : N) (lastPulledBlock : option Block) (s : S) : option (outcome (S * Block)) :=
  let finish := Some (match lastPulledBlock with Some b => Ok (s, b) | None => Err "failed pulling block" end) in
  if (targetSeq <? seq)%N then finish
  else
    match fuel with
    | O => None
    | Datatypes.S fuel =>
        match PullBlock events seq with
        | None => None
        | Some (None, _) => finish
        | Some (Some block, rest) =>
            match commit s block with
            | Ok s => pull_loop commit fuel rest (u64_incr seq) targetSeq (Some block) s
            | Err e => Some (Err e)
            | Panic e => Some (Panic e)
            end
        end
    end.
Definition getBlocksFromSyncBuffer {S} (commit : S -> Block -> outcome S) (events : list buffer_event) (startHeight targetHeight : N) (s : S) : option (outcome (S * Block)) :=
  pull_loop commit (length events) events startHeight (u64_decr targetHeight) None s.

(** ** Consenters *)
Section Consenter.
Context `{FabricCodecs} `{BlockCodecs} `{StateCodecs} `{BFTCodecs} `{Sha256} {R : MapRange} `{DBI : BatchAttestationDB D} `{SharedConfigReader} `{Environment} `{ChannelConfigs}.

(** The adapter: the block is indexed before it is written. *)
Definition indexAndWrite (c : Consensus D) (block : Block) : outcome (Consensus D * Header) :=
  proposal ← or_panic (ConsenterBlockToProposal (Some block));
  hd ← headerAndDigestsFromProposal proposal;
  db ← Index (c_DB c) hd.2;
  storage ← WriteBlock (c_Storage c) block;
  Ok (mkConsensus (c_PartyID c) (c_SelfID c) (c_State c) (c_configSeq c) (c_lastConfigBlockNum c) (c_decisionNumOfLastConfigBlock c)
        (c_txCount c) (c_PrevHash c) storage db (c_CurrentNodes c) (c_softStopped c), hd.1).
Definition Support_WriteBlockSync (c : Consensus D) (block : Block) : outcome (Consensus D) := r ← indexAndWrite c block; Ok r.1.
Definition Support_WriteConfigBlock (c : Consensus D) (block : Block) : outcome (Consensus D) :=
  r ← indexAndWrite c block;
  panic_if bool_decide (length (h_AvailableCommonBlocks r.2) = 0) with "block does not contain a config block" ;; Ok r.1.
Definition Support_Block (c : Consensus D) (number : N) : option Block := c_Storage c !! N.to_nat number.

(** The config block of the last config decision at or before a decision block. *)
Definition GetLastConfigBlockUsingBlockFromConsensusLedger (block : option Block) (ledger : list Block) : outcome Block :=
  block ← of_option "block is nil" block;
  _ ← of_option "block header is missing" (b_Header block);
  raw ← of_option "block data is missing" (default [] (b_Data block) !! 0);
  proposal ← wrap_err "failed to read decision from block in consensus ledger" (BytesToProposal raw);
  header ← wrap_err "failed to deserialize decision header from block" (Header_Deserialize (p_Header proposal));
  decision ← wrap_err "failed to retrieve decision of the last config block from consensus ledger" (RetrieveBlockByNumber ledger (h_DecisionNumOfLastConfigBlock header));
  data ← deref (b_Data decision);
  raw ← Prelude.index data 0;
  proposal ← wrap_err "failed to read proposal from last config block in consensus ledger" (BytesToProposal raw);
  header ← wrap_err "failed to deserialize decision header from last block" (Header_Deserialize (p_Header proposal));
  match last (h_AvailableCommonBlocks header) with Some b => Ok b | None => Panic "index out of range [-1]" end.
Definition Support_LastConfigBlock (c : Consensus D) (block : option Block) : outcome Block :=
  fail_if bool_decide (block = None) with "input block is nil" ;; GetLastConfigBlockUsingBlockFromConsensusLedger block (c_Storage c).

(** The synchronizer with its node; [s_pruned] are the requests removed from the pool, [s_started] tells whether a reconfiguration of the node was started. *)
Record BFTSynchronizer := mkSynchronizer { s_node : Consensus D; s_lastReconfig : Reconfig; s_pruned : list RequestInfo; s_started : bool }.
Definition with_node (c : Consensus D) (s : BFTSynchronizer) : BFTSynchronizer := mkSynchronizer c (s_lastReconfig s) (s_pruned s) (s_started s).

(** Write, then OnCommit; a reconfiguration in an earlier block is remembered. *)
Definition commit_pulled (s : BFTSynchronizer) (block : Block) : outcome BFTSynchronizer :=
  c ← (if IsConfigBlock block then Support_WriteConfigBlock (s_node s) block else Support_WriteBlockSync (s_node s) block);
  pruned ← PruneRequestsFromMemPool block;
  r ← UpdateStateAndRuntimeConfig c block;
  let '(c, reconfig, started) := r in
  Ok (mkSynchronizer c (mkReconfig (rc_CurrentNodes reconfig) (rc_InLatestDecision reconfig || rc_InLatestDecision (s_lastReconfig s)))
        (s_pruned s ++ pruned) (started || s_started s)).

(** The verifier for the blocks, from the ledger, and the configuration that gives the endpoints, from the newer of the two config blocks. *)
Definition createBFTDeliverer (c : Consensus D) (startHeight : N) (JoinConfigBlock : option Block) (tlsCertHash : outcome bytes) : outcome (ConsenterBlockVerifier * ConfigEnvelope) :=
  let lastDecision := Support_Block c (u64_decr startHeight) in
  ledgerLastConfigBlock ← wrap_err "failed to retrieve last config block" (Support_LastConfigBlock c lastDecision);
  joinConfigBlock ← of_option "join config block is nil" JoinConfigBlock;
  ledgerHeader ← deref (b_Header ledgerLastConfigBlock);
  joinHeader ← deref (b_Header joinConfigBlock);
  let delivererInitializationBlock := if (bh_Number ledgerHeader <? bh_Number joinHeader)%N then joinConfigBlock else ledgerLastConfigBlock in
  currentConfigEnv ← wrap_err "failed to retrieve envelope from config block" (Common_ConfigFromBlock (Some delivererInitializationBlock));
  updatableVerifier ← wrap_err "failed to create BlockVerificationAssistant" (CreateBlockVerifier (Some ledgerLastConfigBlock) lastDecision);
  _ ← wrap_err "failed hashing the TLS certificate" tlsCertHash;
  Ok (updatableVerifier, currentConfigEnv).

(** What the rest of the world contributes to a synchronization: the answers to the two rounds of probes, and the choices of the puller's selects. *)
Record SyncInput := mkSyncInput {
  in_clusterSize : Z;
  in_cert : option bytes;
  in_heights : list Probe;
  in_genesis : list Probe;
  in_join : option Block;
  in_tlsCertHash : outcome bytes;
  in_events : list buffer_event
}.

(** The synchronizer afterwards, and the decision of the last block or the error; nothing while it waits for blocks. *)
Definition synchronize (i : SyncInput) (s : BFTSynchronizer) : option (BFTSynchronizer * outcome Decision) :=
  match wrap_err "cannot get detect target height" (detectTargetHeight (in_clusterSize i) (in_cert i) (in_heights i)) with
  | Ok (targetHeight, _) =>
      let startHeight := Height (c_Storage (s_node s)) in
      if (targetHeight <=? startHeight)%N then Some (s, Err "already at target height") else
      let joined :=
        (if (startHeight =? 0)%N then
           genesisBlock ← or_panic (fetchGenesisBlock (in_clusterSize i) (in_genesis i));
           genesisBlock ← deref genesisBlock;
           c ← Support_WriteConfigBlock (s_node s) genesisBlock;
           Ok (with_node c s)
         else Ok s) in
      match joined with
      | Ok s =>
          let startHeight := Height (c_Storage (s_node s)) in
          match wrap_err "cannot create BFT block deliverer" (createBFTDeliverer (s_node s) startHeight (in_join i) (in_tlsCertHash i)) with
          | Ok _ =>
              match getBlocksFromSyncBuffer commit_pulled (in_events i) startHeight targetHeight s with
              | None => None
              | Some (Ok (s, lastPulledBlock)) => Some (s, wrap_err "cannot get decision from block" (ConsenterBlockToDecision (Some lastPulledBlock)))
              | Some (Err _) => Some (s, Err "failed to get any blocks from SyncBuffer")
              | Some (Panic e) => Some (s, Panic e)
              end
          | Err e => Some (s, Err e)
          | Panic e => Some (s, Panic e)
          end
      | Err e => Some (s, Err e)
      | Panic e => Some (s, Panic e)
      end
  | Err e => Some (s, Err e)
  | Panic e => Some (s, Panic e)
  end.

(** The latest decision, none if it cannot be read from the ledger, the nodes, and whether there was a reconfiguration. *)
Record SyncResponse := mkSyncResponse { sr_Latest : option Decision; sr_CurrentNodes : list N; sr_InReplicatedDecisions : bool }.
Definition Sync (i : SyncInput) (s : BFTSynchronizer) : option (outcome (BFTSynchronizer * SyncResponse)) :=
  match synchronize i s with
  | None => None
  | Some (s, Ok decision) =>
      Some (Ok (mkSynchronizer (s_node s) (mkReconfig [] false) (s_pruned s) (s_started s),
                mkSyncResponse (Some decision) (rc_CurrentNodes (s_lastReconfig s)) (rc_InLatestDecision (s_lastReconfig s))))
  | Some (s, Err _) =>
      let h := Height (c_Storage (s_node s)) in
      Some (panic_if (h =? 0)%N with "Cannot join the cluster" ;;
            latest ← match ConsenterBlockToDecision (Support_Block (s_node s) (u64_decr h)) with Ok d => Ok (Some d) | Err _ => Ok None | Panic e => Panic e end;
            Ok (s, mkSyncResponse latest (c_CurrentNodes (s_node s)) false))
  | Some (s, Panic e) => Some (Panic e)
  end.
End Consenter.
Arguments BFTSynchronizer D : clear implicits.

(** ** Assemblers *)
Section Assembler.
Context `{FabricCodecs} `{BlockCodecs} `{StateCodecs} `{BFTCodecs} `{Sha256} {R : MapRange} `{ChannelConfigs}.

Definition Assembler_LastConfigBlock (l : AssemblerLedger) (block : Block) : outcome Block :=
  lastConfigIndex ← wrap_err "failed to get last config index from assembler's last block" (GetLastConfigIndexFromBlock block);
  wrap_err "failed to get last config block" (RetrieveBlockByNumber (al_Ledger l) lastConfigIndex).

(** The endpoints come from the join config block, the verifier from the ledger. *)
Definition Assembler_createBFTDeliverer (l : AssemblerLedger) (startHeight : N) (JoinConfigBlock : option Block) (tlsCertHash : outcome bytes) : outcome (BlockVerificationAssistant * ConfigEnvelope) :=
  fail_if (startHeight =? 0)%N with "cannot create BFT deliverer from empty ledger (startHeight=0)" ;;
  lastBlock ← of_option "failed to retrieve last block from ledger" (al_Ledger l !! N.to_nat (u64_decr startHeight));
  _ ← of_option "failed to retrieve last block from ledger" (b_Header lastBlock);
  ledgerLastConfigBlock ← wrap_err "failed to retrieve last config block from ledger" (Assembler_LastConfigBlock l lastBlock);
  _ ← of_option "last config block from ledger is nil" (b_Header ledgerLastConfigBlock);
  joinConfigBlock ← of_option "join config block is nil" JoinConfigBlock;
  _ ← of_option "join config block is nil" (b_Header joinConfigBlock);
  lastConfigEnv ← wrap_err "failed to retrieve last config envelope" (Common_ConfigFromBlock (Some joinConfigBlock));
  updatableVerifier ← wrap_err "failed to create BlockVerificationAssistant" (NewBlockVerificationAssistant (Some ledgerLastConfigBlock) (Some lastBlock));
  _ ← wrap_err "failed hashing the TLS certificate" tlsCertHash;
  Ok (updatableVerifier, lastConfigEnv).

(** The ledger afterwards, and the error. *)
Definition Assembler_synchronize (i : SyncInput) (TargetHeight : N) (l : AssemblerLedger) : option (AssemblerLedger * outcome unit) :=
  let startHeight := Height (al_Ledger l) in
  if (TargetHeight =? 0)%N then Some (l, Err "targetHeight must be > 0") else
  if (startHeight =? TargetHeight)%N then Some (l, Ok tt) else
  if (TargetHeight <? startHeight)%N then Some (l, Ok tt) else
  let joined :=
    (if (startHeight =? 0)%N then
       genesisBlock ← or_panic (fetchGenesisBlock (in_clusterSize i) (in_genesis i));
       genesisBlock ← deref genesisBlock;
       AppendBlock l genesisBlock
     else Ok l) in
  match joined with
  | Ok l =>
      let startHeight := Height (al_Ledger l) in
      if (startHeight =? TargetHeight)%N then Some (l, Ok tt) else
      match wrap_err "cannot create BFT block deliverer" (Assembler_createBFTDeliverer l startHeight (in_join i) (in_tlsCertHash i)) with
      | Ok _ =>
          match getBlocksFromSyncBuffer AppendBlock (in_events i) startHeight TargetHeight l with
          | None => None
          | Some (Ok (l, _)) => Some (l, Ok tt)
          | Some (Err _) => Some (l, Err "failed to get any blocks from SyncBuffer")
          | Some (Panic e) => Some (l, Panic e)
          end
      | Err e => Some (l, Err e)
      | Panic e => Some (l, Panic e)
      end
  | Err e => Some (l, Err e)
  | Panic e => Some (l, Panic e)
  end.

(** The counters of a ledger that is opened again. *)
Definition reopened_metrics (l : AssemblerLedger) : outcome AssemblerLedger :=
  let ledgerHeight := Height (al_Ledger l) in
  if (0 <? ledgerHeight)%N then
    block ← or_panic (RetrieveBlockByNumber (al_Ledger l) (ledgerHeight - 1));
    r ← or_panic (AssemblerBatchIdOrderingInfoAndTxCountFromBlock (Some block));
    Ok (mkAL (al_Ledger l) (al_TransactionCount l + r.2) (al_TransactionsSize l) (al_BlocksCount l + ledgerHeight))
  else Ok l.

Definition nonempty_ledger (l : AssemblerLedger) : outcome AssemblerLedger :=
  panic_if (Height (al_Ledger l) =? 0)%N with "Assembler ledger is empty after initialization" ;; Ok l.

(** How the assembler brings its ledger to the config block it starts with: it appends the genesis block to an empty ledger, or synchronizes up to the config block. *)
Definition initLedger (configBlock : Block) (i : SyncInput) (l : AssemblerLedger) : option (outcome AssemblerLedger) :=
  let ledgerHeight := Height (al_Ledger l) in
  let configBlockNumber := default 0%N (bh_Number <$> b_Header configBlock) in
  match reopened_metrics l with
  | Ok l =>
      if ((configBlockNumber =? 0) && (ledgerHeight =? 0))%N then
        Some (genesisMetadata ← GenesisBlockMetadataBytes;
              configBlock ← set_metadata BlockMetadataIndex_ORDERER genesisMetadata configBlock;
              l ← AppendConfig l (mkOI (Some configBlock) [] 0 0 1);
              nonempty_ledger l)
      else if (ledgerHeight <=? configBlockNumber)%N then
        match Assembler_synchronize i (u64_incr configBlockNumber) l with
        | None => None
        | Some (l, Ok _) => Some (nonempty_ledger l)
        | Some (_, Err e) => Some (Panic e)
        | Some (_, Panic e) => Some (Panic e)
        end
      else Some (nonempty_ledger l)
  | Err e => Some (Err e)
  | Panic e => Some (Panic e)
  end.
End Assembler.

(** * Theorems on synchronizers

    Pulled blocks are committed in order; a consenter that catches up reaches the state of those that delivered the decisions; and when a synchronization of an assembler counts as done. *)

Lemma u64_decr_small n : (0 < n <= u64_max)%N -> u64_decr n = (n - 1)%N.
Proof. intros Hn. unfold u64_decr, u64, u64_max in *. symmetry. apply (N.mod_unique _ _ 1); lia. Qed.

(** ** The buffer *)
Inductive buffer_run (sb : SyncBuffer) : list buffer_label -> SyncBuffer -> Prop :=
| br_nil : buffer_run sb [] sb
| br_snoc ls sb1 l sb2 : buffer_run sb ls sb1 -> buffer_step sb1 l sb2 -> buffer_run sb (ls ++ [l]) sb2.
Definition handled_blocks (ls : list buffer_label) : list Block := omap (fun l => match l with Handled b => Some b | _ => None end) ls.
Definition received_blocks (es : list buffer_event) : list Block := omap (fun e => match e with Received b => Some b | _ => None end) es.
Definition pulled_events (ls : list buffer_label) : list buffer_event := omap (fun l => match l with Pulled e => Some e | _ => None end) ls.

(** What was pulled and what is in the channel is what was handled, in that order, and the channel keeps within its capacity. *)
Lemma buffer_fifo n ls sb : buffer_run (NewSyncBuffer n) ls sb ->
  handled_blocks ls = received_blocks (pulled_events ls) ++ sb_blockCh sb /\ length (sb_blockCh sb) <= sb_capacity sb /\ Forall (fun b => b_Header b <> None) (handled_blocks ls).
Proof.
  induction 1 as [|ls sb1 l sb2 _ (IHq & IHc & IHh) Hs]; [split; [done|]; split; [cbn; lia|constructor]|]. unfold handled_blocks, pulled_events, received_blocks in *. rewrite !omap_app.
  destruct Hs as [sb b Hb Hlt|sb block Hb|sb block Hst|sb b rest Hq|sb Hst|sb]; cbn [omap list_omap sb_blockCh sb_capacity app]; rewrite ?app_nil_r, ?omap_app in *; cbn [omap list_omap]; rewrite ?app_nil_r; try done.
  - split; [by rewrite IHq, app_assoc|]. split; [rewrite length_app; cbn; lia|]. apply Forall_app. split; [done|by constructor].
  - rewrite Hq in IHq, IHc. split; [by rewrite IHq, <-app_assoc|]. split; [cbn in IHc; lia|done].
Qed.

(** ** Commits *)
Section Commits.
Context {S : Type} (commit : S -> Block -> outcome S).

Fixpoint commit_all (s : S) (blocks : list Block) : outcome S :=
  match blocks with [] => Ok s | b :: rest => s ← commit s b; commit_all s rest end.
Lemma commit_all_app s l1 l2 : commit_all s (l1 ++ l2) = (s ← commit_all s l1; commit_all s l2).
Proof. revert s. induction l1 as [|b l1 IH]; intros s; [done|]. cbn. destruct (commit s b); cbn; [apply IH|done|done]. Qed.

(** Blocks with the numbers from [seq] on. *)
Fixpoint numbered (seq : N) (blocks : list Block) : Prop :=
  match blocks with [] => True | b :: rest => (exists h, b_Header b = Some h /\ bh_Number h = seq) /\ numbered (seq + 1)%N rest end.

Lemma PullBlock_spec : forall events seq b rest, PullBlock events seq = Some (Some b, rest) ->
  exists skipped, events = (Received <$> skipped) ++ Received b :: rest /\ exists h, b_Header b = Some h /\ bh_Number h = seq.
Proof.
  induction events as [|[block|] events IH]; intros seq b rest E; [done| |done]. cbn in E. destruct (b_Header block) as [h|] eqn:Eh; [|done]. destruct (N.eqb_spec (bh_Number h) seq) as [Hn|Hn].
  - injection E as <- <-. exists []. split; [done|]. by exists h.
  - destruct (bh_Number h <? seq)%N; [|done]. apply IH in E as (skipped & -> & Hh). by exists (block :: skipped).
Qed.

(** The blocks that were committed have the numbers from the first one on, none above the target, and came in that order. *)
Lemma pull_loop_sound : forall fuel events seq targetSeq last s s' b, (targetSeq < u64_max)%N -> pull_loop commit fuel events seq targetSeq last s = Some (Ok (s', b)) ->
  exists blocks, commit_all s blocks = Ok s' /\ numbered seq blocks /\ blocks `sublist_of` received_blocks events /\ (blocks = [] \/ seq + N.of_nat (length blocks) <= targetSeq + 1)%N /\ list.last blocks = (if blocks is [] then None else Some b) /\ (blocks = [] -> last = Some b).
Proof.
  induction fuel as [|fuel IH]; intros events seq targetSeq last s s' b Ht E; cbn [pull_loop] in E.
  - destruct (targetSeq <? seq)%N; [|done]. destruct last; [|done]. injection E as <- <-. exists []. cbn. repeat split; try done; [apply sublist_nil_l|by left].
  - destruct (N.ltb_spec targetSeq seq) as [Hlt|Hge].
    { destruct last; [|done]. injection E as <- <-. exists []. cbn. repeat split; try done; [apply sublist_nil_l|by left]. }
    destruct (PullBlock events seq) as [[[block|] rest]|] eqn:Ep; [| |done].
    2: { destruct last; [|done]. injection E as <- <-. exists []. cbn. repeat split; try done; [apply sublist_nil_l|by left]. }
    destruct (commit s block) as [s1| |] eqn:Ec; [|done|done]. apply PullBlock_spec in Ep as (skipped & -> & Hh). apply IH in E as (blocks & Hca & Hnum & Hsub & Hle & Hlast & Hnil); [|done].
    assert (u64_incr seq = seq + 1)%N as Ei by (unfold u64_incr; apply u64_small; lia). rewrite Ei in Hnum, Hle. exists (block :: blocks). cbn [commit_all]. rewrite Ec. cbn [mbind outcome_bind]. split; [done|]. split; [done|]. split.
    { unfold received_blocks in *. rewrite omap_app. apply sublist_inserts_l. cbn. by constructor. }
    split; [right; cbn [length]; destruct Hle as [->|Hle]; [cbn; lia|lia]|]. split; [|done]. destruct blocks as [|b' blocks]; [|done]. cbn. by rewrite (Hnil eq_refl).
Qed.

(** All blocks there are, up to the target or the stop. *)
Lemma pull_loop_complete : forall blocks fuel rest seq targetSeq last s s', (targetSeq < u64_max)%N -> numbered seq blocks -> (blocks = [] \/ seq + N.of_nat (length blocks) <= targetSeq + 1)%N -> commit_all s blocks = Ok s' ->
  length blocks < fuel \/ (targetSeq < seq + N.of_nat (length blocks))%N /\ length blocks <= fuel -> (targetSeq < seq + N.of_nat (length blocks))%N \/ (exists rest', rest = BufferStopped :: rest') -> from_option (fun _ => True) (blocks <> []) last ->
  exists b, pull_loop commit fuel ((Received <$> blocks) ++ rest) seq targetSeq last s = Some (Ok (s', b)) /\ match list.last blocks with Some b' => b = b' | None => last = Some b end.
Proof.
  induction blocks as [|b blocks IH]; intros fuel rest seq targetSeq last s s' Ht Hnum Hle Hc Hfuel Hend Hlast.
  - cbn in Hc. injection Hc as <-. destruct last as [b|]; [|done]. exists b. split; [|done]. destruct fuel as [|fuel]; cbn [pull_loop]; (destruct (N.ltb_spec targetSeq seq) as [|Hge]; [done|]).
    + cbn in Hfuel. lia.
    + destruct Hend as [?|[rest' ->]]; [cbn in *; lia|]. done.
  - cbn [commit_all] in Hc. apply bind_Ok_inv in Hc as (s1 & Hs1 & Hc). destruct Hnum as [(h & Hh & Hn) Hnum]. destruct Hle as [?|Hle]; [done|]. cbn [length] in *. destruct fuel as [|fuel]; [lia|]. cbn [pull_loop fmap list_fmap app].
    rewrite (proj2 (N.ltb_ge _ _)) by lia. cbn [PullBlock]. rewrite Hh, (proj2 (N.eqb_eq _ _) Hn), Hs1. assert (u64_incr seq = seq + 1)%N as -> by (unfold u64_incr; apply u64_small; lia).
    destruct (IH fuel rest (seq + 1)%N targetSeq (Some b) s1 s' Ht Hnum) as (b' & -> & Hb'); [destruct blocks; [by left|right; lia]|done|lia|destruct Hend; [left; lia|by right]|done|].
    exists b'. split; [done|]. destruct blocks as [|b2 blocks]; [cbn; by injection Hb'|]. change (list.last (b :: b2 :: blocks)) with (list.last (b2 :: blocks)). destruct (list.last (b2 :: blocks)) eqn:El; [done|by apply last_None in El].
Qed.
End Commits.

(** ** Consenters *)
Section Consenter.
Context `{FabricCodecs} `{BlockCodecs} `{StateCodecs} `{BFTCodecs} `{Sha256} {R : MapRange} `{Environment} `{DBI : BatchAttestationDB D} `{ChannelConfigs}.
Implicit Types (c : Consensus D) (d : Proposal * list Signature).

Definition config_decision d : bool := match Header_Deserialize (p_Header d.1) with Ok hdr => (h_Num hdr =? h_DecisionNumOfLastConfigBlock hdr)%N | _ => false end.
(** The payload is a batch of requests, and the signers' numbers fit. *)
Definition readable_decision d : Prop :=
  Forall (fun s => (sig_ID s <= u64_max)%N) d.2 /\ exists batch infos, BatchedRequests.Deserialize (slice_bytes (p_Payload d.1)) = Ok batch /\ omapM RequestID batch = Ok infos.

Lemma deliver_config_reconfig c hdr dn lc dn' rc started : deliver_config c hdr dn = Ok (lc, dn', rc, started) -> rc_InLatestDecision rc = (h_Num hdr =? h_DecisionNumOfLastConfigBlock hdr)%N.
Proof.
  unfold deliver_config, config_block_of. intros E. apply bind_Ok_inv in E as (cb & Ecb & E). destruct (h_Num hdr =? h_DecisionNumOfLastConfigBlock hdr)%N.
  - destruct (last (h_AvailableCommonBlocks hdr)) as [b|]; [|done]. apply Ok_inj in Ecb as <-. apply bind_Ok_inv in E as (h & _ & E). apply bind_Ok_inv in E as (nodes & _ & E). by destruct (_ <? _)%N; apply Ok_inj in E; injection E as _ _ <- _.
  - apply Ok_inj in Ecb as <-. apply Ok_inj in E. by injection E as _ _ <- _.
Qed.

(** A block that another node appended for a decision brings this node to where delivering the decision does. *)
Lemma commit_delivered c p sigs c' rc started lr pr st : Deliver c p sigs = Ok (c', rc, started) -> readable_decision (p, sigs) ->
  exists block h, c_Storage c' = c_Storage c ++ [block] /\ b_Header block = Some h /\ bh_Number h = Height (c_Storage c) /\ ConsenterBlockToDecision (Some block) = Ok (mkDecision (proposal_norm p) (signature_norm <$> sigs)) /\
    (IsConfigBlock block = false -> exists pr', commit_pulled (mkSynchronizer c lr pr st) block = Ok (mkSynchronizer c' (mkReconfig (rc_CurrentNodes rc) (config_decision (p, sigs) || rc_InLatestDecision lr)) (pr ++ pr') (started || st))).
Proof.
  intros Hd [Hids (batch & infos & Hbatch & Hinfos)]. destruct (synced_equals_delivered _ _ _ _ _ _ Hd) as (block & Hst & Hupd). pose proof Hd as Hd'.
  apply Deliver_inv in Hd' as (hdr & block' & h & Hhdr & Hix & Hb & Hh & _ & Happ & Hconf & _). pose proof (Append_Ok _ _ _ Happ) as (Hst' & h' & Hh' & Hnum & _). rewrite Hst in Hst'. apply app_inj_tail in Hst' as [_ <-].
  rewrite Hh in Hh'. injection Hh' as <-. exists block, h. split; [done|]. split; [done|]. split; [done|]. split; [by eapply Decision_round|]. intros Hnc.
  exists (if (bh_Number h =? 0)%N then [] else infos). unfold commit_pulled. rewrite Hnc. cbn [s_node]. assert (indexAndWrite c block = Ok (with_stored (c_Storage c') (c_DB c') c, hdr)) as Hiw.
  { pose proof Hb as Hcb. apply CreateBlock_Ok in Hcb as (pb & sb & l & Hpb & _ & _ & ->). unfold indexAndWrite, ConsenterBlockToProposal. cbn [of_option mbind outcome_bind b_Header b_Data]. rewrite bool_decide_eq_false_2 by done.
    cbn [guard_err index lookup list_lookup mbind outcome_bind]. rewrite (Proposal_round _ _ Hpb). cbn [or_panic mbind outcome_bind]. unfold headerAndDigestsFromProposal. destruct (p_Header p) as [rawH|] eqn:EH; [|done]. cbn [proposal_norm p_Header]. rewrite EH. change (slice_bytes (Some rawH)) with rawH.
    rewrite Hhdr. cbn [or_panic mbind outcome_bind fst snd]. rewrite Hix. cbn [mbind outcome_bind]. unfold WriteBlock. rewrite Happ. done. }
  unfold Support_WriteBlockSync. rewrite Hiw. cbn [mbind outcome_bind fst]. assert (PruneRequestsFromMemPool block = Ok (if (bh_Number h =? 0)%N then [] else infos)) as ->.
  { unfold PruneRequestsFromMemPool. rewrite Hh. change (default 0%N (bh_Number <$> Some h)) with (bh_Number h). destruct (bh_Number h =? 0)%N; [done|]. rewrite (Decision_round _ _ _ _ _ _ Hids Hb). cbn [or_panic mbind outcome_bind d_Proposal proposal_norm p_Payload slice_bytes].
    change (slice_bytes (Some (slice_bytes (p_Payload p)))) with (slice_bytes (p_Payload p)). cbn [fst] in Hbatch; rewrite Hbatch. cbn [or_panic mbind outcome_bind]. exact Hinfos. }
  cbn [mbind outcome_bind]. rewrite Hupd. cbn [mbind outcome_bind s_lastReconfig s_pruned s_started]. rewrite (deliver_config_reconfig _ _ _ _ _ _ _ Hconf). unfold config_decision. cbn [fst]. by rewrite Hhdr.
Qed.

Lemma commit_deliveries c ds c' pulled lr pr st : deliveries c ds c' -> Forall readable_decision ds -> c_Storage c' = c_Storage c ++ pulled -> Forall (fun b => IsConfigBlock b = false) pulled ->
  exists nodes pr' st', commit_all commit_pulled (mkSynchronizer c lr pr st) pulled = Ok (mkSynchronizer c' (mkReconfig nodes (existsb config_decision ds || rc_InLatestDecision lr)) pr' st') /\
    numbered (Height (c_Storage c)) pulled /\ length pulled = length ds /\
    match last ds with Some (p, sigs) => exists b, last pulled = Some b /\ ConsenterBlockToDecision (Some b) = Ok (mkDecision (proposal_norm p) (signature_norm <$> sigs)) | None => nodes = rc_CurrentNodes lr end.
Proof.
  intros Hd. revert pulled. induction Hd as [|ds c1 p sigs c2 rc started Hd IH Hdel]; intros pulled Hr Hst Hnc.
  - assert (pulled = []) as -> by (apply (f_equal length) in Hst; rewrite length_app in Hst; apply nil_length_inv; lia). exists (rc_CurrentNodes lr), pr, st. cbn. by destruct lr.
  - apply Forall_app in Hr as [Hr [Hr1 _]%Forall_cons_1]. assert (exists pulled1, c_Storage c1 = c_Storage c ++ pulled1) as (pulled1 & Hst1).
    { clear -Hd. induction Hd as [|ds c1 p sigs c2 rc started Hd (l & IH) Hdel]; [exists []; by rewrite app_nil_r|]. apply Deliver_inv in Hdel as (hdr & block & h & _ & _ & _ & _ & _ & [-> _]%Append_Ok & _). exists (l ++ [block]). by rewrite IH, app_assoc. }
    destruct (commit_delivered c1 p sigs c2 rc started (mkReconfig [] false) [] false Hdel Hr1) as (block & _ & Hst2 & _ & _ & _ & _). rewrite Hst2, Hst1, <-app_assoc in Hst. apply app_inv_head in Hst as <-.
    apply Forall_app in Hnc as [Hnc [Hnc1 _]%Forall_cons_1]. destruct (IH pulled1 Hr Hst1 Hnc) as (nodes & pr1 & st1 & Hca & Hnum & Hlen & _).
    destruct (commit_delivered c1 p sigs c2 rc started (mkReconfig nodes (existsb config_decision ds || rc_InLatestDecision lr)) pr1 st1 Hdel Hr1) as (block' & h & Hst2' & Hh & Hn & Hdec & Hcommit).
    rewrite Hst2 in Hst2'. apply app_inj_tail in Hst2' as [_ <-]. destruct (Hcommit Hnc1) as (pr2 & Hc). exists (rc_CurrentNodes rc), (pr1 ++ pr2), (started || st1). split; [|split; [|split]].
    + rewrite commit_all_app, Hca. cbn [mbind outcome_bind commit_all]. rewrite Hc. cbn [mbind outcome_bind rc_InLatestDecision]. rewrite existsb_app. cbn [existsb]. by destruct (config_decision (p, sigs)), (existsb config_decision ds), (rc_InLatestDecision lr).
    + clear -Hnum Hst1 Hh Hn. assert (Height (c_Storage c1) = Height (c_Storage c) + N.of_nat (length pulled1))%N as Hht by (unfold Height; rewrite Hst1, length_app; lia). rewrite Hht in Hn. clear Hst1 Hht. revert Hnum Hn. generalize (Height (c_Storage c)).
      induction pulled1 as [|b l IH]; intros seq Hnum Hn; cbn [app numbered length] in *. { split; [|done]. exists h. split; [done|]. rewrite Hn. lia. } destruct Hnum as [Hb Hnum]. split; [done|]. apply IH; [done|lia].
    + rewrite !length_app, Hlen. done.
    + rewrite last_snoc. exists block. by rewrite last_snoc.
Qed.

(** C27: Catching up is the same as taking part. Suppose some nodes delivered decisions from a state in which this node is, and the deliverer of blocks handed it the blocks they appended, until the target height or until it was stopped.
    Then the synchronization ends with this node exactly in the state of the others: the same ledger, database, state, configuration and hash; it returns the last of the decisions, and reports a reconfiguration
    if one of the decisions had a config block (or one that was pending). *)
Theorem sync_equals_delivery i target my v c ds c' p sigs lr pr st pulled rest :
  detectTargetHeight (in_clusterSize i) (in_cert i) (in_heights i) = Ok (target, my) -> (target <= u64_max)%N -> (0 < Height (c_Storage c))%N ->
  createBFTDeliverer c (Height (c_Storage c)) (in_join i) (in_tlsCertHash i) = Ok v ->
  deliveries c ds c' -> last ds = Some (p, sigs) -> Forall readable_decision ds ->
  c_Storage c' = c_Storage c ++ pulled -> Forall (fun b => IsConfigBlock b = false) pulled -> (Height (c_Storage c') <= target)%N ->
  in_events i = (Received <$> pulled) ++ rest -> Height (c_Storage c') = target \/ (exists rest', rest = BufferStopped :: rest') ->
  exists s' nodes, Sync i (mkSynchronizer c lr pr st) = Some (Ok (s', mkSyncResponse (Some (mkDecision (proposal_norm p) (signature_norm <$> sigs))) nodes (existsb config_decision ds || rc_InLatestDecision lr))) /\ s_node s' = c'.
Proof.
  intros Htarget Hmax Hpos Hv Hd Hlast Hr Hst Hnc Hle Hev Hend. destruct (commit_deliveries c ds c' pulled lr pr st Hd Hr Hst Hnc) as (nodes & pr' & st' & Hca & Hnum & Hlen & Hl). rewrite Hlast in Hl. destruct Hl as (b & Hb & Hdec).
  assert (0 < length ds) as Hds by (destruct ds; [done|cbn; lia]). assert (Height (c_Storage c') = Height (c_Storage c) + N.of_nat (length pulled))%N as Hht by (unfold Height; rewrite Hst, length_app; lia).
  assert (u64_decr target = target - 1)%N as Edec by (apply u64_decr_small; lia).
  destruct (pull_loop_complete commit_pulled pulled (length (in_events i)) rest (Height (c_Storage c)) (u64_decr target) None (mkSynchronizer c lr pr st) (mkSynchronizer c' (mkReconfig nodes (existsb config_decision ds || rc_InLatestDecision lr)) pr' st') ltac:(lia) Hnum) as (b' & Hpull & Hb'); [|exact Hca| | |destruct pulled; [cbn in Hlen; lia|done]|].
  { right. lia. } { rewrite Hev, length_app, length_fmap. destruct Hend as [?|[rest' ->]]; [right; lia|left; cbn; lia]. } { destruct Hend as [?|?]; [left; lia|by right]. }
  rewrite Hb in Hb'. subst b'. exists (mkSynchronizer c' (mkReconfig [] false) pr' st'), nodes. split; [|done]. unfold Sync, synchronize. rewrite Htarget. cbn [wrap_err s_node]. rewrite (proj2 (N.leb_gt _ _)) by lia. rewrite (proj2 (N.eqb_neq _ _)) by lia. cbn [s_node].
  rewrite Hv. cbn [wrap_err]. unfold getBlocksFromSyncBuffer. rewrite Hev in Hpull |- *. rewrite Hpull. cbn [s_node]. rewrite Hdec. done.
Qed.
End Consenter.

(** ** Assemblers *)
Section Assembler.
Context `{FabricCodecs} `{BlockCodecs} `{StateCodecs} `{BFTCodecs} `{Sha256} {R : MapRange} `{ChannelConfigs}.

Lemma commit_appended : forall blocks l l', chain_ok (al_Ledger l) -> commit_all AppendBlock l blocks = Ok l' -> al_Ledger l' = al_Ledger l ++ blocks /\ chain_ok (al_Ledger l') /\ numbered (Height (al_Ledger l)) blocks.
Proof.
  induction blocks as [|b blocks IH]; intros l l' Hc E; cbn [commit_all] in E; [apply Ok_inj in E as <-; by rewrite app_nil_r|]. apply bind_Ok_inv in E as (l1 & E1 & E). unfold AppendBlock in E1. apply bind_Ok_inv in E1 as (led & Hled & E1). apply Ok_inj in E1 as <-.
  pose proof (Append_Ok (al_Ledger l) b led Hled) as (-> & h & Hh & Hn & _). apply (Append_chain _ _ _ Hc) in Hled. apply IH in E as (El & Hc' & Hnum); [|done]. cbn [al_Ledger updateMetrics] in *. split; [by rewrite El, <-app_assoc|]. split; [done|].
  split; [by exists h|]. unfold Height in *. rewrite length_app in Hnum. cbn in Hnum. by replace (N.of_nat (length (al_Ledger l)) + 1)%N with (N.of_nat (length (al_Ledger l) + 1)) by lia.
Qed.

(** An assembler that synchronizes. If it returns without an error, its ledger was extended with at least one of the blocks handed to it, in order, to a chain of at most the target height. But reaching the target is not needed: when
    the buffer is stopped after any blocks that extend the ledger, as the deliverer does when it gives up, it returns without an error too. *)
Theorem assembler_sync_extends i target l v : chain_ok (al_Ledger l) -> (0 < Height (al_Ledger l) < target)%N -> (target <= u64_max)%N ->
  Assembler_createBFTDeliverer l (Height (al_Ledger l)) (in_join i) (in_tlsCertHash i) = Ok v ->
  (forall l', Assembler_synchronize i target l = Some (l', Ok tt) ->
     exists pulled, al_Ledger l' = al_Ledger l ++ pulled /\ chain_ok (al_Ledger l') /\ (Height (al_Ledger l') <= target)%N /\ pulled <> [] /\ pulled `sublist_of` received_blocks (in_events i)) /\
  (forall pulled rest l', in_events i = (Received <$> pulled) ++ BufferStopped :: rest -> pulled <> [] -> (Height (al_Ledger l) + N.of_nat (length pulled) <= target)%N -> commit_all AppendBlock l pulled = Ok l' ->
     Assembler_synchronize i target l = Some (l', Ok tt)).
Proof.
  intros Hc Hh Hmax Hv. assert (u64_decr target = target - 1)%N as Edec by (apply u64_decr_small; lia).
  assert (Assembler_synchronize i target l = match getBlocksFromSyncBuffer AppendBlock (in_events i) (Height (al_Ledger l)) target l with None => None | Some (Ok (l, _)) => Some (l, Ok tt) | Some (Err _) => Some (l, Err "failed to get any blocks from SyncBuffer") | Some (Panic e) => Some (l, Panic e) end) as ->.
  { unfold Assembler_synchronize. rewrite (proj2 (N.eqb_neq target 0)), (proj2 (N.eqb_neq (Height (al_Ledger l)) target)), (proj2 (N.ltb_ge target (Height (al_Ledger l)))), (proj2 (N.eqb_neq (Height (al_Ledger l)) 0)) by lia. cbn zeta.
    rewrite (proj2 (N.eqb_neq (Height (al_Ledger l)) target)) by lia. by rewrite Hv. }
  unfold getBlocksFromSyncBuffer. split.
  - intros l' E. destruct (pull_loop _ _ _ _ _ _ _) as [[[l1 b]| |]|] eqn:Ep; try done. injection E as ->. apply pull_loop_sound in Ep as (pulled & Hca & Hnum & Hsub & Hle & _ & Hnil); [|lia]. destruct (commit_appended _ _ _ Hc Hca) as (Hl & Hc' & _). exists pulled.
    split; [done|]. split; [done|]. split; [|split; [intros En; by specialize (Hnil En)|done]]. unfold Height in *. rewrite Hl, length_app. destruct Hle as [En|Hle]; [by specialize (Hnil En)|lia].
  - intros pulled rest l' Hev Hne Hle Hca. destruct (commit_appended _ _ _ Hc Hca) as (_ & _ & Hnum).
    destruct (pull_loop_complete AppendBlock pulled (length (in_events i)) (BufferStopped :: rest) (Height (al_Ledger l)) (u64_decr target) None l l' ltac:(lia) Hnum) as (b & Hp & _); [right; lia|done|left; rewrite Hev, length_app, length_fmap; cbn; lia|right; by exists rest|done|].
    rewrite Hev in Hp |- *. by rewrite Hp.
Qed.
End Assembler.
