(* ===== verification/Censorship.v ===== *)
(** * The monitor of censorship

    While a node fetches blocks from one orderer, it asks the others for the headers, to notice if blocks are withheld: [src/common/deliverclient/blocksprovider/bft_censorship_monitor.go],
    [bft_header_receiver.go], and the durations of [util.go] and [timeout_config.go]. Times are nanoseconds, zero is the zero time. The monitor's loop, its receivers and the calls of Stop are the
    steps of [mon_step]; a critical section is one step. *)
From stdpp Require Import gmap sets.
From Stdlib Require Import NArith ZArith Lia.
From S2P Require Import Prelude Types Blocks BlockVerify Endpoints SyncTarget RateLimit.
Close Scope Z_scope.

(** ** Durations *)
Definition millisecond : Z := 1000000.
Definition BftMinRetryInterval : Z := 50 * millisecond.
Definition BftMaxRetryInterval : Z := 10 * second_nanos.
Definition BftBlockCensorshipTimeout : Z := 20 * second_nanos.
Record TimeoutConfig := mkTimeouts { tc_MinRetryInterval : Z; tc_MaxRetryInterval : Z; tc_BlockCensorshipTimeout : Z }.
Definition ApplyDefaults (t : TimeoutConfig) : TimeoutConfig :=
  mkTimeouts (if (tc_MinRetryInterval t <=? 0)%Z then BftMinRetryInterval else tc_MinRetryInterval t)
             (if (tc_MaxRetryInterval t <=? 0)%Z then BftMaxRetryInterval else tc_MaxRetryInterval t)
             (if (tc_BlockCensorshipTimeout t <=? 0)%Z then BftBlockCensorshipTimeout else tc_BlockCensorshipTimeout t).

(** An int64 that is not negative as a double: 53 bits, to the nearest, ties to even. *)
Definition round_double (z : Z) : Z :=
  let e := (Z.log2 z - 52)%Z in
  if (e <=? 0)%Z then z else
  let q := (z / 2 ^ e)%Z in let r := (z mod 2 ^ e)%Z in let half := (2 ^ (e - 1))%Z in
  ((if (half <? r) || ((half =? r) && Z.odd q) then q + 1 else q) * 2 ^ e)%Z.

(** The base is 2: a power of two, and a double times a power of two, are doubles, or infinite and above the maximum. The result that does not fit an int64 becomes the smallest, as on amd64. *)
Definition backOffDuration (exponent : N) (minDur maxDur : Z) : Z :=
  let minDur := if (minDur <=? 0)%Z then BftMinRetryInterval else minDur in
  let maxDur := if (maxDur <? minDur)%Z then minDur else maxDur in
  let fDurNano := if (1024 <=? exponent)%N then round_double maxDur else Z.min (2 ^ Z.of_N exponent * round_double minDur) (round_double maxDur) in
  if (fDurNano <=? max_int64)%Z then fDurNano else (- max_int64 - 1)%Z.

Section Monitor.
Context {V : Type} `{BlockVerifier V} `{MapRange}.

(** ** Header receivers *)
(** The client is the stream of headers, given by the number from which they were requested; [hr_receiving] tells whether the goroutine waits for the stream. *)
Record HeaderReceiver := mkReceiver {
  hr_stop : bool; hr_started : bool; hr_receiving : bool; hr_errorStopTime : Z; hr_client : N;
  hr_updatableBlockVerifier : V; hr_lastHeader : option Block; hr_lastHeaderTime : Z
}.

Definition NewBFTHeaderReceiver (client : N) (updatableBlockVerifier : V) (previousReceiver : option HeaderReceiver) : HeaderReceiver :=
  match previousReceiver with
  | Some p => match hr_lastHeader p with
              | Some b => mkReceiver false false false 0 client updatableBlockVerifier (Some b) (hr_lastHeaderTime p)
              | None => mkReceiver false false false 0 client updatableBlockVerifier None 0 end
  | None => mkReceiver false false false 0 client updatableBlockVerifier None 0
  end.
Definition with_flags (stop started receiving : bool) (hr : HeaderReceiver) : HeaderReceiver :=
  mkReceiver stop started receiving (hr_errorStopTime hr) (hr_client hr) (hr_updatableBlockVerifier hr) (hr_lastHeader hr) (hr_lastHeaderTime hr).
Definition setStarted (hr : HeaderReceiver) : HeaderReceiver := with_flags (hr_stop hr) true (hr_receiving hr) hr.
Definition HeaderReceiver_Stop (hr : HeaderReceiver) : HeaderReceiver := with_flags true (hr_started hr) (hr_receiving hr) hr.
(** The deferred end of DeliverHeaders after an error. *)
Definition error_stop (now : Z) (hr : HeaderReceiver) : HeaderReceiver :=
  mkReceiver true (hr_started hr) false now (hr_client hr) (hr_updatableBlockVerifier hr) (hr_lastHeader hr) (hr_lastHeaderTime hr).

(** The head of the loop of DeliverHeaders: it ends if the receiver was stopped, else it waits for the stream. *)
Definition DeliverHeaders_head (hr : HeaderReceiver) : HeaderReceiver := with_flags (hr_stop hr) (hr_started hr) (negb (hr_stop hr)) hr.
(** The rest of a round, with what the stream returned. *)
Definition DeliverHeaders_round (now : Z) (msg : outcome DeliverResponse) (hr : HeaderReceiver) : outcome HeaderReceiver :=
  match msg with
  | Ok (ResponseBlock block) =>
      block ← deref block;
      match receive_header (hr_updatableBlockVerifier hr) block with
      | Ok v => Ok (mkReceiver (hr_stop hr) (hr_started hr) false (hr_errorStopTime hr) (hr_client hr) v (Some block) now)
      | Err _ => Ok (error_stop now hr)
      | Panic e => Panic e
      end
  | Panic e => Panic e
  | _ => Ok (error_stop now hr)
  end.
(** The header that the round accepts. *)
Definition accepted_header (msg : outcome DeliverResponse) (hr : HeaderReceiver) : option Block :=
  match msg with
  | Ok (ResponseBlock (Some block)) => if is_ok (receive_header (hr_updatableBlockVerifier hr) block) then Some block else None
  | _ => None
  end.

Definition LastBlockNum (hr : HeaderReceiver) : outcome (N * Z) :=
  match hr_lastHeader hr with
  | None => Err "not found"
  | Some b => header ← deref (b_Header b); Ok (bh_Number header, hr_lastHeaderTime hr)
  end.

(** ** Trackers *)
Record headerReceiverTracker := mkTracker { t_headerReceiver : option HeaderReceiver; t_connectFailureCounter : N; t_stopTimes : list Z; t_retryDeadline : Z }.
Definition new_tracker : headerReceiverTracker := mkTracker None 0 [] 0.

(** The loop goes on with the successor of the element it removed; a removed element of a list has no successor. *)
Definition pruneOlderThan (u : Z) (t : headerReceiverTracker) : headerReceiverTracker :=
  mkTracker (t_headerReceiver t) (t_connectFailureCounter t)
    (match t_stopTimes t with s :: rest => if (s <? u)%Z then rest else s :: rest | [] => [] end) (t_retryDeadline t).
Definition appendIfNewer (u : Z) (t : headerReceiverTracker) : headerReceiverTracker * bool :=
  if match last (t_stopTimes t) with None => true | Some e => (e <? u)%Z end
  then (mkTracker (t_headerReceiver t) (t_connectFailureCounter t) (t_stopTimes t ++ [u]) (t_retryDeadline t), true)
  else (t, false).
Definition with_deadline (d : Z) (t : headerReceiverTracker) : headerReceiverTracker := mkTracker (t_headerReceiver t) (t_connectFailureCounter t) (t_stopTimes t) d.

(** ** The monitor *)
Inductive MonitorError := ErrStopping | ErrFatal | ErrCensorship.
Record BFTCensorshipMonitor := mkMonitor {
  m_updatableHeaderVerifier : V;
  m_fetchSources : list Endpoint;
  m_blockSourceIndex : nat;
  m_timeoutConfig : TimeoutConfig;
  m_stopHistoryWindowDur : Z;
  m_suspicion : bool;
  m_suspicionTime : Z;
  m_suspicionBlockNumber : N;
  m_stopFlag : bool;
  m_errorCh : list MonitorError;
  m_hdrRcvTrackers : gmap string headerReceiverTracker
}.
(** [stopWindowDur] is computed from the intervals with logarithms, and is given here. *)
Definition NewBFTCensorshipMonitor (v : V) (fetchSources : list Endpoint) (blockSourceIndex : nat) (timeoutConf : TimeoutConfig) (stopWindowDur : Z) : BFTCensorshipMonitor :=
  mkMonitor v fetchSources blockSourceIndex (ApplyDefaults timeoutConf) stopWindowDur false 0 0 false [] ∅.

Definition with_suspicion (suspicion : bool) (time : Z) (number : N) (m : BFTCensorshipMonitor) : BFTCensorshipMonitor :=
  mkMonitor (m_updatableHeaderVerifier m) (m_fetchSources m) (m_blockSourceIndex m) (m_timeoutConfig m) (m_stopHistoryWindowDur m)
    suspicion time number (m_stopFlag m) (m_errorCh m) (m_hdrRcvTrackers m).
Definition with_trackers (ts : gmap string headerReceiverTracker) (m : BFTCensorshipMonitor) : BFTCensorshipMonitor :=
  mkMonitor (m_updatableHeaderVerifier m) (m_fetchSources m) (m_blockSourceIndex m) (m_timeoutConfig m) (m_stopHistoryWindowDur m)
    (m_suspicion m) (m_suspicionTime m) (m_suspicionBlockNumber m) (m_stopFlag m) (m_errorCh m) ts.
Definition send_error (e : MonitorError) (m : BFTCensorshipMonitor) : BFTCensorshipMonitor :=
  mkMonitor (m_updatableHeaderVerifier m) (m_fetchSources m) (m_blockSourceIndex m) (m_timeoutConfig m) (m_stopHistoryWindowDur m)
    (m_suspicion m) (m_suspicionTime m) (m_suspicionBlockNumber m) (m_stopFlag m) (m_errorCh m ++ [e]) (m_hdrRcvTrackers m).

Definition stop_tracker (t : headerReceiverTracker) : headerReceiverTracker :=
  mkTracker (HeaderReceiver_Stop <$> t_headerReceiver t) (t_connectFailureCounter t) (t_stopTimes t) (t_retryDeadline t).
Definition Monitor_Stop (m : BFTCensorshipMonitor) : BFTCensorshipMonitor :=
  if m_stopFlag m then m else
  mkMonitor (m_updatableHeaderVerifier m) (m_fetchSources m) (m_blockSourceIndex m) (m_timeoutConfig m) (m_stopHistoryWindowDur m)
    (m_suspicion m) (m_suspicionTime m) (m_suspicionBlockNumber m) true (m_errorCh m) (stop_tracker <$> m_hdrRcvTrackers m).

(** The first part of Monitor: a tracker for every source but that of the blocks. *)
Definition Monitor_init (m : BFTCensorshipMonitor) : BFTCensorshipMonitor :=
  with_trackers (foldl (fun ts '(i, ep) => if bool_decide (i = m_blockSourceIndex m) then ts else <[ep_Address ep := new_tracker]> ts) (m_hdrRcvTrackers m)
    (imap pair (m_fetchSources m))) m.

(** *** Detection *)
(** The progress of the block fetcher: the number of the last block and its time, the zero time if there is none. *)
Notation Progress := (N * Z)%type (only parsing).
Definition reached (p : Progress) (n : N) : bool := negb (p.2 =? 0)%Z && (n <=? p.1)%N.

(** The receivers whose last header is ahead of the blocks. *)
Definition headers_ahead (p : Progress) (trackers : list (string * headerReceiverTracker)) : list (Z * N) :=
  omap (fun '(_, t) => hr ← t_headerReceiver t;
                       match LastBlockNum hr with
                       | Ok (n, time) => if (negb (p.2 =? 0)%Z && (p.1 <? n)%N) || (p.2 =? 0)%Z then Some (time, n) else None
                       | _ => None end) trackers.
Definition firstAhead (first : Z * N) (ahead : list (Z * N)) : Z * N := foldl (fun f tn => if (tn.1 <? f.1)%Z then tn else f) first ahead.

Definition detectBlockCensorship (now : Z) (p : Progress) (m : BFTCensorshipMonitor) : BFTCensorshipMonitor * bool :=
  let disproved := m_suspicion m && reached p (m_suspicionBlockNumber m) in
  let expired := m_suspicion m && (m_suspicionTime m + tc_BlockCensorshipTimeout (m_timeoutConfig m) <? now)%Z in
  if negb disproved && expired then (with_suspicion false 0 0 m, true) else
  let m := if disproved then with_suspicion false 0 0 m else m in
  if m_suspicion m then (m, false) else
  match headers_ahead p (range_map 0 (m_hdrRcvTrackers m)) with
  | [] => (m, false)
  | first :: rest => let tn := firstAhead first (first :: rest) in (with_suspicion true tn.1 tn.2 m, false)
  end.

(** *** Launching *)
(** The number from which headers are requested. *)
Definition seek_from (p : Progress) (prevHeaderReceiver : option HeaderReceiver) : N :=
  let blockNumber := if (p.2 =? 0)%Z then p.1 else u64_incr p.1 in
  match prevHeaderReceiver with
  | Some hr => match LastBlockNum hr with
               | Ok (hNum, _) => if (blockNumber <? u64_incr hNum)%N then u64_incr hNum else blockNumber
               | _ => blockNumber end
  | None => blockNumber
  end.

(** Whether a receiver is to be created for the source now, with the tracker afterwards. *)
Definition consider (m : BFTCensorshipMonitor) (now : Z) (t : headerReceiverTracker) : headerReceiverTracker * bool :=
  let due (t : headerReceiverTracker) := (t, negb (now <? t_retryDeadline t)%Z) in
  match t_headerReceiver t with
  | None => due t
  | Some hr =>
      if negb (hr_stop hr) then (t, false)
      else if hr_started hr then
        let t := pruneOlderThan (now - m_stopHistoryWindowDur m) t in
        let '(t, added) := appendIfNewer (hr_errorStopTime hr) t in
        due (if added then with_deadline (now + backOffDuration (N.of_nat (length (t_stopTimes t) - 1)) (tc_MinRetryInterval (m_timeoutConfig m)) (tc_MaxRetryInterval (m_timeoutConfig m))) t else t)
      else due t
  end.
(** The attempt to create one; [connected] tells whether the connection was made. *)
Definition create_receiver (m : BFTCensorshipMonitor) (now : Z) (p : Progress) (connected : bool) (t : headerReceiverTracker) : headerReceiverTracker :=
  if connected
  then mkTracker (Some (NewBFTHeaderReceiver (seek_from p (t_headerReceiver t)) (m_updatableHeaderVerifier m) (t_headerReceiver t))) 0 (t_stopTimes t) 0
  else mkTracker (t_headerReceiver t) (u64_incr (t_connectFailureCounter t)) (t_stopTimes t)
         (now + backOffDuration (t_connectFailureCounter t) (tc_MinRetryInterval (m_timeoutConfig m)) (tc_MaxRetryInterval (m_timeoutConfig m))).

Fixpoint consider_all (m : BFTCensorshipMonitor) (now : Z) (eps : list string) (ts : gmap string headerReceiverTracker) : outcome (gmap string headerReceiverTracker * list string) :=
  match eps with
  | [] => Ok (ts, [])
  | ep :: rest =>
      t ← deref (ts !! ep);
      let '(t, create) := consider m now t in
      r ← consider_all m now rest (<[ep := t]> ts);
      Ok (r.1, if create then ep :: r.2 else r.2)
  end.
(** The progress is read anew for every receiver. *)
Fixpoint create_all (m : BFTCensorshipMonitor) (now : Z) (p : string -> Progress) (connect : string -> bool) (eps : list string) (ts : gmap string headerReceiverTracker) : outcome (gmap string headerReceiverTracker) :=
  match eps with
  | [] => Ok ts
  | ep :: rest => t ← deref (ts !! ep); create_all m now p connect rest (<[ep := create_receiver m now (p ep) (connect ep) t]> ts)
  end.

(** The sources of headers. The receivers are created after [now], at [now']. *)
Definition header_sources (m : BFTCensorshipMonitor) : list string :=
  omap (fun '(i, ep) => if bool_decide (i = m_blockSourceIndex m) then None else Some (ep_Address ep)) (imap pair (m_fetchSources m)).
Definition launchHeaderReceivers (now now' : Z) (p : string -> Progress) (connect : string -> bool) (m : BFTCensorshipMonitor) : outcome BFTCensorshipMonitor :=
  fail_if bool_decide (length (m_fetchSources m) = 0) with "no endpoints" ;;
  r ← consider_all m now (header_sources m) (m_hdrRcvTrackers m);
  ts ← create_all m now' p connect r.2 r.1;
  Ok (with_trackers ts m).

(** ** Steps *)
Inductive monitor_pc := MonStart | MonLaunch | MonSelect | MonDone.
(** The monitor, where its goroutine is, the time, and the headers accepted so far with their times. *)
Record MonState := mkMonState { ms_m : BFTCensorshipMonitor; ms_pc : monitor_pc; ms_now : Z; ms_accepted : list (Block * Z) }.
Definition with_receiver (a : string) (t : headerReceiverTracker) (hr : HeaderReceiver) (m : BFTCensorshipMonitor) : BFTCensorshipMonitor :=
  with_trackers (<[a := mkTracker (Some hr) (t_connectFailureCounter t) (t_stopTimes t) (t_retryDeadline t)]> (m_hdrRcvTrackers m)) m.

(** What a step does that is seen from outside: a launch or a detection with the progress of the blocks, and a message a receiver gets. *)
Inductive mon_label :=
| LInit | LTime | LLaunch (p : string -> Progress) | LDetect (p : Progress) (censorship : bool) | LStopSeen | LStopCall | LReceiver | LReceived (client : N) (msg : outcome DeliverResponse).

Inductive mon_step : MonState -> mon_label -> MonState -> Prop :=
| st_init m now acc : mon_step (mkMonState m MonStart now acc) LInit (mkMonState (Monitor_init m) MonLaunch now acc)
| st_time m pc now now' acc : (now <= now')%Z -> mon_step (mkMonState m pc now acc) LTime (mkMonState m pc now' acc)
| st_launch m now now' acc p connect m' : (now <= now')%Z -> launchHeaderReceivers now now' p connect m = Ok m' ->
    mon_step (mkMonState m MonLaunch now acc) (LLaunch p) (mkMonState m' MonSelect now' acc)
| st_launch_failed m now acc p connect e : launchHeaderReceivers now now p connect m = Err e ->
    mon_step (mkMonState m MonLaunch now acc) (LLaunch p) (mkMonState (Monitor_Stop (send_error ErrFatal m)) MonDone now acc)
| st_stop_seen m now acc : m_stopFlag m = true ->
    mon_step (mkMonState m MonSelect now acc) LStopSeen (mkMonState (send_error ErrStopping m) MonDone now acc)
| st_detect m now acc p m' : detectBlockCensorship now p m = (m', false) ->
    mon_step (mkMonState m MonSelect now acc) (LDetect p false) (mkMonState m' MonLaunch now acc)
| st_censored m now acc p m' : detectBlockCensorship now p m = (m', true) ->
    mon_step (mkMonState m MonSelect now acc) (LDetect p true) (mkMonState (Monitor_Stop (send_error ErrCensorship m')) MonDone now acc)
| st_stop_call m pc now acc : mon_step (mkMonState m pc now acc) LStopCall (mkMonState (Monitor_Stop m) pc now acc)
| st_started m pc now acc a t hr : m_hdrRcvTrackers m !! a = Some t -> t_headerReceiver t = Some hr -> hr_started hr = false ->
    mon_step (mkMonState m pc now acc) LReceiver (mkMonState (with_receiver a t (setStarted hr) m) pc now acc)
| st_head m pc now acc a t hr : m_hdrRcvTrackers m !! a = Some t -> t_headerReceiver t = Some hr -> hr_started hr = true -> hr_receiving hr = false ->
    mon_step (mkMonState m pc now acc) LReceiver (mkMonState (with_receiver a t (DeliverHeaders_head hr) m) pc now acc)
| st_received m pc now acc a t hr msg hr' : m_hdrRcvTrackers m !! a = Some t -> t_headerReceiver t = Some hr -> hr_receiving hr = true -> DeliverHeaders_round now msg hr = Ok hr' ->
    mon_step (mkMonState m pc now acc) (LReceived (hr_client hr) msg)
      (mkMonState (with_receiver a t hr' m) pc now (acc ++ from_option (fun b => [(b, now)]) [] (accepted_header msg hr))).

Inductive mon_run (s : MonState) : list mon_label -> MonState -> Prop :=
| mr_nil : mon_run s [] s
| mr_snoc ls s1 l s2 : mon_run s ls s1 -> mon_step s1 l s2 -> mon_run s (ls ++ [l]) s2.
End Monitor.
Arguments HeaderReceiver : clear implicits.
Arguments headerReceiverTracker : clear implicits.
Arguments BFTCensorshipMonitor : clear implicits.
Arguments MonState : clear implicits.
