(* ===== verification/CensorshipThms.v ===== *)
(** * Theorems on the monitor of censorship

    A report of censorship has a verified header behind it, and a withheld block is reported in time; but receivers that connect late accept nothing, a monitor that is stopped early leaves receivers behind, and old stops are kept. *)
From stdpp Require Import gmap sets.
From Stdlib Require Import NArith ZArith Lia.
From S2P Require Import Prelude Types Events State Blocks Ledger StateCodec Consensus Assembler RequestFilter BlockVerify BlockVerifyThms Endpoints SyncTarget RateLimit Censorship.
Close Scope Z_scope.

(** ** Durations *)
Lemma round_double_small z : (0 <= z < 2 ^ 53)%Z -> round_double z = z.
Proof.
  intros Hz. unfold round_double. assert (Z.log2 z < 53)%Z as Hl. { destruct (decide (z = 0)%Z) as [->|]; [done|]. apply Z.log2_lt_pow2; lia. }
  by rewrite (proj2 (Z.leb_le _ _)) by lia.
Qed.

(** The wait doubles with every failure, from the minimum to the maximum. *)
Lemma backoff_exact e lo hi : (0 < lo <= hi)%Z -> (hi < 2 ^ 53)%Z -> backOffDuration e lo hi = Z.min (2 ^ Z.of_N e * lo) hi.
Proof.
  intros Hlo Hhi. unfold backOffDuration. rewrite (proj2 (Z.leb_gt lo 0)) by lia. rewrite (proj2 (Z.ltb_ge hi lo)) by lia. rewrite !round_double_small by lia. unfold max_int64.
  destruct (N.leb_spec 1024 e) as [He|He].
  - rewrite (proj2 (Z.leb_le _ _)) by lia. rewrite Z.min_r; [done|]. assert (2 ^ 53 <= 2 ^ Z.of_N e)%Z by (apply Z.pow_le_mono_r; lia). nia.
  - by rewrite (proj2 (Z.leb_le _ _)) by lia.
Qed.

Section Monitor.
Context {V : Type} `{BlockVerifier V} `{MapRange}.
Implicit Types (m : BFTCensorshipMonitor V) (s : MonState V).

(** ** Detection *)
Definition ahead_of (p : N * Z) (n : N) : Prop := reached p n = false.
#[local] Instance ahead_of_dec p n : base.Decision (ahead_of p n).
Proof. unfold ahead_of. apply _. Defined.

Lemma headers_ahead_spec p (ts : list (string * headerReceiverTracker V)) t n : (t, n) ∈ headers_ahead p ts <-> exists a tr hr, (a, tr) ∈ ts /\ t_headerReceiver tr = Some hr /\ LastBlockNum hr = Ok (n, t) /\ ahead_of p n.
Proof.
  unfold headers_ahead. rewrite list_elem_of_omap. split.
  - intros ([a tr] & Hin & E). destruct (t_headerReceiver tr) as [hr|] eqn:Er; [|done]. cbn in E. destruct (LastBlockNum hr) as [[n' t']| |] eqn:El; [|done|done]. destruct (_ || _) eqn:Ec; [|done]. injection E as -> ->.
    exists a, tr, hr. split; [done|]. split; [done|]. split; [done|]. unfold ahead_of, reached. destruct (p.2 =? 0)%Z; [done|]. cbn in *. rewrite orb_false_r in Ec. apply N.ltb_lt in Ec. apply N.leb_gt. lia.
  - intros (a & tr & hr & Hin & Er & El & Ha). exists (a, tr). split; [done|]. rewrite Er. cbn. rewrite El. unfold ahead_of, reached in Ha. destruct (p.2 =? 0)%Z; [done|]. cbn in *. apply N.leb_gt in Ha. by rewrite (proj2 (N.ltb_lt _ _)) by lia.
Qed.

Lemma firstAhead_spec : forall ahead first, let tn := firstAhead first ahead in (tn = first \/ tn ∈ ahead) /\ (tn.1 <= first.1)%Z /\ forall x, x ∈ ahead -> (tn.1 <= x.1)%Z.
Proof.
  unfold firstAhead. induction ahead as [|x ahead IH]; intros first; cbn [foldl]. { split; [by left|]. split; [lia|]. intros x Hx. set_solver. }
  specialize (IH (if (x.1 <? first.1)%Z then x else first)). cbn zeta in IH. destruct IH as (Hin & Hle & Hall). split.
  - destruct Hin as [->|?]; [|right; by right]. destruct (x.1 <? first.1)%Z; [right; by left|by left].
  - destruct (Z.ltb_spec x.1 first.1); split; try lia; intros y [->|Hy]%elem_of_cons; try lia; by apply Hall.
Qed.

(** What a detection does: it reports an expired suspicion that is not disproved; it keeps one that is pending; else it suspects the earliest header ahead of the blocks. *)
Lemma detect_spec now p m m' r : detectBlockCensorship now p m = (m', r) ->
  let pending := m_suspicion m = true /\ ahead_of p (m_suspicionBlockNumber m) in let expired := (m_suspicionTime m + tc_BlockCensorshipTimeout (m_timeoutConfig m) < now)%Z in
  (r = true <-> pending /\ expired) /\ (r = false -> pending -> m' = m) /\
  (r = false -> ~ pending -> (m' = with_suspicion false 0 0 m \/ m' = m /\ m_suspicion m = false) /\ headers_ahead p (range_map 0 (m_hdrRcvTrackers m)) = [] \/
     exists t n, m' = with_suspicion true t n m /\ (t, n) ∈ headers_ahead p (range_map 0 (m_hdrRcvTrackers m))) /\ (r = true -> m' = with_suspicion false 0 0 m).
Proof.
  unfold detectBlockCensorship. cbn zeta. intros E. assert (m_suspicion m = true /\ ahead_of p (m_suspicionBlockNumber m) <-> m_suspicion m = true /\ m_suspicion m && reached p (m_suspicionBlockNumber m) = false) as Hpend.
  { unfold ahead_of. destruct (m_suspicion m); cbn [andb]; naive_solver. } rewrite Hpend. clear Hpend.
  destruct (m_suspicion m) eqn:Es; cbn [andb] in E.
  - destruct (reached p (m_suspicionBlockNumber m)) eqn:Er; cbn [negb andb] in E.
    + cbn [m_suspicion with_suspicion m_hdrRcvTrackers] in E. destruct (headers_ahead p (range_map 0 (m_hdrRcvTrackers m))) as [|x l] eqn:El.
      * injection E as <- <-. split; [split; [done|intros [[_ ?] _]; done]|]. split; [intros _ [_ ?]; done|]. split; [intros _ _; left; split; [by left|done]|done].
      * injection E as <- <-. split; [split; [done|intros [[_ ?] _]; done]|]. split; [intros _ [_ ?]; done|]. split; [intros _ _; right|done].
        exists (firstAhead x (x :: l)).1, (firstAhead x (x :: l)).2. split; [done|]. rewrite <-surjective_pairing. destruct (firstAhead_spec (x :: l) x) as [[->|?] _]; [by left|done].
    + destruct (Z.ltb_spec (m_suspicionTime m + tc_BlockCensorshipTimeout (m_timeoutConfig m)) now) as [Hx|Hx]; cbn [andb] in E.
      * injection E as <- <-. done.
      * rewrite Es in E. injection E as <- <-. split; [split; [done|intros [_ ?]; lia]|]. split; [done|]. split; [intros _ Hn; destruct Hn; done|done].
  - cbn [negb andb] in E. rewrite Es in E. destruct (headers_ahead p (range_map 0 (m_hdrRcvTrackers m))) as [|x l] eqn:El.
    + injection E as <- <-. split; [split; [done|intros [[? _] _]; done]|]. split; [intros _ [? _]; done|]. split; [intros _ _; left; split; [by right|done]|done].
    + injection E as <- <-. split; [split; [done|intros [[? _] _]; done]|]. split; [intros _ [? _]; done|]. split; [intros _ _; right|done].
      exists (firstAhead x (x :: l)).1, (firstAhead x (x :: l)).2. split; [done|]. rewrite <-surjective_pairing. destruct (firstAhead_spec (x :: l) x) as [[->|?] _]; [by left|done].
Qed.

Lemma detect_frame now p m m' r : detectBlockCensorship now p m = (m', r) -> m_updatableHeaderVerifier m' = m_updatableHeaderVerifier m /\ m_hdrRcvTrackers m' = m_hdrRcvTrackers m.
Proof. unfold detectBlockCensorship. repeat case_match; intros [= <- _]; done. Qed.

(** ** Receivers *)
Definition all_receivers (Q : HeaderReceiver V -> Prop) (ts : gmap string (headerReceiverTracker V)) : Prop :=
  forall a t hr, ts !! a = Some t -> t_headerReceiver t = Some hr -> Q hr.

Lemma all_receivers_insert Q ts a t : all_receivers Q ts -> (forall hr, t_headerReceiver t = Some hr -> Q hr) -> all_receivers Q (<[a := t]> ts).
Proof. intros Hall Ht b t' hr [[-> <-]|[_ Hl]]%lookup_insert_Some Hr; [by apply Ht|by eapply Hall]. Qed.

Lemma consider_receiver m now t t' b : consider m now t = (t', b) -> t_headerReceiver t' = t_headerReceiver t.
Proof.
  unfold consider. destruct (t_headerReceiver t) as [hr|] eqn:Er; [|by intros [= <- _]]. destruct (negb (hr_stop hr)); [by intros [= <- _]|]. destruct (hr_started hr); [|by intros [= <- _]].
  unfold appendIfNewer. destruct (match last _ with Some _ => _ | None => _ end); intros [= <- _]; exact Er.
Qed.

Lemma launch_receivers Q now now' p connect m m' : launchHeaderReceivers now now' p connect m = Ok m' -> all_receivers Q (m_hdrRcvTrackers m) ->
  (forall a prev, (forall hr, prev = Some hr -> Q hr) -> Q (NewBFTHeaderReceiver (seek_from (p a) prev) (m_updatableHeaderVerifier m) prev)) ->
  exists ts, m' = with_trackers ts m /\ all_receivers Q ts.
Proof.
  intros E Hall Hnew. unfold launchHeaderReceivers in E. apply guard_err_Ok in E as [_ E]. apply bind_Ok_inv in E as ([ts1 create] & E1 & E). apply bind_Ok_inv in E as (ts2 & E2 & E). apply Ok_inj in E as <-. exists ts2. split; [done|]. cbn [fst snd] in E2.
  assert (all_receivers Q ts1) as Hall1.
  { clear E2 ts2. revert E1 Hall. generalize (m_hdrRcvTrackers m) ts1 create. induction (header_sources m) as [|ep eps IH]; intros ts0 ts2 cr E1 Hall; cbn [consider_all] in E1; [apply Ok_inj in E1; by injection E1 as <- _|].
    apply bind_Ok_inv in E1 as (t & Et & E1). destruct (ts0 !! ep) as [t0|] eqn:Ets; [|done]. apply Ok_inj in Et as ->. destruct (consider m now t) as [t' b] eqn:Ec. apply bind_Ok_inv in E1 as ([ts3 cr3] & E3 & E1). apply Ok_inj in E1. injection E1 as <- _.
    apply IH in E3; [done|]. apply all_receivers_insert; [done|]. intros hr Hr. rewrite (consider_receiver _ _ _ _ _ Ec) in Hr. by eapply Hall. }
  clear E1 Hall. revert E2 Hall1. generalize ts1. induction create as [|ep eps IH]; intros ts0 E2 Hall; cbn [create_all] in E2; [by apply Ok_inj in E2 as <-|].
  apply bind_Ok_inv in E2 as (t & Et & E2). destruct (ts0 !! ep) as [t0|] eqn:Ets; [|done]. apply Ok_inj in Et as ->. apply IH in E2; [done|]. apply all_receivers_insert; [done|]. intros hr Hr. unfold create_receiver in Hr.
  destruct (connect ep); cbn in Hr; [|by eapply Hall]. injection Hr as <-. apply Hnew. intros hr Hr. by eapply Hall.
Qed.

(** A property of the receivers that every operation on them keeps holds in every run. *)
Lemma stop_receivers Q m : all_receivers Q (m_hdrRcvTrackers m) -> (forall hr, Q hr -> Q (HeaderReceiver_Stop hr)) -> all_receivers Q (m_hdrRcvTrackers (Monitor_Stop m)).
Proof.
  intros Hall Hstop a t hr Hl Hr. unfold Monitor_Stop in Hl. destruct (m_stopFlag m); [by eapply Hall|]. cbn in Hl. rewrite lookup_fmap in Hl. destruct (m_hdrRcvTrackers m !! a) as [t0|] eqn:Et; [|done]. injection Hl as <-. cbn in Hr.
  destruct (t_headerReceiver t0) as [hr0|] eqn:Er; [|done]. injection Hr as <-. apply Hstop. by eapply Hall.
Qed.
Lemma init_receivers Q m : all_receivers Q (m_hdrRcvTrackers m) -> all_receivers Q (m_hdrRcvTrackers (Monitor_init m)).
Proof.
  unfold Monitor_init. cbn [with_trackers m_hdrRcvTrackers]. generalize (imap pair (m_fetchSources m)) (m_hdrRcvTrackers m). intros l. induction l as [|[i ep] l IH]; intros ts Hall; cbn [foldl]; [done|]. apply IH. destruct (bool_decide _); [done|].
  by apply all_receivers_insert.
Qed.

Lemma stop_fields m : let m' := Monitor_Stop m in m_timeoutConfig m' = m_timeoutConfig m /\ m_suspicion m' = m_suspicion m /\ m_suspicionTime m' = m_suspicionTime m /\ m_suspicionBlockNumber m' = m_suspicionBlockNumber m /\
  m_updatableHeaderVerifier m' = m_updatableHeaderVerifier m /\ m_stopFlag m' = true.
Proof. unfold Monitor_Stop. cbn. by destruct (m_stopFlag m) eqn:E. Qed.

(** ** What is behind a report *)
Record mon_inv (timeout : Z) (s : MonState V) : Prop := {
  mi_timeout : tc_BlockCensorshipTimeout (m_timeoutConfig (ms_m s)) = timeout;
  mi_receivers : all_receivers (fun hr => forall b, hr_lastHeader hr = Some b -> (b, hr_lastHeaderTime hr) ∈ ms_accepted s) (m_hdrRcvTrackers (ms_m s));
  mi_times : forall b t, (b, t) ∈ ms_accepted s -> (t <= ms_now s)%Z;
  mi_suspicion : m_suspicion (ms_m s) = true -> exists b h, (b, m_suspicionTime (ms_m s)) ∈ ms_accepted s /\ b_Header b = Some h /\ bh_Number h = m_suspicionBlockNumber (ms_m s)
}.

Lemma ahead_accepted timeout s p t n : mon_inv timeout s -> (t, n) ∈ headers_ahead p (range_map 0 (m_hdrRcvTrackers (ms_m s))) -> exists b h, (b, t) ∈ ms_accepted s /\ b_Header b = Some h /\ bh_Number h = n.
Proof.
  intros Hi (a & tr & hr & Hin & Hr & Hl & _)%headers_ahead_spec. rewrite range_perm in Hin. apply elem_of_map_to_list in Hin. unfold LastBlockNum in Hl. destruct (hr_lastHeader hr) as [b|] eqn:Eb; [|done].
  destruct (b_Header b) as [h|] eqn:Eh; [|done]. cbn in Hl. apply Ok_inj in Hl. injection Hl as <- <-. exists b, h. split; [|done]. by eapply (mi_receivers _ _ Hi).
Qed.

Lemma new_receiver_header client (v : V) prev b : hr_lastHeader (NewBFTHeaderReceiver client v prev) = Some b ->
  exists hr, prev = Some hr /\ hr_lastHeader hr = Some b /\ hr_lastHeaderTime (NewBFTHeaderReceiver client v prev) = hr_lastHeaderTime hr.
Proof. unfold NewBFTHeaderReceiver. destruct prev as [hr|]; [|done]. destruct (hr_lastHeader hr) as [b0|] eqn:E; [|done]. cbn. intros [= ->]. by exists hr. Qed.

Lemma mon_step_inv timeout s l s' : mon_inv timeout s -> mon_step s l s' -> mon_inv timeout s'.
Proof.
  intros Hi Hs. pose proof Hi as [Ht Hr Hti Hsu]. destruct Hs as [m now acc|m pc now now' acc Hle|m now now' acc p connect m' Hle E|m now acc p connect e E|m now acc Hst|m now acc p m' E|m now acc p m' E|m pc now acc|m pc now acc a t hr Ha Hhr Hstd|m pc now acc a t hr Ha Hhr Hstd Hrc|m pc now acc a t hr msg hr' Ha Hhr Hrc E]; cbn [ms_m ms_now ms_accepted] in *.
  - split; cbn; try done. by apply init_receivers.
  - split; cbn; try done. intros b t Hb. specialize (Hti _ _ Hb). lia.
  - destruct (launch_receivers _ _ _ _ _ _ _ E Hr) as (ts & -> & Hts).
    { intros a prev Hprev b Hb. apply new_receiver_header in Hb as (hr & Ep & Hb & ->). by apply Hprev. }
    split; cbn; try done. intros b t Hb. specialize (Hti _ _ Hb). lia.
  - destruct (stop_fields (send_error ErrFatal m)) as (E1 & E2 & E3 & E4 & _). split; cbn [ms_m ms_now ms_accepted]; try done; [by rewrite E1|by apply stop_receivers|by rewrite E2, E3, E4].
  - split; done.
  - apply detect_spec in E as (_ & Hpend & Hnew & _). destruct (decide (m_suspicion m = true /\ ahead_of p (m_suspicionBlockNumber m))) as [Hp|Hp]; [by rewrite (Hpend eq_refl Hp)|].
    destruct (Hnew eq_refl Hp) as [[[->|[-> _]] _]|(t & n & -> & Hin)]; [by split|done|]. split; cbn; try done. intros _. by eapply (ahead_accepted timeout (mkMonState m MonSelect now acc)).
  - apply detect_spec in E as (_ & _ & _ & Hm). rewrite (Hm eq_refl). destruct (stop_fields (send_error ErrCensorship (with_suspicion false 0 0 m))) as (E1 & E2 & E3 & E4 & _). split; cbn [ms_m ms_now ms_accepted]; try done; [by rewrite E1|by apply stop_receivers|by rewrite E2].
  - destruct (stop_fields m) as (E1 & E2 & E3 & E4 & _). split; cbn [ms_m ms_now ms_accepted]; try done; [by rewrite E1|by apply stop_receivers|by rewrite E2, E3, E4].
  - split; cbn; try done. apply all_receivers_insert; [done|]. intros hr0 [= <-] b Hb. exact (Hr a t hr Ha Hhr b Hb).
  - split; cbn; try done. apply all_receivers_insert; [done|]. intros hr0 [= <-] b Hb. exact (Hr a t hr Ha Hhr b Hb).
  - assert (forall x, x ∈ acc -> x ∈ acc ++ from_option (fun b => [(b, now)]) [] (accepted_header msg hr)) as Hsub by (intros x Hx; apply elem_of_app; by left).
    assert (forall b t, (b, t) ∈ acc ++ from_option (fun b => [(b, now)]) [] (accepted_header msg hr) -> (b, t) ∈ acc \/ t = now) as Hsplit.
    { intros b t0 [?|Hin]%elem_of_app; [by left|right]. unfold accepted_header in Hin. destruct msg as [[|[block|]|]| |]; cbn in Hin; try by apply not_elem_of_nil in Hin. destruct (receive_header (hr_updatableBlockVerifier hr) block) as [v'| |] eqn:Ev; cbn in Hin; [|by apply not_elem_of_nil in Hin..].
      apply list_elem_of_singleton in Hin. by injection Hin as -> ->. }
    split; cbn; try done.
    + apply all_receivers_insert; [intros b t0 hr0 Hl0 Hr0 b0 Hb0; apply Hsub; by eapply Hr|]. intros hr0 [= <-] b Hb. unfold DeliverHeaders_round, accepted_header in *.
      assert (hr' = error_stop now hr -> (b, hr_lastHeaderTime hr') ∈ acc ++ []) as Herr. { intros ->. rewrite app_nil_r. cbn in Hb |- *. by eapply Hr. }
      destruct msg as [[|[block|]|]| |]; cbn in E; try done; try (apply Ok_inj in E; by apply Herr).
      destruct (receive_header (hr_updatableBlockVerifier hr) block) as [v'| |] eqn:Ev; cbn [is_ok from_option]; [|apply Ok_inj in E; by apply Herr|done]. apply Ok_inj in E as <-. cbn in Hb |- *. injection Hb as <-. apply elem_of_app. right. by left.
    + intros b t0 [Hin| ->]%Hsplit; [by eapply Hti|lia].
    + intros Hs. destruct (Hsu Hs) as (b & h & Hb & ?). exists b, h. split; [by apply Hsub|done].
Qed.
Lemma mon_run_inv timeout s ls s' : mon_inv timeout s -> mon_run s ls s' -> mon_inv timeout s'.
Proof. intros Hi Hr. induction Hr as [|ls s1 l s2 _ IH Hs]; [done|by eapply mon_step_inv]. Qed.

(** The verifiers that receiving headers makes of one, and what was accepted by those. *)
Inductive derived (v : V) : V -> Prop :=
| der_refl : derived v v
| der_header v1 b v2 : derived v v1 -> receive_header v1 b = Ok v2 -> derived v v2.
Record derived_inv (v : V) (s : MonState V) : Prop := {
  di_monitor : m_updatableHeaderVerifier (ms_m s) = v;
  di_receivers : all_receivers (fun hr => derived v (hr_updatableBlockVerifier hr)) (m_hdrRcvTrackers (ms_m s));
  di_accepted : forall b t, (b, t) ∈ ms_accepted s -> exists v1 v2, derived v v1 /\ receive_header v1 b = Ok v2
}.
Lemma derived_step v s l s' : derived_inv v s -> mon_step s l s' -> derived_inv v s'.
Proof.
  intros [Hm Hr Ha] Hs. destruct Hs as [m now acc|m pc now now' acc Hle|m now now' acc p connect m' Hle E|m now acc p connect e E|m now acc Hst|m now acc p m' E|m now acc p m' E|m pc now acc|m pc now acc a t hr Hta Hhr Hstd|m pc now acc a t hr Hta Hhr Hstd Hrc|m pc now acc a t hr msg hr' Hta Hhr Hrc E]; cbn [ms_m ms_accepted] in *.
  - split; cbn; try done. by apply init_receivers.
  - by split.
  - destruct (launch_receivers _ _ _ _ _ _ _ E Hr) as (ts & -> & Hts); [|by split]. intros a prev _. rewrite Hm. unfold NewBFTHeaderReceiver. destruct prev as [hr|]; [destruct (hr_lastHeader hr)|]; constructor.
  - destruct (stop_fields (send_error ErrFatal m)) as (_ & _ & _ & _ & E5 & _). split; cbn [ms_m ms_accepted]; [by rewrite E5|by apply stop_receivers|done].
  - by split.
  - destruct (detect_frame _ _ _ _ _ E) as [E1 E2]. split; cbn; [by rewrite E1|by rewrite E2|done].
  - destruct (detect_frame _ _ _ _ _ E) as [E1 E2]. destruct (stop_fields (send_error ErrCensorship m')) as (_ & _ & _ & _ & E5 & _). split; cbn [ms_m ms_accepted]; [by rewrite E5; cbn; rewrite E1|apply stop_receivers; [cbn; by rewrite E2|done]|done].
  - destruct (stop_fields m) as (_ & _ & _ & _ & E5 & _). split; cbn [ms_m ms_accepted]; [by rewrite E5|by apply stop_receivers|done].
  - split; cbn; try done. apply all_receivers_insert; [done|]. intros hr0 [= <-]. exact (Hr a t hr Hta Hhr).
  - split; cbn; try done. apply all_receivers_insert; [done|]. intros hr0 [= <-]. exact (Hr a t hr Hta Hhr).
  - pose proof (Hr a t hr Hta Hhr) as Hd. cbn in Hd. unfold DeliverHeaders_round, accepted_header in *. destruct msg as [[|[block|]|]| |]; cbn in E; try done;
      try (apply Ok_inj in E as <-; split; cbn; rewrite ?app_nil_r; try done; apply all_receivers_insert; [done|]; by intros hr0 [= <-]).
    destruct (receive_header (hr_updatableBlockVerifier hr) block) as [v'| |] eqn:Ev; [|apply Ok_inj in E as <-; split; cbn; rewrite ?app_nil_r; try done; apply all_receivers_insert; [done|]; by intros hr0 [= <-]|done].
    apply Ok_inj in E as <-. split; cbn; try done.
    + apply all_receivers_insert; [done|]. intros hr0 [= <-]. by eapply der_header.
    + intros b t0 [Hb|Hb%list_elem_of_singleton]%elem_of_app; [by eapply Ha|]. injection Hb as -> _. by exists (hr_updatableBlockVerifier hr), v'.
Qed.

(** The time does not go back, and a suspicion that is pending at a progress stays so until it is reported. *)
Lemma step_time s l s' : mon_step s l s' -> (ms_now s <= ms_now s')%Z.
Proof. destruct 1; cbn; lia. Qed.

Definition pending_at (timeout T : Z) (p : N * Z) (s : MonState V) : Prop :=
  tc_BlockCensorshipTimeout (m_timeoutConfig (ms_m s)) = timeout /\ m_suspicion (ms_m s) = true /\ ahead_of p (m_suspicionBlockNumber (ms_m s)) /\ (m_suspicionTime (ms_m s) <= T)%Z.
Definition withheld_at (p : N * Z) (l : mon_label) : Prop := match l with LDetect p' r => p' = p /\ r = false | _ => True end.

Lemma pending_step timeout T p s l s' : pending_at timeout T p s -> mon_step s l s' -> withheld_at p l -> pending_at timeout T p s'.
Proof.
  intros Hp Hs Hl. destruct Hs as [m now acc|m pc now now' acc Hle|m now now' acc p' connect m' Hle E|m now acc p' connect e E|m now acc Hst|m now acc p' m' E|m now acc p' m' E|m pc now acc|m pc now acc a t hr Ha Hhr Hstd|m pc now acc a t hr Ha Hhr Hstd Hrc|m pc now acc a t hr msg hr' Ha Hhr Hrc E]; try exact Hp.
  - apply (launch_receivers (fun _ => True)) in E as (ts & -> & _); [exact Hp|done|done].
  - unfold pending_at in *. cbn [ms_m] in *. destruct (stop_fields (send_error ErrFatal m)) as (-> & -> & -> & -> & _). exact Hp.
  - destruct Hl as [-> _]. apply detect_spec in E as (_ & Hpend & _). destruct Hp as (Ht & Hs & Ha & HT). cbn [ms_m] in *. rewrite (Hpend eq_refl (conj Hs Ha)). done.
  - by destruct Hl.
  - unfold pending_at in *. cbn [ms_m] in *. destruct (stop_fields m) as (-> & -> & -> & -> & _). exact Hp.
Qed.
Lemma pending_run timeout T p s ls s' : pending_at timeout T p s -> mon_run s ls s' -> Forall (withheld_at p) ls -> pending_at timeout T p s'.
Proof. intros Hp Hr. induction Hr as [|ls s1 l s2 _ IH Hs]; intros Hall; [done|]. apply Forall_app in Hall as [Hall [Hl _]%Forall_cons_1]. eapply pending_step; [by apply IH|done|done]. Qed.

Definition mon_start (v : V) (sources : list Endpoint) (i : nat) (tc : TimeoutConfig) (window now : Z) : MonState V := mkMonState (NewBFTCensorshipMonitor v sources i tc window) MonStart now [].
Lemma mon_start_inv v sources i tc window now : mon_inv (tc_BlockCensorshipTimeout (ApplyDefaults tc)) (mon_start v sources i tc window now).
Proof. split; [done|intros a t hr Hl; by destruct (lookup_empty_Some a t Hl)|intros b t Hin; by apply not_elem_of_nil in Hin..|done]. Qed.

(** C31: Censorship is reported exactly when blocks are withheld. In every interleaving of the monitor, its receivers and calls of Stop: when censorship is reported, some header, accepted by the verifier the monitor was given or by what that one became by accepting earlier headers, has a number that the blocks
    did not reach, and was received longer than the timeout ago. And if at one check some receiver is ahead of the blocks, and at no check until a time more than the timeout later the blocks have progressed, then censorship is reported
    at that time, if it was not before. *)
Theorem censorship_detection v sources i tc window now ls s : mon_run (mon_start v sources i tc window now) ls s -> let timeout := tc_BlockCensorshipTimeout (ApplyDefaults tc) in
  (forall p s', mon_step s (LDetect p true) s' -> exists b h t, (b, t) ∈ ms_accepted s /\ (exists v1 v2, derived v v1 /\ receive_header v1 b = Ok v2) /\ b_Header b = Some h /\ reached p (bh_Number h) = false /\ (t + timeout < ms_now s)%Z) /\
  (forall p s1 ls2 s2 r s3 a t hr n time, mon_step s (LDetect p false) s1 -> m_hdrRcvTrackers (ms_m s) !! a = Some t -> t_headerReceiver t = Some hr -> LastBlockNum hr = Ok (n, time) -> reached p n = false ->
     mon_run s1 ls2 s2 -> Forall (withheld_at p) ls2 -> mon_step s2 (LDetect p r) s3 -> (ms_now s + timeout < ms_now s2)%Z -> r = true).
Proof.
  intros Hrun timeout. pose proof (mon_run_inv _ _ _ _ (mon_start_inv v sources i tc window now) Hrun) as Hi. fold timeout in Hi. assert (derived_inv v s) as Hd.
  { clear Hi. induction Hrun as [|ls s1 l s2 _ IH Hs]; [|by eapply derived_step]. split; [done|intros a t hr Hl; by destruct (lookup_empty_Some a t Hl)|intros b t Hin; by apply not_elem_of_nil in Hin]. }
  split.
  - intros p s' Hs. inversion Hs as [| | | | | |m now' acc p' m' E| | | |]; subst. apply detect_spec in E as (Hrep & _). destruct (proj1 Hrep eq_refl) as [[Hsu Ha] Hx]. destruct (mi_suspicion _ _ Hi Hsu) as (b & h & Hb & Hh & Hn). cbn [ms_m ms_now ms_accepted] in *.
    exists b, h, (m_suspicionTime m). split; [done|]. split; [by eapply (di_accepted _ _ Hd)|]. split; [done|]. split; [by rewrite Hn|]. rewrite <-(mi_timeout _ _ Hi). done.
  - intros p s1 ls2 s2 r s3 a t hr n time Hs Ha Hhr Hl Hahead Hrun2 Hall Hs3 Hlate. assert (pending_at timeout (ms_now s) p s1) as Hp.
    { inversion Hs as [| | | | |m now' acc p' m' E| | | | |]; subst. cbn [ms_m ms_now] in *. apply detect_spec in E as (_ & Hpend & Hnew & _). destruct (decide (m_suspicion m = true /\ ahead_of p (m_suspicionBlockNumber m))) as [Hsp|Hsp].
      - rewrite (Hpend eq_refl Hsp). destruct Hsp as [Hsu Hsa]. destruct (mi_suspicion _ _ Hi Hsu) as (b & h & Hb & _). split; [apply (mi_timeout _ _ Hi)|]. split; [done|]. split; [done|]. apply (mi_times _ _ Hi _ _ Hb).
      - destruct (Hnew eq_refl Hsp) as [[_ Hnil]|(t0 & n0 & -> & Hin)].
        + exfalso. apply (not_elem_of_nil (time, n)). rewrite <-Hnil. apply headers_ahead_spec. exists a, t, hr. split; [|done]. rewrite range_perm. by apply elem_of_map_to_list.
        + destruct (ahead_accepted _ _ _ _ _ Hi Hin) as (b & h & Hb & _). split; [apply (mi_timeout _ _ Hi)|]. split; [done|]. split; [|apply (mi_times _ _ Hi _ _ Hb)]. by apply headers_ahead_spec in Hin as (_ & _ & _ & _ & _ & _ & ?). }
    pose proof (pending_run _ _ _ _ _ _ Hp Hrun2 Hall) as (Ht2 & Hs2 & Ha2 & HT2). destruct r; [done|exfalso]. inversion Hs3 as [| | | | |m now' acc p' m' E| | | | |]; subst. cbn [ms_m ms_now] in *. apply detect_spec in E as (Hrep & _).
    assert (false = true) as ?; [|done]. apply Hrep. split; [done|]. rewrite Ht2. lia.
Qed.
End Monitor.

(** ** Receivers that connect late *)
(** A verifier of headers accepts only the header that follows the last one it knows. *)
Class HeaderChain (V : Type) `{BlockCodecs} `{Sha256} `{BV : BlockVerifier V} `{CV : !ChainVerifier V} := {
  attestation_follows : forall (v : V) b v', VerifyBlockAttestation v b = Ok v' -> exists h, b_Header b = Some h /\ u64 (bh_Number (tip v) + 1) = bh_Number h
}.

#[export] Instance assembler_headers `{FabricCodecs} `{BlockCodecs} `{Sha256} `{ChannelConfigs} : HeaderChain BlockVerificationAssistant.
Proof.
  split. intros a b a' E. cbn [VerifyBlockAttestation assembler_verifier] in E. unfold BVA_VerifyBlockAttestation, verifyHeader in E. apply bind_Ok_inv in E as (h & Eh & _). apply bind_Ok_inv in Eh as (h' & Eh'%of_option_Ok & Eh).
  apply guard_err_Ok in Eh as [Hn%negb_false_iff%N.eqb_eq Eh]. apply guard_err_Ok in Eh as [_ Eh]. apply Ok_inj in Eh as ->. by exists h.
Qed.
#[export] Instance consenter_headers `{FabricCodecs} `{BlockCodecs} `{StateCodecs} `{BFTCodecs} `{Sha256} `{ChannelConfigs} : HeaderChain ConsenterBlockVerifier.
Proof.
  split. intros c b c' E. cbn [VerifyBlockAttestation consenter_verifier] in E. unfold CBV_VerifyBlockAttestation, CBV_verifyHeader in E. apply bind_Ok_inv in E as (h & Eh & _). apply bind_Ok_inv in Eh as (h' & Eh'%of_option_Ok & Eh).
  apply guard_err_Ok in Eh as [Hn%negb_false_iff%N.eqb_eq Eh]. apply bind_Ok_inv in Eh as (hash & _ & Eh). apply guard_err_Ok in Eh as [_ Eh]. apply Ok_inj in Eh as ->. by exists h.
Qed.

Section Late.
Context `{BlockCodecs} `{Sha256} `{MapRange} {V : Type} `{BV : BlockVerifier V} `{CV : !ChainVerifier V} `{HC : !HeaderChain V}.

Lemma receive_header_follows (v : V) b v' : tip_ok v -> receive_header v b = Ok v' -> exists h, b_Header b = Some h /\ bh_Number h = u64 (bh_Number (tip v) + 1).
Proof.
  unfold receive_header. intros Hok E. apply bind_Ok_inv in E as (h & Eh & E). apply bind_Ok_inv in E as (v1 & E1 & _). destruct (ops_IsConfigBlock b).
  - apply bind_Ok_inv in E1 as (v2 & E2 & _). apply verify_links in E2 as (h' & Hh & Hn & _); [|done]. by exists h'.
  - apply attestation_follows in E1 as (h' & Hh & Hn). by exists h'.
Qed.

(** At a launch the block fetcher has a block that the verifier of the monitor does not know, and a stream of headers starts where it was asked to. *)
Definition late_or_honest (n : N) (l : mon_label) : Prop :=
  match l with
  | LLaunch p => forall a, (p a).2 <> 0%Z /\ (n < (p a).1 < u64_max)%N
  | LReceived client (Ok (ResponseBlock (Some b))) => forall h, b_Header b = Some h -> (client <= bh_Number h)%N
  | _ => True
  end.

(** Receivers that connect late are blind. The verifier that a monitor gives to its receivers is the one of when the monitor was created, at the last block before it. If every time receivers are launched the block fetcher has already got a block, and the
    streams deliver the headers from where they are asked to, no receiver ever accepts a header: no censorship is ever reported, whatever the fetcher's source withholds afterwards. *)
Theorem late_receivers_blind (v : V) sources i tc window now ls s : tip_ok v -> (bh_Number (tip v) + 2 < u64_max)%N -> mon_run (mon_start v sources i tc window now) ls s -> Forall (late_or_honest (bh_Number (tip v))) ls ->
  ms_accepted s = [] /\ (forall p, LDetect p true ∉ ls) /\ ErrCensorship ∉ m_errorCh (ms_m s).
Proof.
  intros Hok Hsmall Hrun Hall. set (n := bh_Number (tip v)) in *. set (Q hr := hr_updatableBlockVerifier hr = v /\ hr_lastHeader hr = None /\ (n + 2 <= hr_client hr)%N).
  assert (m_updatableHeaderVerifier (ms_m s) = v /\ all_receivers Q (m_hdrRcvTrackers (ms_m s)) /\ m_suspicion (ms_m s) = false /\ ms_accepted s = [] /\ (forall p, LDetect p true ∉ ls) /\ ErrCensorship ∉ m_errorCh (ms_m s)) as Hinv; [|tauto].
  induction Hrun as [|ls s1 l s2 _ IH Hs].
  { cbn. repeat split; try done; try apply not_elem_of_nil; intros; try apply not_elem_of_nil; by destruct (lookup_empty_Some a t H2). }
  apply Forall_app in Hall as [Hall [Hl _]%Forall_cons_1]. destruct (IH Hall) as (Hv & HQ & Hsu & Hacc & Hno & Herr). clear IH. assert (forall p, l <> LDetect p true -> LDetect p true ∉ ls ++ [l]) as Hnot.
  { intros p Hne [?|Hin%list_elem_of_singleton]%elem_of_app; [by eapply Hno|done]. }
  assert (forall p, headers_ahead p (range_map 0 (m_hdrRcvTrackers (ms_m s1))) = []) as Hnone.
  { intros p. destruct (headers_ahead p _) as [|[t0 n0] rest] eqn:El; [done|exfalso]. assert ((t0, n0) ∈ headers_ahead p (range_map 0 (m_hdrRcvTrackers (ms_m s1)))) as Hin by (rewrite El; by left).
    apply headers_ahead_spec in Hin as (a & tr & hr & Hin & Hr & Hlb & _). rewrite range_perm in Hin. apply elem_of_map_to_list in Hin. destruct (HQ _ _ _ Hin Hr) as (_ & Hnone & _). unfold LastBlockNum in Hlb. by rewrite Hnone in Hlb. }
  destruct Hs as [m tm acc|m pc tm tm' acc Hle|m tm tm' acc p connect m' Hle E|m tm acc p connect e E|m tm acc Hst|m tm acc p m' E|m tm acc p m' E|m pc tm acc|m pc tm acc a t hr Ha Hhr Hstd|m pc tm acc a t hr Ha Hhr Hstd Hrc|m pc tm acc a t hr msg hr' Ha Hhr Hrc E]; cbn [ms_m ms_accepted] in *.
  - split; [done|]. split; [by apply init_receivers|]. split; [done|]. split; [done|]. split; [by intros p; apply Hnot|done].
  - split; [done|]. split; [done|]. split; [done|]. split; [done|]. split; [by intros p; apply Hnot|done].
  - destruct (launch_receivers Q _ _ _ _ _ _ E HQ) as (ts & -> & Hts).
    { intros a prev Hprev. destruct (Hl a) as [Hz Hp]. unfold NewBFTHeaderReceiver, seek_from, Q. rewrite (proj2 (Z.eqb_neq _ _) Hz). unfold u64_incr. rewrite u64_small by lia. destruct prev as [hr|]; cbn; [|split; [done|split; [done|lia]]].
      destruct (Hprev hr eq_refl) as (_ & Hln & _). unfold LastBlockNum. rewrite Hln. cbn. split; [done|]. split; [done|lia]. }
    split; [done|]. split; [exact Hts|]. split; [done|]. split; [done|]. split; [by intros p0; apply Hnot|done].
  - destruct (stop_fields (send_error ErrFatal m)) as (_ & E2 & _ & _ & E5 & _). split; [by rewrite E5|]. split; [by apply stop_receivers|]. split; [by rewrite E2|]. split; [done|]. split; [by intros p0; apply Hnot|].
    unfold Monitor_Stop. destruct (m_stopFlag _); cbn; intros [?|?%list_elem_of_singleton]%elem_of_app; done.
  - split; [done|]. split; [done|]. split; [done|]. split; [done|]. split; [by intros p; apply Hnot|]. cbn. intros [?|?%list_elem_of_singleton]%elem_of_app; done.
  - apply detect_spec in E as (_ & _ & Hnew & _). destruct (Hnew eq_refl) as [[Hm _]|(t0 & n0 & _ & Hin)]; [intros [? _]; congruence| |rewrite Hnone in Hin; by apply not_elem_of_nil in Hin].
    assert (m_updatableHeaderVerifier m' = v /\ all_receivers Q (m_hdrRcvTrackers m') /\ m_suspicion m' = false /\ m_errorCh m' = m_errorCh m) as (? & ? & ? & Ee) by (destruct Hm as [->|[-> _]]; done).
    split; [done|]. split; [done|]. split; [done|]. split; [done|]. split; [by intros p0; apply Hnot|by rewrite Ee].
  - apply detect_spec in E as (Hrep & _). destruct (proj1 Hrep eq_refl) as [[? _] _]. congruence.
  - destruct (stop_fields m) as (_ & E2 & _ & _ & E5 & _). split; [by rewrite E5|]. split; [by apply stop_receivers|]. split; [by rewrite E2|]. split; [done|]. split; [by intros p0; apply Hnot|]. unfold Monitor_Stop. by destruct (m_stopFlag m).
  - split; [done|]. split; [apply all_receivers_insert; [done|]; intros hr0 [= <-]; exact (HQ _ _ _ Ha Hhr)|]. split; [done|]. split; [done|]. split; [by intros p0; apply Hnot|done].
  - split; [done|]. split; [apply all_receivers_insert; [done|]; intros hr0 [= <-]; exact (HQ _ _ _ Ha Hhr)|]. split; [done|]. split; [done|]. split; [by intros p0; apply Hnot|done].
  - destruct (HQ _ _ _ Ha Hhr) as (Hver & Hln & Hcl). assert (accepted_header msg hr = None /\ (hr' = error_stop tm hr)) as [Hna ->].
    { unfold accepted_header, DeliverHeaders_round in *. destruct msg as [[|[block|]|]| |]; cbn in E; try done; try (split; [done|by apply Ok_inj in E]). destruct (receive_header (hr_updatableBlockVerifier hr) block) as [v'| |] eqn:Ev; [exfalso|split; [done|by apply Ok_inj in E]|done].
      rewrite Hver in Ev. apply receive_header_follows in Ev as (h & Hh & Hn); [|done]. specialize (Hl h Hh). fold n in Hn. rewrite u64_small in Hn by lia. lia. }
    rewrite Hna, Hacc. split; [done|]. split; [apply all_receivers_insert; [done|]; intros hr0 [= <-]; done|]. split; [done|]. split; [done|]. split; [by intros p0; apply Hnot|done].
Qed.
End Late.

(** ** A monitor that is stopped before it starts *)
Section Stopped.
Context `{MapRange} {V : Type} `{BV : BlockVerifier V}.

Definition runs_for (a : string) (s : MonState V) : Prop :=
  ms_pc s = MonDone /\ m_stopFlag (ms_m s) = true /\ exists t hr, m_hdrRcvTrackers (ms_m s) !! a = Some t /\ t_headerReceiver t = Some hr /\ hr_stop hr = false.

Lemma runs_for_kept a s ls s' : runs_for a s -> mon_run s ls s' -> (forall client msg, LReceived client msg ∉ ls) -> runs_for a s'.
Proof.
  intros Hs Hr. induction Hr as [|ls s1 l s2 _ IH Hst]; intros Hno; [done|]. destruct IH as (Hpc & Hflag & t0 & hr0 & Ht0 & Hr0 & Hstop); [intros c0 msg Hin; apply (Hno c0 msg), elem_of_app; by left|].
  destruct Hst as [| | | | | | |m pc now acc|m pc now acc b t hr Ha Hhr Hstd|m pc now acc b t hr Ha Hhr Hstd Hrc|m pc now acc b t hr msg hr' Ha Hhr Hrc E]; try done; cbn [ms_m ms_pc] in *.
  - split; [done|]. split; [done|]. by exists t0, hr0.
  - unfold runs_for, Monitor_Stop. cbn [ms_m ms_pc]. rewrite Hflag. split; [done|]. split; [done|]. by exists t0, hr0.
  - split; [done|]. split; [done|]. cbn [ms_m with_receiver with_trackers m_hdrRcvTrackers]. destruct (decide (b = a)) as [->|Hne]; [rewrite lookup_insert_eq|rewrite lookup_insert_ne by done; by exists t0, hr0].
    rewrite Ht0 in Ha. injection Ha as <-. rewrite Hr0 in Hhr. injection Hhr as <-. eexists _, _. split; [done|]. split; [done|done].
  - split; [done|]. split; [done|]. cbn [ms_m with_receiver with_trackers m_hdrRcvTrackers]. destruct (decide (b = a)) as [->|Hne]; [rewrite lookup_insert_eq|rewrite lookup_insert_ne by done; by exists t0, hr0].
    rewrite Ht0 in Ha. injection Ha as <-. rewrite Hr0 in Hhr. injection Hhr as <-. eexists _, _. split; [done|]. split; [done|done].
  - exfalso. apply (Hno (hr_client hr) msg), elem_of_app. right. by left.
Qed.

(** A monitor that is stopped before its goroutine ran still launches receivers, which nothing stops: once the goroutine has ended they run until their stream fails. *)
Theorem stopped_monitor_leaks (v : V) e0 e1 tc window now p : (0 <= now)%Z -> exists s, mon_run (mon_start v [e0; e1] 0 tc window now) [LStopCall; LInit; LLaunch p; LStopSeen] s /\
  forall ls s', mon_run s ls s' -> (forall client msg, LReceived client msg ∉ ls) -> runs_for (ep_Address e1) s'.
Proof.
  intros Hnow. set (m1 := Monitor_Stop (NewBFTCensorshipMonitor v [e0; e1] 0 tc window)). set (m2 := Monitor_init m1). set (a := ep_Address e1).
  assert (m_hdrRcvTrackers m2 = <[a := new_tracker]> ∅) as Et2 by (unfold m2, m1, Monitor_init, Monitor_Stop; cbn; by rewrite fmap_empty).
  set (t3 := create_receiver m2 now (p a) true new_tracker). set (m3 := with_trackers (<[a := t3]> (<[a := new_tracker]> (<[a := new_tracker]> ∅))) m2).
  assert (launchHeaderReceivers now now p (fun _ => true) m2 = Ok m3) as El.
  { unfold launchHeaderReceivers. cbn [guard_err]. change (header_sources m2) with [a]. rewrite Et2. cbn [consider_all]. rewrite lookup_insert_eq. cbn [deref mbind outcome_bind].
    assert (consider m2 now new_tracker = (new_tracker, true)) as -> by (unfold consider; cbn; by rewrite (proj2 (Z.ltb_ge now 0)) by lia).
    cbn [consider_all mbind outcome_bind fst snd create_all]. rewrite lookup_insert_eq. done. }
  exists (mkMonState (send_error ErrStopping m3) MonDone now []). split.
  - apply (mr_snoc _ [_; _; _] (mkMonState m3 MonSelect now [])); [|by constructor]. apply (mr_snoc _ [_; _] (mkMonState m2 MonLaunch now [])); [|by apply (st_launch _ _ _ _ _ (fun _ => true))].
    apply (mr_snoc _ [_] (mkMonState m1 MonStart now [])); [|constructor]. apply (mr_snoc _ [] (mon_start v [e0; e1] 0 tc window now)); constructor.
  - intros ls s' Hr Hno. eapply runs_for_kept; [|exact Hr|exact Hno]. split; [done|]. split; [done|]. eexists t3, _. cbn. rewrite lookup_insert_eq. split; [done|]. split; done.
Qed.

(** Of the stops that are older than the window only the first is dropped: after a failure the wait is as long as if all others had just happened. *)
Theorem old_stops_kept (m : BFTCensorshipMonitor V) now t hr s0 rest : t_headerReceiver t = Some hr -> hr_stop hr = true -> hr_started hr = true -> t_stopTimes t = s0 :: rest ->
  Forall (fun s => s < now - m_stopHistoryWindowDur m)%Z (s0 :: rest) -> Forall (fun s => s < hr_errorStopTime hr)%Z rest ->
  let t' := (consider m now t).1 in t_stopTimes t' = rest ++ [hr_errorStopTime hr] /\ t_retryDeadline t' = (now + backOffDuration (N.of_nat (length rest)) (tc_MinRetryInterval (m_timeoutConfig m)) (tc_MaxRetryInterval (m_timeoutConfig m)))%Z.
Proof.
  intros Hhr Hstop Hstarted Hst [Hold _]%Forall_cons_1 Hnew. unfold consider. rewrite Hhr, Hstop, Hstarted. cbn [negb]. unfold pruneOlderThan. rewrite Hst, (proj2 (Z.ltb_lt _ _) Hold). unfold appendIfNewer. cbn [t_stopTimes].
  assert (match last rest with Some e => (e <? hr_errorStopTime hr)%Z | None => true end = true) as ->.
  { destruct (last rest) as [e|] eqn:El; [|done]. apply Z.ltb_lt. rewrite Forall_forall in Hnew. apply Hnew. rewrite last_lookup in El. by eapply list_elem_of_lookup_2. }
  cbn [fst with_deadline t_stopTimes t_retryDeadline]. rewrite length_app. cbn [length]. by rewrite Nat.add_sub.
Qed.
End Stopped.
