(* ===== verification/Deliverer.v ===== *)
(** * The deliverer of blocks

    [src/common/deliverclient/blocksprovider/bft_deliverer.go] with the receiver of [block_receiver.go]: blocks are fetched from one source at a time, and another one is tried after an error or a report of censorship. The main loop,
    the goroutines that fetch (there may be more than one: see [d_step]) and calls of Stop are steps; the monitor of censorship contributes its reports. What happens with the blocks is [ds_handled], the blocks that the handler took. *)
From stdpp Require Import gmap sets.
From Stdlib Require Import NArith ZArith Lia.
From S2P Require Import Prelude Types Events Blocks BlockVerify Endpoints SyncTarget RateLimit Censorship.
Close Scope Z_scope.

(** What the code reads of a configuration, through Fabric's libraries: its sequence and the endpoints of its orderers; nothing if the envelope has no config. *)
Class DeliveryConfig := { delivery_config : ConfigEnvelope -> option (N * outcome Party2Endpoint) }.

(** The intervals, and the answer of MaxRetryDurationExceededHandler. *)
Record RetryConfig := mkRetry { rt_InitialRetryInterval : Z; rt_MaxRetryInterval : Z; rt_MaxRetryDuration : Z; rt_exceededStops : bool }.

Section Deliverer.
Context {V : Type} `{BlockVerifier V} `{DeliveryConfig} `{Sha256} `{MapRange}.

Record BFTDeliverer := mkDeliverer {
  d_UpdatableBlockVerifier : V;
  d_orderers : ConnectionSource;
  d_refreshed : Chans;
  d_stopFlag : bool;
  d_nextBlockNumber : N;
  d_lastBlockTime : Z;
  d_fetchFailureCounter : N;
  d_fetchFailureTotalSleepDuration : Z;
  d_lastConfigSequence : N;
  d_fetchSources : list Endpoint;
  d_fetchSourceIndex : nat
}.

Definition BlockProgress (d : BFTDeliverer) : N * Z := if (d_nextBlockNumber d =? 0)%N then (0%N, 0%Z) else ((d_nextBlockNumber d - 1)%N, d_lastBlockTime d).

(** Initialize, with the config of the config block it is given, and initDeliverBlocks, with the height of the ledger. *)
Definition Initialize (v : V) (config : N * outcome Party2Endpoint) (selfParty : PartyID) (s : Chans) : outcome BFTDeliverer :=
  endpoints ← or_panic config.2;
  r ← Update2 endpoints (NewConnectionSource selfParty) s;
  Ok (mkDeliverer v r.1 r.2 false 0 0 0 0 config.1 [] 0).
Definition initDeliverBlocks (now : Z) (height : N) (d : BFTDeliverer) : BFTDeliverer :=
  mkDeliverer (d_UpdatableBlockVerifier d) (d_orderers d) (d_refreshed d) (d_stopFlag d) height now (d_fetchFailureCounter d) (d_fetchFailureTotalSleepDuration d) (d_lastConfigSequence d) (d_fetchSources d) (d_fetchSourceIndex d).

Definition with_failures (counter : N) (slept : Z) (d : BFTDeliverer) : BFTDeliverer :=
  mkDeliverer (d_UpdatableBlockVerifier d) (d_orderers d) (d_refreshed d) (d_stopFlag d) (d_nextBlockNumber d) (d_lastBlockTime d) counter slept (d_lastConfigSequence d) (d_fetchSources d) (d_fetchSourceIndex d).
Definition with_sources (sources : list Endpoint) (index : nat) (d : BFTDeliverer) : BFTDeliverer :=
  mkDeliverer (d_UpdatableBlockVerifier d) (d_orderers d) (d_refreshed d) (d_stopFlag d) (d_nextBlockNumber d) (d_lastBlockTime d) (d_fetchFailureCounter d) (d_fetchFailureTotalSleepDuration d) (d_lastConfigSequence d) sources index.
Definition with_verifier (v : V) (d : BFTDeliverer) : BFTDeliverer :=
  mkDeliverer v (d_orderers d) (d_refreshed d) (d_stopFlag d) (d_nextBlockNumber d) (d_lastBlockTime d) (d_fetchFailureCounter d) (d_fetchFailureTotalSleepDuration d) (d_lastConfigSequence d) (d_fetchSources d) (d_fetchSourceIndex d).

Definition resetFetchFailureCounter (d : BFTDeliverer) : BFTDeliverer := with_failures 0 0 d.
Definition incFetchFailureCounter (d : BFTDeliverer) : BFTDeliverer := with_failures (d_fetchFailureCounter d + 1) (d_fetchFailureTotalSleepDuration d) d.
Definition addFetchFailureSleepDuration (dur : Z) (d : BFTDeliverer) : BFTDeliverer := with_failures (d_fetchFailureCounter d) (i64 (d_fetchFailureTotalSleepDuration d + dur)) d.

(** Whether to stop, and how long it slept. *)
Definition retryBackoff (rt : RetryConfig) (d : BFTDeliverer) : BFTDeliverer * bool * Z :=
  let failureCounter := d_fetchFailureCounter d in
  if (0 <? failureCounter)%N then
    let l := N.of_nat (length (d_fetchSources d)) in
    let rounds := if (0 <? l)%N then (failureCounter / l)%N else failureCounter in
    if (rt_MaxRetryDuration rt <? d_fetchFailureTotalSleepDuration d)%Z && rt_exceededStops rt then (d, true, 0%Z)
    else
      let dur := backOffDuration rounds (rt_InitialRetryInterval rt) (rt_MaxRetryInterval rt) in
      (addFetchFailureSleepDuration dur d, false, dur)
  else (d, false, 0%Z).

(** [indices] is the permutation that was drawn. *)
Definition refreshSources (indices : list nat) (d : BFTDeliverer) : outcome BFTDeliverer :=
  sources ← ShuffledEndpoints (d_orderers d) indices; Ok (with_sources sources 0 d).
(** After an error the next source is tried; the remainder by zero cannot be, as there is no loop without sources. *)
Definition next_source (d : BFTDeliverer) : BFTDeliverer :=
  incFetchFailureCounter (with_sources (d_fetchSources d) ((d_fetchSourceIndex d + 1) mod length (d_fetchSources d)) d).

Definition onBlockProcessingSuccess (now : Z) (blockNum : N) (channelConfig : option (N * outcome Party2Endpoint)) (d : BFTDeliverer) : outcome BFTDeliverer :=
  let d := mkDeliverer (d_UpdatableBlockVerifier d) (d_orderers d) (d_refreshed d) (d_stopFlag d) (u64_incr blockNum) now 0 0 (d_lastConfigSequence d) (d_fetchSources d) (d_fetchSourceIndex d) in
  match channelConfig with
  | None => Ok d
  | Some (seq, extractedEndpoints) =>
      if (seq <=? d_lastConfigSequence d)%N then Ok d
      else
        endpoints ← or_panic extractedEndpoints;
        r ← Update2 endpoints (d_orderers d) (d_refreshed d);
        Ok (mkDeliverer (d_UpdatableBlockVerifier d) r.1 r.2 (d_stopFlag d) (d_nextBlockNumber d) (d_lastBlockTime d) 0 0 seq (d_fetchSources d) (d_fetchSourceIndex d))
  end.

(** ** Goroutines that fetch *)
Inductive FetchError := FeStopping | FeRefresh | FeFatal | FeOther.
(** Where a goroutine is: before the connection; connecting; waiting for a message of its receiver; with a verified block, a handled block, a config block done; after the verifier's last update; sending an error; blocked on an error channel; ended. *)
Inductive fetch_pc :=
| FHead | FConnecting (from : N) | FReceiving | FVerified (b : Block) | FHandled (b : Block)
| FConfigured (b : Block) (config : option (N * outcome Party2Endpoint)) | FUpdated (n : N) (config : option (N * outcome Party2Endpoint))
| FSending (e : FetchError) | FBlocked (channel : nat) (e : FetchError) | FDone.
Record Fetcher := mkFetcher { f_source : Endpoint; f_pc : fetch_pc }.

Inductive main_pc := MHead | MWait | MEnd.
(** The goroutines are numbered as they were started. [ds_errorsC] is fetchErrorsC, with the number of the channel and its one buffered error; [ds_blockReceiver] the goroutine whose receiver is the field blockReceiver; [ds_stopped] those whose
    receiver has been stopped. *)
Record DState := mkDState {
  ds_d : BFTDeliverer; ds_main : main_pc; ds_errorsC : nat * option FetchError; ds_blockReceiver : option nat; ds_stopped : gset nat;
  ds_fetchers : list Fetcher; ds_handled : list Block
}.

(** The receiver that is the field is stopped. *)
Definition stop_receiver (r : option nat) (stopped : gset nat) : gset nat := match r with Some i => {[i]} ∪ stopped | None => stopped end.
Definition Stop (d : BFTDeliverer) : BFTDeliverer :=
  mkDeliverer (d_UpdatableBlockVerifier d) (d_orderers d) (d_refreshed d) true (d_nextBlockNumber d) (d_lastBlockTime d) (d_fetchFailureCounter d) (d_fetchFailureTotalSleepDuration d) (d_lastConfigSequence d) (d_fetchSources d) (d_fetchSourceIndex d).

(** What the main loop does with an error of a fetcher: the deliverer, or nothing if the loop ends. [indices] is for a refresh. *)
Definition handle_fetch_error (e : FetchError) (indices : list nat) (d : BFTDeliverer) : outcome (option BFTDeliverer) :=
  match e with
  | FeStopping | FeFatal => Ok None
  | FeRefresh => d ← refreshSources indices d; Ok (Some (resetFetchFailureCounter d))
  | FeOther => Ok (Some (next_source d))
  end.

(** What a fetcher does next: its place, and the verifier, when it got a message. *)
Definition receive_message (msg : outcome DeliverResponse) (v : V) : outcome (V * fetch_pc) :=
  match msg with
  | Ok (ResponseBlock block) =>
      block ← deref block;
      _ ← deref (b_Header block);
      match VerifyBlock v block with
      | Ok v => Ok (v, FVerified block)
      | Err _ => Ok (v, FSending FeOther)
      | Panic e => Panic e
      end
  | Panic e => Panic e
  | _ => Ok (v, FSending FeOther)
  end.
(** The config of a config block, after it was handled. *)
Definition process_config (block : Block) (v : V) : outcome (V * fetch_pc) :=
  if ops_IsConfigBlock block then
    match ops_ConfigFromBlock block with
    | Ok env =>
        match UpdateConfig v block with
        | Ok v => Ok (v, FConfigured block (delivery_config env))
        | Err _ => Ok (v, FSending FeOther)
        | Panic e => Panic e
        end
    | Err _ => Ok (v, FSending FeOther)
    | Panic e => Panic e
    end
  else Ok (v, FConfigured block None).
Definition block_number (b : Block) : N := default 0%N (bh_Number <$> b_Header b).

(** A step of goroutine [i] from its place; the first part is what it does alone. *)
Inductive f_step (i : nat) (source : Endpoint) : DState -> fetch_pc -> DState -> fetch_pc -> Prop :=
| fs_stopping s : d_stopFlag (ds_d s) = true -> f_step i source s FHead s (FSending FeStopping)
| fs_seek_failed s : d_stopFlag (ds_d s) = false -> f_step i source s FHead s (FSending FeFatal)
| fs_seek s : d_stopFlag (ds_d s) = false -> f_step i source s FHead s (FConnecting (d_nextBlockNumber (ds_d s)))
| fs_connect_failed s from : f_step i source s (FConnecting from) s (FSending FeOther)
| fs_connected s from : f_step i source s (FConnecting from)
    (mkDState (ds_d s) (ds_main s) (ds_errorsC s) (Some i) (ds_stopped s) (ds_fetchers s) (ds_handled s)) FReceiving
| fs_refreshed s : ep_Refreshed source ∈ ch_closed (d_refreshed (ds_d s)) -> f_step i source s FReceiving s (FSending FeRefresh)
| fs_hung_up s : f_step i source s FReceiving s (FSending FeOther)
| fs_stopped s : i ∈ ds_stopped s -> f_step i source s FReceiving s FDone
| fs_message s msg v pc : receive_message msg (d_UpdatableBlockVerifier (ds_d s)) = Ok (v, pc) ->
    f_step i source s FReceiving (mkDState (with_verifier v (ds_d s)) (ds_main s) (ds_errorsC s) (ds_blockReceiver s) (ds_stopped s) (ds_fetchers s) (ds_handled s)) pc
| fs_handled s b : f_step i source s (FVerified b) (mkDState (ds_d s) (ds_main s) (ds_errorsC s) (ds_blockReceiver s) (ds_stopped s) (ds_fetchers s) (ds_handled s ++ [b])) (FHandled b)
| fs_refused s b : f_step i source s (FVerified b) s (FSending FeOther)
| fs_config s b v pc : process_config b (d_UpdatableBlockVerifier (ds_d s)) = Ok (v, pc) ->
    f_step i source s (FHandled b) (mkDState (with_verifier v (ds_d s)) (ds_main s) (ds_errorsC s) (ds_blockReceiver s) (ds_stopped s) (ds_fetchers s) (ds_handled s)) pc
| fs_update s b config v : UpdateBlockHeader (d_UpdatableBlockVerifier (ds_d s)) b = Ok v ->
    f_step i source s (FConfigured b config) (mkDState (with_verifier v (ds_d s)) (ds_main s) (ds_errorsC s) (ds_blockReceiver s) (ds_stopped s) (ds_fetchers s) (ds_handled s)) (FUpdated (block_number b) config)
| fs_success s n config now d : onBlockProcessingSuccess now n config (ds_d s) = Ok d ->
    f_step i source s (FUpdated n config) (mkDState d (ds_main s) (ds_errorsC s) (ds_blockReceiver s) (ds_stopped s) (ds_fetchers s) (ds_handled s)) FReceiving
| fs_send s e c : ds_errorsC s = (c, None) ->
    f_step i source s (FSending e) (mkDState (ds_d s) (ds_main s) (c, Some e) (ds_blockReceiver s) (ds_stopped s) (ds_fetchers s) (ds_handled s)) FDone
| fs_block s e e' c : ds_errorsC s = (c, Some e') -> f_step i source s (FSending e) s (FBlocked c e)
| fs_unblock s e c : ds_errorsC s = (c, None) ->
    f_step i source s (FBlocked c e) (mkDState (ds_d s) (ds_main s) (c, Some e) (ds_blockReceiver s) (ds_stopped s) (ds_fetchers s) (ds_handled s)) FDone.

Definition at_pc (i : nat) (source : Endpoint) (pc : fetch_pc) (s : DState) : DState :=
  mkDState (ds_d s) (ds_main s) (ds_errorsC s) (ds_blockReceiver s) (ds_stopped s) (<[i := mkFetcher source pc]> (ds_fetchers s)) (ds_handled s).

Inductive d_step (rt : RetryConfig) : DState -> DState -> Prop :=
| d_give_up s d dur : ds_main s = MHead -> retryBackoff rt (ds_d s) = (d, true, dur) ->
    d_step rt s (mkDState d MEnd (ds_errorsC s) (ds_blockReceiver s) (stop_receiver (ds_blockReceiver s) (ds_stopped s)) (ds_fetchers s) (ds_handled s))
| d_no_sources s d dur : ds_main s = MHead -> retryBackoff rt (ds_d s) = (d, false, dur) -> d_fetchSources d = [] ->
    d_step rt s (mkDState d MEnd (ds_errorsC s) (ds_blockReceiver s) (stop_receiver (ds_blockReceiver s) (ds_stopped s)) (ds_fetchers s) (ds_handled s))
| d_fetch s d dur source : ds_main s = MHead -> retryBackoff rt (ds_d s) = (d, false, dur) -> d_fetchSources d !! d_fetchSourceIndex d = Some source ->
    d_step rt s (mkDState d MWait (S (fst (ds_errorsC s)), None) (ds_blockReceiver s) (ds_stopped s) (ds_fetchers s ++ [mkFetcher source FHead]) (ds_handled s))
| d_done s : ds_main s = MWait -> d_stopFlag (ds_d s) = true ->
    d_step rt s (mkDState (ds_d s) MEnd (ds_errorsC s) (ds_blockReceiver s) (stop_receiver (ds_blockReceiver s) (ds_stopped s)) (ds_fetchers s) (ds_handled s))
| d_error s c e indices d : ds_main s = MWait -> ds_errorsC s = (c, Some e) -> handle_fetch_error e indices (ds_d s) = Ok (Some d) -> indices ≡ₚ seq 0 (length (cs_allEndpoints (d_orderers (ds_d s)))) ->
    d_step rt s (mkDState d MHead (c, None) (ds_blockReceiver s) (ds_stopped s) (ds_fetchers s) (ds_handled s))
| d_fatal s c e indices : ds_main s = MWait -> ds_errorsC s = (c, Some e) -> handle_fetch_error e indices (ds_d s) = Ok None ->
    d_step rt s (mkDState (ds_d s) MEnd (c, None) (ds_blockReceiver s) (stop_receiver (ds_blockReceiver s) (ds_stopped s)) (ds_fetchers s) (ds_handled s))
| d_censored s : ds_main s = MWait ->
    d_step rt s (mkDState (next_source (ds_d s)) MHead (ds_errorsC s) (ds_blockReceiver s) (stop_receiver (ds_blockReceiver s) (ds_stopped s)) (ds_fetchers s) (ds_handled s))
| d_monitor_ends s : ds_main s = MWait ->
    d_step rt s (mkDState (ds_d s) MEnd (ds_errorsC s) (ds_blockReceiver s) (stop_receiver (ds_blockReceiver s) (ds_stopped s)) (ds_fetchers s) (ds_handled s))
| d_stop_call s : d_stopFlag (ds_d s) = false ->
    d_step rt s (mkDState (Stop (ds_d s)) (ds_main s) (ds_errorsC s) (ds_blockReceiver s) (stop_receiver (ds_blockReceiver s) (ds_stopped s)) (ds_fetchers s) (ds_handled s))
| d_fetcher s i source pc s' pc' : ds_fetchers s !! i = Some (mkFetcher source pc) -> f_step i source s pc s' pc' -> d_step rt s (at_pc i source pc' s').

(** A deliverer that was initialized, at the height of the ledger, with the sources in the order that was drawn. *)
Definition deliver_start (d : BFTDeliverer) : DState := mkDState d MHead (0, None) None ∅ [] [].
End Deliverer.
Arguments BFTDeliverer : clear implicits.
Arguments DState : clear implicits.
