(* ===== verification/DelivererThms.v ===== *)
(** * Theorems on the deliverer of blocks

    What is handed on extends the ledger, however many goroutines fetch; the attempts are bounded and take turns; and a fetch that was given up may go on. *)
From stdpp Require Import gmap sets.
From Stdlib Require Import NArith ZArith Lia.
From S2P Require Import Prelude Types Events State Blocks Ledger StateCodec Consensus Assembler RequestFilter BlockVerify BlockVerifyThms Endpoints SyncTarget RateLimit Censorship CensorshipThms Deliverer.
Close Scope Z_scope.

Inductive d_run {V} `{BlockVerifier V} `{DeliveryConfig} `{Sha256} `{MapRange} (rt : RetryConfig) (s : DState V) : DState V -> Prop :=
| dr_nil : d_run rt s s
| dr_snoc s1 s2 : d_run rt s s1 -> d_step rt s1 s2 -> d_run rt s s2.

(** Blocks with the numbers from [n] on. *)
Definition from_height (n : N) (blocks : list Block) : Prop := forall i b, blocks !! i = Some b -> exists h, b_Header b = Some h /\ bh_Number h = (n + N.of_nat i)%N.

Section Chain.
Context `{BlockCodecs} `{Sha256} `{DeliveryConfig} `{MapRange} {V : Type} `{BV : BlockVerifier V} `{CV : !ChainVerifier V}.

(** The headers of the chain that the orderers agreed on, one for each number, and the verifiers that check for the signatures of a quorum of the orderers: after an agreed header they accept only an agreed one, and a config block that such a verifier
    accepted makes another such verifier. *)
Record agreement (agreed : BlockHeader -> Prop) (trusted : V -> Prop) : Prop := {
  ag_number : forall h, agreed h -> (bh_Number h <= u64_max)%N;
  ag_unique : forall h h', agreed h -> agreed h' -> bh_Number h = bh_Number h' -> h = h';
  ag_signed : forall (v v' : V) b h, trusted v -> tip_ok v -> agreed (tip v) -> VerifyBlock v b = Ok v' -> b_Header b = Some h -> agreed h /\ trusted v';
  ag_config : forall (v0 v1 v v' : V) b, trusted v0 -> agreed (tip v0) -> VerifyBlock v0 b = Ok v1 -> trusted v -> UpdateConfig v b = Ok v' -> trusted v';
  ag_header : forall (v v' : V) b, trusted v -> UpdateBlockHeader v b = Ok v' -> trusted v'
}.

Context (agreed : BlockHeader -> Prop) (trusted : V -> Prop) (Hag : agreement agreed trusted).

(** A block that was accepted after an agreed one. *)
Definition follows (b : Block) : Prop := exists v v', trusted v /\ tip_ok v /\ agreed (tip v) /\ VerifyBlock v b = Ok v'.
Lemma follows_link b : follows b -> exists h h0, b_Header b = Some h /\ agreed h /\ agreed h0 /\ u64 (bh_Number h0 + 1) = bh_Number h /\ BlockHeaderHash h0 = Ok (bh_PreviousHash h).
Proof.
  intros (v & v' & Htr & Hok & Ha & Ev). pose proof (verify_links _ _ _ Hok Ev) as (h & Hh & Hn & Hl & _). exists h, (tip v). split; [done|]. split; [|done]. by apply (ag_signed _ _ Hag v v' b h).
Qed.
Definition pc_block (pc : fetch_pc) : option Block := match pc with FVerified b | FHandled b | FConfigured b _ => Some b | _ => None end.

Record fetch_inv (s : DState V) : Prop := {
  fi_trusted : trusted (d_UpdatableBlockVerifier (ds_d s));
  fi_ok : tip_ok (d_UpdatableBlockVerifier (ds_d s));
  fi_tip : agreed (tip (d_UpdatableBlockVerifier (ds_d s)));
  fi_handled : Forall follows (ds_handled s);
  fi_fetchers : forall i f b, ds_fetchers s !! i = Some f -> pc_block (f_pc f) = Some b -> follows b
}.

Lemma retryBackoff_verifier rt (d d' : BFTDeliverer V) stop dur : retryBackoff rt d = (d', stop, dur) -> d_UpdatableBlockVerifier d' = d_UpdatableBlockVerifier d /\ d_fetchSources d' = d_fetchSources d /\ d_fetchSourceIndex d' = d_fetchSourceIndex d /\ d_fetchFailureCounter d' = d_fetchFailureCounter d.
Proof. unfold retryBackoff. destruct (0 <? d_fetchFailureCounter d)%N; [|by intros [= <- _ _]]. destruct (_ && _); by intros [= <- _ _]. Qed.

Lemma success_verifier now n config (d d' : BFTDeliverer V) : onBlockProcessingSuccess now n config d = Ok d' -> d_UpdatableBlockVerifier d' = d_UpdatableBlockVerifier d.
Proof.
  unfold onBlockProcessingSuccess. destruct config as [[seq eps]|]; [|by intros <-%Ok_inj]. cbn [d_lastConfigSequence]. destruct (seq <=? d_lastConfigSequence d)%N; [by intros <-%Ok_inj|].
  intros E. apply bind_Ok_inv in E as (e & _ & E). apply bind_Ok_inv in E as ([cs c] & _ & E). by apply Ok_inj in E as <-.
Qed.

(** What a fetcher's step does to the verifier, the handled blocks and its own block. *)
Lemma f_step_inv i source s pc s' pc' : fetch_inv s -> ds_fetchers s !! i = Some (mkFetcher source pc) -> f_step i source s pc s' pc' -> fetch_inv (at_pc i source pc' s').
Proof.
  intros [Htr Hok Htip Hhd Hf] Hi Hs. assert (forall b, pc_block pc = Some b -> follows b) as Hown by (intros b Hb; by apply (Hf i (mkFetcher source pc))).
  assert (ds_fetchers s' = ds_fetchers s) as Efs by (by destruct Hs). set (fine v := trusted v /\ tip_ok v /\ agreed (tip v)). assert (fine (d_UpdatableBlockVerifier (ds_d s))) as Hfine by done.
  enough (fine (d_UpdatableBlockVerifier (ds_d s')) /\ Forall follows (ds_handled s') /\ forall b, pc_block pc' = Some b -> follows b) as ((H0' & H1' & H2') & H3' & H4').
  { split; cbn; try done. intros j f b Hj Hb. rewrite Efs in Hj. apply list_lookup_insert_Some in Hj as [(-> & <- & _)|[_ Hj]]; [by apply H4'|by eapply Hf]. }
  destruct Hs as [s|s|s|s n|s n|s|s|s|s msg v pc Em|s b|s b|s b v pc Ec|s b config v Eu|s n config now d Es|s e c Ee|s e e' c Ee|s e c Ee]; cbn [ds_d ds_handled d_UpdatableBlockVerifier with_verifier] in *; try (split; [done|split; [done|done]]).
  - assert (v = d_UpdatableBlockVerifier (ds_d s) /\ pc_block pc = None \/ exists b h, b_Header b = Some h /\ VerifyBlock (d_UpdatableBlockVerifier (ds_d s)) b = Ok v /\ pc = FVerified b) as [[-> Hn]|(b & h & Hh & Ev & ->)].
    { unfold receive_message in Em. destruct msg as [[|[block|]|]| |]; cbn in Em; try done; try (apply Ok_inj in Em; injection Em as <- <-; by left). apply bind_Ok_inv in Em as (h & Eh & Em). destruct (b_Header block) as [h'|] eqn:Ehd; [|done].
      destruct (VerifyBlock _ block) as [v1| |] eqn:Ev; try done; apply Ok_inj in Em; injection Em as <- <-; [|by left]. right. by exists block, h'. }
    { split; [done|]. split; [done|]. by rewrite Hn. }
    pose proof (verify_links _ _ _ Hok Ev) as (h' & Hh' & _ & _ & Ht & Hok'). rewrite Hh in Hh'. injection Hh' as <-. destruct (ag_signed _ _ Hag _ _ _ _ Htr Hok Htip Ev Hh) as [Ha Htr']. split; [unfold fine; by rewrite Ht|]. split; [done|].
    intros b' [= <-]. by exists (d_UpdatableBlockVerifier (ds_d s)), v.
  - split; [done|]. split; [|intros b' [= <-]; by apply Hown]. apply Forall_app. split; [done|]. constructor; [by apply Hown|done].
  - pose proof (Hown b eq_refl) as Hb. unfold process_config in Ec. destruct (ops_IsConfigBlock b); [|apply Ok_inj in Ec; injection Ec as <- <-; split; [done|]; split; [done|]; by intros b' [= <-]].
    destruct (ops_ConfigFromBlock b) as [env| |]; [|apply Ok_inj in Ec; by injection Ec as <- <-|done]. destruct (UpdateConfig (d_UpdatableBlockVerifier (ds_d s)) b) as [v1| |] eqn:Ev; [|apply Ok_inj in Ec; by injection Ec as <- <-|done]. apply Ok_inj in Ec. injection Ec as <- <-.
    destruct (follows_link b Hb) as (h & h0 & Hh & Ha & _). pose proof Hb as (v0 & v0' & Htr0 & _ & Ha0 & Ev0). pose proof (ag_config _ _ Hag _ _ _ _ _ Htr0 Ha0 Ev0 Htr Ev) as Htr'.
    apply update_config_tip with (h := h) in Ev as [Ht Hok']; [|done]. split; [unfold fine; by rewrite Ht|]. split; [done|]. by intros b' [= <-].
  - destruct (follows_link b (Hown b eq_refl)) as (h & h0 & Hh & Ha & _). pose proof (ag_header _ _ Hag _ _ _ Htr Eu) as Htr'. apply update_header_tip with (h := h) in Eu as [Ht Hok']; [|done|done]. split; [unfold fine; by rewrite Ht|]. done.
  - rewrite (success_verifier _ _ _ _ _ Es). done.
Qed.

Lemma d_step_inv rt s s' : fetch_inv s -> d_step rt s s' -> fetch_inv s'.
Proof.
  intros Hi Hs. pose proof Hi as [Htr Hok Htip Hhd Hf].
  destruct Hs as [s d dur Hm E|s d dur Hm E En|s d dur source Hm E El|s Hm Hst|s c e indices d Hm Ec E Hperm|s c e indices Hm Ec E|s Hm|s Hm|s Hst|s i source pc s' pc' Hf' Hs]; try (split; cbn; done).
  - apply retryBackoff_verifier in E as [Ev _]. split; cbn; try done; by rewrite Ev.
  - apply retryBackoff_verifier in E as [Ev _]. split; cbn; try done; by rewrite Ev.
  - apply retryBackoff_verifier in E as [Ev _]. split; cbn; try done; try by rewrite Ev. intros i f b [Hl|[_ Hl]]%lookup_app_Some Hb; [by eapply Hf|]. apply list_lookup_singleton_Some in Hl as [_ <-]. done.
  - assert (d_UpdatableBlockVerifier d = d_UpdatableBlockVerifier (ds_d s)) as Ev.
    { unfold handle_fetch_error in E. destruct e; try done; [|by apply Ok_inj in E; injection E as <-]. apply bind_Ok_inv in E as (d1 & E1 & E). apply Ok_inj in E. injection E as <-. unfold refreshSources in E1. apply bind_Ok_inv in E1 as (l & _ & E1). by apply Ok_inj in E1 as <-. }
    split; cbn; try done; by rewrite Ev.
  - by eapply f_step_inv.
Qed.

(** Blocks of the chain in order extend a ledger that ends with one of its blocks. *)
Lemma follows_append : forall pulled ledger header, at_tip header ledger -> agreed header -> Forall follows pulled -> from_height (Height ledger) pulled -> (Height ledger + N.of_nat (length pulled) < u64_max)%N ->
  append_all ledger pulled = Ok (ledger ++ pulled) /\ chain_ok (ledger ++ pulled).
Proof.
  induction pulled as [|b pulled IH]; intros ledger header Htip Ha Hall Hnum Hlt; cbn [append_all]; [rewrite app_nil_r; split; [done|apply Htip]|]. apply Forall_cons_1 in Hall as [(h & h0 & Hh & Hah & Hah0 & Hn0 & Hhash)%follows_link Hall].
  destruct (Hnum 0 b eq_refl) as (h1 & Hh1 & Hn). rewrite Hh in Hh1. injection Hh1 as <-. rewrite N.add_0_r in Hn. cbn [length] in Hlt.
  assert (bh_Number header + 1 = Height ledger /\ 0 < Height ledger)%N as [Hnh Hpos].
  { destruct Htip as (Hc & b0 & Hlast & Hb0). rewrite last_lookup in Hlast. pose proof (lookup_lt_Some _ _ _ Hlast). destruct (co_number _ Hc _ _ Hlast) as (h' & Hb' & Hn'). rewrite Hb0 in Hb'. injection Hb' as <-. unfold Height. lia. }
  assert (h0 = header) as ->. { apply (ag_unique _ _ Hag); [done|done|]. pose proof (ag_number _ _ Hag _ Hah0) as Hle. destruct (decide (bh_Number h0 = u64_max)) as [Em|Hne]; [rewrite Em in Hn0; change (u64 (u64_max + 1)) with 0%N in Hn0; lia|]. rewrite u64_small in Hn0 by lia. lia. }
  destruct (extends header ledger b h (bh_PreviousHash h) Htip ltac:(lia) Hh Hn0 Hhash eq_refl) as [-> Htip']. cbn [mbind outcome_bind].
  assert (Height (ledger ++ [b]) = Height ledger + 1)%N as Hht by (unfold Height; rewrite length_app; cbn; lia).
  destruct (IH (ledger ++ [b]) h Htip' Hah Hall) as [-> Hc]; [|rewrite Hht; lia|by rewrite <-app_assoc in *].
  intros i b' Hi. destruct (Hnum (S i) b' Hi) as (h' & Hh' & Hn'). exists h'. split; [done|]. rewrite Hht, Hn'. lia.
Qed.

(** C29: Whatever the sources send, and however the goroutines that fetch, the main loop, reports of censorship and stops interleave, the blocks handed on extend the ledger: any of them that a reader takes with the numbers from the height of the ledger on are accepted by the
    ledger one after the other, each with the hash of the one before. *)
Theorem fetched_blocks_extend rt (d : BFTDeliverer V) ledger s pulled : at_tip (tip (d_UpdatableBlockVerifier d)) ledger -> tip_ok (d_UpdatableBlockVerifier d) -> trusted (d_UpdatableBlockVerifier d) -> agreed (tip (d_UpdatableBlockVerifier d)) ->
  d_run rt (deliver_start d) s -> (forall b, b ∈ pulled -> b ∈ ds_handled s) -> from_height (Height ledger) pulled -> (Height ledger + N.of_nat (length pulled) < u64_max)%N ->
  append_all ledger pulled = Ok (ledger ++ pulled) /\ chain_ok (ledger ++ pulled).
Proof.
  intros Htip Hok Htr Ha Hrun Hsub Hnum Hlt. assert (fetch_inv s) as [_ _ _ Hhd _].
  { clear Hsub Hnum Hlt. induction Hrun as [|s1 s2 _ IH Hs]; [by split|by eapply d_step_inv]. }
  eapply follows_append; [done|done| |done|done]. rewrite Forall_forall in Hhd |- *. intros b Hb. by apply Hhd, Hsub.
Qed.
End Chain.

(** ** Attempts *)
Section Attempts.
Context `{Sha256} `{DeliveryConfig} `{MapRange} {V : Type} `{BV : BlockVerifier V}.
Implicit Types (d : BFTDeliverer V) (s : DState V).

(** No fetch succeeds, and no endpoints are refreshed. *)
Inductive failing_run (rt : RetryConfig) (s : DState V) : DState V -> Prop :=
| fr_nil : failing_run rt s s
| fr_snoc s1 s2 : failing_run rt s s1 -> d_step rt s1 s2 -> (d_fetchFailureCounter (ds_d s1) <= d_fetchFailureCounter (ds_d s2))%N -> (forall c, ds_errorsC s1 <> (c, Some FeRefresh)) -> failing_run rt s s2.

Record retry_ok (rt : RetryConfig) : Prop := {
  ro_intervals : (0 < rt_InitialRetryInterval rt <= rt_MaxRetryInterval rt)%Z;
  ro_small : (rt_MaxRetryInterval rt < 2 ^ 53)%Z;
  ro_duration : (0 <= rt_MaxRetryDuration rt < 2 ^ 53)%Z;
  ro_stops : rt_exceededStops rt = true
}.

Definition most_attempts (rt : RetryConfig) : nat := Z.to_nat (rt_MaxRetryDuration rt / rt_InitialRetryInterval rt) + 2.
(** The failures so far, with the time slept for all of them, or for all but the last before the next attempt. *)
Definition slept_for (rt : RetryConfig) (n : Z) d : Prop := (rt_InitialRetryInterval rt * n <= d_fetchFailureTotalSleepDuration d <= rt_MaxRetryDuration rt + rt_MaxRetryInterval rt)%Z /\ (0 <= d_fetchFailureTotalSleepDuration d)%Z.

Record attempts_inv (rt : RetryConfig) (sources : list Endpoint) (s : DState V) : Prop := {
  ai_sources : d_fetchSources (ds_d s) = sources;
  ai_fetchers : forall k f, ds_fetchers s !! k = Some f -> sources !! (k mod length sources) = Some (f_source f);
  ai_bound : length (ds_fetchers s) <= most_attempts rt;
  ai_main : let c := d_fetchFailureCounter (ds_d s) in
    match ds_main s with
    | MHead => N.of_nat (length (ds_fetchers s)) = c /\ d_fetchSourceIndex (ds_d s) = N.to_nat c mod length sources /\ slept_for rt (Z.of_N c - 1) (ds_d s)
    | MWait => N.of_nat (length (ds_fetchers s)) = (c + 1)%N /\ d_fetchSourceIndex (ds_d s) = N.to_nat c mod length sources /\ slept_for rt (Z.of_N c) (ds_d s)
    | MEnd => True
    end
}.

Lemma retryBackoff_attempt rt d d' dur : retry_ok rt -> retryBackoff rt d = (d', false, dur) -> slept_for rt (Z.of_N (d_fetchFailureCounter d) - 1) d ->
  slept_for rt (Z.of_N (d_fetchFailureCounter d)) d' /\ (rt_InitialRetryInterval rt * (Z.of_N (d_fetchFailureCounter d) - 1) <= rt_MaxRetryDuration rt)%Z.
Proof.
  intros [Hlo Hhi Hmax Hstops] E [[Hs1 Hs2] Hs3]. unfold retryBackoff in E. destruct (N.ltb_spec 0 (d_fetchFailureCounter d)) as [Hc|Hc].
  - rewrite Hstops, andb_true_r in E. destruct (Z.ltb_spec (rt_MaxRetryDuration rt) (d_fetchFailureTotalSleepDuration d)) as [|Hle]; [done|]. injection E as <- <-. unfold slept_for. cbn [addFetchFailureSleepDuration with_failures d_fetchFailureTotalSleepDuration].
    set (r := if (0 <? N.of_nat (length (d_fetchSources d)))%N then _ else _). rewrite (backoff_exact r _ _ Hlo Hhi). assert (1 <= 2 ^ Z.of_N r)%Z by (pose proof (Z.pow_pos_nonneg 2 (Z.of_N r)); lia).
    set (dur := Z.min _ _). assert (rt_InitialRetryInterval rt <= dur <= rt_MaxRetryInterval rt)%Z as Hdur by (unfold dur; nia). rewrite i64_small by (unfold max_int64; lia). split; [split; [nia|lia]|nia].
  - injection E as <- <-. unfold slept_for. assert (d_fetchFailureCounter d = 0%N) as -> by lia. split; [split; [lia|lia]|lia].
Qed.

Lemma success_attempt now n config d d' : onBlockProcessingSuccess now n config d = Ok d' -> d_fetchSources d' = d_fetchSources d /\ d_fetchSourceIndex d' = d_fetchSourceIndex d /\ d_fetchFailureCounter d' = 0%N /\ d_fetchFailureTotalSleepDuration d' = 0%Z.
Proof.
  unfold onBlockProcessingSuccess. destruct config as [[seq eps]|]; [|by intros <-%Ok_inj]. cbn [d_lastConfigSequence]. destruct (seq <=? d_lastConfigSequence d)%N; [by intros <-%Ok_inj|].
  intros E. apply bind_Ok_inv in E as (e & _ & E). apply bind_Ok_inv in E as ([cs c] & _ & E). by apply Ok_inj in E as <-.
Qed.

Lemma f_step_frame rt sources i source s pc s' pc' : retry_ok rt -> attempts_inv rt sources s -> ds_fetchers s !! i = Some (mkFetcher source pc) -> f_step i source s pc s' pc' -> (d_fetchFailureCounter (ds_d s) <= d_fetchFailureCounter (ds_d s'))%N ->
  attempts_inv rt sources (at_pc i source pc' s').
Proof.
  intros Hrt [Hs Hf Hb Hm] Hi Hst Hc. assert (ds_fetchers s' = ds_fetchers s /\ ds_main s' = ds_main s /\ d_fetchSources (ds_d s') = d_fetchSources (ds_d s) /\ d_fetchSourceIndex (ds_d s') = d_fetchSourceIndex (ds_d s) /\
    d_fetchFailureCounter (ds_d s') = d_fetchFailureCounter (ds_d s) /\ (d_fetchFailureTotalSleepDuration (ds_d s') = d_fetchFailureTotalSleepDuration (ds_d s) \/ d_fetchFailureCounter (ds_d s) = 0%N /\ d_fetchFailureTotalSleepDuration (ds_d s') = 0%Z)) as (E1 & E2 & E3 & E4 & E5 & E6).
  { destruct Hst as [| | | | | | | | | | | | |s n config now d Es| | |]; cbn; try (repeat split; try done; by left). apply success_attempt in Es as (-> & -> & Ec & Et). cbn in Hc. rewrite Ec in Hc |- *. assert (d_fetchFailureCounter (ds_d s) = 0%N) as -> by lia. repeat split; try done. right. done. }
  split; cbn.
  - by rewrite E3.
  - intros k f Hk. rewrite E1 in Hk. apply list_lookup_insert_Some in Hk as [(-> & <- & _)|[_ Hk]]; [apply (Hf k _ Hi)|by eapply Hf].
  - by rewrite length_insert, E1.
  - rewrite length_insert, E1, E2, E4, E5. destruct Hrt as [Hlo Hhi Hmax _]. destruct (ds_main s); [| |done]; (destruct Hm as (? & ? & Hsl); split; [done|]; split; [done|]; unfold slept_for in *; destruct E6 as [->|[Ez ->]]; [done|rewrite Ez in *; lia]).
Qed.

Lemma attempts_step rt sources s s' : retry_ok rt -> sources <> [] -> attempts_inv rt sources s -> d_step rt s s' -> (d_fetchFailureCounter (ds_d s) <= d_fetchFailureCounter (ds_d s'))%N -> (forall c, ds_errorsC s <> (c, Some FeRefresh)) -> attempts_inv rt sources s'.
Proof.
  intros Hrt Hne Hi Hst Hc Hnr. pose proof Hi as [Hs Hf Hb Hm]. assert (length sources <> 0) as Hlen by (by destruct sources).
  assert (forall d', d' = next_source (ds_d s) -> ds_main s = MWait -> d_fetchSources d' = sources /\ N.of_nat (length (ds_fetchers s)) = d_fetchFailureCounter d' /\ d_fetchSourceIndex d' = N.to_nat (d_fetchFailureCounter d') mod length sources /\ slept_for rt (Z.of_N (d_fetchFailureCounter d') - 1) d') as Hnext.
  { intros d' -> Em. rewrite Em in Hm. destruct Hm as (Hl & Hx & Hsl). cbn. rewrite Hs. split; [done|]. split; [done|]. split; [|unfold slept_for in *; cbn; by replace (Z.of_N (d_fetchFailureCounter (ds_d s) + 1) - 1)%Z with (Z.of_N (d_fetchFailureCounter (ds_d s))) by lia].
    rewrite Hx, N2Nat.inj_add, Nat.Div0.add_mod_idemp_l. done. }
  destruct Hst as [s d dur Em E|s d dur Em E En|s d dur source Em E El|s Em Hflag|s c e indices d Em Ec E Hperm|s c e indices Em Ec E|s Em|s Em|s Hflag|s i source pc s' pc' Hf' Hs']; cbn [ds_main ds_d ds_fetchers] in *.
  - apply retryBackoff_verifier in E as (_ & Es & _). split; cbn; try done. by rewrite Es.
  - apply retryBackoff_verifier in E as (_ & Es & _). split; cbn; try done. by rewrite Es.
  - rewrite Em in Hm. destruct Hm as (Hl & Hx & Hsl). pose proof (retryBackoff_attempt _ _ _ _ Hrt E Hsl) as [Hsl' Hle]. apply retryBackoff_verifier in E as (_ & Es & Exi & Ecn). rewrite Es, Hs, Exi, Hx in El. rewrite <-Hl, Nat2N.id in El. split; cbn.
    + by rewrite Es.
    + intros k f [Hk|[Hge Hk]]%lookup_app_Some; [by eapply Hf|]. apply list_lookup_singleton_Some in Hk as [Hz <-]. by replace k with (length (ds_fetchers s)) by lia.
    + rewrite length_app. cbn. unfold most_attempts. destruct Hrt as [Hlo _ Hmax _]. assert (Z.of_N (d_fetchFailureCounter (ds_d s)) - 1 <= rt_MaxRetryDuration rt / rt_InitialRetryInterval rt)%Z by (apply Z.div_le_lower_bound; lia).
      pose proof (Z.div_pos (rt_MaxRetryDuration rt) (rt_InitialRetryInterval rt)). lia.
    + rewrite length_app, Ecn, Exi. cbn. split; [lia|]. split; [done|exact Hsl'].
  - by split.
  - destruct e; try done. { by destruct (Hnr c). } apply Ok_inj in E. injection E as <-. destruct (Hnext _ eq_refl Em) as (? & ? & ? & ?). split; done.
  - by split.
  - destruct (Hnext _ eq_refl Em) as (? & ? & ? & ?). split; done.
  - by split.
  - split; try done. 
  - by eapply f_step_frame.
Qed.

(** C30: The attempts are bounded and take turns. As long as no fetch succeeds and the endpoints do not change, in every interleaving attempt [k] is made at source [k] modulo the number of sources, so that all are tried equally often; and there are
    at most two more attempts than initial intervals fit in the time after which the deliverer gives up, after which the handler has it stop. *)
Theorem attempts_bounded rt d s : retry_ok rt -> d_fetchSources d <> [] -> d_fetchSourceIndex d = 0 -> d_fetchFailureCounter d = 0%N -> d_fetchFailureTotalSleepDuration d = 0%Z -> failing_run rt (deliver_start d) s ->
  length (ds_fetchers s) <= most_attempts rt /\ forall k f, ds_fetchers s !! k = Some f -> d_fetchSources d !! (k mod length (d_fetchSources d)) = Some (f_source f).
Proof.
  intros Hrt Hne Hx Hc Ht Hrun. assert (attempts_inv rt (d_fetchSources d) s) as [_ Hf Hb _]; [|done]. induction Hrun as [|s1 s2 _ IH Hs Hle Hnr]; [|by eapply attempts_step].
  split; cbn; [done|done|lia|]. rewrite Hx, Hc. split; [done|]. split; [symmetry; apply Nat.Div0.mod_0_l|]. unfold slept_for. rewrite Ht. destruct Hrt. lia.
Qed.
End Attempts.

(** ** A fetch that was given up *)
Section Stale.
Context `{Sha256} `{DeliveryConfig} `{MapRange} {V : Type} `{BV : BlockVerifier V}.

(** When censorship is reported while the fetcher still connects, there is no receiver to stop: it goes on from the source that was given up, next to the one of the new source, whose receiver it replaces as the one that is stopped next; and when its
    stream ends, the error counts against the new source, from which the deliverer moves away. *)
Theorem given_up_fetch_goes_on rt (d : BFTDeliverer V) e0 e1 : (0 <= rt_MaxRetryDuration rt)%Z -> d_fetchSources d = [e0; e1] -> d_fetchSourceIndex d = 0 -> d_fetchFailureCounter d = 0%N -> d_fetchFailureTotalSleepDuration d = 0%Z -> d_stopFlag d = false ->
  exists s, d_run rt (deliver_start d) s /\ ds_main s = MWait /\ d_fetchSourceIndex (ds_d s) = 1 /\ ds_fetchers s = [mkFetcher e0 FReceiving; mkFetcher e1 FReceiving] /\ ds_blockReceiver s = Some 0 /\ ds_stopped s = ∅ /\
    exists s', d_run rt s s' /\ ds_main s' = MHead /\ d_fetchSourceIndex (ds_d s') = 0 /\ ds_fetchers s' = [mkFetcher e0 FDone; mkFetcher e1 FReceiving] /\ ds_stopped s' = ∅.
Proof.
  intros Hmax Hs Hx Hc Ht Hflag. set (n := d_nextBlockNumber d).
  assert (retryBackoff rt d = (d, false, 0%Z)) as E1 by (unfold retryBackoff; by rewrite Hc).
  set (d2 := next_source d). assert (d_fetchFailureCounter d2 = 1%N) as Hc2 by (cbn; by rewrite Hc).
  destruct (retryBackoff rt d2) as [[d3 stop] dur] eqn:E2. pose proof E2 as E2'. unfold retryBackoff in E2'. rewrite Hc2 in E2'. cbn [N.ltb N.compare] in E2'. change (d_fetchFailureTotalSleepDuration d2) with (d_fetchFailureTotalSleepDuration d) in E2'. rewrite Ht in E2'.
  rewrite (proj2 (Z.ltb_ge _ _) Hmax) in E2'. cbn [andb] in E2'. change (0 <? 1)%N with true in E2'. cbn iota in E2'. injection E2' as Ed3 <- _.
  assert (d_fetchSources d3 = [e0; e1] /\ d_fetchSourceIndex d3 = 1 /\ d_stopFlag d3 = false /\ d_nextBlockNumber d3 = n) as (Hs3 & Hx3 & Hf3 & Hn3) by (rewrite <-Ed3; cbn; rewrite Hs, Hx; done).
  set (s1 := mkDState d MWait (1, None) None ∅ [mkFetcher e0 FHead] []). assert (d_run rt (deliver_start d) s1) as R1 by (eapply dr_snoc; [constructor|apply (d_fetch rt (deliver_start d) d 0%Z e0); [done|done|by rewrite Hs, Hx]]).
  set (s2 := mkDState d MWait (1, None) None ∅ [mkFetcher e0 (FConnecting n)] []). assert (d_run rt (deliver_start d) s2) as R2 by (eapply dr_snoc; [exact R1|apply (d_fetcher rt s1 0 e0 FHead s1 (FConnecting n)); [done|by constructor]]).
  set (s3 := mkDState d2 MHead (1, None) None ∅ [mkFetcher e0 (FConnecting n)] []). assert (d_run rt (deliver_start d) s3) as R3 by (eapply dr_snoc; [exact R2|by apply (d_censored rt s2)]).
  set (s4 := mkDState d3 MWait (2, None) None ∅ [mkFetcher e0 (FConnecting n); mkFetcher e1 FHead] []). assert (d_run rt (deliver_start d) s4) as R4 by (eapply dr_snoc; [exact R3|apply (d_fetch rt s3 d3 dur e1); [done|done|by rewrite Hs3, Hx3]]).
  set (s5 := mkDState d3 MWait (2, None) None ∅ [mkFetcher e0 (FConnecting n); mkFetcher e1 (FConnecting n)] []).
  assert (d_run rt (deliver_start d) s5) as R5. { eapply dr_snoc; [exact R4|]. apply (d_fetcher rt s4 1 e1 FHead s4 (FConnecting n)); [done|]. rewrite <-Hn3. by apply (fs_seek 1 e1 s4). }
  set (s6 := mkDState d3 MWait (2, None) (Some 1) ∅ [mkFetcher e0 (FConnecting n); mkFetcher e1 FReceiving] []).
  assert (d_run rt (deliver_start d) s6) as R6. { eapply dr_snoc; [exact R5|]. apply (d_fetcher rt s5 1 e1 (FConnecting n) (mkDState d3 MWait (2, None) (Some 1) ∅ (ds_fetchers s5) []) FReceiving); [done|]. apply (fs_connected 1 e1 s5). }
  set (s7 := mkDState d3 MWait (2, None) (Some 0) ∅ [mkFetcher e0 FReceiving; mkFetcher e1 FReceiving] []).
  assert (d_run rt (deliver_start d) s7) as R7. { eapply dr_snoc; [exact R6|]. apply (d_fetcher rt s6 0 e0 (FConnecting n) (mkDState d3 MWait (2, None) (Some 0) ∅ (ds_fetchers s6) []) FReceiving); [done|]. apply (fs_connected 0 e0 s6). }
  exists s7. repeat (split; [done|]).
  set (s8 := mkDState d3 MWait (2, None) (Some 0) ∅ [mkFetcher e0 (FSending FeOther); mkFetcher e1 FReceiving] []). set (s9 := mkDState d3 MWait (2, Some FeOther) (Some 0) ∅ [mkFetcher e0 FDone; mkFetcher e1 FReceiving] []).
  exists (mkDState (next_source d3) MHead (2, None) (Some 0) ∅ [mkFetcher e0 FDone; mkFetcher e1 FReceiving] []). split; [|cbn; rewrite Hs3, Hx3; done].
  apply (dr_snoc _ _ s9); [apply (dr_snoc _ _ s8); [eapply dr_snoc; [constructor|]|]|].
  - eapply (d_fetcher rt s7 0 e0 FReceiving s7 (FSending FeOther)); [done|constructor].
  - apply (d_fetcher rt s8 0 e0 (FSending FeOther) (mkDState d3 MWait (2, Some FeOther) (Some 0) ∅ (ds_fetchers s8) []) FDone); [done|by apply (fs_send 0 e0 s8)].
  - by eapply (d_error rt s9 2 FeOther (seq 0 (length (cs_allEndpoints (d_orderers d3))))).
Qed.
End Stale.
