(* ===== verification/SyncSample.v ===== *)
(** * Concrete synchronizations

    The theorems on synchronization, its deliverer and its monitor at small clusters and chains. *)
From stdpp Require Import gmap sets.
From Stdlib Require Import NArith ZArith Lia.
From Stdlib Require Import Init.Byte.
From S2P Require Import Prelude Types Events State StateFacts StateProps Round Badb Consenter Blocks Ledger StateCodec StateCodecFacts Consensus ConsensusFacts Sample SampleBlocks SampleNode RoundThms ConsensusThms DecisionThms Startup StartupThms Assembler RequestFilter RequestFilterThms BlockVerify BlockVerifyThms BlockVerifySample Endpoints SyncTarget Synchronizer RateLimit Censorship CensorshipThms Deliverer DelivererThms.
Close Scope Z_scope.

#[local] Existing Instance sample_fabric.
#[local] Existing Instance sample_blocks.
#[local] Existing Instance sample_states.
#[local] Existing Instance sample_bft.
#[local] Existing Instance sample_sha.
#[local] Existing Instance sample_env.
#[local] Existing Instance range_canonical.
#[local] Existing Instance sample_configs.
#[local] Existing Instance seven_parties.

(** ** Endpoints *)
Definition orderers_v1 : Party2Endpoint := list_to_map [(1%N, ("a", [[x01]])); (2%N, ("b", [[x02]])); (3%N, ("c", [[x03]]))].
Definition orderers_v2 : Party2Endpoint := list_to_map [(1%N, ("a", [[x01]])); (2%N, ("b2", [[x02]])); (4%N, ("d", [[x04]]))].
Lemma endpoints_follow_config_witness : exists cs s, updates [orderers_v1; orderers_v2] (NewConnectionSource 1) (mkChans 0 ∅) = Ok (cs, s) /\ length (cs_allEndpoints cs) = 2 /\ others cs /\ ch_closed s = {[0; 1; 2]}.
Proof.
  destruct (endpoints_follow_config 1 [orderers_v1] orderers_v2 (mkChans 0 ∅)) as (cs & s & E & _ & _ & Ho & _); [intros c Hc; by apply not_elem_of_empty in Hc|].
  exists cs, s. split; [exact E|]. split; [|split; [exact Ho|]]; vm_compute in E; injection E as <- <-; reflexivity.
Defined.

(** ** Target and genesis block *)
Definition block_at (n : N) : Block := mkBlock (Some (mkBlockHeader n [] [])) (Some []) (Some [[]]).
Definition answer (e : string) (n : N) : Probe := (e, None, Ok (ResponseBlock (Some (block_at n)))).
(** One of four is faulty, and claims a height far above the others'. *)
Definition heights_4 : list Probe := [answer "a" 5; answer "b" 7; answer "c" 1000; ("d", None, Err "timeout")].
Lemma target_height_reachable_witness : detectTargetHeight 4 None heights_4 = Ok (8%N, ""%string) /\
  exists e h, delete ""%string (HeightsByEndpoints None heights_4).1.1 !! e = Some h /\ e ∉ ({["c"%string]} : gset string) /\ (8 <= h)%N.
Proof.
  assert (detectTargetHeight 4 None heights_4 = Ok (8%N, ""%string)) as E by (vm_compute; reflexivity). split; [exact E|].
  destruct (target_height_reachable range_canonical 4 None heights_4 8 "" {["c"%string]} ltac:(lia) E) as [Hr _]. apply Hr; apply Nat.leb_le; vm_compute; reflexivity.
Defined.

Definition genesis_reports : gmap string (option Block) := list_to_map [("a"%string, Some genesis); ("b"%string, Some genesis); ("e"%string, Some genesis); ("c"%string, Some block1); ("d"%string, None)].
Lemma genesis_agreed_witness : is_ok (SelectGenesisBlock genesis_reports 7) = true.
Proof.
  destruct (genesis_agreed genesis_reports {["c"%string; "d"%string]} genesis (some_bytes genesis) 7 2 3 5) as [_ Hok]; [lia|reflexivity|vm_compute; reflexivity| | |].
  { intros e b He Hnf. unfold genesis_reports in He. cbn [list_to_map foldr fst snd] in He. rewrite !lookup_insert_Some in He. destruct He as [[_ <-]|[_ [[_ <-]|[_ [[_ <-]|[_ [[<- _]|[_ [[<- _]|[_ He]]]]]]]]]]; [reflexivity|reflexivity|reflexivity|exfalso; apply Hnf; set_solver|exfalso; apply Hnf; set_solver|by rewrite lookup_empty in He]. }
  { apply Nat.leb_le. vm_compute. reflexivity. }
  apply Hok. apply Nat.leb_le. vm_compute. reflexivity.
Defined.
(** ** A consenter that is one decision behind *)
Definition joined : Consensus Badb.t := match configureConsensus sample_config (Some genesis) [] (Badb.mk true ∅) with Ok (c, _) => c | _ => sample_consensus 2 end.
Definition proposal_of_one : Proposal := match AssembleProposal joined (ok_bytes (marshal_or_panic (mkViewMetadata 1))) first_requests with Ok p => p | _ => mkProposal None None None 0 end.
Definition ahead : Consensus Badb.t := match Deliver joined proposal_of_one [mkSignature 1 None None] with Ok (c, _, _) => c | _ => joined end.
Definition pulled_one : list Block := drop 1 (c_Storage ahead).

Definition probes_2 : list Probe := [answer "a" 1; answer "b" 1; answer "c" 1].
Definition sync_one : SyncInput := mkSyncInput 4 None probes_2 [] (Some genesis) (Ok []) (Received <$> pulled_one).
Lemma no_config_blocks (l : list Block) : existsb IsConfigBlock l = false -> Forall (fun b => IsConfigBlock b = false) l.
Proof. induction l as [|b l IH]; cbn [existsb]; [constructor|]. intros [Hb Hl]%orb_false_iff. constructor; [done|by apply IH]. Qed.
Lemma sync_equals_delivery_witness : length (c_Storage joined) = 1 /\ exists s' r, Sync sync_one (mkSynchronizer joined (mkReconfig [] false) [] false) = Some (Ok (s', r)) /\ s_node s' = ahead.
Proof.
  split; [vm_compute; reflexivity|]. destruct (createBFTDeliverer joined (Height (c_Storage joined)) (in_join sync_one) (in_tlsCertHash sync_one)) as [v| |] eqn:Ev; [|by vm_compute in Ev..].
  assert (Deliver joined proposal_of_one [mkSignature 1 None None] = Ok (ahead, mkReconfig [1; 2; 3; 4]%N false, false)) as Ed by (vm_compute; reflexivity).
  assert (deliveries joined [(proposal_of_one, [mkSignature 1 None None])] ahead) as Hdel by exact (deliveries_snoc joined [] joined _ _ _ _ _ (deliveries_nil joined) Ed).
  assert (in_events sync_one = (Received <$> pulled_one) ++ []) as Hev by (symmetry; apply app_nil_r).
  destruct (sync_equals_delivery sync_one 2 "" v joined [(proposal_of_one, [mkSignature 1 None None])] ahead proposal_of_one [mkSignature 1 None None] (mkReconfig [] false) [] false pulled_one []) as (s' & nodes & E & Hs);
    [vm_compute; reflexivity|vm_compute; discriminate|vm_compute; reflexivity|exact Ev|exact Hdel|exact eq_refl| |vm_compute; reflexivity| |vm_compute; discriminate|exact Hev|left; vm_compute; reflexivity|].
  - constructor; [|constructor]. split; [repeat constructor; vm_compute; discriminate|]. destruct (BatchedRequests.Deserialize (slice_bytes (p_Payload proposal_of_one))) as [batch| |] eqn:Eb; [|by vm_compute in Eb..].
    destruct (omapM RequestID batch) as [infos| |] eqn:Ei; [exists batch, infos; split; [exact Eb|exact Ei]|exfalso; vm_compute in Eb; injection Eb as <-; by vm_compute in Ei..].
  - apply no_config_blocks. vm_compute. reflexivity.
  - eexists s', _. split; [exact E|exact Hs].
Defined.

(** ** An assembler whose deliverer gives up *)
Definition al_one : AssemblerLedger := mkAL [genesis] 1 0 1.
Definition al_three : AssemblerLedger := ok_or al_one (commit_all AppendBlock al_one [block1; block2]).
Definition sync_two : SyncInput := mkSyncInput 4 None [] [] (Some genesis) (Ok []) [Received block1; Received block2; BufferStopped].
Lemma assembler_sync_extends_witness : Assembler_synchronize sync_two 5 al_one = Some (al_three, Ok tt) /\ al_Ledger al_three = [genesis; block1; block2].
Proof.
  destruct (Assembler_createBFTDeliverer al_one (Height (al_Ledger al_one)) (in_join sync_two) (in_tlsCertHash sync_two)) as [v| |] eqn:Ev; [|by vm_compute in Ev..].
  destruct (assembler_sync_extends sync_two 5 al_one v genesis_chain ltac:(split; reflexivity) ltac:(vm_compute; discriminate) Ev) as [_ Hstop].
  split; [|vm_compute; reflexivity]. apply (Hstop [block1; block2] []); [reflexivity|discriminate|vm_compute; discriminate|vm_compute; reflexivity].
Defined.

(** ** A deliverer with two sources *)
Definition ep_a : Endpoint := mkEndpoint "a" [] 0.
Definition ep_b : Endpoint := mkEndpoint "b" [] 1.
Definition two_sources : ConnectionSource := mkSource [ep_a; ep_b] ∅ 9.
#[local] Instance no_delivery_config : DeliveryConfig := {| delivery_config _ := None |}.
Definition deliverer (v : BlockVerificationAssistant) : BFTDeliverer BlockVerificationAssistant := mkDeliverer v two_sources (mkChans 2 ∅) false 1 0 0 0 0 [ep_a; ep_b] 0.
Definition retry : RetryConfig := mkRetry 100 1000 5000 true.
Lemma retry_fine : retry_ok retry.
Proof. split; cbn; try lia; done. Qed.

(** The first source cannot be reached; the second is tried. *)
Lemma attempts_bounded_witness : exists s, failing_run retry (deliver_start (deliverer assistant)) s /\ map (fun f => ep_Address (f_source f)) (ds_fetchers s) = ["a"; "b"]%string /\ length (ds_fetchers s) <= most_attempts retry.
Proof.
  set (d := deliverer assistant). set (d2 := next_source d). set (d3 := addFetchFailureSleepDuration 100 d2).
  assert (exists s, failing_run retry (deliver_start d) s /\ map (fun f => ep_Address (f_source f)) (ds_fetchers s) = ["a"; "b"]%string) as (s & Hr & Hm).
  { exists (mkDState d3 MWait (2, None) None ∅ [mkFetcher ep_a FDone; mkFetcher ep_b FHead] []). split; [|reflexivity].
    apply (fr_snoc _ _ (mkDState d2 MHead (1, None) None ∅ [mkFetcher ep_a FDone] [])); [|eapply (d_fetch retry (mkDState d2 MHead (1, None) None ∅ [mkFetcher ep_a FDone] []) d3 100 ep_b); reflexivity|by vm_compute|done].
    apply (fr_snoc _ _ (mkDState d MWait (1, Some FeOther) None ∅ [mkFetcher ep_a FDone] [])); [|apply (d_error retry (mkDState d MWait (1, Some FeOther) None ∅ [mkFetcher ep_a FDone] []) 1 FeOther [0; 1]); reflexivity|by vm_compute|done].
    apply (fr_snoc _ _ (mkDState d MWait (1, None) None ∅ [mkFetcher ep_a (FSending FeOther)] [])).
    2: { apply (d_fetcher retry (mkDState d MWait (1, None) None ∅ [mkFetcher ep_a (FSending FeOther)] []) 0 ep_a (FSending FeOther) (mkDState d MWait (1, Some FeOther) None ∅ [mkFetcher ep_a (FSending FeOther)] []) FDone); [reflexivity|by apply fs_send]. }
    2: { by vm_compute. } 2: { done. }
    apply (fr_snoc _ _ (mkDState d MWait (1, None) None ∅ [mkFetcher ep_a (FConnecting 1)] [])).
    2: { apply (d_fetcher retry (mkDState d MWait (1, None) None ∅ [mkFetcher ep_a (FConnecting 1)] []) 0 ep_a (FConnecting 1) (mkDState d MWait (1, None) None ∅ [mkFetcher ep_a (FConnecting 1)] []) (FSending FeOther)); [reflexivity|constructor]. }
    2: { by vm_compute. } 2: { done. }
    apply (fr_snoc _ _ (mkDState d MWait (1, None) None ∅ [mkFetcher ep_a FHead] [])).
    2: { apply (d_fetcher retry (mkDState d MWait (1, None) None ∅ [mkFetcher ep_a FHead] []) 0 ep_a FHead (mkDState d MWait (1, None) None ∅ [mkFetcher ep_a FHead] []) (FConnecting 1)); [reflexivity|by apply (fs_seek 0 ep_a (mkDState d MWait (1, None) None ∅ [mkFetcher ep_a FHead] []))]. }
    2: { by vm_compute. } 2: { done. }
    apply (fr_snoc _ _ (deliver_start d)); [constructor|apply (d_fetch retry (deliver_start d) d 0 ep_a); reflexivity|by vm_compute|done]. }
  exists s. split; [exact Hr|]. split; [exact Hm|]. exact (proj1 (attempts_bounded retry d s retry_fine ltac:(discriminate) eq_refl eq_refl eq_refl Hr)).
Defined.

(** ** A verifier of one chain *)
Definition chain_headers : list BlockHeader := omap b_Header [genesis; block1; block2; block3].
Definition chain_verifier : BlockVerifierFunc := fun h _ => if decide (h ∈ chain_headers) then Ok tt else Err "not signed".
Definition chain_configs : ChannelConfigs := {| header_channel _ := "arma"; VerifierFromConfig _ _ := Ok chain_verifier; policy_of_config _ _ := Err "not used" |}.
#[local] Existing Instance chain_configs.
Definition header0 : BlockHeader := default (mkBlockHeader 0 [] []) (b_Header genesis).
Definition strict : BlockVerificationAssistant := mkBVA "arma" chain_verifier None header0 (hash_of genesis).
Definition of_chain (h : BlockHeader) : Prop := h ∈ chain_headers.
Definition checks_chain (a : BlockVerificationAssistant) : Prop := bva_sigVerifierFunc a = chain_verifier.

Lemma numbers_distinct (l : list BlockHeader) h h' : NoDup (bh_Number <$> l) -> h ∈ l -> h' ∈ l -> bh_Number h = bh_Number h' -> h = h'.
Proof.
  intros Hnd (i & Hi)%list_elem_of_lookup (j & Hj)%list_elem_of_lookup En. assert (i = j) as ->; [|congruence]. eapply NoDup_lookup; [exact Hnd|by rewrite list_lookup_fmap, Hi|]. rewrite list_lookup_fmap, Hj. cbn. by rewrite En.
Qed.
Lemma chain_agreement : agreement of_chain checks_chain.
Proof.
  split.
  - intros h Hh. assert (Forall (fun h => bh_Number h <= u64_max)%N chain_headers) as Hall by (repeat constructor; vm_compute; discriminate). rewrite Forall_forall in Hall. by apply Hall.
  - intros h h' Hh Hh'. apply (numbers_distinct chain_headers h h'); [|done|done]. apply (bool_decide_eq_true_1 (NoDup (bh_Number <$> chain_headers))). vm_compute. reflexivity.
  - intros v v' b h Htr _ _ Ev Hh. apply BVA_VerifyBlock_inv in Ev as (h1 & hash & Hh1 & _ & _ & _ & -> & _ & _ & md & _ & Hsig). rewrite Hh in Hh1. injection Hh1 as <-. split; [|exact Htr]. rewrite Htr in Hsig. unfold chain_verifier in Hsig. by destruct (decide _).
  - intros v0 v1 v v' b _ _ _ Htr Ev. apply UpdateConfig_inv in Ev as (cfg & f & h & hash & _ & _ & Ef & _ & _ & ->). by injection Ef as <-.
  - intros v v' b Htr Ev. unfold UpdateBlockHeader in Ev. cbn in Ev. unfold BVA_UpdateBlockHeader in Ev. apply bind_Ok_inv in Ev as (h & _ & Ev). apply bind_Ok_inv in Ev as (hash & _ & Ev). by apply Ok_inj in Ev as <-.
Qed.

(** One source sends the first block. *)
Definition verifier1 : BlockVerificationAssistant := ok_or nobody (BVA_VerifyBlock strict block1).
Lemma fetched_blocks_extend_witness : exists s, d_run retry (deliver_start (deliverer strict)) s /\ ds_handled s = [block1] /\ append_all [genesis] [block1] = Ok [genesis; block1].
Proof.
  set (d := deliverer strict). set (st main v recv pc := mkDState (with_verifier v d) main (1, None) recv ∅ [mkFetcher ep_a pc]).
  assert (d_run retry (deliver_start d) (st MWait strict (Some 0) FReceiving [])) as R3.
  { apply (dr_snoc _ _ (st MWait strict None (FConnecting 1) [])); [apply (dr_snoc _ _ (st MWait strict None FHead [])); [apply (dr_snoc _ _ (deliver_start d)); [constructor|]|]|].
    - apply (d_fetch retry (deliver_start d) d 0 ep_a); reflexivity.
    - apply (d_fetcher retry (st MWait strict None FHead []) 0 ep_a FHead (st MWait strict None FHead []) (FConnecting 1)); [reflexivity|by apply (fs_seek 0 ep_a (st MWait strict None FHead []))].
    - apply (d_fetcher retry (st MWait strict None (FConnecting 1) []) 0 ep_a (FConnecting 1) (st MWait strict (Some 0) (FConnecting 1) []) FReceiving); [reflexivity|apply (fs_connected 0 ep_a (st MWait strict None (FConnecting 1) []))]. }
  assert (receive_message (Ok (ResponseBlock (Some block1))) strict = Ok (verifier1, FVerified block1)) as Em by (vm_compute; reflexivity).
  assert (d_run retry (deliver_start d) (st MWait verifier1 (Some 0) (FHandled block1) [block1])) as R5.
  { apply (dr_snoc _ _ (st MWait verifier1 (Some 0) (FVerified block1) [])); [apply (dr_snoc _ _ (st MWait strict (Some 0) FReceiving [])); [exact R3|]|].
    - apply (d_fetcher retry (st MWait strict (Some 0) FReceiving []) 0 ep_a FReceiving (st MWait verifier1 (Some 0) FReceiving []) (FVerified block1)); [reflexivity|].
      exact (fs_message 0 ep_a (st MWait strict (Some 0) FReceiving []) (Ok (ResponseBlock (Some block1))) verifier1 (FVerified block1) Em).
    - apply (d_fetcher retry (st MWait verifier1 (Some 0) (FVerified block1) []) 0 ep_a (FVerified block1) (st MWait verifier1 (Some 0) (FVerified block1) [block1]) (FHandled block1)); [reflexivity|].
      exact (fs_handled 0 ep_a (st MWait verifier1 (Some 0) (FVerified block1) []) block1). }
  eexists. split; [exact R5|]. split; [reflexivity|].
  refine (proj1 (fetched_blocks_extend of_chain checks_chain chain_agreement retry d [genesis] _ [block1] _ _ _ _ R5 _ _ _)).
  - split; [apply genesis_chain|]. exists genesis. split; reflexivity.
  - vm_compute. reflexivity.
  - reflexivity.
  - apply (bool_decide_eq_true_1 (header0 ∈ chain_headers)). vm_compute. reflexivity.
  - intros b Hb. exact Hb.
  - intros [|i] b Hb; [|destruct i; discriminate Hb]. injection Hb as <-. eexists. split; [reflexivity|]. reflexivity.
  - vm_compute. reflexivity.
Defined.

(** ** A monitor: one source withholds the block whose header the other sent *)
Notation Monitor := (BFTCensorshipMonitor BlockVerificationAssistant) (only parsing).
Definition short_timeouts : TimeoutConfig := mkTimeouts 10 100 1000.
Definition at_b (f : HeaderReceiver BlockVerificationAssistant -> HeaderReceiver BlockVerificationAssistant) (m : Monitor) : Monitor :=
  match m_hdrRcvTrackers m !! "b"%string with Some t => match t_headerReceiver t with Some hr => with_receiver "b" t (f hr) m | None => m end | None => m end.
Definition nothing_yet : N * Z := (0%N, 5%Z).
Definition launch_at (now : Z) (p : N * Z) (m : Monitor) : Monitor := ok_or m (launchHeaderReceivers now now (fun _ => p) (fun _ => true) m).
Definition header_msg : outcome DeliverResponse := Ok (ResponseBlock (Some block1)).
Definition mon0 : Monitor := NewBFTCensorshipMonitor strict [ep_a; ep_b] 0 short_timeouts 500.
Definition mon1 : Monitor := Monitor_init mon0.
Definition mon2 : Monitor := launch_at 10 nothing_yet mon1.
Definition mon3 : Monitor := at_b setStarted mon2.
Definition mon4 : Monitor := at_b DeliverHeaders_head mon3.
Definition mon5 : Monitor := at_b (fun hr => ok_or hr (DeliverHeaders_round 10 header_msg hr)) mon4.
Definition mon6 : Monitor := (detectBlockCensorship 10 nothing_yet mon5).1.
Definition mon7 : Monitor := launch_at 10 nothing_yet mon6.
Definition mon8 : Monitor := (detectBlockCensorship 2000 nothing_yet mon7).1.
Definition receiver_of (m : Monitor) : option (headerReceiverTracker BlockVerificationAssistant * HeaderReceiver BlockVerificationAssistant) :=
  t ← m_hdrRcvTrackers m !! "b"%string; hr ← t_headerReceiver t; Some (t, hr).

Lemma receiver_step (m m' : Monitor) pc now acc : m' = at_b setStarted m /\ (match receiver_of m with Some (_, hr) => hr_started hr = false | None => False end) \/
    m' = at_b DeliverHeaders_head m /\ (match receiver_of m with Some (_, hr) => hr_started hr = true /\ hr_receiving hr = false | None => False end) ->
  mon_step (mkMonState m pc now acc) LReceiver (mkMonState m' pc now acc).
Proof.
  unfold receiver_of, at_b. intros Hm. destruct (m_hdrRcvTrackers m !! "b"%string) as [t|] eqn:Et; cbn in Hm; [|tauto]. destruct (t_headerReceiver t) as [hr|] eqn:Ehr; cbn in Hm; [|tauto].
  destruct Hm as [[-> Hs]|[-> [Hs Hr]]]; [by eapply st_started|by eapply st_head].
Qed.
Lemma launch_step (m : Monitor) now p acc : is_ok (launchHeaderReceivers now now (fun _ => p) (fun _ => true) m) = true -> mon_step (mkMonState m MonLaunch now acc) (LLaunch (fun _ => p)) (mkMonState (launch_at now p m) MonSelect now acc).
Proof. intros E. apply (st_launch m now now acc _ (fun _ => true)); [lia|]. unfold launch_at. by destruct (launchHeaderReceivers _ _ _ _ m). Qed.
Lemma received_step (m : Monitor) pc now acc b : match receiver_of m with Some (_, hr) => hr_receiving hr = true /\ hr_client hr = 1%N /\ is_ok (receive_header (hr_updatableBlockVerifier hr) b) = true | None => False end ->
  mon_step (mkMonState m pc now acc) (LReceived 1 (Ok (ResponseBlock (Some b)))) (mkMonState (at_b (fun hr => ok_or hr (DeliverHeaders_round now (Ok (ResponseBlock (Some b))) hr)) m) pc now (acc ++ [(b, now)])).
Proof.
  unfold receiver_of, at_b. destruct (m_hdrRcvTrackers m !! "b"%string) as [t|] eqn:Et; cbn [mbind option_bind]; [|tauto]. destruct (t_headerReceiver t) as [hr|] eqn:Ehr; cbn [mbind option_bind]; [|tauto]. intros (Hr & Hc & Hok).
  destruct (receive_header (hr_updatableBlockVerifier hr) b) as [v| |] eqn:Ev; try done. pose proof (st_received m pc now acc "b" t hr (Ok (ResponseBlock (Some b))) (mkReceiver (hr_stop hr) (hr_started hr) false (hr_errorStopTime hr) (hr_client hr) v (Some b) now) Et Ehr Hr) as Hs.
  unfold DeliverHeaders_round, accepted_header in Hs. cbn [deref mbind outcome_bind] in Hs. rewrite Ev in Hs. unfold DeliverHeaders_round. cbn [deref mbind outcome_bind]. rewrite Ev. cbn [ok_or]. specialize (Hs eq_refl). rewrite Hc in *. exact Hs.
Qed.

Definition start_mon : MonState BlockVerificationAssistant := mon_start strict [ep_a; ep_b] 0 short_timeouts 500 10.
Lemma mon5_reached : mon_run start_mon [LInit; LLaunch (fun _ => nothing_yet); LReceiver; LReceiver; LReceived 1 header_msg] (mkMonState mon5 MonSelect 10 [(block1, 10%Z)]).
Proof.
  apply (mr_snoc _ [_; _; _; _] (mkMonState mon4 MonSelect 10 [])); [|apply (received_step mon4 MonSelect 10 [] block1); vm_compute; repeat split].
  apply (mr_snoc _ [_; _; _] (mkMonState mon3 MonSelect 10 [])); [|apply receiver_step; right; split; [reflexivity|vm_compute; repeat split]].
  apply (mr_snoc _ [_; _] (mkMonState mon2 MonSelect 10 [])); [|apply receiver_step; left; split; [reflexivity|vm_compute; reflexivity]].
  apply (mr_snoc _ [_] (mkMonState mon1 MonLaunch 10 [])); [|apply launch_step; vm_compute; reflexivity].
  apply (mr_snoc _ [] start_mon); [constructor|constructor].
Qed.

Lemma censorship_detection_witness : exists s, mon_run start_mon ([LInit; LLaunch (fun _ => nothing_yet); LReceiver; LReceiver; LReceived 1 header_msg] ++ [LDetect nothing_yet false] ++ [LLaunch (fun _ => nothing_yet); LTime]) s /\
  (exists s', mon_step s (LDetect nothing_yet true) s') /\ exists b h, (b, 10%Z) ∈ ms_accepted s /\ b_Header b = Some h /\ reached nothing_yet (bh_Number h) = false.
Proof.
  set (s7 := mkMonState mon7 MonSelect 2000 [(block1, 10%Z)]).
  assert (mon_run start_mon [LInit; LLaunch (fun _ => nothing_yet); LReceiver; LReceiver; LReceived 1 header_msg; LDetect nothing_yet false; LLaunch (fun _ => nothing_yet); LTime] s7) as R.
  { apply (mr_snoc _ [_; _; _; _; _; _; _] (mkMonState mon7 MonSelect 10 [(block1, 10%Z)])); [|constructor; lia].
    apply (mr_snoc _ [_; _; _; _; _; _] (mkMonState mon6 MonLaunch 10 [(block1, 10%Z)])); [|apply launch_step; vm_compute; reflexivity].
    apply (mr_snoc _ [_; _; _; _; _] (mkMonState mon5 MonSelect 10 [(block1, 10%Z)])); [exact mon5_reached|]. apply st_detect. unfold mon6. assert ((detectBlockCensorship 10 nothing_yet mon5).2 = false) as E by (vm_compute; reflexivity). revert E. by destruct (detectBlockCensorship 10 nothing_yet mon5) as [m r]; cbn; intros ->. }
  assert (mon_step s7 (LDetect nothing_yet true) (mkMonState (Monitor_Stop (send_error ErrCensorship mon8)) MonDone 2000 [(block1, 10%Z)])) as Hs.
  { apply st_censored. unfold mon8. assert ((detectBlockCensorship 2000 nothing_yet mon7).2 = true) as E by (vm_compute; reflexivity). revert E. by destruct (detectBlockCensorship 2000 nothing_yet mon7) as [m r]; cbn; intros ->. }
  exists s7. split; [exact R|]. split; [by eexists|]. destruct (censorship_detection strict [ep_a; ep_b] 0 short_timeouts 500 10 _ s7 R) as [Hrep _]. destruct (Hrep _ _ Hs) as (b & h & t & Hb & _ & Hh & Hr & _).
  exists b, h. split; [|split; [exact Hh|exact Hr]]. pose proof Hb as Hin. apply list_elem_of_singleton in Hin. injection Hin as -> ->. exact Hb.
Defined.

(** ** Receivers that connect late *)
Definition one_ahead : N * Z := (1%N, 5%Z).
Definition late2 : Monitor := launch_at 10 one_ahead mon1.
Lemma late_receivers_blind_witness : exists s, mon_run start_mon [LInit; LLaunch (fun _ => one_ahead)] s /\
  match receiver_of (ms_m s) with Some (_, hr) => hr_client hr = 2%N /\ receive_header (hr_updatableBlockVerifier hr) block2 = Err "expected block number is different" | None => False end /\ ErrCensorship ∉ m_errorCh (ms_m s).
Proof.
  assert (mon_run start_mon [LInit; LLaunch (fun _ => one_ahead)] (mkMonState late2 MonSelect 10 [])) as R.
  { apply (mr_snoc _ [_] (mkMonState mon1 MonLaunch 10 [])); [|apply launch_step; vm_compute; reflexivity]. apply (mr_snoc _ [] start_mon); [constructor|constructor]. }
  eexists. split; [exact R|]. split; [vm_compute; split; reflexivity|].
  refine (proj2 (proj2 (late_receivers_blind strict [ep_a; ep_b] 0 short_timeouts 500 10 _ _ _ _ R _))); [vm_compute; reflexivity|vm_compute; reflexivity|].
  constructor; [done|]. constructor; [|constructor]. intros a. split; [discriminate|]. split; vm_compute; reflexivity.
Defined.
