(* ===== verification/Wire.v ===== *)
(** * Varints and the encodings of the block store

    The varints and length-prefixed bytes of protowire, which [src/common/ledger/blkstorage] uses for blocks ([block_serialization.go],
    [protobuf_util.go]), for the summary of the block files ([blockfile_mgr.go]), for locations of blocks ([blockindex.go]) and for the record of
    pruning ([prune_info.go]), and the order preserving encoding of numbers ([src/common/ledger/util/util.go]), with their round trips. *)
From S2P Require Import Prelude Types Events Blocks.
From Stdlib Require Import NArith ZArith Lia.

Definition errCodeTruncated : Z := -1.
Definition errCodeOverflow : Z := -3.

(** ** protowire *)

(** Seven bits to a byte, the lowest first; every byte but the last has its top bit set. [more] is the number of bytes that may still follow. *)
Fixpoint varint_bytes (more : nat) (v : N) : bytes :=
  match more with
  | O => [byte_of_N v]
  | S more' => if (v <? 128)%N then [byte_of_N v] else byte_of_N (v mod 128 + 128) :: varint_bytes more' (v / 128)
  end.
Definition AppendVarint (b : bytes) (v : N) : bytes := b ++ varint_bytes 9 v.

(** The value and the number of bytes it took, or a negative error code. The tenth byte has one bit only. *)
Fixpoint varint_value (more : nat) (b : bytes) : N * Z :=
  match b with
  | [] => (0%N, errCodeTruncated)
  | c :: b' =>
      let y := Byte.to_N c in
      match more with
      | O => if (y <? 2)%N then (y, 1%Z) else (0%N, errCodeOverflow)
      | S more' =>
          if (y <? 128)%N then (y, 1%Z) else
          let '(v, n) := varint_value more' b' in
          if (n <? 0)%Z then (0%N, n) else ((y - 128 + 128 * v)%N, (n + 1)%Z)
      end
  end.
Definition ConsumeVarint (b : bytes) : N * Z := varint_value 9 b.

Definition AppendBytes (b v : bytes) : bytes := AppendVarint b (N.of_nat (length v)) ++ v.
Definition ConsumeBytes (b : bytes) : bytes * Z :=
  let '(m, n) := ConsumeVarint b in
  if (n <? 0)%Z then ([], n) else
  let rest := drop (Z.to_nat n) b in
  if (N.of_nat (length rest) <? m)%N then ([], errCodeTruncated) else
  (take (N.to_nat m) rest, (n + Z.of_N m)%Z).

Definition varint (v : N) : bytes := varint_bytes 9 v.
Definition framed (v : bytes) : bytes := varint (N.of_nat (length v)) ++ v.

Lemma AppendVarint_eq b v : AppendVarint b v = b ++ varint v.
Proof. done. Qed.
Lemma AppendBytes_eq b v : AppendBytes b v = b ++ framed v.
Proof. unfold AppendBytes, framed. by rewrite AppendVarint_eq, app_assoc. Qed.

Lemma length_varint_bytes more v : 1 <= length (varint_bytes more v) <= S more.
Proof. revert v; induction more as [|more IH]; intros v; cbn; [lia|]. case_match; cbn; [lia|]. specialize (IH (v / 128)%N). lia. Qed.
Lemma length_varint v : 1 <= length (varint v).
Proof. apply length_varint_bytes. Qed.
Lemma varint_nonempty v : varint v <> [].
Proof. intros E. pose proof (length_varint_bytes 9 v) as L. unfold varint in E. rewrite E in L. cbn in L. lia. Qed.

(** The number of bytes that may follow is enough for the value: seven bits in each of [more], and one bit in the tenth. *)
Definition fits (more : nat) (v : N) : Prop := (v < 2 * 128 ^ N.of_nat more)%N.
Lemma fits_div more v : fits (S more) v -> fits more (v / 128).
Proof.
  unfold fits. rewrite Nat2N.inj_succ, N.pow_succ_r'. intros H. apply N.Div0.div_lt_upper_bound. lia.
Qed.
Lemma fits_u64 v : (v <= u64_max)%N -> fits 9 v.
Proof. unfold fits, u64_max. change (2 * 128 ^ N.of_nat 9)%N with 18446744073709551616%N. lia. Qed.

Lemma varint_value_bytes more v s :
  fits more v -> varint_value more (varint_bytes more v ++ s) = (v, Z.of_nat (length (varint_bytes more v))).
Proof.
  revert v; induction more as [|more IH]; intros v Hv.
  - unfold fits in Hv. change (2 * 128 ^ N.of_nat 0)%N with 2%N in Hv. cbn [varint_bytes app varint_value length]. rewrite to_N_byte_of_N, N.mod_small by lia. destruct (N.ltb_spec v 2); [done|lia].
  - cbn [varint_bytes]. destruct (N.ltb_spec v 128) as [Hs|Hs].
    + cbn [app varint_value length]. rewrite to_N_byte_of_N, N.mod_small by lia. destruct (N.ltb_spec v 128); [done|lia].
    + pose proof (N.mod_lt v 128 ltac:(lia)). cbn [app varint_value length]. rewrite to_N_byte_of_N, N.mod_small by lia.
      rewrite (proj2 (N.ltb_ge _ _) (N.le_add_l _ _)). rewrite IH by by apply fits_div.
      destruct (Z.ltb_spec (Z.of_nat (length (varint_bytes more (v / 128)))) 0); [lia|]. f_equal; [|lia].
      rewrite N.add_sub. pose proof (N.div_mod v 128 ltac:(lia)). lia.
Qed.

(** What is cut short within a varint is reported as such. *)
Lemma varint_value_cut more v p q :
  varint_bytes more v = p ++ q -> q <> [] -> varint_value more p = (0%N, errCodeTruncated).
Proof.
  revert v p; induction more as [|more IH]; intros v p E Hq.
  - cbn in E. destruct p as [|c p]; [done|]. destruct p, q; naive_solver.
  - cbn [varint_bytes] in E. destruct p as [|c p]; [done|]. destruct (N.ltb_spec v 128).
    + destruct p, q; naive_solver.
    + injection E as <- E. pose proof (N.mod_lt v 128 ltac:(lia)). cbn. rewrite to_N_byte_of_N, N.mod_small by lia.
      rewrite (proj2 (N.ltb_ge _ _) (N.le_add_l _ _)). by rewrite (IH _ _ E Hq).
Qed.

Lemma ConsumeVarint_varint v s : (v <= u64_max)%N -> ConsumeVarint (varint v ++ s) = (v, Z.of_nat (length (varint v))).
Proof. intros. by apply varint_value_bytes, fits_u64. Qed.
Lemma ConsumeVarint_cut v p q : varint v = p ++ q -> q <> [] -> ConsumeVarint p = (0%N, errCodeTruncated).
Proof. apply varint_value_cut. Qed.

(** A number below [2 ^ (7 * k)] takes at most [k] bytes. *)
Lemma length_varint_bytes_small k more v : (v < 128 ^ N.of_nat (S k))%N -> length (varint_bytes more v) <= S k.
Proof.
  revert more v; induction k as [|k IH]; intros more v Hv.
  - destruct more; cbn; [lia|]. cbn in Hv. destruct (N.ltb_spec v 128); cbn; lia.
  - destruct more; cbn; [lia|]. destruct (N.ltb_spec v 128); cbn; [lia|]. apply le_n_S, IH.
    rewrite Nat2N.inj_succ, N.pow_succ_r' in Hv. apply N.Div0.div_lt_upper_bound. lia.
Qed.
Lemma length_varint_8 v : (v < 72057594037927936)%N -> length (varint v) <= 8.
Proof. intros. by apply (length_varint_bytes_small 7). Qed.

Lemma ConsumeVarint_pos b v n : ConsumeVarint b = (v, n) -> (n < 0 \/ 1 <= n <= Z.of_nat (length b))%Z.
Proof.
  unfold ConsumeVarint. generalize 9. intros more. revert b v n; induction more as [|more IH]; intros [|c b] v n; cbn.
  - intros [= <- <-]. left. done.
  - case_match; intros [= <- <-]; [right; lia|left; done].
  - intros [= <- <-]. left. done.
  - case_match; [intros [= <- <-]; right; lia|]. destruct (varint_value more b) as [v' n'] eqn:E. apply IH in E.
    destruct (Z.ltb_spec n' 0); intros [= <- <-]; [by left|]. right. lia.
Qed.

Lemma ConsumeBytes_framed v s : (N.of_nat (length v) < 9223372036854775808)%N ->
  ConsumeBytes (framed v ++ s) = (v, Z.of_nat (length (framed v))).
Proof.
  intros Hv. unfold ConsumeBytes, framed. rewrite <-app_assoc, ConsumeVarint_varint by (unfold u64_max; lia).
  destruct (Z.ltb_spec (Z.of_nat (length (varint (N.of_nat (length v))))) 0); [lia|].
  rewrite Nat2Z.id, drop_app_length. destruct (N.ltb_spec (N.of_nat (length (v ++ s))) (N.of_nat (length v))) as [Hl|Hl]; [rewrite length_app in Hl; lia|].
  rewrite Nat2N.id, take_app_length, length_app. f_equal. lia.
Qed.

(** ** Buffers ([protobuf_util.go]) *)
Record buffer := mkBuffer { buf_buf : bytes; buf_position : nat }.
Definition newBuffer (b : bytes) : buffer := mkBuffer b 0.
Definition rest (b : buffer) : bytes := drop (buf_position b) (buf_buf b).
Definition advance (b : buffer) (n : Z) : buffer := mkBuffer (buf_buf b) (buf_position b + Z.to_nat n).

Definition DecodeVarint (b : buffer) : outcome (N * buffer) :=
  let '(v, n) := ConsumeVarint (rest b) in
  fail_if (n <? 0)%Z with "error decoding varint with proto.Buffer" ;;
  Ok (v, advance b n).
Definition DecodeRawBytes (b : buffer) : outcome (bytes * buffer) :=
  let '(v, n) := ConsumeBytes (rest b) in
  fail_if (n <? 0)%Z with "error decoding raw bytes with proto.Buffer" ;;
  Ok (v, advance b n).

Lemma DecodeVarint_varint b v s : (v <= u64_max)%N -> rest b = varint v ++ s ->
  exists b', DecodeVarint b = Ok (v, b') /\ rest b' = s.
Proof.
  intros Hv E. unfold DecodeVarint. rewrite E, ConsumeVarint_varint by done.
  destruct (Z.ltb_spec (Z.of_nat (length (varint v))) 0); [lia|]. eexists; split; [done|].
  unfold rest, advance in *. cbn. by rewrite Nat2Z.id, <-drop_drop, E, drop_app_length.
Qed.
Lemma DecodeRawBytes_framed b v s : (N.of_nat (length v) < 9223372036854775808)%N -> rest b = framed v ++ s ->
  exists b', DecodeRawBytes b = Ok (v, b') /\ rest b' = s.
Proof.
  intros Hv E. unfold DecodeRawBytes. rewrite E, ConsumeBytes_framed by done.
  destruct (Z.ltb_spec (Z.of_nat (length (framed v))) 0); [lia|]. eexists; split; [done|].
  unfold rest, advance in *. cbn. by rewrite Nat2Z.id, <-drop_drop, E, drop_app_length.
Qed.

(** Whatever is decoded takes at least a byte. *)
Lemma DecodeRawBytes_shorter b v b' : DecodeRawBytes b = Ok (v, b') -> length (rest b') < length (rest b).
Proof.
  unfold DecodeRawBytes, ConsumeBytes. destruct (ConsumeVarint (rest b)) as [m n] eqn:C. apply ConsumeVarint_pos in C.
  destruct (Z.ltb_spec n 0) as [Hn|Hn]; [intros E; apply guard_err_Ok in E as [G _]; apply Z.ltb_ge in G; lia|].
  destruct (_ <? m)%N eqn:G; [done|]. intros [_ [= <- <-]]%guard_err_Ok. clear G. unfold rest, advance in *. cbn. rewrite !length_drop in *. lia.
Qed.

(** ** Blocks ([block_serialization.go]) *)
Definition addHeaderBytes (blockHeader : option BlockHeader) (buf : bytes) : outcome bytes :=
  header ← deref blockHeader;
  let buf := AppendVarint buf (bh_Number header) in
  let buf := AppendBytes buf (bh_DataHash header) in
  Ok (AppendBytes buf (bh_PreviousHash header)).
Definition addDataBytes (blockData : option (list bytes)) (buf : bytes) : outcome bytes :=
  data ← deref blockData;
  Ok (foldl AppendBytes (AppendVarint buf (N.of_nat (length data))) data).
Definition addMetadataBytes (blockMetadata : option (list bytes)) (buf : bytes) : bytes :=
  let numItems := match blockMetadata with Some metadata => N.of_nat (length metadata) | None => 0%N end in
  let buf := AppendVarint buf numItems in
  match blockMetadata with
  | None => buf
  | Some metadata => foldl AppendBytes buf metadata
  end.
Definition serializeBlock (block : Block) : outcome bytes :=
  buf ← addHeaderBytes (b_Header block) [];
  buf ← addDataBytes (b_Data block) buf;
  Ok (addMetadataBytes (b_Metadata block) buf).

Definition extractHeader (buf : buffer) : outcome (BlockHeader * buffer) :=
  '(number, buf) ← wrap_err "error decoding the block number" (DecodeVarint buf);
  '(dataHash, buf) ← wrap_err "error decoding the data hash" (DecodeRawBytes buf);
  '(previousHash, buf) ← wrap_err "error decoding the previous hash" (DecodeRawBytes buf);
  Ok (mkBlockHeader number previousHash dataHash, buf).

(** The loops over the items: every item takes a byte, so [fuel] bytes are enough for what is left of the buffer. *)
Fixpoint extractItems (e : gerror) (fuel : nat) (numItems : N) (buf : buffer) : outcome (list bytes * buffer) :=
  if (numItems =? 0)%N then Ok ([], buf) else
  match fuel with
  | O => Err e
  | S fuel' =>
      '(item, buf) ← wrap_err e (DecodeRawBytes buf);
      '(items, buf) ← extractItems e fuel' (numItems - 1) buf;
      Ok (item :: items, buf)
  end.
Definition extractData (buf : buffer) : outcome (list bytes * buffer) :=
  '(numItems, buf) ← wrap_err "error decoding the length of block data" (DecodeVarint buf);
  extractItems "error decoding the transaction envelope" (length (rest buf)) numItems buf.
Definition extractMetadata (buf : buffer) : outcome (list bytes * buffer) :=
  '(numItems, buf) ← wrap_err "error decoding the length of block metadata" (DecodeVarint buf);
  extractItems "error decoding the block metadata" (length (rest buf)) numItems buf.
Definition deserializeBlock (serializedBlockBytes : bytes) : outcome Block :=
  '(header, b) ← extractHeader (newBuffer serializedBlockBytes);
  '(data, b) ← extractData b;
  '(metadata, _) ← extractMetadata b;
  Ok (mkBlock (Some header) (Some data) (Some metadata)).
Definition extractSerializedBlockHeader (serializedBlockBytes : bytes) : outcome BlockHeader :=
  '(header, _) ← extractHeader (newBuffer serializedBlockBytes); Ok header.

(** Items that run out of bytes are refused whatever the fuel, so [extractItems] is the loop of the code. *)
Lemma extractItems_fuel e fuel n b : length (rest b) <= fuel ->
  extractItems e fuel n b = extractItems e (length (rest b)) n b.
Proof.
  revert n b. assert (forall f1 f2 n b, length (rest b) <= f1 -> length (rest b) <= f2 -> extractItems e f1 n b = extractItems e f2 n b) as X.
  { induction f1 as [|f1 IH]; intros f2 n b H1 H2.
    - destruct f2 as [|f2]; [done|]. cbn. destruct (n =? 0)%N; [done|]. unfold DecodeRawBytes.
      destruct (rest b); [done|cbn in H1; lia].
    - destruct f2 as [|f2]; cbn.
      { destruct (n =? 0)%N; [done|]. unfold DecodeRawBytes. destruct (rest b); [done|cbn in H2; lia]. }
      destruct (n =? 0)%N; [done|]. destruct (wrap_err e (DecodeRawBytes b)) as [[v b']|?|?] eqn:E; cbn; [|done..].
      apply wrap_err_Ok, DecodeRawBytes_shorter in E. by rewrite (IH f2) by lia. }
  intros n b H. by apply X.
Qed.

(** The bytes of a block that has a header and data. *)
Definition items (l : list bytes) : bytes := varint (N.of_nat (length l)) ++ concat (framed <$> l).
Definition header_bytes (h : BlockHeader) : bytes := varint (bh_Number h) ++ framed (bh_DataHash h) ++ framed (bh_PreviousHash h).
Definition block_bytes (b : Block) : bytes :=
  match b_Header b with Some h => header_bytes h | None => [] end ++
  items (default [] (b_Data b)) ++ items (default [] (b_Metadata b)).
Definition serializable (b : Block) : Prop := is_Some (b_Header b) /\ is_Some (b_Data b).
(** What is read back: a block without metadata comes back with none in it. *)
Definition stored (b : Block) : Block := mkBlock (b_Header b) (b_Data b) (Some (default [] (b_Metadata b))).

Lemma foldl_AppendBytes l buf : foldl AppendBytes buf l = buf ++ concat (framed <$> l).
Proof.
  revert buf; induction l as [|x l IH]; intros buf; cbn; [by rewrite app_nil_r|]. by rewrite IH, AppendBytes_eq, app_assoc.
Qed.

Lemma serializeBlock_bytes b : serializable b -> serializeBlock b = Ok (block_bytes b).
Proof.
  intros [[h Hh] [d Hd]]. unfold serializeBlock, addHeaderBytes, addDataBytes, addMetadataBytes, block_bytes, header_bytes, items.
  rewrite Hh, Hd. cbn -[AppendVarint varint AppendBytes]. f_equal.
  destruct (b_Metadata b) as [m|]; cbn -[AppendVarint varint AppendBytes];
    rewrite ?foldl_AppendBytes, !AppendVarint_eq, !AppendBytes_eq, ?AppendVarint_eq, ?app_nil_r, <-!app_assoc; done.
Qed.
Lemma stored_serializable b : serializable b -> serializable (stored b).
Proof. done. Qed.
Lemma block_bytes_stored b : block_bytes (stored b) = block_bytes b.
Proof. done. Qed.

Lemma extractItems_items e l b s n : rest b = concat (framed <$> l) ++ s -> n = N.of_nat (length l) ->
  (N.of_nat (length (rest b)) < 9223372036854775808)%N ->
  exists b', extractItems e (length (rest b)) n b = Ok (l, b') /\ rest b' = s.
Proof.
  intros E -> Hb. assert (exists f, length l <= f /\ length (rest b) <= f) as (f & Hl & Hf) by (exists (length l + length (rest b)); lia).
  rewrite <-(extractItems_fuel e f) by done. clear Hf. revert b f E Hb Hl; induction l as [|x l IH]; intros b f E Hb Hl; [destruct f; cbn; eauto|].
  destruct f as [|f]; [cbn in Hl; lia|]. cbn [extractItems length]. destruct (N.eqb_spec (N.of_nat (S (length l))) 0); [lia|].
  cbn [fmap list_fmap concat] in E. rewrite <-app_assoc in E.
  destruct (DecodeRawBytes_framed b x _ ltac:(rewrite E in Hb; unfold framed in Hb; rewrite !length_app in Hb; lia) E) as (b1 & E1 & R1).
  rewrite E1. cbn [wrap_err mbind outcome_bind]. destruct (IH b1 f R1) as (b2 & E2 & R2); [|cbn in Hl; lia|].
  - apply DecodeRawBytes_shorter in E1. lia.
  - replace (N.of_nat (S (length l)) - 1)%N with (N.of_nat (length l)) by lia. rewrite E2. cbn. eauto.
Qed.

Lemma length_concat_framed l : length l <= length (concat (framed <$> l)).
Proof.
  induction l as [|x l IH]; [done|]. rewrite fmap_cons. cbn [concat length]. rewrite length_app.
  assert (1 <= length (framed x)); [|lia]. unfold framed. rewrite length_app.
  pose proof (length_varint_bytes 9 (N.of_nat (length x))). unfold varint. lia.
Qed.
Lemma decode_items w e l b s : rest b = items l ++ s -> (N.of_nat (length (rest b)) < 9223372036854775808)%N ->
  exists b1 b', wrap_err w (DecodeVarint b) = Ok (N.of_nat (length l), b1) /\
    extractItems e (length (rest b1)) (N.of_nat (length l)) b1 = Ok (l, b') /\ rest b' = s.
Proof.
  intros E Hb. unfold items in E. rewrite <-app_assoc in E. pose proof (length_concat_framed l) as Hl.
  destruct (DecodeVarint_varint b (N.of_nat (length l)) _ ltac:(rewrite E, !length_app in Hb; unfold u64_max; lia) E) as (b1 & E1 & R1).
  destruct (extractItems_items e l b1 s _ R1 eq_refl) as (b2 & E2 & R2); [rewrite R1; rewrite E, !length_app in Hb; rewrite length_app; lia|].
  exists b1, b2. by rewrite E1, E2.
Qed.

Lemma extractHeader_bytes h b s : (bh_Number h <= u64_max)%N -> rest b = header_bytes h ++ s ->
  (N.of_nat (length (rest b)) < 9223372036854775808)%N -> exists b', extractHeader b = Ok (h, b') /\ rest b' = s.
Proof.
  intros Hn E Hb. unfold header_bytes in E. rewrite <-!app_assoc in E. rewrite E in Hb. unfold framed in Hb. rewrite !length_app in Hb.
  destruct (DecodeVarint_varint b _ _ Hn E) as (b1 & E1 & R1). destruct (DecodeRawBytes_framed b1 (bh_DataHash h) _ ltac:(lia) R1) as (b2 & E2 & R2).
  destruct (DecodeRawBytes_framed b2 (bh_PreviousHash h) _ ltac:(lia) R2) as (b3 & E3 & R3). exists b3. unfold extractHeader. rewrite E1. cbn. rewrite E2. cbn. rewrite E3. by destruct h.
Qed.

Section RoundTrip.
Context (b : Block) (h : BlockHeader).
Hypothesis Hh : b_Header b = Some h.
Hypothesis Hd : is_Some (b_Data b).
Hypothesis Hn : (bh_Number h <= u64_max)%N.
Hypothesis Hlen : (N.of_nat (length (block_bytes b)) < 9223372036854775808)%N.

Lemma extractSerializedBlockHeader_bytes : extractSerializedBlockHeader (block_bytes b) = Ok h.
Proof.
  unfold extractSerializedBlockHeader. destruct (extractHeader_bytes h (newBuffer (block_bytes b)) (items (default [] (b_Data b)) ++ items (default [] (b_Metadata b))) Hn) as (b' & E & _).
  - unfold rest, newBuffer, block_bytes. cbn. by rewrite Hh.
  - exact Hlen.
  - by rewrite E.
Qed.

Lemma deserializeBlock_bytes : deserializeBlock (block_bytes b) = Ok (stored b).
Proof.
  destruct Hd as [d Hd']. unfold deserializeBlock.
  pose proof Hlen as L. unfold block_bytes in L. rewrite Hh, Hd' in L. cbn [from_option id] in L. rewrite !length_app in L.
  destruct (extractHeader_bytes h (newBuffer (block_bytes b)) (items d ++ items (default [] (b_Metadata b))) Hn) as (b1 & E1 & R1).
  { unfold rest, newBuffer, block_bytes. cbn. by rewrite Hh, Hd'. }
  { exact Hlen. }
  rewrite E1. cbn [mbind outcome_bind]. unfold extractData, extractMetadata.
  destruct (decode_items "error decoding the length of block data" "error decoding the transaction envelope" d b1 _ R1) as (b2 & b3 & E2 & E3 & R3);
    [rewrite R1, length_app; lia|]. rewrite E2. cbn [mbind outcome_bind]. rewrite E3. cbn [mbind outcome_bind].
  destruct (decode_items "error decoding the length of block metadata" "error decoding the block metadata" (default [] (b_Metadata b)) b3 []) as (b4 & b5 & E4 & E5 & R5);
    [by rewrite app_nil_r|rewrite R3; lia|]. rewrite E4. cbn [mbind outcome_bind]. rewrite E5. cbn. unfold stored. by rewrite Hh, Hd'.
Qed.
End RoundTrip.

(** ** The order preserving encoding of a number ([util.go]) *)
Fixpoint skip_zeros (b : bytes) : bytes :=
  match b with
  | x00 :: b' => skip_zeros b'
  | _ => b
  end.
(** The number of bytes that are left, then those bytes: leading zeros are dropped, and zero itself has no bytes. *)
Definition EncodeOrderPreservingVarUint64 (number : N) : bytes :=
  let bytes := skip_zeros (be_put 8 number) in
  AppendVarint [] (N.of_nat (length bytes)) ++ bytes.

Definition DecodeOrderPreservingVarUint64 (b : bytes) : outcome (N * Z) :=
  let '(s, numBytes) := ConsumeVarint b in
  let '(s, numBytes) := if (numBytes <? 0)%Z then (0%N, 0%Z) else (s, numBytes) in
  fail_if negb (numBytes =? 1)%Z with "number of consumed bytes from DecodeVarint is invalid" ;;
  fail_if (8 <? s)%N with "decoded size from DecodeVarint is invalid" ;;
  fail_if (Z.of_nat (length b) - 1 <? Z.of_N s)%Z with "decoded size from DecodeVarint is more than available bytes" ;;
  let size := N.to_nat s in
  Ok (be_get (replicate (8 - size) x00 ++ take size (drop 1 b)), (Z.of_nat size + 1)%Z).

Lemma skip_zeros_split b : exists k, b = replicate k x00 ++ skip_zeros b.
Proof.
  induction b as [|c b [k IH]]; [by exists 0|]. destruct (decide (c = x00)) as [->|Hc].
  - exists (S k). cbn. by rewrite <-IH.
  - exists 0. by destruct c.
Qed.
Lemma length_skip_zeros b : length (skip_zeros b) <= length b.
Proof. destruct (skip_zeros_split b) as [k E]. rewrite E at 2. rewrite length_app. lia. Qed.

Lemma DecodeOrderPreserving_Encode number s : (number <= u64_max)%N ->
  DecodeOrderPreservingVarUint64 (EncodeOrderPreservingVarUint64 number ++ s) = Ok (number, Z.of_nat (length (EncodeOrderPreservingVarUint64 number))).
Proof.
  intros Hn. unfold EncodeOrderPreservingVarUint64. rewrite AppendVarint_eq. cbn [app].
  destruct (skip_zeros_split (be_put 8 number)) as [k E]. set (t := skip_zeros (be_put 8 number)) in *.
  assert (length t <= 8) as Ht by (etrans; [apply length_skip_zeros|by rewrite length_be_put]).
  assert (k = 8 - length t) as -> by (apply (f_equal length) in E; rewrite length_be_put, length_app, length_replicate in E; lia).
  assert (varint (N.of_nat (length t)) = [byte_of_N (N.of_nat (length t))]) as V.
  { unfold varint. cbn [varint_bytes]. destruct (N.ltb_spec (N.of_nat (length t)) 128); [done|lia]. }
  unfold DecodeOrderPreservingVarUint64. rewrite <-app_assoc, ConsumeVarint_varint by (unfold u64_max; lia). rewrite V.
  set (l := N.of_nat (length t)) in *. assert (N.to_nat l = length t) as El by (unfold l; lia). assert (l <= 8)%N by lia.
  change (Z.of_nat (length [byte_of_N l])) with 1%Z. change (1 <? 0)%Z with false. cbn beta iota. change (negb (1 =? 1)%Z) with false.
  cbn [length app guard_err drop].
  destruct (N.ltb_spec 8 l); [lia|]. cbn [guard_err].
  destruct (Z.ltb_spec (Z.of_nat (S (length (t ++ s))) - 1) (Z.of_N l)) as [Hl|Hl]; [rewrite length_app in Hl; lia|].
  cbn [guard_err]. rewrite El, drop_0, take_app_length, <-E, be_get_put8 by done. do 2 f_equal. lia.
Qed.
Lemma EncodeOrderPreserving_inj m n : (m <= u64_max)%N -> (n <= u64_max)%N ->
  EncodeOrderPreservingVarUint64 m = EncodeOrderPreservingVarUint64 n -> m = n.
Proof.
  intros Hm Hn E. pose proof (DecodeOrderPreserving_Encode m [] Hm) as A. pose proof (DecodeOrderPreserving_Encode n [] Hn) as B.
  rewrite E in A. rewrite A in B. congruence.
Qed.

(** [bytes.Compare] *)
Fixpoint bytes_compare (a b : bytes) : comparison :=
  match a, b with
  | [], [] => Eq
  | [], _ => Lt
  | _, [] => Gt
  | x :: a', y :: b' => match (Byte.to_N x ?= Byte.to_N y)%N with Eq => bytes_compare a' b' | c => c end
  end.
Lemma be_get_cons x bs : be_get (x :: bs) = (Byte.to_N x * 256 ^ N.of_nat (length bs) + be_get bs)%N.
Proof.
  induction bs as [|c bs IH] using rev_ind; [cbn; lia|]. rewrite app_comm_cons, !be_get_snoc, IH, length_app, Nat2N.inj_add. cbn [length N.of_nat Pos.of_succ_nat].
  rewrite N.pow_add_r, N.pow_1_r. lia.
Qed.
Lemma bytes_compare_get a b : length a = length b -> bytes_compare a b = (be_get a ?= be_get b)%N.
Proof.
  revert b; induction a as [|x a IH]; intros [|y b] E; try done. injection E as E. cbn [bytes_compare]. rewrite !be_get_cons, (IH b E), E.
  pose proof (be_get_bound a) as Ba. pose proof (be_get_bound b) as Bb. rewrite E in Ba. set (p := (256 ^ N.of_nat (length b))%N) in *.
  destruct (N.compare_spec (Byte.to_N x) (Byte.to_N y)) as [->|Hlt|Hgt].
  - destruct (N.compare_spec (be_get a) (be_get b)); symmetry; [apply N.compare_eq_iff|apply N.compare_lt_iff|apply N.compare_gt_iff]; lia.
  - symmetry. apply N.compare_lt_iff. nia.
  - symmetry. apply N.compare_gt_iff. nia.
Qed.
Lemma be_get_zeros k bs : be_get (replicate k x00 ++ bs) = be_get bs.
Proof. induction k as [|k IH]; [done|]. cbn [replicate app]. rewrite be_get_cons, IH. cbn. lia. Qed.
Lemma skip_zeros_head bs x t : skip_zeros bs = x :: t -> x <> x00.
Proof. induction bs as [|c bs IH]; cbn; [done|]. destruct c; try (intros [= <- <-]; done). done. Qed.
Lemma skip_zeros_low bs : skip_zeros bs <> [] -> (256 ^ N.of_nat (length (skip_zeros bs) - 1) <= be_get bs)%N.
Proof.
  intros Hne. destruct (skip_zeros_split bs) as [k E]. destruct (skip_zeros bs) as [|x t] eqn:Es; [done|]. apply skip_zeros_head in Es. rewrite E, be_get_zeros, be_get_cons.
  cbn [length]. rewrite Nat.sub_1_r. cbn [Nat.pred]. assert (Byte.to_N x <> 0)%N by (intros X; apply Es, to_N_inj; done). nia.
Qed.

(** The encodings compare as the numbers do. *)
Lemma Encode_compare m n : (m <= u64_max)%N -> (n <= u64_max)%N ->
  bytes_compare (EncodeOrderPreservingVarUint64 m) (EncodeOrderPreservingVarUint64 n) = (m ?= n)%N.
Proof.
  assert (forall m n, (m <= u64_max)%N -> (n <= u64_max)%N -> length (skip_zeros (be_put 8 m)) < length (skip_zeros (be_put 8 n)) -> (m < n)%N) as Hlt.
  { intros m' n' Hm Hn Hl. rewrite <-(be_get_put8 m' Hm), <-(be_get_put8 n' Hn). assert (skip_zeros (be_put 8 n') <> []) as Hne by (intros X; rewrite X in Hl; cbn in Hl; lia).
    apply skip_zeros_low in Hne. destruct (skip_zeros_split (be_put 8 m')) as [k E]. rewrite E, be_get_zeros.
    eapply N.lt_le_trans; [apply be_get_bound|]. etrans; [|exact Hne]. apply N.pow_le_mono_r; lia. }
  intros Hm Hn. pose proof (Hlt m n Hm Hn) as H1. pose proof (Hlt n m Hn Hm) as H2. clear Hlt. unfold EncodeOrderPreservingVarUint64. rewrite !AppendVarint_eq. cbn [app].
  assert (forall k, length (skip_zeros (be_put 8 k)) <= 8) as H8 by (intros k; etrans; [apply length_skip_zeros|by rewrite length_be_put]).
  assert (forall k, varint (N.of_nat (length (skip_zeros (be_put 8 k)))) = [byte_of_N (N.of_nat (length (skip_zeros (be_put 8 k))))]) as V.
  { intros k. specialize (H8 k). unfold varint. cbn [varint_bytes]. destruct (N.ltb_spec (N.of_nat (length (skip_zeros (be_put 8 k)))) 128); [done|lia]. }
  rewrite !V. cbn [app bytes_compare]. rewrite !to_N_byte_of_N, !N.mod_small by (pose proof (H8 m); pose proof (H8 n); lia).
  destruct (skip_zeros_split (be_put 8 m)) as [km Em]. destruct (skip_zeros_split (be_put 8 n)) as [kn En].
  assert (be_get (skip_zeros (be_put 8 m)) = m) as Gm by (rewrite <-(be_get_zeros km), <-Em; by apply be_get_put8).
  assert (be_get (skip_zeros (be_put 8 n)) = n) as Gn by (rewrite <-(be_get_zeros kn), <-En; by apply be_get_put8).
  destruct (N.compare_spec (N.of_nat (length (skip_zeros (be_put 8 m)))) (N.of_nat (length (skip_zeros (be_put 8 n))))) as [E|E|E].
  - rewrite bytes_compare_get, Gm, Gn; [done|lia].
  - symmetry. apply N.compare_lt_iff, H1. lia.
  - symmetry. apply N.compare_gt_iff, H2. lia.
Qed.

(** ** The summary of the block files ([blockfile_mgr.go]) *)
Record blockfilesInfo := mkInfo { latestFileNumber : Z; latestFileSize : Z; noBlockFiles : bool; lastPersistedBlock : N }.

Definition blockfilesInfo_marshal (i : blockfilesInfo) : bytes :=
  let buf := AppendVarint [] (u64_of_int (latestFileNumber i)) in
  let buf := AppendVarint buf (u64_of_int (latestFileSize i)) in
  let buf := AppendVarint buf (lastPersistedBlock i) in
  let noBlockFilesMarker := if noBlockFiles i then 1%N else 0%N in
  AppendVarint buf noBlockFilesMarker.

(** [val, n := protowire.ConsumeVarint(b[position:])], the error if [n < 0], and what follows. *)
Definition parseVarint (b : bytes) : outcome (N * bytes) :=
  let '(val, n) := ConsumeVarint b in
  fail_if (n <? 0)%Z with "parse error" ;;
  Ok (val, drop (Z.to_nat n) b).

Definition blockfilesInfo_unmarshal (b : bytes) : outcome blockfilesInfo :=
  '(val, b) ← parseVarint b;
  let fileNumber := int_of_u64 val in
  '(val, b) ← parseVarint b;
  let fileSize := int_of_u64 val in
  '(lastBlock, b) ← parseVarint b;
  '(noBlockFilesMarker, _) ← parseVarint b;
  Ok (mkInfo fileNumber fileSize (noBlockFilesMarker =? 1)%N lastBlock).

(** ** Locations of blocks ([blockindex.go]) *)
Record fileLocPointer := mkLoc { fileSuffixNum : Z; offset : Z; bytesLength : Z }.
Definition fileLocPointer_marshal (flp : fileLocPointer) : bytes :=
  let buf := AppendVarint [] (u64_of_int (fileSuffixNum flp)) in
  let buf := AppendVarint buf (u64_of_int (offset flp)) in
  AppendVarint buf (u64_of_int (bytesLength flp)).
Definition fileLocPointer_unmarshal (b : bytes) : outcome fileLocPointer :=
  let e := "unexpected error while unmarshalling bytes into fileLocPointer" in
  '(i, b) ← wrap_err e (parseVarint b);
  let suffix := int_of_u64 i in
  '(i, b) ← wrap_err e (parseVarint b);
  let off := int_of_u64 i in
  '(i, _) ← wrap_err e (parseVarint b);
  Ok (mkLoc suffix off (int_of_u64 i)).

Definition blockNumIdxKeyPrefix : byte := "n".
Definition constructBlockNumKey (blockNum : N) : bytes := [blockNumIdxKeyPrefix] ++ EncodeOrderPreservingVarUint64 blockNum.
Definition encodeBlockNum (blockNum : N) : bytes := AppendVarint [] blockNum.
Definition decodeBlockNum (blockNumBytes : bytes) : N :=
  let '(blockNum, num) := ConsumeVarint blockNumBytes in
  if (num <? 0)%Z then 0%N else blockNum.

(** ** The record of pruning ([prune_info.go]) *)
Record pruneInfo := mkPrune { firstReadableBlockNum : N; firstStoredBlockfileNum : Z }.
Definition pruneInfo_marshal (i : pruneInfo) : bytes :=
  let buf := AppendVarint [] (firstReadableBlockNum i) in
  AppendVarint buf (u64_of_int (firstStoredBlockfileNum i)).
(** A record without the number of a file is one of an earlier format. *)
Definition pruneInfo_unmarshal (b : bytes) : outcome pruneInfo :=
  '(val, b) ← parseVarint b;
  let first := val in
  if (length b =? 0)%nat then Ok (mkPrune first 0) else
  '(val, _) ← parseVarint b;
  Ok (mkPrune first (int_of_u64 val)).

Lemma parseVarint_varint v s : (v <= u64_max)%N -> parseVarint (varint v ++ s) = Ok (v, s).
Proof.
  intros Hv. unfold parseVarint. rewrite ConsumeVarint_varint by done. destruct (Z.ltb_spec (Z.of_nat (length (varint v))) 0); [lia|].
  cbn. by rewrite Nat2Z.id, drop_app_length.
Qed.
Lemma parseVarint_varint' v : (v <= u64_max)%N -> parseVarint (varint v) = Ok (v, []).
Proof. intros. rewrite <-(app_nil_r (varint v)) at 1. by apply parseVarint_varint. Qed.

Definition is_int (z : Z) : Prop := (- 9223372036854775808 <= z <= max_int64)%Z.

(** Runs the parser over what the marshaller wrote. *)
Ltac parse_all :=
  rewrite ?AppendVarint_eq; cbn [app]; rewrite <-?app_assoc;
  repeat first
    [ rewrite parseVarint_varint by first [apply u64_of_int_bound | assumption | (unfold u64_max; lia)]; cbn [mbind outcome_bind wrap_err]
    | rewrite parseVarint_varint' by first [apply u64_of_int_bound | assumption | (unfold u64_max; lia)]; cbn [mbind outcome_bind wrap_err] ];
  rewrite ?int_of_u64_of_int by assumption.

Lemma blockfilesInfo_roundtrip i : is_int (latestFileNumber i) -> is_int (latestFileSize i) -> (lastPersistedBlock i <= u64_max)%N ->
  blockfilesInfo_unmarshal (blockfilesInfo_marshal i) = Ok i.
Proof.
  intros H1 H2 H3. unfold blockfilesInfo_unmarshal, blockfilesInfo_marshal.
  destruct i as [n s [] l]; cbn [latestFileNumber latestFileSize noBlockFiles lastPersistedBlock] in *; parse_all; done.
Qed.
Lemma fileLocPointer_roundtrip l : is_int (fileSuffixNum l) -> is_int (offset l) -> is_int (bytesLength l) ->
  fileLocPointer_unmarshal (fileLocPointer_marshal l) = Ok l.
Proof.
  intros H1 H2 H3. unfold fileLocPointer_unmarshal, fileLocPointer_marshal. destruct l; cbn [fileSuffixNum offset bytesLength] in *. parse_all. done.
Qed.
Lemma pruneInfo_roundtrip i : (firstReadableBlockNum i <= u64_max)%N -> is_int (firstStoredBlockfileNum i) ->
  pruneInfo_unmarshal (pruneInfo_marshal i) = Ok i.
Proof.
  intros H1 H2. unfold pruneInfo_unmarshal, pruneInfo_marshal. destruct i as [r f]; cbn [firstReadableBlockNum firstStoredBlockfileNum] in *.
  rewrite !AppendVarint_eq. cbn [app]. rewrite parseVarint_varint by done. cbn [mbind outcome_bind].
  destruct (varint (u64_of_int f)) eqn:E; [by apply varint_nonempty in E|]. cbn [length Nat.eqb]. rewrite <-E. parse_all. done.
Qed.
Lemma decode_encodeBlockNum n : (n <= u64_max)%N -> decodeBlockNum (encodeBlockNum n) = n.
Proof.
  intros Hn. unfold decodeBlockNum, encodeBlockNum. rewrite AppendVarint_eq. cbn [app]. rewrite <-(app_nil_r (varint n)), ConsumeVarint_varint by done.
  by destruct (Z.ltb_spec (Z.of_nat (length (varint n))) 0); [lia|].
Qed.
Lemma constructBlockNumKey_eq n : constructBlockNumKey n = blockNumIdxKeyPrefix :: EncodeOrderPreservingVarUint64 n.
Proof. done. Qed.
Lemma bytes_compare_same x a b : bytes_compare (x :: a) (x :: b) = bytes_compare a b.
Proof. cbn. by rewrite N.compare_refl. Qed.
Lemma constructBlockNumKey_inj m n : (m <= u64_max)%N -> (n <= u64_max)%N -> constructBlockNumKey m = constructBlockNumKey n -> m = n.
Proof. intros Hm Hn E. apply (app_inv_head [blockNumIdxKeyPrefix]) in E. by apply EncodeOrderPreserving_inj. Qed.

#[global] Arguments AppendVarint : simpl never.
#[global] Arguments varint : simpl never.
#[global] Arguments framed : simpl never.
#[global] Arguments block_bytes : simpl never.
#[global] Arguments EncodeOrderPreservingVarUint64 : simpl never.
#[global] Arguments constructBlockNumKey : simpl never.
#[global] Arguments encodeBlockNum : simpl never.
#[global] Arguments blockfilesInfo_marshal : simpl never.
#[global] Arguments fileLocPointer_marshal : simpl never.
#[global] Arguments pruneInfo_marshal : simpl never.
