(* ===== verification/BlockFiles.v ===== *)
(** * The block store on disk

    [src/common/ledger/blkstorage]: blocks are appended to numbered files ([blockfile_mgr.go], [blockfile_rw.go], [blockfile_helper.go],
    [block_stream.go]), a database holds a summary of the files and an index of the blocks ([blockindex.go]), whole files are removed from below
    ([prune_mgr.go], [prune_store.go]), and the latest blocks are cached ([cache.go]).

    The disk is the block files by their numbers, the database and the records of pruning by their sequence numbers. An operation is a function of
    the faults it meets and of the store, the disk together with the manager in memory; beside its result, it returns every disk it went
    through, which are those a crash may leave behind. An append goes through every prefix of what it appends. A write to the database and the creation,
    truncation, renaming or removal of a file takes effect at once. *)
From stdpp Require Import gmap sets sorting.
From S2P Require Import Prelude Types Events Blocks Wire.
From Stdlib Require Import NArith ZArith Lia.

Record Disk := mkDisk { d_files : gmap Z bytes; d_db : gmap bytes bytes; d_prune : gmap N bytes }.
Definition empty_disk : Disk := mkDisk ∅ ∅ ∅.

Record BlockchainInfo := mkBCInfo { bci_Height : N; bci_CurrentBlockHash : bytes; bci_PreviousBlockHash : bytes }.

Record cache := mkCache { c_cache : gmap N (Block * Z); c_sizeBytes : Z; c_maxSeq : N; c_maxSizeBytes : Z }.
Definition newCache (maxSizeBytes : Z) : cache := mkCache ∅ 0 0 maxSizeBytes.

(** The manager: the size limit of its configuration, the summary of the files, the number of the file the writer is open on, the chain information, the cache, and of
    the pruner the record in force and its sequence number. *)
Record blockfileMgr := mkMgr {
  m_maxBlockfileSize : Z;
  m_blockfilesInfo : blockfilesInfo;
  m_currentFileWriter : Z;
  m_bcInfo : BlockchainInfo;
  m_cache : cache;
  m_pruneInfo : pruneInfo;
  m_infoSeq : N
}.
Definition set_blockfilesInfo (i : blockfilesInfo) (m : blockfileMgr) : blockfileMgr :=
  mkMgr (m_maxBlockfileSize m) i (m_currentFileWriter m) (m_bcInfo m) (m_cache m) (m_pruneInfo m) (m_infoSeq m).
Definition set_writer (w : Z) (m : blockfileMgr) : blockfileMgr :=
  mkMgr (m_maxBlockfileSize m) (m_blockfilesInfo m) w (m_bcInfo m) (m_cache m) (m_pruneInfo m) (m_infoSeq m).
Definition set_bcInfo (i : BlockchainInfo) (m : blockfileMgr) : blockfileMgr :=
  mkMgr (m_maxBlockfileSize m) (m_blockfilesInfo m) (m_currentFileWriter m) i (m_cache m) (m_pruneInfo m) (m_infoSeq m).
Definition set_cache (c : cache) (m : blockfileMgr) : blockfileMgr :=
  mkMgr (m_maxBlockfileSize m) (m_blockfilesInfo m) (m_currentFileWriter m) (m_bcInfo m) c (m_pruneInfo m) (m_infoSeq m).
Definition set_prune (i : pruneInfo) (seq : N) (m : blockfileMgr) : blockfileMgr :=
  mkMgr (m_maxBlockfileSize m) (m_blockfilesInfo m) (m_currentFileWriter m) (m_bcInfo m) (m_cache m) i seq.

Record Store := mkStore { st_disk : Disk; st_mgr : blockfileMgr }.

(** ** Operations, their faults and the disks they go through *)

(** Which calls of the operating system fail: a write without or with sync after so many bytes, the sync itself, a truncation, a write to the database without or with sync, a batch. *)
Record Faults := mkFaults { f_append : bool -> option nat; f_sync : bool; f_truncate : bool; f_put : bool -> bool; f_write : bool }.
Definition no_faults : Faults := mkFaults (fun _ => None) false false (fun _ => false) false.

Definition IO (A : Type) : Type := Faults -> Store -> list Disk * (Store * outcome A).

#[export] Instance IO_ret : MRet IO := fun _ a _ s => ([], (s, Ok a)).
#[export] Instance IO_bind : MBind IO := fun _ _ f m fl s =>
  let '(l, (s', o)) := m fl s in
  match o with
  | Ok a => let '(l', r) := f a fl s' in (l ++ l', r)
  | Err e => (l, (s', Err e))
  | Panic e => (l, (s', Panic e))
  end.
Definition lift {A} (o : outcome A) : IO A := fun _ s => ([], (s, o)).
Definition get_store : IO Store := fun _ s => ([], (s, Ok s)).
Definition get_mgr : IO blockfileMgr := fun _ s => ([], (s, Ok (st_mgr s))).
Definition get_disk : IO Disk := fun _ s => ([], (s, Ok (st_disk s))).
Definition modify_mgr (f : blockfileMgr -> blockfileMgr) : IO unit := fun _ s => ([], (mkStore (st_disk s) (f (st_mgr s)), Ok tt)).
(** The disk changes, through [via] and to [d]. *)
Definition set_disk (via : list Disk) (d : Disk) : IO unit := fun _ s => (via ++ [d], (mkStore d (st_mgr s), Ok tt)).
Definition when (b : bool) (m : IO unit) : IO unit := if b then m else mret ().
(** [m], and [h] if it returns an error. *)
Definition catch {A} (m : IO A) (h : gerror -> IO A) : IO A := fun fl s =>
  let '(l, (s', o)) := m fl s in
  match o with
  | Err e => let '(l', r) := h e fl s' in (l ++ l', r)
  | _ => (l, (s', o))
  end.
(** A deferred call, which cannot fail but panic, runs when the function returns. *)
Definition deferred {A} (d : IO unit) (m : IO A) : IO A := fun fl s =>
  let '(l, (s', o)) := m fl s in
  let '(l', (s'', o')) := d fl s' in
  (l ++ l', (s'', match o' with Panic e => Panic e | _ => o end)).
Definition io_panic {A} (m : IO A) : IO A := fun fl s =>
  let '(l, (s', o)) := m fl s in (l, (s', or_panic o)).

Definition set_file (n : Z) (content : bytes) (d : Disk) : Disk := mkDisk (<[n := content]> (d_files d)) (d_db d) (d_prune d).
Definition file_size (d : Disk) (n : Z) : Z := Z.of_nat (length (default [] (d_files d !! n))).

(** *** The writer ([blockfile_rw.go]) *)
Definition newBlockfileWriter (fileNum : Z) : IO Z :=
  d ← get_disk;
  match d_files d !! fileNum with
  | Some _ => mret fileNum
  | None => set_disk [] (set_file fileNum [] d) ;; mret fileNum
  end.

(** The error of [file.Truncate] is dropped. *)
Definition truncateFile (targetSize : Z) : IO unit := fun fl s =>
  let w := m_currentFileWriter (st_mgr s) in
  let content := default [] (d_files (st_disk s) !! w) in
  if (targetSize <? Z.of_nat (length content))%Z && negb (f_truncate fl)
  then set_disk [] (set_file w (take (Z.to_nat targetSize) content) (st_disk s)) fl s
  else ([], (s, Ok tt)).

Definition prefixes (b : bytes) : list bytes := (fun i => take i b) <$> seq 0 (length b).
Definition file_append (b : bytes) : IO unit :=
  s ← get_store;
  let w := m_currentFileWriter (st_mgr s) in
  let content := default [] (d_files (st_disk s) !! w) in
  set_disk ((fun p => set_file w (content ++ p) (st_disk s)) <$> prefixes b) (set_file w (content ++ b) (st_disk s)).
Definition append (b : bytes) (sync : bool) : IO unit := fun fl =>
  match f_append fl sync with
  | Some n => (file_append (take n b) ;; lift (Err "write error")) fl
  | None => (file_append b ;; lift (if sync && f_sync fl then Err "sync error" else Ok tt)) fl
  end.

(** *** The database *)
Definition blkMgrInfoKey : bytes := String.list_byte_of_string "blkMgrInfo".
Definition indexSavePointKey : bytes := String.list_byte_of_string "indexCheckpointKey".
#[global] Arguments blkMgrInfoKey : simpl never.
#[global] Arguments indexSavePointKey : simpl never.
Definition set_db (db : gmap bytes bytes) (d : Disk) : Disk := mkDisk (d_files d) db (d_prune d).

Definition loadBlkfilesInfo (d : Disk) : outcome (option blockfilesInfo) :=
  match d_db d !! blkMgrInfoKey with
  | None => Ok None
  | Some b => i ← blockfilesInfo_unmarshal b; Ok (Some i)
  end.
Definition saveBlkfilesInfo (i : blockfilesInfo) (sync : bool) : IO unit := fun fl =>
  if f_put fl sync then lift (Err "database error") fl else
  (d ← get_disk; set_disk [] (set_db (<[blkMgrInfoKey := blockfilesInfo_marshal i]> (d_db d)) d)) fl.

Definition getLastBlockIndexed (d : Disk) : option N := decodeBlockNum <$> d_db d !! indexSavePointKey.
Definition indexBlock (blockNum : N) (flp : fileLocPointer) : IO unit := fun fl =>
  if f_write fl then lift (Err "database error") fl else
  (d ← get_disk;
   set_disk [] (set_db (<[indexSavePointKey := encodeBlockNum blockNum]> (<[constructBlockNumKey blockNum := fileLocPointer_marshal flp]> (d_db d))) d)) fl.
Definition getBlockLocByBlockNum (d : Disk) (blockNum : N) : outcome fileLocPointer :=
  match d_db d !! constructBlockNumKey blockNum with
  | None => Err "no such block number in index"
  | Some b => fileLocPointer_unmarshal b
  end.

(** ** Reading block files ([block_stream.go]) *)
Definition ErrUnexpectedEndOfBlockfile : gerror := "unexpected end of blockfile".

(** A stream is open on the content of its file. *)
Record blockfileStream := mkStream { s_fileNum : Z; s_file : bytes; s_currentOffset : Z }.
Record blockPlacementInfo := mkPlacement { bp_fileNum : Z; bp_blockStartOffset : Z; bp_blockBytesOffset : Z }.

Definition newBlockfileStream (d : Disk) (fileNum : Z) (startOffset : Z) : outcome blockfileStream :=
  content ← of_option "error opening block file" (d_files d !! fileNum);
  fail_if (startOffset <? 0)%Z with "error seeking block file" ;;
  Ok (mkStream fileNum content startOffset).

(** The bytes of the next block and where it is, or [None] at the end of the file. *)
Definition blockfileStream_next (s : blockfileStream) : outcome (option (bytes * blockPlacementInfo) * blockfileStream) :=
  let size := Z.of_nat (length (s_file s)) in
  if (s_currentOffset s =? size)%Z then Ok (None, s) else
  let remainingBytes := (size - s_currentOffset s)%Z in
  let moreContentAvailable := (8 <=? remainingBytes)%Z in
  let peekBytes := if (remainingBytes <? 8)%Z then remainingBytes else 8%Z in
  fail_if (peekBytes <? 0)%Z with "error peeking bytes from block file" ;;
  let reader := drop (Z.to_nat (s_currentOffset s)) (s_file s) in
  let lenBytes := take (Z.to_nat peekBytes) reader in
  let '(length, n) := ConsumeVarint lenBytes in
  if (n <=? 0)%Z then (if moreContentAvailable then Panic "Error in decoding varint bytes" else Err ErrUnexpectedEndOfBlockfile) else
  let bytesExpected := i64 (n + int_of_u64 length) in
  fail_if (remainingBytes <? bytesExpected)%Z with ErrUnexpectedEndOfBlockfile ;;
  let blockBytes := take (N.to_nat length) (drop (Z.to_nat n) reader) in
  let placement := mkPlacement (s_fileNum s) (s_currentOffset s) (s_currentOffset s + n) in
  Ok (Some (blockBytes, placement), mkStream (s_fileNum s) (s_file s) (s_currentOffset s + (n + int_of_u64 length))).
Definition blockfileStream_nextBlockBytes (s : blockfileStream) : outcome (option bytes * blockfileStream) :=
  '(r, s') ← blockfileStream_next s; Ok (option_map fst r, s').

(** A stream over the files up to [bs_endFileNum]. *)
Record blockStream := mkBlockStream { bs_endFileNum : Z; bs_currentFileStream : blockfileStream }.
Definition newBlockStream (d : Disk) (startFileNum startOffset endFileNum : Z) : outcome blockStream :=
  s ← newBlockfileStream d startFileNum startOffset; Ok (mkBlockStream endFileNum s).
Definition moveToNextBlockfileStream (d : Disk) (s : blockStream) : outcome blockStream :=
  next ← newBlockfileStream d (s_fileNum (bs_currentFileStream s) + 1) 0; Ok (mkBlockStream (bs_endFileNum s) next).
(** Every call of itself is on the next file, so the number of files up to the last one is enough fuel. *)
Fixpoint blockStream_next (d : Disk) (fuel : nat) (s : blockStream) : outcome (option (bytes * blockPlacementInfo) * blockStream) :=
  '(r, fs) ← blockfileStream_next (bs_currentFileStream s);
  let s := mkBlockStream (bs_endFileNum s) fs in
  match r, fuel with
  | Some _, _ => Ok (r, s)
  | None, O => Ok (None, s)
  | None, S fuel' =>
      if (s_fileNum fs <? bs_endFileNum s)%Z || (bs_endFileNum s <? 0)%Z
      then s ← moveToNextBlockfileStream d s; blockStream_next d fuel' s
      else Ok (None, s)
  end.
Definition files_ahead (s : blockStream) : nat := Z.to_nat (bs_endFileNum s - s_fileNum (bs_currentFileStream s)).
Definition nextBlockBytesAndPlacementInfo (d : Disk) (s : blockStream) : outcome (option (bytes * blockPlacementInfo) * blockStream) :=
  blockStream_next d (files_ahead s) s.

(** ** Scanning the files ([blockfile_helper.go], [blockfile_mgr.go]) *)

(** A block takes at least a byte, so the size of the file is enough fuel. *)
Fixpoint scan_loop (fuel : nat) (s : blockfileStream) (lastBlockBytes : option bytes) (numBlocks : N) : outcome (option bytes * Z * N) :=
  match blockfileStream_nextBlockBytes s with
  | Ok (Some blockBytes, s') =>
      match fuel with
      | O => Err "out of fuel"
      | S fuel' => scan_loop fuel' s' (Some blockBytes) (numBlocks + 1)
      end
  | Ok (None, s') => Ok (lastBlockBytes, s_currentOffset s', numBlocks)
  | Err e => if bool_decide (e = ErrUnexpectedEndOfBlockfile) then Ok (lastBlockBytes, s_currentOffset s, numBlocks) else Err e
  | Panic e => Panic e
  end.
Definition scanForLastCompleteBlock (d : Disk) (fileNum : Z) (startingOffset : Z) : outcome (option bytes * Z * N) :=
  s ← newBlockfileStream d fileNum startingOffset;
  scan_loop (length (s_file s)) s None 0.

Definition file_numbers (d : Disk) : list Z := (map_to_list (d_files d)).*1.
Definition retrieveLastFileSuffix (d : Disk) : Z := foldr Z.max (-1)%Z (file_numbers d).
Definition blockfileNumsIn (d : Disk) : list Z := merge_sort Z.le (file_numbers d).
(** Nil bytes, at the end of an empty file, have no header. *)
Definition retrieveFirstBlockNumFromFile (d : Disk) (fileNum : Z) : outcome N :=
  s ← newBlockfileStream d fileNum 0;
  '(bb, _) ← blockfileStream_nextBlockBytes s;
  h ← extractSerializedBlockHeader (default [] bb);
  Ok (bh_Number h).
Definition getFileInfoOrPanic (d : Disk) (fileNum : Z) : outcome unit :=
  match d_files d !! fileNum with Some _ => Ok tt | None => Panic "error retrieving file info" end.

Definition constructBlockfilesInfo (d : Disk) : outcome blockfilesInfo :=
  let lastFileNum := retrieveLastFileSuffix d in
  if (lastFileNum =? -1)%Z then Ok (mkInfo 0 0 true 0) else
  getFileInfoOrPanic d lastFileNum ;;
  '(lastBlockBytes, endOffsetLastBlock, numBlocksInFile) ← scanForLastCompleteBlock d lastFileNum 0;
  lastBlockBytes ←
    (if (numBlocksInFile =? 0)%N && (0 <? lastFileNum)%Z
     then getFileInfoOrPanic d (lastFileNum - 1) ;;
          '(lastBlockBytes, _, _) ← scanForLastCompleteBlock d (lastFileNum - 1) 0; Ok lastBlockBytes
     else Ok lastBlockBytes);
  lastBlockNumber ←
    match lastBlockBytes with
    | Some bs => lastBlock ← deserializeBlock bs; h ← deref (b_Header lastBlock); Ok (bh_Number h)
    | None => Ok 0%N
    end;
  Ok (mkInfo lastFileNum endOffsetLastBlock ((lastFileNum =? 0)%Z && (numBlocksInFile =? 0)%N) lastBlockNumber).

Definition syncBlockfilesInfoFromFS (d : Disk) (i : blockfilesInfo) : outcome blockfilesInfo :=
  match d_files d !! latestFileNumber i with
  | None => Ok i
  | Some content =>
      if (Z.of_nat (length content) =? latestFileSize i)%Z then Ok i else
      '(_, endOffsetLastBlock, numBlocks) ← or_panic (scanForLastCompleteBlock d (latestFileNumber i) (latestFileSize i));
      if (numBlocks =? 0)%N then Ok (mkInfo (latestFileNumber i) endOffsetLastBlock (noBlockFiles i) (lastPersistedBlock i)) else
      let last := if noBlockFiles i then (numBlocks - 1)%N else u64 (lastPersistedBlock i + numBlocks) in
      Ok (mkInfo (latestFileNumber i) endOffsetLastBlock false last)
  end.

(** ** The record of pruning on disk ([prune_store.go]) *)
Definition set_pruneFiles (p : gmap N bytes) (d : Disk) : Disk := mkDisk (d_files d) (d_db d) p.
Definition seqs (d : Disk) : list N := merge_sort N.le (map_to_list (d_prune d)).*1.
Fixpoint drop_seqs (l : list N) : IO unit :=
  match l with
  | [] => mret ()
  | seq :: l' => d ← get_disk; set_disk [] (set_pruneFiles (delete seq (d_prune d)) d) ;; drop_seqs l'
  end.

(** The latest record and its sequence number; what it supersedes is removed, once it is read. *)
Definition getInfo : IO (pruneInfo * N) :=
  d ← get_disk;
  match last (seqs d) with
  | None => mret (mkPrune 0 0, 0%N)
  | Some latest =>
      b ← lift (of_option "error reading prune info" (d_prune d !! latest));
      info ← lift (wrap_err "error unmarshalling prune info" (pruneInfo_unmarshal b));
      drop_seqs (removelast (seqs d)) ;;
      mret (info, latest)
  end.

(** The sequence number moves on with the file, before the superseded one is removed. *)
Definition saveInfo (info : pruneInfo) : IO unit :=
  s ← get_store;
  let next := u64_incr (m_infoSeq (st_mgr s)) in
  let superseded := m_infoSeq (st_mgr s) in
  let d := st_disk s in
  match d_prune d !! next with
  | Some _ => lift (Err "error saving prune info")
  | None =>
      set_disk [] (set_pruneFiles (<[next := pruneInfo_marshal info]> (d_prune d)) d) ;;
      modify_mgr (fun m => set_prune (m_pruneInfo m) next m) ;;
      when (negb (superseded =? 0)%N) (drop_seqs [superseded])
  end.
Definition setInfo (info : pruneInfo) : IO unit :=
  saveInfo info ;; modify_mgr (fun m => set_prune info (m_infoSeq m) m).

(** ** Removing block files ([prune_mgr.go]) *)
Definition ErrPruned : gerror := "block has been pruned".

Definition removeBlockfile (fileNum : Z) : IO unit :=
  d ← get_disk; set_disk [] (mkDisk (delete fileNum (d_files d)) (d_db d) (d_prune d)).
Fixpoint sweep (below : Z) (nums : list Z) : IO unit :=
  match nums with
  | [] => mret ()
  | n :: nums' => if (below <=? n)%Z then mret () else removeBlockfile n ;; sweep below nums'
  end.
Definition sweepOrphans (below : Z) : IO unit :=
  if (below =? 0)%Z then mret () else
  d ← get_disk; sweep below (blockfileNumsIn d).

Definition firstBlockNumAfter (d : Disk) (fileNum : Z) (tail : blockfilesInfo) : outcome N :=
  if (fileNum + 1 =? latestFileNumber tail)%Z && (latestFileSize tail =? 0)%Z then Ok (u64 (lastPersistedBlock tail + 1)) else
  wrap_err "cannot determine the first block of block file" (retrieveFirstBlockNumFromFile d (fileNum + 1)).

(** The loop ends at the latest file at the latest. *)
Fixpoint countEligible_loop (d : Disk) (bound : N) (tail : blockfilesInfo) (fuel : nat) (f : Z) (count : Z) : outcome Z :=
  match fuel with
  | O => Ok count
  | S fuel' =>
      if (f <? latestFileNumber tail)%Z
      then firstAbove ← firstBlockNumAfter d f tail;
           if (bound <? firstAbove)%N then Ok count else countEligible_loop d bound tail fuel' (f + 1) (count + 1)
      else Ok count
  end.
Definition countEligibleFiles (d : Disk) (bound : N) (lowestFile : Z) (tail : blockfilesInfo) : outcome Z :=
  countEligible_loop d bound tail (Z.to_nat (latestFileNumber tail - lowestFile)) lowestFile 0.

(** [to - from] index entries, those of the blocks from [from] on. *)
Definition addBlockNumDeletions (db : gmap bytes bytes) (from to : N) : gmap bytes bytes :=
  foldl (fun db n => delete (constructBlockNumKey n) db) db ((fun i => from + N.of_nat i)%N <$> seq 0 (N.to_nat (to - from))).
Definition pruneBlockfile (fileNum : Z) (from to firstAvailable : N) : IO unit :=
  setInfo (mkPrune firstAvailable (fileNum + 1)) ;;
  d ← get_disk;
  set_disk [] (set_db (addBlockNumDeletions (d_db d) from to) d) ;;
  removeBlockfile fileNum.
Fixpoint prune_loop (tail : blockfilesInfo) (firstAvailable : N) (eligible : nat) (f : Z) (from : N) : IO unit :=
  match eligible with
  | O => mret ()
  | S eligible' =>
      d ← get_disk;
      to ← lift (firstBlockNumAfter d f tail);
      pruneBlockfile f from to firstAvailable ;;
      prune_loop tail firstAvailable eligible' (f + 1) to
  end.
Definition pruneMgr_pruneBefore (blockNum : N) (tail : blockfilesInfo) : IO unit :=
  if noBlockFiles tail then mret () else
  m ← get_mgr;
  let current := m_pruneInfo m in
  if (latestFileNumber tail <? firstStoredBlockfileNum current)%Z then lift (Err "cannot prune") else
  sweepOrphans (firstStoredBlockfileNum current) ;;
  let bound := N.min blockNum (lastPersistedBlock tail) in
  let firstAvailable := N.max (firstReadableBlockNum current) bound in
  let lowestFile := firstStoredBlockfileNum current in
  d ← get_disk;
  eligible ← lift (countEligibleFiles d bound lowestFile tail);
  if (eligible =? 0)%Z
  then (if (firstAvailable =? firstReadableBlockNum current)%N then mret () else setInfo (mkPrune firstAvailable lowestFile))
  else from ← lift (wrap_err "cannot determine the first block of block file" (retrieveFirstBlockNumFromFile d lowestFile));
       prune_loop tail firstAvailable (Z.to_nat eligible) lowestFile from.
(** [blockfileMgr.pruneBefore] *)
Definition pruneBefore (blockNum : N) : IO unit :=
  m ← get_mgr; pruneMgr_pruneBefore blockNum (m_blockfilesInfo m).

(** ** The cache ([cache.go]) *)
Definition evictOldestCachedBlock (c : cache) : outcome cache :=
  let evictedIndex := u64 (c_maxSeq c + 18446744073709551616 - N.of_nat (size (c_cache c)) + 1) in
  match c_cache c !! evictedIndex with
  | None => Panic "programming error: index to be evicted was not found"
  | Some evictedBlock => Ok (mkCache (delete evictedIndex (c_cache c)) (c_sizeBytes c - snd evictedBlock) (c_maxSeq c) (c_maxSizeBytes c))
  end.
(** Every eviction removes a block or panics. *)
Fixpoint evict_loop (fuel : nat) (c : cache) : outcome cache :=
  if (c_maxSizeBytes c <? c_sizeBytes c)%Z
  then match fuel with O => evictOldestCachedBlock c | S fuel' => c ← evictOldestCachedBlock c; evict_loop fuel' c end
  else Ok c.
Definition cache_put (c : cache) (block : Block) (blockSize : Z) : outcome cache :=
  if (c_maxSizeBytes c =? 0)%Z then Ok c else
  header ← deref (b_Header block);
  let seq := bh_Number header in
  if (seq <? c_maxSeq c)%N then Ok c else
  panic_if (u64 (c_maxSeq c + 1) <? seq)%N && negb (c_maxSeq c =? 0)%N with "detected out of order block insertion" ;;
  panic_if (c_maxSeq c =? seq)%N && negb (c_maxSeq c =? 0)%N with "detected insertion of the same block twice" ;;
  let c := mkCache (<[seq := (block, blockSize)]> (c_cache c)) (c_sizeBytes c + blockSize) seq (c_maxSizeBytes c) in
  evict_loop (size (c_cache c)) c.
Definition cache_get (c : cache) (seq : N) : option Block :=
  if (c_maxSizeBytes c =? 0)%Z then None else fst <$> c_cache c !! seq.
Definition defaultBlockCacheSizeBytes : Z := 1024 * 1024 * 50.

(** ** Reading blocks ([blockfile_mgr.go]) *)
Definition checkBlockAvailable (m : blockfileMgr) (blockNum : N) : outcome unit :=
  fail_if (blockNum <? firstReadableBlockNum (m_pruneInfo m))%N with ErrPruned ;; Ok tt.
Definition errAfterFailedRead {A} (m : blockfileMgr) (blockNum : N) (o : outcome A) : outcome A :=
  match o with
  | Err e => match checkBlockAvailable m blockNum with Err unavailable => Err unavailable | _ => Err e end
  | _ => o
  end.
Definition fetchBlockBytes (d : Disk) (lp : fileLocPointer) : outcome (option bytes) :=
  stream ← newBlockfileStream d (fileSuffixNum lp) (offset lp);
  '(b, _) ← blockfileStream_nextBlockBytes stream;
  Ok b.
Definition fetchBlock (d : Disk) (lp : fileLocPointer) : outcome Block :=
  blockBytes ← fetchBlockBytes d lp; deserializeBlock (default [] blockBytes).

(** [math.MaxUint64] asks for the last block. *)
Definition retrieveBlockByNumber (s : Store) (blockNum : N) : outcome Block :=
  let m := st_mgr s in
  let blockNum := if (blockNum =? u64_max)%N then u64 (bci_Height (m_bcInfo m) + u64_max) else blockNum in
  checkBlockAvailable m blockNum ;;
  loc ← errAfterFailedRead m blockNum (getBlockLocByBlockNum (st_disk s) blockNum);
  errAfterFailedRead m blockNum (fetchBlock (st_disk s) loc).
Definition retrieveBlockHeaderByNumber (s : Store) (blockNum : N) : outcome BlockHeader :=
  let m := st_mgr s in
  checkBlockAvailable m blockNum ;;
  loc ← errAfterFailedRead m blockNum (getBlockLocByBlockNum (st_disk s) blockNum);
  blockBytes ← errAfterFailedRead m blockNum (fetchBlockBytes (st_disk s) loc);
  extractSerializedBlockHeader (default [] blockBytes).

(** ** Opening a store and adding blocks ([blockfile_mgr.go]) *)
Definition checkPruneInfoAgainstBlockfiles (s : Store) : outcome unit :=
  let info := m_blockfilesInfo (st_mgr s) in
  if noBlockFiles info then Ok tt else
  let first := firstStoredBlockfileNum (m_pruneInfo (st_mgr s)) in
  fail_if (latestFileNumber info <? first)%Z with "cannot open block store" ;;
  match d_files (st_disk s) !! first with
  | Some _ => Ok tt
  | None => Err "cannot open block store. block file is missing"
  end.

(** The loop that indexes what the stream still holds; the bytes of the files are enough fuel. *)
Fixpoint syncIndex_loop (fuel : nat) (stream : blockStream) : IO unit :=
  d ← get_disk;
  '(r, stream) ← lift (nextBlockBytesAndPlacementInfo d stream);
  match r, fuel with
  | None, _ => mret ()
  | Some _, O => lift (Err "out of fuel")
  | Some (blockBytes, placement), S fuel' =>
      blockHeader ← lift (extractSerializedBlockHeader blockBytes);
      indexBlock (bh_Number blockHeader) (mkLoc (bp_fileNum placement) (bp_blockStartOffset placement) 0) ;;
      syncIndex_loop fuel' stream
  end.
Definition disk_bytes (d : Disk) : nat := map_fold (fun _ content n => length content + n) 0 (d_files d).

Definition syncIndex : IO unit :=
  s ← get_store;
  let d := st_disk s in
  let info := m_blockfilesInfo (st_mgr s) in
  let lastBlockIndexed := default 0%N (getLastBlockIndexed d) in
  let nextIndexableBlock := match getLastBlockIndexed d with None => 0%N | Some n => u64_incr n end in
  if noBlockFiles info then mret () else
  if (nextIndexableBlock =? u64_incr (lastPersistedBlock info))%N then mret () else
  let startFileNum := firstStoredBlockfileNum (m_pruneInfo (st_mgr s)) in
  let endFileNum := latestFileNumber info in
  firstAvailableBlkNum ← lift (retrieveFirstBlockNumFromFile d startFileNum);
  stream ←
    (if (firstAvailableBlkNum <? nextIndexableBlock)%N
     then flp ← lift (getBlockLocByBlockNum d lastBlockIndexed);
          stream ← lift (newBlockStream d (fileSuffixNum flp) (offset flp) endFileNum);
          '(blockBytes, stream) ← lift (nextBlockBytesAndPlacementInfo d stream);
          match blockBytes with
          | None => lift (Err "block bytes should not be nil here")
          | Some _ => mret stream
          end
     else lift (newBlockStream d startFileNum 0 endFileNum));
  syncIndex_loop (disk_bytes d) stream.

Section Manager.
Context `{BlockCodecs} `{Sha256}.

(** [newBlockfileMgr] on a disk, with nothing in memory yet. *)
Definition fresh_mgr (maxBlockfileSize : Z) : blockfileMgr :=
  mkMgr maxBlockfileSize (mkInfo 0 0 false 0) 0 (mkBCInfo 0 [] []) (newCache defaultBlockCacheSizeBytes) (mkPrune 0 0) 0.
Definition newBlockfileMgr : IO unit :=
  d ← get_disk;
  loaded ← io_panic (lift (loadBlkfilesInfo d));
  info ← (match loaded with
          | None => io_panic (lift (constructBlockfilesInfo d))
          | Some i => lift (syncBlockfilesInfoFromFS d i)
          end);
  io_panic (saveBlkfilesInfo info true) ;;
  w ← io_panic (newBlockfileWriter (latestFileNumber info));
  modify_mgr (set_writer w) ;;
  io_panic (truncateFile (latestFileSize info)) ;;
  modify_mgr (set_blockfilesInfo info) ;;
  '(prune, infoSeq) ← getInfo;
  modify_mgr (set_prune prune infoSeq) ;;
  s ← get_store;
  lift (checkPruneInfoAgainstBlockfiles s) ;;
  syncIndex ;;
  s ← get_store;
  bcInfo ←
    (if noBlockFiles info then mret (mkBCInfo 0 [] [])
     else lastBlockHeader ← io_panic (lift (retrieveBlockHeaderByNumber s (lastPersistedBlock info)));
          hash ← lift (BlockHeaderHash lastBlockHeader);
          mret (mkBCInfo (u64_incr (lastPersistedBlock info)) hash (bh_PreviousHash lastBlockHeader)));
  modify_mgr (set_bcInfo bcInfo) ;;
  catch (sweepOrphans (firstStoredBlockfileNum prune)) (fun _ => mret ()).
Definition open_store (maxBlockfileSize : Z) (fl : Faults) (d : Disk) : list Disk * (Store * outcome unit) :=
  newBlockfileMgr fl (mkStore d (fresh_mgr maxBlockfileSize)).

Definition moveToNextFile : IO unit :=
  m ← get_mgr;
  let info := m_blockfilesInfo m in
  let info' := mkInfo (latestFileNumber info + 1) 0 false (lastPersistedBlock info) in
  nextFileWriter ← io_panic (newBlockfileWriter (latestFileNumber info'));
  io_panic (saveBlkfilesInfo info' true) ;;
  modify_mgr (set_writer nextFileWriter) ;;
  modify_mgr (set_blockfilesInfo info').

Definition cachePut (block : Block) (blockSize : Z) : IO unit :=
  m ← get_mgr;
  c ← lift (cache_put (m_cache m) block blockSize);
  modify_mgr (set_cache c).

Definition updateBlockchainInfo (latestBlockHash : bytes) (header : BlockHeader) (m : blockfileMgr) : blockfileMgr :=
  set_bcInfo (mkBCInfo (u64_incr (bci_Height (m_bcInfo m))) latestBlockHash (bh_PreviousHash header)) m.

(** What [addBlock] does from the append on. *)
Definition addBlock_commit (block : Block) (header : BlockHeader) (blockHash : bytes) (currentOffset blockBytesLen totalBytesToAppend : Z) : IO unit :=
  deferred (cachePut block blockBytesLen)
   (m ← get_mgr;
    let current := m_blockfilesInfo m in
    let new := mkInfo (latestFileNumber current) (latestFileSize current + totalBytesToAppend) false (bh_Number header) in
    catch (saveBlkfilesInfo new false)
      (fun e => truncateFile (latestFileSize current) ;; lift (Err "error saving blockfiles file info to db")) ;;
    indexBlock (bh_Number header) (mkLoc (latestFileNumber new) currentOffset 0) ;;
    modify_mgr (set_blockfilesInfo new) ;;
    modify_mgr (updateBlockchainInfo blockHash header)).

Definition addBlock (block : Block) : IO unit :=
  m ← get_mgr;
  let bcInfo := m_bcInfo m in
  header ← lift (deref (b_Header block));
  if negb (bh_Number header =? bci_Height bcInfo)%N then lift (Err "unexpected block number") else
  if bool_decide (bh_PreviousHash header <> bci_CurrentBlockHash bcInfo) then lift (Err "unexpected Previous block hash") else
  blockBytes ← lift (serializeBlock block);
  blockHash ← lift (BlockHeaderHash header);
  let currentOffset := latestFileSize (m_blockfilesInfo m) in
  let blockBytesLen := Z.of_nat (length blockBytes) in
  let blockBytesEncodedLen := AppendVarint [] (u64_of_int blockBytesLen) in
  let totalBytesToAppend := (blockBytesLen + Z.of_nat (length blockBytesEncodedLen))%Z in
  currentOffset ←
    (if (m_maxBlockfileSize m <? currentOffset + totalBytesToAppend)%Z then moveToNextFile ;; mret 0%Z else mret currentOffset);
  catch (append blockBytesEncodedLen false ;; append blockBytes true)
    (fun e => m ← get_mgr; truncateFile (latestFileSize (m_blockfilesInfo m)) ;; lift (Err "error appending block to file")) ;;
  addBlock_commit block header blockHash currentOffset blockBytesLen totalBytesToAppend.

End Manager.
