(* ===== verification/BlockFilesFacts.v ===== *)
(** * Layouts of the block files

    How a chain of blocks lies on disk, what the streams and scans of [BlockFiles] read there, and a logic for its operations: [wp] runs an operation, demands
    of every disk it goes through what a crash needs, and of its result what its caller needs. *)
From stdpp Require Import gmap sets sorting.
From S2P Require Import Prelude Types Events Blocks Ledger Wire BlockFiles.
From Stdlib Require Import NArith ZArith Lia.

(** ** Weakest preconditions with a crash condition *)
Definition wp {A} (fl : Faults) (m : IO A) (s : Store) (C : Disk -> Prop) (Q : outcome A -> Store -> Prop) : Prop :=
  let '(l, (s', o)) := m fl s in Forall C l /\ Q o s'.

Section WP.
Context {fl : Faults} {C : Disk -> Prop}.

Lemma wp_ret {A} (a : A) s (Q : outcome A -> Store -> Prop) : Q (Ok a) s -> wp fl (mret a) s C Q.
Proof. intros. split; [constructor|done]. Qed.
Lemma wp_lift {A} (o : outcome A) s Q : Q o s -> wp fl (lift o) s C Q.
Proof. intros. split; [constructor|done]. Qed.
Lemma wp_get_disk s (Q : outcome Disk -> Store -> Prop) : Q (Ok (st_disk s)) s -> wp fl get_disk s C Q.
Proof. intros. split; [constructor|done]. Qed.
Lemma wp_get_mgr s (Q : outcome blockfileMgr -> Store -> Prop) : Q (Ok (st_mgr s)) s -> wp fl get_mgr s C Q.
Proof. intros. split; [constructor|done]. Qed.
Lemma wp_get_store s (Q : outcome Store -> Store -> Prop) : Q (Ok s) s -> wp fl get_store s C Q.
Proof. intros. split; [constructor|done]. Qed.
Lemma wp_modify f s (Q : outcome unit -> Store -> Prop) : Q (Ok tt) (mkStore (st_disk s) (f (st_mgr s))) -> wp fl (modify_mgr f) s C Q.
Proof. intros. split; [constructor|done]. Qed.
Lemma wp_set_disk via d s (Q : outcome unit -> Store -> Prop) :
  Forall C via -> C d -> Q (Ok tt) (mkStore d (st_mgr s)) -> wp fl (set_disk via d) s C Q.
Proof. intros. split; [apply Forall_app; split; [done|by constructor]|done]. Qed.

Lemma wp_bind {A B} (m : IO A) (f : A -> IO B) s Q :
  wp fl m s C (fun o s' => match o with Ok a => wp fl (f a) s' C Q | Err e => Q (Err e) s' | Panic e => Q (Panic e) s' end) -> wp fl (m ≫= f) s C Q.
Proof.
  unfold wp, mbind, IO_bind. destruct (m fl s) as [l [s' [a|e|e]]]; [|done..].
  destruct (f a fl s') as [l' [s'' o']]. intros (H1 & H2 & H3). split; [by apply Forall_app|done].
Qed.
Lemma wp_catch {A} (m : IO A) h s Q :
  wp fl m s C (fun o s' => match o with Err e => wp fl (h e) s' C Q | _ => Q o s' end) -> wp fl (catch m h) s C Q.
Proof.
  unfold wp, catch. destruct (m fl s) as [l [s' [a|e|e]]]; [done| |done].
  destruct (h e fl s') as [l' [s'' o']]. intros (H1 & H2 & H3). split; [by apply Forall_app|done].
Qed.
Lemma wp_deferred {A} (d : IO unit) (m : IO A) s Q :
  wp fl m s C (fun o s' => wp fl d s' C (fun o' s'' => Q (match o' with Panic e => Panic e | _ => o end) s'')) -> wp fl (deferred d m) s C Q.
Proof.
  unfold wp, deferred. destruct (m fl s) as [l [s' o]]. destruct (d fl s') as [l' [s'' o']]. intros (H1 & H2 & H3). split; [by apply Forall_app|done].
Qed.
Lemma wp_io_panic {A} (m : IO A) s Q : wp fl m s C (fun o => Q (or_panic o)) -> wp fl (io_panic m) s C Q.
Proof. unfold wp, io_panic. by destruct (m fl s) as [l [s' o]]. Qed.
Lemma wp_mono {A} (m : IO A) s (Q Q' : outcome A -> Store -> Prop) : wp fl m s C Q -> (forall o s', Q o s' -> Q' o s') -> wp fl m s C Q'.
Proof. unfold wp. destruct (m fl s) as [l [s' o]]. intros [H1 H2] H. auto. Qed.
End WP.
Lemma wp_crash {A fl} (m : IO A) s (C C' : Disk -> Prop) Q : wp fl m s C Q -> (forall d, C d -> C' d) -> wp fl m s C' Q.
Proof. unfold wp. destruct (m fl s) as [l [s' o]]. intros [H1 H2] H. split; [by eapply Forall_impl|done]. Qed.

(** Runs an operation up to the next one that has a lemma of its own. *)
Ltac wp_step :=
  lazymatch goal with
  | |- wp _ (mbind _ _) _ _ _ => apply wp_bind
  | |- wp _ (mret _) _ _ _ => apply wp_ret
  | |- wp _ (lift _) _ _ _ => apply wp_lift
  | |- wp _ get_disk _ _ _ => apply wp_get_disk
  | |- wp _ get_mgr _ _ _ => apply wp_get_mgr
  | |- wp _ get_store _ _ _ => apply wp_get_store
  | |- wp _ (modify_mgr _) _ _ _ => apply wp_modify
  | |- wp _ (catch _ _) _ _ _ => apply wp_catch
  | |- wp _ (io_panic _) _ _ _ => apply wp_io_panic
  | |- wp _ (if ?b then _ else _) _ _ _ => fail
  end; cbn beta iota.
Ltac wp_steps := repeat wp_step.

(** ** Records of blocks *)
Definition record (b : Block) : bytes := framed (block_bytes b).
Definition chunk_bytes (c : list Block) : bytes := concat (record <$> c).

(** The size of a record is a varint of at most eight bytes. *)
Definition small (b : Block) : Prop := (N.of_nat (length (block_bytes b)) < 72057594037927936)%N.
(** What a torn append leaves behind: some of the bytes of a record, but not all. *)
Definition torn (p : bytes) : Prop := p = [] \/ exists b q, small b /\ record b = p ++ q /\ q <> [].

#[global] Arguments record : simpl never.
#[global] Arguments chunk_bytes : simpl never.
Lemma chunk_bytes_cons b c : chunk_bytes (b :: c) = record b ++ chunk_bytes c.
Proof. done. Qed.
Lemma chunk_bytes_nil : chunk_bytes [] = [].
Proof. done. Qed.
Lemma chunk_bytes_app c1 c2 : chunk_bytes (c1 ++ c2) = chunk_bytes c1 ++ chunk_bytes c2.
Proof. unfold chunk_bytes. by rewrite fmap_app, concat_app. Qed.
Lemma chunk_bytes_snoc c b : chunk_bytes (c ++ [b]) = chunk_bytes c ++ record b.
Proof. rewrite chunk_bytes_app. unfold chunk_bytes at 2. cbn. by rewrite app_nil_r. Qed.
Lemma record_nonempty b : 1 <= length (record b).
Proof. unfold record, framed. rewrite length_app. pose proof (length_varint (N.of_nat (length (block_bytes b)))). lia. Qed.
Lemma length_chunk_bytes c : length c <= length (chunk_bytes c).
Proof. induction c as [|b c IH]; [done|]. rewrite chunk_bytes_cons, length_app. pose proof (record_nonempty b). cbn [length]. lia. Qed.
Lemma torn_nil : torn [].
Proof. by left. Qed.
#[export] Hint Resolve torn_nil : go.

(** ** Reading a file *)
Section Stream.
Context (s : blockfileStream) (pre : bytes).
Hypothesis Hoff : s_currentOffset s = Z.of_nat (length pre).

Lemma next_end : s_file s = pre -> blockfileStream_next s = Ok (None, s).
Proof. intros E. unfold blockfileStream_next. rewrite Hoff, E, Z.eqb_refl. done. Qed.

Lemma next_record b post : s_file s = pre ++ record b ++ post -> small b ->
  blockfileStream_next s =
    Ok (Some (block_bytes b, mkPlacement (s_fileNum s) (Z.of_nat (length pre)) (Z.of_nat (length pre + length (varint (N.of_nat (length (block_bytes b))))))),
        mkStream (s_fileNum s) (s_file s) (Z.of_nat (length (pre ++ record b)))).
Proof.
  intros E Hb. pose proof (record_nonempty b) as Hr. set (v := varint (N.of_nat (length (block_bytes b)))).
  assert (record b = v ++ block_bytes b) as Er by done. pose proof (length_varint_8 _ Hb) as L. fold v in L.
  assert (1 <= length v) as L1 by apply length_varint.
  assert (length (s_file s) = length pre + (length v + length (block_bytes b) + length post)) as El by (rewrite E, Er, !length_app; lia).
  unfold blockfileStream_next. rewrite Hoff, El.
  destruct (Z.eqb_spec (Z.of_nat (length pre)) (Z.of_nat (length pre + (length v + length (block_bytes b) + length post)))); [lia|].
  set (rem := (Z.of_nat (length pre + (length v + length (block_bytes b) + length post)) - Z.of_nat (length pre))%Z).
  assert (rem = Z.of_nat (length v + length (block_bytes b) + length post)) as Erem by lia.
  rewrite Nat2Z.id, E, drop_app_length, Er, <-app_assoc.
  assert (exists k, (if (rem <? 8)%Z then rem else 8%Z) = Z.of_nat k /\ exists y, take k (v ++ block_bytes b ++ post) = v ++ y) as (k & -> & y & Ey).
  { destruct (Z.ltb_spec rem 8).
    - exists (length v + length (block_bytes b) + length post). split; [done|]. exists (block_bytes b ++ post). by rewrite take_ge by (rewrite !length_app; lia).
    - exists 8. split; [done|]. exists (take (8 - length v) (block_bytes b ++ post)). by rewrite take_app_ge by lia. }
  destruct (Z.ltb_spec (Z.of_nat k) 0); [lia|]. cbn [guard_err]. unfold small in Hb.
  rewrite Nat2Z.id, Ey. unfold v at 1. rewrite ConsumeVarint_varint by (unfold u64_max; lia). fold v.
  destruct (Z.leb_spec (Z.of_nat (length v)) 0); [lia|]. unfold int_of_u64. rewrite (i64_small (Z.of_N _)) by (unfold max_int64; lia). rewrite i64_small by (unfold max_int64; lia).
  destruct (Z.ltb_spec rem (Z.of_nat (length v) + Z.of_N (N.of_nat (length (block_bytes b))))); [lia|]. cbn [guard_err].
  rewrite Nat2Z.id, drop_app_length, Nat2N.id, take_app_length. repeat f_equal; rewrite ?length_app; lia.
Qed.

Lemma next_torn junk : s_file s = pre ++ junk -> torn junk -> junk <> [] ->
  blockfileStream_next s = Err ErrUnexpectedEndOfBlockfile.
Proof.
  intros E [->|(b & q & Hb & Ej & Hq)] Hj; [done|]. set (v := varint (N.of_nat (length (block_bytes b)))).
  assert (v ++ block_bytes b = junk ++ q) as Er by exact Ej. pose proof (length_varint_8 _ Hb) as L. fold v in L.
  assert (1 <= length v) as L1 by apply length_varint. assert (1 <= length junk) as L2 by (destruct junk; [done|cbn; lia]).
  assert (1 <= length q) as L3 by (destruct q; [done|cbn; lia]).
  assert (length v + length (block_bytes b) = length junk + length q) as El by (rewrite <-!length_app; by f_equal).
  unfold blockfileStream_next. rewrite Hoff, E, length_app.
  destruct (Z.eqb_spec (Z.of_nat (length pre)) (Z.of_nat (length pre + length junk))); [lia|].
  set (rem := (Z.of_nat (length pre + length junk) - Z.of_nat (length pre))%Z). assert (rem = Z.of_nat (length junk)) as Erem by lia.
  rewrite Nat2Z.id, drop_app_length. destruct (decide (length junk < length v)) as [Hs|Hs].
  - assert (exists x, v = junk ++ x /\ x <> []) as (x & Ev & Hx).
    { exists (drop (length junk) v). split; [|intros X%(f_equal length); rewrite length_drop in X; change (length (@nil byte)) with 0 in X; lia].
      assert (junk = take (length junk) v) as Et. { rewrite <-(take_app_le v (block_bytes b) (length junk)) by lia. by rewrite Er, take_app_length. }
      rewrite Et at 1. by rewrite take_drop. }
    destruct (Z.ltb_spec rem 8); [|lia]. destruct (Z.ltb_spec rem 0); [lia|]. cbn [guard_err].
    rewrite take_ge by lia. rewrite (ConsumeVarint_cut _ _ _ Ev Hx). cbn. destruct (Z.leb_spec 8 rem); [lia|done].
  - assert (exists x, junk = v ++ x) as (x & Ex).
    { exists (drop (length v) junk). assert (v = take (length v) junk) as Et. { rewrite <-(take_app_le junk q (length v)) by lia. by rewrite <-Er, take_app_length. }
      rewrite Et at 1. by rewrite take_drop. }
    assert (exists k, (if (rem <? 8)%Z then rem else 8%Z) = Z.of_nat k /\ exists y, take k junk = v ++ y) as (k & -> & y & Ey).
    { destruct (Z.ltb_spec rem 8).
      - exists (length junk). split; [done|]. exists x. by rewrite take_ge by lia.
      - exists 8. split; [done|]. exists (take (8 - length v) x). by rewrite Ex, take_app_ge by lia. }
    destruct (Z.ltb_spec (Z.of_nat k) 0); [lia|]. cbn [guard_err]. unfold small in Hb.
    rewrite Nat2Z.id, Ey. unfold v at 1. rewrite ConsumeVarint_varint by (unfold u64_max; lia). fold v.
    destruct (Z.leb_spec (Z.of_nat (length v)) 0); [lia|]. unfold int_of_u64. rewrite (i64_small (Z.of_N _)) by (unfold max_int64; lia). rewrite i64_small by (unfold max_int64; lia).
    destruct (Z.ltb_spec rem (Z.of_nat (length v) + Z.of_N (N.of_nat (length (block_bytes b))))); [done|]. lia.
Qed.
End Stream.

(** A scan counts the complete blocks and stops where they end. *)
Lemma scan_loop_chunk c junk fuel s pre lst num :
  s_currentOffset s = Z.of_nat (length pre) -> s_file s = pre ++ chunk_bytes c ++ junk -> Forall small c -> torn junk -> length c <= fuel ->
  scan_loop fuel s lst num =
    Ok (match last c with Some b => Some (block_bytes b) | None => lst end, Z.of_nat (length (pre ++ chunk_bytes c)), (num + N.of_nat (length c))%N).
Proof.
  revert fuel s pre lst num; induction c as [|b c IH]; intros fuel s pre lst num Hoff Hf Hs Hj Hfuel.
  - assert (scan_loop fuel s lst num = Ok (lst, s_currentOffset s, num)) as ->.
    { destruct (decide (junk = [])) as [->|Hne].
      - assert (blockfileStream_next s = Ok (None, s)) as E by (apply (next_end s pre Hoff); by rewrite Hf, !app_nil_r).
        destruct fuel; cbn; unfold blockfileStream_nextBlockBytes; by rewrite E.
      - assert (blockfileStream_next s = Err ErrUnexpectedEndOfBlockfile) as E by (by apply (next_torn s pre Hoff junk)).
        destruct fuel; cbn; unfold blockfileStream_nextBlockBytes; by rewrite E. }
    rewrite Hoff, app_nil_r. cbn. by rewrite N.add_0_r.
  - apply Forall_cons in Hs as [Hb Hs]. destruct fuel as [|fuel]; [cbn in Hfuel; lia|].
    rewrite chunk_bytes_cons, <-app_assoc in Hf. pose proof (next_record s pre Hoff b _ Hf Hb) as E.
    cbn [scan_loop]. unfold blockfileStream_nextBlockBytes. rewrite E. cbn [mbind outcome_bind option_map fst].
    rewrite (IH fuel _ (pre ++ record b)); [|done| |done|done|cbn in Hfuel; lia].
    + rewrite last_cons. f_equal. f_equal; [|cbn [length]; lia]. rewrite chunk_bytes_cons, !app_assoc. f_equal. destruct (last c); done.
    + cbn [s_file]. by rewrite Hf, <-app_assoc.
Qed.

Lemma scanForLastCompleteBlock_chunk d n c1 c junk :
  d_files d !! n = Some (chunk_bytes (c1 ++ c) ++ junk) -> Forall small c -> torn junk ->
  scanForLastCompleteBlock d n (Z.of_nat (length (chunk_bytes c1))) =
    Ok (block_bytes <$> last c, Z.of_nat (length (chunk_bytes (c1 ++ c))), N.of_nat (length c)).
Proof.
  intros Hf Hs Hj. unfold scanForLastCompleteBlock, newBlockfileStream. rewrite Hf. cbn [of_option mbind outcome_bind].
  destruct (Z.ltb_spec (Z.of_nat (length (chunk_bytes c1))) 0); [lia|]. cbn [guard_err mbind outcome_bind s_file].
  rewrite (scan_loop_chunk c junk _ _ (chunk_bytes c1)); [|done|cbn; by rewrite chunk_bytes_app, <-app_assoc|done|done|].
  - rewrite <-chunk_bytes_app. f_equal.
  - rewrite chunk_bytes_app, !length_app. pose proof (length_chunk_bytes c). lia.
Qed.
Lemma retrieveFirstBlockNum_chunk d n b c junk h :
  d_files d !! n = Some (chunk_bytes (b :: c) ++ junk) -> small b -> b_Header b = Some h -> (bh_Number h <= u64_max)%N ->
  retrieveFirstBlockNumFromFile d n = Ok (bh_Number h).
Proof.
  intros Hf Hb Hh Hn. unfold retrieveFirstBlockNumFromFile, newBlockfileStream. rewrite Hf. cbn [of_option mbind outcome_bind Z.ltb Z.compare guard_err].
  unfold blockfileStream_nextBlockBytes. rewrite (next_record (mkStream n _ 0) [] eq_refl b (chunk_bytes c ++ junk)); [|cbn [app s_file]; by rewrite chunk_bytes_cons, <-app_assoc|done].
  cbn [mbind outcome_bind option_map fst default from_option id]. unfold small in Hb.
  rewrite (extractSerializedBlockHeader_bytes b h Hh Hn) by lia. done.
Qed.

(** ** Layouts

    The files below [ly_first] are gone, with the blocks of [ly_pruned]; then come full files, the one that is appended to, and possibly one that was created and not yet
    recorded. Before anything is created, there is no file at all. *)
Record layout := mkLayout {
  ly_pruned : list Block; ly_first : nat; ly_full : list (list Block); ly_cur : list Block; ly_extra : bool; ly_created : bool }.
Definition chunks (L : layout) : list (list Block) := ly_full L ++ [ly_cur L].
Definition chain_of (L : layout) : list Block := ly_pruned L ++ concat (chunks L).
Definition contents (L : layout) (junk : bytes) : list bytes :=
  if ly_created L then (chunk_bytes <$> ly_full L) ++ [chunk_bytes (ly_cur L) ++ junk] ++ (if ly_extra L then [[]] else []) else [].

Record files_ok (d : Disk) (L : layout) (junk : bytes) : Prop := {
  fo_neg : forall n, (n < 0)%Z -> d_files d !! n = None;
  fo_files : forall i, d_files d !! Z.of_nat (ly_first L + i) = contents L junk !! i
}.

Record wf_layout (max : Z) (L : layout) : Prop := {
  wl_full : Forall (fun c => c <> []) (ly_full L);
  wl_first : ly_first L <= length (ly_pruned L);
  wl_size : Forall (fun c => Z.of_nat (length (chunk_bytes c)) <= max)%Z (chunks L);
  wl_extra : ly_extra L = true -> ly_cur L <> [];
  wl_created : ly_created L = false -> L = mkLayout [] 0 [] [] false false
}.

Section Chains.
Context `{BlockCodecs} `{Sha256}.

(** The chains a store can hold: linked, every block with its parts and within the size of a file. *)
Record good_block (max : Z) (b : Block) : Prop := {
  gb_serializable : serializable b;
  gb_stored : stored b = b;
  gb_size : (Z.of_nat (length (record b)) <= max)%Z;
  gb_hash : forall h, b_Header b = Some h -> exists hash, BlockHeaderHash h = Ok hash
}.
Record good_chain (max : Z) (l : list Block) : Prop := {
  gc_chain : chain_ok l;
  gc_blocks : Forall (good_block max) l;
  gc_length : (Z.of_nat (length l) <= max_int64)%Z
}.
End Chains.

(** The summary after the first [k] blocks of the current file. *)
Definition count (L : layout) (k : nat) : nat := length (ly_pruned L) + length (concat (ly_full L)) + k.
Definition info_at (L : layout) (k : nat) : blockfilesInfo :=
  mkInfo (Z.of_nat (ly_first L + length (ly_full L))) (Z.of_nat (length (chunk_bytes (take k (ly_cur L)))))
    (count L k =? 0)%nat (N.of_nat (count L k - 1)).
Definition info_of (L : layout) : blockfilesInfo := info_at L (length (ly_cur L)).

(** Block [n] of the chain is [b], at offset [off] of file [f]. *)
Definition located (L : layout) (n : nat) (b : Block) (f : nat) (off : Z) : Prop :=
  exists i c1 c2, chunks L !! i = Some (c1 ++ b :: c2) /\ n = length (ly_pruned L) + length (concat (take i (chunks L))) + length c1 /\
    f = ly_first L + i /\ off = Z.of_nat (length (chunk_bytes c1)).

(** The index holds the first [s] blocks, as far as they are stored, and no others. *)
Record index_ok (d : Disk) (L : layout) (s : nat) : Prop := {
  ix_save : d_db d !! indexSavePointKey = match s with O => None | S n => Some (encodeBlockNum (N.of_nat n)) end;
  ix_bounds : s <= length (chain_of L) /\ (s = 0 \/ length (ly_pruned L) < s);
  ix_loc : forall n b f off, located L n b f off -> n < s ->
    d_db d !! constructBlockNumKey (N.of_nat n) = Some (fileLocPointer_marshal (mkLoc (Z.of_nat f) off 0));
  ix_none : forall n, s <= n -> (N.of_nat n <= u64_max)%N -> d_db d !! constructBlockNumKey (N.of_nat n) = None
}.

(** The record of pruning: blocks from [r] on may be read, files from the first of the layout on are kept. Every record moves one of the two, which bounds its number. *)
Record prune_ok (d : Disk) (L : layout) (r : N) (seq : N) : Prop := {
  pr_record : match seq with
    | 0%N => d_prune d = ∅ /\ r = 0%N /\ ly_first L = 0
    | _ => d_prune d !! seq = Some (pruneInfo_marshal (mkPrune r (Z.of_nat (ly_first L)))) /\ forall n, is_Some (d_prune d !! n) -> (n <= seq)%N
    end;
  pr_seq : (seq <= r + N.of_nat (ly_first L))%N;
  pr_low : (N.of_nat (length (ly_pruned L)) <= r)%N;
  pr_high : r = 0%N \/ (r < N.of_nat (length (chain_of L)))%N
}.

(** All that is on disk: [k] blocks of the current file are recorded, if there is a summary at all, and [s] blocks are indexed. *)
Record on_disk (max : Z) (d : Disk) (L : layout) (junk : bytes) (k : option nat) (s : nat) (r seq : N) : Prop := {
  od_wf : wf_layout max L;
  od_files : files_ok d L junk;
  od_torn : torn junk;
  od_info : d_db d !! blkMgrInfoKey = (fun k => blockfilesInfo_marshal (info_at L k)) <$> k;
  od_k : match k with Some k => k <= length (ly_cur L) | None => junk = [] \/ ly_extra L = false end;
  od_index : index_ok d L s;
  od_prune : prune_ok d L r seq
}.

(** ** Where a block is *)
Lemma concat_split {A} (l : list (list A)) i c : l !! i = Some c -> concat l = concat (take i l) ++ c ++ concat (drop (S i) l).
Proof. intros E. rewrite <-(take_drop_middle l i c E) at 1. by rewrite concat_app. Qed.

Lemma located_chain L n b f off : located L n b f off -> chain_of L !! n = Some b.
Proof.
  intros (i & c1 & c2 & E & -> & _ & _). unfold chain_of. rewrite lookup_app_r by lia. rewrite (concat_split _ _ _ E), <-!app_assoc.
  rewrite lookup_app_r by lia. rewrite lookup_app_r by lia.
  replace (_ - _ - _ - _) with 0 by lia. done.
Qed.
Lemma located_stored L n b f off : located L n b f off -> length (ly_pruned L) <= n.
Proof. intros (i & c1 & c2 & E & -> & _ & _). lia. Qed.
Lemma concat_located {A} (l : list (list A)) n b : concat l !! n = Some b ->
  exists i c1 c2, l !! i = Some (c1 ++ b :: c2) /\ n = length (concat (take i l)) + length c1.
Proof.
  revert n; induction l as [|c l IH]; intros n E; [done|]. cbn in E. apply lookup_app_Some in E as [E|[Hn E]].
  - exists 0, (take n c), (drop (S n) c). rewrite take_drop_middle by done. split; [done|]. cbn. rewrite length_take. apply lookup_lt_Some in E. lia.
  - destruct (IH _ E) as (i & c1 & c2 & Ei & En). exists (S i), c1, c2. split; [done|]. cbn. rewrite length_app. lia.
Qed.
Lemma chain_located L n b : chain_of L !! n = Some b -> length (ly_pruned L) <= n -> exists f off, located L n b f off.
Proof.
  intros E Hn. unfold chain_of in E. rewrite lookup_app_r in E by done. apply concat_located in E as (i & c1 & c2 & Ei & En).
  eexists _, _, i, c1, c2. split; [done|]. split; [lia|done].
Qed.
Lemma located_fun L n b f off b' f' off' : located L n b f off -> located L n b' f' off' -> b = b' /\ f = f' /\ off = off'.
Proof.
  intros Hl Hl'. assert (b = b') as <-. { apply located_chain in Hl, Hl'. congruence. } split; [done|].
  destruct Hl as (i & c1 & c2 & E & En & -> & ->), Hl' as (i' & c1' & c2' & E' & En' & -> & ->).
  assert (forall i i' c1 c2 c1' c2', chunks L !! i = Some (c1 ++ b :: c2) -> chunks L !! i' = Some (c1' ++ b :: c2') ->
    length (concat (take i (chunks L))) + length c1 = length (concat (take i' (chunks L))) + length c1' -> i < i' -> False) as X.
  { clear. intros i i' c1 c2 c1' c2' E E' En Hi. assert (take i' (chunks L) !! i = Some (c1 ++ b :: c2)) as T by by rewrite lookup_take_lt.
    apply concat_split in T. rewrite T, !length_app, take_take, Nat.min_l in En by lia. cbn in En. lia. }
  assert (i = i') as <-. { destruct (Nat.lt_trichotomy i i') as [Hi|[Hi|Hi]]; [destruct (X i i' _ _ _ _ E E' ltac:(lia) Hi)|done|destruct (X i' i _ _ _ _ E' E ltac:(lia) Hi)]. }
  split; [done|]. rewrite E in E'. injection E' as E'. apply app_inj_1 in E' as [-> _]; [done|lia].
Qed.

(** ** Keys of the database *)
Lemma info_key_save : blkMgrInfoKey <> indexSavePointKey.
Proof. by vm_compute. Qed.
Lemma number_key_head n : head (constructBlockNumKey n) = Some blockNumIdxKeyPrefix.
Proof. done. Qed.
Lemma info_key_number n : blkMgrInfoKey <> constructBlockNumKey n.
Proof. intros E%(f_equal head). by rewrite number_key_head in E. Qed.
Lemma save_key_number n : indexSavePointKey <> constructBlockNumKey n.
Proof. intros E%(f_equal head). by rewrite number_key_head in E. Qed.
#[export] Hint Resolve info_key_save info_key_number save_key_number : go.

(** ** Changes of the disk that keep parts of it *)
Lemma index_ok_db d d' L s : index_ok d L s -> d_db d' !! indexSavePointKey = d_db d !! indexSavePointKey ->
  (forall n, d_db d' !! constructBlockNumKey n = d_db d !! constructBlockNumKey n) -> index_ok d' L s.
Proof. intros [] E1 E2. split; [congruence|done| |]; setoid_rewrite E2; done. Qed.
Lemma index_ok_layout d L L' s : index_ok d L s -> length (ly_pruned L') = length (ly_pruned L) -> length (chain_of L) <= length (chain_of L') ->
  (forall n b f off, located L' n b f off -> n < s -> located L n b f off) -> index_ok d L' s.
Proof. intros [] E1 E2 E3. split; [done|rewrite E1; lia| |done]. intros n b f off Hl Hn. eapply ix_loc0; eauto. Qed.
Lemma files_ok_files d d' L junk : files_ok d L junk -> d_files d' = d_files d -> files_ok d' L junk.
Proof. intros [] E. split; by rewrite E. Qed.
Lemma prune_ok_files d d' L r seq : prune_ok d L r seq -> d_prune d' = d_prune d -> prune_ok d' L r seq.
Proof. intros [] E. split; [by rewrite E|done..]. Qed.
Lemma set_info_index d i : d_db (set_db (<[blkMgrInfoKey := i]> (d_db d)) d) !! indexSavePointKey = d_db d !! indexSavePointKey /\
  forall n, d_db (set_db (<[blkMgrInfoKey := i]> (d_db d)) d) !! constructBlockNumKey n = d_db d !! constructBlockNumKey n.
Proof. unfold set_db. cbn [d_db]. split; intros; rewrite lookup_insert_ne; auto with go. Qed.

Lemma on_disk_info max d L junk k s r seq k' : on_disk max d L junk k s r seq -> k' <= length (ly_cur L) ->
  on_disk max (set_db (<[blkMgrInfoKey := blockfilesInfo_marshal (info_at L k')]> (d_db d)) d) L junk (Some k') s r seq.
Proof.
  intros [] Hk. destruct (set_info_index d (blockfilesInfo_marshal (info_at L k'))) as [E1 E2]. split; [done|by eapply files_ok_files|done| |done|by eapply index_ok_db|by eapply prune_ok_files].
  cbn. by rewrite lookup_insert_eq.
Qed.

(** The current file gets another end. *)
Lemma set_current_file d L junk junk' : files_ok d L junk -> ly_created L = true ->
  files_ok (set_file (Z.of_nat (ly_first L + length (ly_full L))) (chunk_bytes (ly_cur L) ++ junk') d) L junk'.
Proof.
  intros [Hn Hf] Hc. split; cbn [d_files set_file].
  - intros n Hlt. rewrite lookup_insert_ne by lia. by apply Hn.
  - intros i. destruct (decide (i = length (ly_full L))) as [->|Hi].
    + rewrite lookup_insert_eq. unfold contents. rewrite Hc, lookup_app_r by by rewrite length_fmap. by rewrite length_fmap, Nat.sub_diag.
    + rewrite lookup_insert_ne by lia. rewrite Hf. unfold contents. rewrite Hc. destruct (decide (i < length (ly_full L))).
      * by rewrite !lookup_app_l by by rewrite length_fmap.
      * assert (forall x, ((chunk_bytes <$> ly_full L) ++ [x] ++ (if ly_extra L then [[]] else [])) !! i = (if ly_extra L then [[]] else []) !! (i - S (length (ly_full L)))) as X; [|by rewrite !X].
        intros x. rewrite lookup_app_r by (rewrite length_fmap; lia). rewrite length_fmap, lookup_app_r by (cbn; lia). f_equal. cbn. lia.
Qed.

(** A file that was created and not recorded is taken for the current one when the summary is lost. *)
Definition close_extra (L : layout) : layout :=
  if ly_extra L then mkLayout (ly_pruned L) (ly_first L) (chunks L) [] false (ly_created L) else L.
Lemma close_extra_chain L : chain_of (close_extra L) = chain_of L.
Proof. unfold close_extra. destruct (ly_extra L); [|done]. unfold chain_of, chunks. cbn. by rewrite !concat_app, !app_nil_r. Qed.
Lemma close_extra_located L n b f off : located (close_extra L) n b f off <-> located L n b f off.
Proof.
  unfold close_extra. destruct (ly_extra L); [|done]. unfold located. cbn [ly_pruned ly_first].
  change (chunks (mkLayout _ _ (chunks L) [] false _)) with (chunks L ++ [[]]). split.
  - intros (i & c1 & c2 & E & -> & -> & ->). apply lookup_app_Some in E as [E|[Hi E]].
    + exists i, c1, c2. split; [done|]. apply lookup_lt_Some in E. by rewrite take_app_le by lia.
    + apply list_lookup_singleton_Some in E as [_ E]. by destruct c1.
  - intros (i & c1 & c2 & E & -> & -> & ->). exists i, c1, c2. apply lookup_lt_Some in E as Hi. split; [by rewrite lookup_app_l|]. by rewrite take_app_le by lia.
Qed.
Lemma on_disk_close max d L junk s r seq : (0 <= max)%Z -> on_disk max d L junk None s r seq -> on_disk max d (close_extra L) junk None s r seq.
Proof.
  intros Hmax O. destruct (ly_extra L) eqn:Ex; [|unfold close_extra; by rewrite Ex]. destruct O as [[] [] ? ? Hk ? []].
  destruct Hk as [->|?]; [|congruence]. destruct (ly_created L) eqn:Ec; [|by rewrite wl_created0 in Ex by done].
  split; [| |done|done|by left| |].
  - unfold close_extra. rewrite Ex. split; cbn [ly_pruned ly_first ly_full ly_cur ly_extra ly_created]; [|done| |done|congruence].
    + unfold chunks. apply Forall_app. split; [done|]. constructor; [by apply wl_extra0|constructor].
    + unfold chunks at 1. cbn [ly_full ly_cur]. apply Forall_app. split; [done|]. constructor; [done|constructor].
  - split; [done|]. intros i. unfold close_extra. rewrite Ex. cbn [ly_first]. rewrite fo_files0. unfold contents. cbn [ly_full ly_cur ly_extra ly_created]. rewrite Ec, Ex.
    unfold chunks. by rewrite fmap_app, <-!app_assoc, !app_nil_r.
  - eapply index_ok_layout; [done| |by rewrite close_extra_chain|].
    + unfold close_extra. by rewrite Ex.
    + intros n b f off Hl _. by apply close_extra_located.
  - split; rewrite ?close_extra_chain; unfold close_extra; rewrite ?Ex; done.
Qed.

Section Layout.
Context `{BlockCodecs} `{Sha256} (max : Z) (Hmax : (0 < max < 72057594037927936)%Z).

Lemma good_small b : good_block max b -> small b.
Proof. intros Hb. unfold small. pose proof (gb_size _ _ Hb) as S. unfold record, framed in S. rewrite length_app in S. lia. Qed.

Section Good.
Context (L : layout) (G : good_chain max (chain_of L)) (W : wf_layout max L).

Lemma chunk_small i c : chunks L !! i = Some c -> Forall small c.
Proof.
  clear W. intros E. apply Forall_forall. intros b Hb. apply good_small. pose proof (gc_blocks _ _ G) as F. rewrite Forall_forall in F. apply F.
  unfold chain_of. apply elem_of_app. right. rewrite (concat_split _ _ _ E). set_solver.
Qed.
Lemma chain_number n b : chain_of L !! n = Some b ->
  good_block max b /\ (exists h, b_Header b = Some h /\ bh_Number h = N.of_nat n) /\ (N.of_nat n < u64_max)%N.
Proof.
  intros E. split; [eapply Forall_lookup_1; [apply G|done]|]. split; [by apply (co_number _ (gc_chain _ _ G))|].
  apply lookup_lt_Some in E. pose proof (gc_length _ _ G). unfold max_int64, u64_max in *. lia.
Qed.

Lemma length_concat_full : length (ly_full L) <= length (concat (ly_full L)).
Proof.
  pose proof (wl_full _ _ W) as F. induction (ly_full L) as [|c l IH]; [done|]. apply Forall_cons in F as [Hc F]. specialize (IH F).
  cbn. rewrite length_app. destruct c; [done|cbn]. lia.
Qed.
Lemma length_chain : length (chain_of L) = count L (length (ly_cur L)).
Proof. unfold chain_of, chunks, count. rewrite concat_app, !length_app. cbn. rewrite app_nil_r. lia. Qed.
Lemma file_bound : (Z.of_nat (ly_first L + length (ly_full L)) <= max_int64)%Z.
Proof.
  pose proof length_concat_full. pose proof (wl_first _ _ W). pose proof (gc_length _ _ G) as Hl. rewrite length_chain in Hl. unfold count in Hl. lia.
Qed.
Lemma located_int n b f off : located L n b f off -> is_int (Z.of_nat f) /\ is_int off.
Proof.
  intros (i & c1 & c2 & E & _ & -> & ->). pose proof file_bound. apply lookup_lt_Some in E as Hi. unfold chunks in Hi. rewrite length_app in Hi. cbn in Hi.
  unfold is_int. split; [unfold max_int64 in *; lia|]. pose proof (wl_size _ _ W) as S. rewrite Forall_lookup in S. specialize (S _ _ E). cbn beta in S.
  rewrite chunk_bytes_app, length_app in S. unfold max_int64. lia.
Qed.
Lemma info_at_int k : k <= length (ly_cur L) -> blockfilesInfo_unmarshal (blockfilesInfo_marshal (info_at L k)) = Ok (info_at L k).
Proof.
  intros Hk. apply blockfilesInfo_roundtrip; cbn.
  - pose proof file_bound. unfold is_int, max_int64 in *. lia.
  - pose proof (wl_size _ _ W) as S. unfold chunks in S. apply Forall_app in S as [_ [S _]%Forall_cons].
    rewrite <-(take_drop k (ly_cur L)), chunk_bytes_app, length_app in S. unfold is_int, max_int64. lia.
  - pose proof (gc_length _ _ G) as Hl. rewrite length_chain in Hl. unfold count, max_int64, u64_max in *. lia.
Qed.

Context (d : Disk) (junk : bytes) (Hfiles : files_ok d L junk) (Hcreated : ly_created L = true).

Lemma file_lookup i c : chunks L !! i = Some c ->
  d_files d !! Z.of_nat (ly_first L + i) = Some (chunk_bytes c ++ if (i =? length (ly_full L))%nat then junk else []).
Proof.
  intros E. rewrite (fo_files _ _ _ Hfiles). unfold contents, chunks in *. rewrite Hcreated. apply lookup_app_Some in E as [E|[Hi E]].
  - apply lookup_lt_Some in E as Hi. rewrite lookup_app_l by (by rewrite length_fmap). rewrite list_lookup_fmap, E. cbn.
    destruct (Nat.eqb_spec i (length (ly_full L))); [lia|]. by rewrite app_nil_r.
  - apply list_lookup_singleton_Some in E as [Ei <-]. assert (i = length (ly_full L)) as -> by lia. rewrite Nat.eqb_refl.
    rewrite lookup_app_r by (by rewrite length_fmap). by rewrite length_fmap, Nat.sub_diag.
Qed.
Lemma fetch_located n b f off : located L n b f off -> fetchBlockBytes d (mkLoc (Z.of_nat f) off 0) = Ok (Some (block_bytes b)).
Proof.
  intros Hloc. pose proof (located_chain _ _ _ _ _ Hloc) as [Hb%good_small _]%chain_number.
  destruct Hloc as (i & c1 & c2 & E & _ & -> & ->). apply file_lookup in E. unfold fetchBlockBytes, newBlockfileStream. cbn [fileSuffixNum offset]. rewrite E.
  cbn [of_option mbind outcome_bind]. destruct (Z.ltb_spec (Z.of_nat (length (chunk_bytes c1))) 0); [lia|]. cbn [guard_err].
  unfold blockfileStream_nextBlockBytes. rewrite chunk_bytes_app, chunk_bytes_cons, <-!app_assoc. cbn [mbind outcome_bind].
  by rewrite (next_record (mkStream _ _ (Z.of_nat (length (chunk_bytes c1)))) (chunk_bytes c1) eq_refl b _ eq_refl Hb).
Qed.
End Good.
End Layout.
