(* ===== verification/BlockFilesOpen.v ===== *)
(** * Opening a block store

    [newBlockfileMgr] on any disk an operation may leave behind: the summary is brought up to date, what was torn is cut off, the index is completed and the
    files a prune left behind are removed; the chain and the bound of pruning stay the same, at every disk on the way. *)
From stdpp Require Import gmap sets sorting.
From S2P Require Import Prelude Types Events Blocks Ledger Wire BlockFiles BlockFilesFacts.
From Stdlib Require Import NArith ZArith Lia.

Section Open.
Context `{BlockCodecs} `{Sha256} (max : Z) (Hmax : (0 < max < 72057594037927936)%Z).

(** ** The summary *)
Lemma contents_cur L junk : ly_created L = true ->
  contents L junk !! length (ly_full L) = Some (chunk_bytes (ly_cur L) ++ junk).
Proof.
  intros Hc. unfold contents. rewrite Hc, lookup_app_r by by rewrite length_fmap. by rewrite length_fmap, Nat.sub_diag.
Qed.
Lemma chunks_cur L : chunks L !! length (ly_full L) = Some (ly_cur L).
Proof. unfold chunks. rewrite lookup_app_r by done. by rewrite Nat.sub_diag. Qed.
Lemma cur_small L : good_chain max (chain_of L) -> Forall small (ly_cur L).
Proof. intros G. apply (chunk_small max Hmax L G (length (ly_full L))), chunks_cur. Qed.
Lemma block_number b n L : good_chain max (chain_of L) -> chain_of L !! n = Some b ->
  exists h, b_Header b = Some h /\ bh_Number h = N.of_nat n /\ deserializeBlock (block_bytes b) = Ok b /\ extractSerializedBlockHeader (block_bytes b) = Ok h /\
    exists hash, BlockHeaderHash h = Ok hash.
Proof.
  intros G Hb. destruct (chain_number max L G _ _ Hb) as (Gb & (h & Hh & Hn) & Hu). pose proof (good_small max Hmax b Gb) as Hsm. unfold small in Hsm.
  destruct (gb_serializable _ _ Gb) as [_ Hd]. exists h. split_and!; [done|done| | |by eapply gb_hash].
  - rewrite (deserializeBlock_bytes b h Hh Hd) by lia. by rewrite (gb_stored _ _ Gb).
  - apply (extractSerializedBlockHeader_bytes b h Hh); lia.
Qed.

Lemma sync_info d L junk k s r seq : good_chain max (chain_of L) -> on_disk max d L junk (Some k) s r seq ->
  syncBlockfilesInfoFromFS d (info_at L k) = Ok (info_of L).
Proof.
  intros G [Hwf Hf Ht _ Hk _ _]. unfold syncBlockfilesInfoFromFS. cbn [latestFileNumber info_at]. rewrite (fo_files _ _ _ Hf).
  destruct (ly_created L) eqn:Hc; [|unfold contents; rewrite Hc, (wl_created _ _ Hwf Hc) in *; cbn in *; by replace k with 0 by lia].
  rewrite contents_cur by done. cbn [latestFileSize info_at].
  assert (chunk_bytes (ly_cur L) = chunk_bytes (take k (ly_cur L)) ++ chunk_bytes (drop k (ly_cur L))) as Ecur by by rewrite <-chunk_bytes_app, take_drop.
  destruct (Z.eqb_spec (Z.of_nat (length (chunk_bytes (ly_cur L) ++ junk))) (Z.of_nat (length (chunk_bytes (take k (ly_cur L)))))) as [E|E].
  - rewrite Ecur, !length_app in E. pose proof (length_chunk_bytes (drop k (ly_cur L))) as Hd. rewrite length_drop in Hd.
    unfold info_of. by replace k with (length (ly_cur L)) by lia.
  - rewrite (scanForLastCompleteBlock_chunk d _ (take k (ly_cur L)) (drop k (ly_cur L)) junk).
    + cbn [or_panic mbind outcome_bind]. rewrite take_drop, length_drop. pose proof (gc_length _ _ G) as Hl. rewrite length_chain in Hl. unfold max_int64, count in Hl.
      cbn [noBlockFiles lastPersistedBlock info_at latestFileNumber]. unfold info_of, info_at, count in *. rewrite take_ge by done.
      destruct (N.eqb_spec (N.of_nat (length (ly_cur L) - k)) 0) as [Hz|Hz].
      { by replace k with (length (ly_cur L)) by lia. }
      destruct (Nat.eqb_spec (length (ly_pruned L) + length (concat (ly_full L)) + k) 0);
      destruct (Nat.eqb_spec (length (ly_pruned L) + length (concat (ly_full L)) + length (ly_cur L)) 0); try lia.
      * do 2 f_equal. lia.
      * do 2 f_equal. rewrite u64_small by (unfold u64_max; lia). lia.
    + rewrite take_drop, (fo_files _ _ _ Hf). by apply contents_cur.
    + by apply Forall_drop, cur_small.
    + done.
Qed.

(** The highest number of a file. *)
Lemma retrieveLastFileSuffix_max d (n : Z) : is_Some (d_files d !! n) -> (forall m, is_Some (d_files d !! m) -> m <= n)%Z -> (0 <= n)%Z -> retrieveLastFileSuffix d = n.
Proof.
  intros [c Hn] Hm Hp. unfold retrieveLastFileSuffix.
  assert (n ∈ file_numbers d) as Hin by (apply list_elem_of_fmap; exists (n, c); split; [done|by apply elem_of_map_to_list]).
  assert (forall m, m ∈ file_numbers d -> (m <= n)%Z) as Hall.
  { intros m ([m' c'] & -> & Hc)%list_elem_of_fmap. apply elem_of_map_to_list in Hc. by apply Hm. }
  induction (file_numbers d) as [|x l IH]; [by apply elem_of_nil in Hin|]. cbn.
  assert (forall l, (forall m, m ∈ l -> m <= n)%Z -> (foldr Z.max (-1) l <= n)%Z) as Hle.
  { clear -Hp. induction l as [|y l IH]; intros Hl; cbn; [lia|]. apply Z.max_lub; [apply Hl; set_solver|apply IH; set_solver]. }
  apply elem_of_cons in Hin as [->|Hin].
  - specialize (Hle l ltac:(set_solver)). lia.
  - rewrite IH by set_solver. specialize (Hall x ltac:(set_solver)). lia.
Qed.
Lemma files_above d L junk m : files_ok d L junk -> is_Some (d_files d !! m) -> (m < Z.of_nat (ly_first L + length (contents L junk)))%Z.
Proof.
  intros [Hneg Hf] Hm. destruct (Z.ltb_spec m (Z.of_nat (ly_first L + length (contents L junk)))) as [|Hge]; [done|].
  specialize (Hf (Z.to_nat m - ly_first L)). rewrite lookup_ge_None_2 in Hf by lia.
  replace (Z.of_nat (ly_first L + (Z.to_nat m - ly_first L))) with m in Hf by lia. rewrite Hf in Hm. by apply is_Some_None in Hm.
Qed.
Lemma last_file d L junk : files_ok d L junk -> contents L junk <> [] ->
  retrieveLastFileSuffix d = Z.of_nat (ly_first L + (length (contents L junk) - 1)).
Proof.
  intros Hf Hne. assert (length (contents L junk) <> 0) by (destruct (contents L junk); [done|cbn; lia]).
  apply retrieveLastFileSuffix_max; [| |lia].
  - rewrite (fo_files _ _ _ Hf). apply lookup_lt_is_Some. lia.
  - intros m Hm. apply (files_above _ _ _ _ Hf) in Hm. lia.
Qed.

(** The last block is in the current file, or in the one below when the current one has none. *)
Lemma last_block_number L b : good_chain max (chain_of L) -> last (chain_of L) = Some b ->
  match Some (block_bytes b) with
  | Some bs => lastBlock ← deserializeBlock bs; h ← deref (b_Header lastBlock); Ok (bh_Number h)
  | None => Ok 0%N
  end = Ok (N.of_nat (count L (length (ly_cur L)) - 1)).
Proof.
  intros G Hb. rewrite last_lookup in Hb. destruct (block_number b _ L G Hb) as (h & Hh & Hn & E & _). rewrite E. cbn. rewrite Hh. cbn.
  by rewrite Hn, length_chain, Nat.sub_1_r.
Qed.
Lemma getFileInfo_Some d n c : d_files d !! n = Some c -> getFileInfoOrPanic d n = Ok tt.
Proof. unfold getFileInfoOrPanic. by intros ->. Qed.
Lemma construct_current d L b : good_chain max (chain_of L) -> last (ly_cur L) = Some b ->
  (lastBlockBytes ←
    (if (N.of_nat (length (ly_cur L)) =? 0)%N && (0 <? Z.of_nat (ly_first L + length (ly_full L)))%Z
     then getFileInfoOrPanic d (Z.of_nat (ly_first L + length (ly_full L)) - 1) ;;
          '(lastBlockBytes, _, _) ← scanForLastCompleteBlock d (Z.of_nat (ly_first L + length (ly_full L)) - 1) 0; Ok lastBlockBytes
     else Ok (block_bytes <$> Some b));
  lastBlockNumber ←
    match lastBlockBytes with
    | Some bs => lastBlock ← deserializeBlock bs; h ← deref (b_Header lastBlock); Ok (bh_Number h)
    | None => Ok 0%N
    end;
  Ok (mkInfo (Z.of_nat (ly_first L + length (ly_full L))) (Z.of_nat (length (chunk_bytes (ly_cur L))))
        ((Z.of_nat (ly_first L + length (ly_full L)) =? 0)%Z && (N.of_nat (length (ly_cur L)) =? 0)%N) lastBlockNumber)) = Ok (info_of L).
Proof.
  intros G Hlast. assert (length (ly_cur L) <> 0) by (intros X%nil_length_inv; by rewrite X in Hlast).
  destruct (N.eqb_spec (N.of_nat (length (ly_cur L))) 0); [lia|]. cbn [andb fmap option_fmap option_map mbind outcome_bind].
  assert (last (chain_of L) = Some b) as Hb by (unfold chain_of, chunks; rewrite concat_app; cbn [concat]; by rewrite app_nil_r, app_assoc, last_app, Hlast).
  rewrite (last_block_number L b G Hb). cbn [mbind outcome_bind]. rewrite andb_false_r. unfold info_of, info_at. rewrite take_ge by done.
  destruct (Nat.eqb_spec (count L (length (ly_cur L))) 0) as [E0|]; [unfold count in E0; lia|done].
Qed.
Lemma construct_previous d L junk r seq : good_chain max (chain_of L) -> wf_layout max L -> files_ok d L junk -> prune_ok d L r seq -> ly_created L = true -> ly_cur L = [] ->
  (lastBlockBytes ←
    (if (N.of_nat (length (ly_cur L)) =? 0)%N && (0 <? Z.of_nat (ly_first L + length (ly_full L)))%Z
     then getFileInfoOrPanic d (Z.of_nat (ly_first L + length (ly_full L)) - 1) ;;
          '(lastBlockBytes, _, _) ← scanForLastCompleteBlock d (Z.of_nat (ly_first L + length (ly_full L)) - 1) 0; Ok lastBlockBytes
     else Ok (block_bytes <$> None));
  lastBlockNumber ←
    match lastBlockBytes with
    | Some bs => lastBlock ← deserializeBlock bs; h ← deref (b_Header lastBlock); Ok (bh_Number h)
    | None => Ok 0%N
    end;
  Ok (mkInfo (Z.of_nat (ly_first L + length (ly_full L))) (Z.of_nat (length (chunk_bytes (ly_cur L))))
        ((Z.of_nat (ly_first L + length (ly_full L)) =? 0)%Z && (N.of_nat (length (ly_cur L)) =? 0)%N) lastBlockNumber)) = Ok (info_of L).
Proof.
  intros G Hwf Hf Hp Hc Hcur. pose proof (wl_full _ _ Hwf) as Hfull. pose proof (pr_low _ _ _ _ Hp) as Hlow. pose proof (pr_high _ _ _ _ Hp) as Hhigh.
  pose proof (wl_first _ _ Hwf) as Hfirst. rewrite length_chain in Hhigh. unfold info_of, info_at, count in *. rewrite Hcur in *. cbn [length] in *.
  destruct (decide (ly_full L = [])) as [Efull|[l' [c' Efull]]%exists_last]; rewrite Efull in *.
  - cbn [concat length] in *. assert (length (ly_pruned L) = 0) as Hpr by lia. rewrite Hpr in *. by replace (ly_first L) with 0 by lia.
  - apply Forall_app in Hfull as [_ [Hne _]%Forall_cons]. rewrite length_app, concat_app, length_app. cbn [length concat].
    destruct (Z.ltb_spec 0 (Z.of_nat (ly_first L + (length l' + 1)))); [|lia]. cbn [N.of_nat N.eqb andb].
    replace (Z.of_nat (ly_first L + (length l' + 1)) - 1)%Z with (Z.of_nat (ly_first L + length l')) by lia.
    assert (chunks L !! length l' = Some c') as Hch.
    { unfold chunks. rewrite Efull, <-app_assoc, lookup_app_r by done. by rewrite Nat.sub_diag. }
    pose proof (file_lookup L d junk Hf Hc _ _ Hch) as Hlk. rewrite Efull, length_app in Hlk. cbn [length] in Hlk.
    destruct (Nat.eqb_spec (length l') (length l' + 1)); [lia|]. rewrite (getFileInfo_Some _ _ _ Hlk). cbn [mbind outcome_bind].
    rewrite (scanForLastCompleteBlock_chunk d _ [] c' [] Hlk (chunk_small max Hmax L G _ _ Hch) torn_nil : scanForLastCompleteBlock d _ 0 = _). cbn [mbind outcome_bind].
    destruct (last c') as [b|] eqn:Hlb; [|by apply last_None in Hlb]. cbn [fmap option_fmap option_map mbind outcome_bind].
    assert (last (chain_of L) = Some b) as Hb.
    { unfold chain_of, chunks. rewrite Hcur, Efull, !concat_app. cbn [concat]. rewrite !app_nil_r, app_assoc, last_app, Hlb. done. }
    change (N.of_nat 0 =? 0)%N with true. cbn [andb mbind outcome_bind]. rewrite (last_block_number L b G Hb). cbn [mbind outcome_bind]. unfold count. rewrite Hcur, Efull, concat_app, length_app. cbn [concat length]. rewrite !app_nil_r.
    rewrite andb_true_r. destruct (Z.eqb_spec (Z.of_nat (ly_first L + (length l' + 1))) 0); [lia|].
    assert (length c' <> 0) by (by intros X%nil_length_inv). destruct (Nat.eqb_spec (length (ly_pruned L) + (length (concat l') + length c') + 0) 0); [lia|done].
Qed.
Lemma construct_info d L junk s r seq : good_chain max (chain_of L) -> on_disk max d L junk None s r seq -> ly_extra L = false ->
  constructBlockfilesInfo d = Ok (info_of L).
Proof.
  intros G [Hwf Hf Ht _ Hk _ Hp] Hx. unfold constructBlockfilesInfo. destruct (ly_created L) eqn:Hc.
  - assert (contents L junk = (chunk_bytes <$> ly_full L) ++ [chunk_bytes (ly_cur L) ++ junk]) as Ec by (unfold contents; by rewrite Hc, Hx).
    rewrite (last_file d L junk Hf) by (rewrite Ec; by destruct (chunk_bytes <$> ly_full L)).
    rewrite Ec, length_app, length_fmap. cbn [length]. rewrite Nat.add_sub.
    destruct (Z.eqb_spec (Z.of_nat (ly_first L + length (ly_full L))) (-1)); [lia|].
    assert (d_files d !! Z.of_nat (ly_first L + length (ly_full L)) = Some (chunk_bytes (ly_cur L) ++ junk)) as Hcur by (rewrite (fo_files _ _ _ Hf); by apply contents_cur).
    rewrite (getFileInfo_Some _ _ _ Hcur). cbn [mbind outcome_bind].
    rewrite (scanForLastCompleteBlock_chunk d _ [] (ly_cur L) junk Hcur (cur_small L G) Ht : scanForLastCompleteBlock d _ 0 = _). cbn [mbind outcome_bind app].
    destruct (last (ly_cur L)) as [b|] eqn:Hlast.
    + by apply (construct_current d L b).
    + apply last_None in Hlast. by apply (construct_previous d L junk r seq).
  - assert (retrieveLastFileSuffix d = -1)%Z as ->; [|pose proof (wl_created _ _ Hwf Hc) as ->; done].
    unfold retrieveLastFileSuffix, file_numbers. replace (d_files d) with (∅ : gmap Z bytes); [done|]. symmetry. apply map_empty. intros n.
    destruct (d_files d !! n) eqn:E; [|done]. pose proof (files_above d L junk n Hf ltac:(by rewrite E)) as Hn.
    unfold contents in Hn. rewrite Hc, (wl_created _ _ Hwf Hc) in Hn. cbn in Hn. by rewrite (fo_neg _ _ _ Hf n) in E by lia.
Qed.

(** ** Completing the index *)
Record stream_at (L : layout) (strm : blockStream) (i : nat) (c1 c2 : list Block) : Prop := {
  sa_chunk : chunks L !! i = Some (c1 ++ c2);
  sa_end : bs_endFileNum strm = Z.of_nat (ly_first L + length (ly_full L));
  sa_num : s_fileNum (bs_currentFileStream strm) = Z.of_nat (ly_first L + i);
  sa_file : s_file (bs_currentFileStream strm) = chunk_bytes (c1 ++ c2);
  sa_off : s_currentOffset (bs_currentFileStream strm) = Z.of_nat (length (chunk_bytes c1))
}.
Definition pos (L : layout) (i : nat) (c1 : list Block) : nat := length (ly_pruned L) + length (concat (take i (chunks L))) + length c1.

Lemma clean_file d L i c : files_ok d L [] -> ly_created L = true -> chunks L !! i = Some c -> d_files d !! Z.of_nat (ly_first L + i) = Some (chunk_bytes c).
Proof. intros Hf Hc E. rewrite (file_lookup L d [] Hf Hc _ _ E). by destruct (i =? _)%nat; rewrite app_nil_r. Qed.
Lemma newBlockStream_at d L i c1 c2 : files_ok d L [] -> ly_created L = true -> chunks L !! i = Some (c1 ++ c2) ->
  exists strm, newBlockStream d (Z.of_nat (ly_first L + i)) (Z.of_nat (length (chunk_bytes c1))) (Z.of_nat (ly_first L + length (ly_full L))) = Ok strm /\ stream_at L strm i c1 c2.
Proof.
  intros Hf Hc E. unfold newBlockStream, newBlockfileStream. rewrite (clean_file d L i _ Hf Hc E). cbn [of_option mbind outcome_bind].
  destruct (Z.ltb_spec (Z.of_nat (length (chunk_bytes c1))) 0); [lia|]. eexists. split; [done|]. by split.
Qed.

(** The stream gives a block of the current file if there is one ... *)
Lemma stream_here d L strm i c1 b c2 fuel : good_chain max (chain_of L) -> stream_at L strm i c1 (b :: c2) ->
  exists pl strm', blockStream_next d fuel strm = Ok (Some (block_bytes b, pl), strm') /\ stream_at L strm' i (c1 ++ [b]) c2 /\
    bp_fileNum pl = Z.of_nat (ly_first L + i) /\ bp_blockStartOffset pl = Z.of_nat (length (chunk_bytes c1)).
Proof.
  intros G [E Hend Hnum Hfile Hoff]. assert (small b) as Hb. { eapply Forall_elt, (chunk_small max Hmax L G _ _ E). }
  rewrite chunk_bytes_app, chunk_bytes_cons in Hfile. pose proof (next_record _ _ Hoff b _ Hfile Hb) as N.
  eexists _, _. split; [destruct fuel; cbn [blockStream_next]; rewrite N; done|]. split; [|done].
  split; cbn [bs_endFileNum bs_currentFileStream s_fileNum s_file s_currentOffset]; rewrite <-?app_assoc; [done..| |].
  - by rewrite Hfile, chunk_bytes_app.
  - by rewrite chunk_bytes_snoc.
Qed.
(** ... or moves to the next file; only the last one may be empty, so there the stream ends. *)
Lemma stream_end d L strm i c1 fuel : stream_at L strm i c1 [] -> i = length (ly_full L) -> blockStream_next d fuel strm = Ok (None, strm).
Proof.
  intros [E Hend Hnum Hfile Hoff] ->. rewrite app_nil_r in Hfile. pose proof (next_end _ _ Hoff Hfile) as N.
  destruct strm as [en fs]. cbn in *. destruct fuel; cbn; rewrite N; cbn; [done|]. rewrite Hnum, Hend, Z.ltb_irrefl.
  by destruct (Z.ltb_spec (Z.of_nat (ly_first L + length (ly_full L))) 0); [lia|].
Qed.
Lemma stream_move d L strm i c1 c fuel : files_ok d L [] -> ly_created L = true -> stream_at L strm i c1 [] -> chunks L !! S i = Some c -> 0 < fuel ->
  exists strm', stream_at L strm' (S i) [] c /\ blockStream_next d fuel strm = blockStream_next d (fuel - 1) strm'.
Proof.
  intros Hf Hc [E Hend Hnum Hfile Hoff] E' Hfuel. rewrite app_nil_r in Hfile. pose proof (next_end _ _ Hoff Hfile) as N.
  destruct (newBlockStream_at d L (S i) [] c Hf Hc E') as (strm' & En & Hat). exists strm'. split; [done|].
  destruct fuel as [|fuel]; [lia|]. rewrite Nat.sub_1_r. cbn [blockStream_next Nat.pred]. rewrite N. cbn [mbind outcome_bind bs_endFileNum].
  rewrite Hnum, Hend. apply lookup_lt_Some in E'. unfold chunks in E'. rewrite length_app in E'. cbn in E'.
  destruct (Z.ltb_spec (Z.of_nat (ly_first L + i)) (Z.of_nat (ly_first L + length (ly_full L)))); [|lia]. cbn [orb].
  unfold moveToNextBlockfileStream. cbn [bs_currentFileStream bs_endFileNum]. rewrite Hnum.
  replace (Z.of_nat (ly_first L + i) + 1)%Z with (Z.of_nat (ly_first L + S i)) by lia.
  unfold newBlockStream in En. rewrite chunk_bytes_nil in En. change (Z.of_nat (length [])) with 0%Z in En. by rewrite ?Hend, En.
Qed.

Lemma pos_next L i c : chunks L !! i = Some c -> pos L i c = pos L (S i) [].
Proof. intros E. unfold pos. rewrite (take_S_r _ _ _ E), concat_app, length_app. cbn. rewrite app_nil_r. lia. Qed.
Lemma pos_last L : pos L (length (ly_full L)) (ly_cur L) = length (chain_of L).
Proof. unfold pos, chain_of, chunks. by rewrite take_app_length, concat_app, !length_app; cbn; rewrite app_nil_r; lia. Qed.

(** What is left of the chain is what the stream still gives. *)
Lemma stream_next d L strm i c1 c2 : good_chain max (chain_of L) -> wf_layout max L -> files_ok d L [] -> ly_created L = true -> stream_at L strm i c1 c2 ->
  if decide (pos L i c1 < length (chain_of L))
  then exists b f off pl strm' i' c1' c2', nextBlockBytesAndPlacementInfo d strm = Ok (Some (block_bytes b, pl), strm') /\ stream_at L strm' i' c1' c2' /\
    located L (pos L i c1) b f off /\ bp_fileNum pl = Z.of_nat f /\ bp_blockStartOffset pl = off /\ pos L i' c1' = S (pos L i c1)
  else exists strm', nextBlockBytesAndPlacementInfo d strm = Ok (None, strm').
Proof.
  intros G Hwf Hf Hc Hat. pose proof (sa_chunk _ _ _ _ _ Hat) as E. unfold nextBlockBytesAndPlacementInfo, files_ahead.
  rewrite (sa_end _ _ _ _ _ Hat), (sa_num _ _ _ _ _ Hat). set (fuel := Z.to_nat _).
  assert (forall strm i c1 b c2 fuel, stream_at L strm i c1 (b :: c2) -> exists b f off pl strm' i' c1' c2', blockStream_next d fuel strm = Ok (Some (block_bytes b, pl), strm') /\
    stream_at L strm' i' c1' c2' /\ located L (pos L i c1) b f off /\ bp_fileNum pl = Z.of_nat f /\ bp_blockStartOffset pl = off /\ pos L i' c1' = S (pos L i c1)) as Here.
  { clear -G Hmax. intros strm i c1 b c2 fuel Hat. destruct (stream_here d L strm i c1 b c2 fuel G Hat) as (pl & strm' & N & Hat' & P1 & P2).
    exists b, (ly_first L + i), (Z.of_nat (length (chunk_bytes c1))), pl, strm', i, (c1 ++ [b]), c2. split_and!; [done|done| |done|done|].
    - exists i, c1, c2. split; [apply Hat|done].
    - unfold pos. rewrite length_app. cbn. lia. }
  destruct c2 as [|b c2].
  - rewrite app_nil_r in E. pose proof (pos_next L i c1 E) as Ep. destruct (chunks L !! S i) as [c|] eqn:E'.
    + assert (0 < fuel). { apply lookup_lt_Some in E'. unfold chunks in E'. rewrite length_app in E'. cbn in E'. unfold fuel. lia. }
      destruct (stream_move d L strm i c1 c fuel Hf Hc Hat E' ltac:(done)) as (strm' & Hat' & ->). destruct c as [|b c].
      * assert (S i = length (ly_full L)) as Hi.
        { unfold chunks in E'. apply lookup_app_Some in E' as [E'|[Hi' E']].
          - pose proof (wl_full _ _ Hwf) as F. rewrite Forall_lookup in F. by apply F in E'.
          - apply list_lookup_singleton_Some in E' as [E' _]. lia. }
        assert (ly_cur L = []) as Hcur. { rewrite Hi, chunks_cur in E'. congruence. }
        pose proof (pos_last L) as Hl. rewrite Hcur, <-Hi in Hl. rewrite decide_False by lia. rewrite (stream_end d L strm' (S i) [] _ Hat' Hi). eauto.
      * pose proof (Here strm' (S i) [] b c (fuel - 1) Hat') as X. rewrite <-Ep in X. rewrite decide_True; [done|].
        destruct X as (b' & f & off & _ & _ & _ & _ & _ & _ & _ & Hl & _). apply located_chain, lookup_lt_Some in Hl. done.
    + assert (i = length (ly_full L)) as Hi. { apply lookup_ge_None in E'. apply lookup_lt_Some in E. unfold chunks in *. rewrite length_app in *. cbn in *. lia. }
      assert (c1 = ly_cur L) as Hc1. { rewrite Hi, chunks_cur in E. congruence. }
      pose proof (pos_last L) as Hl. rewrite <-Hc1, <-Hi in Hl. rewrite decide_False by lia. rewrite (stream_end d L strm i c1 _ Hat Hi). eauto.
  - pose proof (Here strm i c1 b c2 fuel Hat) as X. rewrite decide_True; [done|].
    destruct X as (b' & f & off & _ & _ & _ & _ & _ & _ & _ & Hl & _). by apply located_chain, lookup_lt_Some in Hl.
Qed.

Definition index_db (n : nat) (f : nat) (off : Z) (d : Disk) : Disk :=
  set_db (<[indexSavePointKey := encodeBlockNum (N.of_nat n)]> (<[constructBlockNumKey (N.of_nat n) := fileLocPointer_marshal (mkLoc (Z.of_nat f) off 0)]> (d_db d))) d.
Lemma number_key_ne m n : (N.of_nat m <= u64_max)%N -> (N.of_nat n <= u64_max)%N -> m <> n -> constructBlockNumKey (N.of_nat m) <> constructBlockNumKey (N.of_nat n).
Proof. intros Hm Hn Hne E. apply constructBlockNumKey_inj in E; [lia|done..]. Qed.

Lemma index_step d L s n b f off : good_chain max (chain_of L) -> index_ok d L s -> located L n b f off -> s = n \/ s = 0 /\ n = length (ly_pruned L) ->
  index_ok (index_db n f off d) L (S n).
Proof.
  intros G [Hs Hb Hl Hn] Hloc Hsn. pose proof (located_chain _ _ _ _ _ Hloc) as Hch. destruct (chain_number max L G _ _ Hch) as (_ & _ & Hu).
  apply lookup_lt_Some in Hch as Hlt. pose proof (located_stored _ _ _ _ _ Hloc) as Hst.
  split; unfold index_db, set_db; cbn [d_db].
  - by rewrite lookup_insert_eq.
  - lia.
  - intros m b' f' off' Hloc' Hm. rewrite lookup_insert_ne by auto with go. destruct (decide (m = n)) as [->|Hne].
    + destruct (located_fun _ _ _ _ _ _ _ _ Hloc Hloc') as (<- & <- & <-). by rewrite lookup_insert_eq.
    + pose proof (located_stored _ _ _ _ _ Hloc'). rewrite lookup_insert_ne by (apply number_key_ne; lia). eapply Hl; [done|lia].
  - intros m Hm Hum. rewrite lookup_insert_ne by auto with go. rewrite lookup_insert_ne by (apply number_key_ne; lia). apply Hn; [lia|done].
Qed.
Lemma on_disk_index d d' L junk k s s' r seq : on_disk max d L junk k s r seq -> index_ok d' L s' -> d_files d' = d_files d -> d_prune d' = d_prune d ->
  d_db d' !! blkMgrInfoKey = d_db d !! blkMgrInfoKey -> on_disk max d' L junk k s' r seq.
Proof. intros [] Hi E1 E2 E3. split; [done|by eapply files_ok_files|done|congruence|done|done|by eapply prune_ok_files]. Qed.
Lemma on_disk_index_step d L junk k s r seq n b f off : good_chain max (chain_of L) -> on_disk max d L junk k s r seq -> located L n b f off ->
  s = n \/ s = 0 /\ n = length (ly_pruned L) -> on_disk max (index_db n f off d) L junk k (S n) r seq.
Proof.
  intros G O Hl Hs. eapply on_disk_index; [done|eapply index_step; [done|apply O|done|done]|done|done|].
  unfold index_db, set_db. cbn [d_db]. rewrite !lookup_insert_ne by auto with go. done.
Qed.
Lemma indexBlock_eq fl n f off s : f_write fl = false ->
  indexBlock (N.of_nat n) (mkLoc (Z.of_nat f) off 0) fl s = ([index_db n f off (st_disk s)], (mkStore (index_db n f off (st_disk s)) (st_mgr s), Ok tt)).
Proof. intros Hw. unfold indexBlock. by rewrite Hw. Qed.

(** The bytes on disk are enough fuel for the loop. *)
Lemma fold_lengths_ge (m : gmap Z bytes) n (l : list bytes) : (forall i, i < length l -> m !! Z.of_nat (n + i) = l !! i) ->
  length (concat l) <= map_fold (fun _ content n => length content + n) 0 m.
Proof.
  revert m n; induction l as [|c l IH]; intros m n E; cbn; [lia|]. pose proof (E 0 ltac:(cbn; lia)) as E0. rewrite Nat.add_0_r in E0. cbn in E0.
  rewrite length_app, (map_fold_delete_L _ 0 (Z.of_nat n) c m) by (first [done|intros; lia]). apply Nat.add_le_mono_l, (IH _ (S n)).
  intros i Hi. rewrite lookup_delete_ne by lia. specialize (E (S i) ltac:(cbn; lia)). by replace (S n + i) with (n + S i) by lia.
Qed.
Lemma length_concat_chunks l : length (concat l) <= length (concat (chunk_bytes <$> l)).
Proof. induction l as [|c l IH]; [done|]. rewrite fmap_cons. cbn [concat]. rewrite !length_app. pose proof (length_chunk_bytes c). lia. Qed.
Lemma disk_bytes_ge d L : files_ok d L [] -> ly_created L = true -> length (chain_of L) - length (ly_pruned L) <= disk_bytes d.
Proof.
  intros Hf Hc. unfold chain_of. rewrite length_app. transitivity (length (concat (chunk_bytes <$> chunks L))); [pose proof (length_concat_chunks (chunks L)); lia|].
  apply (fold_lengths_ge _ (ly_first L)). intros i Hi. rewrite length_fmap in Hi. apply lookup_lt_is_Some in Hi as [c E]. by rewrite (clean_file d L i c Hf Hc E), list_lookup_fmap, E.
Qed.

(** The first stored file starts with the first stored block. *)
Lemma first_chunk L r seq d : good_chain max (chain_of L) -> wf_layout max L -> prune_ok d L r seq -> length (chain_of L) <> 0 ->
  exists b c, chunks L !! 0 = Some (b :: c) /\ located L (length (ly_pruned L)) b (ly_first L) 0.
Proof.
  intros G Hwf Hp Hne. assert (exists c, chunks L !! 0 = Some c /\ c <> []) as (c & E & Hc).
  { unfold chunks. pose proof (wl_full _ _ Hwf) as F. destruct (ly_full L) as [|c l] eqn:Efull; [|apply Forall_cons in F as [F _]; by exists c].
    exists (ly_cur L). split; [done|]. intros Hcur. pose proof (pr_low _ _ _ _ Hp). pose proof (pr_high _ _ _ _ Hp).
    rewrite length_chain in *. unfold count in *. rewrite Efull, Hcur in *. cbn in *. lia. }
  destruct c as [|b c]; [done|]. exists b, c. split; [done|]. exists 0, [], c. split; [done|]. rewrite take_0. cbn [concat length]. split_and!; [lia|lia|done].
Qed.
Lemma getBlockLoc_located d L s n b f off : good_chain max (chain_of L) -> wf_layout max L -> index_ok d L s -> located L n b f off -> n < s ->
  getBlockLocByBlockNum d (N.of_nat n) = Ok (mkLoc (Z.of_nat f) off 0).
Proof.
  intros G Hwf Hi Hl Hn. unfold getBlockLocByBlockNum. rewrite (ix_loc _ _ _ Hi n b f off Hl Hn).
  destruct (located_int max Hmax L G Hwf _ _ _ _ Hl) as [H1 H2]. apply fileLocPointer_roundtrip; [done|done|]. unfold is_int, max_int64. cbn. lia.
Qed.
Lemma retrieveFirst_stored d L junk r seq : good_chain max (chain_of L) -> wf_layout max L -> files_ok d L junk -> prune_ok d L r seq -> ly_created L = true -> length (chain_of L) <> 0 ->
  retrieveFirstBlockNumFromFile d (Z.of_nat (ly_first L)) = Ok (N.of_nat (length (ly_pruned L))).
Proof.
  intros G Hwf Hf Hp Hc Hne. destruct (first_chunk L r seq d G Hwf Hp Hne) as (b & c & E & Hl). pose proof (located_chain _ _ _ _ _ Hl) as Hch.
  destruct (chain_number max L G _ _ Hch) as (Gb & (h & Hh & Hn) & Hu). rewrite <-Hn.
  eapply retrieveFirstBlockNum_chunk; [|by apply (good_small max Hmax)|done|lia].
  pose proof (file_lookup L d junk Hf Hc 0 _ E) as X. rewrite Nat.add_0_r in X. exact X.
Qed.

Context (fl : Faults) (Hw : f_write fl = false).

Lemma syncIndex_loop_wp L k r seq fuel strm i c1 c2 s st : good_chain max (chain_of L) -> ly_created L = true -> stream_at L strm i c1 c2 ->
  on_disk max (st_disk st) L [] (Some k) s r seq -> s = pos L i c1 \/ s = 0 /\ pos L i c1 = length (ly_pruned L) /\ pos L i c1 < length (chain_of L) ->
  length (chain_of L) - pos L i c1 <= fuel -> pos L i c1 <= length (chain_of L) ->
  wp fl (syncIndex_loop fuel strm) st (fun d => exists s', on_disk max d L [] (Some k) s' r seq)
    (fun o st' => o = Ok tt /\ st_mgr st' = st_mgr st /\ on_disk max (st_disk st') L [] (Some k) (length (chain_of L)) r seq).
Proof.
  intros G Hc. revert strm i c1 c2 s st. induction fuel as [|fuel IH]; intros strm i c1 c2 s st Hat O Hs Hf Hle;
    pose proof (stream_next _ L strm i c1 c2 G (od_wf _ _ _ _ _ _ _ _ O) (od_files _ _ _ _ _ _ _ _ O) Hc Hat) as N; cbn [syncIndex_loop]; wp_steps.
  - rewrite decide_False in N by lia. destruct N as [strm' ->]. cbn. wp_steps. assert (s = length (chain_of L)) as <- by lia. done.
  - case_decide as Hp.
    + destruct N as (b & f & off & pl & strm' & i' & c1' & c2' & -> & Hat' & Hl & P1 & P2 & Hpos). cbn. wp_steps.
      pose proof (located_chain _ _ _ _ _ Hl) as Hch. destruct (block_number b _ L G Hch) as (h & _ & Hn & _ & -> & _). cbn. wp_steps.
      rewrite Hn, P1, P2. pose proof (on_disk_index_step _ _ _ _ _ _ _ _ _ _ _ G O Hl ltac:(lia)) as O'.
      unfold wp. rewrite indexBlock_eq by done. split; [constructor; [by eexists|constructor]|].
      eapply wp_mono; [eapply (IH strm' i' c1' c2' _ _ Hat'); [exact O'|lia|lia|lia]|]. done.
    + destruct N as [strm' ->]. cbn. wp_steps. assert (s = length (chain_of L)) as <- by lia. done.
Qed.

Lemma syncIndex_wp L r seq s st : good_chain max (chain_of L) -> ly_created L = true ->
  on_disk max (st_disk st) L [] (Some (length (ly_cur L))) s r seq ->
  m_blockfilesInfo (st_mgr st) = info_of L -> m_pruneInfo (st_mgr st) = mkPrune r (Z.of_nat (ly_first L)) ->
  wp fl syncIndex st (fun d => exists s', on_disk max d L [] (Some (length (ly_cur L))) s' r seq)
    (fun o st' => o = Ok tt /\ st_mgr st' = st_mgr st /\ on_disk max (st_disk st') L [] (Some (length (ly_cur L))) (length (chain_of L)) r seq).
Proof.
  intros G Hc O Hinfo Hpr. pose proof (od_wf _ _ _ _ _ _ _ _ O) as Hwf. pose proof (od_files _ _ _ _ _ _ _ _ O) as Hf. pose proof (od_index _ _ _ _ _ _ _ _ O) as Hi.
  pose proof (od_prune _ _ _ _ _ _ _ _ O) as Hp. pose proof (ix_bounds _ _ _ Hi) as [Hs1 Hs2]. pose proof (gc_length _ _ G) as Hlen. unfold max_int64 in Hlen.
  unfold syncIndex. wp_steps. rewrite Hinfo, Hpr. unfold info_of at 1. cbn [noBlockFiles info_at]. rewrite <-length_chain.
  destruct (Nat.eqb_spec (length (chain_of L)) 0) as [Hz|Hz]; [wp_steps; rewrite Hz in *; replace s with 0 in O by lia; done|].
  assert (match getLastBlockIndexed (st_disk st) with None => 0%N | Some n => u64_incr n end = N.of_nat s) as ->.
  { unfold getLastBlockIndexed. rewrite (ix_save _ _ _ Hi). destruct s as [|n]; [done|]. cbn. rewrite decode_encodeBlockNum by (unfold u64_max; lia).
    rewrite u64_incr_small by (unfold u64_max; lia). lia. }
  assert (u64_incr (lastPersistedBlock (info_of L)) = N.of_nat (length (chain_of L))) as ->.
  { cbn. rewrite <-length_chain, u64_incr_small by (unfold u64_max; lia). lia. }
  destruct (N.eqb_spec (N.of_nat s) (N.of_nat (length (chain_of L)))) as [E|E]; [wp_steps; by replace (length (chain_of L)) with s by lia|].
  pose proof (pr_low _ _ _ _ Hp). pose proof (pr_high _ _ _ _ Hp). cbn [firstStoredBlockfileNum].
  apply wp_bind, wp_lift. rewrite (retrieveFirst_stored _ L [] r seq) by done. cbn beta iota.
  pose proof (disk_bytes_ge _ L Hf Hc) as Hbytes.
  destruct (N.ltb_spec (N.of_nat (length (ly_pruned L))) (N.of_nat s)) as [Hlt|Hlt].
  - assert (default 0%N (getLastBlockIndexed (st_disk st)) = N.of_nat (s - 1)) as ->.
    { unfold getLastBlockIndexed. rewrite (ix_save _ _ _ Hi). destruct s as [|n]; [lia|]. cbn. rewrite decode_encodeBlockNum by (unfold u64_max; lia). f_equal. lia. }
    destruct (lookup_lt_is_Some_2 (chain_of L) (s - 1)) as [b Hb]; [lia|]. destruct (chain_located L _ b Hb ltac:(lia)) as (f & off & Hl).
    rewrite (getBlockLoc_located _ L s _ b f off) by (first [done|lia]). pose proof Hl as (i & c1 & c2 & Ei & En & -> & ->).
    destruct (newBlockStream_at _ L i c1 (b :: c2) Hf Hc Ei) as (strm & Estrm & Hat). wp_steps. cbn [fileSuffixNum offset latestFileNumber info_of info_at].
    rewrite Estrm. cbn beta iota. wp_steps. pose proof (stream_next _ L strm i c1 (b :: c2) G Hwf Hf Hc Hat) as N. change (pos L i c1) with (length (ly_pruned L) + length (concat (take i (chunks L))) + length c1) in N.
    rewrite <-En in N. rewrite decide_True in N by lia. destruct N as (b' & f & off & pl & strm' & i' & c1' & c2' & -> & Hat' & _ & _ & _ & Hpos).
    cbn beta iota. wp_steps. eapply syncIndex_loop_wp; [done|done|done|done|left; lia|lia|lia].
  - destruct (first_chunk L r seq _ G Hwf Hp Hz) as (b & c & E0 & Hl). destruct (newBlockStream_at _ L 0 [] (b :: c) Hf Hc E0) as (strm & Estrm & Hat).
    rewrite Nat.add_0_r in Estrm. wp_steps. cbn [latestFileNumber info_of info_at]. rewrite chunk_bytes_nil in Estrm. change (Z.of_nat (length [])) with 0%Z in Estrm. rewrite Estrm. cbn beta iota.
    assert (pos L 0 [] = length (ly_pruned L)) as Ep by (unfold pos; rewrite take_0; cbn [concat length]; lia). apply located_chain, lookup_lt_Some in Hl.
    eapply syncIndex_loop_wp; [done|done|done|done|right; lia|lia|lia].
Qed.

(** ** The record of pruning *)
Lemma last_sorted_max (l : list N) m : m ∈ l -> (forall n, n ∈ l -> n <= m)%N -> NoDup l ->
  exists l', merge_sort N.le l = l' ++ [m] /\ m ∉ l'.
Proof.
  intros Hm Hall Hnd. pose proof (merge_sort_Permutation N.le l) as P. pose proof (Sorted_merge_sort N.le l) as S.
  apply (Sorted_StronglySorted _) in S. rewrite <-P in Hm, Hnd.
  destruct (decide (merge_sort N.le l = [])) as [E|[l' [x E]]%exists_last]; [rewrite E in Hm; by apply elem_of_nil in Hm|].
  assert (x = m) as ->.
  { assert (x <= m)%N by (apply Hall; rewrite <-P, E; set_solver). rewrite E in Hm, S. apply elem_of_app in Hm as [Hm|Hm]; [|set_solver].
    assert (m <= x)%N; [|lia]. eapply (StronglySorted_app_1_elem_of _ l' [x]); [done|done|set_solver]. }
  exists l'. split; [done|]. rewrite E in Hnd. apply NoDup_app in Hnd as (_ & Hd & _). intros Hin. apply (Hd m Hin). set_solver.
Qed.

Lemma on_disk_prune d d' L junk k s r seq r' seq' : on_disk max d L junk k s r seq -> prune_ok d' L r' seq' -> d_files d' = d_files d -> d_db d' = d_db d ->
  on_disk max d' L junk k s r' seq'.
Proof.
  intros [] Hp E1 E2. split; [done|by eapply files_ok_files|done|congruence|done| |done]. eapply index_ok_db; [done|by rewrite E2|intros; by rewrite E2].
Qed.
Lemma prune_ok_delete d L r seq n : prune_ok d L r seq -> n <> seq -> seq <> 0%N -> prune_ok (set_pruneFiles (delete n (d_prune d)) d) L r seq.
Proof.
  intros [Hr ? ? ?] Hn Hz. split; [|done..]. destruct seq as [|p]; [done|]. destruct Hr as [Hr1 Hr2]. cbn. split; [by rewrite lookup_delete_ne|].
  intros m Hm. apply Hr2. destruct (decide (n = m)) as [->|]; [rewrite lookup_delete_eq in Hm; by apply is_Some_None in Hm|by rewrite lookup_delete_ne in Hm].
Qed.

Lemma drop_seqs_wp L junk k s r seq l st : on_disk max (st_disk st) L junk k s r seq -> seq ∉ l -> seq <> 0%N ->
  wp fl (drop_seqs l) st (fun d => on_disk max d L junk k s r seq)
    (fun o st' => o = Ok tt /\ st_mgr st' = st_mgr st /\ on_disk max (st_disk st') L junk k s r seq).
Proof.
  revert st; induction l as [|n l IH]; intros st O Hn Hz; cbn [drop_seqs]; wp_steps; [done|].
  apply not_elem_of_cons in Hn as [Hn Hl].
  assert (on_disk max (set_pruneFiles (delete n (d_prune (st_disk st))) (st_disk st)) L junk k s r seq) as O'.
  { eapply on_disk_prune; [done|apply prune_ok_delete; [apply O|congruence|done]|done|done]. }
  apply wp_set_disk; [constructor|done|]. eapply wp_mono; [by apply IH|]. done.
Qed.

Lemma getInfo_wp L junk k s r seq st : good_chain max (chain_of L) -> on_disk max (st_disk st) L junk k s r seq ->
  wp fl getInfo st (fun d => on_disk max d L junk k s r seq)
    (fun o st' => o = Ok (mkPrune r (Z.of_nat (ly_first L)), seq) /\ st_mgr st' = st_mgr st /\ on_disk max (st_disk st') L junk k s r seq).
Proof.
  intros G O. pose proof (od_prune _ _ _ _ _ _ _ _ O) as Hp. pose proof (pr_record _ _ _ _ Hp) as Hr. unfold getInfo. wp_steps.
  destruct (decide (seq = 0%N)) as [->|Hz].
  - destruct Hr as (E & -> & ->). assert (seqs (st_disk st) = []) as ->. { unfold seqs. by rewrite E, map_to_list_empty. }
    cbn. wp_steps. done.
  - assert (d_prune (st_disk st) !! seq = Some (pruneInfo_marshal (mkPrune r (Z.of_nat (ly_first L)))) /\ forall n, is_Some (d_prune (st_disk st) !! n) -> (n <= seq)%N) as [Hseq Hall] by by destruct seq.
    destruct (last_sorted_max (map_to_list (d_prune (st_disk st))).*1 seq) as (l' & E & Hl').
    { apply list_elem_of_fmap. eexists (seq, _). split; [done|]. by apply elem_of_map_to_list. }
    { intros n ([n' c] & -> & Hc)%list_elem_of_fmap. apply elem_of_map_to_list in Hc. by apply Hall. }
    { apply NoDup_fst_map_to_list. }
    unfold seqs. rewrite E, last_snoc. cbn beta iota. wp_steps. rewrite Hseq. cbn [of_option]. wp_steps.
    pose proof (file_bound max L G (od_wf _ _ _ _ _ _ _ _ O)) as Hfb. pose proof (pr_high _ _ _ _ Hp) as Hh. pose proof (gc_length _ _ G).
    rewrite pruneInfo_roundtrip; cbn [firstReadableBlockNum firstStoredBlockfileNum]; [|unfold u64_max, max_int64 in *; lia|unfold is_int, max_int64 in *; lia].
    cbn [wrap_err]. wp_steps. rewrite removelast_last. eapply wp_mono; [by apply (drop_seqs_wp L junk k s r seq)|].
    intros o st' (-> & E' & O'). cbn beta iota. by wp_steps.
Qed.

(** ** Files below the first *)
Lemma files_ok_below d L junk n : files_ok d L junk -> (n < Z.of_nat (ly_first L))%Z -> files_ok (mkDisk (delete n (d_files d)) (d_db d) (d_prune d)) L junk.
Proof.
  intros [Hn Hf] Hlt. split; cbn [d_files].
  - intros m Hm. destruct (decide (n = m)) as [->|]; [by rewrite lookup_delete_eq|rewrite lookup_delete_ne by done; by apply Hn].
  - intros i. rewrite lookup_delete_ne by lia. apply Hf.
Qed.
Lemma on_disk_files d d' L junk k s r seq : on_disk max d L junk k s r seq -> files_ok d' L junk -> d_db d' = d_db d -> d_prune d' = d_prune d -> on_disk max d' L junk k s r seq.
Proof.
  intros [] Hf E1 E2. split; [done|done|done|congruence|done| |by eapply prune_ok_files]. eapply index_ok_db; [done|by rewrite E1|intros; by rewrite E1].
Qed.
Lemma sweep_wp L junk k s r seq nums st : on_disk max (st_disk st) L junk k s r seq -> StronglySorted Z.le nums ->
  (forall n, is_Some (d_files (st_disk st) !! n) -> (n < Z.of_nat (ly_first L))%Z -> n ∈ nums) ->
  wp fl (sweep (Z.of_nat (ly_first L)) nums) st (fun d => on_disk max d L junk k s r seq)
    (fun o st' => o = Ok tt /\ st_mgr st' = st_mgr st /\ on_disk max (st_disk st') L junk k s r seq /\
       forall n, (n < Z.of_nat (ly_first L))%Z -> d_files (st_disk st') !! n = None).
Proof.
  revert st; induction nums as [|n nums IH]; intros st O Hs Hin; cbn [sweep].
  - wp_steps. split_and!; [done|done|done|]. intros n Hn. destruct (d_files (st_disk st) !! n) eqn:E; [|done]. destruct (not_elem_of_nil n). apply Hin; [by rewrite E|done].
  - apply StronglySorted_inv in Hs as [Hs Hall]. rewrite Forall_forall in Hall. destruct (Z.leb_spec (Z.of_nat (ly_first L)) n) as [Hn|Hn].
    + wp_steps. split_and!; [done|done|done|]. intros m Hm. destruct (d_files (st_disk st) !! m) eqn:E; [|done].
      specialize (Hin m ltac:(by rewrite E) Hm). apply elem_of_cons in Hin as [->|Hin]; [lia|]. apply Hall in Hin. lia.
    + wp_steps. unfold removeBlockfile. wp_steps.
      assert (on_disk max (mkDisk (delete n (d_files (st_disk st))) (d_db (st_disk st)) (d_prune (st_disk st))) L junk k s r seq) as O'.
      { eapply on_disk_files; [done|apply files_ok_below; [apply O|done]|done|done]. }
      apply wp_set_disk; [constructor|done|]. cbn beta iota. eapply wp_mono; [apply IH; [exact O'|done|]|done]. cbn [st_disk d_files].
      intros m Hm Hlt. destruct (decide (n = m)) as [->|Hne]; [rewrite lookup_delete_eq in Hm; by apply is_Some_None in Hm|].
      rewrite lookup_delete_ne in Hm by done. specialize (Hin m Hm Hlt). apply elem_of_cons in Hin as [->|]; [done|done].
Qed.
Lemma sweepOrphans_wp L junk k s r seq st : on_disk max (st_disk st) L junk k s r seq ->
  wp fl (sweepOrphans (Z.of_nat (ly_first L))) st (fun d => on_disk max d L junk k s r seq)
    (fun o st' => o = Ok tt /\ st_mgr st' = st_mgr st /\ on_disk max (st_disk st') L junk k s r seq /\
       forall n, (n < Z.of_nat (ly_first L))%Z -> d_files (st_disk st') !! n = None).
Proof.
  intros O. unfold sweepOrphans. destruct (Z.eqb_spec (Z.of_nat (ly_first L)) 0) as [E|E].
  - wp_steps. split_and!; [done|done|done|]. intros n Hn. apply (fo_neg _ _ _ (od_files _ _ _ _ _ _ _ _ O)). lia.
  - wp_steps. apply sweep_wp; [done| |].
    + apply (Sorted_StronglySorted _), (Sorted_merge_sort _).
    + intros n [c Hc] _. unfold blockfileNumsIn. rewrite merge_sort_Permutation. apply list_elem_of_fmap. exists (n, c). split; [done|]. by apply elem_of_map_to_list.
Qed.

(** ** The manager in memory *)
Definition bc_ok (i : BlockchainInfo) (l : list Block) : Prop :=
  bci_Height i = Height l /\ CurrentBlockHash l = Ok (bci_CurrentBlockHash i) /\
  match last l with Some b => exists h, b_Header b = Some h /\ bci_PreviousBlockHash i = bh_PreviousHash h | None => bci_PreviousBlockHash i = [] end.

(** The cache holds the latest blocks in a row, since the last start. *)
Record cache_ok (c : cache) (l : list Block) : Prop := {
  ca_max : (0 < c_maxSizeBytes c)%Z;
  ca_dom : (c_cache c = ∅ /\ c_maxSeq c = 0%N) \/
    exists k, k <= length l /\ l <> [] /\ c_maxSeq c = N.of_nat (length l - 1) /\ dom (c_cache c) = list_to_set (N.of_nat <$> seq (length l - k) k);
  ca_size : c_sizeBytes c = map_fold (fun _ x acc => snd x + acc)%Z 0%Z (c_cache c);
  ca_block : forall n b sz, c_cache c !! n = Some (b, sz) -> (0 <= sz)%Z /\ l !! N.to_nat n = Some (stored b)
}.

Record store_ok (st : Store) (L : layout) (r seq : N) : Prop := {
  so_good : good_chain max (chain_of L);
  so_disk : on_disk max (st_disk st) L [] (Some (length (ly_cur L))) (length (chain_of L)) r seq;
  so_created : ly_created L = true;
  so_max : m_maxBlockfileSize (st_mgr st) = max;
  so_info : m_blockfilesInfo (st_mgr st) = info_of L;
  so_writer : m_currentFileWriter (st_mgr st) = Z.of_nat (ly_first L + length (ly_full L));
  so_bc : bc_ok (m_bcInfo (st_mgr st)) (chain_of L);
  so_cache : cache_ok (m_cache (st_mgr st)) (chain_of L);
  so_prune : m_pruneInfo (st_mgr st) = mkPrune r (Z.of_nat (ly_first L));
  so_seq : m_infoSeq (st_mgr st) = seq
}.

(** A disk that holds the chain [l], of which blocks from [r] on may be read. *)
Definition disk_ok (l : list Block) (r : N) (d : Disk) : Prop :=
  good_chain max l /\ exists L junk k s seq, chain_of L = l /\ on_disk max d L junk k s r seq.
(** A store that is open on it. *)
Definition open_on (l : list Block) (r : N) (st : Store) : Prop := exists L seq, chain_of L = l /\ store_ok st L r seq.
Lemma open_on_disk l r st : open_on l r st -> disk_ok l r (st_disk st).
Proof. intros (L & seq & <- & S). split; [apply S|]. eexists L, [], _, _, seq. split; [done|apply S]. Qed.
Lemma empty_disk_ok : disk_ok [] 0 empty_disk.
Proof.
  split; [split; [apply chain_ok_nil|constructor|done]|]. exists (mkLayout [] 0 [] [] false false), [], None, 0, 0%N. split; [done|].
  split; [|split; intros; by rewrite ?lookup_empty|apply torn_nil|done|by left| |].
  - split; cbn; try done. constructor; [rewrite chunk_bytes_nil; cbn; lia|constructor].
  - split; cbn; [done|lia| |done]. intros n b f off (i & c1 & c2 & E & _). apply list_lookup_singleton_Some in E as [_ E]. by destruct c1.
  - split; cbn; try done. by left.
Qed.

(** Reading the header of a block of an open store. *)
Lemma checkBlockAvailable_ok m n r f : m_pruneInfo m = mkPrune r f -> checkBlockAvailable m n = if (n <? r)%N then Err ErrPruned else Ok tt.
Proof. intros E. unfold checkBlockAvailable. rewrite E. cbn. by destruct (n <? r)%N. Qed.
Lemma retrieveHeader_ok d m L junk k s r seq n b h f : good_chain max (chain_of L) -> on_disk max d L junk k s r seq -> ly_created L = true -> m_pruneInfo m = mkPrune r f ->
  chain_of L !! n = Some b -> b_Header b = Some h -> n < s -> (r <= N.of_nat n)%N -> retrieveBlockHeaderByNumber (mkStore d m) (N.of_nat n) = Ok h.
Proof.
  intros G O Hc Hp Hb Hh Hn Hr. pose proof (pr_low _ _ _ _ (od_prune _ _ _ _ _ _ _ _ O)) as Hlow.
  destruct (chain_located L n b Hb ltac:(lia)) as (fi & off & Hl). unfold retrieveBlockHeaderByNumber. cbn [st_mgr st_disk].
  rewrite (checkBlockAvailable_ok m _ r f Hp). destruct (N.ltb_spec (N.of_nat n) r); [lia|]. cbn [mbind outcome_bind].
  rewrite (getBlockLoc_located d L s n b fi off G (od_wf _ _ _ _ _ _ _ _ O) (od_index _ _ _ _ _ _ _ _ O) Hl Hn). cbn [errAfterFailedRead mbind outcome_bind].
  rewrite (fetch_located max Hmax L G d junk (od_files _ _ _ _ _ _ _ _ O) Hc _ _ _ _ Hl). cbn [errAfterFailedRead mbind outcome_bind].
  destruct (block_number b n L G Hb) as (h' & Hh' & _ & _ & E & _). cbn [default from_option id]. rewrite E. congruence.
Qed.

(** ** Creating and truncating the current file *)
Lemma on_disk_create d L junk k s r seq : on_disk max d L junk (Some k) s r seq -> ly_created L = false ->
  on_disk max (set_file (Z.of_nat (ly_first L + length (ly_full L))) [] d) (mkLayout [] 0 [] [] false true) [] (Some k) s r seq.
Proof.
  intros [Hwf Hf Ht Hi Hk Hx Hp] Hc. pose proof (wl_created _ _ Hwf Hc) as ->. cbn in *. split; [| |apply torn_nil|done|done| |].
  - split; [by destruct Hwf..|done].
  - destruct Hf as [Hneg Hf]. cbn in Hf. split; cbn.
    + intros n Hn. rewrite lookup_insert_ne by lia. by apply Hneg.
    + intros [|i]; [by rewrite lookup_insert_eq|]. rewrite lookup_insert_ne by lia. by rewrite Hf.
  - destruct Hx. by split.
  - destruct Hp. by split.
Qed.
Lemma on_disk_truncate d L junk k s r seq : on_disk max d L junk (Some k) s r seq -> ly_created L = true ->
  on_disk max (set_file (Z.of_nat (ly_first L + length (ly_full L))) (chunk_bytes (ly_cur L)) d) L [] (Some k) s r seq.
Proof.
  intros [Hwf Hf Ht Hi Hk Hx Hp] Hc. split; [done| |apply torn_nil|done|done| |].
  - rewrite <-(app_nil_r (chunk_bytes (ly_cur L))). by apply (set_current_file _ _ junk).
  - by eapply index_ok_db.
  - by eapply prune_ok_files.
Qed.

Context (Hput : f_put fl true = false) (Htrunc : f_truncate fl = false).

Lemma saveBlkfilesInfo_wp i s (C : Disk -> Prop) Q : let d := set_db (<[blkMgrInfoKey := blockfilesInfo_marshal i]> (d_db (st_disk s))) (st_disk s) in
  C d -> Q (Ok tt) (mkStore d (st_mgr s)) -> wp fl (saveBlkfilesInfo i true) s C Q.
Proof. intros d Hc HQ. unfold wp, saveBlkfilesInfo. rewrite Hput. split; [by constructor|done]. Qed.

(** Opens the current file for writing and cuts off what is torn. *)
Lemma open_writer_wp {A} L junk k s r seq st (K : IO A) (C : Disk -> Prop) Q : on_disk max (st_disk st) L junk (Some k) s r seq ->
  (forall L' junk' d, chain_of L' = chain_of L -> on_disk max d L' junk' (Some k) s r seq -> C d) ->
  (forall L' d', chain_of L' = chain_of L -> info_of L' = info_of L -> ly_created L' = true -> length (ly_cur L') = length (ly_cur L) -> on_disk max d' L' [] (Some k) s r seq ->
     wp fl K (mkStore d' (set_writer (latestFileNumber (info_of L)) (st_mgr st))) C Q) ->
  wp fl (w ← io_panic (newBlockfileWriter (latestFileNumber (info_of L))); modify_mgr (set_writer w) ;; io_panic (truncateFile (latestFileSize (info_of L))) ;; K) st C Q.
Proof.
  intros O HC HQ. assert (forall L' junk' d, chain_of L' = chain_of L -> info_of L' = info_of L -> ly_created L' = true -> length (ly_cur L') = length (ly_cur L) ->
    on_disk max d L' junk' (Some k) s r seq ->
    wp fl (truncateFile (latestFileSize (info_of L))) (mkStore d (set_writer (latestFileNumber (info_of L)) (st_mgr st))) C
      (fun o s' => match or_panic o with Ok _ => wp fl K s' C Q | Err e => Q (Err e) s' | Panic e => Q (Panic e) s' end)) as Htr.
  { intros L' junk' d E1 E2 Hc E3 O'. unfold wp, truncateFile. cbn [st_mgr m_currentFileWriter set_writer st_disk].
    rewrite <-E2. change (latestFileNumber (info_of L')) with (Z.of_nat (ly_first L' + length (ly_full L'))).
    rewrite (fo_files _ _ _ (od_files _ _ _ _ _ _ _ _ O')), contents_cur by done. cbn [default from_option id].
    change (latestFileSize (info_of L')) with (Z.of_nat (length (chunk_bytes (take (length (ly_cur L')) (ly_cur L'))))). rewrite (take_ge (ly_cur L')) by done.
    rewrite Htrunc, andb_true_r. destruct (Z.ltb_spec (Z.of_nat (length (chunk_bytes (ly_cur L')))) (Z.of_nat (length (chunk_bytes (ly_cur L') ++ junk')))) as [Hl|Hl].
    - rewrite Nat2Z.id, take_app_length. pose proof (on_disk_truncate _ _ _ _ _ _ _ O' Hc) as O''. unfold set_disk. split; [constructor; [|constructor]; eauto|]. cbn [or_panic]. cbn beta iota.
      change (Z.of_nat (ly_first L' + length (ly_full L'))) with (latestFileNumber (info_of L')) in *. rewrite E2 in *. by apply (HQ L').
    - rewrite length_app in Hl. assert (junk' = []) as -> by (apply nil_length_inv; lia). split; [constructor|]. cbn [or_panic].
      change (Z.of_nat (ly_first L' + length (ly_full L'))) with (latestFileNumber (info_of L')). rewrite E2. by apply (HQ L'). }
  wp_steps. unfold newBlockfileWriter. wp_steps. change (latestFileNumber (info_of L)) with (Z.of_nat (ly_first L + length (ly_full L))).
  rewrite (fo_files _ _ _ (od_files _ _ _ _ _ _ _ _ O)). destruct (ly_created L) eqn:Hc.
  - rewrite contents_cur by done. wp_steps. cbn [or_panic]. wp_steps. by apply (Htr L junk).
  - unfold contents. rewrite Hc, lookup_nil. wp_steps. pose proof (on_disk_create _ _ _ _ _ _ _ O Hc) as O'.
    pose proof (wl_created _ _ (od_wf _ _ _ _ _ _ _ _ O) Hc) as EL.
    apply wp_set_disk; [constructor| |].
    + eapply HC; [|exact O']. by rewrite EL.
    + wp_steps. cbn [or_panic]. wp_steps. apply (Htr (mkLayout [] 0 [] [] false true) []); [by rewrite EL|by rewrite EL|done|by rewrite EL|done].
Qed.

(** What the open checks and reads of the files. *)
Lemma check_ok L r seq s k d m : good_chain max (chain_of L) -> on_disk max d L [] (Some k) s r seq -> ly_created L = true -> m_blockfilesInfo m = info_of L ->
  m_pruneInfo m = mkPrune r (Z.of_nat (ly_first L)) -> checkPruneInfoAgainstBlockfiles (mkStore d m) = Ok tt.
Proof.
  intros G O Hc Hi Hp. unfold checkPruneInfoAgainstBlockfiles. cbn [st_mgr st_disk]. rewrite Hi, Hp. destruct (noBlockFiles (info_of L)); [done|].
  cbn [firstStoredBlockfileNum]. change (latestFileNumber (info_of L)) with (Z.of_nat (ly_first L + length (ly_full L))).
  destruct (Z.ltb_spec (Z.of_nat (ly_first L + length (ly_full L))) (Z.of_nat (ly_first L))); [lia|]. cbn [guard_err].
  destruct (lookup_lt_is_Some_2 (chunks L) 0) as [c E]; [unfold chunks; rewrite length_app; cbn; lia|].
  pose proof (clean_file d L 0 c (od_files _ _ _ _ _ _ _ _ O) Hc E) as X. rewrite Nat.add_0_r in X. by rewrite X.
Qed.
Lemma open_bcInfo_wp L r seq d m (C : Disk -> Prop) : good_chain max (chain_of L) -> ly_created L = true ->
  on_disk max d L [] (Some (length (ly_cur L))) (length (chain_of L)) r seq -> m_pruneInfo m = mkPrune r (Z.of_nat (ly_first L)) ->
  wp fl (if noBlockFiles (info_of L) then mret (mkBCInfo 0 [] [])
         else lastBlockHeader ← io_panic (lift (retrieveBlockHeaderByNumber (mkStore d m) (lastPersistedBlock (info_of L))));
              hash ← lift (BlockHeaderHash lastBlockHeader);
              mret (mkBCInfo (u64_incr (lastPersistedBlock (info_of L))) hash (bh_PreviousHash lastBlockHeader)))
    (mkStore d m) C (fun o st' => exists i, o = Ok i /\ st' = mkStore d m /\ bc_ok i (chain_of L)).
Proof.
  intros G Hc O Hp. change (noBlockFiles (info_of L)) with (count L (length (ly_cur L)) =? 0)%nat. rewrite <-length_chain.
  destruct (Nat.eqb_spec (length (chain_of L)) 0) as [Hz|Hz].
  - wp_steps. eexists. split_and!; [done|done|]. apply nil_length_inv in Hz. by rewrite Hz.
  - destruct (lookup_lt_is_Some_2 (chain_of L) (length (chain_of L) - 1)) as [b Hb]; [lia|]. destruct (block_number b _ L G Hb) as (h & Hh & Hn & _ & _ & hash & Hhash).
    change (lastPersistedBlock (info_of L)) with (N.of_nat (count L (length (ly_cur L)) - 1)). rewrite <-length_chain.
    pose proof (pr_high _ _ _ _ (od_prune _ _ _ _ _ _ _ _ O)) as Hh'. pose proof (gc_length _ _ G). unfold max_int64 in *.
    wp_steps. rewrite (retrieveHeader_ok d m L [] _ _ r seq _ b h _ G O Hc Hp Hb Hh) by lia. cbn [or_panic]. wp_steps. rewrite Hhash. cbn beta iota. wp_steps.
    eexists. split_and!; [done|done|]. unfold bc_ok, CurrentBlockHash, Height. rewrite last_lookup, <-Nat.sub_1_r, Hb. cbn. rewrite Hh. cbn. split_and!; [|done|by exists h].
    rewrite u64_incr_small by (unfold u64_max; lia). lia.
Qed.
Lemma newCache_ok l : cache_ok (newCache defaultBlockCacheSizeBytes) l.
Proof. split; [done|by left|done|]. intros n b sz E. cbn in E. by rewrite lookup_empty in E. Qed.

(** Opening succeeds on every disk that holds a chain, and every disk on the way holds it too. *)
Lemma newBlockfileMgr_wp l r st : disk_ok l r (st_disk st) -> m_maxBlockfileSize (st_mgr st) = max -> m_cache (st_mgr st) = newCache defaultBlockCacheSizeBytes ->
  wp fl newBlockfileMgr st (disk_ok l r)
    (fun o st' => o = Ok tt /\ open_on l r st' /\ forall n, (n < firstStoredBlockfileNum (m_pruneInfo (st_mgr st')))%Z -> d_files (st_disk st') !! n = None).
Proof.
  intros (G & L0 & junk & k0 & s & seq & EL0 & O0) Hm Hcache. unfold newBlockfileMgr. wp_steps.
  assert (exists L k, chain_of L = l /\ on_disk max (st_disk st) L junk k s r seq /\ loadBlkfilesInfo (st_disk st) = Ok (info_at L <$> k) /\
    match k with None => constructBlockfilesInfo (st_disk st) | Some k => syncBlockfilesInfoFromFS (st_disk st) (info_at L k) end = Ok (info_of L)) as (L & k & EL & O & Eload & Einfo).
  { unfold loadBlkfilesInfo. rewrite (od_info _ _ _ _ _ _ _ _ O0). subst l. destruct k0 as [k|].
    - exists L0, (Some k). cbn [fmap option_fmap option_map]. rewrite (info_at_int max Hmax L0 G (od_wf _ _ _ _ _ _ _ _ O0)) by apply O0.
      split_and!; [done|done|done|]. by eapply sync_info.
    - exists (close_extra L0), None. pose proof (on_disk_close max _ _ _ _ _ _ ltac:(lia) O0) as O1. rewrite close_extra_chain. split_and!; [done|done|done|].
      eapply construct_info; [by rewrite close_extra_chain|done|]. unfold close_extra. by destruct (ly_extra L0) eqn:?. }
  clear L0 k0 EL0 O0. subst l. rewrite Eload. cbn [or_panic]. wp_steps.
  assert (wp fl (match info_at L <$> k with None => io_panic (lift (constructBlockfilesInfo (st_disk st))) | Some i => lift (syncBlockfilesInfoFromFS (st_disk st) i) end) st
    (disk_ok (chain_of L) r) (fun o s' => o = Ok (info_of L) /\ s' = st)) as Hinfo.
  { destruct k as [k|]; cbn [fmap option_fmap option_map]; wp_steps; by rewrite Einfo. }
  eapply wp_mono; [exact Hinfo|]. intros o s' [-> ->]. clear Hinfo Eload Einfo. cbn beta iota. wp_steps.
  pose proof (on_disk_info max _ L junk k s r seq (length (ly_cur L)) O ltac:(done)) as O1.
  apply saveBlkfilesInfo_wp; [split; [done|]; eexists _, _, _, _, _; by split|]. cbn [or_panic].
  eapply open_writer_wp; [exact O1| |].
  { intros L' junk' d E O'. rewrite <-E. split; [by rewrite E|]. eexists L', _, _, _, _. by split. }
  clear O O1 junk k. intros L' d' EL Einfo Hc Elen O. rewrite <-Elen in O. clear Elen. wp_steps. cbn [st_mgr st_disk].
  assert (forall d k s seq, on_disk max d L' [] (Some k) s r seq -> disk_ok (chain_of L) r d) as Hdisk.
  { intros d k s1 seq1 O1. split; [done|]. eexists L', _, _, _, _. by split. }
  rewrite <-EL in G |- *. rewrite <-EL in Hdisk. rewrite <-Einfo. clear L EL Einfo.
  eapply wp_mono; [eapply wp_crash; [apply (getInfo_wp L'); [done|exact O]|intros d Od; exact (Hdisk _ _ _ _ Od)]|].
  intros o st1 (-> & Em & O1). cbn beta iota. wp_steps. cbn [st_mgr st_disk] in *. rewrite Em. clear Em d' O.
  set (m := set_prune _ _ _). assert (checkPruneInfoAgainstBlockfiles (mkStore (st_disk st1) m) = Ok tt) as ->.
  { by apply (check_ok L' r seq s (length (ly_cur L'))). }
  wp_steps. eapply wp_mono; [eapply wp_crash; [by apply (syncIndex_wp L' r seq s)|intros d (s' & O'); exact (Hdisk _ _ _ _ O')]|].
  intros o st2 (-> & Em & O2). cbn beta iota. wp_steps. cbn [st_mgr] in Em. destruct st2 as [d2 m2]. cbn [st_mgr st_disk] in *. subst m2.
  eapply wp_mono; [apply (open_bcInfo_wp L' r seq d2 m); [done|done|done|done]|]. intros o st3 (i & -> & -> & Hbc). cbn beta iota. wp_steps. cbn [st_mgr st_disk].
  eapply wp_mono; [eapply wp_crash; [by apply (sweepOrphans_wp L')|intros d Od; exact (Hdisk _ _ _ _ Od)]|].
  intros o st4 (-> & Em & O4 & Hbelow). cbn beta iota. cbn [st_mgr] in Em. split; [done|]. split; [|rewrite Em; exact Hbelow].
  exists L', seq. split; [done|]. split; rewrite ?Em; try done. unfold m. cbn. rewrite Hcache. apply newCache_ok.
Qed.
End Open.
