(* ===== verification/BlockFilesThms.v ===== *)
(** * The block store implements the ledger

    Adding, reading and pruning blocks of an open store, with crashes and failing calls of the operating system at every point: a refinement of the list of blocks
    of [Ledger]. *)
From stdpp Require Import gmap sets sorting.
From S2P Require Import Prelude Types Events State Blocks Ledger StateCodec Sample SampleBlocks Wire BlockFiles BlockFilesFacts BlockFilesOpen.
From Stdlib Require Import NArith ZArith Lia.

(** ** Appending to a file *)
Lemma set_file_twice w x y d : set_file w x (set_file w y d) = set_file w x d.
Proof. unfold set_file. cbn. by rewrite insert_insert_eq. Qed.
Lemma set_file_id w c d : d_files d !! w = Some c -> set_file w c d = d.
Proof. intros E. unfold set_file. rewrite insert_id by done. by destruct d. Qed.

Section Append.
Context (fl : Faults) (w : Z) (m : blockfileMgr) (Hwriter : m_currentFileWriter m = w).

Lemma append_wp x sync c d (C : Disk -> Prop) (Q : outcome unit -> Store -> Prop) : d_files d !! w = Some c ->
  (forall p q, x = p ++ q -> C (set_file w (c ++ p) d)) -> (forall p q e, fl <> no_faults -> x = p ++ q -> Q (Err e) (mkStore (set_file w (c ++ p) d) m)) ->
  Q (Ok tt) (mkStore (set_file w (c ++ x) d) m) -> wp fl (append x sync) (mkStore d m) C Q.
Proof.
  intros Ec HC HE HQ.
  assert (forall y z Q', x = y ++ z -> Q' (Ok tt) (mkStore (set_file w (c ++ y) d) m) -> wp fl (file_append y) (mkStore d m) C Q') as Hfile.
  { intros y z Q' E HQ'. unfold file_append. wp_steps. cbn [st_mgr st_disk]. rewrite Hwriter, Ec. cbn [default from_option id]. apply wp_set_disk; [|by eapply HC|done].
    apply Forall_fmap, Forall_fmap, Forall_forall. intros i _. cbn. apply (HC _ (drop i y ++ z)). by rewrite app_assoc, take_drop. }
  unfold append. destruct (f_append fl sync) as [n|] eqn:Ef.
  - unfold wp. rewrite Ef. fold (wp fl (file_append (take n x) ;; lift (Err "write error")) (mkStore d m) C Q).
    apply wp_bind, (Hfile (take n x) (drop n x)); [by rewrite take_drop|]. wp_steps. apply (HE _ (drop n x)); [by intros ->|by rewrite take_drop].
  - unfold wp. rewrite Ef. fold (wp fl (file_append x ;; lift (if sync && f_sync fl then Err "sync error" else Ok tt)) (mkStore d m) C Q).
    apply wp_bind, (Hfile x []); [by rewrite app_nil_r|]. wp_steps. destruct (sync && f_sync fl) eqn:Es; [|done]. apply (HE _ []); [|by rewrite app_nil_r]. intros ->. by rewrite andb_false_r in Es.
Qed.

Lemma append_both_wp v x c d (C : Disk -> Prop) (Q : outcome unit -> Store -> Prop) : d_files d !! w = Some c ->
  (forall p q, v ++ x = p ++ q -> C (set_file w (c ++ p) d)) -> (forall p q e, fl <> no_faults -> v ++ x = p ++ q -> Q (Err e) (mkStore (set_file w (c ++ p) d) m)) ->
  Q (Ok tt) (mkStore (set_file w (c ++ v ++ x) d) m) -> wp fl (append v false ;; append x true) (mkStore d m) C Q.
Proof.
  intros Ec HC HE HQ. apply wp_bind. apply (append_wp v false c); [done| | |].
  - intros p q ->. apply (HC _ (q ++ x)). by rewrite app_assoc.
  - intros p q e Hfl ->. apply (HE _ (q ++ x)); [done|]. by rewrite app_assoc.
  - apply (append_wp x true (c ++ v)).
    + cbn. by rewrite lookup_insert_eq.
    + intros p q ->. rewrite set_file_twice, <-app_assoc. apply (HC _ q). by rewrite app_assoc.
    + intros p q e Hfl ->. rewrite set_file_twice, <-app_assoc. apply (HE _ q); [done|]. by rewrite app_assoc.
    + by rewrite set_file_twice, <-app_assoc.
Qed.

Lemma truncate_wp c p d (C : Disk -> Prop) (Q : outcome unit -> Store -> Prop) : f_truncate fl = false -> d_files d !! w = Some c -> C d -> Q (Ok tt) (mkStore d m) ->
  wp fl (truncateFile (Z.of_nat (length c))) (mkStore (set_file w (c ++ p) d) m) C Q.
Proof.
  intros Ht Ec HC HQ. unfold wp, truncateFile. cbn [st_mgr st_disk]. rewrite Hwriter. cbn [d_files set_file]. rewrite lookup_insert_eq. cbn [default from_option id].
  rewrite Ht, andb_true_r. destruct (Z.ltb_spec (Z.of_nat (length c)) (Z.of_nat (length (c ++ p)))) as [Hl|Hl].
  - rewrite Nat2Z.id, take_app_length. change (mkDisk (<[w:=c ++ p]> (d_files d)) (d_db d) (d_prune d)) with (set_file w (c ++ p) d).
    rewrite set_file_twice, set_file_id by done. split; [by constructor|done].
  - rewrite length_app in Hl. assert (p = []) as -> by (apply nil_length_inv; lia). rewrite app_nil_r, set_file_id by done. split; [constructor|done].
Qed.
End Append.

Section Add.
Context `{BlockCodecs} `{Sha256} (max : Z) (Hmax : (0 < max < 72057594037927936)%Z).

(** ** A block more in the current file *)
Definition grow (L : layout) (b : Block) : layout := mkLayout (ly_pruned L) (ly_first L) (ly_full L) (ly_cur L ++ [b]) (ly_extra L) (ly_created L).
Lemma grow_chain L b : chain_of (grow L b) = chain_of L ++ [b].
Proof. unfold chain_of, chunks. cbn. rewrite !concat_app. cbn. by rewrite !app_nil_r, !app_assoc. Qed.
Lemma grow_located_old L b n b' f off : located (grow L b) n b' f off -> n < length (chain_of L) -> located L n b' f off.
Proof.
  intros (i & c1 & c2 & E & En & -> & ->) Hn. unfold chunks in E. cbn [ly_full ly_cur grow] in E. apply lookup_app_Some in E as [E|[Hi E]].
  - exists i, c1, c2. apply lookup_lt_Some in E as Hi. unfold chunks. split; [by rewrite lookup_app_l|]. unfold chunks in En. cbn [ly_full ly_cur ly_pruned grow] in En.
    rewrite take_app_le in En by lia. by rewrite take_app_le by lia.
  - apply list_lookup_singleton_Some in E as [Hz E]. assert (i = length (ly_full L)) as -> by lia. clear Hi Hz.
    destruct (decide (c2 = [])) as [->|[c2' [x ->]]%exists_last].
    + apply app_inj_tail in E as [Ecur ->]. unfold chunks in En. cbn [ly_full ly_cur ly_pruned grow] in En. rewrite take_app_length in En.
      rewrite length_chain in Hn. unfold count in Hn. rewrite Ecur in Hn. lia.
    + rewrite app_comm_cons, app_assoc in E. apply app_inj_tail in E as [Ecur ->]. exists (length (ly_full L)), c1, c2'.
      unfold chunks in *. cbn [ly_full ly_cur ly_pruned grow] in *. rewrite take_app_length in *. split; [by rewrite lookup_app_r, Nat.sub_diag, Ecur|done].
Qed.
Lemma grow_located_new L b : located (grow L b) (length (chain_of L)) b (ly_first L + length (ly_full L)) (Z.of_nat (length (chunk_bytes (ly_cur L)))).
Proof.
  exists (length (ly_full L)), (ly_cur L), []. unfold chunks. cbn [ly_full ly_cur ly_pruned ly_first grow]. rewrite take_app_length.
  split; [by rewrite lookup_app_r, Nat.sub_diag|]. rewrite length_chain. done.
Qed.
Lemma grow_info L b : info_at (grow L b) (length (ly_cur L)) = info_at L (length (ly_cur L)).
Proof. unfold info_at, count. cbn. by rewrite take_app_length, (take_ge (ly_cur L)) by done. Qed.
Lemma grow_info_new L b : info_of (grow L b) =
  mkInfo (latestFileNumber (info_of L)) (latestFileSize (info_of L) + Z.of_nat (length (record b))) false (N.of_nat (length (chain_of L))).
Proof.
  unfold info_of, info_at, count. cbn [ly_full ly_cur ly_pruned ly_first grow latestFileNumber latestFileSize]. rewrite !take_ge, chunk_bytes_snoc, !length_app by done. cbn [length].
  rewrite length_chain. unfold count. destruct (Nat.eqb_spec (length (ly_pruned L) + length (concat (ly_full L)) + (length (ly_cur L) + 1)) 0); [lia|]. f_equal; lia.
Qed.

Context (L : layout) (b : Block) (r seq : N) (d : Disk).
Hypothesis G : good_chain max (chain_of L ++ [b]).
Hypothesis Hc : ly_created L = true.
Hypothesis O : on_disk max d L [] (Some (length (ly_cur L))) (length (chain_of L)) r seq.
Hypothesis Hsize : (Z.of_nat (length (chunk_bytes (ly_cur L)) + length (record b)) <= max)%Z.
Let w := Z.of_nat (ly_first L + length (ly_full L)).
Let c := chunk_bytes (ly_cur L).

Lemma grow_wf : wf_layout max (grow L b).
Proof.
  destruct (od_wf _ _ _ _ _ _ _ _ O). split; cbn [ly_full ly_cur ly_pruned ly_first ly_extra ly_created grow]; [done|done| | |congruence].
  - unfold chunks in *. cbn [ly_full ly_cur grow]. apply Forall_app in wl_size as [Hf _]. apply Forall_app. split; [done|]. constructor; [|constructor].
    rewrite chunk_bytes_snoc, length_app. lia.
  - intros _. by destruct (ly_cur L).
Qed.
(** All of the record is in the file: the block is there, though neither the summary nor the index know it. *)
Lemma grow_on_disk : on_disk max (set_file w (c ++ record b) d) (grow L b) [] (Some (length (ly_cur L))) (length (chain_of L)) r seq.
Proof.
  pose proof grow_wf as W. destruct O as [Hwf Hf Ht Hi Hk Hx Hp]. split; [done| |apply torn_nil| | | |].
  - pose proof (set_current_file d L [] (record b) Hf Hc) as [Hn Hfl]. split; [done|]. intros i. etrans; [exact (Hfl i)|].
    unfold contents. cbn [ly_full ly_cur ly_extra ly_created grow]. by rewrite Hc, chunk_bytes_snoc, app_nil_r.
  - cbn [d_db set_file fmap option_fmap option_map] in *. by rewrite grow_info.
  - cbn. rewrite length_app. lia.
  - eapply (index_ok_layout _ L); [by eapply index_ok_db|done|rewrite grow_chain, length_app; lia|]. intros. by eapply grow_located_old.
  - destruct Hp. split; [done|done|done|]. rewrite grow_chain, length_app. cbn. lia.
Qed.
Lemma part_on_disk p q : record b = p ++ q -> q <> [] ->
  on_disk max (set_file w (c ++ p) d) L p (Some (length (ly_cur L))) (length (chain_of L)) r seq.
Proof.
  intros E Hq. destruct O as [Hwf Hf Ht Hi Hk Hx Hp]. split; [done|by apply (set_current_file d L [])| |done|done|by eapply index_ok_db|by eapply prune_ok_files].
  right. exists b, q. split; [|done]. apply (good_small max Hmax). pose proof (gc_blocks _ _ G) as F. apply Forall_app in F as [_ [F _]%Forall_cons]. done.
Qed.

Lemma good_init : good_chain max (chain_of L).
Proof.
  destruct G as [[Hn Hf Hl] F Hlen]. apply Forall_app in F as [F _]. rewrite length_app in Hlen. split; [split|done|lia].
  - intros i x E. apply Hn. by apply lookup_app_l_Some.
  - intros x h E. apply Hf. by apply lookup_app_l_Some.
  - intros i x y hx hy Ex Ey. apply (Hl i x y); by apply lookup_app_l_Some.
Qed.
(** Any prefix of the record: a crash there leaves the chain with or without the block. *)
Lemma prefix_disk_ok p q : record b = p ++ q ->
  disk_ok max (chain_of L) r (set_file w (c ++ p) d) \/ disk_ok max (chain_of L ++ [b]) r (set_file w (c ++ p) d).
Proof.
  intros E. destruct (decide (q = [])) as [->|Hq].
  - right. rewrite app_nil_r in E. subst p. split; [done|]. eexists _, _, _, _, _. split; [apply grow_chain|apply grow_on_disk].
  - left. split; [apply good_init|]. eexists _, _, _, _, _. split; [|by apply (part_on_disk p q)]. done.
Qed.
End Add.

(** ** The next file *)
Section Move.
Context `{BlockCodecs} `{Sha256} (max : Z) (Hmax : (0 < max < 72057594037927936)%Z) (fl : Faults).

Definition with_extra (L : layout) : layout := mkLayout (ly_pruned L) (ly_first L) (ly_full L) (ly_cur L) true (ly_created L).
Definition next_layout (L : layout) : layout := close_extra (with_extra L).
Lemma next_chain L : chain_of (next_layout L) = chain_of L.
Proof. unfold next_layout. by rewrite close_extra_chain. Qed.
Lemma next_info L : ly_cur L <> [] ->
  info_of (next_layout L) = mkInfo (latestFileNumber (info_of L) + 1) 0 false (lastPersistedBlock (info_of L)).
Proof.
  intros Hne. unfold info_of, info_at, next_layout, close_extra, with_extra, count, chunks. cbn. rewrite concat_app, !length_app. cbn. rewrite app_nil_r.
  assert (length (ly_cur L) <> 0) by by intros X%nil_length_inv.
  destruct (Nat.eqb_spec (length (ly_pruned L) + (length (concat (ly_full L)) + length (ly_cur L)) + 0) 0); [lia|]. f_equal; [lia|]. f_equal. lia.
Qed.

Lemma on_disk_extra d L k s r seq : on_disk max d L [] k s r seq -> ly_created L = true -> ly_cur L <> [] ->
  on_disk max (set_file (latestFileNumber (info_of L) + 1) [] d) (with_extra L) [] k s r seq.
Proof.
  intros [[] [Hn Hf] ? ? Hk ? []] Hc Hne. split; [split; cbn; [done..|congruence]| |done|done|destruct k; [done|by left]| |].
  - split; cbn [d_files set_file].
    + intros n Hlt. rewrite lookup_insert_ne by (cbn; lia). by apply Hn.
    + intros i. change (latestFileNumber (info_of L)) with (Z.of_nat (ly_first L + length (ly_full L))). cbn [ly_first with_extra]. unfold contents. cbn [ly_created ly_full ly_cur ly_extra with_extra]. rewrite Hc.
      destruct (decide (i = S (length (ly_full L)))) as [->|Hi].
      * replace (Z.of_nat (ly_first L + S (length (ly_full L)))) with (Z.of_nat (ly_first L + length (ly_full L)) + 1)%Z by lia. rewrite lookup_insert_eq.
        rewrite lookup_app_r by (rewrite length_fmap; lia). rewrite length_fmap. by replace (S (length (ly_full L)) - length (ly_full L)) with 1 by lia.
      * rewrite lookup_insert_ne by lia. rewrite Hf. unfold contents. rewrite Hc. rewrite !app_assoc. destruct (decide (i < S (length (ly_full L)))).
        -- assert (forall E, (((chunk_bytes <$> ly_full L) ++ [chunk_bytes (ly_cur L) ++ []]) ++ E) !! i = ((chunk_bytes <$> ly_full L) ++ [chunk_bytes (ly_cur L) ++ []]) !! i) as X; [|by rewrite !X].
           intros E. apply lookup_app_l. rewrite length_app, length_fmap. cbn. lia.
        -- rewrite !(lookup_ge_None_2 _ i); [done| |]; destruct (ly_extra L); rewrite ?length_app, ?length_fmap; cbn; lia.
  - by eapply index_ok_db; [eapply (index_ok_layout _ L)|..].
  - by split.
Qed.
Lemma on_disk_forget d L k s r seq : on_disk max d L [] k s r seq -> on_disk max (set_db (delete blkMgrInfoKey (d_db d)) d) L [] None s r seq.
Proof.
  intros []. split; [done|by eapply files_ok_files|done| |by left| |by eapply prune_ok_files]; unfold set_db; cbn [d_db fmap option_fmap option_map].
  - by rewrite lookup_delete_eq.
  - eapply index_ok_db; [done| |]; cbn [d_db]; intros; by rewrite lookup_delete_ne by auto with go.
Qed.
Lemma on_disk_next d L k s r seq : on_disk max d (with_extra L) [] k s r seq ->
  on_disk max (set_db (<[blkMgrInfoKey := blockfilesInfo_marshal (info_of (next_layout L))]> (d_db d)) d) (next_layout L) [] (Some 0) s r seq.
Proof.
  intros O. apply on_disk_forget, on_disk_close in O; [|lia]. apply (on_disk_info _ _ _ _ _ _ _ _ 0) in O; [|cbn; lia]. fold (next_layout L) in O.
  unfold set_db in *. cbn [d_db d_files d_prune] in O. by rewrite insert_delete_eq in O.
Qed.

Lemma moveToNextFile_wp st L r seq : store_ok max st L r seq -> ly_cur L <> [] ->
  wp fl moveToNextFile st (disk_ok max (chain_of L) r)
    (fun o st' => match o with
      | Ok _ => store_ok max st' (next_layout L) r seq
      | Err _ => False
      | Panic _ => f_put fl true = true /\ disk_ok max (chain_of L) r (st_disk st') end).
Proof.
  intros Ho Hne. pose proof (so_disk _ _ _ _ _ Ho) as O. pose proof (so_created _ _ _ _ _ Ho) as Hc.
  assert (forall d', on_disk max d' (with_extra L) [] (Some (length (ly_cur L))) (length (chain_of L)) r seq -> disk_ok max (chain_of L) r d') as Hdisk.
  { intros d' O'. split; [apply Ho|]. eexists _, _, _, _, _. split; [|exact O']. done. }
  assert (exists d', on_disk max d' (with_extra L) [] (Some (length (ly_cur L))) (length (chain_of L)) r seq /\
    newBlockfileWriter (latestFileNumber (info_of L) + 1) fl st = (if ly_extra L then [] else [d'], (mkStore d' (st_mgr st), Ok (latestFileNumber (info_of L) + 1)%Z))) as (d' & O' & Enew).
  { unfold newBlockfileWriter. unfold mbind at 1, IO_bind at 1, get_disk at 1. replace (latestFileNumber (info_of L) + 1)%Z with (Z.of_nat (ly_first L + S (length (ly_full L)))) by (cbn; lia).
    rewrite (fo_files _ _ _ (od_files _ _ _ _ _ _ _ _ O)). unfold contents. rewrite Hc, lookup_app_r by (rewrite length_fmap; lia). rewrite length_fmap.
    replace (S (length (ly_full L)) - length (ly_full L)) with 1 by lia. cbn [lookup list_lookup app]. destruct (ly_extra L) eqn:Hx.
    - exists (st_disk st). split; [|by destruct st]. replace (with_extra L) with L; [done|]. unfold with_extra. rewrite <-Hx. by destruct L.
    - eexists. split; [|done]. pose proof (on_disk_extra _ _ _ _ _ _ O Hc Hne) as X.
      by replace (Z.of_nat (ly_first L + S (length (ly_full L)))) with (latestFileNumber (info_of L) + 1)%Z by (cbn; lia). }
  unfold moveToNextFile. wp_steps. rewrite (so_info _ _ _ _ _ Ho). cbn [latestFileNumber].
  unfold wp at 1. rewrite Enew. split; [destruct (ly_extra L); constructor; [by apply Hdisk|constructor]|]. cbn [or_panic]. wp_steps.
  rewrite <-(next_info L Hne). unfold wp at 1, saveBlkfilesInfo. destruct (f_put fl true) eqn:Hput.
  - split; [constructor|]. cbn [or_panic]. split; [done|]. by apply Hdisk.
  - pose proof (on_disk_next d' L _ _ _ _ O') as O''. cbn [mbind IO_bind get_disk set_disk app st_disk]. split.
    { constructor; [|constructor]. split; [apply Ho|]. eexists _, _, _, _, _. split; [apply next_chain|exact O'']. }
    cbn [or_panic]. wp_steps. cbn [st_mgr st_disk]. destruct Ho. split; cbn [st_disk st_mgr m_maxBlockfileSize m_blockfilesInfo m_currentFileWriter m_bcInfo m_cache m_pruneInfo m_infoSeq set_blockfilesInfo set_writer];
      rewrite ?next_chain; try done.
    change (Z.of_nat (ly_first (next_layout L) + length (ly_full (next_layout L)))) with (latestFileNumber (info_of (next_layout L))). by rewrite (next_info L Hne).
Qed.
End Move.

(** ** The cache *)
Record cache_row (c : cache) (l : list Block) (k : nat) : Prop := {
  cr_k : k <= length l;
  cr_len : (Z.of_nat (length l) <= max_int64)%Z;
  cr_ne : l <> [];
  cr_max : (0 < c_maxSizeBytes c)%Z;
  cr_seq : c_maxSeq c = N.of_nat (length l - 1);
  cr_dom : dom (c_cache c) = list_to_set (N.of_nat <$> seq (length l - k) k);
  cr_size : c_sizeBytes c = map_fold (fun _ x acc => snd x + acc)%Z 0%Z (c_cache c);
  cr_block : forall n b sz, c_cache c !! n = Some (b, sz) -> (0 <= sz)%Z /\ l !! N.to_nat n = Some (stored b)
}.
Lemma cache_row_ok c l k : cache_row c l k -> cache_ok c l.
Proof. intros []. split; [done| |done|done]. right. by exists k. Qed.
Lemma cache_row_size c l k : cache_row c l k -> size (c_cache c) = k.
Proof.
  intros R. rewrite <-size_dom, (cr_dom _ _ _ R), size_list_to_set, length_fmap, length_seq; [done|]. apply NoDup_fmap_2; [|apply NoDup_seq]. intros x y. lia.
Qed.
Lemma fold_sizes_delete (m : gmap N (Block * Z)) n x : m !! n = Some x ->
  map_fold (fun _ x acc => snd x + acc)%Z 0%Z m = (snd x + map_fold (fun _ x acc => snd x + acc)%Z 0%Z (delete n m))%Z.
Proof. intros E. apply (map_fold_delete_L (fun _ x acc => snd x + acc)%Z 0%Z n x m); [intros; lia|done]. Qed.

Lemma evict_row c l k : cache_row c l (S k) -> exists c', evictOldestCachedBlock c = Ok c' /\ cache_row c' l k.
Proof.
  intros R. pose proof (cache_row_size _ _ _ R) as Hsize. destruct R as [Hk Hlen Hne Hmax Hseq Hdom Hsz Hb]. unfold evictOldestCachedBlock. rewrite Hsize, Hseq.
  assert (length l <> 0) by (by intros X%nil_length_inv). unfold max_int64 in Hlen.
  assert (u64 (N.of_nat (length l - 1) + 18446744073709551616 - N.of_nat (S k) + 1) = N.of_nat (length l - S k)) as ->.
  { unfold u64. replace (N.of_nat (length l - 1) + 18446744073709551616 - N.of_nat (S k) + 1)%N with (N.of_nat (length l - S k) + 1 * 18446744073709551616)%N by lia.
    rewrite N.Div0.mod_add, N.mod_small by lia. done. }
  assert (is_Some (c_cache c !! N.of_nat (length l - S k))) as [[b sz] E].
  { apply elem_of_dom. rewrite Hdom. apply elem_of_list_to_set, list_elem_of_fmap. eexists. split; [done|]. apply elem_of_seq. lia. }
  rewrite E. eexists. split; [done|]. split; cbn; try done; [lia| | |].
  - rewrite dom_delete_L, Hdom. cbn. replace (S (length l - S k)) with (length l - k) by lia. apply set_eq. intros n.
    rewrite elem_of_difference, elem_of_union, elem_of_singleton, elem_of_list_to_set, list_elem_of_fmap. split; [intros [[?|?] ?]; done|].
    intros (i & -> & Hi%elem_of_seq). split; [right; exists i; split; [done|apply elem_of_seq; lia]|]. lia.
  - rewrite Hsz, (fold_sizes_delete _ _ _ E). cbn. lia.
  - intros n b' sz' [_ Hl]%lookup_delete_Some. by apply Hb.
Qed.
Lemma evict_loop_row fuel c l k : cache_row c l k -> k <= fuel -> exists c' k', evict_loop fuel c = Ok c' /\ cache_row c' l k'.
Proof.
  revert c k; induction fuel as [|fuel IH]; intros c k R Hk; cbn [evict_loop];
    (destruct (Z.ltb_spec (c_maxSizeBytes c) (c_sizeBytes c)) as [Hgt|Hgt]; [|by exists c, k]); destruct k as [|k];
    try (exfalso; pose proof (cr_dom _ _ _ R) as D; cbn in D; apply dom_empty_inv_L in D; pose proof (cr_size _ _ _ R) as Z0; rewrite D, map_fold_empty in Z0; pose proof (cr_max _ _ _ R); lia).
  - lia.
  - destruct (evict_row c l k R) as (c' & -> & R'). cbn [mbind outcome_bind]. apply (IH c' k R'). lia.
Qed.
Lemma cache_put_ok c l b h sz : cache_ok c l -> b_Header b = Some h -> bh_Number h = N.of_nat (length l) -> (0 <= sz)%Z -> (Z.of_nat (length l) < max_int64)%Z ->
  exists c', cache_put c b sz = Ok c' /\ cache_ok c' (l ++ [stored b]).
Proof.
  intros [Hmax Hdom Hsize Hblk] Hh Hn Hsz Hlen. unfold max_int64 in Hlen. unfold cache_put. destruct (Z.eqb_spec (c_maxSizeBytes c) 0) as [?|_]; [lia|]. rewrite Hh. cbn [deref mbind outcome_bind]. rewrite Hn.
  set (c1 := mkCache _ _ _ _).
  assert (c_maxSeq c = 0%N \/ l <> [] /\ c_maxSeq c = N.of_nat (length l - 1)) as Hseq by (destruct Hdom as [[_ ?]|(k & _ & ? & ? & _)]; auto).
  assert (length l <> 0 \/ l = []) as Hl by (destruct l; [by right|left; cbn; lia]).
  assert (forall n, c_cache c !! n = None \/ (n < N.of_nat (length l))%N) as Hlt.
  { intros n. destruct (c_cache c !! n) as [[b' sz']|] eqn:E; [|by left]. right. apply Hblk in E as [_ E]. apply lookup_lt_Some in E. lia. }
  assert (c_cache c !! N.of_nat (length l) = None) as Hnone by (destruct (Hlt (N.of_nat (length l))); [done|lia]).
  assert (exists k, cache_row c1 (l ++ [stored b]) k /\ k = size (c_cache c1)) as (k & R & Ek).
  { assert (exists k, k <= length l /\ dom (c_cache c) = list_to_set (N.of_nat <$> seq (length l - k) k)) as (k & Hk & Ed).
    { destruct Hdom as [[-> _]|(k & Hk & _ & _ & Ed)]; [exists 0; split; [lia|by rewrite dom_empty_L]|by exists k]. }
    assert (cache_row c1 (l ++ [stored b]) (S k)) as R; [|eexists; split; [exact R|symmetry; by eapply cache_row_size]].
    split; unfold c1; cbn [c_cache c_sizeBytes c_maxSeq c_maxSizeBytes]; rewrite ?length_app; cbn [length]; try done; [lia|unfold max_int64; lia|by destruct l|lia| | |].
    - rewrite dom_insert_L, Ed, seq_S. replace (length l + 1 - S k) with (length l - k) by lia. rewrite fmap_app, list_to_set_app_L. cbn.
      replace (length l - k + k) with (length l) by lia. set_solver.
    - rewrite (fold_sizes_delete (<[_:=_]> _) (N.of_nat (length l)) (b, sz)) by by rewrite lookup_insert_eq. rewrite delete_insert_id by done. cbn. lia.
    - intros n b' sz'. destruct (decide (n = N.of_nat (length l))) as [->|Hne].
      + rewrite lookup_insert_eq. intros [= <- <-]. split; [done|]. by rewrite Nat2N.id, lookup_app_r, Nat.sub_diag by lia.
      + rewrite lookup_insert_ne by done. intros [? E]%Hblk. split; [done|]. by apply lookup_app_l_Some. }
  destruct (N.ltb_spec (N.of_nat (length l)) (c_maxSeq c)); [lia|].
  assert (((u64 (c_maxSeq c + 1) <? N.of_nat (length l))%N && negb (c_maxSeq c =? 0)%N) = false) as ->.
  { destruct (N.eqb_spec (c_maxSeq c) 0); [by rewrite andb_false_r|]. cbn. rewrite andb_true_r. destruct Hseq as [?|[? Hs]]; [done|]. rewrite Hs, u64_small by (unfold u64_max; lia). apply N.ltb_ge. lia. }
  assert (((c_maxSeq c =? N.of_nat (length l))%N && negb (c_maxSeq c =? 0)%N) = false) as ->.
  { destruct (N.eqb_spec (c_maxSeq c) 0); [by rewrite andb_false_r|]. cbn. rewrite andb_true_r. apply N.eqb_neq. lia. }
  cbn [guard_panic]. destruct (evict_loop_row (size (c_cache c1)) c1 _ k R ltac:(lia)) as (c' & k' & -> & R'). exists c'. split; [done|]. by eapply cache_row_ok.
Qed.

(** ** Adding a block *)
Section AddBlock.
Context `{BlockCodecs} `{Sha256} (max : Z) (Hmax : (0 < max < 72057594037927936)%Z) (fl : Faults) (Htrunc : f_truncate fl = false).

Context (l : list Block) (r : N) (b : Block) (h : BlockHeader) (hash : bytes).
Hypothesis Hh : b_Header b = Some h.
Hypothesis Hhash : BlockHeaderHash h = Ok hash.
Hypothesis Hn : bh_Number h = N.of_nat (length l).
Hypothesis Hlen : (Z.of_nat (length l) < max_int64)%Z.
Let b' := stored b.
Hypothesis G : good_chain max (l ++ [b']).
Let crash (d : Disk) : Prop := disk_ok max l r d \/ disk_ok max (l ++ [b']) r d.

(** What is promised of the result: faults other than those of the two writes to the database leave the store open as it was. *)
Definition added (o : outcome unit) (st : Store) : Prop :=
  crash (st_disk st) /\ (fl = no_faults -> o = Ok tt) /\
  match o with
  | Ok _ => open_on max (l ++ [b']) r st
  | Err _ => f_put fl false = false -> f_write fl = false -> open_on max l r st
  | Panic _ => f_put fl true = true
  end.

Section Commit.
Context (L : layout) (seq : N) (d : Disk) (m : blockfileMgr).
Hypothesis EL : chain_of L = l.
Hypothesis S : store_ok max (mkStore d m) L r seq.
Hypothesis Hsize : (Z.of_nat (length (chunk_bytes (ly_cur L)) + length (record b)) <= max)%Z.
Let w := Z.of_nat (ly_first L + length (ly_full L)).
Let d1 := set_file w (chunk_bytes (ly_cur L) ++ record b) d.

Lemma cachePut_wp d' m' (C : Disk -> Prop) (Q : outcome unit -> Store -> Prop) : cache_ok (m_cache m') l ->
  (forall c, cache_ok c (l ++ [b']) -> Q (Ok tt) (mkStore d' (set_cache c m'))) -> wp fl (cachePut b (Z.of_nat (length (block_bytes b)))) (mkStore d' m') C Q.
Proof.
  intros Hc HQ. unfold cachePut. wp_steps. cbn [st_mgr]. destruct (cache_put_ok _ l b h (Z.of_nat (length (block_bytes b))) Hc Hh Hn ltac:(lia) Hlen) as (c & -> & Hc').
  wp_steps. cbn [st_disk st_mgr]. by apply HQ.
Qed.

Lemma bc_snoc : bc_ok (m_bcInfo (updateBlockchainInfo hash h m)) (l ++ [b']).
Proof.
  destruct (so_bc _ _ _ _ _ S) as (Hheight & _ & _). cbn [st_mgr] in Hheight. rewrite EL in Hheight. unfold Height in Hheight. unfold bc_ok, CurrentBlockHash, Height. rewrite last_snoc. cbn. rewrite Hh, Hheight. cbn.
  rewrite Hhash, length_app, u64_incr_small by (unfold u64_max, max_int64 in *; lia). split_and!; [cbn; lia|done|by exists h].
Qed.
Lemma commit_wp :
  wp fl (addBlock_commit b h hash (latestFileSize (info_of L)) (Z.of_nat (length (block_bytes b))) (Z.of_nat (length (record b)))) (mkStore d1 m) crash added.
Proof.
  pose proof (so_disk _ _ _ _ _ S) as O. cbn [st_disk] in O. pose proof (so_created _ _ _ _ _ S) as Hc. pose proof G as G'. rewrite <-EL in G'.
  assert (forall d' k s, on_disk max d' (grow L b') [] (Some k) s r seq -> crash d') as Hnew.
  { intros d' k s O'. right. split; [done|]. eexists _, _, _, _, _. split; [|exact O']. by rewrite grow_chain, EL. }
  assert (crash d) as Hold by (left; rewrite <-EL; split; [apply S|]; eexists _, _, _, _, _; split; [|exact O]; done).
  assert (d_files d !! w = Some (chunk_bytes (ly_cur L))) as Hfile.
  { unfold w. rewrite (fo_files _ _ _ (od_files _ _ _ _ _ _ _ _ O)), contents_cur by done. by rewrite app_nil_r. }
  pose proof (grow_on_disk max L b' r seq d Hc O Hsize) as O1. fold w d1 in O1. change (record b') with (record b) in O1. fold d1 in O1.
  unfold addBlock_commit. apply wp_deferred. wp_steps. cbn [st_mgr]. rewrite (so_info _ _ _ _ _ S : m_blockfilesInfo m = info_of L).
  replace (mkInfo (latestFileNumber (info_of L)) (latestFileSize (info_of L) + Z.of_nat (length (record b))) false (bh_Number h)) with (info_of (grow L b')) by (by rewrite grow_info_new, Hn, EL).
  unfold wp at 1, saveBlkfilesInfo. destruct (f_put fl false) eqn:Hput.
  - split; [constructor|]. change (latestFileSize (info_of L)) with (Z.of_nat (length (chunk_bytes (take (length (ly_cur L)) (ly_cur L))))). rewrite take_ge by done. wp_steps.
    apply (truncate_wp fl w m); [exact (so_writer _ _ _ _ _ S)|done|done|done|]. wp_steps. apply cachePut_wp; [rewrite <-EL; apply S|]. intros c _. split; [done|]. split; [intros E; by rewrite E in Hput|congruence].
  - cbn [mbind IO_bind get_disk set_disk app st_disk st_mgr]. pose proof (on_disk_info _ _ _ _ _ _ _ _ (length (ly_cur (grow L b'))) O1 ltac:(done)) as O2.
    fold (info_of (grow L b')) in O2. split; [constructor; [by eapply Hnew|constructor]|]. wp_steps.
    pose proof (grow_located_new L b') as Hloc. rewrite Hn.
    change (latestFileNumber (info_of (grow L b'))) with (Z.of_nat (ly_first L + length (ly_full L))).
    change (latestFileSize (info_of L)) with (Z.of_nat (length (chunk_bytes (take (length (ly_cur L)) (ly_cur L))))). rewrite take_ge by done.
    unfold wp at 1. destruct (f_write fl) eqn:Hw.
    + unfold indexBlock. rewrite Hw. split; [constructor|]. apply cachePut_wp; [rewrite <-EL; apply S|]. intros c _. split; [by eapply Hnew|]. split; [intros E; by rewrite E in Hw|congruence].
    + rewrite indexBlock_eq by done.
      assert (on_disk max (index_db (length l) (ly_first L + length (ly_full L)) (Z.of_nat (length (chunk_bytes (ly_cur L)))) (set_db (<[blkMgrInfoKey:=blockfilesInfo_marshal (info_of (grow L b'))]> (d_db d1)) d1))
        (grow L b') [] (Some (length (ly_cur (grow L b')))) (length (chain_of (grow L b'))) r seq) as O3.
      { rewrite <-EL. rewrite grow_chain, length_app. cbn [length]. rewrite Nat.add_1_r. eapply on_disk_index_step; [by rewrite grow_chain|exact O2|exact Hloc|by left]. }
      cbn [st_disk st_mgr] in O3 |- *. set (d3 := index_db _ _ _ _) in *. split; [constructor; [by eapply Hnew|constructor]|]. wp_steps. cbn [st_disk st_mgr].
      apply cachePut_wp; [rewrite <-EL; apply S|]. intros c Hcache. split; [by eapply Hnew|]. split; [done|]. exists (grow L b'), seq. split; [by rewrite grow_chain, EL|].
      split; rewrite ?grow_chain, ?EL; try done; [by rewrite grow_chain, EL in O3|exact (so_max _ _ _ _ _ S)|exact (so_writer _ _ _ _ _ S)| |exact (so_prune _ _ _ _ _ S)|exact (so_seq _ _ _ _ _ S)].
      by apply bc_snoc.
Qed.
End Commit.

Lemma addBlock_tail_wp L seq d m : chain_of L = l -> store_ok max (mkStore d m) L r seq -> serializable b ->
  (Z.of_nat (length (chunk_bytes (ly_cur L)) + length (record b)) <= max)%Z ->
  wp fl (catch (append (AppendVarint [] (u64_of_int (Z.of_nat (length (block_bytes b))))) false ;; append (block_bytes b) true)
           (fun e => m ← get_mgr; truncateFile (latestFileSize (m_blockfilesInfo m)) ;; lift (Err "error appending block to file")) ;;
         addBlock_commit b h hash (latestFileSize (info_of L)) (Z.of_nat (length (block_bytes b))) (Z.of_nat (length (record b)))) (mkStore d m) crash added.
Proof.
  intros EL S Hser Hsize. pose proof (so_disk _ _ _ _ _ S) as O. cbn [st_disk] in O. pose proof (so_created _ _ _ _ _ S) as Hc. pose proof G as G'. rewrite <-EL in G'.
  assert (AppendVarint [] (u64_of_int (Z.of_nat (length (block_bytes b)))) = varint (N.of_nat (length (block_bytes b)))) as ->.
  { rewrite AppendVarint_eq. cbn [app]. rewrite u64_of_int_small; [f_equal; lia|]. unfold record, framed in Hsize. rewrite length_app in Hsize. unfold max_int64. lia. }
  set (w := Z.of_nat (ly_first L + length (ly_full L))). assert (m_currentFileWriter m = w) as Hwr by exact (so_writer _ _ _ _ _ S).
  assert (d_files d !! w = Some (chunk_bytes (ly_cur L))) as Hfile.
  { unfold w. rewrite (fo_files _ _ _ (od_files _ _ _ _ _ _ _ _ O)), contents_cur by done. by rewrite app_nil_r. }
  assert (open_on max l r (mkStore d m)) as Hopen by (by exists L, seq).
  apply wp_bind, wp_catch, (append_both_wp fl w m Hwr _ _ (chunk_bytes (ly_cur L))); [done| | |].
  - intros p q E. unfold crash. rewrite <-EL. apply (prefix_disk_ok max Hmax L b' r seq d G' Hc O Hsize p q). exact E.
  - intros p q e Hfl E. wp_steps. cbn [st_mgr]. rewrite (so_info _ _ _ _ _ S : m_blockfilesInfo m = info_of L).
    change (latestFileSize (info_of L)) with (Z.of_nat (length (chunk_bytes (take (length (ly_cur L)) (ly_cur L))))). rewrite take_ge by done.
    apply (truncate_wp fl w m); [done|done|done|left; by apply (open_on_disk max _ _ _ Hopen)|]. wp_steps.
    split; [left; by apply (open_on_disk max _ _ _ Hopen)|]. by split.
  - cbn beta iota. by apply (commit_wp L seq d m).
Qed.

Lemma addBlock_wp st : open_on max l r st -> Ledger.addBlock l b = Ok (l ++ [b]) -> serializable b -> (Z.of_nat (length (record b)) <= max)%Z ->
  wp fl (BlockFiles.addBlock b) st crash added.
Proof.
  intros (L & seq & EL & S) Hadd Hser Hrec. unfold BlockFiles.addBlock. wp_steps. rewrite Hh. cbn [deref]. wp_steps.
  destruct (so_bc _ _ _ _ _ S) as (Hheight & Hcur & _). rewrite EL in Hheight, Hcur. unfold Ledger.addBlock in Hadd. rewrite Hh in Hadd. cbn [deref mbind outcome_bind] in Hadd.
  apply guard_err_Ok in Hadd as [Hnum Hadd]. rewrite Hcur in Hadd. cbn [mbind outcome_bind] in Hadd. apply guard_err_Ok in Hadd as [Hprev _].
  rewrite Hheight, Hnum, Hprev. rewrite (serializeBlock_bytes b Hser), Hhash. wp_steps. rewrite (so_info _ _ _ _ _ S), (so_max _ _ _ _ _ S).
  assert (Z.of_nat (length (block_bytes b)) + Z.of_nat (length (AppendVarint [] (u64_of_int (Z.of_nat (length (block_bytes b)))))) = Z.of_nat (length (record b)))%Z as Etotal.
  { rewrite AppendVarint_eq. cbn [app]. unfold record, framed in *. rewrite length_app in *. rewrite u64_of_int_small by (unfold max_int64; lia).
    replace (Z.to_N (Z.of_nat (length (block_bytes b)))) with (N.of_nat (length (block_bytes b))) by lia. lia. }
  rewrite Etotal. assert (latestFileSize (info_of L) = Z.of_nat (length (chunk_bytes (ly_cur L)))) as Esz by (cbn; by rewrite take_ge).
  destruct (Z.ltb_spec max (latestFileSize (info_of L) + Z.of_nat (length (record b)))) as [Hgt|Hle].
  - assert (ly_cur L <> []) as Hne by (intros X; rewrite X, chunk_bytes_nil in Esz; change (Z.of_nat (length [])) with 0%Z in Esz; lia). wp_steps.
    assert (disk_ok max (chain_of L) r (st_disk st)) as Hd by (apply open_on_disk; by exists L, seq).
    eapply wp_mono; [eapply wp_crash; [by apply (moveToNextFile_wp max Hmax fl st L r seq)|intros; left; by rewrite <-EL]|].
    intros [[]|e|e] [d m]; [|done|].
    + intros S'. wp_step. refine (addBlock_tail_wp (next_layout L) seq d m _ S' Hser _); [by rewrite next_chain|].
      cbn [next_layout close_extra with_extra ly_extra ly_cur]. rewrite chunk_bytes_nil. cbn. lia.
    + intros [Hp Hd']. rewrite EL in Hd'. split; [by left|]. split; [|done]. intros E. by rewrite E in Hp.
  - wp_step. destruct st as [d m]. apply (addBlock_tail_wp L seq d m); [done|done|done|lia].
Qed.
End AddBlock.

Section GoodChains.
Context `{BlockCodecs} `{Sha256} (max : Z).
Lemma good_snoc l b h hash : good_chain max l -> Ledger.addBlock l b = Ok (l ++ [b]) -> serializable b -> b_Header b = Some h -> BlockHeaderHash h = Ok hash ->
  (Z.of_nat (length (record b)) <= max)%Z -> (Z.of_nat (length l) < max_int64)%Z -> good_chain max (l ++ [stored b]).
Proof.
  intros [Hc Hb Hl] Hadd Hser Hh Hhash Hrec Hlen. split.
  - apply (Append_chain l (stored b)); [done|]. unfold Append. assert (Ledger.addBlock l (stored b) = Ok (l ++ [stored b])) as ->; [|done].
    unfold Ledger.addBlock in *. change (b_Header (stored b)) with (b_Header b). destruct (deref (b_Header b)) as [h'|?|?]; cbn [mbind outcome_bind] in *; [|done..].
    destruct (negb _); cbn [guard_err] in *; [done|]. destruct (CurrentBlockHash l); cbn [mbind outcome_bind] in *; [|done..]. by destruct (bool_decide _).
  - apply Forall_app. split; [done|]. constructor; [|constructor]. split; [done|done|done|]. intros h' E. change (b_Header (stored b)) with (b_Header b) in E. exists hash. congruence.
  - rewrite length_app. cbn. unfold max_int64 in *. lia.
Qed.
End GoodChains.

(** ** Reading *)
Section Read.
Context `{BlockCodecs} `{Sha256} (max : Z) (Hmax : (0 < max < 72057594037927936)%Z).

(** What a reader of the chain [l] gets for a number, when blocks from [r] on may be read. *)
Definition read (l : list Block) (r : N) (blockNum : N) : outcome Block :=
  let n := if (blockNum =? u64_max)%N then (if (length l =? 0)%nat then u64_max else N.of_nat (length l - 1)) else blockNum in
  if (n <? r)%N then Err ErrPruned else of_option "no such block number in index" (if (n <? u64_max)%N then l !! N.to_nat n else None).

Lemma retrieve_read l r st n : open_on max l r st -> (n <= u64_max)%N -> retrieveBlockByNumber st n = read l r n.
Proof.
  intros (L & seq & EL & S) Hn. unfold retrieveBlockByNumber, read. destruct (so_bc _ _ _ _ _ S) as (Hh & _ & _). rewrite EL in Hh. unfold Height in Hh. rewrite Hh.
  pose proof (gc_length _ _ (so_good _ _ _ _ _ S)) as Hlen. rewrite EL in Hlen. unfold max_int64 in Hlen.
  assert ((if (n =? u64_max)%N then u64 (N.of_nat (length l) + u64_max) else n) = (if (n =? u64_max)%N then (if (length l =? 0)%nat then u64_max else N.of_nat (length l - 1)) else n)) as ->.
  { destruct (N.eqb_spec n u64_max); [|done]. destruct (Nat.eqb_spec (length l) 0) as [->|Hz]; [done|]. unfold u64, u64_max.
    replace (N.of_nat (length l) + 18446744073709551615)%N with (N.of_nat (length l - 1) + 1 * 18446744073709551616)%N by lia. rewrite N.Div0.mod_add, N.mod_small; lia. }
  set (n' := if (n =? u64_max)%N then _ else n). assert (n' <= u64_max)%N as Hn'. { unfold n'. destruct (n =? u64_max)%N; [|done]. destruct (length l =? 0)%nat; unfold u64_max; lia. }
  rewrite (checkBlockAvailable_ok _ _ _ _ (so_prune _ _ _ _ _ S)). destruct (N.ltb_spec n' r) as [Hr|Hr]; [done|]. cbn [mbind outcome_bind].
  pose proof (so_disk _ _ _ _ _ S) as O. pose proof (od_index _ _ _ _ _ _ _ _ O) as Hi. pose proof (pr_low _ _ _ _ (od_prune _ _ _ _ _ _ _ _ O)) as Hlow.
  assert (forall A (o : outcome A), errAfterFailedRead (st_mgr st) n' o = o) as Haft.
  { intros A [a|e|e]; cbn; [done| |done]. rewrite (checkBlockAvailable_ok _ _ _ _ (so_prune _ _ _ _ _ S)). by destruct (N.ltb_spec n' r); [lia|]. }
  rewrite Haft. destruct (l !! N.to_nat n') as [b|] eqn:Eb.
  - apply lookup_lt_Some in Eb as Hlt. destruct (N.ltb_spec n' u64_max); [|unfold u64_max in *; lia]. cbn [of_option]. rewrite <-EL in Eb.
    destruct (chain_located L _ b Eb ltac:(lia)) as (f & off & Hl). rewrite <-(N2Nat.id n').
    rewrite (getBlockLoc_located max Hmax _ L _ _ b f off (so_good _ _ _ _ _ S) (od_wf _ _ _ _ _ _ _ _ O) Hi Hl) by (rewrite EL; lia). cbn [mbind outcome_bind].
    rewrite N2Nat.id, Haft. unfold fetchBlock. rewrite (fetch_located max Hmax L (so_good _ _ _ _ _ S) _ [] (od_files _ _ _ _ _ _ _ _ O) (so_created _ _ _ _ _ S) _ _ _ _ Hl). cbn [mbind outcome_bind default from_option id].
    destruct (block_number max Hmax b _ L (so_good _ _ _ _ _ S) Eb) as (h & _ & _ & -> & _). done.
  - apply lookup_ge_None in Eb. unfold getBlockLocByBlockNum. rewrite <-(N2Nat.id n') at 1. rewrite (ix_none _ _ _ Hi) by (rewrite ?EL; lia). by destruct (n' <? u64_max)%N.
Qed.
End Read.

(** ** Pruning *)
Section Prune.
Context `{BlockCodecs} `{Sha256} (max : Z) (Hmax : (0 < max < 72057594037927936)%Z) (fl : Faults).

Definition shift (L : layout) : layout :=
  match ly_full L with
  | c :: full => mkLayout (ly_pruned L ++ c) (S (ly_first L)) full (ly_cur L) (ly_extra L) (ly_created L)
  | [] => L
  end.
Lemma shift_chain L : chain_of (shift L) = chain_of L.
Proof. unfold shift. destruct (ly_full L) as [|c full] eqn:E; [done|]. unfold chain_of, chunks. cbn. rewrite E. cbn. by rewrite <-app_assoc. Qed.
Lemma shift_info L : info_of (shift L) = info_of L.
Proof.
  unfold shift. destruct (ly_full L) as [|c full] eqn:E; [done|]. unfold info_of, info_at, count. cbn [ly_full ly_cur ly_pruned ly_first]. rewrite E. cbn [length concat]. rewrite !length_app.
  f_equal; [f_equal; lia|f_equal; lia|f_equal; lia].
Qed.
Lemma shift_located L n b f off : located (shift L) n b f off -> located L n b f off.
Proof.
  unfold shift. destruct (ly_full L) as [|c full] eqn:E; [done|]. intros (i & c1 & c2 & Ei & En & -> & ->). exists (S i), c1, c2. unfold chunks in *. cbn [ly_full ly_cur ly_pruned ly_first] in *. rewrite E.
  split; [done|]. cbn [take app concat]. rewrite length_app in *. split_and!; [rewrite ?length_app; lia|lia|done].
Qed.
Lemma shift_wf L : wf_layout max L -> ly_created L = true -> wf_layout max (shift L).
Proof.
  intros [] Hc. unfold shift. destruct (ly_full L) as [|c full] eqn:E; [by split; rewrite ?E|]. apply Forall_cons in wl_full as [Hne Hfull]. split; cbn [ly_full ly_cur ly_pruned ly_first ly_extra ly_created]; [done| | |done|congruence].
  - rewrite length_app. destruct c; [done|cbn]. lia.
  - unfold chunks in *. cbn [ly_full ly_cur]. rewrite E in wl_size. by apply Forall_cons in wl_size as [_ ?].
Qed.
Lemma shift_files L d junk : files_ok d L junk -> ly_created L = true -> ly_full L <> [] -> files_ok d (shift L) junk.
Proof.
  intros [Hn Hf] Hc Hne. unfold shift. destruct (ly_full L) as [|c full] eqn:E; [done|]. split; [done|]. intros i. cbn [ly_first].
  replace (S (ly_first L) + i) with (ly_first L + S i) by lia. rewrite Hf. unfold contents. cbn [ly_full ly_cur ly_extra ly_created]. by rewrite Hc, E.
Qed.
Lemma pos_shift L e c full : ly_full L = c :: full -> pos (shift L) e [] = pos L (S e) [].
Proof. intros E. unfold pos, shift, chunks. rewrite E. cbn [ly_full ly_cur ly_pruned take app concat]. rewrite !length_app. cbn. lia. Qed.

(** A new record of pruning, and the old one is removed. *)
Lemma setInfo_wp st info (C : Disk -> Prop) (Q : outcome unit -> Store -> Prop) : let seq := m_infoSeq (st_mgr st) in
  (seq < u64_max)%N -> (forall n, is_Some (d_prune (st_disk st) !! n) -> (n <= seq)%N) ->
  (forall d', d_files d' = d_files (st_disk st) -> d_db d' = d_db (st_disk st) -> d_prune d' !! (seq + 1)%N = Some (pruneInfo_marshal info) ->
     (forall n, is_Some (d_prune d' !! n) -> (n <= seq + 1)%N) -> C d' /\ Q (Ok tt) (mkStore d' (set_prune info (seq + 1) (st_mgr st)))) ->
  wp fl (setInfo info) st C Q.
Proof.
  intros seq Hs Hall HQ. unfold setInfo, saveInfo. wp_steps. fold seq. rewrite u64_incr_small by done.
  destruct (d_prune (st_disk st) !! (seq + 1)%N) eqn:E; [specialize (Hall (seq + 1)%N ltac:(by rewrite E)); lia|].
  assert (forall n, is_Some (<[(seq + 1)%N:=pruneInfo_marshal info]> (d_prune (st_disk st)) !! n) -> (n <= seq + 1)%N) as Hall1.
  { intros n. destruct (decide (n = (seq + 1)%N)) as [->|]; [done|]. rewrite lookup_insert_ne by done. intros Hn%Hall. lia. }
  wp_steps. apply wp_set_disk; [constructor|apply HQ; [done|done|cbn; by rewrite lookup_insert_eq|done]|]. wp_steps. cbn [st_mgr st_disk]. unfold when.
  destruct (N.eqb_spec seq 0) as [Hz|Hz]; cbn [negb].
  - wp_steps. cbn. apply HQ; [done|done|cbn; by rewrite lookup_insert_eq|done].
  - cbn [drop_seqs]. wp_steps. cbn [st_disk d_prune set_pruneFiles].
    match goal with |- wp _ (set_disk [] ?d) _ _ _ => assert (C d /\ Q (Ok tt) (mkStore d (set_prune info (seq + 1) (st_mgr st)))) as [HC HQ'] end.
    { apply HQ; [done|done| |]; cbn [d_prune set_pruneFiles].
      - by rewrite lookup_delete_ne, lookup_insert_eq by lia.
      - intros n. destruct (decide (seq = n)) as [<-|]; [rewrite lookup_delete_eq; by intros ?%is_Some_None|]. rewrite lookup_delete_ne by done. apply Hall1. }
    apply wp_set_disk; [constructor|done|]. wp_steps. done.
Qed.

(** The number of the first block above a full file. *)
Lemma first_after L d junk i : good_chain max (chain_of L) -> wf_layout max L -> files_ok d L junk -> ly_created L = true -> i < length (ly_full L) ->
  firstBlockNumAfter d (Z.of_nat (ly_first L + i)) (info_of L) = Ok (N.of_nat (pos L (S i) [])).
Proof.
  intros G Hwf Hf Hc Hi. unfold firstBlockNumAfter. change (latestFileNumber (info_of L)) with (Z.of_nat (ly_first L + length (ly_full L))).
  change (latestFileSize (info_of L)) with (Z.of_nat (length (chunk_bytes (take (length (ly_cur L)) (ly_cur L))))). rewrite take_ge by done.
  change (lastPersistedBlock (info_of L)) with (N.of_nat (count L (length (ly_cur L)) - 1)).
  pose proof (gc_length _ _ G) as Hlen. rewrite length_chain in Hlen. unfold max_int64 in Hlen. pose proof (length_concat_full max L Hwf) as Hfull.
  pose proof (length_chunk_bytes (ly_cur L)) as Hcb.
  destruct (decide (chunks L !! S i = Some [])) as [E|E].
  - assert (S i = length (ly_full L)) as Ei.
    { unfold chunks in E. apply lookup_app_Some in E as [E|[Hge E]]; [pose proof (wl_full _ _ Hwf) as F; rewrite Forall_lookup in F; by apply F in E|].
      apply list_lookup_singleton_Some in E as [E _]. lia. }
    assert (ly_cur L = []) as Hcur by (rewrite Ei, chunks_cur in E; congruence). rewrite Hcur in *. cbn [length] in *.
    destruct (Z.eqb_spec (Z.of_nat (ly_first L + i) + 1) (Z.of_nat (ly_first L + length (ly_full L)))); [|lia]. rewrite chunk_bytes_nil. cbn [length Z.of_nat Z.eqb andb].
    pose proof (pos_last L) as Hp. rewrite Hcur, <-Ei, length_chain, Hcur in Hp. cbn [length] in Hp. rewrite Hp. unfold count in *. f_equal. rewrite u64_small by (unfold u64_max; lia). lia.
  - destruct (lookup_lt_is_Some_2 (chunks L) (S i)) as [c Ec]; [unfold chunks; rewrite length_app; cbn; lia|]. destruct c as [|b c]; [done|].
    assert (((Z.of_nat (ly_first L + i) + 1 =? Z.of_nat (ly_first L + length (ly_full L)))%Z && (Z.of_nat (length (chunk_bytes (ly_cur L))) =? 0)%Z) = false) as ->.
    { apply andb_false_iff. destruct (decide (S i = length (ly_full L))) as [Ei|Ei]; [right|left; apply Z.eqb_neq; lia]. rewrite Ei, chunks_cur in Ec. injection Ec as Ec. rewrite Ec in *. cbn [length] in Hcb. apply Z.eqb_neq. lia. }
    assert (located L (pos L (S i) []) b (ly_first L + S i) 0) as Hl by (by exists (S i), [], c).
    destruct (chain_number max L G _ _ (located_chain _ _ _ _ _ Hl)) as (Gb & (h & Hh & Hn) & Hu). rewrite <-Hn.
    replace (Z.of_nat (ly_first L + i) + 1)%Z with (Z.of_nat (ly_first L + S i)) by lia.
    erewrite (retrieveFirstBlockNum_chunk d _ b c); [done|by apply file_lookup|by apply (good_small max Hmax)|done|lia].
Qed.

Lemma pos_mono L i j : i <= j -> pos L i [] <= pos L j [].
Proof.
  intros Hij. unfold pos. rewrite <-(take_drop i (take j (chunks L))), take_take, Nat.min_l, concat_app, length_app by lia. lia.
Qed.
(** How many files lie below the bound. *)
Definition eligible (L : layout) (bound : N) (e : nat) : Prop :=
  e <= length (ly_full L) /\ (e = 0 \/ (N.of_nat (pos L e []) <= bound)%N) /\ (e = length (ly_full L) \/ (bound < N.of_nat (pos L (S e) []))%N).
Lemma countEligible_ok L d junk bound : good_chain max (chain_of L) -> wf_layout max L -> files_ok d L junk -> ly_created L = true ->
  exists e, countEligibleFiles d bound (Z.of_nat (ly_first L)) (info_of L) = Ok (Z.of_nat e) /\ eligible L bound e.
Proof.
  intros G Hwf Hf Hc. unfold countEligibleFiles. change (latestFileNumber (info_of L)) with (Z.of_nat (ly_first L + length (ly_full L))).
  assert (forall fuel i, i + fuel = length (ly_full L) -> (i = 0 \/ (N.of_nat (pos L i []) <= bound)%N) ->
    exists e, countEligible_loop d bound (info_of L) fuel (Z.of_nat (ly_first L + i)) (Z.of_nat i) = Ok (Z.of_nat e) /\ eligible L bound e) as X.
  { induction fuel as [|fuel IH]; intros i Hi Hp; cbn [countEligible_loop].
    - exists i. split; [done|]. split_and!; [lia|done|left; lia].
    - change (latestFileNumber (info_of L)) with (Z.of_nat (ly_first L + length (ly_full L))).
      destruct (Z.ltb_spec (Z.of_nat (ly_first L + i)) (Z.of_nat (ly_first L + length (ly_full L)))); [|lia].
      rewrite (first_after L d junk i) by (first [done|lia]). cbn [mbind outcome_bind]. destruct (N.ltb_spec bound (N.of_nat (pos L (S i) []))) as [Hb|Hb].
      + exists i. split; [done|]. split_and!; [lia|done|by right].
      + replace (Z.of_nat (ly_first L + i) + 1)%Z with (Z.of_nat (ly_first L + S i)) by lia. replace (Z.of_nat i + 1)%Z with (Z.of_nat (S i)) by lia. apply IH; [lia|by right]. }
  replace (Z.to_nat (Z.of_nat (ly_first L + length (ly_full L)) - Z.of_nat (ly_first L))) with (length (ly_full L)) by lia.
  pose proof (X (length (ly_full L)) 0 ltac:(lia) ltac:(by left)) as Y. rewrite Nat.add_0_r in Y. exact Y.
Qed.

(** One file goes: the record first, then the index entries of its blocks, then the file. *)
Lemma deletions_lookup (db : gmap bytes bytes) from to k : (forall n, (from <= n < to)%N -> k <> constructBlockNumKey n) -> addBlockNumDeletions db from to !! k = db !! k.
Proof.
  intros Hk. unfold addBlockNumDeletions. assert (forall l (db : gmap bytes bytes), (forall n, n ∈ l -> k <> constructBlockNumKey n) -> foldl (fun db n => delete (constructBlockNumKey n) db) db l !! k = db !! k) as X.
  { induction l as [|n l IH]; intros db' Hl; cbn; [done|]. rewrite IH by set_solver. apply lookup_delete_ne. intros E. apply (Hl n); [set_solver|done]. }
  apply X. intros n (i & -> & Hi%elem_of_seq)%list_elem_of_fmap. apply Hk. lia.
Qed.
Definition no_orphans (L : layout) (d : Disk) : Prop := forall n, (n < Z.of_nat (ly_first L))%Z -> d_files d !! n = None.

Lemma pruneBlockfile_wp st L r seq c full fa : store_ok max st L r seq -> no_orphans L (st_disk st) -> ly_full L = c :: full ->
  (r <= fa)%N -> (N.of_nat (length (ly_pruned L ++ c)) <= fa)%N -> (fa < N.of_nat (length (chain_of L)))%N ->
  wp fl (pruneBlockfile (Z.of_nat (ly_first L)) (N.of_nat (length (ly_pruned L))) (N.of_nat (length (ly_pruned L ++ c))) fa) st
    (disk_ok max (chain_of L) fa) (fun o st' => o = Ok tt /\ no_orphans (shift L) (st_disk st') /\ store_ok max st' (shift L) fa (seq + 1)).
Proof.
  intros Ho Hnone Efull Hr Hfa Hhi. pose proof (so_disk _ _ _ _ _ Ho) as O. pose proof (so_good _ _ _ _ _ Ho) as G. pose proof (so_created _ _ _ _ _ Ho) as Hc.
  pose proof (od_prune _ _ _ _ _ _ _ _ O) as Hp. pose proof (gc_length _ _ G) as Hlen. pose proof (file_bound max L G (od_wf _ _ _ _ _ _ _ _ O)) as Hfb. unfold max_int64 in *.
  assert (ly_pruned (shift L) = ly_pruned L ++ c) as Epr by (unfold shift; by rewrite Efull).
  assert (ly_first (shift L) = S (ly_first L)) as Efi by (unfold shift; by rewrite Efull).
  assert (ly_cur (shift L) = ly_cur L) as Ecur by (unfold shift; by rewrite Efull).
  assert (forall d', d_files d' = d_files (st_disk st) -> d_db d' = d_db (st_disk st) -> d_prune d' !! (seq + 1)%N = Some (pruneInfo_marshal (mkPrune fa (Z.of_nat (ly_first (shift L))))) ->
    (forall n, is_Some (d_prune d' !! n) -> (n <= seq + 1)%N) -> on_disk max d' (shift L) [] (Some (length (ly_cur L))) (length (chain_of L)) fa (seq + 1)) as Hrec.
  { intros d' E1 E2 E3 E4. split.
    - apply shift_wf; [apply O|done].
    - eapply files_ok_files; [|exact E1]. apply shift_files; [apply O|done|by rewrite Efull].
    - apply torn_nil.
    - rewrite E2, (od_info _ _ _ _ _ _ _ _ O). cbn. pose proof (shift_info L) as X. unfold info_of in X. rewrite Ecur in X. by rewrite X.
    - by rewrite Ecur.
    - eapply index_ok_db; [|by rewrite E2|intros; by rewrite E2]. destruct (od_index _ _ _ _ _ _ _ _ O). split; [done|rewrite shift_chain, Epr; lia| |done].
      intros n b f off Hl%shift_located. by eapply ix_loc.
    - split; rewrite ?shift_chain, ?Epr, ?Efi; [|pose proof (pr_seq _ _ _ _ Hp); lia|done|by right]. rewrite Efi in E3. destruct (seq + 1)%N eqn:Es; [lia|]. by split. }
  assert (forall d' s, on_disk max d' (shift L) [] (Some (length (ly_cur L))) s fa (seq + 1) -> disk_ok max (chain_of L) fa d') as Hdisk.
  { intros d' s O'. split; [done|]. eexists _, _, _, _, _. split; [apply shift_chain|exact O']. }
  unfold pruneBlockfile. replace (Z.of_nat (ly_first L) + 1)%Z with (Z.of_nat (ly_first (shift L))) by (rewrite Efi; lia). wp_steps.
  apply setInfo_wp; rewrite (so_seq _ _ _ _ _ Ho).
  { pose proof (pr_seq _ _ _ _ Hp). unfold u64_max. lia. }
  { intros n Hn. pose proof (pr_record _ _ _ _ Hp) as R. destruct seq; [destruct R as (R & _); rewrite R, lookup_empty in Hn; by apply is_Some_None in Hn|by apply R]. }
  intros d1 E1 E2 E3 E4. specialize (Hrec d1 E1 E2 E3 E4). split; [by eapply Hdisk|]. wp_steps. cbn [st_disk st_mgr].
  set (d2 := set_db _ d1). assert (on_disk max d2 (shift L) [] (Some (length (ly_cur L))) (length (chain_of L)) fa (seq + 1)) as O2.
  { assert (forall n, (N.of_nat (length (ly_pruned L ++ c)) <= n)%N -> (n <= u64_max)%N -> d_db d2 !! constructBlockNumKey n = d_db d1 !! constructBlockNumKey n) as Hkeep.
    { intros n Hn Hu. apply deletions_lookup. intros m Hm E%constructBlockNumKey_inj; [lia|done|]. unfold u64_max. lia. }
    eapply (on_disk_index max d1); [done| |done|done|apply deletions_lookup; auto with go]. destruct (od_index _ _ _ _ _ _ _ _ Hrec). split.
    - etrans; [apply deletions_lookup; auto with go|done].
    - done.
    - intros n b f off Hl Hn. pose proof (located_stored _ _ _ _ _ Hl) as Hst. rewrite Epr in Hst. rewrite Hkeep by (unfold u64_max; lia). by eapply ix_loc.
    - intros n Hn Hu. rewrite Hkeep; [by apply ix_none|lia|done]. }
  apply wp_set_disk; [constructor|by eapply Hdisk|]. unfold removeBlockfile. wp_steps. cbn [st_disk st_mgr].
  set (d3 := mkDisk _ _ _). assert (on_disk max d3 (shift L) [] (Some (length (ly_cur L))) (length (chain_of L)) fa (seq + 1)) as O3.
  { eapply (on_disk_files max d2); [done| |done|done]. apply files_ok_below; [apply O2|rewrite Efi; lia]. }
  apply wp_set_disk; [constructor|by eapply Hdisk|]. split; [done|]. split.
  - intros n Hn. rewrite Efi in Hn. cbn [st_disk d_files d3]. destruct (decide (n = Z.of_nat (ly_first L))) as [->|]; [by rewrite lookup_delete_eq|].
    rewrite lookup_delete_ne by done. cbn [d2 set_db d_files]. rewrite E1. apply Hnone. lia.
  - destruct Ho. split; cbn [st_disk st_mgr m_maxBlockfileSize m_blockfilesInfo m_currentFileWriter m_bcInfo m_cache m_pruneInfo m_infoSeq set_prune];
      rewrite ?shift_chain, ?shift_info, ?Ecur; try done; [by unfold shift; rewrite Efull|].
    change (Z.of_nat (ly_first (shift L) + length (ly_full (shift L)))) with (latestFileNumber (info_of (shift L))). by rewrite shift_info.
Qed.

Fixpoint shifts (e : nat) (L : layout) : layout := match e with O => L | S e => shifts e (shift L) end.
Lemma shifts_facts e L : chain_of (shifts e L) = chain_of L /\ info_of (shifts e L) = info_of L.
Proof. revert L; induction e as [|e IH]; intros L; cbn; [done|]. destruct (IH (shift L)) as [-> ->]. by rewrite shift_chain, shift_info. Qed.

Lemma prune_loop_wp e st L r seq fa : store_ok max st L r seq -> no_orphans L (st_disk st) -> e <= length (ly_full L) ->
  (r <= fa)%N -> e = 0 \/ (N.of_nat (pos L e []) <= fa)%N -> (fa < N.of_nat (length (chain_of L)))%N ->
  wp fl (prune_loop (info_of L) fa e (Z.of_nat (ly_first L)) (N.of_nat (length (ly_pruned L)))) st (disk_ok max (chain_of L) fa)
    (fun o st' => o = Ok tt /\ no_orphans (shifts e L) (st_disk st') /\ exists seq', store_ok max st' (shifts e L) (if decide (e = 0) then r else fa) seq').
Proof.
  revert st L r seq; induction e as [|e IH]; intros st L r seq Ho Hnone He Hr Hpos Hfa; cbn [prune_loop].
  - wp_steps. split_and!; [done|done|]. by exists seq.
  - destruct (ly_full L) as [|c full] eqn:Efull; [cbn in He; lia|]. cbn in He. pose proof (so_good _ _ _ _ _ Ho) as G. pose proof (so_disk _ _ _ _ _ Ho) as O.
    wp_steps. pose proof (first_after L (st_disk st) [] 0 G (od_wf _ _ _ _ _ _ _ _ O) (od_files _ _ _ _ _ _ _ _ O) (so_created _ _ _ _ _ Ho) ltac:(rewrite Efull; cbn; lia)) as Ha.
    rewrite Nat.add_0_r in Ha. rewrite Ha. cbn beta iota. assert (pos L 1 [] = length (ly_pruned L ++ c)) as Ep.
    { unfold pos, chunks. rewrite Efull. cbn [take app concat]. rewrite !length_app. rewrite take_0. cbn [concat length]. lia. }
    pose proof (pos_mono L 1 (S e) ltac:(lia)). rewrite Ep. wp_steps.
    eapply wp_mono; [apply (pruneBlockfile_wp st L r seq c full fa); [done|done|done|done|lia|done]|]. intros o st' (-> & Hnone' & Ho'). cbn beta iota.
    assert (ly_pruned (shift L) = ly_pruned L ++ c) as Epr by (unfold shift; by rewrite Efull).
    assert (ly_first (shift L) = S (ly_first L)) as Efi by (unfold shift; by rewrite Efull).
    assert (ly_full (shift L) = full) as Efu by (unfold shift; by rewrite Efull).
    specialize (IH st' (shift L) fa (seq + 1)%N Ho' Hnone'). rewrite Efu, shift_info, shift_chain, Epr, Efi, (pos_shift L e c full Efull) in IH.
    replace (Z.of_nat (S (ly_first L))) with (Z.of_nat (ly_first L) + 1)%Z in IH by lia.
    eapply wp_mono; [apply IH; [lia|lia|lia|done]|]. intros o st'' (-> & Hn2 & seq' & Ho2). cbn [shifts]. split_and!; [done|done|]. exists seq'. by destruct (decide (e = 0)).
Qed.

Lemma shifts_full e L : e <= length (ly_full L) -> length (ly_full (shifts e L)) = length (ly_full L) - e /\ forall i, pos (shifts e L) i [] = pos L (e + i) [].
Proof.
  revert L; induction e as [|e IH]; intros L He; cbn [shifts]; [split; [lia|done]|]. destruct (ly_full L) as [|c full] eqn:Efull; [cbn in He; lia|].
  assert (ly_full (shift L) = full) as Efu by (unfold shift; by rewrite Efull). destruct (IH (shift L)) as [E1 E2]; [rewrite Efu; cbn in He; lia|]. rewrite E1, Efu. split; [done|].
  intros i. rewrite E2. by apply (pos_shift L (e + i) c full).
Qed.
Lemma eligible_none L d bound : good_chain max (chain_of L) -> wf_layout max L -> files_ok d L [] -> ly_created L = true -> eligible L bound 0 ->
  countEligibleFiles d bound (Z.of_nat (ly_first L)) (info_of L) = Ok 0%Z.
Proof.
  intros G Hwf Hf Hc (_ & _ & H0'). destruct (countEligible_ok L d [] bound G Hwf Hf Hc) as (e & -> & He1 & He2 & _). destruct He2 as [->|He2]; [done|].
  destruct (decide (e = 0)) as [->|He]; [done|]. pose proof (pos_mono L 1 e ltac:(lia)). lia.
Qed.

(** The bound a request for [n] puts in force. *)
Definition pruned_to (l : list Block) (r n : N) : N := if (length l =? 0)%nat then r else N.max r (N.min n (N.of_nat (length l - 1))).

Lemma pruneBefore_wp st l r n : open_on max l r st ->
  wp fl (pruneBefore n) st (fun d => disk_ok max l r d \/ disk_ok max l (pruned_to l r n) d)
    (fun o st' => o = Ok tt /\ open_on max l (pruned_to l r n) st' /\
      (l <> [] -> let tail := m_blockfilesInfo (st_mgr st') in let first := firstStoredBlockfileNum (m_pruneInfo (st_mgr st')) in
        (forall f, (f < first)%Z -> d_files (st_disk st') !! f = None) /\
        countEligibleFiles (st_disk st') (N.min n (N.of_nat (length l - 1))) first tail = Ok 0%Z)).
Proof.
  intros (L & seq & <- & Ho). pose proof (so_good _ _ _ _ _ Ho) as G. pose proof (so_disk _ _ _ _ _ Ho) as O. pose proof (so_created _ _ _ _ _ Ho) as Hc.
  pose proof (od_prune _ _ _ _ _ _ _ _ O) as Hp. pose proof (gc_length _ _ G) as Hlen. pose proof (file_bound max L G (od_wf _ _ _ _ _ _ _ _ O)) as Hfb. unfold max_int64 in *.
  unfold pruneBefore, pruneMgr_pruneBefore, pruned_to. wp_steps. rewrite (so_info _ _ _ _ _ Ho). change (noBlockFiles (info_of L)) with (count L (length (ly_cur L)) =? 0)%nat.
  change (lastPersistedBlock (info_of L)) with (N.of_nat (count L (length (ly_cur L)) - 1)). rewrite <-length_chain.
  destruct (Nat.eqb_spec (length (chain_of L)) 0) as [Hz|Hz]; [wp_steps; split_and!; [done|by exists L, seq|intros X; apply nil_length_inv in Hz; done]|].
  set (bound := N.min n _). set (fa := N.max r bound). wp_steps. rewrite (so_prune _ _ _ _ _ Ho). cbn [firstStoredBlockfileNum firstReadableBlockNum]. fold bound fa.
  pose proof (pr_high _ _ _ _ Hp) as Hhi. pose proof (pr_low _ _ _ _ Hp) as Hlow.
  change (latestFileNumber (info_of L)) with (Z.of_nat (ly_first L + length (ly_full L))). destruct (Z.ltb_spec (Z.of_nat (ly_first L + length (ly_full L))) (Z.of_nat (ly_first L))); [lia|]. wp_steps.
  assert (forall d k s seq, on_disk max d L [] k s r seq -> disk_ok max (chain_of L) r d) as Hdisk by (intros d k s seq' Od; split; [done|]; eexists _, _, _, _, _; by split).
  eapply wp_mono; [eapply wp_crash; [apply (sweepOrphans_wp max fl L [] _ _ r seq st O)|intros d Od; left; exact (Hdisk _ _ _ _ Od)]|].
  intros o [d1 m1] (-> & Em & O1 & Hnone). cbn [st_mgr st_disk] in Em, O1, Hnone. subst m1. cbn beta iota. wp_steps. cbn [st_disk st_mgr].
  destruct (countEligible_ok L d1 [] bound G (od_wf _ _ _ _ _ _ _ _ O1) (od_files _ _ _ _ _ _ _ _ O1) Hc) as (e & Ecount & Hel). rewrite Ecount. cbn beta iota.
  assert (store_ok max (mkStore d1 (st_mgr st)) L r seq) as Ho1 by (destruct Ho; by split).
  set (Q := fun o st' => _). assert (forall st' L' seq', chain_of L' = chain_of L -> store_ok max st' L' fa seq' -> no_orphans L' (st_disk st') -> eligible L' bound 0 -> Q (Ok tt) st') as Hend.
  { intros st' L' seq' E Ho' Hn' He'. split_and!; [done|by exists L', seq'|]. intros _. rewrite (so_info _ _ _ _ _ Ho'), (so_prune _ _ _ _ _ Ho'). split; [exact Hn'|].
    apply eligible_none; [apply Ho'|apply (so_disk _ _ _ _ _ Ho')|apply (so_disk _ _ _ _ _ Ho')|apply Ho'|done]. }
  clearbody Q. destruct (Z.eqb_spec (Z.of_nat e) 0) as [He|He].
  - replace e with 0 in * by lia. destruct (N.eqb_spec fa r) as [Ef|Ef]; [wp_steps; rewrite <-Ef in Ho1; by eapply (Hend _ L)|].
    apply setInfo_wp; cbn [st_mgr st_disk]; rewrite (so_seq _ _ _ _ _ Ho).
    { pose proof (pr_seq _ _ _ _ Hp). unfold u64_max. lia. }
    { pose proof (pr_record _ _ _ _ (od_prune _ _ _ _ _ _ _ _ O1)) as R. intros i Hi. destruct seq; [destruct R as (R & _); rewrite R, lookup_empty in Hi; by apply is_Some_None in Hi|by apply R]. }
    intros d2 E1 E2 E3 E4. assert (on_disk max d2 L [] (Some (length (ly_cur L))) (length (chain_of L)) fa (seq + 1)) as O2.
    { eapply (on_disk_prune max d1); [exact O1| |done|done]. split; [|pose proof (pr_seq _ _ _ _ Hp); lia|lia|lia]. destruct (seq + 1)%N eqn:Es; [lia|by split]. }
    split; [right; split; [done|]; eexists _, _, _, _, _; by split|]. apply (Hend _ L (seq + 1)%N); [done| |intros i Hi; cbn; rewrite E1; by apply Hnone|done]. destruct Ho. by split.
  - wp_steps. rewrite (retrieveFirst_stored max Hmax d1 L [] r seq G (od_wf _ _ _ _ _ _ _ _ O1) (od_files _ _ _ _ _ _ _ _ O1) (od_prune _ _ _ _ _ _ _ _ O1) Hc Hz). cbn [wrap_err]. rewrite Nat2Z.id.
    destruct Hel as (He1 & He2 & He3). eapply wp_mono; [eapply wp_crash; [apply (prune_loop_wp e _ L r seq fa Ho1 Hnone He1); lia|intros d Hd; by right]|].
    intros o st' (-> & Hn' & seq' & Ho'). rewrite decide_False in Ho' by lia. destruct (shifts_facts e L) as [Ech _]. apply (Hend _ (shifts e L) seq'); [done|done|done|].
    destruct (shifts_full e L He1) as [Efu Epos]. split_and!; [lia|by left|]. rewrite Efu, Epos. replace (e + 1) with (S e) by lia. destruct He3; [left; lia|by right].
Qed.
End Prune.

(** ** Runs of a store

    A store that is down is its disk; one that is up has a manager too. An operation may return, stop the process by a panic or by an error its caller panics on, or be cut off by a crash, which
    leaves one of the disks it went through. The index may be removed while the store is down after a regular stop. *)
Section Runs.
Context `{BlockCodecs} `{Sha256} (max : Z).

Inductive machine := Down (d : Disk) | Up (st : Store).
(** What happened, with the result of an operation, if it returned one. *)
Inductive event := EOpen | EOpenCrash | EAdd (b : Block) (result : option (outcome unit)) | EPrune (n : N) (result : option (outcome unit)) | EStop | EWipe.

(** A block that fits into a file, into a ledger that can still grow. *)
Definition fits_store (b : Block) (st : Store) : Prop :=
  (Z.of_nat (length (record b)) <= max)%Z /\ (Z.of_N (bci_Height (m_bcInfo (st_mgr st))) < max_int64)%Z.

Inductive fstep : machine -> event -> machine -> Prop :=
  | f_open d ds st o : open_store max no_faults d = (ds, (st, o)) -> fstep (Down d) EOpen (match o with Ok _ => Up st | _ => Down (st_disk st) end)
  | f_open_crash d ds r d' : open_store max no_faults d = (ds, r) -> d' ∈ ds -> fstep (Down d) EOpenCrash (Down d')
  | f_add fl b st ds st' o : f_truncate fl = false -> fits_store b st -> BlockFiles.addBlock b fl st = (ds, (st', o)) ->
      (forall e, o = Err e -> f_put fl false = false /\ f_write fl = false) -> (forall e, o <> Panic e) -> fstep (Up st) (EAdd b (Some o)) (Up st')
  | f_add_stop fl b st ds st' o : f_truncate fl = false -> fits_store b st -> BlockFiles.addBlock b fl st = (ds, (st', o)) -> o <> Ok tt -> fstep (Up st) (EAdd b None) (Down (st_disk st'))
  | f_add_crash fl b st ds res d' : f_truncate fl = false -> fits_store b st -> BlockFiles.addBlock b fl st = (ds, res) -> d' ∈ ds -> fstep (Up st) (EAdd b None) (Down d')
  | f_prune n st ds st' o : pruneBefore n no_faults st = (ds, (st', o)) -> fstep (Up st) (EPrune n (Some o)) (Up st')
  | f_prune_crash n st ds res d' : pruneBefore n no_faults st = (ds, res) -> d' ∈ ds -> fstep (Up st) (EPrune n None) (Down d')
  | f_stop st : fstep (Up st) EStop (Down (st_disk st))
  | f_wipe st : fstep (Up st) EWipe (Down (set_db ∅ (st_disk st))).
Inductive frun : machine -> list event -> machine -> Prop :=
  | fr_nil m : frun m [] m
  | fr_snoc m tr m' e m'' : frun m tr m' -> fstep m' e m'' -> frun m (tr ++ [e]) m''.

(** The same on the abstract ledger, a chain and the number below which reads are refused. An operation that did not return may have taken effect. *)
Inductive astep : list Block * N -> event -> list Block * N -> Prop :=
  | a_quiet l r e : match e with EAdd _ (Some (Ok _)) | EPrune _ (Some _) => False | _ => True end -> astep (l, r) e (l, r)
  | a_add l r b res : match res with Some (Ok _) | None => True | _ => False end -> Ledger.addBlock l b = Ok (l ++ [b]) -> astep (l, r) (EAdd b res) (l ++ [stored b], r)
  | a_prune l r n res : match res with Some (Ok _) | None => True | _ => False end -> astep (l, r) (EPrune n res) (l, pruned_to l r n).
Inductive arun : list Block * N -> list event -> list Block * N -> Prop :=
  | ar_nil a : arun a [] a
  | ar_snoc a tr a' e a'' : arun a tr a' -> astep a' e a'' -> arun a (tr ++ [e]) a''.

Context (Hmax : (0 < max < 72057594037927936)%Z).

Definition related (a : list Block * N) (m : machine) : Prop :=
  match m with Down d => disk_ok max a.1 a.2 d | Up st => open_on max a.1 a.2 st end.

Lemma open_ok l r d : disk_ok max l r d -> exists ds st, open_store max no_faults d = (ds, (st, Ok tt)) /\ open_on max l r st /\ Forall (disk_ok max l r) ds.
Proof.
  intros Hd. pose proof (newBlockfileMgr_wp max Hmax no_faults eq_refl eq_refl eq_refl l r (mkStore d (fresh_mgr max)) Hd eq_refl eq_refl) as W.
  unfold wp in W. unfold open_store. destruct (newBlockfileMgr _ _) as [ds [st o]]. destruct W as (Hds & -> & Ho & _). by exists ds, st.
Qed.
Lemma wipe_ok l r st : open_on max l r st -> disk_ok max l r (set_db ∅ (st_disk st)).
Proof.
  intros (L & seq & <- & S). destruct (so_disk _ _ _ _ _ S). split; [apply S|]. exists L, [], None, 0, seq. split; [done|].
  split; [done|by eapply files_ok_files|done|done|by left| |by eapply prune_ok_files]. split; [done|split; [lia|by left]| |done]. intros n b f off _ Hn. lia.
Qed.

(** The checks [addBlock] begins with. *)
Definition add_checks (st : Store) (b : Block) : outcome (BlockHeader * bytes) :=
  header ← deref (b_Header b);
  fail_if negb (bh_Number header =? bci_Height (m_bcInfo (st_mgr st)))%N with "unexpected block number" ;;
  fail_if bool_decide (bh_PreviousHash header <> bci_CurrentBlockHash (m_bcInfo (st_mgr st))) with "unexpected Previous block hash" ;;
  serializeBlock b ;;
  hash ← BlockHeaderHash header;
  Ok (header, hash).
Lemma add_refused fl st b o : add_checks st b = o -> (forall x, o <> Ok x) ->
  BlockFiles.addBlock b fl st = ([], (st, match o with Ok _ => Ok tt | Err e => Err e | Panic e => Panic e end)).
Proof.
  intros <- Hne. unfold BlockFiles.addBlock, add_checks, mbind, IO_bind, outcome_bind, get_mgr, lift in *. destruct (deref (b_Header b)) as [h|e|e]; [|done..].
  destruct (negb _); cbn [guard_err] in *; [done|]. destruct (bool_decide _); cbn [guard_err] in *; [done|].
  destruct (serializeBlock b) as [bs|e|e]; [|done..]. destruct (BlockHeaderHash h) as [hash|e|e]; [|done..]. by edestruct Hne.
Qed.

(** A call of [addBlock], whatever the block: what the ledger refuses leaves everything as it was. *)
Lemma add_cases fl l r st b : open_on max l r st -> f_truncate fl = false -> fits_store b st ->
  (Ledger.addBlock l b = Ok (l ++ [b]) /\ wp fl (BlockFiles.addBlock b) st (fun d => disk_ok max l r d \/ disk_ok max (l ++ [stored b]) r d) (added max fl l r b)) \/
  exists o, BlockFiles.addBlock b fl st = ([], (st, o)) /\ o <> Ok tt /\ o = (add_checks st b ;; Ok tt).
Proof.
  intros Ho Ht [Hrec Hh]. pose proof Ho as (L & seq & EL & S). destruct (so_bc _ _ _ _ _ S) as (Hheight & Hcur & _). rewrite EL in Hheight, Hcur. unfold Height in Hheight. rewrite Hheight in Hh.
  destruct (add_checks st b) as [[h hash]|e|e] eqn:E.
  - left. unfold add_checks in E. destruct (b_Header b) as [h'|] eqn:Eh; [|done]. cbn [deref mbind outcome_bind] in E.
    apply guard_err_Ok in E as [Hn E]. apply guard_err_Ok in E as [Hprev E]. apply bind_Ok_inv in E as (bs & Hser & E). apply bind_Ok_inv in E as (hash' & Hhash & [= -> ->]).
    rewrite Hheight in Hn. assert (Ledger.addBlock l b = Ok (l ++ [b])) as Hadd.
    { unfold Ledger.addBlock, Height. rewrite Eh. cbn [deref mbind outcome_bind]. rewrite Hn. cbn [guard_err]. rewrite Hcur. cbn [mbind outcome_bind]. by rewrite Hprev. }
    split; [done|]. assert (serializable b) as Hs.
    { split; [by rewrite Eh|]. unfold serializeBlock in Hser. apply bind_Ok_inv in Hser as (? & _ & Hser). apply bind_Ok_inv in Hser as (? & Hd & _). unfold addDataBytes in Hd. by destruct (b_Data b). }
    apply negb_false_iff, N.eqb_eq in Hn. eapply (addBlock_wp max Hmax fl Ht l r b h hash Eh Hhash Hn); [lia| |done|done|done|done].
    eapply good_snoc; [rewrite <-EL; apply S|done|done|done|done|done|lia].
  - right. eexists. split; [by apply (add_refused fl st b _ E)|done].
  - right. eexists. split; [by apply (add_refused fl st b _ E)|done].
Qed.

Lemma simulation a m e m' : related a m -> fstep m e m' -> exists a', astep a e a' /\ related a' m'.
Proof.
  destruct a as [l r]. intros R Hs. assert (astep (l, r) e (l, r) \/ match e with EAdd _ (Some (Ok _)) | EPrune _ (Some _) => True | _ => False end) as Hq.
  { destruct e as [| |b [[]|]|n [[]|]| |]; auto; left; by constructor. }
  inversion Hs; subst; clear Hs; cbn [related fst snd] in *.
  - destruct (open_ok _ _ _ R) as (ds' & st' & E & Ho & _). rewrite E in *. simplify_eq. exists (l, r). by destruct Hq.
  - destruct (open_ok _ _ _ R) as (ds' & st' & E & _ & Hds). rewrite E in *. simplify_eq. exists (l, r). rewrite Forall_forall in Hds. destruct Hq; [|done]. split; [done|]. by apply Hds.
  - destruct (add_cases fl l r st b R ltac:(done) ltac:(done)) as [[Hadd W]|(o' & E & Hne & _)].
    + unfold wp in W. match goal with H : BlockFiles.addBlock _ _ _ = _ |- _ => rewrite H in W end. destruct W as (_ & _ & _ & W). destruct o as [[]|e|e].
      * exists (l ++ [stored b], r). split; [by constructor|done].
      * exists (l, r). destruct Hq; [|done]. split; [done|]. match goal with H : forall e, Err _ = Err e -> _ |- _ => destruct (H e eq_refl) end. by apply W.
      * match goal with H : forall e, Panic _ <> Panic e |- _ => by destruct (H e) end.
    + rewrite E in *. simplify_eq. exists (l, r). destruct o as [[]|e|e]; [done|by destruct Hq|by destruct Hq].
  - destruct (add_cases fl l r st b R ltac:(done) ltac:(done)) as [[Hadd W]|(o' & E & Hne & _)].
    + unfold wp in W. match goal with H : BlockFiles.addBlock _ _ _ = _ |- _ => rewrite H in W end. destruct W as (_ & [Hd|Hd] & _); [exists (l, r); by destruct Hq|].
      exists (l ++ [stored b], r). split; [by constructor|done].
    + rewrite E in *. simplify_eq. exists (l, r). destruct Hq; [|done]. split; [done|]. by apply open_on_disk.
  - destruct (add_cases fl l r st b R ltac:(done) ltac:(done)) as [[Hadd W]|(o' & E & Hne & _)].
    + unfold wp in W. destruct (BlockFiles.addBlock b fl st) as [ds' [st' o]]. simplify_eq. destruct W as (Hds & _). rewrite Forall_forall in Hds.
      destruct (Hds d' ltac:(done)) as [Hd|Hd]; [exists (l, r); by destruct Hq|]. exists (l ++ [stored b], r). split; [by constructor|done].
    + rewrite E in *. simplify_eq. by match goal with H : _ ∈ [] |- _ => apply elem_of_nil in H end.
  - pose proof (pruneBefore_wp max Hmax no_faults st l r n R) as W. unfold wp in W. match goal with H : pruneBefore _ _ _ = _ |- _ => rewrite H in W end. destruct W as (_ & -> & Ho & _).
    exists (l, pruned_to l r n). split; [by constructor|done].
  - pose proof (pruneBefore_wp max Hmax no_faults st l r n R) as W. unfold wp in W. destruct (pruneBefore n no_faults st) as [ds' [st' o]]. simplify_eq. destruct W as (Hds & _). rewrite Forall_forall in Hds.
    destruct (Hds d' ltac:(done)) as [Hd|Hd]; [exists (l, r); by destruct Hq|]. exists (l, pruned_to l r n). split; [by constructor|done].
  - exists (l, r). destruct Hq; [|done]. split; [done|]. by apply open_on_disk.
  - exists (l, r). destruct Hq; [|done]. split; [done|]. by apply wipe_ok.
Qed.
Lemma run_related tr m : frun (Down empty_disk) tr m -> exists a, arun ([], 0%N) tr a /\ related a m.
Proof.
  intros Hr. remember (Down empty_disk) as m0 eqn:E0. induction Hr as [m|m tr m' e m'' Hr IH Hs]; subst; [exists ([], 0%N); split; [constructor|apply empty_disk_ok; lia]|].
  destruct (IH eq_refl) as (a & Ha & R). destruct (simulation a m' e m'' R Hs) as (a' & Hs' & R'). exists a'. split; [by econstructor|done].
Qed.
End Runs.

(** ** The theorems *)
Section Claims.
Context `{BlockCodecs} `{Sha256}.

(** C32: The store of block files refines the ledger: start from an empty disk and add blocks, prune, stop, open again, lose the index between a stop and the next start, let writes, syncs and database
    calls of an append fail, and crash anywhere, also while opening, also in the middle of an append. Then there is one chain of blocks, each linked to the one before, to which every block was added that the store accepted,
    and perhaps some of those whose addition did not return; an open store has its height and gives, for every number, exactly the block of this chain, unless it was pruned; and a store that is
    down always opens again, on the same chain with the same bound. The blocks fit into a file, truncating a file never fails, and a write or a database call that fails in an append stops the store. *)
Theorem store_refines_ledger (max : Z) tr m : (0 < max < 72057594037927936)%Z -> frun max (Down empty_disk) tr m ->
  exists l r, arun ([], 0%N) tr (l, r) /\ chain_ok l /\
    match m with
    | Up st => bci_Height (m_bcInfo (st_mgr st)) = Height l /\ forall n, (n <= u64_max)%N -> retrieveBlockByNumber st n = read l r n
    | Down d => exists ds st, open_store max no_faults d = (ds, (st, Ok tt)) /\ bci_Height (m_bcInfo (st_mgr st)) = Height l /\
        forall n, (n <= u64_max)%N -> retrieveBlockByNumber st n = read l r n
    end.
Proof.
  intros Hmax Hr. destruct (run_related max Hmax tr m Hr) as ([l r] & Ha & R). exists l, r. split; [done|].
  assert (forall st, open_on max l r st -> bci_Height (m_bcInfo (st_mgr st)) = Height l) as Hh by (intros st (L & seq & <- & S); apply S).
  destruct m as [d|st]; cbn in R.
  - destruct (open_ok max Hmax l r d R) as (ds & st & E & Ho & _). split; [apply R|]. exists ds, st. split_and!; [done|by apply Hh|]. intros n Hn. by apply (retrieve_read max Hmax).
  - split; [apply open_on_disk in R; apply R|]. split; [by apply Hh|]. intros n Hn. by apply (retrieve_read max Hmax).
Qed.

(** When no call of the operating system fails, an open store accepts exactly the blocks the ledger accepts and refuses the others with the same error, for every block with data that fits into a file. *)
Theorem add_agrees_with_ledger (max : Z) tr st : (0 < max < 72057594037927936)%Z -> frun max (Down empty_disk) tr (Up st) ->
  exists l r, arun ([], 0%N) tr (l, r) /\ forall b hash, fits_store max b st -> is_Some (b_Data b) -> (h ← deref (b_Header b); BlockHeaderHash h) = Ok hash ->
    snd (snd (BlockFiles.addBlock b no_faults st)) = (Ledger.addBlock l b ;; Ok tt).
Proof.
  intros Hmax Hr. destruct (run_related max Hmax tr _ Hr) as ([l r] & Ha & R). exists l, r. split; [done|]. intros b hash Hfit Hd Hhash.
  pose proof R as (L & seq & EL & S). cbn [fst] in EL. destruct (so_bc _ _ _ _ _ S) as (Hheight & Hcur & _). rewrite EL in Hheight, Hcur.
  destruct (add_cases max Hmax no_faults l r st b R eq_refl Hfit) as [[Hadd W]|(o & E & _ & Eo)].
  - unfold wp in W. destruct (BlockFiles.addBlock b no_faults st) as [ds [st' o]]. destruct W as (_ & _ & Hok & _). by rewrite Hadd, (Hok eq_refl).
  - rewrite E. cbn [snd]. rewrite Eo. clear o E Eo. unfold add_checks, Ledger.addBlock. destruct (b_Header b) as [h|] eqn:Eh; [|done]. cbn [deref mbind outcome_bind] in *.
    rewrite Hheight, Hcur, serializeBlock_bytes, Hhash by (split; [by rewrite Eh|done]). destruct (negb _); cbn [guard_err mbind outcome_bind]; [done|]. by destruct (bool_decide _).
Qed.


(** C34: A block that has a header and data comes back from its bytes as it was, with an empty list of metadata in the place of none, and so does its header alone. Appended to any file, it is read back from its offset, and if
    the end of its record is missing, reading it reports the unexpected end of the file. *)
Theorem block_roundtrip b bs h pre post f : serializeBlock b = Ok bs -> b_Header b = Some h -> (bh_Number h <= u64_max)%N -> (N.of_nat (length bs) < 72057594037927936)%N ->
  deserializeBlock bs = Ok (stored b) /\ extractSerializedBlockHeader bs = Ok h /\
  let record := AppendVarint [] (N.of_nat (length bs)) ++ bs in
  blockfileStream_nextBlockBytes (mkStream f (pre ++ record ++ post) (Z.of_nat (length pre))) =
    Ok (Some bs, mkStream f (pre ++ record ++ post) (Z.of_nat (length (pre ++ record)))) /\
  forall p q, record = p ++ q -> p <> [] -> q <> [] ->
    blockfileStream_nextBlockBytes (mkStream f (pre ++ p) (Z.of_nat (length pre))) = Err ErrUnexpectedEndOfBlockfile.
Proof.
  intros Hser Hh Hn Hlen. assert (serializable b) as Hs.
  { split; [by rewrite Hh|]. unfold serializeBlock in Hser. apply bind_Ok_inv in Hser as (? & _ & Hser). apply bind_Ok_inv in Hser as (? & Hd & _). unfold addDataBytes in Hd. by destruct (b_Data b). }
  rewrite (serializeBlock_bytes b Hs) in Hser. apply Ok_inj in Hser as <-. destruct Hs as [_ Hd]. split; [by apply (deserializeBlock_bytes b h); [..|lia]|].
  split; [by apply (extractSerializedBlockHeader_bytes b h); [..|lia]|]. cbn zeta. rewrite AppendVarint_eq. cbn [app]. change (varint (N.of_nat (length (block_bytes b))) ++ block_bytes b) with (record b).
  unfold blockfileStream_nextBlockBytes. split.
  - by rewrite (next_record (mkStream f (pre ++ record b ++ post) (Z.of_nat (length pre))) pre eq_refl b post eq_refl Hlen).
  - intros p q E Hp Hq. rewrite (next_torn (mkStream f (pre ++ p) (Z.of_nat (length pre))) pre eq_refl p); [done|done| |done]. right. by exists b, q.
Qed.

(** The keys of the index compare byte by byte as the numbers of the blocks do, are distinct for distinct numbers, and give the number back. *)
Theorem block_keys_ordered m n : (m <= u64_max)%N -> (n <= u64_max)%N ->
  bytes_compare (constructBlockNumKey m) (constructBlockNumKey n) = (m ?= n)%N /\ (constructBlockNumKey m = constructBlockNumKey n -> m = n) /\
  forall s, exists k, DecodeOrderPreservingVarUint64 (drop 1 (constructBlockNumKey m ++ s)) = Ok (m, k) /\ drop (S (Z.to_nat k)) (constructBlockNumKey m ++ s) = s.
Proof.
  intros Hm Hn. split_and!.
  - rewrite <-Encode_compare by done. rewrite !constructBlockNumKey_eq. apply bytes_compare_same.
  - by apply constructBlockNumKey_inj.
  - intros s. exists (Z.of_nat (length (EncodeOrderPreservingVarUint64 m))). rewrite constructBlockNumKey_eq, <-app_comm_cons, Nat2Z.id, !skipn_cons, drop_0.
    split; [by apply DecodeOrderPreserving_Encode|apply drop_app_length].
Qed.
End Claims.

(** ** A store with files of ninety bytes

    Three blocks, a crash in the middle of an append, a file more, a prune that removes the first file, and an index that is lost. *)
Section Steps.
Context `{BlockCodecs} `{Sha256} (max : Z).
Lemma run_open d : snd (snd (open_store max no_faults d)) = Ok tt -> fstep max (Down d) EOpen (Up (fst (snd (open_store max no_faults d)))).
Proof. destruct (open_store max no_faults d) as [ds [st o]] eqn:E. cbn. intros ->. by apply (f_open max d ds st (Ok tt)). Qed.
Lemma run_add b st : fits_store max b st -> snd (snd (BlockFiles.addBlock b no_faults st)) = Ok tt ->
  fstep max (Up st) (EAdd b (Some (Ok tt))) (Up (fst (snd (BlockFiles.addBlock b no_faults st)))).
Proof. destruct (BlockFiles.addBlock b no_faults st) as [ds [st' o]] eqn:E. cbn. intros Hf ->. by apply (f_add max no_faults b st ds st' (Ok tt)). Qed.
Lemma run_prune n st : snd (snd (pruneBefore n no_faults st)) = Ok tt -> fstep max (Up st) (EPrune n (Some (Ok tt))) (Up (fst (snd (pruneBefore n no_faults st)))).
Proof. destruct (pruneBefore n no_faults st) as [ds [st' o]] eqn:E. cbn. intros ->. by apply (f_prune max n st ds st' (Ok tt)). Qed.
Lemma run_crash b st k : fits_store max b st -> k < length (fst (BlockFiles.addBlock b no_faults st)) ->
  fstep max (Up st) (EAdd b None) (Down (default empty_disk (fst (BlockFiles.addBlock b no_faults st) !! k))).
Proof.
  destruct (BlockFiles.addBlock b no_faults st) as [ds res] eqn:E. cbn. intros Hf Hk. apply lookup_lt_is_Some_2 in Hk as [d Hk]. rewrite Hk.
  apply (f_add_crash max no_faults b st ds res d); [done|done|done|]. by eapply list_elem_of_lookup_2.
Qed.
End Steps.

Module StoreSample.
#[local] Existing Instance sample_blocks.
#[local] Existing Instance sample_sha.
Definition mk (n : N) (prev : bytes) (data : list bytes) : Block := mkBlock (Some (mkBlockHeader n prev [])) (Some data) (Some []).
Definition hash_of (b : Block) : bytes := match b_Header b with Some h => match BlockHeaderHash h with Ok x => x | _ => [] end | _ => [] end.
Definition b0 : Block := Eval vm_compute in mk 0 [] [[x01]].
Definition b1 : Block := Eval vm_compute in mk 1 (hash_of b0) [[x01; x02]].
Definition b2 : Block := Eval vm_compute in mk 2 (hash_of b1) [[x01; x02; x03]].
Definition b3 : Block := Eval vm_compute in mk 3 (hash_of b2) [].
Definition opened (d : Disk) : Store := fst (snd (open_store 90 no_faults d)).
Definition with_block (b : Block) (st : Store) : Store := fst (snd (BlockFiles.addBlock b no_faults st)).
Definition s1 : Store := with_block b0 (opened empty_disk).
Definition torn_disk : Disk := default empty_disk (fst (BlockFiles.addBlock b1 no_faults s1) !! 9).
Definition s2 : Store := with_block b2 (with_block b1 (opened torn_disk)).
Definition s3 : Store := fst (snd (pruneBefore 2 no_faults s2)).
Definition s4 : Store := opened (set_db ∅ (st_disk s3)).
Definition trace : list event :=
  [EOpen; EAdd b0 (Some (Ok tt)); EAdd b1 None; EOpen; EAdd b1 (Some (Ok tt)); EAdd b2 (Some (Ok tt)); EPrune 2 (Some (Ok tt)); EWipe; EOpen].

Lemma trace_runs : frun 90 (Down empty_disk) trace (Up s4).
Proof.
  unfold trace. change (?a :: ?b :: ?c :: ?d :: ?e :: ?f :: ?g :: ?h :: ?i :: []) with ([] ++ [a] ++ [b] ++ [c] ++ [d] ++ [e] ++ [f] ++ [g] ++ [h] ++ [i]). rewrite !app_assoc.
  eapply fr_snoc; [|by apply (run_open 90 (set_db ∅ (st_disk s3))); vm_compute].
  eapply fr_snoc; [|apply f_wipe].
  eapply fr_snoc; [|by apply (run_prune 90 2 s2); vm_compute].
  eapply fr_snoc; [|by apply (run_add 90 b2 (with_block b1 (opened torn_disk))); [split|]; vm_compute].
  eapply fr_snoc; [|by apply (run_add 90 b1 (opened torn_disk)); [split|]; vm_compute].
  eapply fr_snoc; [|by apply (run_open 90 torn_disk); vm_compute].
  eapply fr_snoc; [|by apply (run_crash 90 b1 s1 9); [split; by vm_compute|vm_compute; lia]].
  eapply fr_snoc; [|by apply (run_add 90 b0 (opened empty_disk)); [split|]; vm_compute].
  eapply fr_snoc; [|by apply (run_open 90 empty_disk); vm_compute]. apply fr_nil.
Qed.

(** The run above, and what can be read after it. *)
Lemma store_refines_ledger_witness : frun 90 (Down empty_disk) trace (Up s4) /\
  (exists l r, arun ([], 0%N) trace (l, r) /\ chain_ok l /\ bci_Height (m_bcInfo (st_mgr s4)) = Height l /\ forall n, (n <= u64_max)%N -> retrieveBlockByNumber s4 n = read l r n) /\
  retrieveBlockByNumber s4 0 = Err ErrPruned /\ retrieveBlockByNumber s4 2 = Ok b2 /\ retrieveBlockByNumber s4 u64_max = Ok b2.
Proof.
  split; [apply trace_runs|]. split; [exact (store_refines_ledger 90 trace (Up s4) ltac:(split; reflexivity) trace_runs)|]. split_and!; vm_compute; reflexivity.
Defined.
Lemma add_agrees_with_ledger_witness : (exists l r, arun ([], 0%N) trace (l, r) /\ forall b hash, fits_store 90 b s4 -> is_Some (b_Data b) -> (h ← deref (b_Header b); BlockHeaderHash h) = Ok hash ->
    snd (snd (BlockFiles.addBlock b no_faults s4)) = (Ledger.addBlock l b ;; Ok tt)) /\
  snd (snd (BlockFiles.addBlock b3 no_faults s4)) = Ok tt /\ snd (snd (BlockFiles.addBlock b2 no_faults s4)) = Err "unexpected block number".
Proof.
  split; [exact (add_agrees_with_ledger 90 trace s4 ltac:(split; reflexivity) trace_runs)|]. split; vm_compute; reflexivity.
Defined.
Lemma block_roundtrip_witness : deserializeBlock (block_bytes b1) = Ok (stored b1) /\ extractSerializedBlockHeader (block_bytes b1) = Ok (mkBlockHeader 1 (hash_of b0) []).
Proof.
  destruct (block_roundtrip b1 (block_bytes b1) (mkBlockHeader 1 (hash_of b0) []) [] [] 0%Z) as (E1 & E2 & _); [vm_compute; reflexivity|vm_compute; reflexivity|vm_compute; discriminate|vm_compute; reflexivity|].
  split; [exact E1|exact E2].
Defined.
Lemma block_keys_ordered_witness : bytes_compare (constructBlockNumKey 255) (constructBlockNumKey 256) = Lt.
Proof. destruct (block_keys_ordered 255 256) as [E _]; [vm_compute; discriminate|vm_compute; discriminate|]. rewrite E. reflexivity. Defined.

(** ** What the store does not survive *)
Definition index_fails : Faults := mkFaults (fun _ => None) false false (fun _ => false) true.
Definition append_fails (truncation_too : bool) : Faults := mkFaults (fun sync => if sync then Some 3 else None) false truncation_too (fun _ => false) false.
Definition after (b : Block) (fl : Faults) (st : Store) : Store := fst (snd (BlockFiles.addBlock b fl st)).
Definition result (b : Block) (fl : Faults) (st : Store) : outcome unit := snd (snd (BlockFiles.addBlock b fl st)).

(** When the write to the index fails, the block is in the file and in the summary, but the manager goes on as if it were not. A process that stops now opens again with the block. One that tries again appends the
    block a second time, panics in the cache, and leaves a disk that cannot be opened any more: the second copy counts as a block that the index does not have. *)
Lemma index_failure_retry : let st := after b1 index_fails s1 in
  result b1 index_fails s1 = Err "database error" /\ retrieveBlockByNumber (opened (st_disk st)) 1 = Ok b1 /\
  result b1 no_faults st = Panic "detected insertion of the same block twice" /\
  snd (snd (open_store 90 no_faults (st_disk (after b1 no_faults st)))) = Panic "no such block number in index".
Proof. split_and!; vm_compute; reflexivity. Qed.
(** An append that fails is undone by truncating the file, but an error of the truncation is dropped: the next block is then appended behind the rest of the one that failed, is reported as added, and another block is read in its place. *)
Lemma truncation_failure_ignored :
  let st := after b1 (append_fails true) s1 in
  result b1 (append_fails true) s1 = Err "error appending block to file" /\ result b1 no_faults st = Ok tt /\ is_ok (retrieveBlockByNumber (after b1 no_faults st) 1) = true /\ retrieveBlockByNumber (after b1 no_faults st) 1 <> Ok b1 /\
  retrieveBlockByNumber (after b1 no_faults (after b1 (append_fails false) s1)) 1 = Ok b1.
Proof. split_and!; vm_compute; first [reflexivity|discriminate]. Qed.
(** A first block larger than a file leaves the first file empty, and the store cannot rebuild its index. *)
Lemma oversized_first_block : let big := mk 0 [] [replicate 99 x01] in let st := after big no_faults (opened empty_disk) in
  result big no_faults (opened empty_disk) = Ok tt /\ retrieveBlockByNumber st 0 = Ok big /\
  snd (snd (open_store 90 no_faults (set_db ∅ (st_disk st)))) = Err "error decoding the block number".
Proof. split_and!; vm_compute; reflexivity. Qed.
End StoreSample.
