(* ===== verification/ConfigRules.v ===== *)
(** * The rules of configurations

    [src/config/verify/orderer_rules.go] and [cert_validation.go]: what a new configuration has to satisfy by itself ([ValidateNewConfig])
    and with respect to the one in force ([ValidateTransition]), with SmartBFT's validation of its configuration and Fabric's
    encoding and evaluation of the block validation policy, which the rules are about; and [src/common/policy/policy.go] and
    [src/node/consensus/configrequest/config_request_validator.go]: how a config request is proposed from an update and how consenters validate it.

    A bundle is the record of what the rules read of it. Pointers and elements of repeated fields, which Go may give as nil, are
    options. Messages are compared as values: they have no unknown fields. *)
From stdpp Require Import gmap sets.
From Stdlib Require Import NArith ZArith Lia.
From S2P Require Import Prelude Types Events Blocks State RequestFilter.

(** ** Messages of the shared configuration ([ordererpb]) *)
(** The router, the assembler and the consenter of a party have the same fields. *)
Record NodeConfig := mkNodeConfig { nc_Host : string; nc_Port : N; nc_TlsCert : bytes; nc_SignCert : bytes }.
Record PartyBatcherConfig := mkPartyBatcherConfig { bc_ShardID : N; bc_Host : string; bc_Port : N; bc_SignCert : bytes; bc_TlsCert : bytes }.
Record PartyConfig := mkPartyConfig {
  pc_PartyID : N;
  pc_CACerts : list bytes;
  pc_TLSCACerts : list bytes;
  pc_RouterConfig : option NodeConfig;
  pc_BatchersConfig : list (option PartyBatcherConfig);
  pc_ConsenterConfig : option NodeConfig;
  pc_AssemblerConfig : option NodeConfig
}.
Record SmartBFTConfig := mkSmartBFTConfig {
  sb_RequestBatchMaxCount : N; sb_RequestBatchMaxBytes : N; sb_RequestBatchMaxInterval : string; sb_IncomingMessageBufferSize : N; sb_RequestPoolSize : N;
  sb_RequestForwardTimeout : string; sb_RequestComplainTimeout : string; sb_RequestAutoRemoveTimeout : string; sb_ViewChangeResendInterval : string;
  sb_ViewChangeTimeout : string; sb_LeaderHeartbeatTimeout : string; sb_LeaderHeartbeatCount : N; sb_NumOfTicksBehindBeforeSyncing : N;
  sb_CollectTimeout : string; sb_SyncOnStart : bool; sb_SpeedUpViewChange : bool; sb_LeaderRotation : bool; sb_DecisionsPerLeader : N;
  sb_RequestMaxBytes : N; sb_RequestPoolSubmitTimeout : string
}.
Record BatchTimeouts := mkBatchTimeouts { bt_BatchCreationTimeout : string; bt_FirstStrikeThreshold : string; bt_SecondStrikeThreshold : string; bt_AutoRemoveTimeout : string }.
Record BatchSize := mkBatchSize { bs_MaxMessageCount : N; bs_AbsoluteMaxBytes : N; bs_PreferredMaxBytes : N }.
Record BatchingConfig := mkBatchingConfig { bg_BatchTimeouts : option BatchTimeouts; bg_BatchSize : option BatchSize; bg_RequestMaxBytes : N }.
Record ConsensusConfig := mkConsensusConfig { cs_SmartBFTConfig : option SmartBFTConfig }.
Record SharedConfig := mkSharedConfig {
  sc_PartiesConfig : list (option PartyConfig); sc_ConsensusConfig : option ConsensusConfig; sc_BatchingConfig : option BatchingConfig; sc_MaxPartyID : N }.

#[export] Instance NodeConfig_eq_dec : EqDecision NodeConfig.
Proof. solve_decision. Defined.
#[export] Instance PartyBatcherConfig_eq_dec : EqDecision PartyBatcherConfig.
Proof. solve_decision. Defined.
#[export] Instance PartyConfig_eq_dec : EqDecision PartyConfig.
Proof. solve_decision. Defined.

(** ** What is read of a Fabric configuration ([channelconfig]) *)
Record Consenter := mkConsenter { cn_Id : N; cn_Host : string; cn_Port : N; cn_MspId : string; cn_Identity : bytes; cn_ClientTlsCert : bytes; cn_ServerTlsCert : bytes }.
Record OrdererOrg := mkOrdererOrg { org_Name : string; org_MSPID : string; org_Endpoints : list string; org_TLSRootCerts : list bytes; org_TLSIntermediateCerts : list bytes }.
Record OrdererConfig := mkOrdererConfig {
  oc_ConsensusMetadata : bytes; oc_AbsoluteMaxBytes : N; oc_Organizations : gmap string (option OrdererOrg); oc_Consenters : list (option Consenter) }.
Record FabricPolicy := mkPolicy { po_Type : Z; po_Value : bytes }.
(** A config policy is its policy, which may be nil. *)
Record ConfigPolicy := mkConfigPolicy { cp_Policy : option FabricPolicy }.
(** The channel ID and sequence of the validator, the orderer configuration, and the policies of the group "Orderer" of the configuration. *)
Record Bundle := mkBundle {
  bu_ChannelID : string; bu_Sequence : N; bu_OrdererConfig : option OrdererConfig; bu_OrdererPolicies : option (gmap string (option ConfigPolicy)) }.

Inductive SignaturePolicy := SignedBy (signedBy : Z) | NOutOf (n : Z) (rules : list (option SignaturePolicy)) | NoType.
Record MSPPrincipal := mkMSPPrincipal { pr_Classification : Z; pr_Principal : bytes }.
Record SignaturePolicyEnvelope := mkSPE { spe_Rule : option SignaturePolicy; spe_Identities : list (option MSPPrincipal) }.
Definition Policy_SIGNATURE : Z := 1.
Definition MSPPrincipal_IDENTITY : Z := 2.
Definition BlockValidationPolicyKey : string := "BlockValidation".

Record OrdererEndpoint := mkOrdererEndpoint { ep_API : list string; ep_Host : string; ep_Port : Z }.
Definition BroadcastAPI : string := "broadcast".
Definition DeliverAPI : string := "deliver".

(** ** Certificates *)
Inductive ExtKeyUsage := ExtKeyUsageAny | ExtKeyUsageServerAuth | ExtKeyUsageClientAuth.
(** Times are nanoseconds since the zero time. *)
Record Certificate := mkCertificate { ct_Raw : bytes; ct_IsCA : bool; ct_NotBefore : Z; ct_RawSubjectPublicKeyInfo : bytes }.
Record VerifyOptions := mkVerifyOptions { vo_Roots : list Certificate; vo_KeyUsages : list ExtKeyUsage; vo_CurrentTime : Z }.

(** What the rules call of Fabric, Go's x509 and time packages: the construction of a bundle, the decoder of the shared configuration, the codec of
    signature policies, the bytes of an identity, whether an identity, given by its bytes, satisfies a principal (one that names an identity is satisfied by this one only), durations and endpoints, PEM and X.509, and the verification of a chain at a time. *)
Class ConfigLibrary := {
  NewBundleFromEnvelope : Envelope -> outcome Bundle;
  unmarshal_SharedConfig : bytes -> option SharedConfig;
  policy_codec :: Codec SignaturePolicyEnvelope;
  NewIdentity_bytes : string -> bytes -> bytes;
  SatisfiesPrincipal : bytes -> option MSPPrincipal -> bool;
  SatisfiesPrincipal_identity : forall id bs, SatisfiesPrincipal id (Some (mkMSPPrincipal MSPPrincipal_IDENTITY bs)) = true -> id = bs;
  ParseDuration : string -> option Z;
  ParseOrdererEndpoint : string -> option OrdererEndpoint;
  pem_Decode : bytes -> option (string * bytes);
  ParseCertificate : bytes -> option Certificate;
  chain_verifies : Certificate -> list Certificate -> list ExtKeyUsage -> Z -> bool
}.

(** [for _, x := range l { if err := f(x); err != nil { return err } }] *)
Definition each {A} (f : A -> outcome unit) (l : list A) : outcome unit := ofoldl (fun _ x => f x) tt l.

Section Certificates.
Context `{ConfigLibrary}.

Definition parseCertificateFromBytes (cert : bytes) : outcome Certificate :=
  pemBlock ← of_option "no PEM data found in certificate" (pem_Decode cert);
  fail_if bool_decide (pemBlock.1 <> "CERTIFICATE"%string) with "expected PEM block of type CERTIFICATE" ;;
  of_option "failed to parse certificate from ASN1 structure" (ParseCertificate pemBlock.2).

(** A zero [CurrentTime] stands for the present. *)
Definition Certificate_Verify (now : Z) (cert : Certificate) (opts : VerifyOptions) : bool :=
  chain_verifies cert (vo_Roots opts) (vo_KeyUsages opts) (if (vo_CurrentTime opts =? 0)%Z then now else vo_CurrentTime opts).

Definition validateCACert (raw : bytes) : outcome Certificate :=
  fail_if bool_decide (length raw = 0) with "certificate is empty" ;;
  cert ← parseCertificateFromBytes raw;
  fail_if negb (ct_IsCA cert) with "certificate is not a CA" ;;
  Ok cert.

Definition verifyCert (now : Z) (raw : bytes) (opts : VerifyOptions) (ignoreExpiration : bool) : outcome unit :=
  fail_if bool_decide (length raw = 0) with "certificate is empty" ;;
  cert ← parseCertificateFromBytes raw;
  let opts := if ignoreExpiration then mkVerifyOptions (vo_Roots opts) (vo_KeyUsages opts) (ct_NotBefore cert) else opts in
  fail_if negb (Certificate_Verify now cert opts) with "verifying certificate" ;;
  fail_if ignoreExpiration && (now <? ct_NotBefore cert)%Z with "certificate is not yet valid" ;;
  Ok tt.

(** The two certificates of a node. *)
Definition verify_node (now : Z) (tlsOpts signOpts : VerifyOptions) (ignoreExpiration : bool) (node : string) (tlsCert signCert : bytes) : outcome unit :=
  _ ← wrap_err (node +:+ " TLS certificate validation failed") (verifyCert now tlsCert tlsOpts ignoreExpiration);
  wrap_err (node +:+ " signing certificate validation failed") (verifyCert now signCert signOpts ignoreExpiration).

Definition validatePartyCertificates (now : Z) (party : PartyConfig) (ignoreExpiration : bool) : outcome unit :=
  fail_if bool_decide (length (pc_TLSCACerts party) = 0) with "empty TLS CA certificates" ;;
  fail_if bool_decide (length (pc_CACerts party) = 0) with "empty signing CA certificates" ;;
  tlsPool ← wrap_err "invalid TLS CA certificate" (omapM validateCACert (pc_TLSCACerts party));
  let tlsOpts := mkVerifyOptions tlsPool [ExtKeyUsageClientAuth; ExtKeyUsageServerAuth] 0 in
  signPool ← wrap_err "invalid CA certificate" (omapM validateCACert (pc_CACerts party));
  let signOpts := mkVerifyOptions signPool [ExtKeyUsageAny] 0 in
  let verify_config (node : string) (config : option NodeConfig) :=
    n ← of_option (node +:+ " config is nil") config; verify_node now tlsOpts signOpts ignoreExpiration node (nc_TlsCert n) (nc_SignCert n) in
  _ ← verify_config "router"%string (pc_RouterConfig party);
  _ ← verify_config "assembler"%string (pc_AssemblerConfig party);
  _ ← verify_config "consenter"%string (pc_ConsenterConfig party);
  each (fun b => b ← of_option "batcher config is nil" b; verify_node now tlsOpts signOpts ignoreExpiration "batcher" (bc_TlsCert b) (bc_SignCert b)) (pc_BatchersConfig party).

(** The signing certificates of a party's nodes; a getter of a nil message gives the zero value. *)
Definition signCerts (party : PartyConfig) : list (NodeIdentity * bytes) :=
  let partyID := u16 (pc_PartyID party) in
  let sign (node : option NodeConfig) : bytes := from_option nc_SignCert [] node in
  [(NewRouterIdentity partyID, sign (pc_RouterConfig party)); (NewAssemblerIdentity partyID, sign (pc_AssemblerConfig party)); (NewConsenterIdentity partyID, sign (pc_ConsenterConfig party))] ++
  ((fun b => (NewBatcherIdentity partyID (u16 (from_option bc_ShardID 0%N b)), from_option bc_SignCert [] b)) <$> pc_BatchersConfig party).
Definition add_owner (signCertOwners : gmap bytes NodeIdentity) (sc : NodeIdentity * bytes) : outcome (gmap bytes NodeIdentity) :=
  cert ← wrap_err "invalid signing certificate" (parseCertificateFromBytes sc.2);
  let certKey := ct_RawSubjectPublicKeyInfo cert in
  match signCertOwners !! certKey with
  | Some _ => Err "share the same signing key"
  | None => Ok (<[certKey := sc.1]> signCertOwners)
  end.
Definition validateUniqueSigningCerts (parties : list (option PartyConfig)) : outcome unit :=
  _ ← ofoldl (fun owners party => party ← of_option "party config is nil" party; ofoldl add_owner owners (signCerts party)) ∅ parties;
  Ok tt.
End Certificates.

(** ** SmartBFT's configuration ([vendor/github.com/hyperledger/SmartBFT/pkg/types/config.go]) *)
Record Configuration := mkConfiguration {
  SelfID : N; RequestBatchMaxCount : N; RequestBatchMaxBytes : N; RequestBatchMaxInterval : Z; IncomingMessageBufferSize : N; RequestPoolSize : N;
  RequestForwardTimeout : Z; RequestComplainTimeout : Z; RequestAutoRemoveTimeout : Z; ViewChangeResendInterval : Z; ViewChangeTimeout : Z;
  LeaderHeartbeatTimeout : Z; LeaderHeartbeatCount : N; NumOfTicksBehindBeforeSyncing : N; CollectTimeout : Z; SyncOnStart : bool; SpeedUpViewChange : bool;
  LeaderRotation : bool; DecisionsPerLeader : N; RequestMaxBytes : N; RequestPoolSubmitTimeout : Z
}.
Definition Validate (c : Configuration) : outcome unit :=
  fail_if (SelfID c =? 0)%N with "SelfID should be greater than zero" ;;
  fail_if (RequestBatchMaxCount c =? 0)%N with "RequestBatchMaxCount should be greater than zero" ;;
  fail_if (RequestBatchMaxBytes c =? 0)%N with "RequestBatchMaxBytes should be greater than zero" ;;
  fail_if (RequestBatchMaxInterval c <=? 0)%Z with "RequestBatchMaxInterval should be greater than zero" ;;
  fail_if (IncomingMessageBufferSize c =? 0)%N with "IncomingMessageBufferSize should be greater than zero" ;;
  fail_if (RequestPoolSize c =? 0)%N with "RequestPoolSize should be greater than zero" ;;
  fail_if (RequestForwardTimeout c <=? 0)%Z with "RequestForwardTimeout should be greater than zero" ;;
  fail_if (RequestComplainTimeout c <=? 0)%Z with "RequestComplainTimeout should be greater than zero" ;;
  fail_if (RequestAutoRemoveTimeout c <=? 0)%Z with "RequestAutoRemoveTimeout should be greater than zero" ;;
  fail_if (ViewChangeResendInterval c <=? 0)%Z with "ViewChangeResendInterval should be greater than zero" ;;
  fail_if (ViewChangeTimeout c <=? 0)%Z with "ViewChangeTimeout should be greater than zero" ;;
  fail_if (LeaderHeartbeatTimeout c <=? 0)%Z with "LeaderHeartbeatTimeout should be greater than zero" ;;
  fail_if (LeaderHeartbeatCount c =? 0)%N with "LeaderHeartbeatCount should be greater than zero" ;;
  fail_if (NumOfTicksBehindBeforeSyncing c =? 0)%N with "NumOfTicksBehindBeforeSyncing should be greater than zero" ;;
  fail_if (CollectTimeout c <=? 0)%Z with "CollectTimeout should be greater than zero" ;;
  fail_if (RequestBatchMaxBytes c <? RequestBatchMaxCount c)%N with "RequestBatchMaxCount is bigger than RequestBatchMaxBytes" ;;
  fail_if (RequestBatchMaxBytes c <? RequestMaxBytes c)%N with "RequestMaxBytes is bigger than RequestBatchMaxBytes" ;;
  fail_if (RequestComplainTimeout c <? RequestForwardTimeout c)%Z with "RequestForwardTimeout is bigger than RequestComplainTimeout" ;;
  fail_if (RequestAutoRemoveTimeout c <? RequestComplainTimeout c)%Z with "RequestComplainTimeout is bigger than RequestAutoRemoveTimeout" ;;
  fail_if (ViewChangeTimeout c <? ViewChangeResendInterval c)%Z with "ViewChangeResendInterval is bigger than ViewChangeTimeout" ;;
  fail_if LeaderRotation c && (DecisionsPerLeader c =? 0)%N with "DecisionsPerLeader should be greater than zero when leader rotation is active" ;;
  fail_if negb (LeaderRotation c) && negb (DecisionsPerLeader c =? 0)%N with "DecisionsPerLeader should be zero when leader rotation is off" ;;
  fail_if (RequestMaxBytes c =? 0)%N with "RequestMaxBytes should be greater than zero" ;;
  fail_if (RequestPoolSubmitTimeout c <=? 0)%Z with "RequestPoolSubmitTimeout should be greater than zero" ;;
  Ok tt.

(** ** The rules *)
Section Rules.
Context `{ConfigLibrary} {R : MapRange}.

Definition positive_duration (text : string) (e : gerror) : outcome unit :=
  d ← of_option "invalid duration" (ParseDuration text); fail_if (d <=? 0)%Z with e ;; Ok tt.
Definition validateBatchTimeout (bt : option BatchTimeouts) : outcome unit :=
  bt ← of_option "batch timeouts are nil" bt;
  _ ← positive_duration (bt_BatchCreationTimeout bt) "attempted to set the batch creation timeout to a non-positive value";
  _ ← positive_duration (bt_FirstStrikeThreshold bt) "attempted to set the first strike threshold to a non-positive value";
  _ ← positive_duration (bt_SecondStrikeThreshold bt) "attempted to set the second strike threshold to a non-positive value";
  positive_duration (bt_AutoRemoveTimeout bt) "attempted to set auto remove timeout to a non-positive value".

Definition validateSmartBFTConfig (id : N) (cfg : option SmartBFTConfig) : outcome unit :=
  cfg ← of_option "smartbft config is nil" cfg;
  let parse (text : string) (e : gerror) : outcome Z := of_option e (ParseDuration text) in
  requestBatchMaxInterval ← parse (sb_RequestBatchMaxInterval cfg) "invalid smartbft config RequestBatchMaxInterval";
  requestForwardTimeout ← parse (sb_RequestForwardTimeout cfg) "invalid smartbft config RequestForwardTimeout";
  requestComplainTimeout ← parse (sb_RequestComplainTimeout cfg) "invalid smartbft config RequestComplainTimeout";
  requestAutoRemoveTimeout ← parse (sb_RequestAutoRemoveTimeout cfg) "invalid smartbft config RequestAutoRemoveTimeout";
  viewChangeResendInterval ← parse (sb_ViewChangeResendInterval cfg) "invalid smartbft config ViewChangeResendInterval";
  viewChangeTimeout ← parse (sb_ViewChangeTimeout cfg) "invalid smartbft config ViewChangeTimeout";
  leaderHeartbeatTimeout ← parse (sb_LeaderHeartbeatTimeout cfg) "invalid smartbft config LeaderHeartbeatTimeout";
  collectTimeout ← parse (sb_CollectTimeout cfg) "invalid smartbft config CollectTimeout";
  requestPoolSubmitTimeout ← parse (sb_RequestPoolSubmitTimeout cfg) "invalid smartbft config RequestPoolSubmitTimeout";
  Validate {|
    SelfID := id; RequestBatchMaxCount := sb_RequestBatchMaxCount cfg; RequestBatchMaxBytes := sb_RequestBatchMaxBytes cfg; RequestBatchMaxInterval := requestBatchMaxInterval;
    IncomingMessageBufferSize := sb_IncomingMessageBufferSize cfg; RequestPoolSize := sb_RequestPoolSize cfg; RequestForwardTimeout := requestForwardTimeout;
    RequestComplainTimeout := requestComplainTimeout; RequestAutoRemoveTimeout := requestAutoRemoveTimeout; ViewChangeResendInterval := viewChangeResendInterval;
    ViewChangeTimeout := viewChangeTimeout; LeaderHeartbeatTimeout := leaderHeartbeatTimeout; LeaderHeartbeatCount := sb_LeaderHeartbeatCount cfg;
    NumOfTicksBehindBeforeSyncing := sb_NumOfTicksBehindBeforeSyncing cfg; CollectTimeout := collectTimeout; SyncOnStart := sb_SyncOnStart cfg;
    SpeedUpViewChange := sb_SpeedUpViewChange cfg; LeaderRotation := sb_LeaderRotation cfg; DecisionsPerLeader := sb_DecisionsPerLeader cfg;
    RequestMaxBytes := sb_RequestMaxBytes cfg; RequestPoolSubmitTimeout := requestPoolSubmitTimeout |}.

Definition validateOrdererOrgEndpoints (endpoints : list string) : outcome unit :=
  fail_if bool_decide (length endpoints = 0) with "endpoints are empty" ;;
  eps ← omapM (fun raw => of_option "invalid endpoint" (ParseOrdererEndpoint raw)) endpoints;
  let has (api : string) : bool := existsb (fun ep => bool_decide (api ∈ ep_API ep)) eps in
  fail_if negb (has BroadcastAPI) with "missing broadcast endpoint" ;;
  fail_if negb (has DeliverAPI) with "missing deliver endpoint" ;;
  Ok tt.

(** A map from party IDs to parties; of parties with the same ID it has the last. *)
Definition parties_by_id (e : gerror) (parties : list (option PartyConfig)) : outcome (gmap N PartyConfig) :=
  ofoldl (fun m p => p ← of_option e p; Ok (<[pc_PartyID p := p]> m)) ∅ parties.

Definition check_consenter (partiesMap : gmap N PartyConfig) (consenter : option Consenter) : outcome unit :=
  consenter ← of_option "consenter config is nil in shared config" consenter;
  party ← of_option "party ID missing from shared config" (partiesMap !! cn_Id consenter);
  nodeCfg ← of_option "consenter config missing in shared config for party" (pc_ConsenterConfig party);
  fail_if bool_decide (cn_Host consenter <> nc_Host nodeCfg) with "host mismatch" ;;
  fail_if negb (cn_Port consenter =? nc_Port nodeCfg)%N with "port mismatch" ;;
  fail_if bool_decide (cn_Identity consenter <> nc_SignCert nodeCfg) with "identity/sign_cert mismatch" ;;
  fail_if bool_decide (0 < length (cn_ServerTlsCert consenter)) && bool_decide (cn_ServerTlsCert consenter <> nc_TlsCert nodeCfg) with "server TLS certificate mismatch" ;;
  fail_if bool_decide (0 < length (cn_ClientTlsCert consenter)) && bool_decide (cn_ClientTlsCert consenter <> nc_TlsCert nodeCfg) with "client TLS certificate mismatch" ;;
  Ok tt.
Definition validateConsenterConsistency (consenters : list (option Consenter)) (parties : list (option PartyConfig)) : outcome unit :=
  fail_if bool_decide (length consenters <> length parties) with "number of parties in Orderer consenters mapping does not match number of parties in Shared config" ;;
  partiesMap ← parties_by_id "party config is nil in shared config" parties;
  each (check_consenter partiesMap) consenters.

Record partyChanges := mkPartyChanges { Added : list PartyConfig; Removed : list PartyConfig; Modified : list PartyConfig }.

Definition validatePartyModification (curr next : PartyConfig) : outcome bool :=
  if bool_decide (curr = next) then Ok false else
  fail_if bool_decide (length (pc_BatchersConfig curr) <> length (pc_BatchersConfig next)) with "batcher shards cannot change" ;;
  nextShardIDs ← omapM (fun b => b ← of_option "batcher config is nil in next config" b; Ok (bc_ShardID b)) (pc_BatchersConfig next);
  _ ← each (fun b => b ← of_option "batcher config is nil in current config" b;
                     fail_if negb (bool_decide (bc_ShardID b ∈ nextShardIDs)) with "batcher shard IDs cannot change" ;; Ok tt) (pc_BatchersConfig curr);
  Ok true.

Definition compare_party (nextMap : gmap N PartyConfig) (changes : partyChanges) (currParty : PartyConfig) : outcome partyChanges :=
  match nextMap !! pc_PartyID currParty with
  | None => Ok (mkPartyChanges (Added changes) (Removed changes ++ [currParty]) (Modified changes))
  | Some nextParty =>
      changed ← wrap_err "invalid modification" (validatePartyModification currParty nextParty);
      Ok (if (changed : bool) then mkPartyChanges (Added changes) (Removed changes) (Modified changes ++ [nextParty]) else changes)
  end.
Definition computePartyChanges (currMap nextMap : gmap N PartyConfig) : outcome partyChanges :=
  let added := filter (fun nextParty => currMap !! pc_PartyID nextParty = None) (snd <$> range_map 0 nextMap) in
  ofoldl (compare_party nextMap) (mkPartyChanges added [] []) (snd <$> range_map 1 currMap).

(** [policies.ComputeBFTQuorum]: half of the sum, rounded up; numbers of nodes are far below the precision of a double. *)
Definition ComputeBFTQuorum (totalNodes faultyNodes : Z) : Z := (totalNodes + faultyNodes + 1 + 1) / 2.
Definition i32 (z : Z) : Z := ((z + 2147483648) mod 4294967296 - 2147483648)%Z.
(** [GetRule().GetNOutOf()] *)
Definition GetNOutOf (rule : option SignaturePolicy) : option (Z * list (option SignaturePolicy)) :=
  match rule with Some (NOutOf n rules) => Some (n, rules) | _ => None end.
Definition check_rule (n : nat) (seenSignedBy : list bool) (rule : option SignaturePolicy) : outcome (list bool) :=
  rule ← of_option "policy rule is nil" rule;
  match rule with
  | SignedBy idx =>
      fail_if (idx <? 0)%Z || (Z.of_nat n <=? idx)%Z with "invalid SignedBy index" ;;
      seen ← Prelude.index seenSignedBy (Z.to_nat idx);
      fail_if seen with "duplicate SignedBy index" ;;
      Ok (<[Z.to_nat idx := true]> seenSignedBy)
  | _ => Err "policy rule is not SignedBy"
  end.
Definition check_identity (expectedIdentities : gset bytes) (id : option MSPPrincipal) : outcome (gset bytes) :=
  id ← of_option "identity is nil" id;
  fail_if negb (pr_Classification id =? MSPPrincipal_IDENTITY)%Z with "invalid identity classification" ;;
  fail_if negb (bool_decide (pr_Principal id ∈ expectedIdentities)) with "unexpected identity in policy" ;;
  Ok (expectedIdentities ∖ {[pr_Principal id]}).
Definition consenter_identity (consenter : Consenter) : bytes := NewIdentity_bytes (cn_MspId consenter) (cn_Identity consenter).

Definition validateBlockValidationPolicy (policy : option ConfigPolicy) (consenters : list (option Consenter)) : outcome unit :=
  policy ← of_option "block validation policy is missing from orderer group" policy;
  policy ← of_option "block validation policy is nil" (cp_Policy policy);
  fail_if negb (po_Type policy =? Policy_SIGNATURE)%Z with "policy type is not signature" ;;
  envelope ← wrap_err "failed to unmarshal policy" (unmarshal (po_Value policy) : outcome SignaturePolicyEnvelope);
  let n := length consenters in
  let f := Z.quot (Z.of_nat n - 1) 3 in
  let expectedQuorum := i32 (ComputeBFTQuorum (Z.of_nat n) f) in
  nOutOf ← of_option "block validation policy rule is not NOutOf" (GetNOutOf (spe_Rule envelope));
  fail_if negb (nOutOf.1 =? expectedQuorum)%Z with "quorum mismatch" ;;
  fail_if bool_decide (length nOutOf.2 <> n) with "unexpected number of policy rules" ;;
  _ ← ofoldl (check_rule n) (replicate n false) nOutOf.2;
  identities ← omapM (fun consenter => consenter ← of_option "consenter is nil" consenter; Ok (consenter_identity consenter)) consenters;
  expectedIdentities ← ofoldl check_identity (list_to_set identities) (spe_Identities envelope);
  fail_if negb (bool_decide (expectedIdentities = ∅)) with "missing identities in policy" ;;
  Ok tt.

(** [policies.EncodeBFTBlockVerificationPolicy], which writes the policy into the orderer group. *)
Definition EncodeBFTBlockVerificationPolicy (consenterProtos : list Consenter) : outcome ConfigPolicy :=
  let n := Z.of_nat (length consenterProtos) in
  let f := Z.quot (n - 1) 3 in
  let pols := (fun i => Some (SignedBy (i32 (Z.of_nat i)))) <$> seq 0 (length consenterProtos) in
  let identities := (fun consenter => Some (mkMSPPrincipal MSPPrincipal_IDENTITY (consenter_identity consenter))) <$> consenterProtos in
  let quorumSize := ComputeBFTQuorum n f in
  value ← marshal_or_panic (mkSPE (Some (NOutOf (i32 quorumSize) pols)) identities);
  Ok (mkConfigPolicy (Some (mkPolicy Policy_SIGNATURE value))).

(** *** How such a policy is evaluated ([vendor/github.com/hyperledger/fabric-x-common/common/cauthdsl/cauthdsl.go]) *)
(** The errors of [compile], and what the compiled function answers for the identities of the valid signatures, of which each is used once. *)
Fixpoint compile (identities : list (option MSPPrincipal)) (policy : SignaturePolicy) : outcome unit :=
  match policy with
  | NOutOf _ rules =>
      (fix go rules :=
         match rules with
         | [] => Ok tt
         | None :: _ => Err "empty policy element"
         | Some rule :: rules' => _ ← compile identities rule; go rules'
         end) rules
  | SignedBy idx => fail_if (idx <? 0)%Z || (Z.of_nat (length identities) <=? idx)%Z with "identity index out of range" ;; Ok tt
  | NoType => Err "unknown type"
  end.
Fixpoint use_first (principal : option MSPPrincipal) (signedData : list bytes) (used : list bool) : option (list bool) :=
  match signedData, used with
  | sd :: signedData', u :: used' =>
      if negb u && SatisfiesPrincipal sd principal then Some (true :: used') else cons u <$> use_first principal signedData' used'
  | _, _ => None
  end.
Fixpoint evaluate (identities : list (option MSPPrincipal)) (signedData : list bytes) (policy : SignaturePolicy) (used : list bool) : bool * list bool :=
  match policy with
  | NOutOf n rules =>
      let '(verified, used) :=
        (fix go rules (verified : Z) (used : list bool) :=
           match rules with
           | [] => (verified, used)
           | None :: rules' => go rules' verified used
           | Some rule :: rules' =>
               let '(ok, _used) := evaluate identities signedData rule used in
               if (ok : bool) then go rules' (verified + 1)%Z _used else go rules' verified used
           end) rules 0%Z used in
      ((n <=? verified)%Z, used)
  | SignedBy idx =>
      match use_first (mjoin (identities !! Z.to_nat idx)) signedData used with
      | Some used => (true, used)
      | None => (false, used)
      end
  | NoType => (false, used)
  end.
(** [policy.EvaluateIdentities] *)
Definition EvaluateIdentities (envelope : SignaturePolicyEnvelope) (signedData : list bytes) : bool :=
  match spe_Rule envelope with
  | Some rule => (evaluate (spe_Identities envelope) signedData rule (replicate (length signedData) false)).1
  | None => false
  end.

Definition certificateSetsEqual (sharedConfigCerts orgCerts : list bytes) : outcome unit :=
  fail_if negb (bool_decide (orgCerts ⊆ sharedConfigCerts)) with "certificate exists in orderer organization MSP but is missing from shared config" ;;
  fail_if negb (bool_decide (sharedConfigCerts ⊆ orgCerts)) with "certificate exists in shared config but is missing from orderer organization MSP" ;;
  Ok tt.
Definition validateTLSCACertsConsistency (parties : list (option PartyConfig)) (partyOrgMap : gmap N OrdererOrg) : outcome unit :=
  each (fun party =>
    party ← of_option "party config is nil in shared config" party;
    org ← of_option "missing orderer organization for party" (partyOrgMap !! pc_PartyID party);
    let orgTLSCACerts := org_TLSRootCerts org ++ org_TLSIntermediateCerts org in
    fail_if bool_decide (length orgTLSCACerts = 0) with "orderer organization for party has no TLS root or intermediate CA certificates" ;;
    wrap_err "TLS CA certificates mismatch" (certificateSetsEqual (pc_TLSCACerts party) orgTLSCACerts)) parties.

Definition check_shard (batcher : option PartyBatcherConfig) : outcome unit :=
  batcher ← of_option "nil batcher config" batcher;
  fail_if (bc_ShardID batcher =? 0)%N || (ShardIDConsensus <=? bc_ShardID batcher)%N with "shard ID out of range" ;;
  Ok tt.
Definition validatePartyAndShardIDs (parties : list (option PartyConfig)) (maxPartyID : N) : outcome unit :=
  each (fun party =>
    party ← of_option "party config is nil" party;
    fail_if (pc_PartyID party =? 0)%N || (u16_max <? pc_PartyID party)%N with "party ID out of range" ;;
    fail_if (maxPartyID <? pc_PartyID party)%N with "party ID exceeds MaxPartyID" ;;
    each check_shard (pc_BatchersConfig party)) parties.

(** The endpoints with a host or port other than the party's are only logged. *)
Definition validateRouterAndAssemblerEndpoints (parties : list (option PartyConfig)) (partyOrgMap : gmap N OrdererOrg) : outcome unit :=
  each (fun party =>
    party ← deref party;
    org ← of_option "missing orderer organization for party" (partyOrgMap !! pc_PartyID party);
    each (fun raw => _ ← of_option "invalid endpoint" (ParseOrdererEndpoint raw); Ok tt) (org_Endpoints org)) parties.

Definition orgs_by_msp (orgs : list (option OrdererOrg)) : outcome (gmap string OrdererOrg) :=
  ofoldl (fun m org => org ← of_option "orderer organization is nil" org; Ok (<[org_MSPID org := org]> m)) ∅ orgs.
Definition orgs_by_party (orgMap : gmap string OrdererOrg) (consenters : list (option Consenter)) : outcome (gmap N OrdererOrg) :=
  ofoldl (fun m consenter =>
    consenter ← of_option "consenter config is nil" consenter;
    org ← of_option "missing orderer organization for party" (orgMap !! cn_MspId consenter);
    Ok (<[cn_Id consenter := org]> m)) ∅ consenters.

(** Rules 1 to 4: timeouts, sizes and the configuration of SmartBFT. *)
Definition validate_parameters (ordererConfig : OrdererConfig) (sharedConfig : SharedConfig) (partyID : PartyID) : outcome unit :=
  batching ← of_option "batching config is nil" (sc_BatchingConfig sharedConfig);
  consensus ← of_option "consensus config is nil" (sc_ConsensusConfig sharedConfig);
  _ ← validateBatchTimeout (bg_BatchTimeouts batching);
  batchSize ← deref (bg_BatchSize batching);
  fail_if negb (bs_AbsoluteMaxBytes batchSize =? oc_AbsoluteMaxBytes ordererConfig)%N with "batch size differs between shared and orderer config" ;;
  fail_if (bg_RequestMaxBytes batching =? 0)%N with "BatchingConfig RequestMaxBytes must be greater than zero" ;;
  bftConfig ← of_option "smartbft config is nil" (cs_SmartBFTConfig consensus);
  fail_if (sb_RequestMaxBytes bftConfig <? bg_RequestMaxBytes batching)%N with "smartbft RequestMaxBytes must be equal or greater than BatchingConfig RequestMaxBytes" ;;
  wrap_err "smartbft config validation failed" (validateSmartBFTConfig partyID (Some bftConfig)).

(** Rules 5 to 9: endpoints, consenters, organizations and the block validation policy; the result is the organization of each party. *)
Definition validate_membership (bundle : Bundle) (ordererConfig : OrdererConfig) (sharedConfig : SharedConfig) : outcome (gmap N OrdererOrg) :=
  _ ← each (fun org => org ← deref org; wrap_err "invalid endpoints for orderer organization" (validateOrdererOrgEndpoints (org_Endpoints org)))
           (snd <$> range_map 2 (oc_Organizations ordererConfig));
  _ ← wrap_err "consenter mapping is inconsistent with shared config parties" (validateConsenterConsistency (oc_Consenters ordererConfig) (sc_PartiesConfig sharedConfig));
  orgMap ← orgs_by_msp (snd <$> range_map 3 (oc_Organizations ordererConfig));
  partyOrgMap ← orgs_by_party orgMap (oc_Consenters ordererConfig);
  _ ← wrap_err "orderer organization TLS CA certificates are inconsistent with shared config" (validateTLSCACertsConsistency (sc_PartiesConfig sharedConfig) partyOrgMap);
  ordererPolicies ← deref (bu_OrdererPolicies bundle);
  _ ← wrap_err "invalid block validation policy" (validateBlockValidationPolicy (mjoin (ordererPolicies !! BlockValidationPolicyKey)) (oc_Consenters ordererConfig));
  Ok partyOrgMap.

(** Rules 10 to 13: certificates, ranges of identifiers, endpoints and signing keys. *)
Definition validate_parties (now : Z) (bundle : Bundle) (sharedConfig : SharedConfig) (partyOrgMap : gmap N OrdererOrg) : outcome unit :=
  let ignoreExpiration := (0 <? bu_Sequence bundle)%N in
  _ ← each (fun party => party ← deref party; wrap_err "certificate validation failed" (validatePartyCertificates now party ignoreExpiration)) (sc_PartiesConfig sharedConfig);
  fail_if (u16_max <? sc_MaxPartyID sharedConfig)%N with "MaxPartyID exceeds uint16 maximum" ;;
  _ ← wrap_err "invalid party or shard ID in shared config" (validatePartyAndShardIDs (sc_PartiesConfig sharedConfig) (sc_MaxPartyID sharedConfig));
  _ ← wrap_err "failed to verify router and assembler endpoints against shared config" (validateRouterAndAssemblerEndpoints (sc_PartiesConfig sharedConfig) partyOrgMap);
  validateUniqueSigningCerts (sc_PartiesConfig sharedConfig).

Definition ValidateNewConfig (now : Z) (envelope : Envelope) (partyID : PartyID) : outcome unit :=
  bundle ← wrap_err "failed to create bundle from envelope config" (NewBundleFromEnvelope envelope);
  ordererConfig ← of_option "orderer entry in the config block is empty" (bu_OrdererConfig bundle);
  sharedConfig ← of_option "failed to unmarshal consensus metadata" (unmarshal_SharedConfig (oc_ConsensusMetadata ordererConfig));
  _ ← validate_parameters ordererConfig sharedConfig partyID;
  partyOrgMap ← validate_membership bundle ordererConfig sharedConfig;
  validate_parties now bundle sharedConfig partyOrgMap.

(** Rules 2 to 7 of a transition. *)
Definition check_changes (now : Z) (currCfg nextCfg : SharedConfig) (changes : partyChanges) : outcome unit :=
  fail_if bool_decide (1 < length (Added changes)) with "more than one party added in config tx" ;;
  _ ← (match Added changes with
       | [party] =>
           let newID := pc_PartyID party in
           fail_if (newID <=? sc_MaxPartyID currCfg)%N with "proposed party ID must be greater than previous MaxPartyID" ;;
           fail_if negb (sc_MaxPartyID nextCfg =? newID)%N with "proposed MaxPartyID must equal the newly added PartyID" ;;
           fail_if negb (sc_MaxPartyID nextCfg =? u32 (sc_MaxPartyID currCfg + 1))%N with "proposed MaxPartyID must be greater than previous MaxPartyID by one" ;;
           Ok tt
       | _ => fail_if negb (sc_MaxPartyID nextCfg =? sc_MaxPartyID currCfg)%N with "MaxPartyID cannot change if no new party is added" ;; Ok tt
       end);
  fail_if bool_decide (1 < length (Removed changes)) with "more than one party removed in config tx" ;;
  fail_if bool_decide (1 < length (Modified changes)) with "more than one party modified in config tx" ;;
  fail_if bool_decide (1 < length (Added changes) + length (Removed changes) + length (Modified changes)) with "only one party can be changed in a config tx" ;;
  _ ← each (fun party => wrap_err "certificate validation failed for added party" (validatePartyCertificates now party false)) (Added changes);
  each (fun party => wrap_err "certificate validation failed for modified party" (validatePartyCertificates now party false)) (Modified changes).

Definition ValidateTransition (now : Z) (current : Bundle) (next : Envelope) : outcome unit :=
  currOrdererCfg ← of_option "no orderer config found" (bu_OrdererConfig current);
  currCfg ← of_option "failed to unmarshal current consensus metadata" (unmarshal_SharedConfig (oc_ConsensusMetadata currOrdererCfg));
  nextBundle ← wrap_err "failed to create bundle from next envelope config" (NewBundleFromEnvelope next);
  fail_if bool_decide (bu_ChannelID current <> bu_ChannelID nextBundle) with "channel ID cannot change in the proposed config" ;;
  nextOrdererCfg ← of_option "orderer entry in the config block is empty" (bu_OrdererConfig nextBundle);
  nextCfg ← of_option "failed to unmarshal next consensus metadata" (unmarshal_SharedConfig (oc_ConsensusMetadata nextOrdererCfg));
  currMap ← parties_by_id "party config is nil in current shared config" (sc_PartiesConfig currCfg);
  nextMap ← parties_by_id "party config is nil in next shared config" (sc_PartiesConfig nextCfg);
  changes ← computePartyChanges currMap nextMap;
  check_changes now currCfg nextCfg changes.
End Rules.

(** ** Config requests *)
(** The config envelope with the whole configuration; [ConfigEnvelope] of [Events] has only its sequence. *)
Record ConfigMessage (Config : Type) := mkConfigMessage { cm_Config : option Config; cm_LastUpdate : option Envelope }.
Arguments mkConfigMessage {Config} _ _.
Arguments cm_Config {Config} _.
Arguments cm_LastUpdate {Config} _.
Record SignerSerializer := mkSigner { Serialize : outcome bytes; Sign : bytes -> outcome bytes }.

(** Fabric's bundles as far as config requests go: what an update proposes, the construction of a bundle and its comparison with the one in force, the capabilities;
    and the bytes of the messages that are built. An update that is proposed ends up in the proposed envelope, with a configuration. *)
Class ConfigTx `{FabricCodecs} `{!RequestCodecs} (Config Resources : Type) `{EqDecision Config} := {
  tx_ChannelID : Resources -> string;
  tx_ProposeConfigUpdate : Resources -> Envelope -> outcome (ConfigMessage Config);
  tx_NewBundle : string -> option Config -> outcome Resources;
  tx_ValidateNew : Resources -> Resources -> outcome unit;
  tx_OrdererCapabilities : Resources -> option (outcome unit);
  tx_ChannelCapabilities : Resources -> outcome unit;
  config_codec :: Codec (ConfigMessage Config);
  channel_header_bytes : Z -> string -> Z -> bytes -> bytes;
  signature_header_bytes : SignatureHeader -> bytes;
  payload_bytes : Headers -> bytes -> option bytes;
  proposed_update : forall r env m, tx_ProposeConfigUpdate r env = Ok m -> cm_LastUpdate m = Some env /\ is_Some (cm_Config m);
  payload_roundtrip : forall h data bs, payload_bytes h data = Some bs -> exists p : Payload, dec bs = Some p /\ pl_Data p = data
}.

Section ConfigRequests.
Context `{FC : FabricCodecs} {RC : RequestCodecs} `{Sha256} {Config Resources : Type} `{EqDecision Config} `{CT : !ConfigTx Config Resources}.

Definition checkResources (res : Resources) : outcome unit :=
  oc ← of_option "config does not contain orderer config" (tx_OrdererCapabilities res);
  _ ← wrap_err "config requires unsupported orderer capabilities" oc;
  wrap_err "config requires unsupported channel capabilities" (tx_ChannelCapabilities res).
Definition validateNewBundleAgainstOldBundle (configEnvelope : ConfigMessage Config) (bundle : Resources) : outcome unit :=
  newBundle ← wrap_err "error creating bundle" (tx_NewBundle (tx_ChannelID bundle) (cm_Config configEnvelope));
  _ ← wrap_err "config update is not compatible" (checkResources newBundle);
  tx_ValidateNew bundle newBundle.
Definition AuthorizeAndVerifyConfigUpdate (envelope : Envelope) (bundle : Resources) : outcome (ConfigMessage Config) :=
  configEnvelope ← wrap_err "error applying config update" (tx_ProposeConfigUpdate bundle envelope);
  _ ← wrap_err "error validating new bundle against old bundle" (validateNewBundleAgainstOldBundle configEnvelope bundle);
  Ok configEnvelope.

Definition createSignedConfigEnvelopeWithTxID (channelID : string) (signer : option SignerSerializer) (nonce : outcome bytes) (now : Z) (configEnvelope : ConfigMessage Config) : outcome Envelope :=
  signer ← of_option "signer is nil" signer;
  creator ← wrap_err "failed to serialize signer" (Serialize signer);
  nonce ← wrap_err "failed to create nonce" nonce;
  let channelHeader := channel_header_bytes HeaderType_CONFIG channelID now (ComputeTxID nonce creator) in
  let signatureHeader := signature_header_bytes (mkSignatureHeader creator nonce) in
  data ← marshal_or_panic configEnvelope;
  payload ← or_panic (of_option "failed to marshal" (payload_bytes (mkHeaders (Some channelHeader) (Some signatureHeader)) data));
  sig ← wrap_err "failed to sign config envelope payload" (Sign signer payload);
  Ok (mkEnvelope payload sig).

(** The request for an envelope; the payload of a config envelope is not empty. The fields [Identity] and [IdentityId], which the code copies from the request of the client and no rule reads, are not part of [Request]. *)
Definition envelope_request (envelope : Envelope) (traceID : slice) : Request := mkRequest (nil_if_empty (env_Payload envelope)) (env_Signature envelope) traceID 0.
(** The type that [VerifyStructureAndClassify] returns, which it does next to an error too: that of the header where the structure is right, and otherwise the zero of the enumeration, [MESSAGE]. *)
Definition classified_type (verifier : RulesVerifier) (request : Request) : Z :=
  match rv_structureRule verifier, requestToSignedData request with Some _, Ok (_, reqType) => reqType | _, _ => 0%Z end.
Definition BuildVerifiedConfigRequest (request : Request) (configEnvelope : ConfigMessage Config) (bundle : Resources) (signer : option SignerSerializer) (nonce : outcome bytes) (now : Z)
    (verifier : RulesVerifier) : outcome Request :=
  config ← wrap_err "error creating a signed envelope" (createSignedConfigEnvelopeWithTxID (tx_ChannelID bundle) signer nonce now configEnvelope);
  let configRequest := envelope_request config (rq_TraceId request) in
  fail_if negb (classified_type verifier configRequest =? HeaderType_CONFIG)%Z with "config request header should be CONFIG" ;;
  _ ← wrap_err "config update did not pass signature filter final checks" (VerifyStructureAndClassify verifier configRequest);
  _ ← wrap_err "config update did not pass filter final checks" (Verify verifier configRequest);
  Ok configRequest.
Definition ProposeConfigUpdate (request : Request) (bundle : Resources) (signer : option SignerSerializer) (nonce : outcome bytes) (now : Z) (verifier : RulesVerifier) : outcome Request :=
  configEnvelope ← wrap_err "failed authorizing and verifying config update request"
    (AuthorizeAndVerifyConfigUpdate (mkEnvelope (slice_bytes (rq_Payload request)) (rq_Signature request)) bundle);
  wrap_err "failed creating a verified config request" (BuildVerifiedConfigRequest request configEnvelope bundle signer nonce now verifier).

Definition verifyRequest (verifier : RulesVerifier) (envelope : Envelope) (expectedType : Z) : outcome unit :=
  reqType ← VerifyStructureAndClassify verifier (envelope_request envelope None);
  fail_if negb (reqType =? expectedType)%Z with "unexpected type" ;; Ok tt.
Definition ValidateConfigRequest (verifier : RulesVerifier) (bundle : Resources) (envelope : Envelope) : outcome unit :=
  _ ← wrap_err "config envelope" (verifyRequest verifier envelope HeaderType_CONFIG);
  payload ← (unmarshal (env_Payload envelope) : outcome Payload);
  configEnvelope ← wrap_err "payload data unmarshalling error" (unmarshal (pl_Data payload) : outcome (ConfigMessage Config));
  lastUpdate ← of_option "invalid config envelope" (cm_LastUpdate configEnvelope);
  config ← of_option "invalid config envelope" (cm_Config configEnvelope);
  _ ← wrap_err "last update" (verifyRequest verifier lastUpdate HeaderType_CONFIG_UPDATE);
  expectedConfigEnvelope ← wrap_err "falied to propose a new config update" (AuthorizeAndVerifyConfigUpdate lastUpdate bundle);
  fail_if negb (bool_decide (Some config = cm_Config expectedConfigEnvelope)) with "pending last update does not match calculated expected config" ;;
  Ok tt.
End ConfigRequests.
