(* ===== verification/ConfigRulesThms.v ===== *)
(** * Theorems about the rules of configurations

    What an accepted configuration and an accepted transition guarantee: which transitions there are, that identifiers of parties are never used again,
    that the block validation policy asks for a quorum of the consenters, and that quorums of consecutive configurations share an honest party. *)
From stdpp Require Import gmap sets.
From Stdlib Require Import NArith ZArith Lia.
From S2P Require Import Prelude Types Events Blocks State Sample Badb Consenter Round Ledger StateCodec Consensus RequestFilter ConfigRules.

(** ** Loops *)
Lemma each_Ok {A} (f : A -> outcome unit) l : each f l = Ok tt <-> Forall (fun x => f x = Ok tt) l.
Proof.
  unfold each. induction l as [|x l IH]; cbn; [by split; [constructor|]|]. rewrite Forall_cons, <-IH. split.
  - intros X. apply bind_Ok_inv in X as ([] & ? & ?). done.
  - by intros [-> ?].
Qed.
Lemma ofoldl_snoc {A B} (f : A -> B -> outcome A) a l x : ofoldl f a (l ++ [x]) = (a' ← ofoldl f a l; f a' x).
Proof. revert a. induction l as [|y l IH]; intros a; cbn; [by destruct (f a x)|]. destruct (f a y); cbn; [apply IH|done..]. Qed.
(** A property of the list that was processed and of the value so far. *)
Lemma ofoldl_inv {A B} (f : A -> B -> outcome A) (P : list B -> A -> Prop) a l a' :
  P [] a -> (forall k x v v', P k v -> x ∈ l -> f v x = Ok v' -> P (k ++ [x]) v') -> ofoldl f a l = Ok a' -> P l a'.
Proof.
  intros H0 Hs. revert a'. induction l as [|x l IH] using rev_ind; intros a'; [by intros [= <-]|]. rewrite ofoldl_snoc. intros X.
  apply bind_Ok_inv in X as (v & E & Ex). eapply Hs; [|set_solver|done]. apply IH; [|done]. intros k y v1 v2 Hk Hy. apply Hs; [done|set_solver].
Qed.
Lemma singleton_list {A} (l : list A) x : NoDup l -> (forall y, y ∈ l <-> y = x) -> l = [x].
Proof.
  intros Hnd Hl. destruct l as [|a [|b l]].
  - exfalso. assert (x ∈ @nil A) as X%not_elem_of_nil by by apply Hl. done.
  - f_equal. apply Hl. set_solver.
  - exfalso. assert (a = x) by (apply Hl; set_solver). assert (b = x) by (apply Hl; set_solver). subst. apply NoDup_cons in Hnd as [Hnd _]. set_solver.
Qed.
Lemma no_list {A} (l : list A) : (forall y, y ∉ l) -> l = [].
Proof. intros Hl. apply elem_of_nil_inv. done. Qed.
(** The loops that look at the elements of a repeated field, none of which may be nil. *)
Lemma omapM_some {A B} (f : A -> B) e l r : omapM (fun x => x ← of_option e x; Ok (f x)) l = Ok r <-> Forall is_Some l /\ r = f <$> omap id l.
Proof.
  revert r. induction l as [|[x|] l IH]; intros r; cbn.
  - split; [intros [= <-]; by split|by intros [_ ->]].
  - split.
    + intros X. apply bind_Ok_inv in X as (ys & [? ->]%IH & [= <-]). split; [by constructor|done].
    + intros [Hf ->]. inversion Hf; subst. erewrite (proj2 (IH _)); [done|by split].
  - split; [done|]. intros [Hf _]. inversion Hf as [|? ? [? ?]]. done.
Qed.

(** ** Parties by identifier *)
Definition keyed (m : gmap N PartyConfig) : Prop := forall k p, m !! k = Some p -> pc_PartyID p = k.
Definition party_ids (parties : list (option PartyConfig)) : gset N := list_to_set (pc_PartyID <$> omap id parties).

Lemma parties_by_id_Ok e parties m : parties_by_id e parties = Ok m ->
  keyed m /\ dom m = party_ids parties /\ Forall is_Some parties /\ forall k p, m !! k = Some p -> Some p ∈ parties.
Proof.
  unfold parties_by_id, party_ids. apply (ofoldl_inv _ (fun l m => keyed m /\ dom m = list_to_set (pc_PartyID <$> omap id l) /\ Forall is_Some l /\ forall k p, m !! k = Some p -> Some p ∈ l)).
  - split_and!; [by intros ? ?|set_solver|constructor|by intros ? ?].
  - intros l [p|] v v' (Hk & Hd & Hf & Hin) _; cbn; [|done]. intros [= <-]. rewrite omap_app, fmap_app, list_to_set_app_L. split_and!.
    + intros k q. rewrite lookup_insert_Some. intros [[<- <-]|[_ ?]]; [done|by apply Hk].
    + rewrite dom_insert_L, Hd. cbn. set_solver.
    + apply Forall_app_2; [done|]. by repeat constructor.
    + intros k q. rewrite lookup_insert_Some. intros [[<- <-]|[_ ?%Hin]]; set_solver.
Qed.
Lemma parties_by_id_total e parties : Forall is_Some parties -> exists m, parties_by_id e parties = Ok m.
Proof.
  unfold parties_by_id. generalize (∅ : gmap N PartyConfig). induction parties as [|p l IH]; intros m0 Hf; [by eexists|]. inversion Hf as [|? ? [q ->] ?]; subst. cbn. by apply IH.
Qed.
(** With distinct identifiers the map has exactly the parties. *)
Lemma parties_by_id_distinct e parties m k p : parties_by_id e parties = Ok m -> NoDup (pc_PartyID <$> omap id parties) -> m !! k = Some p <-> Some p ∈ parties /\ pc_PartyID p = k.
Proof.
  intros Hm Hnd. destruct (parties_by_id_Ok _ _ _ Hm) as (Hk & Hd & _ & Hin). split; [intros Hl; split; [by apply Hin in Hl|by apply Hk]|].
  intros [Hp <-]. assert (is_Some (m !! pc_PartyID p)) as [q Hq].
  { apply elem_of_dom. rewrite Hd. apply elem_of_list_to_set, list_elem_of_fmap. exists p. split; [done|]. apply list_elem_of_omap. by exists (Some p). }
  rewrite Hq. pose proof (Hin _ _ Hq) as Hq'. apply Hk in Hq. f_equal.
  eapply (lookup_fmap_eq_unique pc_PartyID (omap id parties)); [done| | |done]; apply list_elem_of_omap; eauto.
Qed.

(** ** Changes of the parties *)
Definition shard_ids (p : PartyConfig) : list N := bc_ShardID <$> omap id (pc_BatchersConfig p).
(** What the code checks of a modified party: it has as many batchers as before and lists every shard it had. The batchers may get other endpoints and
    certificates. Where the party listed no shard twice this says that its set of shards stays ([shards_kept_unchanged]); where it did, a batcher may move
    ([repeated_shard_moves]). *)
Definition shards_kept (curr next : PartyConfig) : Prop :=
  length (pc_BatchersConfig curr) = length (pc_BatchersConfig next) /\ Forall is_Some (pc_BatchersConfig curr) /\ Forall is_Some (pc_BatchersConfig next) /\
  shard_ids curr ⊆ shard_ids next.
Lemma validatePartyModification_Ok curr next b :
  validatePartyModification curr next = Ok b <-> b = negb (bool_decide (curr = next)) /\ (curr <> next -> shards_kept curr next).
Proof.
  unfold validatePartyModification. case_bool_decide as E; [split; [intros [= <-]; by split|by intros [-> _]]|]. cbn [negb].
  case_bool_decide as El; cbn [guard_err]; [split; [done|]; intros [_ X]; destruct (X E) as [? _]; done|].
  assert (forall ids, each (fun b => b ← of_option "batcher config is nil in current config" b;
      guard_err (negb (bool_decide (bc_ShardID b ∈ ids))) "batcher shard IDs cannot change" (Ok tt)) (pc_BatchersConfig curr) = Ok tt <-> Forall is_Some (pc_BatchersConfig curr) /\ shard_ids curr ⊆ ids) as Hc.
  { intros ids. rewrite each_Ok. unfold shard_ids. generalize (pc_BatchersConfig curr). intros bs. induction bs as [|[b'|] bs IH]; cbn.
    - split; [intros _; split; [constructor|set_solver]|constructor].
    - rewrite !Forall_cons, IH. unfold guard_err. cbn. case_bool_decide as Eb; cbn; split.
      + intros (_ & ? & ?). split; [by split; [eexists|]|set_solver].
      + intros [[_ ?] ?]. split; [done|]. split; [done|set_solver].
      + by intros [? _].
      + intros [_ ?]. exfalso. set_solver.
    - rewrite !Forall_cons. split; [by intros [? _]|]. intros [[[? ?] _] _]. done. }
  split.
  - intros X. apply bind_Ok_inv in X as (ids & [Hn ->]%omapM_some & X). apply bind_Ok_inv in X as ([] & [? ?]%Hc & [= <-]). done.
  - intros [-> X]. destruct (X E) as (_ & H1 & H2 & H3). erewrite (proj2 (omapM_some _ _ _ _)); [cbn [mbind outcome_bind]|by split]. by rewrite (proj2 (Hc _)).
Qed.

(** The batchers of a party are in the same shards. *)
Definition shards_unchanged (curr next : PartyConfig) : Prop :=
  Forall is_Some (pc_BatchersConfig curr) /\ Forall is_Some (pc_BatchersConfig next) /\ shard_ids curr ≡ₚ shard_ids next.
Lemma shard_ids_length p : Forall is_Some (pc_BatchersConfig p) -> length (shard_ids p) = length (pc_BatchersConfig p).
Proof. unfold shard_ids. rewrite length_fmap. induction 1 as [|? ? [b ->] _ IH]; cbn; congruence. Qed.
Lemma shards_kept_unchanged curr next : NoDup (shard_ids curr) -> shards_kept curr next <-> shards_unchanged curr next.
Proof.
  intros Hnd. split.
  - intros (Hlen & Hc & Hn & Hsub). split_and!; [done|done|]. apply submseteq_length_Permutation; [by apply NoDup_submseteq|]. rewrite !shard_ids_length by done. lia.
  - intros (Hc & Hn & Hp). split_and!; [|done|done|intros k; by rewrite Hp]. rewrite <-!shard_ids_length by done. by rewrite Hp.
Qed.

Definition modified_in (nextMap : gmap N PartyConfig) (p : PartyConfig) : option PartyConfig :=
  q ← nextMap !! pc_PartyID p; if bool_decide (p = q) then None else Some q.
Lemma compare_parties nextMap ch l ch' :
  ofoldl (compare_party nextMap) ch l = Ok ch' <->
  (forall p q, p ∈ l -> nextMap !! pc_PartyID p = Some q -> p <> q -> shards_kept p q) /\
  ch' = mkPartyChanges (Added ch) (Removed ch ++ filter (fun p => nextMap !! pc_PartyID p = None) l) (Modified ch ++ omap (modified_in nextMap) l).
Proof.
  revert ch. induction l as [|p l IH]; intros ch; cbn [ofoldl].
  - cbn. rewrite !app_nil_r. split; [intros [= <-]; split; [set_solver|by destruct ch]|intros [_ ->]; by destruct ch].
  - rewrite filter_cons. cbn [omap list_omap].
    assert (compare_party nextMap ch p = match nextMap !! pc_PartyID p with
      | None => Ok (mkPartyChanges (Added ch) (Removed ch ++ [p]) (Modified ch))
      | Some q => changed ← wrap_err "invalid modification" (validatePartyModification p q);
          Ok (if (changed : bool) then mkPartyChanges (Added ch) (Removed ch) (Modified ch ++ [q]) else ch) end) as -> by done.
    assert (modified_in nextMap p = (q ← nextMap !! pc_PartyID p; if bool_decide (p = q) then None else Some q)) as -> by done. destruct (nextMap !! pc_PartyID p) as [q|] eqn:Eq.
    + rewrite decide_False by done. cbn [mbind option_bind]. split.
      * intros X. apply bind_Ok_inv in X as (ch1 & X1 & X2). apply bind_Ok_inv in X1 as (b & [Eb Hkept]%wrap_err_Ok%validatePartyModification_Ok & [= <-]).
        apply IH in X2 as [H1 ->]. split; [intros p' q' [->|?]%elem_of_cons; [rewrite Eq; by intros [= <-]|by apply H1]|].
        subst b. by case_bool_decide; cbn [negb Added Removed Modified]; rewrite <-?app_assoc.
      * intros [H1 ->]. rewrite (proj2 (wrap_err_Ok _ _ (negb (bool_decide (p = q))))); [|apply validatePartyModification_Ok; split; [done|by apply H1; [set_solver|]]].
        cbn [mbind outcome_bind]. apply IH. split; [intros; apply H1; set_solver|]. by case_bool_decide; cbn [negb Added Removed Modified]; rewrite <-?app_assoc.
    + rewrite decide_True by done. cbn [mbind option_bind outcome_bind]. rewrite IH. cbn [Added Removed Modified]. rewrite <-app_assoc. cbn [app]. split.
      * intros [H1 ->]. split; [|done]. intros p' q' [->|?]%elem_of_cons; [by rewrite Eq|by apply H1].
      * intros [H1 ->]. split; [|done]. intros; apply H1; set_solver.
Qed.

Section Changes.
Context {R : MapRange}.

Lemma ranged_party site (m : gmap N PartyConfig) p : keyed m -> p ∈ (snd <$> range_map site m) <-> m !! pc_PartyID p = Some p.
Proof.
  intros Hk. rewrite list_elem_of_fmap. split.
  - intros ([k q] & -> & Hq%elem_of_range). cbn. by rewrite (Hk _ _ Hq).
  - intros Hp. exists (pc_PartyID p, p). by rewrite elem_of_range.
Qed.
Lemma ranged_ids_distinct site (m : gmap N PartyConfig) : keyed m -> NoDup (pc_PartyID <$> (snd <$> range_map site m)).
Proof.
  intros Hk. assert (pc_PartyID <$> (snd <$> range_map site m) = (range_map site m).*1) as ->.
  { rewrite <-list_fmap_compose. apply fmap_ext_elem. intros [k p] Hin%elem_of_range. by apply Hk. }
  rewrite (range_perm site m). apply NoDup_fst_map_to_list.
Qed.
Lemma ranged_distinct site (m : gmap N PartyConfig) : keyed m -> NoDup (snd <$> range_map site m).
Proof. intros Hk. eapply NoDup_fmap_1, ranged_ids_distinct, Hk. Qed.

(** The changes between two maps of parties, in some order. *)
Record changes_between (curr next : gmap N PartyConfig) (ch : partyChanges) : Prop := {
  cb_kept : forall k p q, curr !! k = Some p -> next !! k = Some q -> p <> q -> shards_kept p q;
  cb_added : forall p, p ∈ Added ch <-> next !! pc_PartyID p = Some p /\ curr !! pc_PartyID p = None;
  cb_removed : forall p, p ∈ Removed ch <-> curr !! pc_PartyID p = Some p /\ next !! pc_PartyID p = None;
  cb_modified : forall q, q ∈ Modified ch <-> next !! pc_PartyID q = Some q /\ exists p, curr !! pc_PartyID q = Some p /\ p <> q;
  cb_distinct : NoDup (Added ch) /\ NoDup (Removed ch) /\ NoDup (Modified ch)
}.

Lemma modified_ids next (l : list PartyConfig) : keyed next -> NoDup (pc_PartyID <$> l) -> NoDup (omap (modified_in next) l).
Proof.
  intros Hk Hnd. apply (NoDup_fmap_1 pc_PartyID). eapply sublist_NoDup; [exact Hnd|]. clear Hnd. induction l as [|p l IH]; cbn; [done|].
  unfold modified_in at 1. destruct (next !! pc_PartyID p) as [q|] eqn:E; cbn; [|by constructor]. case_bool_decide; cbn; [by constructor|].
  rewrite (Hk _ _ E). by constructor.
Qed.

Lemma computePartyChanges_Ok curr next ch : keyed curr -> keyed next -> computePartyChanges curr next = Ok ch -> changes_between curr next ch.
Proof.
  intros Hc Hn. unfold computePartyChanges. rewrite compare_parties. intros [Hkept ->]. constructor; cbn [Added Removed Modified app].
  - intros k p q Hp Hq Hne. pose proof (Hc _ _ Hp). subst k. apply Hkept; [by apply ranged_party|done|done].
  - intros p. rewrite list_elem_of_filter, ranged_party by done. tauto.
  - intros p. rewrite list_elem_of_filter, ranged_party by done. tauto.
  - intros q. rewrite list_elem_of_omap. unfold modified_in. split.
    + intros (p & Hp%ranged_party & E); [|done]. destruct (next !! pc_PartyID p) as [q'|] eqn:Eq; [|done]. cbn in E. case_bool_decide as Ne; [done|]. injection E as <-.
      pose proof (Hn _ _ Eq) as Hid. rewrite Hid. split; [done|]. by exists p.
    + intros (Hq & p & Hp & Hne). pose proof (Hc _ _ Hp) as Hid. exists p. rewrite ranged_party, Hid, Hq by done. split; [done|]. cbn. by rewrite bool_decide_false.
  - split_and!; [apply NoDup_filter; by apply ranged_distinct..|]. apply modified_ids; [done|]. by apply ranged_ids_distinct.
Qed.
Lemma computePartyChanges_total curr next : keyed curr -> keyed next ->
  (forall k p q, curr !! k = Some p -> next !! k = Some q -> p <> q -> shards_kept p q) -> exists ch, computePartyChanges curr next = Ok ch.
Proof.
  intros Hc Hn Hkept. unfold computePartyChanges. eexists. apply compare_parties. split; [|done]. intros p q Hp%ranged_party Hq Hne; [|done]. by apply (Hkept (pc_PartyID p)).
Qed.
End Changes.

(** ** Transitions *)
Section Transitions.
Context `{ConfigLibrary} {R : MapRange}.

(** What an accepted transition does to the parties and to the highest identifier. *)
Inductive membership_change (now : Z) (curr next : gmap N PartyConfig) (currMax nextMax : N) : Prop :=
  | parties_unchanged : next = curr -> nextMax = currMax -> membership_change now curr next currMax nextMax
  | party_added p : curr !! pc_PartyID p = None -> next = <[pc_PartyID p := p]> curr -> (currMax < pc_PartyID p)%N -> nextMax = pc_PartyID p -> nextMax = u32 (currMax + 1) ->
      validatePartyCertificates now p false = Ok tt -> membership_change now curr next currMax nextMax
  | party_removed k : is_Some (curr !! k) -> next = delete k curr -> nextMax = currMax -> membership_change now curr next currMax nextMax
  | party_modified p q : curr !! pc_PartyID q = Some p -> p <> q -> shards_kept p q -> next = <[pc_PartyID q := q]> curr -> nextMax = currMax ->
      validatePartyCertificates now q false = Ok tt -> membership_change now curr next currMax nextMax.

Lemma check_changes_Ok now currCfg nextCfg ch : check_changes now currCfg nextCfg ch = Ok tt <->
  length (Added ch) + length (Removed ch) + length (Modified ch) <= 1 /\
  match Added ch with
  | [party] => (sc_MaxPartyID currCfg < pc_PartyID party)%N /\ sc_MaxPartyID nextCfg = pc_PartyID party /\ sc_MaxPartyID nextCfg = u32 (sc_MaxPartyID currCfg + 1)
  | _ => sc_MaxPartyID nextCfg = sc_MaxPartyID currCfg
  end /\
  Forall (fun p => validatePartyCertificates now p false = Ok tt) (Added ch ++ Modified ch).
Proof.
  unfold check_changes. rewrite Forall_app. destruct ch as [a r m]. cbn [Added Removed Modified]. split.
  - intros X. outcome_inv. repeat match goal with Hb : bool_decide _ = false |- _ => apply bool_decide_eq_false in Hb end. repeat match goal with u : unit |- _ => destruct u end.
    split; [lia|]. split.
    + destruct a as [|p [|]]; outcome_inv; repeat match goal with Hb : negb _ = false |- _ => apply negb_false_iff, N.eqb_eq in Hb end; [done| |done].
      rewrite N.leb_gt in *. done.
    + repeat match goal with Hb : each _ _ = Ok tt |- _ => rewrite each_Ok in Hb end.
      split; match goal with Hb : Forall _ ?l |- Forall _ ?l => eapply Forall_impl; [exact Hb|] end; cbn; intros ? Y%wrap_err_Ok; done.
  - intros (Hlen & Hmax & Ha & Hm). rewrite bool_decide_false by lia. cbn [guard_err].
    assert (forall e l, Forall (fun p => validatePartyCertificates now p false = Ok tt) l -> each (fun party => wrap_err e (validatePartyCertificates now party false)) l = Ok tt) as Hev.
    { intros e l Hl. apply each_Ok. eapply Forall_impl; [exact Hl|]. cbn. by intros ? ->. }
    destruct a as [|p [|p' a]]; [| |cbn in Hlen; lia].
    + rewrite Hmax, N.eqb_refl. cbn [negb guard_err mbind outcome_bind]. rewrite !bool_decide_false by (cbn in Hlen |- *; lia). cbn [guard_err]. by rewrite Hev, Hev.
    + destruct Hmax as (H1 & H2 & H3). apply N.leb_gt in H1. rewrite H1, <-H3, <-H2, N.eqb_refl. cbn [negb guard_err mbind outcome_bind].
      rewrite !bool_decide_false by (cbn in Hlen |- *; lia). cbn [guard_err]. by rewrite Hev, Hev.
Qed.

Lemma at_most_one (a r m : nat) : a + r + m <= 1 -> (a = 0 /\ r = 0 /\ m = 0) \/ (a = 1 /\ r = 0 /\ m = 0) \/ (a = 0 /\ r = 1 /\ m = 0) \/ (a = 0 /\ r = 0 /\ m = 1).
Proof. lia. Qed.
(** Where neither something was removed nor modified at a key that is not added, the maps agree. *)
Lemma agree_unless curr next ch k : keyed curr -> keyed next -> changes_between curr next ch ->
  (forall p, p ∈ Added ch -> pc_PartyID p <> k) -> (forall p, p ∈ Removed ch -> pc_PartyID p <> k) -> (forall p, p ∈ Modified ch -> pc_PartyID p <> k) -> next !! k = curr !! k.
Proof.
  intros Hc Hn B Ha Hr Hm. destruct (next !! k) as [q|] eqn:Eq, (curr !! k) as [p|] eqn:Ep; [| | |done].
  - pose proof (Hn _ _ Eq). subst k. destruct (decide (p = q)) as [->|Hne]; [done|]. exfalso. apply (Hm q); [|done]. apply B. eauto.
  - pose proof (Hn _ _ Eq). subst k. exfalso. apply (Ha q); [|done]. apply B. eauto.
  - pose proof (Hc _ _ Ep). subst k. exfalso. apply (Hr p); [|done]. apply B. eauto.
Qed.
Lemma change_of_checks now currCfg nextCfg curr next ch : keyed curr -> keyed next -> changes_between curr next ch -> check_changes now currCfg nextCfg ch = Ok tt ->
  membership_change now curr next (sc_MaxPartyID currCfg) (sc_MaxPartyID nextCfg).
Proof.
  intros Hc Hn B (Hlen & Hmax & Hcerts)%check_changes_Ok.
  destruct ch as [a r m]. cbn [Added Removed Modified] in *.
  assert (forall p, p ∈ a <-> next !! pc_PartyID p = Some p /\ curr !! pc_PartyID p = None) as Ba by apply B.
  assert (forall p, p ∈ r <-> curr !! pc_PartyID p = Some p /\ next !! pc_PartyID p = None) as Br by apply B.
  assert (forall q, q ∈ m <-> next !! pc_PartyID q = Some q /\ exists p, curr !! pc_PartyID q = Some p /\ p <> q) as Bm by apply B.
  destruct (at_most_one _ _ _ Hlen) as [(Ea & Er & Em)|[(Ea & Er & Em)|[(Ea & Er & Em)|(Ea & Er & Em)]]].
  - apply nil_length_inv in Ea, Er, Em. subst. apply parties_unchanged; [|done]. apply map_eq. intros k. apply (agree_unless _ _ _ k Hc Hn B); cbn; set_solver.
  - apply nil_length_inv in Er, Em. destruct a as [|p [|]]; [done| |done]. subst. destruct Hmax as (H1 & H2 & H3). destruct (proj1 (Ba p)) as [Hp Hno]; [set_solver|].
    apply (party_added _ _ _ _ _ p); [done| |done|done|done|by apply Forall_cons in Hcerts as [? _]]. apply map_eq. intros k. destruct (decide (pc_PartyID p = k)) as [<-|Hk]; [by rewrite lookup_insert_eq|].
    rewrite lookup_insert_ne by done. apply (agree_unless _ _ _ k Hc Hn B); cbn; set_solver.
  - apply nil_length_inv in Ea, Em. destruct r as [|p [|]]; [done| |done]. subst. destruct (proj1 (Br p)) as [Hp Hno]; [set_solver|].
    apply (party_removed _ _ _ _ _ (pc_PartyID p)); [by eexists| |done]. apply map_eq. intros k. destruct (decide (pc_PartyID p = k)) as [<-|Hk]; [by rewrite lookup_delete_eq|].
    rewrite lookup_delete_ne by done. apply (agree_unless _ _ _ k Hc Hn B); cbn; set_solver.
  - apply nil_length_inv in Ea, Er. destruct m as [|q [|]]; [done| |done]. subst. destruct (proj1 (Bm q)) as (Hq & p & Hp & Hne); [set_solver|].
    apply (party_modified _ _ _ _ _ p q); [done|done|by eapply B| |done|by apply Forall_cons in Hcerts as [? _]]. apply map_eq. intros k.
    destruct (decide (pc_PartyID q = k)) as [<-|Hk]; [by rewrite lookup_insert_eq|]. rewrite lookup_insert_ne by done. apply (agree_unless _ _ _ k Hc Hn B); cbn; set_solver.
Qed.
Lemma checks_of_change now currCfg nextCfg curr next ch : keyed curr -> keyed next -> changes_between curr next ch ->
  membership_change now curr next (sc_MaxPartyID currCfg) (sc_MaxPartyID nextCfg) -> check_changes now currCfg nextCfg ch = Ok tt.
Proof.
  intros Hc Hn [_ Ba Br Bm (Da & Dr & Dm)] M. apply check_changes_Ok. destruct ch as [a r m]. cbn [Added Removed Modified] in *.
  destruct M as [-> Em|p Hno -> Hlt Em Em' Hv|k [p Hp] -> Em|p q Hp Hne _ -> Em Hv].
  - assert (a = []) as -> by (apply no_list; intros p [E1 E2]%Ba; congruence). assert (r = []) as -> by (apply no_list; intros p [E1 E2]%Br; congruence).
    assert (m = []) as -> by (apply no_list; intros q (E1 & p & E2 & E3)%Bm; congruence). cbn. split; [lia|done].
  - assert (a = [p]) as ->. { apply singleton_list; [done|]. intros q. rewrite Ba, lookup_insert_Some. split; [intros [[[? ?]|[? ?]] ?]; congruence|]. intros ->. auto. }
    assert (r = []) as -> by (apply no_list; intros q [E1 E2]%Br; apply lookup_insert_None in E2 as [? ?]; congruence).
    assert (m = []) as ->. { apply no_list. intros q (E1 & q' & E2 & E3)%Bm. apply lookup_insert_Some in E1 as [[E _]|[_ ?]]; [|congruence]. rewrite <-E in E2. congruence. }
    cbn. split; [lia|]. split; [done|by constructor].
  - assert (a = []) as -> by (apply no_list; intros q [E1 E2]%Ba; apply lookup_delete_Some in E1 as [_ ?]; congruence).
    assert (r = [p]) as ->. { apply singleton_list; [done|]. pose proof (Hc _ _ Hp). subst k. intros q. rewrite Br, lookup_delete_None. split; [intros [? [?|?]]; congruence|]. intros ->. auto. }
    assert (m = []) as -> by (apply no_list; intros q (E1 & q' & E2 & E3)%Bm; apply lookup_delete_Some in E1 as [_ ?]; congruence).
    cbn. split; [lia|done].
  - assert (a = []) as ->. { apply no_list. intros q' [E1 E2]%Ba. apply lookup_insert_Some in E1 as [[E _]|[_ ?]]; [|congruence]. rewrite <-E in E2. congruence. }
    assert (r = []) as -> by (apply no_list; intros q' [E1 E2]%Br; apply lookup_insert_None in E2 as [? ?]; congruence).
    assert (m = [q]) as ->. { apply singleton_list; [done|]. intros q'. rewrite Bm, lookup_insert_Some. split; [intros ([[? ?]|[? ?]] & p' & E1 & E2); congruence|]. intros ->. split; [by left|]. by exists p. }
    cbn. split; [lia|]. split; [done|by constructor].
Qed.

(** The orderer configuration and the shared configuration in a bundle. *)
Definition reads (b : Bundle) (oc : OrdererConfig) (c : SharedConfig) : Prop := bu_OrdererConfig b = Some oc /\ unmarshal_SharedConfig (oc_ConsensusMetadata oc) = Some c.
(** The parties by identifier; the last entry counts where an identifier is listed twice, as in the map that the code builds. *)
Definition party_map (c : SharedConfig) : gmap N PartyConfig := foldl (fun m p => <[pc_PartyID p := p]> m) ∅ (omap id (sc_PartiesConfig c)).

Lemma parties_by_id_map e c m : parties_by_id e (sc_PartiesConfig c) = Ok m <-> Forall is_Some (sc_PartiesConfig c) /\ m = party_map c.
Proof.
  unfold party_map, parties_by_id. generalize (sc_PartiesConfig c). intros l. generalize (∅ : gmap N PartyConfig). induction l as [|[p|] l IH]; intros m0; cbn.
  - split; [intros [= <-]; by split|by intros [_ ->]].
  - rewrite IH, Forall_cons. split; [by intros [? ->]|by intros [[_ ?] ->]].
  - rewrite Forall_cons. split; [done|]. by intros [[[? ?] _] _].
Qed.
Lemma party_map_facts c : Forall is_Some (sc_PartiesConfig c) -> keyed (party_map c) /\ dom (party_map c) = party_ids (sc_PartiesConfig c).
Proof. intros Hf. assert (parties_by_id "" (sc_PartiesConfig c) = Ok (party_map c)) as E by by apply parties_by_id_map. by apply parties_by_id_Ok in E as (? & ? & _). Qed.

(** *** Configurations that list no party twice *)
Definition parties (c : SharedConfig) : list PartyConfig := omap id (sc_PartiesConfig c).
Definition by_id (l : list PartyConfig) : list (N * PartyConfig) := (fun p => (pc_PartyID p, p)) <$> l.
Lemma by_id_fst l : (by_id l).*1 = pc_PartyID <$> l.
Proof. unfold by_id. by rewrite <-list_fmap_compose. Qed.
Lemma by_id_snd l : (by_id l).*2 = l.
Proof. unfold by_id. rewrite <-list_fmap_compose. apply list_fmap_id. Qed.
Lemma inserts_by_id (m : gmap N PartyConfig) l : NoDup (pc_PartyID <$> l) -> dom m ## list_to_set (pc_PartyID <$> l) ->
  foldl (fun m p => <[pc_PartyID p := p]> m) m l = m ∪ list_to_map (by_id l).
Proof.
  revert m. induction l as [|p l IH]; intros m Hnd Hdis; cbn; [by rewrite (right_id_L ∅ (∪))|].
  apply NoDup_cons in Hnd as [Hp Hnd]. rewrite IH; [|done|rewrite dom_insert_L; set_solver].
  rewrite <-insert_union_l, insert_union_r; [done|]. apply not_elem_of_dom. set_solver.
Qed.
Lemma party_map_by_id c : NoDup (pc_PartyID <$> parties c) -> party_map c = list_to_map (by_id (parties c)).
Proof. intros Hnd. unfold party_map. fold (parties c). rewrite inserts_by_id; [apply (left_id_L ∅ (∪))|done|set_solver]. Qed.
Lemma list_to_map_by_id l k : NoDup (pc_PartyID <$> l) -> NoDup (pc_PartyID <$> k) -> (list_to_map (by_id l) : gmap N PartyConfig) = list_to_map (by_id k) <-> l ≡ₚ k.
Proof.
  intros Hl Hk. split; intros E.
  - rewrite <-(by_id_snd l), <-(by_id_snd k). apply fmap_Permutation, (list_to_map_inj (M := gmap N)); by rewrite ?by_id_fst.
  - apply list_to_map_proper; [by rewrite by_id_fst|]. by apply fmap_Permutation.
Qed.

(** What an accepted transition does to the parties of configurations that list none twice. *)
Inductive parties_change (now : Z) (curr next : list PartyConfig) (currMax nextMax : N) : Prop :=
  | same_parties : next ≡ₚ curr -> nextMax = currMax -> parties_change now curr next currMax nextMax
  | one_added p : next ≡ₚ p :: curr -> pc_PartyID p = (currMax + 1)%N -> nextMax = pc_PartyID p -> (nextMax <= u32_max)%N ->
      validatePartyCertificates now p false = Ok tt -> parties_change now curr next currMax nextMax
  | one_removed p : curr ≡ₚ p :: next -> nextMax = currMax -> parties_change now curr next currMax nextMax
  | one_modified p q others : curr ≡ₚ p :: others -> next ≡ₚ q :: others -> pc_PartyID p = pc_PartyID q -> p <> q -> shards_unchanged p q -> nextMax = currMax ->
      validatePartyCertificates now q false = Ok tt -> parties_change now curr next currMax nextMax.

Lemma by_id_None p l : NoDup (pc_PartyID <$> p :: l) -> (list_to_map (by_id l) : gmap N PartyConfig) !! pc_PartyID p = None.
Proof. intros [Hp _]%NoDup_cons. apply not_elem_of_list_to_map_1. by rewrite by_id_fst. Qed.
Lemma by_id_Some i p l : NoDup (pc_PartyID <$> l) -> (list_to_map (by_id l) : gmap N PartyConfig) !! i = Some p ->
  exists others, l ≡ₚ p :: others /\ pc_PartyID p = i /\ NoDup (pc_PartyID <$> p :: others).
Proof.
  intros Hl Hp%elem_of_list_to_map_2. apply list_elem_of_fmap in Hp as (p' & [= -> ->] & Hp). destruct (elem_of_Permutation l p') as [[others E] _]; [done|].
  exists others. split_and!; [done|done|]. by rewrite <-E.
Qed.

(** On such lists the change of the maps is the change of the lists. *)
Lemma change_of_lists now l k currMax nextMax : NoDup (pc_PartyID <$> l) -> NoDup (pc_PartyID <$> k) -> Forall (fun p => NoDup (shard_ids p)) l ->
  membership_change now (list_to_map (by_id l)) (list_to_map (by_id k)) currMax nextMax <-> parties_change now l k currMax nextMax.
Proof.
  intros Hl Hk Hs. assert (forall p others, l ≡ₚ p :: others -> NoDup (shard_ids p)) as Hs'.
  { intros p others E. rewrite E in Hs. by apply Forall_cons in Hs as [? _]. }
  split.
  - intros [E Em|p Hno E Hlt Em Em' Hv|i [p Hp] E Em|p q Hp Hne Hkept E Em Hv].
    + apply same_parties; [by apply list_to_map_by_id|done].
    + assert (NoDup (pc_PartyID <$> p :: l)) as Hpl. { apply NoDup_cons. split; [|done]. rewrite <-by_id_fst. by apply (not_elem_of_list_to_map (M := gmap N)). }
      assert (u32 (currMax + 1) <= currMax + 1)%N by (unfold u32; apply N.Div0.mod_le). assert (u32 (currMax + 1) <= u32_max)%N.
      { unfold u32, u32_max. pose proof (N.mod_lt (currMax + 1) 4294967296). lia. }
      apply (one_added _ _ _ _ _ p); [by apply list_to_map_by_id|lia|done|lia|done].
    + destruct (by_id_Some _ _ _ Hl Hp) as (others & El & <- & Hnd). apply (one_removed _ _ _ _ _ p); [|done]. rewrite El. constructor.
      pose proof (proj2 (list_to_map_by_id _ _ Hl Hnd) El) as Em'. apply list_to_map_by_id; [by apply NoDup_cons in Hnd as [_ ?]|done|].
      rewrite E, Em'. cbn. rewrite delete_insert_id; [done|]. by apply by_id_None.
    + destruct (by_id_Some _ _ _ Hl Hp) as (others & El & Hid & Hnd). pose proof (proj2 (list_to_map_by_id _ _ Hl Hnd) El) as Em'.
      apply (one_modified _ _ _ _ _ p q others); [done| |done|done|apply shards_kept_unchanged; [by eapply Hs'|done]|done|done].
      apply list_to_map_by_id; [done|cbn in Hnd |- *; by rewrite <-Hid|]. rewrite E, Em'. cbn. by rewrite Hid, insert_insert_eq.
  - intros [E Em|p E Hid Em Hu Hv|p E Em|p q others El Ek Hid Hne Hkept Em Hv].
    + apply parties_unchanged; [by apply list_to_map_by_id|done].
    + assert (NoDup (pc_PartyID <$> p :: l)) as Hpl by by rewrite <-E. apply (party_added _ _ _ _ _ p); [by apply by_id_None| |lia|done| |done].
      * by rewrite (proj2 (list_to_map_by_id _ _ Hk Hpl) E).
      * rewrite u32_small by lia. lia.
    + assert (NoDup (pc_PartyID <$> p :: k)) as Hpl by by rewrite <-E. rewrite (proj2 (list_to_map_by_id _ _ Hl Hpl) E). cbn.
      apply (party_removed _ _ _ _ _ (pc_PartyID p)); [rewrite lookup_insert_eq; by eexists|rewrite delete_insert_id; [done|by apply by_id_None]|done].
    + assert (NoDup (pc_PartyID <$> p :: others)) as Hpl by by rewrite <-El. assert (NoDup (pc_PartyID <$> q :: others)) as Hql by by rewrite <-Ek.
      rewrite (proj2 (list_to_map_by_id _ _ Hl Hpl) El), (proj2 (list_to_map_by_id _ _ Hk Hql) Ek). cbn. rewrite Hid.
      apply (party_modified _ _ _ _ _ p q); [by rewrite lookup_insert_eq|done|apply shards_kept_unchanged; [by eapply Hs'|done]|by rewrite insert_insert_eq|done|done].
Qed.

(** A transition is accepted exactly if the channel stays the same and at most one party is added, under the next identifier, removed, or modified without a change of its shards. *)
Lemma ValidateTransition_Ok now cb coc curr env nb noc next : reads cb coc curr -> NewBundleFromEnvelope env = Ok nb -> reads nb noc next ->
  ValidateTransition now cb env = Ok tt <->
  bu_ChannelID cb = bu_ChannelID nb /\ Forall is_Some (sc_PartiesConfig curr) /\ Forall is_Some (sc_PartiesConfig next) /\
  membership_change now (party_map curr) (party_map next) (sc_MaxPartyID curr) (sc_MaxPartyID next).
Proof.
  intros [Ec Ec'] En [Eo Eo']. unfold ValidateTransition. rewrite Ec. cbn [of_option mbind outcome_bind]. rewrite Ec'. cbn [of_option mbind outcome_bind]. rewrite En. cbn [wrap_err mbind outcome_bind].
  case_bool_decide as Ech; cbn [guard_err]; [split; [done|by intros [? _]]|]. rewrite Eo. cbn [of_option mbind outcome_bind]. rewrite Eo'. cbn [of_option mbind outcome_bind]. split.
  - intros X. apply bind_Ok_inv in X as (m & [Hf ->]%parties_by_id_map & X). apply bind_Ok_inv in X as (m' & [Hf' ->]%parties_by_id_map & X). apply bind_Ok_inv in X as (ch & Hch & X).
    destruct (party_map_facts _ Hf) as [Hk _], (party_map_facts _ Hf') as [Hk' _]. split_and!; [done|done|done|]. eapply change_of_checks; [done|done| |done]. by apply computePartyChanges_Ok.
  - intros (_ & Hf & Hf' & M). rewrite (proj2 (parties_by_id_map _ curr (party_map curr))) by done. cbn [mbind outcome_bind].
    rewrite (proj2 (parties_by_id_map _ next (party_map next))) by done. cbn [mbind outcome_bind]. destruct (party_map_facts _ Hf) as [Hk _], (party_map_facts _ Hf') as [Hk' _].
    destruct (computePartyChanges_total (party_map curr) (party_map next)) as [ch Hch]; [done|done| |].
    + intros k p q Hp Hq Hne. destruct M as [E _|p' Hno E _ _ _ _|k' [p' _] E _|p' q' Hp' _ Hkept E _ _]; rewrite E in Hq; [congruence| | |].
      * apply lookup_insert_Some in Hq as [[<- <-]|[_ ?]]; congruence.
      * apply lookup_delete_Some in Hq as [_ ?]. congruence.
      * apply lookup_insert_Some in Hq as [[<- <-]|[_ ?]]; [|congruence]. rewrite Hp in Hp'. by injection Hp' as <-.
    + rewrite Hch. cbn [mbind outcome_bind]. apply (checks_of_change _ _ _ (party_map curr) (party_map next)); [done|done|by apply computePartyChanges_Ok|done].
Qed.
Lemma ValidateTransition_reads now cb env : ValidateTransition now cb env = Ok tt -> exists coc curr nb noc next, reads cb coc curr /\ NewBundleFromEnvelope env = Ok nb /\ reads nb noc next.
Proof.
  unfold ValidateTransition. intros X. apply bind_Ok_inv in X as (coc & E1%of_option_Ok & X). apply bind_Ok_inv in X as (curr & E2%of_option_Ok & X). apply bind_Ok_inv in X as (nb & E3%wrap_err_Ok & X).
  apply guard_err_Ok in X as [_ X]. apply bind_Ok_inv in X as (noc & E4%of_option_Ok & X). apply bind_Ok_inv in X as (next & E5%of_option_Ok & X). by exists coc, curr, nb, noc, next.
Qed.

(** ** Configurations over time *)
(** The configurations that were in force, the last one first: the first passed the rules by itself, each further one also as a transition. The parties check
    with their own identifiers and at their own times. *)
Inductive accepted : list (Bundle * SharedConfig) -> Prop :=
  | accepted_first now partyID env b oc c : NewBundleFromEnvelope env = Ok b -> reads b oc c -> ValidateNewConfig now env partyID = Ok tt -> accepted [(b, c)]
  | accepted_next now partyID env b c hist b' oc' c' : accepted ((b, c) :: hist) -> NewBundleFromEnvelope env = Ok b' -> reads b' oc' c' ->
      ValidateNewConfig now env partyID = Ok tt -> ValidateTransition now b env = Ok tt -> accepted ((b', c') :: (b, c) :: hist).

Definition ids (c : SharedConfig) : gset N := party_ids (sc_PartiesConfig c).
(** What rule 11 gives. *)
Definition ids_bounded (c : SharedConfig) : Prop := (sc_MaxPartyID c <= u16_max)%N /\ forall k, k ∈ ids c -> (1 <= k <= sc_MaxPartyID c)%N.

Lemma ValidateNewConfig_inv now env partyID b : ValidateNewConfig now env partyID = Ok tt -> NewBundleFromEnvelope env = Ok b ->
  exists oc c orgs, reads b oc c /\ validate_parameters oc c partyID = Ok tt /\ validate_membership b oc c = Ok orgs /\ validate_parties now b c orgs = Ok tt.
Proof.
  unfold ValidateNewConfig. intros X E. rewrite E in X. cbn [wrap_err mbind outcome_bind] in X. apply bind_Ok_inv in X as (oc & E1%of_option_Ok & X).
  apply bind_Ok_inv in X as (c & E2%of_option_Ok & X). apply bind_Ok_inv in X as ([] & E3 & X). apply bind_Ok_inv in X as (orgs & E4 & X). by exists oc, c, orgs.
Qed.
Lemma validatePartyAndShardIDs_Ok parties max : validatePartyAndShardIDs parties max = Ok tt ->
  forall p, p ∈ parties -> exists party, p = Some party /\ (1 <= pc_PartyID party <= max)%N /\ (pc_PartyID party <= u16_max)%N /\
    forall b, b ∈ pc_BatchersConfig party -> exists batcher, b = Some batcher /\ (1 <= bc_ShardID batcher < ShardIDConsensus)%N.
Proof.
  unfold validatePartyAndShardIDs. rewrite each_Ok, Forall_forall. intros Hall p Hp. specialize (Hall p Hp). cbn in Hall. apply bind_Ok_inv in Hall as (party & E%of_option_Ok & X).
  exists party. split; [done|]. outcome_inv. apply orb_false_iff in Hguard as [H1%N.eqb_neq H2%N.ltb_ge]. apply N.ltb_ge in Hguard0. split; [lia|]. split; [lia|].
  intros b Hb. rewrite each_Ok, Forall_forall in X. specialize (X b Hb). unfold check_shard in X. apply bind_Ok_inv in X as (batcher & Eb%of_option_Ok & X). exists batcher. split; [done|].
  outcome_inv. apply orb_false_iff in Hguard as [H3%N.eqb_neq H4%N.leb_gt]. lia.
Qed.
Lemma validate_parties_bounded now b c orgs : validate_parties now b c orgs = Ok tt -> ids_bounded c.
Proof.
  unfold validate_parties. intros X. apply bind_Ok_inv in X as (? & _ & X). apply guard_err_Ok in X as [G%N.ltb_ge X]. apply bind_Ok_inv in X as ([] & Hids%wrap_err_Ok & _).
  split; [done|]. intros k. unfold ids, party_ids. rewrite elem_of_list_to_set, list_elem_of_fmap. intros (p & -> & (? & Hp & [= ->])%list_elem_of_omap).
  destruct (validatePartyAndShardIDs_Ok _ _ Hids _ Hp) as (party & [= <-] & ? & _). done.
Qed.

Lemma reads_unique b oc c oc' c' : reads b oc c -> reads b oc' c' -> oc = oc' /\ c = c'.
Proof. intros [E1 E2] [E3 E4]. assert (oc = oc') by congruence. subst. split; [done|congruence]. Qed.
Lemma accepted_head b c hist : accepted ((b, c) :: hist) -> ids_bounded c.
Proof.
  intros Ha. inversion Ha as [? ? ? ? oc ? Hb Hr Hv|? ? ? ? ? ? ? oc ? ? Hb Hr Hv]; subst;
    destruct (ValidateNewConfig_inv _ _ _ _ Hv Hb) as (oc' & c'' & orgs & Hr' & _ & _ & Hp); destruct (reads_unique _ _ _ _ _ Hr Hr') as [_ ->]; by apply validate_parties_bounded in Hp.
Qed.

(** One step of the parties, and several. *)
Definition follows (c c' : SharedConfig) (steps : nat) : Prop :=
  (sc_MaxPartyID c <= sc_MaxPartyID c' <= sc_MaxPartyID c + N.of_nat steps)%N /\ (forall k, k ∈ ids c' -> k ∈ ids c \/ (sc_MaxPartyID c < k)%N) /\
  forall k p p', party_map c !! k = Some p -> party_map c' !! k = Some p' -> length (pc_BatchersConfig p) = length (pc_BatchersConfig p') /\ shard_ids p ⊆ shard_ids p'.
Lemma follows_refl c : follows c c 0.
Proof. split; [lia|]. split; [auto|]. intros k p p' -> [= ->]. split; [done|set_solver]. Qed.
Lemma transition_follows now c c' : Forall is_Some (sc_PartiesConfig c) -> Forall is_Some (sc_PartiesConfig c') -> ids_bounded c ->
  membership_change now (party_map c) (party_map c') (sc_MaxPartyID c) (sc_MaxPartyID c') -> follows c c' 1.
Proof.
  intros Hf Hf' [Hb _] M. unfold follows, ids. rewrite <-(proj2 (party_map_facts _ Hf)), <-(proj2 (party_map_facts _ Hf')).
  assert (forall (p p' : PartyConfig), Some p = Some p' -> length (pc_BatchersConfig p) = length (pc_BatchersConfig p') /\ shard_ids p ⊆ shard_ids p') as Hsame by (intros p p' [= ->]; split; [done|set_solver]).
  destruct M as [-> ->|q Hno -> Hlt E1 E2 _|k0 _ -> ->|q q' Hq _ (Hl & _ & _ & Hs) -> -> _].
  - split; [lia|]. split; [auto|]. intros k p p' E E'. apply Hsame. congruence.
  - rewrite u32_small in E2 by (unfold u32_max; unfold u16_max in Hb; lia). split; [lia|]. split; [intros k; rewrite dom_insert_L; intros [->%elem_of_singleton|?]%elem_of_union; [right|left]; [lia|done]|].
    intros k p p' E. rewrite lookup_insert_Some. intros [[<- _]|[_ ?]]; [congruence|]. apply Hsame. congruence.
  - split; [lia|]. split; [intros k; rewrite dom_delete_L; set_solver|]. intros k p p' E [_ ?]%lookup_delete_Some. apply Hsame. congruence.
  - split; [lia|]. split.
    + intros k. rewrite dom_insert_L. intros [->%elem_of_singleton|?]%elem_of_union; left; [|done]. apply elem_of_dom. eauto.
    + intros k p p' E. rewrite lookup_insert_Some. intros [[<- <-]|[_ ?]]; [|apply Hsame; congruence]. assert (p = q) as -> by congruence. done.
Qed.
Lemma accepted_step b' c' b c hist : accepted ((b', c') :: (b, c) :: hist) ->
  accepted ((b, c) :: hist) /\ bu_ChannelID b = bu_ChannelID b' /\ Forall is_Some (sc_PartiesConfig c) /\ Forall is_Some (sc_PartiesConfig c') /\
  exists now, membership_change now (party_map c) (party_map c') (sc_MaxPartyID c) (sc_MaxPartyID c').
Proof.
  intros Ha. inversion Ha as [|now ? env ? ? ? ? oc' ? Hprev Hb Hr Hv Ht]; subst. split; [done|].
  assert (exists oc, reads b oc c) as [oc Hrc] by (inversion Hprev; subst; eauto).
  apply (ValidateTransition_Ok _ _ _ _ _ _ _ _ Hrc Hb Hr) in Ht as (? & ? & ? & ?). eauto.
Qed.
Lemma ids_of_map c k : Forall is_Some (sc_PartiesConfig c) -> k ∈ ids c <-> is_Some (party_map c !! k).
Proof. intros Hf. unfold ids. by rewrite <-(proj2 (party_map_facts _ Hf)), elem_of_dom. Qed.
Lemma follows_trans c c1 c' n : Forall is_Some (sc_PartiesConfig c) -> Forall is_Some (sc_PartiesConfig c1) -> Forall is_Some (sc_PartiesConfig c') -> ids_bounded c ->
  follows c c1 n -> follows c1 c' 1 -> follows c c' (S n).
Proof.
  intros Hf Hf1 Hf' [_ Hb] (H1 & H2 & H3) (G1 & G2 & G3). split; [lia|]. split; [intros k [Hk|?]%G2; [by apply H2|right; lia]|].
  intros k p p' Hp Hp'. destruct (party_map c1 !! k) as [q|] eqn:Eq.
  - destruct (H3 _ _ _ Hp Eq), (G3 _ _ _ Eq Hp'). split; [congruence|]. set_solver.
  - exfalso. assert (k ∈ ids c) as Hk%Hb by (apply ids_of_map; eauto). assert (k ∈ ids c') as [[q Eq']%ids_of_map|?]%G2 by (apply ids_of_map; eauto); [congruence|done|lia].
Qed.

Lemma accepted_follows hist : accepted hist -> forall i j b' c' b c, i <= j -> hist !! i = Some (b', c') -> hist !! j = Some (b, c) ->
  bu_ChannelID b = bu_ChannelID b' /\ ids_bounded c /\ (i < j -> Forall is_Some (sc_PartiesConfig c) /\ Forall is_Some (sc_PartiesConfig c')) /\ follows c c' (j - i).
Proof.
  induction hist as [|[b0 c0] hist IH]; [intros _ i j; by rewrite lookup_nil|]. intros Ha i j b' c' b c Hij Hi Hj. pose proof (accepted_head _ _ _ Ha) as Hbound.
  destruct j as [|j]; [assert (i = 0) as -> by lia; cbn in *; simplify_eq; split_and!; [done|done|lia|apply follows_refl]|].
  destruct hist as [|[b1 c1] hist]; [done|]. destruct (accepted_step _ _ _ _ _ Ha) as (Hprev & Hch & Hf1 & Hf0 & now & M). cbn in Hj.
  destruct i as [|i]; [|destruct (IH Hprev i j b' c' b c ltac:(lia) Hi Hj) as (? & ? & Hs & ?); split_and!; [done|done|intros ?; apply Hs; lia|done]]. cbn in Hi. simplify_eq.
  destruct (IH Hprev 0 j b1 c1 b c ltac:(lia) eq_refl Hj) as (E & Hb & Hs & F). split; [congruence|]. split; [done|].
  pose proof (transition_follows _ _ _ Hf1 Hf0 (accepted_head _ _ _ Hprev) M) as F1. assert (Forall is_Some (sc_PartiesConfig c)) as Hf.
  { destruct j as [|j]; [cbn in Hj; by simplify_eq|]. apply Hs. lia. }
  split; [done|]. rewrite Nat.sub_0_r in F |- *. apply (follows_trans _ c1); done.
Qed.

(** ** The block validation policy *)
Definition signed_by (i : nat) : option SignaturePolicy := Some (SignedBy (Z.of_nat i)).
Definition identity_principal (bs : bytes) : option MSPPrincipal := Some (mkMSPPrincipal MSPPrincipal_IDENTITY bs).

Lemma check_rules_Ok n seen rules : length seen = n ->
  is_ok (ofoldl (check_rule n) seen rules) = true <-> exists idxs, rules = signed_by <$> idxs /\ NoDup idxs /\ forall i, i ∈ idxs -> seen !! i = Some false.
Proof.
  revert seen. induction rules as [|rule rules IH]; intros seen Hlen; cbn [ofoldl].
  - split; [intros _; exists []; split_and!; [done|constructor|set_solver]|done].
  - split.
    + destruct rule as [[idx| |]|]; cbn; try done. unfold guard_err. destruct (_ || _) eqn:Eb; cbn; [done|]. apply orb_false_iff in Eb as [H1%Z.ltb_ge H2%Z.leb_gt].
      destruct (index seen (Z.to_nat idx)) as [s| |] eqn:Es; cbn; try done. destruct s; cbn; [done|]. apply index_Ok in Es. intros X.
      apply IH in X as (idxs & -> & Hnd & Hs); [|by rewrite length_insert]. exists (Z.to_nat idx :: idxs). split_and!; [cbn; unfold signed_by at 2; by rewrite Z2Nat.id by lia| |].
      * constructor; [|done]. intros Hin. specialize (Hs _ Hin). rewrite list_lookup_insert_eq in Hs by (apply lookup_lt_Some in Es; lia). done.
      * intros i [->|Hi]%elem_of_cons; [done|]. specialize (Hs _ Hi). destruct (decide (Z.to_nat idx = i)) as [<-|Hne]; [done|]. by rewrite list_lookup_insert_ne in Hs by done.
    + intros ([|i idxs] & E & Hnd & Hs); [done|]. cbn in E. injection E as -> ->. apply NoDup_cons in Hnd as [Hi Hnd]. assert (seen !! i = Some false) as Hsi by (apply Hs; set_solver).
      pose proof (lookup_lt_Some _ _ _ Hsi). assert (check_rule n seen (signed_by i) = Ok (<[i := true]> seen)) as ->.
      { unfold check_rule, signed_by. cbn [of_option mbind outcome_bind]. rewrite (proj2 (orb_false_iff _ _)) by (split; [apply Z.ltb_ge|apply Z.leb_gt]; lia).
        cbn [guard_err]. by rewrite Nat2Z.id, (proj2 (index_Ok _ _ _) Hsi). }
      cbn [mbind outcome_bind]. apply IH; [by rewrite length_insert|]. exists idxs. split_and!; [done|done|].
      intros j Hj. rewrite list_lookup_insert_ne by (intros ->; done). apply Hs. set_solver.
Qed.
Lemma full_indices (idxs : list nat) n : NoDup idxs -> (forall i, i ∈ idxs -> i < n) -> length idxs = n -> idxs ≡ₚ seq 0 n.
Proof.
  intros Hnd Hlt Hlen. apply submseteq_length_Permutation; [|rewrite length_seq; lia]. apply NoDup_submseteq; [done|]. intros i Hi%Hlt. apply elem_of_seq. lia.
Qed.
Lemma check_identities_Ok (expected : gset bytes) l rest :
  ofoldl check_identity expected l = Ok rest <-> exists bss, l = identity_principal <$> bss /\ NoDup bss /\ list_to_set bss ⊆ expected /\ rest = expected ∖ list_to_set bss.
Proof.
  revert expected. induction l as [|id l IH]; intros expected; cbn [ofoldl].
  - split; [intros [= <-]; exists []; split_and!; [done|constructor|set_solver|set_solver]|]. intros ([|] & ? & _ & _ & ->); [|done]. f_equal. set_solver.
  - split.
    + intros X. apply bind_Ok_inv in X as (e1 & X1 & X2). unfold check_identity in X1. destruct id as [[cl bs]|]; [|done]. cbn in X1. outcome_inv.
      apply negb_false_iff, Z.eqb_eq in Hguard. cbn in Hguard. subst cl. apply negb_false_iff, bool_decide_eq_true in Hguard0.
      apply IH in X2 as (bss & -> & Hnd & Hsub & ->). exists (bs :: bss). split_and!; [done|constructor; [set_solver|done]|set_solver|set_solver].
    + intros ([|bs bss] & E & Hnd & Hsub & ->); [done|]. cbn in E. injection E as -> ->. apply NoDup_cons in Hnd as [Hi Hnd]. assert (check_identity expected (identity_principal bs) = Ok (expected ∖ {[bs]})) as ->.
      { unfold check_identity, identity_principal. cbn [of_option mbind outcome_bind pr_Classification pr_Principal]. by rewrite Z.eqb_refl, bool_decide_true by set_solver. }
      cbn [mbind outcome_bind]. apply IH. exists bss. split_and!; [done|done|set_solver|set_solver].
Qed.

(** The quorum of a number of consenters, and its arithmetic. *)
Definition faults_of (n : nat) : Z := Z.quot (Z.of_nat n - 1) 3.
Definition quorum_of (n : nat) : Z := ComputeBFTQuorum (Z.of_nat n) (faults_of n).
Lemma faults_of_eq n : 0 < n -> faults_of n = ((Z.of_nat n - 1) / 3)%Z.
Proof. intros. unfold faults_of. rewrite Z.quot_div_nonneg by lia. done. Qed.
Lemma quorum_of_bounds n : 0 < n -> (0 <= faults_of n /\ 3 * faults_of n + 1 <= Z.of_nat n /\ Z.of_nat n + faults_of n < 2 * quorum_of n <= Z.of_nat n + faults_of n + 2 /\ quorum_of n <= Z.of_nat n - faults_of n)%Z.
Proof.
  intros Hn. unfold quorum_of, ComputeBFTQuorum. rewrite faults_of_eq by done. set (f := ((Z.of_nat n - 1) / 3)%Z).
  assert (3 * f <= Z.of_nat n - 1 < 3 * f + 3)%Z by (pose proof (Z.div_mod (Z.of_nat n - 1) 3); pose proof (Z.mod_pos_bound (Z.of_nat n - 1) 3); lia).
  pose proof (Z.div_mod (Z.of_nat n + f + 1 + 1) 2). pose proof (Z.mod_pos_bound (Z.of_nat n + f + 1 + 1) 2). lia.
Qed.
(** It is the quorum of the consensus. *)
Lemma quorum_of_ComputeFTQ n f t q : (0 < N.of_nat n <= u16_max)%N -> Quorum.ComputeFTQ (N.of_nat n) = (f, t, q) -> Z.of_N f = faults_of n /\ Z.of_N q = quorum_of n.
Proof.
  intros Hn E. destruct (Quorum.ComputeFTQ_eq _ _ _ _ Hn E) as (-> & _ & ->). unfold quorum_of, ComputeBFTQuorum. rewrite faults_of_eq by lia.
  rewrite !N2Z.inj_div, !N2Z.inj_add, N2Z.inj_div, N2Z.inj_sub, !nat_N_Z by lia. split; [done|]. f_equal. lia.
Qed.
Lemma i32_small z : (0 <= z < 2147483648)%Z -> i32 z = z.
Proof. intros. unfold i32. rewrite Z.mod_small; lia. Qed.

(** A policy is accepted exactly if it asks for a quorum of the consenters, has one rule for each, and names exactly their identities. *)
Definition quorum_envelope (cs : list (option Consenter)) (env : SignaturePolicyEnvelope) : Prop :=
  exists rules bss, env = mkSPE (Some (NOutOf (i32 (quorum_of (length cs))) rules)) (identity_principal <$> bss) /\ rules ≡ₚ signed_by <$> seq 0 (length cs) /\
    NoDup bss /\ (list_to_set bss : gset bytes) = list_to_set (consenter_identity <$> omap id cs).
Lemma validateBlockValidationPolicy_Ok policy cs : validateBlockValidationPolicy policy cs = Ok tt <->
  Forall is_Some cs /\ exists value env, policy = Some (mkConfigPolicy (Some (mkPolicy Policy_SIGNATURE value))) /\ (dec value : option SignaturePolicyEnvelope) = Some env /\ quorum_envelope cs env.
Proof.
  unfold validateBlockValidationPolicy. split.
  - intros X. destruct policy as [[[[t value]|]]|]; cbn -[ofoldl omapM] in X; try done. apply guard_err_Ok in X as [G%negb_false_iff%Z.eqb_eq X]. subst t.
    apply bind_Ok_inv in X as ([rule idents] & Ee%wrap_err_Ok%of_option_Ok & X). cbn [spe_Rule spe_Identities] in X. apply bind_Ok_inv in X as ([q rules] & Eg%of_option_Ok & X). cbn [fst snd] in X.
    apply guard_err_Ok in X as [Gq%negb_false_iff%Z.eqb_eq X]. apply guard_err_Ok in X as [Gl%bool_decide_eq_false X]. apply dec_stable in Gl.
    apply bind_Ok_inv in X as (seen & Es & X). apply bind_Ok_inv in X as (bss0 & [Hf ->]%omapM_some & X). apply bind_Ok_inv in X as (rest & (bss & -> & Hnd & Hsub & ->)%check_identities_Ok & X).
    apply guard_err_Ok in X as [Gr%negb_false_iff%bool_decide_eq_true _]. split; [done|]. exists value, (mkSPE rule (identity_principal <$> bss)). split_and!; [done|done|].
    destruct (proj1 (check_rules_Ok (length cs) (replicate (length cs) false) rules ltac:(by rewrite length_replicate))) as (idxs & -> & Hni & Hi); [by rewrite Es|].
    exists (signed_by <$> idxs), bss. split_and!; [|apply fmap_Permutation, full_indices; [done| |by rewrite length_fmap in Gl]|done|].
    + destruct rule as [[]|]; try done. cbn in Eg. by simplify_eq.
    + intros i Hin. apply Hi, lookup_replicate_1 in Hin as [_ ?]. done.
    + apply (anti_symm (⊆)); [done|]. by apply empty_difference_subseteq_L.
  - intros (Hf & value & env & -> & Ee & rules & bss & -> & Hperm & Hnd & Hset). cbn [of_option mbind outcome_bind cp_Policy po_Type po_Value]. rewrite Z.eqb_refl. cbn [negb guard_err]. unfold unmarshal. rewrite Ee.
    cbn [wrap_err of_option mbind outcome_bind spe_Rule GetNOutOf fst snd spe_Identities]. fold (faults_of (length cs)) (quorum_of (length cs)). rewrite Z.eqb_refl. cbn [negb guard_err].
    rewrite bool_decide_false by (rewrite Hperm, length_fmap, length_seq; auto). cbn [guard_err].
    apply Permutation_map_inv in Hperm as (idxs & -> & Hp). change (map signed_by idxs) with (signed_by <$> idxs).
    destruct (ofoldl (check_rule (length cs)) (replicate (length cs) false) (signed_by <$> idxs)) eqn:Es;
      [|exfalso; enough (is_ok (ofoldl (check_rule (length cs)) (replicate (length cs) false) (signed_by <$> idxs)) = true) as X by (by rewrite Es in X)..].
    { cbn [mbind outcome_bind]. rewrite (proj2 (omapM_some consenter_identity _ cs _)) by done. cbn [mbind outcome_bind]. erewrite (proj2 (check_identities_Ok _ _ _)); [|exists bss; split_and!; [done|done|by rewrite Hset|done]].
      cbn [mbind outcome_bind]. rewrite bool_decide_true by (rewrite Hset; apply difference_diag_L). done. }
    all: apply check_rules_Ok; [by rewrite length_replicate|]; exists idxs; split_and!; [done|rewrite <-Hp; apply NoDup_seq|].
    all: intros i; rewrite <-Hp; intros Hi%elem_of_seq; apply lookup_replicate_2; lia.
Qed.

(** *** What satisfies the policy *)
Lemma use_first_Some bs signers used used' : NoDup signers ->
  use_first (identity_principal bs) signers used = Some used' <->
  exists j, signers !! j = Some bs /\ used !! j = Some false /\ SatisfiesPrincipal bs (identity_principal bs) = true /\ used' = <[j := true]> used.
Proof.
  revert used used'. induction signers as [|sd signers IH]; intros used used' Hnd; [split; [done|by intros (? & ? & _)]|].
  apply NoDup_cons in Hnd as [Hsd Hnd]. destruct used as [|u used]; [split; [done|by intros (? & _ & ? & _)]|]. cbn [use_first]. destruct (negb u && SatisfiesPrincipal sd (identity_principal bs)) eqn:Eu.
  - apply andb_true_iff in Eu as [Hu%negb_true_iff Hsat]. pose proof (SatisfiesPrincipal_identity _ _ Hsat). subst sd u. split; [intros [= <-]; by exists 0|].
    intros ([|j] & Hj & Hu & _ & ->); [done|]. cbn in Hj. exfalso. apply Hsd. by eapply list_elem_of_lookup_2.
  - rewrite fmap_Some. split.
    + intros (u' & (j & ? & ? & ? & ->)%IH & ->); [|done]. by exists (S j).
    + intros ([|j] & Hj & Hu & Hs & ->); cbn in Hj, Hu; [simplify_eq; by rewrite Hs in Eu|]. exists (<[j := true]> used). split; [|done]. apply IH; [done|]. by exists j.
Qed.

Section Counting.
Context (bss signers : list bytes).
Definition counted (bs : bytes) : Prop := bs ∈ signers /\ SatisfiesPrincipal bs (identity_principal bs) = true.
Definition counted_at (i : nat) : Prop := from_option counted False (bss !! i).
#[local] Instance counted_dec bs : base.Decision (counted bs).
Proof. unfold counted. apply _. Defined.
#[local] Instance counted_at_dec i : base.Decision (counted_at i).
Proof. unfold counted_at. destruct (bss !! i); cbn; apply _. Defined.

(** The loop over rules that name indices. *)
Fixpoint count_rules (idxs : list nat) (verified : Z) (used : list bool) : Z * list bool :=
  match idxs with
  | [] => (verified, used)
  | i :: idxs' =>
      match use_first (mjoin ((identity_principal <$> bss) !! i)) signers used with
      | Some used => count_rules idxs' (verified + 1)%Z used
      | None => count_rules idxs' verified used
      end
  end.
Lemma evaluate_indices n idxs used : evaluate (identity_principal <$> bss) signers (NOutOf n (signed_by <$> idxs)) used =
  ((n <=? (count_rules idxs 0 used).1)%Z, (count_rules idxs 0 used).2).
Proof.
  cbn [evaluate]. match goal with |- context [?g (signed_by <$> idxs) 0%Z used] => set (go := g) end.
  assert (forall v u, go (signed_by <$> idxs) v u = count_rules idxs v u) as ->; [|by destruct (count_rules idxs 0 used)].
  induction idxs as [|i idxs IH]; intros v u; [done|]. cbn [fmap list_fmap count_rules]. unfold go at 1. cbn -[use_first]. fold go. rewrite Nat2Z.id.
  destruct (use_first _ _ _); apply IH.
Qed.
Lemma count_rules_eq idxs v used : NoDup bss -> NoDup signers -> NoDup idxs -> (forall i, i ∈ idxs -> i < length bss) ->
  (forall i bs j, i ∈ idxs -> bss !! i = Some bs -> signers !! j = Some bs -> used !! j = Some false) ->
  ((count_rules idxs v used).1 = v + Z.of_nat (length (filter counted_at idxs)))%Z.
Proof.
  intros Hb Hs. revert v used. induction idxs as [|i idxs IH]; intros v used Hnd Hlt Hfree; [cbn; lia|]. apply NoDup_cons in Hnd as [Hi Hnd]. cbn [count_rules]. rewrite filter_cons, list_lookup_fmap.
  destruct (lookup_lt_is_Some_2 bss i) as [bs Eb]; [apply Hlt; set_solver|]. rewrite Eb. cbn [fmap option_fmap option_map mjoin option_join].
  destruct (use_first (identity_principal bs) signers used) as [used'|] eqn:Eu.
  - apply use_first_Some in Eu as (j & Hj & Hu & Hsat & ->); [|done]. rewrite decide_True by (unfold counted_at; rewrite Eb; split; [by eapply list_elem_of_lookup_2|done]).
    rewrite IH; [cbn; lia|done|intros; apply Hlt; set_solver|]. intros i' bs' j' Hi' Eb' Hj'. rewrite list_lookup_insert_ne; [apply (Hfree i' bs'); [by right|done|done]|].
    intros ->. assert (bs = bs') as -> by congruence. apply Hi. by rewrite (NoDup_lookup _ _ _ _ Hb Eb Eb').
  - rewrite decide_False; [apply IH; [done|intros; apply Hlt; set_solver|]; intros i' bs' j' ?; apply Hfree; by right|]. unfold counted_at. rewrite Eb. intros [[j Hj]%list_elem_of_lookup Hsat].
    assert (is_Some (use_first (identity_principal bs) signers used)) as [? ?]; [|congruence]. eexists. apply use_first_Some; [done|].
    exists j. split_and!; [done|apply (Hfree i bs j); [by left|done|done]|done|done].
Qed.
Lemma count_indices : length (filter counted_at (seq 0 (length bss))) = length (filter counted bss).
Proof.
  enough (forall l k, bss = k ++ l -> length (filter counted_at (seq (length k) (length l))) = length (filter counted l)) as X by by apply (X bss []).
  induction l as [|bs l IH]; intros k E; [done|]. cbn [length seq]. rewrite !filter_cons. assert (counted_at (length k) <-> counted bs) as Hc by (unfold counted_at; by rewrite E, list_lookup_middle).
  assert (length (filter counted_at (seq (S (length k)) (length l))) = length (filter counted l)) as E'.
  { replace (S (length k)) with (length (k ++ [bs])) by (rewrite length_app; cbn; lia). apply IH. by rewrite E, <-app_assoc. }
  destruct (decide (counted_at (length k))), (decide (counted bs)); cbn; tauto || congruence.
Qed.
Lemma evaluate_quorum n rules : NoDup bss -> NoDup signers -> rules ≡ₚ signed_by <$> seq 0 (length bss) ->
  EvaluateIdentities (mkSPE (Some (NOutOf n rules)) (identity_principal <$> bss)) signers = true <-> (n <= Z.of_nat (length (filter counted bss)))%Z.
Proof.
  intros Hb Hs Hr. apply Permutation_map_inv in Hr as (idxs & -> & Hp). change (map signed_by idxs) with (signed_by <$> idxs). unfold EvaluateIdentities. cbn [spe_Rule spe_Identities].
  rewrite evaluate_indices. cbn [fst]. rewrite count_rules_eq, <-Hp, count_indices; [|done|done|rewrite <-Hp; apply NoDup_seq|intros i; rewrite <-Hp; intros ?%elem_of_seq; lia|].
  - cbn. rewrite Z.leb_le. lia.
  - intros i bs j _ _ Hj. apply lookup_replicate_2. by apply lookup_lt_Some in Hj.
Qed.
End Counting.

Lemma compile_indices identities n rules : compile identities (NOutOf n rules) = Ok tt -> forall i, signed_by i ∈ rules -> i < length identities.
Proof.
  cbn [compile]. induction rules as [|rule rules IH]; intros X i Hi; [set_solver|]. destruct rule as [rule|]; [|done]. apply bind_Ok_inv in X as ([] & X1 & X2).
  apply elem_of_cons in Hi as [[= <-]|Hi]; [|by apply IH]. cbn in X1. apply guard_err_Ok in X1 as [G _]. apply orb_false_iff in G as [_ G%Z.leb_gt]. lia.
Qed.
(** If the policy compiles, which a bundle requires, the consenters have distinct identities. *)
Lemma quorum_envelope_distinct cs env rule : Forall is_Some cs -> quorum_envelope cs env -> spe_Rule env = Some rule -> compile (spe_Identities env) rule = Ok tt ->
  exists rules bss, env = mkSPE (Some (NOutOf (i32 (quorum_of (length cs))) rules)) (identity_principal <$> bss) /\ rules ≡ₚ signed_by <$> seq 0 (length bss) /\ NoDup bss /\ bss ≡ₚ consenter_identity <$> omap id cs.
Proof.
  intros Hf (rules & bss & -> & Hp & Hnd & Hset) [= <-] Hc. cbn [spe_Identities] in Hc. exists rules, bss.
  assert (length (consenter_identity <$> omap id cs) = length cs) as Hlen.
  { rewrite length_fmap. clear -Hf. induction Hf as [|? l [c ->] _ IH]; cbn; [done|by rewrite IH]. }
  assert (length cs <= length bss) as Hle.
  { destruct (length cs) as [|m] eqn:E; [lia|]. assert (m < length (identity_principal <$> bss)) as Hm; [|rewrite length_fmap in Hm; lia].
    apply (compile_indices _ _ _ Hc). rewrite Hp. apply list_elem_of_fmap. exists m. split; [done|]. apply elem_of_seq. lia. }
  assert (bss ≡ₚ consenter_identity <$> omap id cs) as Hperm.
  { apply submseteq_length_Permutation; [|lia]. apply NoDup_submseteq; [done|]. intros bs Hbs. apply (elem_of_list_to_set (C := gset bytes)). rewrite <-Hset. by apply elem_of_list_to_set. }
  split_and!; [done| |done|done]. rewrite Hp, <-Hlen, (Permutation_length Hperm). done.
Qed.
Lemma encode_accepted cs policy : (Z.of_nat (length cs) < 1073741824)%Z -> NoDup (consenter_identity <$> cs) -> EncodeBFTBlockVerificationPolicy cs = Ok policy ->
  validateBlockValidationPolicy (Some policy) (Some <$> cs) = Ok tt.
Proof.
  intros Hlt Hnd X. apply bind_Ok_inv in X as (value & Ev%marshal_or_panic_Ok%dec_enc & [= <-]). apply validateBlockValidationPolicy_Ok. split; [apply Forall_fmap, Forall_true; by eexists|]. eexists _, _. split; [done|]. split; [exact Ev|].
  eexists _, (consenter_identity <$> cs). rewrite length_fmap. split_and!.
  - f_equal. by rewrite <-list_fmap_compose.
  - apply reflexive_eq, fmap_ext_elem. intros i Hi%elem_of_seq. unfold signed_by. by rewrite i32_small by lia.
  - done.
  - assert (omap id (Some <$> cs) = cs) as ->; [|done]. clear. induction cs as [|c cs IH]; cbn; [done|by rewrite IH].
Qed.

(** ** Quorums of consecutive configurations *)
Lemma validateConsenterConsistency_Ok cs parties : validateConsenterConsistency cs parties = Ok tt ->
  length cs = length parties /\ Forall is_Some parties /\
  forall c, c ∈ cs -> exists consenter, c = Some consenter /\ exists m party node, parties_by_id "party config is nil in shared config" parties = Ok m /\ m !! cn_Id consenter = Some party /\ pc_ConsenterConfig party = Some node /\
    cn_Host consenter = nc_Host node /\ cn_Port consenter = nc_Port node /\ cn_Identity consenter = nc_SignCert node.
Proof.
  unfold validateConsenterConsistency. intros X. apply guard_err_Ok in X as [Gl%bool_decide_eq_false%dec_stable X]. apply bind_Ok_inv in X as (m & Em & X). rewrite each_Ok, Forall_forall in X.
  split; [done|]. split; [by apply parties_by_id_Ok in Em as (_ & _ & ? & _)|]. intros c Hc. specialize (X c Hc). unfold check_consenter in X. apply bind_Ok_inv in X as (consenter & E%of_option_Ok & X).
  exists consenter. split; [done|]. apply bind_Ok_inv in X as (party & Ep%of_option_Ok & X). apply bind_Ok_inv in X as (node & En%of_option_Ok & X). outcome_inv. exists m, party, node.
  repeat match goal with Hb : bool_decide _ = false |- _ => apply bool_decide_eq_false, dec_stable in Hb | Hb : negb _ = false |- _ => apply negb_false_iff, N.eqb_eq in Hb end. done.
Qed.
Lemma size_party_ids parties : size (party_ids parties) <= length parties.
Proof.
  unfold party_ids. induction parties as [|[p|] l IH]; cbn; [by rewrite size_empty| |lia]. rewrite size_union_alt, size_singleton.
  match goal with |- context [size (?X ∖ ?Y)] => assert (size (X ∖ Y) <= size X) by (apply subseteq_size; set_solver) end. lia.
Qed.
Lemma consenter_ids_eq cs parties : validateConsenterConsistency cs parties = Ok tt -> NoDup (cn_Id <$> omap id cs) ->
  party_ids parties = list_to_set (cn_Id <$> omap id cs) /\ size (party_ids parties) = length cs.
Proof.
  intros (Hlen & Hf & Hc)%validateConsenterConsistency_Ok Hnd. assert (list_to_set (cn_Id <$> omap id cs) ⊆ party_ids parties) as Hsub.
  { intros k. rewrite elem_of_list_to_set, list_elem_of_fmap. intros (c & -> & (? & Hin & E)%list_elem_of_omap). cbn in E. subst. destruct (Hc _ Hin) as (c' & [= <-] & m & party & node & Em & Ep & _).
    apply parties_by_id_Ok in Em as (_ & <- & _). by apply elem_of_dom_2 in Ep. }
  assert (size (list_to_set (cn_Id <$> omap id cs) : gset N) = length cs) as Hs.
  { rewrite size_list_to_set by done. rewrite length_fmap. clear -Hc. induction cs as [|c cs IH]; [done|]. destruct (Hc c) as (c' & -> & _); [set_solver|]. cbn. rewrite IH; [done|]. intros. apply Hc. set_solver. }
  pose proof (size_party_ids parties). split; [|apply subseteq_size in Hsub; lia]. symmetry. apply set_subseteq_size_eq; [done|lia].
Qed.

Lemma membership_ids now c c' : Forall is_Some (sc_PartiesConfig c) -> Forall is_Some (sc_PartiesConfig c') ->
  membership_change now (party_map c) (party_map c') (sc_MaxPartyID c) (sc_MaxPartyID c') -> exists k, ids c' ⊆ ids c ∪ {[k]} /\ ids c ⊆ ids c' ∪ {[k]} /\ (ids c ⊆ ids c' \/ ids c' ⊆ ids c).
Proof.
  intros Hf Hf' M. unfold ids. rewrite <-(proj2 (party_map_facts _ Hf)), <-(proj2 (party_map_facts _ Hf')).
  destruct M as [-> _|q _ -> _ _ _ _|k _ -> _|p q Hp _ _ -> _ _].
  - exists 0%N. set_solver.
  - exists (pc_PartyID q). rewrite dom_insert_L. set_solver.
  - exists k. rewrite dom_delete_L. split_and!; [set_solver| |set_solver]. intros x Hx. destruct (decide (x = k)); set_solver.
  - exists (pc_PartyID q). rewrite dom_insert_L. set_solver.
Qed.
Lemma quorums_meet n n' : (n <= n' <= n + 1 -> (quorum_of n <= Z.of_nat n)%Z -> (Z.min (faults_of n) (faults_of n') < quorum_of n + quorum_of n' - Z.of_nat n')%Z).
Proof.
  intros Hn Hq. assert (0 < n) as Hpos by (destruct n; [vm_compute in Hq; done|lia]). destruct (quorum_of_bounds n Hpos) as (? & ? & ? & ?), (quorum_of_bounds n' ltac:(lia)) as (? & ? & ? & ?). lia.
Qed.
Lemma quorum_intersection (A B Q Q' : gset N) k : B ⊆ A ∪ {[k]} -> A ⊆ B -> Q ⊆ A -> Q' ⊆ B -> (quorum_of (size A) <= Z.of_nat (size Q))%Z -> (quorum_of (size B) <= Z.of_nat (size Q'))%Z ->
  (Z.min (faults_of (size A)) (faults_of (size B)) < Z.of_nat (size (Q ∩ Q')))%Z.
Proof.
  intros HB HA HQ HQ' Hq Hq'. assert (size A <= size B) by by apply subseteq_size. assert (size B <= size A + 1).
  { apply subseteq_size in HB. rewrite size_union_alt in HB. assert (size ({[k]} ∖ A) <= size ({[k]} : gset N)) as Hk by (apply subseteq_size; set_solver). rewrite size_singleton in Hk. lia. }
  assert (size Q <= size A) by by apply subseteq_size. pose proof (quorums_meet (size A) (size B) ltac:(lia) ltac:(lia)).
  assert (size (Q ∪ Q') <= size B) by (apply subseteq_size; set_solver). pose proof (size_union_alt Q Q') as Hu. pose proof (size_difference_alt Q' Q) as Hd.
  assert (Q' ∩ Q = Q ∩ Q') as E by set_solver. rewrite E in Hd. assert (size (Q ∩ Q') <= size Q') by (apply subseteq_size; set_solver). lia.
Qed.

(** ** Signing keys *)
Definition node_key (sc : NodeIdentity * bytes) : outcome bytes := cert ← parseCertificateFromBytes sc.2; Ok (ct_RawSubjectPublicKeyInfo cert).
Lemma add_owners owners l owners' : ofoldl add_owner owners l = Ok owners' ->
  exists keys, omapM node_key l = Ok keys /\ NoDup keys /\ (forall key, key ∈ keys -> owners !! key = None) /\ dom owners' = dom owners ∪ list_to_set keys.
Proof.
  revert owners. induction l as [|sc l IH]; intros owners; cbn [ofoldl].
  - intros [= <-]. exists []. split_and!; [done|constructor|set_solver|set_solver].
  - intros X. apply bind_Ok_inv in X as (o1 & X1 & X2). unfold add_owner in X1. apply bind_Ok_inv in X1 as (cert & Ec%wrap_err_Ok & X1).
    destruct (owners !! ct_RawSubjectPublicKeyInfo cert) eqn:Eo; [done|]. injection X1 as <-. apply IH in X2 as (keys & Ek & Hnd & Hfree & Hdom).
    exists (ct_RawSubjectPublicKeyInfo cert :: keys). split_and!.
    + cbn [omapM]. assert (node_key sc = Ok (ct_RawSubjectPublicKeyInfo cert)) as -> by (unfold node_key; by rewrite Ec). cbn [mbind outcome_bind]. by rewrite Ek.
    + constructor; [|done]. intros Hin%Hfree. by rewrite lookup_insert_eq in Hin.
    + intros key [->|Hk]%elem_of_cons; [done|]. by apply Hfree, lookup_insert_None in Hk as [? _].
    + rewrite Hdom, dom_insert_L. set_solver.
Qed.
Lemma omapM_app_Ok {A B} (f : A -> outcome B) l l' r r' : omapM f l = Ok r -> omapM f l' = Ok r' -> omapM f (l ++ l') = Ok (r ++ r').
Proof.
  revert r. induction l as [|x l IH]; intros r; cbn; [by intros [= <-]|]. intros X Hl'. apply bind_Ok_inv in X as (y & -> & X). apply bind_Ok_inv in X as (ys & E & [= <-]). cbn. by rewrite (IH _ E Hl').
Qed.
Lemma validateUniqueSigningCerts_Ok parties : validateUniqueSigningCerts parties = Ok tt ->
  exists keys, omapM node_key (concat (signCerts <$> omap id parties)) = Ok keys /\ NoDup keys.
Proof.
  unfold validateUniqueSigningCerts. intros X. apply bind_Ok_inv in X as (owners & X & _).
  enough (exists keys, omapM node_key (concat (signCerts <$> omap id parties)) = Ok keys /\ NoDup keys /\ dom owners = list_to_set keys) as (keys & ? & ? & _) by eauto.
  revert X. apply (ofoldl_inv _ (fun l owners => exists keys, omapM node_key (concat (signCerts <$> omap id l)) = Ok keys /\ NoDup keys /\ dom owners = list_to_set keys)).
  - exists []. split_and!; [done|constructor|set_solver].
  - intros l [party|] o1 o2 (keys & Ek & Hnd & Hdom) _; cbn [of_option mbind outcome_bind]; [|done]. intros (keys' & Ek' & Hnd' & Hfree & Hdom')%add_owners. exists (keys ++ keys').
    rewrite omap_app, fmap_app, concat_app. cbn. rewrite app_nil_r. split_and!; [by apply omapM_app_Ok|apply NoDup_app; split_and!; [done| |done]|by rewrite Hdom', Hdom, list_to_set_app_L].
    intros key Hin Hin'%Hfree. apply not_elem_of_dom in Hin'. apply Hin'. rewrite Hdom. by apply elem_of_list_to_set.
Qed.

Lemma membership_inv b oc c orgs : validate_membership b oc c = Ok orgs -> validateConsenterConsistency (oc_Consenters oc) (sc_PartiesConfig c) = Ok tt /\
  exists policies, bu_OrdererPolicies b = Some policies /\ validateBlockValidationPolicy (mjoin (policies !! BlockValidationPolicyKey)) (oc_Consenters oc) = Ok tt.
Proof.
  unfold validate_membership. intros X. apply bind_Ok_inv in X as (? & _ & X). apply bind_Ok_inv in X as ([] & E1%wrap_err_Ok & X). apply bind_Ok_inv in X as (om & _ & X). apply bind_Ok_inv in X as (pm & _ & X).
  apply bind_Ok_inv in X as (? & _ & X). apply bind_Ok_inv in X as (policies & E2 & X). apply bind_Ok_inv in X as ([] & E3%wrap_err_Ok & _). split; [done|]. exists policies. split; [by destruct (bu_OrdererPolicies b); simplify_eq/=|done].
Qed.
Lemma accepted_consistent b c hist oc : accepted ((b, c) :: hist) -> reads b oc c -> validateConsenterConsistency (oc_Consenters oc) (sc_PartiesConfig c) = Ok tt.
Proof.
  intros Ha Hr0. inversion Ha as [? ? ? ? oc1 ? Hb Hr Hv|? ? ? ? ? ? ? oc1 ? ? Hb Hr Hv]; subst;
    destruct (ValidateNewConfig_inv _ _ _ _ Hv Hb) as (oc' & c'' & orgs & Hr' & _ & Hm & _); destruct (reads_unique _ _ _ _ _ Hr0 Hr') as [-> ->]; by apply membership_inv in Hm as [? _].
Qed.
Lemma validateSmartBFTConfig_inv id cfg : validateSmartBFTConfig id (Some cfg) = Ok tt -> id <> 0%N /\ (sb_RequestMaxBytes cfg <= sb_RequestBatchMaxBytes cfg)%N /\ (sb_LeaderRotation cfg = true <-> sb_DecisionsPerLeader cfg <> 0%N).
Proof.
  unfold validateSmartBFTConfig. cbn [of_option mbind outcome_bind]. intros X. repeat (apply bind_Ok_inv in X as (? & _ & X)). unfold Validate in X. cbn in X. repeat (apply guard_err_Ok in X as [?G X]).
  apply N.eqb_neq in G. apply N.ltb_ge in G15. split; [done|]. split; [done|]. destruct (sb_LeaderRotation cfg); cbn in *; [apply N.eqb_neq in G19; by split|apply negb_false_iff, N.eqb_eq in G20; by split].
Qed.
Lemma parameters_inv oc c partyID : validate_parameters oc c partyID = Ok tt -> exists batching size bft, sc_BatchingConfig c = Some batching /\ bg_BatchSize batching = Some size /\
  (sc_ConsensusConfig c ≫= cs_SmartBFTConfig) = Some bft /\ bs_AbsoluteMaxBytes size = oc_AbsoluteMaxBytes oc /\
  (0 < bg_RequestMaxBytes batching <= sb_RequestMaxBytes bft)%N /\ (sb_RequestMaxBytes bft <= sb_RequestBatchMaxBytes bft)%N /\ partyID <> 0%N.
Proof.
  unfold validate_parameters. intros X. apply bind_Ok_inv in X as (batching & E1%of_option_Ok & X). apply bind_Ok_inv in X as (consensus & E2%of_option_Ok & X). apply bind_Ok_inv in X as (? & _ & X).
  apply bind_Ok_inv in X as (size & E3 & X). apply guard_err_Ok in X as [G1%negb_false_iff%N.eqb_eq X]. apply guard_err_Ok in X as [G2%N.eqb_neq X]. apply bind_Ok_inv in X as (bft & E4%of_option_Ok & X).
  apply guard_err_Ok in X as [G3%N.ltb_ge X]. apply wrap_err_Ok, validateSmartBFTConfig_inv in X as (H1 & H2 & _). exists batching, size, bft. rewrite E2. split_and!; [done|by destruct (bg_BatchSize batching); simplify_eq/=|done..|lia|done|done|done].
Qed.
End Transitions.

(** ** The theorems *)
Section Claims.
Context `{ConfigLibrary} {R : MapRange}.

(** C36: Between two configurations of which neither lists a party twice and the current one lists no shard twice in a party, a transition is accepted exactly if the channel stays the same, no party is nil, and
    the parties stay the same, or one is added whose identifier is the highest one plus one, or one is removed, or one is replaced by another entry of the same identifier with its batchers in the same shards, up to
    the order of the lists; the highest identifier moves to that of the added party and otherwise stays, and the certificates of an added or modified party are valid now. *)
Theorem transition_exact now cb coc curr env nb noc next : reads cb coc curr -> NewBundleFromEnvelope env = Ok nb -> reads nb noc next ->
  NoDup (pc_PartyID <$> parties curr) -> NoDup (pc_PartyID <$> parties next) -> Forall (fun p => NoDup (shard_ids p)) (parties curr) ->
  ValidateTransition now cb env = Ok tt <->
  bu_ChannelID cb = bu_ChannelID nb /\ Forall is_Some (sc_PartiesConfig curr) /\ Forall is_Some (sc_PartiesConfig next) /\
  parties_change now (parties curr) (parties next) (sc_MaxPartyID curr) (sc_MaxPartyID next).
Proof. intros Rc En Rn Hc Hn Hs. rewrite (ValidateTransition_Ok now cb coc curr env nb noc next), !party_map_by_id, change_of_lists by done. done. Qed.

(** C35: Over any sequence of accepted configurations the channel stays the same, the highest identifier of a party never falls and grows by at most one per configuration, every party has an identifier from one to the highest one that is either
    that of a party before or higher than all identifiers that were ever used before; so a party that was removed never comes back. A party that stays, by its last entry in each configuration, keeps the number of its batchers and
    lists all shards that it had. *)
Theorem party_ids_never_reused hist i k j b2 c2 b1 c1 b0 c0 : accepted hist -> i <= k <= j -> hist !! i = Some (b2, c2) -> hist !! k = Some (b1, c1) -> hist !! j = Some (b0, c0) ->
  bu_ChannelID b0 = bu_ChannelID b2 /\
  (sc_MaxPartyID c0 <= sc_MaxPartyID c2 <= sc_MaxPartyID c0 + N.of_nat (j - i))%N /\
  (forall p, p ∈ ids c2 -> (1 <= p <= sc_MaxPartyID c2)%N /\ (p <= u16_max)%N /\ (p ∈ ids c0 \/ (sc_MaxPartyID c0 < p)%N)) /\
  (forall p, p ∈ ids c0 -> p ∉ ids c1 -> p ∉ ids c2) /\
  (forall p party party', party_map c0 !! p = Some party -> party_map c2 !! p = Some party' ->
     length (pc_BatchersConfig party) = length (pc_BatchersConfig party') /\ shard_ids party ⊆ shard_ids party').
Proof.
  intros Ha [Hik Hkj] Hi Hk Hj. destruct (accepted_follows _ Ha i j _ _ _ _ ltac:(lia) Hi Hj) as (Hch & [_ Hb0] & _ & Hmax & Hids & Hshards).
  destruct (accepted_follows _ Ha i i _ _ _ _ ltac:(lia) Hi Hi) as (_ & [Hu Hb2] & _). destruct (accepted_follows _ Ha i k _ _ _ _ Hik Hi Hk) as (_ & _ & _ & _ & Hids1 & _).
  destruct (accepted_follows _ Ha k j _ _ _ _ Hkj Hk Hj) as (_ & _ & _ & Hmax1 & _). split_and!; [done|lia|lia| | |done].
  - intros p Hp. pose proof (Hb2 p Hp). split_and!; [lia|lia|lia|by apply Hids].
  - intros p H0%Hb0 H1 [?|?]%Hids1; [done|lia].
Qed.

(** C37: The block validation policy of a configuration that the rules accept, and that compiles, as bundles require, is satisfied by a set of valid signatures exactly if it contains those of a quorum of the consenters, which have
    distinct identities: as many as the consensus itself takes for a quorum. The policy that Fabric encodes for the consenters is accepted, if their identities are distinct. *)
Theorem block_policy_quorum policy cs value env rule : 0 < length cs -> (Z.of_nat (length cs) < 1073741824)%Z -> validateBlockValidationPolicy policy cs = Ok tt ->
  (cp_Policy <$> policy) = Some (Some (mkPolicy Policy_SIGNATURE value)) -> (dec value : option SignaturePolicyEnvelope) = Some env -> spe_Rule env = Some rule -> compile (spe_Identities env) rule = Ok tt ->
  let identities := consenter_identity <$> omap id cs in
  NoDup identities /\ length identities = length cs /\
  (forall signers, NoDup signers -> EvaluateIdentities env signers = true <->
     (quorum_of (length cs) <= Z.of_nat (length (filter (fun bs => bs ∈ signers /\ SatisfiesPrincipal bs (identity_principal bs) = true) identities)))%Z) /\
  ((Z.of_nat (length cs) <= 65535)%Z -> exists f t q, Quorum.ComputeFTQ (N.of_nat (length cs)) = (f, t, q) /\ Z.of_N q = quorum_of (length cs)) /\
  forall encoded, EncodeBFTBlockVerificationPolicy (omap id cs) = Ok encoded -> validateBlockValidationPolicy (Some encoded) cs = Ok tt.
Proof.
  intros Hpos Hlt (Hf & value' & env' & -> & Eu & Hq)%validateBlockValidationPolicy_Ok [= <-] Ee Er Hc. assert (env' = env) as -> by congruence.
  destruct (quorum_envelope_distinct _ _ _ Hf Hq Er Hc) as (rules & bss & Eenv & Hrules & Hnd & Hperm). cbn zeta. assert (Some <$> omap id cs = cs) as Hcs.
  { clear -Hf. induction Hf as [|? l [c ->] _ IH]; cbn; [done|by rewrite IH]. }
  assert (length (omap id cs) = length cs) as Hl by (rewrite <-Hcs at 2; by rewrite length_fmap). split_and!.
  - by rewrite <-Hperm.
  - by rewrite length_fmap.
  - intros signers Hs. rewrite Eenv, evaluate_quorum by done. destruct (quorum_of_bounds _ Hpos) as (? & ? & ? & ?). rewrite i32_small by lia.

    rewrite <-Hperm. done.
  - intros Hle. destruct (Quorum.ComputeFTQ (N.of_nat (length cs))) as [[f t] q] eqn:E. exists f, t, q. split; [done|]. destruct (quorum_of_ComputeFTQ (length cs) f t q) as [_ ?]; [unfold u16_max; lia|done|done].
  - intros encoded Henc. pose proof (encode_accepted (omap id cs) encoded) as X. rewrite Hcs in X. apply X; [lia|by rewrite <-Hperm|done].
Qed.

(** C38: If a configuration replaces another one by an accepted transition, and the consenters of each have distinct identifiers, then a quorum of the one and a quorum of the other share a party that is not faulty, as long as
    no more parties are faulty than either configuration tolerates. *)
Theorem consecutive_quorums_intersect hist b c b' c' oc oc' (Q Q' faulty : gset N) : accepted ((b', c') :: (b, c) :: hist) -> reads b oc c -> reads b' oc' c' ->
  NoDup (cn_Id <$> omap id (oc_Consenters oc)) -> NoDup (cn_Id <$> omap id (oc_Consenters oc')) ->
  Q ⊆ ids c -> Q' ⊆ ids c' -> (quorum_of (length (oc_Consenters oc)) <= Z.of_nat (size Q))%Z -> (quorum_of (length (oc_Consenters oc')) <= Z.of_nat (size Q'))%Z ->
  (Z.of_nat (size faulty) <= Z.min (faults_of (length (oc_Consenters oc))) (faults_of (length (oc_Consenters oc'))))%Z ->
  exists p, p ∈ Q /\ p ∈ Q' /\ p ∉ faulty.
Proof.
  intros Ha Hr Hr' Hnd Hnd' HQ HQ' Hq Hq' Hfaulty. destruct (accepted_step _ _ _ _ _ Ha) as (Hprev & _ & Hf & Hf' & now & M).
  destruct (consenter_ids_eq _ _ (accepted_consistent _ _ _ _ Hprev Hr) Hnd) as [_ Hs]. destruct (consenter_ids_eq _ _ (accepted_consistent _ _ _ _ Ha Hr') Hnd') as [_ Hs'].
  destruct (membership_ids _ _ _ Hf Hf' M) as (k & H1 & H2 & Hsub). fold (ids c) in Hs. fold (ids c') in Hs'. rewrite <-Hs in *. rewrite <-Hs' in *.
  assert (size faulty < size (Q ∩ Q')) as Hlt.
  { destruct Hsub as [Hsub|Hsub].
    - pose proof (quorum_intersection _ _ _ _ _ H1 Hsub HQ HQ' Hq Hq'). lia.
    - pose proof (quorum_intersection _ _ _ _ _ H2 Hsub HQ' HQ Hq' Hq) as X. assert (Q' ∩ Q = Q ∩ Q') as E by set_solver. rewrite E in X. lia. }
  destruct (pigeonhole_outside (elements (Q ∩ Q')) faulty) as (p & [? ?]%elem_of_elements%elem_of_intersection & Hno); [apply NoDup_elements|done|]. by exists p.
Qed.

(** A configuration that passes the rules has the sizes of requests in order: those that the router admits fit into SmartBFT's; it has as many consenters as parties, each with the host, port and signing certificate of the consenter of the party with its
    identifier; identifiers of parties and shards are in their ranges, so that none is cut off by the conversion to sixteen bits and no shard is that of the consensus; and no two nodes of the ordering service share a signing key. *)
Theorem accepted_config_sound now env partyID b : ValidateNewConfig now env partyID = Ok tt -> NewBundleFromEnvelope env = Ok b ->
  exists oc c, reads b oc c /\
  (exists batching size bft, sc_BatchingConfig c = Some batching /\ bg_BatchSize batching = Some size /\ (sc_ConsensusConfig c ≫= cs_SmartBFTConfig) = Some bft /\ bs_AbsoluteMaxBytes size = oc_AbsoluteMaxBytes oc /\
     (0 < bg_RequestMaxBytes batching <= sb_RequestMaxBytes bft)%N /\ (sb_RequestMaxBytes bft <= sb_RequestBatchMaxBytes bft)%N) /\
  length (oc_Consenters oc) = length (sc_PartiesConfig c) /\
  (forall consenter, Some consenter ∈ oc_Consenters oc -> exists party node, party_map c !! cn_Id consenter = Some party /\ pc_ConsenterConfig party = Some node /\
     cn_Host consenter = nc_Host node /\ cn_Port consenter = nc_Port node /\ cn_Identity consenter = nc_SignCert node) /\
  (forall p, p ∈ sc_PartiesConfig c -> exists party, p = Some party /\ (1 <= pc_PartyID party <= sc_MaxPartyID c)%N /\ u16 (pc_PartyID party) = pc_PartyID party /\
     forall k, k ∈ shard_ids party -> (1 <= k < ShardIDConsensus)%N /\ u16 k = k) /\
  exists keys, omapM node_key (concat (signCerts <$> omap id (sc_PartiesConfig c))) = Ok keys /\ NoDup keys.
Proof.
  intros Hv Hb. destruct (ValidateNewConfig_inv _ _ _ _ Hv Hb) as (oc & c & orgs & Hr & Hparam & Hm & Hp). exists oc, c. split; [done|].
  split; [apply parameters_inv in Hparam as (batching & size & bft & ? & ? & ? & ? & ? & ? & _); by exists batching, size, bft|].
  apply membership_inv in Hm as [Hcc _]. destruct (validateConsenterConsistency_Ok _ _ Hcc) as (Hlen & Hf & Hc). split; [done|].
  unfold validate_parties in Hp. apply bind_Ok_inv in Hp as (? & _ & Hp). apply guard_err_Ok in Hp as [_ Hp]. apply bind_Ok_inv in Hp as ([] & Hids%wrap_err_Ok & Hp). apply bind_Ok_inv in Hp as (? & _ & Hkeys).
  split_and!; [| |by apply validateUniqueSigningCerts_Ok].
  - intros consenter Hin. destruct (Hc _ Hin) as (c' & [= <-] & m & party & node & [_ ->]%parties_by_id_map & Ep & En & Hrest). exists party, node. done.
  - intros p Hin. destruct (validatePartyAndShardIDs_Ok _ _ Hids _ Hin) as (party & -> & ? & ? & Hshards). exists party. split_and!; [done|lia|lia|by apply u16_small|].
    intros k (batcher & -> & (o & Ho & E)%list_elem_of_omap)%list_elem_of_fmap. cbn in E. subst o. destruct (Hshards _ Ho) as (batcher' & [= <-] & ?). split; [done|]. apply u16_small. unfold ShardIDConsensus in *. lia.
Qed.
End Claims.

(** ** Config requests *)
Section Requests.
Context `{FC : FabricCodecs} {RC : RequestCodecs} `{Sha256} {Config Resources : Type} `{EqDecision Config} `{CT : !ConfigTx Config Resources}.

(** The structure and signature of a request are those of its payload. *)
Lemma VerifyStructure_payload verifier r r' : rq_Payload r = rq_Payload r' -> rq_Signature r = rq_Signature r' -> VerifyStructureAndClassify verifier r = VerifyStructureAndClassify verifier r'.
Proof.
  intros E1 E2. unfold VerifyStructureAndClassify, SigFilter_VerifyAndClassify, requestToSignedData. by rewrite E1, E2.
Qed.
Lemma ValidateConfigRequest_Ok verifier bundle envelope : ValidateConfigRequest verifier bundle envelope = Ok tt <->
  exists payload config lastUpdate expected, (dec (env_Payload envelope) : option Payload) = Some payload /\ dec (pl_Data payload) = Some (mkConfigMessage (Some config) (Some lastUpdate)) /\
    VerifyStructureAndClassify verifier (envelope_request envelope None) = Ok HeaderType_CONFIG /\ VerifyStructureAndClassify verifier (envelope_request lastUpdate None) = Ok HeaderType_CONFIG_UPDATE /\
    AuthorizeAndVerifyConfigUpdate lastUpdate bundle = Ok expected /\ cm_Config expected = Some config.
Proof.
  assert (forall env t, verifyRequest verifier env t = Ok tt <-> VerifyStructureAndClassify verifier (envelope_request env None) = Ok t) as Hv.
  { intros env t. unfold verifyRequest. split; [intros X; apply bind_Ok_inv in X as (t' & -> & X); by apply guard_err_Ok in X as [->%negb_false_iff%Z.eqb_eq _]|]. intros ->. cbn. by rewrite Z.eqb_refl. }
  unfold ValidateConfigRequest. split.
  - intros X. apply bind_Ok_inv in X as ([] & E1%wrap_err_Ok%Hv & X). apply bind_Ok_inv in X as (payload & E2%of_option_Ok & X). apply bind_Ok_inv in X as ([oc ou] & E3%wrap_err_Ok%of_option_Ok & X).
    apply bind_Ok_inv in X as (lastUpdate & E4%of_option_Ok & X). apply bind_Ok_inv in X as (config & E5%of_option_Ok & X). cbn in E4, E5. subst oc ou. apply bind_Ok_inv in X as ([] & E6%wrap_err_Ok%Hv & X).
    apply bind_Ok_inv in X as (expected & E7%wrap_err_Ok & X). apply guard_err_Ok in X as [E8%negb_false_iff%bool_decide_eq_true _]. by exists payload, config, lastUpdate, expected.
  - intros (payload & config & lastUpdate & expected & E1 & E2 & E3%Hv & E4%Hv & E5 & E6). rewrite E3. cbn [wrap_err mbind outcome_bind]. unfold unmarshal. rewrite E1. cbn [of_option mbind outcome_bind].
    rewrite E2. cbn [of_option wrap_err mbind outcome_bind cm_LastUpdate cm_Config]. rewrite E4. cbn [wrap_err mbind outcome_bind]. rewrite E5. cbn [wrap_err mbind outcome_bind]. by rewrite E6, bool_decide_true.
Qed.

Lemma classified_type_Ok verifier request t : VerifyStructureAndClassify verifier request = Ok t -> classified_type verifier request = t.
Proof.
  unfold VerifyStructureAndClassify, SigFilter_VerifyAndClassify, classified_type. intros X. apply bind_Ok_inv in X as (sf & ->%of_option_Ok & X).
  apply bind_Ok_inv in X as ([sd t'] & ->%wrap_err_Ok & X). destruct (_ || _); outcome_inv; congruence.
Qed.

(** C39: The config request that a consenter builds from an update that it verified is validated by every consenter with the same configuration; and two config requests that are validated under one configuration
    with the same last update have the same configuration, so that a leader has no choice but to propose what the update gives. *)
Theorem proposed_config_validated verifier bundle request signer nonce now configRequest : rq_Payload request <> Some [] ->
  VerifyStructureAndClassify verifier request = Ok HeaderType_CONFIG_UPDATE -> ProposeConfigUpdate request bundle signer nonce now verifier = Ok configRequest ->
  let proposed := mkEnvelope (slice_bytes (rq_Payload configRequest)) (rq_Signature configRequest) in
  ValidateConfigRequest verifier bundle proposed = Ok tt /\
  forall other, ValidateConfigRequest verifier bundle other = Ok tt ->
    let content (env : Envelope) : option (ConfigMessage Config) := p ← (dec (env_Payload env) : option Payload); dec (pl_Data p) in
    (content other ≫= cm_LastUpdate) = (content proposed ≫= cm_LastUpdate) -> content other = content proposed.
Proof.
  intros Hne Hreq X. unfold ProposeConfigUpdate in X. apply bind_Ok_inv in X as (m & Em%wrap_err_Ok & X). apply wrap_err_Ok in X. unfold BuildVerifiedConfigRequest in X.
  apply bind_Ok_inv in X as (env & Eenv%wrap_err_Ok & X). apply guard_err_Ok in X as [Ht%negb_false_iff%Z.eqb_eq X]. apply bind_Ok_inv in X as (t & Et%wrap_err_Ok & X). apply bind_Ok_inv in X as ([] & _ & [= <-]).
  rewrite (classified_type_Ok _ _ _ Et) in Ht. subst t.
  assert (exists h data, enc m = Some data /\ payload_bytes h data = Some (env_Payload env)) as (h & data & Hdata & Hpay).
  { unfold createSignedConfigEnvelopeWithTxID in Eenv. apply bind_Ok_inv in Eenv as (? & _ & Eenv). apply bind_Ok_inv in Eenv as (? & _ & Eenv). apply bind_Ok_inv in Eenv as (? & _ & Eenv).
    apply bind_Ok_inv in Eenv as (data & ?%marshal_or_panic_Ok & Eenv). apply bind_Ok_inv in Eenv as (payload & ?%or_panic_Ok%of_option_Ok & Eenv). apply bind_Ok_inv in Eenv as (? & _ & [= <-]). by eexists _, data. }
  assert (tx_ProposeConfigUpdate bundle (mkEnvelope (slice_bytes (rq_Payload request)) (rq_Signature request)) = Ok m) as Hprop by (unfold AuthorizeAndVerifyConfigUpdate in Em; apply bind_Ok_inv in Em as (? & ?%wrap_err_Ok & Em); by apply bind_Ok_inv in Em as (? & _ & [= <-])).
  destruct (proposed_update _ _ _ Hprop) as [Hlast [config Hconfig]]. destruct (payload_roundtrip _ _ _ Hpay) as (p & Hp & Hpd). apply dec_enc in Hdata.
  assert (slice_bytes (nil_if_empty (env_Payload env)) = env_Payload env) as Hs by by destruct (env_Payload env). cbn zeta. cbn [envelope_request rq_Payload rq_Signature]. rewrite Hs. destruct env as [payload sig]. cbn [env_Payload env_Signature] in *.
  assert (dec (pl_Data p) = Some (mkConfigMessage (Some config) (Some (mkEnvelope (slice_bytes (rq_Payload request)) (rq_Signature request))))) as Hmsg.
  { rewrite Hpd, Hdata. destruct m. cbn in *. by subst. }
  split.
  - apply ValidateConfigRequest_Ok. eexists p, config, _, m. cbn [env_Payload]. split_and!; [done|done| | |done|done].
    + rewrite <-Et. by apply VerifyStructure_payload.
    + rewrite <-Hreq. apply VerifyStructure_payload; [|done]. cbn. destruct (rq_Payload request) as [[|]|]; done.
  - intros other (p' & config' & u' & expected & Ep' & Em' & _ & _ & Ea & Ec)%ValidateConfigRequest_Ok. cbn [env_Payload]. rewrite Ep', Hp. cbn [mbind option_bind]. rewrite Em', Hmsg. cbn. intros [= ->]. rewrite Em in Ea. injection Ea as <-. by rewrite <-Ec, Hconfig.
Qed.
End Requests.

(** ** The rules in the consensus

    The consensus with these rules: a config request that a consenter accepts from a leader, after the configuration in force, extends the accepted configurations. *)
Section InConsensus.
Context `{FC : FabricCodecs} {RC : RequestCodecs} `{BFTCodecs} `{Sha256} {R : MapRange} `{ConfigLibrary} {D : Type} {Config Resources : Type} `{EqDecision Config} `{CT : !ConfigTx Config Resources}.
Definition rules_environment (base : Environment) (now : Z) (verifier : RulesVerifier) (resources : Resources) (bundles : N -> Bundle) : Environment :=
  {| verify_signature := verify_signature; sign := sign; ExtractSmartBFTConfigFromBlock := ExtractSmartBFTConfigFromBlock;
     Consensus.ValidateConfigRequest := ConfigRules.ValidateConfigRequest verifier resources;
     Consensus.ValidateNewConfig := ConfigRules.ValidateNewConfig now;
     Consensus.ValidateTransition seq := ConfigRules.ValidateTransition now (bundles seq) |}.
Lemma consensus_extends_history base now verifier resources bundles (c : Consensus D) req num info ce cr hist shared b' oc' shared' :
  verifyControlEvent (H5 := rules_environment base now verifier resources bundles) c req num = Ok (info, ce) ->
  ce_Complaint ce = None -> ce_BAF ce = None -> ce_ConfigRequest ce = Some cr -> accepted ((bundles (c_configSeq c), shared) :: hist) -> NewBundleFromEnvelope (cr_Envelope cr) = Ok b' -> reads b' oc' shared' ->
  accepted ((b', shared') :: (bundles (c_configSeq c), shared) :: hist) /\ ConfigRequest_ConfigSequence cr = Ok (u64_incr (c_configSeq c)).
Proof.
  intros X E1 E2 E3 Ha Hb Hr. unfold verifyControlEvent in X. apply bind_Ok_inv in X as (ce' & _ & X). apply bind_Ok_inv in X as (id & _ & X).
  assert (ce' = ce) as ->.
  { destruct (ce_Complaint ce'), (ce_BAF ce'), (ce_ConfigRequest ce'), (ce_AssemblerReport ce'); outcome_inv; by simplify_eq. }
  rewrite E1, E2, E3 in X. outcome_inv. apply negb_false_iff, N.eqb_eq in Hguard. subst. split; [|done].
  repeat match goal with u : unit |- _ => destruct u end. eapply (accepted_next now (c_PartyID c) (cr_Envelope cr)); [exact Ha|exact Hb|exact Hr|exact Hrun0|exact Hrun2].
Qed.
End InConsensus.

(** ** Panics *)
Definition safe {A} (o : outcome A) : Prop := forall e, o <> Panic e.
Lemma safe_Ok {A} (a : A) : safe (Ok a).
Proof. done. Qed.
Lemma safe_Err {A} e : safe (Err e : outcome A).
Proof. done. Qed.
Lemma safe_bind {A B} (o : outcome A) (f : A -> outcome B) : safe o -> (forall a, o = Ok a -> safe (f a)) -> safe (o ≫= f).
Proof. destruct o; cbn; auto; [done|]. intros X _. by destruct (X e). Qed.
Lemma safe_guard {A} b e (k : outcome A) : (b = false -> safe k) -> safe (guard_err b e k).
Proof. by destruct b; cbn; auto. Qed.
Lemma safe_wrap {A} e (o : outcome A) : safe o -> safe (wrap_err e o).
Proof. by destruct o; cbn; auto. Qed.
Lemma safe_of_option {A} e (o : option A) : safe (of_option e o).
Proof. by destruct o. Qed.
Lemma safe_omapM {A B} (f : A -> outcome B) l : (forall x, x ∈ l -> safe (f x)) -> safe (omapM f l).
Proof.
  induction l as [|x l IH]; intros Hf; cbn; [done|]. apply safe_bind; [apply Hf; set_solver|]. intros y _. apply safe_bind; [apply IH; set_solver|done].
Qed.
Lemma safe_ofoldl {A B} (f : A -> B -> outcome A) (P : A -> Prop) a l : P a -> (forall v x, P v -> x ∈ l -> safe (f v x) /\ forall v', f v x = Ok v' -> P v') -> safe (ofoldl f a l).
Proof.
  revert a. induction l as [|x l IH]; intros a Ha Hf; cbn; [done|]. apply safe_bind; [apply Hf; [done|set_solver]|]. intros v E. apply IH; [eapply Hf; [exact Ha| |exact E]; set_solver|]. intros; apply Hf; set_solver.
Qed.
Lemma safe_fold {A B} (f : A -> B -> outcome A) a l : (forall v x, x ∈ l -> safe (f v x)) -> safe (ofoldl f a l).
Proof. intros Hf. apply (safe_ofoldl f (fun _ => True)); [done|]. intros v x _ Hx. split; [by apply Hf|done]. Qed.
Lemma safe_each {A} (f : A -> outcome unit) l : (forall x, x ∈ l -> safe (f x)) -> safe (each f l).
Proof. intros Hf. apply safe_fold. auto. Qed.
Ltac safety := repeat first [ match goal with Hs : _ |- safe _ => solve [apply Hs] end | match goal with |- forall _, _ => intro end | apply safe_Ok | apply safe_Err | apply safe_wrap | apply safe_of_option | apply safe_bind | apply safe_guard | apply safe_each | apply safe_omapM | apply safe_fold
  | match goal with |- safe (match ?x with _ => _ end) => destruct x end ].

Section Panics.
Context `{ConfigLibrary} {R : MapRange}.

Lemma parse_safe raw : safe (parseCertificateFromBytes raw).
Proof. unfold parseCertificateFromBytes. safety. Qed.
Lemma verify_node_safe now t s i n c1 c2 : safe (verify_node now t s i n c1 c2).
Proof. unfold verify_node, verifyCert. safety; apply parse_safe. Qed.
Lemma certificates_safe now party i : safe (validatePartyCertificates now party i).
Proof. unfold validatePartyCertificates, validateCACert. safety; apply parse_safe || apply verify_node_safe. Qed.
Lemma unique_certs_safe parties : safe (validateUniqueSigningCerts parties).
Proof. unfold validateUniqueSigningCerts, add_owner. safety; apply parse_safe. Qed.
Lemma transition_safe now current next : safe (NewBundleFromEnvelope next) -> safe (ValidateTransition now current next).
Proof.
  intros Hb. unfold ValidateTransition, parties_by_id, computePartyChanges, compare_party, validatePartyModification, check_changes. safety.
Qed.
Lemma policy_safe policy cs : safe (validateBlockValidationPolicy policy cs).
Proof.
  assert (forall n rules, safe (ofoldl (check_rule n) (replicate n false) rules)) as Hrules.
  { intros n rules. apply (safe_ofoldl _ (fun seen => length seen = n)); [by rewrite length_replicate|]. intros seen rule Hlen _. unfold check_rule. split.
    - apply safe_bind; [apply safe_of_option|]. intros [idx| |] _; [|apply safe_Err..]. apply safe_guard. intros [?%Z.ltb_ge G%Z.leb_gt]%orb_false_iff. unfold index.
      destruct (lookup_lt_is_Some_2 seen (Z.to_nat idx)) as [? ->]; [lia|]. safety.
    - intros seen' X. outcome_inv. destruct v; outcome_inv. by rewrite length_insert. }
  unfold validateBlockValidationPolicy, unmarshal, check_identity. safety.
Qed.

(** What a configuration needs for the rules to go through without a panic: the sizes of batches, no nil organization, and the orderer group. *)
Definition complete (b : Bundle) (oc : OrdererConfig) (c : SharedConfig) : Prop :=
  (forall batching, sc_BatchingConfig c = Some batching -> is_Some (bg_BatchSize batching)) /\ (forall name org, oc_Organizations oc !! name = Some org -> is_Some org) /\ is_Some (bu_OrdererPolicies b).
Lemma parameters_safe oc c partyID : (forall batching, sc_BatchingConfig c = Some batching -> is_Some (bg_BatchSize batching)) -> safe (validate_parameters oc c partyID).
Proof.
  intros Hs. unfold validate_parameters, validateBatchTimeout, positive_duration, validateSmartBFTConfig, Validate. safety.
  match goal with Hx : of_option _ (sc_BatchingConfig c) = Ok _ |- _ => apply of_option_Ok in Hx; destruct (Hs _ Hx) as [size ->] end. done.
Qed.
Lemma membership_safe b oc c : (forall name org, oc_Organizations oc !! name = Some org -> is_Some org) -> is_Some (bu_OrdererPolicies b) -> safe (validate_membership b oc c).
Proof.
  intros Ho [p Hp]. unfold validate_membership, validateOrdererOrgEndpoints, validateConsenterConsistency, check_consenter, parties_by_id, orgs_by_msp, orgs_by_party, validateTLSCACertsConsistency, certificateSetsEqual.
  rewrite Hp. cbn [deref]. pose proof policy_safe as Hpolicy. safety.
  match goal with Hx : _ ∈ _ |- _ => apply list_elem_of_fmap in Hx as ([name org] & -> & Hin%elem_of_range) end. destruct (Ho _ _ Hin) as [? ->]. done.
Qed.
Lemma parties_safe now b c orgs : Forall is_Some (sc_PartiesConfig c) -> safe (validate_parties now b c orgs).
Proof.
  rewrite Forall_forall. intros Hf. pose proof unique_certs_safe as Hunique. pose proof certificates_safe as Hcerts.
  unfold validate_parties, validatePartyAndShardIDs, check_shard, validateRouterAndAssemblerEndpoints. safety.
  all: match goal with Hx : _ ∈ sc_PartiesConfig _ |- _ => destruct (Hf _ Hx) as [? ->] end; done.
Qed.
(** C40: The rules never panic on a configuration that has the sizes of its batches, as long as Fabric gives no nil organization and the orderer group; a transition never does. Without the sizes of the batches, which may be missing from the message,
    the check of an otherwise proper beginning panics. *)
Theorem rules_panic_only_without_batch_size now env partyID current b oc c : NewBundleFromEnvelope env = Ok b -> reads b oc c ->
  safe (ValidateTransition now current env) /\
  (complete b oc c -> safe (ValidateNewConfig now env partyID)) /\
  (forall batching consensus, sc_BatchingConfig c = Some batching -> sc_ConsensusConfig c = Some consensus -> validateBatchTimeout (bg_BatchTimeouts batching) = Ok tt -> bg_BatchSize batching = None ->
     ~ safe (ValidateNewConfig now env partyID)).
Proof.
  intros Hb [Eo Ec]. split; [apply transition_safe; by rewrite Hb|].
  assert (ValidateNewConfig now env partyID = (_ ← validate_parameters oc c partyID; orgs ← validate_membership b oc c; validate_parties now b c orgs)) as ->.
  { unfold ValidateNewConfig. rewrite Hb. cbn [wrap_err mbind outcome_bind]. rewrite Eo. cbn [of_option mbind outcome_bind]. by rewrite Ec. }
  split.
  - intros (H1 & H2 & H3). apply safe_bind; [by apply parameters_safe|]. intros _ _. apply safe_bind; [by apply membership_safe|]. intros orgs [Hm _]%membership_inv. apply parties_safe.
    by apply validateConsenterConsistency_Ok in Hm as (_ & ? & _).
  - intros batching consensus E1 E2 E3 E4 X. unfold validate_parameters in X. rewrite E1, E2 in X. cbn [of_option mbind outcome_bind] in X. rewrite E3, E4 in X. by eapply X.
Qed.
End Panics.

(** ** A service of four parties

    Certificates are two bytes: what for, and of whom. A fifth party is added, then the second one is removed. *)
Module RulesSample.
Definition cert (role who : N) : bytes := [byte_of_N role; byte_of_N who].
Definition node (role who : N) : NodeConfig := mkNodeConfig "host" who (cert 1 who) (cert role who).
Definition party (who : N) : PartyConfig :=
  mkPartyConfig who [cert 0 0] [cert 0 0] (Some (node 2 who)) [Some (mkPartyBatcherConfig 1 "host" who (cert 5 who) (cert 1 who))] (Some (node 3 who)) (Some (node 4 who)).
Definition bft : SmartBFTConfig := mkSmartBFTConfig 10 1000 "1" 10 10 "1" "2" "3" "1" "2" "1" 1 1 "1" false false true 1 100 "1".
Definition shared (parties : list PartyConfig) (max : N) : SharedConfig :=
  mkSharedConfig (Some <$> parties) (Some (mkConsensusConfig (Some bft))) (Some (mkBatchingConfig (Some (mkBatchTimeouts "1" "2" "3" "4")) (Some (mkBatchSize 1 1000 1)) 100)) max.
Definition config1 : SharedConfig := shared (party <$> [1; 2; 3; 4]%N) 4.
Definition config2 : SharedConfig := shared (party <$> [1; 2; 3; 4; 5]%N) 5.
Definition config3 : SharedConfig := shared (party <$> [1; 3; 4; 5]%N) 5.
(** The second party appears twice, with other nodes the first time, and so does the third consenter, under another organization. *)
Definition ghost : PartyConfig := mkPartyConfig 2 [cert 0 0] [cert 0 0] (Some (node 2 9)) [Some (mkPartyBatcherConfig 1 "host" 9 (cert 5 9) (cert 1 9))] (Some (node 3 9)) (Some (node 4 9)).
Definition config4 : SharedConfig := shared ([party 1; ghost] ++ (party <$> [2; 3; 4]%N)) 4.
Definition no_size : SharedConfig := mkSharedConfig [] (Some (mkConsensusConfig (Some bft))) (Some (mkBatchingConfig (Some (mkBatchTimeouts "1" "2" "3" "4")) None 100)) 0.
Definition consenter (msp : string) (who : N) : Consenter := mkConsenter who "host" who msp (cert 3 who) [] [].
Definition consenters (k : N) : list Consenter :=
  match k with
  | 1 => consenter "org" <$> [1; 2; 3; 4]
  | 2 => consenter "org" <$> [1; 2; 3; 4; 5]
  | 3 => consenter "org" <$> [1; 3; 4; 5]
  | 4 => [consenter "org" 1; consenter "org" 2; consenter "org" 3; consenter "rog" 3; consenter "org" 4]
  | _ => []
  end%N.
Definition identity_of (msp : string) (id : bytes) : bytes := (if bool_decide (msp = "org"%string) then [] else [x01]) ++ id.
Definition policy_of (k : N) : SignaturePolicyEnvelope :=
  let n := length (consenters k) in
  mkSPE (Some (NOutOf (quorum_of n) (signed_by <$> seq 0 n))) ((fun c => identity_principal (identity_of (cn_MspId c) (cn_Identity c))) <$> consenters k).
Definition org (msp : string) : OrdererOrg := mkOrdererOrg msp msp ["endpoint"%string] [cert 0 0] [].
Definition bundle (k : N) : Bundle :=
  mkBundle "channel" (k - 1) (Some (mkOrdererConfig [byte_of_N k] 1000 {["org" := Some (org "org"); "rog" := Some (org "rog")]} (Some <$> consenters k)))
    (Some {[BlockValidationPolicyKey := Some (mkConfigPolicy (Some (mkPolicy Policy_SIGNATURE [byte_of_N k])))]}).
Definition tag (bs : bytes) : N := match bs with [b] => Byte.to_N b | _ => 0 end.

Definition indices (rules : list (option SignaturePolicy)) : option (list Z) := mapM (fun r => match r with Some (SignedBy i) => Some i | _ => None end) rules.
Lemma indices_eq rules l : indices rules = Some l -> rules = (fun i => Some (SignedBy i)) <$> l.
Proof. unfold indices. rewrite mapM_Some. induction 1 as [|[[]|] ? ? ? E _ IH]; simplify_eq/=; by f_equal. Qed.
#[export] Instance principal_eq_dec : EqDecision MSPPrincipal.
Proof. solve_decision. Defined.
Definition same_policy (e e' : SignaturePolicyEnvelope) : bool :=
  match spe_Rule e, spe_Rule e' with
  | Some (NOutOf n rules), Some (NOutOf n' rules') =>
      bool_decide (n = n') && bool_decide (indices rules = indices rules') && bool_decide (is_Some (indices rules)) && bool_decide (spe_Identities e = spe_Identities e')
  | _, _ => false
  end.
Lemma same_policy_eq e e' : same_policy e e' = true -> e = e'.
Proof.
  destruct e as [[[|n rules|]|] ids], e' as [[[|n' rules'|]|] ids']; try done. unfold same_policy. cbn [spe_Rule spe_Identities]. rewrite !andb_true_iff, !bool_decide_eq_true. intros (((-> & E) & [l Hl]) & ->).
  rewrite Hl in E. symmetry in E. apply indices_eq in Hl, E. by subst.
Qed.
Definition policy_tags : list N := [1; 2; 3; 4]%N.
Definition find_policy (e : SignaturePolicyEnvelope) : option N := snd <$> list_find (fun k => same_policy e (policy_of k) = true) policy_tags.
#[export] Instance sample_policies : Codec SignaturePolicyEnvelope.
Proof.
  refine {| enc e := (fun k => [byte_of_N k]) <$> find_policy e; dec bs := if bool_decide (tag bs ∈ policy_tags) then Some (policy_of (tag bs)) else None |}.
  intros e bs (k & Hk & ->)%fmap_Some. unfold find_policy in Hk. apply fmap_Some in Hk as ([i k'] & (Hi & ->%same_policy_eq & _)%list_find_Some & ->). cbn [snd]. apply list_elem_of_lookup_2 in Hi.
  assert (tag [byte_of_N k'] = k') as Ht by (unfold policy_tags in Hi; set_unfold in Hi; destruct Hi as [->|[->|[->|[->|[]]]]]; done). by rewrite Ht, bool_decide_true.
Defined.

Definition duration (text : string) : option Z := match text with "1" => Some 1 | "2" => Some 2 | "3" => Some 3 | "4" => Some 4 | _ => None end%Z%string.
#[export] Instance sample_library : ConfigLibrary.
Proof.
  refine {|
    NewBundleFromEnvelope env := if bool_decide (1 <= tag (env_Payload env) <= 5)%N then Ok (bundle (tag (env_Payload env))) else Err "no config";
    unmarshal_SharedConfig bs := match tag bs with 1 => Some config1 | 2 => Some config2 | 3 => Some config3 | 4 => Some config4 | 5 => Some no_size | _ => None end%N;
    NewIdentity_bytes := identity_of;
    SatisfiesPrincipal id p := bool_decide (p = Some (mkMSPPrincipal MSPPrincipal_IDENTITY id));
    ParseDuration := duration;
    ParseOrdererEndpoint _ := Some (mkOrdererEndpoint [BroadcastAPI; DeliverAPI] "host" 1);
    pem_Decode bs := Some ("CERTIFICATE"%string, bs);
    ParseCertificate bs := Some (mkCertificate bs (bool_decide (bs = cert 0 0)) 5 bs);
    chain_verifies _ roots _ t := bool_decide (roots <> []) && (5 <=? t)%Z |}.
  intros id bs E%bool_decide_eq_true. by injection E as ->.
Defined.
Definition config_tx (k : N) : Envelope := mkEnvelope [byte_of_N k] [].
#[local] Existing Instance range_canonical.

Lemma transitions_accepted : ValidateTransition 7 (bundle 1) (config_tx 2) = Ok tt /\ ValidateTransition 7 (bundle 2) (config_tx 3) = Ok tt.
Proof. vm_compute. done. Qed.
Lemma unchanged_accepted : ValidateTransition 7 (bundle 3) (config_tx 3) = Ok tt.
Proof. vm_compute. done. Qed.
Definition orderer_config (k : N) : OrdererConfig := default (mkOrdererConfig [] 0 ∅ []) (bu_OrdererConfig (bundle k)).
Lemma all_read k c : (1 <= k <= 5)%N -> unmarshal_SharedConfig [byte_of_N k] = Some c -> reads (bundle k) (orderer_config k) c.
Proof. intros _ E. by split. Qed.
Lemma new_accepted k : k ∈ [1; 2; 3; 4]%N -> ValidateNewConfig 7 (config_tx k) 1 = Ok tt.
Proof.
  intros Hk. assert (forallb (fun k => is_ok (ValidateNewConfig 7 (config_tx k) 1)) [1; 2; 3; 4]%N = true) as E by (vm_compute; reflexivity).
  rewrite forallb_forall in E. apply list_elem_of_In, E in Hk. destruct (ValidateNewConfig 7 (config_tx k) 1) as [[]| |]; done.
Qed.
Lemma history : accepted [(bundle 3, config3); (bundle 3, config3); (bundle 2, config2); (bundle 1, config1)].
Proof.
  pose proof transitions_accepted as [T1 T2]. pose proof unchanged_accepted as T3.
  assert (accepted [(bundle 1, config1)]) as A1 by (apply (accepted_first 7 1 (config_tx 1) _ (orderer_config 1)); [done|by apply all_read|apply new_accepted, (bool_decide_unpack _); reflexivity]).
  assert (accepted [(bundle 2, config2); (bundle 1, config1)]) as A2 by (apply (accepted_next 7 1 (config_tx 2) _ _ _ _ (orderer_config 2)); [done|done|by apply all_read|apply new_accepted, (bool_decide_unpack _); reflexivity|done]).
  assert (accepted [(bundle 3, config3); (bundle 2, config2); (bundle 1, config1)]) as A3 by (apply (accepted_next 7 1 (config_tx 3) _ _ _ _ (orderer_config 3)); [done|done|by apply all_read|apply new_accepted, (bool_decide_unpack _); reflexivity|done]).
  apply (accepted_next 7 1 (config_tx 3) _ _ _ _ (orderer_config 3)); [done|done|by apply all_read|apply new_accepted, (bool_decide_unpack _); reflexivity|done].
Qed.

Lemma transition_exact_witness : parties_change 7 (parties config1) (parties config2) 4 5.
Proof.
  apply (transition_exact 7 (bundle 1) (orderer_config 1) config1 (config_tx 2) (bundle 2) (orderer_config 2) config2); [by apply all_read|done|by apply all_read| | | |apply transitions_accepted].
  1, 2: apply (bool_decide_unpack _); by vm_compute.
  apply (bool_decide_unpack _); by vm_compute.
Defined.
Lemma party_ids_never_reused_witness : (forall p, p ∈ ids config1 -> p ∉ ids config3 -> p ∉ ids config3) /\ (4 <= 5)%N /\ 2%N ∈ ids config1 /\ 2%N ∉ ids config3.
Proof.
  destruct (party_ids_never_reused _ 0 1 3 _ _ _ _ _ _ history ltac:(lia) eq_refl eq_refl eq_refl) as (_ & [Hmax _] & _ & Hgone & _). split; [exact Hgone|]. split; [exact Hmax|]. split; vm_compute; [done|].
  intros X. by inversion X.
Defined.
Lemma block_policy_quorum_witness : let cs := Some <$> consenters 1 in let signed (l : list N) := EvaluateIdentities (policy_of 1) (cert 3 <$> l) in
  NoDup (consenter_identity <$> omap id cs) /\ signed [4; 1; 2]%N = true /\ signed [4; 2; 7; 8]%N = false.
Proof.
  destruct (block_policy_quorum (Some (mkConfigPolicy (Some (mkPolicy Policy_SIGNATURE [x01])))) (Some <$> consenters 1) [x01] (policy_of 1) (NOutOf 3 (signed_by <$> seq 0 4))) as (Hnd & _);
    [cbn; lia|cbn; lia|by vm_compute|done|done|done|by vm_compute|].
  cbn zeta. split; [exact Hnd|]. by vm_compute.
Defined.
Lemma consecutive_quorums_intersect_witness : exists p, p ∈ ({[1; 2; 3]} : gset N)%N /\ p ∈ ({[1; 3; 4; 5]} : gset N)%N /\ p ∉ ({[1]} : gset N)%N.
Proof.
  assert (accepted [(bundle 2, config2); (bundle 1, config1)]) as Ha.
  { pose proof history as X. inversion X as [|? ? ? ? ? ? ? ? ? X1]; subst. inversion X1 as [|? ? ? ? ? ? ? ? ? X2]; subst. exact X2. }
  apply (consecutive_quorums_intersect [] (bundle 1) config1 (bundle 2) config2 (orderer_config 1) (orderer_config 2)); [exact Ha|by apply all_read|by apply all_read| | | | | | |].
  1, 2: apply (bool_decide_unpack _); by vm_compute.
  1, 2: apply (bool_decide_unpack _); by vm_compute.
  all: by vm_compute.
Defined.

(** A channel whose configurations are numbers, and requests of one client. *)
#[local] Existing Instance sample_fabric.
#[local] Existing Instance sample_sha.
Definition client : SignatureHeader := mkSignatureHeader [x02] [x01].
Definition client_requests : RequestCodecs.
Proof.
  refine {| payload_headers bs := (fun p : Payload => (fun c => mkHeaders (Some c) (Some [x00])) <$> pl_Header p) <$> dec bs;
            signature_header _ := Some client;
            UnmarshalIdentity := Some;
            request_of bs := (fun e : Envelope => mkRequest (nil_if_empty (env_Payload e)) (env_Signature e) None 0) <$> dec bs |}.
  - intros bs p E. rewrite E. cbn. eexists. split; [done|]. by destruct (pl_Header p).
  - intros env bs E. rewrite (dec_enc _ _ E). cbn. by eexists.
Defined.
#[local] Existing Instance client_requests.
#[local] Instance number_messages : Codec (ConfigMessage N).
Proof.
  refine {| enc m := enc (mkConfigEnvelope (cm_Config m) (cm_LastUpdate m)); dec bs := (fun e : ConfigEnvelope => mkConfigMessage (cenv_Config e) (cenv_LastUpdate e)) <$> dec bs |}.
  intros [c u] bs E. by rewrite (dec_enc _ _ E).
Defined.
#[local] Instance number_channel : ConfigTx N N.
Proof.
  refine {| tx_ChannelID _ := "arma"%string;
            tx_ProposeConfigUpdate r env := Ok (mkConfigMessage (Some (r + 1)%N) (Some env));
            tx_NewBundle _ c := of_option "no config" c;
            tx_ValidateNew r r' := fail_if negb (r' =? r + 1)%N with "sequence" ;; Ok tt;
            tx_OrdererCapabilities _ := Some (Ok tt);
            tx_ChannelCapabilities _ := Ok tt;
            channel_header_bytes t _ _ txid := default [] (enc (mkChannelHeader t txid));
            signature_header_bytes _ := [x00];
            payload_bytes h data := enc (mkPayload (Some (slice_bytes (hd_ChannelHeader h))) data) |}.
  - intros r env m [= <-]. split; [done|by eexists].
  - intros h data bs E%dec_enc. by eexists.
Defined.
Definition anyone : RulesVerifier := createVerifier (mkFilterConfig 5000 true "arma" (fun _ => Some (fun _ => true))).
Definition update : Request :=
  mkRequest (enc (mkPayload (enc (mkChannelHeader HeaderType_CONFIG_UPDATE (ComputeTxID [x01] [x02]))) [x07])) [x03] None 0.
Definition leader : SignerSerializer := mkSigner (Ok [x02]) (fun _ => Ok [x04]).
Definition proposal : Request := match ProposeConfigUpdate update 6%N (Some leader) (Ok [x01]) 0 anyone with Ok r => r | _ => update end.
Lemma proposed_config_validated_witness : ValidateConfigRequest anyone 6%N (mkEnvelope (slice_bytes (rq_Payload proposal)) (rq_Signature proposal)) = Ok tt.
Proof.
  apply (proposed_config_validated anyone 6%N update (Some leader) (Ok [x01]) 0 proposal); [by vm_compute|vm_compute; reflexivity|vm_compute; reflexivity].
Defined.

Lemma rules_panic_only_without_batch_size_witness : ~ safe (ValidateNewConfig 7 (config_tx 5) 1) /\ safe (ValidateTransition 7 (bundle 1) (config_tx 5)).
Proof.
  destruct (rules_panic_only_without_batch_size 7 (config_tx 5) 1 (bundle 1) (bundle 5) (orderer_config 5) no_size) as (H1 & _ & H3); [done|by apply all_read|].
  split; [|exact H1]. eapply H3; [done|done|by vm_compute|done].
Defined.
Lemma accepted_config_sound_witness : exists keys, omapM node_key (concat (signCerts <$> omap id (sc_PartiesConfig config1))) = Ok keys /\ NoDup keys.
Proof.
  destruct (accepted_config_sound 7 (config_tx 1) 1 (bundle 1)) as (oc & c & Hr & _ & _ & _ & _ & Hkeys); [apply new_accepted, (bool_decide_unpack _); reflexivity|done|].
  destruct (reads_unique _ _ _ _ _ Hr (all_read 1 config1 ltac:(done) eq_refl)) as [_ ->]. exact Hkeys.
Defined.

(** Two entries for one party pass the rules of a configuration, and next to the four parties before they pass as no change at all. *)
Lemma duplicate_party_accepted : ValidateNewConfig 7 (config_tx 4) 1 = Ok tt /\ ValidateTransition 7 (bundle 1) (config_tx 4) = Ok tt /\
  pc_PartyID <$> omap id (sc_PartiesConfig config4) = [1; 2; 2; 3; 4]%N.
Proof. split; [apply new_accepted, (bool_decide_unpack _); reflexivity|]. by vm_compute. Qed.
(** A party that lists a shard twice may move one of the two batchers to another shard. *)
Definition two_batchers (k : N) : PartyConfig := mkPartyConfig 1 [] [] None [Some (mkPartyBatcherConfig 1 "" 0 [] []); Some (mkPartyBatcherConfig k "" 0 [] [])] None None.
Lemma repeated_shard_moves : validatePartyAndShardIDs [Some (two_batchers 1)] 1 = Ok tt /\ validatePartyModification (two_batchers 1) (two_batchers 2) = Ok true.
Proof. by vm_compute. Qed.
End RulesSample.
